(* ===== verification/_CoqProject ===== *)
-Q . S2P
Prelude.v
GoStd.v
Paths.v
Decimal.v
Text.v
GoNet.v
Prefixes.v
Regex.v
Access.v
AccessCanonical.v
SpecTypes.v
Platform.v
SpecChecks.v
SpecServices.v
SpecEnvironment.v
SpecResources.v
SharedVolumes.v
SpecStorage.v
SpecNetwork.v
SpecWorkloads.v
Provider.v
SpecActions.v
SpecBindings.v
SpecSidecars.v
SpecOrder.v
SpecNormalize.v
WellFormed.v
Determinism.v
SpecTransfer.v
SpecRelease.v
SpecRecovery.v
Gateway.v
GatewaySafety.v
GatewaySpec.v
StoreErrors.v
License.v
LogQuery.v
LogQueryGrammar.v
AgentAccess.v
EnvFiles.v
Principals.v
Credentials.v
Devices.v
CredentialSafety.v
CredentialRuns.v
DeviceConsent.v
RedisWire.v
RedisTopology.v
Escapes.v
Advisory.v
AdvisorySpec.v
AdvisoryOsv.v
Logmask.v
LogmaskSpec.v
Egress.v
EgressSafety.v
Cipher.v
Traced.v
JsonValue.v
Operations.v
OperationsSpec.v
OperationsCatalog.v
OperationsSafety.v
SecretProvider.v
SecretProviderSpec.v
ExternalDatabase.v
DeploymentTables.v
DeploymentStore.v
DeploymentResume.v
Protocol.v
DeploymentWorker.v
DeploymentQueue.v
DeploymentSteps.v
DeploymentExample.v
DeploymentRefine.v
DeploymentSafety.v
DeploymentHistory.v
DeploymentRun.v
DeploymentDrive.v
VolumeWorker.v
