(* ===== verification/Prelude.v ===== *)
(** * The core of hakopod

    Hakopod (Go) is a self-hosted platform that deploys applications described by a
    TOML document. A revision is the document decoded into [Application] and passed
    through [spec.Normalize] (internal/spec). The control plane (internal/api) lets
    principals in (internal/access, internal/store), accepts revisions into a queue of
    deployments kept in PostgreSQL (internal/store), and workers (internal/worker) take
    them one at a time per application and hand them to the cluster (internal/cluster).
    Beside this path stand the agents' access to the API (internal/operations,
    internal/agentaccess), secrets from external providers (internal/secretprovider),
    the serverless gateway (internal/serverless), security advisories
    (internal/advisory), logs (internal/logmask, internal/logquery), licenses
    (internal/license), Redis clusters (internal/database) and external databases
    (internal/externaldatabase). This library models these parts.

    ** Files

    Every definition that models code carries the name it has in the source (a loop
    body or a branch gets a name of its own), and is composed the way the code
    composes it.

    - Prelude: errors, the result monad of Go's [(T, error)], loops, agreement of
      results, generic list lemmas and the tactics [inv_ok], [split_orb], [zify_bool].
    - GoStd: strings as bytes, UTF-8, [strings], [path], [strconv], [netip], and ranging
      over maps. Paths, Prefixes, Regex, Decimal, Text, GoNet, Escapes, JsonValue: further
      parts of Go's library and the facts about them. Cipher: the interface of the
      authenticated cipher. Traced: computations with the trace of what they send.
      Protocol: programs of calls with open answers, and the protocols they obey.
    - SpecTypes: every struct of the format, field assignment, its JSON form. Platform:
      what the code calls outside its own source and Go's library, as classes: [Host]
      (net/url, idna), [ThirdParty] (Kubernetes name validation, cron, YAML), [Quantity]
      (resource quantities), with the laws relied on; the module Concrete instantiates
      them for the witnesses.
    - SpecChecks, SpecEnvironment, SpecResources, SharedVolumes, SpecStorage, SpecNetwork,
      SpecWorkloads, Provider, SpecActions, SpecBindings, SpecSidecars, SpecOrder: one
      group of validators of internal/spec each. SpecServices: the loop over
      [Names(app)] they share. SpecNormalize: [Normalize], their composition; WellFormed:
      what it guarantees; Determinism: that map order does not change its result.
      SpecTransfer: plans that move services and resize volumes, with SHA-256 as the
      class [Digest]. SpecRelease: [Diff] and
      [Warnings]. SpecRecovery: [RecoveryBlocked], [ValidatePreview], [Rebase]. EnvFiles:
      environment files.
    - Access, AccessCanonical: who may reach the management address (access.go,
      connectors.go).
    - Gateway: the gateway's goroutines as a transition system over the shared routes;
      GatewaySafety: its invariants; GatewaySpec: its refinement of the lifecycle of a
      service, and that it drains.
    - Principals: roles, permissions and every test of authority (store.go, humans.go,
      custom_roles.go and others). Credentials: keys, sessions and the principal behind
      them, as transactions on tables, and the key with which a host recovers an
      application. Devices: sign-in from a device and OAuth clients. CredentialSafety,
      CredentialRuns, DeviceConsent: what holds over runs of them.
      StoreErrors: the errors of the store. License: signed licenses and their record.
    - The queue of deployments. DeploymentTables: the rows of deployments, applications,
      attempts, previews and volume resizes, and the session locks. DeploymentStore: each
      transaction and statement of operations.go, deployment_resume.go, recovery.go,
      previews.go, volume_resizes.go and deletion.go; what the other tables answer (limits,
      reservations, sessions, backups) is the class [Others]. DeploymentResume: which
      services a resumed release runs. DeploymentSteps: workers that claim statement by
      statement on their own connections, any of which may be lost, between requests.
      DeploymentQueue: the abstract queue and its invariant; DeploymentRefine: the tables
      implement it; DeploymentSafety, DeploymentHistory: what follows for every run, for
      the rows of releases and for requests that are repeated.
      DeploymentExample: a concrete run.
    - The workers. DeploymentWorker: [run], [recoverRelease], [handleFailure], [finish],
      the guard, [BeforeStep] and the time budgets (worker.go, actions_timeout.go).
      DeploymentRun: the protocol a run obeys. DeploymentDrive: workers that run these
      programs against the store, with lost answers and crashes. VolumeWorker:
      [resizeVolume] (volume_resize.go) and its protocol.
    - Operations, OperationsSpec, OperationsCatalog, OperationsSafety: what an agent can
      invoke (internal/operations). AgentAccess: policies, wildcards, decisions.
    - Egress, EgressSafety: guarded outbound connections. SecretProvider,
      SecretProviderSpec: external secrets. ExternalDatabase: sealed credentials of
      external databases.
    - RedisWire, RedisTopology: the Redis protocol and cluster checks. LogQuery,
      LogQueryGrammar: the query language of logs. Logmask, LogmaskSpec: the log masker.
      Advisory, AdvisorySpec, AdvisoryOsv: advisories, the signed feed, OSV.

    ** State, errors and concurrency

    A validator of the source mutates a service or the services table through a pointer
    and returns an error; here it is a function from the old value to [result] of the new
    one. An error is its format and arguments. A Go map is a [gmap], and a loop over one
    takes its order from the class [RangeOrder], of which only that it is a permutation is
    known. nil and empty slices and maps are one value except where the code tells them
    apart (see SpecTypes). Text is taken to be valid UTF-8 where the code passes it through
    JSON. Integers keep their wrap-around where sums or products are taken ([wrap64]);
    fields of 32 bits are only compared.

    A table is a [gmap] by its key, a transaction a function on the database, a query the
    rows it selects; the time, fresh identifiers and random values are arguments.
    Goroutines and connections are step relations: the gateway by its channel operations,
    workers by single statements with session locks, the requests of the API by whole
    transactions. What is sent to a server or to the cluster is a trace or a call whose
    answer is open. What the statements outside the modelled transactions do to keys and
    device codes is [key_edit] and [code_edit]: revoke, set or forget the second factor,
    take an approval back.

    ** What the theorems show

    - Revisions: the result of [Normalize] is well formed, keeps what was written and does
      not depend on map order; dependencies are ordered topologically or a cycle is named;
      shared volumes are grouped by connected components.
    - Deployments: every run of the store is a run of the abstract queue
      ([store_refines_queue]); releases go one at a time and in order; a worker that kept
      its lock is alone and can finish; a request repeated under its key is accepted once,
      whatever became of its release;
      what a release was asked to be is never rewritten; resuming selects exactly the
      services that must run. Workers: a run obeys its protocol ([run_follows]); with
      crashes, lost answers and workers that do not know they lost their claim, all
      deployments of a release send one specification ([deployed_once_resolved]) and a
      recovery only what succeeded before ([recovery_restores]); a volume is deleted only
      when its data is not needed ([resize_keeps]). One state the queue cannot leave is
      proved reachable ([resumed_resize_stuck]).
    - Access: forwarded addresses cannot be forged, a VPN-only policy is isolated;
      credentials are confined and bounded and do not come back, unless a host renews its
      own; device sessions were consented to; an agent's connection sends one operation within its scope.
    - Gateway: bounds and exclusion in every interleaving, refinement, draining.
    - Data: Redis replies round-trip, a topology covers every slot once, query and wildcard
      languages are decided, secrets go only where they are admitted, sealed credentials
      open only for their endpoint, registered values are masked or the line is withheld, automatic updates
      follow the signed feed, license records do not roll back.

    ** Fuel

    Loops that are not structural take fuel that is shown to be enough: the search of a
    group of services ([visit_fuel_enough]), the dependency traversal
    ([order_visit_fuel]), the wildcard walk ([walk_total]), the lines of an environment
    file ([dotenv_loop_total]), the tokens and the and/or chains of a query, one byte of a
    reply per step of its reader, one byte more than a text for its replacements, the depth
    of a schema's references (33, the bound of the code), and one pass more than there are
    services for the dependents of a resumed one ([with_dependents_closed]).

    ** Assumptions

    A fresh identifier was not used before, and the idempotency key of a resize is not used
    again by its caller after the application is gone, since the identifier of a resize is
    their digest. A call of a worker that fails may have taken effect. The context of a live
    run has a live parent. The audit log and the events of a deployment are not kept.

    ** Not modelled

    TOML, YAML and JSON decoding (third-party or reflective), hence [Parse], [Encode], the
    last step of [Rebase] and [ImportEnvironmentFiles]; Compose import and templates; the
    HTTP handlers, which are input and output around these parts; the SQL of managed
    databases, backups, invitations and managed platforms; the Kubernetes client and what
    it does within a call of a worker; the resync of observations and the renewal of
    certificates; the workers of managed platforms, hostnames and runners; backups, the
    agent and the command-line programs; the dashboard and the installer, which are not
    Go. *)
From stdpp Require Export base gmap strings list fin_maps sorting.
From Stdlib Require Export ZArith Lia.

#[global] Open Scope string_scope.
#[global] Open Scope list_scope.
#[global] Open Scope Z_scope.

(** * Errors

    A Go error built by [fmt.Errorf] is kept as its format string and its
    arguments; [errors.New s] is the format string [s] without arguments.
    Rendering them is the [fmt] package's business and is not modelled. *)

Inductive error : Type :=
  | Errorf (fmt : string) (args : list arg)
with arg : Type :=
  | AStr (s : string)
  | AInt (z : Z)
  | AErr (e : error).

Coercion AStr : string >-> arg.
Coercion AInt : Z >-> arg.
Coercion AErr : error >-> arg.

(** * The result monad: Go's [(T, error)] *)

Inductive result (A : Type) : Type :=
  | Ok (a : A)
  | Err (e : error).
Arguments Ok {A} a.
Arguments Err {A} e.

#[export] Instance result_ret : MRet result := @Ok.
#[export] Instance result_bind : MBind result := λ A B f m,
  match m with Ok a => f a | Err e => Err e end.
#[export] Instance result_fmap : FMap result := λ A B f m,
  match m with Ok a => Ok (f a) | Err e => Err e end.

Definition is_ok {A} (r : result A) : bool :=
  match r with Ok _ => true | Err _ => false end.

(** [if b { return e }] *)
Definition fail_when (b : bool) (e : error) : result unit :=
  if b then Err e else Ok tt.

(** [if err := r; err != nil { return f(err) }] *)
Definition wrap {A} (f : error → error) (r : result A) : result A :=
  match r with Ok a => Ok a | Err e => Err (f e) end.

(** [for _, x := range l { if err := f(x); err != nil { return err } }] *)
Fixpoint iterM {A} (f : A → result unit) (l : list A) : result unit :=
  match l with
  | [] => Ok tt
  | x :: l' => _ ← f x; iterM f l'
  end.

(** The same loop carrying the variables it assigns. *)
Fixpoint foldM {S A} (f : S → A → result S) (s : S) (l : list A) : result S :=
  match l with
  | [] => Ok s
  | x :: l' => s' ← f s x; foldM f s' l'
  end.

(** The same loop over the index and the element, [for i, x := range l]. *)
Fixpoint iteriM {A} (f : Z → A → result unit) (i : Z) (l : list A) : result unit :=
  match l with
  | [] => Ok tt
  | x :: l' => _ ← f i x; iteriM f (i + 1) l'
  end.

(** A loop that rewrites each element of a slice in place. *)
Fixpoint mapM {A B} (f : A → result B) (l : list A) : result (list B) :=
  match l with
  | [] => Ok []
  | x :: l' => y ← f x; ys ← mapM f l'; Ok (y :: ys)
  end.

(** [p != nil] *)
Definition non_nil {A} (o : option A) : bool :=
  match o with Some _ => true | None => false end.

Definition non_empty {A} (l : list A) : bool :=
  match l with [] => false | _ :: _ => true end.

(** ** Characterisations of success *)

Create HintDb go discriminated.
Create HintDb result discriminated.

Section result_lemmas.
Context {A B : Type}.

Lemma Ok_inj (a b : A) : Ok a = Ok b ↔ a = b.
Proof. split; congruence. Qed.

Lemma Ok_inj_1 (a b : A) : Ok a = Ok b → a = b.
Proof. congruence. Qed.

Lemma bind_Ok (m : result A) (f : A → result B) b :
  m ≫= f = Ok b ↔ ∃ a, m = Ok a ∧ f a = Ok b.
Proof. destruct m; naive_solver. Qed.

Lemma wrap_Ok (f : error → error) (m : result A) a : wrap f m = Ok a ↔ m = Ok a.
Proof. destruct m; naive_solver. Qed.

Lemma bind_unit_Ok (m : result unit) (k : result A) a :
  (_ ← m; k) = Ok a ↔ m = Ok tt ∧ k = Ok a.
Proof. destruct m as [[]|]; naive_solver. Qed.

Lemma result_fmap_Ok (f : A → B) (m : result A) b :
  f <$> m = Ok b ↔ ∃ a, m = Ok a ∧ b = f a.
Proof. destruct m; naive_solver. Qed.

Lemma is_ok_true (m : result A) : is_ok m = true ↔ ∃ a, m = Ok a.
Proof. destruct m; naive_solver. Qed.

Lemma if_Ok (b : bool) (m n : result A) a :
  (if b then m else n) = Ok a ↔ (b = true ∧ m = Ok a) ∨ (b = false ∧ n = Ok a).
Proof. destruct b; naive_solver. Qed.
End result_lemmas.

Lemma fail_when_Ok b e u : fail_when b e = Ok u ↔ b = false.
Proof. destruct b, u; naive_solver. Qed.

Lemma fail_when_false b e : b = false → fail_when b e = Ok tt.
Proof. intros ->. done. Qed.

Section loops.
Context {A B S : Type}.

Lemma iterM_Ok (f : A → result unit) l u :
  iterM f l = Ok u ↔ Forall (λ x, f x = Ok tt) l.
Proof.
  destruct u. induction l as [|x l IH]; simpl; [naive_solver|].
  rewrite bind_unit_Ok, IH, Forall_cons. done.
Qed.

Lemma iterM_perm (f : A → result unit) l1 l2 u :
  l1 ≡ₚ l2 → iterM f l1 = Ok u → iterM f l2 = Ok u.
Proof. rewrite !iterM_Ok. by intros ->. Qed.

Lemma iteriM_Ok (f : Z → A → result unit) i l u :
  iteriM f i l = Ok u ↔ ∀ (k : nat) x, l !! k = Some x → f (i + Z.of_nat k) x = Ok tt.
Proof.
  destruct u. revert i. induction l as [|x l IH]; intros i; simpl; [naive_solver|].
  rewrite bind_unit_Ok, IH. split.
  - intros [H0 Hl] [|k] y; simpl; intros Hy.
    + simplify_eq. by rewrite Z.add_0_r.
    + rewrite Nat2Z.inj_succ, <-Z.add_succ_comm. by apply Hl.
  - intros H. split; [by rewrite <-(Z.add_0_r i); apply (H 0%nat)|].
    intros k y Hy. generalize (H (Datatypes.S k) y Hy).
    by rewrite Nat2Z.inj_succ, <-Z.add_succ_comm.
Qed.

Lemma foldM_app (f : S → A → result S) s l1 l2 :
  foldM f s (l1 ++ l2) = s' ← foldM f s l1; foldM f s' l2.
Proof.
  revert s. induction l1 as [|x l1 IH]; intros s; simpl; [done|].
  destruct (f s x); simpl; [apply IH|done].
Qed.

(** An invariant of the loop variable, indexed by what was traversed. *)
Lemma foldM_inv (P : list A → S → Prop) (f : S → A → result S) l s s' :
  P [] s →
  (∀ pre x post t t', l = pre ++ x :: post → P pre t → f t x = Ok t' → P (pre ++ [x]) t') →
  foldM f s l = Ok s' → P l s'.
Proof.
  intros H0 Hstep. cut (∀ pre post t, l = pre ++ post → P pre t → foldM f t post = Ok s' → P l s').
  { intros H. by apply (H [] l). }
  intros pre post. revert pre. induction post as [|x post IH]; intros pre t Hl Ht; simpl.
  - rewrite app_nil_r in Hl. naive_solver.
  - rewrite bind_Ok. intros (t' & Hx & Hf).
    apply (IH (pre ++ [x]) t'); [by rewrite <-app_assoc| |done]. by eapply Hstep.
Qed.

(** Every element was accepted in some state of the loop. *)
Lemma foldM_each (f : S → A → result S) l s s' x : foldM f s l = Ok s' → x ∈ l → ∃ t t', f t x = Ok t'.
Proof.
  revert s. induction l as [|y l IH]; intros s; [intros _ []%not_elem_of_nil|]. cbn [foldM].
  rewrite bind_Ok. intros (t & Hy & Hl) [->|Hx]%elem_of_cons; [by exists s, t|by eapply IH].
Qed.

Lemma mapM_Ok (f : A → result B) l l' :
  mapM f l = Ok l' ↔ Forall2 (λ x y, f x = Ok y) l l'.
Proof.
  revert l'. induction l as [|x l IH]; intros l'; simpl.
  - split; [intros [= <-]; constructor|]. by inversion 1.
  - rewrite bind_Ok. setoid_rewrite bind_Ok. setoid_rewrite IH.
    split; [intros (y & Hx & ys & Hl & [= <-]); by constructor|].
    inversion 1; subst. eauto 6.
Qed.

End loops.

Lemma mapM_Err {A B} (f : A → result B) l e : mapM f l = Err e → ∃ x, x ∈ l ∧ f x = Err e.
Proof.
  induction l as [|x l IH]; [done|]. cbn. destruct (f x) as [y|e'] eqn:Hx; cbn; [|intros [= <-]; exists x; by repeat constructor].
  destruct (mapM f l) as [ys|e']; [done|]. cbn. intros [= <-]. destruct (IH eq_refl) as (z & Hz & Hfz). exists z. by repeat constructor.
Qed.

Lemma mapM_id {A} (f : A → result A) l : Forall (λ x, f x = Ok x) l → mapM f l = Ok l.
Proof. intros H. apply mapM_Ok. by apply Forall_Forall2_diag. Qed.

(** ** Tactics on results

    [inv_ok] turns every hypothesis saying that a chain of checks and binds
    succeeded into the facts it established; [solve_ok] goes the other way. *)

Ltac inv_ok_step :=
  match goal with
  | H : Ok _ = Ok _ |- _ => apply Ok_inj_1 in H; subst
  | H : Err _ = Ok _ |- _ => discriminate H
  | H : Ok _ = Err _ |- _ => discriminate H
  | H : mret _ = Ok _ |- _ => apply Ok_inj_1 in H; subst
  | H : fail_when _ _ = Ok _ |- _ => rewrite fail_when_Ok in H
  | H : wrap _ _ = Ok _ |- _ => rewrite wrap_Ok in H
  | H : (mbind _ _) = Ok _ |- _ =>
      let a := fresh "a" in let Ha := fresh "Hok" in
      apply bind_Ok in H; destruct H as (a & Ha & H);
      try match type of a with unit => destruct a end
  end.
Ltac inv_ok := cbv beta zeta in *; repeat (inv_ok_step; cbv beta zeta in * ).

(** Splits a hypothesis [b1 || ... || bn = false] into its parts. *)
Ltac split_orb :=
  repeat match goal with
  | H : (_ || _) = false |- _ => apply orb_false_iff in H; destruct H
  | H : (_ && _) = true |- _ => apply andb_true_iff in H; destruct H
  | H : negb _ = false |- _ => apply negb_false_iff in H
  | H : negb _ = true |- _ => apply negb_true_iff in H
  end.

Ltac zify_bool :=
  repeat match goal with
  | H : (_ <? _)%Z = _ |- _ => first [apply Z.ltb_lt in H | apply Z.ltb_ge in H]
  | H : (_ <=? _)%Z = _ |- _ => first [apply Z.leb_le in H | apply Z.leb_gt in H]
  | H : (_ =? _)%Z = _ |- _ => first [apply Z.eqb_eq in H | apply Z.eqb_neq in H]
  | H : (_ >? _)%Z = _ |- _ => rewrite Z.gtb_ltb in H
  | H : (_ >=? _)%Z = _ |- _ => rewrite Z.geb_leb in H
  end.

(** Case analysis on the [if] or [match] the goal is stuck on. *)
Ltac case_goal :=
  match goal with
  | |- context [match ?x with _ => _ end] => destruct x eqn:?
  | |- context [if ?x then _ else _] => destruct x eqn:?
  end.

(** ** Agreement

    Two results agree when they succeed with the same values; which error comes
    first may differ. Binding and looping are compatible with it. *)
Definition agree {A} (r1 r2 : result A) : Prop := ∀ a, r1 = Ok a ↔ r2 = Ok a.

#[export] Instance agree_equivalence {A} : Equivalence (@agree A).
Proof.
  split; unfold agree.
  - by intros r a.
  - intros r1 r2 H a. by rewrite H.
  - intros r1 r2 r3 H1 H2 a. by rewrite H1.
Qed.

#[export] Instance bind_agree {A B} :
  Proper (pointwise_relation A agree ==> agree ==> agree) (@mbind result _ A B).
Proof.
  intros f g Hf m n Hm b. rewrite !bind_Ok. split; intros (a & Ha & Hb); exists a.
  - split; [by apply Hm|by apply Hf].
  - split; [by apply Hm|by apply Hf].
Qed.

#[export] Instance wrap_agree {A} f : Proper (agree ==> agree) (@wrap A f).
Proof. intros m n Hm a. by rewrite !wrap_Ok. Qed.

#[export] Instance foldM_agree {S A} :
  Proper (pointwise_relation S (pointwise_relation A agree) ==> eq ==> eq ==> agree) (@foldM S A).
Proof.
  intros f g Hf s _ <- l _ <-. revert s. induction l as [|x l IH]; intros s; [done|]. cbn [foldM].
  apply bind_agree; [exact IH|apply Hf].
Qed.

Lemma agree_is_ok {A} (r1 r2 : result A) : agree r1 r2 → is_ok r1 = is_ok r2.
Proof.
  intros H. destruct r1 as [a|e], r2 as [b|e']; try done.
  - by pose proof (proj1 (H a) eq_refl).
  - by pose proof (proj2 (H b) eq_refl).
Qed.

(** A loop whose iterations commute agrees on every order of its elements. *)
Lemma foldM_perm {S A} (f : S → A → result S) l1 l2 :
  (∀ s x y, agree (t ← f s x; f t y) (t ← f s y; f t x)) → l1 ≡ₚ l2 → ∀ s, agree (foldM f s l1) (foldM f s l2).
Proof.
  intros Hc Hp. induction Hp as [|x l1 l2 _ IH|x y l|l1 l2 l3 _ IH1 _ IH2]; intros s; cbn [foldM]; [done| | |].
  - apply bind_agree; [intros t; apply IH|done].
  - intros a. specialize (Hc s y x). unfold agree in Hc. repeat setoid_rewrite bind_Ok in Hc. repeat setoid_rewrite bind_Ok.
    split; intros (t & Ht & u & Hu & Ha).
    + destruct (proj1 (Hc u)) as (v & Hv & Hu'); [eauto|]. eauto.
    + destruct (proj2 (Hc u)) as (v & Hv & Hu'); [eauto|]. eauto.
  - etransitivity; [apply IH1|apply IH2].
Qed.

(** ** Generic list lemmas *)

(** [Duplicate-free check with a [seen] set, as Go loops write it. *)
Lemma NoDup_snoc {A} (l : list A) x : NoDup (l ++ [x]) ↔ NoDup l ∧ x ∉ l.
Proof.
  rewrite NoDup_app. split; [set_solver|]. intros [Hl Hx].
  split_and!; [done|set_solver|apply NoDup_singleton].
Qed.

Lemma sorted_perm_eq {A} (R : relation A) `{!Transitive R, !AntiSymm (=) R} l1 l2 :
  Sorted R l1 → Sorted R l2 → l1 ≡ₚ l2 → l1 = l2.
Proof. intros. by apply (Sorted_unique R). Qed.

(** All pairs at distinct positions. *)
Definition pairwise {A} (R : A → A → Prop) (l : list A) : Prop :=
  ∀ (i j : nat) x y, i ≠ j → l !! i = Some x → l !! j = Some y → R x y.

Lemma pairwise_nil {A} (R : A → A → Prop) : pairwise R [].
Proof. intros i j x y _ H. by rewrite lookup_nil in H. Qed.

Lemma pairwise_cons {A} (R : A → A → Prop) `{!Symmetric R} x l :
  pairwise R (x :: l) ↔ Forall (R x) l ∧ pairwise R l.
Proof.
  split.
  - intros H. split.
    + apply Forall_lookup. intros j y Hy. by apply (H 0%nat (S j)).
    + intros i j y z Hij. apply (H (S i) (S j)); congruence.
  - intros [Hx Hl] [|i] [|j] y z Hij Hy Hz; simplify_eq/=.
    + by eapply Forall_lookup_1.
    + symmetry. by eapply Forall_lookup_1.
    + eapply (Hl i j); [congruence|done..].
Qed.

Lemma pairwise_app {A} (R : A → A → Prop) `{!Symmetric R} l1 l2 :
  pairwise R (l1 ++ l2) ↔
  pairwise R l1 ∧ pairwise R l2 ∧ ∀ x y, x ∈ l1 → y ∈ l2 → R x y.
Proof.
  induction l1 as [|a l1 IH]; simpl.
  - split; [|naive_solver]. intros H. split_and!; [apply pairwise_nil|done|set_solver].
  - rewrite !(pairwise_cons R), IH, Forall_app, !Forall_forall. set_solver.
Qed.

Lemma pairwise_perm {A} (R : A → A → Prop) `{!Symmetric R} l1 l2 :
  l1 ≡ₚ l2 → pairwise R l1 → pairwise R l2.
Proof.
  induction 1 as [| |x y l|]; rewrite ?(pairwise_cons R), ?Forall_cons; [done| | |by auto].
  - intros [Hx Hl]. split; [|auto]. by eapply Forall_Permutation; [| |exact Hx].
  - intros ([Hxy Hy] & Hx & Hl). split_and!; [by symmetry|done..].
Qed.

(** ** Loops that reject repeated keys

    A loop variable holds a set of the keys taken so far; each iteration takes
    fresh keys or fails. *)
Lemma foldM_seen {S A K} `{Countable K} (seen : S → gset K) (keys : A → list K) (f : S → A → result S) l :
  (∀ s x s', f s x = Ok s' → NoDup (keys x) ∧ (∀ k, k ∈ keys x → k ∉ seen s) ∧
     ∀ k, k ∈ seen s' ↔ k ∈ seen s ∨ k ∈ keys x) →
  ∀ s s', foldM f s l = Ok s' →
  NoDup (l ≫= keys) ∧ (∀ k, k ∈ l ≫= keys → k ∉ seen s) ∧
  (∀ k, k ∈ seen s' ↔ k ∈ seen s ∨ k ∈ l ≫= keys) ∧ Forall (λ x, ∃ t t', f t x = Ok t') l.
Proof.
  intros Hstep. induction l as [|x l IH]; intros s s'; cbn [foldM].
  { intros [= ->]. split_and!; [constructor|intros k []%not_elem_of_nil| |constructor].
    intros k. split; [by left|]. intros [|[]%not_elem_of_nil]; done. }
  rewrite bind_Ok. intros (s1 & Hx & Hl). destruct (Hstep _ _ _ Hx) as (Hnd & Hfresh & Hin).
  destruct (IH _ _ Hl) as (Hnd' & Hfresh' & Hin' & Hall). cbn [mbind list_bind].
  split_and!.
  - apply NoDup_app. split_and!; [done| |done]. intros k Hk Hk'. apply (Hfresh' k Hk'). apply Hin. by right.
  - intros k [Hk|Hk]%elem_of_app; [by apply Hfresh|]. intros Hs. apply (Hfresh' k Hk). apply Hin. by left.
  - intros k. rewrite Hin', Hin, elem_of_app. tauto.
  - constructor; [by exists s, s1|done].
Qed.

Lemma NoDup_bind_inj {A B} (f : A → list B) l x y b :
  NoDup (l ≫= f) → x ∈ l → y ∈ l → b ∈ f x → b ∈ f y → x = y.
Proof.
  induction l as [|a l IH]; [intros _ []%not_elem_of_nil|]. cbn [mbind list_bind].
  intros (_ & Hd & Hnd)%NoDup_app Hx Hy Hbx Hby.
  assert (∀ z, z ∈ l → b ∈ f z → b ∉ f a) as Hno.
  { intros z Hz Hbz Hba. apply (Hd b Hba). apply list_elem_of_bind. by exists z. }
  apply elem_of_cons in Hx as [->|Hx], Hy as [->|Hy]; [done|by edestruct Hno|by edestruct Hno|by apply IH].
Qed.
