(* ===== verification/GoStd.v ===== *)
(** What the program uses of Go's language and standard library: strings as
    byte sequences and as runes ([strings], [unicode/utf8], [unicode]), slash
    paths ([path]), decimal conversions ([strconv]), IPv4 prefixes
    ([net/netip]), [sort.Strings], 64-bit wrap-around and the unspecified order
    of [range] over a map. *)
From S2P Require Import Prelude.
From stdpp Require Export pretty.
From Stdlib Require Export Ascii.
#[global] Open Scope Z_scope.

(** * Lengths and characters *)

Definition len (s : string) : Z := Z.of_nat (String.length s).
Definition lenl {A} (l : list A) : Z := Z.of_nat (length l).
Definition lenm {V} (m : gmap string V) : Z := Z.of_nat (size m).

(** A one-byte string; [chr 0] is a NUL, [chr 10] a line feed. *)
Definition chr (n : nat) : string := String (ascii_of_nat n) EmptyString.
Definition byte_of (c : ascii) : Z := Z.of_N (N_of_ascii c).

Definition NUL : string := chr 0.
Definition TAB : string := chr 9.
Definition LF : string := chr 10.
Definition CR : string := chr 13.

Definition is_empty (s : string) : bool := (s =? "")%string.

(** [l1 == l2] and membership in a literal list, as Go's [switch] tests it. *)
Definition one_of (s : string) (l : list string) : bool := existsb (String.eqb s) l.

(** * strings *)

Fixpoint HasPrefix (s p : string) : bool :=
  match p, s with
  | EmptyString, _ => true
  | String a p', String b s' => Ascii.eqb a b && HasPrefix s' p'
  | String _ _, EmptyString => false
  end.

Fixpoint rev_string_app (s acc : string) : string :=
  match s with
  | EmptyString => acc
  | String c s' => rev_string_app s' (String c acc)
  end.
Definition rev_string (s : string) : string := rev_string_app s EmptyString.

Definition HasSuffix (s suf : string) : bool := HasPrefix (rev_string s) (rev_string suf).

Fixpoint Contains (s sub : string) : bool :=
  HasPrefix s sub ||
  match s with EmptyString => false | String _ s' => Contains s' sub end.

(** [strings.IndexByte(s, c) >= 0] *)
Fixpoint has_byte (c : ascii) (s : string) : bool :=
  match s with EmptyString => false | String a s' => Ascii.eqb a c || has_byte c s' end.

(** [strings.ContainsAny(s, chars)] for ASCII [chars]. *)
Fixpoint ContainsAny (s chars : string) : bool :=
  match s with EmptyString => false | String a s' => has_byte a chars || ContainsAny s' chars end.

(** [strings.Split(s, sep)] for a one-byte separator. *)
Fixpoint Split (s : string) (sep : ascii) : list string :=
  match s with
  | EmptyString => [EmptyString]
  | String c s' =>
      if Ascii.eqb c sep then EmptyString :: Split s' sep
      else match Split s' sep with
           | [] => [String c EmptyString]
           | h :: t => String c h :: t
           end
  end.

Fixpoint Join (l : list string) (sep : string) : string :=
  match l with
  | [] => EmptyString
  | [x] => x
  | x :: l' => x +:+ sep +:+ Join l' sep
  end.

(** [strings.Cut(s, sep)] for a one-byte separator: [Some (before, after)] when
    [sep] occurs. *)
Fixpoint Cut (s : string) (sep : ascii) : option (string * string) :=
  match s with
  | EmptyString => None
  | String c s' =>
      if Ascii.eqb c sep then Some (EmptyString, s')
      else '(a, b) ← Cut s' sep; Some (String c a, b)
  end.

(** [strings.Count(s, sep)] for a one-byte separator. *)
Fixpoint Count (s : string) (sep : ascii) : Z :=
  match s with
  | EmptyString => 0
  | String c s' => (if Ascii.eqb c sep then 1 else 0) + Count s' sep
  end.

(** [s[:n]] and [s[n:]] within bounds. *)
Fixpoint take_string (n : nat) (s : string) : string :=
  match n, s with
  | S n', String c s' => String c (take_string n' s')
  | _, _ => EmptyString
  end.
Fixpoint drop_string (n : nat) (s : string) : string :=
  match n, s with
  | S n', String _ s' => drop_string n' s'
  | _, _ => s
  end.

(** [strings.TrimPrefix] *)
Definition TrimPrefix (s prefix : string) : string :=
  if HasPrefix s prefix then drop_string (String.length prefix) s else s.

(** [strings.TrimSuffix] *)
Definition TrimSuffix (s suffix : string) : string :=
  if HasSuffix s suffix then take_string (String.length s - String.length suffix) s else s.

(** * Runes

    [decode s] is what [for _, r := range s] iterates over: each rune with the
    bytes it was decoded from. An invalid byte decodes to U+FFFD, one byte at a
    time, with the second-byte ranges of RFC 3629. *)

Definition RuneError : Z := 65533.
Definition cont (z : Z) : bool := (128 <=? z) && (z <=? 191).
Definition second3 (b0 b1 : Z) : bool :=
  if b0 =? 224 then (160 <=? b1) && (b1 <=? 191)
  else if b0 =? 237 then (128 <=? b1) && (b1 <=? 159)
  else cont b1.
Definition second4 (b0 b1 : Z) : bool :=
  if b0 =? 240 then (144 <=? b1) && (b1 <=? 191)
  else if b0 =? 244 then (128 <=? b1) && (b1 <=? 143)
  else cont b1.

Fixpoint decode (s : string) : list (Z * string) :=
  match s with
  | EmptyString => []
  | String c0 s1 =>
      let b0 := byte_of c0 in
      let bad := λ _ : unit, (RuneError, String c0 EmptyString) :: decode s1 in
      if b0 <? 128 then (b0, String c0 EmptyString) :: decode s1
      else match s1 with
      | EmptyString => bad tt
      | String c1 s2 =>
          let b1 := byte_of c1 in
          if (194 <=? b0) && (b0 <=? 223) then
            if cont b1
            then ((b0 - 192) * 64 + (b1 - 128), String c0 (String c1 EmptyString)) :: decode s2
            else bad tt
          else match s2 with
          | EmptyString => bad tt
          | String c2 s3 =>
              let b2 := byte_of c2 in
              if (224 <=? b0) && (b0 <=? 239) then
                if second3 b0 b1 && cont b2
                then ((b0 - 224) * 4096 + (b1 - 128) * 64 + (b2 - 128),
                      String c0 (String c1 (String c2 EmptyString))) :: decode s3
                else bad tt
              else match s3 with
              | EmptyString => bad tt
              | String c3 s4 =>
                  let b3 := byte_of c3 in
                  if (240 <=? b0) && (b0 <=? 244) && second4 b0 b1 && cont b2 && cont b3
                  then ((b0 - 240) * 262144 + (b1 - 128) * 4096 + (b2 - 128) * 64 + (b3 - 128),
                        String c0 (String c1 (String c2 (String c3 EmptyString)))) :: decode s4
                  else bad tt
              end
          end
      end
  end.

Definition runes (s : string) : list Z := (decode s).*1.
Definition encode_runes (l : list (Z * string)) : string := String.concat EmptyString l.*2.

Definition RuneCountInString (s : string) : Z := lenl (decode s).

(** An invalid byte is the only source of a one-byte U+FFFD. *)
Definition ValidString (s : string) : bool :=
  forallb (λ x, negb ((x.1 =? RuneError) && (len x.2 =? 1))) (decode s).

(** [unicode.IsControl]: the categories C0, DEL and C1. *)
Definition IsControl (r : Z) : bool :=
  (r <? 32) || ((127 <=? r) && (r <? 160)).

(** [unicode.IsSpace]: the White_Space property. *)
Definition IsSpace (r : Z) : bool :=
  ((9 <=? r) && (r <=? 13)) || (r =? 32) || (r =? 133) || (r =? 160) || (r =? 5760) ||
  ((8192 <=? r) && (r <=? 8202)) || (r =? 8232) || (r =? 8233) || (r =? 8239) ||
  (r =? 8287) || (r =? 12288).

Fixpoint drop_while {A} (f : A → bool) (l : list A) : list A :=
  match l with [] => [] | x :: l' => if f x then drop_while f l' else l end.

Definition TrimSpace (s : string) : string :=
  let sp := λ x : Z * string, IsSpace x.1 in
  encode_runes (reverse (drop_while sp (reverse (drop_while sp (decode s))))).

(** [strings.Fields]: the maximal runs of non-space runes. *)
Fixpoint fields_of (cur : option string) (l : list (Z * string)) : list string :=
  match l with
  | [] => match cur with Some w => [w] | None => [] end
  | (r, bs) :: l' =>
      if IsSpace r
      then match cur with Some w => w :: fields_of None l' | None => fields_of None l' end
      else fields_of (Some (default EmptyString cur +:+ bs)) l'
  end.
Definition Fields (s : string) : list string := fields_of None (decode s).

(** [strings.Trim(s, cutset) != EmptyString] for an ASCII cut set: some byte is outside. *)
Fixpoint all_in (s cutset : string) : bool :=
  match s with EmptyString => true | String c s' => has_byte c cutset && all_in s' cutset end.

(** [strings.ToUpper] and [strings.ToLower] on ASCII letters and on the only
    runes outside ASCII whose case mapping lands in ASCII (U+017F, U+0131 upper;
    U+212A, U+0130 lower). Other runes keep their bytes: the code only compares the
    results with ASCII text or with the argument itself. *)
Definition upper_ascii (c : ascii) : ascii :=
  let b := N_of_ascii c in
  if ((97 <=? b) && (b <=? 122))%N then ascii_of_N (b - 32) else c.
Definition lower_ascii (c : ascii) : ascii :=
  let b := N_of_ascii c in
  if ((65 <=? b) && (b <=? 90))%N then ascii_of_N (b + 32) else c.
Fixpoint map_string (f : ascii → ascii) (s : string) : string :=
  match s with EmptyString => EmptyString | String c s' => String (f c) (map_string f s') end.
Definition upper_rune (x : Z * string) : string :=
  if x.1 =? 383 then "S" else if x.1 =? 305 then "I" else map_string upper_ascii x.2.
Definition lower_rune (x : Z * string) : string :=
  if x.1 =? 8490 then "k" else if x.1 =? 304 then "i" else map_string lower_ascii x.2.
Definition ToUpper (s : string) : string := String.concat EmptyString (upper_rune <$> decode s).
Definition ToLower (s : string) : string := String.concat EmptyString (lower_rune <$> decode s).

(** [strings.EqualFold(s, t)] for ASCII [t]: simple folding identifies the cases of
    a letter, U+017F with s and U+212A with k. *)
Definition fold_rune (r : Z) : Z :=
  if r =? 383 then 83 else if r =? 8490 then 75 else if (97 <=? r) && (r <=? 122) then r - 32 else r.
Definition EqualFold (s t : string) : bool := bool_decide (fold_rune <$> runes s = fold_rune <$> runes t).

(** * path *)

Definition clean_step (rooted : bool) (stack : list string) (seg : string) : list string :=
  if (seg =? "")%string || (seg =? ".")%string then stack
  else if (seg =? "..")%string then
    match stack with
    | [] => if rooted then [] else [".."]
    | top :: rest => if (top =? "..")%string then ".." :: stack else rest
    end
  else seg :: stack.

Definition path_IsAbs (p : string) : bool := HasPrefix p "/".

Definition path_Clean (p : string) : string :=
  if is_empty p then "."
  else
    let rooted := path_IsAbs p in
    let segs := reverse (fold_left (clean_step rooted) (Split p "/") []) in
    let body := Join segs "/" in
    if rooted then "/" +:+ body else if is_empty body then "." else body.

(** [path.Join(a, b)] *)
Definition path_Join (a b : string) : string :=
  if is_empty a && is_empty b then EmptyString
  else if is_empty a then path_Clean b
  else if is_empty b then path_Clean a
  else path_Clean (a +:+ "/" +:+ b).

(** * strconv *)

Definition digit_of (c : ascii) : option Z :=
  let b := byte_of c in if (48 <=? b) && (b <=? 57) then Some (b - 48) else None.

Fixpoint digits_value (acc : Z) (s : string) : option Z :=
  match s with
  | EmptyString => Some acc
  | String c s' => d ← digit_of c; digits_value (acc * 10 + d) s'
  end.

Definition min_int64 : Z := - 2 ^ 63.
Definition max_int64 : Z := 2 ^ 63 - 1.
Definition wrap64 (z : Z) : Z := (z + 2 ^ 63) mod 2 ^ 64 - 2 ^ 63.

(** [strconv.Atoi]: an optional sign, at least one digit, within an int64. *)
Definition Atoi (s : string) : option Z :=
  let '(neg, body) := match s with
                      | String c s' =>
                          if Ascii.eqb c "-" then (true, s')
                          else if Ascii.eqb c "+" then (false, s') else (false, s)
                      | EmptyString => (false, s)
                      end in
  if is_empty body then None
  else v ← digits_value 0 body;
       let z := if neg : bool then - v else v in
       if (min_int64 <=? z) && (z <=? max_int64) then Some z else None.

Definition Itoa (z : Z) : string := pretty z.

(** * net/netip, restricted to IPv4 *)

(** One decimal octet: one to three digits, no leading zero, at most 255. *)
Definition octet (s : string) : option Z :=
  match s with
  | EmptyString => None
  | String c s' =>
      if Ascii.eqb c "0" && negb (is_empty s') then None
      else v ← digits_value 0 s; if v <=? 255 then Some v else None
  end.

Definition ParseIPv4 (s : string) : option Z :=
  match Split s "." with
  | [a; b; c; d] =>
      a ← octet a; b ← octet b; c ← octet c; d ← octet d;
      Some (a * 16777216 + b * 65536 + c * 256 + d)
  | _ => None
  end.

(** [strings.LastIndexByte]: the text before and after the last separator. *)
Fixpoint CutLast (s : string) (sep : ascii) : option (string * string) :=
  match s with
  | EmptyString => None
  | String c s' =>
      match CutLast s' sep with
      | Some (a, b) => Some (String c a, b)
      | None => if Ascii.eqb c sep then Some (EmptyString, s') else None
      end
  end.

Definition mask_addr (ip bits : Z) : Z := ip / 2 ^ (32 - bits) * 2 ^ (32 - bits).

Definition addr_String (ip : Z) : string :=
  Join [Itoa (ip / 16777216); Itoa (ip / 65536 mod 256); Itoa (ip / 256 mod 256); Itoa (ip mod 256)] ".".

(** [prefix.Masked().String()] *)
Definition masked_String (ip bits : Z) : string :=
  addr_String (mask_addr ip bits) +:+ "/" +:+ Itoa bits.

(** * encoding/base64, the standard encoding

    Decoding skips carriage returns and line feeds, demands the padding and
    accepts any trailing bits. Byte slices are lists of numbers. *)

Definition b64_char (v : Z) : ascii :=
  let n := if v <? 26 then v + 65 else if v <? 52 then v + 71 else if v <? 62 then v - 4
           else if v =? 62 then 43 else 47 in
  ascii_of_nat (Z.to_nat n).

Definition b64_value (c : ascii) : option Z :=
  let b := byte_of c in
  if (65 <=? b) && (b <=? 90) then Some (b - 65)
  else if (97 <=? b) && (b <=? 122) then Some (b - 71)
  else if (48 <=? b) && (b <=? 57) then Some (b + 4)
  else if b =? 43 then Some 62
  else if b =? 47 then Some 63
  else None.

Fixpoint b64_quads (s : string) : option (list Z) :=
  match s with
  | EmptyString => Some []
  | String a (String b (String c (String d rest))) =>
      va ← b64_value a; vb ← b64_value b;
      if Ascii.eqb d "=" then
        if negb (is_empty rest) then None
        else if Ascii.eqb c "=" then Some [va * 4 + vb / 16]
        else vc ← b64_value c; Some [va * 4 + vb / 16; vb mod 16 * 16 + vc / 4]
      else
        vc ← b64_value c; vd ← b64_value d;
        tail ← b64_quads rest;
        Some (va * 4 + vb / 16 :: vb mod 16 * 16 + vc / 4 :: vc mod 4 * 64 + vd :: tail)
  | _ => None
  end.

Fixpoint drop_newlines (s : string) : string :=
  match s with
  | EmptyString => EmptyString
  | String c s' =>
      if (byte_of c =? 10) || (byte_of c =? 13) then drop_newlines s' else String c (drop_newlines s')
  end.

Definition base64_Decode (s : string) : option (list Z) := b64_quads (drop_newlines s).

Fixpoint base64_Encode (l : list Z) : string :=
  match l with
  | [] => EmptyString
  | [x] => String (b64_char (x / 4)) (String (b64_char (x mod 4 * 16)) "==")
  | [x; y] => String (b64_char (x / 4)) (String (b64_char (x mod 4 * 16 + y / 16))
                (String (b64_char (y mod 16 * 4)) "="))
  | x :: y :: z :: l' =>
      String (b64_char (x / 4)) (String (b64_char (x mod 4 * 16 + y / 16))
        (String (b64_char (y mod 16 * 4 + z / 64)) (String (b64_char (z mod 64)) (base64_Encode l'))))
  end.

(** [base64.RawURLEncoding.DecodeString]: the URL alphabet, without padding. *)
Definition b64url_value (c : ascii) : option Z :=
  let b := byte_of c in
  if (65 <=? b) && (b <=? 90) then Some (b - 65)
  else if (97 <=? b) && (b <=? 122) then Some (b - 71)
  else if (48 <=? b) && (b <=? 57) then Some (b + 4)
  else if b =? 45 then Some 62
  else if b =? 95 then Some 63
  else None.

Definition byte_string (l : list Z) : string := String.string_of_list_ascii ((λ b, ascii_of_N (Z.to_N b)) <$> l).

Fixpoint b64url_raw (s : string) : option (list Z) :=
  match s with
  | EmptyString => Some []
  | String a (String b EmptyString) => va ← b64url_value a; vb ← b64url_value b; Some [va * 4 + vb / 16]
  | String a (String b (String c EmptyString)) =>
      va ← b64url_value a; vb ← b64url_value b; vc ← b64url_value c;
      Some [va * 4 + vb / 16; vb mod 16 * 16 + vc / 4]
  | String a (String b (String c (String d rest))) =>
      va ← b64url_value a; vb ← b64url_value b; vc ← b64url_value c; vd ← b64url_value d;
      tail ← b64url_raw rest;
      Some (va * 4 + vb / 16 :: vb mod 16 * 16 + vc / 4 :: vc mod 4 * 64 + vd :: tail)
  | _ => None
  end.

Definition RawURL_Decode (s : string) : option string := byte_string <$> b64url_raw (drop_newlines s).

(** [base64.RawURLEncoding.EncodeToString] *)
Definition b64url_char (v : Z) : ascii := if v =? 62 then "-" else if v =? 63 then "_" else b64_char v.

Fixpoint RawURL_Encode (s : string) : string :=
  match s with
  | EmptyString => EmptyString
  | String a EmptyString => String (b64url_char (byte_of a / 4)) (String (b64url_char (byte_of a mod 4 * 16)) EmptyString)
  | String a (String b EmptyString) =>
      String (b64url_char (byte_of a / 4)) (String (b64url_char (byte_of a mod 4 * 16 + byte_of b / 16))
        (String (b64url_char (byte_of b mod 16 * 4)) EmptyString))
  | String a (String b (String c rest)) =>
      String (b64url_char (byte_of a / 4)) (String (b64url_char (byte_of a mod 4 * 16 + byte_of b / 16))
        (String (b64url_char (byte_of b mod 16 * 4 + byte_of c / 64)) (String (b64url_char (byte_of c mod 64)) (RawURL_Encode rest))))
  end.

(** [strings.ReplaceAll(s, c, EmptyString)] for one byte [c]. *)
Fixpoint remove_byte (c : ascii) (s : string) : string :=
  match s with EmptyString => EmptyString | String d s' => if Ascii.eqb c d then remove_byte c s' else String d (remove_byte c s') end.

(** * sort.Strings *)

Definition str_le (s t : string) : Prop := String.leb s t = true.
#[export] Instance str_le_dec s t : Decision (str_le s t) := decide (String.leb s t = true).

Definition sort_strings (l : list string) : list string := merge_sort str_le l.

(** [slices.Compact]: runs of equal elements become one. *)
Fixpoint Compact (l : list string) : list string :=
  match l with
  | x :: ((y :: _) as l') => if (x =? y)%string then Compact l' else x :: Compact l'
  | _ => l
  end.

(** * range over a map

    Go visits the entries of a map in an unspecified order. Every loop of the
    model takes the order from this class; only [range_perm] is known of it. *)
Class RangeOrder := {
  range : ∀ {V : Type}, gmap string V → list (string * V);
  range_perm : ∀ {V : Type} (m : gmap string V), range m ≡ₚ map_to_list m;
}.

#[export] Instance map_to_list_order : RangeOrder | 100 :=
  {| range V m := map_to_list m; range_perm V m := reflexivity _ |}.

Definition keys_of `{RangeOrder} {V} (m : gmap string V) : list string := (range m).*1.

(** [set[k]] of a Go set, and [_, ok := m[k]]. *)
Definition has_key {V} (m : gmap string V) (k : string) : bool := non_nil (m !! k).

(** * Facts *)

(** ** Prefixes *)

Lemma HasPrefix_spec s p : HasPrefix s p = true ↔ ∃ t, s = p +:+ t.
Proof.
  revert s. induction p as [|a p IH]; intros s.
  - split; [by exists s|by destruct s].
  - destruct s as [|b s]; [naive_solver|].
    change (Ascii.eqb a b && HasPrefix s p = true ↔ ∃ t, String b s = String a (p +:+ t)).
    rewrite andb_true_iff, Ascii.eqb_eq, IH. naive_solver.
Qed.

Lemma HasPrefix_app p t : HasPrefix (p +:+ t) p = true.
Proof. apply HasPrefix_spec. by exists t. Qed.

Lemma string_app_cons c (s t : string) : String c s +:+ t = String c (s +:+ t).
Proof. done. Qed.

Lemma string_app_nil_r (s : string) : s +:+ EmptyString = s.
Proof. induction s as [|c s IH]; [done|]. by rewrite string_app_cons, IH. Qed.

Lemma string_app_assoc (a b c : string) : a +:+ (b +:+ c) = (a +:+ b) +:+ c.
Proof. induction a as [|x a IH]; [done|]. by rewrite !string_app_cons, IH. Qed.

Lemma string_app_inj_l (a b c : string) : a +:+ b = a +:+ c → b = c.
Proof. induction a as [|x a IH]; [done|]. rewrite !string_app_cons. intros [=]. auto. Qed.

Lemma string_length_app (a b : string) :
  String.length (a +:+ b) = (String.length a + String.length b)%nat.
Proof. induction a as [|x a IH]; [done|]. rewrite string_app_cons. simpl. by rewrite IH. Qed.

Lemma is_empty_true s : is_empty s = true ↔ s = EmptyString.
Proof. apply String.eqb_eq. Qed.
Lemma is_empty_false s : is_empty s = false ↔ s ≠ EmptyString.
Proof. apply String.eqb_neq. Qed.

Lemma one_of_spec s l : one_of s l = true ↔ s ∈ l.
Proof.
  unfold one_of. rewrite existsb_exists. setoid_rewrite String.eqb_eq.
  setoid_rewrite <-list_elem_of_In. naive_solver.
Qed.

Lemma one_of_false s l : one_of s l = false ↔ s ∉ l.
Proof. rewrite <-one_of_spec. destruct (one_of s l); naive_solver. Qed.

(** Sizes and emptiness. *)
Lemma lenl_zero {A} (l : list A) : lenl l = 0 ↔ l = [].
Proof. unfold lenl. destruct l; simpl; [done|]. split; [lia|done]. Qed.

Lemma lenm_zero {V} (m : gmap string V) : lenm m = 0 ↔ m = ∅.
Proof. unfold lenm. rewrite <-map_size_empty_iff. lia. Qed.

Lemma lenl_nonneg {A} (l : list A) : 0 ≤ lenl l.
Proof. unfold lenl. lia. Qed.

Lemma has_key_true {V} (m : gmap string V) k : has_key m k = true ↔ is_Some (m !! k).
Proof. unfold has_key. destruct (m !! k); split; simpl; try done; by intros []. Qed.

Lemma has_key_false {V} (m : gmap string V) k : has_key m k = false ↔ m !! k = None.
Proof. unfold has_key. destruct (m !! k); naive_solver. Qed.

(** ** Runes: decoding loses no byte *)

Lemma concat_cons x l : String.concat EmptyString (x :: l) = x +:+ String.concat EmptyString l.
Proof. destruct l; simpl; [by rewrite string_app_nil_r|done]. Qed.

Lemma encode_decode s : encode_runes (decode s) = s.
Proof.
  induction s as [s IH] using (well_founded_induction (Wf_nat.well_founded_ltof _ String.length)).
  unfold Wf_nat.ltof, encode_runes in *.
  destruct s as [|c0 s1]; [done|]. cbn [decode].
  repeat match goal with
  | |- context [match ?x with _ => _ end] => destruct x
  | |- context [if ?b then _ else _] => destruct b
  end; cbn beta iota; rewrite fmap_cons, concat_cons, IH by (simpl; lia); done.
Qed.

(** ** Sorting *)

Lemma ascii_compare_trans a b c :
  Ascii.compare a b = Lt → Ascii.compare b c = Lt → Ascii.compare a c = Lt.
Proof. unfold Ascii.compare. rewrite !N.compare_lt_iff. lia. Qed.

Lemma ascii_compare_eq a b : Ascii.compare a b = Eq ↔ a = b.
Proof.
  unfold Ascii.compare. rewrite N.compare_eq_iff. split; [|by intros ->].
  intros H. by rewrite <-(ascii_N_embedding a), <-(ascii_N_embedding b), H.
Qed.

Lemma str_le_cons a s b t :
  str_le (String a s) (String b t) ↔ Ascii.compare a b = Lt ∨ (a = b ∧ str_le s t).
Proof.
  unfold str_le, String.leb. simpl. rewrite <-ascii_compare_eq.
  destruct (Ascii.compare a b); naive_solver.
Qed.

#[export] Instance str_le_trans : Transitive str_le.
Proof.
  intros s. induction s as [|a s IH]; intros [|b t] [|c u]; try done.
  rewrite !str_le_cons. intros [?|[-> ?]] [?|[-> ?]]; eauto using ascii_compare_trans.
Qed.

#[export] Instance str_le_antisym : AntiSymm (=) str_le.
Proof. intros s t. apply String.leb_antisym. Qed.

#[export] Instance str_le_total : Total str_le.
Proof. intros s t. apply String.leb_total. Qed.

Lemma sort_strings_perm l : sort_strings l ≡ₚ l.
Proof. apply merge_sort_Permutation. Qed.

Lemma sort_strings_sorted l : Sorted str_le (sort_strings l).
Proof. apply Sorted_merge_sort. apply _. Qed.

Lemma sort_strings_id l : Sorted str_le l → sort_strings l = l.
Proof.
  intros H. apply (sorted_perm_eq str_le);
    auto using sort_strings_sorted, sort_strings_perm.
Qed.

Lemma sort_strings_proper l1 l2 : l1 ≡ₚ l2 → sort_strings l1 = sort_strings l2.
Proof.
  intros H. apply (sorted_perm_eq str_le); auto using sort_strings_sorted.
  by rewrite !sort_strings_perm.
Qed.

#[export] Instance sort_strings_Proper : Proper ((≡ₚ) ==> (=)) sort_strings.
Proof. intros l1 l2. apply sort_strings_proper. Qed.

Lemma elem_of_sort_strings x l : x ∈ sort_strings l ↔ x ∈ l.
Proof. by rewrite sort_strings_perm. Qed.

(** ** Loops over maps *)

Section range_facts.
Context `{RO : RangeOrder}.

Lemma elem_of_range {V} (m : gmap string V) k v : (k, v) ∈ range m ↔ m !! k = Some v.
Proof. by rewrite range_perm, elem_of_map_to_list. Qed.

Lemma keys_of_NoDup {V} (m : gmap string V) : NoDup (keys_of m).
Proof. unfold keys_of. rewrite range_perm. apply NoDup_fst_map_to_list. Qed.

Lemma elem_of_keys_of {V} (m : gmap string V) k : k ∈ keys_of m ↔ is_Some (m !! k).
Proof.
  unfold keys_of. rewrite list_elem_of_fmap. split.
  - intros ([k' v] & -> & H). exists v. by apply elem_of_range.
  - intros [v H]. exists (k, v). by rewrite elem_of_range.
Qed.

Lemma range_empty {V} : range (∅ : gmap string V) = [].
Proof. apply Permutation_nil_r. by rewrite range_perm, map_to_list_empty. Qed.

(** A loop of checks over a map accepts when every entry does, whatever the
    order. *)
Lemma iterM_range {V} (f : string * V → result unit) (m : gmap string V) u :
  iterM f (range m) = Ok u ↔ map_Forall (λ k v, f (k, v) = Ok tt) m.
Proof.
  rewrite iterM_Ok, Forall_forall. split.
  - intros H k v Hk. apply H. by apply elem_of_range.
  - intros H [k v] Hk. apply H. by apply elem_of_range.
Qed.
End range_facts.

(** ** Wrap-around *)

Lemma wrap64_id z : min_int64 ≤ z ≤ max_int64 → wrap64 z = z.
Proof. unfold wrap64, min_int64, max_int64. intros. rewrite Z.mod_small; lia. Qed.

Lemma wrap64_range z : min_int64 ≤ wrap64 z ≤ max_int64.
Proof.
  unfold wrap64, min_int64, max_int64.
  pose proof (Z.mod_pos_bound (z + 2 ^ 63) (2 ^ 64) ltac:(lia)). lia.
Qed.

(** ** Lengths *)

Lemma take_string_app (a b : string) : take_string (String.length a) (a +:+ b) = a.
Proof. induction a as [|c a IH]; [by destruct b|]. rewrite string_app_cons. cbn. by rewrite IH. Qed.

Lemma drop_string_app (a b : string) : drop_string (String.length a) (a +:+ b) = b.
Proof. induction a as [|c a IH]; [by destruct b|]. rewrite string_app_cons. cbn. by rewrite IH. Qed.

Lemma len_nonneg s : 0 ≤ len s.
Proof. unfold len. lia. Qed.

#[export] Hint Resolve lenl_nonneg len_nonneg : go.
