(* ===== verification/Paths.v ===== *)
(** Facts about slash-separated paths: [Split] and [Join] are inverse, what
    [path.Clean] leaves alone has only ordinary segments, and containment of
    directories is containment of segment lists. *)
From S2P Require Import Prelude GoStd.
#[global] Open Scope Z_scope.

(** * Split and Join *)

Lemma Split_app s t sep : Split (s +:+ String sep t) sep = Split s sep ++ Split t sep.
Proof.
  induction s as [|c s IH].
  - change (EmptyString +:+ String sep t) with (String sep t). simpl. by rewrite Ascii.eqb_refl.
  - rewrite string_app_cons. simpl. rewrite IH. destruct (Ascii.eqb c sep); [done|].
    destruct (Split s sep) eqn:Hs; [|done]. destruct s; simpl in Hs; [done|].
    repeat case_match; done.
Qed.

Lemma Split_not_nil s sep : Split s sep ≠ [].
Proof. destruct s; simpl; [done|]. repeat case_match; done. Qed.

Lemma Split_inj s t sep : Split s sep = Split t sep → s = t.
Proof.
  revert t. induction s as [|c s IH]; intros [|d t]; simpl; try done.
  - pose proof (Split_not_nil t sep). repeat case_match; intros; simplify_eq; done.
  - pose proof (Split_not_nil s sep). repeat case_match; intros; simplify_eq; done.
  - pose proof (Split_not_nil s sep). pose proof (Split_not_nil t sep).
    destruct (Ascii.eqb_spec c sep), (Ascii.eqb_spec d sep), (Split s sep) eqn:Hs,
      (Split t sep) eqn:Ht; intros; simplify_eq; try done; f_equal; apply IH; congruence.
Qed.

Definition no_sep (sep : ascii) (s : string) : Prop := has_byte sep s = false.

Lemma Split_no_sep s sep : Forall (no_sep sep) (Split s sep).
Proof.
  unfold no_sep. induction s as [|c s IH]; simpl; [by repeat constructor|].
  destruct (Ascii.eqb c sep) eqn:Hc; [by constructor|].
  destruct (Split s sep) as [|h t]; [constructor; [|done]; simpl; by rewrite Hc|].
  apply Forall_cons in IH as [Hh Ht]. constructor; [|done]. simpl. by rewrite Hc, Hh.
Qed.

Lemma Split_single s sep : no_sep sep s → Split s sep = [s].
Proof.
  unfold no_sep. induction s as [|c s IH]; simpl; [done|]. intros [Hc Hs]%orb_false_iff.
  by rewrite Hc, IH.
Qed.

Lemma Split_Join l sep : l ≠ [] → Forall (no_sep sep) l → Split (Join l (String sep EmptyString)) sep = l.
Proof.
  induction l as [|x l IH]; [done|]. intros _ [Hx Hl]%Forall_cons.
  destruct l as [|y l]; [by apply Split_single|].
  change (Join (x :: y :: l) (String sep EmptyString))
    with (x +:+ String sep (Join (y :: l) (String sep EmptyString))).
  rewrite Split_app, Split_single by done. by rewrite IH.
Qed.

Lemma Join_Split s sep : Join (Split s sep) (String sep EmptyString) = s.
Proof.
  apply (Split_inj _ _ sep). apply Split_Join; [apply Split_not_nil|apply Split_no_sep].
Qed.

(** * Separators: texts without one, and the two ways to cut at one *)

Lemma has_byte_app c s t : has_byte c (s +:+ t) = has_byte c s || has_byte c t.
Proof.
  induction s as [|x s IH]; [done|]. rewrite string_app_cons. cbn [has_byte]. by rewrite IH, orb_assoc.
Qed.

Lemma no_sep_app c s t : no_sep c s → no_sep c t → no_sep c (s +:+ t).
Proof. unfold no_sep. rewrite has_byte_app. by intros -> ->. Qed.

Lemma no_sep_Join c l sep : no_sep c sep → Forall (no_sep c) l → no_sep c (Join l sep).
Proof.
  intros Hsep Hl. induction Hl as [|x l Hx Hl IH]; [done|]. destruct l as [|y l]; [done|].
  change (Join (x :: y :: l) sep) with (x +:+ (sep +:+ Join (y :: l) sep)). by repeat apply no_sep_app.
Qed.

Lemma no_sep_app_inv c s t : no_sep c (s +:+ t) → no_sep c s ∧ no_sep c t.
Proof. unfold no_sep. rewrite has_byte_app. apply orb_false_iff. Qed.

Lemma Cut_none s c : no_sep c s → Cut s c = None.
Proof.
  unfold no_sep. induction s as [|d s IH]; [done|]. cbn [has_byte Cut]. intros [-> Hs]%orb_false_iff. by rewrite IH.
Qed.

Lemma CutLast_Some s sep a b : CutLast s sep = Some (a, b) → s = a +:+ String sep b ∧ no_sep sep b.
Proof.
  revert a b. induction s as [|c s IH]; intros a b; [done|]. cbn [CutLast].
  destruct (CutLast s sep) as [[a' b']|] eqn:Hs.
  - intros [= <- <-]. destruct (IH _ _ eq_refl) as [-> Hb]. by rewrite string_app_cons.
  - destruct (Ascii.eqb_spec c sep) as [->|]; [|done]. intros [= <- <-]. split; [done|].
    clear IH. unfold no_sep. induction s as [|d s IH]; [done|]. cbn [CutLast has_byte] in *.
    destruct (CutLast s sep) as [[]|]; [done|]. destruct (Ascii.eqb d sep); [done|]. by apply IH.
Qed.

Lemma Cut_Some s sep a b : Cut s sep = Some (a, b) → s = a +:+ String sep b ∧ no_sep sep a.
Proof.
  revert a b. induction s as [|c s IH]; intros a b; [done|]. cbn [Cut].
  destruct (Ascii.eqb_spec c sep) as [->|Hne]; [by intros [= <- <-]|].
  destruct (Cut s sep) as [[a' b']|]; [|done]. intros [= <- <-]. destruct (IH _ _ eq_refl) as [-> Ha].
  rewrite string_app_cons. split; [done|]. unfold no_sep in *. cbn [has_byte]. rewrite Ha.
  by destruct (Ascii.eqb_spec c sep).
Qed.

Lemma Cut_app a sep b : no_sep sep a → Cut (a +:+ String sep b) sep = Some (a, b).
Proof.
  unfold no_sep. induction a as [|c a IH]; [intros _; change (EmptyString +:+ String sep b) with (String sep b); cbn [Cut]; by rewrite Ascii.eqb_refl|].
  rewrite string_app_cons. cbn [has_byte Cut]. intros [-> Ha]%orb_false_iff. by rewrite IH.
Qed.

Lemma CutLast_sep a sep b : no_sep sep b → CutLast (a +:+ String sep b) sep = Some (a, b).
Proof.
  intros Hb. assert (CutLast b sep = None) as Hnone.
  { revert Hb. clear. unfold no_sep. induction b as [|c b IH]; simpl; [done|]. intros [Hc Hb]%orb_false_iff.
    by rewrite IH, Hc. }
  induction a as [|c a IH].
  - change (EmptyString +:+ String sep b) with (String sep b). cbn [CutLast]. by rewrite Hnone, Ascii.eqb_refl.
  - rewrite string_app_cons. cbn [CutLast]. by rewrite IH.
Qed.

(** * Containment *)

(** Directory containment: the segments of one are a prefix of the other's. *)
Definition within (dir p : string) : Prop := ∃ l, Split p "/" = Split dir "/" ++ l.

Lemma within_spec dir p :
  within dir p ↔ p = dir ∨ HasPrefix p (dir +:+ "/") = true.
Proof.
  split.
  - intros [[|x l] Hl]; [left; apply (Split_inj _ _ "/"); by rewrite app_nil_r in Hl|right].
    apply HasPrefix_spec. exists (Join (x :: l) "/").
    apply (Split_inj _ _ "/"). rewrite <-string_app_assoc.
    change ("/" +:+ Join (x :: l) "/") with (String "/" (Join (x :: l) "/")).
    rewrite Split_app, Split_Join; [done..|].
    pose proof (Split_no_sep p "/") as Hp. rewrite Hl in Hp. by apply Forall_app in Hp as [_ ?].
  - intros [->|(t & ->)%HasPrefix_spec]; [exists []; by rewrite app_nil_r|].
    unfold within. rewrite <-string_app_assoc.
    change ("/" +:+ t) with (String "/" t). rewrite Split_app.
    by exists (Split t "/").
Qed.

(** * Clean paths *)

Definition ordinary (seg : string) : Prop := seg ≠ EmptyString ∧ seg ≠ "." ∧ seg ≠ "..".

Lemma clean_step_ordinary rooted stack seg : ordinary seg → clean_step rooted stack seg = seg :: stack.
Proof.
  intros (H1 & H2 & H3). unfold clean_step.
  by rewrite (proj2 (String.eqb_neq _ _) H1), (proj2 (String.eqb_neq _ _) H2), (proj2 (String.eqb_neq _ _) H3).
Qed.

Lemma fold_clean_ordinary rooted l stack :
  Forall ordinary l → fold_left (clean_step rooted) l stack = reverse l ++ stack.
Proof.
  revert stack. induction l as [|x l IH]; intros stack; [done|]. intros [Hx Hl]%Forall_cons.
  simpl. rewrite clean_step_ordinary, IH, reverse_cons, <-app_assoc by done. done.
Qed.

(** The stack, bottom to top: leading [..] (none when rooted), then ordinary
    segments without a slash. *)
Definition clean_stack (rooted : bool) (stack : list string) : Prop :=
  ∃ n l, reverse stack = replicate n ".." ++ l ∧ Forall ordinary l ∧ (rooted = true → n = 0%nat).

Lemma clean_step_stack rooted stack seg : clean_stack rooted stack → clean_stack rooted (clean_step rooted stack seg).
Proof.
  intros (n & l & Hst & Hl & Hn). unfold clean_step.
  destruct (String.eqb_spec seg EmptyString) as [|H1]; [by exists n, l|].
  destruct (String.eqb_spec seg ".") as [|H2]; [by exists n, l|]. simpl.
  destruct (String.eqb_spec seg "..") as [->|H3].
  - apply (f_equal reverse) in Hst. rewrite reverse_involutive, reverse_app in Hst.
    destruct l as [|x l _] using rev_ind; [|rewrite reverse_snoc in Hst; simpl in Hst; subst stack].
    + rewrite reverse_nil, app_nil_l, reverse_replicate in Hst. subst stack. destruct n as [|n]; simpl.
      * destruct rooted; [by exists 0%nat, []|]. exists 1%nat, []. split_and!; [done|constructor|done].
      * exists (S (S n)), []. change (".." :: ".." :: replicate n "..") with (replicate (S (S n)) "..").
        rewrite reverse_replicate, app_nil_r. split_and!; [done|constructor|].
        intros Hr. by specialize (Hn Hr).
    + apply Forall_app in Hl as [Hl [Hx _]%Forall_cons].
      destruct (String.eqb_spec x "..") as [->|Hx']; [by destruct Hx as (_ & _ & ?)|].
      exists n, l. rewrite reverse_app, !reverse_involutive. done.
  - exists n, (l ++ [seg]). rewrite reverse_cons, Hst, <-app_assoc. split_and!; [done| |done].
    apply Forall_app. split; [done|]. by repeat constructor.
Qed.

Lemma fold_clean_stack rooted segs stack :
  clean_stack rooted stack → clean_stack rooted (fold_left (clean_step rooted) segs stack).
Proof.
  revert stack. induction segs as [|seg segs IH]; intros stack Hst; [done|]. simpl.
  by apply IH, clean_step_stack.
Qed.

Lemma clean_step_sep rooted stack seg :
  no_sep "/" seg → Forall (no_sep "/") stack → Forall (no_sep "/") (clean_step rooted stack seg).
Proof.
  intros Hseg Hst. unfold clean_step. repeat case_match; subst; auto.
  all: try by repeat constructor. all: apply Forall_cons in Hst as [? ?]; repeat constructor; auto.
Qed.

Lemma fold_clean_sep rooted segs stack :
  Forall (no_sep "/") segs → Forall (no_sep "/") stack →
  Forall (no_sep "/") (fold_left (clean_step rooted) segs stack).
Proof.
  revert stack. induction segs as [|seg segs IH]; intros stack Hsegs Hst; [done|].
  apply Forall_cons in Hsegs as [Hseg Hsegs]. simpl. apply IH; [done|]. by apply clean_step_sep.
Qed.

(** An absolute path other than the root that [path.Clean] keeps is a slash and
    ordinary segments. *)
Lemma clean_absolute p :
  path_IsAbs p = true → p ≠ "/" → path_Clean p = p →
  ∃ segs, Split p "/" = EmptyString :: segs ∧ segs ≠ [] ∧ Forall ordinary segs.
Proof.
  intros Habs Hroot. unfold path_Clean. rewrite Habs.
  destruct (is_empty p) eqn:He; [apply is_empty_true in He; by subst|].
  set (stack := fold_left _ _ _). intros Hp.
  assert (clean_stack true stack) as (n & l & Hst & Hl & Hn).
  { apply fold_clean_stack. exists 0%nat, []. by split_and!. }
  rewrite Hn in Hst by done. simpl in Hst.
  assert (Forall (no_sep "/") (reverse stack)) as Hsep.
  { apply Forall_reverse. apply fold_clean_sep; [apply Split_no_sep|constructor]. }
  rewrite Hst in Hp, Hsep. destruct l as [|x l]; [by destruct Hroot|].
  exists (x :: l). split_and!; [|done..]. rewrite <-Hp.
  change ("/" +:+ Join (x :: l) "/") with (EmptyString +:+ String "/" (Join (x :: l) "/")).
  by rewrite Split_app, Split_Join.
Qed.

(** A relative path that [path.Clean] keeps, and that neither is the current
    directory nor starts upwards, has ordinary segments only. *)
Lemma clean_relative_segments p :
  path_IsAbs p = false → path_Clean p = p → p ≠ "." → p ≠ ".." → HasPrefix p "../" = false →
  Forall ordinary (Split p "/").
Proof.
  intros Habs Hp Hdot Hup Hprefix. revert Hp. unfold path_Clean. rewrite Habs.
  destruct (is_empty p) eqn:He; [intros <-; done|].
  set (stack := fold_left _ _ _).
  assert (clean_stack false stack) as (n & l & Hst & Hl & _).
  { apply fold_clean_stack. exists 0%nat, []. by split_and!. }
  assert (Forall (no_sep "/") (reverse stack)) as Hsep.
  { apply Forall_reverse. apply fold_clean_sep; [apply Split_no_sep|constructor]. }
  destruct (is_empty (Join (reverse stack) "/")) eqn:Hbody; [congruence|]. intros Hp.
  destruct (reverse stack) as [|x segs] eqn:Hrev; [done|].
  assert (Split p "/" = x :: segs) as Hsplit by (rewrite <-Hp; by apply Split_Join).
  destruct n as [|n]; simpl in Hst; [by rewrite Hsplit, Hst|]. injection Hst as -> ->.
  exfalso. rewrite <-Hp in Hup, Hprefix. destruct (replicate n ".." ++ l) as [|y segs]; [done|].
  change (Join (".." :: y :: segs) "/") with ("../" +:+ Join (y :: segs) "/") in Hprefix.
  by rewrite HasPrefix_app in Hprefix.
Qed.

(** Joining a clean directory and a clean relative path stays inside the
    directory. *)
Lemma path_Join_within dir sub segs :
  Split dir "/" = EmptyString :: segs → segs ≠ [] → Forall ordinary segs → Forall ordinary (Split sub "/") →
  within dir (path_Join dir sub).
Proof.
  intros Hdir Hne Hsegs Hsub.
  assert (is_empty dir = false) as Hd by (destruct dir; [simpl in Hdir; congruence|done]).
  assert (is_empty sub = false) as Hs.
  { destruct sub; [|done]. apply Forall_cons in Hsub as [(? & _) _]. done. }
  unfold path_Join. rewrite Hd, Hs. simpl.
  assert (Split (dir +:+ "/" +:+ sub) "/" = EmptyString :: segs ++ Split sub "/") as Hsplit.
  { change ("/" +:+ sub) with (String "/" sub). by rewrite Split_app, Hdir. }
  remember (dir +:+ "/" +:+ sub) as joined eqn:Heq. clear Heq.
  pose proof (Split_no_sep joined "/") as Hsep.
  assert (path_IsAbs joined = true ∧ is_empty joined = false) as [Habs Hne'].
  { destruct joined as [|c t]; simpl in Hsplit; [destruct segs; simplify_eq|].
    destruct (Ascii.eqb c "/") eqn:Hc; [apply Ascii.eqb_eq in Hc as ->; by destruct t|].
    destruct (Split t "/"); simplify_eq. }
  unfold path_Clean. rewrite Habs, Hne'.
  rewrite Hsplit. simpl. rewrite fold_clean_ordinary, app_nil_r, reverse_involutive
    by by apply Forall_app.
  exists (Split sub "/"). rewrite Hdir.
  change ("/" +:+ Join (segs ++ Split sub "/") "/")
    with (EmptyString +:+ String "/" (Join (segs ++ Split sub "/") "/")).
  rewrite Split_app, Split_Join; [done|by destruct segs|].
  rewrite Hsplit in Hsep.
  by apply Forall_cons in Hsep as [_ ?].
Qed.
