(* ===== verification/Decimal.v ===== *)
(** Decimal texts: [strconv.Itoa] and [strconv.Atoi] are inverse, digit texts hold
    digits only. *)
From stdpp Require Import pretty.
From S2P Require Import Prelude GoStd Paths.
#[global] Open Scope Z_scope.

Definition is_digit (c : ascii) : bool := match digit_of c with Some _ => true | None => false end.

Lemma digits_value_app s t acc : digits_value acc (s +:+ t) = v ← digits_value acc s; digits_value v t.
Proof.
  revert acc. induction s as [|c s IH]; intros acc; [done|]. rewrite string_app_cons. cbn [digits_value].
  destruct (digit_of c); [apply IH|done].
Qed.

Lemma digit_char (d : N) : (d < 10)%N → digit_of (pretty_N_char d) = Some (Z.of_N d).
Proof.
  intros Hd. assert (d = 0 ∨ d = 1 ∨ d = 2 ∨ d = 3 ∨ d = 4 ∨ d = 5 ∨ d = 6 ∨ d = 7 ∨ d = 8 ∨ d = 9)%N as Hc by lia.
  by repeat destruct Hc as [->|Hc]; subst.
Qed.

(** What the printer puts in front of [s] reads back as the number printed. *)
Lemma pretty_N_go_read (n : N) : ∀ s, ∃ p, pretty_N_go n s = p +:+ s ∧ digits_value 0 p = Some (Z.of_N n) ∧
  (n ≠ 0%N → p ≠ EmptyString ∧ 10 ^ len p ≤ 10 * Z.of_N n) ∧ (∀ c, has_byte c p = true → is_digit c = true).
Proof.
  induction (N.lt_wf_0 n) as [n _ IH]; intros s. destruct (decide (n = 0%N)) as [->|Hn]; [by exists EmptyString|].
  rewrite pretty_N_go_step by lia.
  destruct (IH (n `div` 10)%N ltac:(apply N.div_lt; lia) (String (pretty_N_char (n `mod` 10)) s)) as (p & Hp & Hv & Hl & Hb).
  pose proof (N.mod_lt n 10 ltac:(lia)) as Hm. pose proof (digit_char _ Hm) as Hc.
  exists (p +:+ String (pretty_N_char (n `mod` 10)) EmptyString). split_and!.
  - by rewrite <-string_app_assoc.
  - rewrite digits_value_app, Hv. cbn [mbind option_bind digits_value]. rewrite Hc. cbn [mbind option_bind].
    f_equal. pose proof (N.div_mod n 10 ltac:(lia)). lia.
  - intros _. unfold len in *. rewrite string_length_app. cbn [String.length]. split.
    + intros E. apply (f_equal String.length) in E. rewrite string_length_app in E. simpl in E. lia.
    + rewrite Nat2Z.inj_add, Z.pow_add_r by lia. change (10 ^ Z.of_nat 1) with 10.
      destruct (decide (n `div` 10 = 0)%N) as [E|E].
      * rewrite E, pretty_N_go_0 in Hp. apply (f_equal String.length) in Hp. rewrite string_length_app in Hp.
        replace (String.length p) with 0%nat by lia. change (10 ^ Z.of_nat 0) with 1. lia.
      * destruct (Hl E) as [_ Hl']. pose proof (N.Div0.mul_div_le n 10) as Hq. revert Hl' Hq.
        generalize (n `div` 10)%N (10 ^ Z.of_nat (String.length p)). lia.
  - intros c. rewrite has_byte_app. cbn [has_byte]. rewrite orb_false_r. intros [Hp'|He]%orb_true_iff; [auto|].
    apply Ascii.eqb_eq in He as <-. unfold is_digit. by rewrite Hc.
Qed.

Lemma pretty_N_read (n : N) : digits_value 0 (pretty n) = Some (Z.of_N n) ∧ (pretty n ≠ EmptyString ∧ (10 ^ len (pretty n) ≤ 10 * Z.of_N (N.max 1 n))) ∧
  (∀ c, has_byte c (pretty n) = true → is_digit c = true).
Proof.
  unfold pretty, pretty_N. case_decide as Hn.
  { subst. split_and!; [done..|]. intros c. cbn [has_byte]. rewrite orb_false_r. by intros <-%Ascii.eqb_eq. }
  destruct (pretty_N_go_read n EmptyString) as (p & Hp & Hv & Hne & Hb). rewrite string_app_nil_r in Hp. rewrite Hp.
  rewrite N.max_r by lia. auto.
Qed.

Lemma Itoa_nonneg z : 0 ≤ z → Itoa z = pretty (Z.to_N z).
Proof. intros Hz. unfold Itoa, pretty, pretty_Z. by destruct z. Qed.

Lemma Itoa_neg z : z < 0 → Itoa z = String "-" (pretty (Z.to_N (- z))).
Proof. intros Hz. unfold Itoa. by destruct z. Qed.

Lemma digit_first s c : (∀ c, has_byte c s = true → is_digit c = true) → is_digit c = false →
  match s with String d _ => Ascii.eqb d c = false | EmptyString => True end.
Proof.
  intros Hs Hc. destruct s as [|d s]; [done|]. destruct (Ascii.eqb_spec d c) as [->|]; [|done].
  specialize (Hs c). cbn [has_byte] in Hs. rewrite Ascii.eqb_refl in Hs. rewrite Hs in Hc; done.
Qed.

Lemma Atoi_Itoa z : min_int64 ≤ z ≤ max_int64 → Atoi (Itoa z) = Some z.
Proof.
  intros Hz. assert ((min_int64 <=? z) && (z <=? max_int64) = true) as Hr by (apply andb_true_iff; split; apply Z.leb_le; lia).
  destruct (Z.lt_ge_cases z 0) as [Hn|Hn].
  - rewrite Itoa_neg by done. destruct (pretty_N_read (Z.to_N (- z))) as (Hv & [Hne _] & _).
    unfold Atoi. change (Ascii.eqb "-" "-") with true. cbv iota beta. rewrite (proj2 (is_empty_false _) Hne), Hv.
    cbn [mbind option_bind]. replace (- Z.of_N (Z.to_N (- z))) with z by lia. by rewrite Hr.
  - rewrite Itoa_nonneg by done. destruct (pretty_N_read (Z.to_N z)) as (Hv & [Hne _] & Hb).
    pose proof (digit_first _ "-" Hb eq_refl). pose proof (digit_first _ "+" Hb eq_refl).
    unfold Atoi. destruct (pretty (Z.to_N z)) as [|d s]; [done|]. simplify_eq.
    repeat match goal with E : Ascii.eqb _ _ = false |- _ => rewrite E end.
    cbn [is_empty String.eqb]. rewrite Hv. cbn [mbind option_bind]. rewrite Z2N.id by done. by rewrite Hr.
Qed.

Lemma Itoa_no_sep z c : is_digit c = false → c ≠ "-"%char → no_sep c (Itoa z).
Proof.
  intros Hc Hd. unfold no_sep. apply not_true_iff_false. intros Hs.
  destruct (Z.lt_ge_cases z 0); [rewrite Itoa_neg in Hs by done|rewrite Itoa_nonneg in Hs by done].
  - cbn [has_byte] in Hs. apply orb_true_iff in Hs as [<-%Ascii.eqb_eq|Hs]; [done|].
    apply (pretty_N_read _) in Hs. congruence.
  - apply (pretty_N_read _) in Hs. congruence.
Qed.

Lemma len_Itoa_pos z : 0 < len (Itoa z).
Proof.
  unfold len. destruct (Z.lt_ge_cases z 0); [rewrite Itoa_neg by done; cbn [String.length]; lia|].
  rewrite Itoa_nonneg by done. destruct (pretty_N_read (Z.to_N z)) as (_ & [Hne _] & _).
  destruct (pretty (Z.to_N z)); [done|]. cbn [String.length]. lia.
Qed.

Lemma len_Itoa z : min_int64 ≤ z ≤ max_int64 → len (Itoa z) ≤ 20.
Proof.
  intros Hz. unfold min_int64, max_int64 in Hz.
  assert (∀ n, 0 ≤ n ≤ 2 ^ 63 → len (pretty (Z.to_N n)) ≤ 19) as Hlen.
  { intros n Hn. destruct (pretty_N_read (Z.to_N n)) as (_ & [_ Hl] & _).
    assert (10 ^ len (pretty (Z.to_N n)) < 10 ^ 20) as Hlt by lia. apply Z.pow_lt_mono_r_iff in Hlt; [lia|lia|lia]. }
  destruct (Z.lt_ge_cases z 0); [rewrite Itoa_neg by done|rewrite Itoa_nonneg by done].
  - specialize (Hlen (- z) ltac:(lia)). unfold len in *. cbn [String.length]. lia.
  - specialize (Hlen z ltac:(lia)). lia.
Qed.
