(* ===== verification/Text.v ===== *)
(** Facts about text: decoding into runes is compatible with cutting at rune
    boundaries, trimming twice is trimming once, plain text has nothing to trim,
    base64 and [slices.Compact] of sorted lists. *)
From S2P Require Import Prelude GoStd Paths.
#[global] Open Scope Z_scope.

(** * One rune *)

(** The first rune, its bytes and what follows. *)
Definition head_rune (s : string) : option (Z * string * string) :=
  match s with
  | EmptyString => None
  | String c0 s1 =>
      let b0 := byte_of c0 in
      let bad := Some (RuneError, String c0 EmptyString, s1) in
      if b0 <? 128 then Some (b0, String c0 EmptyString, s1)
      else match s1 with
      | EmptyString => bad
      | String c1 s2 =>
          let b1 := byte_of c1 in
          if (194 <=? b0) && (b0 <=? 223) then
            if cont b1
            then Some ((b0 - 192) * 64 + (b1 - 128), String c0 (String c1 EmptyString), s2)
            else bad
          else match s2 with
          | EmptyString => bad
          | String c2 s3 =>
              let b2 := byte_of c2 in
              if (224 <=? b0) && (b0 <=? 239) then
                if second3 b0 b1 && cont b2
                then Some ((b0 - 224) * 4096 + (b1 - 128) * 64 + (b2 - 128),
                           String c0 (String c1 (String c2 EmptyString)), s3)
                else bad
              else match s3 with
              | EmptyString => bad
              | String c3 s4 =>
                  let b3 := byte_of c3 in
                  if (240 <=? b0) && (b0 <=? 244) && second4 b0 b1 && cont b2 && cont b3
                  then Some ((b0 - 240) * 262144 + (b1 - 128) * 4096 + (b2 - 128) * 64 + (b3 - 128),
                             String c0 (String c1 (String c2 (String c3 EmptyString))), s4)
                  else bad
              end
          end
      end
  end.

Lemma decode_head s :
  decode s = match head_rune s with Some (r, bs, rest) => (r, bs) :: decode rest | None => [] end.
Proof.
  destruct s as [|c0 s1]; [done|]. cbn [decode]. unfold head_rune. cbv zeta.
  repeat case_match; by simplify_eq.
Qed.

Lemma head_rune_cut s r bs rest a b : head_rune s = Some (r, bs, rest) → rest = a +:+ b →
  head_rune (bs +:+ a) = Some (r, bs, a).
Proof.
  intros Hs ->. revert Hs. destruct s as [|c0 s1]; [done|]. unfold head_rune. cbv zeta.
  destruct (byte_of c0 <? 128) eqn:H0; [intros [= <- <- _]; rewrite !string_app_cons; by rewrite H0|].
  assert (∀ s1, Some (RuneError, String c0 EmptyString, s1) = Some (r, bs, a +:+ b) →
    r = RuneError ∧ bs = String c0 EmptyString ∧ s1 = a +:+ b) as Hbad by by intros ? [= <- <- ->].
  destruct s1 as [|c1 s2].
  { intros (-> & -> & Ha)%Hbad. destruct a; [|done]. simpl. by rewrite H0. }
  destruct ((194 <=? byte_of c0) && (byte_of c0 <=? 223)) eqn:H1.
  { destruct (cont (byte_of c1)) eqn:Hc.
    - intros [= <- <- ->]. rewrite !string_app_cons. by rewrite H0, H1, Hc.
    - intros (-> & -> & Ha)%Hbad. rewrite string_app_cons, H0. destruct a as [|a0 a]; [done|].
      rewrite string_app_cons in Ha. injection Ha as <- _. by simpl; rewrite H1, Hc. }
  destruct s2 as [|c2 s3].
  { intros (-> & -> & Ha)%Hbad. rewrite string_app_cons, H0. destruct a as [|a0 [|a1 a]]; [done| |done].
    simpl. by rewrite H1. }
  destruct ((224 <=? byte_of c0) && (byte_of c0 <=? 239)) eqn:H2.
  { destruct (second3 (byte_of c0) (byte_of c1) && cont (byte_of c2)) eqn:Hc.
    - intros [= <- <- ->]. rewrite !string_app_cons. by rewrite H0, H1, H2, Hc.
    - intros (-> & -> & Ha)%Hbad. rewrite string_app_cons, H0. destruct a as [|a0 [|a1 a]]; [done|simpl; by rewrite H1|].
      rewrite !string_app_cons in Ha. injection Ha as <- <- _. by simpl; rewrite H1, H2, Hc. }
  destruct s3 as [|c3 s4].
  { intros (-> & -> & Ha)%Hbad. rewrite string_app_cons, H0. destruct a as [|a0 [|a1 [|a2 a]]]; [done|..|done];
      simpl; by rewrite H1, ?H2. }
  destruct ((240 <=? byte_of c0) && _ && _ && _ && _) eqn:Hc.
  - intros [= <- <- ->]. rewrite !string_app_cons. by rewrite H0, H1, H2, Hc.
  - intros (-> & -> & Ha)%Hbad. rewrite string_app_cons, H0.
    destruct a as [|a0 [|a1 [|a2 a]]]; [done|simpl; by rewrite H1, ?H2..|].
    rewrite !string_app_cons in Ha. injection Ha as <- <- <- _. by simpl; rewrite H1, H2, Hc.
Qed.

Lemma encode_runes_cons x l : encode_runes (x :: l) = x.2 +:+ encode_runes l.
Proof. unfold encode_runes. by rewrite fmap_cons, concat_cons. Qed.

Lemma encode_runes_app l1 l2 : encode_runes (l1 ++ l2) = encode_runes l1 +:+ encode_runes l2.
Proof.
  induction l1 as [|x l1 IH]; [done|]. rewrite <-app_comm_cons, !encode_runes_cons, IH. apply string_app_assoc.
Qed.

(** Cutting a text at rune boundaries cuts its runes. *)
Lemma decode_prefix l1 : ∀ s l2, decode s = l1 ++ l2 → decode (encode_runes l1) = l1.
Proof.
  induction l1 as [|[r bs] l1 IH]; intros s l2; [done|]. rewrite decode_head.
  destruct (head_rune s) as [[[r' bs'] rest]|] eqn:Hh; [|done]. intros [= -> -> Hrest].
  rewrite encode_runes_cons. cbn [snd]. rewrite decode_head.
  rewrite (head_rune_cut _ _ _ _ (encode_runes l1) (encode_runes l2) Hh).
  - f_equal. by eapply IH.
  - by rewrite <-(encode_decode rest), Hrest, encode_runes_app.
Qed.

Lemma decode_suffix l1 : ∀ s l2, decode s = l1 ++ l2 → decode (encode_runes l2) = l2.
Proof.
  induction l1 as [|[r bs] l1 IH]; intros s l2 Hs.
  - change (decode s = l2) in Hs. by rewrite <-Hs, encode_decode.
  - rewrite decode_head in Hs. destruct (head_rune s) as [[[r' bs'] rest]|]; [|done].
    injection Hs as _ _ Hs. by eapply IH.
Qed.

(** * Trimming *)

Lemma drop_while_suffix {A} (f : A → bool) l : ∃ pre, l = pre ++ drop_while f l.
Proof.
  induction l as [|x l [pre IH]]; [by exists []|]. simpl. destruct (f x); [|by exists []].
  exists (x :: pre). by rewrite IH at 1.
Qed.

Lemma drop_while_idem {A} (f : A → bool) l : drop_while f (drop_while f l) = drop_while f l.
Proof. induction l as [|x l IH]; [done|]. simpl. destruct (f x) eqn:Hx; [done|]. simpl. by rewrite Hx. Qed.

Definition space_rune (x : Z * string) : bool := IsSpace x.1.
Definition trim_runes (l : list (Z * string)) : list (Z * string) :=
  reverse (drop_while space_rune (reverse (drop_while space_rune l))).

Lemma trim_runes_sub l : ∃ pre post, l = pre ++ trim_runes l ++ post.
Proof.
  unfold trim_runes. destruct (drop_while_suffix space_rune l) as [pre Hpre].
  destruct (drop_while_suffix space_rune (reverse (drop_while space_rune l))) as [post Hpost].
  exists pre, (reverse post). rewrite Hpre at 1. f_equal.
  rewrite <-(reverse_involutive (drop_while space_rune l)) at 1. rewrite Hpost at 1. by rewrite reverse_app.
Qed.

Lemma drop_while_head {A} (f : A → bool) l x l' : drop_while f l = x :: l' → f x = false.
Proof. induction l as [|y l IH]; [done|]. simpl. destruct (f y) eqn:Hy; [done|]. by intros [= <- _]. Qed.

Lemma drop_while_id {A} (f : A → bool) l : match l with x :: _ => f x = false | [] => True end → drop_while f l = l.
Proof. destruct l as [|x l]; [done|]. simpl. by intros ->. Qed.

Lemma trim_runes_idem l : trim_runes (trim_runes l) = trim_runes l.
Proof.
  unfold trim_runes at 2. set (m := drop_while space_rune l). unfold trim_runes at 1.
  assert (drop_while space_rune (reverse (drop_while space_rune (reverse m))) = reverse (drop_while space_rune (reverse m))) as ->.
  { apply drop_while_id. destruct (drop_while_suffix space_rune (reverse m)) as [post Hpost].
    destruct (reverse (drop_while space_rune (reverse m))) as [|x t] eqn:Hr; [done|].
    apply (f_equal reverse) in Hpost. rewrite reverse_app, Hr, reverse_involutive in Hpost.
    by apply (drop_while_head space_rune l x (t ++ reverse post)). }
  by rewrite reverse_involutive, drop_while_idem.
Qed.

Lemma TrimSpace_runes s : TrimSpace s = encode_runes (trim_runes (decode s)).
Proof. done. Qed.

Lemma decode_TrimSpace s : decode (TrimSpace s) = trim_runes (decode s).
Proof.
  rewrite TrimSpace_runes. destruct (trim_runes_sub (decode s)) as (pre & post & Hs).
  assert (decode (encode_runes (trim_runes (decode s) ++ post)) = trim_runes (decode s) ++ post) as Hd
    by by eapply decode_suffix.
  by eapply decode_prefix.
Qed.

Lemma TrimSpace_idem s : TrimSpace (TrimSpace s) = TrimSpace s.
Proof. by rewrite TrimSpace_runes, decode_TrimSpace, trim_runes_idem, <-TrimSpace_runes. Qed.

(** ** Plain text: printable ASCII without spaces *)

Definition plain_byte (c : ascii) : bool := (33 <=? byte_of c) && (byte_of c <=? 126).
Definition plain (s : string) : Prop := ∀ c, has_byte c s = true → plain_byte c = true.

Lemma plain_cons c s : plain (String c s) ↔ plain_byte c = true ∧ plain s.
Proof.
  unfold plain. cbn [has_byte]. setoid_rewrite orb_true_iff. split.
  - intros H. split; [apply H; left; apply Ascii.eqb_refl|]. intros d Hd. apply H. by right.
  - intros [Hc Hs] d [->%Ascii.eqb_eq|Hd]; [done|by apply Hs].
Qed.

Lemma plain_nil : plain EmptyString.
Proof. by intros c. Qed.

Lemma plain_app s t : plain (s +:+ t) ↔ plain s ∧ plain t.
Proof.
  induction s as [|c s IH]; [|rewrite string_app_cons, !plain_cons; naive_solver].
  split; [|by intros []]. intros Ht. split; [by intros c|done].
Qed.

Lemma plain_runes s : plain s → Forall (λ x, space_rune x = false) (decode s).
Proof.
  induction s as [|c s IH]; [constructor|]. rewrite plain_cons. unfold plain_byte. intros [Hc Hs].
  split_orb. zify_bool. cbn [decode]. cbv zeta. destruct (Z.ltb_spec (byte_of c) 128); [|lia].
  constructor; [|by apply IH]. unfold space_rune, IsSpace. cbn [fst].
  repeat match goal with |- _ || _ = false => apply orb_false_intro end;
    try (apply andb_false_iff); lia.
Qed.

Lemma TrimSpace_plain s : plain s → TrimSpace s = s.
Proof.
  intros Hs%plain_runes. rewrite TrimSpace_runes. unfold trim_runes.
  assert (∀ l, Forall (λ x, space_rune x = false) l → drop_while space_rune l = l) as Hid.
  { intros l Hl. apply drop_while_id. by destruct Hl. }
  rewrite (Hid _ Hs), Hid, reverse_involutive; [apply encode_decode|by rewrite Forall_reverse].
Qed.

(** * base64 *)

Definition is_byte (b : Z) : Prop := 0 ≤ b < 256.

Definition b64_char_ok (v : Z) : bool :=
  bool_decide (b64_value (b64_char v) = Some v) && plain_byte (b64_char v) && negb (Ascii.eqb (b64_char v) "=").

Lemma b64_char_spec v : 0 ≤ v < 64 →
  b64_value (b64_char v) = Some v ∧ plain_byte (b64_char v) = true ∧ Ascii.eqb (b64_char v) "=" = false.
Proof.
  intros Hv. assert (forallb b64_char_ok (seqZ 0 64) = true) as Hall by (vm_compute; reflexivity).
  rewrite forallb_forall in Hall. specialize (Hall v). rewrite <-list_elem_of_In, elem_of_seqZ in Hall.
  specialize (Hall ltac:(lia)). unfold b64_char_ok in Hall. split_orb. rewrite bool_decide_eq_true in *. done.
Qed.

Lemma triples_ind {A} (P : list A → Prop) :
  P [] → (∀ x, P [x]) → (∀ x y, P [x; y]) → (∀ x y z l, P l → P (x :: y :: z :: l)) → ∀ l, P l.
Proof.
  intros H0 H1 H2 H3. fix IH 1. intros [|x [|y [|z l]]]; [done..|]. apply H3, IH.
Qed.

Lemma base64_Encode_plain l : Forall is_byte l → plain (base64_Encode l).
Proof.
  induction l as [|x|x y|x y z l IH] using triples_ind; [intros; apply plain_nil|..];
    rewrite ?Forall_cons; unfold is_byte; intros Hl; destruct_and?; cbn [base64_Encode]; rewrite !plain_cons;
    split_and?; try (apply b64_char_spec; Z.to_euclidean_division_equations; lia);
    try done; try apply plain_nil; by apply IH.
Qed.

Lemma drop_newlines_plain s : plain s → drop_newlines s = s.
Proof.
  induction s as [|c s IH]; [done|]. rewrite plain_cons. unfold plain_byte. intros [Hc Hs]. split_orb. zify_bool.
  cbn [drop_newlines]. destruct (Z.eqb_spec (byte_of c) 10), (Z.eqb_spec (byte_of c) 13); try lia. simpl. by rewrite IH.
Qed.

(** Reads back the characters of an encoded quad. *)
Ltac b64_read :=
  repeat match goal with
  | |- context [b64_value (b64_char ?v)] =>
      let H := fresh in
      assert (0 ≤ v < 64) as H by (Z.to_euclidean_division_equations; lia);
      rewrite (proj1 (b64_char_spec v H)); cbn [mbind option_bind]
  | |- context [Ascii.eqb (b64_char ?v) "="] =>
      let H := fresh in
      assert (0 ≤ v < 64) as H by (Z.to_euclidean_division_equations; lia);
      rewrite (proj2 (proj2 (b64_char_spec v H)))
  end.

Lemma b64_quads_Encode l : Forall is_byte l → b64_quads (base64_Encode l) = Some l.
Proof.
  induction l as [|x|x y|x y z l IH] using triples_ind; [done|..]; rewrite ?Forall_cons; unfold is_byte; intros Hl; destruct_and?;
    cbn [base64_Encode b64_quads]; change (Ascii.eqb "=" "=") with true; cbn [is_empty String.eqb negb]; b64_read.
  3: rewrite IH by done; cbn [mbind option_bind].
  all: f_equal; repeat (f_equal; try (Z.to_euclidean_division_equations; lia)).
Qed.

(** Encoded bytes decode to themselves. *)
Lemma base64_roundtrip l : Forall is_byte l → base64_Decode (base64_Encode l) = Some l.
Proof.
  intros Hl. unfold base64_Decode. rewrite drop_newlines_plain by by apply base64_Encode_plain.
  by apply b64_quads_Encode.
Qed.

Lemma b64_value_range c v : b64_value c = Some v → 0 ≤ v < 64.
Proof. unfold b64_value. intros H. repeat case_match; simplify_eq; split_orb; zify_bool; lia. Qed.

Lemma b64_quads_bytes s : ∀ l, b64_quads s = Some l → Forall is_byte l.
Proof.
  induction s as [s IH] using (well_founded_induction (Wf_nat.well_founded_ltof _ String.length)).
  unfold Wf_nat.ltof in IH. intros l.
  destruct s as [|a [|b [|c [|d rest]]]]; [by intros [= <-]|done..|]. cbn [b64_quads].
  destruct (b64_value a) as [va|] eqn:Ha; [|done]. destruct (b64_value b) as [vb|] eqn:Hb; [|done].
  apply b64_value_range in Ha, Hb. cbn [mbind option_bind].
  assert (∀ x, 0 ≤ x < 256 → is_byte x) as Hbyte by done.
  destruct (Ascii.eqb d "=").
  - destruct (negb (is_empty rest)); [done|]. destruct (Ascii.eqb c "=").
    + intros [= <-]. rewrite Forall_singleton. apply Hbyte. Z.to_euclidean_division_equations; lia.
    + destruct (b64_value c) as [vc|] eqn:Hc; [|done]. apply b64_value_range in Hc. intros [= <-].
      rewrite Forall_cons, Forall_singleton. split; apply Hbyte; Z.to_euclidean_division_equations; lia.
  - destruct (b64_value c) as [vc|] eqn:Hc; [|done]. destruct (b64_value d) as [vd|] eqn:Hd; [|done].
    apply b64_value_range in Hc, Hd. cbn [mbind option_bind].
    destruct (b64_quads rest) as [tl|] eqn:Ht; [|done]. intros [= <-]. rewrite !Forall_cons.
    refine (conj _ (conj _ (conj _ _))); [apply Hbyte; Z.to_euclidean_division_equations; lia..|].
    eapply IH; [|exact Ht]. simpl. lia.
Qed.

Lemma base64_Decode_bytes s l : base64_Decode s = Some l → Forall is_byte l.
Proof. apply b64_quads_bytes. Qed.

(** * Compact *)

Lemma Compact_cons y z l :
  Compact (y :: z :: l) = if (y =? z)%string then Compact (z :: l) else y :: Compact (z :: l).
Proof. done. Qed.

Lemma elem_of_Compact x l : x ∈ Compact l ↔ x ∈ l.
Proof.
  induction l as [|y l IH]; [done|]. destruct l as [|z l]; [done|]. rewrite Compact_cons.
  destruct (String.eqb_spec y z) as [->|]; rewrite ?elem_of_cons, IH, ?elem_of_cons; naive_solver.
Qed.

Lemma Compact_sorted l : Sorted str_le l → StronglySorted str_le (Compact l) ∧ NoDup (Compact l).
Proof.
  intros Hs%Sorted_StronglySorted; [|apply _]. induction Hs as [|y l Hl IH Hy]; [split; constructor|].
  destruct l as [|z l]; [split; [by repeat constructor|apply NoDup_singleton]|].
  destruct IH as [IHs IHn]. rewrite Compact_cons. destruct (String.eqb_spec y z) as [->|Hne]; [done|].
  assert (Forall (str_le y) (Compact (z :: l))) as Hall.
  { apply Forall_forall. intros x. rewrite elem_of_Compact. by apply Forall_forall. }
  split; [by constructor|]. constructor; [|done]. rewrite elem_of_Compact, elem_of_cons. intros [->|Hin]; [done|].
  apply Hne. apply (anti_symm str_le).
  - by apply Forall_cons in Hy as [].
  - apply StronglySorted_inv in Hl as [_ Hl]. by apply (proj1 (Forall_forall _ _) Hl).
Qed.

Lemma Compact_NoDup l : NoDup l → Compact l = l.
Proof.
  induction 1 as [|y l Hy Hl IH]; [done|]. destruct l as [|z l]; [done|]. rewrite Compact_cons.
  destruct (String.eqb_spec y z) as [->|]; [|by rewrite IH]. set_solver.
Qed.

Lemma Compact_sort_idem l : Compact (sort_strings (Compact (sort_strings l))) = Compact (sort_strings l).
Proof.
  destruct (Compact_sorted _ (sort_strings_sorted l)) as [Hs Hn].
  rewrite sort_strings_id by by apply StronglySorted_Sorted. by apply Compact_NoDup.
Qed.

(** * Lower case *)

Fixpoint bytes_lower (s : string) : bool :=
  match s with
  | EmptyString => true
  | String c s' => (byte_of c <? 128) && Ascii.eqb (lower_ascii c) c && bytes_lower s'
  end.

Lemma ToLower_id s : bytes_lower s = true → ToLower s = s.
Proof.
  unfold ToLower. induction s as [|c s IH]; [done|]. cbn [bytes_lower]. intros [[Hc Hl]%andb_true_iff Hs]%andb_true_iff.
  cbn [decode]. cbv zeta. rewrite Hc, fmap_cons, concat_cons, IH by done. unfold lower_rune. cbn [fst snd map_string].
  apply Ascii.eqb_eq in Hl. zify_bool. destruct (Z.eqb_spec (byte_of c) 8490), (Z.eqb_spec (byte_of c) 304); [lia..|]. by rewrite Hl.
Qed.

(** * Folding

    A string that folds to an upper-case ASCII word is that word in another case.
    K is left out: U+212A folds to it and is no other case of it; so is S for
    lower case. *)

Lemma head_rune_ascii s r bs rest : head_rune s = Some (r, bs, rest) → r < 128 →
  ∃ c, bs = String c EmptyString ∧ byte_of c = r.
Proof.
  destruct s as [|c0 s1]; [done|]. unfold head_rune. cbv zeta. pose proof (N_ascii_bounded c0) as Hb.
  destruct (Z.ltb_spec (byte_of c0) 128) as [H0|H0]; [intros [= <- <- _] _; eauto|].
  assert (∀ s, Some (RuneError, String c0 EmptyString, s) = Some (r, bs, rest) → r < 128 → False) as Hbad.
  { intros s [= <- _ _]. by vm_compute. }
  destruct s1 as [|c1 s2]; [intros ? ?; exfalso; by eapply Hbad|].
  destruct ((194 <=? byte_of c0) && (byte_of c0 <=? 223)) eqn:H1.
  { apply andb_true_iff in H1 as [H1%Z.leb_le _]. destruct (cont (byte_of c1)) eqn:Hc; [|intros ? ?; exfalso; by eapply Hbad].
    unfold cont in Hc. intros [= <- _ _] Hr. split_orb. zify_bool. lia. }
  destruct s2 as [|c2 s3]; [intros ? ?; exfalso; by eapply Hbad|].
  destruct ((224 <=? byte_of c0) && (byte_of c0 <=? 239)) eqn:H2.
  { destruct (second3 _ _ && cont (byte_of c2)) eqn:Hc; [|intros ? ?; exfalso; by eapply Hbad].
    unfold second3, cont in Hc. intros [= <- _ _] Hr. split_orb. zify_bool.
    destruct (Z.eqb_spec (byte_of c0) 224), (Z.eqb_spec (byte_of c0) 237); split_orb; zify_bool; lia. }
  destruct s3 as [|c3 s4]; [intros ? ?; exfalso; by eapply Hbad|].
  destruct (_ && cont (byte_of c3)) eqn:Hc; [|intros ? ?; exfalso; by eapply Hbad].
  unfold second4, cont in Hc. intros [= <- _ _] Hr. split_orb. zify_bool.
  destruct (Z.eqb_spec (byte_of c0) 240), (Z.eqb_spec (byte_of c0) 244); split_orb; zify_bool; lia.
Qed.

Definition ascii_rune (x : Z * string) : Prop := x.1 < 128 → ∃ c, x.2 = String c EmptyString ∧ byte_of c = x.1.

Lemma decode_ascii s : Forall ascii_rune (decode s).
Proof.
  assert (∀ l s, decode s = l → Forall ascii_rune l) as Hl; [|by eapply Hl].
  clear s. induction l as [|[r bs] l IH]; intros s Hs; [constructor|]. rewrite decode_head in Hs.
  destruct (head_rune s) as [[[r' bs'] rest]|] eqn:Hh; [|done]. injection Hs as -> -> Hs. constructor; [|by eapply IH].
  unfold ascii_rune. cbn [fst snd]. by eapply head_rune_ascii.
Qed.

Definition lower_byte (c : ascii) : bool := (97 <=? byte_of c) && (byte_of c <=? 122).

Fixpoint word_bytes (excluded : string) (w : string) : bool :=
  match w with
  | EmptyString => true
  | String c w' => (byte_of c <? 128) && negb (lower_byte c) && negb (has_byte c excluded) && word_bytes excluded w'
  end.

Lemma word_bytes_cons ex c w : word_bytes ex (String c w) = true →
  byte_of c < 128 ∧ lower_byte c = false ∧ has_byte c ex = false ∧ word_bytes ex w = true.
Proof. cbn [word_bytes]. intros H. split_orb. zify_bool. done. Qed.

Lemma runes_word_cons ex c w : word_bytes ex (String c w) = true →
  fold_rune <$> runes (String c w) = byte_of c :: (fold_rune <$> runes w).
Proof.
  intros (Hc & Hl & _)%word_bytes_cons. unfold runes. cbn [decode]. cbv zeta. rewrite (proj2 (Z.ltb_lt _ _) Hc), !fmap_cons. f_equal.
  unfold fold_rune, lower_byte in *. cbn [fst]. rewrite Hl. destruct (Z.eqb_spec (byte_of c) 383), (Z.eqb_spec (byte_of c) 8490); lia.
Qed.

(** The rune behind a folded ASCII letter. *)
Lemma fold_rune_ascii x c : ascii_rune x → byte_of c < 128 → fold_rune x.1 = byte_of c →
  (x.1 = 383 ∧ byte_of c = 83) ∨ (x.1 = 8490 ∧ byte_of c = 75) ∨
  ∃ d, x = (byte_of d, String d EmptyString) ∧ byte_of d < 128 ∧ upper_ascii d = c.
Proof.
  destruct x as [r bs]. unfold ascii_rune. cbn [fst snd]. intros Hx Hc. unfold fold_rune.
  destruct (Z.eqb_spec r 383) as [->|]; [by left|]. destruct (Z.eqb_spec r 8490) as [->|]; [by right; left|].
  intros Hf. right. right. assert (r < 128) as Hr by (destruct ((97 <=? r) && (r <=? 122)) eqn:?; split_orb; zify_bool; lia).
  destruct (Hx Hr) as (d & -> & <-). exists d. split_and!; [done|done|]. 
  assert (c = ascii_of_N (Z.to_N (byte_of c))) as -> by (unfold byte_of; by rewrite N2Z.id, ascii_N_embedding).
  rewrite <-Hf. clear. by destruct d as [[] [] [] [] [] [] [] []].
Qed.

#[export] Instance byte_of_inj : Inj (=) (=) byte_of.
Proof. intros a b Hab%N2Z.inj. by rewrite <-(ascii_N_embedding a), Hab, ascii_N_embedding. Qed.

Lemma fold_word v w ex (f : Z * string → string) : word_bytes ex w = true → EqualFold v w = true →
  (∀ x c, ascii_rune x → byte_of c < 128 → lower_byte c = false → has_byte c ex = false → fold_rune x.1 = byte_of c →
    f x = f (byte_of c, String c EmptyString)) →
  String.concat EmptyString (f <$> decode v) = String.concat EmptyString (f <$> decode w).
Proof.
  intros Hw Hv%bool_decide_eq_true Hf. unfold runes in Hv at 1. pose proof (decode_ascii v) as Ha.
  revert w Hw Hv. induction Ha as [|x l Hx _ IH]; intros w Hw Hv.
  - by destruct w as [|c w]; [|rewrite (runes_word_cons ex) in Hv by done].
  - destruct w as [|c w]; [done|]. rewrite (runes_word_cons ex) in Hv by done. injection Hv as Hr Hv.
    apply word_bytes_cons in Hw as (Hc & Hl & He & Hw). cbn [decode]. cbv zeta. rewrite (proj2 (Z.ltb_lt _ _) Hc), !fmap_cons, !concat_cons.
    f_equal; [by apply Hf|by apply IH].
Qed.

Lemma EqualFold_ToUpper v w : word_bytes "K" w = true → EqualFold v w = true → ToUpper v = ToUpper w.
Proof.
  intros Hw Hv. eapply fold_word; [done..|]. intros x c Hx Hc Hl He Hr. unfold lower_byte in Hl.
  destruct (fold_rune_ascii x c Hx Hc Hr) as [[Hx' Hc']|[[Hx' Hc']|(d & -> & Hd & <-)]].
  - unfold upper_rune. rewrite Hx'. assert (c = "S"%char) as -> by (apply (inj byte_of); done). done.
  - assert (c = "K"%char) as -> by (apply (inj byte_of); done). done.
  - clear -Hd. unfold upper_rune. cbn [fst snd map_string]. by destruct d as [[] [] [] [] [] [] [] []].
Qed.

Lemma EqualFold_ToLower v w : word_bytes "KS" w = true → EqualFold v w = true → ToLower v = ToLower w.
Proof.
  intros Hw Hv. eapply fold_word; [done..|]. intros x c Hx Hc Hl He Hr. unfold lower_byte in Hl.
  destruct (fold_rune_ascii x c Hx Hc Hr) as [[Hx' Hc']|[[Hx' Hc']|(d & -> & Hd & <-)]].
  - assert (c = "S"%char) as -> by (apply (inj byte_of); done). done.
  - assert (c = "K"%char) as -> by (apply (inj byte_of); done). done.
  - clear -Hd. unfold lower_rune. cbn [fst snd map_string]. by destruct d as [[] [] [] [] [] [] [] []].
Qed.

Lemma ToLower_cons c s : byte_of c < 128 → ToLower (String c s) = String (lower_ascii c) (ToLower s).
Proof.
  intros Hc. unfold ToLower. cbn [decode]. cbv zeta. rewrite (proj2 (Z.ltb_lt _ _) Hc), fmap_cons, concat_cons. unfold lower_rune. cbn [fst snd map_string].
  destruct (Z.eqb_spec (byte_of c) 8490), (Z.eqb_spec (byte_of c) 304); [lia..|]. done.
Qed.
