(* ===== verification/GoNet.v ===== *)
(** Go's [net/netip] and the host:port helpers of [net]: addresses of both
    families, prefixes, their texts, and what the program asks of them. *)
From S2P Require Import Prelude GoStd Paths.
#[global] Open Scope Z_scope.

(** * Addresses *)

(** A [netip.Addr]: the zero value, an IPv4 address, or an IPv6 address with its
    zone (the empty text when it has none). Addresses are numbers. *)
Inductive Addr : Type :=
  | AddrZero
  | Addr4 (ip : Z)
  | Addr6 (ip : Z) (zone : string).

#[export] Instance Addr_eq_dec : EqDecision Addr.
Proof. solve_decision. Defined.

Definition hex_of (c : ascii) : option Z :=
  let b := byte_of c in
  if (48 <=? b) && (b <=? 57) then Some (b - 48)
  else if (97 <=? b) && (b <=? 102) then Some (b - 87)
  else if (65 <=? b) && (b <=? 70) then Some (b - 55)
  else None.

(** The digits of a field: its value and what follows; [room] is how many more
    digits it may have. *)
Fixpoint hex_run (room : nat) (acc : Z) (s : string) {struct s} : option (Z * string) :=
  match s with
  | String c s' =>
      match hex_of c, room with
      | Some d, S room' => hex_run room' (acc * 16 + d) s'
      | Some _, O => None
      | None, _ => Some (acc, s)
      end
  | EmptyString => Some (acc, EmptyString)
  end.

Definition hex_field (s : string) : option (Z * string) :=
  match s with
  | String c _ => if non_nil (hex_of c) then hex_run 4 0 s else None
  | EmptyString => None
  end.

(** The loop of [parseIPv6]: [n] fields may still follow the fields [acc];
    [ellipsis] is the number of fields before the double colon. *)
Fixpoint fields6 (n : nat) (acc : list Z) (ellipsis : option nat) (s : string)
  : option (list Z * option nat) :=
  match n with
  | O => if is_empty s then Some (acc, ellipsis) else None
  | S n' =>
      '(v, rest) ← hex_field s;
      match rest with
      | EmptyString => Some (acc ++ [v], ellipsis)
      | String c rest' =>
          if Ascii.eqb c "." then
            if negb (non_nil ellipsis) && negb (length acc =? 6)%nat then None
            else if (6 <? length acc)%nat then None
            else ip ← ParseIPv4 s; Some (acc ++ [ip / 65536; ip mod 65536], ellipsis)
          else if negb (Ascii.eqb c ":") || is_empty rest' then None
          else match rest' with
               | String d rest'' =>
                   if Ascii.eqb d ":" then
                     if non_nil ellipsis then None
                     else if is_empty rest'' then Some (acc ++ [v], Some (S (length acc)))
                     else fields6 n' (acc ++ [v]) (Some (S (length acc))) rest''
                   else fields6 n' (acc ++ [v]) ellipsis rest'
               | EmptyString => None
               end
      end
  end.

(** The eight fields, the double colon expanded. *)
Definition expand6 (r : list Z * option nat) : option (list Z) :=
  let '(fields, ellipsis) := r in
  if (length fields <? 8)%nat then
    match ellipsis with
    | None => None
    | Some e => Some (take e fields ++ replicate (8 - length fields) 0 ++ drop e fields)
    end
  else if non_nil ellipsis then None else Some fields.

Definition number_of (fields : list Z) : Z := fold_left (λ acc v, acc * 65536 + v) fields 0.

Definition ParseIPv6 (input : string) : option Addr :=
  '(s, zone) ← match Cut input "%" with
               | Some (s, zone) => if is_empty zone then None else Some (s, zone)
               | None => Some (input, EmptyString)
               end;
  r ← if HasPrefix s "::" then
        let rest := drop_string 2 s in
        if is_empty rest then Some ([], Some 0%nat) else fields6 8 [] (Some 0%nat) rest
      else fields6 8 [] None s;
  fields ← expand6 r;
  Some (Addr6 (number_of fields) zone).

(** [netip.ParseAddr]: the first of dot, colon and percent decides the family. *)
Fixpoint addr_kind (s : string) : option ascii :=
  match s with
  | EmptyString => None
  | String c s' => if Ascii.eqb c "." || Ascii.eqb c ":" || Ascii.eqb c "%" then Some c else addr_kind s'
  end.

Definition ParseAddr (s : string) : option Addr :=
  c ← addr_kind s;
  if Ascii.eqb c "." then Addr4 <$> ParseIPv4 s
  else if Ascii.eqb c ":" then ParseIPv6 s else None.

Definition Zone (a : Addr) : string := match a with Addr6 _ z => z | _ => EmptyString end.

(** [net.ParseIP(s) != nil] *)
Definition ParseIP (s : string) : bool :=
  match ParseAddr s with Some a => is_empty (Zone a) | None => false end.

Definition Is4 (a : Addr) : bool := match a with Addr4 _ => true | _ => false end.
Definition Is6 (a : Addr) : bool := match a with Addr6 _ _ => true | _ => false end.
Definition IsValid (a : Addr) : bool := Is4 a || Is6 a.
Definition BitLen (a : Addr) : Z := match a with AddrZero => 0 | Addr4 _ => 32 | Addr6 _ _ => 128 end.
Definition addr_number (a : Addr) : Z := match a with AddrZero => 0 | Addr4 ip | Addr6 ip _ => ip end.

Definition Is4In6 (a : Addr) : bool :=
  match a with Addr6 ip _ => ip / 2 ^ 32 =? 65535 | _ => false end.

Definition Unmap (a : Addr) : Addr := if Is4In6 a then Addr4 (addr_number a mod 2 ^ 32) else a.

(** The class tests look through an IPv4-mapped address. *)
Definition IsLoopback (a : Addr) : bool :=
  match Unmap a with
  | Addr4 ip => ip / 2 ^ 24 =? 127
  | Addr6 ip _ => ip =? 1
  | AddrZero => false
  end.
Definition IsMulticast (a : Addr) : bool :=
  match Unmap a with
  | Addr4 ip => ip / 2 ^ 28 =? 14
  | Addr6 ip _ => ip / 2 ^ 120 =? 255
  | AddrZero => false
  end.
Definition IsLinkLocalUnicast (a : Addr) : bool :=
  match Unmap a with
  | Addr4 ip => ip / 2 ^ 16 =? 169 * 256 + 254
  | Addr6 ip _ => ip / 2 ^ 118 =? 65152 / 64
  | AddrZero => false
  end.
Definition IsLinkLocalMulticast (a : Addr) : bool :=
  match Unmap a with
  | Addr4 ip => ip / 2 ^ 8 =? 224 * 65536
  | Addr6 ip _ => (ip / 2 ^ 112 mod 2 ^ 4 =? 2) && (ip / 2 ^ 120 =? 255)
  | AddrZero => false
  end.
(** Equality with [0.0.0.0] or with [::] without a zone. *)
Definition IsUnspecified (a : Addr) : bool :=
  bool_decide (a = Addr4 0) || bool_decide (a = Addr6 0 EmptyString).

(** Private addresses of RFC 1918 and RFC 4193. *)
Definition private4 (ip : Z) : bool :=
  (ip / 2 ^ 24 =? 10) || (ip / 2 ^ 20 =? 172 * 16 + 1) || (ip / 2 ^ 16 =? 192 * 256 + 168).
Definition private6 (ip : Z) : bool := ip / 2 ^ 121 =? 126.
Definition IsPrivate (a : Addr) : bool :=
  match Unmap a with
  | Addr4 ip => private4 ip
  | Addr6 ip _ => private6 ip
  | AddrZero => false
  end.
Definition IsGlobalUnicast (a : Addr) : bool :=
  match Unmap a with
  | AddrZero => false
  | Addr4 ip => negb (ip =? 0) && negb (ip =? 2 ^ 32 - 1) && negb (IsLoopback a) && negb (IsMulticast a) && negb (IsLinkLocalUnicast a)
  | Addr6 ip z => negb (bool_decide (Addr6 ip z = Addr6 0 EmptyString)) && negb (IsLoopback a) && negb (IsMulticast a) && negb (IsLinkLocalUnicast a)
  end.

(** * Texts *)

Definition hex_char (d : Z) : ascii := ascii_of_nat (Z.to_nat (if d <? 10 then d + 48 else d + 87)).

(** A field without leading zeros. *)
Definition hex_text (v : Z) : string :=
  let d3 := String (hex_char (v mod 16)) EmptyString in
  if v <? 16 then d3
  else let d2 := String (hex_char (v / 16 mod 16)) d3 in
       if v <? 256 then d2
       else let d1 := String (hex_char (v / 256 mod 16)) d2 in
            if v <? 4096 then d1 else String (hex_char (v / 4096 mod 16)) d1.

Definition field_at (ip : Z) (i : nat) : Z := ip / 65536 ^ (7 - Z.of_nat i) mod 65536.
Definition fields_of6 (ip : Z) : list Z := field_at ip <$> seq 0 8.

Fixpoint zero_run (l : list Z) : nat :=
  match l with v :: l' => if v =? 0 then S (zero_run l') else O | [] => O end.

(** The first longest run of two or more zero fields: where it starts and ends. *)
Definition longest_zeros (fields : list Z) : option (nat * nat) :=
  fold_left (λ best i,
    let l := zero_run (drop i fields) in
    let found := match best with Some (s, e) => e - s | None => O end%nat in
    if (2 <=? l)%nat && (found <? l)%nat then Some (i, i + l)%nat else best) (seq 0 8) None.

Definition string6 (ip : Z) : string :=
  let fields := fields_of6 ip in
  match longest_zeros fields with
  | Some (s, e) => Join (hex_text <$> take s fields) ":" +:+ "::" +:+ Join (hex_text <$> drop e fields) ":"
  | None => Join (hex_text <$> fields) ":"
  end.

Definition with_zone (zone : string) : string :=
  if is_empty zone then EmptyString else "%" +:+ zone.

Definition Addr_String (a : Addr) : string :=
  match a with
  | AddrZero => "invalid IP"
  | Addr4 ip => addr_String ip
  | Addr6 ip zone =>
      (if Is4In6 a then "::ffff:" +:+ addr_String (ip mod 2 ^ 32) else string6 ip) +:+ with_zone zone
  end.

(** * Prefixes *)

Record Prefix : Type := mkPrefix { px_Addr : Addr; px_Bits : Z }.

#[export] Instance Prefix_eq_dec : EqDecision Prefix.
Proof. solve_decision. Defined.

Definition ParsePrefix (s : string) : option Prefix :=
  '(addr, bits) ← CutLast s "/";
  ip ← ParseAddr addr;
  if negb (is_empty (Zone ip)) then None
  else
    let leading := match bits with
                   | String c (String _ _) => negb ((49 <=? byte_of c) && (byte_of c <=? 57))
                   | _ => false
                   end in
    if leading : bool then None
    else n ← Atoi bits;
         if (0 <=? n) && (n <=? BitLen ip) then Some (mkPrefix ip n) else None.

(** A prefix of the IPv4 family: its address and its length. *)
Definition ParsePrefix4 (s : string) : option (Z * Z) :=
  match ParsePrefix s with
  | Some (mkPrefix (Addr4 ip) bits) => Some (ip, bits)
  | _ => None
  end.

Definition mask_to (a : Addr) (bits : Z) : Addr :=
  match a with
  | AddrZero => AddrZero
  | Addr4 ip => Addr4 (ip / 2 ^ (32 - bits) * 2 ^ (32 - bits))
  | Addr6 ip _ => Addr6 (ip / 2 ^ (128 - bits) * 2 ^ (128 - bits)) EmptyString
  end.
Definition Masked (p : Prefix) : Prefix := mkPrefix (mask_to p.(px_Addr) p.(px_Bits)) p.(px_Bits).

(** The prefixes of the program come from [ParsePrefix], so they are valid. *)
Definition Prefix_Contains (p : Prefix) (a : Addr) : bool :=
  IsValid a && is_empty (Zone a) && (BitLen p.(px_Addr) =? BitLen a) &&
  (addr_number p.(px_Addr) / 2 ^ (BitLen a - p.(px_Bits)) =? addr_number a / 2 ^ (BitLen a - p.(px_Bits))).

Definition Overlaps (p o : Prefix) : bool :=
  (BitLen p.(px_Addr) =? BitLen o.(px_Addr)) &&
  let bits := Z.min p.(px_Bits) o.(px_Bits) in
  let w := BitLen p.(px_Addr) in
  addr_number p.(px_Addr) / 2 ^ (w - bits) =? addr_number o.(px_Addr) / 2 ^ (w - bits).

Definition Prefix_String (p : Prefix) : string :=
  Addr_String p.(px_Addr) +:+ "/" +:+ Itoa p.(px_Bits).

(** [addr.Next()], the zero address after the last one. *)
Definition Next (a : Addr) : Addr :=
  match a with
  | AddrZero => AddrZero
  | Addr4 ip => if ip + 1 =? 2 ^ 32 then AddrZero else Addr4 (ip + 1)
  | Addr6 ip zone => if ip + 1 =? 2 ^ 128 then AddrZero else Addr6 (ip + 1) zone
  end.

(** * host:port *)

(** [net.SplitHostPort] *)
Definition SplitHostPort (s : string) : option (string * string) :=
  '(before, port) ← CutLast s ":";
  if HasPrefix s "[" then
    '(bracketed, rest) ← Cut s "]";
    let host := drop_string 1 bracketed in
    if negb (rest =? ":" +:+ port)%string then None
    else if has_byte "[" (drop_string 1 s) || has_byte "]" rest then None
    else Some (host, port)
  else if has_byte ":" before || has_byte "[" s || has_byte "]" s then None
  else Some (before, port).

(** [net.JoinHostPort] *)
Definition JoinHostPort (host port : string) : string :=
  if has_byte ":" host then "[" +:+ host +:+ "]:" +:+ port else host +:+ ":" +:+ port.
