(* ===== verification/Prefixes.v ===== *)
(** Facts about addresses and prefixes: what parsing can return, and that the
    text of an address or of a prefix, of either family, parses back to it. *)
From S2P Require Import Prelude GoStd Paths Text GoNet.
#[global] Open Scope Z_scope.

(** What the text of an octet or of a prefix length parses to, by evaluation
    over the whole range. *)
Definition octet_text_ok (n : Z) : bool :=
  bool_decide (octet (Itoa n) = Some n) && negb (has_byte "." (Itoa n)) && negb (has_byte "/" (Itoa n)).
Definition bits_text_ok (n : Z) : bool :=
  bool_decide (Atoi (Itoa n) = Some n) && negb (has_byte "/" (Itoa n)) &&
  match Itoa n with
  | String c (String _ _) => (49 <=? byte_of c) && (byte_of c <=? 57)
  | _ => true
  end.

Lemma octet_text n : 0 ≤ n < 256 → octet (Itoa n) = Some n ∧ no_sep "." (Itoa n) ∧ no_sep "/" (Itoa n).
Proof.
  intros Hn. assert (forallb octet_text_ok (seqZ 0 256) = true) as Hall by (vm_compute; reflexivity).
  rewrite forallb_forall in Hall. specialize (Hall n).
  rewrite <-list_elem_of_In, elem_of_seqZ in Hall. specialize (Hall ltac:(lia)). unfold octet_text_ok in Hall.
  split_orb. rewrite bool_decide_eq_true in *. done.
Qed.

Lemma bits_text n : 0 ≤ n ≤ 128 → bits_text_ok n = true.
Proof.
  intros Hn. assert (forallb bits_text_ok (seqZ 0 129) = true) as Hall by (vm_compute; reflexivity).
  rewrite forallb_forall in Hall. apply Hall. rewrite <-list_elem_of_In, elem_of_seqZ. lia.
Qed.

Lemma digits_value_nonneg s : ∀ acc v, 0 ≤ acc → digits_value acc s = Some v → 0 ≤ v.
Proof.
  induction s as [|c s IH]; intros acc v Hacc; simpl; [by intros [= <-]|].
  unfold digit_of. destruct ((48 <=? byte_of c) && (byte_of c <=? 57)) eqn:Hd; simpl; [|done].
  split_orb. zify_bool. apply IH. lia.
Qed.

Lemma octet_range s n : octet s = Some n → 0 ≤ n < 256.
Proof.
  unfold octet. destruct s as [|c s]; [done|]. destruct (Ascii.eqb c "0" && _); [done|].
  destruct (digits_value 0 (String c s)) as [v|] eqn:Hv; simpl; [|done].
  destruct (v <=? 255) eqn:Hle; [|done]. intros [= <-]. zify_bool.
  apply digits_value_nonneg in Hv; lia.
Qed.

Lemma ParseIPv4_range s ip : ParseIPv4 s = Some ip → 0 ≤ ip < 2 ^ 32.
Proof.
  unfold ParseIPv4. destruct (Split s ".") as [|a [|b [|c [|d [|]]]]]; try done.
  destruct (octet a) as [va|] eqn:Ha, (octet b) as [vb|] eqn:Hb, (octet c) as [vc|] eqn:Hc,
    (octet d) as [vd|] eqn:Hd; simpl; try done.
  apply octet_range in Ha, Hb, Hc, Hd. intros [= <-]. lia.
Qed.

Lemma CutLast_app a b : no_sep "/" b → CutLast (a +:+ "/" +:+ b) "/" = Some (a, b).
Proof.
  unfold no_sep. intros Hb.
  assert (CutLast b "/" = None) as Hnone.
  { revert Hb. clear. induction b as [|c b IH]; simpl; [done|]. intros [Hc Hb]%orb_false_iff.
    by rewrite IH, Hc. }
  induction a as [|c a IH].
  - change (EmptyString +:+ "/" +:+ b) with (String "/" b). simpl. by rewrite Hnone.
  - rewrite string_app_cons. simpl. by rewrite IH.
Qed.

Lemma addr_digits ip : 0 ≤ ip < 2 ^ 32 →
  0 ≤ ip / 16777216 < 256 ∧ 0 ≤ ip / 65536 mod 256 < 256 ∧ 0 ≤ ip / 256 mod 256 < 256 ∧ 0 ≤ ip mod 256 < 256 ∧
  ip / 16777216 * 16777216 + ip / 65536 mod 256 * 65536 + ip / 256 mod 256 * 256 + ip mod 256 = ip.
Proof. intros H. Z.to_euclidean_division_equations. lia. Qed.

Lemma ParseIPv4_addr ip : 0 ≤ ip < 2 ^ 32 →
  ParseIPv4 (addr_String ip) = Some ip ∧ no_sep "/" (addr_String ip).
Proof.
  intros Hip. destruct (addr_digits ip Hip) as (Ha & Hb & Hc & Hd & Hsum).
  destruct (octet_text _ Ha) as (Oa & Da & Sa), (octet_text _ Hb) as (Ob & Db & Sb),
    (octet_text _ Hc) as (Oc & Dc & Sc), (octet_text _ Hd) as (Od & Dd & Sd).
  split.
  - unfold ParseIPv4, addr_String. rewrite Split_Join; [|done|by repeat constructor].
    rewrite Oa, Ob, Oc, Od. simpl. by rewrite Hsum.
  - unfold addr_String. apply no_sep_Join; [done|by repeat constructor].
Qed.

Lemma mask_addr_spec ip bits : 0 ≤ ip < 2 ^ 32 → 0 ≤ bits ≤ 32 →
  0 ≤ mask_addr ip bits ∧ mask_addr ip bits ≤ ip < mask_addr ip bits + 2 ^ (32 - bits) ∧
  mask_addr ip bits mod 2 ^ (32 - bits) = 0 ∧ mask_addr (mask_addr ip bits) bits = mask_addr ip bits.
Proof.
  intros Hip Hbits. unfold mask_addr.
  assert (0 < 2 ^ (32 - bits)) as Hp by (apply Z.pow_pos_nonneg; lia).
  generalize dependent (2 ^ (32 - bits)). intros p Hp.
  split_and!.
  - apply Z.mul_nonneg_nonneg; [apply Z.div_pos; lia|lia].
  - pose proof (Z.mul_div_le ip p Hp). lia.
  - pose proof (Z.mul_succ_div_gt ip p Hp). lia.
  - apply Z.mod_mul. lia.
  - by rewrite Z.div_mul by lia.
Qed.

(** * Fields of an IPv6 address *)

Definition is_hex (c : ascii) : bool := non_nil (hex_of c).
Definition all_hex (s : string) : bool := forallb is_hex (String.list_ascii_of_string s).
(** Text that cannot continue a field. *)
Definition stops (s : string) : Prop := match s with String c _ => is_hex c = false | EmptyString => True end.
Definition is_field (v : Z) : Prop := 0 ≤ v < 65536.

Definition hex_value (acc : Z) (s : string) : Z :=
  fold_left (λ acc c, acc * 16 + default 0 (hex_of c)) (String.list_ascii_of_string s) acc.

Lemma hex_run_app s : ∀ room acc t, all_hex s = true → (String.length s <= room)%nat → stops t →
  hex_run room acc (s +:+ t) = Some (hex_value acc s, t).
Proof.
  unfold all_hex, is_hex.
  induction s as [|c s IH]; intros room acc t Hs Hlen Ht.
  - change (EmptyString +:+ t) with t. unfold stops, is_hex in Ht.
    destruct t as [|c t]; [by destruct room|]. destruct room; simpl; by destruct (hex_of c).
  - rewrite string_app_cons. cbn [String.list_ascii_of_string forallb String.length] in *.
    apply andb_true_iff in Hs as [Hc Hs]. destruct room as [|room]; [lia|]. cbn [hex_run].
    destruct (hex_of c) as [d|] eqn:Hd; [|done]. rewrite IH by (done || lia).
    unfold hex_value. cbn [String.list_ascii_of_string fold_left]. by rewrite Hd.
Qed.

Lemma hex_field_app s t : all_hex s = true → (1 <= String.length s <= 4)%nat → stops t →
  hex_field (s +:+ t) = Some (hex_value 0 s, t).
Proof.
  intros Hs Hlen Ht. destruct s as [|c s]; [simpl in Hlen; lia|]. unfold hex_field.
  rewrite string_app_cons at 1. rewrite hex_run_app by (done || lia).
  unfold all_hex, is_hex in Hs. simpl in Hs. apply andb_true_iff in Hs as [-> _]. done.
Qed.

Lemma hex_char_of d : 0 ≤ d < 16 → hex_of (hex_char d) = Some d.
Proof.
  intros Hd. assert (forallb (λ d, bool_decide (hex_of (hex_char d) = Some d)) (seqZ 0 16) = true) as Hall
    by (vm_compute; reflexivity).
  rewrite forallb_forall in Hall. specialize (Hall d). rewrite bool_decide_eq_true in Hall. apply Hall.
  rewrite <-list_elem_of_In, elem_of_seqZ. lia.
Qed.

Lemma hex_text_ok v : is_field v →
  all_hex (hex_text v) = true ∧ (1 <= String.length (hex_text v) <= 4)%nat ∧ hex_value 0 (hex_text v) = v.
Proof.
  unfold is_field, hex_text, all_hex, is_hex, hex_value. intros Hv.
  pose proof (Z.mod_pos_bound v 16 ltac:(lia)). pose proof (Z.mod_pos_bound (v / 16) 16 ltac:(lia)).
  pose proof (Z.mod_pos_bound (v / 256) 16 ltac:(lia)). pose proof (Z.mod_pos_bound (v / 4096) 16 ltac:(lia)).
  destruct (Z.ltb_spec v 16), (Z.ltb_spec v 256), (Z.ltb_spec v 4096); try lia;
    cbn [String.list_ascii_of_string forallb String.length fold_left]; rewrite !hex_char_of by done; cbn;
    (split; [done|]); (split; [lia|]); Z.to_euclidean_division_equations; lia.
Qed.

(** Fields joined by colons, in front of a tail. *)
Definition joined (fields : list Z) : string := Join (hex_text <$> fields) ":".

Lemma joined_cons v w l : joined (v :: w :: l) = hex_text v +:+ String ":" (joined (w :: l)).
Proof. done. Qed.

Lemma joined_head v l t : is_field v →
  ∃ c s, joined (v :: l) +:+ t = String c s ∧ Ascii.eqb c ":" = false.
Proof.
  intros Hv. destruct (hex_text_ok v Hv) as (Hhex & Hlen & _).
  assert (∃ s, joined (v :: l) = hex_text v +:+ s) as [s ->].
  { destruct l as [|w l]; [exists EmptyString; by rewrite string_app_nil_r|]. rewrite joined_cons. eauto. }
  destruct (hex_text v) as [|c u] eqn:Heq; [simpl in Hlen; lia|]. rewrite !string_app_cons.
  eexists _, _. split; [done|]. unfold all_hex, is_hex in Hhex. simpl in Hhex.
  apply andb_true_iff in Hhex as [Hc _]. destruct (Ascii.eqb_spec c ":") as [->|]; [by vm_compute in Hc|done].
Qed.

Lemma fields6_field v t : is_field v → stops t →
  hex_field (hex_text v +:+ t) = Some (v, t).
Proof.
  intros Hv Ht. destruct (hex_text_ok v Hv) as (Hhex & Hlen & Hval). rewrite hex_field_app by done. by rewrite Hval.
Qed.

Lemma fields6_end l : ∀ n acc ell, l ≠ [] → Forall is_field l → (length l <= n)%nat →
  fields6 n acc ell (joined l) = Some (acc ++ l, ell).
Proof.
  induction l as [|v l IH]; [done|]. intros n acc ell _ [Hv Hl]%Forall_cons Hn.
  destruct n as [|n]; [simpl in Hn; lia|]. cbn [fields6]. destruct l as [|w l].
  - change (joined [v]) with (hex_text v). rewrite <-(string_app_nil_r (hex_text v)), fields6_field by done. done.
  - rewrite joined_cons, fields6_field by done. cbn [mbind option_bind].
    destruct (joined_head w l EmptyString) as (c & s & Hj & Hc); [by apply Forall_cons in Hl as []|].
    rewrite string_app_nil_r in Hj. rewrite Hj. cbn. rewrite Hc. cbn. rewrite <-Hj.
    rewrite IH; [by rewrite <-app_assoc|done..|]. simpl in *. lia.
Qed.

Lemma fields6_gap l : ∀ n acc t, l ≠ [] → Forall is_field l → (length l <= n)%nat →
  fields6 n acc None (joined l +:+ "::" +:+ t) =
  if is_empty t then Some (acc ++ l, Some (length (acc ++ l)))
  else fields6 (n - length l) (acc ++ l) (Some (length (acc ++ l))) t.
Proof.
  induction l as [|v l IH]; [done|]. intros n acc t _ [Hv Hl]%Forall_cons Hn.
  destruct n as [|n]; [simpl in Hn; lia|]. cbn [fields6]. destruct l as [|w l].
  - change (joined [v]) with (hex_text v). rewrite fields6_field by done. cbn.
    change (S n - 1)%nat with (n - 0)%nat. rewrite Nat.sub_0_r, length_app, Nat.add_1_r. by destruct t.
  - rewrite joined_cons, <-string_app_assoc, string_app_cons, fields6_field by done. cbn [mbind option_bind].
    destruct (joined_head w l ("::" +:+ t)) as (c & s & Hj & Hc); [by apply Forall_cons in Hl as []|].
    rewrite Hj. cbn. rewrite Hc. cbn. rewrite <-Hj.
    rewrite IH; [by rewrite <-app_assoc|done..|]. simpl in *. lia.
Qed.

(** * The text of an IPv6 address *)

Lemma fields_of6_ok ip : 0 ≤ ip < 2 ^ 128 →
  Forall is_field (fields_of6 ip) ∧ length (fields_of6 ip) = 8%nat ∧ number_of (fields_of6 ip) = ip.
Proof.
  intros Hip. split_and!; [|done|].
  - apply Forall_fmap, Forall_forall. intros i _. unfold is_field, field_at. simpl. apply Z.mod_pos_bound. lia.
  - unfold fields_of6, number_of, field_at. cbn -[Z.pow Z.div Z.modulo]. 
    change (65536 ^ (7 - Z.of_nat 7)) with 1. rewrite Z.div_1_r.
    Z.to_euclidean_division_equations. lia.
Qed.

Lemma zero_run_spec l : take (zero_run l) l = replicate (zero_run l) 0 ∧ (zero_run l <= length l)%nat.
Proof.
  induction l as [|v l IH]; [done|]. cbn [zero_run]. destruct (Z.eqb_spec v 0) as [->|]; [|simpl; split; [done|lia]].
  destruct IH as [IH Hle]. simpl. rewrite IH. split; [done|lia].
Qed.

(** A run of at least two zero fields. *)
Definition zeros (fields : list Z) (r : nat * nat) : Prop :=
  (r.1 + 2 <= r.2 <= length fields)%nat ∧ take (r.2 - r.1) (drop r.1 fields) = replicate (r.2 - r.1) 0.

Lemma longest_zeros_spec fields r : longest_zeros fields = Some r → zeros fields r.
Proof.
  unfold longest_zeros. cut (∀ l best, (∀ r, best = Some r → zeros fields r) → ∀ r,
    fold_left (λ best i,
      let l := zero_run (drop i fields) in
      let found := match best with Some (s, e) => e - s | None => O end%nat in
      if (2 <=? l)%nat && (found <? l)%nat then Some (i, i + l)%nat else best) l best = Some r → zeros fields r).
  { intros H. by apply H. }
  intros l. induction l as [|i l IH]; intros best Hbest q; [apply Hbest|]. cbn [fold_left]. apply IH.
  clear q. intros q. cbv zeta. destruct ((2 <=? zero_run (drop i fields))%nat && _) eqn:Hc; [|apply Hbest].
  apply andb_true_iff in Hc as [Hl%Nat.leb_le _]. intros [= <-]. unfold zeros. cbn [fst snd].
  destruct (zero_run_spec (drop i fields)) as [Ht Hle]. rewrite length_drop in Hle.
  replace (i + zero_run (drop i fields) - i)%nat with (zero_run (drop i fields)) by lia. split; [lia|done].
Qed.

Lemma zeros_split fields s e : zeros fields (s, e) →
  take s fields ++ replicate (e - s) 0 ++ drop e fields = fields.
Proof.
  unfold zeros. cbn [fst snd]. intros [Hr <-].
  transitivity (take s fields ++ drop s fields); [|apply take_drop]. f_equal.
  transitivity (take (e - s) (drop s fields) ++ drop (e - s) (drop s fields)); [|apply take_drop].
  rewrite drop_drop. do 2 f_equal. lia.
Qed.

(** The fields the loop reads back from the text with a gap. *)
Lemma fields6_zeros fields s e : Forall is_field fields → length fields = 8%nat → zeros fields (s, e) →
  ∃ text, joined (take s fields) +:+ "::" +:+ joined (drop e fields) = text ∧
  (if HasPrefix text "::" then
     let rest := drop_string 2 text in
     if is_empty rest then Some ([], Some 0%nat) else fields6 8 [] (Some 0%nat) rest
   else fields6 8 [] None text) = Some (take s fields ++ drop e fields, Some s).
Proof.
  intros Hf Hlen Hz. eexists. split; [done|].
  assert (length (take s fields) = s ∧ length (drop e fields) = (8 - e)%nat ∧ (s + 2 <= e <= 8)%nat) as (Hs & He & Hse).
  { destruct Hz as [Hr _]. cbn [fst snd] in Hr. rewrite length_take, length_drop. lia. }
  assert (Forall is_field (take s fields) ∧ Forall is_field (drop e fields)) as [Ha Hb]
    by (split; [by apply Forall_take|by apply Forall_drop]).
  set (a := take s fields) in *. set (b := drop e fields) in *. clearbody a b. clear Hz Hf.
  assert (∀ n acc ell, (length b <= n)%nat → is_empty (joined b) = false →
    fields6 n acc ell (joined b) = Some (acc ++ b, ell)) as Hend.
  { intros n acc ell Hn Hne. apply fields6_end; [by intros ->|done..]. }
  assert (is_empty (joined b) = true → b = []) as Hnil.
  { destruct b as [|w b]; [done|]. apply Forall_cons in Hb as [Hw _].
    destruct (joined_head w b EmptyString Hw) as (c & u & Hj & _). rewrite string_app_nil_r in Hj. by rewrite Hj. }
  destruct a as [|v a].
  - simpl in Hs. subst s. change (joined [] +:+ "::" +:+ joined b) with ("::" +:+ joined b). 
    change (drop_string 2 ("::" +:+ joined b)) with (joined b). rewrite HasPrefix_app. cbv zeta.
    destruct (is_empty (joined b)) eqn:Hj; [by rewrite (Hnil eq_refl)|]. apply Hend; [lia|done].
  - assert (HasPrefix (joined (v :: a) +:+ "::" +:+ joined b) "::" = false) as ->.
    { apply Forall_cons in Ha as [Hv _]. destruct (joined_head v a ("::" +:+ joined b) Hv) as (c & u & -> & Hc).
      cbn [HasPrefix]. rewrite Ascii.eqb_sym, Hc. done. }
    rewrite fields6_gap by (done || lia). rewrite app_nil_l, Hs.
    destruct (is_empty (joined b)) eqn:Hj; [by rewrite (Hnil eq_refl), app_nil_r|]. apply Hend; [lia|done].
Qed.

(** No character of the text is one of these. *)
Lemma all_hex_no_sep c s : is_hex c = false → all_hex s = true → no_sep c s.
Proof.
  intros Hc. unfold no_sep, all_hex. induction s as [|d s IH]; [done|].
  cbn [String.list_ascii_of_string forallb has_byte]. intros [Hd Hs]%andb_true_iff. rewrite IH by done.
  destruct (Ascii.eqb_spec d c) as [->|]; [congruence|done].
Qed.

Lemma hex_text_no_sep c v : is_hex c = false → is_field v → no_sep c (hex_text v).
Proof. intros Hc Hv. apply all_hex_no_sep; [done|]. by apply hex_text_ok. Qed.

Lemma no_sep_colon c : c ≠ ":"%char → no_sep c ":".
Proof. intros Hne. unfold no_sep. cbn [has_byte]. by destruct (Ascii.eqb_spec ":" c) as [<-|]. Qed.

Lemma joined_no_sep c l : is_hex c = false → c ≠ ":"%char → Forall is_field l → no_sep c (joined l).
Proof.
  intros Hc Hne Hl. apply no_sep_Join.
  - by apply no_sep_colon.
  - apply Forall_fmap. eapply Forall_impl; [exact Hl|]. intros v Hv. by apply hex_text_no_sep.
Qed.

Lemma string6_no_sep c ip : 0 ≤ ip < 2 ^ 128 → is_hex c = false → c ≠ ":"%char → no_sep c (string6 ip).
Proof.
  intros Hip Hc Hne. destruct (fields_of6_ok ip Hip) as (Hf & _). unfold string6.
  destruct (longest_zeros _) as [[s e]|]; [|by apply joined_no_sep].
  repeat apply no_sep_app; [by apply joined_no_sep; [..|apply Forall_take]| |by apply joined_no_sep; [..|apply Forall_drop]].
  change "::" with (":" +:+ ":"). apply no_sep_app; by apply no_sep_colon.
Qed.

(** * Addresses *)

Definition addr_ok (a : Addr) : Prop :=
  match a with
  | AddrZero => False
  | Addr4 ip => 0 ≤ ip < 2 ^ 32
  | Addr6 ip _ => 0 ≤ ip < 2 ^ 128
  end.

Lemma addr_kind_app s t : no_sep "." s → no_sep ":" s → no_sep "%" s → addr_kind (s +:+ t) = addr_kind t.
Proof.
  unfold no_sep. induction s as [|c s IH]; [done|]. rewrite string_app_cons. cbn [has_byte addr_kind].
  intros [-> H1]%orb_false_iff [-> H2]%orb_false_iff [-> H3]%orb_false_iff. by apply IH.
Qed.

Lemma addr_kind_joined v l t : is_field v → addr_kind t = Some ":"%char → addr_kind (joined (v :: l) +:+ t) = Some ":"%char.
Proof.
  intros Hv Ht. destruct l as [|w l].
  - change (joined [v]) with (hex_text v). rewrite addr_kind_app; [done|by apply hex_text_no_sep..].
  - rewrite joined_cons, <-string_app_assoc, addr_kind_app; [done|by apply hex_text_no_sep..].
Qed.

Lemma string6_kind ip : 0 ≤ ip < 2 ^ 128 → addr_kind (string6 ip) = Some ":"%char.
Proof.
  intros Hip. destruct (fields_of6_ok ip Hip) as (Hf & Hlen & _). unfold string6.
  destruct (longest_zeros _) as [[s e]|].
  - apply (Forall_take _ s) in Hf. destruct (take s _) as [|v l]; [done|].
    apply Forall_cons in Hf as [Hv _]. by apply addr_kind_joined.
  - destruct (fields_of6 ip) as [|v [|w l]]; [done..|]. apply Forall_cons in Hf as [Hv _].
    change (Join (hex_text <$> v :: w :: l) ":") with (joined (v :: w :: l)).
    rewrite joined_cons, addr_kind_app; [done|by apply hex_text_no_sep..].
Qed.

Lemma ParseIPv4_kind s ip : ParseIPv4 s = Some ip → addr_kind s = Some "."%char.
Proof.
  unfold ParseIPv4. destruct (Split s ".") as [|a [|b l]] eqn:Hs; [done..|]. intros H.
  assert (∃ v, octet a = Some v) as [v Ha].
  { destruct l as [|c [|d [|]]]; try done. destruct (octet a); [eauto|done]. }
  assert (s = a +:+ String "." (Join (b :: l) ".")) as ->.
  { by rewrite <-(Join_Split s "."), Hs. }
  assert (∀ c, digit_of c = None → no_sep c a) as Hno.
  { clear -Ha. intros c Hc. unfold octet in Ha. destruct a as [|x a]; [done|].
    destruct (_ && _); [done|]. destruct (digits_value 0 (String x a)) as [w|] eqn:Hd; [|done]. clear Ha. revert Hd.
    unfold no_sep. generalize (String x a), 0. clear -Hc. intros s. induction s as [|y s IH]; intros acc; [done|].
    cbn [digits_value has_byte]. destruct (digit_of y) as [d|] eqn:Hy; [|done]. simpl. intros Hd.
    rewrite (IH _ Hd). destruct (Ascii.eqb_spec y c) as [->|]; [congruence|done]. }
  rewrite addr_kind_app; [done|by apply Hno..].
Qed.

(** What [ParseIPv6] makes of a text without a zone. *)
Definition read6 (s : string) : option (list Z * option nat) :=
  if HasPrefix s "::" then
    let rest := drop_string 2 s in
    if is_empty rest then Some ([], Some 0%nat) else fields6 8 [] (Some 0%nat) rest
  else fields6 8 [] None s.

Lemma ParseIPv6_read s r fields : no_sep "%" s → read6 s = Some r → expand6 r = Some fields →
  ParseIPv6 s = Some (Addr6 (number_of fields) EmptyString).
Proof. intros Hs Hr Hx. unfold ParseIPv6. rewrite Cut_none by done. cbn [mbind option_bind]. fold (read6 s). by rewrite Hr; simpl; rewrite Hx. Qed.

Lemma ParseIPv6_string6 ip : 0 ≤ ip < 2 ^ 128 → ParseIPv6 (string6 ip) = Some (Addr6 ip EmptyString).
Proof.
  intros Hip. destruct (fields_of6_ok ip Hip) as (Hf & Hlen & Hnum).
  assert (no_sep "%" (string6 ip)) as Hno by by apply string6_no_sep. revert Hno. unfold string6.
  destruct (longest_zeros (fields_of6 ip)) as [[s e]|] eqn:Hz; intros Hno.
  - apply longest_zeros_spec in Hz. destruct (fields6_zeros _ s e Hf Hlen Hz) as (text & <- & Hread).
    rewrite (ParseIPv6_read _ _ (fields_of6 ip) Hno Hread), Hnum; [done|].
    destruct Hz as [Hse Hz]. cbn [fst snd] in *. unfold expand6. rewrite length_app, length_take, length_drop.
    rewrite Hlen in *. rewrite Nat.min_l by lia. destruct (Nat.ltb_spec (s + (8 - e)) 8); [|lia].
    rewrite take_app_length', drop_app_length' by (rewrite length_take; lia). f_equal.
    replace (8 - (s + (8 - e)))%nat with (e - s)%nat by lia. apply zeros_split. split; [cbn; lia|done].
  - rewrite (ParseIPv6_read _ (fields_of6 ip, None) (fields_of6 ip) Hno), Hnum; [done| |done].
    destruct (fields_of6 ip) as [|v l] eqn:Hl; [done|]. unfold read6.
    assert (HasPrefix (joined (v :: l)) "::" = false) as Hp.
    { pose proof Hf as [Hv _]%Forall_cons. destruct (joined_head v l EmptyString Hv) as (c & u & Hj & Hc).
      rewrite string_app_nil_r in Hj. rewrite Hj. cbn [HasPrefix]. by rewrite Ascii.eqb_sym, Hc. }
    fold (joined (v :: l)). rewrite Hp. rewrite (fields6_end (v :: l) 8); [done|done|done|lia].
Qed.

(** The octets of the embedded IPv4 address are hexadecimal digits as well. *)
Definition octet_hex_ok (n : Z) : bool := all_hex (Itoa n) && (String.length (Itoa n) <=? 3)%nat && (1 <=? String.length (Itoa n))%nat.

Lemma octet_hex n : 0 ≤ n < 256 → octet_hex_ok n = true.
Proof.
  intros Hn. assert (forallb octet_hex_ok (seqZ 0 256) = true) as Hall by (vm_compute; reflexivity).
  rewrite forallb_forall in Hall. apply Hall. rewrite <-list_elem_of_In, elem_of_seqZ. lia.
Qed.

Lemma addr_String_no_sep c ip : 0 ≤ ip < 2 ^ 32 → is_hex c = false → no_sep c "." → no_sep c (addr_String ip).
Proof.
  intros Hip Hc Hdot. destruct (addr_digits ip Hip) as (Ha & Hb & Hd & He & _).
  apply no_sep_Join; [done|]. repeat constructor; apply all_hex_no_sep; try done;
    match goal with |- all_hex (Itoa ?n) = true => pose proof (octet_hex n) as Ho end;
    unfold octet_hex_ok in Ho; specialize (Ho ltac:(lia)); by split_orb.
Qed.

(** A field, a colon and more text. *)
Lemma fields6_colon n acc ell s v c u : hex_field s = Some (v, String ":" (String c u)) → Ascii.eqb c ":" = false →
  fields6 (S n) acc ell s = fields6 n (acc ++ [v]) ell (String c u).
Proof.
  intros Hv Hc. cbn [fields6]. rewrite Hv. cbn [mbind option_bind].
  change (Ascii.eqb ":" ".") with false. change (Ascii.eqb ":" ":") with true. cbn [negb orb is_empty String.eqb].
  by rewrite Hc.
Qed.

(** An embedded IPv4 address ends the fields. *)
Lemma fields6_embedded n acc e s v t ip :
  hex_field s = Some (v, String "." t) → ParseIPv4 s = Some ip → (length acc <= 6)%nat →
  fields6 (S n) acc (Some e) s = Some (acc ++ [ip / 65536; ip mod 65536], Some e).
Proof.
  intros Hv Hip Hacc. cbn [fields6]. rewrite Hv. cbn [mbind option_bind]. rewrite Hip.
  change (Ascii.eqb "." ".") with true. cbn. destruct (length acc) as [|[|[|[|[|[|[|k]]]]]]]; [done..|lia].
Qed.

Lemma ParseIPv6_mapped ip : 0 ≤ ip < 2 ^ 32 →
  ParseIPv6 ("::ffff:" +:+ addr_String ip) = Some (Addr6 (65535 * 2 ^ 32 + ip) EmptyString).
Proof.
  intros Hip. destruct (ParseIPv4_addr ip Hip) as [Hparse _]. destruct (addr_digits ip Hip) as (Ha & _).
  assert (addr_String ip = Itoa (ip / 16777216) +:+ String "."
    (Join [Itoa (ip / 65536 mod 256); Itoa (ip / 256 mod 256); Itoa (ip mod 256)] ".")) as Htext by done.
  rewrite (ParseIPv6_read _ ([65535; ip / 65536; ip mod 65536], Some 0%nat) [0; 0; 0; 0; 0; 65535; ip / 65536; ip mod 65536]).
  - unfold number_of. cbn -[Z.pow Z.div Z.modulo]. do 2 f_equal. Z.to_euclidean_division_equations. lia.
  - apply no_sep_app; [done|]. by apply addr_String_no_sep.
  - change (fields6 8 [] (Some 0%nat) ("ffff" +:+ String ":" (addr_String ip)) = Some ([65535; ip / 65536; ip mod 65536], Some 0%nat)).
    pose proof (octet_hex _ Ha) as Ho. unfold octet_hex_ok in Ho. split_orb.
    repeat match goal with H : (_ <=? _)%nat = true |- _ => apply Nat.leb_le in H end.
    assert (∃ c u, addr_String ip = String c u ∧ Ascii.eqb c ":" = false) as (c & u & Hcu & Hc).
    { rewrite Htext. destruct (Itoa (ip / 16777216)) as [|c u] eqn:Hi; [simpl in *; lia|].
      rewrite string_app_cons. eexists _, _. split; [done|].
      assert (no_sep ":" (String c u)) as Hno by by apply all_hex_no_sep.
      unfold no_sep in Hno. cbn [has_byte] in Hno. by apply orb_false_iff in Hno as []. }
    rewrite (fields6_colon _ _ _ _ 65535 c u), <-Hcu; [|by rewrite hex_field_app, Hcu by (done || (simpl; lia))|done].
    apply (fields6_embedded 6 [65535]) with (v := hex_value 0 (Itoa (ip / 16777216)))
      (t := Join [Itoa (ip / 65536 mod 256); Itoa (ip / 256 mod 256); Itoa (ip mod 256)] ".");
      [rewrite Htext; by apply hex_field_app; [|lia|]|done|simpl; lia].
  - done.
Qed.

(** The text of an address without a zone parses back to it. *)
Lemma ParseAddr_String a : addr_ok a → Zone a = EmptyString → ParseAddr (Addr_String a) = Some a.
Proof.
  destruct a as [|ip|ip zone]; [done|..]; cbn [addr_ok Zone]; intros Hip.
  - intros _. unfold ParseAddr, Addr_String. destruct (ParseIPv4_addr ip Hip) as [Hp _].
    rewrite (ParseIPv4_kind _ _ Hp). simpl. by rewrite Hp.
  - intros ->. unfold Addr_String. rewrite string_app_nil_r. destruct (Is4In6 _) eqn:Hm.
    + cbn [Is4In6] in Hm. zify_bool. unfold ParseAddr.
      change (addr_kind ("::ffff:" +:+ addr_String (ip mod 2 ^ 32))) with (Some ":"%char). 
      cbn [mbind option_bind]. change (Ascii.eqb ":" ".") with false. change (Ascii.eqb ":" ":") with true. cbv iota.
      rewrite ParseIPv6_mapped by (apply Z.mod_pos_bound; lia). do 2 f_equal.
      rewrite <-Hm, Z.mul_comm. symmetry. apply Z.div_mod. lia.
    + unfold ParseAddr. rewrite string6_kind by done. simpl. by apply ParseIPv6_string6.
Qed.

Lemma Addr_String_no_slash a : addr_ok a → Zone a = EmptyString → no_sep "/" (Addr_String a).
Proof.
  destruct a as [|ip|ip zone]; [done|..]; cbn [addr_ok Zone]; intros Hip.
  - intros _. by apply addr_String_no_sep.
  - intros ->. unfold Addr_String. rewrite string_app_nil_r. destruct (Is4In6 _).
    + apply no_sep_app; [done|]. apply addr_String_no_sep; [|done..]. apply Z.mod_pos_bound. lia.
    + by apply string6_no_sep.
Qed.

(** ** What parsing returns is in range *)

Lemma hex_of_range c d : hex_of c = Some d → 0 ≤ d < 16.
Proof.
  unfold hex_of. intros H. repeat case_match; simplify_eq; split_orb; zify_bool; lia.
Qed.

Lemma hex_run_range s : ∀ room acc v t k, 0 ≤ acc < 16 ^ (k - Z.of_nat room) → Z.of_nat room ≤ k →
  hex_run room acc s = Some (v, t) → 0 ≤ v < 16 ^ k.
Proof.
  induction s as [|c s IH]; intros room acc v t k Hacc Hk; cbn [hex_run].
  - intros [= <- <-]. assert (16 ^ (k - Z.of_nat room) ≤ 16 ^ k) by (apply Z.pow_le_mono_r; lia). lia.
  - destruct (hex_of c) as [d|] eqn:Hd.
    + destruct room as [|room]; [done|]. apply hex_of_range in Hd. apply (IH room); [|lia].
      replace (k - Z.of_nat room) with (Z.succ (k - Z.of_nat (S room))) by lia. rewrite Z.pow_succ_r by lia. lia.
    + assert (16 ^ (k - Z.of_nat room) ≤ 16 ^ k) by (apply Z.pow_le_mono_r; lia).
      destruct room; intros [= <- <-]; lia.
Qed.

Lemma hex_field_range s v t : hex_field s = Some (v, t) → is_field v.
Proof.
  unfold hex_field. destruct s as [|c s]; [done|]. destruct (non_nil (hex_of c)); [|done].
  intros H. apply (hex_run_range _ _ _ _ _ 4) in H; [unfold is_field; lia| |]; simpl; lia.
Qed.

Lemma fields6_range n : ∀ acc ell s fields ell', fields6 n acc ell s = Some (fields, ell') →
  Forall is_field acc → (length acc + n = 8)%nat → Forall is_field fields ∧ (length fields <= 8)%nat.
Proof.
  induction n as [|n IH]; intros acc ell s fields ell'; cbn [fields6].
  - destruct (is_empty s); intros [= <- <-] Hacc Hn. split; [done|lia].
  - destruct (hex_field s) as [[v t]|] eqn:Hv; [|done]. apply hex_field_range in Hv. cbn [mbind option_bind].
    intros H Hacc Hn. assert (Forall is_field (acc ++ [v])) as Hacc' by (apply Forall_app; by rewrite Forall_singleton).
    assert (length (acc ++ [v]) + n = 8)%nat as Hn' by (rewrite length_app; simpl; lia).
    destruct t as [|c t]; [injection H as <- <-; split; [done|lia]|].
    destruct (Ascii.eqb c ".").
    { destruct (negb _ && _); [done|]. destruct (Nat.ltb_spec 6 (length acc)); [done|].
      destruct (ParseIPv4 s) as [ip|] eqn:Hip; [|done]. injection H as <- <-. apply ParseIPv4_range in Hip.
      split; [|rewrite length_app; simpl; lia]. apply Forall_app. split; [done|]. rewrite Forall_cons, Forall_singleton. unfold is_field.
      Z.to_euclidean_division_equations. lia. }
    destruct (negb _ || _); [done|]. destruct t as [|d t]; [done|].
    destruct (Ascii.eqb d ":"); [|by eapply IH]. destruct (non_nil ell); [done|].
    destruct (is_empty t); [injection H as <- <-; split; [done|lia]|by eapply IH].
Qed.

Lemma number_of_range fields : Forall is_field fields → length fields = 8%nat → 0 ≤ number_of fields < 2 ^ 128.
Proof.
  intros Hf Hlen. do 8 (destruct fields as [|? fields]; [done|]). destruct fields; [|done].
  repeat match goal with H : Forall _ (_ :: _) |- _ => apply Forall_cons in H as [? H] end.
  unfold number_of, is_field in *. cbn [fold_left]. lia.
Qed.

Lemma ParseIPv6_range s a : ParseIPv6 s = Some a → addr_ok a.
Proof.
  unfold ParseIPv6. destruct (match Cut s "%" with Some _ => _ | None => _ end) as [[t zone]|]; [|done].
  cbn [mbind option_bind]. fold (read6 t). destruct (read6 t) as [[fields ell]|] eqn:Hr; [|done]. cbn [mbind option_bind].
  assert (Forall is_field fields ∧ (length fields <= 8)%nat) as [Hf Hlen].
  { unfold read6 in Hr. destruct (HasPrefix t "::"); cbv zeta in Hr; [destruct (is_empty _)|].
    - injection Hr as <- <-. split; [done|simpl; lia].
    - by eapply fields6_range in Hr.
    - by eapply fields6_range in Hr. }
  destruct (expand6 (fields, ell)) as [l|] eqn:Hx; [|done]. intros [= <-]. cbn [addr_ok]. unfold expand6 in Hx.
  assert (Forall is_field l ∧ length l = 8%nat) as []; [|by apply number_of_range].
  destruct (Nat.ltb_spec (length fields) 8).
  - destruct ell as [e|]; [|done]. injection Hx as <-. split.
    + rewrite !Forall_app. split_and!; [by apply Forall_take| |by apply Forall_drop].
      apply Forall_replicate. unfold is_field. lia.
    + rewrite !length_app, length_replicate, length_take, length_drop. lia.
  - destruct (non_nil ell); [done|]. injection Hx as <-. split; [done|lia].
Qed.

Lemma ParseAddr_ok s a : ParseAddr s = Some a → addr_ok a.
Proof.
  unfold ParseAddr. destruct (addr_kind s) as [c|]; [|done]. cbn [mbind option_bind]. destruct (Ascii.eqb c ".").
  - destruct (ParseIPv4 s) as [ip|] eqn:Hip; [|done]. intros [= <-]. by apply ParseIPv4_range in Hip.
  - destruct (Ascii.eqb c ":"); [|done]. apply ParseIPv6_range.
Qed.

(** * Prefixes *)

Definition prefix_ok (p : Prefix) : Prop :=
  addr_ok p.(px_Addr) ∧ Zone p.(px_Addr) = EmptyString ∧ 0 ≤ p.(px_Bits) ≤ BitLen p.(px_Addr).

Lemma ParsePrefix_ok s p : ParsePrefix s = Some p → prefix_ok p.
Proof.
  unfold ParsePrefix. destruct (CutLast s "/") as [[addr t]|]; [|done]. cbn [mbind option_bind].
  destruct (ParseAddr addr) as [a|] eqn:Ha; [|done]. cbn [mbind option_bind].
  destruct (is_empty (Zone a)) eqn:Hz; [|done]. cbn [negb]. cbv zeta.
  destruct (match t with String _ (String _ _) => _ | _ => _ end); [done|].
  destruct (Atoi t) as [n|]; [|done]. cbn [mbind option_bind].
  destruct ((0 <=? n) && (n <=? BitLen a)) eqn:Hn; [|done]. intros [= <-]. split_orb. zify_bool.
  apply ParseAddr_ok in Ha. apply is_empty_true in Hz. done.
Qed.

(** The text of a prefix parses back to it. *)
Lemma ParsePrefix_String p : prefix_ok p → ParsePrefix (Prefix_String p) = Some p.
Proof.
  destruct p as [a bits]. unfold prefix_ok, Prefix_String. cbn [px_Addr px_Bits]. intros (Ha & Hz & Hbits).
  assert (0 ≤ bits ≤ 128) as Hb by (destruct a; simpl in *; lia).
  apply bits_text in Hb. unfold bits_text_ok in Hb.
  apply andb_true_iff in Hb as [[Hatoi%bool_decide_eq_true Hsep%negb_true_iff]%andb_true_iff Hlead].
  unfold ParsePrefix. rewrite CutLast_app by done. cbn [mbind option_bind].
  rewrite ParseAddr_String by done. cbn [mbind option_bind]. rewrite Hz. cbn [is_empty String.eqb negb]. cbv zeta.
  assert ((match Itoa bits with String c (String _ _) => negb ((49 <=? byte_of c) && (byte_of c <=? 57)) | _ => false end) = false) as ->.
  { destruct (Itoa bits) as [|c [|]]; [done..|]. by rewrite Hlead. }
  rewrite Hatoi. cbn [mbind option_bind]. by rewrite (proj2 (Z.leb_le 0 bits)), (proj2 (Z.leb_le bits _)) by lia.
Qed.

Lemma Masked_ok p : prefix_ok p → prefix_ok (Masked p) ∧ Masked (Masked p) = Masked p.
Proof.
  destruct p as [[|ip|ip zone] bits]; unfold prefix_ok, Masked; cbn [px_Addr px_Bits mask_to addr_ok Zone BitLen].
  - tauto.
  - intros (Hip & _ & Hb). destruct (mask_addr_spec ip bits Hip Hb) as (H0 & Hle & _ & Hagain).
    unfold mask_addr in *. rewrite Hagain. split_and!; [lia..|done|lia|lia|done].
  - intros (Hip & -> & Hb). pose proof (Z.pow_pos_nonneg 2 (128 - bits) ltac:(lia) ltac:(lia)) as Hp.
    pose proof (Z.mul_div_le ip _ Hp). pose proof (Z.div_pos ip (2 ^ (128 - bits)) ltac:(lia) ltac:(lia)).
    rewrite Z.div_mul by lia. split_and!; [nia|lia|done|lia|lia|done].
Qed.

(** ** The IPv4 view *)

Lemma ParsePrefix4_range s ip bits : ParsePrefix4 s = Some (ip, bits) → 0 ≤ ip < 2 ^ 32 ∧ 0 ≤ bits ≤ 32.
Proof.
  unfold ParsePrefix4. destruct (ParsePrefix s) as [p|] eqn:Hp; [|done]. apply ParsePrefix_ok in Hp.
  destruct p as [[|ip'|] n]; try done. intros [= <- <-]. destruct Hp as (? & _ & ?). done.
Qed.

(** A masked prefix prints to text that parses back to it. *)
Lemma ParsePrefix4_masked ip bits : 0 ≤ ip < 2 ^ 32 → 0 ≤ bits ≤ 32 →
  ParsePrefix4 (masked_String ip bits) = Some (mask_addr ip bits, bits).
Proof.
  intros Hip Hbits. destruct (mask_addr_spec ip bits Hip Hbits) as (H0 & Hle & _).
  unfold ParsePrefix4. change (masked_String ip bits) with (Prefix_String (mkPrefix (Addr4 (mask_addr ip bits)) bits)).
  rewrite ParsePrefix_String; [done|]. unfold prefix_ok. cbn [px_Addr px_Bits addr_ok Zone BitLen].
  split_and!; [lia|lia|done|lia|lia].
Qed.

(** * Containment *)

Lemma same_network_coarser w n m x y : 0 ≤ n ≤ m → m ≤ w →
  x / 2 ^ (w - m) = y / 2 ^ (w - m) → x / 2 ^ (w - n) = y / 2 ^ (w - n).
Proof.
  intros Hn Hm Heq. replace (w - n) with (w - m + (m - n)) by lia.
  rewrite Z.pow_add_r by lia. rewrite <-!Z.div_div by lia. by rewrite Heq.
Qed.

Lemma Prefix_Contains_spec p a : Prefix_Contains p a = true ↔
  IsValid a = true ∧ Zone a = EmptyString ∧ BitLen p.(px_Addr) = BitLen a ∧
  addr_number p.(px_Addr) / 2 ^ (BitLen a - p.(px_Bits)) = addr_number a / 2 ^ (BitLen a - p.(px_Bits)).
Proof. unfold Prefix_Contains. rewrite !andb_true_iff, !Z.eqb_eq, is_empty_true. tauto. Qed.

(** A network inside another: what the inner one contains, the outer one does. *)
Lemma Prefix_Contains_trans outer inner a : prefix_ok outer → prefix_ok inner → outer.(px_Bits) ≤ inner.(px_Bits) →
  Prefix_Contains outer inner.(px_Addr) = true → Prefix_Contains inner a = true → Prefix_Contains outer a = true.
Proof.
  intros (_ & _ & Ho) (_ & _ & Hi) Hle. rewrite !Prefix_Contains_spec. intros (_ & _ & Hw & Heq) (Hv & Hz & Hw' & Heq').
  split_and!; [done|done|congruence|]. rewrite Hw' in *. rewrite Heq.
  eapply same_network_coarser; [|apply Hi|exact Heq']. lia.
Qed.

(** Two networks with a common address overlap. *)
Lemma Prefix_Contains_overlap p o a : prefix_ok p → prefix_ok o →
  Prefix_Contains p a = true → Prefix_Contains o a = true → Overlaps p o = true.
Proof.
  intros (_ & _ & Hp) (_ & _ & Ho). rewrite !Prefix_Contains_spec. intros (_ & _ & Hwp & Heqp) (_ & _ & Hwo & Heqo).
  unfold Overlaps. rewrite Hwp, Hwo in *. cbv zeta. apply andb_true_iff. split; apply Z.eqb_eq; [done|].
  transitivity (addr_number a / 2 ^ (BitLen a - Z.min p.(px_Bits) o.(px_Bits))).
  - apply (same_network_coarser _ _ p.(px_Bits)); [lia|apply Hp|done].
  - symmetry. apply (same_network_coarser _ _ o.(px_Bits)); [lia|apply Ho|done].
Qed.

(** The text of a prefix is plain, so trimming keeps it. *)
Lemma no_sep_plain s : (∀ c, is_hex c = false → c ≠ ":"%char → c ≠ "."%char → c ≠ "/"%char → no_sep c s) → plain s.
Proof.
  intros H c Hc. destruct (plain_byte c) eqn:Hp; [done|].
  assert (∀ d, plain_byte d = true → c ≠ d) as Hne by congruence.
  assert (is_hex c = false) as Hhex.
  { destruct (is_hex c) eqn:Hhex; [|done]. revert Hp Hhex. unfold plain_byte, is_hex, hex_of.
    repeat case_match; try done; split_orb; zify_bool; intros [?|?]%andb_false_iff; zify_bool; lia. }
  unfold no_sep in H. rewrite H in Hc; [done|done|by apply Hne..].
Qed.

Lemma Prefix_String_plain p : prefix_ok p → plain (Prefix_String p).
Proof.
  intros (Ha & Hz & Hb). unfold Prefix_String. apply plain_app. split; [|apply plain_app; split].
  - apply no_sep_plain. intros c Hc Hcol Hdot _. destruct (px_Addr p) as [|ip|ip zone]; [done|..]; cbn [addr_ok Zone] in *.
    + apply addr_String_no_sep; [done|done|]. unfold no_sep. cbn [has_byte]. by destruct (Ascii.eqb_spec "." c) as [<-|].
    + subst zone. unfold Addr_String. rewrite string_app_nil_r. destruct (Is4In6 _); [|by apply string6_no_sep].
      apply no_sep_app.
      * change "::ffff:" with (":" +:+ ":" +:+ "ffff" +:+ ":").
        repeat apply no_sep_app; try by apply no_sep_colon. by apply all_hex_no_sep.
      * apply addr_String_no_sep; [apply Z.mod_pos_bound; lia|done|].
        unfold no_sep. cbn [has_byte]. by destruct (Ascii.eqb_spec "." c) as [<-|].
  - apply plain_cons. split; [done|apply plain_nil].
  - assert (0 ≤ p.(px_Bits) ≤ 128) as Hb' by (destruct (px_Addr p); simpl in *; lia).
    assert (forallb (λ n, all_hex (Itoa n)) (seqZ 0 129) = true) as Hall by (vm_compute; reflexivity).
    rewrite forallb_forall in Hall. specialize (Hall p.(px_Bits)). rewrite <-list_elem_of_In, elem_of_seqZ in Hall.
    apply no_sep_plain. intros c Hc _ _ _. apply all_hex_no_sep; [done|]. apply Hall. lia.
Qed.
