(* ===== verification/Regex.v ===== *)
(** The regular expressions the program compiles with [regexp.MustCompile]:
    syntax over bytes, a declarative semantics, an executable matcher by
    derivatives and its equivalence with the semantics. Every character class of
    the patterns modelled here is ASCII, so matching bytes and matching runes
    agree. *)
From S2P Require Import Prelude GoStd.
#[global] Open Scope Z_scope.

Inductive regex : Type :=
  | RNone
  | REps
  | RCls (f : ascii → bool)
  | RCat (r1 r2 : regex)
  | RAlt (r1 r2 : regex)
  | RStar (r : regex).

(** ** Building blocks *)

Definition in_range (lo hi c : ascii) : bool :=
  ((N_of_ascii lo <=? N_of_ascii c) && (N_of_ascii c <=? N_of_ascii hi))%N.
Definition lower (c : ascii) : bool := in_range "a" "z" c.
Definition upper (c : ascii) : bool := in_range "A" "Z" c.
Definition digit (c : ascii) : bool := in_range "0" "9" c.
Definition any_of (chars : string) (c : ascii) : bool := has_byte c chars.

Fixpoint RLit (s : string) : regex :=
  match s with
  | EmptyString => REps
  | String c s' => RCat (RCls (Ascii.eqb c)) (RLit s')
  end.
Definition ROpt (r : regex) : regex := RAlt REps r.
Definition RPlus (r : regex) : regex := RCat r (RStar r).
(** [r{n}] and [r{0,n}] *)
Fixpoint RTimes (r : regex) (n : nat) : regex :=
  match n with O => REps | S n' => RCat r (RTimes r n') end.
Fixpoint RUpTo (r : regex) (n : nat) : regex :=
  match n with O => REps | S n' => ROpt (RCat r (RUpTo r n')) end.
Definition RRep (r : regex) (n m : nat) : regex := RCat (RTimes r n) (RUpTo r (m - n)).
Definition RAny : regex := RStar (RCls (λ _, true)).
(** [(?i)]: each ASCII letter in both cases, and U+017F for s, U+212A for k. *)
Definition RFoldChar (c : ascii) : regex :=
  let both := RCls (λ d, Ascii.eqb (upper_ascii c) (upper_ascii d)) in
  if Ascii.eqb (upper_ascii c) "S" then
    RAlt both (RLit (String (ascii_of_nat 197) (String (ascii_of_nat 191) EmptyString)))
  else if Ascii.eqb (upper_ascii c) "K" then
    RAlt both (RLit (String (ascii_of_nat 226) (String (ascii_of_nat 132)
                       (String (ascii_of_nat 170) EmptyString))))
  else both.
Fixpoint RFold (s : string) : regex :=
  match s with EmptyString => REps | String c s' => RCat (RFoldChar c) (RFold s') end.
Fixpoint RAlts (l : list regex) : regex :=
  match l with [] => RNone | [r] => r | r :: l' => RAlt r (RAlts l') end.
Fixpoint RSeq (l : list regex) : regex :=
  match l with [] => REps | [r] => r | r :: l' => RCat r (RSeq l') end.

(** ** Semantics *)

Inductive matches : regex → string → Prop :=
  | m_eps : matches REps EmptyString
  | m_cls f c : f c = true → matches (RCls f) (String c EmptyString)
  | m_cat r1 r2 s1 s2 : matches r1 s1 → matches r2 s2 → matches (RCat r1 r2) (s1 +:+ s2)
  | m_alt_l r1 r2 s : matches r1 s → matches (RAlt r1 r2) s
  | m_alt_r r1 r2 s : matches r2 s → matches (RAlt r1 r2) s
  | m_star_nil r : matches (RStar r) EmptyString
  | m_star_cons r s1 s2 : matches r s1 → matches (RStar r) s2 → matches (RStar r) (s1 +:+ s2).

(** ** Matcher *)

Fixpoint nullable (r : regex) : bool :=
  match r with
  | RNone | RCls _ => false
  | REps | RStar _ => true
  | RCat r1 r2 => nullable r1 && nullable r2
  | RAlt r1 r2 => nullable r1 || nullable r2
  end.

Definition mk_cat (r1 r2 : regex) : regex :=
  match r1, r2 with
  | RNone, _ => RNone
  | _, RNone => RNone
  | REps, _ => r2
  | _, _ => RCat r1 r2
  end.
Definition mk_alt (r1 r2 : regex) : regex :=
  match r1, r2 with
  | RNone, _ => r2
  | _, RNone => r1
  | _, _ => RAlt r1 r2
  end.

Fixpoint deriv (c : ascii) (r : regex) : regex :=
  match r with
  | RNone | REps => RNone
  | RCls f => if f c then REps else RNone
  | RCat r1 r2 =>
      let d := mk_cat (deriv c r1) r2 in
      if nullable r1 then mk_alt d (deriv c r2) else d
  | RAlt r1 r2 => mk_alt (deriv c r1) (deriv c r2)
  | RStar r => mk_cat (deriv c r) (RStar r)
  end.

(** [regexp.MustCompile("^r$").MatchString(s)] *)
Fixpoint full_match (r : regex) (s : string) : bool :=
  match s with
  | EmptyString => nullable r
  | String c s' => full_match (deriv c r) s'
  end.

(** [regexp.MustCompile("r").MatchString(s)] *)
Definition search (r : regex) (s : string) : bool := full_match (RSeq [RAny; r; RAny]) s.

(** ** Inversion of the building blocks *)

Lemma cls_matches f s : matches (RCls f) s ↔ ∃ c, s = String c EmptyString ∧ f c = true.
Proof. split; [inversion 1; eauto|]. intros (c & -> & ?). by constructor. Qed.

Lemma eps_matches s : matches REps s ↔ s = EmptyString.
Proof. split; [by inversion 1|]. intros ->. constructor. Qed.

Lemma cat_matches r1 r2 s :
  matches (RCat r1 r2) s ↔ ∃ s1 s2, s = s1 +:+ s2 ∧ matches r1 s1 ∧ matches r2 s2.
Proof. split; [inversion 1; eauto|]. intros (s1 & s2 & -> & ? & ?). by constructor. Qed.

Lemma alt_matches r1 r2 s : matches (RAlt r1 r2) s ↔ matches r1 s ∨ matches r2 s.
Proof. split; [inversion 1; auto|]. intros [?|?]; by constructor. Qed.

Lemma lit_matches l s : matches (RLit l) s ↔ s = l.
Proof.
  revert s. induction l as [|c l IH]; intros s; cbn [RLit]; [apply eps_matches|]. rewrite cat_matches. split.
  - intros (s1 & s2 & -> & (d & -> & <-%Ascii.eqb_eq)%cls_matches & ->%IH). done.
  - intros ->. exists (String c EmptyString), l. split_and!; [done| |by apply IH]. apply cls_matches. exists c.
    split; [done|]. apply Ascii.eqb_refl.
Qed.

(** ** The matcher decides the semantics *)

Lemma nullable_spec r : nullable r = true ↔ matches r EmptyString.
Proof.
  induction r; simpl.
  - split; [done|inversion 1].
  - split; [constructor|done].
  - split; [done|inversion 1].
  - rewrite andb_true_iff, IHr1, IHr2. split.
    + intros [H1 H2]. by apply (m_cat _ _ EmptyString EmptyString).
    + rewrite cat_matches. intros (s1 & s2 & Hs & H1 & H2).
      destruct s1, s2; simplify_eq; done.
  - rewrite orb_true_iff, IHr1, IHr2. split.
    + intros [?|?]; by constructor.
    + inversion 1; auto.
  - split; [constructor|done].
Qed.

Lemma mk_cat_matches r1 r2 s : matches (mk_cat r1 r2) s ↔ matches (RCat r1 r2) s.
Proof.
  split.
  - destruct r1, r2; simpl; try done; try (by inversion 1);
      intros H; change s with (EmptyString +:+ s); apply m_cat; first [exact m_eps|done].
  - inversion 1 as [| |? ? s1 s2 H1 H2| | | |]; subst.
    destruct r1, r2; simpl; try done; try (by inversion H1); try (by inversion H2);
      inversion H1; subst; done.
Qed.

Lemma mk_alt_matches r1 r2 s : matches (mk_alt r1 r2) s ↔ matches (RAlt r1 r2) s.
Proof.
  split.
  - destruct r1, r2; simpl; try done; intros H; solve [by apply m_alt_l|by apply m_alt_r].
  - inversion 1; subst; destruct r1, r2; simpl; try done;
      solve [by inversion H3|by inversion H2|by apply m_alt_l|by apply m_alt_r].
Qed.

Lemma star_cons_inv r c s :
  matches (RStar r) (String c s) →
  ∃ s1 s2, s = s1 +:+ s2 ∧ matches r (String c s1) ∧ matches (RStar r) s2.
Proof.
  intros H. remember (RStar r) as q eqn:Hq. remember (String c s) as w eqn:Hw.
  revert c s Hq Hw. induction H as [| | | | | |r' s1 s2 H1 _ H2 IH];
    intros c' w Hq Hw; simplify_eq.
  destruct s1 as [|d s1].
  - by apply IH.
  - rewrite string_app_cons in Hw. simplify_eq. eauto.
Qed.

Lemma deriv_spec c r s : matches (deriv c r) s ↔ matches r (String c s).
Proof.
  revert s. induction r as [| |f|r1 IH1 r2 IH2|r1 IH1 r2 IH2|r IH]; intros s; simpl.
  - split; inversion 1.
  - split; inversion 1.
  - destruct (f c) eqn:Hf.
    + split; [inversion 1; by constructor|]. inversion 1; subst. constructor.
    + split; [inversion 1|]. inversion 1; subst; congruence.
  - assert (Hcat : matches (RCat (deriv c r1) r2) s ↔
      ∃ s1 s2, s = s1 +:+ s2 ∧ matches r1 (String c s1) ∧ matches r2 s2).
    { split.
      - inversion 1; subst. rewrite IH1 in *. eauto.
      - intros (s1 & s2 & -> & H1 & H2). constructor; [by apply IH1|done]. }
    assert (Hsplit : matches (RCat r1 r2) (String c s) ↔
      (∃ s1 s2, s = s1 +:+ s2 ∧ matches r1 (String c s1) ∧ matches r2 s2) ∨
      (nullable r1 = true ∧ matches r2 (String c s))).
    { split.
      - rewrite cat_matches. intros ([|d s1] & s2 & Hs & H1 & H2); [right|left].
        + split; [by apply nullable_spec|]. by rewrite Hs.
        + rewrite string_app_cons in Hs. simplify_eq. eauto.
      - intros [(s1 & s2 & -> & H1 & H2)|[Hn H2]].
        + by apply (m_cat r1 r2 (String c s1) s2).
        + apply nullable_spec in Hn. by apply (m_cat r1 r2 EmptyString (String c s)). }
    rewrite Hsplit. destruct (nullable r1).
    + rewrite mk_alt_matches. split.
      * rewrite alt_matches, mk_cat_matches, Hcat, IH2. naive_solver.
      * intros [H|[_ H]]; [apply m_alt_l; by apply mk_cat_matches, Hcat|].
        apply m_alt_r. by apply IH2.
    + rewrite mk_cat_matches, Hcat. naive_solver.
  - rewrite mk_alt_matches. split.
    + inversion 1; subst; [apply m_alt_l; by apply IH1|apply m_alt_r; by apply IH2].
    + inversion 1; subst; [apply m_alt_l; by apply IH1|apply m_alt_r; by apply IH2].
  - rewrite mk_cat_matches. split.
    + inversion 1; subst. rewrite IH in *.
      match goal with H1 : matches r (String c ?a), H2 : matches (RStar r) ?b |- _ =>
        by apply (m_star_cons r (String c a) b) end.
    + intros (s1 & s2 & -> & H1 & H2)%star_cons_inv. constructor; [by apply IH|done].
Qed.

Lemma full_match_spec r s : full_match r s = true ↔ matches r s.
Proof.
  revert r. induction s as [|c s IH]; intros r; simpl.
  - apply nullable_spec.
  - by rewrite IH, deriv_spec.
Qed.

(** All bytes of a string satisfy a predicate. *)
Fixpoint all_bytes (f : ascii → bool) (s : string) : bool :=
  match s with EmptyString => true | String c s' => f c && all_bytes f s' end.

Lemma all_bytes_app f s t : all_bytes f (s +:+ t) = all_bytes f s && all_bytes f t.
Proof.
  induction s as [|c s IH]; [done|]. rewrite string_app_cons. simpl.
  by rewrite IH, andb_assoc.
Qed.

Lemma all_bytes_weaken (f g : ascii → bool) s :
  (∀ c, f c = true → g c = true) → all_bytes f s = true → all_bytes g s = true.
Proof. intros Hfg. induction s as [|c s IH]; simpl; [done|]. rewrite !andb_true_iff. naive_solver. Qed.

Lemma upto_matches f n s :
  matches (RUpTo (RCls f) n) s ↔ (String.length s ≤ n)%nat ∧ all_bytes f s = true.
Proof.
  revert s. induction n as [|n IH]; intros s; simpl.
  - rewrite eps_matches. split; [by intros ->|]. destruct s; [done|simpl; lia].
  - unfold ROpt. rewrite alt_matches, eps_matches, cat_matches. setoid_rewrite cls_matches.
    split.
    + intros [->|(s1 & s2 & -> & (c & -> & Hc) & [? ?]%IH)]; [split; [apply Nat.le_0_l|done]|].
      change (String c EmptyString +:+ s2) with (String c s2). simpl.
      rewrite Hc. split; [lia|done].
    + destruct s as [|c s]; [by left|]. simpl. rewrite andb_true_iff. intros (? & ? & ?). right.
      exists (String c EmptyString), s. rewrite IH. split_and!; [done|by exists c|lia|done].
Qed.

Lemma star_cls_matches f s : matches (RStar (RCls f)) s ↔ all_bytes f s = true.
Proof.
  split.
  - intros H. remember (RStar (RCls f)) as q eqn:Hq. revert Hq.
    induction H as [| | | | | |r s1 s2 H1 _ H2 IH]; intros Hq; simplify_eq; [done|].
    apply cls_matches in H1 as (c & -> & Hc).
    change (String c EmptyString +:+ s2) with (String c s2). simpl.
    rewrite Hc. by apply IH.
  - induction s as [|c s IH]; simpl; [constructor|]. rewrite andb_true_iff. intros [Hc Hs].
    apply (m_star_cons _ (String c EmptyString) s); [by constructor|auto].
Qed.

Lemma times_matches_length f n s :
  matches (RTimes (RCls f) n) s ↔ String.length s = n ∧ all_bytes f s = true.
Proof.
  revert s. induction n as [|n IH]; intros s; simpl.
  - rewrite eps_matches. split; [by intros ->|]. destruct s; naive_solver.
  - rewrite cat_matches. setoid_rewrite cls_matches. split.
    + intros (s1 & s2 & -> & (c & -> & Hc) & [<- ?]%IH).
      change (String c EmptyString +:+ s2) with (String c s2). simpl. by rewrite Hc.
    + destruct s as [|c s]; simpl; [lia|]. rewrite andb_true_iff. intros ([= Hn] & Hc & Hs).
      exists (String c EmptyString), s. rewrite IH. split_and!; [done|by exists c|done..].
Qed.

(** ** Bytes of a match *)

(** Every class of the expression is within [f]. *)
Fixpoint classes_within (f : ascii → bool) (r : regex) : bool :=
  match r with
  | RNone | REps => true
  | RCls g => forallb (λ n, implb (g (ascii_of_nat n)) (f (ascii_of_nat n))) (seq 0 256)
  | RCat r1 r2 | RAlt r1 r2 => classes_within f r1 && classes_within f r2
  | RStar r => classes_within f r
  end.

Lemma matches_bytes f r s : classes_within f r = true → matches r s → all_bytes f s = true.
Proof.
  intros Hr H. revert Hr. induction H as [|g c Hg|r1 r2 s1 s2 _ IH1 _ IH2|r1 r2 s _ IH|r1 r2 s _ IH|r|r s1 s2 _ IH1 _ IH2];
    cbn [classes_within]; intros Hr; [done| | | | |done|].
  - rewrite forallb_forall in Hr. specialize (Hr (nat_of_ascii c)). cbn [all_bytes].
    rewrite ascii_nat_embedding, Hg in Hr. cbn [implb] in Hr. rewrite Hr; [done|].
    apply list_elem_of_In, elem_of_seq. pose proof (nat_ascii_bounded c). lia.
  - apply andb_true_iff in Hr as [H1 H2]. by rewrite all_bytes_app, IH1, IH2.
  - apply andb_true_iff in Hr as [H1 H2]. by apply IH.
  - apply andb_true_iff in Hr as [H1 H2]. by apply IH.
  - by rewrite all_bytes_app, IH1, IH2.
Qed.
