(* ===== verification/Access.v ===== *)
(** The access policy of the management surface (internal/access): who may reach
    the dashboard and the API, from which network a request is taken to come, and
    the tunnels that connect the host (access.go, connectors.go). *)
From S2P Require Import Prelude GoStd Paths Text GoNet Prefixes Regex.
#[global] Open Scope Z_scope.

Definition SourceConnection : string := "connection".
Definition SourceTrustedProxy : string := "trusted_proxy".
Definition maxCIDRs : Z := 256.
Definition ClientIPHeaders : list string := ["X-Forwarded-For"; "X-Real-IP"; "CF-Connecting-IP"].

(** * Data *)

Record VPN : Type := mkVPN {
  vpn_Address : string;
  vpn_PeerPublicKey : string;
  vpn_PeerEndpoint : string;
  vpn_AllowedIPs : list string;
  vpn_Keepalive : Z;
}.

Record VPNServer : Type := mkVPNServer {
  srv_ListenPort : Z;
  srv_Network : string;
  srv_Endpoint : string;
}.

Record Tailscale : Type := mkTailscale {
  ts_Hostname : string;
  ts_Tags : list string;
  ts_LoginServer : string;
}.

Record OpenVPN : Type := mkOpenVPN { ovpn_Routes : list string }.

Record IPsec : Type := mkIPsec {
  ipsec_RemoteAddress : string;
  ipsec_LocalID : string;
  ipsec_RemoteID : string;
  ipsec_RemoteNetworks : list string;
}.

Record Policy : Type := mkPolicy {
  pol_Enabled : bool;
  pol_ClientIPSource : string;
  pol_TrustedProxyCIDRs : list string;
  pol_ClientIPHeader : string;
  pol_AllowCIDRs : list string;
  pol_Firewall : bool;
  pol_VPN : option VPN;
  pol_VPNOnly : bool;
  pol_VPNServer : option VPNServer;
  pol_Tailscale : option Tailscale;
  pol_OpenVPN : option OpenVPN;
  pol_IPsec : option IPsec;
}.

(** * Networks *)

(** One entry of a list of canonical networks. *)
Definition canonical_prefix (field raw : string) : result Prefix :=
  match ParsePrefix (TrimSpace raw) with
  | Some prefix =>
      _ ← fail_when (negb (bool_decide (prefix = Masked prefix)))
            (Errorf "%s must contain canonical CIDRs such as 203.0.113.0/24" [AStr field]);
      Ok prefix
  | None => Err (Errorf "%s must contain canonical CIDRs such as 203.0.113.0/24" [AStr field])
  end.

Definition prefixes (values : list string) (field : string) : result (list Prefix) :=
  _ ← fail_when (maxCIDRs <? lenl values) (Errorf "%s has more than 256 entries" [AStr field]);
  Prelude.mapM (canonical_prefix field) values.

(** The sorted texts, without repetitions. *)
Definition canonical_texts (networks : list Prefix) : list string :=
  Compact (sort_strings (Prefix_String <$> networks)).

(** [netip.MustParsePrefix]; it panics on a text that does not parse, which the
    option records. *)
Definition MustParsePrefix (raw : string) : option Prefix := ParsePrefix raw.

Definition reservedTunnelNetworks : list Prefix :=
  [mkPrefix (Addr4 (10 * 2 ^ 24 + 42 * 2 ^ 16)) 16; mkPrefix (Addr4 (10 * 2 ^ 24 + 43 * 2 ^ 16)) 16].

Definition overlaps_reserved (prefix : Prefix) : bool :=
  existsb (λ reserved, Overlaps prefix reserved) reservedTunnelNetworks.

(** A network a tunnel may route: not the default route, not the cluster's. *)
Definition check_tunnel_network (field : string) (prefix : Prefix) : result unit :=
  _ ← fail_when (prefix.(px_Bits) =? 0) (Errorf "%s cannot route all traffic through the tunnel" [AStr field]);
  fail_when (overlaps_reserved prefix)
    (Errorf "%s cannot overlap the cluster networks 10.42.0.0/16 and 10.43.0.0/16" [AStr field]).

Definition tunnelNetworks (values : list string) (field : string) : result (list string) :=
  _ ← fail_when ((lenl values =? 0) || (64 <? lenl values)) (Errorf "%s needs between 1 and 64 networks" [AStr field]);
  networks ← prefixes values field;
  _ ← iterM (check_tunnel_network field) networks;
  Ok (Prefix_String <$> networks).

(** * Hosts *)

Definition alphanumeric (c : ascii) : bool := lower c || upper c || digit c.
(** [^[A-Za-z0-9](?:[A-Za-z0-9-]{0,61}[A-Za-z0-9])?$] *)
Definition hostLabel : regex :=
  RCat (RCls alphanumeric)
       (ROpt (RCat (RUpTo (RCls (λ c, alphanumeric c || any_of "-" c)) 61) (RCls alphanumeric))).

Definition validHost (host : string) : bool :=
  if non_nil (ParseAddr host) then true
  else if (len host =? 0) || (253 <? len host) then false
  else forallb (full_match hostLabel) (Split (TrimSuffix host ".") ".").

(** A [host:port] text: its parts when it is one the tunnels may dial. *)
Definition endpoint_parts (endpoint : string) : option (string * string) :=
  '(host, port) ← SplitHostPort (TrimSpace endpoint);
  number ← Atoi port;
  if (number <? 1) || (65535 <? number) || negb (validHost host) then None else Some (host, port).

(** * Connectors *)

Definition VPN_Normalize (v : VPN) : result VPN :=
  match ParsePrefix (TrimSpace v.(vpn_Address)) with
  | None => Err (Errorf "vpn.address must be the server's tunnel address with a prefix, such as 10.99.0.2/32" [])
  | Some address =>
      _ ← fail_when (address.(px_Bits) =? 0)
            (Errorf "vpn.address must be the server's tunnel address with a prefix, such as 10.99.0.2/32" []);
      match base64_Decode (TrimSpace v.(vpn_PeerPublicKey)) with
      | None => Err (Errorf "vpn.peer_public_key must be a WireGuard public key" [])
      | Some key =>
          _ ← fail_when (negb (lenl key =? 32)) (Errorf "vpn.peer_public_key must be a WireGuard public key" []);
          match endpoint_parts v.(vpn_PeerEndpoint) with
          | None => Err (Errorf "vpn.peer_endpoint must be host:port, such as vpn.example.com:51820" [])
          | Some (host, port) =>
              _ ← fail_when ((lenl v.(vpn_AllowedIPs) =? 0) || (64 <? lenl v.(vpn_AllowedIPs)))
                    (Errorf "vpn.allowed_ips needs between 1 and 64 networks" []);
              allowed ← prefixes v.(vpn_AllowedIPs) "vpn.allowed_ips";
              _ ← iterM (check_tunnel_network "vpn.allowed_ips") allowed;
              let keepalive := if v.(vpn_Keepalive) =? 0 then 25 else v.(vpn_Keepalive) in
              _ ← fail_when ((keepalive <? 0) || (3600 <? keepalive))
                    (Errorf "vpn.keepalive must be between 1 and 3600 seconds" []);
              Ok (mkVPN (Prefix_String address) (base64_Encode key) (JoinHostPort host port)
                    (canonical_texts allowed) keepalive)
          end
      end
  end.

(** The networks of the client connector the server's network must avoid. *)
Definition client_networks (client : option VPN) : list Prefix :=
  match client with
  | Some c => omap ParsePrefix (c.(vpn_Address) :: c.(vpn_AllowedIPs))
  | None => []
  end.

Definition VPNServer_Normalize (client : option VPN) (v : VPNServer) : result VPNServer :=
  let invalid := Errorf "vpn_server.network must be an IPv4 network from /16 to /29, such as 10.100.0.0/24" [] in
  match ParsePrefix (TrimSpace v.(srv_Network)) with
  | None => Err invalid
  | Some network =>
      _ ← fail_when (negb (bool_decide (network = Masked network)) || negb (Is4 network.(px_Addr)) ||
                     (network.(px_Bits) <? 16) || (29 <? network.(px_Bits))) invalid;
      _ ← fail_when (overlaps_reserved network)
            (Errorf "vpn_server.network cannot overlap the cluster networks 10.42.0.0/16 and 10.43.0.0/16" []);
      _ ← fail_when (existsb (λ other, Overlaps other network) (client_networks client))
            (Errorf "vpn_server.network cannot overlap the WireGuard connector's networks" []);
      let port := if v.(srv_ListenPort) =? 0 then 51820 else v.(srv_ListenPort) in
      _ ← fail_when ((port <? 1) || (65535 <? port)) (Errorf "vpn_server.listen_port must be 1–65535" []);
      match endpoint_parts v.(srv_Endpoint) with
      | None => Err (Errorf "vpn_server.endpoint must be this server's public host:port, such as vpn.example.com:51820" [])
      | Some (host, endpoint_port) =>
          Ok (mkVPNServer port (Prefix_String network) (JoinHostPort host endpoint_port))
      end
  end.

(** [VPNServer.Address] *)
Definition VPNServer_Address (v : VPNServer) : option Prefix :=
  network ← MustParsePrefix v.(srv_Network);
  Some (mkPrefix (Next network.(px_Addr)) network.(px_Bits)).

Definition name_alnum (c : ascii) : bool := lower c || digit c.
(** [^[a-z0-9](?:[a-z0-9-]{0,61}[a-z0-9])?$] *)
Definition hostnameRe : regex :=
  RCat (RCls name_alnum)
       (ROpt (RCat (RUpTo (RCls (λ c, name_alnum c || any_of "-" c)) 61) (RCls name_alnum))).
(** [^tag:[a-z0-9][a-z0-9-]{0,62}$] *)
Definition tailscaleTag : regex :=
  RSeq [RLit "tag:"; RCls name_alnum; RUpTo (RCls (λ c, name_alnum c || any_of "-" c)) 62].
(** [^[A-Za-z0-9@._:=,-]{1,128}$] *)
Definition ikeID : regex := RRep (RCls (λ c, alphanumeric c || any_of "@._:=,-" c)) 1 128.

Definition Tailscale_Normalize (t : Tailscale) : result Tailscale :=
  let trimmed := ToLower (TrimSpace t.(ts_Hostname)) in
  let hostname := if is_empty trimmed then "hakopod" else trimmed in
  _ ← fail_when (negb (full_match hostnameRe hostname)) (Errorf "tailscale.hostname must be a DNS label" []);
  _ ← fail_when (16 <? lenl t.(ts_Tags)) (Errorf "tailscale.tags has more than 16 entries" []);
  _ ← iterM (λ tag, fail_when (negb (full_match tailscaleTag tag))
                      (Errorf "tailscale.tags must look like tag:hakopod" [])) t.(ts_Tags);
  let server := t.(ts_LoginServer) in
  _ ← fail_when (negb (is_empty server) &&
                 (negb (HasPrefix server "https://") || (256 <? len server) ||
                  ContainsAny server (" " +:+ TAB +:+ LF +:+ "'" +:+ chr 34)))
        (Errorf "tailscale.login_server must be an https URL" []);
  Ok (mkTailscale hostname t.(ts_Tags) server).

Definition OpenVPN_Normalize (o : OpenVPN) : result OpenVPN :=
  mkOpenVPN <$> tunnelNetworks o.(ovpn_Routes) "openvpn.routes".

Definition IPsec_Normalize (i : IPsec) : result IPsec :=
  let address := TrimSpace i.(ipsec_RemoteAddress) in
  _ ← fail_when (negb (non_nil (ParseAddr address)) && negb (validHost address))
        (Errorf "ipsec.remote_address must be an address or host name" []);
  _ ← fail_when (negb (full_match ikeID i.(ipsec_LocalID)) || negb (full_match ikeID i.(ipsec_RemoteID)))
        (Errorf "ipsec.local_id and ipsec.remote_id must be IKE identities such as hakopod.example.com" []);
  networks ← tunnelNetworks i.(ipsec_RemoteNetworks) "ipsec.remote_networks";
  Ok (mkIPsec address i.(ipsec_LocalID) i.(ipsec_RemoteID) networks).

(** * The policy *)

Definition check_source (p : Policy) (source : string) (trusted : list Prefix) : result unit :=
  if (source =? SourceConnection)%string then
    fail_when (non_empty trusted || negb (is_empty p.(pol_ClientIPHeader)))
      (Errorf "trusted proxies apply only to the trusted_proxy client IP source" [])
  else if (source =? SourceTrustedProxy)%string then
    fail_when (negb (non_empty trusted) || negb (one_of p.(pol_ClientIPHeader) ClientIPHeaders))
      (Errorf "trusted_proxy needs trusted_proxy_cidrs and one of X-Forwarded-For, X-Real-IP or CF-Connecting-IP" [])
  else Err (Errorf "client_ip_source must be connection or trusted_proxy" []).

(** [if p.F != nil { value, err := p.F.Normalize() ... p.F = &value }] *)
Definition normalize_optional {A} (f : A → result A) (o : option A) : result (option A) :=
  match o with Some x => Some <$> f x | None => Ok None end.

Definition connectors (p : Policy) : Z :=
  Z.b2z (non_nil p.(pol_VPN)) + Z.b2z (non_nil p.(pol_Tailscale)) +
  Z.b2z (non_nil p.(pol_OpenVPN)) + Z.b2z (non_nil p.(pol_IPsec)).

(** The networks of the WireGuard connector and server. *)
Definition tunnels (vpn : option VPN) (server : option VPNServer) : list string :=
  match vpn with Some v => v.(vpn_AllowedIPs) | None => [] end ++
  match server with Some s => [s.(srv_Network)] | None => [] end.

(** [tunnel.Bits() <= allowed.Bits() && tunnel.Contains(allowed.Addr())] *)
Definition inside_tunnel (allowed : Prefix) (raw : string) : bool :=
  match MustParsePrefix raw with
  | Some tunnel => (tunnel.(px_Bits) <=? allowed.(px_Bits)) && Prefix_Contains tunnel allowed.(px_Addr)
  | None => false
  end.

Definition check_vpn_only (p : Policy) (vpn : option VPN) (server : option VPNServer) (allow : list Prefix) : result unit :=
  if p.(pol_VPNOnly) then
    _ ← fail_when (negb p.(pol_Enabled) || negb (non_nil vpn) && negb (non_nil server))
          (Errorf "vpn_only needs an enabled policy and a WireGuard connector or server" []);
    iterM (λ allowed, fail_when (negb (existsb (inside_tunnel allowed) (tunnels vpn server)))
             (Errorf "with vpn_only, every allowed network must be inside a VPN network" [])) allow
  else Ok tt.

Definition Policy_Normalize (p : Policy) : result Policy :=
  let source := if is_empty p.(pol_ClientIPSource) then SourceConnection else p.(pol_ClientIPSource) in
  allow ← prefixes p.(pol_AllowCIDRs) "allow_cidrs";
  trusted ← prefixes p.(pol_TrustedProxyCIDRs) "trusted_proxy_cidrs";
  _ ← iterM (λ prefix, fail_when (prefix.(px_Bits) =? 0)
               (Errorf "allow_cidrs cannot contain 0.0.0.0/0 or ::/0; turn the policy off instead" [])) allow;
  _ ← fail_when (p.(pol_Firewall) && negb p.(pol_Enabled))
        (Errorf "the host firewall applies only to an enabled policy" []);
  _ ← fail_when (p.(pol_Enabled) && negb (non_empty allow))
        (Errorf "an enabled policy needs at least one allowed CIDR" []);
  _ ← check_source p source trusted;
  vpn ← normalize_optional VPN_Normalize p.(pol_VPN);
  _ ← fail_when (1 <? connectors p)
        (Errorf "choose one client connector: WireGuard, Tailscale, OpenVPN or IPsec" []);
  tailscale ← normalize_optional Tailscale_Normalize p.(pol_Tailscale);
  openvpn ← normalize_optional OpenVPN_Normalize p.(pol_OpenVPN);
  ipsec ← normalize_optional IPsec_Normalize p.(pol_IPsec);
  server ← normalize_optional (VPNServer_Normalize vpn) p.(pol_VPNServer);
  _ ← check_vpn_only p vpn server allow;
  Ok (mkPolicy p.(pol_Enabled) source (canonical_texts trusted) p.(pol_ClientIPHeader) (canonical_texts allow)
        p.(pol_Firewall) vpn p.(pol_VPNOnly) server tailscale openvpn ipsec).

(** * Decisions *)

Definition contains (cidrs : list string) (address : Addr) : bool :=
  existsb (λ raw, match ParsePrefix raw with Some prefix => Prefix_Contains prefix address | None => false end) cidrs.

(** The hops of X-Forwarded-For from the right; the leftmost one is taken as it
    is. *)
Fixpoint forwarded_client (trusted : list string) (hops : list string) : Addr * bool :=
  match hops with
  | [] => (AddrZero, false)
  | hop :: rest =>
      match ParseAddr (TrimSpace hop) with
      | None => (AddrZero, false)
      | Some address =>
          let address := Unmap address in
          if negb (non_empty rest) || negb (contains trusted address) then (address, true)
          else forwarded_client trusted rest
      end
  end.

Definition ClientIP (p : Policy) (peer : Addr) (header : string → string) : Addr * bool :=
  let peer := Unmap peer in
  if negb (p.(pol_ClientIPSource) =? SourceTrustedProxy)%string || negb (contains p.(pol_TrustedProxyCIDRs) peer)
  then (peer, true)
  else
    let value := TrimSpace (header p.(pol_ClientIPHeader)) in
    if is_empty value then (peer, true)
    else if negb (p.(pol_ClientIPHeader) =? "X-Forwarded-For")%string then
      match ParseAddr value with
      | Some address => (Unmap address, true)
      | None => (AddrZero, false)
      end
    else forwarded_client p.(pol_TrustedProxyCIDRs) (reverse (Split value ",")).

Definition Allows (p : Policy) (client : Addr) (local : list Addr) : bool :=
  let client := Unmap client in
  if negb p.(pol_Enabled) || IsLoopback client || bool_decide (client ∈ local) then true
  else IsValid client && contains p.(pol_AllowCIDRs) client.

(** * OpenVPN profiles *)

Definition openVPNDirectives : list string :=
  ["client"; "dev"; "dev-type"; "proto"; "remote"; "port"; "rport";
   "resolv-retry"; "nobind"; "persist-key"; "persist-tun"; "remote-cert-tls";
   "verify-x509-name"; "cipher"; "data-ciphers"; "data-ciphers-fallback"; "auth";
   "tls-version-min"; "tls-cipher"; "tls-ciphersuites"; "key-direction"; "verb";
   "mute"; "tun-mtu"; "mssfix"; "keepalive"; "ping"; "ping-restart";
   "connect-retry"; "connect-retry-max"; "server-poll-timeout"; "remote-random";
   "explicit-exit-notify"; "reneg-sec"; "auth-nocache"].

Definition openVPNBlocks : list string := ["ca"; "cert"; "key"; "tls-auth"; "tls-crypt"; "tls-crypt-v2"].

(** [strings.ReplaceAll(s, "\r\n", "\n")] *)
Fixpoint unix_newlines (s : string) : string :=
  match s with
  | String a ((String b _) as s') =>
      if (byte_of a =? 13) && (byte_of b =? 10) then unix_newlines s' else String a (unix_newlines s')
  | _ => s
  end.

(** [strings.Trim(s, cutset)] for an ASCII cut set. *)
Fixpoint trim_left (cutset s : string) : string :=
  match s with
  | String c s' => if has_byte c cutset then trim_left cutset s' else s
  | EmptyString => EmptyString
  end.
Definition Trim (s cutset : string) : string :=
  rev_string (trim_left cutset (rev_string (trim_left cutset s))).

(** One line: the open inline block and whether a remote was seen. *)
Definition profile_line (st : string * bool) (raw : string) : result (string * bool) :=
  let '(block, remote) := st in
  let line := TrimSpace raw in
  if negb (is_empty block) then
    Ok (if (line =? "</" +:+ block +:+ ">")%string then EmptyString else block, remote)
  else if is_empty line || HasPrefix line "#" || HasPrefix line ";" then Ok st
  else if HasPrefix line "<" && HasSuffix line ">" then
    let name := Trim line "<>" in
    _ ← fail_when (negb (one_of name openVPNBlocks))
          (Errorf "the OpenVPN profile has an unsupported inline block <%s>" [AStr name]);
    Ok (name, remote)
  else
    let name := ToLower (default EmptyString (head (Fields line))) in
    _ ← fail_when (one_of name openVPNBlocks)
          (Errorf "the OpenVPN profile must include %s inline, not as a file" [AStr name]);
    _ ← fail_when (negb (one_of name openVPNDirectives))
          (Errorf "the OpenVPN profile directive %s is not allowed" [AStr name]);
    Ok (block, remote || (name =? "remote")%string).

Definition profile_lines (profile : string) : list string :=
  Split (unix_newlines profile) (ascii_of_nat 10).

Definition ValidateOpenVPNProfile (profile : string) : result unit :=
  _ ← fail_when ((len profile =? 0) || (65536 <? len profile))
        (Errorf "the OpenVPN profile must be between 1 byte and 64 KiB" []);
  '(block, remote) ← foldM profile_line (EmptyString, false) (profile_lines profile);
  _ ← fail_when (negb (is_empty block)) (Errorf "the OpenVPN profile has an unterminated <%s> block" [AStr block]);
  fail_when (negb remote) (Errorf "the OpenVPN profile needs a remote" []).


(** * Networks of a policy *)

Definition network (p : Prefix) : Prop := prefix_ok p ∧ p = Masked p.

Lemma canonical_prefix_Ok field raw p : canonical_prefix field raw = Ok p → network p.
Proof.
  unfold canonical_prefix. destruct (ParsePrefix (TrimSpace raw)) as [q|] eqn:Hq; [|done]. intros H. inv_ok.
  apply negb_false_iff, bool_decide_eq_true in Hok. split; [by eapply ParsePrefix_ok|done].
Qed.

Lemma canonical_prefix_String field p : network p → canonical_prefix field (Prefix_String p) = Ok p.
Proof.
  intros [Hp Hm]. unfold canonical_prefix. rewrite TrimSpace_plain by by apply Prefix_String_plain.
  rewrite ParsePrefix_String by done. rewrite bool_decide_eq_true_2 by done. done.
Qed.

Lemma prefixes_Ok values field l : prefixes values field = Ok l → Forall network l ∧ lenl l ≤ maxCIDRs.
Proof.
  unfold prefixes. intros H. inv_ok. apply mapM_Ok in H. zify_bool. split.
  - eapply Forall2_Forall_r; [exact H|]. apply Forall_forall. intros x _ y. apply canonical_prefix_Ok.
  - apply Forall2_length in H. unfold lenl in *. lia.
Qed.

Lemma prefixes_String field l : Forall network l → lenl l ≤ maxCIDRs → prefixes (Prefix_String <$> l) field = Ok l.
Proof.
  intros Hl Hlen. unfold prefixes. rewrite fail_when_false.
  - apply mapM_Ok. induction Hl as [|p l Hp Hl IH]; constructor; [by apply canonical_prefix_String|].
    apply IH. unfold lenl in *. simpl in *. lia.
  - unfold lenl in *. rewrite length_fmap. apply Z.ltb_ge. lia.
Qed.

Lemma elem_of_canonical_texts raw l : raw ∈ canonical_texts l ↔ ∃ p, raw = Prefix_String p ∧ p ∈ l.
Proof. unfold canonical_texts. rewrite elem_of_Compact, elem_of_sort_strings. apply list_elem_of_fmap. Qed.

(** The canonical list of networks contains what the networks contain. *)
Lemma contains_canonical l a : Forall network l →
  contains (canonical_texts l) a = true ↔ ∃ p, p ∈ l ∧ Prefix_Contains p a = true.
Proof.
  intros Hl. unfold contains. rewrite existsb_exists. setoid_rewrite <-list_elem_of_In.
  setoid_rewrite elem_of_canonical_texts. rewrite Forall_forall in Hl. split.
  - intros (raw & (p & -> & Hp) & Hc). exists p. rewrite ParsePrefix_String in Hc by by apply Hl. done.
  - intros (p & Hp & Hc). exists (Prefix_String p). split; [by exists p|]. by rewrite ParsePrefix_String by by apply Hl.
Qed.

(** A text a tunnel may route: a network apart from the cluster's. *)
Definition tunnel_text (raw : string) : Prop :=
  ∃ t, ParsePrefix raw = Some t ∧ prefix_ok t ∧ overlaps_reserved t = false.

Lemma check_tunnel_network_Ok field p u : check_tunnel_network field p = Ok u →
  p.(px_Bits) ≠ 0 ∧ overlaps_reserved p = false.
Proof. unfold check_tunnel_network. intros H. inv_ok. by zify_bool. Qed.

Lemma tunnel_texts values field l u : prefixes values field = Ok l → iterM (check_tunnel_network field) l = Ok u →
  Forall tunnel_text (canonical_texts l).
Proof.
  intros [Hl _]%prefixes_Ok Hc. apply iterM_Ok in Hc. apply Forall_forall. intros raw (p & -> & Hp)%elem_of_canonical_texts.
  rewrite Forall_forall in Hl, Hc. destruct (Hl _ Hp) as [Hok _]. exists p.
  apply Hc in Hp. apply check_tunnel_network_Ok in Hp as [_ Hr]. by rewrite ParsePrefix_String.
Qed.

Lemma VPN_Normalize_tunnels v w : VPN_Normalize v = Ok w → Forall tunnel_text w.(vpn_AllowedIPs).
Proof.
  unfold VPN_Normalize. destruct (ParsePrefix _) as [address|]; [|done]. intros H. inv_ok.
  destruct (base64_Decode _) as [key|]; [|done]. inv_ok. destruct (endpoint_parts _) as [[host port]|]; [|done]. inv_ok.
  by eapply tunnel_texts.
Qed.

Lemma VPNServer_Normalize_tunnel client v w : VPNServer_Normalize client v = Ok w → tunnel_text w.(srv_Network).
Proof.
  unfold VPNServer_Normalize. destruct (ParsePrefix _) as [network|] eqn:Hp; [|done]. intros H. inv_ok.
  destruct (endpoint_parts _) as [[host port]|]; [|done]. inv_ok. apply ParsePrefix_ok in Hp.
  exists network. cbn [srv_Network]. by rewrite ParsePrefix_String.
Qed.

Lemma normalize_optional_Ok {A} (f : A → result A) o o' : normalize_optional f o = Ok o' →
  match o, o' with Some x, Some y => f x = Ok y | None, None => True | _, _ => False end.
Proof.
  destruct o as [x|]; simpl; [|by intros [= <-]]. rewrite result_fmap_Ok. by intros (y & Hy & ->).
Qed.

(** What a normalised policy is made of. *)
Lemma Policy_Normalize_Ok p q : Policy_Normalize p = Ok q → ∃ allow trusted,
  prefixes p.(pol_AllowCIDRs) "allow_cidrs" = Ok allow ∧ q.(pol_AllowCIDRs) = canonical_texts allow ∧
  prefixes p.(pol_TrustedProxyCIDRs) "trusted_proxy_cidrs" = Ok trusted ∧ q.(pol_TrustedProxyCIDRs) = canonical_texts trusted ∧
  Forall (λ x, x.(px_Bits) ≠ 0) allow ∧ (q.(pol_Enabled) = true → allow ≠ []) ∧
  normalize_optional VPN_Normalize p.(pol_VPN) = Ok q.(pol_VPN) ∧
  normalize_optional (VPNServer_Normalize q.(pol_VPN)) p.(pol_VPNServer) = Ok q.(pol_VPNServer) ∧
  check_vpn_only q q.(pol_VPN) q.(pol_VPNServer) allow = Ok tt.
Proof.
  unfold Policy_Normalize. intros H. inv_ok. eexists _, _. cbn [pol_AllowCIDRs pol_TrustedProxyCIDRs pol_Enabled pol_VPN pol_VPNServer].
  split_and!; try done.
  - match goal with H : iterM _ _ = Ok _ |- _ => apply iterM_Ok in H; eapply Forall_impl; [exact H|] end.
    intros x Hx. apply fail_when_Ok in Hx. by zify_bool.
  - intros He ->. match goal with H : _ && negb (non_empty _) = false |- _ => by rewrite He in H end.
Qed.

Lemma tunnels_ok p q : Policy_Normalize p = Ok q → Forall tunnel_text (tunnels q.(pol_VPN) q.(pol_VPNServer)).
Proof.
  intros (allow & trusted & _ & _ & _ & _ & _ & _ & Hv & Hs & _)%Policy_Normalize_Ok.
  apply normalize_optional_Ok in Hv, Hs. unfold tunnels. apply Forall_app. split.
  - destruct (pol_VPN p), (pol_VPN q); try done. by eapply VPN_Normalize_tunnels.
  - destruct (pol_VPNServer p), (pol_VPNServer q); try done.
    rewrite Forall_singleton. by eapply VPNServer_Normalize_tunnel.
Qed.

(** * Properties *)

(** A hop of X-Forwarded-For that a trusted proxy wrote about another one. *)
Definition relay (trusted : list string) (hop : string) : Prop :=
  ∃ a, ParseAddr (TrimSpace hop) = Some a ∧ contains trusted (Unmap a) = true.

(** The client of a list of hops: the rightmost hop that is not a trusted proxy,
    or the leftmost one when all are. *)
Definition forwarded_by (trusted : list string) (hops : list string) (a : Addr) : Prop :=
  ∃ forged client relays b, hops = forged ++ client :: relays ∧ Forall (relay trusted) relays ∧
    ParseAddr (TrimSpace client) = Some b ∧ a = Unmap b ∧ (forged = [] ∨ contains trusted a = false).

Lemma forwarded_client_spec trusted hops a :
  forwarded_client trusted (reverse hops) = (a, true) ↔ forwarded_by trusted hops a.
Proof.
  induction hops as [|hop hops IH] using rev_ind.
  { split; [done|]. intros ([|] & client & relays & b & ? & _); done. }
  rewrite reverse_snoc. cbn [forwarded_client]. unfold forwarded_by.
  destruct (ParseAddr (TrimSpace hop)) as [b|] eqn:Hb; cycle 1.
  { split; [done|]. intros (forged & client & relays & b & Hhops & Hr & Hc & _).
    destruct relays as [|r relays _] using rev_ind; [by apply app_inj_tail in Hhops as [_ <-]; rewrite Hb in Hc|].
    rewrite app_comm_cons, app_assoc in Hhops. apply app_inj_tail in Hhops as [_ <-].
    apply Forall_app in Hr as [_ (c & Hc' & _)%Forall_singleton]. by rewrite Hb in Hc'. }
  cbv zeta. assert (non_empty (reverse hops) = non_empty hops) as ->.
  { destruct hops as [|h hops]; [done|]. rewrite reverse_cons. by destruct (reverse hops). }
  destruct (negb (non_empty hops) || negb (contains trusted (Unmap b))) eqn:Hstop.
  - split.
    + intros [= <-]. exists hops, hop, [], b. split_and!; [done|constructor|done|done|].
      apply orb_true_iff in Hstop as [Hs%negb_true_iff|Hs%negb_true_iff]; [left; by destruct hops|by right].
    + intros (forged & client & relays & b' & Hhops & Hr & Hc & -> & _).
      destruct relays as [|r relays _] using rev_ind.
      { apply app_inj_tail in Hhops as [_ <-]. rewrite Hb in Hc. by injection Hc as ->. }
      rewrite app_comm_cons, app_assoc in Hhops. apply app_inj_tail in Hhops as [-> <-].
      apply Forall_app in Hr as [_ (c & Hc' & Ht)%Forall_singleton]. rewrite Hb in Hc'. injection Hc' as <-.
      rewrite Ht in Hstop. by destruct forged.
  - apply orb_false_iff in Hstop as [Hne%negb_false_iff Ht%negb_false_iff]. rewrite IH. unfold forwarded_by. split.
    + intros (forged & client & relays & b' & -> & Hr & Hc & -> & Hf). exists forged, client, (relays ++ [hop]), b'.
      split_and!; [by rewrite <-app_assoc|apply Forall_app; split; [done|apply Forall_singleton; by exists b]|done..].
    + intros (forged & client & relays & b' & Hhops & Hr & Hc & -> & Hf).
      destruct relays as [|r relays _] using rev_ind.
      { apply app_inj_tail in Hhops as [-> <-]. rewrite Hb in Hc. injection Hc as ->.
        destruct Hf as [->|Hf]; [done|congruence]. }
      rewrite app_comm_cons, app_assoc in Hhops. apply app_inj_tail in Hhops as [-> <-].
      apply Forall_app in Hr as [Hr _]. by exists forged, client, relays, b'.
Qed.

(** The header of a policy can influence the address taken for a client. *)
Definition reads_header (p : Policy) (peer : Addr) : Prop :=
  p.(pol_ClientIPSource) = SourceTrustedProxy ∧ contains p.(pol_TrustedProxyCIDRs) (Unmap peer) = true.

Lemma peer_unless_trusted p peer header : ¬ reads_header p peer → ClientIP p peer header = (Unmap peer, true).
Proof.
  unfold reads_header, ClientIP. intros Hno. destruct (String.eqb_spec p.(pol_ClientIPSource) SourceTrustedProxy); [|done]. simpl.
  destruct (contains _ _) eqn:Hc; [|done]. tauto.
Qed.

(** C9: Nobody can forge the address a request comes from. Unless the peer is a
    trusted proxy the header is not looked at; and of X-Forwarded-For the address
    taken is exactly the rightmost hop that is no trusted proxy (the leftmost hop
    when all are), whatever a client put in front of it. *)
Theorem ClientIP_unforgeable p peer header :
  (¬ reads_header p peer → ClientIP p peer header = (Unmap peer, true)) ∧
  (reads_header p peer → p.(pol_ClientIPHeader) = "X-Forwarded-For" → ∀ a,
    ClientIP p peer header = (a, true) ↔
    let value := TrimSpace (header "X-Forwarded-For") in
    (value = EmptyString ∧ a = Unmap peer) ∨
    (value ≠ EmptyString ∧ forwarded_by p.(pol_TrustedProxyCIDRs) (Split value ",") a)).
Proof.
  split.
  - apply peer_unless_trusted.
  - unfold reads_header, ClientIP. cbv zeta. intros [-> ->] Hh a. rewrite Hh. cbn [negb orb String.eqb Ascii.eqb Bool.eqb SourceTrustedProxy].
    destruct (is_empty _) eqn:He.
    + apply is_empty_true in He. rewrite He. split; [intros [= <-]; by left|]. intros [[_ ->]|[? _]]; done.
    + apply is_empty_false in He. change (negb ("X-Forwarded-For" =? "X-Forwarded-For")%string) with false. cbv iota.
      rewrite forwarded_client_spec. split; [by right|]. by intros [[? _]|[_ ?]].
Qed.

(** What a policy admits, its switch on. *)
Lemma Allows_enabled q client local : q.(pol_Enabled) = true →
  Allows q client local = true ↔ IsLoopback (Unmap client) = true ∨ Unmap client ∈ local ∨ contains q.(pol_AllowCIDRs) (Unmap client) = true.
Proof.
  intros Hen. unfold Allows. rewrite Hen. cbn [negb orb]. destruct (IsLoopback _) eqn:Hl; [naive_solver|]. cbn [orb].
  case_bool_decide; [naive_solver|]. rewrite andb_true_iff. split; [tauto|]. intros [?|[?|Hc]]; [done..|]. split; [|done].
  unfold contains in Hc. apply existsb_exists in Hc as (raw & _ & Hc). destruct (ParsePrefix raw) as [prefix|]; [|done].
  by apply Prefix_Contains_spec in Hc as [].
Qed.

(** C16: With [vpn_only], a normalised policy is on and admits, of the clients [ClientIP]
    gives, loopback, the host's own addresses and what lies in an allowed network,
    and nothing else. Whatever lies in an allowed network also lies in a network of
    the WireGuard connector or server and outside the cluster's Pod and Service
    networks. And the client is the peer of the connection itself, unless that is a
    trusted proxy. *)
Theorem vpn_only_isolated p q peer header client local :
  Policy_Normalize p = Ok q → q.(pol_VPNOnly) = true → ClientIP q peer header = (client, true) →
  (Allows q client local = true ↔
    IsLoopback (Unmap client) = true ∨ Unmap client ∈ local ∨ contains q.(pol_AllowCIDRs) (Unmap client) = true) ∧
  (contains q.(pol_AllowCIDRs) (Unmap client) = true →
    (∃ raw tunnel, raw ∈ tunnels q.(pol_VPN) q.(pol_VPNServer) ∧ ParsePrefix raw = Some tunnel ∧ Prefix_Contains tunnel (Unmap client) = true) ∧
    (∀ reserved, reserved ∈ reservedTunnelNetworks → Prefix_Contains reserved (Unmap client) = false)) ∧
  (¬ reads_header q peer → client = Unmap peer).
Proof.
  intros Hn Hvo Hclient. pose proof (tunnels_ok p q Hn) as Ht.
  apply Policy_Normalize_Ok in Hn as (allow & trusted & Hallow & Htexts & _ & _ & _ & _ & _ & _ & Hvpn).
  apply prefixes_Ok in Hallow as [Hallow _]. unfold check_vpn_only in Hvpn. rewrite Hvo in Hvpn. inv_ok.
  apply orb_false_iff in Hok as [Hen%negb_false_iff _]. split_and!; [by apply Allows_enabled| |].
  2: { intros Hno. rewrite peer_unless_trusted in Hclient by done. by injection Hclient as <-. }
  rewrite Htexts. intros (inner & Hin & Hc)%contains_canonical; [|done].
  apply iterM_Ok in Hvpn. rewrite Forall_forall in Hvpn. rewrite Forall_forall in Hallow. rewrite Forall_forall in Ht. destruct (Hallow _ Hin) as [Hinner _].
  apply Hvpn in Hin. apply fail_when_Ok in Hin. apply negb_false_iff, existsb_exists in Hin as (raw & Hraw & Hins).
  apply list_elem_of_In in Hraw. destruct (Ht _ Hraw) as (tunnel & Hp & Hok & Hres).
  unfold inside_tunnel, MustParsePrefix in Hins. rewrite Hp in Hins. apply andb_true_iff in Hins as [Hle%Z.leb_le Hinside].
  pose proof (Prefix_Contains_trans _ _ _ Hok Hinner Hle Hinside Hc) as Hct. split; [by exists raw, tunnel|].
  intros reserved Hr. apply not_true_iff_false. intros Hcr. unfold overlaps_reserved in Hres.
  apply not_true_iff_false in Hres. apply Hres. apply existsb_exists. exists reserved. split; [by apply list_elem_of_In|].
  eapply Prefix_Contains_overlap; [done| |done|done].
  unfold reservedTunnelNetworks in Hr. rewrite !elem_of_cons, elem_of_nil in Hr.
  destruct Hr as [->|[->|[]]]; repeat split; done.
Qed.

(** ** The grammar of OpenVPN profiles *)

Definition ignored (raw : string) : bool :=
  let line := TrimSpace raw in is_empty line || HasPrefix line "#" || HasPrefix line ";".
Definition is_tag (raw : string) : bool := HasPrefix (TrimSpace raw) "<" && HasSuffix (TrimSpace raw) ">".
Definition opens (raw name : string) : Prop :=
  ignored raw = false ∧ is_tag raw = true ∧ name = Trim (TrimSpace raw) "<>" ∧ name ∈ openVPNBlocks.
Definition closes (name raw : string) : Prop := TrimSpace raw = ("</" +:+ name +:+ ">").
Definition directive (raw name : string) : Prop :=
  ignored raw = false ∧ is_tag raw = false ∧ name = ToLower (default EmptyString (head (Fields (TrimSpace raw)))) ∧
  ¬ (name ∈ openVPNBlocks) ∧ name ∈ openVPNDirectives.

(** Lines that form a profile, and whether a remote is among its directives. *)
Inductive profile : bool → list string → Prop :=
  | profile_nil : profile false []
  | profile_ignored line lines r : ignored line = true → profile r lines → profile r (line :: lines)
  | profile_directive line name lines r :
      directive line name → profile r lines → profile ((name =? "remote")%string || r) (line :: lines)
  | profile_block tag name body close lines r :
      opens tag name → Forall (λ line, ¬ closes name line) body → closes name close → profile r lines →
      profile r (tag :: body ++ close :: lines).

Lemma profile_line_inside block r line : is_empty block = false → profile_line (block, r) line =
  Ok (if (TrimSpace line =? "</" +:+ block +:+ ">")%string then EmptyString else block, r).
Proof. unfold profile_line. by intros ->. Qed.

Lemma block_lines block r body close lines : block ≠ EmptyString → Forall (λ line, ¬ closes block line) body →
  closes block close → foldM profile_line (block, r) (body ++ close :: lines) = foldM profile_line (EmptyString, r) lines.
Proof.
  intros Hb Hbody Hclose. apply is_empty_false in Hb. induction Hbody as [|line body Hline Hbody IH].
  - cbn [app foldM]. rewrite profile_line_inside by done. by rewrite (proj2 (String.eqb_eq _ _) Hclose).
  - cbn [app foldM]. rewrite profile_line_inside by done. by rewrite (proj2 (String.eqb_neq _ _) Hline).
Qed.

Lemma block_lines_inv block lines : block ≠ EmptyString → ∀ r r', foldM profile_line (block, r) lines = Ok (EmptyString, r') →
  ∃ body close rest, lines = body ++ close :: rest ∧ Forall (λ line, ¬ closes block line) body ∧ closes block close ∧
    foldM profile_line (EmptyString, r) rest = Ok (EmptyString, r').
Proof.
  intros Hb. pose proof Hb as He%is_empty_false. induction lines as [|line lines IH]; intros r r'; cbn [foldM].
  { intros [= -> _]. done. }
  rewrite profile_line_inside by done. destruct (String.eqb_spec (TrimSpace line) ("</" +:+ block +:+ ">")) as [Hc|Hc].
  - intros H. by exists [], line, lines.
  - intros H. cbn [mbind result_bind] in H. apply IH in H as (body & close & rest & -> & Hbody & Hclose & Hrest).
    exists (line :: body), close, rest. split_and!; [done|by constructor|done|done].
Qed.

(** What a line outside the inline blocks does. *)
Lemma profile_line_outside r line st : profile_line (EmptyString, r) line = Ok st ↔
  (ignored line = true ∧ st = (EmptyString, r)) ∨
  (∃ name, opens line name ∧ st = (name, r)) ∨
  (∃ name, directive line name ∧ st = (EmptyString, r || (name =? "remote")%string)).
Proof.
  unfold profile_line, opens, directive. cbv zeta. cbn [is_empty String.eqb negb].
  change (is_empty (TrimSpace line) || HasPrefix (TrimSpace line) "#" || HasPrefix (TrimSpace line) ";") with (ignored line).
  change (HasPrefix (TrimSpace line) "<" && HasSuffix (TrimSpace line) ">") with (is_tag line).
  destruct (ignored line); [naive_solver|]. destruct (is_tag line).
  - rewrite bind_unit_Ok, fail_when_Ok, negb_false_iff, one_of_spec. split; [|naive_solver].
    intros [Hin [= <-]]. right. left. eexists. done.
  - rewrite !bind_unit_Ok, !fail_when_Ok, negb_false_iff, one_of_spec, one_of_false. split; [|naive_solver].
    intros (Hno & Hin & [= <-]). right. right. eexists. done.
Qed.

Lemma opens_not_empty line name : opens line name → name ≠ EmptyString.
Proof. intros (_ & _ & _ & Hin) ->. by apply one_of_spec in Hin. Qed.

Lemma profile_lines_sound n : ∀ lines r r', (length lines <= n)%nat →
  foldM profile_line (EmptyString, r) lines = Ok (EmptyString, r') → ∃ remote, profile remote lines ∧ r' = r || remote.
Proof.
  induction n as [|n IH]; intros [|line lines] r r' Hn; cbn [foldM]; simpl in Hn; try lia.
  1-2: intros [= <-]; exists false; split; [constructor|by rewrite orb_false_r].
  rewrite bind_Ok. intros (st & Hst & H). apply profile_line_outside in Hst as [[Hi ->]|[(name & Ho & ->)|(name & Hd & ->)]].
  - apply IH in H as (remote & Hp & ->); [|lia]. exists remote. split; [by constructor|done].
  - apply block_lines_inv in H as (body & close & rest & -> & Hbody & Hclose & Hrest); [|by eapply opens_not_empty].
    rewrite length_app in Hn. simpl in Hn. apply IH in Hrest as (remote & Hp & ->); [|lia].
    exists remote. split; [by econstructor|done].
  - apply IH in H as (remote & Hp & ->); [|lia]. exists ((name =? "remote")%string || remote).
    split; [by constructor|by rewrite orb_assoc].
Qed.

Lemma profile_lines_complete remote lines : profile remote lines → ∀ r,
  foldM profile_line (EmptyString, r) lines = Ok (EmptyString, r || remote).
Proof.
  induction 1 as [|line lines rem Hi _ IH|line name lines rem Hd _ IH|tag name body close lines rem Ho Hbody Hclose _ IH];
    intros r; cbn [foldM].
  - by rewrite orb_false_r.
  - rewrite (proj2 (profile_line_outside r line _) (or_introl (conj Hi eq_refl))). apply IH.
  - rewrite (proj2 (profile_line_outside r line _) (or_intror (or_intror (ex_intro _ name (conj Hd eq_refl))))).
    cbn [mbind result_bind]. by rewrite IH, orb_assoc.
  - rewrite (proj2 (profile_line_outside r tag _) (or_intror (or_introl (ex_intro _ name (conj Ho eq_refl))))).
    cbn [mbind result_bind]. rewrite block_lines by (done || by eapply opens_not_empty). apply IH.
Qed.

(** A profile is accepted exactly when, within its size limit, it consists of
    blank lines, comments, directives from the list and closed inline blocks of
    keys and certificates, with a remote among the directives. What runs a
    program, loads a plugin or names a file is none of these. *)
Theorem ValidateOpenVPNProfile_grammar text :
  ValidateOpenVPNProfile text = Ok tt ↔ 1 ≤ len text ≤ 65536 ∧ profile true (profile_lines text).
Proof.
  unfold ValidateOpenVPNProfile. rewrite bind_unit_Ok, fail_when_Ok, orb_false_iff, Z.eqb_neq, Z.ltb_ge, bind_Ok.
  assert (0 ≤ len text) by (unfold len; lia). split.
  - intros [Hlen ([block remote] & Hf & Hend)]. inv_ok. apply negb_false_iff, is_empty_true in Hok. subst block.
    apply negb_false_iff in Hend. subst remote. apply (profile_lines_sound (length (profile_lines text))) in Hf as (remote & Hp & Hr); [|done].
    simpl in Hr. subst remote. split; [lia|done].
  - intros [Hlen Hp]. split; [lia|]. exists (EmptyString, true). by rewrite (profile_lines_complete true).
Qed.

(** * Examples *)

Module PolicyExample.
(** A WireGuard connector, and a policy that admits one network behind it. *)
Definition vpn : VPN :=
  mkVPN "10.99.0.2/32" "AAAAAAAAAAAAAAAAAAAAAAAAAAAAAAAAAAAAAAAAAAA=" "vpn.example.com:51820" ["10.99.0.0/24"; "10.99.0.0/24"] 0.
Definition written : Policy :=
  mkPolicy true "" [] "" ["10.99.0.0/25"] true (Some vpn) true None None None None.
Definition stored : Policy := Eval vm_compute in match Policy_Normalize written with Ok q => q | Err _ => written end.
Definition inside : Addr := Addr4 (10 * 2 ^ 24 + 99 * 2 ^ 16 + 9).
(** Behind two trusted proxies. *)
Definition proxied : Policy :=
  mkPolicy true SourceTrustedProxy ["10.0.0.0/8"] "X-Forwarded-For" ["203.0.113.0/24"] false None false None None None None.
Definition headers (name : string) : string := " 203.0.113.9, 198.51.100.7 , 10.0.0.3".
End PolicyExample.

Lemma ClientIP_unforgeable_witness :
  reads_header PolicyExample.proxied (Addr4 (10 * 2 ^ 24 + 5)) ∧
  ClientIP PolicyExample.proxied (Addr4 (10 * 2 ^ 24 + 5)) PolicyExample.headers = (Addr4 3325256711, true).
Proof.
  split; [split; vm_compute; reflexivity|].
  apply (proj2 (ClientIP_unforgeable PolicyExample.proxied (Addr4 (10 * 2 ^ 24 + 5)) PolicyExample.headers));
    [split; vm_compute; reflexivity|reflexivity|].
  right. split; [discriminate|].
  exists [("203.0.113.9")%string], " 198.51.100.7 ", [(" 10.0.0.3")%string], (Addr4 3325256711).
  split_and!; [vm_compute; reflexivity| |vm_compute; reflexivity|reflexivity|right; vm_compute; reflexivity].
  constructor; [|constructor]. exists (Addr4 (10 * 2 ^ 24 + 3)). split; vm_compute; reflexivity.
Defined.

(** A peer in the network is admitted and one outside it is not; both are the clients
    themselves. *)
Lemma vpn_only_isolated_witness :
  Allows PolicyExample.stored PolicyExample.inside [] = true ∧ Allows PolicyExample.stored (Addr4 (8 * 2 ^ 24)) [] = false ∧
  (∃ raw tunnel, raw ∈ tunnels (pol_VPN PolicyExample.stored) (pol_VPNServer PolicyExample.stored) ∧ ParsePrefix raw = Some tunnel ∧
    Prefix_Contains tunnel (Unmap PolicyExample.inside) = true).
Proof.
  destruct (vpn_only_isolated PolicyExample.written PolicyExample.stored PolicyExample.inside PolicyExample.headers PolicyExample.inside [])
    as (Hi & Ht & _); [vm_compute; reflexivity..|].
  split; [apply Hi; right; right; vm_compute; reflexivity|]. split; [vm_compute; reflexivity|].
  apply Ht. vm_compute. reflexivity.
Defined.

(** A profile with an inline certificate is accepted, one that runs a script is
    not. *)
Example profile_accepted : ValidateOpenVPNProfile
  ("client" +:+ LF +:+ "remote vpn.example.com 1194" +:+ CR +:+ LF +:+ "<ca>" +:+ LF +:+ "up x" +:+ LF +:+ "</ca>") = Ok tt.
Proof. vm_compute. reflexivity. Qed.
Example profile_refused : is_ok (ValidateOpenVPNProfile ("remote a 1194" +:+ LF +:+ "up /bin/sh")) = false.
Proof. vm_compute. reflexivity. Qed.
