(* ===== verification/AccessCanonical.v ===== *)
(** [Normalize] of an access policy returns a canonical form: normalising it again
    accepts it and changes nothing, so a stored policy can be read back, and every
    network it names parses. *)
From S2P Require Import Prelude GoStd Paths Text GoNet Prefixes Regex Access.
#[global] Open Scope Z_scope.

(** * Plain text from the validators *)

Lemma all_bytes_plain f s : (∀ c, f c = true → plain_byte c = true) → all_bytes f s = true → plain s.
Proof.
  intros Hf. induction s as [|c s IH]; [intros _; apply plain_nil|]. cbn [all_bytes].
  intros [Hc Hs]%andb_true_iff. apply plain_cons. split; [by apply Hf|by apply IH].
Qed.

Lemma match_plain r s : classes_within plain_byte r = true → full_match r s = true → plain s.
Proof. intros Hr Hs%full_match_spec. apply (all_bytes_plain plain_byte); [done|]. by eapply matches_bytes. Qed.

Lemma hostLabel_plain s : full_match hostLabel s = true → plain s.
Proof. apply match_plain. vm_compute. reflexivity. Qed.

Lemma plain_Join l : Forall plain l → plain (Join l ".").
Proof.
  intros Hl. induction Hl as [|x l Hx Hl IH]; [apply plain_nil|]. destruct l as [|y l]; [done|].
  change (Join (x :: y :: l) ".") with (x +:+ ("." +:+ Join (y :: l) ".")). rewrite !plain_app.
  split_and!; [done| |done]. apply plain_cons. split; [done|apply plain_nil].
Qed.

Lemma digits_plain s : ∀ acc v, digits_value acc s = Some v → plain s.
Proof.
  induction s as [|c s IH]; intros acc v; [intros _; apply plain_nil|]. cbn [digits_value].
  destruct (digit_of c) as [d|] eqn:Hd; [|done]. cbn [mbind option_bind]. intros Hs. apply plain_cons.
  split; [|by eapply IH]. revert Hd. unfold digit_of, plain_byte. destruct (_ && _) eqn:Hr; [|done]. intros _.
  split_orb. zify_bool. apply andb_true_iff. split; apply Z.leb_le; lia.
Qed.

Lemma octet_plain s v : octet s = Some v → plain s.
Proof.
  unfold octet. destruct s as [|c s]; [done|]. destruct (_ && _); [done|].
  destruct (digits_value 0 (String c s)) eqn:Hd; [|done]. intros _. by eapply digits_plain.
Qed.

Lemma ParseIPv4_plain s ip : ParseIPv4 s = Some ip → plain s.
Proof.
  unfold ParseIPv4. intros H. rewrite <-(Join_Split s "."). apply plain_Join.
  destruct (Split s ".") as [|a [|b [|c [|d [|]]]]]; try done.
  destruct (octet a) eqn:Ha, (octet b) eqn:Hb, (octet c) eqn:Hc, (octet d) eqn:Hd; try done.
  repeat constructor; by eapply octet_plain.
Qed.

Lemma Atoi_plain s n : Atoi s = Some n → plain s.
Proof.
  unfold Atoi. destruct s as [|c s]; [done|].
  assert (∀ v, digits_value 0 s = Some v → plain_byte c = true → plain (String c s)) as Hsign.
  { intros v Hv Hc. apply plain_cons. split; [done|]. by eapply digits_plain. }
  destruct (Ascii.eqb_spec c "-") as [->|]; [|destruct (Ascii.eqb_spec c "+") as [->|]]; cbv beta iota zeta.
  1-2: destruct (is_empty s); [done|]; destruct (digits_value 0 s) eqn:Hd; [|done]; intros _; by eapply Hsign.
  destruct (is_empty _); [done|]. destruct (digits_value 0 (String c s)) eqn:Hd; [|done]. intros _. by eapply digits_plain.
Qed.

Lemma TrimSuffix_plain s : plain (TrimSuffix s ".") → plain s.
Proof.
  unfold TrimSuffix. destruct (HasSuffix s ".") eqn:Hs; [|done].
  assert (∃ t, s = t +:+ ".") as [t ->].
  { unfold HasSuffix in Hs. apply HasPrefix_spec in Hs as [u Hu]. exists (rev_string u).
    assert (∀ a b, rev_string_app a b = rev_string a +:+ b) as Happ.
    { unfold rev_string. induction a as [|x a IH]; intros b; [done|]. simpl. rewrite IH, (IH (String x EmptyString)).
      by rewrite <-string_app_assoc. }
    assert (∀ a, rev_string (rev_string a) = a) as Hinv.
    { assert (∀ a b, rev_string (rev_string_app a b) = rev_string_app b a) as Hgen.
      { unfold rev_string at 1. induction a as [|x a IH]; intros b; [done|]. simpl. by rewrite IH. }
      intros a. unfold rev_string at 2. by rewrite Hgen. }
    rewrite <-(Hinv s), Hu. unfold rev_string at 1. change (rev_string ".") with ".". 
    rewrite string_app_cons. simpl. by rewrite Happ. }
  rewrite string_length_app. replace (String.length t + String.length "." - String.length ".")%nat with (String.length t) by (simpl; lia).
  assert (take_string (String.length t) (t +:+ ".") = t) as ->.
  { clear. induction t as [|c t IH]; [done|]. rewrite string_app_cons. simpl. by rewrite IH. }
  intros Ht. apply plain_app. split; [done|]. apply plain_cons. split; [done|apply plain_nil].
Qed.

Lemma validHost_plain host : validHost host = true → no_sep ":" host → plain host.
Proof.
  unfold validHost. destruct (ParseAddr host) as [a|] eqn:Ha; cbn [non_nil].
  - intros _ Hno. unfold ParseAddr in Ha. destruct (addr_kind host) as [c|] eqn:Hk; [|done]. cbn [mbind option_bind] in Ha.
    destruct (Ascii.eqb c "."); [destruct (ParseIPv4 host) eqn:Hp; [by eapply ParseIPv4_plain|done]|].
    destruct (Ascii.eqb_spec c ":") as [->|]; [|done]. exfalso. clear Ha. revert Hk Hno. unfold no_sep.
    induction host as [|d host IH]; [done|]. cbn [addr_kind has_byte].
    destruct (Ascii.eqb_spec d ":") as [->|]; [done|]. destruct (_ || _ || _); [by intros [= ->]|]. by apply IH.
  - destruct ((len host =? 0) || (253 <? len host)); [done|]. intros Hall _. apply TrimSuffix_plain.
    rewrite <-(Join_Split (TrimSuffix host ".") "."). apply plain_Join. apply Forall_forall. intros label Hl.
    rewrite forallb_forall in Hall. apply hostLabel_plain, Hall. by apply list_elem_of_In.
Qed.

(** * Endpoints *)

(** The parts of a host:port text. *)
Definition host_port (host port : string) : Prop :=
  no_sep ":" port ∧ no_sep "[" port ∧ no_sep "]" port ∧ no_sep "[" host ∧ no_sep "]" host.

Lemma SplitHostPort_Some s host port : SplitHostPort s = Some (host, port) →
  host_port host port ∧ (s = "[" +:+ host +:+ "]:" +:+ port ∨ (s = host +:+ ":" +:+ port ∧ no_sep ":" host)).
Proof.
  unfold SplitHostPort. destruct (CutLast s ":") as [[before p]|] eqn:Hc; [|done]. cbn [mbind option_bind].
  apply CutLast_Some in Hc as [Hs Hp]. destruct (HasPrefix s "[") eqn:Hb.
  - destruct (Cut s "]") as [[bracketed rest]|] eqn:Hcut; [|done]. cbn [mbind option_bind]. cbv zeta.
    destruct (String.eqb_spec rest (":" +:+ p)) as [->|]; [|done]. cbn [negb].
    destruct (has_byte "[" (drop_string 1 s) || has_byte "]" (":" +:+ p)) eqn:Hbad; [done|]. intros [= <- <-].
    apply Cut_Some in Hcut as [Hs' Hbr]. apply orb_false_iff in Hbad as [Hl Hr].
    apply HasPrefix_spec in Hb as [u Hu]. rewrite Hu in Hs', Hl.
    destruct bracketed as [|c bracketed]; [done|]. change ("[" +:+ u) with (String "[" u) in *.
    rewrite string_app_cons in Hs'. injection Hs' as <- ->. cbn [drop_string] in *. rewrite Hu.
    unfold no_sep in *. rewrite has_byte_app in Hl. cbn [has_byte] in *. apply orb_false_iff in Hl as [Hl1 Hl2].
    rewrite string_app_cons in *. cbn [has_byte] in *. split; [|by left]. unfold host_port, no_sep.
    apply orb_false_iff in Hl2 as [_ Hl2]. apply orb_false_iff in Hl2 as [_ Hl2].
    apply orb_false_iff in Hr as [_ Hr]. apply orb_false_iff in Hbr as [_ Hbr]. done.
  - destruct (has_byte ":" before || has_byte "[" s || has_byte "]" s) eqn:Hbad; [done|]. intros [= <- <-].
    apply orb_false_iff in Hbad as [[H1 H2]%orb_false_iff H3]. rewrite Hs in H2, H3.
    apply no_sep_app_inv in H2 as [H2 H2'], H3 as [H3 H3']. unfold no_sep in *. cbn [has_byte] in *.
    split; [|right; by rewrite Hs]. unfold host_port, no_sep.
    apply orb_false_iff in H2' as [_ H2']. by apply orb_false_iff in H3' as [_ H3'].
Qed.

Lemma SplitHostPort_Join host port : host_port host port → SplitHostPort (JoinHostPort host port) = Some (host, port).
Proof.
  intros (Hp & Hp1 & Hp2 & Hh1 & Hh2). unfold JoinHostPort, SplitHostPort. destruct (has_byte ":" host) eqn:Hc.
  - assert ("[" +:+ host +:+ "]:" +:+ port = ("[" +:+ host +:+ "]") +:+ String ":" port) as Heq
      by by rewrite <-!string_app_assoc.
    rewrite Heq, CutLast_sep, <-Heq by done. cbn [mbind option_bind]. rewrite HasPrefix_app.
    assert ("[" +:+ host +:+ "]:" +:+ port = ("[" +:+ host) +:+ String "]" (String ":" port)) as Heq'
      by by rewrite <-!string_app_assoc.
    rewrite Heq', Cut_app by (apply no_sep_app; done). cbn [mbind option_bind]. cbv zeta. rewrite <-Heq'.
    change (drop_string 1 ("[" +:+ host +:+ "]:" +:+ port)) with (host +:+ "]:" +:+ port).
    change (drop_string 1 ("[" +:+ host)) with host. change (":" +:+ port) with (String ":" port). rewrite String.eqb_refl.
    unfold no_sep in *. rewrite has_byte_app, Hh1. cbn [negb orb]. 
    change ("]:" +:+ port) with (String "]" (String ":" port)). cbn [has_byte]. by rewrite Hp1, Hp2.
  - change (host +:+ ":" +:+ port) with (host +:+ String ":" port). rewrite CutLast_sep by done. cbn [mbind option_bind].
    assert (no_sep "[" (host +:+ String ":" port) ∧ no_sep "]" (host +:+ String ":" port)) as [H1 H2].
    { split; apply no_sep_app; try done; unfold no_sep in *; cbn [has_byte]; by rewrite ?Hp1, ?Hp2. }
    assert (HasPrefix (host +:+ String ":" port) "[" = false) as ->.
    { apply not_true_iff_false. intros [u Hu]%HasPrefix_spec. rewrite Hu in H1. done. }
    unfold no_sep in *. by rewrite Hc, H1, H2.
Qed.

Lemma endpoint_again e host port : endpoint_parts e = Some (host, port) →
  endpoint_parts (JoinHostPort host port) = Some (host, port).
Proof.
  unfold endpoint_parts. destruct (SplitHostPort (TrimSpace e)) as [[h p]|] eqn:Hs; [|done]. cbn [mbind option_bind].
  destruct (Atoi p) as [n|] eqn:Hn; [|done]. cbn [mbind option_bind].
  destruct ((n <? 1) || (65535 <? n) || negb (validHost h)) eqn:Hbad; [done|]. intros [= <- <-].
  apply SplitHostPort_Some in Hs as [Hhp Hs].
  assert (TrimSpace (JoinHostPort h p) = JoinHostPort h p) as ->.
  { unfold JoinHostPort. destruct (has_byte ":" h) eqn:Hc.
    - destruct Hs as [Hs|[_ Hno]]; [|unfold no_sep in Hno; congruence]. by rewrite <-Hs, TrimSpace_idem.
    - apply orb_false_iff in Hbad as [_ Hv%negb_false_iff]. apply TrimSpace_plain.
      apply plain_app. split; [by apply validHost_plain|]. apply plain_app. split; [|by eapply Atoi_plain].
      apply plain_cons. split; [done|apply plain_nil]. }
  rewrite SplitHostPort_Join by done. cbn [mbind option_bind]. rewrite Hn. cbn [mbind option_bind]. by rewrite Hbad.
Qed.

(** * Lists of networks *)

Lemma Compact_length l : (length (Compact l) <= length l)%nat.
Proof.
  induction l as [|x l IH]; [done|]. destruct l as [|y l]; [done|]. rewrite Compact_cons.
  destruct (x =? y)%string; simpl in *; lia.
Qed.

Lemma texts_parse (ts : list string) (l : list Prefix) : Forall network l → (∀ t, t ∈ ts → ∃ p, t = Prefix_String p ∧ p ∈ l) →
  ts = Prefix_String <$> omap ParsePrefix ts.
Proof.
  intros Hl. induction ts as [|t ts IH]; intros Hts; [done|]. cbn [omap list_omap].
  destruct (Hts t) as (p & -> & Hp); [by left|]. rewrite Forall_forall in Hl. destruct (Hl _ Hp) as [Hok _].
  rewrite ParsePrefix_String by done. rewrite fmap_cons, <-IH; [done|]. intros u Hu. apply Hts. by right.
Qed.

(** The canonical texts name a list of networks with the same elements, which is
    its own canonical form. *)
Lemma canonical_again l : Forall network l → ∃ l', canonical_texts l = Prefix_String <$> l' ∧
  (∀ p, p ∈ l' ↔ p ∈ l) ∧ canonical_texts l' = canonical_texts l ∧ lenl l' ≤ lenl l.
Proof.
  intros Hl. exists (omap ParsePrefix (canonical_texts l)).
  assert (canonical_texts l = Prefix_String <$> omap ParsePrefix (canonical_texts l)) as Htexts.
  { apply (texts_parse _ l); [done|]. intros t Ht. by apply elem_of_canonical_texts. }
  split_and!; [done| | |].
  - intros p. rewrite list_elem_of_omap. setoid_rewrite elem_of_canonical_texts. rewrite Forall_forall in Hl. split.
    + intros (t & (q & -> & Hq) & Hp). rewrite ParsePrefix_String in Hp by by apply Hl. by injection Hp as <-.
    + intros Hp. exists (Prefix_String p). split; [by exists p|]. by apply ParsePrefix_String, Hl.
  - unfold canonical_texts at 1. rewrite <-Htexts. apply Compact_sort_idem.
  - unfold lenl. rewrite <-(length_fmap Prefix_String), <-Htexts. unfold canonical_texts.
    pose proof (Compact_length (sort_strings (Prefix_String <$> l))) as Hc.
    pose proof (Permutation_length (sort_strings_perm (Prefix_String <$> l))) as Hp. rewrite length_fmap in Hp. lia.
Qed.

Lemma prefixes_again field values l : prefixes values field = Ok l → ∃ l',
  prefixes (canonical_texts l) field = Ok l' ∧ (∀ p, p ∈ l' ↔ p ∈ l) ∧ canonical_texts l' = canonical_texts l ∧
  lenl l' ≤ lenl l ∧ lenl (canonical_texts l) = lenl l'.
Proof.
  intros [Hl Hlen]%prefixes_Ok. destruct (canonical_again l Hl) as (l' & Ht & Hel & Hc & Hle). exists l'.
  split_and!; [|done|done|done|by rewrite Ht; unfold lenl; rewrite length_fmap].
  rewrite Ht. apply prefixes_String; [|lia]. rewrite Forall_forall in *. intros p Hp. by apply Hl, Hel.
Qed.

Lemma iterM_elem {A} (f : A → result unit) l l' u : (∀ x, x ∈ l' → x ∈ l) → iterM f l = Ok u → iterM f l' = Ok tt.
Proof. intros Hsub H. apply iterM_Ok in H. apply iterM_Ok. rewrite Forall_forall in *. auto. Qed.

Lemma lenl_nonzero {A} (l l' : list A) : (∀ x, x ∈ l' ↔ x ∈ l) → lenl l ≠ 0 → lenl l' ≠ 0.
Proof.
  intros Hel Hl ->%lenl_zero. apply Hl, lenl_zero. destruct l as [|x l]; [done|]. exfalso.
  apply (not_elem_of_nil x), Hel. by left.
Qed.

Lemma non_empty_elem {A} (l l' : list A) : (∀ x, x ∈ l' ↔ x ∈ l) → non_empty l' = non_empty l.
Proof.
  intros Hel. destruct l as [|x l], l' as [|y l']; [done|..|done]; exfalso.
  - apply (not_elem_of_nil y), Hel. by left.
  - apply (not_elem_of_nil x), Hel. by left.
Qed.

Lemma canonical_prefix_length field values l : prefixes values field = Ok l → lenl l = lenl values.
Proof. unfold prefixes. intros H. inv_ok. apply mapM_Ok, Forall2_length in H. unfold lenl. lia. Qed.

(** * The connectors *)

(** Passes a check that is known not to fail. *)
Ltac pass H := rewrite (fail_when_false _ _ H); cbn [mbind result_bind].

Lemma VPN_Normalize_idem v w : VPN_Normalize v = Ok w → VPN_Normalize w = Ok w.
Proof.
  unfold VPN_Normalize at 1. destruct (ParsePrefix (TrimSpace (vpn_Address v))) as [address|] eqn:Ha; [|done].
  intros H. inv_ok. destruct (base64_Decode _) as [key|] eqn:Hk; [|done]. inv_ok.
  destruct (endpoint_parts _) as [[host port]|] eqn:He; [|done]. inv_ok.
  apply ParsePrefix_ok in Ha. apply base64_Decode_bytes in Hk. apply endpoint_again in He.
  match goal with H : prefixes _ _ = Ok ?l |- _ =>
    pose proof (canonical_prefix_length _ _ _ H) as Hlen; destruct (prefixes_again _ _ _ H) as (l' & Hl' & Hel & Hc & Hle & Ht)
  end.
  unfold VPN_Normalize. cbn [vpn_Address vpn_PeerPublicKey vpn_PeerEndpoint vpn_AllowedIPs vpn_Keepalive].
  rewrite TrimSpace_plain, ParsePrefix_String by (done || by apply Prefix_String_plain).
  pass Hok. rewrite TrimSpace_plain, base64_roundtrip by (done || by apply base64_Encode_plain).
  pass Hok0. rewrite He. apply orb_false_iff in Hok1 as [Hn Hm]. zify_bool.
  assert ((lenl (canonical_texts a) =? 0) || (64 <? lenl (canonical_texts a)) = false) as Hcount.
  { rewrite Ht. pose proof (lenl_nonzero _ _ Hel). apply orb_false_iff. split; [apply Z.eqb_neq|apply Z.ltb_ge]; lia. }
  pass Hcount. rewrite Hl'. cbn [mbind result_bind].
  rewrite (iterM_elem _ _ _ _ (λ p Hp, proj1 (Hel p) Hp) ltac:(eassumption)). cbn [mbind result_bind].
  assert (∀ k, (if (if k =? 0 then 25 else k) =? 0 then 25 else (if k =? 0 then 25 else k)) = (if k =? 0 then 25 else k)) as Hkeep.
  { intros k. destruct (Z.eqb_spec k 0) as [->|Hz]; [done|]. by destruct (Z.eqb_spec k 0). }
  rewrite Hkeep. pass Hok4. by rewrite Hc.
Qed.

Lemma VPNServer_Normalize_idem client v w : VPNServer_Normalize client v = Ok w → VPNServer_Normalize client w = Ok w.
Proof.
  unfold VPNServer_Normalize at 1. destruct (ParsePrefix (TrimSpace (srv_Network v))) as [network|] eqn:Ha; [|done].
  cbv zeta. intros H. inv_ok. destruct (endpoint_parts _) as [[host port]|] eqn:He; [|done]. inv_ok.
  apply ParsePrefix_ok in Ha. apply endpoint_again in He.
  unfold VPNServer_Normalize. cbn [srv_ListenPort srv_Network srv_Endpoint]. cbv zeta.
  rewrite TrimSpace_plain, ParsePrefix_String by (done || by apply Prefix_String_plain).
  pass Hok. pass Hok0. pass Hok1.
  assert (∀ k, (if (if k =? 0 then 51820 else k) =? 0 then 51820 else (if k =? 0 then 51820 else k)) = (if k =? 0 then 51820 else k)) as Hport.
  { intros k. destruct (Z.eqb_spec k 0) as [->|Hz]; [done|]. by destruct (Z.eqb_spec k 0). }
  rewrite Hport. pass Hok2. by rewrite He.
Qed.

Lemma hostname_stable s : full_match hostnameRe s = true → ToLower (TrimSpace s) = s.
Proof.
  intros Hs. rewrite TrimSpace_plain by by (apply (match_plain hostnameRe); [vm_compute; reflexivity|]).
  apply ToLower_id. apply full_match_spec in Hs.
  apply (matches_bytes (λ c, (byte_of c <? 128) && Ascii.eqb (lower_ascii c) c)) in Hs; [|vm_compute; reflexivity].
  clear -Hs. induction s as [|c s IH]; [done|]. cbn [all_bytes bytes_lower] in *. apply andb_true_iff in Hs as [-> Hs].
  by apply IH.
Qed.

Lemma Tailscale_Normalize_idem t u : Tailscale_Normalize t = Ok u → Tailscale_Normalize u = Ok u.
Proof.
  unfold Tailscale_Normalize at 1. cbv zeta. intros H. inv_ok. apply negb_false_iff in Hok.
  set (hostname := if is_empty _ then _ else _) in *. unfold Tailscale_Normalize. cbn [ts_Hostname ts_Tags ts_LoginServer].
  cbv zeta. rewrite hostname_stable by done.
  assert ((if is_empty hostname then "hakopod" else hostname) = hostname) as ->.
  { destruct (is_empty hostname) eqn:He; [|done]. apply is_empty_true in He. rewrite He in Hok. done. }
  rewrite Hok. cbn [fail_when negb mbind result_bind]. pass Hok0. rewrite Hok1. cbn [mbind result_bind]. by pass Hok2.
Qed.

Lemma tunnelNetworks_idem values field texts : tunnelNetworks values field = Ok texts → tunnelNetworks texts field = Ok texts.
Proof.
  unfold tunnelNetworks at 1. intros H. inv_ok. pose proof (canonical_prefix_length _ _ _ Hok0) as Hlen.
  apply prefixes_Ok in Hok0 as [Hl Hmax]. unfold tunnelNetworks.
  assert (lenl (Prefix_String <$> a) = lenl values) as -> by (unfold lenl in *; by rewrite length_fmap).
  pass Hok. rewrite prefixes_String by done. cbn [mbind result_bind].
  by rewrite Hok1.
Qed.

Lemma IPsec_Normalize_idem i j : IPsec_Normalize i = Ok j → IPsec_Normalize j = Ok j.
Proof.
  unfold IPsec_Normalize at 1. cbv zeta. intros H. inv_ok. unfold IPsec_Normalize.
  cbn [ipsec_RemoteAddress ipsec_LocalID ipsec_RemoteID ipsec_RemoteNetworks]. cbv zeta. rewrite TrimSpace_idem.
  pass Hok. pass Hok0.
  match goal with H : tunnelNetworks _ _ = Ok _ |- _ => rewrite (tunnelNetworks_idem _ _ _ H) end. done.
Qed.

Lemma OpenVPN_Normalize_idem o p : OpenVPN_Normalize o = Ok p → OpenVPN_Normalize p = Ok p.
Proof.
  unfold OpenVPN_Normalize. intros (l & Hl & ->)%result_fmap_Ok. cbn [ovpn_Routes].
  by rewrite (tunnelNetworks_idem _ _ _ Hl).
Qed.

Lemma normalize_optional_idem {A} (f : A → result A) o o' :
  (∀ x y, f x = Ok y → f y = Ok y) → normalize_optional f o = Ok o' → normalize_optional f o' = Ok o'.
Proof.
  intros Hf Ho. apply normalize_optional_Ok in Ho. destruct o as [x|], o' as [y|]; try done.
  cbn [normalize_optional]. by rewrite (Hf _ _ Ho).
Qed.

(** * The policy *)

Lemma normalize_optional_nil {A} (f : A → result A) o o' : normalize_optional f o = Ok o' → non_nil o' = non_nil o.
Proof. intros H%normalize_optional_Ok. by destruct o, o'. Qed.

Lemma check_source_same p q source l l' : q.(pol_ClientIPHeader) = p.(pol_ClientIPHeader) →
  non_empty l' = non_empty l → check_source q source l' = check_source p source l.
Proof. unfold check_source. by intros -> ->. Qed.

Lemma check_vpn_only_again p q vpn server l l' :
  q.(pol_VPNOnly) = p.(pol_VPNOnly) → q.(pol_Enabled) = p.(pol_Enabled) → (∀ x, x ∈ l' → x ∈ l) →
  check_vpn_only p vpn server l = Ok tt → check_vpn_only q vpn server l' = Ok tt.
Proof.
  unfold check_vpn_only. intros -> -> Hsub. destruct (pol_VPNOnly p); [|done]. intros H. inv_ok. pass Hok.
  by eapply iterM_elem.
Qed.

(** A policy [Normalize] accepts and leaves as it is. *)
Definition stored_policy (q : Policy) : Prop := Policy_Normalize q = Ok q.

(** Normalising a normalised access policy succeeds and returns it
    unchanged, whatever connectors it configures. *)
Theorem Policy_Normalize_canonical p q : Policy_Normalize p = Ok q → stored_policy q.
Proof.
  unfold stored_policy. unfold Policy_Normalize at 1. cbv zeta. set (source := if is_empty _ then _ else _). intros H. inv_ok.
  rename a into allow, a0 into trusted, a1 into vpn, a2 into tailscale, a3 into openvpn, a4 into ipsec, a5 into server.
  destruct (prefixes_again _ _ _ Hok) as (allow' & Hallow & Hela & Hca & _).
  destruct (prefixes_again _ _ _ Hok0) as (trusted' & Htrusted & Helt & Hct & _).
  assert (is_empty source = false) as Hsource by (unfold source; by destruct (is_empty (pol_ClientIPSource p)) eqn:He).
  unfold Policy_Normalize.
  cbn [pol_Enabled pol_ClientIPSource pol_TrustedProxyCIDRs pol_ClientIPHeader pol_AllowCIDRs pol_Firewall pol_VPN
       pol_VPNOnly pol_VPNServer pol_Tailscale pol_OpenVPN pol_IPsec].
  cbv zeta. rewrite Hsource, Hallow. cbn [mbind result_bind]. rewrite Htrusted. cbn [mbind result_bind].
  rewrite (iterM_elem _ _ _ _ (λ x Hx, proj1 (Hela x) Hx) Hok1). cbn [mbind result_bind]. pass Hok2.
  rewrite (non_empty_elem _ _ Hela). pass Hok3.
  erewrite check_source_same; [rewrite Hok4|done|by apply non_empty_elem]. cbn [mbind result_bind].
  pose proof (normalize_optional_nil _ _ _ Hok5) as Hv. pose proof (normalize_optional_nil _ _ _ Hok7) as Ht.
  pose proof (normalize_optional_nil _ _ _ Hok8) as Ho. pose proof (normalize_optional_nil _ _ _ Hok9) as Hi.
  rewrite (normalize_optional_idem _ _ _ VPN_Normalize_idem Hok5). cbn [mbind result_bind].
  unfold connectors at 1. cbn [pol_VPN pol_Tailscale pol_OpenVPN pol_IPsec]. rewrite Hv, Ht, Ho, Hi.
  fold (connectors p). pass Hok6.
  rewrite (normalize_optional_idem _ _ _ Tailscale_Normalize_idem Hok7). cbn [mbind result_bind].
  rewrite (normalize_optional_idem _ _ _ OpenVPN_Normalize_idem Hok8). cbn [mbind result_bind].
  rewrite (normalize_optional_idem _ _ _ IPsec_Normalize_idem Hok9). cbn [mbind result_bind].
  rewrite (normalize_optional_idem _ _ _ (VPNServer_Normalize_idem vpn) Hok10). cbn [mbind result_bind].
  erewrite check_vpn_only_again; [|done|done|apply Hela|exact Hok11]. cbn [mbind result_bind]. by rewrite Hca, Hct.
Qed.

Lemma Policy_Normalize_canonical_witness :
  Policy_Normalize PolicyExample.written = Ok PolicyExample.stored ∧ stored_policy PolicyExample.stored.
Proof.
  split; [vm_compute; reflexivity|].
  apply (Policy_Normalize_canonical PolicyExample.written); vm_compute; reflexivity.
Defined.
