(* ===== verification/SpecTypes.v ===== *)
(** The data of internal/spec: every struct of the application format as a
Record with the source's field names (prefixed by the struct), field
assignment, and the JSON form that [Normalize] measures.

A Go map is a [gmap]; a slice is a list. A nil slice or map and an empty one
are the same value here except where the code tells them apart: the services
table, a service's networks and [network_access.from] are options whose
[None] is nil. Pointers to structs are options. Strings are byte sequences;
text that reached the program through JSON or TOML is valid UTF-8. *)
From S2P Require Import Prelude GoStd.
#[global] Open Scope Z_scope.

(** * JSON *)

Inductive json : Type :=
  | JNull
  | JBool (b : bool)
  | JNum (z : Z)
  | JStr (s : string)
  | JArr (l : list json)
  | JObj (l : list (string * json)).

Definition hex_digit (z : Z) : string :=
  String (ascii_of_N (Z.to_N (if z <? 10 then z + 48 else z + 87))) EmptyString.
Definition u_escape (r : Z) : string :=
  "\u" +:+ hex_digit (r / 4096 mod 16) +:+ hex_digit (r / 256 mod 16) +:+
  hex_digit (r / 16 mod 16) +:+ hex_digit (r mod 16).

(** One rune of an encoded string, with the HTML-safe escapes of
    [json.Marshal]. *)
Definition escape_rune (x : Z * string) : string :=
  let '(r, bs) := x in
  if r =? 34 then "\" +:+ chr 34
  else if r =? 92 then "\\"
  else if r =? 8 then "\b" else if r =? 12 then "\f" else if r =? 10 then "\n"
  else if r =? 13 then "\r" else if r =? 9 then "\t"
  else if (r <? 32) || (r =? 60) || (r =? 62) || (r =? 38) || (r =? 8232) || (r =? 8233)
  then u_escape r
  else if (r =? RuneError) && (len bs =? 1) then u_escape RuneError
  else bs.
Definition quote (s : string) : string :=
  chr 34 +:+ String.concat EmptyString (escape_rune <$> decode s) +:+ chr 34.

Fixpoint encode (j : json) : string :=
  match j with
  | JNull => "null"
  | JBool b => if b then "true" else "false"
  | JNum z => Itoa z
  | JStr s => quote s
  | JArr l => "[" +:+ Join (encode <$> l) "," +:+ "]"
  | JObj l => "{" +:+ Join ((λ x, quote x.1 +:+ ":" +:+ encode x.2) <$> l) "," +:+ "}"
  end.

Definition json_list {A} (enc : A → json) (l : list A) : json := JArr (enc <$> l).
(** Keys of an encoded map are sorted. *)
Definition json_map {A} (enc : A → json) (m : gmap string A) : json :=
  JObj (omap (λ k, (λ v, (k, enc v)) <$> m !! k) (sort_strings (map_to_list m).*1)).
Definition json_nil {A} (enc : A → json) (o : option A) : json :=
  match o with Some a => enc a | None => JNull end.

(** A field without and with [omitempty]. *)
Definition keep {A} (enc : A → json) (key : string) (v : A) : list (string * json) :=
  [(key, enc v)].
Definition omit_str (key v : string) : list (string * json) :=
  if is_empty v then [] else [(key, JStr v)].
Definition omit_bool (key : string) (v : bool) : list (string * json) :=
  if v then [(key, JBool v)] else [].
Definition omit_int (key : string) (v : Z) : list (string * json) :=
  if v =? 0 then [] else [(key, JNum v)].
Definition omit_nil {A} (enc : A → json) (key : string) (v : option A) : list (string * json) :=
  match v with Some a => [(key, enc a)] | None => [] end.
Definition omit_list {A} (enc : A → json) (key : string) (v : list A) : list (string * json) :=
  if non_empty v then [(key, JArr (enc <$> v))] else [].
Definition omit_map {A} (enc : A → json) (key : string) (v : gmap string A) : list (string * json) :=
  if lenm v =? 0 then [] else [(key, json_map enc v)].

(** * The structs *)

Record SecretRef : Type := mkSecretRef {
  sr_Ref : string;
  sr_Provider : string;
  sr_Path : string;
  sr_Key : string;
}.

Record RecoveryPolicy : Type := mkRecoveryPolicy {
  rp_OnFailure : string;
}.

Record Network : Type := mkNetwork {
  net_Internal : bool;
  net_VirtualNetwork : string;
  net_Segment : string;
}.

Record NamedVolume : Type := mkNamedVolume {
  nv_SizeGiB : Z;
  nv_StorageClass : string;
  nv_AccessMode : string;
}.

Record Resources : Type := mkResources {
  res_CPURequest : string;
  res_CPULimit : string;
  res_MemoryRequest : string;
  res_MemoryLimit : string;
}.

Record JobSchedule : Type := mkJobSchedule {
  js_Cron : string;
  js_Timezone : string;
  js_HistoryLimit : Z;
}.

Record JobInvocation : Type := mkJobInvocation {
  ji_AllowedIdentities : list string;
  ji_InputKeys : list string;
  ji_MaxInputBytes : Z;
  ji_QueueLimit : Z;
}.

Record Job : Type := mkJob {
  job_Invocation : option JobInvocation;
  job_Schedule : option JobSchedule;
  job_TimeoutSeconds : Z;
  job_Retries : Z;
}.

Record File : Type := mkFile {
  file_MountPath : string;
  file_Content : option string;
  file_Secret : option SecretRef;
  file_Mode : Z;
}.

Record Binding : Type := mkBinding {
  b_ExternalDatabase : string;
  b_ExternalDatabaseRevision : Z;
  b_ManagedDatabase : string;
  b_Endpoint : string;
  b_ClusterAware : bool;
  b_Service : string;
  b_Protocol : string;
  b_Database : string;
  b_Username : string;
  b_Password : option SecretRef;
  b_SSLMode : string;
}.

Record HTTPEndpoint : Type := mkHTTPEndpoint {
  he_Port : Z;
  he_Domain : string;
}.

Record Volume : Type := mkVolume {
  vol_MountPath : string;
  vol_SizeGiB : Z;
  vol_StorageClass : string;
}.

Record GPU : Type := mkGPU {
  gpu_Count : Z;
}.

Record CertificateMount : Type := mkCertificateMount {
  cm_Certificate : string;
  cm_Source : string;
  cm_Hostname : string;
  cm_MountPath : string;
}.

Record Mount : Type := mkMount {
  mt_Volume : string;
  mt_MountPath : string;
  mt_ReadOnly : bool;
  mt_SubPath : string;
}.

Record TemporaryMount : Type := mkTemporaryMount {
  tm_MountPath : string;
  tm_SizeMiB : Z;
  tm_Memory : bool;
}.

Record PublicTCPListener : Type := mkPublicTCPListener {
  pl_Port : Z;
  pl_TargetPort : Z;
  pl_SourceCIDRs : list string;
}.

Record Port : Type := mkPort {
  port_Name : string;
  port_Port : Z;
  port_TargetPort : Z;
  port_Protocol : string;
}.

Record NetworkAccess : Type := mkNetworkAccess {
  na_From : option (list string);
  na_FromApplications : list string;
}.

Record Readiness : Type := mkReadiness {
  rd_Protocol : string;
  rd_Port : Z;
  rd_TLSServerName : string;
  rd_TLSCAFile : string;
  rd_PeriodSeconds : Z;
  rd_TimeoutSeconds : Z;
  rd_FailureThreshold : Z;
}.

Record Autoscaling : Type := mkAutoscaling {
  as_MinReplicas : Z;
  as_MaxReplicas : Z;
  as_TargetCPU : Z;
}.

Record TLSConfig : Type := mkTLSConfig {
  tls_Certificate : string;
  tls_Issuer : string;
  tls_IssuerKind : string;
}.

Record CustomHostnames : Type := mkCustomHostnames {
  ch_Enabled : bool;
  ch_Max : Z;
  ch_Target : string;
}.

Record KubernetesPatches : Type := mkKubernetesPatches {
  kp_Deployment : string;
  kp_Service : string;
  kp_Ingress : string;
}.

Record SidecarMount : Type := mkSidecarMount {
  scm_Volume : string;
  scm_Temporary : string;
  scm_MountPath : string;
  scm_ReadOnly : bool;
}.

Record Sidecar : Type := mkSidecar {
  sc_Name : string;
  sc_Image : string;
  sc_Command : list string;
  sc_Args : list string;
  sc_Env : gmap string string;
  sc_Secrets : gmap string SecretRef;
  sc_CPU : string;
  sc_Memory : string;
  sc_Mounts : list SidecarMount;
}.

Record SandboxSession : Type := mkSandboxSession {
  ss_AllowedIdentities : list string;
  ss_HelperCommand : list string;
  ss_ReadyCommand : list string;
  ss_IdleSeconds : Z;
  ss_LifetimeSeconds : Z;
  ss_CallTimeoutSeconds : Z;
}.

Record Serverless : Type := mkServerless {
  sl_MinReplicas : Z;
  sl_IdleSeconds : Z;
  sl_StartupTimeoutSeconds : Z;
  sl_RequestTimeoutSeconds : Z;
  sl_MaxConcurrency : Z;
}.

Record GitLabTarget : Type := mkGitLabTarget {
  glt_URL : string;
  glt_ProjectID : Z;
  glt_GroupID : Z;
  glt_TrustPolicy : string;
}.

Record BitbucketTarget : Type := mkBitbucketTarget {
  bbt_Workspace : string;
  bbt_Repository : string;
}.

Record ActionsCache : Type := mkActionsCache {
  ac_Credential : string;
}.

Record Actions : Type := mkActions {
  act_Provider : string;
  act_Repository : string;
  act_Organization : string;
  act_RunnerGroupID : Z;
  act_GitLab : option GitLabTarget;
  act_Bitbucket : option BitbucketTarget;
  act_Credential : string;
  act_JobsCredential : string;
  act_Labels : list string;
  act_TimeoutMinutes : Z;
  act_WorkspaceSizeGiB : Z;
  act_Cache : option ActionsCache;
  act_IdleSeconds : Z;
  act_MinReplicas : Z;
}.

Record Service : Type := mkService {
  svc_Session : option SandboxSession;
  svc_Actions : option Actions;
  svc_Serverless : option Serverless;
  svc_NodeName : string;
  svc_Resources : option Resources;
  svc_Suspended : bool;
  svc_Job : option Job;
  svc_Files : gmap string File;
  svc_Bindings : gmap string Binding;
  svc_DatabaseClientProfiles : gmap string string;
  svc_HTTP : gmap string HTTPEndpoint;
  svc_Architecture : string;
  svc_Volume : option Volume;
  svc_GPU : option GPU;
  svc_RunAsUser : Z;
  svc_RunAsGroup : Z;
  svc_FSGroup : Z;
  svc_ReadOnlyRootFilesystem : bool;
  svc_WorkingDir : string;
  svc_TerminationGraceSeconds : Z;
  svc_CertificateMounts : list CertificateMount;
  svc_Mounts : list Mount;
  svc_TemporaryMounts : list TemporaryMount;
  svc_Image : string;
  svc_Port : Z;
  svc_PublicTCP : list PublicTCPListener;
  svc_Ports : list Port;
  svc_NetworkAccess : option NetworkAccess;
  svc_Public : bool;
  svc_Size : string;
  svc_Replicas : Z;
  svc_UpdateStrategy : string;
  svc_Readiness : option Readiness;
  svc_Healthcheck : string;
  svc_StartupTimeoutSeconds : Z;
  svc_Env : gmap string string;
  svc_Command : list string;
  svc_Args : list string;
  svc_DependsOn : list string;
  svc_Networks : option (list string);
  svc_PrivateEgress : list string;
  svc_Secrets : gmap string SecretRef;
  svc_Autoscaling : option Autoscaling;
  svc_RestartNonce : string;
  svc_RegistryCredential : string;
  svc_AWSIdentity : string;
  svc_ContainerDaemon : string;
  svc_RuntimeProfile : string;
  svc_NodeProfile : string;
  svc_Sidecars : list Sidecar;
  svc_TLS : option TLSConfig;
  svc_BackendHTTP2 : bool;
  svc_IngressTimeoutSeconds : Z;
  svc_CustomHostnames : option CustomHostnames;
  svc_Kubernetes : option KubernetesPatches;
}.

Record Application : Type := mkApplication {
  app_InjectEnv : bool;
  app_Secrets : gmap string SecretRef;
  app_Env : gmap string string;
  app_Recovery : option RecoveryPolicy;
  app_SchemaVersion : Z;
  app_Name : string;
  app_Services : option (gmap string Service);
  app_Networks : gmap string Network;
  app_Volumes : gmap string NamedVolume;
  app_Domains : gmap string string;
}.

(** ** Field assignment, [x.F = v] *)

Definition set_nv_SizeGiB (v : Z) (x : NamedVolume) : NamedVolume :=
  mkNamedVolume v x.(nv_StorageClass) x.(nv_AccessMode).
Definition set_nv_AccessMode (v : string) (x : NamedVolume) : NamedVolume :=
  mkNamedVolume x.(nv_SizeGiB) x.(nv_StorageClass) v.

Definition set_res_CPURequest (v : string) (x : Resources) : Resources :=
  mkResources v x.(res_CPULimit) x.(res_MemoryRequest) x.(res_MemoryLimit).
Definition set_res_CPULimit (v : string) (x : Resources) : Resources :=
  mkResources x.(res_CPURequest) v x.(res_MemoryRequest) x.(res_MemoryLimit).
Definition set_res_MemoryRequest (v : string) (x : Resources) : Resources :=
  mkResources x.(res_CPURequest) x.(res_CPULimit) v x.(res_MemoryLimit).
Definition set_res_MemoryLimit (v : string) (x : Resources) : Resources :=
  mkResources x.(res_CPURequest) x.(res_CPULimit) x.(res_MemoryRequest) v.

Definition set_js_Timezone (v : string) (x : JobSchedule) : JobSchedule :=
  mkJobSchedule x.(js_Cron) v x.(js_HistoryLimit).
Definition set_js_HistoryLimit (v : Z) (x : JobSchedule) : JobSchedule :=
  mkJobSchedule x.(js_Cron) x.(js_Timezone) v.

Definition set_ji_MaxInputBytes (v : Z) (x : JobInvocation) : JobInvocation :=
  mkJobInvocation x.(ji_AllowedIdentities) x.(ji_InputKeys) v x.(ji_QueueLimit).
Definition set_ji_QueueLimit (v : Z) (x : JobInvocation) : JobInvocation :=
  mkJobInvocation x.(ji_AllowedIdentities) x.(ji_InputKeys) x.(ji_MaxInputBytes) v.

Definition set_job_Invocation (v : option JobInvocation) (x : Job) : Job :=
  mkJob v x.(job_Schedule) x.(job_TimeoutSeconds) x.(job_Retries).
Definition set_job_Schedule (v : option JobSchedule) (x : Job) : Job :=
  mkJob x.(job_Invocation) v x.(job_TimeoutSeconds) x.(job_Retries).
Definition set_job_TimeoutSeconds (v : Z) (x : Job) : Job :=
  mkJob x.(job_Invocation) x.(job_Schedule) v x.(job_Retries).

Definition set_file_Mode (v : Z) (x : File) : File :=
  mkFile x.(file_MountPath) x.(file_Content) x.(file_Secret) v.

Definition set_mt_Volume (v : string) (x : Mount) : Mount :=
  mkMount v x.(mt_MountPath) x.(mt_ReadOnly) x.(mt_SubPath).
Definition set_mt_SubPath (v : string) (x : Mount) : Mount :=
  mkMount x.(mt_Volume) x.(mt_MountPath) x.(mt_ReadOnly) v.

Definition set_pl_SourceCIDRs (v : list string) (x : PublicTCPListener) : PublicTCPListener :=
  mkPublicTCPListener x.(pl_Port) x.(pl_TargetPort) v.

Definition set_port_TargetPort (v : Z) (x : Port) : Port :=
  mkPort x.(port_Name) x.(port_Port) v x.(port_Protocol).
Definition set_port_Protocol (v : string) (x : Port) : Port :=
  mkPort x.(port_Name) x.(port_Port) x.(port_TargetPort) v.

Definition set_na_From (v : option (list string)) (x : NetworkAccess) : NetworkAccess :=
  mkNetworkAccess v x.(na_FromApplications).
Definition set_na_FromApplications (v : list string) (x : NetworkAccess) : NetworkAccess :=
  mkNetworkAccess x.(na_From) v.

Definition set_rd_PeriodSeconds (v : Z) (x : Readiness) : Readiness :=
  mkReadiness x.(rd_Protocol) x.(rd_Port) x.(rd_TLSServerName) x.(rd_TLSCAFile) v
    x.(rd_TimeoutSeconds) x.(rd_FailureThreshold).
Definition set_rd_TimeoutSeconds (v : Z) (x : Readiness) : Readiness :=
  mkReadiness x.(rd_Protocol) x.(rd_Port) x.(rd_TLSServerName) x.(rd_TLSCAFile)
    x.(rd_PeriodSeconds) v x.(rd_FailureThreshold).
Definition set_rd_FailureThreshold (v : Z) (x : Readiness) : Readiness :=
  mkReadiness x.(rd_Protocol) x.(rd_Port) x.(rd_TLSServerName) x.(rd_TLSCAFile)
    x.(rd_PeriodSeconds) x.(rd_TimeoutSeconds) v.

Definition set_as_MinReplicas (v : Z) (x : Autoscaling) : Autoscaling :=
  mkAutoscaling v x.(as_MaxReplicas) x.(as_TargetCPU).
Definition set_as_TargetCPU (v : Z) (x : Autoscaling) : Autoscaling :=
  mkAutoscaling x.(as_MinReplicas) x.(as_MaxReplicas) v.

Definition set_sc_CPU (v : string) (x : Sidecar) : Sidecar :=
  mkSidecar x.(sc_Name) x.(sc_Image) x.(sc_Command) x.(sc_Args) x.(sc_Env) x.(sc_Secrets) v
    x.(sc_Memory) x.(sc_Mounts).
Definition set_sc_Memory (v : string) (x : Sidecar) : Sidecar :=
  mkSidecar x.(sc_Name) x.(sc_Image) x.(sc_Command) x.(sc_Args) x.(sc_Env) x.(sc_Secrets)
    x.(sc_CPU) v x.(sc_Mounts).
Definition set_sc_Env (v : gmap string string) (x : Sidecar) : Sidecar :=
  mkSidecar x.(sc_Name) x.(sc_Image) x.(sc_Command) x.(sc_Args) v x.(sc_Secrets) x.(sc_CPU)
    x.(sc_Memory) x.(sc_Mounts).

Definition set_ss_IdleSeconds (v : Z) (x : SandboxSession) : SandboxSession :=
  mkSandboxSession x.(ss_AllowedIdentities) x.(ss_HelperCommand) x.(ss_ReadyCommand) v
    x.(ss_LifetimeSeconds) x.(ss_CallTimeoutSeconds).
Definition set_ss_LifetimeSeconds (v : Z) (x : SandboxSession) : SandboxSession :=
  mkSandboxSession x.(ss_AllowedIdentities) x.(ss_HelperCommand) x.(ss_ReadyCommand)
    x.(ss_IdleSeconds) v x.(ss_CallTimeoutSeconds).
Definition set_ss_CallTimeoutSeconds (v : Z) (x : SandboxSession) : SandboxSession :=
  mkSandboxSession x.(ss_AllowedIdentities) x.(ss_HelperCommand) x.(ss_ReadyCommand)
    x.(ss_IdleSeconds) x.(ss_LifetimeSeconds) v.

Definition set_sl_IdleSeconds (v : Z) (x : Serverless) : Serverless :=
  mkServerless x.(sl_MinReplicas) v x.(sl_StartupTimeoutSeconds) x.(sl_RequestTimeoutSeconds)
    x.(sl_MaxConcurrency).
Definition set_sl_StartupTimeoutSeconds (v : Z) (x : Serverless) : Serverless :=
  mkServerless x.(sl_MinReplicas) x.(sl_IdleSeconds) v x.(sl_RequestTimeoutSeconds)
    x.(sl_MaxConcurrency).
Definition set_sl_RequestTimeoutSeconds (v : Z) (x : Serverless) : Serverless :=
  mkServerless x.(sl_MinReplicas) x.(sl_IdleSeconds) x.(sl_StartupTimeoutSeconds) v
    x.(sl_MaxConcurrency).
Definition set_sl_MaxConcurrency (v : Z) (x : Serverless) : Serverless :=
  mkServerless x.(sl_MinReplicas) x.(sl_IdleSeconds) x.(sl_StartupTimeoutSeconds)
    x.(sl_RequestTimeoutSeconds) v.

Definition set_glt_URL (v : string) (x : GitLabTarget) : GitLabTarget :=
  mkGitLabTarget v x.(glt_ProjectID) x.(glt_GroupID) x.(glt_TrustPolicy).

Definition set_bbt_Workspace (v : string) (x : BitbucketTarget) : BitbucketTarget :=
  mkBitbucketTarget v x.(bbt_Repository).
Definition set_bbt_Repository (v : string) (x : BitbucketTarget) : BitbucketTarget :=
  mkBitbucketTarget x.(bbt_Workspace) v.

Definition set_act_Provider (v : string) (x : Actions) : Actions :=
  mkActions v x.(act_Repository) x.(act_Organization) x.(act_RunnerGroupID) x.(act_GitLab)
    x.(act_Bitbucket) x.(act_Credential) x.(act_JobsCredential) x.(act_Labels)
    x.(act_TimeoutMinutes) x.(act_WorkspaceSizeGiB) x.(act_Cache) x.(act_IdleSeconds)
    x.(act_MinReplicas).
Definition set_act_GitLab (v : option GitLabTarget) (x : Actions) : Actions :=
  mkActions x.(act_Provider) x.(act_Repository) x.(act_Organization) x.(act_RunnerGroupID) v
    x.(act_Bitbucket) x.(act_Credential) x.(act_JobsCredential) x.(act_Labels)
    x.(act_TimeoutMinutes) x.(act_WorkspaceSizeGiB) x.(act_Cache) x.(act_IdleSeconds)
    x.(act_MinReplicas).
Definition set_act_Bitbucket (v : option BitbucketTarget) (x : Actions) : Actions :=
  mkActions x.(act_Provider) x.(act_Repository) x.(act_Organization) x.(act_RunnerGroupID)
    x.(act_GitLab) v x.(act_Credential) x.(act_JobsCredential) x.(act_Labels)
    x.(act_TimeoutMinutes) x.(act_WorkspaceSizeGiB) x.(act_Cache) x.(act_IdleSeconds)
    x.(act_MinReplicas).
Definition set_act_Labels (v : list string) (x : Actions) : Actions :=
  mkActions x.(act_Provider) x.(act_Repository) x.(act_Organization) x.(act_RunnerGroupID)
    x.(act_GitLab) x.(act_Bitbucket) x.(act_Credential) x.(act_JobsCredential) v
    x.(act_TimeoutMinutes) x.(act_WorkspaceSizeGiB) x.(act_Cache) x.(act_IdleSeconds)
    x.(act_MinReplicas).
Definition set_act_TimeoutMinutes (v : Z) (x : Actions) : Actions :=
  mkActions x.(act_Provider) x.(act_Repository) x.(act_Organization) x.(act_RunnerGroupID)
    x.(act_GitLab) x.(act_Bitbucket) x.(act_Credential) x.(act_JobsCredential) x.(act_Labels) v
    x.(act_WorkspaceSizeGiB) x.(act_Cache) x.(act_IdleSeconds) x.(act_MinReplicas).

Definition set_svc_Session (v : option SandboxSession) (x : Service) : Service :=
  mkService v x.(svc_Actions) x.(svc_Serverless) x.(svc_NodeName) x.(svc_Resources)
    x.(svc_Suspended) x.(svc_Job) x.(svc_Files) x.(svc_Bindings) x.(svc_DatabaseClientProfiles)
    x.(svc_HTTP) x.(svc_Architecture) x.(svc_Volume) x.(svc_GPU) x.(svc_RunAsUser)
    x.(svc_RunAsGroup) x.(svc_FSGroup) x.(svc_ReadOnlyRootFilesystem) x.(svc_WorkingDir)
    x.(svc_TerminationGraceSeconds) x.(svc_CertificateMounts) x.(svc_Mounts)
    x.(svc_TemporaryMounts) x.(svc_Image) x.(svc_Port) x.(svc_PublicTCP) x.(svc_Ports)
    x.(svc_NetworkAccess) x.(svc_Public) x.(svc_Size) x.(svc_Replicas) x.(svc_UpdateStrategy)
    x.(svc_Readiness) x.(svc_Healthcheck) x.(svc_StartupTimeoutSeconds) x.(svc_Env)
    x.(svc_Command) x.(svc_Args) x.(svc_DependsOn) x.(svc_Networks) x.(svc_PrivateEgress)
    x.(svc_Secrets) x.(svc_Autoscaling) x.(svc_RestartNonce) x.(svc_RegistryCredential)
    x.(svc_AWSIdentity) x.(svc_ContainerDaemon) x.(svc_RuntimeProfile) x.(svc_NodeProfile)
    x.(svc_Sidecars) x.(svc_TLS) x.(svc_BackendHTTP2) x.(svc_IngressTimeoutSeconds)
    x.(svc_CustomHostnames) x.(svc_Kubernetes).
Definition set_svc_Actions (v : option Actions) (x : Service) : Service :=
  mkService x.(svc_Session) v x.(svc_Serverless) x.(svc_NodeName) x.(svc_Resources)
    x.(svc_Suspended) x.(svc_Job) x.(svc_Files) x.(svc_Bindings) x.(svc_DatabaseClientProfiles)
    x.(svc_HTTP) x.(svc_Architecture) x.(svc_Volume) x.(svc_GPU) x.(svc_RunAsUser)
    x.(svc_RunAsGroup) x.(svc_FSGroup) x.(svc_ReadOnlyRootFilesystem) x.(svc_WorkingDir)
    x.(svc_TerminationGraceSeconds) x.(svc_CertificateMounts) x.(svc_Mounts)
    x.(svc_TemporaryMounts) x.(svc_Image) x.(svc_Port) x.(svc_PublicTCP) x.(svc_Ports)
    x.(svc_NetworkAccess) x.(svc_Public) x.(svc_Size) x.(svc_Replicas) x.(svc_UpdateStrategy)
    x.(svc_Readiness) x.(svc_Healthcheck) x.(svc_StartupTimeoutSeconds) x.(svc_Env)
    x.(svc_Command) x.(svc_Args) x.(svc_DependsOn) x.(svc_Networks) x.(svc_PrivateEgress)
    x.(svc_Secrets) x.(svc_Autoscaling) x.(svc_RestartNonce) x.(svc_RegistryCredential)
    x.(svc_AWSIdentity) x.(svc_ContainerDaemon) x.(svc_RuntimeProfile) x.(svc_NodeProfile)
    x.(svc_Sidecars) x.(svc_TLS) x.(svc_BackendHTTP2) x.(svc_IngressTimeoutSeconds)
    x.(svc_CustomHostnames) x.(svc_Kubernetes).
Definition set_svc_Serverless (v : option Serverless) (x : Service) : Service :=
  mkService x.(svc_Session) x.(svc_Actions) v x.(svc_NodeName) x.(svc_Resources)
    x.(svc_Suspended) x.(svc_Job) x.(svc_Files) x.(svc_Bindings) x.(svc_DatabaseClientProfiles)
    x.(svc_HTTP) x.(svc_Architecture) x.(svc_Volume) x.(svc_GPU) x.(svc_RunAsUser)
    x.(svc_RunAsGroup) x.(svc_FSGroup) x.(svc_ReadOnlyRootFilesystem) x.(svc_WorkingDir)
    x.(svc_TerminationGraceSeconds) x.(svc_CertificateMounts) x.(svc_Mounts)
    x.(svc_TemporaryMounts) x.(svc_Image) x.(svc_Port) x.(svc_PublicTCP) x.(svc_Ports)
    x.(svc_NetworkAccess) x.(svc_Public) x.(svc_Size) x.(svc_Replicas) x.(svc_UpdateStrategy)
    x.(svc_Readiness) x.(svc_Healthcheck) x.(svc_StartupTimeoutSeconds) x.(svc_Env)
    x.(svc_Command) x.(svc_Args) x.(svc_DependsOn) x.(svc_Networks) x.(svc_PrivateEgress)
    x.(svc_Secrets) x.(svc_Autoscaling) x.(svc_RestartNonce) x.(svc_RegistryCredential)
    x.(svc_AWSIdentity) x.(svc_ContainerDaemon) x.(svc_RuntimeProfile) x.(svc_NodeProfile)
    x.(svc_Sidecars) x.(svc_TLS) x.(svc_BackendHTTP2) x.(svc_IngressTimeoutSeconds)
    x.(svc_CustomHostnames) x.(svc_Kubernetes).
Definition set_svc_NodeName (v : string) (x : Service) : Service :=
  mkService x.(svc_Session) x.(svc_Actions) x.(svc_Serverless) v x.(svc_Resources)
    x.(svc_Suspended) x.(svc_Job) x.(svc_Files) x.(svc_Bindings) x.(svc_DatabaseClientProfiles)
    x.(svc_HTTP) x.(svc_Architecture) x.(svc_Volume) x.(svc_GPU) x.(svc_RunAsUser)
    x.(svc_RunAsGroup) x.(svc_FSGroup) x.(svc_ReadOnlyRootFilesystem) x.(svc_WorkingDir)
    x.(svc_TerminationGraceSeconds) x.(svc_CertificateMounts) x.(svc_Mounts)
    x.(svc_TemporaryMounts) x.(svc_Image) x.(svc_Port) x.(svc_PublicTCP) x.(svc_Ports)
    x.(svc_NetworkAccess) x.(svc_Public) x.(svc_Size) x.(svc_Replicas) x.(svc_UpdateStrategy)
    x.(svc_Readiness) x.(svc_Healthcheck) x.(svc_StartupTimeoutSeconds) x.(svc_Env)
    x.(svc_Command) x.(svc_Args) x.(svc_DependsOn) x.(svc_Networks) x.(svc_PrivateEgress)
    x.(svc_Secrets) x.(svc_Autoscaling) x.(svc_RestartNonce) x.(svc_RegistryCredential)
    x.(svc_AWSIdentity) x.(svc_ContainerDaemon) x.(svc_RuntimeProfile) x.(svc_NodeProfile)
    x.(svc_Sidecars) x.(svc_TLS) x.(svc_BackendHTTP2) x.(svc_IngressTimeoutSeconds)
    x.(svc_CustomHostnames) x.(svc_Kubernetes).
Definition set_svc_Resources (v : option Resources) (x : Service) : Service :=
  mkService x.(svc_Session) x.(svc_Actions) x.(svc_Serverless) x.(svc_NodeName) v
    x.(svc_Suspended) x.(svc_Job) x.(svc_Files) x.(svc_Bindings) x.(svc_DatabaseClientProfiles)
    x.(svc_HTTP) x.(svc_Architecture) x.(svc_Volume) x.(svc_GPU) x.(svc_RunAsUser)
    x.(svc_RunAsGroup) x.(svc_FSGroup) x.(svc_ReadOnlyRootFilesystem) x.(svc_WorkingDir)
    x.(svc_TerminationGraceSeconds) x.(svc_CertificateMounts) x.(svc_Mounts)
    x.(svc_TemporaryMounts) x.(svc_Image) x.(svc_Port) x.(svc_PublicTCP) x.(svc_Ports)
    x.(svc_NetworkAccess) x.(svc_Public) x.(svc_Size) x.(svc_Replicas) x.(svc_UpdateStrategy)
    x.(svc_Readiness) x.(svc_Healthcheck) x.(svc_StartupTimeoutSeconds) x.(svc_Env)
    x.(svc_Command) x.(svc_Args) x.(svc_DependsOn) x.(svc_Networks) x.(svc_PrivateEgress)
    x.(svc_Secrets) x.(svc_Autoscaling) x.(svc_RestartNonce) x.(svc_RegistryCredential)
    x.(svc_AWSIdentity) x.(svc_ContainerDaemon) x.(svc_RuntimeProfile) x.(svc_NodeProfile)
    x.(svc_Sidecars) x.(svc_TLS) x.(svc_BackendHTTP2) x.(svc_IngressTimeoutSeconds)
    x.(svc_CustomHostnames) x.(svc_Kubernetes).
Definition set_svc_Suspended (v : bool) (x : Service) : Service :=
  mkService x.(svc_Session) x.(svc_Actions) x.(svc_Serverless) x.(svc_NodeName)
    x.(svc_Resources) v x.(svc_Job) x.(svc_Files) x.(svc_Bindings)
    x.(svc_DatabaseClientProfiles) x.(svc_HTTP) x.(svc_Architecture) x.(svc_Volume) x.(svc_GPU)
    x.(svc_RunAsUser) x.(svc_RunAsGroup) x.(svc_FSGroup) x.(svc_ReadOnlyRootFilesystem)
    x.(svc_WorkingDir) x.(svc_TerminationGraceSeconds) x.(svc_CertificateMounts) x.(svc_Mounts)
    x.(svc_TemporaryMounts) x.(svc_Image) x.(svc_Port) x.(svc_PublicTCP) x.(svc_Ports)
    x.(svc_NetworkAccess) x.(svc_Public) x.(svc_Size) x.(svc_Replicas) x.(svc_UpdateStrategy)
    x.(svc_Readiness) x.(svc_Healthcheck) x.(svc_StartupTimeoutSeconds) x.(svc_Env)
    x.(svc_Command) x.(svc_Args) x.(svc_DependsOn) x.(svc_Networks) x.(svc_PrivateEgress)
    x.(svc_Secrets) x.(svc_Autoscaling) x.(svc_RestartNonce) x.(svc_RegistryCredential)
    x.(svc_AWSIdentity) x.(svc_ContainerDaemon) x.(svc_RuntimeProfile) x.(svc_NodeProfile)
    x.(svc_Sidecars) x.(svc_TLS) x.(svc_BackendHTTP2) x.(svc_IngressTimeoutSeconds)
    x.(svc_CustomHostnames) x.(svc_Kubernetes).
Definition set_svc_Job (v : option Job) (x : Service) : Service :=
  mkService x.(svc_Session) x.(svc_Actions) x.(svc_Serverless) x.(svc_NodeName)
    x.(svc_Resources) x.(svc_Suspended) v x.(svc_Files) x.(svc_Bindings)
    x.(svc_DatabaseClientProfiles) x.(svc_HTTP) x.(svc_Architecture) x.(svc_Volume) x.(svc_GPU)
    x.(svc_RunAsUser) x.(svc_RunAsGroup) x.(svc_FSGroup) x.(svc_ReadOnlyRootFilesystem)
    x.(svc_WorkingDir) x.(svc_TerminationGraceSeconds) x.(svc_CertificateMounts) x.(svc_Mounts)
    x.(svc_TemporaryMounts) x.(svc_Image) x.(svc_Port) x.(svc_PublicTCP) x.(svc_Ports)
    x.(svc_NetworkAccess) x.(svc_Public) x.(svc_Size) x.(svc_Replicas) x.(svc_UpdateStrategy)
    x.(svc_Readiness) x.(svc_Healthcheck) x.(svc_StartupTimeoutSeconds) x.(svc_Env)
    x.(svc_Command) x.(svc_Args) x.(svc_DependsOn) x.(svc_Networks) x.(svc_PrivateEgress)
    x.(svc_Secrets) x.(svc_Autoscaling) x.(svc_RestartNonce) x.(svc_RegistryCredential)
    x.(svc_AWSIdentity) x.(svc_ContainerDaemon) x.(svc_RuntimeProfile) x.(svc_NodeProfile)
    x.(svc_Sidecars) x.(svc_TLS) x.(svc_BackendHTTP2) x.(svc_IngressTimeoutSeconds)
    x.(svc_CustomHostnames) x.(svc_Kubernetes).
Definition set_svc_Files (v : gmap string File) (x : Service) : Service :=
  mkService x.(svc_Session) x.(svc_Actions) x.(svc_Serverless) x.(svc_NodeName)
    x.(svc_Resources) x.(svc_Suspended) x.(svc_Job) v x.(svc_Bindings)
    x.(svc_DatabaseClientProfiles) x.(svc_HTTP) x.(svc_Architecture) x.(svc_Volume) x.(svc_GPU)
    x.(svc_RunAsUser) x.(svc_RunAsGroup) x.(svc_FSGroup) x.(svc_ReadOnlyRootFilesystem)
    x.(svc_WorkingDir) x.(svc_TerminationGraceSeconds) x.(svc_CertificateMounts) x.(svc_Mounts)
    x.(svc_TemporaryMounts) x.(svc_Image) x.(svc_Port) x.(svc_PublicTCP) x.(svc_Ports)
    x.(svc_NetworkAccess) x.(svc_Public) x.(svc_Size) x.(svc_Replicas) x.(svc_UpdateStrategy)
    x.(svc_Readiness) x.(svc_Healthcheck) x.(svc_StartupTimeoutSeconds) x.(svc_Env)
    x.(svc_Command) x.(svc_Args) x.(svc_DependsOn) x.(svc_Networks) x.(svc_PrivateEgress)
    x.(svc_Secrets) x.(svc_Autoscaling) x.(svc_RestartNonce) x.(svc_RegistryCredential)
    x.(svc_AWSIdentity) x.(svc_ContainerDaemon) x.(svc_RuntimeProfile) x.(svc_NodeProfile)
    x.(svc_Sidecars) x.(svc_TLS) x.(svc_BackendHTTP2) x.(svc_IngressTimeoutSeconds)
    x.(svc_CustomHostnames) x.(svc_Kubernetes).
Definition set_svc_Bindings (v : gmap string Binding) (x : Service) : Service :=
  mkService x.(svc_Session) x.(svc_Actions) x.(svc_Serverless) x.(svc_NodeName)
    x.(svc_Resources) x.(svc_Suspended) x.(svc_Job) x.(svc_Files) v
    x.(svc_DatabaseClientProfiles) x.(svc_HTTP) x.(svc_Architecture) x.(svc_Volume) x.(svc_GPU)
    x.(svc_RunAsUser) x.(svc_RunAsGroup) x.(svc_FSGroup) x.(svc_ReadOnlyRootFilesystem)
    x.(svc_WorkingDir) x.(svc_TerminationGraceSeconds) x.(svc_CertificateMounts) x.(svc_Mounts)
    x.(svc_TemporaryMounts) x.(svc_Image) x.(svc_Port) x.(svc_PublicTCP) x.(svc_Ports)
    x.(svc_NetworkAccess) x.(svc_Public) x.(svc_Size) x.(svc_Replicas) x.(svc_UpdateStrategy)
    x.(svc_Readiness) x.(svc_Healthcheck) x.(svc_StartupTimeoutSeconds) x.(svc_Env)
    x.(svc_Command) x.(svc_Args) x.(svc_DependsOn) x.(svc_Networks) x.(svc_PrivateEgress)
    x.(svc_Secrets) x.(svc_Autoscaling) x.(svc_RestartNonce) x.(svc_RegistryCredential)
    x.(svc_AWSIdentity) x.(svc_ContainerDaemon) x.(svc_RuntimeProfile) x.(svc_NodeProfile)
    x.(svc_Sidecars) x.(svc_TLS) x.(svc_BackendHTTP2) x.(svc_IngressTimeoutSeconds)
    x.(svc_CustomHostnames) x.(svc_Kubernetes).
Definition set_svc_HTTP (v : gmap string HTTPEndpoint) (x : Service) : Service :=
  mkService x.(svc_Session) x.(svc_Actions) x.(svc_Serverless) x.(svc_NodeName)
    x.(svc_Resources) x.(svc_Suspended) x.(svc_Job) x.(svc_Files) x.(svc_Bindings)
    x.(svc_DatabaseClientProfiles) v x.(svc_Architecture) x.(svc_Volume) x.(svc_GPU)
    x.(svc_RunAsUser) x.(svc_RunAsGroup) x.(svc_FSGroup) x.(svc_ReadOnlyRootFilesystem)
    x.(svc_WorkingDir) x.(svc_TerminationGraceSeconds) x.(svc_CertificateMounts) x.(svc_Mounts)
    x.(svc_TemporaryMounts) x.(svc_Image) x.(svc_Port) x.(svc_PublicTCP) x.(svc_Ports)
    x.(svc_NetworkAccess) x.(svc_Public) x.(svc_Size) x.(svc_Replicas) x.(svc_UpdateStrategy)
    x.(svc_Readiness) x.(svc_Healthcheck) x.(svc_StartupTimeoutSeconds) x.(svc_Env)
    x.(svc_Command) x.(svc_Args) x.(svc_DependsOn) x.(svc_Networks) x.(svc_PrivateEgress)
    x.(svc_Secrets) x.(svc_Autoscaling) x.(svc_RestartNonce) x.(svc_RegistryCredential)
    x.(svc_AWSIdentity) x.(svc_ContainerDaemon) x.(svc_RuntimeProfile) x.(svc_NodeProfile)
    x.(svc_Sidecars) x.(svc_TLS) x.(svc_BackendHTTP2) x.(svc_IngressTimeoutSeconds)
    x.(svc_CustomHostnames) x.(svc_Kubernetes).
Definition set_svc_Architecture (v : string) (x : Service) : Service :=
  mkService x.(svc_Session) x.(svc_Actions) x.(svc_Serverless) x.(svc_NodeName)
    x.(svc_Resources) x.(svc_Suspended) x.(svc_Job) x.(svc_Files) x.(svc_Bindings)
    x.(svc_DatabaseClientProfiles) x.(svc_HTTP) v x.(svc_Volume) x.(svc_GPU) x.(svc_RunAsUser)
    x.(svc_RunAsGroup) x.(svc_FSGroup) x.(svc_ReadOnlyRootFilesystem) x.(svc_WorkingDir)
    x.(svc_TerminationGraceSeconds) x.(svc_CertificateMounts) x.(svc_Mounts)
    x.(svc_TemporaryMounts) x.(svc_Image) x.(svc_Port) x.(svc_PublicTCP) x.(svc_Ports)
    x.(svc_NetworkAccess) x.(svc_Public) x.(svc_Size) x.(svc_Replicas) x.(svc_UpdateStrategy)
    x.(svc_Readiness) x.(svc_Healthcheck) x.(svc_StartupTimeoutSeconds) x.(svc_Env)
    x.(svc_Command) x.(svc_Args) x.(svc_DependsOn) x.(svc_Networks) x.(svc_PrivateEgress)
    x.(svc_Secrets) x.(svc_Autoscaling) x.(svc_RestartNonce) x.(svc_RegistryCredential)
    x.(svc_AWSIdentity) x.(svc_ContainerDaemon) x.(svc_RuntimeProfile) x.(svc_NodeProfile)
    x.(svc_Sidecars) x.(svc_TLS) x.(svc_BackendHTTP2) x.(svc_IngressTimeoutSeconds)
    x.(svc_CustomHostnames) x.(svc_Kubernetes).
Definition set_svc_Volume (v : option Volume) (x : Service) : Service :=
  mkService x.(svc_Session) x.(svc_Actions) x.(svc_Serverless) x.(svc_NodeName)
    x.(svc_Resources) x.(svc_Suspended) x.(svc_Job) x.(svc_Files) x.(svc_Bindings)
    x.(svc_DatabaseClientProfiles) x.(svc_HTTP) x.(svc_Architecture) v x.(svc_GPU)
    x.(svc_RunAsUser) x.(svc_RunAsGroup) x.(svc_FSGroup) x.(svc_ReadOnlyRootFilesystem)
    x.(svc_WorkingDir) x.(svc_TerminationGraceSeconds) x.(svc_CertificateMounts) x.(svc_Mounts)
    x.(svc_TemporaryMounts) x.(svc_Image) x.(svc_Port) x.(svc_PublicTCP) x.(svc_Ports)
    x.(svc_NetworkAccess) x.(svc_Public) x.(svc_Size) x.(svc_Replicas) x.(svc_UpdateStrategy)
    x.(svc_Readiness) x.(svc_Healthcheck) x.(svc_StartupTimeoutSeconds) x.(svc_Env)
    x.(svc_Command) x.(svc_Args) x.(svc_DependsOn) x.(svc_Networks) x.(svc_PrivateEgress)
    x.(svc_Secrets) x.(svc_Autoscaling) x.(svc_RestartNonce) x.(svc_RegistryCredential)
    x.(svc_AWSIdentity) x.(svc_ContainerDaemon) x.(svc_RuntimeProfile) x.(svc_NodeProfile)
    x.(svc_Sidecars) x.(svc_TLS) x.(svc_BackendHTTP2) x.(svc_IngressTimeoutSeconds)
    x.(svc_CustomHostnames) x.(svc_Kubernetes).
Definition set_svc_Mounts (v : list Mount) (x : Service) : Service :=
  mkService x.(svc_Session) x.(svc_Actions) x.(svc_Serverless) x.(svc_NodeName)
    x.(svc_Resources) x.(svc_Suspended) x.(svc_Job) x.(svc_Files) x.(svc_Bindings)
    x.(svc_DatabaseClientProfiles) x.(svc_HTTP) x.(svc_Architecture) x.(svc_Volume) x.(svc_GPU)
    x.(svc_RunAsUser) x.(svc_RunAsGroup) x.(svc_FSGroup) x.(svc_ReadOnlyRootFilesystem)
    x.(svc_WorkingDir) x.(svc_TerminationGraceSeconds) x.(svc_CertificateMounts) v
    x.(svc_TemporaryMounts) x.(svc_Image) x.(svc_Port) x.(svc_PublicTCP) x.(svc_Ports)
    x.(svc_NetworkAccess) x.(svc_Public) x.(svc_Size) x.(svc_Replicas) x.(svc_UpdateStrategy)
    x.(svc_Readiness) x.(svc_Healthcheck) x.(svc_StartupTimeoutSeconds) x.(svc_Env)
    x.(svc_Command) x.(svc_Args) x.(svc_DependsOn) x.(svc_Networks) x.(svc_PrivateEgress)
    x.(svc_Secrets) x.(svc_Autoscaling) x.(svc_RestartNonce) x.(svc_RegistryCredential)
    x.(svc_AWSIdentity) x.(svc_ContainerDaemon) x.(svc_RuntimeProfile) x.(svc_NodeProfile)
    x.(svc_Sidecars) x.(svc_TLS) x.(svc_BackendHTTP2) x.(svc_IngressTimeoutSeconds)
    x.(svc_CustomHostnames) x.(svc_Kubernetes).
Definition set_svc_Image (v : string) (x : Service) : Service :=
  mkService x.(svc_Session) x.(svc_Actions) x.(svc_Serverless) x.(svc_NodeName)
    x.(svc_Resources) x.(svc_Suspended) x.(svc_Job) x.(svc_Files) x.(svc_Bindings)
    x.(svc_DatabaseClientProfiles) x.(svc_HTTP) x.(svc_Architecture) x.(svc_Volume) x.(svc_GPU)
    x.(svc_RunAsUser) x.(svc_RunAsGroup) x.(svc_FSGroup) x.(svc_ReadOnlyRootFilesystem)
    x.(svc_WorkingDir) x.(svc_TerminationGraceSeconds) x.(svc_CertificateMounts) x.(svc_Mounts)
    x.(svc_TemporaryMounts) v x.(svc_Port) x.(svc_PublicTCP) x.(svc_Ports) x.(svc_NetworkAccess)
    x.(svc_Public) x.(svc_Size) x.(svc_Replicas) x.(svc_UpdateStrategy) x.(svc_Readiness)
    x.(svc_Healthcheck) x.(svc_StartupTimeoutSeconds) x.(svc_Env) x.(svc_Command) x.(svc_Args)
    x.(svc_DependsOn) x.(svc_Networks) x.(svc_PrivateEgress) x.(svc_Secrets) x.(svc_Autoscaling)
    x.(svc_RestartNonce) x.(svc_RegistryCredential) x.(svc_AWSIdentity) x.(svc_ContainerDaemon)
    x.(svc_RuntimeProfile) x.(svc_NodeProfile) x.(svc_Sidecars) x.(svc_TLS) x.(svc_BackendHTTP2)
    x.(svc_IngressTimeoutSeconds) x.(svc_CustomHostnames) x.(svc_Kubernetes).
Definition set_svc_Port (v : Z) (x : Service) : Service :=
  mkService x.(svc_Session) x.(svc_Actions) x.(svc_Serverless) x.(svc_NodeName)
    x.(svc_Resources) x.(svc_Suspended) x.(svc_Job) x.(svc_Files) x.(svc_Bindings)
    x.(svc_DatabaseClientProfiles) x.(svc_HTTP) x.(svc_Architecture) x.(svc_Volume) x.(svc_GPU)
    x.(svc_RunAsUser) x.(svc_RunAsGroup) x.(svc_FSGroup) x.(svc_ReadOnlyRootFilesystem)
    x.(svc_WorkingDir) x.(svc_TerminationGraceSeconds) x.(svc_CertificateMounts) x.(svc_Mounts)
    x.(svc_TemporaryMounts) x.(svc_Image) v x.(svc_PublicTCP) x.(svc_Ports)
    x.(svc_NetworkAccess) x.(svc_Public) x.(svc_Size) x.(svc_Replicas) x.(svc_UpdateStrategy)
    x.(svc_Readiness) x.(svc_Healthcheck) x.(svc_StartupTimeoutSeconds) x.(svc_Env)
    x.(svc_Command) x.(svc_Args) x.(svc_DependsOn) x.(svc_Networks) x.(svc_PrivateEgress)
    x.(svc_Secrets) x.(svc_Autoscaling) x.(svc_RestartNonce) x.(svc_RegistryCredential)
    x.(svc_AWSIdentity) x.(svc_ContainerDaemon) x.(svc_RuntimeProfile) x.(svc_NodeProfile)
    x.(svc_Sidecars) x.(svc_TLS) x.(svc_BackendHTTP2) x.(svc_IngressTimeoutSeconds)
    x.(svc_CustomHostnames) x.(svc_Kubernetes).
Definition set_svc_PublicTCP (v : list PublicTCPListener) (x : Service) : Service :=
  mkService x.(svc_Session) x.(svc_Actions) x.(svc_Serverless) x.(svc_NodeName)
    x.(svc_Resources) x.(svc_Suspended) x.(svc_Job) x.(svc_Files) x.(svc_Bindings)
    x.(svc_DatabaseClientProfiles) x.(svc_HTTP) x.(svc_Architecture) x.(svc_Volume) x.(svc_GPU)
    x.(svc_RunAsUser) x.(svc_RunAsGroup) x.(svc_FSGroup) x.(svc_ReadOnlyRootFilesystem)
    x.(svc_WorkingDir) x.(svc_TerminationGraceSeconds) x.(svc_CertificateMounts) x.(svc_Mounts)
    x.(svc_TemporaryMounts) x.(svc_Image) x.(svc_Port) v x.(svc_Ports) x.(svc_NetworkAccess)
    x.(svc_Public) x.(svc_Size) x.(svc_Replicas) x.(svc_UpdateStrategy) x.(svc_Readiness)
    x.(svc_Healthcheck) x.(svc_StartupTimeoutSeconds) x.(svc_Env) x.(svc_Command) x.(svc_Args)
    x.(svc_DependsOn) x.(svc_Networks) x.(svc_PrivateEgress) x.(svc_Secrets) x.(svc_Autoscaling)
    x.(svc_RestartNonce) x.(svc_RegistryCredential) x.(svc_AWSIdentity) x.(svc_ContainerDaemon)
    x.(svc_RuntimeProfile) x.(svc_NodeProfile) x.(svc_Sidecars) x.(svc_TLS) x.(svc_BackendHTTP2)
    x.(svc_IngressTimeoutSeconds) x.(svc_CustomHostnames) x.(svc_Kubernetes).
Definition set_svc_Ports (v : list Port) (x : Service) : Service :=
  mkService x.(svc_Session) x.(svc_Actions) x.(svc_Serverless) x.(svc_NodeName)
    x.(svc_Resources) x.(svc_Suspended) x.(svc_Job) x.(svc_Files) x.(svc_Bindings)
    x.(svc_DatabaseClientProfiles) x.(svc_HTTP) x.(svc_Architecture) x.(svc_Volume) x.(svc_GPU)
    x.(svc_RunAsUser) x.(svc_RunAsGroup) x.(svc_FSGroup) x.(svc_ReadOnlyRootFilesystem)
    x.(svc_WorkingDir) x.(svc_TerminationGraceSeconds) x.(svc_CertificateMounts) x.(svc_Mounts)
    x.(svc_TemporaryMounts) x.(svc_Image) x.(svc_Port) x.(svc_PublicTCP) v x.(svc_NetworkAccess)
    x.(svc_Public) x.(svc_Size) x.(svc_Replicas) x.(svc_UpdateStrategy) x.(svc_Readiness)
    x.(svc_Healthcheck) x.(svc_StartupTimeoutSeconds) x.(svc_Env) x.(svc_Command) x.(svc_Args)
    x.(svc_DependsOn) x.(svc_Networks) x.(svc_PrivateEgress) x.(svc_Secrets) x.(svc_Autoscaling)
    x.(svc_RestartNonce) x.(svc_RegistryCredential) x.(svc_AWSIdentity) x.(svc_ContainerDaemon)
    x.(svc_RuntimeProfile) x.(svc_NodeProfile) x.(svc_Sidecars) x.(svc_TLS) x.(svc_BackendHTTP2)
    x.(svc_IngressTimeoutSeconds) x.(svc_CustomHostnames) x.(svc_Kubernetes).
Definition set_svc_NetworkAccess (v : option NetworkAccess) (x : Service) : Service :=
  mkService x.(svc_Session) x.(svc_Actions) x.(svc_Serverless) x.(svc_NodeName)
    x.(svc_Resources) x.(svc_Suspended) x.(svc_Job) x.(svc_Files) x.(svc_Bindings)
    x.(svc_DatabaseClientProfiles) x.(svc_HTTP) x.(svc_Architecture) x.(svc_Volume) x.(svc_GPU)
    x.(svc_RunAsUser) x.(svc_RunAsGroup) x.(svc_FSGroup) x.(svc_ReadOnlyRootFilesystem)
    x.(svc_WorkingDir) x.(svc_TerminationGraceSeconds) x.(svc_CertificateMounts) x.(svc_Mounts)
    x.(svc_TemporaryMounts) x.(svc_Image) x.(svc_Port) x.(svc_PublicTCP) x.(svc_Ports) v
    x.(svc_Public) x.(svc_Size) x.(svc_Replicas) x.(svc_UpdateStrategy) x.(svc_Readiness)
    x.(svc_Healthcheck) x.(svc_StartupTimeoutSeconds) x.(svc_Env) x.(svc_Command) x.(svc_Args)
    x.(svc_DependsOn) x.(svc_Networks) x.(svc_PrivateEgress) x.(svc_Secrets) x.(svc_Autoscaling)
    x.(svc_RestartNonce) x.(svc_RegistryCredential) x.(svc_AWSIdentity) x.(svc_ContainerDaemon)
    x.(svc_RuntimeProfile) x.(svc_NodeProfile) x.(svc_Sidecars) x.(svc_TLS) x.(svc_BackendHTTP2)
    x.(svc_IngressTimeoutSeconds) x.(svc_CustomHostnames) x.(svc_Kubernetes).
Definition set_svc_Public (v : bool) (x : Service) : Service :=
  mkService x.(svc_Session) x.(svc_Actions) x.(svc_Serverless) x.(svc_NodeName)
    x.(svc_Resources) x.(svc_Suspended) x.(svc_Job) x.(svc_Files) x.(svc_Bindings)
    x.(svc_DatabaseClientProfiles) x.(svc_HTTP) x.(svc_Architecture) x.(svc_Volume) x.(svc_GPU)
    x.(svc_RunAsUser) x.(svc_RunAsGroup) x.(svc_FSGroup) x.(svc_ReadOnlyRootFilesystem)
    x.(svc_WorkingDir) x.(svc_TerminationGraceSeconds) x.(svc_CertificateMounts) x.(svc_Mounts)
    x.(svc_TemporaryMounts) x.(svc_Image) x.(svc_Port) x.(svc_PublicTCP) x.(svc_Ports)
    x.(svc_NetworkAccess) v x.(svc_Size) x.(svc_Replicas) x.(svc_UpdateStrategy)
    x.(svc_Readiness) x.(svc_Healthcheck) x.(svc_StartupTimeoutSeconds) x.(svc_Env)
    x.(svc_Command) x.(svc_Args) x.(svc_DependsOn) x.(svc_Networks) x.(svc_PrivateEgress)
    x.(svc_Secrets) x.(svc_Autoscaling) x.(svc_RestartNonce) x.(svc_RegistryCredential)
    x.(svc_AWSIdentity) x.(svc_ContainerDaemon) x.(svc_RuntimeProfile) x.(svc_NodeProfile)
    x.(svc_Sidecars) x.(svc_TLS) x.(svc_BackendHTTP2) x.(svc_IngressTimeoutSeconds)
    x.(svc_CustomHostnames) x.(svc_Kubernetes).
Definition set_svc_Size (v : string) (x : Service) : Service :=
  mkService x.(svc_Session) x.(svc_Actions) x.(svc_Serverless) x.(svc_NodeName)
    x.(svc_Resources) x.(svc_Suspended) x.(svc_Job) x.(svc_Files) x.(svc_Bindings)
    x.(svc_DatabaseClientProfiles) x.(svc_HTTP) x.(svc_Architecture) x.(svc_Volume) x.(svc_GPU)
    x.(svc_RunAsUser) x.(svc_RunAsGroup) x.(svc_FSGroup) x.(svc_ReadOnlyRootFilesystem)
    x.(svc_WorkingDir) x.(svc_TerminationGraceSeconds) x.(svc_CertificateMounts) x.(svc_Mounts)
    x.(svc_TemporaryMounts) x.(svc_Image) x.(svc_Port) x.(svc_PublicTCP) x.(svc_Ports)
    x.(svc_NetworkAccess) x.(svc_Public) v x.(svc_Replicas) x.(svc_UpdateStrategy)
    x.(svc_Readiness) x.(svc_Healthcheck) x.(svc_StartupTimeoutSeconds) x.(svc_Env)
    x.(svc_Command) x.(svc_Args) x.(svc_DependsOn) x.(svc_Networks) x.(svc_PrivateEgress)
    x.(svc_Secrets) x.(svc_Autoscaling) x.(svc_RestartNonce) x.(svc_RegistryCredential)
    x.(svc_AWSIdentity) x.(svc_ContainerDaemon) x.(svc_RuntimeProfile) x.(svc_NodeProfile)
    x.(svc_Sidecars) x.(svc_TLS) x.(svc_BackendHTTP2) x.(svc_IngressTimeoutSeconds)
    x.(svc_CustomHostnames) x.(svc_Kubernetes).
Definition set_svc_Replicas (v : Z) (x : Service) : Service :=
  mkService x.(svc_Session) x.(svc_Actions) x.(svc_Serverless) x.(svc_NodeName)
    x.(svc_Resources) x.(svc_Suspended) x.(svc_Job) x.(svc_Files) x.(svc_Bindings)
    x.(svc_DatabaseClientProfiles) x.(svc_HTTP) x.(svc_Architecture) x.(svc_Volume) x.(svc_GPU)
    x.(svc_RunAsUser) x.(svc_RunAsGroup) x.(svc_FSGroup) x.(svc_ReadOnlyRootFilesystem)
    x.(svc_WorkingDir) x.(svc_TerminationGraceSeconds) x.(svc_CertificateMounts) x.(svc_Mounts)
    x.(svc_TemporaryMounts) x.(svc_Image) x.(svc_Port) x.(svc_PublicTCP) x.(svc_Ports)
    x.(svc_NetworkAccess) x.(svc_Public) x.(svc_Size) v x.(svc_UpdateStrategy) x.(svc_Readiness)
    x.(svc_Healthcheck) x.(svc_StartupTimeoutSeconds) x.(svc_Env) x.(svc_Command) x.(svc_Args)
    x.(svc_DependsOn) x.(svc_Networks) x.(svc_PrivateEgress) x.(svc_Secrets) x.(svc_Autoscaling)
    x.(svc_RestartNonce) x.(svc_RegistryCredential) x.(svc_AWSIdentity) x.(svc_ContainerDaemon)
    x.(svc_RuntimeProfile) x.(svc_NodeProfile) x.(svc_Sidecars) x.(svc_TLS) x.(svc_BackendHTTP2)
    x.(svc_IngressTimeoutSeconds) x.(svc_CustomHostnames) x.(svc_Kubernetes).
Definition set_svc_Readiness (v : option Readiness) (x : Service) : Service :=
  mkService x.(svc_Session) x.(svc_Actions) x.(svc_Serverless) x.(svc_NodeName)
    x.(svc_Resources) x.(svc_Suspended) x.(svc_Job) x.(svc_Files) x.(svc_Bindings)
    x.(svc_DatabaseClientProfiles) x.(svc_HTTP) x.(svc_Architecture) x.(svc_Volume) x.(svc_GPU)
    x.(svc_RunAsUser) x.(svc_RunAsGroup) x.(svc_FSGroup) x.(svc_ReadOnlyRootFilesystem)
    x.(svc_WorkingDir) x.(svc_TerminationGraceSeconds) x.(svc_CertificateMounts) x.(svc_Mounts)
    x.(svc_TemporaryMounts) x.(svc_Image) x.(svc_Port) x.(svc_PublicTCP) x.(svc_Ports)
    x.(svc_NetworkAccess) x.(svc_Public) x.(svc_Size) x.(svc_Replicas) x.(svc_UpdateStrategy) v
    x.(svc_Healthcheck) x.(svc_StartupTimeoutSeconds) x.(svc_Env) x.(svc_Command) x.(svc_Args)
    x.(svc_DependsOn) x.(svc_Networks) x.(svc_PrivateEgress) x.(svc_Secrets) x.(svc_Autoscaling)
    x.(svc_RestartNonce) x.(svc_RegistryCredential) x.(svc_AWSIdentity) x.(svc_ContainerDaemon)
    x.(svc_RuntimeProfile) x.(svc_NodeProfile) x.(svc_Sidecars) x.(svc_TLS) x.(svc_BackendHTTP2)
    x.(svc_IngressTimeoutSeconds) x.(svc_CustomHostnames) x.(svc_Kubernetes).
Definition set_svc_Env (v : gmap string string) (x : Service) : Service :=
  mkService x.(svc_Session) x.(svc_Actions) x.(svc_Serverless) x.(svc_NodeName)
    x.(svc_Resources) x.(svc_Suspended) x.(svc_Job) x.(svc_Files) x.(svc_Bindings)
    x.(svc_DatabaseClientProfiles) x.(svc_HTTP) x.(svc_Architecture) x.(svc_Volume) x.(svc_GPU)
    x.(svc_RunAsUser) x.(svc_RunAsGroup) x.(svc_FSGroup) x.(svc_ReadOnlyRootFilesystem)
    x.(svc_WorkingDir) x.(svc_TerminationGraceSeconds) x.(svc_CertificateMounts) x.(svc_Mounts)
    x.(svc_TemporaryMounts) x.(svc_Image) x.(svc_Port) x.(svc_PublicTCP) x.(svc_Ports)
    x.(svc_NetworkAccess) x.(svc_Public) x.(svc_Size) x.(svc_Replicas) x.(svc_UpdateStrategy)
    x.(svc_Readiness) x.(svc_Healthcheck) x.(svc_StartupTimeoutSeconds) v x.(svc_Command)
    x.(svc_Args) x.(svc_DependsOn) x.(svc_Networks) x.(svc_PrivateEgress) x.(svc_Secrets)
    x.(svc_Autoscaling) x.(svc_RestartNonce) x.(svc_RegistryCredential) x.(svc_AWSIdentity)
    x.(svc_ContainerDaemon) x.(svc_RuntimeProfile) x.(svc_NodeProfile) x.(svc_Sidecars)
    x.(svc_TLS) x.(svc_BackendHTTP2) x.(svc_IngressTimeoutSeconds) x.(svc_CustomHostnames)
    x.(svc_Kubernetes).
Definition set_svc_DependsOn (v : list string) (x : Service) : Service :=
  mkService x.(svc_Session) x.(svc_Actions) x.(svc_Serverless) x.(svc_NodeName)
    x.(svc_Resources) x.(svc_Suspended) x.(svc_Job) x.(svc_Files) x.(svc_Bindings)
    x.(svc_DatabaseClientProfiles) x.(svc_HTTP) x.(svc_Architecture) x.(svc_Volume) x.(svc_GPU)
    x.(svc_RunAsUser) x.(svc_RunAsGroup) x.(svc_FSGroup) x.(svc_ReadOnlyRootFilesystem)
    x.(svc_WorkingDir) x.(svc_TerminationGraceSeconds) x.(svc_CertificateMounts) x.(svc_Mounts)
    x.(svc_TemporaryMounts) x.(svc_Image) x.(svc_Port) x.(svc_PublicTCP) x.(svc_Ports)
    x.(svc_NetworkAccess) x.(svc_Public) x.(svc_Size) x.(svc_Replicas) x.(svc_UpdateStrategy)
    x.(svc_Readiness) x.(svc_Healthcheck) x.(svc_StartupTimeoutSeconds) x.(svc_Env)
    x.(svc_Command) x.(svc_Args) v x.(svc_Networks) x.(svc_PrivateEgress) x.(svc_Secrets)
    x.(svc_Autoscaling) x.(svc_RestartNonce) x.(svc_RegistryCredential) x.(svc_AWSIdentity)
    x.(svc_ContainerDaemon) x.(svc_RuntimeProfile) x.(svc_NodeProfile) x.(svc_Sidecars)
    x.(svc_TLS) x.(svc_BackendHTTP2) x.(svc_IngressTimeoutSeconds) x.(svc_CustomHostnames)
    x.(svc_Kubernetes).
Definition set_svc_Networks (v : option (list string)) (x : Service) : Service :=
  mkService x.(svc_Session) x.(svc_Actions) x.(svc_Serverless) x.(svc_NodeName)
    x.(svc_Resources) x.(svc_Suspended) x.(svc_Job) x.(svc_Files) x.(svc_Bindings)
    x.(svc_DatabaseClientProfiles) x.(svc_HTTP) x.(svc_Architecture) x.(svc_Volume) x.(svc_GPU)
    x.(svc_RunAsUser) x.(svc_RunAsGroup) x.(svc_FSGroup) x.(svc_ReadOnlyRootFilesystem)
    x.(svc_WorkingDir) x.(svc_TerminationGraceSeconds) x.(svc_CertificateMounts) x.(svc_Mounts)
    x.(svc_TemporaryMounts) x.(svc_Image) x.(svc_Port) x.(svc_PublicTCP) x.(svc_Ports)
    x.(svc_NetworkAccess) x.(svc_Public) x.(svc_Size) x.(svc_Replicas) x.(svc_UpdateStrategy)
    x.(svc_Readiness) x.(svc_Healthcheck) x.(svc_StartupTimeoutSeconds) x.(svc_Env)
    x.(svc_Command) x.(svc_Args) x.(svc_DependsOn) v x.(svc_PrivateEgress) x.(svc_Secrets)
    x.(svc_Autoscaling) x.(svc_RestartNonce) x.(svc_RegistryCredential) x.(svc_AWSIdentity)
    x.(svc_ContainerDaemon) x.(svc_RuntimeProfile) x.(svc_NodeProfile) x.(svc_Sidecars)
    x.(svc_TLS) x.(svc_BackendHTTP2) x.(svc_IngressTimeoutSeconds) x.(svc_CustomHostnames)
    x.(svc_Kubernetes).
Definition set_svc_PrivateEgress (v : list string) (x : Service) : Service :=
  mkService x.(svc_Session) x.(svc_Actions) x.(svc_Serverless) x.(svc_NodeName)
    x.(svc_Resources) x.(svc_Suspended) x.(svc_Job) x.(svc_Files) x.(svc_Bindings)
    x.(svc_DatabaseClientProfiles) x.(svc_HTTP) x.(svc_Architecture) x.(svc_Volume) x.(svc_GPU)
    x.(svc_RunAsUser) x.(svc_RunAsGroup) x.(svc_FSGroup) x.(svc_ReadOnlyRootFilesystem)
    x.(svc_WorkingDir) x.(svc_TerminationGraceSeconds) x.(svc_CertificateMounts) x.(svc_Mounts)
    x.(svc_TemporaryMounts) x.(svc_Image) x.(svc_Port) x.(svc_PublicTCP) x.(svc_Ports)
    x.(svc_NetworkAccess) x.(svc_Public) x.(svc_Size) x.(svc_Replicas) x.(svc_UpdateStrategy)
    x.(svc_Readiness) x.(svc_Healthcheck) x.(svc_StartupTimeoutSeconds) x.(svc_Env)
    x.(svc_Command) x.(svc_Args) x.(svc_DependsOn) x.(svc_Networks) v x.(svc_Secrets)
    x.(svc_Autoscaling) x.(svc_RestartNonce) x.(svc_RegistryCredential) x.(svc_AWSIdentity)
    x.(svc_ContainerDaemon) x.(svc_RuntimeProfile) x.(svc_NodeProfile) x.(svc_Sidecars)
    x.(svc_TLS) x.(svc_BackendHTTP2) x.(svc_IngressTimeoutSeconds) x.(svc_CustomHostnames)
    x.(svc_Kubernetes).
Definition set_svc_Secrets (v : gmap string SecretRef) (x : Service) : Service :=
  mkService x.(svc_Session) x.(svc_Actions) x.(svc_Serverless) x.(svc_NodeName)
    x.(svc_Resources) x.(svc_Suspended) x.(svc_Job) x.(svc_Files) x.(svc_Bindings)
    x.(svc_DatabaseClientProfiles) x.(svc_HTTP) x.(svc_Architecture) x.(svc_Volume) x.(svc_GPU)
    x.(svc_RunAsUser) x.(svc_RunAsGroup) x.(svc_FSGroup) x.(svc_ReadOnlyRootFilesystem)
    x.(svc_WorkingDir) x.(svc_TerminationGraceSeconds) x.(svc_CertificateMounts) x.(svc_Mounts)
    x.(svc_TemporaryMounts) x.(svc_Image) x.(svc_Port) x.(svc_PublicTCP) x.(svc_Ports)
    x.(svc_NetworkAccess) x.(svc_Public) x.(svc_Size) x.(svc_Replicas) x.(svc_UpdateStrategy)
    x.(svc_Readiness) x.(svc_Healthcheck) x.(svc_StartupTimeoutSeconds) x.(svc_Env)
    x.(svc_Command) x.(svc_Args) x.(svc_DependsOn) x.(svc_Networks) x.(svc_PrivateEgress) v
    x.(svc_Autoscaling) x.(svc_RestartNonce) x.(svc_RegistryCredential) x.(svc_AWSIdentity)
    x.(svc_ContainerDaemon) x.(svc_RuntimeProfile) x.(svc_NodeProfile) x.(svc_Sidecars)
    x.(svc_TLS) x.(svc_BackendHTTP2) x.(svc_IngressTimeoutSeconds) x.(svc_CustomHostnames)
    x.(svc_Kubernetes).
Definition set_svc_Autoscaling (v : option Autoscaling) (x : Service) : Service :=
  mkService x.(svc_Session) x.(svc_Actions) x.(svc_Serverless) x.(svc_NodeName)
    x.(svc_Resources) x.(svc_Suspended) x.(svc_Job) x.(svc_Files) x.(svc_Bindings)
    x.(svc_DatabaseClientProfiles) x.(svc_HTTP) x.(svc_Architecture) x.(svc_Volume) x.(svc_GPU)
    x.(svc_RunAsUser) x.(svc_RunAsGroup) x.(svc_FSGroup) x.(svc_ReadOnlyRootFilesystem)
    x.(svc_WorkingDir) x.(svc_TerminationGraceSeconds) x.(svc_CertificateMounts) x.(svc_Mounts)
    x.(svc_TemporaryMounts) x.(svc_Image) x.(svc_Port) x.(svc_PublicTCP) x.(svc_Ports)
    x.(svc_NetworkAccess) x.(svc_Public) x.(svc_Size) x.(svc_Replicas) x.(svc_UpdateStrategy)
    x.(svc_Readiness) x.(svc_Healthcheck) x.(svc_StartupTimeoutSeconds) x.(svc_Env)
    x.(svc_Command) x.(svc_Args) x.(svc_DependsOn) x.(svc_Networks) x.(svc_PrivateEgress)
    x.(svc_Secrets) v x.(svc_RestartNonce) x.(svc_RegistryCredential) x.(svc_AWSIdentity)
    x.(svc_ContainerDaemon) x.(svc_RuntimeProfile) x.(svc_NodeProfile) x.(svc_Sidecars)
    x.(svc_TLS) x.(svc_BackendHTTP2) x.(svc_IngressTimeoutSeconds) x.(svc_CustomHostnames)
    x.(svc_Kubernetes).
Definition set_svc_Sidecars (v : list Sidecar) (x : Service) : Service :=
  mkService x.(svc_Session) x.(svc_Actions) x.(svc_Serverless) x.(svc_NodeName)
    x.(svc_Resources) x.(svc_Suspended) x.(svc_Job) x.(svc_Files) x.(svc_Bindings)
    x.(svc_DatabaseClientProfiles) x.(svc_HTTP) x.(svc_Architecture) x.(svc_Volume) x.(svc_GPU)
    x.(svc_RunAsUser) x.(svc_RunAsGroup) x.(svc_FSGroup) x.(svc_ReadOnlyRootFilesystem)
    x.(svc_WorkingDir) x.(svc_TerminationGraceSeconds) x.(svc_CertificateMounts) x.(svc_Mounts)
    x.(svc_TemporaryMounts) x.(svc_Image) x.(svc_Port) x.(svc_PublicTCP) x.(svc_Ports)
    x.(svc_NetworkAccess) x.(svc_Public) x.(svc_Size) x.(svc_Replicas) x.(svc_UpdateStrategy)
    x.(svc_Readiness) x.(svc_Healthcheck) x.(svc_StartupTimeoutSeconds) x.(svc_Env)
    x.(svc_Command) x.(svc_Args) x.(svc_DependsOn) x.(svc_Networks) x.(svc_PrivateEgress)
    x.(svc_Secrets) x.(svc_Autoscaling) x.(svc_RestartNonce) x.(svc_RegistryCredential)
    x.(svc_AWSIdentity) x.(svc_ContainerDaemon) x.(svc_RuntimeProfile) x.(svc_NodeProfile) v
    x.(svc_TLS) x.(svc_BackendHTTP2) x.(svc_IngressTimeoutSeconds) x.(svc_CustomHostnames)
    x.(svc_Kubernetes).
Definition set_svc_Kubernetes (v : option KubernetesPatches) (x : Service) : Service :=
  mkService x.(svc_Session) x.(svc_Actions) x.(svc_Serverless) x.(svc_NodeName)
    x.(svc_Resources) x.(svc_Suspended) x.(svc_Job) x.(svc_Files) x.(svc_Bindings)
    x.(svc_DatabaseClientProfiles) x.(svc_HTTP) x.(svc_Architecture) x.(svc_Volume) x.(svc_GPU)
    x.(svc_RunAsUser) x.(svc_RunAsGroup) x.(svc_FSGroup) x.(svc_ReadOnlyRootFilesystem)
    x.(svc_WorkingDir) x.(svc_TerminationGraceSeconds) x.(svc_CertificateMounts) x.(svc_Mounts)
    x.(svc_TemporaryMounts) x.(svc_Image) x.(svc_Port) x.(svc_PublicTCP) x.(svc_Ports)
    x.(svc_NetworkAccess) x.(svc_Public) x.(svc_Size) x.(svc_Replicas) x.(svc_UpdateStrategy)
    x.(svc_Readiness) x.(svc_Healthcheck) x.(svc_StartupTimeoutSeconds) x.(svc_Env)
    x.(svc_Command) x.(svc_Args) x.(svc_DependsOn) x.(svc_Networks) x.(svc_PrivateEgress)
    x.(svc_Secrets) x.(svc_Autoscaling) x.(svc_RestartNonce) x.(svc_RegistryCredential)
    x.(svc_AWSIdentity) x.(svc_ContainerDaemon) x.(svc_RuntimeProfile) x.(svc_NodeProfile)
    x.(svc_Sidecars) x.(svc_TLS) x.(svc_BackendHTTP2) x.(svc_IngressTimeoutSeconds)
    x.(svc_CustomHostnames) v.

Definition set_app_InjectEnv (v : bool) (x : Application) : Application :=
  mkApplication v x.(app_Secrets) x.(app_Env) x.(app_Recovery) x.(app_SchemaVersion)
    x.(app_Name) x.(app_Services) x.(app_Networks) x.(app_Volumes) x.(app_Domains).
Definition set_app_Secrets (v : gmap string SecretRef) (x : Application) : Application :=
  mkApplication x.(app_InjectEnv) v x.(app_Env) x.(app_Recovery) x.(app_SchemaVersion)
    x.(app_Name) x.(app_Services) x.(app_Networks) x.(app_Volumes) x.(app_Domains).
Definition set_app_Env (v : gmap string string) (x : Application) : Application :=
  mkApplication x.(app_InjectEnv) x.(app_Secrets) v x.(app_Recovery) x.(app_SchemaVersion)
    x.(app_Name) x.(app_Services) x.(app_Networks) x.(app_Volumes) x.(app_Domains).
Definition set_app_SchemaVersion (v : Z) (x : Application) : Application :=
  mkApplication x.(app_InjectEnv) x.(app_Secrets) x.(app_Env) x.(app_Recovery) v x.(app_Name)
    x.(app_Services) x.(app_Networks) x.(app_Volumes) x.(app_Domains).
Definition set_app_Name (v : string) (x : Application) : Application :=
  mkApplication x.(app_InjectEnv) x.(app_Secrets) x.(app_Env) x.(app_Recovery)
    x.(app_SchemaVersion) v x.(app_Services) x.(app_Networks) x.(app_Volumes) x.(app_Domains).
Definition set_app_Services (v : option (gmap string Service)) (x : Application) : Application :=
  mkApplication x.(app_InjectEnv) x.(app_Secrets) x.(app_Env) x.(app_Recovery)
    x.(app_SchemaVersion) x.(app_Name) v x.(app_Networks) x.(app_Volumes) x.(app_Domains).
Definition set_app_Networks (v : gmap string Network) (x : Application) : Application :=
  mkApplication x.(app_InjectEnv) x.(app_Secrets) x.(app_Env) x.(app_Recovery)
    x.(app_SchemaVersion) x.(app_Name) x.(app_Services) v x.(app_Volumes) x.(app_Domains).
Definition set_app_Volumes (v : gmap string NamedVolume) (x : Application) : Application :=
  mkApplication x.(app_InjectEnv) x.(app_Secrets) x.(app_Env) x.(app_Recovery)
    x.(app_SchemaVersion) x.(app_Name) x.(app_Services) x.(app_Networks) v x.(app_Domains).
Definition set_app_Domains (v : gmap string string) (x : Application) : Application :=
  mkApplication x.(app_InjectEnv) x.(app_Secrets) x.(app_Env) x.(app_Recovery)
    x.(app_SchemaVersion) x.(app_Name) x.(app_Services) x.(app_Networks) x.(app_Volumes) v.

(** ** JSON encoding ([encoding/json] with the struct tags of the source) *)

Definition json_SecretRef (x : SecretRef) : json :=
  JObj (concat [
    omit_str "ref" x.(sr_Ref);
    omit_str "provider" x.(sr_Provider);
    omit_str "path" x.(sr_Path);
    omit_str "key" x.(sr_Key)
  ]).

Definition json_RecoveryPolicy (x : RecoveryPolicy) : json :=
  JObj (concat [
    keep (JStr) "on_failure" x.(rp_OnFailure)
  ]).

Definition json_Network (x : Network) : json :=
  JObj (concat [
    keep (JBool) "internal" x.(net_Internal);
    omit_str "virtual_network" x.(net_VirtualNetwork);
    omit_str "segment" x.(net_Segment)
  ]).

Definition json_NamedVolume (x : NamedVolume) : json :=
  JObj (concat [
    keep (JNum) "size_gib" x.(nv_SizeGiB);
    omit_str "storage_class" x.(nv_StorageClass);
    keep (JStr) "access_mode" x.(nv_AccessMode)
  ]).

Definition json_Resources (x : Resources) : json :=
  JObj (concat [
    omit_str "cpu_request" x.(res_CPURequest);
    omit_str "cpu_limit" x.(res_CPULimit);
    omit_str "memory_request" x.(res_MemoryRequest);
    omit_str "memory_limit" x.(res_MemoryLimit)
  ]).

Definition json_JobSchedule (x : JobSchedule) : json :=
  JObj (concat [
    keep (JStr) "cron" x.(js_Cron);
    keep (JStr) "timezone" x.(js_Timezone);
    keep (JNum) "history_limit" x.(js_HistoryLimit)
  ]).

Definition json_JobInvocation (x : JobInvocation) : json :=
  JObj (concat [
    keep (json_list JStr) "allowed_identities" x.(ji_AllowedIdentities);
    keep (json_list JStr) "input_keys" x.(ji_InputKeys);
    keep (JNum) "max_input_bytes" x.(ji_MaxInputBytes);
    keep (JNum) "queue_limit" x.(ji_QueueLimit)
  ]).

Definition json_Job (x : Job) : json :=
  JObj (concat [
    omit_nil (json_JobInvocation) "invocation" x.(job_Invocation);
    omit_nil (json_JobSchedule) "schedule" x.(job_Schedule);
    keep (JNum) "timeout_seconds" x.(job_TimeoutSeconds);
    keep (JNum) "retries" x.(job_Retries)
  ]).

Definition json_File (x : File) : json :=
  JObj (concat [
    keep (JStr) "mount_path" x.(file_MountPath);
    omit_nil (JStr) "content" x.(file_Content);
    omit_nil (json_SecretRef) "secret" x.(file_Secret);
    omit_int "mode" x.(file_Mode)
  ]).

Definition json_Binding (x : Binding) : json :=
  JObj (concat [
    omit_str "external_database" x.(b_ExternalDatabase);
    omit_int "external_database_revision" x.(b_ExternalDatabaseRevision);
    omit_str "managed_database" x.(b_ManagedDatabase);
    omit_str "endpoint" x.(b_Endpoint);
    omit_bool "cluster_aware" x.(b_ClusterAware);
    omit_str "service" x.(b_Service);
    keep (JStr) "protocol" x.(b_Protocol);
    omit_str "database" x.(b_Database);
    omit_str "username" x.(b_Username);
    omit_nil (json_SecretRef) "password" x.(b_Password);
    omit_str "ssl_mode" x.(b_SSLMode)
  ]).

Definition json_HTTPEndpoint (x : HTTPEndpoint) : json :=
  JObj (concat [
    keep (JNum) "port" x.(he_Port);
    omit_str "domain" x.(he_Domain)
  ]).

Definition json_Volume (x : Volume) : json :=
  JObj (concat [
    keep (JStr) "mount_path" x.(vol_MountPath);
    keep (JNum) "size_gib" x.(vol_SizeGiB);
    omit_str "storage_class" x.(vol_StorageClass)
  ]).

Definition json_GPU (x : GPU) : json :=
  JObj (concat [
    keep (JNum) "count" x.(gpu_Count)
  ]).

Definition json_CertificateMount (x : CertificateMount) : json :=
  JObj (concat [
    omit_str "certificate" x.(cm_Certificate);
    omit_str "source" x.(cm_Source);
    keep (JStr) "hostname" x.(cm_Hostname);
    keep (JStr) "mount_path" x.(cm_MountPath)
  ]).

Definition json_Mount (x : Mount) : json :=
  JObj (concat [
    keep (JStr) "volume" x.(mt_Volume);
    keep (JStr) "mount_path" x.(mt_MountPath);
    omit_bool "read_only" x.(mt_ReadOnly);
    omit_str "sub_path" x.(mt_SubPath)
  ]).

Definition json_TemporaryMount (x : TemporaryMount) : json :=
  JObj (concat [
    keep (JStr) "mount_path" x.(tm_MountPath);
    keep (JNum) "size_mib" x.(tm_SizeMiB);
    omit_bool "memory" x.(tm_Memory)
  ]).

Definition json_PublicTCPListener (x : PublicTCPListener) : json :=
  JObj (concat [
    keep (JNum) "port" x.(pl_Port);
    keep (JNum) "target_port" x.(pl_TargetPort);
    keep (json_list JStr) "source_cidrs" x.(pl_SourceCIDRs)
  ]).

Definition json_Port (x : Port) : json :=
  JObj (concat [
    keep (JStr) "name" x.(port_Name);
    keep (JNum) "port" x.(port_Port);
    keep (JNum) "target_port" x.(port_TargetPort);
    keep (JStr) "protocol" x.(port_Protocol)
  ]).

Definition json_NetworkAccess (x : NetworkAccess) : json :=
  JObj (concat [
    keep (json_nil (json_list JStr)) "from" x.(na_From);
    omit_list (JStr) "from_applications" x.(na_FromApplications)
  ]).

Definition json_Readiness (x : Readiness) : json :=
  JObj (concat [
    keep (JStr) "protocol" x.(rd_Protocol);
    keep (JNum) "port" x.(rd_Port);
    omit_str "tls_server_name" x.(rd_TLSServerName);
    omit_str "tls_ca_file" x.(rd_TLSCAFile);
    omit_int "period_seconds" x.(rd_PeriodSeconds);
    omit_int "timeout_seconds" x.(rd_TimeoutSeconds);
    omit_int "failure_threshold" x.(rd_FailureThreshold)
  ]).

Definition json_Autoscaling (x : Autoscaling) : json :=
  JObj (concat [
    keep (JNum) "min_replicas" x.(as_MinReplicas);
    keep (JNum) "max_replicas" x.(as_MaxReplicas);
    keep (JNum) "target_cpu" x.(as_TargetCPU)
  ]).

Definition json_TLSConfig (x : TLSConfig) : json :=
  JObj (concat [
    omit_str "certificate" x.(tls_Certificate);
    omit_str "issuer" x.(tls_Issuer);
    omit_str "issuer_kind" x.(tls_IssuerKind)
  ]).

Definition json_CustomHostnames (x : CustomHostnames) : json :=
  JObj (concat [
    keep (JBool) "enabled" x.(ch_Enabled);
    omit_int "max" x.(ch_Max);
    omit_str "target" x.(ch_Target)
  ]).

Definition json_KubernetesPatches (x : KubernetesPatches) : json :=
  JObj (concat [
    omit_str "deployment" x.(kp_Deployment);
    omit_str "service" x.(kp_Service);
    omit_str "ingress" x.(kp_Ingress)
  ]).

Definition json_SidecarMount (x : SidecarMount) : json :=
  JObj (concat [
    omit_str "volume" x.(scm_Volume);
    omit_str "temporary" x.(scm_Temporary);
    keep (JStr) "mount_path" x.(scm_MountPath);
    omit_bool "read_only" x.(scm_ReadOnly)
  ]).

Definition json_Sidecar (x : Sidecar) : json :=
  JObj (concat [
    keep (JStr) "name" x.(sc_Name);
    keep (JStr) "image" x.(sc_Image);
    omit_list (JStr) "command" x.(sc_Command);
    omit_list (JStr) "args" x.(sc_Args);
    omit_map (JStr) "env" x.(sc_Env);
    omit_map (json_SecretRef) "secrets" x.(sc_Secrets);
    keep (JStr) "cpu" x.(sc_CPU);
    keep (JStr) "memory" x.(sc_Memory);
    omit_list (json_SidecarMount) "mounts" x.(sc_Mounts)
  ]).

Definition json_SandboxSession (x : SandboxSession) : json :=
  JObj (concat [
    keep (json_list JStr) "allowed_identities" x.(ss_AllowedIdentities);
    keep (json_list JStr) "helper_command" x.(ss_HelperCommand);
    keep (json_list JStr) "ready_command" x.(ss_ReadyCommand);
    omit_int "idle_seconds" x.(ss_IdleSeconds);
    omit_int "lifetime_seconds" x.(ss_LifetimeSeconds);
    omit_int "call_timeout_seconds" x.(ss_CallTimeoutSeconds)
  ]).

Definition json_Serverless (x : Serverless) : json :=
  JObj (concat [
    keep (JNum) "min_replicas" x.(sl_MinReplicas);
    keep (JNum) "idle_seconds" x.(sl_IdleSeconds);
    keep (JNum) "startup_timeout_seconds" x.(sl_StartupTimeoutSeconds);
    keep (JNum) "request_timeout_seconds" x.(sl_RequestTimeoutSeconds);
    keep (JNum) "max_concurrency" x.(sl_MaxConcurrency)
  ]).

Definition json_GitLabTarget (x : GitLabTarget) : json :=
  JObj (concat [
    keep (JStr) "url" x.(glt_URL);
    omit_int "project_id" x.(glt_ProjectID);
    omit_int "group_id" x.(glt_GroupID);
    omit_str "trust_policy" x.(glt_TrustPolicy)
  ]).

Definition json_BitbucketTarget (x : BitbucketTarget) : json :=
  JObj (concat [
    keep (JStr) "workspace" x.(bbt_Workspace);
    omit_str "repository" x.(bbt_Repository)
  ]).

Definition json_ActionsCache (x : ActionsCache) : json :=
  JObj (concat [
    keep (JStr) "credential" x.(ac_Credential)
  ]).

Definition json_Actions (x : Actions) : json :=
  JObj (concat [
    omit_str "provider" x.(act_Provider);
    omit_str "repository" x.(act_Repository);
    omit_str "organization" x.(act_Organization);
    omit_int "runner_group_id" x.(act_RunnerGroupID);
    omit_nil (json_GitLabTarget) "gitlab" x.(act_GitLab);
    omit_nil (json_BitbucketTarget) "bitbucket" x.(act_Bitbucket);
    keep (JStr) "credential" x.(act_Credential);
    omit_str "jobs_credential" x.(act_JobsCredential);
    keep (json_list JStr) "labels" x.(act_Labels);
    omit_int "timeout_minutes" x.(act_TimeoutMinutes);
    omit_int "workspace_size_gib" x.(act_WorkspaceSizeGiB);
    omit_nil (json_ActionsCache) "cache" x.(act_Cache);
    omit_int "idle_seconds" x.(act_IdleSeconds);
    omit_int "min_replicas" x.(act_MinReplicas)
  ]).

Definition json_Service (x : Service) : json :=
  JObj (concat [
    omit_nil (json_SandboxSession) "session" x.(svc_Session);
    omit_nil (json_Actions) "actions" x.(svc_Actions);
    omit_nil (json_Serverless) "serverless" x.(svc_Serverless);
    omit_str "node_name" x.(svc_NodeName);
    omit_nil (json_Resources) "resources" x.(svc_Resources);
    omit_bool "suspended" x.(svc_Suspended);
    omit_nil (json_Job) "job" x.(svc_Job);
    omit_map (json_File) "files" x.(svc_Files);
    omit_map (json_Binding) "bindings" x.(svc_Bindings);
    omit_map (JStr) "database_client_profiles" x.(svc_DatabaseClientProfiles);
    omit_map (json_HTTPEndpoint) "http" x.(svc_HTTP);
    omit_str "architecture" x.(svc_Architecture);
    omit_nil (json_Volume) "volume" x.(svc_Volume);
    omit_nil (json_GPU) "gpu" x.(svc_GPU);
    omit_int "run_as_user" x.(svc_RunAsUser);
    omit_int "run_as_group" x.(svc_RunAsGroup);
    omit_int "fs_group" x.(svc_FSGroup);
    omit_bool "read_only_root_filesystem" x.(svc_ReadOnlyRootFilesystem);
    omit_str "working_dir" x.(svc_WorkingDir);
    omit_int "termination_grace_seconds" x.(svc_TerminationGraceSeconds);
    omit_list (json_CertificateMount) "certificate_mounts" x.(svc_CertificateMounts);
    omit_list (json_Mount) "mounts" x.(svc_Mounts);
    omit_list (json_TemporaryMount) "temporary_mounts" x.(svc_TemporaryMounts);
    keep (JStr) "image" x.(svc_Image);
    omit_int "port" x.(svc_Port);
    omit_list (json_PublicTCPListener) "public_tcp" x.(svc_PublicTCP);
    omit_list (json_Port) "ports" x.(svc_Ports);
    omit_nil (json_NetworkAccess) "network_access" x.(svc_NetworkAccess);
    keep (JBool) "public" x.(svc_Public);
    keep (JStr) "size" x.(svc_Size);
    keep (JNum) "replicas" x.(svc_Replicas);
    omit_str "update_strategy" x.(svc_UpdateStrategy);
    omit_nil (json_Readiness) "readiness" x.(svc_Readiness);
    omit_str "healthcheck" x.(svc_Healthcheck);
    omit_int "startup_timeout_seconds" x.(svc_StartupTimeoutSeconds);
    omit_map (JStr) "env" x.(svc_Env);
    omit_list (JStr) "command" x.(svc_Command);
    omit_list (JStr) "args" x.(svc_Args);
    omit_list (JStr) "depends_on" x.(svc_DependsOn);
    keep (json_nil (json_list JStr)) "networks" x.(svc_Networks);
    omit_list (JStr) "private_egress" x.(svc_PrivateEgress);
    omit_map (json_SecretRef) "secrets" x.(svc_Secrets);
    omit_nil (json_Autoscaling) "autoscaling" x.(svc_Autoscaling);
    omit_str "restart_nonce" x.(svc_RestartNonce);
    omit_str "registry_credential" x.(svc_RegistryCredential);
    omit_str "aws_identity" x.(svc_AWSIdentity);
    omit_str "container_daemon" x.(svc_ContainerDaemon);
    omit_str "runtime_profile" x.(svc_RuntimeProfile);
    omit_str "node_profile" x.(svc_NodeProfile);
    omit_list (json_Sidecar) "sidecars" x.(svc_Sidecars);
    omit_nil (json_TLSConfig) "tls" x.(svc_TLS);
    omit_bool "backend_http2" x.(svc_BackendHTTP2);
    omit_int "ingress_timeout_seconds" x.(svc_IngressTimeoutSeconds);
    omit_nil (json_CustomHostnames) "custom_hostnames" x.(svc_CustomHostnames);
    omit_nil (json_KubernetesPatches) "kubernetes" x.(svc_Kubernetes)
  ]).

Definition json_Application (x : Application) : json :=
  JObj (concat [
    omit_bool "inject_env" x.(app_InjectEnv);
    omit_map (json_SecretRef) "secrets" x.(app_Secrets);
    omit_map (JStr) "env" x.(app_Env);
    omit_nil (json_RecoveryPolicy) "recovery" x.(app_Recovery);
    keep (JNum) "schema_version" x.(app_SchemaVersion);
    keep (JStr) "name" x.(app_Name);
    keep (json_nil (json_map json_Service)) "services" x.(app_Services);
    omit_map (json_Network) "networks" x.(app_Networks);
    omit_map (json_NamedVolume) "volumes" x.(app_Volumes);
    omit_map (JStr) "domains" x.(app_Domains)
  ]).


(** [data, err := json.Marshal(input)]: the encoded length. *)
Definition encoded_size (a : Application) : Z := len (encode (json_Application a)).

(** The services table, empty when nil. *)
Definition app_services (a : Application) : gmap string Service := default ∅ a.(app_Services).

(** [app.Services[name] = svc] on a non-nil table. *)
Definition put_service (name : string) (s : Service) (a : Application) : Application :=
  set_app_Services (Some (<[name := s]> (app_services a))) a.

(** The zero values Go gives to a missing map entry. *)
Definition zero_Network : Network := mkNetwork false EmptyString EmptyString.
Definition zero_Resources : Resources := mkResources EmptyString EmptyString EmptyString EmptyString.
Definition zero_KubernetesPatches : KubernetesPatches :=
  mkKubernetesPatches EmptyString EmptyString EmptyString.

Definition zero_Service : Service := {|
  svc_Session := None; svc_Actions := None; svc_Serverless := None; svc_NodeName := EmptyString;
  svc_Resources := None; svc_Suspended := false; svc_Job := None; svc_Files := ∅; svc_Bindings := ∅;
  svc_DatabaseClientProfiles := ∅; svc_HTTP := ∅; svc_Architecture := EmptyString; svc_Volume := None;
  svc_GPU := None; svc_RunAsUser := 0; svc_RunAsGroup := 0; svc_FSGroup := 0;
  svc_ReadOnlyRootFilesystem := false; svc_WorkingDir := EmptyString; svc_TerminationGraceSeconds := 0;
  svc_CertificateMounts := []; svc_Mounts := []; svc_TemporaryMounts := []; svc_Image := EmptyString;
  svc_Port := 0; svc_PublicTCP := []; svc_Ports := []; svc_NetworkAccess := None; svc_Public := false;
  svc_Size := EmptyString; svc_Replicas := 0; svc_UpdateStrategy := EmptyString; svc_Readiness := None;
  svc_Healthcheck := EmptyString; svc_StartupTimeoutSeconds := 0; svc_Env := ∅; svc_Command := [];
  svc_Args := []; svc_DependsOn := []; svc_Networks := None; svc_PrivateEgress := []; svc_Secrets := ∅;
  svc_Autoscaling := None; svc_RestartNonce := EmptyString; svc_RegistryCredential := EmptyString;
  svc_AWSIdentity := EmptyString; svc_ContainerDaemon := EmptyString; svc_RuntimeProfile := EmptyString;
  svc_NodeProfile := EmptyString; svc_Sidecars := []; svc_TLS := None; svc_BackendHTTP2 := false;
  svc_IngressTimeoutSeconds := 0; svc_CustomHostnames := None; svc_Kubernetes := None |}.

Definition zero_Application : Application := {|
  app_InjectEnv := false; app_Secrets := ∅; app_Env := ∅; app_Recovery := None; app_SchemaVersion := 0;
  app_Name := EmptyString; app_Services := None; app_Networks := ∅; app_Volumes := ∅; app_Domains := ∅ |}.

Definition get_network (a : Application) (n : string) : Network :=
  default zero_Network (a.(app_Networks) !! n).

(** [Names]: the service names in order. *)
Definition Names (a : Application) : list string :=
  sort_strings (map_to_list (app_services a)).*1.

(** ** Decidable equality *)

#[export] Instance SecretRef_eq_dec : EqDecision SecretRef.
Proof. solve_decision. Defined.
#[export] Instance Network_eq_dec : EqDecision Network.
Proof. solve_decision. Defined.
#[export] Instance Resources_eq_dec : EqDecision Resources.
Proof. solve_decision. Defined.
#[export] Instance KubernetesPatches_eq_dec : EqDecision KubernetesPatches.
Proof. solve_decision. Defined.
#[export] Instance RecoveryPolicy_eq_dec : EqDecision RecoveryPolicy.
Proof. solve_decision. Defined.
#[export] Instance NamedVolume_eq_dec : EqDecision NamedVolume.
Proof. solve_decision. Defined.
#[export] Instance JobSchedule_eq_dec : EqDecision JobSchedule.
Proof. solve_decision. Defined.
#[export] Instance JobInvocation_eq_dec : EqDecision JobInvocation.
Proof. solve_decision. Defined.
#[export] Instance Job_eq_dec : EqDecision Job.
Proof. solve_decision. Defined.
#[export] Instance File_eq_dec : EqDecision File.
Proof. solve_decision. Defined.
#[export] Instance Binding_eq_dec : EqDecision Binding.
Proof. solve_decision. Defined.
#[export] Instance HTTPEndpoint_eq_dec : EqDecision HTTPEndpoint.
Proof. solve_decision. Defined.
#[export] Instance Volume_eq_dec : EqDecision Volume.
Proof. solve_decision. Defined.
#[export] Instance GPU_eq_dec : EqDecision GPU.
Proof. solve_decision. Defined.
#[export] Instance CertificateMount_eq_dec : EqDecision CertificateMount.
Proof. solve_decision. Defined.
#[export] Instance Mount_eq_dec : EqDecision Mount.
Proof. solve_decision. Defined.
#[export] Instance TemporaryMount_eq_dec : EqDecision TemporaryMount.
Proof. solve_decision. Defined.
#[export] Instance PublicTCPListener_eq_dec : EqDecision PublicTCPListener.
Proof. solve_decision. Defined.
#[export] Instance Port_eq_dec : EqDecision Port.
Proof. solve_decision. Defined.
#[export] Instance NetworkAccess_eq_dec : EqDecision NetworkAccess.
Proof. solve_decision. Defined.
#[export] Instance Readiness_eq_dec : EqDecision Readiness.
Proof. solve_decision. Defined.
#[export] Instance Autoscaling_eq_dec : EqDecision Autoscaling.
Proof. solve_decision. Defined.
#[export] Instance TLSConfig_eq_dec : EqDecision TLSConfig.
Proof. solve_decision. Defined.
#[export] Instance CustomHostnames_eq_dec : EqDecision CustomHostnames.
Proof. solve_decision. Defined.
#[export] Instance SidecarMount_eq_dec : EqDecision SidecarMount.
Proof. solve_decision. Defined.
#[export] Instance Sidecar_eq_dec : EqDecision Sidecar.
Proof. solve_decision. Defined.
#[export] Instance Serverless_eq_dec : EqDecision Serverless.
Proof. solve_decision. Defined.
