(* ===== verification/Platform.v ===== *)
(** What the program calls outside its own source: the Kubernetes validation
    and quantity packages, the cron parser, the YAML decoder, the IDNA profile
    and, of the Go installation, the URL parser of [net/url] and the time zone
    database. They are fields of three classes; every definition that calls them
    takes an instance. The laws some theorems need restate their documentation
    and are classes of their own. The instances at the end are concrete and
    satisfy the laws; the witnesses run on them. *)
From S2P Require Import Prelude GoStd Regex.
#[global] Open Scope Z_scope.

(** * net/url *)

(** The components of a [*url.URL] the program reads. *)
Record URL : Type := mkURL {
  u_Scheme : string;
  u_Opaque : string;
  u_has_User : bool;
  u_Host : string;
  u_Hostname : string;
  u_Port : string;
  u_Path : string;
  u_RawPath : string;
  u_EscapedPath : string;
  u_ForceQuery : bool;
  u_RawQuery : string;
  u_Fragment : string;
  u_RawFragment : string;
}.

Class Host := {
  url_Parse : string → option URL;
  url_ParseRequestURI : string → option URL;
  LoadLocation : string → bool;             (* time.LoadLocation(s) succeeds *)
}.

(** * k8s.io/apimachinery, cron, idna, yaml *)

(** The top-level keys of a decoded mapping, and the keys of its metadata when
    that is a mapping too. *)
Record YAMLMapping : Type := mkYAMLMapping { ym_keys : list string; ym_metadata : list string }.

Class ThirdParty := {
  IsDNS1123Subdomain : string → bool;       (* no validation messages *)
  IsDNS1123Label : string → bool;
  IsValidPortName : string → bool;
  cron_ParseStandard : string → bool;
  idna_ToASCII : string → option string;
  (* yaml.YAMLToJSON, then json.Unmarshal into a map: [Ok None] when the text is
     valid YAML and not a mapping *)
  yaml_mapping : string → result (option YAMLMapping);
}.

(** * resource.Quantity *)

Class Quantity := {
  quantity : Type;
  ParseQuantity : string → option quantity;
  q_String : quantity → string;
  q_Cmp : quantity → quantity → Z;
  q_Add : quantity → quantity → quantity;
}.

(** Documented behaviour: [Cmp] is a total preorder given by the represented
    number; printing gives a canonical text that parses back to the same number
    and prints as itself, and keeps the unit suffix family. *)
Class QuantityLaws (Q : Quantity) := {
  q_Cmp_trans : ∀ a b c, q_Cmp a b <= 0 → q_Cmp b c <= 0 → q_Cmp a c <= 0;
  q_Cmp_refl : ∀ a, q_Cmp a a = 0;
  q_Cmp_antisym : ∀ a b, q_Cmp a b <= 0 ↔ 0 <= q_Cmp b a;
  q_String_parse : ∀ s q, ParseQuantity s = Some q →
    ∃ q', ParseQuantity (q_String q) = Some q' ∧ q_Cmp q q' = 0 ∧ q_String q' = q_String q;
}.

(** [resource.MustParse(s)]: the program calls it on constants and on values it
    has validated; it panics on anything else, which the option records. *)
Definition MustParse `{Quantity} (s : string) : option quantity := ParseQuantity s.

(** [a.Cmp(b) > 0] and [a.Cmp(b) < 0] on parsed quantities; a value that does
    not parse never compares. *)
Definition q_gt `{Quantity} (a b : option quantity) : bool :=
  match a, b with Some a, Some b => 0 <? q_Cmp a b | _, _ => false end.
Definition q_lt `{Quantity} (a b : option quantity) : bool :=
  match a, b with Some a, Some b => q_Cmp a b <? 0 | _, _ => false end.

(** * Concrete instances *)

Module Concrete.

Definition alnum (c : ascii) : bool := lower c || digit c.
Definition label_char (c : ascii) : bool := alnum c || any_of "-" c.
Definition dns_label : regex :=
  RCat (RCls alnum) (ROpt (RCat (RStar (RCls label_char)) (RCls alnum))).

Definition label_ok (s : string) : bool := full_match dns_label s && (len s <=? 63).
Definition subdomain_ok (s : string) : bool :=
  forallb (full_match dns_label) (Split s ".") && (len s <=? 253).
Definition port_name_ok (s : string) : bool :=
  full_match dns_label s && (len s <=? 15) && negb (Contains s "--") &&
  negb (all_bytes (λ c, negb (lower c)) s).

(** [scheme://user@host/path], enough to run the examples. *)
Definition simple_url (s : string) : option URL :=
  if Contains s "://" then
    match Cut s ":" with
    | Some (scheme, rest) =>
        let auth := match Split (drop_string 2 rest) "/" with a :: _ => a | [] => EmptyString end in
        let host := match CutLast auth "@" with Some (_, h) => h | None => auth end in
        Some (mkURL scheme EmptyString (has_byte "@" auth) host host EmptyString EmptyString
                EmptyString EmptyString false EmptyString EmptyString EmptyString)
    | None => None
    end
  else Some (mkURL EmptyString EmptyString false EmptyString EmptyString EmptyString s
               EmptyString s false EmptyString EmptyString EmptyString).

#[export] Instance host : Host | 100 := {|
  url_Parse := simple_url;
  url_ParseRequestURI s := if HasPrefix s "/" then simple_url s else None;
  LoadLocation s := one_of s ["UTC"; "Europe/Paris"];
|}.

#[export] Instance third_party : ThirdParty | 100 := {|
  IsDNS1123Subdomain := subdomain_ok;
  IsDNS1123Label := label_ok;
  IsValidPortName := port_name_ok;
  cron_ParseStandard s := (lenl (Fields s) =? 5);
  idna_ToASCII s := if subdomain_ok s then Some s else None;
  yaml_mapping s := Ok match Cut s ":" with Some (k, _) => Some (mkYAMLMapping [k] []) | None => None end;
|}.

(** A quantity is its text with its value in thousandths. *)
Definition suffixes : list (string * Z) :=
  [("Ki", 1024000); ("Mi", 1048576000); ("Gi", 1073741824000); ("Ti", 1099511627776000);
   ("k", 1000000); ("M", 1000000000); ("G", 1000000000000); ("T", 1000000000000000);
   ("m", 1)].

Fixpoint split_digits (s : string) : string * string :=
  match s with
  | String c s' =>
      if digit c then let '(a, b) := split_digits s' in (String c a, b) else (EmptyString, s)
  | EmptyString => (EmptyString, EmptyString)
  end.

Definition parse_value (s : string) : option Z :=
  let '(d, rest) := split_digits s in
  if is_empty d then None
  else v ← digits_value 0 d;
       if is_empty rest then Some (v * 1000)
       else match list_find (λ x, x.1 = rest) suffixes with
            | Some (_, (_, m)) => Some (v * m)
            | None =>
                match rest with
                | String c frac =>
                    if Ascii.eqb c "." && (len frac <=? 3) && negb (is_empty frac) then
                      f ← digits_value 0 frac;
                      Some (v * 1000 + f * 10 ^ (3 - len frac))
                    else None
                | EmptyString => None
                end
            end.

#[export] Instance quantity_text : Quantity | 100 := {|
  quantity := string * Z;
  ParseQuantity s := (s,.) <$> parse_value s;
  q_String q := q.1;
  q_Cmp a b := a.2 - b.2;
  q_Add a b := (Itoa (a.2 + b.2) +:+ "m", a.2 + b.2);
|}.

#[export] Instance quantity_text_laws : QuantityLaws quantity_text.
Proof.
  constructor; simpl; try lia.
  intros s q Hs. destruct (parse_value s) as [v|] eqn:Hv; simplify_eq/=.
  exists (s, v). rewrite Hv. simpl. split_and!; [done|lia|done].
Qed.
End Concrete.
