(* ===== verification/SpecChecks.v ===== *)
(** The checks the validators of internal/spec share: the compiled patterns,
    secret references, secret-looking environment variables, image references,
    command overrides, environments, member lists, directories and listeners. *)
From S2P Require Import Prelude GoStd Paths GoNet Regex SpecTypes Platform.
#[global] Open Scope Z_scope.

(** * Patterns *)

Definition name_char (c : ascii) : bool := lower c || digit c || any_of "-" c.
Definition word_char (c : ascii) : bool := lower c || upper c || digit c || any_of "_" c.
Definition token_char (c : ascii) : bool := word_char c || any_of "-" c.
Definition hex_char (c : ascii) : bool := in_range "a" "f" c || digit c.

(** [^[a-z][a-z0-9-]{0,38}[a-z0-9]$|^[a-z]$] *)
Definition namePattern : regex :=
  RAlt (RSeq [RCls lower; RUpTo (RCls name_char) 38; RCls (λ c, lower c || digit c)])
       (RCls lower).
(** [^[A-Za-z_][A-Za-z0-9_]*$] *)
Definition envPattern : regex :=
  RCat (RCls (λ c, lower c || upper c || any_of "_" c)) (RStar (RCls word_char)).
(** [^sha256:[a-f0-9]{64}$] *)
Definition digestPattern : regex := RCat (RLit "sha256:") (RTimes (RCls hex_char) 64).
(** [^[a-f0-9]{32}$] *)
Definition identityPattern : regex := RTimes (RCls hex_char) 32.
(** [^[a-z0-9](?:[a-z0-9-]{0,61}[a-z0-9])?$] *)
Definition runtimeName : regex :=
  RCat (RCls (λ c, lower c || digit c))
       (ROpt (RCat (RUpTo (RCls name_char) 61) (RCls (λ c, lower c || digit c)))).
(** [^[a-zA-Z0-9_-]{1,64}$] *)
Definition noncePattern : regex := RRep (RCls token_char) 1 64.

(** [(?i)(^|_)(SECRET_KEY|PRIVATE_KEY|API_KEY|CLIENT_SECRET)(_|$)], as a match
    of the whole key. *)
Definition sensitiveEnvName : regex :=
  RSeq [RAlt REps (RCat RAny (RLit "_"));
        RAlts [RFold "SECRET_KEY"; RFold "PRIVATE_KEY"; RFold "API_KEY"; RFold "CLIENT_SECRET"];
        RAlt REps (RCat (RLit "_") RAny)].

(** A PEM private key anywhere, a provider token at the start or a JWT. *)
Definition sensitiveEnvValue : regex :=
  let tok := RCls token_char in
  RAlts [RSeq [RAny; RLit "-----BEGIN ";
               RStar (RCat (RPlus (RCls (λ c, upper c || digit c))) (RLit " "));
               RLit "PRIVATE KEY-----"; RAny];
         RSeq [RAlts [RSeq [RLit "gh"; RCls (any_of "pousr"); RLit "_"];
                      RLit "github_pat_"; RLit "glpat-"; RLit "sk-proj-"];
               RTimes tok 12; RAny];
         RSeq [RLit "eyJ"; RPlus tok; RLit "."; RPlus tok; RLit "."; RPlus tok]].

(** * Loops with a set of seen keys

    [seen := map[string]bool{}; for _, x := range l { pre(x); if seen[key(x)]
    { return dup(x) }; seen[key(x)] = true; post(x) }] *)
Definition range_unique {A} (pre : A → result unit) (key : A → string) (dup : A → error)
    (post : A → result unit) (l : list A) : result (gset string) :=
  foldM (λ seen x,
    _ ← pre x;
    _ ← fail_when (bool_decide (key x ∈ seen)) (dup x);
    _ ← post x;
    Ok ({[ key x ]} ∪ seen)) ∅ l.

Definition no_check {A} (_ : A) : result unit := Ok tt.

(** [for k, v := range m { f(k, &v); m[k] = v }] *)
Definition range_update `{RangeOrder} {V} (f : string → V → result V) (m : gmap string V)
    : result (gmap string V) :=
  foldM (λ acc '(k, v), v ← f k v; Ok (<[ k := v ]> acc)) m (range m).

(** * Secret references *)

Definition secretPathSegment (value : string) : bool :=
  if one_of value [EmptyString; "."; ".."] then false
  else forallb (λ c,
         ((97 <=? c) && (c <=? 122)) || ((65 <=? c) && (c <=? 90)) || ((48 <=? c) && (c <=? 57)) ||
         (c =? 45) || (c =? 95) || (c =? 46)) (runes value).

Definition ValidSecretPath (path : string) : bool :=
  if 512 <? len path then false
  else if is_empty path then true
  else forallb secretPathSegment (Split path "/").

Definition SecretRef_Valid (r : SecretRef) : bool :=
  if negb (is_empty r.(sr_Ref)) then
    full_match namePattern r.(sr_Ref) && is_empty r.(sr_Provider) &&
    is_empty r.(sr_Path) && is_empty r.(sr_Key)
  else
    full_match namePattern r.(sr_Provider) && ValidSecretPath r.(sr_Path) &&
    (0 <? len r.(sr_Key)) && (len r.(sr_Key) <=? 128) && secretPathSegment r.(sr_Key).

Definition ref_to (name : string) : SecretRef := mkSecretRef name EmptyString EmptyString EmptyString.

(** * Environment *)

Definition sensitive_suffixes : list string :=
  ["PASSWORD"; "PASSWD"; "PWD"; "TOKEN"; "SECRET"; "API_KEY"; "PRIVATE_KEY"; "ACCESS_KEY";
   "ACCESS_KEY_ID"; "SECRET_KEY"; "CLIENT_SECRET"; "SIGNING_KEY"; "ENCRYPTION_KEY"].

Definition MaxEnvironmentVariables : Z := 256.
Definition MaxEnvironmentBytes : Z := 512 * 1024.

(** [_, ok := m[k]] with the two validity conditions of an environment name. *)
Definition env_name_ok (key : string) : bool := full_match envPattern key && (len key <=? 128).

Section environment.
Context `{Host} `{RangeOrder}.

Definition sensitiveEnv (key value : string) : bool :=
  let upper := ToUpper key in
  existsb (λ suffix, (upper =? suffix)%string || HasSuffix upper ("_" +:+ suffix)) sensitive_suffixes
  || full_match sensitiveEnvName key || full_match sensitiveEnvValue value
  || match url_Parse value with Some u => u.(u_has_User) | None => false end.

Definition environment_bytes (env : gmap string string) : Z :=
  fold_left (λ total kv, total + (len kv.1 + len kv.2)) (range env) 0.

Definition validateEnvironment (field : string) (env : gmap string string) : result unit :=
  _ ← fail_when (MaxEnvironmentVariables <? lenm env)
        (Errorf "%s: at most %d effective variables are supported"
           [AStr field; AInt MaxEnvironmentVariables]);
  _ ← fail_when (MaxEnvironmentBytes <? environment_bytes env)
        (Errorf "%s: effective variable names and values must total at most 512 KiB" [AStr field]);
  iterM (λ '(key, value),
    _ ← fail_when (sensitiveEnv key value)
          (Errorf "%s.%s: secret values cannot be stored in TOML or deployment history; use an application-scoped secret reference"
             [AStr field; AStr key]);
    fail_when (negb (full_match envPattern key) || (128 <? len key) || has_byte Ascii.zero value ||
               (4096 <? len value))
      (Errorf "%s.%s: invalid name or value (maximum 4096 bytes, no NUL)" [AStr field; AStr key]))
    (range env).

(** The loop over a map of secret references that must not shadow [env]. *)
Definition check_secret_keys (bad : error) (shadow : string → error)
    (env : gmap string string) (secrets : gmap string SecretRef) : result unit :=
  iterM (λ '(key, ref),
    _ ← fail_when (negb (full_match envPattern key) || (128 <? len key) || negb (SecretRef_Valid ref)) bad;
    fail_when (has_key env key) (shadow key)) (range secrets).
End environment.

(** * Members, images, commands *)

Definition validateMembers (values : list string) (field : string) (exists_ : string → bool)
    : result unit :=
  _ ← range_unique
        (λ value, fail_when (negb (exists_ value))
           (Errorf "%s: invalid or undeclared reference %q" [AStr field; AStr value]))
        id
        (λ value, Errorf "%s: duplicate reference %q" [AStr field; AStr value])
        no_check values;
  Ok tt.

Definition validateImage (value : string) : result unit :=
  _ ← fail_when (is_empty value || (512 <? len value) ||
                 ContainsAny value (" " +:+ TAB +:+ LF +:+ CR +:+ "\?#") ||
                 Contains value "://" || HasPrefix value "/" || Contains value ".." ||
                 (1 <? Count value "@"))
        (Errorf "use an OCI repository with a tag or sha256 digest, without a URL scheme or credentials" []);
  match Cut value "@" with
  | Some (repository, digest) =>
      fail_when (is_empty repository || negb (full_match digestPattern digest))
        (Errorf "image digest must be sha256 followed by 64 lowercase hexadecimal characters" [])
  | None => Ok tt
  end.

Definition ValidateCommand (command args : list string) : result unit :=
  _ ← fail_when ((64 <? lenl command) || (128 <? lenl args))
        (Errorf "command/args exceed the supported element count" []);
  _ ← iterM (λ words,
        iterM (λ word,
          fail_when (has_byte Ascii.zero word || (4096 <? len word))
            (Errorf "command/args must contain no NUL and at most 4096 bytes per element" []))
          words) [command; args];
  match command with
  | executable :: _ =>
      fail_when (is_empty (TrimSpace executable)) (Errorf "command executable cannot be empty" [])
  | [] => Ok tt
  end.

(** * Directories *)

Definition cleanDirectory (p : string) : bool :=
  HasPrefix p "/" && negb (p =? "/")%string && (len p <=? 200) && (path_Clean p =? p)%string &&
  negb (ContainsAny p (NUL +:+ CR +:+ LF)).

(** [a == b || strings.HasPrefix(a, b+"/") || strings.HasPrefix(b, a+"/")] *)
Definition overlaps (a b : string) : bool :=
  (a =? b)%string || HasPrefix a (b +:+ "/") || HasPrefix b (a +:+ "/").

Definition allowedMount (p : string) : bool :=
  cleanDirectory p &&
  negb (existsb (overlaps p) ["/proc"; "/sys"; "/dev"; "/etc"; "/var/run/secrets"]).

(** The nested loop over the pairs of [paths]. *)
Fixpoint paths_disjoint (paths : list string) : bool :=
  match paths with
  | [] => true
  | a :: rest => negb (existsb (overlaps a) rest) && paths_disjoint rest
  end.

(** A relative file name: [path.IsAbs(p) || path.Clean(p) != p || p == "." ||
    p == ".." || strings.HasPrefix(p, "../")], negated. *)
Definition clean_relative (p : string) : bool :=
  negb (path_IsAbs p) && (path_Clean p =? p)%string && negb (p =? ".")%string &&
  negb (p =? "..")%string && negb (HasPrefix p "../").

(** * Listeners *)

Definition ServicePorts (s : Service) : list Port :=
  (if s.(svc_Port) =? 0 then [] else [mkPort "service" s.(svc_Port) s.(svc_Port) "TCP"]) ++
  s.(svc_Ports).

(** * Hostnames *)

Section hostnames.
Context `{Host} `{ThirdParty}.

Definition ValidHostname (host : string) : bool :=
  negb ((244 <? len host) || (len host =? 0) || negb (host =? ToLower host)%string ||
        negb (has_byte "." host) || ParseIP host || negb (IsDNS1123Subdomain host)) &&
  forallb (λ label, len label <=? 63) (Split host ".").
End hostnames.

(** Proofs use the checks through their lemmas, never by unfolding them;
    evaluation by the virtual machine is not affected. *)
#[global] Opaque full_match namePattern envPattern digestPattern identityPattern runtimeName
  noncePattern sensitiveEnvName sensitiveEnvValue path_Clean Contains ContainsAny
  decode ToUpper ToLower TrimSpace Fields.
#[global] Arguments ServicePorts : simpl never.

(** * Facts *)

(** ** Unique loops *)

Section unique.
Context {A : Type} (pre post : A → result unit) (key : A → string) (dup : A → error).

Lemma range_unique_Ok l seen :
  range_unique pre key dup post l = Ok seen ↔
  seen = list_to_set (key <$> l) ∧ NoDup (key <$> l) ∧
  Forall (λ x, pre x = Ok tt ∧ post x = Ok tt) l.
Proof.
  unfold range_unique.
  assert (∀ s, foldM (λ seen x, _ ← pre x; _ ← fail_when (bool_decide (key x ∈ seen)) (dup x);
               _ ← post x; Ok ({[ key x ]} ∪ seen)) s l = Ok seen ↔
     seen = list_to_set (key <$> l) ∪ s ∧ NoDup (key <$> l) ∧ (∀ x, x ∈ l → key x ∉ s) ∧
     Forall (λ x, pre x = Ok tt ∧ post x = Ok tt) l) as Hgen.
  { induction l as [|x l IH]; intros s; simpl.
    - rewrite Ok_inj, (left_id_L ∅ (∪)). split; [|naive_solver].
      intros ->. split_and!; [done|constructor|set_solver|constructor].
    - rewrite bind_Ok. setoid_rewrite IH. split.
      + intros (s' & Hx & -> & Hnd & Hfresh & Hall).
        rewrite !bind_unit_Ok, fail_when_Ok, bool_decide_eq_false, Ok_inj in Hx.
        destruct Hx as (Hpre & Hx & Hpost & <-).
        split_and!; [clear; set_solver| | |by constructor].
        * constructor; [|done]. intros (y & Hy & Hin)%list_elem_of_fmap.
          apply (Hfresh y Hin). rewrite <-Hy. set_solver.
        * intros y [->|Hy]%elem_of_cons; [done|]. specialize (Hfresh y Hy). set_solver.
      + intros (-> & Hnd & Hfresh & Hall). apply NoDup_cons in Hnd as [Hx Hnd].
        apply Forall_cons in Hall as [[Hpre Hpost] Hall]. exists ({[ key x ]} ∪ s).
        rewrite !bind_unit_Ok, fail_when_Ok, bool_decide_eq_false, Ok_inj.
        split; [split_and!; [done|apply Hfresh; by left|done|done]|].
        split_and!; [clear; set_solver|done| |done].
        intros y Hy. rewrite not_elem_of_union, not_elem_of_singleton.
        split; [|apply Hfresh; by right].
        intros Heq. apply Hx. rewrite <-Heq. apply list_elem_of_fmap. eauto. }
  rewrite Hgen, (right_id_L ∅ (∪)). split; [tauto|].
  intros (? & ? & ?). split_and!; [done|done| |done]. intros x _. apply not_elem_of_empty.
Qed.
End unique.

Lemma validateMembers_Ok values field exists_ u :
  validateMembers values field exists_ = Ok u ↔
  NoDup values ∧ Forall (λ v, exists_ v = true) values.
Proof.
  unfold validateMembers. rewrite bind_Ok. setoid_rewrite range_unique_Ok.
  rewrite list_fmap_id. setoid_rewrite fail_when_Ok. setoid_rewrite negb_false_iff.
  destruct u. split.
  - intros (s & (_ & Hnd & Hall) & _). split; [done|]. eapply Forall_impl; [exact Hall|naive_solver].
  - intros [Hnd Hall]. eexists. split_and!; [done|done| |done].
    eapply Forall_impl; [exact Hall|naive_solver].
Qed.

(** Acceptance of a member list does not depend on its order. *)
Lemma validateMembers_perm l1 l2 f1 f2 exists_ u :
  l1 ≡ₚ l2 → validateMembers l1 f1 exists_ = Ok u → validateMembers l2 f2 exists_ = Ok u.
Proof. rewrite !validateMembers_Ok. by intros ->. Qed.

(** ** Rewriting a map in place *)

Lemma range_update_list {V} (f : string → V → result V) l : ∀ (acc m' : gmap string V), NoDup l.*1 →
  foldM (λ acc '(k, v), v ← f k v; Ok (<[ k := v ]> acc)) acc l = Ok m' ↔
  (∀ k v, (k, v) ∈ l → ∃ v', f k v = Ok v' ∧ m' !! k = Some v') ∧
  ∀ k, k ∉ l.*1 → m' !! k = acc !! k.
Proof.
  induction l as [|[k v] l IH]; intros acc m' Hnd; simpl.
  - rewrite Ok_inj. split; [intros ->; split; [set_solver|done]|].
    intros [_ H]. apply map_eq. intros i. symmetry. apply H, not_elem_of_nil.
  - apply NoDup_cons in Hnd as [Hk Hnd]. rewrite bind_Ok. split.
    + intros (acc' & Hv & Hl). apply bind_Ok in Hv as (v' & Hv & [= <-]).
      apply IH in Hl as [Hin Hout]; [|done]. split.
      * intros i w [[= -> ->]|Hi]%elem_of_cons; [|by apply Hin].
        exists v'. split; [done|]. by rewrite Hout, lookup_insert_eq.
      * intros i [Hik Hi]%not_elem_of_cons. by rewrite Hout, lookup_insert_ne.
    + intros [Hin Hout]. destruct (Hin k v ltac:(by left)) as (v' & Hv & Hm').
      exists (<[ k := v' ]> acc). rewrite Hv. split; [done|]. apply IH; [done|]. split.
      * intros i w Hi. apply Hin. by right.
      * intros i Hi. destruct (decide (i = k)) as [->|Hne]; [by rewrite lookup_insert_eq|].
        rewrite lookup_insert_ne by done. apply Hout. by apply not_elem_of_cons.
Qed.

Lemma range_update_Ok `{RangeOrder} {V} (f : string → V → result V) (m m' : gmap string V) :
  range_update f m = Ok m' ↔ ∀ k, option_Forall2 (λ v v', f k v = Ok v') (m !! k) (m' !! k).
Proof.
  unfold range_update. rewrite range_update_list by apply keys_of_NoDup.
  setoid_rewrite elem_of_range. split.
  - intros [Hin Hout] k. destruct (m !! k) as [v|] eqn:Hk.
    + destruct (Hin k v Hk) as (v' & Hv & ->). by constructor.
    + rewrite Hout, Hk; [constructor|]. intros ([i w] & -> & Hi)%list_elem_of_fmap.
      apply elem_of_range in Hi. simpl in Hk. congruence.
  - intros Hall. split.
    + intros k v Hk. specialize (Hall k). rewrite Hk in Hall. inversion Hall; subst. eauto.
    + intros k Hk. specialize (Hall k). destruct (m !! k) as [v|] eqn:Hm; [|by inversion Hall].
      exfalso. apply Hk, list_elem_of_fmap. exists (k, v). by rewrite elem_of_range.
Qed.

(** ** Paths *)

Lemma overlaps_spec a b : overlaps a b = true ↔ within a b ∨ within b a.
Proof.
  unfold overlaps. rewrite !orb_true_iff, String.eqb_eq, !within_spec. naive_solver.
Qed.

Lemma overlaps_sym a b : overlaps a b = overlaps b a.
Proof.
  apply eq_true_iff_eq. rewrite !overlaps_spec. tauto.
Qed.

Definition disjoint_paths (a b : string) : Prop := overlaps a b = false.
#[export] Instance disjoint_paths_sym : Symmetric disjoint_paths.
Proof. intros a b. unfold disjoint_paths. by rewrite overlaps_sym. Qed.

Lemma existsb_false {A} (f : A → bool) l :
  existsb f l = false ↔ Forall (λ x, f x = false) l.
Proof.
  induction l as [|x l IH]; simpl; [naive_solver|]. by rewrite orb_false_iff, IH, Forall_cons.
Qed.

Lemma paths_disjoint_spec l : paths_disjoint l = true ↔ pairwise disjoint_paths l.
Proof.
  induction l as [|a l IH]; simpl; [split; [intros _; apply pairwise_nil|done]|].
  by rewrite andb_true_iff, (pairwise_cons disjoint_paths), IH, negb_true_iff, existsb_false.
Qed.


(** ** Directories *)

Lemma clean_relative_spec p : clean_relative p = true → Forall ordinary (Split p "/").
Proof.
  unfold clean_relative. intros H. split_orb. rewrite !String.eqb_neq, String.eqb_eq in *.
  by apply clean_relative_segments.
Qed.

Lemma cleanDirectory_spec p : cleanDirectory p = true →
  len p ≤ 200 ∧ ∃ segs, Split p "/" = EmptyString :: segs ∧ segs ≠ [] ∧ Forall ordinary segs.
Proof.
  unfold cleanDirectory. intros H. split_orb. rewrite String.eqb_neq, String.eqb_eq in *. zify_bool.
  split; [done|]. by apply clean_absolute.
Qed.

(** The system directories no data mount may replace or contain. *)
Definition system_directories : list string := ["/proc"; "/sys"; "/dev"; "/etc"; "/var/run/secrets"].

Lemma allowedMount_spec p : allowedMount p = true →
  cleanDirectory p = true ∧ Forall (disjoint_paths p) system_directories.
Proof.
  unfold allowedMount. intros H. split_orb. split; [done|]. by apply existsb_false.
Qed.
