(* ===== verification/SpecServices.v ===== *)
(** The services table: the loop over the service names that the validators of
    internal/spec share, what it leaves unchanged, and how its passes relate the
    services before and after. *)
From S2P Require Import Prelude GoStd SpecTypes.
#[global] Open Scope Z_scope.

(** * The loop

    [for _, name := range Names(app) { svc := app.Services[name]; ...;
    app.Services[name] = svc }], with the variables [a] the body assigns. *)
Definition service_step {A} (f : A → Application → string → Service → result (A * Service))
    (st : A * Application) (name : string) : result (A * Application) :=
  let '(a, app) := st in
  match app_services app !! name with
  | Some svc => '(a, svc) ← f a app name svc; Ok (a, put_service name svc app)
  | None => Ok (a, app)
  end.

Definition each_service_with {A} (f : A → Application → string → Service → result (A * Service))
    (a : A) (app : Application) : result (A * Application) :=
  foldM (service_step f) (a, app) (Names app).

(** The loop without further variables. *)
Definition each_service (f : Application → string → Service → result Service) (app : Application)
    : result Application :=
  '(_, app) ← each_service_with (λ _ app name svc, svc ← f app name svc; Ok (tt, svc)) tt app;
  Ok app.

(** * Applications that differ in their services only *)

Definition same_but_services (a b : Application) : Prop :=
  b = set_app_Services b.(app_Services) a.

#[export] Instance same_but_services_refl : Reflexive same_but_services.
Proof. intros []. reflexivity. Qed.
#[export] Instance same_but_services_trans : Transitive same_but_services.
Proof.
  unfold same_but_services, set_app_Services. intros a b c Hb Hc.
  rewrite Hc at 1. by rewrite Hb.
Qed.

Lemma put_service_same n s a : same_but_services a (put_service n s a).
Proof. by destruct a. Qed.

Lemma lookup_put_service n m s a :
  app_services (put_service n s a) !! m = if decide (m = n) then Some s else app_services a !! m.
Proof.
  unfold put_service, app_services. simpl. case_decide as H.
  - subst. by rewrite lookup_insert_eq.
  - by rewrite lookup_insert_ne.
Qed.

(** ** Pointwise relations between services *)

Lemma option_rel_size {A} (R : relation A) (m1 m2 : gmap string A) :
  (∀ n, option_Forall2 R (m1 !! n) (m2 !! n)) → lenm m1 = lenm m2.
Proof.
  intros Hr. unfold lenm. f_equal.
  rewrite <-(map_size_fmap (λ _, tt) m1), <-(map_size_fmap (λ _, tt) m2). f_equal.
  apply map_eq. intros n. rewrite !lookup_fmap. by destruct (Hr n).
Qed.

Lemma option_rel_impl {A} (R1 R2 : relation A) x y :
  (∀ a b, R1 a b → R2 a b) → option_Forall2 R1 x y → option_Forall2 R2 x y.
Proof. intros Himpl []; constructor; auto. Qed.

Lemma option_rel_trans {A} (R : relation A) `{!Transitive R} x y z :
  option_Forall2 R x y → option_Forall2 R y z → option_Forall2 R x z.
Proof. intros [] Hz; inversion Hz; constructor. by etrans. Qed.

Record services_rel (R : relation Service) (a b : Application) : Prop := {
  sr_same : same_but_services a b;
  sr_services : ∀ n, option_Forall2 R (app_services a !! n) (app_services b !! n);
}.

#[export] Instance services_rel_refl R `{!Reflexive R} : Reflexive (services_rel R).
Proof. intros a. split; [done|]. intros n. destruct (app_services a !! n); by constructor. Qed.

#[export] Instance services_rel_trans R `{!Transitive R} : Transitive (services_rel R).
Proof.
  intros a b c [Hab Hs1] [Hbc Hs2]. split; [by etrans|]. intros n.
  specialize (Hs1 n). specialize (Hs2 n).
  inversion Hs1; inversion Hs2; try constructor; try congruence.
  simplify_eq. etrans; [done|]. congruence.
Qed.

Lemma services_rel_impl (R1 R2 : relation Service) a b :
  (∀ s s', R1 s s' → R2 s s') → services_rel R1 a b → services_rel R2 a b.
Proof.
  intros Himpl [Hs Hr]. split; [done|]. intros n. destruct (Hr n); constructor; auto.
Qed.

Lemma services_rel_lookup R a b n s :
  services_rel R a b → app_services a !! n = Some s → ∃ s', app_services b !! n = Some s' ∧ R s s'.
Proof. intros [_ Hr] Hs. specialize (Hr n). rewrite Hs in Hr. inversion Hr; eauto. Qed.

Lemma services_rel_lookup_r R a b n s' :
  services_rel R a b → app_services b !! n = Some s' → ∃ s, app_services a !! n = Some s ∧ R s s'.
Proof. intros [_ Hr] Hs. specialize (Hr n). rewrite Hs in Hr. inversion Hr; eauto. Qed.

Lemma services_rel_Some R a b n :
  services_rel R a b → is_Some (app_services a !! n) ↔ is_Some (app_services b !! n).
Proof.
  intros Hr. split; intros [s Hs].
  - destruct (services_rel_lookup _ _ _ _ _ Hr Hs) as (s' & -> & _). done.
  - destruct (services_rel_lookup_r _ _ _ _ _ Hr Hs) as (s' & -> & _). done.
Qed.

Lemma services_rel_has_key R a b n :
  services_rel R a b → has_key (app_services a) n = has_key (app_services b) n.
Proof. intros [_ Hr]. unfold has_key. by destruct (Hr n). Qed.

(** ** Names *)

Lemma elem_of_Names app n : n ∈ Names app ↔ is_Some (app_services app !! n).
Proof.
  unfold Names. rewrite sort_strings_perm, list_elem_of_fmap. split.
  - intros ([k s] & -> & Hin). apply elem_of_map_to_list in Hin. simpl. by rewrite Hin.
  - intros [s Hs]. exists (n, s). split; [done|]. by apply elem_of_map_to_list.
Qed.

Lemma NoDup_Names app : NoDup (Names app).
Proof. unfold Names. rewrite sort_strings_perm. apply NoDup_fst_map_to_list. Qed.

Lemma length_Names app : length (Names app) = size (app_services app).
Proof.
  unfold Names. rewrite (Permutation_length (sort_strings_perm _)), length_fmap. apply length_map_to_list.
Qed.

Lemma services_rel_Names R a b : services_rel R a b → Names a = Names b.
Proof.
  intros Hr. apply (sorted_perm_eq str_le); [apply sort_strings_sorted..|].
  apply NoDup_Permutation; [apply NoDup_Names..|]. intros n. rewrite !elem_of_Names.
  by apply (services_rel_Some R).
Qed.

(** * What a pass establishes *)

Section pass.
Context {A : Type} (f : A → Application → string → Service → result (A * Service)).
Context (R : relation Service) `{!Reflexive R}.
Context (Hf : ∀ a app n s a' s', f a app n s = Ok (a', s') → R s s').

Lemma service_step_rel a app name a' app' :
  service_step f (a, app) name = Ok (a', app') →
  services_rel R app app' ∧ ∀ n, n ≠ name → app_services app' !! n = app_services app !! n.
Proof.
  simpl. destruct (app_services app !! name) as [s|] eqn:Hs.
  - rewrite bind_Ok. intros ([a1 s1] & Hfs & [= <- <-]). split; [split|].
    + apply put_service_same.
    + intros n. rewrite lookup_put_service. case_decide as Hn.
      * subst. rewrite Hs. constructor. by eapply Hf.
      * destruct (app_services app !! n); by constructor.
    + intros n Hn. rewrite lookup_put_service. by case_decide.
  - intros [= <- <-]. done.
Qed.

Context `{!Transitive R}.

(** After the loop every service is related to its original, and each result
    came from the body run on its original service, in an application that
    lies between the two. *)
Lemma each_service_with_Ok a app a' app' :
  each_service_with f a app = Ok (a', app') →
  services_rel R app app' ∧
  ∀ n s', app_services app' !! n = Some s' →
    ∃ s ai ai' appi, app_services app !! n = Some s ∧ f ai appi n s = Ok (ai', s') ∧
      services_rel R app appi ∧ services_rel R appi app'.
Proof.
  unfold each_service_with.
  cut (∀ names a0 app0, NoDup names → foldM (service_step f) (a0, app0) names = Ok (a', app') →
    services_rel R app0 app' ∧
    (∀ n, n ∉ names → app_services app' !! n = app_services app0 !! n) ∧
    ∀ n s', n ∈ names → app_services app' !! n = Some s' →
      ∃ s ai ai' appi, app_services app0 !! n = Some s ∧ f ai appi n s = Ok (ai', s') ∧
        services_rel R app0 appi ∧ services_rel R appi app').
  { intros Hgen Hl. destruct (Hgen _ _ _ (NoDup_Names app) Hl) as (Hr & _ & Hall).
    split; [done|]. intros n s' Hs'. apply Hall; [|done].
    apply elem_of_Names, (services_rel_Some R _ _ n Hr). by eexists. }
  induction names as [|m names IH]; intros a0 app0 Hnd Hl; simpl in Hl.
  { simplify_eq. split_and!; [done|done|]. intros n s' []%not_elem_of_nil. }
  apply NoDup_cons in Hnd as [Hm Hnd]. apply bind_Ok in Hl as ([a1 app1] & Hstep & Hl).
  destruct (service_step_rel _ _ _ _ _ Hstep) as [Hr1 Hother].
  destruct (IH _ _ Hnd Hl) as (Hr & Hrest & Hall).
  assert (services_rel R app0 app') as Hr0 by by etrans.
  split_and!; [done| |].
  - intros n Hn. apply not_elem_of_cons in Hn as [Hnm Hn]. rewrite Hrest by done. by apply Hother.
  - intros n s' [->|Hn]%elem_of_cons Hs'.
    + rewrite Hrest in Hs' by done. simpl in Hstep.
      destruct (app_services app0 !! m) as [s|] eqn:Hs.
      * apply bind_Ok in Hstep as ([a2 s2] & Hfs & [= <- <-]).
        rewrite lookup_put_service, decide_True in Hs' by done. simplify_eq.
        exists s, a0, a2, app0. done.
      * by simplify_eq.
    + destruct (Hall n s' Hn Hs') as (s & ai & ai' & appi & Hs & Hfs & Hra & Hrb).
      exists s, ai, ai', appi. split_and!; [|done| |done].
      * rewrite <-Hs. symmetry. apply Hother. by intros ->.
      * etrans; [exact Hr1|exact Hra].
Qed.
End pass.

Lemma each_service_Ok (R : relation Service) `{!Reflexive R, !Transitive R} f app app' :
  (∀ app n s s', f app n s = Ok s' → R s s') →
  each_service f app = Ok app' →
  services_rel R app app' ∧
  ∀ n s', app_services app' !! n = Some s' →
    ∃ s appi, app_services app !! n = Some s ∧ f appi n s = Ok s' ∧
      services_rel R app appi ∧ services_rel R appi app'.
Proof.
  intros Hf. unfold each_service. rewrite bind_Ok. intros ([[] app1] & Hl & [= <-]).
  assert (∀ (a : unit) appi n s (a' : unit) s',
    (svc ← f appi n s; Ok (tt, svc)) = Ok (a', s') → R s s') as Hf'.
  { intros [] appi n s [] s' Hfs. apply bind_Ok in Hfs as (s1 & Hfs & [= <-]). by eapply Hf. }
  destruct (each_service_with_Ok _ R Hf' _ _ _ _ Hl) as [Hr Hall].
  split; [done|]. intros n s' Hs'. destruct (Hall n s' Hs') as (s & [] & [] & appi & Hs & Hfs & ? & ?).
  apply bind_Ok in Hfs as (s1 & Hfs & [= <-]). by exists s, appi.
Qed.

(** An invariant of the loop variables and of the table, indexed by the names
    that were traversed. *)
Lemma each_service_with_inv {A} (f : A → Application → string → Service → result (A * Service))
    (I : A → Application → list string → Prop) a app a' app' :
  I a app [] →
  (∀ a app behind name s a' s', name ∉ behind → app_services app !! name = Some s → I a app behind →
     f a app name s = Ok (a', s') → I a' (put_service name s' app) (behind ++ [name])) →
  each_service_with f a app = Ok (a', app') → I a' app' (Names app).
Proof.
  intros H0 Hstep. unfold each_service_with.
  cut (∀ names behind a0 app0, NoDup (behind ++ names) → (∀ n, n ∈ names → is_Some (app_services app0 !! n)) →
    I a0 app0 behind → foldM (service_step f) (a0, app0) names = Ok (a', app') → I a' app' (behind ++ names)).
  { intros Hgen. apply (Hgen (Names app) [] a app); [apply NoDup_Names| |done].
    intros n. by rewrite elem_of_Names. }
  induction names as [|n names IH]; intros behind a0 app0 Hnd Hex HI; cbn [foldM].
  { intros [= -> ->]. by rewrite app_nil_r. }
  rewrite bind_Ok. intros ([a1 app1] & Hs & Hl). simpl in Hs.
  destruct (Hex n ltac:(by left)) as [s Hn]. rewrite Hn in Hs. apply bind_Ok in Hs as ([a2 s2] & Hf & [= <- <-]).
  rewrite cons_middle, app_assoc in Hnd |- *. apply (IH _ a2 (put_service n s2 app0)); [done| | |done].
  - intros m Hm. rewrite lookup_put_service. case_decide; [done|]. apply Hex. by right.
  - eapply Hstep; [|done..]. rewrite <-app_assoc in Hnd. apply NoDup_app in Hnd as (_ & Hd & _).
    intros Hin. apply (Hd n Hin). by left.
Qed.
