(* ===== verification/SpecEnvironment.v ===== *)
(** Environment inheritance (spec.go): [EffectiveEnvironment],
    [EffectiveService] and [RuntimeEnvironment], and the secret references of a
    service (lifecycle.go, sidecars.go). *)
From S2P Require Import Prelude GoStd SpecTypes.
#[global] Open Scope Z_scope.

(** * Loops over a map that fill or prune another *)

Section loops.
Context `{RangeOrder}.

(** [for k, v := range src { dst[f(k)] = v }] *)
Definition copy_into {V W} (f : string → string) (g : V → W) (src : gmap string V)
    (dst : gmap string W) : gmap string W :=
  fold_left (λ acc kv, <[ f kv.1 := g kv.2 ]> acc) (range src) dst.

(** [for k := range src { delete(dst, k) }] *)
Definition delete_keys {V W} (src : gmap string V) (dst : gmap string W) : gmap string W :=
  fold_left (λ acc kv, delete kv.1 acc) (range src) dst.
End loops.

(** * Inheritance *)

Section inheritance.
Context `{RangeOrder}.

Definition EffectiveEnvironment (defaults : gmap string string) (service : Service)
    : gmap string string :=
  let env := copy_into id id defaults ∅ in
  let env := copy_into id id service.(svc_Env) env in
  let env := delete_keys service.(svc_Secrets) env in
  delete_keys service.(svc_Bindings) env.

Definition EffectiveService (app : Application) (service : Service) : Service :=
  match service.(svc_Actions) with
  | Some _ => service
  | None =>
      let refs := copy_into id id app.(app_Secrets) ∅ in
      let refs := delete_keys service.(svc_Env) refs in
      let refs := copy_into id id service.(svc_Secrets) refs in
      let refs := delete_keys service.(svc_Bindings) refs in
      let service := set_svc_Secrets refs service in
      let defaults := if app.(app_InjectEnv) then app.(app_Env) else ∅ in
      set_svc_Env (EffectiveEnvironment defaults service) service
  end.

Definition RuntimeEnvironment (app : Application) : Application :=
  let services := fold_left (λ acc kv, <[ kv.1 := EffectiveService app kv.2 ]> acc)
                    (range (app_services app)) ∅ in
  set_app_InjectEnv false (set_app_Secrets ∅ (set_app_Env ∅ (set_app_Services (Some services) app))).
End inheritance.

(** * Secret references *)

Definition FileSecretKey (name : string) : string := "__file_" +:+ name.
Definition BindingSecretKey (name : string) : string := "__binding_" +:+ name.
Definition SidecarSecretKey (sidecar variable : string) : string :=
  "__sidecar_" +:+ sidecar +:+ "__" +:+ variable.

Section references.
Context `{RangeOrder}.

Definition sidecarSecretReferences (s : Service) (into : gmap string SecretRef)
    : gmap string SecretRef :=
  fold_left (λ acc sc, copy_into (SidecarSecretKey sc.(sc_Name)) id sc.(sc_Secrets) acc)
    s.(svc_Sidecars) into.

Definition SecretReferences (s : Service) : gmap string SecretRef :=
  let refs := copy_into id id s.(svc_Secrets) ∅ in
  let refs := fold_left (λ acc kv,
                match kv.2.(file_Secret) with
                | Some r => <[ FileSecretKey kv.1 := r ]> acc
                | None => acc
                end) (range s.(svc_Files)) refs in
  let refs := fold_left (λ acc kv,
                match kv.2.(b_Password) with
                | Some r => <[ BindingSecretKey kv.1 := r ]> acc
                | None => acc
                end) (range s.(svc_Bindings)) refs in
  sidecarSecretReferences s refs.
End references.

(** * Facts *)

Section facts.
Context `{RO : RangeOrder}.

Lemma foldl_insert_lookup {V W} (g : V → W) (l : list (string * V)) (dst : gmap string W) k :
  NoDup l.*1 →
  fold_left (λ acc kv, <[ kv.1 := g kv.2 ]> acc) l dst !! k =
  match (list_to_map l : gmap string V) !! k with Some v => Some (g v) | None => dst !! k end.
Proof.
  revert dst. induction l as [|[k' v] l IH]; intros dst Hnd; simpl; [by rewrite lookup_empty|].
  apply NoDup_cons in Hnd as [Hk' Hnd]. rewrite IH by done. simpl.
  destruct (decide (k' = k)) as [->|Hne].
  - rewrite not_elem_of_list_to_map_1 by done. by rewrite !lookup_insert_eq.
  - by rewrite !lookup_insert_ne by done.
Qed.

Lemma range_to_map {V} (m : gmap string V) : (list_to_map (range m) : gmap string V) = m.
Proof.
  transitivity (list_to_map (map_to_list m) : gmap string V); [|apply list_to_map_to_list].
  apply list_to_map_proper.
  - rewrite range_perm. apply NoDup_fst_map_to_list.
  - apply range_perm.
Qed.

Lemma copy_into_lookup {V} (src dst : gmap string V) k :
  copy_into id id src dst !! k = match src !! k with Some v => Some v | None => dst !! k end.
Proof.
  unfold copy_into, id. rewrite (foldl_insert_lookup (λ v, v)) by apply keys_of_NoDup.
  by rewrite range_to_map.
Qed.

Lemma copy_into_union {V} (src dst : gmap string V) : copy_into id id src dst = src ∪ dst.
Proof. apply map_eq. intros k. rewrite copy_into_lookup, lookup_union. by destruct (src !! k), (dst !! k). Qed.

Lemma delete_keys_lookup {V W} (src : gmap string V) (dst : gmap string W) k :
  delete_keys src dst !! k = match src !! k with Some _ => None | None => dst !! k end.
Proof.
  unfold delete_keys.
  transitivity (match (list_to_map (range src) : gmap string V) !! k with
                | Some _ => None | None => dst !! k end); [|by rewrite range_to_map].
  generalize (keys_of_NoDup src). unfold keys_of. generalize (range src) as l. intros l.
  revert dst. induction l as [|[k' v] l IH]; intros dst Hnd; simpl; [by rewrite lookup_empty|].
  apply NoDup_cons in Hnd as [Hk' Hnd]. rewrite IH by done. simpl.
  destruct (decide (k' = k)) as [->|Hne].
  - rewrite not_elem_of_list_to_map_1, lookup_insert_eq by done. by rewrite lookup_delete_eq.
  - rewrite lookup_insert_ne by done. by rewrite lookup_delete_ne.
Qed.

Lemma EffectiveEnvironment_lookup defaults s k :
  EffectiveEnvironment defaults s !! k =
  match s.(svc_Bindings) !! k, s.(svc_Secrets) !! k, s.(svc_Env) !! k with
  | None, None, Some v => Some v
  | None, None, None => defaults !! k
  | _, _, _ => None
  end.
Proof.
  unfold EffectiveEnvironment. rewrite !delete_keys_lookup, !copy_into_lookup, lookup_empty.
  destruct (svc_Bindings s !! k), (svc_Secrets s !! k), (svc_Env s !! k), (defaults !! k); done.
Qed.

Lemma RuntimeEnvironment_eq app :
  RuntimeEnvironment app =
  set_app_InjectEnv false (set_app_Secrets ∅ (set_app_Env ∅
    (set_app_Services (Some (EffectiveService app <$> app_services app)) app))).
Proof.
  unfold RuntimeEnvironment. do 4 f_equal. f_equal. apply map_eq. intros k.
  rewrite foldl_insert_lookup by apply keys_of_NoDup.
  rewrite range_to_map, lookup_fmap, lookup_empty. by destruct (app_services app !! k).
Qed.

Lemma RuntimeEnvironment_services app :
  app_services (RuntimeEnvironment app) = EffectiveService app <$> app_services app.
Proof. by rewrite RuntimeEnvironment_eq. Qed.

Lemma RuntimeEnvironment_absorb app m :
  set_app_InjectEnv false (set_app_Secrets ∅ (set_app_Env ∅
    (set_app_Services (Some m) (RuntimeEnvironment app)))) =
  set_app_InjectEnv false (set_app_Secrets ∅ (set_app_Env ∅ (set_app_Services (Some m) app))).
Proof. by rewrite RuntimeEnvironment_eq. Qed.

Lemma is_Some_None_iff {A} : is_Some (@None A) ↔ False.
Proof. split; [by intros []|done]. Qed.
Lemma is_Some_Some_iff {A} (a : A) : is_Some (Some a) ↔ True.
Proof. split; eauto. Qed.

Section effective.
Context (app : Application) (s : Service) (Hact : s.(svc_Actions) = None).

Lemma EffectiveService_Secrets k :
  (EffectiveService app s).(svc_Secrets) !! k =
  match s.(svc_Bindings) !! k, s.(svc_Secrets) !! k, s.(svc_Env) !! k with
  | None, Some r, _ => Some r
  | None, None, None => app.(app_Secrets) !! k
  | _, _, _ => None
  end.
Proof.
  unfold EffectiveService. rewrite Hact. simpl.
  rewrite delete_keys_lookup, copy_into_lookup, delete_keys_lookup, copy_into_lookup, lookup_empty.
  destruct (svc_Bindings s !! k), (svc_Secrets s !! k), (svc_Env s !! k), (app_Secrets app !! k); done.
Qed.

Lemma EffectiveService_Env k :
  (EffectiveService app s).(svc_Env) !! k =
  match s.(svc_Bindings) !! k, s.(svc_Secrets) !! k, s.(svc_Env) !! k with
  | None, None, Some v => Some v
  | None, None, None =>
      match app.(app_Secrets) !! k with
      | Some _ => None
      | None => if app.(app_InjectEnv) then app.(app_Env) !! k else None
      end
  | _, _, _ => None
  end.
Proof.
  pose proof (EffectiveService_Secrets k) as Hs.
  revert Hs. unfold EffectiveService. rewrite Hact. simpl. intros Hs.
  rewrite EffectiveEnvironment_lookup. simpl. rewrite Hs.
  destruct (svc_Bindings s !! k), (svc_Secrets s !! k), (svc_Env s !! k), (app_Secrets app !! k);
    destruct (app_InjectEnv app); rewrite ?lookup_empty; done.
Qed.
End effective.

Lemma EffectiveService_Bindings app s :
  (EffectiveService app s).(svc_Bindings) = s.(svc_Bindings).
Proof. unfold EffectiveService. by destruct (svc_Actions s). Qed.

Lemma EffectiveService_Actions app s :
  (EffectiveService app s).(svc_Actions) = s.(svc_Actions).
Proof. unfold EffectiveService. by destruct (svc_Actions s) eqn:E. Qed.

(** A binding hides a secret reference and a value, a secret reference hides a
    value. *)
Lemma EffectiveService_disjoint app s k : s.(svc_Actions) = None →
  let e := EffectiveService app s in
  (is_Some (e.(svc_Bindings) !! k) → e.(svc_Secrets) !! k = None ∧ e.(svc_Env) !! k = None) ∧
  (is_Some (e.(svc_Secrets) !! k) → e.(svc_Env) !! k = None).
Proof.
  intros Hact. cbn zeta. rewrite EffectiveService_Bindings, EffectiveService_Secrets, EffectiveService_Env by done.
  destruct (svc_Bindings s !! k); [|destruct (svc_Secrets s !! k); [|destruct (svc_Env s !! k);
    [|destruct (app_Secrets app !! k)]]];
    rewrite ?is_Some_None_iff, ?is_Some_Some_iff; clear; intuition congruence.
Qed.

(** [set] with the value already there does nothing. *)
Lemma set_svc_Env_id s : set_svc_Env s.(svc_Env) s = s.
Proof. by destruct s. Qed.
Lemma set_svc_Secrets_id s : set_svc_Secrets s.(svc_Secrets) s = s.
Proof. by destruct s. Qed.

(** A service that inherited already inherits nothing more from an application
    without defaults. *)
Lemma EffectiveService_no_defaults app s :
  app.(app_Secrets) = ∅ → app.(app_InjectEnv) = false →
  (s.(svc_Actions) = None →
   ∀ k, (is_Some (s.(svc_Bindings) !! k) → s.(svc_Secrets) !! k = None ∧ s.(svc_Env) !! k = None) ∧
        (is_Some (s.(svc_Secrets) !! k) → s.(svc_Env) !! k = None)) →
  EffectiveService app s = s.
Proof.
  intros Hsec Hinj Hdis. destruct (svc_Actions s) eqn:Hact; [by unfold EffectiveService; rewrite Hact|].
  assert (H1 : (EffectiveService app s).(svc_Secrets) = s.(svc_Secrets)).
  { apply map_eq. intros k. rewrite EffectiveService_Secrets, Hsec, lookup_empty by done.
    destruct (Hdis eq_refl k) as [Hb Hs]. specialize (Hb).
    destruct (svc_Bindings s !! k); [by destruct Hb as [-> ?]|].
    by destruct (svc_Secrets s !! k), (svc_Env s !! k). }
  assert (H2 : (EffectiveService app s).(svc_Env) = s.(svc_Env)).
  { apply map_eq. intros k. rewrite EffectiveService_Env, Hsec, Hinj, lookup_empty by done.
    destruct (Hdis eq_refl k) as [Hb Hs].
    destruct (svc_Bindings s !! k); [by destruct Hb as [? ->]|].
    destruct (svc_Secrets s !! k); [by rewrite Hs|]. by destruct (svc_Env s !! k). }
  revert H1 H2. unfold EffectiveService. rewrite Hact. simpl. intros -> ->.
  by rewrite set_svc_Secrets_id, set_svc_Env_id.
Qed.
End facts.

(** * Properties *)

(** After inheritance each variable has one source: a binding hides a secret
    reference and a value, a secret reference hides a value, and the service's
    own definition hides the application's. *)
Theorem EffectiveService_sources `{RangeOrder} (app : Application) (s : Service) (k : string)
    (Hact : s.(svc_Actions) = None) :
  let e := EffectiveService app s in
  (is_Some (e.(svc_Bindings) !! k) → e.(svc_Secrets) !! k = None ∧ e.(svc_Env) !! k = None) ∧
  (is_Some (e.(svc_Secrets) !! k) → e.(svc_Env) !! k = None) ∧
  (is_Some (e.(svc_Bindings) !! k) ∨ is_Some (e.(svc_Secrets) !! k) ∨ is_Some (e.(svc_Env) !! k) ↔
   is_Some (s.(svc_Bindings) !! k) ∨ is_Some (s.(svc_Secrets) !! k) ∨ is_Some (s.(svc_Env) !! k) ∨
   is_Some (app.(app_Secrets) !! k) ∨ (app.(app_InjectEnv) = true ∧ is_Some (app.(app_Env) !! k))) ∧
  (s.(svc_Bindings) !! k = None → is_Some (s.(svc_Secrets) !! k) →
   e.(svc_Secrets) !! k = s.(svc_Secrets) !! k) ∧
  (s.(svc_Bindings) !! k = None → s.(svc_Secrets) !! k = None → is_Some (s.(svc_Env) !! k) →
   e.(svc_Env) !! k = s.(svc_Env) !! k).
Proof.
  cbn zeta. rewrite EffectiveService_Bindings, EffectiveService_Secrets, EffectiveService_Env by done.
  destruct (svc_Bindings s !! k); [|destruct (svc_Secrets s !! k); [|destruct (svc_Env s !! k);
    [|destruct (app_Secrets app !! k); [|destruct (app_InjectEnv app); [destruct (app_Env app !! k)|]]]]];
    rewrite ?is_Some_None_iff, ?is_Some_Some_iff; clear; intuition congruence.
Qed.

(** Expanding the defaults twice is expanding them once. *)
Theorem RuntimeEnvironment_idempotent `{RangeOrder} (app : Application) :
  RuntimeEnvironment (RuntimeEnvironment app) = RuntimeEnvironment app.
Proof.
  rewrite (RuntimeEnvironment_eq (RuntimeEnvironment app)), RuntimeEnvironment_absorb.
  rewrite RuntimeEnvironment_services, <-map_fmap_compose.
  rewrite (RuntimeEnvironment_eq app). do 5 f_equal.
  apply map_fmap_ext. intros name s Hs. unfold compose.
  apply EffectiveService_no_defaults; [done|done|].
  rewrite EffectiveService_Actions. intros Hact k.
  exact (EffectiveService_disjoint app s k Hact).
Qed.

(** A service whose own variable hides an inherited secret. *)
Lemma EffectiveService_sources_witness :
  svc_Env (EffectiveService
    (set_app_Secrets {["TOKEN" := mkSecretRef "shared" EmptyString EmptyString EmptyString]} zero_Application)
    (set_svc_Env {["TOKEN" := "own"]} zero_Service)) !! "TOKEN" = Some "own".
Proof.
  refine (proj2 (proj2 (proj2 (proj2 (EffectiveService_sources
    (set_app_Secrets {["TOKEN" := mkSecretRef "shared" EmptyString EmptyString EmptyString]} zero_Application)
    (set_svc_Env {["TOKEN" := "own"]} zero_Service) "TOKEN" eq_refl)))) _ _ _); [reflexivity|reflexivity|].
  eexists. reflexivity.
Defined.
