(* ===== verification/SpecResources.v ===== *)
(** Resource budgets (resources.go and [PodResources] of sidecars.go): the size
    profiles, a service's overrides, their normalisation, the ceiling check and
    the budget of a pod with its sidecars. *)
From S2P Require Import Prelude GoStd Regex SpecTypes Platform SpecChecks.
#[global] Open Scope Z_scope.

(** * Profiles *)

Record Profile : Type := mkProfile {
  p_CPURequest : string;
  p_CPULimit : string;
  p_MemoryRequest : string;
  p_MemoryLimit : string;
}.

Definition Profiles : gmap string Profile := list_to_map [
  ("small", mkProfile "120m" "600m" "154Mi" "308Mi");
  ("medium", mkProfile "300m" "1200m" "308Mi" "615Mi");
  ("large", mkProfile "600m" "2400m" "615Mi" "1229Mi");
  ("compute", mkProfile "1200m" "4800m" "2458Mi" "4916Mi");
  ("gpu", mkProfile "2" "8" "8Gi" "16Gi")].

Definition small_profile : Profile := mkProfile "120m" "600m" "154Mi" "308Mi".

(** [^(?:[0-9]+(?:\.[0-9]{1,3})?|[0-9]+m)$] *)
Definition cpuQuantity : regex :=
  let d := RCls digit in
  RAlt (RCat (RPlus d) (ROpt (RCat (RLit ".") (RRep d 1 3)))) (RCat (RPlus d) (RLit "m")).
(** [^[0-9]+(?:Ki|Mi|Gi|Ti|k|M|G|T)?$] *)
Definition memoryQuantity : regex :=
  RCat (RPlus (RCls digit))
    (ROpt (RAlts (RLit <$> ["Ki"; "Mi"; "Gi"; "Ti"; "k"; "M"; "G"; "T"]))).

Definition override (value inherited : string) : string :=
  if is_empty value then inherited else value.

Definition EffectiveResources (s : Service) : Profile :=
  let p := default small_profile (Profiles !! s.(svc_Size)) in
  match s.(svc_Resources) with
  | None => p
  | Some r =>
      mkProfile (override r.(res_CPURequest) p.(p_CPURequest))
                (override r.(res_CPULimit) p.(p_CPULimit))
                (override r.(res_MemoryRequest) p.(p_MemoryRequest))
                (override r.(res_MemoryLimit) p.(p_MemoryLimit))
  end.

(** The pattern, bounds and help text the loop over the fields selects. *)
Definition quantity_pattern (cpu : bool) : regex := if cpu then cpuQuantity else memoryQuantity.
Definition quantity_lower (cpu : bool) : string := if cpu then "1m" else "1Mi".
Definition quantity_upper (cpu : bool) : string := if cpu then "64" else "256Gi".
Definition quantity_help (cpu : bool) : string :=
  if cpu then "use CPU cores or millicores (1m–64 cores), such as 250m or 0.5"
  else "use whole bytes or Ki/Mi/Gi (1Mi–256Gi)".

Section resources.
Context `{Quantity}.

(** One iteration of the loop over the four fields. *)
Definition normalize_quantity (name : string) (cpu : bool) (value : string) : result string :=
  if is_empty value then Ok value
  else
    let bad := Errorf "resources.%s: %s" [AStr name; AStr (quantity_help cpu)] in
    _ ← fail_when ((32 <? len value) || negb (full_match (quantity_pattern cpu) value)) bad;
    match ParseQuantity value with
    | None => Err bad
    | Some q =>
        _ ← fail_when (q_lt (Some q) (MustParse (quantity_lower cpu)) ||
                       q_gt (Some q) (MustParse (quantity_upper cpu))) bad;
        Ok (q_String q)
    end.

Definition check_request_limit (name request limit : string) : result unit :=
  fail_when (q_gt (MustParse request) (MustParse limit))
    (Errorf "resources.%s: request must not exceed its limit; omitted values inherit the size profile"
       [AStr name]).

Definition normalizeResources (s : Service) : result Service :=
  match s.(svc_Resources) with
  | None => Ok s
  | Some r =>
      a ← normalize_quantity "cpu_request" true r.(res_CPURequest);
      b ← normalize_quantity "cpu_limit" true r.(res_CPULimit);
      c ← normalize_quantity "memory_request" false r.(res_MemoryRequest);
      d ← normalize_quantity "memory_limit" false r.(res_MemoryLimit);
      let r := mkResources a b c d in
      if bool_decide (r = zero_Resources) then Ok (set_svc_Resources None s)
      else
        let s := set_svc_Resources (Some r) s in
        let p := EffectiveResources s in
        _ ← check_request_limit "cpu_request" p.(p_CPURequest) p.(p_CPULimit);
        _ ← check_request_limit "memory_request" p.(p_MemoryRequest) p.(p_MemoryLimit);
        Ok s
  end.

Definition ValidateResourceCeiling (s : Service) (ceiling : Profile) : result unit :=
  s ← normalizeResources s;
  let p := EffectiveResources s in
  iterM (λ '(name, value, maximum),
    fail_when (q_gt (MustParse value) (MustParse maximum))
      (Errorf "resources.%s: this compute allows at most %s per service replica"
         [AStr name; AStr maximum]))
    [("cpu_request", p.(p_CPURequest), ceiling.(p_CPURequest));
     ("cpu_limit", p.(p_CPULimit), ceiling.(p_CPULimit));
     ("memory_request", p.(p_MemoryRequest), ceiling.(p_MemoryRequest));
     ("memory_limit", p.(p_MemoryLimit), ceiling.(p_MemoryLimit))].

(** [sum] of [PodResources]; [None] is the panic of [MustParse]. *)
Definition sum_quantities (base : string) (add : list string) : option string :=
  q ← MustParse base;
  q ← fold_left (λ acc a, q ← acc; v ← MustParse a; Some (q_Add q v)) add (Some q);
  Some (q_String q).

Definition PodResources (s : Service) : option Profile :=
  let p := EffectiveResources s in
  if negb (non_empty s.(svc_Sidecars)) then Some p
  else
    let cpu := sc_CPU <$> s.(svc_Sidecars) in
    let memory := sc_Memory <$> s.(svc_Sidecars) in
    cr ← sum_quantities p.(p_CPURequest) cpu;
    cl ← sum_quantities p.(p_CPULimit) cpu;
    mr ← sum_quantities p.(p_MemoryRequest) memory;
    ml ← sum_quantities p.(p_MemoryLimit) memory;
    Some (mkProfile cr cl mr ml).
End resources.

(** Documented behaviour: the canonical text of a quantity stays in the family
    of suffixes it was written in, without a fraction and no longer. *)
Class QuantityText (Q : Quantity) := {
  q_String_text : ∀ (cpu : bool) s q,
    full_match (quantity_pattern cpu) s = true → len s <= 32 → ParseQuantity s = Some q →
    q_lt (Some q) (MustParse (quantity_lower cpu)) = false →
    q_gt (Some q) (MustParse (quantity_upper cpu)) = false →
    full_match (quantity_pattern cpu) (q_String q) = true ∧ len (q_String q) <= 32;
}.

#[export] Instance concrete_quantity_text : QuantityText Concrete.quantity_text.
Proof.
  constructor; simpl; intros cpu s q Hm Hl Hs _ _.
  destruct (Concrete.parse_value s) as [v|]; simplify_eq/=; done.
Qed.

#[global] Opaque cpuQuantity memoryQuantity Profiles.

(** * Facts *)

Section facts.
Context `{Q : Quantity}.

(** What [normalize_quantity] promises of an accepted value. *)
Definition quantity_in (cpu : bool) (value : string) : Prop :=
  value = EmptyString ∨
  ∃ q, ParseQuantity value = Some q ∧
       q_lt (Some q) (MustParse (quantity_lower cpu)) = false ∧
       q_gt (Some q) (MustParse (quantity_upper cpu)) = false.

Context `{!QuantityLaws Q}.

Lemma q_eq_le a b c : q_Cmp a b = 0 → (q_Cmp a c <= 0 ↔ q_Cmp b c <= 0).
Proof.
  intros Hab.
  assert (Hba : q_Cmp b a <= 0) by (apply q_Cmp_antisym; lia).
  split; intros; eapply q_Cmp_trans; try eassumption; lia.
Qed.

Lemma q_eq_le_r a b c : q_Cmp a b = 0 → (q_Cmp c a <= 0 ↔ q_Cmp c b <= 0).
Proof.
  intros Hab.
  assert (Hba : q_Cmp b a <= 0) by (apply q_Cmp_antisym; lia).
  split; intros; eapply q_Cmp_trans; try eassumption; lia.
Qed.

Lemma q_gt_false a b : q_gt (Some a) (Some b) = false ↔ q_Cmp a b <= 0.
Proof. unfold q_gt. rewrite Z.ltb_ge. done. Qed.
Lemma q_lt_false a b : q_lt (Some a) (Some b) = false ↔ q_Cmp b a <= 0.
Proof. unfold q_lt. rewrite Z.ltb_ge. by rewrite (q_Cmp_antisym b a). Qed.

(** Equal quantities compare alike. *)
Lemma q_gt_eq a b o : q_Cmp a b = 0 → q_gt (Some a) o = q_gt (Some b) o.
Proof.
  intros Hab. destruct o as [c|]; [|done]. apply eq_true_iff_eq.
  rewrite <-!not_false_iff_true, !q_gt_false. by rewrite (q_eq_le a b).
Qed.
Lemma q_lt_eq a b o : q_Cmp a b = 0 → q_lt (Some a) o = q_lt (Some b) o.
Proof.
  intros Hab. destruct o as [c|]; [|done]. apply eq_true_iff_eq.
  rewrite <-!not_false_iff_true, !q_lt_false. by rewrite (q_eq_le_r a b).
Qed.

Lemma normalize_quantity_Ok name cpu value v' :
  normalize_quantity name cpu value = Ok v' ↔
  (value = EmptyString ∧ v' = EmptyString) ∨
  (value ≠ EmptyString ∧ len value <= 32 ∧ full_match (quantity_pattern cpu) value = true ∧
   ∃ q, ParseQuantity value = Some q ∧ v' = q_String q ∧
        q_lt (Some q) (MustParse (quantity_lower cpu)) = false ∧
        q_gt (Some q) (MustParse (quantity_upper cpu)) = false).
Proof.
  unfold normalize_quantity. destruct (is_empty value) eqn:He.
  { apply is_empty_true in He as ->. rewrite Ok_inj. naive_solver. }
  apply is_empty_false in He. cbv zeta.
  rewrite bind_unit_Ok, fail_when_Ok, orb_false_iff, Z.ltb_ge, negb_false_iff.
  destruct (ParseQuantity value) as [q|]; [|naive_solver].
  rewrite bind_unit_Ok, fail_when_Ok, orb_false_iff, Ok_inj. naive_solver.
Qed.

Lemma normalize_quantity_in name cpu value v' :
  normalize_quantity name cpu value = Ok v' → quantity_in cpu v'.
Proof.
  rewrite normalize_quantity_Ok. intros [[-> ->]|(_ & _ & _ & q & Hq & -> & Hlo & Hhi)]; [by left|].
  destruct (q_String_parse value q Hq) as (q' & Hq' & Heq & Hs). right. exists q'.
  by rewrite <-(q_gt_eq q q'), <-(q_lt_eq q q').
Qed.

Context `{!QuantityText Q}.

Lemma normalize_quantity_again name cpu value v' :
  normalize_quantity name cpu value = Ok v' → normalize_quantity name cpu v' = Ok v'.
Proof.
  rewrite !normalize_quantity_Ok.
  intros [[-> ->]|(Hne & Hl & Hm & q & Hq & -> & Hlo & Hhi)]; [by left|].
  destruct (decide (q_String q = EmptyString)) as [->|Hne']; [by left|right].
  destruct (q_String_parse value q Hq) as (q' & Hq' & Heq & Hs).
  destruct (q_String_text cpu value q Hm Hl Hq Hlo Hhi).
  split_and!; try done. exists q'. by rewrite <-(q_gt_eq q q'), <-(q_lt_eq q q').
Qed.

(** ** Whole services *)

Definition resources_in (r : Resources) : Prop :=
  quantity_in true r.(res_CPURequest) ∧ quantity_in true r.(res_CPULimit) ∧
  quantity_in false r.(res_MemoryRequest) ∧ quantity_in false r.(res_MemoryLimit).

Definition request_below_limit (p : Profile) : Prop :=
  q_gt (MustParse p.(p_CPURequest)) (MustParse p.(p_CPULimit)) = false ∧
  q_gt (MustParse p.(p_MemoryRequest)) (MustParse p.(p_MemoryLimit)) = false.

Lemma set_svc_Resources_id s : set_svc_Resources s.(svc_Resources) s = s.
Proof. by destruct s. Qed.

(** The result differs from the input in its overrides only. *)
Lemma normalizeResources_frame s s' :
  normalizeResources s = Ok s' → s' = set_svc_Resources s'.(svc_Resources) s.
Proof.
  unfold normalizeResources. destruct (svc_Resources s) as [r|] eqn:Hr.
  - intros Hok. inv_ok. case_bool_decide; inv_ok; reflexivity.
  - intros [= <-]. by rewrite set_svc_Resources_id.
Qed.

Lemma normalizeResources_again s s' :
  normalizeResources s = Ok s' → normalizeResources s' = Ok s'.
Proof.
  unfold normalizeResources at 1. destruct (svc_Resources s) as [r|] eqn:Hr.
  - intros Hok. inv_ok. case_bool_decide as Hz; inv_ok; [done|].
    unfold normalizeResources. cbn [svc_Resources set_svc_Resources].
    cbn [res_CPURequest res_CPULimit res_MemoryRequest res_MemoryLimit].
    repeat match goal with
    | H : normalize_quantity _ _ _ = Ok ?a |- context [normalize_quantity ?n ?c ?a] =>
        rewrite (normalize_quantity_again _ _ _ _ H); cbn [mbind result_bind]
    end.
    rewrite bool_decide_false by done.
    match goal with H : check_request_limit "cpu_request" _ _ = _ |- _ => rename H into H1 end.
    match goal with H : check_request_limit "memory_request" _ _ = _ |- _ => rename H into H2 end.
    revert H1 H2. change (set_svc_Resources ?x (set_svc_Resources ?y s)) with (set_svc_Resources x s).
    intros -> ->. done.
  - intros [= <-]. unfold normalizeResources. by rewrite Hr.
Qed.
End facts.
