(* ===== verification/SharedVolumes.v ===== *)
(** Shared ReadWriteOnce volumes (shared_volumes.go): the groups of services that
    a node-local volume ties to one node, as connected components of the sharing
    relation, and the placement the members of a group agree on. *)
From S2P Require Import Prelude GoStd SpecTypes SpecServices.
#[global] Open Scope Z_scope.

(** * The groups *)

(** [ok && volume.AccessMode != "ReadWriteMany"] *)
Definition rwo_volume (app : Application) (v : string) : bool :=
  match app.(app_Volumes) !! v with
  | Some volume => negb (volume.(nv_AccessMode) =? "ReadWriteMany")%string
  | None => false
  end.

Definition service_mounts (app : Application) (name : string) : list Mount :=
  match app_services app !! name with Some s => s.(svc_Mounts) | None => [] end.

Definition add_user (name : string) (users : gmap string (list string)) (v : string)
    : gmap string (list string) :=
  let l := default [] (users !! v) in
  if one_of name l then users else <[ v := l ++ [name] ]> users.

Definition volume_users (app : Application) : gmap string (list string) :=
  fold_left (λ users name,
    fold_left (λ users mount,
      if rwo_volume app mount.(mt_Volume) then add_user name users mount.(mt_Volume) else users)
      (service_mounts app name) users) (Names app) ∅.

Section groups.
Context `{RangeOrder}.

Definition add_neighbors (members : list string) (neighbors : gmap string (list string))
    : gmap string (list string) :=
  fold_left (λ acc name, <[ name := default [] (acc !! name) ++ members ]> acc) members neighbors.

Definition volume_neighbors (app : Application) : gmap string (list string) :=
  fold_left (λ acc kv, if lenl kv.2 <? 2 then acc else add_neighbors kv.2 acc)
    (range (volume_users app)) ∅.

(** The queue loop: [seen] and [group] once the queue is empty. *)
Fixpoint visit (neighbors : gmap string (list string)) (fuel : nat) (queue : list string)
    (seen : gset string) (group : list string) : option (gset string * list string) :=
  match queue with
  | [] => Some (seen, group)
  | current :: queue =>
      match fuel with
      | O => None
      | S fuel =>
          if bool_decide (current ∈ seen) then visit neighbors fuel queue seen group
          else visit neighbors fuel (queue ++ default [] (neighbors !! current))
                 ({[ current ]} ∪ seen) (group ++ [current])
      end
  end.

(** Every dequeued name was enqueued by the start or by one visit of a
    neighbour, and each name is visited once. *)
Definition visit_fuel (neighbors : gmap string (list string)) : nat :=
  S (map_fold (λ _ l n, length l + n)%nat 0%nat neighbors).

(** One name of the outer loop: [seen] and the groups found. *)
Definition group_step (neighbors : gmap string (list string)) (st : gset string * list (list string))
    (name : string) : gset string * list (list string) :=
  let '(seen, groups) := st in
  if bool_decide (name ∈ seen) || (lenl (default [] (neighbors !! name)) =? 0) then (seen, groups)
  else match visit neighbors (visit_fuel neighbors) [name] seen [] with
       | Some (seen, group) => (seen, groups ++ [sort_strings group])
       | None => (seen, groups)
       end.

Definition SharedReadWriteOnceGroups (app : Application) : list (list string) :=
  (fold_left (group_step (volume_neighbors app)) (Names app) (∅, [])).2.

Definition join_placement (name : string) (acc : string * string) (service : Service)
    : result (string * string) :=
  let '(node, architecture) := acc in
  _ ← fail_when (non_nil service.(svc_Job) || non_nil service.(svc_Actions))
        (Errorf "services.%s: jobs and Managed Actions cannot share ReadWriteOnce volumes across services" [AStr name]);
  _ ← fail_when (negb (is_empty service.(svc_NodeName)) && negb (is_empty node) &&
                 negb (node =? service.(svc_NodeName))%string)
        (Errorf "services.%s.node_name: services sharing ReadWriteOnce storage must use the same node" [AStr name]);
  let node := if is_empty service.(svc_NodeName) then node else service.(svc_NodeName) in
  _ ← fail_when (negb (is_empty service.(svc_Architecture)) && negb (is_empty architecture) &&
                 negb (architecture =? service.(svc_Architecture))%string)
        (Errorf "services.%s.architecture: services sharing ReadWriteOnce storage must use the same architecture" [AStr name]);
  let architecture := if is_empty service.(svc_Architecture) then architecture else service.(svc_Architecture) in
  Ok (node, architecture).

(** [service.NodeName = node; service.Architecture = architecture] on a member. *)
Definition place (node architecture : string) (app : Application) (name : string) : Application :=
  match app_services app !! name with
  | Some s => put_service name (set_svc_Architecture architecture (set_svc_NodeName node s)) app
  | None => app
  end.

(** Group members are service names of [app], so the lookups succeed. *)
Definition normalize_group (app : Application) (group : list string) : result Application :=
  '(node, architecture) ← foldM (λ acc name,
      match app_services app !! name with
      | Some service => join_placement name acc service
      | None => Ok acc
      end) (EmptyString, EmptyString) group;
  Ok (fold_left (place node architecture) group app).

Definition normalizeSharedReadWriteOnce (app : Application) : result Application :=
  foldM normalize_group app (SharedReadWriteOnceGroups app).
End groups.

(** * The worklist search

    [visit] computes the names reachable from its start. *)

Section search.
Context (nb : gmap string (list string)).

Definition next (a : string) : list string := default [] (nb !! a).
Definition edge (a b : string) : Prop := b ∈ next a.

(** ** Fuel *)

Definition weight (seen : gset string) (m : gmap string (list string)) : nat :=
  map_fold (λ k l n, if decide (k ∈ seen) then n else length l + n)%nat 0%nat m.

Lemma weight_insert seen k l m : m !! k = None →
  weight seen (<[k := l]> m) = ((if decide (k ∈ seen) then 0 else length l) + weight seen m)%nat.
Proof.
  intros Hk. unfold weight. rewrite map_fold_insert_L; [|intros; repeat case_decide; lia|done].
  case_decide; lia.
Qed.

Lemma weight_le seen m : (weight seen m ≤ weight ∅ m)%nat.
Proof.
  induction m as [|k l m Hk IH] using map_ind; [done|]. rewrite !weight_insert by done.
  rewrite (decide_False (P := k ∈ ∅)) by apply not_elem_of_empty. case_decide; lia.
Qed.

Lemma weight_see seen k m : k ∉ seen →
  (weight ({[k]} ∪ seen) m + length (default [] (m !! k)) = weight seen m)%nat.
Proof.
  intros Hn. induction m as [|j l m Hj IH] using map_ind; [by rewrite lookup_empty|].
  rewrite !weight_insert by done. destruct (decide (j = k)) as [->|Hjk].
  - rewrite lookup_insert_eq. simpl. rewrite decide_True by set_solver. rewrite decide_False by done.
    rewrite Hj in IH. simpl in IH. lia.
  - rewrite lookup_insert_ne by done.
    destruct (decide (j ∈ seen)); [rewrite decide_True by set_solver|rewrite decide_False by set_solver]; lia.
Qed.

Lemma visit_total fuel : ∀ queue seen group,
  (length queue + weight seen nb ≤ fuel)%nat → is_Some (visit nb fuel queue seen group).
Proof.
  induction fuel as [|fuel IH]; intros [|c queue] seen group; simpl; intros Hf; [done|lia|done|].
  case_bool_decide as Hc; apply IH; [lia|]. rewrite length_app.
  pose proof (weight_see seen c nb Hc). lia.
Qed.

Lemma visit_fuel_enough start seen group : is_Some (visit nb (visit_fuel nb) [start] seen group).
Proof.
  apply visit_total. simpl. pose proof (weight_le seen nb) as Hle. unfold visit_fuel.
  enough (weight ∅ nb = map_fold (λ _ l n, length l + n)%nat 0%nat nb) by lia.
  clear. induction nb as [|k l m Hk IH] using map_ind; [done|]. rewrite weight_insert by done.
  rewrite decide_False by apply not_elem_of_empty.
  rewrite map_fold_insert_L; [|intros; lia|done]. lia.
Qed.

(** ** Reachability *)

Context (Hsym : ∀ a b, edge a b → edge b a).

Definition closed (X : gset string) : Prop := ∀ a b, a ∈ X → edge a b → b ∈ X.

Lemma closed_reach X a b : closed X → a ∈ X → rtc edge a b → b ∈ X.
Proof. intros HX Ha Hab. revert Ha. induction Hab; eauto. Qed.

Lemma reach_sym a b : rtc edge a b → rtc edge b a.
Proof.
  induction 1 as [|a b c Hab _ IH]; [done|]. eapply rtc_r; [exact IH|]. by apply Hsym.
Qed.

Section run.
Context (start : string) (seen0 : gset string).
Context (Hclosed : closed seen0) (Hstart : start ∉ seen0).

Lemma reach_fresh x : rtc edge start x → x ∉ seen0.
Proof. intros Hx Hin. apply Hstart. eapply closed_reach; [done|exact Hin|]. by apply reach_sym. Qed.

Record search_inv (queue : list string) (seen : gset string) (group : list string) : Prop := {
  si_seen : ∀ x, x ∈ seen ↔ x ∈ seen0 ∨ x ∈ group;
  si_NoDup : NoDup group;
  si_edges : ∀ x y, x ∈ group → edge x y → y ∈ seen ∨ y ∈ queue;
  si_reach : ∀ x, x ∈ group ∨ x ∈ queue → rtc edge start x;
  si_start : start ∈ group ∨ start ∈ queue;
}.

Lemma visit_inv fuel : ∀ queue seen group seen' group',
  search_inv queue seen group → visit nb fuel queue seen group = Some (seen', group') →
  search_inv [] seen' group'.
Proof.
  induction fuel as [|fuel IH]; intros [|c queue] seen group seen' group' Hinv; simpl;
    [by intros [= <- <-]|done|by intros [= <- <-]|].
  destruct Hinv as [Hseen Hnd Hedges Hreach Hst].
  case_bool_decide as Hc; apply IH; split.
  - done.
  - done.
  - intros x y Hx Hxy. destruct (Hedges x y Hx Hxy) as [|[->|]%elem_of_cons]; auto.
  - intros x [Hx|Hx]; apply Hreach; [by left|]. right. by right.
  - destruct Hst as [|[->|]%elem_of_cons]; auto. apply Hseen in Hc as [Hc|]; [done|by left].
  - intros x. rewrite elem_of_union, elem_of_singleton, elem_of_app, list_elem_of_singleton, Hseen.
    tauto.
  - apply NoDup_snoc. split; [done|]. intros Hin. apply Hc. apply Hseen. by right.
  - intros x y [Hx| ->%list_elem_of_singleton]%elem_of_app Hxy.
    + rewrite elem_of_union, elem_of_app.
      destruct (Hedges x y Hx Hxy) as [|[->|]%elem_of_cons]; [by left; right| |by right; left].
      left. left. by apply elem_of_singleton.
    + right. apply elem_of_app. by right.
  - assert (rtc edge start c) as Hsc by (apply Hreach; right; by left).
    intros x [[Hx| ->%list_elem_of_singleton]%elem_of_app|[Hx|Hx]%elem_of_app]; [|done| |].
    + apply Hreach. by left.
    + apply Hreach. right. by right.
    + by eapply rtc_r.
  - rewrite !elem_of_app, list_elem_of_singleton.
    destruct Hst as [|[->|]%elem_of_cons]; auto.
Qed.

(** The search returns exactly what its start reaches. *)
Lemma visit_reach fuel seen' group' :
  visit nb fuel [start] seen0 [] = Some (seen', group') →
  NoDup group' ∧ (∀ x, x ∈ group' ↔ rtc edge start x) ∧ ∀ x, x ∈ seen' ↔ x ∈ seen0 ∨ x ∈ group'.
Proof.
  intros Hv. eapply visit_inv in Hv as [Hseen Hnd Hedges Hreach Hst].
  - split_and!; [done| |done]. intros x. split; [intros Hx; apply Hreach; by left|].
    assert (start ∈ group') as Hs by (destruct Hst as [|[]%not_elem_of_nil]; done).
    cut (∀ y, rtc edge start y → y ∈ group' → ∀ z, rtc edge y z → z ∈ group').
    { intros Hgen Hx. by eapply (Hgen start). }
    intros y Hy Hin z Hyz. revert Hy Hin. induction Hyz as [|y w z Hyw _ IH]; [done|].
    intros Hy Hin. apply IH; [by eapply rtc_r|].
    destruct (Hedges _ _ Hin Hyw) as [Hw|[]%not_elem_of_nil]. apply Hseen in Hw as [Hw|]; [|done].
    exfalso. by eapply reach_fresh; [|exact Hw]; eapply rtc_r.
  - split.
    + intros x. split; [by left|]. intros [|[]%not_elem_of_nil]; done.
    + constructor.
    + intros x y []%not_elem_of_nil.
    + intros x [[]%not_elem_of_nil| ->%list_elem_of_singleton]. done.
    + right. by apply list_elem_of_singleton.
Qed.
End run.
End search.

(** * Users and neighbours *)

Section users.
Context (app : Application).

(** A service mounts a volume; two services share a node-local volume. *)
Definition mounts (a v : string) : Prop := ∃ m, m ∈ service_mounts app a ∧ m.(mt_Volume) = v.
Definition shares (a b : string) : Prop := ∃ v, rwo_volume app v = true ∧ mounts a v ∧ mounts b v.

Definition users_of (users : gmap string (list string)) (v : string) : list string := default [] (users !! v).

Lemma add_user_of name users v w a :
  a ∈ users_of (add_user name users v) w ↔ a ∈ users_of users w ∨ (w = v ∧ a = name).
Proof.
  unfold users_of, add_user. destruct (one_of name _) eqn:Hin.
  - apply one_of_spec in Hin. naive_solver.
  - destruct (decide (w = v)) as [->|Hw].
    + rewrite lookup_insert_eq. simpl. rewrite elem_of_app, list_elem_of_singleton. naive_solver.
    + rewrite lookup_insert_ne by done. naive_solver.
Qed.

Lemma add_user_NoDup name users v :
  (∀ w, NoDup (users_of users w)) → ∀ w, NoDup (users_of (add_user name users v) w).
Proof.
  intros Hnd w. specialize (Hnd w). unfold users_of, add_user in *. destruct (one_of name _) eqn:Hin; [done|].
  apply one_of_false in Hin. destruct (decide (w = v)) as [->|Hw].
  - rewrite lookup_insert_eq. simpl. by apply NoDup_snoc.
  - by rewrite lookup_insert_ne.
Qed.

Definition add_mount (name : string) (users : gmap string (list string)) (mount : Mount) :=
  if rwo_volume app mount.(mt_Volume) then add_user name users mount.(mt_Volume) else users.

Lemma add_mount_of name users m w a :
  a ∈ users_of (add_mount name users m) w ↔
  a ∈ users_of users w ∨ (a = name ∧ w = m.(mt_Volume) ∧ rwo_volume app w = true).
Proof.
  unfold add_mount. destruct (rwo_volume app (mt_Volume m)) eqn:Hrwo; [rewrite add_user_of|].
  - clear -Hrwo. intuition congruence.
  - clear -Hrwo. intuition congruence.
Qed.

Lemma fold_mounts name ms : ∀ users w,
  (∀ a, a ∈ users_of (fold_left (add_mount name) ms users) w ↔
     a ∈ users_of users w ∨ (a = name ∧ rwo_volume app w = true ∧ ∃ m, m ∈ ms ∧ m.(mt_Volume) = w)) ∧
  ((∀ v, NoDup (users_of users v)) → NoDup (users_of (fold_left (add_mount name) ms users) w)).
Proof.
  induction ms as [|m ms IH]; intros users w; simpl.
  { split; [|auto]. intros a. split; [by left|]. intros [|(_ & _ & m & []%not_elem_of_nil & _)]; done. }
  destruct (IH (add_mount name users m) w) as [Hin Hnd]. unfold add_mount in *.
  split.
  - intros a. rewrite Hin, (add_mount_of name users m w a : a ∈ users_of (if rwo_volume _ _ then _ else _) w ↔ _).
    setoid_rewrite elem_of_cons. clear. split.
    + intros [[?|(-> & -> & ?)]|(-> & ? & m' & ? & ?)]; eauto 10.
    + intros [?|(-> & Hw & m' & [->|?] & Hm)]; [eauto|subst w; eauto 6|eauto 6].
  - intros Hu. apply Hnd. destruct (rwo_volume app (mt_Volume m)); [by apply add_user_NoDup|done].
Qed.

Lemma volume_users_spec v :
  (∀ a, a ∈ users_of (volume_users app) v ↔ rwo_volume app v = true ∧ mounts a v) ∧
  NoDup (users_of (volume_users app) v).
Proof.
  assert (∀ names users, (∀ a, a ∈ users_of (fold_left (λ users name,
      fold_left (add_mount name) (service_mounts app name) users) names users) v ↔
      a ∈ users_of users v ∨ (a ∈ names ∧ rwo_volume app v = true ∧ mounts a v)) ∧
    ((∀ v, NoDup (users_of users v)) → NoDup (users_of (fold_left (λ users name,
      fold_left (add_mount name) (service_mounts app name) users) names users) v))) as Hgen.
  { induction names as [|n names IH]; intros users; simpl.
    { split; [|auto]. intros a. split; [by left|]. intros [|([]%not_elem_of_nil & _)]; done. }
    destruct (IH (fold_left (add_mount n) (service_mounts app n) users)) as [Hin Hnd]. split.
    - intros a. rewrite Hin. destruct (fold_mounts n (service_mounts app n) users v) as [-> _].
      setoid_rewrite elem_of_cons. unfold mounts. clear. split.
      * intros [[?|(-> & ? & ?)]|(? & ? & ?)]; eauto 10.
      * intros [?|([->|?] & ? & ?)]; eauto 6.
    - intros Hu. apply Hnd. intros w. by apply (fold_mounts n (service_mounts app n) users w). }
  destruct (Hgen (Names app) ∅) as [Hin Hnd]. split.
  - intros a. unfold volume_users. rewrite (Hin a). unfold users_of. rewrite lookup_empty. simpl.
    split; [intros [[]%not_elem_of_nil|(_ & ?)]; done|]. intros [Hv Hm]. right. split_and!; [|done..].
    apply elem_of_Names. destruct Hm as (m & Hm & _). unfold service_mounts in Hm.
    destruct (app_services app !! a); [done|]. by apply not_elem_of_nil in Hm.
  - apply Hnd. intros w. unfold users_of. rewrite lookup_empty. constructor.
Qed.

Lemma shares_sym a b : shares a b → shares b a.
Proof. intros (v & ? & ? & ?). by exists v. Qed.

Context `{RangeOrder}.

Lemma fold_members ms mem : ∀ acc a b,
  b ∈ next (fold_left (λ acc name, <[ name := default [] (acc !! name) ++ mem ]> acc) ms acc) a ↔
  b ∈ next acc a ∨ (a ∈ ms ∧ b ∈ mem).
Proof.
  induction ms as [|m ms IH]; intros acc a b; simpl.
  { split; [by left|]. intros [|([]%not_elem_of_nil & _)]; done. }
  rewrite IH, elem_of_cons. unfold next at 1. destruct (decide (a = m)) as [->|Hm].
  - rewrite lookup_insert_eq. simpl. rewrite elem_of_app. unfold next. naive_solver.
  - rewrite lookup_insert_ne by done. unfold next. naive_solver.
Qed.

Lemma volume_neighbors_spec a b :
  edge (volume_neighbors app) a b ↔
  ∃ v, rwo_volume app v = true ∧ mounts a v ∧ mounts b v ∧ 2 ≤ lenl (users_of (volume_users app) v).
Proof.
  assert (∀ l acc, b ∈ next (fold_left (λ acc (kv : string * list string),
      if lenl kv.2 <? 2 then acc else add_neighbors kv.2 acc) l acc) a ↔
    b ∈ next acc a ∨ ∃ kv, kv ∈ l ∧ 2 ≤ lenl kv.2 ∧ a ∈ kv.2 ∧ b ∈ kv.2) as Hgen.
  { induction l as [|[v us] l IH]; intros acc; simpl.
    { split; [by left|]. intros [|(kv & []%not_elem_of_nil & _)]; done. }
    rewrite IH. setoid_rewrite elem_of_cons. destruct (lenl us <? 2) eqn:Hlen; zify_bool.
    - split; [naive_solver|]. intros [?|(kv & [->|?] & ? & ?)]; [by left|simpl in *; lia|eauto 6].
    - unfold add_neighbors. rewrite fold_members. split.
      + intros [[?|[??]]|(kv & ? & ?)]; [by left|right; exists (v, us); simpl; auto|eauto 6].
      + intros [?|(kv & [->|?] & ? & ? & ?)]; [by left; left|left; right; auto|right; eauto]. }
  unfold edge, volume_neighbors. rewrite Hgen. unfold next at 1. rewrite lookup_empty. simpl.
  setoid_rewrite range_perm. split.
  - intros [[]%not_elem_of_nil|([v us] & Hin & Hlen & Ha & Hb)]. apply elem_of_map_to_list in Hin.
    exists v. assert (users_of (volume_users app) v = us) as Hus by by unfold users_of; rewrite Hin.
    destruct (volume_users_spec v) as [Hsp _]. rewrite Hus in *. simpl in *.
    apply Hsp in Ha, Hb. naive_solver.
  - intros (v & Hv & Ha & Hb & Hlen). right. destruct (volume_users_spec v) as [Hsp _].
    unfold users_of in *. destruct (volume_users app !! v) as [us|] eqn:Hus; simpl in *; [|done].
    exists (v, us). rewrite elem_of_map_to_list. split_and!; [done|done|by apply Hsp..].
Qed.

(** Two services share a volume exactly when they are neighbours. *)
Lemma neighbors_shares a b : a ≠ b → edge (volume_neighbors app) a b ↔ shares a b.
Proof.
  intros Hab. rewrite volume_neighbors_spec. split; [intros (v & ? & ? & ? & _); by exists v|].
  intros (v & Hv & Ha & Hb). exists v. split_and!; [done..|].
  destruct (volume_users_spec v) as [Hsp Hnd].
  assert ([a; b] ⊆+ users_of (volume_users app) v) as Hsub.
  { apply NoDup_submseteq; [|intros x; rewrite !elem_of_cons, elem_of_nil; naive_solver].
    apply NoDup_cons. split; [|apply NoDup_singleton]. by rewrite list_elem_of_singleton. }
  apply submseteq_length in Hsub. simpl in Hsub. unfold lenl. lia.
Qed.

Lemma neighbors_sym a b : edge (volume_neighbors app) a b → edge (volume_neighbors app) b a.
Proof. rewrite !volume_neighbors_spec. intros (v & ? & ? & ? & ?). by exists v. Qed.

Lemma neighbors_reach a b : rtc (edge (volume_neighbors app)) a b ↔ rtc shares a b.
Proof.
  split; induction 1 as [|a c b Hac _ IH]; try done; destruct (decide (a = c)) as [->|Hne]; try done;
    (eapply rtc_l; [|exact IH]); by apply neighbors_shares.
Qed.

Lemma neighbors_next a : next (volume_neighbors app) a ≠ [] ↔ ∃ b, b ≠ a ∧ shares a b.
Proof.
  split.
  - destruct (next (volume_neighbors app) a) as [|b l] eqn:Hn; [done|]. intros _.
    assert (edge (volume_neighbors app) a b) as He by (unfold edge; rewrite Hn; by left).
    destruct (decide (b = a)) as [->|Hba]; [|exists b; split; [done|]; by apply neighbors_shares].
    apply volume_neighbors_spec in He as (v & Hv & Ha & _ & Hlen).
    destruct (volume_users_spec v) as [Hsp Hnd].
    destruct (users_of (volume_users app) v) as [|x [|y us]] eqn:Hus; unfold lenl in Hlen; simpl in Hlen; [lia..|].
    assert (x ≠ y) as Hxy.
    { apply NoDup_cons in Hnd as [Hx _]. intros ->. apply Hx. by left. }
    assert (shares a x ∧ shares a y) as [Hsx Hsy].
    { split; exists v; (split_and!; [done..|]); apply Hsp; [by left|right; by left]. }
    destruct (decide (x = a)) as [->|]; [exists y|exists x]; done.
  - intros (b & Hba & Hs). apply neighbors_shares in Hs; [|done]. unfold edge in Hs.
    intros Hn. rewrite Hn in Hs. by apply not_elem_of_nil in Hs.
Qed.
End users.

(** * The groups are the connected components *)

#[local] Arguments visit : simpl never.
#[local] Arguments visit_fuel : simpl never.

Section components.
Context `{RangeOrder} (app : Application).
Let nb := volume_neighbors app.

Definition covered (groups : list (list string)) (a : string) : Prop := ∃ g, g ∈ groups ∧ a ∈ g.

Record groups_inv (names : list string) (seen : gset string) (groups : list (list string)) : Prop := {
  gi_seen : ∀ a, a ∈ seen ↔ covered groups a;
  gi_component : ∀ g a, g ∈ groups → a ∈ g → ∀ b, b ∈ g ↔ rtc (shares app) a b;
  gi_shape : ∀ g, g ∈ groups → Sorted str_le g ∧ NoDup g ∧ g ≠ [];
  gi_names : ∀ a, a ∈ names → next nb a ≠ [] → covered groups a;
  gi_shared : ∀ a, covered groups a → next nb a ≠ [];
  gi_disjoint : ∀ (i j : nat) g h a, groups !! i = Some g → groups !! j = Some h → a ∈ g → a ∈ h → i = j;
}.

Lemma groups_closed names seen groups : groups_inv names seen groups → closed nb seen.
Proof.
  intros [Hseen Hcomp _ _ _ _] a b Ha Hab. apply Hseen in Ha as (g & Hg & Ha).
  apply Hseen. exists g. split; [done|]. apply (Hcomp g a Hg Ha). apply (neighbors_reach app). by apply rtc_once.
Qed.

Lemma shares_reach_sym a b : rtc (shares app) a b → rtc (shares app) b a.
Proof.
  induction 1 as [|a b c Hab _ IH]; [done|]. eapply rtc_r; [exact IH|]. by apply shares_sym.
Qed.

Lemma reach_next a b : rtc (edge nb) a b → next nb a ≠ [] → next nb b ≠ [].
Proof.
  intros Hab Ha. apply reach_sym in Hab; [|intros ??; apply neighbors_sym].
  inversion Hab as [|? c ? Hbc]; subst; [done|]. unfold edge in Hbc. intros Hn.
  rewrite Hn in Hbc. by apply not_elem_of_nil in Hbc.
Qed.

Lemma group_step_inv names st name :
  groups_inv names st.1 st.2 → groups_inv (names ++ [name]) (group_step nb st name).1 (group_step nb st name).2.
Proof.
  destruct st as [seen groups]. intros Hinv. pose proof (groups_closed _ _ _ Hinv) as Hclosed.
  destruct Hinv as [Hseen Hcomp Hshape Hnames Hshared Hdisj]. simpl in *.
  destruct (bool_decide (name ∈ seen) || _) eqn:Hskip; simpl.
  { split; [done..| |done|done]. intros a [Ha| ->%list_elem_of_singleton]%elem_of_app Hn; [by apply Hnames|].
    apply orb_true_iff in Hskip as [Hin|Hz]; [by apply Hseen, (bool_decide_eq_true_1 _ Hin)|].
    apply Z.eqb_eq, lenl_zero in Hz. done. }
  apply orb_false_iff in Hskip as [Hfresh Hne]. apply bool_decide_eq_false in Hfresh.
  assert (next nb name ≠ []) as Hnext.
  { intros Hz. apply Z.eqb_neq in Hne. apply Hne, lenl_zero. exact Hz. }
  destruct (visit_fuel_enough nb name seen []) as [[seen' group] Hv]. rewrite Hv. simpl.
  destruct (visit_reach nb (neighbors_sym app) name seen Hclosed Hfresh _ _ _ Hv) as (Hnd & Hreach & Hseen').
  assert (∀ x, x ∈ group → x ∉ seen) as Hapart.
  { intros x Hx. apply Hreach in Hx. by eapply reach_fresh; [apply neighbors_sym|..]. }
  assert (∀ x, x ∈ sort_strings group ↔ rtc (shares app) name x) as Hgroup.
  { intros x. rewrite elem_of_sort_strings, Hreach. apply (neighbors_reach app). }
  split.
  - intros a. rewrite Hseen', Hseen. unfold covered. setoid_rewrite elem_of_app.
    setoid_rewrite list_elem_of_singleton. split.
    + intros [(g & ? & ?)|Ha]; [by exists g; auto|]. exists (sort_strings group).
      split; [by right|]. by apply elem_of_sort_strings.
    + intros (g & [Hg| ->] & Ha); [left; by exists g|right]. by rewrite elem_of_sort_strings in Ha.
  - intros g a [Hg| ->%list_elem_of_singleton]%elem_of_app Ha b; [by apply (Hcomp g a)|].
    rewrite Hgroup in Ha |- *. split; intros Hb; [|by etrans].
    etrans; [by apply shares_reach_sym|done].
  - intros g [Hg| ->%list_elem_of_singleton]%elem_of_app; [by apply Hshape|].
    split_and!; [apply sort_strings_sorted|by rewrite sort_strings_perm|].
    assert (name ∈ sort_strings group) as Hin by by apply Hgroup. intros Hz. rewrite Hz in Hin.
    by apply not_elem_of_nil in Hin.
  - intros a [Ha| ->%list_elem_of_singleton]%elem_of_app Hn.
    + destruct (Hnames a Ha Hn) as (g & Hg & ?). exists g. rewrite elem_of_app. auto.
    + exists (sort_strings group). split; [apply elem_of_app; right; by left|]. by apply Hgroup.
  - intros a (g & [Hg| ->%list_elem_of_singleton]%elem_of_app & Ha); [apply Hshared; by exists g|].
    apply Hgroup, (neighbors_reach app) in Ha. by eapply reach_next.
  - intros i j g h a Hi Hj Hg Hh.
    apply lookup_snoc_Some in Hi as [[Hil Hi]|[-> <-]], Hj as [[Hjl Hj]|[-> <-]]; [by eapply Hdisj| | |done];
      exfalso; [apply (Hapart a); [by apply elem_of_sort_strings|]|apply (Hapart a); [by apply elem_of_sort_strings|]];
      apply Hseen; [exists g|exists h]; (split; [by eapply list_elem_of_lookup_2|done]).
Qed.

Lemma groups_inv_empty : groups_inv [] ∅ [].
Proof.
  split; simpl.
  - intros a. split; [intros Ha; exfalso; by apply not_elem_of_empty in Ha|].
    intros (g & []%not_elem_of_nil & _).
  - intros g a []%not_elem_of_nil.
  - intros g []%not_elem_of_nil.
  - intros a []%not_elem_of_nil.
  - intros a (g & []%not_elem_of_nil & _).
  - intros i j g h a Hi. by rewrite lookup_nil in Hi.
Qed.

Lemma SharedGroups_inv :
  ∃ seen, groups_inv (Names app) seen (SharedReadWriteOnceGroups app).
Proof.
  unfold SharedReadWriteOnceGroups. change (volume_neighbors app) with nb.
  cut (∀ names pre st, groups_inv pre st.1 st.2 →
    groups_inv (pre ++ names) (fold_left (group_step nb) names st).1 (fold_left (group_step nb) names st).2).
  { intros Hgen. eexists. apply (Hgen (Names app) [] (∅, [])), groups_inv_empty. }
  induction names as [|n names IH]; intros pre st Hst; simpl; [by rewrite app_nil_r|].
  rewrite cons_middle, app_assoc. apply IH. by apply group_step_inv.
Qed.

Lemma shared_service a b : shares app a b → a ∈ Names app.
Proof.
  intros (v & _ & (m & Hm & _) & _). apply elem_of_Names. unfold service_mounts in Hm.
  destruct (app_services app !! a); [done|]. by apply not_elem_of_nil in Hm.
Qed.
(** Each group was found at one of its members, and its least member comes before all
    members of later groups. *)
Definition found (names : list string) (groups : list (list string)) : Prop := ∀ g, g ∈ groups → ∃ a, a ∈ g ∧ a ∈ names.
Definition ordered (groups : list (list string)) : Prop :=
  ∀ (i j : nat) g h b, (i < j)%nat → groups !! i = Some g → groups !! j = Some h → b ∈ h → ∃ a, a ∈ g ∧ str_le a b.

Lemma group_step_cases st name : (group_step nb st name).2 = st.2 ∨
  (∃ g, (group_step nb st name).2 = (st.2 ++ [g]) ∧ (name ∉ st.1) ∧ next nb name ≠ []).
Proof.
  destruct st as [seen groups]. unfold group_step. destruct (bool_decide (name ∈ seen)) eqn:Hs; [by left|].
  destruct (Z.eqb_spec (lenl (default [] (nb !! name))) 0) as [Hz|Hz]; [by left|]. cbn [orb].
  destruct (visit _ _ _ _ _) as [[seen' group]|]; [right|by left]. exists (sort_strings group). split; [done|].
  split; [by eapply bool_decide_eq_false|]. intros Hn. by apply Hz, lenl_zero.
Qed.

Lemma Names_sorted pre name post : Names app = pre ++ name :: post → (∀ x, x ∈ pre → str_le x name) ∧ (∀ x, x ∈ post → str_le name x).
Proof.
  intros Hn. pose proof (sort_strings_sorted (map_to_list (app_services app)).*1) as Hs. change (Sorted str_le (Names app)) in Hs.
  rewrite Hn in Hs. apply Sorted_StronglySorted, StronglySorted_app in Hs as (Hpre & _ & Hs); [|apply _].
  apply StronglySorted_inv in Hs as [_ Hall]. rewrite Forall_forall in Hall. split; [|done]. intros x Hx. apply Hpre; [done|by left].
Qed.

Lemma group_step_ordered pre name post st : Names app = pre ++ name :: post → groups_inv pre st.1 st.2 →
  found pre st.2 → ordered st.2 → found (pre ++ [name]) (group_step nb st name).2 ∧ ordered (group_step nb st name).2.
Proof.
  intros Hnames Hinv Hf Ho. pose proof (group_step_inv pre st name Hinv) as [_ Hcomp _ Hn' _ Hd].
  destruct (group_step_cases st name) as [->|(g & Heq & Hfresh & Hnext)].
  { split; [|done]. intros g Hg. destruct (Hf g Hg) as (a & ? & ?). exists a. set_solver. }
  rewrite Heq in *. destruct Hinv as [Hseen _ _ Hcov _ _].
  assert ((st.2 ++ [g]) !! length st.2 = Some g) as Hlast by by apply list_lookup_middle.
  assert (∀ x, x ∈ g → ¬ covered st.2 x) as Hapart.
  { intros x Hx (h & Hh & Hxh). apply list_elem_of_lookup in Hh as [i Hi]. pose proof (lookup_lt_Some _ _ _ Hi) as Hlt.
    enough (i = length st.2) by lia. eapply (Hd _ _ h g x); [by apply lookup_app_l_Some|done..]. }
  assert (name ∈ g) as Hg.
  { destruct (Hn' name) as (h & [Hh|Hh%list_elem_of_singleton]%elem_of_app & Hin); [set_solver|done| |by subst h].
    destruct Hfresh. apply Hseen. by exists h. }
  assert (∀ x, x ∈ g → str_le name x) as Hleast.
  { intros x Hx. assert (next nb x ≠ []) as Hnx.
    { eapply reach_next; [|exact Hnext]. apply (neighbors_reach app). apply (Hcomp g name); [set_solver|done|done]. }
    assert (x ∈ Names app) as Hin by (apply (neighbors_next app) in Hnx as (b & _ & Hs); by eapply shared_service).
    rewrite Hnames in Hin. apply elem_of_app in Hin as [Hin|[->|Hin]%elem_of_cons]; [|by destruct (total str_le name name)|by eapply Names_sorted].
    destruct (Hapart x Hx). by apply Hcov. }
  split.
  - intros h [Hh|Hh%list_elem_of_singleton]%elem_of_app; [|subst h; exists name; set_solver].
    destruct (Hf h Hh) as (a & ? & ?). exists a. set_solver.
  - intros i j h h' b Hij Hi Hj Hb. apply lookup_snoc_Some in Hi as [[Hil Hi]|[-> ->]], Hj as [[Hjl Hj]|[-> ->]]; try lia; [by apply (Ho i j h h' b)|].
    assert (h ∈ st.2) as Hh by by eapply list_elem_of_lookup_2. destruct (Hf h Hh) as (a & Hah & Hap). exists a. split; [done|].
    etrans; [by apply (Names_sorted pre name post)|by apply Hleast].
Qed.

Lemma SharedGroups_ordered : ordered (SharedReadWriteOnceGroups app).
Proof.
  unfold SharedReadWriteOnceGroups. change (volume_neighbors app) with nb.
  cut (∀ names pre st, Names app = pre ++ names → groups_inv pre st.1 st.2 → found pre st.2 → ordered st.2 → ordered (fold_left (group_step nb) names st).2).
  { intros Hgen. apply (Hgen (Names app) [] (∅, [])); [done|apply groups_inv_empty|..].
    - intros g []%not_elem_of_nil.
    - intros i j g h b _ Hi. by destruct i. }
  induction names as [|n names IH]; intros pre st Hn Hi Hf Ho; simpl; [done|].
  destruct (group_step_ordered pre n names st Hn Hi Hf Ho) as [Hf' Ho']. apply (IH (pre ++ [n])); [by rewrite <-app_assoc| |done..].
  by apply group_step_inv.
Qed.
End components.

(** The groups do not depend on the order in which maps are visited. *)
Lemma groups_order_irrelevant (R1 R2 : RangeOrder) app :
  @SharedReadWriteOnceGroups R1 app = @SharedReadWriteOnceGroups R2 app.
Proof.
  unfold SharedReadWriteOnceGroups.
  cut (∀ names pre st, @groups_inv R1 app pre st.1 st.2 → @groups_inv R2 app pre st.1 st.2 →
    fold_left (group_step (@volume_neighbors R1 app)) names st =
    fold_left (group_step (@volume_neighbors R2 app)) names st).
  { intros Hgen. f_equal. apply (Hgen _ []); apply groups_inv_empty. }
  induction names as [|n names IH]; intros pre st H1 H2; simpl; [done|].
  pose proof (@group_step_inv R1 app pre st n H1) as H1'.
  pose proof (@group_step_inv R2 app pre st n H2) as H2'.
  assert (group_step (@volume_neighbors R1 app) st n = group_step (@volume_neighbors R2 app) st n) as Heq;
    [|rewrite Heq in H1' |- *; by eapply IH].
  destruct st as [seen groups].
  pose proof (@groups_closed R1 app _ _ _ H1) as Hc1. pose proof (@groups_closed R2 app _ _ _ H2) as Hc2.
  unfold group_step. simpl.
  assert ((lenl (default [] (@volume_neighbors R1 app !! n)) =? 0) =
          (lenl (default [] (@volume_neighbors R2 app !! n)) =? 0)) as Hlen.
  { apply eq_true_iff_eq. rewrite !Z.eqb_eq, !lenl_zero.
    pose proof (@neighbors_next app R1 n) as N1. pose proof (@neighbors_next app R2 n) as N2.
    unfold next in *. destruct (default [] (@volume_neighbors R1 app !! n)), (default [] (@volume_neighbors R2 app !! n));
      naive_solver. }
  rewrite Hlen. clear Hlen. destruct (bool_decide (n ∈ seen)) eqn:Hn; [reflexivity|].
  destruct (lenl (default [] (@volume_neighbors R2 app !! n)) =? 0); [reflexivity|].
  apply bool_decide_eq_false in Hn. simpl.
  destruct (visit_fuel_enough (@volume_neighbors R1 app) n seen []) as [[s1 g1] Hv1].
  destruct (visit_fuel_enough (@volume_neighbors R2 app) n seen []) as [[s2 g2] Hv2].
  rewrite Hv1, Hv2.
  destruct (visit_reach _ (@neighbors_sym app R1) n seen Hc1 Hn _ _ _ Hv1) as (Hnd1 & Hg1 & Hs1).
  destruct (visit_reach _ (@neighbors_sym app R2) n seen Hc2 Hn _ _ _ Hv2) as (Hnd2 & Hg2 & Hs2).
  assert (∀ x, x ∈ g1 ↔ x ∈ g2) as Hg.
  { intros x. rewrite Hg1, Hg2, (@neighbors_reach app R1), (@neighbors_reach app R2). done. }
  f_equal; [apply set_eq; intros x; by rewrite Hs1, Hs2, Hg|].
  do 2 f_equal. apply sort_strings_proper. by apply NoDup_Permutation.
Qed.

(** * Placement *)

(** A service whose placement was filled in. *)
Definition placed (s s' : Service) : Prop :=
  ∃ node architecture, s' = set_svc_Architecture architecture (set_svc_NodeName node s) ∧
    (s.(svc_NodeName) = EmptyString ∨ s.(svc_NodeName) = node) ∧
    (s.(svc_Architecture) = EmptyString ∨ s.(svc_Architecture) = architecture).

#[export] Instance placed_refl : Reflexive placed.
Proof.
  intros s. exists s.(svc_NodeName), s.(svc_Architecture). split_and!; [by destruct s|by right..].
Qed.
#[export] Instance placed_trans : Transitive placed.
Proof.
  intros s _ s'' (n & a & -> & Hn & Ha) (n' & a' & -> & Hn' & Ha').
  change (n = EmptyString ∨ n = n') in Hn'. change (a = EmptyString ∨ a = a') in Ha'.
  exists n', a'. split; [reflexivity|]. clear -Hn Ha Hn' Ha'. intuition congruence.
Qed.

Section placement.
Context `{RangeOrder}.

(** The member agrees with the placement of the group. *)
Definition agrees (node architecture : string) (s : Service) : Prop :=
  (s.(svc_NodeName) = EmptyString ∨ s.(svc_NodeName) = node) ∧
  (s.(svc_Architecture) = EmptyString ∨ s.(svc_Architecture) = architecture).

Lemma join_placement_Ok name node architecture s node' architecture' :
  join_placement name (node, architecture) s = Ok (node', architecture') →
  s.(svc_Job) = None ∧ s.(svc_Actions) = None ∧ agrees node' architecture' s ∧
  (node = EmptyString ∨ node = node') ∧ (architecture = EmptyString ∨ architecture = architecture').
Proof.
  unfold join_placement, agrees. intros Hj. inv_ok. simplify_eq. split_orb.
  destruct (svc_Job s), (svc_Actions s); try done. split_and!; try done.
  all: destruct (is_empty (svc_NodeName s)) eqn:Hn, (is_empty (svc_Architecture s)) eqn:Ha,
    (is_empty node) eqn:Hn0, (is_empty architecture) eqn:Ha0; simpl in *;
    rewrite ?is_empty_true in *; rewrite ?negb_false_iff, ?String.eqb_eq in *; auto.
Qed.

Definition join_member (app : Application) (acc : string * string) (name : string) :=
  match app_services app !! name with
  | Some service => join_placement name acc service
  | None => Ok acc
  end.

Lemma join_members_Ok app group : ∀ node architecture node' architecture',
  foldM (join_member app) (node, architecture) group = Ok (node', architecture') →
  (node = EmptyString ∨ node = node') ∧ (architecture = EmptyString ∨ architecture = architecture') ∧
  ∀ n s, n ∈ group → app_services app !! n = Some s →
    s.(svc_Job) = None ∧ s.(svc_Actions) = None ∧ agrees node' architecture' s.
Proof.
  induction group as [|m group IH]; intros node architecture node' architecture'; simpl.
  { intros [= -> ->]. split_and!; auto. intros n s []%not_elem_of_nil. }
  rewrite bind_Ok. intros ([n1 a1] & Hm & Hg). destruct (IH _ _ _ _ Hg) as (Hn & Ha & Hall).
  unfold join_member in Hm. destruct (app_services app !! m) as [sm|] eqn:Hsm.
  - apply join_placement_Ok in Hm as (Hj & Hac & [Hsn Hsa] & Hn0 & Ha0).
    split_and!; [clear -Hn Hn0; intuition congruence|clear -Ha Ha0; intuition congruence|].
    intros n s [->|Hin]%elem_of_cons Hs; [|by eapply Hall]. simplify_eq. split_and!; [done..|].
    clear -Hsn Hsa Hn Ha. unfold agrees. intuition congruence.
  - simplify_eq. split_and!; [done..|].
    intros n s [->|Hin]%elem_of_cons Hs; [congruence|by eapply Hall].
Qed.

Lemma place_members node architecture group : ∀ app, NoDup group →
  let app' := fold_left (place node architecture) group app in
  same_but_services app app' ∧
  ∀ n, app_services app' !! n =
    if decide (n ∈ group) then (λ s, set_svc_Architecture architecture (set_svc_NodeName node s)) <$> app_services app !! n
    else app_services app !! n.
Proof.
  induction group as [|m group IH]; intros app Hnd; cbn [fold_left].
  { split; [done|]. intros n. rewrite decide_False by apply not_elem_of_nil. done. }
  apply NoDup_cons in Hnd as [Hm Hnd].
  destruct (IH (place node architecture app m) Hnd) as [Hsame Hall].
  assert (same_but_services app (place node architecture app m) ∧
    ∀ n, app_services (place node architecture app m) !! n = if decide (n = m)
      then (λ s, set_svc_Architecture architecture (set_svc_NodeName node s)) <$> app_services app !! n
      else app_services app !! n) as [Hs1 Hp].
  { unfold place. destruct (app_services app !! m) as [s|] eqn:Hs.
    - split; [apply put_service_same|]. intros n. rewrite lookup_put_service.
      case_decide; [|done]. subst. by rewrite Hs.
    - split; [done|]. intros n. case_decide; [|done]. subst. by rewrite Hs. }
  split; [by etrans|]. intros n. rewrite Hall, Hp.
  destruct (decide (n ∈ group)) as [Hn|Hn].
  - rewrite (decide_True (P := n ∈ m :: group)) by by right.
    rewrite decide_False by (intros ->; done). done.
  - case_decide as Hnm.
    + rewrite decide_True by (subst; by left). done.
    + rewrite decide_False by (by apply not_elem_of_cons). done.
Qed.

(** What one group establishes. *)
Lemma normalize_group_Ok app group app' : NoDup group → normalize_group app group = Ok app' →
  services_rel placed app app' ∧
  (∀ n, n ∉ group → app_services app' !! n = app_services app !! n) ∧
  ∃ node architecture, ∀ n s, n ∈ group → app_services app' !! n = Some s →
    s.(svc_NodeName) = node ∧ s.(svc_Architecture) = architecture.
Proof.
  intros Hnd. unfold normalize_group. rewrite bind_Ok. intros ([node architecture] & Hj & [= <-]).
  change (foldM (join_member app) (EmptyString, EmptyString) group = Ok (node, architecture)) in Hj.
  apply join_members_Ok in Hj as (_ & _ & Hall).
  destruct (place_members node architecture group app Hnd) as [Hsame Hlook]. split_and!.
  - split; [done|]. intros n. rewrite Hlook. destruct (app_services app !! n) as [s|] eqn:Hs.
    + case_decide as Hn; constructor; [|done]. destruct (Hall n s Hn Hs) as (_ & _ & Hag & Haa).
      exists node, architecture. done.
    + case_decide; constructor.
  - intros n Hn. rewrite Hlook. by rewrite decide_False.
  - exists node, architecture. intros n s Hn Hs. rewrite Hlook, decide_True in Hs by done.
    apply fmap_Some in Hs as (s0 & _ & ->). done.
Qed.

(** Every service keeps what it had, and the services tied to one node agree. *)
Lemma normalizeShared_Ok app app' : normalizeSharedReadWriteOnce app = Ok app' →
  services_rel placed app app' ∧
  ∀ a b sa sb, rtc (shares app) a b → app_services app' !! a = Some sa → app_services app' !! b = Some sb →
    sa.(svc_NodeName) = sb.(svc_NodeName) ∧ sa.(svc_Architecture) = sb.(svc_Architecture).
Proof.
  unfold normalizeSharedReadWriteOnce. intros Hl.
  destruct (SharedGroups_inv app) as (seen & [_ Hcomp Hshape Hnames _ Hdisj]).
  set (P := λ (pre : list (list string)) (st : Application), services_rel placed app st ∧
    ∀ g a b sa sb, g ∈ pre → a ∈ g → b ∈ g → app_services st !! a = Some sa → app_services st !! b = Some sb →
      sa.(svc_NodeName) = sb.(svc_NodeName) ∧ sa.(svc_Architecture) = sb.(svc_Architecture)).
  assert (P (SharedReadWriteOnceGroups app) app') as [Hr Hall].
  { apply (foldM_inv P normalize_group _ app app'); [split; [done|intros g a b sa sb []%not_elem_of_nil]| |done].
    intros pre g post st st' Heq [Hr Hpre] Hg.
    assert (g ∈ SharedReadWriteOnceGroups app) as Hin by (rewrite Heq; set_solver).
    destruct (normalize_group_Ok st g st') as (Hr' & Hother & node & architecture & Hsame);
      [by apply Hshape|done|]. split; [by etrans|].
    intros h a b sa sb [Hh| ->%list_elem_of_singleton]%elem_of_app Ha Hb Hsa Hsb.
    + assert (∀ x, x ∈ h → x ∉ g) as Hapart.
      { intros x Hxh Hxg. apply list_elem_of_lookup in Hh as [i Hi].
        assert (i < length pre)%nat by by eapply lookup_lt_Some.
        enough (i = length pre) by lia. eapply (Hdisj _ _ h g x); [| |done..].
        - rewrite Heq, lookup_app_l by done. done.
        - rewrite Heq, list_lookup_middle; done. }
      rewrite Hother in Hsa, Hsb by auto. by eapply (Hpre h a b).
    + destruct (Hsame a sa Ha Hsa) as [-> ->]. by destruct (Hsame b sb Hb Hsb) as [-> ->]. }
  split; [done|]. intros a b sa sb Hab Hsa Hsb.
  destruct (decide (a = b)) as [->|Hne]; [simplify_eq; done|].
  assert (∃ c, c ≠ a ∧ shares app a c) as (c & Hc & Hac).
  { clear -Hab Hne. induction Hab as [|a c b Hac _ IH]; [done|].
    destruct (decide (c = a)) as [->|]; [by apply IH|by exists c]. }
  destruct (Hnames a) as (g & Hg & Ha); [by eapply shared_service|by apply neighbors_next; exists c|].
  eapply (Hall g a b); [done|done| |done..]. by apply (Hcomp g a).
Qed.
End placement.

(** * Properties *)

(** C40: The groups are exactly the connected components of the relation "both mount the
    same node-local volume" that have at least two members: no group is listed twice
    and no two meet; each is sorted and without repetition, and the groups are sorted
    by their first members. The search never runs out of fuel, and the order in which
    Go visits its maps does not matter. *)
Theorem groups_are_components `{RangeOrder} app :
  let groups := SharedReadWriteOnceGroups app in
  (∀ g, g ∈ groups → Sorted str_le g ∧ NoDup g ∧ (2 <= length g)%nat) ∧
  (∀ g a, g ∈ groups → a ∈ g → ∀ b, b ∈ g ↔ rtc (shares app) a b) ∧
  (∀ a, (∃ g, g ∈ groups ∧ a ∈ g) ↔ ∃ b, b ≠ a ∧ shares app a b) ∧
  (∀ (i j : nat) g h, groups !! i = Some g → groups !! j = Some h → i ≠ j → g ## h) ∧
  (∀ (i j : nat) a b g h, (i < j)%nat → groups !! i = Some (a :: g) → groups !! j = Some (b :: h) → str_le a b ∧ a ≠ b) ∧
  groups = @SharedReadWriteOnceGroups map_to_list_order app.
Proof.
  simpl. destruct (SharedGroups_inv app) as (seen & [_ Hcomp Hshape Hnames Hshared Hdisj]).
  assert (∀ (i j : nat) g h, SharedReadWriteOnceGroups app !! i = Some g → SharedReadWriteOnceGroups app !! j = Some h → i ≠ j → g ## h) as Hapart.
  { intros i j g h Hi Hj Hne x Hx Hx'. by apply Hne, (Hdisj i j g h x). }
  assert (∀ a, (∃ g, g ∈ SharedReadWriteOnceGroups app ∧ a ∈ g) ↔ ∃ b, b ≠ a ∧ shares app a b) as Hcover.
  { intros a. rewrite <-(neighbors_next app). split; [apply Hshared|]. intros Hn.
    apply Hnames; [|done]. apply (neighbors_next app) in Hn as (b & _ & Hs). by eapply shared_service. }
  split_and!; [|done|done|done| |apply groups_order_irrelevant].
  - intros g Hg. destruct (Hshape g Hg) as (Hs & Hnd & Hne). split_and!; [done..|].
    destruct g as [|a [|b g]]; [done| |cbn; lia]. exfalso.
    destruct (proj1 (Hcover a)) as (b & Hb & Hs'); [exists [a]; set_solver|].
    apply Hb. apply rtc_once in Hs'. apply (Hcomp [a] a Hg) in Hs'; [|by left]. by apply list_elem_of_singleton in Hs'.
  - intros i j a b g h Hij Hi Hj. destruct (SharedGroups_ordered app i j (a :: g) (b :: h) b Hij Hi Hj) as (x & Hx & Hxb); [by left|].
    split; [|intros ->; eapply (Hapart i j _ _ Hi Hj); [lia|by left|by left]].
    apply elem_of_cons in Hx as [->|Hx]; [done|]. etrans; [|exact Hxb].
    destruct (Hshape (a :: g)) as (Hs & _ & _); [by eapply list_elem_of_lookup_2|].
    apply Sorted_StronglySorted in Hs; [|apply _]. apply StronglySorted_inv in Hs as [_ Hs]. rewrite Forall_forall in Hs. by apply Hs.
Qed.

(** After [normalizeSharedReadWriteOnce] all services that mount one
    node-local volume name the same node and the same architecture, a placement
    that was set is kept, and nothing else of the application changes. *)
Theorem placement_agrees `{RangeOrder} app app' :
  normalizeSharedReadWriteOnce app = Ok app' →
  (∀ v a b sa sb, rwo_volume app v = true → mounts app a v → mounts app b v →
     app_services app' !! a = Some sa → app_services app' !! b = Some sb →
     sa.(svc_NodeName) = sb.(svc_NodeName) ∧ sa.(svc_Architecture) = sb.(svc_Architecture)) ∧
  services_rel placed app app'.
Proof.
  intros Hn. destruct (normalizeShared_Ok app app' Hn) as [Hr Hall]. split; [|done].
  intros v a b sa sb Hv Ha Hb. apply Hall. apply rtc_once. by exists v.
Qed.

(** Two services sharing a volume, one of them pinned. *)
Module SharedExample.
Definition data : Mount := mkMount "data" "/data" false EmptyString.
Definition writer : Service := set_svc_NodeName "node-1" (set_svc_Mounts [data] zero_Service).
Definition reader : Service := set_svc_Mounts [data] zero_Service.
Definition app : Application :=
  set_app_Volumes {["data" := mkNamedVolume 1 EmptyString "ReadWriteOnce"]}
    (set_app_Services (Some {["writer" := writer; "reader" := reader]}) zero_Application).
Definition placed_app : Application :=
  match normalizeSharedReadWriteOnce app with Ok a => a | Err _ => app end.
End SharedExample.

Lemma placement_agrees_witness :
  (svc_NodeName <$> app_services SharedExample.placed_app !! "reader") = Some "node-1" ∧
  services_rel placed SharedExample.app SharedExample.placed_app.
Proof.
  split; [vm_compute; reflexivity|].
  apply (placement_agrees SharedExample.app SharedExample.placed_app). vm_compute. reflexivity.
Defined.
