(* ===== verification/SpecStorage.v ===== *)
(** Storage (mounts.go): the mount controls of a service, its rollout and
    termination, and the named volumes of an application. *)
From S2P Require Import Prelude GoStd Paths Regex SpecTypes Platform SpecChecks SpecServices SharedVolumes.
#[global] Open Scope Z_scope.

(** * Rollouts *)

Definition Recreates (s : Service) : bool :=
  (s.(svc_UpdateStrategy) =? "recreate")%string || non_nil s.(svc_Volume) ||
  (0 <? lenl s.(svc_Mounts)) || negb (is_empty s.(svc_NodeProfile)).

(** [time.Duration] is an int64 count of nanoseconds. *)
Definition Second : Z := 1000000000.

Definition TerminationGrace (s : Service) : Z :=
  if 0 <? s.(svc_TerminationGraceSeconds)
  then wrap64 (s.(svc_TerminationGraceSeconds) * Second)
  else 30 * Second.

(** * Mount controls *)

(** [paths] of [validateMountControls], in the order it appends them. *)
Definition mount_paths (s : Service) : list string :=
  match s.(svc_Volume) with Some v => [v.(vol_MountPath)] | None => [] end ++
  (mt_MountPath <$> s.(svc_Mounts)) ++ (cm_MountPath <$> s.(svc_CertificateMounts)) ++
  (tm_MountPath <$> s.(svc_TemporaryMounts)).

Definition check_mount (m : Mount) : result unit :=
  _ ← fail_when (negb (full_match namePattern m.(mt_Volume)) || negb (allowedMount m.(mt_MountPath)))
        (Errorf "mounts: use a named volume and a clean absolute data directory" []);
  fail_when (negb (is_empty m.(mt_SubPath)) &&
             (negb (clean_relative m.(mt_SubPath)) || (200 <? len m.(mt_SubPath)) ||
              ContainsAny m.(mt_SubPath) (NUL +:+ CR +:+ LF)))
    (Errorf "mounts.sub_path must be a clean relative directory without traversal" []).

Definition check_temporary_mount (m : TemporaryMount) : result unit :=
  fail_when (negb (allowedMount m.(tm_MountPath)) || (m.(tm_SizeMiB) <? 1) || (128 <? m.(tm_SizeMiB)))
    (Errorf "temporary_mounts: use a data directory and size_mib between 1 and 128" []).

Definition sum_list (l : list Z) : Z := foldr Z.add 0 l.

Definition validateMountControls (s : Service) : result unit :=
  _ ← iterM (λ id, fail_when ((id <? 0) || (2147483647 <? id))
        (Errorf "run_as_group and fs_group must be positive IDs or omitted" []))
        [s.(svc_RunAsGroup); s.(svc_FSGroup)];
  _ ← fail_when (negb (is_empty s.(svc_WorkingDir)) && negb (s.(svc_WorkingDir) =? "/")%string &&
                 negb (cleanDirectory s.(svc_WorkingDir)))
        (Errorf "working_dir must be a clean absolute directory" []);
  _ ← fail_when ((s.(svc_TerminationGraceSeconds) <? 0) || (3600 <? s.(svc_TerminationGraceSeconds)))
        (Errorf "termination_grace_seconds must be 1–3600 or omitted for 30 seconds" []);
  _ ← fail_when (16 <? lenl s.(svc_Mounts) + lenl s.(svc_TemporaryMounts) + lenl s.(svc_CertificateMounts))
        (Errorf "at most 16 named, temporary and certificate mounts per service" []);
  _ ← iterM check_mount s.(svc_Mounts);
  _ ← iterM check_temporary_mount s.(svc_TemporaryMounts);
  _ ← fail_when (128 <? sum_list (tm_SizeMiB <$> s.(svc_TemporaryMounts)))
        (Errorf "temporary_mounts: combined capacity must not exceed 128 MiB" []);
  fail_when (negb (paths_disjoint (mount_paths s))) (Errorf "mount paths must not overlap" []).

(** * Named storage *)

Section named.
Context `{RangeOrder} `{ThirdParty}.

(** One entry of [app.Volumes]: the checked entry with its access mode
    filled in. *)
Definition check_named_volume (name : string) (v : NamedVolume) : result NamedVolume :=
  _ ← fail_when (negb (full_match namePattern name) || (v.(nv_SizeGiB) <? 1) || (200 <? v.(nv_SizeGiB)))
        (Errorf "volumes: use valid names and sizes between 1 and 200 GiB" []);
  _ ← fail_when (negb (is_empty v.(nv_StorageClass)) && negb (IsDNS1123Subdomain v.(nv_StorageClass)))
        (Errorf "volumes.%s: invalid storage class" [AStr name]);
  let v := if is_empty v.(nv_AccessMode) then set_nv_AccessMode "ReadWriteOnce" v else v in
  _ ← fail_when (negb (one_of v.(nv_AccessMode) ["ReadWriteOnce"; "ReadWriteMany"]))
        (Errorf "volumes.%s.access_mode: choose ReadWriteOnce or ReadWriteMany" [AStr name]);
  _ ← fail_when ((v.(nv_AccessMode) =? "ReadWriteMany")%string && is_empty v.(nv_StorageClass))
        (Errorf "volumes.%s: shared storage requires an explicit ReadWriteMany-capable storage_class" [AStr name]);
  Ok v.

(** The variables of the two loops of [validateNamedStorage]. *)
Record storage_totals : Type := mkTotals { st_size : Z; st_count : Z; st_groups : gmap string Z }.

Definition fs_group_of (s : Service) : Z :=
  let group := if 0 <? s.(svc_RunAsUser) then s.(svc_RunAsUser) else 10001 in
  if 0 <? s.(svc_FSGroup) then s.(svc_FSGroup) else group.

Definition check_mount_group (app : Application) (name : string) (group : Z)
    (groups : gmap string Z) (mount : Mount) : result (gmap string Z) :=
  _ ← fail_when (negb (has_key app.(app_Volumes) mount.(mt_Volume)))
        (Errorf "services.%s.mounts: unknown volume %s" [AStr name; AStr mount.(mt_Volume)]);
  _ ← fail_when (match groups !! mount.(mt_Volume) with Some old => negb (old =? group) | None => false end)
        (Errorf "volumes.%s: services sharing a volume must use the same fs_group" [AStr mount.(mt_Volume)]);
  Ok (<[ mount.(mt_Volume) := group ]> groups).

Definition check_service_storage (app : Application) (t : storage_totals) (name : string)
    : result storage_totals :=
  match app_services app !! name with
  | None => Ok t
  | Some s =>
      t ← match s.(svc_Volume) with
          | None => Ok t
          | Some v =>
              _ ← fail_when (existsb (λ n, ("hakopod-volume-" +:+ n =? name +:+ "-data")%string)
                               (keys_of app.(app_Volumes)))
                    (Errorf "services.%s.volume: legacy volume name conflicts with a named volume; rename the named volume" [AStr name]);
              Ok (mkTotals (t.(st_size) + v.(vol_SizeGiB)) (t.(st_count) + 1) t.(st_groups))
          end;
      _ ← fail_when ((0 <? lenl s.(svc_Mounts)) &&
                     (negb (s.(svc_Replicas) =? 1) || non_nil s.(svc_Autoscaling)))
            (Errorf "services.%s: persistent services require one replica without autoscaling" [AStr name]);
      groups ← foldM (check_mount_group app name (fs_group_of s)) t.(st_groups) s.(svc_Mounts);
      Ok (mkTotals t.(st_size) t.(st_count) groups)
  end.

(** Sizes are between 1 and 200 when they are added, so the int64 sums are
    exact. *)
Definition validateNamedStorage (app : Application) : result Application :=
  _ ← fail_when (16 <? lenm app.(app_Volumes)) (Errorf "volumes: at most 16 named volumes" []);
  volumes ← range_update check_named_volume app.(app_Volumes);
  let size := fold_left (λ size kv, size + kv.2.(nv_SizeGiB)) (range app.(app_Volumes)) 0 in
  let app := set_app_Volumes volumes app in
  t ← foldM (check_service_storage app) (mkTotals size (lenm app.(app_Volumes)) ∅) (Names app);
  _ ← fail_when ((20 <? t.(st_count)) || (200 <? t.(st_size)))
        (Errorf "volumes: application storage is limited to 20 volumes and 200 GiB in total" []);
  normalizeSharedReadWriteOnce app.
End named.

(** * Facts *)

Lemma check_mount_Ok m u : check_mount m = Ok u →
  full_match namePattern m.(mt_Volume) = true ∧ allowedMount m.(mt_MountPath) = true ∧
  (m.(mt_SubPath) = EmptyString ∨ Forall ordinary (Split m.(mt_SubPath) "/")).
Proof.
  unfold check_mount. intros H. inv_ok. split_orb.
  split_and!; [done..|]. destruct (is_empty (mt_SubPath m)) eqn:He; [by apply is_empty_true in He; left|].
  right. simpl in H. split_orb. by apply clean_relative_spec.
Qed.

Lemma mount_paths_controls s u : validateMountControls s = Ok u →
  pairwise disjoint_paths (mount_paths s) ∧ Forall (λ m, check_mount m = Ok tt) s.(svc_Mounts) ∧
  Forall (λ m, check_temporary_mount m = Ok tt) s.(svc_TemporaryMounts) ∧
  sum_list (tm_SizeMiB <$> s.(svc_TemporaryMounts)) ≤ 128 ∧
  0 ≤ s.(svc_TerminationGraceSeconds) ≤ 3600.
Proof.
  unfold validateMountControls. intros H. inv_ok. split_orb. zify_bool.
  split_and!; [by apply paths_disjoint_spec|by eapply iterM_Ok|by eapply iterM_Ok|done..].
Qed.

(** ** The loops of [validateNamedStorage] *)

Section named_facts.
Context `{RangeOrder} `{ThirdParty}.

Definition named_volume_ok (v : NamedVolume) : Prop :=
  1 ≤ v.(nv_SizeGiB) ≤ 200 ∧ v.(nv_AccessMode) ∈ ["ReadWriteOnce"; "ReadWriteMany"] ∧
  (v.(nv_AccessMode) = "ReadWriteMany" → v.(nv_StorageClass) ≠ EmptyString).

Lemma check_named_volume_Ok name v v' : check_named_volume name v = Ok v' →
  full_match namePattern name = true ∧ named_volume_ok v' ∧
  v' = set_nv_AccessMode v'.(nv_AccessMode) v ∧ (v.(nv_AccessMode) = EmptyString ∨ v' = v).
Proof.
  unfold check_named_volume. intros Hc. inv_ok.
  set (w := if is_empty (nv_AccessMode v) then _ else v) in *.
  split_orb. zify_bool. split_and!; [done| | |].
  - assert (nv_SizeGiB w = nv_SizeGiB v ∧ nv_StorageClass w = nv_StorageClass v) as [Hsz Hcl]
      by (subst w; destruct (is_empty (nv_AccessMode v)); split; reflexivity).
    unfold named_volume_ok. rewrite Hsz, Hcl in *. split_and!; [done..|by apply one_of_spec|].
    intros Hm. rewrite Hm in *. by apply is_empty_false.
  - subst w. destruct (is_empty (nv_AccessMode v)); by destruct v.
  - subst w. destruct (is_empty (nv_AccessMode v)) eqn:He; [by apply is_empty_true in He; left|by right].
Qed.

Definition volume_size (s : Service) : Z :=
  match s.(svc_Volume) with Some v => v.(vol_SizeGiB) | None => 0 end.
Definition service_size (app : Application) (n : string) : Z :=
  match app_services app !! n with Some s => volume_size s | None => 0 end.
Definition named_size (app : Application) : Z :=
  sum_list (map_to_list (nv_SizeGiB <$> app.(app_Volumes))).*2.

Lemma fold_sizes l : ∀ z, fold_left (λ size (kv : string * NamedVolume), size + kv.2.(nv_SizeGiB)) l z =
  z + sum_list ((λ kv : string * NamedVolume, kv.2.(nv_SizeGiB)) <$> l).
Proof.
  unfold sum_list. induction l as [|kv l IH]; intros z; csimpl; [lia|]. rewrite IH. lia.
Qed.

Lemma sum_list_cons x l : sum_list (x :: l) = x + sum_list l.
Proof. done. Qed.

Lemma sum_list_perm l1 l2 : l1 ≡ₚ l2 → sum_list l1 = sum_list l2.
Proof. unfold sum_list. induction 1; csimpl; lia. Qed.

Lemma sum_list_app l1 l2 : sum_list (l1 ++ l2) = sum_list l1 + sum_list l2.
Proof.
  unfold sum_list. induction l1 as [|a l1 IH]; [done|]. rewrite <-app_comm_cons. simpl. lia.
Qed.

Lemma fold_range_sizes app :
  fold_left (λ size kv, size + kv.2.(nv_SizeGiB)) (range app.(app_Volumes)) 0 = named_size app.
Proof.
  rewrite fold_sizes, Z.add_0_l. unfold named_size. apply sum_list_perm.
  rewrite range_perm, map_to_list_fmap, <-list_fmap_compose. done.
Qed.

(** What one service's mounts add to the volume groups. *)
Lemma check_mount_group_Ok app name group groups mount groups' :
  check_mount_group app name group groups mount = Ok groups' →
  groups ⊆ groups' ∧ groups' !! mount.(mt_Volume) = Some group ∧ is_Some (app.(app_Volumes) !! mount.(mt_Volume)).
Proof.
  unfold check_mount_group. intros Hc. inv_ok.
  assert (∀ old, groups !! mount.(mt_Volume) = Some old → old = group) as Hold.
  { intros old Hg. rewrite Hg in *. split_orb. by zify_bool. }
  split_orb. rewrite lookup_insert_eq. split_and!; [|done|by apply has_key_true].
  apply map_subseteq_spec. intros v old Hv.
  destruct (decide (v = mt_Volume mount)) as [->|Hne]; [|by rewrite lookup_insert_ne].
  by rewrite lookup_insert_eq, (Hold old Hv).
Qed.

Lemma check_mount_groups_Ok app name group ms : ∀ groups groups',
  foldM (check_mount_group app name group) groups ms = Ok groups' →
  groups ⊆ groups' ∧ ∀ m, m ∈ ms → groups' !! m.(mt_Volume) = Some group ∧ is_Some (app.(app_Volumes) !! m.(mt_Volume)).
Proof.
  induction ms as [|m ms IH]; intros groups groups'; simpl.
  { intros [= ->]. split; [done|]. intros m []%not_elem_of_nil. }
  rewrite bind_Ok. intros (g1 & Hm & Hl). apply check_mount_group_Ok in Hm as (Hs & Hg & Hd).
  destruct (IH _ _ Hl) as [Hs' Hall]. split; [by etrans|].
  intros x [->|Hx]%elem_of_cons; [|by apply Hall]. split; [|done]. by eapply lookup_weaken.
Qed.

(** A service whose storage was accepted into the volume groups [groups]. *)
Definition storage_ok (app : Application) (groups : gmap string Z) (s : Service) : Prop :=
  (s.(svc_Mounts) ≠ [] → s.(svc_Replicas) = 1 ∧ s.(svc_Autoscaling) = None) ∧
  ∀ m, m ∈ s.(svc_Mounts) →
    groups !! m.(mt_Volume) = Some (fs_group_of s) ∧ is_Some (app.(app_Volumes) !! m.(mt_Volume)).

Lemma check_service_storage_Ok app t name t' s :
  app_services app !! name = Some s → check_service_storage app t name = Ok t' →
  t'.(st_size) = t.(st_size) + volume_size s ∧ t.(st_groups) ⊆ t'.(st_groups) ∧
  t'.(st_count) = t.(st_count) + (if non_nil s.(svc_Volume) then 1 else 0) ∧
  storage_ok app t'.(st_groups) s.
Proof.
  unfold check_service_storage. intros ->. rewrite bind_Ok. intros (t1 & Hv & Hc). inv_ok.
  match goal with H : foldM _ _ _ = Ok _ |- _ => apply check_mount_groups_Ok in H as [Hs Hall] end.
  assert (t1.(st_size) = t.(st_size) + volume_size s ∧ t1.(st_groups) = t.(st_groups) ∧
    t1.(st_count) = t.(st_count) + (if non_nil s.(svc_Volume) then 1 else 0)) as (-> & Hg & ->).
  { unfold volume_size. destruct (svc_Volume s) as [v|]; inv_ok; simpl; split_and!; try done; lia. }
  rewrite Hg in Hs. split_and!; [done..|]. split; [|done].
  intros Hne. assert ((0 <? lenl s.(svc_Mounts)) = true) as Hlen.
  { apply Z.ltb_lt. pose proof (lenl_nonneg s.(svc_Mounts)).
    assert (lenl s.(svc_Mounts) ≠ 0) by by rewrite lenl_zero. lia. }
  rewrite Hlen in *. simpl in *. split_orb. zify_bool. split; [done|]. by destruct (svc_Autoscaling s).
Qed.

Lemma check_services_storage_Ok app names : ∀ t t', (∀ n, n ∈ names → is_Some (app_services app !! n)) →
  foldM (check_service_storage app) t names = Ok t' →
  t'.(st_size) = t.(st_size) + sum_list (service_size app <$> names) ∧ t.(st_groups) ⊆ t'.(st_groups) ∧
  ∀ n s, n ∈ names → app_services app !! n = Some s → storage_ok app t'.(st_groups) s.
Proof.
  induction names as [|n names IH]; intros t t' Hex; cbn [foldM].
  { intros [= ->]. split_and!; [unfold sum_list; simpl; lia|done|]. intros n s []%not_elem_of_nil. }
  rewrite bind_Ok. intros (t1 & Hn & Hl). destruct (Hex n ltac:(by left)) as [s Hs].
  destruct (check_service_storage_Ok _ _ _ _ _ Hs Hn) as (Hsz & Hg & _ & Hok).
  destruct (IH t1 t') as (Hsz' & Hg' & Hall); [intros x Hx; apply Hex; by right|done|]. split_and!.
  - assert (service_size app n = volume_size s) as Hn' by (unfold service_size; by rewrite Hs).
    rewrite Hsz', Hsz, fmap_cons, sum_list_cons, Hn'. lia.
  - by etrans.
  - intros x sx [->|Hx]%elem_of_cons Hsx; [|by eapply Hall]. simplify_eq.
    destruct Hok as [Hr Hm]. split; [done|]. intros m Hin. destruct (Hm m Hin) as [Hgm Hd].
    split; [by eapply lookup_weaken|done].
Qed.

(** The accepted storage of an application. *)
Record storage_sound (app : Application) : Prop := {
  ss_volumes : map_Forall (λ n v, full_match namePattern n = true ∧ named_volume_ok v) app.(app_Volumes);
  ss_total : named_size app + sum_list (service_size app <$> Names app) ≤ 200;
  ss_services : ∃ groups : gmap string Z, ∀ n s, app_services app !! n = Some s → storage_ok app groups s;
}.

Lemma validateNamedStorage_Ok app app' : validateNamedStorage app = Ok app' →
  ∃ app1, app1 = set_app_Volumes app'.(app_Volumes) app ∧ storage_sound app1 ∧
    (∀ k, option_Forall2 (λ v v', check_named_volume k v = Ok v') (app.(app_Volumes) !! k) (app'.(app_Volumes) !! k)) ∧
    normalizeSharedReadWriteOnce app1 = Ok app'.
Proof.
  unfold validateNamedStorage. intros Hv. inv_ok. rename a into volumes.
  destruct (normalizeShared_Ok _ _ Hv) as [[Hsame _] _].
  assert (app'.(app_Volumes) = volumes) as Hvol by by rewrite Hsame.
  exists (set_app_Volumes volumes app). rewrite Hvol.
  match goal with H : range_update _ _ = Ok _ |- _ => rewrite range_update_Ok in H; rename H into Hup end.
  match goal with H : foldM (check_service_storage _) _ _ = Ok ?t |- _ => rename H into Hl; rename t into tot end.
  apply check_services_storage_Ok in Hl as (Hsz & _ & Hall); [|intros n; by rewrite elem_of_Names].
  simpl in Hsz. rewrite fold_range_sizes in Hsz.
  split_orb. zify_bool. split_and!; [done| |done|done]. split.
  - intros n v Hn. simpl in Hn. specialize (Hup n). rewrite Hn in Hup. inversion Hup as [v0 v1 Hc Hv0|]; subst.
    by apply check_named_volume_Ok in Hc as (? & ? & _).
  - assert (nv_SizeGiB <$> volumes = nv_SizeGiB <$> app.(app_Volumes)) as Heq.
    { apply map_eq. intros k. rewrite !lookup_fmap. specialize (Hup k).
      destruct Hup as [v v' Hc|]; [|done]. simpl. by apply check_named_volume_Ok in Hc as (_ & _ & -> & _). }
    unfold named_size in *. simpl. rewrite Heq. lia.
  - exists tot.(st_groups). intros n s Hs. eapply Hall; [|done]. apply elem_of_Names. by eexists.
Qed.
End named_facts.

Lemma storage_ok_placed app groups s s' : placed s s' → storage_ok app groups s → storage_ok app groups s'.
Proof. intros (node & architecture & -> & _). exact id. Qed.

Lemma service_size_placed a b n : services_rel placed a b → service_size a n = service_size b n.
Proof.
  intros [_ Hr]. unfold service_size. destruct (Hr n) as [s s' (node & architecture & -> & _)|]; reflexivity.
Qed.

Lemma storage_sound_placed a b : services_rel placed a b → storage_sound a → storage_sound b.
Proof.
  intros Hr [Hv Ht (groups & Hs)]. pose proof (sr_same _ _ _ Hr) as Hsame.
  assert (b.(app_Volumes) = a.(app_Volumes)) as Hvol by by rewrite Hsame.
  split.
  - by rewrite Hvol.
  - unfold named_size in *. rewrite Hvol, <-(services_rel_Names _ _ _ Hr).
    rewrite (list_fmap_ext (service_size b) (service_size a) (Names a)); [done|].
    intros i n _. symmetry. by apply service_size_placed.
  - exists groups. intros n s' Hs'. destruct (services_rel_lookup_r _ _ _ _ _ Hr Hs') as (s & Hn & Hp).
    destruct (storage_ok_placed _ _ s s' Hp (Hs n s Hn)) as [Hrep Hall]. split; [done|]. rewrite Hvol. done.
Qed.

Lemma named_storage_Ok `{RangeOrder} `{ThirdParty} app app' :
  validateNamedStorage app = Ok app' →
  storage_sound app' ∧ services_rel placed (set_app_Volumes app'.(app_Volumes) app) app' ∧
  ∀ k v', app'.(app_Volumes) !! k = Some v' → ∃ v, app.(app_Volumes) !! k = Some v ∧
    (v' = v ∨ v.(nv_AccessMode) = EmptyString ∧ v' = set_nv_AccessMode v'.(nv_AccessMode) v).
Proof.
  intros Hv. apply validateNamedStorage_Ok in Hv as (app1 & -> & Hsound & Hvols & Hn).
  apply normalizeShared_Ok in Hn as [Hr _]. split_and!; [by eapply storage_sound_placed|done|].
  intros k v' Hk. specialize (Hvols k). rewrite Hk in Hvols. inversion Hvols as [v w Hc Hv0|]; subst.
  exists v. split; [done|]. apply check_named_volume_Ok in Hc as (_ & _ & Heq & [He|He]); [right|left]; done.
Qed.

(** A stored volume is the declared one with its access mode filled in. *)
Definition volume_filled (v v' : NamedVolume) : Prop :=
  v' = v ∨ v.(nv_AccessMode) = EmptyString ∧ v' = set_nv_AccessMode v'.(nv_AccessMode) v.

Lemma named_storage_volumes `{RangeOrder} `{ThirdParty} app app' : validateNamedStorage app = Ok app' →
  ∀ k, option_Forall2 volume_filled (app.(app_Volumes) !! k) (app'.(app_Volumes) !! k).
Proof.
  intros Hv. apply validateNamedStorage_Ok in Hv as (app1 & -> & _ & Hvols & _). intros k.
  eapply option_rel_impl; [|exact (Hvols k)]. intros v w Hc.
  apply check_named_volume_Ok in Hc as (_ & _ & Heq & [He|He]); [by right|by left].
Qed.

(** * Properties *)

(** A service accepted by [validateMountControls] has pairwise disjoint mount
    paths over its volume, named, certificate and temporary mounts; every named
    mount lies outside the system directories, and its sub path stays inside
    whatever clean directory it is joined to. *)
Theorem mounts_contained s :
  validateMountControls s = Ok tt →
  pairwise disjoint_paths (mount_paths s) ∧
  ∀ m, m ∈ s.(svc_Mounts) →
    Forall (disjoint_paths m.(mt_MountPath)) system_directories ∧
    (m.(mt_SubPath) ≠ EmptyString → ∀ dir, cleanDirectory dir = true →
       within dir (path_Join dir m.(mt_SubPath))).
Proof.
  intros Hv. apply mount_paths_controls in Hv as (Hdisj & Hall & _). split; [done|].
  intros m Hm. eapply Forall_forall in Hall; [|exact Hm]. apply check_mount_Ok in Hall as (_ & Hmp & Hsub).
  split; [by apply allowedMount_spec in Hmp as [_ ?]|]. intros Hne dir Hdir.
  destruct Hsub as [|Hsub]; [done|]. apply cleanDirectory_spec in Hdir as (_ & segs & Hsegs & Hn & Ho).
  by eapply path_Join_within.
Qed.

(** The termination grace of a validated service is exact: thirty seconds
    when omitted, otherwise its seconds, between one second and one hour, with
    no wrap-around in the int64 count of nanoseconds. *)
Theorem termination_grace_exact s :
  validateMountControls s = Ok tt →
  TerminationGrace s =
    (if s.(svc_TerminationGraceSeconds) =? 0 then 30 else s.(svc_TerminationGraceSeconds)) * Second ∧
  Second ≤ TerminationGrace s ≤ 3600 * Second.
Proof.
  intros Hv. apply mount_paths_controls in Hv as (_ & _ & _ & _ & Hsec).
  unfold TerminationGrace. destruct (Z.eqb_spec s.(svc_TerminationGraceSeconds) 0) as [->|Hne].
  - unfold Second. split; [done|]. simpl. lia.
  - assert (0 < s.(svc_TerminationGraceSeconds)) as Hpos by lia.
    rewrite (proj2 (Z.ltb_lt _ _) Hpos), wrap64_id; unfold Second, min_int64, max_int64; lia.
Qed.

(** After [validateNamedStorage] every volume is valid with an access mode,
    all storage of the application totals at most 200 GiB, every mounted volume
    is declared, services that share one use the same file-system group, a
    service with mounts has one replica and no autoscaling, and only access
    modes and placements were filled in. *)
Theorem named_storage_sound `{RangeOrder} `{ThirdParty} app app' :
  validateNamedStorage app = Ok app' →
  storage_sound app' ∧ services_rel placed (set_app_Volumes app'.(app_Volumes) app) app' ∧
  ∀ k v', app'.(app_Volumes) !! k = Some v' → ∃ v, app.(app_Volumes) !! k = Some v ∧
    (v' = v ∨ v.(nv_AccessMode) = EmptyString ∧ v' = set_nv_AccessMode v'.(nv_AccessMode) v).
Proof. apply named_storage_Ok. Qed.

(** Two mounts, one with a sub path. *)
Import Concrete.
Module StorageExample.
Definition api : Service :=
  set_svc_Replicas 1 (set_svc_Mounts
    [mkMount "data" "/data" false "tenants/one"; mkMount "logs" "/logs" false EmptyString] zero_Service).
Definition app : Application :=
  set_app_Volumes {["data" := mkNamedVolume 5 EmptyString EmptyString;
                    "logs" := mkNamedVolume 3 "fast" "ReadWriteMany"]}
    (set_app_Services (Some {["api" := api]}) zero_Application).
Definition stored : Application := match validateNamedStorage app with Ok a => a | Err _ => app end.
End StorageExample.

Lemma mounts_contained_witness :
  validateMountControls StorageExample.api = Ok tt ∧ pairwise disjoint_paths (mount_paths StorageExample.api).
Proof. split; [vm_compute; reflexivity|]. apply mounts_contained. vm_compute. reflexivity. Defined.

Lemma termination_grace_exact_witness : Second ≤ TerminationGrace StorageExample.api ≤ 3600 * Second.
Proof. apply termination_grace_exact. vm_compute. reflexivity. Defined.

Lemma named_storage_sound_witness :
  (nv_AccessMode <$> StorageExample.stored.(app_Volumes) !! "data") = Some "ReadWriteOnce" ∧
  storage_sound StorageExample.stored.
Proof.
  split; [vm_compute; reflexivity|].
  refine (proj1 (named_storage_sound StorageExample.app StorageExample.stored _)). vm_compute. reflexivity.
Defined.
