(* ===== verification/SpecNetwork.v ===== *)
(** Networking (network_controls.go, public_tcp.go, http_endpoints.go,
    domains.go, virtual_network.go): private ports and peers, public TCP
    listeners, additional HTTP endpoints, custom domains and shared networks. *)
From S2P Require Import Prelude GoStd Paths GoNet Prefixes Regex SpecTypes Platform SpecChecks SpecServices.
#[global] Open Scope Z_scope.

(** * Peers *)

(** A nil list of networks has no members. *)
Definition svc_networks (s : Service) : list string := default [] s.(svc_Networks).

Definition AllowsPeer (app : Application) (source destination : string) : bool :=
  match app_services app !! source, app_services app !! destination with
  | Some src, Some dst =>
      let shared := existsb (λ a, existsb (λ b, (a =? b)%string) (svc_networks dst)) (svc_networks src) in
      if negb shared then false
      else match dst.(svc_NetworkAccess) with
           | None => true
           | Some access => one_of source (default [] access.(na_From))
           end
  | _, _ => false
  end.

(** The key of [endpoints], [fmt.Sprintf("%s/%d", protocol, port)]. *)
Definition endpoint_key (protocol : string) (port : Z) : string := protocol +:+ "/" +:+ Itoa port.

Section ports.
Context `{ThirdParty}.

(** The loop over [s.Ports] with its two sets and the rewritten ports. *)
Definition normalize_port (name : string) (acc : gset string * gset string * list Port) (p : Port)
    : result (gset string * gset string * list Port) :=
  let '(names, endpoints, out) := acc in
  let p := set_port_Protocol (ToUpper p.(port_Protocol)) p in
  let p := if is_empty p.(port_Protocol) then set_port_Protocol "TCP" p else p in
  let p := if p.(port_TargetPort) =? 0 then set_port_TargetPort p.(port_Port) p else p in
  _ ← fail_when (negb (IsValidPortName p.(port_Name)) || bool_decide (p.(port_Name) ∈ names))
        (Errorf "services.%s.ports: use unique port names (at most 15 lowercase letters, digits or hyphens)" [AStr name]);
  _ ← fail_when ((p.(port_Port) <? 1) || (65535 <? p.(port_Port)) || (p.(port_TargetPort) <? 1) ||
                 (65535 <? p.(port_TargetPort)) ||
                 (negb (p.(port_Protocol) =? "TCP")%string && negb (p.(port_Protocol) =? "UDP")%string))
        (Errorf "services.%s.ports: use TCP or UDP and ports between 1 and 65535" [AStr name]);
  let key := endpoint_key p.(port_Protocol) p.(port_Port) in
  _ ← fail_when (bool_decide (key ∈ endpoints))
        (Errorf "services.%s.ports: duplicate protocol/port" [AStr name]);
  Ok ({[ p.(port_Name) ]} ∪ names, {[ key ]} ∪ endpoints, out ++ [p]).

Definition port_name_le (p q : Port) : Prop := str_le p.(port_Name) q.(port_Name).
#[export] Instance port_name_le_dec p q : Decision (port_name_le p q) :=
  decide (str_le p.(port_Name) q.(port_Name)).

Definition normalize_ports (name : string) (s : Service) : result Service :=
  _ ← fail_when (15 <? lenl s.(svc_Ports))
        (Errorf "services.%s.ports: at most 15 additional ports" [AStr name]);
  let '(names, endpoints) :=
    if s.(svc_Port) =? 0 then (∅, ∅)
    else ({[ "service" ]}, {[ endpoint_key "TCP" s.(svc_Port) ]}) in
  '(_, _, ports) ← foldM (normalize_port name) (names, endpoints, []) s.(svc_Ports);
  (* names are unique, so sort.Slice has one possible result *)
  Ok (set_svc_Ports (merge_sort port_name_le ports) s).

Definition check_application_peer (app : Application) (name : string) (shared : bool) (peer : string)
    : result unit :=
  fail_when (negb shared ||
             match Split peer "/" with
             | [application; service] =>
                 negb (full_match namePattern application) || negb (full_match namePattern service) ||
                 (application =? app.(app_Name))%string
             | _ => true
             end)
    (Errorf "services.%s.network_access.from_applications: use unique application/service peers on a virtual network; use from for this application's services" [AStr name]).

Definition normalize_access (app : Application) (name : string) (s : Service) (a : NetworkAccess)
    : result NetworkAccess :=
  let from := default [] a.(na_From) in
  _ ← fail_when (20 <? lenl from)
        (Errorf "services.%s.network_access.from: at most 20 services" [AStr name]);
  _ ← range_unique
        (λ peer, fail_when (negb (has_key (app_services app) peer))
           (Errorf "services.%s.network_access.from: unknown or repeated service" [AStr name]))
        id
        (λ _, Errorf "services.%s.network_access.from: unknown or repeated service" [AStr name])
        (λ peer, fail_when (negb (AllowsPeer app peer name))
           (Errorf "services.%s.network_access.from: %s must share a network" [AStr name; AStr peer]))
        from;
  let a := set_na_From (Some (sort_strings from)) a in
  _ ← fail_when (32 <? lenl a.(na_FromApplications))
        (Errorf "services.%s.network_access.from_applications: at most 32 application/service peers" [AStr name]);
  let shared := existsb (λ n, negb (is_empty (get_network app n).(net_VirtualNetwork))) (svc_networks s) in
  _ ← range_unique (check_application_peer app name shared) id
        (λ _, Errorf "services.%s.network_access.from_applications: use unique application/service peers on a virtual network; use from for this application's services" [AStr name])
        no_check a.(na_FromApplications);
  Ok (set_na_FromApplications (sort_strings a.(na_FromApplications)) a).

(** Within [validateNetworkAccess] the ports of [s] are updated through the
    slice shared with [app]; [AllowsPeer] does not read them. *)
Definition normalize_network_access (app : Application) (name : string) (s : Service) : result Service :=
  s ← normalize_ports name s;
  match s.(svc_NetworkAccess) with
  | None => Ok s
  | Some a => a ← normalize_access app name s a; Ok (set_svc_NetworkAccess (Some a) s)
  end.

Definition validateNetworkAccess (app : Application) : result Application :=
  each_service normalize_network_access app.
End ports.

(** * Public TCP *)

Definition ValidPublicTCPPort (port : Z) : bool :=
  if (port <? 1) || (65535 <? port) then false
  else negb (existsb (Z.eqb port) [22; 53; 80; 443; 1024; 1042; 2379; 2380; 6060; 6443; 8080; 8443; 10250]).

(** [p.Protocol == "TCP" && p.TargetPort == target] *)
Definition tcp_target (target : Z) (p : Port) : bool :=
  (p.(port_Protocol) =? "TCP")%string && (p.(port_TargetPort) =? target).

Definition PublicTCPServicePort (svc : Service) (listener : PublicTCPListener) : Z :=
  match list_find (λ p, tcp_target listener.(pl_TargetPort) p = true) (ServicePorts svc) with
  | Some (_, p) => p.(port_Port)
  | None => 0
  end.

Definition HasPublicTCP (app : Application) : bool :=
  existsb (λ kv : string * Service, negb (lenl kv.2.(svc_PublicTCP) =? 0))
    (map_to_list (app_services app)).

(** The canonical text of an IPv4 source network. *)
Definition canonical_cidr (name cidr : string) : result string :=
  match ParsePrefix4 cidr with
  | None => Err (Errorf "services.%s.public_tcp.source_cidrs: use IPv4 CIDR notation" [AStr name])
  | Some (ip, bits) => Ok (masked_String ip bits)
  end.

Definition normalize_cidrs (name : string) (cidrs : list string) : result (list string) :=
  _ ← fail_when ((lenl cidrs <? 1) || (16 <? lenl cidrs))
        (Errorf "services.%s.public_tcp.source_cidrs: specify 1–16 IPv4 CIDRs; use 0.0.0.0/0 explicitly for public access" [AStr name]);
  '(_, out) ← foldM (λ '(seen, out) cidr,
      value ← canonical_cidr name cidr;
      _ ← fail_when (bool_decide (value ∈ (seen : gset string)))
            (Errorf "services.%s.public_tcp.source_cidrs: duplicate network" [AStr name]);
      Ok ({[ value ]} ∪ seen, out ++ [value])) (∅, []) cidrs;
  Ok (sort_strings out).

(** One listener: [ports] are the external ports taken so far. *)
Definition normalize_listener (name : string) (svc : Service) (ports : gset Z) (listener : PublicTCPListener)
    : result (gset Z * PublicTCPListener) :=
  _ ← fail_when ((listener.(pl_Port) <? 1) || (65535 <? listener.(pl_Port)) ||
                 bool_decide (listener.(pl_Port) ∈ ports))
        (Errorf "services.%s.public_tcp: external ports must be unique across the application and between 1 and 65535" [AStr name]);
  _ ← fail_when (negb (ValidPublicTCPPort listener.(pl_Port)))
        (Errorf "services.%s.public_tcp: port %d is reserved for platform traffic" [AStr name; AInt listener.(pl_Port)]);
  _ ← fail_when (svc.(svc_Public) && (listener.(pl_TargetPort) =? svc.(svc_Port)))
        (Errorf "services.%s.public_tcp: an HTTP ingress port cannot also be used as a TCP backend; declare a separate private TCP port" [AStr name]);
  let matches := lenl (List.filter (tcp_target listener.(pl_TargetPort)) (ServicePorts svc)) in
  _ ← fail_when (negb (matches =? 1))
        (Errorf "services.%s.public_tcp.target_port: reference exactly one declared TCP container port" [AStr name]);
  cidrs ← normalize_cidrs name listener.(pl_SourceCIDRs);
  Ok ({[ listener.(pl_Port) ]} ∪ ports, set_pl_SourceCIDRs cidrs listener).

Definition listener_port_le (a b : PublicTCPListener) : Prop := a.(pl_Port) <= b.(pl_Port).
#[export] Instance listener_port_le_dec a b : Decision (listener_port_le a b) :=
  decide (a.(pl_Port) <= b.(pl_Port)).

Definition normalize_listeners (ports : gset Z) (_ : Application) (name : string) (svc : Service)
    : result (gset Z * Service) :=
  _ ← fail_when ((0 <? lenl svc.(svc_PublicTCP)) && (svc.(svc_Port) =? 0))
        (Errorf "services.%s.public_tcp: declare a primary port for readiness before publishing TCP listeners" [AStr name]);
  _ ← fail_when (16 <? lenl svc.(svc_PublicTCP))
        (Errorf "services.%s.public_tcp: at most 16 listeners" [AStr name]);
  '(ports, out) ← foldM (λ '(ports, out) listener,
      '(ports, listener) ← normalize_listener name svc ports listener;
      Ok (ports, out ++ [listener])) (ports, []) svc.(svc_PublicTCP);
  (* external ports are unique, so sort.Slice has one possible result *)
  Ok (ports, set_svc_PublicTCP (merge_sort listener_port_le out) svc).

Definition validatePublicTCP (app : Application) : result Application :=
  '(ports, app) ← each_service_with normalize_listeners (∅ : gset Z) app;
  _ ← fail_when (64 <? Z.of_nat (size ports))
        (Errorf "public_tcp: at most 64 listeners per application" []);
  Ok app.

(** * HTTP endpoints and domains *)

Section http.
Context `{Host} `{ThirdParty} `{RangeOrder}.

(** One entry of [s.HTTP]; [generated] and [seen] are the loop's sets. *)
Definition check_endpoint (app : Application) (name : string) (s : Service)
    (acc : gset string * gset string) (entry : string * HTTPEndpoint)
    : result (gset string * gset string) :=
  let '(generated, seen) := acc in
  let '(key, e) := entry in
  _ ← fail_when (negb s.(svc_Public) || non_nil s.(svc_Job) || negb (full_match namePattern key) || (8 <? len key))
        (Errorf "services.%s.http: endpoint names must be 1–8 lowercase letters, digits or hyphens on a public HTTP service" [AStr name]);
  let host := name +:+ "-" +:+ key in
  _ ← fail_when (bool_decide (host ∈ generated))
        (Errorf "HTTP endpoint hostname conflicts with another service or endpoint" []);
  let found := existsb (λ p, (p.(port_Port) =? e.(he_Port)) && (p.(port_Protocol) =? "TCP")%string) (ServicePorts s) in
  _ ← fail_when (negb found)
        (Errorf "services.%s.http.%s.port: select a declared TCP service port" [AStr name; AStr key]);
  if is_empty e.(he_Domain) then Ok ({[ host ]} ∪ generated, seen)
  else
    _ ← fail_when (negb (ValidHostname e.(he_Domain)) ||
                   negb (default EmptyString (app.(app_Domains) !! e.(he_Domain)) =? name)%string ||
                   bool_decide (e.(he_Domain) ∈ seen))
          (Errorf "services.%s.http.%s.domain: use a unique custom domain assigned to this service" [AStr name; AStr key]);
    Ok ({[ host ]} ∪ generated, {[ e.(he_Domain) ]} ∪ seen).

Definition validateHTTPEndpoints (app : Application) : result unit :=
  _ ← foldM (λ generated '(name, s),
      _ ← fail_when (4 <? lenm s.(svc_HTTP))
            (Errorf "services.%s.http: at most four additional HTTP endpoints" [AStr name]);
      acc ← foldM (check_endpoint app name s) (generated, ∅) (range s.(svc_HTTP));
      Ok acc.1) (list_to_set (keys_of (app_services app)) : gset string) (range (app_services app));
  Ok tt.

Definition ValidateDomains (a : Application) : result unit :=
  _ ← fail_when (20 <? lenm a.(app_Domains))
        (Errorf "domains: at most 20 custom hostnames are supported" []);
  iterM (λ '(host, name),
    _ ← fail_when (negb (ValidHostname host))
          (Errorf "domains: use lowercase DNS hostnames without a scheme, port, path or wildcard" []);
    fail_when (match app_services a !! name with
               | Some service => negb service.(svc_Public) || (service.(svc_Port) =? 0)
               | None => true
               end)
      (Errorf "domains.%s: select a public HTTP service" [AStr host])) (range a.(app_Domains)).
End http.

(** * Shared virtual networks *)

Record NetworkSegment : Type := mkNetworkSegment { ns_Applications : list string }.
Record VirtualNetwork : Type := mkVirtualNetwork {
  vn_SchemaVersion : Z;
  vn_Name : string;
  vn_Description : string;
  vn_Segments : gmap string NetworkSegment;
}.

Definition json_NetworkSegment (s : NetworkSegment) : json :=
  JObj (keep (json_list JStr) "applications" s.(ns_Applications)).
Definition json_VirtualNetwork (v : VirtualNetwork) : json :=
  JObj (keep JNum "schema_version" v.(vn_SchemaVersion) ++ keep JStr "name" v.(vn_Name) ++
        keep JStr "description" v.(vn_Description) ++
        keep (json_map json_NetworkSegment) "segments" v.(vn_Segments)).

Section virtual.
Context `{RangeOrder}.

Definition normalize_segment (name : string) (segment : NetworkSegment) : result NetworkSegment :=
  _ ← fail_when (negb (full_match namePattern name) || (64 <? lenl segment.(ns_Applications)))
        (Errorf "segments: use valid names and at most 64 allowed applications per segment" []);
  let bad := Errorf "segments.%s.applications: use unique application names, without wildcards" [AStr name] in
  _ ← range_unique (λ application, fail_when (negb (full_match namePattern application)) bad)
        id (λ _, bad) no_check segment.(ns_Applications);
  Ok (mkNetworkSegment (sort_strings segment.(ns_Applications))).

Definition NormalizeVirtualNetwork (input : VirtualNetwork) : result VirtualNetwork :=
  _ ← fail_when (32 * 1024 <? len (encode (json_VirtualNetwork input)))
        (Errorf "virtual network exceeds 32 KiB" []);
  let schema := if input.(vn_SchemaVersion) =? 0 then 1 else input.(vn_SchemaVersion) in
  _ ← fail_when (negb (schema =? 1) || negb (full_match namePattern input.(vn_Name)))
        (Errorf "use schema_version = 1 and a network name of 1–40 lowercase letters, digits or hyphens" []);
  _ ← fail_when (input.(vn_Name) =? "new")%string
        (Errorf "network name new is reserved; choose another name" []);
  let description := TrimSpace input.(vn_Description) in
  _ ← fail_when (negb (ValidString description) || (500 <? RuneCountInString description) ||
                 existsb (λ r, IsControl r && negb (r =? 10) && negb (r =? 9)) (runes description))
        (Errorf "description: at most 500 characters without control characters" []);
  _ ← fail_when ((lenm input.(vn_Segments) <? 1) || (16 <? lenm input.(vn_Segments)))
        (Errorf "segments: define between 1 and 16 private segments" []);
  segments ← range_update normalize_segment input.(vn_Segments);
  Ok (mkVirtualNetwork schema input.(vn_Name) description segments).

Definition Allows (v : VirtualNetwork) (segment application : string) : bool :=
  match v.(vn_Segments) !! segment with
  | Some s => one_of application s.(ns_Applications)
  | None => false
  end.
End virtual.

(** * Facts *)

(** ** Ports *)

Section port_facts.
Context `{ThirdParty}.

(** A port with its protocol and target filled in. *)
Definition filled (p : Port) : Port :=
  let p := set_port_Protocol (ToUpper p.(port_Protocol)) p in
  let p := if is_empty p.(port_Protocol) then set_port_Protocol "TCP" p else p in
  if p.(port_TargetPort) =? 0 then set_port_TargetPort p.(port_Port) p else p.

Definition port_key (p : Port) : string := endpoint_key p.(port_Protocol) p.(port_Port).

Definition port_ok (p : Port) : Prop :=
  IsValidPortName p.(port_Name) = true ∧ 1 ≤ p.(port_Port) ≤ 65535 ∧ 1 ≤ p.(port_TargetPort) ≤ 65535 ∧
  (p.(port_Protocol) = "TCP" ∨ p.(port_Protocol) = "UDP").

Lemma normalize_port_Ok name N E O p N' E' O' : normalize_port name (N, E, O) p = Ok (N', E', O') →
  let q := filled p in
  port_ok q ∧ (q.(port_Name) ∉ N) ∧ (port_key q ∉ E) ∧
  N' = {[ q.(port_Name) ]} ∪ N ∧ E' = {[ port_key q ]} ∪ E ∧ O' = O ++ [q].
Proof.
  unfold normalize_port. intros Hp. inv_ok. fold (filled p) in *. simplify_eq.
  split_orb. rewrite !bool_decide_eq_false in *. zify_bool.
  unfold port_key, port_ok. split_and!; try done.
  match goal with H : (_ && _)%bool = false |- _ => apply andb_false_iff in H; rewrite !negb_false_iff, !String.eqb_eq in H end.
  done.
Qed.

Lemma normalize_port_list name ps : ∀ N E O N' E' O',
  foldM (normalize_port name) (N, E, O) ps = Ok (N', E', O') →
  let qs := filled <$> ps in
  O' = O ++ qs ∧ Forall port_ok qs ∧
  NoDup (port_Name <$> qs) ∧ (∀ n, n ∈ port_Name <$> qs → n ∉ N) ∧
  NoDup (port_key <$> qs) ∧ (∀ k, k ∈ port_key <$> qs → k ∉ E).
Proof.
  induction ps as [|p ps IH]; intros N E O N' E' O'; cbn [foldM].
  { intros [= -> -> ->]. simpl. rewrite app_nil_r.
    split_and!; try constructor; intros ? []%not_elem_of_nil. }
  rewrite bind_Ok. intros ([[N1 E1] O1] & Hp & Hl).
  apply normalize_port_Ok in Hp as (Hok & Hn & Hk & -> & -> & ->).
  destruct (IH _ _ _ _ _ _ Hl) as (-> & Hall & Hnd & Hfresh & Hkd & Hkfresh).
  cbn [fmap list_fmap]. rewrite <-app_assoc. split_and!; [done|by constructor| | | |].
  - constructor; [|done]. intros Hin. apply (Hfresh _ Hin). apply elem_of_union. left. by apply elem_of_singleton.
  - intros n [->|Hin]%elem_of_cons; [done|]. specialize (Hfresh n Hin). intros HN. apply Hfresh.
    apply elem_of_union. by right.
  - constructor; [|done]. intros Hin. apply (Hkfresh _ Hin). apply elem_of_union. left. by apply elem_of_singleton.
  - intros n [->|Hin]%elem_of_cons; [done|]. specialize (Hkfresh n Hin). intros HN. apply Hkfresh.
    apply elem_of_union. by right.
Qed.

#[export] Instance port_name_le_trans : Transitive port_name_le.
Proof. intros p q r. apply str_le_trans. Qed.
#[export] Instance port_name_le_total : Total port_name_le.
Proof. intros p q. apply str_le_total. Qed.

(** The listeners of a service after [normalize_ports]. *)
Record ports_sound (s : Service) : Prop := {
  po_ok : Forall port_ok s.(svc_Ports);
  po_names : NoDup (port_Name <$> ServicePorts s);
  po_keys : NoDup (port_key <$> ServicePorts s);
  po_sorted : Sorted port_name_le s.(svc_Ports);
}.

Lemma normalize_ports_Ok name s s' : normalize_ports name s = Ok s' →
  ports_sound s' ∧ s' = set_svc_Ports s'.(svc_Ports) s ∧ s'.(svc_Ports) ≡ₚ filled <$> s.(svc_Ports).
Proof.
  unfold normalize_ports. intros Hn. inv_ok.
  destruct (if s.(svc_Port) =? 0 then _ else _) as [N E] eqn:HNE.
  apply bind_Ok in Hn as ([[N' E'] ports] & Hl & [= <-]).
  apply normalize_port_list in Hl as (-> & Hall & Hnd & Hfresh & Hkd & Hkfresh). simpl in *.
  pose proof (merge_sort_Permutation port_name_le (filled <$> s.(svc_Ports))) as Hperm.
  set (ports := merge_sort port_name_le _) in *.
  split_and!; [split; simpl|reflexivity|done].
  - by rewrite Hperm.
  - unfold ServicePorts. simpl. destruct (svc_Port s =? 0); simpl; rewrite Hperm; [done|].
    constructor; [|done]. intros Hin. apply (Hfresh _ Hin). simplify_eq. by apply elem_of_singleton.
  - unfold ServicePorts. simpl. destruct (svc_Port s =? 0); simpl; rewrite Hperm; [done|].
    constructor; [|done]. intros Hin. apply (Hkfresh _ Hin). simplify_eq. by apply elem_of_singleton.
  - apply Sorted_merge_sort, _.
Qed.
End port_facts.

(** ** Peers *)

Definition access_from (a : NetworkAccess) : list string := default [] a.(na_From).

(** Two services with the same name share a network, and the destination admits
    the source. *)
Lemma AllowsPeer_spec app source destination :
  AllowsPeer app source destination = true ↔
  ∃ src dst, app_services app !! source = Some src ∧ app_services app !! destination = Some dst ∧
    (∃ n, n ∈ svc_networks src ∧ n ∈ svc_networks dst) ∧
    ∀ a, dst.(svc_NetworkAccess) = Some a → source ∈ access_from a.
Proof.
  unfold AllowsPeer. split.
  - destruct (app_services app !! source) as [src|]; [|done].
    destruct (app_services app !! destination) as [dst|]; [|done].
    destruct (existsb _ (svc_networks src)) eqn:Hs; simpl; [|done].
    apply existsb_exists in Hs as (n & Hn & (m & Hm & Heq)%existsb_exists). apply String.eqb_eq in Heq as <-.
    apply list_elem_of_In in Hn, Hm. intros Ha. exists src, dst. split_and!; [done|done|by exists n|].
    intros a Hda. rewrite Hda in Ha. by apply one_of_spec in Ha.
  - intros (src & dst & -> & -> & (n & Hn & Hm) & Ha).
    assert (existsb (λ a, existsb (λ b, (a =? b)%string) (svc_networks dst)) (svc_networks src) = true) as ->.
    { apply existsb_exists. exists n. split; [by apply list_elem_of_In|].
      apply existsb_exists. exists n. split; [by apply list_elem_of_In|]. apply String.eqb_refl. }
    simpl. destruct (svc_NetworkAccess dst) as [a|]; [|done]. apply one_of_spec. by apply Ha.
Qed.

Section access_facts.
Context `{ThirdParty}.

(** What [normalize_network_access] may change of a service. *)
Definition access_rel (s s' : Service) : Prop :=
  s' = set_svc_NetworkAccess s'.(svc_NetworkAccess) (set_svc_Ports s'.(svc_Ports) s) ∧
  option_Forall2 (λ a a', access_from a ≡ₚ access_from a') s.(svc_NetworkAccess) s'.(svc_NetworkAccess).

#[export] Instance access_rel_refl : Reflexive access_rel.
Proof. intros s. split; [by destruct s|]. destruct (svc_NetworkAccess s); by constructor. Qed.
#[export] Instance access_rel_trans : Transitive access_rel.
Proof.
  intros s s' s'' [H1 A1] [H2 A2]. split; [rewrite H2 at 1; by rewrite H1|].
  inversion A1; inversion A2; try constructor; try congruence. etrans; [done|]. congruence.
Qed.

Lemma access_rel_networks s s' : access_rel s s' → svc_networks s' = svc_networks s.
Proof. intros [-> _]. reflexivity. Qed.

Lemma AllowsPeer_rel a b source destination :
  services_rel access_rel a b → AllowsPeer a source destination = AllowsPeer b source destination.
Proof.
  intros [_ Hr]. unfold AllowsPeer.
  destruct (Hr source) as [s s' Hs|]; [|done]. destruct (Hr destination) as [d d' Hd|]; [|done].
  rewrite (access_rel_networks s s' Hs), (access_rel_networks d d' Hd).
  destruct (negb _); [done|]. destruct Hd as [_ [x x' Hx|]]; [|done].
  apply eq_true_iff_eq. rewrite !one_of_spec. unfold access_from in Hx. by rewrite Hx.
Qed.

Lemma normalize_access_Ok app name s a a' : normalize_access app name s a = Ok a' →
  a'.(na_From) = Some (sort_strings (access_from a)) ∧ NoDup (access_from a) ∧
  (∀ peer, peer ∈ access_from a → is_Some (app_services app !! peer) ∧ AllowsPeer app peer name = true) ∧
  a'.(na_FromApplications) = sort_strings a.(na_FromApplications) ∧ NoDup a.(na_FromApplications).
Proof.
  unfold normalize_access. intros Ha. inv_ok.
  repeat match goal with H : range_unique _ _ _ _ _ = Ok _ |- _ => apply range_unique_Ok in H as (_ & ? & ?) end.
  rewrite list_fmap_id in *. simpl. unfold access_from. split_and!; try done.
  intros peer Hp.
  match goal with H : Forall _ (default [] _) |- _ => eapply Forall_forall in H as [Hk Hpeer]; [|exact Hp] end.
  rewrite fail_when_Ok in *. apply negb_false_iff in Hk, Hpeer. split; [by apply has_key_true|done].
Qed.

Lemma normalize_network_access_Ok app name s s' : normalize_network_access app name s = Ok s' →
  access_rel s s' ∧ ports_sound s' ∧
  ∀ a', s'.(svc_NetworkAccess) = Some a' →
    Sorted str_le (access_from a') ∧ NoDup (access_from a') ∧ NoDup a'.(na_FromApplications) ∧
    ∀ peer, peer ∈ access_from a' → AllowsPeer app peer name = true.
Proof.
  unfold normalize_network_access. rewrite bind_Ok. intros (s1 & Hp & Ha).
  apply normalize_ports_Ok in Hp as (Hsound & Hs1 & _).
  assert (svc_NetworkAccess s1 = svc_NetworkAccess s) as Hacc by by rewrite Hs1.
  destruct (svc_NetworkAccess s1) as [a|] eqn:Hsa.
  - inv_ok. match goal with H : normalize_access _ _ _ _ = Ok ?x |- _ =>
      apply normalize_access_Ok in H as (Hf & Hnd & Hall & Hfa & Hnda); rename x into a1 end.
    assert (access_from a1 = sort_strings (access_from a)) as Hfrom by (unfold access_from at 1; by rewrite Hf).
    split_and!.
    + split; [simpl; by rewrite Hs1|]. simpl. rewrite <-Hacc. constructor.
      by rewrite Hfrom, sort_strings_perm.
    + destruct Hsound. by split.
    + simpl. intros a' [= <-]. rewrite Hfrom, Hfa. split_and!.
      * apply sort_strings_sorted.
      * by rewrite sort_strings_perm.
      * by rewrite sort_strings_perm.
      * intros peer Hp. apply Hall. by rewrite <-elem_of_sort_strings.
  - inv_ok. split_and!; [|done|by rewrite Hsa]. split; [|rewrite Hsa, <-Hacc; constructor].
    transitivity (set_svc_NetworkAccess (svc_NetworkAccess s') s'); [by destruct s'|].
    f_equal. exact Hs1.
Qed.

Lemma validateNetworkAccess_Ok app app' : validateNetworkAccess app = Ok app' →
  services_rel access_rel app app' ∧
  ∀ n s', app_services app' !! n = Some s' → ports_sound s' ∧
    ∀ a', s'.(svc_NetworkAccess) = Some a' → 
      Sorted str_le (access_from a') ∧ NoDup (access_from a') ∧ NoDup a'.(na_FromApplications) ∧
      ∀ peer, peer ∈ access_from a' → AllowsPeer app' peer n = true.
Proof.
  unfold validateNetworkAccess. intros Hv.
  destruct (each_service_Ok access_rel _ _ _ ltac:(intros ???? Hs; by apply normalize_network_access_Ok in Hs as [? _]) Hv)
    as [Hr Hall].
  split; [done|]. intros n s' Hs'. destruct (Hall n s' Hs') as (s & appi & _ & Hf & _ & Hri).
  apply normalize_network_access_Ok in Hf as (_ & Hp & Ha). split; [done|].
  intros a' Ha'. destruct (Ha a' Ha') as (? & ? & ? & Hpeers). split_and!; try done.
  intros peer Hpeer. rewrite <-(AllowsPeer_rel _ _ _ _ Hri). by apply Hpeers.
Qed.
End access_facts.

(** ** Public TCP *)

Lemma canonical_cidr_Ok name c v : canonical_cidr name c = Ok v →
  ∃ ip bits, ParsePrefix4 c = Some (ip, bits) ∧ v = masked_String ip bits ∧ 0 ≤ ip < 2 ^ 32 ∧ 0 ≤ bits ≤ 32.
Proof.
  unfold canonical_cidr. destruct (ParsePrefix4 c) as [[ip bits]|] eqn:Hp; [|done]. intros [= <-].
  exists ip, bits. pose proof (ParsePrefix4_range _ _ _ Hp). tauto.
Qed.

Lemma canonical_cidr_again name c v : canonical_cidr name c = Ok v → canonical_cidr name v = Ok v.
Proof.
  intros (ip & bits & _ & -> & Hip & Hb)%canonical_cidr_Ok. unfold canonical_cidr.
  rewrite ParsePrefix4_masked by done. unfold masked_String.
  by destruct (mask_addr_spec ip bits Hip Hb) as (_ & _ & _ & ->).
Qed.

Definition canonical (c : string) : Prop := ∀ name, canonical_cidr name c = Ok c.

Lemma canonical_cidr_canonical name c v : canonical_cidr name c = Ok v → canonical v.
Proof.
  intros Hc name'. apply canonical_cidr_again in Hc. unfold canonical_cidr in *.
  by destruct (ParsePrefix4 v) as [[ip bits]|].
Qed.

Lemma normalize_cidrs_Ok name cidrs out : normalize_cidrs name cidrs = Ok out →
  1 ≤ lenl out ≤ 16 ∧ NoDup out ∧ Sorted str_le out ∧ Forall canonical out ∧
  ∃ vs, out = sort_strings vs ∧ Forall2 (λ c v, canonical_cidr name c = Ok v) cidrs vs.
Proof.
  unfold normalize_cidrs. rewrite bind_unit_Ok, fail_when_Ok. intros [Hlen Hl].
  apply bind_Ok in Hl as ([seen vs] & Hl & [= <-]). split_orb. zify_bool.
  assert (∀ l seen0 acc, NoDup acc → (∀ x, x ∈ acc ↔ x ∈ seen0) →
    foldM (λ '(seen, out) cidr, value ← canonical_cidr name cidr;
      _ ← fail_when (bool_decide (value ∈ (seen : gset string)))
            (Errorf "services.%s.public_tcp.source_cidrs: duplicate network" [AStr name]);
      Ok ({[ value ]} ∪ seen, out ++ [value])) (seen0, acc) l = Ok (seen, vs) →
    NoDup vs ∧ ∃ vs', vs = acc ++ vs' ∧ Forall2 (λ c v, canonical_cidr name c = Ok v) l vs') as Hgen.
  { clear Hl H H0. induction l as [|c l IH]; intros seen0 acc Hnd Hseen; cbn [foldM].
    { intros [= -> ->]. split; [done|]. exists []. by rewrite app_nil_r. }
    rewrite bind_Ok. intros ([s1 a1] & Hc & Hl). inv_ok. simplify_eq. rewrite bool_decide_eq_false in *.
    apply IH in Hl as (Hnd' & vs' & -> & Hall).
    - split; [done|]. eexists. rewrite <-app_assoc. split; [done|]. by constructor.
    - apply NoDup_snoc. split; [done|]. by rewrite Hseen.
    - intros x. rewrite elem_of_app, list_elem_of_singleton, elem_of_union, elem_of_singleton, Hseen. tauto. }
  destruct (Hgen _ _ _ (NoDup_nil_2) ltac:(intros x; split; [intros []%not_elem_of_nil|intros []%not_elem_of_empty]) Hl)
    as (Hnd & vs' & -> & Hall). simpl.
  assert (lenl (sort_strings vs') = lenl cidrs) as ->.
  { unfold lenl. rewrite (Permutation_length (sort_strings_perm vs')). by rewrite (Forall2_length _ _ _ Hall). }
  split_and!; [done|done|by rewrite sort_strings_perm|apply sort_strings_sorted| |by exists vs'].
  rewrite sort_strings_perm. apply Forall_forall. intros v (i & Hi)%list_elem_of_lookup.
  destruct (Forall2_lookup_r _ _ _ _ _ Hall Hi) as (c & _ & Hc). by eapply canonical_cidr_canonical.
Qed.

(** The listener of a service that passed. *)
Definition listener_ok (s : Service) (l : PublicTCPListener) : Prop :=
  ValidPublicTCPPort l.(pl_Port) = true ∧
  lenl (List.filter (tcp_target l.(pl_TargetPort)) (ServicePorts s)) = 1 ∧
  (s.(svc_Public) = true → l.(pl_TargetPort) ≠ s.(svc_Port)) ∧
  1 ≤ lenl l.(pl_SourceCIDRs) ≤ 16 ∧ NoDup l.(pl_SourceCIDRs) ∧ Sorted str_le l.(pl_SourceCIDRs) ∧
  Forall canonical l.(pl_SourceCIDRs).

Lemma normalize_listener_Ok name s ports l ports' l' : normalize_listener name s ports l = Ok (ports', l') →
  (l.(pl_Port) ∉ ports) ∧ ports' = {[ l.(pl_Port) ]} ∪ ports ∧ l'.(pl_Port) = l.(pl_Port) ∧
  l'.(pl_TargetPort) = l.(pl_TargetPort) ∧ listener_ok s l'.
Proof.
  unfold normalize_listener. intros Hl. inv_ok. simplify_eq. split_orb. rewrite bool_decide_eq_false in *.
  match goal with H : normalize_cidrs _ _ = Ok _ |- _ => apply normalize_cidrs_Ok in H as (? & ? & ? & ? & _) end.
  zify_bool. split_and!; try done. unfold listener_ok. simpl. split_and!; try done; try lia.
  intros Hpub. rewrite Hpub in *. simpl in *. by zify_bool.
Qed.

#[export] Instance listener_port_le_trans : Transitive listener_port_le.
Proof. unfold listener_port_le. intros p q r. lia. Qed.
#[export] Instance listener_port_le_total : Total listener_port_le.
Proof. unfold listener_port_le. intros p q. lia. Qed.

Definition listener_ports (s : Service) : list Z := pl_Port <$> s.(svc_PublicTCP).

(** Only the listeners of a service change. *)
Definition listeners_rel (s s' : Service) : Prop := s' = set_svc_PublicTCP s'.(svc_PublicTCP) s.
#[export] Instance listeners_rel_refl : Reflexive listeners_rel.
Proof. by intros []. Qed.
#[export] Instance listeners_rel_trans : Transitive listeners_rel.
Proof. intros s s' s'' H1 H2. unfold listeners_rel in *. rewrite H2 at 1. by rewrite H1. Qed.

Lemma listeners_rel_ports s s' : listeners_rel s s' →
  ServicePorts s' = ServicePorts s ∧ s'.(svc_Public) = s.(svc_Public) ∧ s'.(svc_Port) = s.(svc_Port).
Proof. intros ->. done. Qed.

Lemma normalize_listener_list name s ls : ∀ ports acc ports' out,
  foldM (λ '(ports, out) listener, '(ports, listener) ← normalize_listener name s ports listener;
    Ok (ports, out ++ [listener])) (ports, acc) ls = Ok (ports', out) →
  ∃ ls', out = acc ++ ls' ∧ length ls' = length ls ∧ Forall (listener_ok s) ls' ∧ NoDup (pl_Port <$> ls') ∧
    (∀ p, p ∈ pl_Port <$> ls' → p ∉ ports) ∧ ∀ p, p ∈ ports' ↔ p ∈ ports ∨ p ∈ pl_Port <$> ls'.
Proof.
  induction ls as [|x ls IH]; intros ports acc ports' out; cbn [foldM].
  { intros [= -> ->]. exists []. rewrite app_nil_r. cbn [fmap list_fmap]. split_and!; try constructor; try done.
    - intros p []%not_elem_of_nil.
    - by left.
    - intros [|[]%not_elem_of_nil]; done. }
  rewrite bind_Ok. intros ([p1 a1] & Hx & Hl). apply bind_Ok in Hx as ([p2 x'] & Hx & [= <- <-]).
  apply normalize_listener_Ok in Hx as (Hfresh & -> & Hp & _ & Hok).
  destruct (IH _ _ _ _ Hl) as (ls' & -> & Hlen & Hall & Hnd & Hfr & Hin).
  exists (x' :: ls'). cbn [fmap list_fmap length]. rewrite Hp, <-app_assoc. split_and!; try done.
  - by rewrite Hlen.
  - by constructor.
  - constructor; [|done]. intros Hx. apply (Hfr _ Hx). apply elem_of_union. left. by apply elem_of_singleton.
  - intros p [->|Hx]%elem_of_cons; [done|]. specialize (Hfr p Hx). intros Hp'. apply Hfr. apply elem_of_union. by right.
  - intros p. rewrite Hin, elem_of_union, elem_of_singleton, elem_of_cons. tauto.
Qed.

Lemma normalize_listeners_Ok ports app name s ports' s' :
  normalize_listeners ports app name s = Ok (ports', s') →
  listeners_rel s s' ∧ Forall (listener_ok s') s'.(svc_PublicTCP) ∧ Sorted listener_port_le s'.(svc_PublicTCP) ∧
  (s'.(svc_PublicTCP) ≠ [] → s'.(svc_Port) ≠ 0) ∧ lenl s'.(svc_PublicTCP) ≤ 16 ∧
  NoDup (listener_ports s') ∧ (∀ p, p ∈ listener_ports s' → p ∉ ports) ∧
  ∀ p, p ∈ ports' ↔ p ∈ ports ∨ p ∈ listener_ports s'.
Proof.
  unfold normalize_listeners. rewrite bind_unit_Ok, fail_when_Ok. intros [Hport Hl].
  rewrite bind_unit_Ok, fail_when_Ok in Hl. destruct Hl as [Hlen Hl].
  apply bind_Ok in Hl as ([ports1 out] & Hl & [= <- <-]). zify_bool.
  apply normalize_listener_list in Hl as (ls & -> & Hln & Hall & Hnd & Hfresh & Hin).
  rewrite app_nil_l. pose proof (merge_sort_Permutation listener_port_le ls) as Hperm.
  set (sorted := merge_sort listener_port_le ls) in *. unfold listener_ports. simpl.
  assert (length sorted = length ls) as Hsl by by rewrite Hperm.
  split_and!.
  - done.
  - change (Forall (listener_ok s) sorted). by rewrite Hperm.
  - apply Sorted_merge_sort, _.
  - intros Hne Hp. rewrite Hp, andb_true_r in Hport. zify_bool. apply Hne.
    destruct sorted; [done|]. unfold lenl in *. simpl in *. lia.
  - unfold lenl in *. lia.
  - by rewrite Hperm.
  - intros p. rewrite Hperm. apply Hfresh.
  - intros p. by rewrite Hperm.
Qed.

(** The external ports of some services, in order. *)
Definition external_ports (app : Application) (names : list string) : list Z :=
  names ≫= λ n, match app_services app !! n with Some s => listener_ports s | None => [] end.

Lemma external_ports_app app l1 l2 :
  external_ports app (l1 ++ l2) = external_ports app l1 ++ external_ports app l2.
Proof. apply bind_app. Qed.

Lemma external_ports_one app n s : app_services app !! n = Some s → external_ports app [n] = listener_ports s.
Proof. intros Hs. unfold external_ports. cbn. rewrite Hs. apply app_nil_r. Qed.

Lemma external_ports_put app n s l : n ∉ l → external_ports (put_service n s app) l = external_ports app l.
Proof.
  induction l as [|m l IH]; [done|]. intros [Hne Hn]%not_elem_of_cons.
  change (m :: l) with ([m] ++ l). rewrite !external_ports_app, IH by done. f_equal.
  unfold external_ports. cbn [mbind list_bind]. rewrite lookup_put_service. by rewrite decide_False.
Qed.

Lemma validatePublicTCP_Ok app app' : validatePublicTCP app = Ok app' →
  services_rel listeners_rel app app' ∧ NoDup (external_ports app' (Names app')) ∧
  lenl (external_ports app' (Names app')) ≤ 64 ∧
  ∀ n s', app_services app' !! n = Some s' →
    Forall (listener_ok s') s'.(svc_PublicTCP) ∧ Sorted listener_port_le s'.(svc_PublicTCP) ∧
    (s'.(svc_PublicTCP) ≠ [] → s'.(svc_Port) ≠ 0) ∧ lenl s'.(svc_PublicTCP) ≤ 16.
Proof.
  unfold validatePublicTCP. intros Hv. apply bind_Ok in Hv as ([ports app1] & Hl & Hv).
  rewrite bind_unit_Ok, fail_when_Ok in Hv. destruct Hv as [Hsize [= ->]]. zify_bool.
  assert (∀ (a : gset Z) appi n s a' s', normalize_listeners a appi n s = Ok (a', s') → listeners_rel s s') as Hrel.
  { intros a appi n s a' s' Hn. by apply normalize_listeners_Ok in Hn as [? _]. }
  destruct (each_service_with_Ok _ listeners_rel Hrel _ _ _ _ Hl) as [Hr Hall].
  assert ((∀ p, p ∈ ports ↔ p ∈ external_ports app' (Names app)) ∧ NoDup (external_ports app' (Names app))) as [Hin Hnd].
  { refine (each_service_with_inv normalize_listeners
      (λ ports app behind, (∀ p, p ∈ ports ↔ p ∈ external_ports app behind) ∧ NoDup (external_ports app behind))
      _ _ _ _ _ _ Hl).
    - split; [|constructor]. intros p. split; [intros []%not_elem_of_empty|intros []%not_elem_of_nil].
    - intros a appi behind n s a' s' Hn Hs [Hin Hnd] Hf.
      apply normalize_listeners_Ok in Hf as (_ & _ & _ & _ & _ & Hnds & Hfresh & Ha').
      assert (external_ports (put_service n s' appi) (behind ++ [n]) = external_ports appi behind ++ listener_ports s') as ->.
      { rewrite external_ports_app, external_ports_put by done. f_equal. apply external_ports_one.
        by rewrite lookup_put_service, decide_True. }
      split.
      + intros p. rewrite Ha', elem_of_app, Hin. done.
      + apply NoDup_app. split_and!; [done| |done]. intros p Hp Hp'. apply (Hfresh p Hp'). by apply Hin. }
  rewrite <-(services_rel_Names _ _ _ Hr). split_and!; [done|done| |].
  - assert (ports = list_to_set (external_ports app' (Names app))) as Heq.
    { apply set_eq. intros p. by rewrite Hin, elem_of_list_to_set. }
    rewrite Heq, size_list_to_set in Hsize by done. exact Hsize.
  - intros n s' Hs'. destruct (Hall n s' Hs') as (s & ai & ai' & appi & _ & Hf & _).
    apply normalize_listeners_Ok in Hf. tauto.
Qed.

(** ** HTTP endpoints *)

Section http_facts.
Context `{Host} `{ThirdParty} `{RangeOrder}.

(** The hostname generated for an endpoint. *)
Definition endpoint_host (name key : string) : string := name +:+ "-" +:+ key.

Definition endpoint_ok (app : Application) (name : string) (s : Service) (key : string) (e : HTTPEndpoint) : Prop :=
  s.(svc_Public) = true ∧ s.(svc_Job) = None ∧ full_match namePattern key = true ∧ len key ≤ 8 ∧
  (∃ p, p ∈ ServicePorts s ∧ p.(port_Port) = e.(he_Port) ∧ p.(port_Protocol) = "TCP") ∧
  (e.(he_Domain) ≠ EmptyString → ValidHostname e.(he_Domain) = true ∧
     default EmptyString (app.(app_Domains) !! e.(he_Domain)) = name).

Definition endpoint_domains (e : HTTPEndpoint) : list string :=
  if is_empty e.(he_Domain) then [] else [e.(he_Domain)].

Lemma check_endpoint_Ok app name s G D key e G' D' :
  check_endpoint app name s (G, D) (key, e) = Ok (G', D') →
  endpoint_ok app name s key e ∧ (endpoint_host name key ∉ G) ∧ G' = {[ endpoint_host name key ]} ∪ G ∧
  (∀ d, d ∈ endpoint_domains e → d ∉ D) ∧ ∀ d, d ∈ D' ↔ d ∈ D ∨ d ∈ endpoint_domains e.
Proof.
  unfold check_endpoint, endpoint_domains, endpoint_ok. intros Hc. inv_ok. split_orb.
  rewrite bool_decide_eq_false in *. zify_bool.
  assert (∃ p, p ∈ ServicePorts s ∧ p.(port_Port) = e.(he_Port) ∧ p.(port_Protocol) = "TCP") as Hport.
  { match goal with H : existsb _ _ = true |- _ => apply existsb_exists in H as (p & Hp & Heq) end.
    split_orb. zify_bool. exists p. rewrite String.eqb_eq in *. split_and!; [by apply list_elem_of_In|done..]. }
  assert (svc_Job s = None) as Hjob by by destruct (svc_Job s).
  destruct (is_empty (he_Domain e)) eqn:He; inv_ok; simplify_eq.
  - apply is_empty_true in He. split_and!; try done.
    + intros d []%not_elem_of_nil.
    + intros d. split; [by left|]. intros [|[]%not_elem_of_nil]; done.
  - split_orb. rewrite bool_decide_eq_false, String.eqb_eq in *. split_and!; try done.
    + intros d ->%list_elem_of_singleton. done.
    + intros d. rewrite elem_of_union, elem_of_singleton, list_elem_of_singleton. tauto.
Qed.

(** The generated names of one service. *)
Definition generated_hosts (entry : string * Service) : list string :=
  (λ kv : string * HTTPEndpoint, endpoint_host entry.1 kv.1) <$> range entry.2.(svc_HTTP).

Lemma check_endpoints_Ok app name s entries : ∀ acc acc',
  foldM (check_endpoint app name s) acc entries = Ok acc' →
  let hosts := (λ kv : string * HTTPEndpoint, endpoint_host name kv.1) <$> entries in
  Forall (λ kv : string * HTTPEndpoint, endpoint_ok app name s kv.1 kv.2) entries ∧
  NoDup hosts ∧ (∀ h, h ∈ hosts → h ∉ acc.1) ∧ (∀ h, h ∈ acc'.1 ↔ h ∈ acc.1 ∨ h ∈ hosts) ∧
  NoDup (entries ≫= λ kv : string * HTTPEndpoint, endpoint_domains kv.2).
Proof.
  intros acc acc' Hl. simpl.
  destruct (foldM_seen fst (λ kv : string * HTTPEndpoint, [endpoint_host name kv.1])
    (check_endpoint app name s) entries) with (s := acc) (s' := acc') as (Hnd & Hfresh & Hin & Hall); [|done|].
  { intros [G D] [key e] [G' D'] (_ & Hf & -> & _)%check_endpoint_Ok. simpl. split_and!.
    - apply NoDup_singleton.
    - by intros k ->%list_elem_of_singleton.
    - intros k. rewrite elem_of_union, elem_of_singleton, list_elem_of_singleton. tauto. }
  destruct (foldM_seen snd (λ kv : string * HTTPEndpoint, endpoint_domains kv.2)
    (check_endpoint app name s) entries) with (s := acc) (s' := acc') as (Hndd & _ & _ & _); [|done|].
  { intros [G D] [key e] [G' D'] (_ & _ & _ & Hf & Hin')%check_endpoint_Ok. simpl. split_and!; [|done|done].
    unfold endpoint_domains. destruct (is_empty _); [constructor|apply NoDup_singleton]. }
  assert (entries ≫= (λ kv : string * HTTPEndpoint, [endpoint_host name kv.1]) =
          (λ kv : string * HTTPEndpoint, endpoint_host name kv.1) <$> entries) as <-.
  { clear. induction entries as [|kv l IH]; [done|]. cbn. by f_equal. }
  split_and!; try done. eapply Forall_impl; [exact Hall|].
  intros [key e] ([G D] & [G' D'] & Hc). by apply check_endpoint_Ok in Hc as (? & _).
Qed.

(** What [validateHTTPEndpoints] accepts. *)
Record endpoints_sound (app : Application) : Prop := {
  es_ok : ∀ n s k e, app_services app !! n = Some s → s.(svc_HTTP) !! k = Some e → endpoint_ok app n s k e;
  es_unique : ∀ n s k n' s' k', app_services app !! n = Some s → app_services app !! n' = Some s' →
    is_Some (s.(svc_HTTP) !! k) → is_Some (s'.(svc_HTTP) !! k') →
    endpoint_host n k = endpoint_host n' k' → n = n' ∧ k = k';
  es_names : ∀ n s k, app_services app !! n = Some s → is_Some (s.(svc_HTTP) !! k) →
    app_services app !! endpoint_host n k = None;
  es_domains : ∀ n s k k' e e', app_services app !! n = Some s → s.(svc_HTTP) !! k = Some e →
    s.(svc_HTTP) !! k' = Some e' → e.(he_Domain) ≠ EmptyString → e.(he_Domain) = e'.(he_Domain) → k = k';
  es_count : ∀ n s, app_services app !! n = Some s → lenm s.(svc_HTTP) ≤ 4;
}.

Lemma elem_of_generated n s h : h ∈ generated_hosts (n, s) ↔ ∃ k, is_Some (s.(svc_HTTP) !! k) ∧ h = endpoint_host n k.
Proof.
  unfold generated_hosts. rewrite list_elem_of_fmap. simpl. split.
  - intros ([k e] & -> & Hk). exists k. apply elem_of_range in Hk. simpl. rewrite Hk. done.
  - intros (k & [e Hk] & ->). exists (k, e). by rewrite elem_of_range.
Qed.

(** The body of the outer loop. *)
Definition endpoints_step (app : Application) (generated : gset string) (entry : string * Service)
    : result (gset string) :=
  let '(name, s) := entry in
  _ ← fail_when (4 <? lenm s.(svc_HTTP))
        (Errorf "services.%s.http: at most four additional HTTP endpoints" [AStr name]);
  acc ← foldM (check_endpoint app name s) (generated, ∅) (range s.(svc_HTTP));
  Ok acc.1.

Lemma validateHTTPEndpoints_Ok app : validateHTTPEndpoints app = Ok tt → endpoints_sound app.
Proof.
  unfold validateHTTPEndpoints. intros Hv. apply bind_Ok in Hv as (final & Hl & _).
  change (foldM (endpoints_step app) (list_to_set (keys_of (app_services app))) (range (app_services app)) = Ok final) in Hl.
  assert (∀ G n s G', endpoints_step app G (n, s) = Ok G' → lenm s.(svc_HTTP) ≤ 4 ∧
    map_Forall (endpoint_ok app n s) s.(svc_HTTP) ∧ NoDup (generated_hosts (n, s)) ∧
    (∀ h, h ∈ generated_hosts (n, s) → h ∉ G) ∧ (∀ h, h ∈ G' ↔ h ∈ G ∨ h ∈ generated_hosts (n, s)) ∧
    NoDup (range s.(svc_HTTP) ≫= λ kv : string * HTTPEndpoint, endpoint_domains kv.2)) as Hstep.
  { intros G n s G' Hs. unfold endpoints_step in Hs. cbn beta iota in Hs. inv_ok. zify_bool.
    match goal with H : foldM _ _ _ = Ok _ |- _ => apply check_endpoints_Ok in H as (Hoks & Hnd & Hf & Hin & Hd) end.
    split_and!; try done. intros k e Hk. rewrite Forall_forall in Hoks. apply (Hoks (k, e)). by apply elem_of_range. }
  destruct (foldM_seen id generated_hosts (endpoints_step app) (range (app_services app))) with
    (s := list_to_set (keys_of (app_services app)) : gset string) (s' := final) as (Hnd & Hfresh & _ & Hall); [|done|].
  { intros G [n s] G' Hs. apply Hstep in Hs. tauto. }
  assert (∀ n s, app_services app !! n = Some s → ∃ G G', endpoints_step app G (n, s) = Ok G') as Hsvc.
  { intros n s Hs. rewrite Forall_forall in Hall. apply (Hall (n, s)). by apply elem_of_range. }
  split.
  - intros n s k e Hs Hk. destruct (Hsvc n s Hs) as (G & G' & Hc). apply Hstep in Hc as (_ & Hok & _). by apply Hok.
  - intros n s k n' s' k' Hs Hs' Hk Hk' Heq.
    assert ((n, s) = (n', s')) as [= -> ->].
    { eapply (NoDup_bind_inj _ _ _ _ (endpoint_host n k) Hnd); [by apply elem_of_range..| |];
        apply elem_of_generated; [by exists k|exists k'; by rewrite Heq]. }
    split; [done|]. by apply string_app_inj_l, string_app_inj_l in Heq.
  - intros n s k Hs Hk. destruct (app_services app !! endpoint_host n k) as [s'|] eqn:Hs'; [|done]. exfalso.
    apply (Hfresh (endpoint_host n k)).
    + apply list_elem_of_bind. exists (n, s). rewrite elem_of_range, elem_of_generated. eauto.
    + apply elem_of_list_to_set, elem_of_keys_of. by exists s'.
  - intros n s k k' e e' Hs Hk Hk' Hne Heq. destruct (Hsvc n s Hs) as (G & G' & Hc).
    apply Hstep in Hc as (_ & _ & _ & _ & _ & Hd).
    assert ((k, e) = (k', e')) as [= -> ->]; [|done].
    eapply (NoDup_bind_inj _ _ _ _ (he_Domain e) Hd); [by apply elem_of_range..| |];
      unfold endpoint_domains; simpl; rewrite <-?Heq, (proj2 (is_empty_false _) Hne); by apply list_elem_of_singleton.
  - intros n s Hs. destruct (Hsvc n s Hs) as (G & G' & Hc). by apply Hstep in Hc as (? & _).
Qed.

(** Conversely, sound endpoints are accepted. *)
Lemma check_endpoint_accepts app name s G D key e :
  endpoint_ok app name s key e → (endpoint_host name key ∉ G) → (∀ d, d ∈ endpoint_domains e → d ∉ D) →
  is_ok (check_endpoint app name s (G, D) (key, e)) = true.
Proof.
  intros (Hpub & Hjob & Hkey & Hlen & (p & Hp & Hpp & Htcp) & Hdom) HG HD. unfold check_endpoint.
  rewrite Hpub, Hjob, Hkey, (proj2 (Z.ltb_ge _ _) Hlen). fold (endpoint_host name key).
  rewrite (bool_decide_eq_false_2 _ HG).
  assert (existsb (λ p, (p.(port_Port) =? e.(he_Port)) && (p.(port_Protocol) =? "TCP")%string) (ServicePorts s) = true) as ->.
  { apply existsb_exists. exists p. rewrite <-list_elem_of_In, Hpp, Htcp, Z.eqb_refl. done. }
  unfold endpoint_domains in HD. simpl. destruct (is_empty (he_Domain e)) eqn:He; [done|].
  apply is_empty_false in He. destruct (Hdom He) as [Hv Hd].
  rewrite Hv, Hd, String.eqb_refl, bool_decide_eq_false_2; [done|]. apply HD. by left.
Qed.

Lemma check_endpoints_accepts app name s entries : ∀ G D,
  let hosts := (λ kv : string * HTTPEndpoint, endpoint_host name kv.1) <$> entries in
  let domains := entries ≫= λ kv : string * HTTPEndpoint, endpoint_domains kv.2 in
  Forall (λ kv : string * HTTPEndpoint, endpoint_ok app name s kv.1 kv.2) entries →
  NoDup hosts → (∀ h, h ∈ hosts → h ∉ G) → NoDup domains → (∀ d, d ∈ domains → d ∉ D) →
  ∃ acc, foldM (check_endpoint app name s) (G, D) entries = Ok acc.
Proof.
  induction entries as [|[key e] entries IH]; intros G D; [eexists; done|].
  cbn [foldM mbind list_bind fmap list_fmap fst snd].
  intros [Hok Hoks]%Forall_cons [Hh Hnd]%NoDup_cons HG (_ & Hsep & Hndd)%NoDup_app HD. simpl in Hok.
  pose proof (check_endpoint_accepts app name s G D key e Hok ltac:(apply HG; by left)
    ltac:(intros d Hd; apply HD, elem_of_app; by left)) as [[G1 D1] Hc]%is_ok_true.
  rewrite Hc. pose proof Hc as (_ & _ & -> & _ & HD1)%check_endpoint_Ok. apply IH; [done|done| |done|].
  - intros h Hin [->%elem_of_singleton|HinG]%elem_of_union; [done|]. by apply (HG h); [right|].
  - intros d Hin [Hd|Hd]%HD1; [by apply (HD d); [apply elem_of_app; right|]|by apply (Hsep d)].
Qed.

Lemma endpoints_step_accepts app n s G : endpoints_sound app → app_services app !! n = Some s →
  NoDup (generated_hosts (n, s)) → (∀ h, h ∈ generated_hosts (n, s) → h ∉ G) →
  ∃ G', endpoints_step app G (n, s) = Ok G' ∧ ∀ h, h ∈ G' ↔ h ∈ G ∨ h ∈ generated_hosts (n, s).
Proof.
  intros [Hok _ _ Hdom Hcount] Hs Hnd HG. unfold endpoints_step.
  rewrite (proj2 (Z.ltb_ge _ _) (Hcount n s Hs)). cbn [fail_when mbind result_bind].
  destruct (check_endpoints_accepts app n s (range s.(svc_HTTP)) G ∅) as [acc Hacc].
  - apply Forall_forall. intros [k e] Hk. apply elem_of_range in Hk. by eapply Hok.
  - exact Hnd.
  - exact HG.
  - apply NoDup_bind.
    + intros [k e] [k' e'] d Hk Hk' Hd Hd'. rewrite elem_of_range in Hk, Hk'. unfold endpoint_domains in *. simpl in *.
      destruct (is_empty (he_Domain e)) eqn:He; [by apply not_elem_of_nil in Hd|]. apply is_empty_false in He.
      destruct (is_empty (he_Domain e')); [by apply not_elem_of_nil in Hd'|].
      apply list_elem_of_singleton in Hd, Hd'. assert (k = k') as -> by (eapply Hdom; eauto; congruence).
      congruence.
    + intros [k e] _. unfold endpoint_domains. simpl. destruct (is_empty _); [constructor|apply NoDup_singleton].
    + eapply NoDup_fmap_1, keys_of_NoDup.
  - intros d _. apply not_elem_of_empty.
  - rewrite Hacc. exists acc.1. split; [done|].
    apply check_endpoints_Ok in Hacc as (_ & _ & _ & Hin & _). exact Hin.
Qed.

Lemma endpoints_loop_accepts app entries : endpoints_sound app → ∀ G,
  (∀ n s, (n, s) ∈ entries → app_services app !! n = Some s) →
  NoDup (entries ≫= generated_hosts) → (∀ h, h ∈ entries ≫= generated_hosts → h ∉ G) →
  ∃ G', foldM (endpoints_step app) G entries = Ok G'.
Proof.
  intros Hsound. induction entries as [|[n s] entries IH]; intros G Hs; [eexists; done|].
  cbn [foldM mbind list_bind]. intros (Hnd & Hsep & Hnd')%NoDup_app HG.
  destruct (endpoints_step_accepts app n s G Hsound) as (G1 & Hstep & Hin).
  - apply Hs. by left.
  - done.
  - intros h Hh. apply HG, elem_of_app. by left.
  - rewrite Hstep. apply IH; [intros n' s' Hn; apply Hs; by right|done|].
    intros h Hh [Hh'|Hh']%Hin; [by apply (HG h); [apply elem_of_app; right|]|by apply (Hsep h)].
Qed.

Lemma validateHTTPEndpoints_accepts app : endpoints_sound app → validateHTTPEndpoints app = Ok tt.
Proof.
  intros Hsound. pose proof Hsound as [_ Huniq Hnames _ _]. unfold validateHTTPEndpoints.
  change (foldM _ _ (range (app_services app))) with
    (foldM (endpoints_step app) (list_to_set (keys_of (app_services app))) (range (app_services app))).
  destruct (endpoints_loop_accepts app (range (app_services app)) Hsound
    (list_to_set (keys_of (app_services app)))) as [G' ->]; [| | |done].
  - intros n s. apply elem_of_range.
  - apply NoDup_bind.
    + intros [n s] [n' s'] h Hn Hn'. rewrite elem_of_range in Hn, Hn'. rewrite !elem_of_generated.
      intros (k & Hk & ->) (k' & Hk' & Heq).
      destruct (Huniq n s k n' s' k' Hn Hn' Hk Hk' Heq) as [-> _]. congruence.
    + intros [n s] _. unfold generated_hosts. apply NoDup_fmap_2_strong.
      * intros [k e] [k' e'] Hk Hk' Heq. rewrite elem_of_range in Hk, Hk'. simpl in *.
        apply string_app_inj_l, string_app_inj_l in Heq as ->. congruence.
      * eapply NoDup_fmap_1, keys_of_NoDup.
    + eapply NoDup_fmap_1, keys_of_NoDup.
  - intros h ([n s] & Hh & Hn)%list_elem_of_bind. rewrite elem_of_range in Hn.
    apply elem_of_generated in Hh as (k & Hk & ->). rewrite elem_of_list_to_set, elem_of_keys_of.
    rewrite (Hnames n s k Hn Hk). by intros [? ?].
Qed.
End http_facts.

(** * Properties *)

Lemma network_access_Ok `{ThirdParty} app app' :
  validateNetworkAccess app = Ok app' →
  services_rel access_rel app app' ∧
  ∀ n s, app_services app' !! n = Some s → ports_sound s ∧
    ∀ a, s.(svc_NetworkAccess) = Some a →
      NoDup (access_from a) ∧ ∀ peer, AllowsPeer app' peer n = true ↔ peer ∈ access_from a.
Proof.
  intros Hv. apply validateNetworkAccess_Ok in Hv as [Hr Hall]. split; [done|].
  intros n s Hs. destruct (Hall n s Hs) as [Hp Ha]. split; [done|]. intros a Hsa.
  destruct (Ha a Hsa) as (_ & Hnd & _ & Hpeers). split; [done|]. intros peer. split; [|apply Hpeers].
  rewrite AllowsPeer_spec. intros (src & dst & _ & Hdst & _ & Hin). simplify_eq. by apply Hin.
Qed.

(** After [validateNetworkAccess] the listeners of every service have unique
    names and unique protocol/port pairs, all within range, and a service with an
    access list admits exactly the listed services: each of them shares a network
    with it, and no other service passes [AllowsPeer]. *)
Theorem network_access_exact `{ThirdParty} app app' :
  validateNetworkAccess app = Ok app' →
  services_rel access_rel app app' ∧
  ∀ n s, app_services app' !! n = Some s → ports_sound s ∧
    ∀ a, s.(svc_NetworkAccess) = Some a →
      NoDup (access_from a) ∧ ∀ peer, AllowsPeer app' peer n = true ↔ peer ∈ access_from a.
Proof. apply network_access_Ok. Qed.

(** After [validatePublicTCP] no two listeners of the application use one
    external port, none uses a platform port, there are at most 64, each forwards
    to exactly one declared TCP port other than the HTTP ingress port, and its
    source networks are distinct, sorted and in canonical form. *)
Theorem public_tcp_sound app app' :
  validatePublicTCP app = Ok app' →
  NoDup (external_ports app' (Names app')) ∧ lenl (external_ports app' (Names app')) ≤ 64 ∧
  services_rel listeners_rel app app' ∧
  ∀ n s l, app_services app' !! n = Some s → l ∈ s.(svc_PublicTCP) → listener_ok s l.
Proof.
  intros Hv. apply validatePublicTCP_Ok in Hv as (Hr & Hnd & Hlen & Hall). split_and!; try done.
  intros n s l Hs Hl. destruct (Hall n s Hs) as (Hok & _). by eapply Forall_forall in Hok.
Qed.

(** Source networks are canonical: what [validatePublicTCP] stores for an
    IPv4 prefix denotes the same network, with no host bits, contains the address
    written, and is stored unchanged when it is read again. *)
Theorem cidr_canonical name c v :
  canonical_cidr name c = Ok v →
  ∃ ip bits net, ParsePrefix4 c = Some (ip, bits) ∧ ParsePrefix4 v = Some (net, bits) ∧
    net ≤ ip < net + 2 ^ (32 - bits) ∧ net mod 2 ^ (32 - bits) = 0 ∧ canonical_cidr name v = Ok v.
Proof.
  intros Hc. pose proof (canonical_cidr_again _ _ _ Hc) as Hagain.
  apply canonical_cidr_Ok in Hc as (ip & bits & Hp & -> & Hip & Hb).
  destruct (mask_addr_spec ip bits Hip Hb) as (_ & Hin & Hmod & _).
  exists ip, bits, (mask_addr ip bits). by rewrite ParsePrefix4_masked.
Qed.

(** [validateHTTPEndpoints] accepts exactly the applications in which the
    generated hostnames [service-endpoint] are pairwise distinct over the whole
    application and distinct from every service name, each of the at most four
    endpoints of a service selects a declared TCP port of a public service, and a
    custom domain is assigned to its service and used once. *)
Theorem http_hostnames_exact `{Host} `{ThirdParty} `{RangeOrder} app :
  validateHTTPEndpoints app = Ok tt ↔ endpoints_sound app.
Proof. split; [apply validateHTTPEndpoints_Ok|apply validateHTTPEndpoints_accepts]. Qed.

Import Concrete.
Module NetworkExample.
Definition db : Service :=
  set_svc_NetworkAccess (Some (mkNetworkAccess (Some ["web"; "jobs"]) []))
    (set_svc_Ports [mkPort "sql" 5432 0 "tcp"] (set_svc_Networks (Some ["default"]) zero_Service)).
Definition member : Service := set_svc_Networks (Some ["default"]) zero_Service.
Definition app : Application :=
  set_app_Services (Some {["db" := db; "web" := member; "jobs" := member]}) zero_Application.
Definition checked : Application := match validateNetworkAccess app with Ok a => a | Err _ => app end.

Definition mail : Service :=
  set_svc_PublicTCP [mkPublicTCPListener 2525 25 ["10.1.2.3/8"; "192.168.0.0/16"]]
    (set_svc_Ports [mkPort "smtp" 25 25 "TCP"; mkPort "http" 8000 8000 "TCP"] (set_svc_Port 8000 zero_Service)).
Definition mail_app : Application := set_app_Services (Some {["mail" := mail]}) zero_Application.
Definition published : Application := match validatePublicTCP mail_app with Ok a => a | Err _ => mail_app end.

Definition site : Service :=
  set_svc_HTTP {["admin" := mkHTTPEndpoint 8000 EmptyString]} (set_svc_Public true (set_svc_Port 8000 zero_Service)).
Definition site_app : Application := set_app_Services (Some {["site" := site; "mail" := mail]}) zero_Application.
End NetworkExample.

Lemma network_access_exact_witness :
  AllowsPeer NetworkExample.checked "web" "db" = true ∧ AllowsPeer NetworkExample.checked "db" "db" = false ∧
  services_rel access_rel NetworkExample.app NetworkExample.checked.
Proof.
  split_and!; [vm_compute; reflexivity..|].
  refine (proj1 (network_access_exact NetworkExample.app NetworkExample.checked _)). vm_compute. reflexivity.
Defined.

Lemma public_tcp_sound_witness :
  external_ports NetworkExample.published (Names NetworkExample.published) = [2525] ∧
  NoDup (external_ports NetworkExample.published (Names NetworkExample.published)).
Proof.
  split; [vm_compute; reflexivity|].
  refine (proj1 (public_tcp_sound NetworkExample.mail_app NetworkExample.published _)). vm_compute. reflexivity.
Defined.

Lemma cidr_canonical_witness :
  ∃ ip bits net, ParsePrefix4 "10.1.2.3/8" = Some (ip, bits) ∧ ParsePrefix4 "10.0.0.0/8" = Some (net, bits) ∧
    net ≤ ip < net + 2 ^ (32 - bits) ∧ net mod 2 ^ (32 - bits) = 0 ∧
    canonical_cidr "mail" "10.0.0.0/8" = Ok "10.0.0.0/8".
Proof. apply cidr_canonical. vm_compute. reflexivity. Defined.

Lemma http_hostnames_exact_witness : endpoints_sound NetworkExample.site_app.
Proof. apply (http_hostnames_exact NetworkExample.site_app). vm_compute. reflexivity. Defined.
