(* ===== verification/SpecWorkloads.v ===== *)
(** Workload modes (workloads.go, lifecycle.go, serverless.go,
    sandbox_sessions.go, readiness.go, runtime.go, runtime_profile.go,
    node_profile.go, custom_hostnames.go, aws_identity.go, container_daemon.go,
    certificate_mounts.go, kubernetes.go, delivery.go): what one service may
    combine, and the defaults each mode fills in. *)
From S2P Require Import Prelude GoStd Regex SpecTypes Platform SpecChecks SpecEnvironment SpecStorage.
#[global] Open Scope Z_scope.

(** [if x == 0 { x = d }] *)
Definition or_default (d x : Z) : Z := if x =? 0 then d else x.

(** [x < lo || x > hi] *)
Definition outside (lo hi x : Z) : bool := (x <? lo) || (hi <? x).

(** * Placement and devices (workloads.go) *)

Section workload.
Context `{ThirdParty}.

Definition check_volume (s : Service) (v : Volume) : result unit :=
  _ ← fail_when (negb (s.(svc_Replicas) =? 1) || non_nil s.(svc_Autoscaling))
        (Errorf "persistent services require exactly one replica without autoscaling" []);
  _ ← fail_when (outside 1 200 v.(vol_SizeGiB)) (Errorf "volume.size_gib must be 1–200" []);
  _ ← fail_when (negb (HasPrefix v.(vol_MountPath) "/") || (v.(vol_MountPath) =? "/")%string ||
                 (200 <? len v.(vol_MountPath)) ||
                 negb (path_Clean v.(vol_MountPath) =? v.(vol_MountPath))%string ||
                 ContainsAny v.(vol_MountPath) (NUL +:+ CR +:+ LF))
        (Errorf "volume.mount_path must be a clean absolute data directory" []);
  _ ← iterM (λ reserved,
        fail_when ((v.(vol_MountPath) =? reserved)%string || HasPrefix v.(vol_MountPath) (reserved +:+ "/"))
          (Errorf "volume cannot replace a system directory" []))
        ["/proc"; "/sys"; "/dev"; "/etc"; "/run"; "/var/run"];
  fail_when (negb (is_empty v.(vol_StorageClass)) && negb (IsDNS1123Subdomain v.(vol_StorageClass)))
    (Errorf "invalid storage class" []).

Definition validateWorkload (s : Service) : result unit :=
  _ ← fail_when (negb (is_empty s.(svc_NodeName)) && negb (IsDNS1123Subdomain s.(svc_NodeName)))
        (Errorf "node_name must be an exact Kubernetes node name" []);
  _ ← validateMountControls s;
  _ ← fail_when (negb (is_empty s.(svc_Architecture)) && negb (s.(svc_Architecture) =? "amd64")%string &&
                 negb (s.(svc_Architecture) =? "arm64")%string)
        (Errorf "architecture must be amd64 or arm64" []);
  _ ← fail_when (outside 0 2147483647 s.(svc_RunAsUser))
        (Errorf "run_as_user must be a positive unprivileged UID" []);
  _ ← match s.(svc_Volume) with Some v => check_volume s v | None => Ok tt end;
  match s.(svc_GPU) with
  | Some g => fail_when (outside 1 8 g.(gpu_Count) || non_nil s.(svc_Autoscaling))
                (Errorf "gpu.count must be 1–8; GPU autoscaling is not supported" [])
  | None => Ok tt
  end.
End workload.

(** * Jobs and files (lifecycle.go) *)

Section lifecycle.
Context `{Host} `{ThirdParty} `{RangeOrder}.

Definition hex_digits : string := "0123456789abcdef".
Definition invocation_dir : string := "/run/hakopod/invocation".

(** The branch of [normalizeJobAndFiles] for [j.Invocation]. *)
Definition normalize_invocation (s : Service) (j : Job) (cfg : JobInvocation) : result JobInvocation :=
  _ ← fail_when (non_nil j.(job_Schedule) || negb (j.(job_Retries) =? 0))
        (Errorf "job.invocation: schedules and automatic retries are not permitted" []);
  _ ← fail_when (non_nil s.(svc_Volume) || (0 <? lenl s.(svc_Mounts)))
        (Errorf "job.invocation: persistent volumes are not permitted; use bounded temporary mounts" []);
  _ ← fail_when (outside 1 16 (lenl cfg.(ji_AllowedIdentities)))
        (Errorf "job.invocation.allowed_identities: require 1–16 machine identity IDs" []);
  let bad_id := Errorf "job.invocation.allowed_identities: require unique 32-character lowercase hexadecimal IDs" [] in
  _ ← range_unique (λ id, fail_when (negb (len id =? 32) || negb (all_in id hex_digits)) bad_id)
        id (λ _, bad_id) no_check cfg.(ji_AllowedIdentities);
  _ ← fail_when (outside 1 16 (lenl cfg.(ji_InputKeys)))
        (Errorf "job.invocation.input_keys: require 1–16 input keys" []);
  let bad_key := Errorf "job.invocation.input_keys: require unique valid names of at most 64 characters" [] in
  _ ← range_unique (λ key, fail_when ((64 <? len key) || negb (full_match namePattern key)) bad_key)
        id (λ _, bad_key) no_check cfg.(ji_InputKeys);
  let cfg := set_ji_MaxInputBytes (or_default (64 * 1024) cfg.(ji_MaxInputBytes)) cfg in
  _ ← fail_when (outside 2 (128 * 1024) cfg.(ji_MaxInputBytes))
        (Errorf "job.invocation.max_input_bytes: use 2–131072 bytes" []);
  let cfg := set_ji_QueueLimit (or_default 16 cfg.(ji_QueueLimit)) cfg in
  _ ← fail_when (outside 1 64 cfg.(ji_QueueLimit))
        (Errorf "job.invocation.queue_limit: use 1–64 pending jobs" []);
  _ ← fail_when (16 <=? lenm s.(svc_Files) + lenl s.(svc_TemporaryMounts) + lenl s.(svc_CertificateMounts))
        (Errorf "job.invocation: reserve one file mount for invocation input" []);
  _ ← iterM (λ p, fail_when (overlaps p invocation_dir)
          (Errorf "job.invocation: mounts cannot overlap /run/hakopod/invocation" []))
        ((file_MountPath ∘ snd <$> range s.(svc_Files)) ++ (tm_MountPath <$> s.(svc_TemporaryMounts)));
  Ok cfg.

Definition normalize_schedule (schedule : JobSchedule) : result JobSchedule :=
  _ ← fail_when ((100 <? len schedule.(js_Cron)) || negb (lenl (Fields schedule.(js_Cron)) =? 5))
        (Errorf "job.schedule.cron: use a five-field cron expression" []);
  _ ← fail_when (negb (cron_ParseStandard schedule.(js_Cron)))
        (Errorf "job.schedule.cron: invalid cron expression" []);
  let schedule := if is_empty schedule.(js_Timezone) then set_js_Timezone "UTC" schedule else schedule in
  _ ← fail_when (100 <? len schedule.(js_Timezone)) (Errorf "job.schedule.timezone: invalid timezone" []);
  _ ← fail_when (negb (LoadLocation schedule.(js_Timezone)))
        (Errorf "job.schedule.timezone: use an IANA timezone" []);
  let schedule := set_js_HistoryLimit (or_default 1 schedule.(js_HistoryLimit)) schedule in
  _ ← fail_when (outside 1 2 schedule.(js_HistoryLimit))
        (Errorf "job.schedule.history_limit: use 1 or 2 retained successes and failures" []);
  Ok schedule.

(** What a job may not combine with. *)
Definition job_conflict (s : Service) : bool :=
  negb (s.(svc_Replicas) =? 1) || non_nil s.(svc_Autoscaling) || negb (s.(svc_Port) =? 0) ||
  (0 <? lenl s.(svc_Ports)) || s.(svc_Public) || s.(svc_BackendHTTP2) ||
  negb (s.(svc_IngressTimeoutSeconds) =? 0) || (0 <? lenl s.(svc_PublicTCP)) || non_nil s.(svc_TLS) ||
  non_nil s.(svc_Readiness) || negb (is_empty s.(svc_Healthcheck)) ||
  (0 <? lenl s.(svc_CertificateMounts)) || negb (is_empty s.(svc_UpdateStrategy)) ||
  negb (is_empty s.(svc_ContainerDaemon)) || non_nil s.(svc_Kubernetes).

Definition normalize_job (s : Service) (j : Job) : result Job :=
  j ← match j.(job_Invocation) with
      | Some cfg => cfg ← normalize_invocation s j cfg; Ok (set_job_Invocation (Some cfg) j)
      | None => Ok j
      end;
  j ← match j.(job_Schedule) with
      | Some schedule => schedule ← normalize_schedule schedule; Ok (set_job_Schedule (Some schedule) j)
      | None => Ok j
      end;
  let j := set_job_TimeoutSeconds (or_default 300 j.(job_TimeoutSeconds)) j in
  _ ← fail_when (outside 10 900 j.(job_TimeoutSeconds) || outside 0 3 j.(job_Retries))
        (Errorf "job: timeout_seconds must be 10–900 and retries 0–3" []);
  _ ← fail_when (job_conflict s)
        (Errorf "job: require one replica without listeners, readiness checks, certificates, autoscaling, update strategy, a container daemon binding or Kubernetes patches" []);
  Ok j.

(** [paths] before the loop over the files. *)
Definition volume_paths (s : Service) : list string :=
  match s.(svc_Volume) with Some v => [v.(vol_MountPath)] | None => [] end ++
  (mt_MountPath <$> s.(svc_Mounts)) ++ (tm_MountPath <$> s.(svc_TemporaryMounts)) ++
  (cm_MountPath <$> s.(svc_CertificateMounts)).

Definition reserved_file (p reserved : string) : bool :=
  (p =? reserved)%string || (negb (reserved =? "/etc")%string && HasPrefix p (reserved +:+ "/")) ||
  HasPrefix reserved (p +:+ "/").

(** One file: its checked form with the mode filled in. *)
Definition check_file (s : Service) (name : string) (f : File) : result File :=
  _ ← fail_when (negb (full_match namePattern name) || negb (cleanDirectory f.(file_MountPath)) ||
                 Bool.eqb (negb (non_nil f.(file_Content))) (negb (non_nil f.(file_Secret))))
        (Errorf "files: use a valid name, absolute file path and exactly one of content or secret" []);
  _ ← iterM (λ reserved, fail_when (reserved_file f.(file_MountPath) reserved)
          (Errorf "files.%s: cannot replace a reserved system path" [AStr name]))
        ["/proc"; "/sys"; "/dev"; "/var/run/secrets"; "/run/secrets"; "/etc"];
  _ ← fail_when (match f.(file_Secret) with Some r => negb (SecretRef_Valid r) | None => false end)
        (Errorf "files.%s.secret: invalid scoped secret reference" [AStr name]);
  _ ← fail_when (has_key s.(svc_Secrets) (FileSecretKey name))
        (Errorf "files.%s: reserved secret key collision" [AStr name]);
  _ ← fail_when (match f.(file_Content) with
                 | Some c => (64 * 1024 <? len c) || has_byte Ascii.zero c
                 | None => false
                 end)
        (Errorf "files.%s.content: at most 64 KiB without NUL" [AStr name]);
  let f := set_file_Mode (or_default 292 f.(file_Mode)) f in
  _ ← fail_when (negb (f.(file_Mode) =? 292) && negb (f.(file_Mode) =? 288))
        (Errorf "files.%s.mode: choose 292 (0444) or 288 (0440); files are read-only" [AStr name]);
  Ok f.

(** The loop over the files: rewritten files, [paths] and [total]. *)
Definition normalize_file (s : Service) (acc : gmap string File * list string * Z)
    (entry : string * File) : result (gmap string File * list string * Z) :=
  let '(files, paths, total) := acc in
  let '(name, f) := entry in
  f ← check_file s name f;
  _ ← fail_when (existsb (overlaps f.(file_MountPath)) paths)
        (Errorf "file and volume mount paths must not overlap" []);
  Ok (<[ name := f ]> files, paths ++ [f.(file_MountPath)],
      total + match f.(file_Content) with Some c => len c | None => 0 end).

Definition normalize_files (s : Service) : result (gmap string File) :=
  _ ← fail_when (16 <? lenm s.(svc_Files) + lenl s.(svc_Mounts) + lenl s.(svc_TemporaryMounts) +
                       lenl s.(svc_CertificateMounts))
        (Errorf "at most 16 file, named, temporary and certificate mounts" []);
  '(files, _, total) ← foldM (normalize_file s) (s.(svc_Files), volume_paths s, 0) (range s.(svc_Files));
  _ ← fail_when (128 * 1024 <? total) (Errorf "files: combined content exceeds 128 KiB" []);
  Ok files.

Definition normalizeJobAndFiles (s : Service) : result Service :=
  s ← match s.(svc_Job) with
      | Some j => j ← normalize_job s j; Ok (set_svc_Job (Some j) s)
      | None => Ok s
      end;
  files ← normalize_files s;
  Ok (set_svc_Files files s).
End lifecycle.

(** * Serverless (serverless.go) *)

Definition serverless_conflict (s : Service) : bool :=
  negb s.(svc_Public) || (s.(svc_Port) <? 1) || negb (s.(svc_Replicas) =? 1) || non_nil s.(svc_Job) ||
  non_nil s.(svc_Autoscaling) || non_nil s.(svc_Volume) || (0 <? lenl s.(svc_Mounts)) ||
  non_nil s.(svc_GPU) || (0 <? lenl s.(svc_PublicTCP)) || (0 <? lenm s.(svc_HTTP)) ||
  (0 <? lenl s.(svc_Ports)) || (0 <? lenl s.(svc_CertificateMounts)) ||
  negb (is_empty s.(svc_ContainerDaemon)).

Definition serverless_defaults (v : Serverless) : Serverless :=
  let v := set_sl_IdleSeconds (or_default 300 v.(sl_IdleSeconds)) v in
  let v := set_sl_StartupTimeoutSeconds (or_default 60 v.(sl_StartupTimeoutSeconds)) v in
  let v := set_sl_RequestTimeoutSeconds (or_default 60 v.(sl_RequestTimeoutSeconds)) v in
  set_sl_MaxConcurrency (or_default 16 v.(sl_MaxConcurrency)) v.

Definition normalizeServerless (s : Service) : result Service :=
  match s.(svc_Serverless) with
  | None => Ok s
  | Some v =>
      let v := serverless_defaults v in
      let s := set_svc_Serverless (Some v) s in
      _ ← fail_when (outside 0 1 v.(sl_MinReplicas) || outside 30 86400 v.(sl_IdleSeconds) ||
                     outside 5 300 v.(sl_StartupTimeoutSeconds) ||
                     outside 1 300 v.(sl_RequestTimeoutSeconds) || outside 1 64 v.(sl_MaxConcurrency))
            (Errorf "serverless: min_replicas must be 0 or 1, idle_seconds 30–86400, startup_timeout_seconds 5–300, request_timeout_seconds 1–300 and max_concurrency 1–64" []);
      _ ← fail_when (serverless_conflict s)
            (Errorf "serverless requires one public HTTP port and one saved replica, without jobs, autoscaling, persistent mounts, GPU, extra ports, backend certificates or a container daemon binding" []);
      Ok s
  end.

(** * Sandbox sessions (sandbox_sessions.go) *)

Definition MaxSandboxSessions : Z := 8.
Definition guardPath : string := "/run/hakopod-session".

Definition session_mode_conflict (svc : Service) : bool :=
  non_nil svc.(svc_Job) || non_nil svc.(svc_Actions) || non_nil svc.(svc_Serverless) ||
  non_nil svc.(svc_Autoscaling) || non_nil svc.(svc_GPU) || non_nil svc.(svc_Volume) ||
  negb (is_empty svc.(svc_ContainerDaemon)) || negb (is_empty svc.(svc_AWSIdentity)) ||
  non_nil svc.(svc_Kubernetes).

Definition session_network_conflict (svc : Service) : bool :=
  negb (svc.(svc_Port) =? 0) || negb (lenl svc.(svc_Ports) =? 0) || svc.(svc_Public) ||
  negb (lenl svc.(svc_PublicTCP) =? 0) || negb (lenm svc.(svc_HTTP) =? 0) || non_nil svc.(svc_TLS) ||
  svc.(svc_BackendHTTP2) || negb (svc.(svc_IngressTimeoutSeconds) =? 0) ||
  non_nil svc.(svc_NetworkAccess) || negb (lenl (default [] svc.(svc_Networks)) =? 0) ||
  negb (lenl svc.(svc_PrivateEgress) =? 0).

Definition session_input_conflict (app : Application) (svc : Service) : bool :=
  negb (lenm svc.(svc_Secrets) =? 0) || negb (lenm app.(app_Secrets) =? 0) ||
  negb (lenm svc.(svc_Bindings) =? 0) || negb (lenm svc.(svc_Files) =? 0) ||
  negb (lenl svc.(svc_Mounts) =? 0) || negb (lenl svc.(svc_CertificateMounts) =? 0) ||
  negb (lenl svc.(svc_DependsOn) =? 0) || app.(app_InjectEnv).

Definition normalize_session_times (cfg : SandboxSession) : result SandboxSession :=
  let cfg := set_ss_IdleSeconds (or_default 900 cfg.(ss_IdleSeconds)) cfg in
  let cfg := set_ss_LifetimeSeconds (or_default 3600 cfg.(ss_LifetimeSeconds)) cfg in
  _ ← fail_when (outside 60 900 cfg.(ss_IdleSeconds) ||
                 outside cfg.(ss_IdleSeconds) 3600 cfg.(ss_LifetimeSeconds))
        (Errorf "session idle_seconds must be 60-900 and lifetime_seconds must be at least idle_seconds and at most 3600" []);
  let cfg := set_ss_CallTimeoutSeconds (or_default 150 cfg.(ss_CallTimeoutSeconds)) cfg in
  _ ← fail_when (outside 10 cfg.(ss_IdleSeconds) cfg.(ss_CallTimeoutSeconds))
        (Errorf "session call_timeout_seconds must be at least 10 and at most idle_seconds" []);
  Ok cfg.

(** The checks after the commands and the times. *)
Definition check_session_service (app : Application) (svc : Service) : result unit :=
  _ ← fail_when (session_mode_conflict svc)
        (Errorf "session cannot use another workload mode, autoscaling, GPU, persistent volume, container daemon, AWS identity or Kubernetes patches" []);
  _ ← fail_when (session_network_conflict svc)
        (Errorf "session cannot expose ports or join application networks" []);
  _ ← fail_when (session_input_conflict app svc)
        (Errorf "session cannot receive secrets, bindings, files, persistent mounts, certificates, dependencies or injected environment" []);
  _ ← fail_when (negb (lenm app.(app_Env) =? 0))
        (Errorf "session applications cannot define shared environment variables" []);
  _ ← iterM (λ key, fail_when (has_key svc.(svc_Env) key)
          (Errorf "session environment must not override %s" [AStr key]))
        ["HAKOPOD_POD_UID"; "HAKOPOD_SESSION_GENERATION"];
  _ ← iterM (λ mount,
        _ ← fail_when (negb mount.(tm_Memory))
              (Errorf "session temporary mounts require memory=true for an enforced capacity limit" []);
        fail_when (overlaps mount.(tm_MountPath) guardPath)
          (Errorf "session temporary mounts must not overlap /run/hakopod-session" []))
        svc.(svc_TemporaryMounts);
  _ ← fail_when ((1 <? svc.(svc_Replicas)) || negb (is_empty svc.(svc_Healthcheck)) ||
                 non_nil svc.(svc_Readiness) || negb (is_empty svc.(svc_UpdateStrategy)))
        (Errorf "session cannot configure replicas, readiness, healthcheck or update strategy" []);
  _ ← fail_when (is_empty svc.(svc_RuntimeProfile))
        (Errorf "session requires an administrator-approved sandbox runtime_profile" []);
  _ ← fail_when ((svc.(svc_RunAsUser) <? 1) || (svc.(svc_RunAsGroup) <? 1) || (svc.(svc_FSGroup) <? 1) ||
                 negb svc.(svc_ReadOnlyRootFilesystem))
        (Errorf "session requires explicit nonroot user/group/fs_group and a read-only root filesystem" []);
  fail_when (negb (Contains svc.(svc_Image) "@sha256:"))
    (Errorf "session requires a digest-pinned worker image" []).

Definition normalizeSandboxSession (app : Application) (svc : Service) : result Service :=
  match svc.(svc_Session) with
  | None => Ok svc
  | Some cfg =>
      _ ← fail_when (outside 1 32 (lenl cfg.(ss_AllowedIdentities)))
            (Errorf "session.allowed_identities requires 1-32 exact identity IDs" []);
      let bad := Errorf "session.allowed_identities must contain unique identity IDs" [] in
      _ ← range_unique (λ id, fail_when (negb (full_match identityPattern id)) bad) id (λ _, bad)
            no_check cfg.(ss_AllowedIdentities);
      _ ← fail_when ((lenl cfg.(ss_HelperCommand) =? 0) || (lenl cfg.(ss_ReadyCommand) =? 0) ||
                     (lenl svc.(svc_Command) =? 0))
            (Errorf "session requires a fixed worker command, helper_command and ready_command" []);
      _ ← wrap (λ err, Errorf "session.helper_command: %w" [AErr err]) (ValidateCommand cfg.(ss_HelperCommand) []);
      _ ← wrap (λ err, Errorf "session.ready_command: %w" [AErr err]) (ValidateCommand cfg.(ss_ReadyCommand) []);
      cfg ← normalize_session_times cfg;
      _ ← check_session_service app svc;
      Ok (set_svc_Session (Some cfg) svc)
  end.

(** * Readiness (readiness.go) *)

Definition NeedsReadinessHelper (s : Service) : bool :=
  match s.(svc_Readiness) with
  | Some r => negb (r.(rd_Protocol) =? "tcp")%string || negb (is_empty s.(svc_Healthcheck))
  | None => false
  end.

Section readiness.
Context `{Host} `{ThirdParty}.

Definition check_readiness_tls (r : Readiness) : result unit :=
  if (r.(rd_Protocol) =? "smtp_starttls")%string then
    _ ← fail_when (negb (ValidHostname r.(rd_TLSServerName)))
          (Errorf "readiness.tls_server_name: a lowercase DNS hostname is required for certificate verification" []);
    fail_when (negb (is_empty r.(rd_TLSCAFile)) &&
               (negb (path_IsAbs r.(rd_TLSCAFile)) ||
                negb (path_Clean r.(rd_TLSCAFile) =? r.(rd_TLSCAFile))%string ||
                (256 <? len r.(rd_TLSCAFile)) || ContainsAny r.(rd_TLSCAFile) (NUL +:+ CR +:+ LF)))
      (Errorf "readiness.tls_ca_file: use a clean absolute path to a PEM trust bundle in the container" [])
  else fail_when (negb (is_empty r.(rd_TLSServerName)) || negb (is_empty r.(rd_TLSCAFile)))
         (Errorf "readiness: TLS settings require smtp_starttls" []).

Definition readiness_defaults (r : Readiness) : Readiness :=
  let r := set_rd_PeriodSeconds (or_default 5 r.(rd_PeriodSeconds)) r in
  let r := set_rd_TimeoutSeconds (or_default 3 r.(rd_TimeoutSeconds)) r in
  set_rd_FailureThreshold (or_default 3 r.(rd_FailureThreshold)) r.

Definition normalizeReadiness (s : Service) : result Service :=
  match s.(svc_Readiness) with
  | None => Ok s
  | Some r =>
      _ ← fail_when (negb (one_of r.(rd_Protocol) ["tcp"; "smtp"; "smtp_starttls"]))
            (Errorf "readiness.protocol: choose tcp, smtp or smtp_starttls" []);
      let found := existsb (λ port, (port.(port_TargetPort) =? r.(rd_Port)) &&
                                    (port.(port_Protocol) =? "TCP")%string) (ServicePorts s) in
      _ ← fail_when ((r.(rd_Port) <? 1) || negb found)
            (Errorf "readiness.port: use a declared TCP target port" []);
      _ ← check_readiness_tls r;
      let r := readiness_defaults r in
      _ ← fail_when (outside 3 60 r.(rd_PeriodSeconds) || outside 1 10 r.(rd_TimeoutSeconds) ||
                     (r.(rd_PeriodSeconds) <=? r.(rd_TimeoutSeconds)) ||
                     outside 1 10 r.(rd_FailureThreshold))
            (Errorf "readiness: period_seconds must be 3–60, timeout_seconds 1–10 and less than the period, and failure_threshold 1–10" []);
      Ok (set_svc_Readiness (Some r) s)
  end.
End readiness.

(** * Runtime references (runtime.go, runtime_profile.go, node_profile.go,
      custom_hostnames.go) *)

Definition DefaultCustomHostnamesMax : Z := 1000.
Definition CustomHostnamesCeiling : Z := 50000.

(** [(c *CustomHostnames).Limit] *)
Definition Limit (c : option CustomHostnames) : Z :=
  match c with
  | Some c => if c.(ch_Max) =? 0 then DefaultCustomHostnamesMax else c.(ch_Max)
  | None => DefaultCustomHostnamesMax
  end.

Definition CustomHostnamesEnabled (svc : Service) : bool :=
  match svc.(svc_CustomHostnames) with Some c => c.(ch_Enabled) | None => false end.

(** Jobs, sessions, runner pools and serverless services. *)
Definition special_mode (s : Service) : bool :=
  non_nil s.(svc_Job) || non_nil s.(svc_Session) || non_nil s.(svc_Actions) || non_nil s.(svc_Serverless).

Definition validateRuntimeProfile (s : Service) : result unit :=
  if is_empty s.(svc_RuntimeProfile) then Ok tt
  else
    _ ← fail_when (negb (full_match runtimeName s.(svc_RuntimeProfile)))
          (Errorf "runtime_profile: use an approved name with at most 63 lowercase letters, digits or hyphens" []);
    fail_when (non_nil s.(svc_Actions) || non_nil s.(svc_Serverless))
      (Errorf "runtime_profile is unavailable for Managed Actions and serverless services" []).

Definition validateNodeProfile (s : Service) : result unit :=
  if is_empty s.(svc_NodeProfile) then Ok tt
  else
    _ ← fail_when (negb (full_match runtimeName s.(svc_NodeProfile)))
          (Errorf "node_profile: use an approved name with at most 63 lowercase letters, digits or hyphens" []);
    _ ← fail_when (non_nil s.(svc_Actions) || non_nil s.(svc_Serverless))
          (Errorf "node_profile is unavailable for Managed Actions and serverless services" []);
    _ ← fail_when (is_empty s.(svc_NodeName))
          (Errorf "node_profile requires node_name: the grant is tied to one dedicated node" []);
    fail_when ((1 <? s.(svc_Replicas)) || non_nil s.(svc_Autoscaling))
      (Errorf "node_profile requires a single replica without autoscaling" []).

Section runtime.
Context `{Host} `{ThirdParty}.

Definition validateCustomHostnames (service : Service) : result unit :=
  match service.(svc_CustomHostnames) with
  | None => Ok tt
  | Some c =>
      _ ← fail_when (outside 0 CustomHostnamesCeiling c.(ch_Max))
            (Errorf "custom_hostnames.max: use 1 to 50000, or omit it for 1000" []);
      _ ← fail_when (negb (is_empty c.(ch_Target)) && negb (ValidHostname c.(ch_Target)))
            (Errorf "custom_hostnames.target: use a lowercase DNS hostname without a scheme, port, path or wildcard" []);
      _ ← fail_when (special_mode service)
            (Errorf "custom_hostnames: jobs, serverless services, actions runners and sandbox sessions cannot route tenant hostnames" []);
      fail_when (negb service.(svc_Public) || (service.(svc_Port) =? 0))
        (Errorf "custom_hostnames: requires a public service with a port" [])
  end.

Definition validate_tls (service : Service) (tls : TLSConfig) : result unit :=
  _ ← fail_when (negb (is_empty tls.(tls_IssuerKind)) &&
                 (is_empty tls.(tls_Issuer) ||
                  (negb (tls.(tls_IssuerKind) =? "Issuer")%string &&
                   negb (tls.(tls_IssuerKind) =? "ClusterIssuer")%string)))
        (Errorf "tls: issuer_kind requires issuer and must be Issuer or ClusterIssuer" []);
  _ ← fail_when (negb service.(svc_Public)) (Errorf "tls: requires a public service" []);
  _ ← fail_when (Bool.eqb (is_empty tls.(tls_Certificate)) (is_empty tls.(tls_Issuer)))
        (Errorf "tls: choose exactly one managed uploaded certificate or cert-manager issuer" []);
  fail_when ((negb (is_empty tls.(tls_Certificate)) && negb (full_match runtimeName tls.(tls_Certificate))) ||
             (negb (is_empty tls.(tls_Issuer)) && negb (full_match runtimeName tls.(tls_Issuer))))
    (Errorf "tls: resource names must use at most 63 lowercase letters, digits or hyphens" []).

Definition validate_ingress_timeout (service : Service) : result unit :=
  if service.(svc_IngressTimeoutSeconds) =? 0 then Ok tt
  else
    _ ← fail_when (outside 5 3600 service.(svc_IngressTimeoutSeconds))
          (Errorf "ingress_timeout_seconds: use 5 to 3600 seconds" []);
    _ ← fail_when (negb service.(svc_Public) || (service.(svc_Port) =? 0))
          (Errorf "ingress_timeout_seconds: requires a public service with a port" []);
    fail_when (non_nil service.(svc_Serverless))
      (Errorf "ingress_timeout_seconds: serverless services set serverless.request_timeout_seconds instead" []).

Definition validate_backend_http2 (service : Service) : result unit :=
  if service.(svc_BackendHTTP2) then
    _ ← fail_when (negb service.(svc_Public) || (service.(svc_Port) =? 0))
          (Errorf "backend_http2: requires a public service with a port" []);
    _ ← fail_when (non_nil service.(svc_Serverless))
          (Errorf "backend_http2: serverless services are reached through an HTTP/1.1 gateway" []);
    fail_when (0 <? lenm service.(svc_HTTP))
      (Errorf "backend_http2: applies to the whole service, so it cannot be combined with named http endpoints" [])
  else Ok tt.

Definition validateRuntimeService (service : Service) : result unit :=
  _ ← fail_when (negb (is_empty service.(svc_RestartNonce)) &&
                 negb (full_match noncePattern service.(svc_RestartNonce)))
        (Errorf "restart_nonce: use at most 64 letters, numbers, underscores or hyphens" []);
  _ ← fail_when (negb (is_empty service.(svc_RegistryCredential)) &&
                 negb (full_match runtimeName service.(svc_RegistryCredential)))
        (Errorf "registry_credential: use a managed credential name of at most 63 lowercase letters, digits or hyphens" []);
  _ ← match service.(svc_TLS) with Some tls => validate_tls service tls | None => Ok tt end;
  _ ← validate_ingress_timeout service;
  _ ← validateCustomHostnames service;
  validate_backend_http2 service.
End runtime.

(** * Injected identities (aws_identity.go, container_daemon.go) *)

Definition AWSIdentityTokenDirectory : string := "/var/run/secrets/hakopod/aws".
Definition ContainerDaemonDirectory : string := "/var/run/secrets/hakopod/container-daemon".

Definition awsIdentityReservedEnv (key : string) : bool :=
  one_of (ToUpper key)
    ["AWS_ACCESS_KEY"; "AWS_ACCESS_KEY_ID"; "AWS_SECRET_KEY"; "AWS_SECRET_ACCESS_KEY";
     "AWS_SESSION_TOKEN"; "AWS_SECURITY_TOKEN"; "AWS_CREDENTIAL_EXPIRATION"; "AWS_ROLE_ARN";
     "AWS_ROLE_SESSION_NAME"; "AWS_WEB_IDENTITY_TOKEN_FILE"; "AWS_REGION"; "AWS_DEFAULT_REGION";
     "AWS_STS_REGIONAL_ENDPOINTS"; "AWS_EC2_METADATA_DISABLED"; "AWS_EC2_METADATA_SERVICE_ENDPOINT";
     "AWS_EC2_METADATA_SERVICE_ENDPOINT_MODE"; "AWS_SHARED_CREDENTIALS_FILE"; "AWS_CONFIG_FILE";
     "AWS_PROFILE"; "AWS_DEFAULT_PROFILE"; "AWS_CONTAINER_CREDENTIALS_RELATIVE_URI";
     "AWS_CONTAINER_CREDENTIALS_FULL_URI"; "AWS_CONTAINER_AUTHORIZATION_TOKEN";
     "AWS_CONTAINER_AUTHORIZATION_TOKEN_FILE"; "AWS_ENDPOINT_URL"; "AWS_ENDPOINT_URL_STS";
     "AWS_CA_BUNDLE"].

Definition containerDaemonReservedEnv (key : string) : bool :=
  one_of (ToUpper key)
    ["DOCKER_HOST"; "DOCKER_TLS_VERIFY"; "DOCKER_CERT_PATH"; "DOCKER_CONFIG"; "DOCKER_API_VERSION";
     "BUILDKIT_HOST"].

(** [paths] of both validators. *)
Definition identity_paths (s : Service) : list string :=
  match s.(svc_Volume) with Some v => [v.(vol_MountPath)] | None => [] end ++
  (mt_MountPath <$> s.(svc_Mounts)) ++ (cm_MountPath <$> s.(svc_CertificateMounts)) ++
  (tm_MountPath <$> s.(svc_TemporaryMounts)).

Section identities.
Context `{RangeOrder}.

(** The loops over the keys of [Env], [Secrets] and [Bindings]. *)
Definition check_reserved_keys {V} (reserved : string → bool) (fmt : string) (m : gmap string V)
    : result unit :=
  iterM (λ key, fail_when (reserved key) (Errorf fmt [AStr key])) (keys_of m).

Definition validateAWSIdentity (s : Service) : result unit :=
  if is_empty s.(svc_AWSIdentity) then Ok tt
  else
    _ ← fail_when (negb (full_match runtimeName s.(svc_AWSIdentity)))
          (Errorf "aws_identity: use an operator-approved binding name of at most 63 lowercase letters, digits or hyphens" []);
    _ ← check_reserved_keys awsIdentityReservedEnv "env.%s: managed by aws_identity" s.(svc_Env);
    _ ← check_reserved_keys awsIdentityReservedEnv "secrets.%s: managed by aws_identity" s.(svc_Secrets);
    _ ← check_reserved_keys awsIdentityReservedEnv "bindings.%s: managed by aws_identity" s.(svc_Bindings);
    iterM (λ p, fail_when (overlaps p AWSIdentityTokenDirectory)
        (Errorf "aws_identity: a mount overlaps the reserved token directory" []))
      (identity_paths s).

Definition validateContainerDaemon (s : Service) : result unit :=
  if is_empty s.(svc_ContainerDaemon) then Ok tt
  else
    _ ← fail_when (negb (full_match runtimeName s.(svc_ContainerDaemon)))
          (Errorf "container_daemon: use an operator-approved binding name of at most 63 lowercase letters, digits or hyphens" []);
    _ ← check_reserved_keys containerDaemonReservedEnv "env.%s: managed by container_daemon" s.(svc_Env);
    _ ← check_reserved_keys containerDaemonReservedEnv "secrets.%s: managed by container_daemon" s.(svc_Secrets);
    _ ← check_reserved_keys containerDaemonReservedEnv "bindings.%s: managed by container_daemon" s.(svc_Bindings);
    iterM (λ p, fail_when (overlaps p ContainerDaemonDirectory)
        (Errorf "container_daemon: a mount overlaps the reserved trust directory" []))
      (identity_paths s).
End identities.

(** * Certificate mounts (certificate_mounts.go) *)

Section certificates.
Context `{Host} `{ThirdParty}.

Definition certificate_reference (mount : CertificateMount) : string :=
  if is_empty mount.(cm_Source) then mount.(cm_Certificate) else "ingress:" +:+ mount.(cm_Hostname).

Definition check_certificate_source (service : Service) (mount : CertificateMount) : result unit :=
  if negb (is_empty mount.(cm_Source)) then
    fail_when (negb (mount.(cm_Source) =? "ingress")%string || negb (is_empty mount.(cm_Certificate)) ||
               (negb service.(svc_Public) && (lenl service.(svc_PublicTCP) =? 0)))
      (Errorf "certificate_mounts: source must be ingress on a service published over HTTP or public TCP, without a certificate reference" [])
  else
    fail_when (negb (full_match runtimeName mount.(cm_Certificate)) ||
               HasPrefix mount.(cm_Certificate) "hp-auto-cert-")
      (Errorf "certificate_mounts: use a managed uploaded certificate reference" []).

Definition check_certificate_mount (mount : CertificateMount) : result unit :=
  let generated := is_empty mount.(cm_Hostname) && (mount.(cm_Source) =? "ingress")%string in
  fail_when ((negb generated && negb (ValidHostname mount.(cm_Hostname))) ||
             negb (allowedMount mount.(cm_MountPath)))
    (Errorf "certificate_mounts: use a managed certificate reference, lowercase DNS hostname and clean absolute data directory" []).

Definition validateCertificateMounts (service : Service) : result unit :=
  _ ← fail_when (4 <? lenl service.(svc_CertificateMounts))
        (Errorf "certificate_mounts: at most four certificate mounts per service" []);
  _ ← range_unique (check_certificate_source service) certificate_reference
        (λ _, Errorf "certificate_mounts: each certificate reference may be mounted once per service" [])
        check_certificate_mount service.(svc_CertificateMounts);
  Ok tt.

Definition HasAutomaticCertificates (app : Application) : bool :=
  existsb (λ kv : string * Service,
    existsb (λ mount, (mount.(cm_Source) =? "ingress")%string) kv.2.(svc_CertificateMounts))
    (map_to_list (app_services app)).
End certificates.

(** * Kubernetes patches (kubernetes.go) *)

Definition MaxKubernetesPatchBytes : Z := 16 * 1024.

Section kubernetes.
Context `{ThirdParty}.

Definition ParseKubernetesPatch (text : string) : result YAMLMapping :=
  _ ← fail_when (MaxKubernetesPatchBytes <? len text)
        (Errorf "patch exceeds %d bytes" [AInt MaxKubernetesPatchBytes]);
  decoded ← wrap (λ err, Errorf "invalid YAML: %v" [AErr err]) (yaml_mapping text);
  match decoded with
  | None => Err (Errorf "the patch must be a YAML mapping" [])
  | Some patch =>
      _ ← iterM (λ key, fail_when (one_of key patch.(ym_keys))
            (Errorf "%s cannot be patched" [AStr key])) ["apiVersion"; "kind"];
      _ ← iterM (λ key, fail_when (one_of key patch.(ym_metadata))
            (Errorf "metadata.%s cannot be patched" [AStr key])) ["name"; "namespace"];
      Ok patch
  end.

Definition check_patches (svc : Service) (k : KubernetesPatches) : result unit :=
  _ ← fail_when (special_mode svc)
        (Errorf "kubernetes: patches apply only to a regular long-running service" []);
  _ ← iterM (λ '(name, text),
        if is_empty text then Ok tt
        else _ ← wrap (λ err, Errorf "kubernetes.%s: %w" [AStr name; AErr err]) (ParseKubernetesPatch text);
             Ok tt)
        [("deployment", k.(kp_Deployment)); ("service", k.(kp_Service)); ("ingress", k.(kp_Ingress))];
  _ ← fail_when (negb (is_empty k.(kp_Service)) && (lenl (ServicePorts svc) =? 0))
        (Errorf "kubernetes.service: requires a service with a port" []);
  fail_when (negb (is_empty k.(kp_Ingress)) && (negb svc.(svc_Public) || (svc.(svc_Port) =? 0)))
    (Errorf "kubernetes.ingress: requires a public service with a port" []).

Definition normalizeKubernetes (svc : Service) : result Service :=
  match svc.(svc_Kubernetes) with
  | None => Ok svc
  | Some k =>
      if bool_decide (k = zero_KubernetesPatches) then Ok (set_svc_Kubernetes None svc)
      else _ ← check_patches svc k; Ok svc
  end.
End kubernetes.

(** [next != "" && next != old] on each patch. *)
Definition patch_changed (old next : string) : bool := negb (is_empty next) && negb (next =? old)%string.

Definition KubernetesPatchesChanged (before after : Application) : bool :=
  existsb (λ '(name, svc),
    match svc.(svc_Kubernetes) with
    | None => false
    | Some next =>
        let old := default zero_KubernetesPatches
          (s ← app_services before !! name; s.(svc_Kubernetes)) in
        patch_changed old.(kp_Deployment) next.(kp_Deployment) ||
        patch_changed old.(kp_Service) next.(kp_Service) ||
        patch_changed old.(kp_Ingress) next.(kp_Ingress)
    end) (map_to_list (app_services after)).

(** * Delivery (delivery.go) *)

Definition HasDeliveryCapabilities (app : Application) : bool :=
  existsb (λ kv : string * Service,
    let svc := kv.2 in
    non_nil svc.(svc_Actions) || negb (is_empty svc.(svc_NodeName)) || non_nil svc.(svc_Serverless) ||
    (0 <? lenl svc.(svc_PublicTCP)) || (0 <? lenl svc.(svc_CertificateMounts)) ||
    negb (is_empty svc.(svc_AWSIdentity)) || negb (is_empty svc.(svc_ContainerDaemon)) ||
    negb (is_empty svc.(svc_RuntimeProfile)) || negb (is_empty svc.(svc_NodeProfile)) ||
    NeedsReadinessHelper svc) (map_to_list (app_services app)).

(** * Facts *)

(** ** Files *)

Section file_facts.
Context `{Host} `{ThirdParty}.

Definition content_size (f : File) : Z := match f.(file_Content) with Some c => len c | None => 0 end.

Definition file_ok (f : File) : Prop :=
  (f.(file_Mode) = 292 ∨ f.(file_Mode) = 288) ∧ cleanDirectory f.(file_MountPath) = true ∧
  (non_nil f.(file_Content) = negb (non_nil f.(file_Secret))) ∧ 0 ≤ content_size f ≤ 64 * 1024 ∧
  ∀ r, f.(file_Secret) = Some r → SecretRef_Valid r = true.

Lemma check_file_Ok s name f f' : check_file s name f = Ok f' →
  full_match namePattern name = true ∧ file_ok f' ∧ f' = set_file_Mode (or_default 292 f.(file_Mode)) f ∧
  has_key s.(svc_Secrets) (FileSecretKey name) = false.
Proof.
  unfold check_file. intros Hc. inv_ok. split_orb. split_and!; try done. unfold file_ok, content_size. simpl.
  split_and!; try done.
  - simpl in *. destruct (Z.eqb_spec (or_default 292 (file_Mode f)) 292), (Z.eqb_spec (or_default 292 (file_Mode f)) 288);
      auto. done.
  - destruct (non_nil (file_Content f)), (non_nil (file_Secret f)); done.
  - destruct (file_Content f); unfold len; lia.
  - destruct (file_Content f); [|lia]. split_orb. by zify_bool.
  - intros r Hr. rewrite Hr in *. by split_orb.
Qed.

Definition file_path (kv : string * File) : string := kv.2.(file_MountPath).
Definition total_size (l : list (string * File)) : Z :=
  sum_list ((λ kv : string * File, content_size kv.2) <$> l).

Lemma total_size_cons k f l : total_size ((k, f) :: l) = content_size f + total_size l.
Proof. done. Qed.

(** The loop over a list of entries: what it computes and when it succeeds. *)
Lemma normalize_file_list s l : ∀ (F : gmap string File) P T F' P' T', NoDup l.*1 →
  foldM (normalize_file s) (F, P, T) l = Ok (F', P', T') ↔
  ((∀ k f, (k, f) ∈ l → ∃ f', check_file s k f = Ok f' ∧ F' !! k = Some f') ∧
   (∀ k, k ∉ l.*1 → F' !! k = F !! k)) ∧
  P' = P ++ (file_path <$> l) ∧ T' = T + total_size l ∧
  pairwise disjoint_paths (file_path <$> l) ∧ ∀ x p, x ∈ file_path <$> l → p ∈ P → disjoint_paths x p.
Proof.
  induction l as [|[k f] l IH]; intros F P T F' P' T' Hnd; cbn [foldM].
  - unfold total_size, sum_list. simpl. rewrite app_nil_r, Z.add_0_r, Ok_inj. split.
    + intros [= -> -> ->]. split_and!; try done; try apply pairwise_nil; by intros ? ? ?%not_elem_of_nil.
    + intros ([_ Hout] & -> & -> & _ & _). do 2 f_equal. apply map_eq. intros i. symmetry. apply Hout, not_elem_of_nil.
  - apply NoDup_cons in Hnd as [Hk Hnd]. simpl in Hk. rewrite bind_Ok.
    change (file_path <$> (k, f) :: l) with (f.(file_MountPath) :: (file_path <$> l)).
    change (((k, f) :: l).*1) with (k :: l.*1). rewrite total_size_cons.
    rewrite (pairwise_cons disjoint_paths). split.
    + intros ([[F1 P1] T1] & Hf & Hl). unfold normalize_file in Hf. inv_ok. simplify_eq.
      match goal with H : check_file _ _ _ = Ok ?x |- _ => rename x into f'; rename H into Hc end.
      pose proof Hc as (_ & _ & Hf' & _)%check_file_Ok.
      assert (file_MountPath f' = file_MountPath f ∧ content_size f' = content_size f) as [Hmp Hcs] by by rewrite Hf'.
      rewrite Hmp in *. fold (content_size f') in Hl. rewrite Hcs in Hl.
      match goal with H : existsb _ _ = false |- _ => apply existsb_false in H; rename H into Hd end.
      apply IH in Hl as ([Hin Hout] & -> & -> & Hp & Hdis); [|done].
      split_and!.
      * intros i g [[= -> ->]|Hi]%elem_of_cons; [|by apply Hin].
        exists f'. split; [done|]. by rewrite Hout, lookup_insert_eq.
      * intros i [Hik Hi]%not_elem_of_cons. by rewrite Hout, lookup_insert_ne.
      * by rewrite <-app_assoc.
      * lia.
      * apply Forall_forall. intros x Hx. symmetry. apply (Hdis x _ Hx). apply elem_of_app. right. by left.
      * done.
      * intros x p [->|Hx]%elem_of_cons Hin'; [by eapply Forall_forall in Hd|].
        apply (Hdis x p Hx). apply elem_of_app. by left.
    + intros ([Hin Hout] & -> & -> & [Hfr Hp] & Hdis).
      destruct (Hin k f ltac:(by left)) as (f' & Hc & HF').
      pose proof Hc as (_ & _ & Hf' & _)%check_file_Ok.
      assert (file_MountPath f' = file_MountPath f ∧ content_size f' = content_size f) as [Hmp Hcs] by by rewrite Hf'.
      exists (<[k := f']> F, P ++ [file_MountPath f], T + content_size f). split.
      * unfold normalize_file. rewrite Hc. simpl.
        assert (existsb (overlaps (file_MountPath f')) P = false) as ->.
        { apply existsb_false, Forall_forall. intros p Hin'. rewrite Hmp. apply Hdis; [by left|done]. }
        simpl. fold (content_size f'). by rewrite Hmp, Hcs.
      * apply IH; [done|]. split_and!; [| | |lia|done|].
        -- intros i g Hi. apply Hin. by right.
        -- intros i Hi. destruct (decide (i = k)) as [->|Hne]; [by rewrite lookup_insert_eq|].
           rewrite lookup_insert_ne by done. apply Hout. by apply not_elem_of_cons.
        -- by rewrite <-app_assoc.
        -- intros x p Hx [Hin'| ->%list_elem_of_singleton]%elem_of_app; [apply Hdis; [by right|done]|].
           symmetry. by eapply Forall_forall in Hfr.
Qed.
End file_facts.

(** The files of a service as a map property, whatever order Go visits them in. *)
Record files_accepted `{Host} (s : Service) (files : gmap string File) : Prop := {
  fa_count : lenm s.(svc_Files) + lenl s.(svc_Mounts) + lenl s.(svc_TemporaryMounts) + lenl s.(svc_CertificateMounts) ≤ 16;
  fa_files : ∀ k, option_Forall2 (λ f f', check_file s k f = Ok f') (s.(svc_Files) !! k) (files !! k);
  fa_disjoint : pairwise disjoint_paths (file_path <$> map_to_list s.(svc_Files));
  fa_volumes : ∀ k f p, s.(svc_Files) !! k = Some f → p ∈ volume_paths s → disjoint_paths f.(file_MountPath) p;
  fa_total : total_size (map_to_list s.(svc_Files)) ≤ 128 * 1024;
}.

Lemma total_size_perm l1 l2 : l1 ≡ₚ l2 → total_size l1 = total_size l2.
Proof. intros Hl. unfold total_size. apply sum_list_perm. by rewrite Hl. Qed.

Lemma normalize_files_Ok `{Host} `{RangeOrder} s files : normalize_files s = Ok files ↔ files_accepted s files.
Proof.
  unfold normalize_files. rewrite bind_unit_Ok, fail_when_Ok, Z.ltb_ge, bind_Ok.
  assert ((range s.(svc_Files)) ≡ₚ map_to_list s.(svc_Files)) as Hperm by apply range_perm.
  pose proof (keys_of_NoDup s.(svc_Files)) as Hnd. split.
  - intros (Hcount & [[F P] T] & Hl & Ht). inv_ok. zify_bool.
    apply normalize_file_list in Hl as ([Hin Hout] & -> & -> & Hp & Hdis); [|done].
    split; [done| | | |].
    + intros k. destruct (svc_Files s !! k) as [f|] eqn:Hk.
      * apply elem_of_range in Hk. destruct (Hin k f Hk) as (f' & Hc & ->). by constructor.
      * rewrite Hout, Hk; [constructor|]. intros ([i g] & -> & Hi)%list_elem_of_fmap.
        apply elem_of_range in Hi. simpl in Hk. congruence.
    + eapply (pairwise_perm disjoint_paths); [|exact Hp]. by rewrite Hperm.
    + intros k f p Hk Hp'. apply (Hdis f.(file_MountPath) p); [|done]. apply list_elem_of_fmap.
      exists (k, f). by rewrite elem_of_range.
    + rewrite <-(total_size_perm _ _ Hperm). lia.
  - intros [Hcount Hfiles Hdisj Hvol Htot]. split; [done|].
    exists (files, volume_paths s ++ (file_path <$> range s.(svc_Files)), total_size (range s.(svc_Files))). split.
    + apply normalize_file_list; [done|]. split_and!; [| |done|done| |].
      * intros k f Hk. apply elem_of_range in Hk. specialize (Hfiles k). rewrite Hk in Hfiles.
        inversion Hfiles; subst. eauto.
      * intros k Hk. specialize (Hfiles k). destruct (svc_Files s !! k) as [f|] eqn:Hf; [|by inversion Hfiles].
        exfalso. apply Hk, list_elem_of_fmap. exists (k, f). by rewrite elem_of_range.
      * eapply (pairwise_perm disjoint_paths); [|exact Hdisj]. by rewrite Hperm.
      * intros x p ([k f] & -> & Hk)%list_elem_of_fmap Hp. apply elem_of_range in Hk. by eapply Hvol.
    + rewrite (total_size_perm _ _ Hperm), (proj2 (Z.ltb_ge _ _) Htot). done.
Qed.

(** ** Jobs, sessions and serverless services *)

Lemma outside_false lo hi x : outside lo hi x = false ↔ lo ≤ x ≤ hi.
Proof. unfold outside. rewrite orb_false_iff, !Z.ltb_ge. lia. Qed.

Lemma or_default_again d x : or_default d (or_default d x) = or_default d x.
Proof. unfold or_default. destruct (Z.eqb_spec x 0) as [->|Hx]; [by destruct (d =? 0)|].
  by rewrite (proj2 (Z.eqb_neq _ _) Hx). Qed.

Lemma or_default_id d x : x ≠ 0 → or_default d x = x.
Proof. unfold or_default. by intros ->%Z.eqb_neq. Qed.

(** A job that was accepted, with its defaults filled in. *)
Definition job_ok (s : Service) (j : Job) : Prop :=
  10 ≤ j.(job_TimeoutSeconds) ≤ 900 ∧ 0 ≤ j.(job_Retries) ≤ 3 ∧ job_conflict s = false ∧
  (∀ i, j.(job_Invocation) = Some i → j.(job_Schedule) = None ∧ j.(job_Retries) = 0 ∧ s.(svc_Volume) = None ∧
     s.(svc_Mounts) = [] ∧ 2 ≤ i.(ji_MaxInputBytes) ≤ 128 * 1024 ∧ 1 ≤ i.(ji_QueueLimit) ≤ 64 ∧
     NoDup i.(ji_AllowedIdentities) ∧ NoDup i.(ji_InputKeys)).

Section job_facts.
Context `{Host} `{ThirdParty} `{RangeOrder}.

Lemma normalize_invocation_Ok s j cfg cfg' : normalize_invocation s j cfg = Ok cfg' →
  j.(job_Schedule) = None ∧ j.(job_Retries) = 0 ∧ s.(svc_Volume) = None ∧ s.(svc_Mounts) = [] ∧
  2 ≤ cfg'.(ji_MaxInputBytes) ≤ 128 * 1024 ∧ 1 ≤ cfg'.(ji_QueueLimit) ≤ 64 ∧
  NoDup cfg'.(ji_AllowedIdentities) ∧ NoDup cfg'.(ji_InputKeys).
Proof.
  unfold normalize_invocation. intros Hn. inv_ok. split_orb. rewrite !outside_false in *.
  repeat match goal with H : range_unique _ _ _ _ _ = Ok _ |- _ => apply range_unique_Ok in H as (_ & ? & _) end.
  rewrite list_fmap_id in *. zify_bool. split_and!; try done; try (simpl in *; lia).
  - by destruct (job_Schedule j).
  - by destruct (svc_Volume s).
  - apply lenl_zero. pose proof (lenl_nonneg (svc_Mounts s)). lia.
Qed.

Lemma normalize_job_Ok s j j' : normalize_job s j = Ok j' → job_ok s j'.
Proof.
  unfold normalize_job. intros Hn. apply bind_Ok in Hn as (j1 & Hi & Hn). apply bind_Ok in Hn as (j2 & Hs & Hn).
  inv_ok. split_orb. rewrite !outside_false in *. unfold job_ok. simpl in *. split_and!; try lia; [done|].
  intros i Hi'. destruct (job_Schedule j1) as [sch|] eqn:Hsch; inv_ok; simpl in *.
  - destruct (job_Invocation j) as [cfg|] eqn:Hcfg; inv_ok; simpl in *; [|congruence].
    match goal with H : normalize_invocation _ _ _ = Ok _ |- _ => apply normalize_invocation_Ok in H end. naive_solver.
  - destruct (job_Invocation j) as [cfg|] eqn:Hcfg; inv_ok; simpl in *; [|congruence].
    match goal with H : normalize_invocation _ _ _ = Ok _ |- _ => apply normalize_invocation_Ok in H end.
    simplify_eq. tauto.
Qed.

(** What [normalizeJobAndFiles] returns. *)
Lemma normalizeJobAndFiles_Ok s s' : normalizeJobAndFiles s = Ok s' →
  s' = set_svc_Files s'.(svc_Files) (set_svc_Job s'.(svc_Job) s) ∧
  files_accepted s s'.(svc_Files) ∧ ∀ j, s'.(svc_Job) = Some j → job_ok s j.
Proof.
  unfold normalizeJobAndFiles. intros Hn. apply bind_Ok in Hn as (s1 & Hj & Hn). inv_ok.
  match goal with H : normalize_files _ = Ok _ |- _ => apply normalize_files_Ok in H; rename H into Hf end.
  destruct (svc_Job s) as [j|] eqn:Hsj; inv_ok.
  - match goal with H : normalize_job _ _ = Ok _ |- _ => apply normalize_job_Ok in H end.
    split_and!; [reflexivity| |by intros ? [= <-]]. destruct Hf. by split.
  - split_and!; [by destruct s1|done|]. simpl. intros j. by rewrite Hsj.
Qed.
End job_facts.

(** ** Sessions *)

(** An isolated session: what its service may not have. *)
Record session_isolated (app : Application) (s : Service) (c : SandboxSession) : Prop := {
  si_times : 10 ≤ c.(ss_CallTimeoutSeconds) ≤ c.(ss_IdleSeconds) ∧ 60 ≤ c.(ss_IdleSeconds) ∧
    c.(ss_IdleSeconds) ≤ c.(ss_LifetimeSeconds) ≤ 3600;
  si_identities : NoDup c.(ss_AllowedIdentities) ∧ c.(ss_AllowedIdentities) ≠ [];
  si_network : s.(svc_Port) = 0 ∧ s.(svc_Ports) = [] ∧ s.(svc_Public) = false ∧ s.(svc_PublicTCP) = [] ∧
    s.(svc_HTTP) = ∅ ∧ default [] s.(svc_Networks) = [] ∧ s.(svc_PrivateEgress) = [];
  si_inputs : s.(svc_Secrets) = ∅ ∧ app.(app_Secrets) = ∅ ∧ s.(svc_Bindings) = ∅ ∧ s.(svc_Files) = ∅ ∧
    s.(svc_Mounts) = [] ∧ s.(svc_Volume) = None ∧ s.(svc_DependsOn) = [] ∧ app.(app_InjectEnv) = false ∧
    app.(app_Env) = ∅;
  si_modes : s.(svc_Job) = None ∧ s.(svc_Actions) = None ∧ s.(svc_Serverless) = None ∧
    s.(svc_Autoscaling) = None ∧ s.(svc_Kubernetes) = None;
  si_user : 1 ≤ s.(svc_RunAsUser) ∧ 1 ≤ s.(svc_RunAsGroup) ∧ s.(svc_ReadOnlyRootFilesystem) = true;
  si_mounts : ∀ m, m ∈ s.(svc_TemporaryMounts) → m.(tm_Memory) = true ∧ disjoint_paths m.(tm_MountPath) guardPath;
}.

Lemma non_nil_false {A} (o : option A) : non_nil o = false → o = None.
Proof. by destruct o. Qed.
Lemma lenl_eqb_zero {A} (l : list A) : (lenl l =? 0) = true → l = [].
Proof. rewrite Z.eqb_eq. apply lenl_zero. Qed.
Lemma lenm_eqb_zero {V} (m : gmap string V) : (lenm m =? 0) = true → m = ∅.
Proof. rewrite Z.eqb_eq. apply lenm_zero. Qed.
Lemma lenl_ltb_zero {A} (l : list A) : (0 <? lenl l) = false → l = [].
Proof. rewrite Z.ltb_ge. intros Hl. apply lenl_zero. pose proof (lenl_nonneg l). lia. Qed.
Lemma lenm_ltb_zero {V} (m : gmap string V) : (0 <? lenm m) = false → m = ∅.
Proof. rewrite Z.ltb_ge. intros Hl. apply lenm_zero. unfold lenm in *. lia. Qed.
#[export] Hint Resolve non_nil_false lenl_eqb_zero lenm_eqb_zero lenl_ltb_zero lenm_ltb_zero : go.

Lemma normalize_session_times_Ok c c' : normalize_session_times c = Ok c' →
  10 ≤ c'.(ss_CallTimeoutSeconds) ≤ c'.(ss_IdleSeconds) ∧ 60 ≤ c'.(ss_IdleSeconds) ∧
  c'.(ss_IdleSeconds) ≤ c'.(ss_LifetimeSeconds) ≤ 3600 ∧ c'.(ss_AllowedIdentities) = c.(ss_AllowedIdentities).
Proof.
  unfold normalize_session_times. intros Hn. inv_ok. split_orb. rewrite !outside_false in *. simpl in *.
  split_and!; (done || lia).
Qed.

Lemma check_session_service_Ok app s u : check_session_service app s = Ok u →
  session_mode_conflict s = false ∧ session_network_conflict s = false ∧ session_input_conflict app s = false ∧
  app.(app_Env) = ∅ ∧ 1 ≤ s.(svc_RunAsUser) ∧ 1 ≤ s.(svc_RunAsGroup) ∧ s.(svc_ReadOnlyRootFilesystem) = true ∧
  Contains s.(svc_Image) "@sha256:" = true ∧ s.(svc_RuntimeProfile) ≠ EmptyString ∧
  ∀ m, m ∈ s.(svc_TemporaryMounts) → m.(tm_Memory) = true ∧ disjoint_paths m.(tm_MountPath) guardPath.
Proof.
  unfold check_session_service. intros Hc. inv_ok. split_orb. zify_bool.
  match goal with H : iterM _ (svc_TemporaryMounts s) = Ok _ |- _ => apply iterM_Ok in H; rename H into Hm end.
  rewrite is_empty_false in *. split_and!; auto with go.
  - apply lenm_zero. done.
  - intros m Hin. rewrite Forall_forall in Hm. specialize (Hm m Hin).
    apply bind_unit_Ok in Hm as [Hmem%fail_when_Ok Hov%fail_when_Ok]. by split_orb.
Qed.

Lemma normalizeSandboxSession_Ok app s s' : normalizeSandboxSession app s = Ok s' →
  s' = set_svc_Session s'.(svc_Session) s ∧ (s.(svc_Session) = None ↔ s'.(svc_Session) = None) ∧
  ∀ c, s'.(svc_Session) = Some c → session_isolated app s' c.
Proof.
  unfold normalizeSandboxSession. destruct (svc_Session s) as [c|] eqn:Hs.
  - intros Hn. inv_ok.
    repeat match goal with H : range_unique _ _ _ _ _ = Ok _ |- _ => apply range_unique_Ok in H as (_ & Hnd & _) end.
    rewrite list_fmap_id in *. split_orb. rewrite !outside_false in *.
    repeat match goal with
    | H : normalize_session_times _ = Ok _ |- _ => apply normalize_session_times_Ok in H as (? & ? & ? & ?)
    | H : check_session_service _ _ = Ok _ |- _ => apply check_session_service_Ok in H as (Hm & Hnet & Hin & ? & ? & ? & ? & _ & _ & ?)
    end.
    unfold session_mode_conflict, session_network_conflict, session_input_conflict in *. split_orb.
    split_and!; [done|done|]. intros c' [= <-].
    split; simpl; split_and?; auto with go; try lia; try congruence.
    match goal with H : ss_AllowedIdentities _ = _ |- _ => rewrite H end.
    destruct (ss_AllowedIdentities c); [unfold lenl in *; simpl in *; lia|done].
  - intros [= <-]. split_and!; [by destruct s; simpl in *; subst|done|]. by rewrite Hs.
Qed.
