(* ===== verification/Provider.v ===== *)
(** Runner providers (internal/actions: provider.go, github.go): targets, labels
    and the canonical form of a provider target. *)
From S2P Require Import Prelude GoStd GoNet Regex SpecTypes Platform SpecChecks.
#[global] Open Scope Z_scope.

Definition ProviderGitHub : string := "github".
Definition ProviderGitLab : string := "gitlab".
Definition ProviderBitbucket : string := "bitbucket".

(** [(p Provider).Effective], [(p Provider).Valid] *)
Definition Effective (p : string) : string := if is_empty p then ProviderGitHub else p.
Definition Provider_Valid (p : string) : bool :=
  one_of (Effective p) [ProviderGitHub; ProviderGitLab; ProviderBitbucket].

(** * GitHub targets *)

Record Target : Type := mkTarget {
  tg_Repository : string;
  tg_Organization : string;
  tg_RunnerGroupID : Z;
}.
#[export] Instance Target_eq_dec : EqDecision Target.
Proof. solve_decision. Defined.
Definition zero_Target : Target := mkTarget EmptyString EmptyString 0.

Definition letter_digit (c : ascii) : bool := lower c || upper c || digit c.
Definition label_byte (c : ascii) : bool := letter_digit c || any_of "_.-" c.

(** [^[A-Za-z0-9][A-Za-z0-9_.-]{0,99}/[A-Za-z0-9][A-Za-z0-9_.-]{0,99}$] *)
Definition repositoryPattern : regex :=
  let part := RCat (RCls letter_digit) (RUpTo (RCls label_byte) 99) in
  RSeq [part; RLit "/"; part].
(** [^[A-Za-z0-9][A-Za-z0-9_.-]{0,63}$] *)
Definition labelPattern : regex := RCat (RCls letter_digit) (RUpTo (RCls label_byte) 63).
(** [^[A-Za-z0-9](?:[A-Za-z0-9-]{0,37}[A-Za-z0-9])?$] *)
Definition organizationPattern : regex :=
  RCat (RCls letter_digit)
       (ROpt (RCat (RUpTo (RCls (λ c, letter_digit c || any_of "-" c)) 37) (RCls letter_digit))).

Definition ValidRepository (repository : string) : bool :=
  full_match repositoryPattern repository && negb (Contains repository "..").

(** The largest integer a provider identifier may have, 2^53 - 1. *)
Definition max_identifier : Z := 9007199254740991.

Definition Target_Valid (t : Target) : bool :=
  if negb (is_empty t.(tg_Organization)) then
    is_empty t.(tg_Repository) && full_match organizationPattern t.(tg_Organization) &&
    negb (Contains t.(tg_Organization) "--") && (0 <=? t.(tg_RunnerGroupID)) &&
    (t.(tg_RunnerGroupID) <=? max_identifier)
  else ValidRepository t.(tg_Repository) && (t.(tg_RunnerGroupID) =? 0).

(** The loop of [ValidLabels] with its set of lower-cased labels. *)
Fixpoint labels_valid (seen : gset string) (labels : list string) : bool :=
  match labels with
  | [] => true
  | label :: labels =>
      if negb (full_match labelPattern label) || bool_decide (ToLower label ∈ seen) then false
      else labels_valid ({[ ToLower label ]} ∪ seen) labels
  end.
Definition ValidLabels (labels : list string) : bool :=
  if (lenl labels <? 1) || (8 <? lenl labels) then false else labels_valid ∅ labels.

(** * Provider targets *)

Record ProviderTarget : Type := mkProviderTarget {
  pt_Provider : string;
  pt_GitHub : Target;
  pt_GitLab : option GitLabTarget;
  pt_Bitbucket : option BitbucketTarget;
}.

(** [^[a-z][a-z0-9-]{0,62}$] *)
Definition providerPolicyName : regex := RCat (RCls lower) (RUpTo (RCls name_char) 62).
Definition uuid_hex (c : ascii) : bool := digit c || in_range "a" "f" c || in_range "A" "F" c.
Definition providerUUID : regex :=
  let h n := RTimes (RCls uuid_hex) n in
  RSeq [h 8%nat; RLit "-"; h 4%nat; RLit "-"; h 4%nat; RLit "-"; h 4%nat; RLit "-"; h 12%nat].
(** The same expression as [runtimeName]. *)
Definition providerDNSLabel : regex := runtimeName.

(** [value[1 : len(value)-1]] *)
Definition strip_ends (value : string) : string :=
  take_string (String.length value - 2) (drop_string 1 value).

Definition canonicalProviderUUID (value : string) : option string :=
  let value := if HasPrefix value "{" && HasSuffix value "}" then strip_ends value else value in
  if negb (full_match providerUUID value) || (value =? "00000000-0000-0000-0000-000000000000")%string
  then None
  else Some ("{" +:+ ToLower value +:+ "}").

(** An address no provider may have: loopback, unspecified, multicast or
    link-local. *)
Definition special_address (address : Addr) : bool :=
  IsLoopback address || IsUnspecified address || IsMulticast address ||
  IsLinkLocalUnicast address || IsLinkLocalMulticast address.

Section gitlab.
Context `{Host} `{ThirdParty}.

Definition gitlab_invalid : error :=
  Errorf "GitLab url must be an HTTPS instance base without credentials, query, fragment or encoded path segments" [].

(** The host in canonical form: an address that is not special, or a name. *)
Definition canonical_host (hostname : string) : result string :=
  let host := ToLower hostname in
  match ParseAddr host with
  | Some address =>
      let address := Unmap address in
      _ ← fail_when (special_address address)
            (Errorf "GitLab url cannot address loopback, metadata, link-local or multicast networks" []);
      Ok (Addr_String address)
  | None =>
      match idna_ToASCII (TrimSuffix host ".") with
      | None => Err gitlab_invalid
      | Some host =>
          _ ← fail_when ((253 <? len host) || negb (Contains host ".")) gitlab_invalid;
          _ ← iterM (λ label, fail_when (negb (full_match providerDNSLabel label)) gitlab_invalid)
                (Split host ".");
          Ok host
      end
  end.

(** The port to keep, empty for the default one. *)
Definition canonical_port (u : URL) : result string :=
  if negb (is_empty u.(u_Port)) then
    match Atoi u.(u_Port) with
    | None => Err gitlab_invalid
    | Some n =>
        _ ← fail_when ((n <? 1) || (65535 <? n) || negb (Itoa n =? u.(u_Port))%string) gitlab_invalid;
        Ok (if n =? 443 then EmptyString else u.(u_Port))
    end
  else
    _ ← fail_when (HasSuffix u.(u_Host) ":") gitlab_invalid;
    Ok EmptyString.

(** [u.String()] on the parts kept: https, a host and an unescaped path. *)
Definition https_String (host path : string) : string :=
  "https://" +:+ host +:+
  (if negb (is_empty path) && negb (HasPrefix path "/") then "/" else EmptyString) +:+ path.

Definition CanonicalGitLabURL (raw : string) : result string :=
  if is_empty raw then Ok "https://gitlab.com"
  else
    _ ← fail_when ((2048 <? len raw) || ContainsAny raw "\%?#" ||
                   existsb (λ r, (r <=? 32) || (r =? 127)) (runes raw)) gitlab_invalid;
    match url_Parse raw with
    | None => Err gitlab_invalid
    | Some u =>
        _ ← fail_when (negb (u.(u_Scheme) =? "https")%string || is_empty u.(u_Hostname) || u.(u_has_User) ||
                       negb (is_empty u.(u_Opaque)) || negb (is_empty u.(u_RawQuery)) || u.(u_ForceQuery) ||
                       negb (is_empty u.(u_Fragment)) || negb (is_empty u.(u_RawFragment)) ||
                       negb (is_empty u.(u_RawPath)) || negb (u.(u_EscapedPath) =? u.(u_Path))%string)
              gitlab_invalid;
        host ← canonical_host u.(u_Hostname);
        port ← canonical_port u;
        let u_host := if Contains host ":" then "[" +:+ host +:+ "]" else host in
        let u_host := if negb (is_empty port) then JoinHostPort host port else u_host in
        _ ← fail_when (Contains u.(u_Path) "//") gitlab_invalid;
        _ ← iterM (λ segment, fail_when ((segment =? ".")%string || (segment =? "..")%string) gitlab_invalid)
              (Split u.(u_Path) "/");
        let path := TrimSuffix u.(u_Path) "/" in
        _ ← fail_when (Contains (path +:+ "/") "/api/v4/")
              (Errorf "GitLab url must name the instance base, not its API endpoint" []);
        _ ← fail_when (HasSuffix path "/ci")
              (Errorf "GitLab Runner does not preserve an instance base ending in /ci" []);
        Ok (https_String u_host path)
    end.

Definition canonical_gitlab (gitlab : GitLabTarget) : result GitLabTarget :=
  _ ← fail_when (Bool.eqb (0 <? gitlab.(glt_ProjectID)) (0 <? gitlab.(glt_GroupID)) ||
                 (gitlab.(glt_ProjectID) <? 0) || (gitlab.(glt_GroupID) <? 0) ||
                 (max_identifier <? gitlab.(glt_ProjectID)) || (max_identifier <? gitlab.(glt_GroupID)))
        (Errorf "GitLab requires exactly one positive project_id or group_id" []);
  _ ← fail_when (negb (is_empty gitlab.(glt_TrustPolicy)) &&
                 negb (full_match providerPolicyName gitlab.(glt_TrustPolicy)))
        (Errorf "GitLab trust_policy must name an installation-approved policy" []);
  canonical ← CanonicalGitLabURL gitlab.(glt_URL);
  let gitlab := set_glt_URL canonical gitlab in
  _ ← fail_when (negb (canonical =? "https://gitlab.com")%string && is_empty gitlab.(glt_TrustPolicy))
        (Errorf "a custom GitLab URL requires an installation-approved trust_policy" []);
  Ok gitlab.

Definition canonical_bitbucket (bitbucket : BitbucketTarget) : result BitbucketTarget :=
  match canonicalProviderUUID bitbucket.(bbt_Workspace) with
  | None => Err (Errorf "Bitbucket workspace must be its UUID" [])
  | Some workspace =>
      let bitbucket := set_bbt_Workspace workspace bitbucket in
      if is_empty bitbucket.(bbt_Repository) then Ok bitbucket
      else match canonicalProviderUUID bitbucket.(bbt_Repository) with
           | None => Err (Errorf "Bitbucket repository must be its UUID" [])
           | Some repository => Ok (set_bbt_Repository repository bitbucket)
           end
  end.

Definition Canonical (t : ProviderTarget) : result ProviderTarget :=
  let p := Effective t.(pt_Provider) in
  if (p =? ProviderGitHub)%string then
    _ ← fail_when (non_nil t.(pt_GitLab) || non_nil t.(pt_Bitbucket) || negb (Target_Valid t.(pt_GitHub)))
          (Errorf "select either a GitHub.com organization or owner/repository; runner groups apply only to organizations" []);
    Ok (mkProviderTarget p t.(pt_GitHub) t.(pt_GitLab) t.(pt_Bitbucket))
  else if (p =? ProviderGitLab)%string then
    match bool_decide (t.(pt_GitHub) = zero_Target), t.(pt_GitLab), t.(pt_Bitbucket) with
    | true, Some gitlab, None =>
        gitlab ← canonical_gitlab gitlab;
        Ok (mkProviderTarget p t.(pt_GitHub) (Some gitlab) None)
    | _, _, _ => Err (Errorf "GitLab requires only a gitlab target" [])
    end
  else if (p =? ProviderBitbucket)%string then
    match bool_decide (t.(pt_GitHub) = zero_Target), t.(pt_Bitbucket), t.(pt_GitLab) with
    | true, Some bitbucket, None =>
        bitbucket ← canonical_bitbucket bitbucket;
        Ok (mkProviderTarget p t.(pt_GitHub) None (Some bitbucket))
    | _, _, _ => Err (Errorf "Bitbucket requires only a bitbucket target" [])
    end
  else Err (Errorf "provider must be github, gitlab or bitbucket" []).
End gitlab.

(** [ValidProviderID] *)
Definition ValidProviderID (id : string) : bool :=
  if (len id <? 1) || (128 <? len id) then false
  else negb (existsb (λ c, (c <=? 32) || (127 <=? c) || existsb (Z.eqb c) [47; 92; 63; 35; 37]) (runes id)).

(** * Facts *)

Lemma Effective_idem p : Effective (Effective p) = Effective p.
Proof. unfold Effective. destruct (is_empty p) eqn:Hp; [done|]. by rewrite Hp. Qed.

Lemma Effective_valid_cases p : Provider_Valid p = true →
  Effective p = ProviderGitHub ∨ Effective p = ProviderGitLab ∨ Effective p = ProviderBitbucket.
Proof.
  unfold Provider_Valid. rewrite one_of_spec. set_solver.
Qed.
