(* ===== verification/SpecActions.v ===== *)
(** Runner pools (actions.go, actions_bitbucket.go): the target, labels, image
    and budget of a Managed Actions pool. *)
From S2P Require Import Prelude GoStd Regex SpecTypes Platform SpecChecks SpecResources SpecWorkloads Provider.
#[global] Open Scope Z_scope.

(** * Runner images *)

Definition actionsRunnerRepository : string := "ghcr.io/hakopod/actions-runner".
Definition actionsRunnerDigest : string :=
  "sha256:9997dfd0b0b39513e193f7e51c44f1f25f3216713fba5de7a9e5812676222bd6".
Definition ActionsRunnerImage : string :=
  actionsRunnerRepository +:+ ":2.337.0-hakopod-900500b7096ef5647f29f05d76bca5b18a04882d@" +:+ actionsRunnerDigest.
Definition actionsRunnerResolvedImage : string := actionsRunnerRepository +:+ "@" +:+ actionsRunnerDigest.
Definition previousActionsRunnerDigest : string :=
  "sha256:1e05326c75ff1412c68e7e2aed6541fa2e3dd07a8ce6389c9246fc253d7eb3b2".
Definition previousActionsRunnerImage : string :=
  actionsRunnerRepository +:+ ":2.337.0-hakopod-6d9a8152b7f5dafa1bfc5bbf1a24207710c746a7@" +:+ previousActionsRunnerDigest.
Definition legacyActionsRunnerDigest : string :=
  "sha256:63768a269f453a8e386588ae77b3ff9bdf911244c0276aad28b324d629be1489".
Definition legacyActionsRunnerImage : string :=
  actionsRunnerRepository +:+ ":2.337.0-hakopod-37ab7a0390da5202ab3ac7cb12983d6d08f146bf@" +:+ legacyActionsRunnerDigest.

Definition approved_images : list string :=
  [ActionsRunnerImage; actionsRunnerResolvedImage;
   previousActionsRunnerImage; actionsRunnerRepository +:+ "@" +:+ previousActionsRunnerDigest;
   legacyActionsRunnerImage; actionsRunnerRepository +:+ "@" +:+ legacyActionsRunnerDigest;
   "ghcr.io/actions/actions-runner:2.337.0@sha256:e5496277be5d09bc968b3d64911b74e219ac4a3f2edce956a3ecf9271bea1ef4";
   "ghcr.io/actions/actions-runner@sha256:e5496277be5d09bc968b3d64911b74e219ac4a3f2edce956a3ecf9271bea1ef4"].

Definition IsActionsRunnerImage (image : string) : bool := one_of image approved_images.
Definition IsCurrentActionsRunnerImage (image : string) : bool :=
  (image =? ActionsRunnerImage)%string || (image =? actionsRunnerResolvedImage)%string.

(** * Accessors *)

Definition actions_Target (a : Actions) : Target :=
  mkTarget a.(act_Repository) a.(act_Organization) a.(act_RunnerGroupID).
Definition actions_ProviderTarget (a : Actions) : ProviderTarget :=
  mkProviderTarget a.(act_Provider) (actions_Target a) a.(act_GitLab) a.(act_Bitbucket).
Definition EffectiveJobsCredential (a : Actions) : string :=
  if is_empty a.(act_JobsCredential) then a.(act_Credential) else a.(act_JobsCredential).
Definition ActionsWorkspaceGiB (a : option Actions) : Z :=
  match a with
  | Some a => if a.(act_WorkspaceSizeGiB) =? 0 then 2 else a.(act_WorkspaceSizeGiB)
  | None => 2
  end.
Definition HasActiveActions (a : Application) : bool :=
  existsb (λ kv : string * Service, non_nil kv.2.(svc_Actions) && negb kv.2.(svc_Suspended))
    (map_to_list (app_services a)).

(** * Labels *)

(** [^[A-Za-z0-9][A-Za-z0-9_.-]{0,63}$], the expression of [labelPattern]. *)
Definition actionsLabel : regex := labelPattern.
(** [^[a-z0-9.]{1,64}$] *)
Definition bitbucketActionsLabel : regex := RRep (RCls (λ c, lower c || digit c || any_of "." c)) 1 64.

(** One label of the loop: the labels collected and the set seen. *)
Definition add_bitbucket_label (platform : string) (acc : list string * gset string) (label : string)
    : result (list string * gset string) :=
  let '(labels, seen) := acc in
  _ ← fail_when (negb (full_match bitbucketActionsLabel label) || bool_decide (label ∈ seen) ||
                 HasPrefix label "hakopod.owner." || one_of label ["windows"; "macos"; "linux.shell"])
        (Errorf "actions.labels: Bitbucket labels must be unique lowercase letters, numbers and dots" []);
  let seen := {[ label ]} ∪ seen in
  if (label =? "self.hosted")%string || (label =? platform)%string then Ok (labels, seen)
  else
    _ ← fail_when ((label =? "linux")%string || (label =? "linux.arm64")%string)
          (Errorf "actions.labels: Bitbucket platform labels must match the selected runner architecture" []);
    Ok (labels ++ [label], seen).

(** The body after the platform is known. *)
Definition bitbucket_labels (platform : string) (input : list string) : result (list string) :=
  '(labels, _) ← foldM (add_bitbucket_label platform) (["self.hosted"; platform], ∅)
                   (if non_empty input then input else ["hakopod"]);
  _ ← fail_when (11 <? lenl labels)
        (Errorf "actions.labels: Bitbucket supports at most nine custom labels" []);
  Ok labels.

Definition normalizeBitbucketActionsLabels (architecture : string) (a : Actions) : result Actions :=
  if negb (Effective a.(act_Provider) =? ProviderBitbucket)%string then Ok a
  else
    _ ← fail_when (negb (architecture =? "arm64")%string && negb (architecture =? "amd64")%string)
          (Errorf "actions.labels: select an explicit amd64 or arm64 Bitbucket runner architecture" []);
    let platform := if (architecture =? "arm64")%string then "linux.arm64" else "linux" in
    labels ← bitbucket_labels platform a.(act_Labels);
    Ok (set_act_Labels labels a).

Definition normalize_labels (a : Actions) : result Actions :=
  let a := if non_empty a.(act_Labels) then a else set_act_Labels ["hakopod"] a in
  _ ← fail_when (8 <? lenl a.(act_Labels)) (Errorf "actions.labels: at most eight labels" []);
  let bad := Errorf "actions.labels: use distinct letters, numbers, dots, underscores or hyphens" [] in
  _ ← range_unique (λ label, fail_when (negb (full_match actionsLabel label)) bad) ToLower (λ _, bad)
        no_check a.(act_Labels);
  Ok a.

(** * Pools *)

(** Other workload controls, probes and network access. *)
Definition actions_conflict (s : Service) : bool :=
  non_nil s.(svc_Job) || non_nil s.(svc_Serverless) || non_nil s.(svc_Autoscaling) || s.(svc_Public) ||
  s.(svc_BackendHTTP2) || negb (s.(svc_IngressTimeoutSeconds) =? 0) || negb (s.(svc_Port) =? 0) ||
  (0 <? lenl s.(svc_Ports)) || (0 <? lenl s.(svc_PublicTCP)) || (0 <? lenm s.(svc_HTTP)) ||
  non_nil s.(svc_Volume) || (0 <? lenl s.(svc_Mounts)) || (0 <? lenl s.(svc_TemporaryMounts)) ||
  non_nil s.(svc_GPU) || (0 <? lenm s.(svc_Env)) || (0 <? lenm s.(svc_Secrets)) ||
  (0 <? lenm s.(svc_Files)) || (0 <? lenm s.(svc_Bindings)) || (0 <? lenl s.(svc_Command)) ||
  (0 <? lenl s.(svc_Args)) || (0 <? lenl s.(svc_DependsOn)) || negb (is_empty s.(svc_AWSIdentity)) ||
  negb (is_empty s.(svc_ContainerDaemon)) || negb (is_empty s.(svc_RegistryCredential)) ||
  (0 <? lenl s.(svc_CertificateMounts)) || non_nil s.(svc_TLS) || negb (s.(svc_RunAsUser) =? 0) ||
  negb (s.(svc_RunAsGroup) =? 0) || negb (s.(svc_FSGroup) =? 0) || negb (is_empty s.(svc_WorkingDir)) ||
  s.(svc_ReadOnlyRootFilesystem) || (0 <? lenl s.(svc_PrivateEgress)) || non_nil s.(svc_Kubernetes).

Definition probes_conflict (s : Service) : bool :=
  non_nil s.(svc_Readiness) || negb (is_empty s.(svc_Healthcheck)) || non_nil s.(svc_NetworkAccess) ||
  negb (s.(svc_TerminationGraceSeconds) =? 0).

(** Demand scaling: [idle_seconds] and [min_replicas] against the saved replicas. *)
Definition check_idle (provider : string) (a : Actions) (replicas : Z) : result unit :=
  let github := (provider =? ProviderGitHub)%string in
  _ ← fail_when (negb (a.(act_IdleSeconds) =? 0) && negb github)
        (Errorf "actions.idle_seconds: scale to zero is available for GitHub pools only" []);
  _ ← fail_when (negb (a.(act_IdleSeconds) =? 0) && outside 60 86400 a.(act_IdleSeconds))
        (Errorf "actions.idle_seconds: choose 60–86,400 seconds" []);
  _ ← fail_when (negb (a.(act_MinReplicas) =? 0) && (a.(act_IdleSeconds) =? 0))
        (Errorf "actions.min_replicas: set idle_seconds to scale the pool on demand" []);
  fail_when (outside 0 replicas a.(act_MinReplicas))
    (Errorf "actions.min_replicas: choose 0 up to the pool's replicas" []).

Definition check_credentials (target : ProviderTarget) (a : Actions) : result unit :=
  _ ← fail_when (match a.(act_Cache) with
                 | Some c => negb (target.(pt_Provider) =? ProviderGitLab)%string || is_empty c.(ac_Credential) ||
                             negb (SecretRef_Valid (ref_to c.(ac_Credential)))
                 | None => false
                 end)
        (Errorf "actions.cache: select a cache secret for an installation-approved GitLab pool" []);
  _ ← fail_when ((target.(pt_Provider) =? ProviderBitbucket)%string &&
                 match target.(pt_Bitbucket) with Some b => is_empty b.(bbt_Repository) | None => false end)
        (Errorf "actions.bitbucket.repository: select the repository assigned to this runner" []);
  _ ← fail_when (negb (SecretRef_Valid (ref_to a.(act_Credential))) || is_empty a.(act_Credential))
        (Errorf "actions.credential: select an application secret" []);
  fail_when (negb (is_empty a.(act_JobsCredential)) && negb (SecretRef_Valid (ref_to a.(act_JobsCredential))))
    (Errorf "actions.jobs_credential: select an application secret" []).

(** The image and architecture of the runner. *)
Definition check_runner_image (provider : string) (s : Service) : result Service :=
  if (provider =? ProviderGitHub)%string then
    let s := if is_empty s.(svc_Image) then set_svc_Image ActionsRunnerImage s else s in
    _ ← fail_when (negb (IsActionsRunnerImage s.(svc_Image)))
          (Errorf "actions runners use the verified, digest-pinned runner image" []);
    Ok s
  else
    _ ← fail_when (negb (is_ok (validateImage s.(svc_Image))) || negb (Contains s.(svc_Image) "@sha256:"))
          (Errorf "native actions runners require an installation-approved digest-pinned image" []);
    _ ← fail_when (negb (s.(svc_Architecture) =? "amd64")%string && negb (s.(svc_Architecture) =? "arm64")%string)
          (Errorf "native actions runners require an explicit amd64 or arm64 architecture" []);
    Ok s.

Section pools.
Context `{Host} `{ThirdParty} `{Quantity}.

(** [v, err := ParseQuantity(value); err != nil || v.Cmp(MustParse(minimum)) < 0] *)
Definition below (value minimum : string) : bool :=
  match ParseQuantity value with
  | Some q => q_lt (Some q) (MustParse minimum)
  | None => true
  end.

Definition check_native_budget (provider : string) (a : Actions) (p : Profile) : result unit :=
  let bitbucket := (provider =? ProviderBitbucket)%string in
  _ ← fail_when (bitbucket && (ActionsWorkspaceGiB (Some a) <? 4))
        (Errorf "Bitbucket runners require at least 4 GiB of temporary storage" []);
  iterM (λ '(value, minimum, label),
      fail_when (below value minimum)
        (Errorf "%s runners require at least %s %s" [AStr provider; AStr minimum; AStr label]))
    [(p.(p_CPURequest), if bitbucket then "1" else "200m", "requested CPU");
     (p.(p_CPULimit), "1", "CPU limit");
     (p.(p_MemoryRequest), if bitbucket then "8Gi" else "2Gi", "requested memory");
     (p.(p_MemoryLimit), if bitbucket then "8Gi" else "4Gi", "memory limit")].

Definition check_pool_budget (provider : string) (a : Actions) (s : Service) : result unit :=
  let p := EffectiveResources s in
  _ ← (if (provider =? ProviderGitHub)%string then Ok tt else check_native_budget provider a p);
  _ ← fail_when (below p.(p_MemoryRequest) "768Mi")
        (Errorf "actions pools require at least 768Mi requested memory including sandbox overhead" []);
  _ ← fail_when (below p.(p_CPURequest) "200m")
        (Errorf "actions pools require at least 200m requested CPU including sandbox overhead" []);
  fail_when (below p.(p_MemoryLimit) "4Gi")
    (Errorf "actions pools require at least 4Gi memory per job slot, including Docker and temporary storage" []).

(** The pool's own fields: target, credentials, labels, timeout, workspace. *)
Definition normalize_pool (architecture : string) (a : Actions) : result (string * Actions) :=
  target ← wrap (λ err, Errorf "actions: %w" [AErr err]) (Canonical (actions_ProviderTarget a));
  let a := set_act_Bitbucket target.(pt_Bitbucket) (set_act_GitLab target.(pt_GitLab)
             (set_act_Provider target.(pt_Provider) a)) in
  let a := if (target.(pt_Provider) =? ProviderGitHub)%string then set_act_Provider EmptyString a else a in
  _ ← check_credentials target a;
  a ← (if (target.(pt_Provider) =? ProviderBitbucket)%string
       then normalizeBitbucketActionsLabels architecture a else normalize_labels a);
  let a := set_act_TimeoutMinutes (or_default 60 a.(act_TimeoutMinutes)) a in
  _ ← fail_when (outside 5 360 a.(act_TimeoutMinutes)) (Errorf "actions.timeout_minutes: choose 5–360 minutes" []);
  _ ← fail_when (outside 0 16 a.(act_WorkspaceSizeGiB) || (a.(act_WorkspaceSizeGiB) =? 1))
        (Errorf "actions.workspace_size_gib: choose 2–16 GiB of temporary workspace storage" []);
  Ok (target.(pt_Provider), a).

Definition normalizeActions (s : Service) : result Service :=
  match s.(svc_Actions) with
  | None => Ok s
  | Some a =>
      '(provider, a) ← normalize_pool s.(svc_Architecture) a;
      let s := set_svc_Actions (Some a) s in
      s ← check_runner_image provider s;
      let s := if is_empty s.(svc_Size) then set_svc_Size "compute" s else s in
      _ ← fail_when (10 <? s.(svc_Replicas))
            (Errorf "actions pools support at most ten concurrent job slots" []);
      _ ← check_idle provider a s.(svc_Replicas);
      _ ← fail_when (actions_conflict s)
            (Errorf "actions pools manage their own sandbox, image, environment, storage and networking; remove other workload controls" []);
      _ ← fail_when (probes_conflict s)
            (Errorf "actions pools manage their own probes and network access" []);
      _ ← check_pool_budget provider a s;
      Ok s
  end.
End pools.
