(* ===== verification/SpecBindings.v ===== *)
(** Bindings (bindings.go, external_database_bindings.go,
    managed_database_options.go, database_client_profiles.go): the service and
    database URLs a service derives, and the checks on their references. *)
From S2P Require Import Prelude GoStd GoNet Regex SpecTypes Platform SpecChecks SpecEnvironment SpecWorkloads SpecNetwork Provider.
#[global] Open Scope Z_scope.

(** * URLs *)

Inductive encoding : Type := encodePath | encodeUserPassword | encodeHost.

(** [shouldEscape] of net/url on one byte. *)
Definition shouldEscape (c : ascii) (mode : encoding) : bool :=
  if lower c || upper c || digit c || any_of "-_.~" c then false
  else match mode with
       | encodeHost => negb (any_of ("!$&'()*+,;=:[]<>" +:+ chr 34) c)
       | encodePath => negb (any_of "$&+,/:;=@" c)
       | encodeUserPassword => negb (any_of "$&+,;=" c)
       end.

Definition upper_hex (z : Z) : ascii :=
  ascii_of_N (Z.to_N (if z <? 10 then z + 48 else z + 55)).

Fixpoint escape (s : string) (mode : encoding) : string :=
  match s with
  | EmptyString => EmptyString
  | String c s =>
      if shouldEscape c mode
      then String "%" (String (upper_hex (byte_of c / 16)) (String (upper_hex (byte_of c mod 16)) (escape s mode)))
      else String c (escape s mode)
  end.

Definition BindingURL (b : Binding) (target : Service) (password : string) : string :=
  let host := JoinHostPort b.(b_Service) (Itoa target.(svc_Port)) in
  let path := if is_empty b.(b_Database) then EmptyString else "/" +:+ b.(b_Database) in
  let user := if non_nil b.(b_Password)
              then escape b.(b_Username) encodeUserPassword +:+ ":" +:+ escape password encodeUserPassword +:+ "@"
              else EmptyString in
  b.(b_Protocol) +:+ "://" +:+ user +:+ escape host encodeHost +:+ escape path encodePath.

(** * Checks *)

Definition bad_database (b : Binding) : bool :=
  (64 <? len b.(b_Database)) || ContainsAny b.(b_Database) ("/\?#" +:+ NUL +:+ CR +:+ LF).
Definition bad_username (b : Binding) : bool :=
  (64 <? len b.(b_Username)) || ContainsAny b.(b_Username) (NUL +:+ CR +:+ LF).

(** The default login of a managed database. *)
Definition default_user (b : Binding) : string :=
  if (b.(b_Endpoint) =? "postgresql")%string then "postgres"
  else if (b.(b_Endpoint) =? "mysql")%string then "root"
  else if (b.(b_Protocol) =? "oracle")%string then "APP"
  else if (b.(b_Protocol) =? "redis")%string then "default"
  else "app".

(** The SSL modes each protocol supports. *)
Definition ssl_mode_ok (b : Binding) : bool :=
  if is_empty b.(b_SSLMode) then true
  else if (b.(b_SSLMode) =? "disable")%string then one_of b.(b_Protocol) ["postgres"; "redis"]
  else if one_of b.(b_SSLMode) ["require"; "verify-ca"] then (b.(b_Protocol) =? "postgres")%string
  else (b.(b_SSLMode) =? "verify-full")%string && negb (b.(b_Protocol) =? "mysql")%string.

Definition ValidateManagedOptions (b : Binding) : result unit :=
  _ ← fail_when (bad_username b || bad_database b) (Errorf "invalid database or username" []);
  _ ← fail_when (match b.(b_Password) with Some r => negb (SecretRef_Valid r) | None => false end)
        (Errorf "password must be a scoped secret reference" []);
  _ ← fail_when (negb (is_empty b.(b_Username)) && negb (b.(b_Username) =? default_user b)%string &&
                 negb (non_nil b.(b_Password)))
        (Errorf "a custom username requires a scoped password reference" []);
  _ ← fail_when ((b.(b_Protocol) =? "postgres")%string &&
                 one_of b.(b_Endpoint) ["pooled_read_write"; "pooled_read_only"] &&
                 ((negb (is_empty b.(b_Username)) && negb (b.(b_Username) =? "app")%string) ||
                  (negb (is_empty b.(b_Database)) && negb (b.(b_Database) =? "app")%string)))
        (Errorf "pooled endpoints support only the app login and database; choose a direct endpoint for a custom login or database" []);
  _ ← (if (b.(b_Protocol) =? "redis")%string && negb (is_empty b.(b_Database)) then
         match Atoi b.(b_Database) with
         | None => Err (Errorf "Redis database must be an index from 0 to 15" [])
         | Some index =>
             _ ← fail_when (outside 0 15 index || negb (Itoa index =? b.(b_Database))%string)
                   (Errorf "Redis database must be an index from 0 to 15" []);
             fail_when ((b.(b_Endpoint) =? "cluster")%string && negb (index =? 0))
               (Errorf "Redis cluster supports only database 0" [])
         end
       else Ok tt);
  _ ← fail_when (negb (ssl_mode_ok b) && (b.(b_Protocol) =? "mysql")%string)
        (Errorf "MySQL TLS must be configured in the client driver; omit ssl_mode" []);
  fail_when (negb (ssl_mode_ok b)) (Errorf "ssl_mode is not supported for this database protocol" []).

Definition external_fields_bad (b : Binding) : bool :=
  negb (full_match identityPattern b.(b_ExternalDatabase)) || (b.(b_ExternalDatabaseRevision) <? 1) ||
  negb (is_empty b.(b_ManagedDatabase)) || negb (is_empty b.(b_Service)) ||
  negb (is_empty b.(b_Username)) || non_nil b.(b_Password) || negb (is_empty b.(b_Database)) ||
  negb (is_empty b.(b_Endpoint)) || negb (is_empty b.(b_SSLMode)) || b.(b_ClusterAware) ||
  (negb (b.(b_Protocol) =? "mysql")%string && negb (b.(b_Protocol) =? "postgres")%string).

Definition validateExternalDatabaseBinding (app : Application) (svc : Service) (b : Binding) : result unit :=
  _ ← fail_when (external_fields_bad b)
        (Errorf "external database bindings require only a connection ID, reviewed revision and mysql or postgres protocol" []);
  fail_when (negb (existsb (λ name, match app.(app_Networks) !! name with
                                    | Some network => negb network.(net_Internal)
                                    | None => false
                                    end) (svc_networks svc)))
    (Errorf "external database bindings require an explicitly declared network that permits public egress" []).

(** The endpoints of each managed protocol, in the order of the checks. *)
Definition check_managed_endpoint (b : Binding) : result unit :=
  let protocol p := (b.(b_Protocol) =? p)%string in
  let cluster := (b.(b_Endpoint) =? "cluster")%string in
  _ ← fail_when ((protocol "postgres" && (cluster || (b.(b_Endpoint) =? "mysql")%string || b.(b_ClusterAware))) ||
                 (protocol "redis" && (negb (one_of b.(b_Endpoint) ["read_write"; "cluster"]) ||
                                       negb (Bool.eqb cluster b.(b_ClusterAware)))))
        (Errorf "database endpoint and cluster-aware acknowledgement do not match the protocol" []);
  _ ← fail_when (protocol "mysql" &&
                 (b.(b_ClusterAware) || negb (one_of b.(b_Endpoint) ["read_write"; "read_only"; "mysql"])))
        (Errorf "MySQL bindings require a write or replica route" []);
  _ ← fail_when (protocol "mongodb" && (negb cluster || negb b.(b_ClusterAware)))
        (Errorf "MongoDB bindings require the replica set endpoint and a compatible driver" []);
  _ ← fail_when (protocol "clickhouse" && (negb (one_of b.(b_Endpoint) ["read_write"; "cluster"]) ||
                                           negb (Bool.eqb cluster b.(b_ClusterAware))))
        (Errorf "ClickHouse bindings require a write or cluster endpoint with matching acknowledgement" []);
  fail_when (protocol "oracle" && (negb (b.(b_Endpoint) =? "read_write")%string || b.(b_ClusterAware)))
    (Errorf "Oracle Free bindings require the primary TCPS endpoint" []).

Definition validate_managed_binding (name key : string) (b : Binding) : result unit :=
  _ ← fail_when (negb (full_match identityPattern b.(b_ManagedDatabase)) || negb (is_empty b.(b_Service)))
        (Errorf "managed database bindings require a database ID without a service target" []);
  _ ← fail_when (negb (one_of b.(b_Protocol) ["postgres"; "redis"; "mysql"; "mongodb"; "clickhouse"; "oracle"]))
        (Errorf "managed database protocol must be postgres, mysql, redis, mongodb, clickhouse or oracle" []);
  _ ← fail_when (negb (one_of b.(b_Endpoint)
          ["read_write"; "read_only"; "cluster"; "pooled_read_write"; "pooled_read_only"; "mysql"; "postgresql"]))
        (Errorf "choose a managed database endpoint" []);
  _ ← check_managed_endpoint b;
  wrap (λ err, Errorf "services.%s.bindings.%s: %w" [AStr name; AStr key; AErr err]) (ValidateManagedOptions b).

(** The [switch b.Protocol] on a binding to a service. *)
Definition check_service_protocol (name key : string) (b : Binding) : result unit :=
  if (b.(b_Protocol) =? "http")%string then
    fail_when (non_nil b.(b_Password) || negb (is_empty b.(b_Username)) || negb (is_empty b.(b_Database)))
      (Errorf "http bindings cannot contain database credentials" [])
  else if one_of b.(b_Protocol) ["postgres"; "mysql"; "redis"; "amqp"] then
    _ ← fail_when (match b.(b_Password) with Some r => negb (SecretRef_Valid r) | None => true end)
          (Errorf "services.%s.bindings.%s: a scoped password reference is required" [AStr name; AStr key]);
    _ ← fail_when (negb (b.(b_Protocol) =? "redis")%string &&
                   (is_empty b.(b_Database) || is_empty b.(b_Username)))
          (Errorf "database bindings require database and username" []);
    fail_when ((b.(b_Protocol) =? "redis")%string && negb (is_empty b.(b_Database)) &&
               match Atoi b.(b_Database) with Some n => outside 0 15 n | None => true end)
      (Errorf "redis binding database must be 0–15" [])
  else Err (Errorf "services.%s.bindings.%s.protocol: choose http, postgres, mysql, redis or amqp" [AStr name; AStr key]).

Definition validate_service_binding (app : Application) (name key : string) (b : Binding) : result unit :=
  _ ← fail_when (negb (is_empty b.(b_SSLMode))) (Errorf "ssl_mode requires a managed database" []);
  _ ← fail_when (negb (is_empty b.(b_Endpoint)) || b.(b_ClusterAware))
        (Errorf "endpoint and cluster_aware require a managed database" []);
  _ ← fail_when (match app_services app !! b.(b_Service) with
                 | Some target => non_nil target.(svc_Job) || (target.(svc_Port) =? 0) ||
                                  negb (AllowsPeer app name b.(b_Service))
                 | None => true
                 end)
        (Errorf "services.%s.bindings.%s: target must be a reachable private service with a primary port" [AStr name; AStr key]);
  _ ← fail_when (bad_database b || bad_username b)
        (Errorf "services.%s.bindings.%s: invalid database or username" [AStr name; AStr key]);
  check_service_protocol name key b.

Definition validate_binding (app : Application) (name : string) (s : Service) (entry : string * Binding)
    : result unit :=
  let '(key, b) := entry in
  _ ← fail_when (negb (full_match envPattern key) || (128 <? len key))
        (Errorf "services.%s.bindings: use valid environment names" [AStr name]);
  _ ← fail_when (has_key s.(svc_Env) key)
        (Errorf "services.%s.bindings.%s: environment name is already defined" [AStr name; AStr key]);
  _ ← fail_when (has_key s.(svc_Secrets) key)
        (Errorf "services.%s.bindings.%s: secret environment name is already defined" [AStr name; AStr key]);
  _ ← fail_when (has_key s.(svc_Secrets) (BindingSecretKey key))
        (Errorf "services.%s.bindings: reserved secret key collision" [AStr name]);
  if negb (is_empty b.(b_ExternalDatabase)) then validateExternalDatabaseBinding app s b
  else
    _ ← fail_when (negb (b.(b_ExternalDatabaseRevision) =? 0))
          (Errorf "external_database_revision requires an external database" []);
    if negb (is_empty b.(b_ManagedDatabase)) then validate_managed_binding name key b
    else validate_service_binding app name key b.

(** * Database client profiles *)

Definition DatabaseClientInfisicalPostgresV1 : string := "infisical-postgres-v1".
Definition DatabaseClientNodeExtraCAV1 : string := "node-extra-ca-v1".
Definition DatabaseClientLibpqURLV1 : string := "libpq-postgres-url-v1".
Definition DatabaseClientGlitchTipValkeyV21 : string := "glitchtip-valkey-v2.1-v1".

Definition databaseClientGeneratedEnvironment (profile : string) : list string :=
  if (profile =? DatabaseClientInfisicalPostgresV1)%string then ["DB_ROOT_CERT"]
  else if (profile =? DatabaseClientNodeExtraCAV1)%string then ["NODE_EXTRA_CA_CERTS"]
  else if (profile =? DatabaseClientGlitchTipValkeyV21)%string then ["SSL_CERT_FILE"; "SSL_CERT_DIR"]
  else [].

Definition DatabaseClientProfile (service : Service) (variable : string) : string :=
  default EmptyString (service.(svc_DatabaseClientProfiles) !! variable).

(** The rest of the loop for a profile on a managed database binding. *)
Definition check_managed_profile (serviceName variable profile : string) (effective service : Service)
    (binding : Binding) : result unit :=
  let field e := Errorf "services.%s.database_client_profiles.%s: %s is already defined"
                   [AStr serviceName; AStr variable; AStr e] in
  _ ← iterM (λ generated,
        _ ← fail_when (has_key effective.(svc_Env) generated) (field generated);
        _ ← fail_when (has_key effective.(svc_Secrets) generated) (field generated);
        fail_when (has_key service.(svc_Bindings) generated) (field generated))
      (databaseClientGeneratedEnvironment profile);
  if one_of profile [DatabaseClientInfisicalPostgresV1; DatabaseClientLibpqURLV1] then
    fail_when (negb (binding.(b_Protocol) =? "postgres")%string)
      (Errorf "services.%s.database_client_profiles.%s: this profile requires PostgreSQL" [AStr serviceName; AStr variable])
  else if one_of profile [DatabaseClientNodeExtraCAV1; DatabaseClientGlitchTipValkeyV21] then
    fail_when (negb (binding.(b_Protocol) =? "redis")%string)
      (Errorf "services.%s.database_client_profiles.%s: this profile requires Redis" [AStr serviceName; AStr variable])
  else Ok tt.

(** One profile; the loop variable counts the Infisical ones. *)
Definition check_client_profile (serviceName : string) (effective service : Service)
    (infisicalPostgres : Z) (entry : string * string) : result Z :=
  let '(variable, profile) := entry in
  _ ← fail_when (negb (full_match envPattern variable) || (128 <? len variable))
        (Errorf "services.%s.database_client_profiles: use valid environment names" [AStr serviceName]);
  let binding := service.(svc_Bindings) !! variable in
  _ ← fail_when (negb (has_key effective.(svc_Env) variable) && negb (has_key effective.(svc_Secrets) variable) &&
                 negb (non_nil binding))
        (Errorf "services.%s.database_client_profiles.%s: the connection variable is not defined" [AStr serviceName; AStr variable]);
  let infisical := (profile =? DatabaseClientInfisicalPostgresV1)%string in
  _ ← fail_when (infisical && negb (variable =? "DB_CONNECTION_URI")%string)
        (Errorf "services.%s.database_client_profiles.%s: the Infisical profile requires DB_CONNECTION_URI" [AStr serviceName; AStr variable]);
  _ ← fail_when (negb infisical && negb (one_of profile
          [DatabaseClientNodeExtraCAV1; DatabaseClientGlitchTipValkeyV21; DatabaseClientLibpqURLV1]))
        (Errorf "services.%s.database_client_profiles.%s: unsupported profile" [AStr serviceName; AStr variable]);
  _ ← match binding with
      | Some b => if is_empty b.(b_ManagedDatabase) then Ok tt
                  else check_managed_profile serviceName variable profile effective service b
      | None => Ok tt
      end;
  Ok (if infisical then infisicalPostgres + 1 else infisicalPostgres).

Section bindings.
Context `{RangeOrder}.

Definition validateDatabaseClientProfiles (app : Application) (serviceName : string) (service : Service)
    : result unit :=
  _ ← fail_when (16 <? lenm service.(svc_DatabaseClientProfiles))
        (Errorf "services.%s.database_client_profiles: at most 16 profiles" [AStr serviceName]);
  let effective := EffectiveService app service in
  infisicalPostgres ← foldM (check_client_profile serviceName effective service) 0
                        (range service.(svc_DatabaseClientProfiles));
  fail_when (1 <? infisicalPostgres)
    (Errorf "services.%s.database_client_profiles: only one Infisical PostgreSQL profile is supported" [AStr serviceName]).

Definition validateBindings (app : Application) : result unit :=
  iterM (λ '(name, s),
    _ ← validateDatabaseClientProfiles app name s;
    _ ← fail_when (16 <? lenm s.(svc_Bindings))
          (Errorf "services.%s.bindings: at most 16 bindings" [AStr name]);
    iterM (validate_binding app name s) (range s.(svc_Bindings))) (range (app_services app)).
End bindings.
