(* ===== verification/SpecSidecars.v ===== *)
(** Sidecars (sidecars.go): the extra containers of a service pod, their
    mandatory budget and the mounts they share with the service. *)
From S2P Require Import Prelude GoStd Regex SpecTypes Platform SpecChecks SpecEnvironment SpecResources.
#[global] Open Scope Z_scope.

Definition MaxSidecars : Z := 4.

Definition reservedSidecarNames : list string :=
  ["app"; "install-readiness-probe"; "install-guard"; "docker"; "prepare"].

(** [Service{Size: "small", Resources: &Resources{cpu, cpu, memory, memory}}] *)
Definition sidecar_budget (sc : Sidecar) : Service :=
  set_svc_Resources (Some (mkResources sc.(sc_CPU) sc.(sc_CPU) sc.(sc_Memory) sc.(sc_Memory)))
    (set_svc_Size "small" zero_Service).

(** One mount of a sidecar; [paths] are the earlier mount paths. *)
Definition check_sidecar_mount (field : string) (s : Service) (paths : list string) (m : SidecarMount)
    : result (list string) :=
  _ ← fail_when (Bool.eqb (is_empty m.(scm_Volume)) (is_empty m.(scm_Temporary)))
        (Errorf "%s.mounts: name exactly one of volume or temporary" [AStr field]);
  _ ← fail_when ((negb (is_empty m.(scm_Volume)) && negb (one_of m.(scm_Volume) (mt_Volume <$> s.(svc_Mounts)))) ||
                 (negb (is_empty m.(scm_Temporary)) &&
                  negb (one_of m.(scm_Temporary) (tm_MountPath <$> s.(svc_TemporaryMounts)))))
        (Errorf "%s.mounts: share only a volume the service mounts or the mount_path of one of its temporary_mounts" [AStr field]);
  _ ← fail_when (negb (allowedMount m.(scm_MountPath)))
        (Errorf "%s.mounts: use a clean absolute data directory" [AStr field]);
  _ ← fail_when (existsb (λ other, overlaps other m.(scm_MountPath)) paths)
        (Errorf "%s.mounts: mount paths must not overlap" [AStr field]);
  Ok (paths ++ [m.(scm_MountPath)]).

Definition validateSidecarMounts (field : string) (s : Service) (mounts : list SidecarMount) : result unit :=
  _ ← fail_when (8 <? lenl mounts) (Errorf "%s.mounts: at most 8" [AStr field]);
  _ ← foldM (check_sidecar_mount field s) [] mounts;
  Ok tt.

Definition SidecarNames (s : Service) : list string := sort_strings (sc_Name <$> s.(svc_Sidecars)).

Section sidecars.
Context `{Host} `{ThirdParty} `{Quantity} `{RangeOrder}.

Definition check_sidecar_name (name field : string) (seen : gset string) (sc : Sidecar) : result unit :=
  _ ← fail_when (negb (IsDNS1123Label sc.(sc_Name)))
        (Errorf "%s.name: use at most 63 lowercase letters, digits or hyphens" [AStr field]);
  _ ← fail_when ((sc.(sc_Name) =? name)%string || one_of sc.(sc_Name) reservedSidecarNames ||
                 HasPrefix sc.(sc_Name) "hakopod-")
        (Errorf "%s.name: %q is reserved or matches the service name" [AStr field; AStr sc.(sc_Name)]);
  fail_when (bool_decide (sc.(sc_Name) ∈ seen))
    (Errorf "%s.name: duplicate sidecar %q" [AStr field; AStr sc.(sc_Name)]).

Definition check_sidecar_container (field : string) (sc : Sidecar) : result unit :=
  _ ← wrap (λ err, Errorf "%s.image: %w" [AStr field; AErr err]) (validateImage sc.(sc_Image));
  _ ← fail_when (negb (Contains sc.(sc_Image) "@sha256:"))
        (Errorf "%s.image: pin the image by digest, for example repository@sha256:<64 hex characters>" [AStr field]);
  _ ← wrap (λ err, Errorf "%s: %w" [AStr field; AErr err]) (ValidateCommand sc.(sc_Command) sc.(sc_Args));
  _ ← validateEnvironment (field +:+ ".env") sc.(sc_Env);
  _ ← fail_when (16 <? lenm sc.(sc_Secrets)) (Errorf "%s.secrets: at most 16 references" [AStr field]);
  _ ← check_secret_keys
        (Errorf "%s.secrets: invalid environment name or secret reference" [AStr field])
        (λ _, Errorf "%s: an environment variable cannot also be a secret reference" [AStr field])
        sc.(sc_Env) sc.(sc_Secrets);
  fail_when (is_empty sc.(sc_CPU) || is_empty sc.(sc_Memory))
    (Errorf "%s: cpu and memory are required" [AStr field]).

(** The budget of a sidecar through the service's own quantity checks. *)
Definition normalize_sidecar_budget (field : string) (sc : Sidecar) : result Sidecar :=
  check ← wrap (λ err, Errorf "%s.%w" [AStr field; AErr err]) (normalizeResources (sidecar_budget sc));
  match check.(svc_Resources) with
  | Some r => Ok (set_sc_Memory r.(res_MemoryRequest) (set_sc_CPU r.(res_CPURequest) sc))
  | None => Ok sc
  end.

(** [seen], the index and the rewritten sidecars. *)
Definition normalize_sidecar (name : string) (s : Service) (acc : gset string * Z * list Sidecar)
    (sc : Sidecar) : result (gset string * Z * list Sidecar) :=
  let '(seen, i, out) := acc in
  _ ← check_sidecar_name name ("sidecars[" +:+ Itoa i +:+ "]") seen sc;
  let field := "sidecars." +:+ sc.(sc_Name) in
  _ ← check_sidecar_container field sc;
  sc' ← normalize_sidecar_budget field sc;
  _ ← validateSidecarMounts field s sc'.(sc_Mounts);
  Ok ({[ sc.(sc_Name) ]} ∪ seen, i + 1, out ++ [sc']).

Definition normalizeSidecars (name : string) (s : Service) : result Service :=
  if lenl s.(svc_Sidecars) =? 0 then Ok s
  else
    _ ← fail_when (non_nil s.(svc_Actions) || non_nil s.(svc_Serverless) || non_nil s.(svc_Session) ||
                   non_nil s.(svc_Job))
          (Errorf "sidecars are available only for regular services, not Managed Actions, serverless, session or job services" []);
    _ ← fail_when (MaxSidecars <? lenl s.(svc_Sidecars))
          (Errorf "sidecars: at most %d per service" [AInt MaxSidecars]);
    '(_, _, sidecars) ← foldM (normalize_sidecar name s) (∅, 0, []) s.(svc_Sidecars);
    Ok (set_svc_Sidecars sidecars s).
End sidecars.
