(* ===== verification/SpecOrder.v ===== *)
(** The dependency order of an application (Order, spec.go): a depth-first
    traversal with three colours, proved to give a topological order or to name
    a service on a cycle. *)
From S2P Require Import Prelude GoStd SpecTypes SpecServices.
#[global] Open Scope Z_scope.

(** * The traversal *)

(** [app.Services[name].DependsOn], nil for a missing service. *)
Definition depends_on (app : Application) (name : string) : list string :=
  match app_services app !! name with Some s => s.(svc_DependsOn) | None => [] end.

(** [state] (1 while a name is open, 2 when it is done) and [order]. *)
Definition order_state : Type := gmap string Z * list string.

Definition cycle_error (name : string) : error :=
  Errorf "services.%s.depends_on: readiness dependency cycle detected" [AStr name].

(** Never returned with the fuel of [Order]: [Order_fuel]. *)
Definition out_of_fuel : error := Errorf "out of fuel" [].

Fixpoint order_visit (deps : string → list string) (fuel : nat) (name : string) (st : order_state)
    : result order_state :=
  match fuel with
  | O => Err out_of_fuel
  | S fuel =>
      let '(state, order) := st in
      if bool_decide (state !! name = Some 1) then Err (cycle_error name)
      else if bool_decide (state !! name = Some 2) then Ok st
      else
        '(state, order) ← foldM (λ st dependency, order_visit deps fuel dependency st)
                            (<[ name := 1 ]> state, order) (deps name);
        Ok (<[ name := 2 ]> state, order ++ [name])
  end.

(** Open names are distinct and all but the last are services, so the depth is
    at most the number of services plus two. *)
Definition order_fuel (app : Application) : nat := 2 + size (app_services app).

Definition Order (app : Application) : result (list string) :=
  '(_, order) ← foldM (λ st name, order_visit (depends_on app) (order_fuel app) name st) (∅, []) (Names app);
  Ok order.

(** * Correctness *)

Section order.
Context (deps : string → list string).

(** One dependency step, and paths of at least one step. *)
Definition dep (a b : string) : Prop := b ∈ deps a.
Definition cyclic (n : string) : Prop := tc dep n n.

(** [order] is closed under dependencies that come first. *)
Definition topological (order : list string) : Prop :=
  ∀ (pre post : list string) n, order = pre ++ n :: post → ∀ d, d ∈ deps n → d ∈ pre.

(** The colours and the order agree, and the open names form a path. *)
Record well_coloured (open : list string) (st : order_state) : Prop := {
  wc_open : ∀ n, st.1 !! n = Some 1 ↔ n ∈ open;
  wc_done : ∀ n, st.1 !! n = Some 2 ↔ n ∈ st.2;
  wc_NoDup : NoDup st.2;
  wc_topological : topological st.2;
}.

Lemma topological_nil : topological [].
Proof. intros pre post n Heq. by destruct pre. Qed.

Lemma topological_snoc order n :
  topological order → (∀ d, d ∈ deps n → d ∈ order) → topological (order ++ [n]).
Proof.
  intros Ht Hn pre post m Heq d Hd.
  destruct post as [|x post _] using rev_ind.
  - apply app_inj_tail in Heq as [<- <-]. auto.
  - rewrite app_comm_cons, app_assoc in Heq. apply app_inj_tail in Heq as [-> ->]. eauto.
Qed.

Lemma well_coloured_open open state order name :
  state !! name ≠ Some 1 → state !! name ≠ Some 2 → well_coloured open (state, order) →
  well_coloured (name :: open) (<[name := 1]> state, order).
Proof.
  intros H1 H2 [Ho Hd Hnd Ht]; simpl in *. split; simpl; [| |done..].
  - intros n. rewrite elem_of_cons. destruct (decide (n = name)) as [->|Hn].
    + rewrite lookup_insert_eq. naive_solver.
    + rewrite lookup_insert_ne by done. rewrite Ho. naive_solver.
  - intros n. destruct (decide (n = name)) as [->|Hn].
    + rewrite lookup_insert_eq, <-Hd. naive_solver.
    + by rewrite lookup_insert_ne.
Qed.

Lemma well_coloured_close open state order name :
  name ∉ open → (∀ d, d ∈ deps name → d ∈ order) → well_coloured (name :: open) (state, order) →
  well_coloured open (<[name := 2]> state, order ++ [name]).
Proof.
  intros Hfresh Hdeps [Ho Hd Hnd Ht]; simpl in *.
  assert (name ∉ order) as Hnew.
  { intros Hin. apply Hd in Hin. pose proof (proj2 (Ho name) ltac:(by left)). congruence. }
  split; simpl; [| |by apply NoDup_snoc|by apply topological_snoc].
  - intros n. destruct (decide (n = name)) as [->|Hn].
    + rewrite lookup_insert_eq. naive_solver.
    + rewrite lookup_insert_ne by done. rewrite Ho, elem_of_cons. naive_solver.
  - intros n. rewrite elem_of_app, list_elem_of_singleton. destruct (decide (n = name)) as [->|Hn].
    + rewrite lookup_insert_eq. naive_solver.
    + rewrite lookup_insert_ne by done. rewrite Hd. naive_solver.
Qed.

(** What a visit of [name] below the open names [open] guarantees. *)
Definition visit_post (open : list string) (name : string) (st st' : order_state) : Prop :=
  well_coloured open st' ∧ name ∈ st'.2 ∧ st.2 ⊆ st'.2.

Lemma order_visit_Ok fuel : ∀ open name st st',
  well_coloured open st → order_visit deps fuel name st = Ok st' → visit_post open name st st'.
Proof.
  induction fuel as [|fuel IH]; intros open name [state order] st' Hwc; [done|]. simpl.
  case_bool_decide as H1; [done|]. case_bool_decide as H2.
  { intros [= <-]. split_and!; [done|by apply Hwc|done]. }
  rewrite bind_Ok. intros ([state' order'] & Hloop & [= <-]).
  assert (name ∉ open) as Hfresh by (intros Hin; by apply Hwc in Hin).
  pose proof (well_coloured_open _ _ _ _ H1 H2 Hwc) as Hwc1.
  assert (∀ ds st0, well_coloured (name :: open) st0 →
     foldM (λ st d, order_visit deps fuel d st) st0 ds = Ok (state', order') →
     well_coloured (name :: open) (state', order') ∧ st0.2 ⊆ order' ∧ ∀ d, d ∈ ds → d ∈ order') as Hinv.
  { clear Hloop Hwc1. induction ds as [|d ds IHds]; intros st0 Hst0; simpl.
    - intros [= ->]. split_and!; [done|done|]. intros d []%not_elem_of_nil.
    - rewrite bind_Ok. intros (st1 & Hv & Hl).
      destruct (IH _ _ _ _ Hst0 Hv) as (Hst1 & Hd & Hsub).
      destruct (IHds _ Hst1 Hl) as (Hw & Hsub' & Hall).
      split_and!; [done|by etrans|]. intros x [->|Hx]%elem_of_cons; [by apply Hsub'|by apply Hall]. }
  destruct (Hinv _ _ Hwc1 Hloop) as (Hw & Hsub & Hall). simpl in *.
  split_and!; simpl.
  - by apply well_coloured_close.
  - apply elem_of_app. right. by apply list_elem_of_singleton.
  - intros x Hx. apply elem_of_app. left. by apply Hsub.
Qed.

(** The open names form a path to the visited one. *)
Definition open_path (open : list string) (name : string) : Prop :=
  ∀ n, n ∈ open → tc dep n name.

Lemma open_path_step open name d :
  open_path open name → d ∈ deps name → open_path (name :: open) d.
Proof.
  intros Hp Hd n [->|Hn]%elem_of_cons; [by apply tc_once|].
  eapply tc_r; [by apply Hp|done].
Qed.

(** A failing visit names a service on a cycle, or the fuel ran out. *)
Lemma order_visit_Err fuel : ∀ open name st e,
  well_coloured open st → open_path open name → order_visit deps fuel name st = Err e →
  e = out_of_fuel ∨ ∃ n, e = cycle_error n ∧ cyclic n.
Proof.
  induction fuel as [|fuel IH]; intros open name [state order] e Hwc Hp; simpl.
  { intros [= <-]. by left. }
  case_bool_decide as H1.
  { intros [= <-]. right. exists name. split; [done|]. apply Hp. by apply Hwc. }
  case_bool_decide as H2; [done|].
  pose proof (well_coloured_open _ _ _ _ H1 H2 Hwc) as Hwc1.
  assert (∀ ds st0, (∀ d, d ∈ ds → d ∈ deps name) → well_coloured (name :: open) st0 →
     foldM (λ st d, order_visit deps fuel d st) st0 ds = Err e →
     e = out_of_fuel ∨ ∃ n, e = cycle_error n ∧ cyclic n) as Hloop.
  { induction ds as [|d ds IHds]; intros st0 Hds Hst0; simpl; [done|].
    destruct (order_visit deps fuel d st0) as [st1|e1] eqn:Hv; simpl.
    - apply IHds; [set_solver|]. by eapply order_visit_Ok in Hv as (? & _).
    - intros [= ->]. eapply IH; [exact Hst0| |exact Hv].
      apply open_path_step; [done|]. set_solver. }
  destruct (foldM _ _ (deps name)) as [[state' order']|e'] eqn:Hf; simpl; [done|].
  intros [= ->]. by eapply Hloop.
Qed.

(** Everything ordered satisfies a property the roots have and the
    dependencies keep. *)
Lemma order_visit_forall (P : string → Prop) fuel : (∀ a b, P a → b ∈ deps a → P b) →
  ∀ name st st', P name → (∀ x, x ∈ st.2 → P x) →
  order_visit deps fuel name st = Ok st' → ∀ x, x ∈ st'.2 → P x.
Proof.
  intros Hstep. induction fuel as [|fuel IH]; intros name [state order] st' Hn Hst; [done|]. simpl.
  case_bool_decide; [done|]. case_bool_decide; [by intros [= <-]|].
  rewrite bind_Ok. intros ([state' order'] & Hloop & [= <-]) x; simpl.
  assert (∀ ds st0, (∀ d, d ∈ ds → P d) → (∀ x, x ∈ st0.2 → P x) →
     foldM (λ st d, order_visit deps fuel d st) st0 ds = Ok (state', order') →
     ∀ x, x ∈ order' → P x) as Hinv.
  { clear Hloop x. induction ds as [|d ds IHds]; intros st0 Hds Hst0; simpl; [by intros [= ->]|].
    rewrite bind_Ok. intros (st1 & Hv & Hl). apply (IHds st1); [| |done].
    - intros y Hy. apply Hds. by right.
    - apply (IH d st0); [|done..]. apply Hds. by left. }
  intros [Hx| ->%list_elem_of_singleton]%elem_of_app; [|done].
  eapply Hinv; [| |exact Hloop|exact Hx]; [|done]. intros d Hd. by eapply Hstep.
Qed.

(** A visit never runs out of fuel: only [nodes] have dependencies, and the
    open names are distinct nodes. *)
Lemma order_visit_fuel (nodes : list string) fuel : (∀ n d, d ∈ deps n → n ∈ nodes) →
  ∀ open name st, well_coloured open st → NoDup open → open ⊆ nodes →
  (length nodes + 2 ≤ fuel + length open)%nat → order_visit deps fuel name st ≠ Err out_of_fuel.
Proof.
  intros Hnodes. induction fuel as [|fuel IH]; intros open name [state order] Hwc Hnd Hsub Hlen.
  { pose proof (submseteq_length _ _ (NoDup_submseteq _ _ Hnd Hsub)). lia. }
  simpl. case_bool_decide as H1; [done|]. case_bool_decide as H2; [done|].
  pose proof (well_coloured_open _ _ _ _ H1 H2 Hwc) as Hwc1.
  assert (name ∉ open) as Hfresh by (intros Hin; by apply Hwc in Hin).
  assert (∀ ds st0, (∀ d, d ∈ ds → d ∈ deps name) → well_coloured (name :: open) st0 →
     foldM (λ st d, order_visit deps fuel d st) st0 ds ≠ Err out_of_fuel) as Hloop.
  { induction ds as [|d ds IHds]; intros st0 Hds Hst0; simpl; [done|].
    destruct (order_visit deps fuel d st0) as [st1|e] eqn:Hv; simpl.
    - apply IHds; [intros y Hy; apply Hds; by right|]. by eapply order_visit_Ok in Hv as (? & _).
    - intros [= ->]. revert Hv. apply (IH (name :: open)); [done|by constructor| |simpl; lia].
      intros x [->|Hx]%elem_of_cons; [|by apply Hsub]. apply (Hnodes _ d), Hds. by left. }
  specialize (Hloop (deps name) _ (λ d Hd, Hd) Hwc1).
  destruct (foldM _ _ (deps name)) as [[state' order']|e'] eqn:Hf; simpl; [done|congruence].
Qed.

(** A topological order has no cycle through its members. *)
Lemma topological_before order n m :
  topological order → tc dep n m → ∀ pre post, order = pre ++ n :: post → m ∈ pre.
Proof.
  intros Ht. induction 1 as [n d Hd|n d m Hd _ IH]; intros pre post Heq; [by eapply Ht|].
  assert (d ∈ pre) as Hin by by eapply Ht.
  apply list_elem_of_split in Hin as (p1 & p2 & ->).
  rewrite <-app_assoc in Heq. simpl in Heq. apply elem_of_app. left. by eapply IH.
Qed.

Lemma topological_acyclic order n : NoDup order → topological order → n ∈ order → ¬ cyclic n.
Proof.
  intros Hnd Ht (pre & post & ->)%list_elem_of_split Hc.
  pose proof (topological_before _ _ _ Ht Hc _ _ eq_refl) as Hin.
  apply NoDup_app in Hnd as (_ & Hdisj & _). apply (Hdisj _ Hin). by left.
Qed.

Lemma well_coloured_empty : well_coloured [] (∅, []).
Proof.
  split; simpl; [| |constructor|apply topological_nil]; intros n; rewrite lookup_empty;
    split; [done|intros []%not_elem_of_nil|done|intros []%not_elem_of_nil].
Qed.

(** The outer loop over the roots. *)
Lemma order_loop fuel roots : ∀ st, well_coloured [] st →
  match foldM (λ st name, order_visit deps fuel name st) st roots with
  | Ok st' => well_coloured [] st' ∧ st.2 ⊆ st'.2 ∧ ∀ n, n ∈ roots → n ∈ st'.2
  | Err e => e = out_of_fuel ∨ ∃ n, e = cycle_error n ∧ cyclic n
  end.
Proof.
  induction roots as [|r roots IH]; intros st Hst; simpl.
  { split_and!; [done|done|]. intros n []%not_elem_of_nil. }
  destruct (order_visit deps fuel r st) as [st1|e] eqn:Hv; simpl.
  - eapply order_visit_Ok in Hv as (Hst1 & Hr & Hsub); [|exact Hst]. specialize (IH st1 Hst1).
    destruct (foldM _ st1 roots) as [st2|e]; [|done]. destruct IH as (Hw & Hsub' & Hall).
    split_and!; [done|by etrans|]. intros n [->|Hn]%elem_of_cons; [by apply Hsub'|by apply Hall].
  - eapply order_visit_Err; [exact Hst| |exact Hv]. intros n []%not_elem_of_nil.
Qed.

Lemma order_loop_fuel (nodes : list string) fuel : (∀ n d, d ∈ deps n → n ∈ nodes) →
  (length nodes + 2 ≤ fuel)%nat → ∀ roots st, well_coloured [] st →
  foldM (λ st name, order_visit deps fuel name st) st roots ≠ Err out_of_fuel.
Proof.
  intros Hnodes Hfuel. induction roots as [|r roots IH]; intros st Hst; simpl; [done|].
  destruct (order_visit deps fuel r st) as [st1|e] eqn:Hv; simpl.
  - apply IH. by eapply order_visit_Ok in Hv as (? & _).
  - intros [= ->]. revert Hv. apply (order_visit_fuel nodes fuel Hnodes []);
      [done|constructor|intros ? []%not_elem_of_nil|simpl; lia].
Qed.

Lemma order_loop_forall (P : string → Prop) fuel : (∀ a b, P a → b ∈ deps a → P b) →
  ∀ roots st st', (∀ r, r ∈ roots → P r) → (∀ x, x ∈ st.2 → P x) →
  foldM (λ st name, order_visit deps fuel name st) st roots = Ok st' → ∀ x, x ∈ st'.2 → P x.
Proof.
  intros Hstep. induction roots as [|r roots IH]; intros st st' Hr Hst; simpl; [by intros [= <-]|].
  rewrite bind_Ok. intros (st1 & Hv & Hl). apply (IH st1); [| |done].
  - intros x Hx. apply Hr. by right.
  - eapply order_visit_forall; [exact Hstep| |exact Hst|exact Hv]. apply Hr. by left.
Qed.
End order.

Lemma depends_on_service app n d : d ∈ depends_on app n → n ∈ Names app.
Proof.
  rewrite elem_of_Names. unfold depends_on. destruct (app_services app !! n); [done|].
  intros []%not_elem_of_nil.
Qed.

(** Every dependency of a service is a service. *)
Definition dependencies_declared (app : Application) : Prop :=
  ∀ n d, d ∈ depends_on app n → d ∈ Names app.

(** The two outcomes of [Order] and what each establishes. *)
Lemma Order_outcome app :
  match Order app with
  | Ok order => NoDup order ∧ topological (depends_on app) order ∧ (∀ n, n ∈ Names app → n ∈ order)
  | Err e => ∃ n, e = cycle_error n ∧ cyclic (depends_on app) n
  end.
Proof.
  unfold Order.
  pose proof (order_loop (depends_on app) (order_fuel app) (Names app) _ (well_coloured_empty _)) as Hl.
  pose proof (order_loop_fuel (depends_on app) (Names app) (order_fuel app) (depends_on_service app)
    ltac:(rewrite length_Names; unfold order_fuel; lia) (Names app) _ (well_coloured_empty _)) as Hf.
  destruct (foldM _ _ _) as [[state order]|e]; simpl in *.
  - destruct Hl as ([_ _ Hnd Ht] & _ & Hall). done.
  - destruct Hl as [->|Hc]; [done|exact Hc].
Qed.

Lemma Order_acyclic app order : Order app = Ok order → ∀ n, ¬ cyclic (depends_on app) n.
Proof.
  intros Ho n Hc. pose proof (Order_outcome app) as Hout. rewrite Ho in Hout. destruct Hout as (Hnd & Ht & Hall).
  assert (n ∈ Names app) as Hn.
  { inversion Hc as [? ? Hd|? ? ? Hd]; subst; by eapply depends_on_service. }
  by eapply topological_acyclic; [..|apply Hall|].
Qed.

Lemma Order_elements app order : dependencies_declared app →
  Order app = Ok order → order ≡ₚ Names app.
Proof.
  intros Hdecl Ho. pose proof (Order_outcome app) as Hout. rewrite Ho in Hout.
  destruct Hout as (Hnd & _ & Hall).
  apply NoDup_Permutation; [done|apply NoDup_Names|]. intros x. split; [|apply Hall].
  unfold Order in Ho. rewrite bind_Ok in Ho. destruct Ho as ([state o] & Hl & Heq).
  apply Ok_inj_1 in Heq as <-.
  refine (order_loop_forall (depends_on app) (λ x, x ∈ Names app) _ _ _ (∅, []) (state, o) _ _ Hl x).
  - intros a b _ Hb. by eapply Hdecl.
  - done.
  - intros y []%not_elem_of_nil.
Qed.

(** * Properties *)

(** C39: The traversal terminates within its fuel and decides the dependency
    relation: it returns an order exactly when there is no cycle, and the only
    error it returns names a service that lies on one. *)
Theorem Order_decides app :
  (is_ok (Order app) = true ↔ ∀ n, ¬ cyclic (depends_on app) n) ∧
  ∀ e, Order app = Err e → ∃ n, e = cycle_error n ∧ cyclic (depends_on app) n.
Proof.
  pose proof (Order_outcome app) as Hout. split.
  - destruct (Order app) as [order|e] eqn:Ho; simpl; split; [|done|done|].
    + intros _. by eapply Order_acyclic.
    + intros Hno. destruct Hout as (n & _ & Hc). by destruct (Hno n).
  - intros e He. by rewrite He in Hout.
Qed.

(** C38: Whatever [Order] returns for an application whose dependencies are all
    declared is a permutation of its services in which every service comes after
    everything it depends on. *)
Theorem Order_topological app order :
  dependencies_declared app → Order app = Ok order →
  order ≡ₚ Names app ∧
  ∀ pre post n, order = pre ++ n :: post → ∀ d, d ∈ depends_on app n → d ∈ pre.
Proof.
  intros Hdecl Ho. split; [by apply Order_elements|].
  pose proof (Order_outcome app) as Hout. rewrite Ho in Hout. apply Hout.
Qed.

(** A web service that waits for its database. *)
Module OrderExample.
Definition app : Application :=
  set_app_Services (Some {["api" := set_svc_DependsOn ["db"] zero_Service; "db" := zero_Service]}) zero_Application.

Lemma declared : dependencies_declared app.
Proof.
  intros n d Hd. assert (d = "db" ∧ n = "api") as [-> _]; [|apply list_elem_of_In; vm_compute; tauto].
  destruct (decide (n = "api")) as [->|Ha].
  - split; [|done]. by apply list_elem_of_singleton.
  - exfalso. unfold depends_on, app_services, app in Hd. simpl in Hd. rewrite lookup_insert_ne in Hd by done.
    destruct (decide (n = "db")) as [->|Hb]; [rewrite lookup_singleton_eq in Hd|rewrite lookup_singleton_ne in Hd by done];
      simpl in Hd; by apply not_elem_of_nil in Hd.
Qed.
End OrderExample.

Lemma Order_topological_witness : "db" ∈ ["db"].
Proof.
  refine (proj2 (Order_topological OrderExample.app ["db"; "api"] OrderExample.declared _) ["db"] [] "api" _ "db" _).
  - vm_compute. reflexivity.
  - reflexivity.
  - vm_compute. left.
Defined.
