(* ===== verification/SpecNormalize.v ===== *)
(** Normalize (spec.go): the validator that every stored revision passed, as
    the composition of the component validators, and the invariants of its
    result. *)
From S2P Require Import Prelude GoStd Regex SpecTypes Platform SpecChecks SpecServices SpecEnvironment SpecResources SpecStorage SpecNetwork SpecWorkloads Provider SpecActions SpecBindings SpecSidecars SpecOrder.
#[global] Open Scope Z_scope.

Definition MaxBytes : Z := 256 * 1024.

(** [fmt.Errorf("%s: %w", field, err)] *)
Definition at_field {A} (field : string) (r : result A) : result A :=
  wrap (λ err, Errorf "%s: %w" [AStr field; AErr err]) r.
Definition in_field {A} (field : string) (r : result A) : result A :=
  wrap (λ err, Errorf "%s.%w" [AStr field; AErr err]) r.

Section normalize.
Context `{Host} `{ThirdParty} `{Quantity} `{RangeOrder}.

(** * The application's own fields *)

Definition has_actions (s : Service) : bool := non_nil s.(svc_Actions).

(** The nested loops over the services: a pool forbids services without one. *)
Definition mixed_pools (services : gmap string Service) : bool :=
  existsb (λ kv : string * Service, has_actions kv.2) (map_to_list services) &&
  existsb (λ kv : string * Service, negb (has_actions kv.2)) (map_to_list services).

(** Clone, recovery policy, schema version, name and service table. *)
Definition normalize_identity (input : Application) : result Application :=
  _ ← fail_when (MaxBytes <? encoded_size input)
        (Errorf "application specification exceeds %d bytes" [AInt MaxBytes]);
  let app := input in
  _ ← fail_when (match app.(app_Recovery) with
                 | Some r => negb (r.(rp_OnFailure) =? "safe")%string && negb (r.(rp_OnFailure) =? "disabled")%string
                 | None => false
                 end)
        (Errorf "recovery.on_failure: choose safe or disabled" []);
  let app := if app.(app_SchemaVersion) =? 0 then set_app_SchemaVersion 1 app else app in
  _ ← fail_when (negb (app.(app_SchemaVersion) =? 1))
        (Errorf "schema_version: unsupported version %d (supported: 1)" [AInt app.(app_SchemaVersion)]);
  _ ← fail_when (negb (full_match namePattern app.(app_Name)))
        (Errorf "name: use 1–40 lowercase letters, digits or hyphens, beginning with a letter and ending with a letter or digit" []);
  _ ← fail_when (negb (non_nil app.(app_Services)) || (20 <? lenm (app_services app)))
        (Errorf "services: provide an explicit services table with at most 20 services" []);
  _ ← fail_when (mixed_pools (app_services app))
        (Errorf "Managed Actions pools need a dedicated application; keep ordinary services in another application" []);
  Ok app.

Definition check_network (entry : string * Network) : result unit :=
  let '(name, network) := entry in
  _ ← fail_when (negb (full_match namePattern name))
        (Errorf "networks.%s: invalid network name" [AStr name]);
  fail_when (negb (Bool.eqb (is_empty network.(net_VirtualNetwork)) (is_empty network.(net_Segment))) ||
             (negb (is_empty network.(net_VirtualNetwork)) &&
              (negb (full_match namePattern network.(net_VirtualNetwork)) ||
               negb (full_match namePattern network.(net_Segment)))))
    (Errorf "networks.%s: virtual_network and segment must both name a configured shared network" [AStr name]).

Definition normalize_networks (app : Application) : result Application :=
  _ ← fail_when (16 <? lenm app.(app_Networks)) (Errorf "networks: at most 16 networks are supported" []);
  let app := if has_key app.(app_Networks) "default" then app
             else set_app_Networks (<["default" := zero_Network]> app.(app_Networks)) app in
  _ ← fail_when (16 <? lenm app.(app_Networks))
        (Errorf "networks: at most 16 networks including default are supported" []);
  _ ← iterM check_network (range app.(app_Networks));
  Ok app.

Definition check_application_environment (app : Application) : result unit :=
  _ ← fail_when (32 <? lenm app.(app_Secrets))
        (Errorf "secrets: at most 32 application secret references" []);
  _ ← check_secret_keys (Errorf "secrets: invalid environment name or reference" [])
        (λ key, Errorf "env.%s: cannot also be an application secret reference" [AStr key])
        app.(app_Env) app.(app_Secrets);
  validateEnvironment "env" app.(app_Env).

(** * One service *)

(** The checks before the image: identities and profiles see the effective
    service. *)
Definition check_references (field : string) (svc runtimeService : Service) : result unit :=
  _ ← at_field field (validateCertificateMounts svc);
  _ ← at_field field (validateAWSIdentity runtimeService);
  _ ← at_field field (validateContainerDaemon runtimeService);
  _ ← at_field field (validateRuntimeProfile runtimeService);
  _ ← at_field field (validateNodeProfile runtimeService);
  at_field field (validateRuntimeService svc).

Definition check_listener (field name : string) (svc : Service) : result unit :=
  _ ← fail_when (negb (full_match namePattern name)) (Errorf "%s: invalid service name" [AStr field]);
  _ ← wrap (λ err, Errorf "%s.image: %w" [AStr field; AErr err]) (validateImage svc.(svc_Image));
  _ ← fail_when (outside 0 65535 svc.(svc_Port))
        (Errorf "%s.port: must be 1–65535, or omitted for a worker" [AStr field]);
  fail_when (svc.(svc_Public) && (svc.(svc_Port) =? 0))
    (Errorf "%s.public: a public HTTP service requires port" [AStr field]).

(** Size, resources and replicas. *)
Definition normalize_size (field : string) (svc : Service) : result Service :=
  let svc := if is_empty svc.(svc_Size) then set_svc_Size "small" svc else svc in
  _ ← fail_when (negb (has_key Profiles svc.(svc_Size)))
        (Errorf "%s.size: choose small, medium, large, compute or gpu" [AStr field]);
  svc ← in_field field (normalizeResources svc);
  _ ← fail_when (svc.(svc_Suspended) &&
                 match svc.(svc_Job) with
                 | Some j => negb (non_nil j.(job_Schedule)) && negb (non_nil j.(job_Invocation))
                 | None => false
                 end)
        (Errorf "%s: deployment jobs cannot be stopped or resumed" [AStr field]);
  let svc := set_svc_Replicas (or_default 1 svc.(svc_Replicas)) svc in
  _ ← fail_when (outside 1 20 svc.(svc_Replicas))
        (Errorf "%s.replicas: must be between 1 and 20" [AStr field]);
  Ok svc.

Definition bad_healthcheck (svc : Service) : bool :=
  (svc.(svc_Port) =? 0) || (2048 <? len svc.(svc_Healthcheck)) ||
  negb (HasPrefix svc.(svc_Healthcheck) "/") || HasPrefix svc.(svc_Healthcheck) "//" ||
  match url_ParseRequestURI svc.(svc_Healthcheck) with
  | Some path => negb (is_empty path.(u_Host)) || negb (is_empty path.(u_Fragment))
  | None => true
  end.

Definition check_rollout (field : string) (svc : Service) : result unit :=
  _ ← fail_when (negb (is_empty svc.(svc_Healthcheck)) && bad_healthcheck svc)
        (Errorf "%s.healthcheck: use an HTTP path on a service with a port, such as /readyz" [AStr field]);
  _ ← fail_when (negb (svc.(svc_StartupTimeoutSeconds) =? 0) && outside 10 900 svc.(svc_StartupTimeoutSeconds))
        (Errorf "%s.startup_timeout_seconds: must be between 10 and 900" [AStr field]);
  _ ← fail_when (negb (svc.(svc_StartupTimeoutSeconds) =? 0) && special_mode svc)
        (Errorf "%s.startup_timeout_seconds: use only for a regular service" [AStr field]);
  fail_when (negb (is_empty svc.(svc_UpdateStrategy)) && negb (one_of svc.(svc_UpdateStrategy) ["rolling"; "recreate"]))
    (Errorf "%s.update_strategy: choose rolling or recreate" [AStr field]).

Definition check_service_environment (field : string) (svc runtimeService : Service) : result unit :=
  _ ← validateEnvironment (field +:+ ".env") runtimeService.(svc_Env);
  _ ← fail_when (32 <? lenm runtimeService.(svc_Secrets))
        (Errorf "%s.secrets: at most 32 references" [AStr field]);
  _ ← check_secret_keys
        (Errorf "%s.secrets: invalid environment name or secret reference" [AStr field])
        (λ _, Errorf "%s: an environment variable cannot also be a secret reference" [AStr field])
        svc.(svc_Env) svc.(svc_Secrets);
  wrap (λ err, Errorf "%s: %s" [AStr field; AErr err]) (ValidateCommand svc.(svc_Command) svc.(svc_Args)).

(** What [depends_on] may name. *)
Definition dependency_ok (app : Application) (name n : string) : bool :=
  match app_services app !! n with
  | Some dependency =>
      negb (n =? name)%string && negb (non_nil dependency.(svc_Session)) &&
      match dependency.(svc_Job) with
      | Some j => negb (non_nil j.(job_Schedule)) && negb (non_nil j.(job_Invocation))
      | None => true
      end
  | None => false
  end.

(** Networks, dependencies and private egress, each sorted. *)
Definition normalize_members (app : Application) (field name : string) (svc : Service) : result Service :=
  networks ← (if non_nil svc.(svc_Session) then Ok None
              else match svc.(svc_Networks) with
                   | None => Ok (Some ["default"])
                   | Some [] => Err (Errorf "%s.networks: an explicit empty list is unsupported; omit networks for default membership" [AStr field])
                   | Some l => Ok (Some l)
                   end);
  _ ← validateMembers (default [] networks) (field +:+ ".networks") (has_key app.(app_Networks));
  _ ← validateMembers svc.(svc_DependsOn) (field +:+ ".depends_on") (dependency_ok app name);
  _ ← fail_when (16 <? lenl svc.(svc_PrivateEgress))
        (Errorf "%s.private_egress: at most 16 approved destinations" [AStr field]);
  _ ← validateMembers svc.(svc_PrivateEgress) (field +:+ ".private_egress") (full_match namePattern);
  Ok (set_svc_DependsOn (sort_strings svc.(svc_DependsOn))
       (set_svc_PrivateEgress (sort_strings svc.(svc_PrivateEgress))
         (set_svc_Networks (sort_strings <$> networks) svc))).

Definition normalize_autoscaling (field : string) (svc : Service) : result Service :=
  match svc.(svc_Autoscaling) with
  | None => Ok svc
  | Some a =>
      let a := set_as_TargetCPU (or_default 70 a.(as_TargetCPU))
                 (set_as_MinReplicas (or_default 1 a.(as_MinReplicas)) a) in
      _ ← fail_when ((a.(as_MinReplicas) <? 1) || outside a.(as_MinReplicas) 20 a.(as_MaxReplicas) ||
                     outside 10 95 a.(as_TargetCPU))
            (Errorf "%s.autoscaling: require 1 <= min_replicas <= max_replicas <= 20 and target_cpu between 10 and 95" [AStr field]);
      Ok (set_svc_Replicas a.(as_MinReplicas) (set_svc_Autoscaling (Some a) svc))
  end.

(** The modes and storage of the service, after its members. *)
Definition normalize_modes (field name : string) (svc : Service) : result Service :=
  svc ← normalize_autoscaling field svc;
  svc ← at_field field (normalizeServerless svc);
  _ ← at_field field (validateWorkload svc);
  svc ← at_field field (normalizeSidecars name svc);
  svc ← at_field field (normalizeJobAndFiles svc);
  in_field field (normalizeKubernetes svc).

(** The body of the first loop over the services. *)
Definition normalize_service (app : Application) (name : string) (svc : Service) : result Service :=
  let field := "services." +:+ name in
  svc ← at_field field (normalizeSandboxSession app svc);
  svc ← at_field field (normalizeActions svc);
  let runtimeService := EffectiveService app svc in
  _ ← check_references field svc runtimeService;
  _ ← check_listener field name svc;
  svc ← normalize_size field svc;
  _ ← check_rollout field svc;
  _ ← check_service_environment field svc runtimeService;
  svc ← normalize_members app field name svc;
  normalize_modes field name svc.

Definition normalize_services (app : Application) : result Application :=
  each_service normalize_service app.

(** The second loop, over [normalizeReadiness]. *)
Definition normalize_readiness (app : Application) : result Application :=
  each_service (λ _ name svc,
    wrap (λ err, Errorf "services.%s: %w" [AStr name; AErr err]) (normalizeReadiness svc)) app.

Definition Normalize (input : Application) : result Application :=
  app ← normalize_identity input;
  _ ← ValidateDomains app;
  app ← normalize_networks app;
  _ ← check_application_environment app;
  app ← normalize_services app;
  app ← validateNamedStorage app;
  _ ← validateBindings app;
  app ← validateNetworkAccess app;
  _ ← validateHTTPEndpoints app;
  app ← normalize_readiness app;
  app ← validatePublicTCP app;
  _ ← Order app;
  Ok app.
End normalize.

(** * An application *)

(** A shop: a public web service with a named admin endpoint, a database it
    depends on, that admits it alone and keeps its data in a named volume. *)
Module Shop.
Import Concrete.

Definition web : Service :=
  set_svc_DependsOn ["db"] (set_svc_HTTP {["admin" := mkHTTPEndpoint 9000 EmptyString]}
    (set_svc_Ports [mkPort "admin" 9000 0 EmptyString] (set_svc_Public true (set_svc_Port 8080
      (set_svc_Resources (Some (mkResources "250m" EmptyString EmptyString EmptyString))
        (set_svc_Env {["MODE" := "shop"]} (set_svc_Image "nginx:1" zero_Service))))))).
Definition db : Service :=
  set_svc_NetworkAccess (Some (mkNetworkAccess (Some ["web"]) []))
    (set_svc_Mounts [mkMount "data" "/data" false EmptyString]
      (set_svc_Ports [mkPort "sql" 5432 0 "tcp"] (set_svc_Image "pg:1" zero_Service))).
Definition app : Application :=
  set_app_Env {["REGION" := "eu"]} (set_app_InjectEnv true
    (set_app_Volumes {["data" := mkNamedVolume 10 EmptyString EmptyString]}
      (set_app_Services (Some {["web" := web; "db" := db]}) (set_app_Name "shop" zero_Application)))).
Definition stored : Application := match Normalize app with Ok a => a | Err _ => app end.

Lemma stored_ok : Normalize app = Ok stored.
Proof. vm_compute. reflexivity. Qed.
End Shop.
