(* ===== verification/WellFormed.v ===== *)
(** The invariants of what [Normalize] returns. Each pass changes a known set of
    fields; the facts it establishes survive the passes after it, which touch
    other fields. The properties put them together for the stored revision. *)
From S2P Require Import Prelude GoStd Regex SpecTypes Platform SpecChecks SpecServices SpecEnvironment SpecResources SharedVolumes SpecStorage SpecNetwork SpecWorkloads Provider SpecActions SpecBindings SpecSidecars SpecOrder SpecNormalize.
#[global] Open Scope Z_scope.

(** * Fields a pass leaves alone *)

(** The service with every field [Normalize] may assign erased: two services
    with the same erasure agree on all the others. A pool stays a pool. *)
Definition erase (s : Service) : Service :=
  set_svc_Session None (set_svc_Actions None (set_svc_Serverless None (set_svc_NodeName EmptyString
  (set_svc_Architecture EmptyString (set_svc_Resources None (set_svc_Job None (set_svc_Files ∅
  (set_svc_Image EmptyString (set_svc_Size EmptyString (set_svc_Replicas 0 (set_svc_Readiness None
  (set_svc_Ports [] (set_svc_NetworkAccess None (set_svc_PublicTCP [] (set_svc_DependsOn []
  (set_svc_Networks None (set_svc_PrivateEgress [] (set_svc_Autoscaling None (set_svc_Sidecars []
  (set_svc_Kubernetes None s)))))))))))))))))))).
Definition kept : relation Service := λ s s', erase s = erase s' ∧ has_actions s = has_actions s'.

(** The same for the passes after the storage pass. *)
Definition erase_late (s : Service) : Service :=
  set_svc_Ports [] (set_svc_NetworkAccess None (set_svc_Readiness None (set_svc_PublicTCP [] s))).
Definition late : relation Service := λ s s', erase_late s = erase_late s'.

(** And for those after the network rules. *)
Definition erase_probes (s : Service) : Service := set_svc_Readiness None (set_svc_PublicTCP [] s).
Definition probes : relation Service := λ s s', erase_probes s = erase_probes s'.

Lemma non_nil_iff {A B} (x : option A) (y : option B) : (x = None ↔ y = None) → non_nil x = non_nil y.
Proof. destruct x, y; simpl; [done| | |done]; intros [H1 H2]; [by specialize (H2 eq_refl)|by specialize (H1 eq_refl)]. Qed.

#[export] Instance kept_refl : Reflexive kept.
Proof. done. Qed.
#[export] Instance kept_trans : Transitive kept.
Proof. intros s t u [? ?] [? ?]. split; congruence. Qed.
#[export] Instance late_refl : Reflexive late.
Proof. done. Qed.
#[export] Instance late_trans : Transitive late.
Proof. unfold late. congruence. Qed.
#[export] Instance probes_refl : Reflexive probes.
Proof. done. Qed.
#[export] Instance probes_trans : Transitive probes.
Proof. unfold probes. congruence. Qed.

Lemma late_kept s s' : late s s' → kept s s'.
Proof.
  intros Hl. split; [|exact (f_equal has_actions Hl)].
  change (erase s) with (erase (erase_late s)). rewrite Hl. reflexivity.
Qed.
Lemma probes_late s s' : probes s s' → late s s'.
Proof.
  intros Hl. unfold late.
  change (erase_late s) with (erase_late (erase_probes s)). rewrite Hl. reflexivity.
Qed.

(** ** The frame of each pass over a service *)

(** The result is a setter applied to the input, or the input itself. *)
Ltac solve_frame :=
  repeat case_goal;
  first [reflexivity | match goal with |- ?x = _ => is_var x; destruct x; reflexivity end].

Section frames.
Context `{Host} `{ThirdParty} `{Quantity} `{RangeOrder}.

Lemma placed_kept s s' : placed s s' → kept s s'.
Proof. intros (node & arch & -> & _). split; reflexivity. Qed.

Lemma access_late s s' : access_rel s s' → late s s'.
Proof. intros [-> _]. reflexivity. Qed.

Lemma listeners_probes s s' : listeners_rel s s' → probes s s'.
Proof. unfold listeners_rel. intros ->. reflexivity. Qed.

Lemma normalizeReadiness_frame s s' :
  normalizeReadiness s = Ok s' → s' = set_svc_Readiness s'.(svc_Readiness) s.
Proof.
  unfold normalizeReadiness. destruct (svc_Readiness s) as [r|] eqn:Hr; intros Hn; inv_ok; [reflexivity|].
  by destruct s'.
Qed.

Lemma check_runner_image_frame provider s s' :
  check_runner_image provider s = Ok s' →
  s' = set_svc_Architecture s'.(svc_Architecture) (set_svc_Image s'.(svc_Image) s).
Proof.
  unfold check_runner_image. intros Hc.
  destruct (provider =? ProviderGitHub)%string; inv_ok; solve_frame.
Qed.

Definition erase_runner (s : Service) : Service :=
  set_svc_Actions None (set_svc_Architecture EmptyString (set_svc_Image EmptyString (set_svc_Size EmptyString s))).

Lemma normalizeActions_frame s s' : normalizeActions s = Ok s' →
  erase_runner s = erase_runner s' ∧ (s.(svc_Actions) = None ↔ s'.(svc_Actions) = None) ∧
  (s.(svc_Actions) = None → s' = s).
Proof.
  unfold normalizeActions. destruct (svc_Actions s) as [a|] eqn:Ha; intros Hn; inv_ok.
  - destruct a0 as [provider a']. inv_ok.
    match goal with H : check_runner_image _ _ = Ok _ |- _ => apply check_runner_image_frame in H; rename H into Hi end.
    destruct (is_empty (svc_Size a0)); (split_and!; [by rewrite Hi|by rewrite Hi|done]).
  - split_and!; done.
Qed.

Lemma normalizeServerless_frame s s' : normalizeServerless s = Ok s' →
  s' = set_svc_Serverless s'.(svc_Serverless) s.
Proof.
  unfold normalizeServerless. destruct (svc_Serverless s) as [v|] eqn:Hs; intros Hn; inv_ok; [reflexivity|].
  by destruct s'.
Qed.

Lemma normalizeSidecars_frame name s s' : normalizeSidecars name s = Ok s' →
  s' = set_svc_Sidecars s'.(svc_Sidecars) s.
Proof.
  unfold normalizeSidecars. destruct (lenl _ =? 0); intros Hn; inv_ok; [by destruct s'|].
  destruct a as [[? ?] ?]. inv_ok. reflexivity.
Qed.

Lemma normalizeKubernetes_frame s s' : normalizeKubernetes s = Ok s' →
  s' = set_svc_Kubernetes s'.(svc_Kubernetes) s.
Proof.
  unfold normalizeKubernetes. destruct (svc_Kubernetes s) as [k|]; intros Hn; [|by inv_ok; destruct s'].
  case_bool_decide; inv_ok; [reflexivity|by destruct s'].
Qed.

Lemma normalize_autoscaling_frame field s s' : normalize_autoscaling field s = Ok s' →
  s' = set_svc_Replicas s'.(svc_Replicas) (set_svc_Autoscaling s'.(svc_Autoscaling) s).
Proof.
  unfold normalize_autoscaling. destruct (svc_Autoscaling s) as [a|]; intros Hn; inv_ok; [reflexivity|].
  by destruct s'.
Qed.

Lemma normalize_size_frame field s s' : normalize_size field s = Ok s' →
  s' = set_svc_Replicas s'.(svc_Replicas) (set_svc_Resources s'.(svc_Resources) (set_svc_Size s'.(svc_Size) s)).
Proof.
  unfold normalize_size, in_field. intros Hn. inv_ok.
  match goal with H : normalizeResources _ = Ok _ |- _ => apply normalizeResources_frame in H; rewrite H; clear H end.
  destruct (is_empty _); by destruct s.
Qed.
End frames.

(** * One service *)

Section service.
Context `{Host} `{ThirdParty} `{Q : Quantity} `{!QuantityLaws Q} `{RangeOrder}.

(** What [normalize_members] establishes, in the application [app]. *)
Record members_ok (app : Application) (name : string) (s : Service) : Prop := {
  mb_networks : ∀ l, s.(svc_Networks) = Some l →
    l ≠ [] ∧ NoDup l ∧ Sorted str_le l ∧ ∀ n, n ∈ l → is_Some (app.(app_Networks) !! n);
  mb_session : s.(svc_Networks) = None ↔ is_Some s.(svc_Session);
  mb_depends : NoDup s.(svc_DependsOn) ∧ Sorted str_le s.(svc_DependsOn) ∧
    ∀ d, d ∈ s.(svc_DependsOn) → d ≠ name ∧ is_Some (app_services app !! d);
  mb_egress : NoDup s.(svc_PrivateEgress) ∧ Sorted str_le s.(svc_PrivateEgress) ∧
    lenl s.(svc_PrivateEgress) ≤ 16;
}.

Lemma sorted_members l (P : string → Prop) : NoDup l → Forall P l →
  NoDup (sort_strings l) ∧ Sorted str_le (sort_strings l) ∧ ∀ n, n ∈ sort_strings l → P n.
Proof.
  intros Hnd Hall. split_and!; [by rewrite sort_strings_perm|apply sort_strings_sorted|].
  intros n. rewrite sort_strings_perm. by apply Forall_forall.
Qed.

Lemma normalize_members_Ok app field name s s' : normalize_members app field name s = Ok s' →
  s' = set_svc_DependsOn s'.(svc_DependsOn) (set_svc_PrivateEgress s'.(svc_PrivateEgress)
         (set_svc_Networks s'.(svc_Networks) s)) ∧ members_ok app name s'.
Proof.
  unfold normalize_members. intros Hn. inv_ok. rename a into networks.
  match goal with H : (if non_nil _ then _ else _) = Ok _ |- _ => rename H into Hnets end.
  repeat match goal with H : validateMembers _ _ _ = Ok _ |- _ => apply validateMembers_Ok in H as [? ?] end.
  zify_bool. split; [reflexivity|].
  assert (∀ l, networks = Some l → l ≠ []) as Hne.
  { intros l ->. destruct (svc_Session s); simpl in Hnets; [by simplify_eq|].
    destruct (svc_Networks s) as [[|x l']|]; simplify_eq; done. }
  assert (networks = None ↔ is_Some (svc_Session s)) as Hses.
  { destruct (svc_Session s); simpl in Hnets; [by simplify_eq|].
    destruct (svc_Networks s) as [[|x l']|]; simplify_eq; split; (done || by intros []). }
  split; cbn [svc_Networks svc_DependsOn svc_PrivateEgress svc_Session set_svc_DependsOn
    set_svc_PrivateEgress set_svc_Networks].
  - intros l Hl. destruct networks as [l0|]; simpl in Hl; [|done]. injection Hl as <-. simpl in *.
    match goal with Hnd : NoDup l0, Hall : Forall _ l0 |- _ =>
      destruct (sorted_members l0 _ Hnd Hall) as (Hnd' & Hs & Hin) end.
    split_and!; [|done|done|].
    + intros Hnil. destruct l0 as [|x l0]; [by apply (Hne [])|].
      apply (not_elem_of_nil x). rewrite <-Hnil, sort_strings_perm. by left.
    + intros n Hn'. apply Hin in Hn'. unfold has_key in Hn'. by destruct (_ !! n).
  - rewrite <-Hses. by destruct networks.
  - match goal with Hnd : NoDup (svc_DependsOn s), Hall : Forall _ (svc_DependsOn s) |- _ =>
      destruct (sorted_members _ _ Hnd Hall) as (Hnd' & Hs & Hin) end.
    split_and!; [done|done|]. intros d Hd. apply Hin in Hd. unfold dependency_ok in Hd.
    destruct (app_services app !! d) as [dep|]; [|done]. split_orb.
    split; [|done]. by apply String.eqb_neq.
  - match goal with Hnd : NoDup (svc_PrivateEgress s), Hall : Forall _ (svc_PrivateEgress s) |- _ =>
      destruct (sorted_members _ _ Hnd Hall) as (Hnd' & Hs & Hin) end.
    split_and!; [done|done|]. unfold lenl in *. by rewrite (Permutation_length (sort_strings_perm _)).
Qed.

(** ** Quantities and modes *)

Lemma normalizeResources_Ok s s' : normalizeResources s = Ok s' →
  ∀ r, s'.(svc_Resources) = Some r → resources_in r ∧ request_below_limit (EffectiveResources s').
Proof.
  unfold normalizeResources. destruct (svc_Resources s) as [r0|] eqn:Hr; intros Hn; inv_ok.
  - case_bool_decide; inv_ok; [done|]. intros r [= <-].
    repeat match goal with H : normalize_quantity _ _ _ = Ok _ |- _ => apply normalize_quantity_in in H end.
    unfold check_request_limit in *. inv_ok. done.
  - intros r. congruence.
Qed.

(** The passes of [normalize_modes]: what each may have changed. *)
Lemma normalize_modes_frame field name s s' : normalize_modes field name s = Ok s' →
  ∃ s1 s2 s3 s4,
    normalize_autoscaling field s = Ok s1 ∧ normalizeServerless s1 = Ok s2 ∧ validateWorkload s2 = Ok tt ∧
    normalizeSidecars name s2 = Ok s3 ∧ normalizeJobAndFiles s3 = Ok s4 ∧ normalizeKubernetes s4 = Ok s' ∧
    s' = set_svc_Kubernetes s'.(svc_Kubernetes) (set_svc_Files s'.(svc_Files) (set_svc_Job s'.(svc_Job)
           (set_svc_Sidecars s'.(svc_Sidecars) (set_svc_Serverless s'.(svc_Serverless)
             (set_svc_Replicas s'.(svc_Replicas) (set_svc_Autoscaling s'.(svc_Autoscaling) s)))))).
Proof.
  unfold normalize_modes, at_field, in_field. intros Hn. inv_ok.
  match goal with
  | H1 : normalize_autoscaling _ s = Ok ?s1, H2 : normalizeServerless ?s1 = Ok ?s2,
    H3 : normalizeSidecars _ ?s2 = Ok ?s3, H4 : normalizeJobAndFiles ?s3 = Ok ?s4 |- _ =>
      exists s1, s2, s3, s4
  end.
  split_and!; try done.
  repeat match goal with
  | H : normalize_autoscaling _ _ = Ok _ |- _ => apply normalize_autoscaling_frame in H
  | H : normalizeServerless _ = Ok _ |- _ => apply normalizeServerless_frame in H
  | H : normalizeSidecars _ _ = Ok _ |- _ => apply normalizeSidecars_frame in H
  | H : normalizeJobAndFiles _ = Ok _ |- _ => apply normalizeJobAndFiles_Ok in H as [H _]
  | H : normalizeKubernetes _ = Ok _ |- _ => apply normalizeKubernetes_frame in H
  end.
  repeat match goal with H : ?x = _ |- _ => is_var x; rewrite H; clear H end. reflexivity.
Qed.

(** ** What one service may look like after [normalize_service] *)

Record files_sound (s : Service) : Prop := {
  fs_each : map_Forall (λ _ f, file_ok f) s.(svc_Files);
  fs_disjoint : pairwise disjoint_paths (file_path <$> map_to_list s.(svc_Files));
  fs_volumes : ∀ k f p, s.(svc_Files) !! k = Some f → p ∈ volume_paths s → disjoint_paths f.(file_MountPath) p;
}.

Record stored_service (app : Application) (name : string) (s : Service) : Prop := {
  st_name : full_match namePattern name = true;
  st_members : members_ok app name s;
  st_size : has_key Profiles s.(svc_Size) = true;
  st_replicas : 1 ≤ s.(svc_Replicas) ≤ 20;
  st_autoscaling : ∀ a, s.(svc_Autoscaling) = Some a → s.(svc_Replicas) = a.(as_MinReplicas) ∧
    a.(as_MinReplicas) ≤ a.(as_MaxReplicas) ≤ 20 ∧ 10 ≤ a.(as_TargetCPU) ≤ 95;
  st_resources : ∀ r, s.(svc_Resources) = Some r → resources_in r ∧ request_below_limit (EffectiveResources s);
  st_mounts : pairwise disjoint_paths (mount_paths s);
  st_files : files_sound s;
  st_job : ∀ j, s.(svc_Job) = Some j → 10 ≤ j.(job_TimeoutSeconds) ≤ 900 ∧ 0 ≤ j.(job_Retries) ≤ 3 ∧
    s.(svc_Replicas) = 1 ∧ s.(svc_Autoscaling) = None ∧ s.(svc_Port) = 0 ∧ s.(svc_Public) = false;
}.

(** The two files tables differ in modes only, so their paths agree. *)
Lemma files_accepted_sound s files : files_accepted s files → files_sound (set_svc_Files files s).
Proof.
  intros [_ Hf Hd Hv _].
  assert (∀ k f', files !! k = Some f' → ∃ f, s.(svc_Files) !! k = Some f ∧ file_ok f' ∧
            f'.(file_MountPath) = f.(file_MountPath)) as Hback.
  { intros k f' Hk. specialize (Hf k). rewrite Hk in Hf. inversion Hf as [f f0 Hc Hs|]; subst.
    apply check_file_Ok in Hc as (_ & Hok & -> & _). by exists f. }
  split; simpl.
  - intros k f' Hk. by destruct (Hback k f' Hk) as (f & _ & ? & _).
  - assert (file_MountPath <$> files = file_MountPath <$> s.(svc_Files)) as Heq.
    { apply map_eq. intros k. rewrite !lookup_fmap. specialize (Hf k).
      destruct Hf as [f f' Hc|]; [|done]. simpl. apply check_file_Ok in Hc as (_ & _ & -> & _). done. }
    eapply (pairwise_perm _ _ _ _ Hd). Unshelve.
    assert (∀ m : gmap string File, file_path <$> map_to_list m = (map_to_list (file_MountPath <$> m)).*2) as Hfp.
    { intros m. rewrite map_to_list_fmap, <-!list_fmap_compose. done. }
    by rewrite !Hfp, Heq.
  - intros k f' p Hk Hp. destruct (Hback k f' Hk) as (f & Hs & _ & ->). by apply (Hv k f p).
Qed.

(** ** The whole pass over one service *)

Lemma normalize_size_Ok field s s' : normalize_size field s = Ok s' →
  has_key Profiles s'.(svc_Size) = true ∧ 1 ≤ s'.(svc_Replicas) ≤ 20 ∧
  ∀ r, s'.(svc_Resources) = Some r → resources_in r ∧ request_below_limit (EffectiveResources s').
Proof.
  unfold normalize_size, in_field. intros Hn. inv_ok. split_orb. rewrite outside_false in *.
  match goal with H : normalizeResources _ = Ok _ |- _ =>
    pose proof (normalizeResources_Ok _ _ H) as Hr; apply normalizeResources_frame in H; rename H into Hf end.
  match goal with H : has_key Profiles _ = true |- _ => rename H into Hp end.
  split_and!; [|simpl in *; lia..|exact Hr].
  match type of Hf with ?x = _ => change (has_key Profiles (svc_Size x) = true) end. rewrite Hf. exact Hp.
Qed.

Lemma normalize_autoscaling_Ok field s s' : normalize_autoscaling field s = Ok s' →
  1 ≤ s.(svc_Replicas) ≤ 20 → 1 ≤ s'.(svc_Replicas) ≤ 20 ∧
  ∀ a, s'.(svc_Autoscaling) = Some a → s'.(svc_Replicas) = a.(as_MinReplicas) ∧
    a.(as_MinReplicas) ≤ a.(as_MaxReplicas) ≤ 20 ∧ 10 ≤ a.(as_TargetCPU) ≤ 95.
Proof.
  unfold normalize_autoscaling. destruct (svc_Autoscaling s) as [a|] eqn:Ha; intros Hn Hrep; inv_ok.
  - split_orb. rewrite !outside_false in *. zify_bool. simpl in *. split; [lia|]. intros a' [= <-]. simpl. lia.
  - split; [done|]. congruence.
Qed.

(** A job's service has one replica and no listener of its own. *)
Lemma job_ok_alone s j : job_ok s j → 10 ≤ j.(job_TimeoutSeconds) ≤ 900 ∧ 0 ≤ j.(job_Retries) ≤ 3 ∧
  s.(svc_Replicas) = 1 ∧ s.(svc_Autoscaling) = None ∧ s.(svc_Port) = 0 ∧ s.(svc_Public) = false.
Proof.
  intros (? & ? & Hc & _). unfold job_conflict in Hc. split_orb. zify_bool. auto 10 with go.
Qed.

Lemma normalize_modes_Ok app field name s s' : normalize_modes field name s = Ok s' →
  full_match namePattern name = true → members_ok app name s → has_key Profiles s.(svc_Size) = true →
  1 ≤ s.(svc_Replicas) ≤ 20 →
  (∀ r, s.(svc_Resources) = Some r → resources_in r ∧ request_below_limit (EffectiveResources s)) →
  stored_service app name s'.
Proof.
  intros Hn Hname [Hm1 Hm2 Hm3 Hm4] Hsize Hrep Hres.
  destruct (normalize_modes_frame _ _ _ _ Hn) as (s1 & s2 & s3 & s4 & Ha & Hsl & Hw & Hsc & Hj & Hk & Heq).
  pose proof (normalize_autoscaling_Ok _ _ _ Ha Hrep) as [Hrep1 Has].
  apply normalizeServerless_frame in Hsl. apply normalizeSidecars_frame in Hsc.
  pose proof (normalizeJobAndFiles_Ok _ _ Hj) as (Hj1 & Hfiles & Hjob).
  apply normalizeKubernetes_frame in Hk. apply files_accepted_sound in Hfiles as [Hf1 Hf2 Hf3].
  assert (mount_paths s' = mount_paths s2) as Hmp by (rewrite Hk, Hj1, Hsc; reflexivity).
  assert (svc_Replicas s' = svc_Replicas s1 ∧ svc_Autoscaling s' = svc_Autoscaling s1) as [Hr1 Ha1]
    by (rewrite Hk, Hj1, Hsc, Hsl; split; reflexivity).
  assert (svc_Job s' = svc_Job s4 ∧ svc_Files s' = svc_Files s4 ∧ svc_Replicas s' = svc_Replicas s3 ∧
    svc_Autoscaling s' = svc_Autoscaling s3 ∧ volume_paths s' = volume_paths s3 ∧ svc_Port s' = svc_Port s3 ∧
    svc_Public s' = svc_Public s3)
    as (Hjb & Hfl & Hr3 & Ha3 & Hvp & Hpo & Hpu) by (rewrite Hk, Hj1; split_and!; reflexivity).
  unfold validateWorkload in Hw. inv_ok.
  match goal with H : validateMountControls s2 = Ok _ |- _ => apply mount_paths_controls in H as [Hmounts _] end.
  split.
  - done.
  - rewrite Heq. by split.
  - rewrite Heq. exact Hsize.
  - by rewrite Hr1.
  - intros a. rewrite Ha1, Hr1. apply Has.
  - intros r. rewrite Heq. apply Hres.
  - rewrite Hmp. exact Hmounts.
  - split; rewrite Hfl, ?Hvp; [exact Hf1|exact Hf2|exact Hf3].
  - intros j. rewrite Hjb, Hr3, Ha3, Hpo, Hpu. intros Hjj. by apply job_ok_alone, Hjob.
Qed.

Lemma normalize_service_Ok app name s s' : normalize_service app name s = Ok s' →
  kept s s' ∧ stored_service app name s'.
Proof.
  unfold normalize_service, at_field. intros Hn. inv_ok.
  match goal with H : normalizeSandboxSession _ _ = Ok ?x |- _ =>
    apply normalizeSandboxSession_Ok in H as [Hs _]; set (s1 := x) in * end.
  match goal with H : normalizeActions _ = Ok ?x |- _ =>
    apply normalizeActions_frame in H as (Ha & Hact & _); set (s2 := x) in * end.
  match goal with H : normalize_size _ _ = Ok ?x |- _ =>
    pose proof (normalize_size_Ok _ _ _ H) as (Hp & Hrep & Hres); apply normalize_size_frame in H;
    rename H into Hsz; set (s3 := x) in * end.
  match goal with H : normalize_members _ _ _ _ = Ok ?x |- _ =>
    apply normalize_members_Ok in H as [Hme Hmem]; set (s4 := x) in * end.
  match goal with H : check_listener _ _ _ = Ok _ |- _ => unfold check_listener in H end. inv_ok.
  match goal with H : negb (full_match namePattern name) = false |- _ => apply negb_false_iff in H; rename H into Hname end.
  split.
  - destruct (normalize_modes_frame _ _ _ _ Hn) as (_ & _ & _ & _ & _ & _ & _ & _ & _ & _ & Heq).
    split; rewrite Heq, Hme, Hsz.
    + change (erase s = erase (erase_runner s2)). rewrite <-Ha, Hs. reflexivity.
    + change (has_actions s = has_actions s2). transitivity (has_actions s1); [rewrite Hs; reflexivity|by apply non_nil_iff].
  - eapply normalize_modes_Ok; [exact Hn|done|done|rewrite Hme; exact Hp|rewrite Hme; exact Hrep|].
    rewrite Hme. exact Hres.
Qed.
End service.

(** * Stability under the later passes *)

(** Every field the passes after the service loop may assign is erased. *)
Definition erase_settled (s : Service) : Service :=
  set_svc_NodeName EmptyString (set_svc_Architecture EmptyString (erase_late s)).
Definition settled : relation Service := λ s s', erase_settled s = erase_settled s'.

#[export] Instance settled_refl : Reflexive settled.
Proof. done. Qed.
#[export] Instance settled_trans : Transitive settled.
Proof. unfold settled. congruence. Qed.

Lemma placed_settled s s' : placed s s' → settled s s'.
Proof. intros (node & arch & -> & _). reflexivity. Qed.
Lemma late_settled s s' : late s s' → settled s s'.
Proof. unfold late, settled, erase_settled. by intros ->. Qed.

(** A statement that reads no erased field carries over. *)
Lemma erased_carry (e : Service → Service) (P : Service → Prop) s s' :
  (∀ t, P t ↔ P (e t)) → e s = e s' → P s → P s'.
Proof. intros HP Heq Hs. apply (proj2 (HP s')). rewrite <-Heq. exact (proj1 (HP s) Hs). Qed.

Section stability.
Context `{Host} `{ThirdParty} `{Q : Quantity} `{!QuantityLaws Q} `{RangeOrder}.

Lemma members_ok_settled app name s s' : settled s s' → members_ok app name s → members_ok app name s'.
Proof.
  apply (erased_carry erase_settled (members_ok app name)). intros t.
  split; intros [M1 M2 M3 M4]; split; assumption.
Qed.

Lemma stored_service_settled app name s s' :
  settled s s' → stored_service app name s → stored_service app name s'.
Proof.
  intros Hs. pose proof (members_ok_settled app name s s' Hs) as Hm. revert Hs.
  intros Hs [S1 S2 S3 S4 S5 S6 S7 [F1 F2 F3] S8].
  assert (svc_Size s = svc_Size s') as E1 by exact (f_equal svc_Size Hs).
  assert (svc_Replicas s = svc_Replicas s') as E2 by exact (f_equal svc_Replicas Hs).
  assert (svc_Autoscaling s = svc_Autoscaling s') as E3 by exact (f_equal svc_Autoscaling Hs).
  assert (svc_Resources s = svc_Resources s') as E4 by exact (f_equal svc_Resources Hs).
  assert (EffectiveResources s = EffectiveResources s') as E5 by exact (f_equal EffectiveResources Hs).
  assert (mount_paths s = mount_paths s') as E6 by exact (f_equal mount_paths Hs).
  assert (svc_Files s = svc_Files s') as E7 by exact (f_equal svc_Files Hs).
  assert (volume_paths s = volume_paths s') as E8 by exact (f_equal volume_paths Hs).
  assert (svc_Job s = svc_Job s') as E9 by exact (f_equal svc_Job Hs).
  assert (svc_Port s = svc_Port s') as E10 by exact (f_equal svc_Port Hs).
  assert (svc_Public s = svc_Public s') as E11 by exact (f_equal svc_Public Hs).
  split; [done|by apply Hm|rewrite <-?E1, <-?E2, <-?E3, <-?E4, <-?E5, <-?E6; assumption..| |].
  - split; rewrite <-?E7, <-?E8; assumption.
  - rewrite <-E9, <-E2, <-E3, <-E10, <-E11. exact S8.
Qed.

(** The application's part: declared networks and service names. *)
Lemma members_ok_app a b name s : b.(app_Networks) = a.(app_Networks) →
  (∀ d, is_Some (app_services a !! d) → is_Some (app_services b !! d)) →
  members_ok a name s → members_ok b name s.
Proof.
  intros Hn Hd [M1 M2 (? & ? & M3) M4]. split; [by rewrite Hn|done| |done].
  split_and!; [done|done|]. naive_solver.
Qed.

Lemma stored_service_app a b name s : b.(app_Networks) = a.(app_Networks) →
  (∀ d, is_Some (app_services a !! d) → is_Some (app_services b !! d)) →
  stored_service a name s → stored_service b name s.
Proof. intros Hn Hd []. split; try done. by eapply members_ok_app. Qed.

(** ** Storage, endpoints and peers *)

Lemma storage_sound_late a b : services_rel late a b → storage_sound a → storage_sound b.
Proof.
  intros Hr [Hv Ht (groups & Hs)]. pose proof (sr_same _ _ _ Hr) as Hsame.
  assert (b.(app_Volumes) = a.(app_Volumes)) as Hvol by by rewrite Hsame. split.
  - by rewrite Hvol.
  - unfold named_size in *. rewrite Hvol, <-(services_rel_Names _ _ _ Hr).
    rewrite (list_fmap_ext (service_size b) (service_size a) (Names a)); [done|].
    intros i n _. unfold service_size. destruct (sr_services _ _ _ Hr n) as [s s' Hl|]; [|done].
    symmetry. exact (f_equal volume_size Hl).
  - exists groups. intros n s' Hs'. destruct (services_rel_lookup_r _ _ _ _ _ Hr Hs') as (s & Hn & Hl).
    destruct (Hs n s Hn) as [Hrep Hall].
    assert (svc_Mounts s = svc_Mounts s') as E1 by exact (f_equal svc_Mounts Hl).
    assert (svc_Replicas s = svc_Replicas s') as E2 by exact (f_equal svc_Replicas Hl).
    assert (svc_Autoscaling s = svc_Autoscaling s') as E3 by exact (f_equal svc_Autoscaling Hl).
    assert (fs_group_of s = fs_group_of s') as E4 by exact (f_equal fs_group_of Hl).
    unfold storage_ok. by rewrite <-E1, <-E2, <-E3, <-E4, Hvol.
Qed.

Lemma AllowsPeer_probes a b x y : services_rel probes a b → AllowsPeer b x y = AllowsPeer a x y.
Proof.
  intros Hr. unfold AllowsPeer.
  destruct (sr_services _ _ _ Hr x) as [s s' Hs|]; [|done].
  destruct (sr_services _ _ _ Hr y) as [t t' Ht|]; [|done].
  rewrite (f_equal svc_networks Hs : svc_networks s = svc_networks s').
  rewrite (f_equal svc_networks Ht : svc_networks t = svc_networks t').
  by rewrite (f_equal svc_NetworkAccess Ht : svc_NetworkAccess t = svc_NetworkAccess t').
Qed.

Lemma endpoints_sound_probes a b : services_rel probes a b → endpoints_sound a → endpoints_sound b.
Proof.
  intros Hr [D1 D2 D3 D4 D5]. pose proof (sr_same _ _ _ Hr) as Hsame.
  assert (b.(app_Domains) = a.(app_Domains)) as Hdom by by rewrite Hsame.
  assert (∀ n s', app_services b !! n = Some s' → ∃ s, app_services a !! n = Some s ∧
    svc_HTTP s' = svc_HTTP s ∧ svc_Public s' = svc_Public s ∧ svc_Job s' = svc_Job s ∧
    ServicePorts s' = ServicePorts s) as Hback.
  { intros n s' Hs'. destruct (services_rel_lookup_r _ _ _ _ _ Hr Hs') as (s & Hn & Hp). exists s.
    split_and!; [done|symmetry..]. exact (f_equal svc_HTTP Hp). exact (f_equal svc_Public Hp).
    exact (f_equal svc_Job Hp). exact (f_equal ServicePorts Hp). }
  split.
  - intros n s' k e Hs' He. destruct (Hback _ _ Hs') as (s & Hs & Eh & Ep & Ej & Esp).
    rewrite Eh in He. specialize (D1 _ _ _ _ Hs He). unfold endpoint_ok in *. by rewrite Ep, Ej, Esp, Hdom.
  - intros n s' k m t' l Hs' Ht'. destruct (Hback _ _ Hs') as (s & Hs & -> & _), (Hback _ _ Ht') as (t & Ht & -> & _).
    eauto.
  - intros n s' k Hs'. destruct (Hback _ _ Hs') as (s & Hs & -> & _). intros Hk.
    specialize (D3 _ _ _ Hs Hk). destruct (sr_services _ _ _ Hr (endpoint_host n k)); [congruence|done].
  - intros n s' k k' e e' Hs'. destruct (Hback _ _ Hs') as (s & Hs & -> & _). eauto.
  - intros n s' Hs'. destruct (Hback _ _ Hs') as (s & Hs & -> & _). eauto.
Qed.
End stability.

(** * The whole of Normalize *)

Section whole.
Context `{Host} `{ThirdParty} `{Q : Quantity} `{!QuantityLaws Q} `{RangeOrder}.

Lemma normalize_identity_Ok input app : normalize_identity input = Ok app →
  app = set_app_SchemaVersion 1 input ∧ full_match namePattern app.(app_Name) = true ∧
  is_Some app.(app_Services) ∧ lenm (app_services app) ≤ 20.
Proof.
  unfold normalize_identity. intros Hn. inv_ok. split_orb. zify_bool.
  destruct (app_SchemaVersion input =? 0) eqn:Hz; simpl in *.
  - split_and!; [reflexivity|done|by destruct (app_Services input)|done].
  - split_and!; [|done|by destruct (app_Services input)|done].
    destruct input. simpl in *. by subst.
Qed.

Lemma normalize_networks_Ok a b : normalize_networks a = Ok b →
  b = set_app_Networks b.(app_Networks) a ∧ is_Some (b.(app_Networks) !! "default") ∧
  (∀ k, k ≠ "default" → b.(app_Networks) !! k = a.(app_Networks) !! k) ∧ lenm b.(app_Networks) ≤ 16 ∧
  (is_Some (a.(app_Networks) !! "default") → b = a) ∧
  map_Forall (λ k net, check_network (k, net) = Ok tt) b.(app_Networks).
Proof.
  unfold normalize_networks. intros Hn. inv_ok. zify_bool.
  match goal with H : iterM _ _ = Ok _ |- _ => apply iterM_Ok in H; rename H into Hall end.
  destruct (has_key (app_Networks a) "default") eqn:Hk; unfold has_key in Hk.
  - split_and!; [by destruct a|by destruct (_ !! _)|done|done|done|].
    intros k net Hnet. rewrite Forall_forall in Hall. apply (Hall (k, net)). by apply elem_of_range.
  - assert (app_Networks a !! "default" = None) as Hnone by by destruct (_ !! _).
    simpl in *. split_and!; [reflexivity|by rewrite lookup_insert_eq| |done|by intros [? ?]; congruence|].
    + intros k Hne. by rewrite lookup_insert_ne.
    + intros k net Hnet. rewrite Forall_forall in Hall. apply (Hall (k, net)). by apply elem_of_range.
Qed.

Lemma normalize_services_Ok a b : normalize_services a = Ok b →
  services_rel kept a b ∧ ∀ n s, app_services b !! n = Some s → stored_service b n s.
Proof.
  intros Hn. destruct (each_service_Ok kept normalize_service a b) as [Hr Hall]; [|done|].
  { intros app n s s' Hs. by apply normalize_service_Ok in Hs as [? _]. }
  split; [done|]. intros n s' Hs'. destruct (Hall n s' Hs') as (s & appi & _ & Hs & Hai & Hib).
  apply normalize_service_Ok in Hs as [_ Hst]. apply (stored_service_app appi b); [| |exact Hst].
  - pose proof (sr_same _ _ _ Hib) as Hsame. unfold same_but_services in Hsame. rewrite Hsame. reflexivity.
  - intros d. exact (proj1 (services_rel_Some kept _ _ d Hib)).
Qed.

Lemma normalize_readiness_Ok a b : normalize_readiness a = Ok b → services_rel probes a b.
Proof.
  intros Hn. refine (proj1 (each_service_Ok probes _ a b _ Hn)). intros app n s s' Hs. inv_ok.
  apply normalizeReadiness_frame in Hs. rewrite Hs. reflexivity.
Qed.

(** The intermediate applications of a successful run, and how each relates
    to the next. *)
Record run (input app a2 a3 a4 a5 a6 : Application) : Prop := {
  run_networks : normalize_networks (set_app_SchemaVersion 1 input) = Ok a2;
  run_domains : ValidateDomains (set_app_SchemaVersion 1 input) = Ok tt;
  run_environment : check_application_environment a2 = Ok tt;
  run_services : normalize_services a2 = Ok a3;
  run_storage : validateNamedStorage a3 = Ok a4;
  run_bindings : validateBindings a4 = Ok tt;
  run_access : validateNetworkAccess a4 = Ok a5;
  run_endpoints : validateHTTPEndpoints a5 = Ok tt;
  run_readiness : normalize_readiness a5 = Ok a6;
  run_tcp : validatePublicTCP a6 = Ok app;
  run_order : is_ok (Order app) = true;
  run_name : full_match namePattern input.(app_Name) = true;
  run_table : lenm (app_services input) ≤ 20;
}.

Lemma Normalize_run input app : Normalize input = Ok app →
  ∃ a2 a3 a4 a5 a6, run input app a2 a3 a4 a5 a6.
Proof.
  unfold Normalize. intros Hn. inv_ok.
  match goal with H : normalize_identity _ = Ok _ |- _ => apply normalize_identity_Ok in H as (-> & ? & ? & ?) end.
  do 5 eexists. split; try eassumption. apply is_ok_true. by eexists.
Qed.

Section of_run.
Context (input app a2 a3 a4 a5 a6 : Application) (R : run input app a2 a3 a4 a5 a6).

Lemma run_a56 : services_rel probes a5 app.
Proof.
  destruct R. transitivity a6; [by apply normalize_readiness_Ok|].
  eapply services_rel_impl; [apply listeners_probes|]. by apply validatePublicTCP_Ok.
Qed.

Lemma run_a45 : services_rel late a4 a5.
Proof.
  destruct R. eapply services_rel_impl; [apply access_late|]. by apply validateNetworkAccess_Ok.
Qed.

Lemma run_late : services_rel late a4 app.
Proof.
  transitivity a5; [apply run_a45|]. eapply services_rel_impl; [apply probes_late|apply run_a56].
Qed.

Lemma run_a34 : services_rel placed (set_app_Volumes a4.(app_Volumes) a3) a4.
Proof. destruct R. by apply named_storage_Ok. Qed.

(** What the run leaves alone: the application's own fields and, of each
    service, all the fields [kept] compares. *)
Lemma run_frame :
  (∀ n, option_Forall2 kept (app_services input !! n) (app_services app !! n)) ∧
  app = set_app_Services app.(app_Services) (set_app_Volumes app.(app_Volumes)
          (set_app_Networks a2.(app_Networks) (set_app_SchemaVersion 1 input))).
Proof using Type*.
  destruct R. apply normalize_networks_Ok in run_networks0 as (Hnet & _).
  apply normalize_services_Ok in run_services0 as [H23 _].
  split.
  - intros n. pose proof (sr_services _ _ _ H23 n) as Hn. pose proof (sr_services _ _ _ run_a34 n) as Hp.
    pose proof (sr_services _ _ _ run_late n) as Hl.
    assert (app_services a2 !! n = app_services input !! n) as E2 by (rewrite Hnet; reflexivity).
    rewrite E2 in Hn. change (app_services (set_app_Volumes _ a3) !! n) with (app_services a3 !! n) in Hp.
    apply (option_rel_impl _ kept _ _ placed_kept) in Hp. apply (option_rel_impl _ kept _ _ late_kept) in Hl.
    by eapply option_rel_trans; [|exact Hn|eapply option_rel_trans; [|exact Hp|exact Hl]]; apply _.
  - pose proof (sr_same _ _ _ H23) as E3. pose proof (sr_same _ _ _ run_a34) as E4.
    pose proof (sr_same _ _ _ run_late) as E5. unfold same_but_services in *.
    rewrite E5, E4, E3, Hnet. reflexivity.
Qed.
End of_run.

Lemma Normalize_frame input app : Normalize input = Ok app →
  (∀ n, option_Forall2 kept (app_services input !! n) (app_services app !! n)) ∧
  app = set_app_Services app.(app_Services) (set_app_Volumes app.(app_Volumes)
          (set_app_Networks app.(app_Networks) (set_app_SchemaVersion 1 input))).
Proof.
  intros (a2 & a3 & a4 & a5 & a6 & R)%Normalize_run.
  destruct (run_frame _ _ _ _ _ _ _ R) as [Hk Hframe]. split; [done|].
  assert (app.(app_Networks) = a2.(app_Networks)) as -> by (rewrite Hframe; reflexivity). exact Hframe.
Qed.

(** The networks of a revision: those written and the default one. *)
Definition with_default (nets : gmap string Network) : gmap string Network :=
  match nets !! "default" with Some _ => nets | None => <["default" := zero_Network]> nets end.

Lemma normalize_networks_default a b : normalize_networks a = Ok b →
  b.(app_Networks) = with_default a.(app_Networks).
Proof.
  unfold normalize_networks, with_default. intros Hn. inv_ok. unfold has_key.
  by destruct (app_Networks a !! "default").
Qed.

Lemma Normalize_networks input app : Normalize input = Ok app →
  app.(app_Networks) = with_default input.(app_Networks).
Proof.
  intros (a2 & a3 & a4 & a5 & a6 & R)%Normalize_run.
  destruct (run_frame _ _ _ _ _ _ _ R) as [_ Hframe]. destruct R as [R1 _ _ _ _ _ _ _ _ _ _ _ _].
  apply normalize_networks_default in R1. rewrite Hframe. exact R1.
Qed.

Lemma Normalize_other_networks input app k : Normalize input = Ok app → k ≠ "default" →
  app.(app_Networks) !! k = input.(app_Networks) !! k.
Proof.
  intros ->%Normalize_networks Hk. unfold with_default.
  destruct (app_Networks input !! "default"); [done|]. by rewrite lookup_insert_ne.
Qed.

Lemma Normalize_volumes input app k : Normalize input = Ok app →
  option_Forall2 volume_filled (input.(app_Volumes) !! k) (app.(app_Volumes) !! k).
Proof.
  intros (a2 & a3 & a4 & a5 & a6 & R)%Normalize_run. pose proof (run_late _ _ _ _ _ _ _ R) as Hlate.
  destruct R as [R1 _ _ R4 R5 _ _ _ _ _ _ _ _].
  apply normalize_networks_Ok in R1 as (E2 & _). apply normalize_services_Ok in R4 as [H23 _].
  apply (named_storage_volumes _ _) with (k := k) in R5.
  assert (app.(app_Volumes) = a4.(app_Volumes)) as -> by (rewrite (sr_same _ _ _ Hlate); reflexivity).
  assert (a3.(app_Volumes) = input.(app_Volumes)) as <- by (rewrite (sr_same _ _ _ H23), E2; reflexivity).
  done.
Qed.

Lemma Normalize_storage input app : Normalize input = Ok app → storage_sound app.
Proof.
  intros (a2 & a3 & a4 & a5 & a6 & R)%Normalize_run.
  pose proof (run_late _ _ _ _ _ _ _ R) as Hlate. destruct R as [_ _ _ _ R5 _ _ _ _ _ _ _ _].
  eapply storage_sound_late; [done|]. exact (proj1 (named_storage_Ok _ _ R5)).
Qed.

(** Every service of the result is within its bounds. *)
Lemma Normalize_stored input app : Normalize input = Ok app →
  ∀ n s, app_services app !! n = Some s → stored_service app n s.
Proof.
  intros (a2 & a3 & a4 & a5 & a6 & R)%Normalize_run.
  pose proof (run_late _ _ _ _ _ _ _ R) as Hlate. pose proof (run_a34 _ _ _ _ _ _ _ R) as H34.
  destruct (run_frame _ _ _ _ _ _ _ R) as [_ Hframe].
  assert (app.(app_Networks) = a2.(app_Networks)) as Hnets by (rewrite Hframe; reflexivity).
  destruct R as [_ _ _ R4 _ _ _ _ _ _ _ _ _]. apply normalize_services_Ok in R4 as [H23 Hstored].
  intros n s Hs. destruct (services_rel_lookup_r _ _ _ _ _ Hlate Hs) as (s4 & Hs4 & H4).
  destruct (services_rel_lookup_r _ _ _ _ _ H34 Hs4) as (s3 & Hs3 & H3).
  apply (stored_service_settled _ _ s4); [by apply late_settled|].
  apply (stored_service_settled _ _ s3); [by apply placed_settled|].
  apply (stored_service_app a3); [| |by apply Hstored].
  - rewrite Hnets. by rewrite (sr_same _ _ _ H23).
  - intros d Hd. apply (services_rel_Some _ _ _ d Hlate), (services_rel_Some _ _ _ d H34). exact Hd.
Qed.
End whole.

(** * Properties *)

(** What every stored revision satisfies. *)
Record well_formed `{Host} `{ThirdParty} `{Quantity} (app : Application) : Prop := {
  wf_header : app.(app_SchemaVersion) = 1 ∧ full_match namePattern app.(app_Name) = true;
  wf_size : lenm (app_services app) ≤ 20 ∧ lenm app.(app_Networks) ≤ 16;
  wf_default : is_Some (app.(app_Networks) !! "default");
  wf_services : ∀ n s, app_services app !! n = Some s → stored_service app n s;
  wf_storage : storage_sound app;
  wf_peers : ∀ n s a, app_services app !! n = Some s → s.(svc_NetworkAccess) = Some a →
    NoDup (access_from a) ∧ ∀ peer, AllowsPeer app peer n = true ↔ peer ∈ access_from a;
  wf_endpoints : endpoints_sound app;
  wf_listeners : NoDup (external_ports app (Names app)) ∧
    ∀ n s l, app_services app !! n = Some s → l ∈ s.(svc_PublicTCP) → listener_ok s l;
  wf_order : ∀ n, ¬ cyclic (depends_on app) n;
}.

Section properties.
Context `{Host} `{ThirdParty} `{Q : Quantity} `{!QuantityLaws Q} `{RangeOrder}.

(** C1: Every application [Normalize] accepts is well formed: its name and
    schema version, at most twenty services and sixteen networks including
    the default one, each service within its bounds (declared networks and
    dependencies, replicas, quantities in range with requests below limits,
    disjoint mounts and files), a coherent storage plan of at most 200 GiB,
    network rules that admit exactly the peers they name, distinct HTTP
    hostnames and public TCP ports, and no dependency cycle. *)
Theorem Normalize_well_formed input app : Normalize input = Ok app → well_formed app.
Proof.
  intros Hnorm. pose proof (Normalize_stored _ _ Hnorm) as Hstored.
  pose proof (Normalize_storage _ _ Hnorm) as Hstorage. revert Hnorm.
  intros (a2 & a3 & a4 & a5 & a6 & R)%Normalize_run.
  pose proof (run_a56 _ _ _ _ _ _ _ R) as H56. pose proof (run_late _ _ _ _ _ _ _ R) as Hlate.
  pose proof (run_a34 _ _ _ _ _ _ _ R) as H34. pose proof (run_frame _ _ _ _ _ _ _ R) as [Hk Hframe].
  destruct R as [R1 R2 R3 R4 R5 R6 R7 R8 R9 R10 R11 R12 R13].
  match goal with H : normalize_networks _ = Ok _ |- _ => apply normalize_networks_Ok in H as (Hn & Hdef & _ & Hcount & _) end.
  assert (app.(app_Networks) = a2.(app_Networks)) as Hnets by (rewrite Hframe; reflexivity).
  match goal with H : normalize_services _ = Ok _ |- _ => apply normalize_services_Ok in H as [H23 _] end.
  match goal with H : validateNetworkAccess _ = Ok _ |- _ => apply network_access_Ok in H as [_ Haccess] end.
  match goal with H : validatePublicTCP _ = Ok _ |- _ => apply validatePublicTCP_Ok in H as (_ & Hports & _ & Hlisten) end.
  split.
  - rewrite Hframe. done.
  - rewrite Hnets. split; [|done]. by rewrite <-(option_rel_size _ _ _ Hk).
  - by rewrite Hnets.
  - exact Hstored.
  - exact Hstorage.
  - intros n s a Hs Ha. destruct (services_rel_lookup_r _ _ _ _ _ H56 Hs) as (s5 & Hs5 & H5).
    rewrite <-(f_equal svc_NetworkAccess H5 : svc_NetworkAccess s5 = svc_NetworkAccess s) in Ha.
    destruct (Haccess n s5 Hs5) as [_ Hacc]. destruct (Hacc a Ha) as [Hnd Hpeers]. split; [done|].
    intros peer. rewrite (AllowsPeer_probes _ _ _ _ H56). apply Hpeers.
  - eapply endpoints_sound_probes; [done|]. by apply validateHTTPEndpoints_Ok.
  - split; [done|]. intros n s l Hs Hl. destruct (Hlisten n s Hs) as (Hok & _). by eapply Forall_forall in Hok.
  - match goal with H : is_ok (Order _) = true |- _ => apply is_ok_true in H as [o Ho] end. by eapply Order_acyclic.
Qed.

(** C7: [Normalize] keeps what the user wrote: it returns the same service
    names, every field of a service outside those it documents as filled in or
    reordered (environment, secrets, bindings, command, ports and storage
    declarations among others) is unchanged, and of the application only the
    schema version, the default network and the volumes' access modes differ. *)
Theorem Normalize_keeps input app : Normalize input = Ok app →
  (∀ n, option_Forall2 kept (app_services input !! n) (app_services app !! n)) ∧
  app = set_app_Services app.(app_Services) (set_app_Volumes app.(app_Volumes)
          (set_app_Networks app.(app_Networks) (set_app_SchemaVersion 1 input))) ∧
  app.(app_Networks) = with_default input.(app_Networks) ∧
  (∀ k, option_Forall2 volume_filled (input.(app_Volumes) !! k) (app.(app_Volumes) !! k)).
Proof.
  intros Hn. destruct (Normalize_frame _ _ Hn) as [Hk Hframe]. split_and!; [done|done| |].
  - by apply Normalize_networks.
  - intros k. by apply Normalize_volumes.
Qed.
End properties.

Import Concrete.

Lemma Normalize_well_formed_witness : Names Shop.stored = ["db"; "web"] ∧ well_formed Shop.stored.
Proof.
  split; [vm_compute; reflexivity|].
  refine (Normalize_well_formed Shop.app Shop.stored _). exact Shop.stored_ok.
Defined.

Lemma Normalize_keeps_witness :
  option_Forall2 kept (app_services Shop.app !! "web") (app_services Shop.stored !! "web").
Proof. refine (proj1 (Normalize_keeps Shop.app Shop.stored _) "web"). exact Shop.stored_ok. Defined.
