(* ===== verification/Determinism.v ===== *)
(** Go visits the entries of a map in an order that changes from run to run. The
    validators of internal/spec range over maps throughout; this file shows that
    what [Normalize] returns does not depend on those orders. Only the error
    reported first can. Results are compared by [agree]. *)
From S2P Require Import Prelude GoStd Regex SpecTypes Platform SpecChecks SpecServices SpecEnvironment SpecResources SharedVolumes SpecStorage SpecNetwork SpecWorkloads Provider SpecActions SpecBindings SpecSidecars SpecOrder SpecNormalize.
#[global] Open Scope Z_scope.

(** Compares two chains of binds step by step; what is left are the steps that
    differ. *)
Ltac agree_chain :=
  repeat first
    [ match goal with
      | |- agree ?r ?r => reflexivity
      | |- agree (mbind _ _) (mbind _ _) => apply bind_agree; [intros ?; cbv beta|]
      | |- agree (match ?x with _ => _ end) _ => destruct x; cbv beta iota
      end ].

(** * Loops over maps under two orders *)

Section loops.
Context (R1 R2 : RangeOrder).

Lemma ranges_perm {V} (m : gmap string V) : @range R1 V m ≡ₚ @range R2 V m.
Proof. by rewrite !range_perm. Qed.

Lemma iterM_ranges {V} (f g : string * V → result unit) (m : gmap string V) :
  (∀ k v, m !! k = Some v → agree (f (k, v)) (g (k, v))) →
  agree (iterM f (@range R1 V m)) (iterM g (@range R2 V m)).
Proof.
  intros Hfg u. rewrite !iterM_range. split; intros Hall k v Hk; apply (Hfg k v Hk); by apply Hall.
Qed.

Lemma iterM_keys {V} (f : string → result unit) (m : gmap string V) :
  agree (iterM f (@keys_of R1 V m)) (iterM f (@keys_of R2 V m)).
Proof.
  intros u. split; apply iterM_perm; unfold keys_of; by rewrite ranges_perm.
Qed.

Lemma range_updates {V} (f : string → V → result V) (m : gmap string V) :
  agree (@range_update R1 V f m) (@range_update R2 V f m).
Proof. intros m'. by rewrite !range_update_Ok. Qed.
End loops.

(** * Inheritance *)

Section inheritance.
Context (R1 R2 : RangeOrder).

Lemma EffectiveEnvironments env s : @EffectiveEnvironment R1 env s = @EffectiveEnvironment R2 env s.
Proof. apply map_eq. intros k. by rewrite !EffectiveEnvironment_lookup. Qed.

Lemma EffectiveServices app s : @EffectiveService R1 app s = @EffectiveService R2 app s.
Proof.
  unfold EffectiveService. destruct (svc_Actions s); [done|].
  assert (∀ V (src dst : gmap string V), @copy_into R1 V V id id src dst = @copy_into R2 V V id id src dst) as Hc.
  { intros V src dst. by rewrite !copy_into_union. }
  assert (∀ V W (src : gmap string V) (dst : gmap string W), @delete_keys R1 V W src dst = @delete_keys R2 V W src dst) as Hd.
  { intros V W src dst. apply map_eq. intros k. by rewrite !delete_keys_lookup. }
  cbv zeta. by rewrite !Hc, !Hd, EffectiveEnvironments.
Qed.
End inheritance.

(** * Validators *)

Section validators.
Context `{Host} `{ThirdParty} `{Quantity} (R1 R2 : RangeOrder).

Lemma environment_bytes_same env : @environment_bytes R1 env = @environment_bytes R2 env.
Proof.
  unfold environment_bytes.
  assert (∀ l t, fold_left (λ total (kv : string * string), total + (len kv.1 + len kv.2)) l t =
    t + sum_list ((λ kv : string * string, len kv.1 + len kv.2) <$> l)) as Hsum.
  { intros l. induction l as [|kv l IH]; intros t; [unfold sum_list; simpl; lia|].
    cbn [fold_left]. rewrite IH, fmap_cons, sum_list_cons. lia. }
  rewrite !Hsum. f_equal. apply sum_list_perm. by rewrite (ranges_perm R1 R2).
Qed.

Lemma validateEnvironments field env :
  agree (@validateEnvironment _ R1 field env) (@validateEnvironment _ R2 field env).
Proof.
  unfold validateEnvironment. rewrite environment_bytes_same.
  apply bind_agree; [intros _|done]. apply bind_agree; [intros _|done]. by apply iterM_ranges.
Qed.

Lemma secret_keys bad shadow env secrets :
  agree (@check_secret_keys R1 bad shadow env secrets) (@check_secret_keys R2 bad shadow env secrets).
Proof. by apply iterM_ranges. Qed.

Lemma reserved_keys {V} reserved fmt (m : gmap string V) :
  agree (@check_reserved_keys R1 V reserved fmt m) (@check_reserved_keys R2 V reserved fmt m).
Proof. apply iterM_keys. Qed.

Lemma AWSIdentities s : agree (@validateAWSIdentity R1 s) (@validateAWSIdentity R2 s).
Proof.
  unfold validateAWSIdentity. destruct (is_empty _); [done|].
  repeat (apply bind_agree; [intros _|try done; apply reserved_keys]). done.
Qed.

Lemma ContainerDaemons s : agree (@validateContainerDaemon R1 s) (@validateContainerDaemon R2 s).
Proof.
  unfold validateContainerDaemon. destruct (is_empty _); [done|].
  repeat (apply bind_agree; [intros _|try done; apply reserved_keys]). done.
Qed.

Lemma files_agree s : agree (@normalize_files R1 s) (@normalize_files R2 s).
Proof. intros files. by rewrite !normalize_files_Ok. Qed.

Lemma invocation_agree s j cfg :
  agree (@normalize_invocation R1 s j cfg) (@normalize_invocation R2 s j cfg).
Proof.
  unfold normalize_invocation. agree_chain. intros u. split; apply iterM_perm; by rewrite (ranges_perm R1 R2).
Qed.

Lemma job_agree s j : agree (@normalize_job _ _ R1 s j) (@normalize_job _ _ R2 s j).
Proof. unfold normalize_job. agree_chain. apply invocation_agree. Qed.

Lemma JobAndFiles s : agree (@normalizeJobAndFiles _ _ R1 s) (@normalizeJobAndFiles _ _ R2 s).
Proof. unfold normalizeJobAndFiles. agree_chain; [apply files_agree|apply job_agree]. Qed.

Lemma sidecar_containers field sc :
  agree (@check_sidecar_container _ R1 field sc) (@check_sidecar_container _ R2 field sc).
Proof. unfold check_sidecar_container. agree_chain; [apply secret_keys|apply validateEnvironments]. Qed.

Lemma Sidecars name s : agree (@normalizeSidecars _ _ _ R1 name s) (@normalizeSidecars _ _ _ R2 name s).
Proof.
  unfold normalizeSidecars. destruct (_ =? 0); [done|]. agree_chain. apply foldM_agree; [|done..].
  intros [[seen i] out] sc. unfold normalize_sidecar. agree_chain. apply sidecar_containers.
Qed.

(** The loop that counts Infisical profiles adds what each entry adds. *)
Lemma client_profile_count name effective service n entry m :
  check_client_profile name effective service n entry = Ok m ↔
  ∃ k, check_client_profile name effective service 0 entry = Ok k ∧ m = n + k.
Proof.
  destruct entry as [variable profile]. unfold check_client_profile.
  repeat setoid_rewrite bind_unit_Ok. destruct (profile =? _)%string; split.
  - intros (? & ? & ? & ? & ? & Hm%Ok_inj_1). exists 1. split_and!; try done; lia.
  - intros (k & (? & ? & ? & ? & ? & Hk%Ok_inj_1) & ->). subst k. split_and!; done.
  - intros (? & ? & ? & ? & ? & Hm%Ok_inj_1). exists 0. split_and!; try done; lia.
  - intros (k & (? & ? & ? & ? & ? & Hk%Ok_inj_1) & ->). subst k. split_and!; try done. by rewrite Z.add_0_r.
Qed.

Lemma client_profiles_swap name effective service n x y m :
  (t ← check_client_profile name effective service n x; check_client_profile name effective service t y) = Ok m →
  (t ← check_client_profile name effective service n y; check_client_profile name effective service t x) = Ok m.
Proof.
  rewrite !bind_Ok. intros (a & Hx & Hy). apply client_profile_count in Hx as (k & Hk & ->), Hy as (k' & Hk' & ->).
  exists (n + k'). split; apply client_profile_count; [by exists k'|]. exists k. split; [done|lia].
Qed.

Lemma client_profiles app name s :
  agree (@validateDatabaseClientProfiles R1 app name s) (@validateDatabaseClientProfiles R2 app name s).
Proof.
  unfold validateDatabaseClientProfiles. rewrite (EffectiveServices R1 R2). agree_chain.
  apply foldM_perm; [|apply ranges_perm]. intros n x y m. split; apply client_profiles_swap.
Qed.

Lemma Bindings_agree app : agree (@validateBindings R1 app) (@validateBindings R2 app).
Proof.
  apply iterM_ranges. intros name s _. agree_chain; [|apply client_profiles]. by apply iterM_ranges.
Qed.

Lemma Endpoints_agree app : agree (@validateHTTPEndpoints _ R1 app) (@validateHTTPEndpoints _ R2 app).
Proof.
  intros []. split; intros Hok%validateHTTPEndpoints_Ok; by apply validateHTTPEndpoints_accepts.
Qed.

Lemma Domains_agree app : agree (@ValidateDomains _ R1 app) (@ValidateDomains _ R2 app).
Proof. unfold ValidateDomains. agree_chain. by apply iterM_ranges. Qed.

Lemma Shared_agree app : agree (@normalizeSharedReadWriteOnce R1 app) (@normalizeSharedReadWriteOnce R2 app).
Proof. unfold normalizeSharedReadWriteOnce. by rewrite (groups_order_irrelevant R1 R2). Qed.

Lemma service_storage app t name :
  agree (@check_service_storage R1 app t name) (@check_service_storage R2 app t name).
Proof.
  unfold check_service_storage. destruct (app_services app !! name) as [s|]; [|done].
  assert (∀ f, existsb f (@keys_of R1 _ (app_Volumes app)) = existsb f (@keys_of R2 _ (app_Volumes app))) as Hex.
  { intros f. apply eq_true_iff_eq. rewrite !existsb_exists. setoid_rewrite <-list_elem_of_In.
    by setoid_rewrite elem_of_keys_of. }
  rewrite Hex. done.
Qed.

Lemma NamedStorage app : agree (@validateNamedStorage R1 _ app) (@validateNamedStorage R2 _ app).
Proof.
  unfold validateNamedStorage. rewrite !fold_range_sizes. agree_chain.
  - apply Shared_agree.
  - apply foldM_agree; [|done..]. intros t name. apply service_storage.
  - apply range_updates.
Qed.
End validators.

(** * Services and applications *)

Section normalize.
Context `{Host} `{ThirdParty} `{Quantity} (R1 R2 : RangeOrder).

Lemma each_service_agree f g app : (∀ a n s, agree (f a n s) (g a n s)) →
  agree (each_service f app) (each_service g app).
Proof.
  intros Hfg. unfold each_service, each_service_with. agree_chain. apply foldM_agree; [|done..].
  intros [u a] name. unfold service_step. destruct (app_services a !! name); [|done]. agree_chain. apply Hfg.
Qed.

Lemma references_agree field s r : agree (@check_references _ R1 field s r) (@check_references _ R2 field s r).
Proof.
  unfold check_references, at_field. agree_chain; apply wrap_agree; [apply ContainerDaemons|apply AWSIdentities].
Qed.

Lemma service_environments field s r :
  agree (@check_service_environment _ R1 field s r) (@check_service_environment _ R2 field s r).
Proof. unfold check_service_environment. agree_chain; [apply secret_keys|apply validateEnvironments]. Qed.

Lemma modes_agree field name s :
  agree (@normalize_modes _ _ _ R1 field name s) (@normalize_modes _ _ _ R2 field name s).
Proof.
  unfold normalize_modes, at_field. agree_chain; apply wrap_agree; [apply JobAndFiles|apply Sidecars].
Qed.

Lemma service_agree app name s :
  agree (@normalize_service _ _ _ R1 app name s) (@normalize_service _ _ _ R2 app name s).
Proof.
  unfold normalize_service. agree_chain.
  - apply modes_agree.
  - rewrite (EffectiveServices R1 R2). apply service_environments.
  - rewrite (EffectiveServices R1 R2). apply references_agree.
Qed.

Lemma networks_agree app : agree (@normalize_networks R1 app) (@normalize_networks R2 app).
Proof. unfold normalize_networks. agree_chain. by apply iterM_ranges. Qed.

Lemma environment_agree app :
  agree (@check_application_environment _ R1 app) (@check_application_environment _ R2 app).
Proof. unfold check_application_environment. agree_chain; [apply validateEnvironments|apply secret_keys]. Qed.

End normalize.

(** An operation whose outcome no order of its maps can change. *)
Definition order_irrelevant {A B} (f : RangeOrder → A → result B) : Prop :=
  ∀ R1 R2 x, is_ok (f R1 x) = is_ok (f R2 x) ∧ ∀ y, f R1 x = Ok y ↔ f R2 x = Ok y.

Section properties.
Context `{Host} `{ThirdParty} `{Quantity}.

(** C2: [Normalize] is deterministic although it ranges over maps in an
    unspecified order throughout: under any two orders it accepts the same
    applications and returns the same revision; at most the error reported
    for a rejected application differs. *)
Theorem Normalize_order_irrelevant : order_irrelevant (λ R, @Normalize _ _ _ R).
Proof.
  intros R1 R2 input. assert (agree (@Normalize _ _ _ R1 input) (@Normalize _ _ _ R2 input)) as Hag.
  { unfold Normalize. agree_chain.
    - apply Endpoints_agree.
    - apply Bindings_agree.
    - apply NamedStorage.
    - apply each_service_agree. apply service_agree.
    - apply environment_agree.
    - apply networks_agree.
    - apply Domains_agree. }
  split; [by apply agree_is_ok|exact Hag].
Qed.
End properties.
