(* ===== verification/SpecTransfer.v ===== *)
(** Plans that build one revision from others: adding, naming and moving services
    (service_transfer.go) and replacing a volume claim (volume_resize.go). Every
    plan normalises what it read and what it returns. *)
From S2P Require Import Prelude GoStd Regex SpecTypes Platform SpecChecks SpecServices SpecEnvironment SpecResources SpecStorage SpecWorkloads SpecNormalize WellFormed.
#[global] Open Scope Z_scope.

(** * Adding and moving services *)

Section transfer.
Context `{Host} `{ThirdParty} `{Quantity} `{RangeOrder}.

(** [delete(app.Services, name)] *)
Definition drop_service (name : string) (app : Application) : Application :=
  set_app_Services (Some (delete name (app_services app))) app.

(** [for host, target := range Domains { if target == old { Domains[host] = name } }] *)
Definition rename_target (old name : string) (domains : gmap string string) : gmap string string :=
  fold_left (λ acc kv, if (kv.2 =? old)%string then <[kv.1 := name]> acc else acc) (range domains) domains.

Definition NameTemplateService (app : Application) (name : string) : result Application :=
  if is_empty name then Ok app
  else
    _ ← fail_when (negb (full_match namePattern name))
          (Errorf "service_name: use 1–40 lowercase letters, digits or hyphens" []);
    _ ← fail_when (negb (lenm (app_services app) =? 1))
          (Errorf "service_name: multi-service templates keep their original names" []);
    next ← Normalize app;
    let old := default EmptyString (head (Names next)) in
    let svc := default zero_Service (app_services next !! old) in
    let next := put_service name svc (drop_service old next) in
    Normalize (set_app_Domains (rename_target old name next.(app_Domains)) next).

(** The loop over the names of [addition]. *)
Definition add_service (addition next : Application) (name : string) : result Application :=
  _ ← fail_when (has_key (app_services next) name)
        (Errorf "service %s already exists; choose a different service name or application" [AStr name]);
  Ok (put_service name (EffectiveService addition (default zero_Service (app_services addition !! name))) next).

(** The loop over the networks of [addition]. *)
Definition add_network (nets : gmap string Network) (kv : string * Network) : result (gmap string Network) :=
  let '(name, value) := kv in
  _ ← fail_when (match nets !! name with Some old => negb (bool_decide (old = value)) | None => false end)
        (Errorf "network %s has different settings in this application" [AStr name]);
  Ok (<[name := value]> nets).

(** The loops over its volumes and domains. *)
Definition add_fresh {V} (fmt : string) (m : gmap string V) (kv : string * V) : result (gmap string V) :=
  let '(name, value) := kv in
  _ ← fail_when (has_key m name) (Errorf fmt [AStr name]);
  Ok (<[name := value]> m).

Definition AddServices (base addition : Application) : result Application :=
  next ← Normalize base;
  addition ← Normalize addition;
  next ← foldM (add_service addition) next (Names addition);
  nets ← foldM add_network next.(app_Networks) (range addition.(app_Networks));
  vols ← foldM (add_fresh "volume %s already exists; existing data cannot be reused implicitly")
           next.(app_Volumes) (range addition.(app_Volumes));
  doms ← foldM (add_fresh "domain %s already exists") next.(app_Domains) (range addition.(app_Domains));
  Normalize (set_app_Domains doms (set_app_Volumes vols (set_app_Networks nets next))).

(** What the service itself must not have. *)
Definition check_movable (source : Application) (name : string) (svc : Service) : result unit :=
  _ ← fail_when (non_nil svc.(svc_Volume) || (0 <? lenl svc.(svc_Mounts)))
        (Errorf "this service has persistent data; back up and restore its volumes in the destination before migrating it" []);
  _ ← fail_when (non_nil svc.(svc_Job))
        (Errorf "jobs need an explicit schedule or execution handover to avoid running twice; create the job in the destination after disabling the original" []);
  _ ← fail_when (negb (is_empty svc.(svc_NodeProfile)))
        (Errorf "the node profile belongs to the source application. Obtain a destination grant before creating the destination service" []);
  _ ← fail_when (negb (is_empty svc.(svc_RuntimeProfile)))
        (Errorf "the runtime profile belongs to the source application. Obtain a destination grant before creating the destination service" []);
  _ ← fail_when (non_nil svc.(svc_TLS) || (0 <? lenl svc.(svc_CertificateMounts)) ||
                 negb (is_empty svc.(svc_AWSIdentity)) || negb (is_empty svc.(svc_ContainerDaemon)) ||
                 (0 <? lenl svc.(svc_PublicTCP)))
        (Errorf "this service has application-bound certificates, identity, a container daemon binding or public TCP; migrate those settings explicitly before moving" []);
  _ ← iterM (λ kv : string * string, fail_when (kv.2 =? name)%string
          (Errorf "this service has custom domains; plan the domain cutover before moving it" []))
        (range source.(app_Domains));
  fail_when ((0 <? lenl svc.(svc_DependsOn)) || (0 <? lenm svc.(svc_Bindings)) || non_nil svc.(svc_NetworkAccess))
    (Errorf "this service has dependencies, bindings or network rules; update those connections before moving it" []).

(** What its peers must not say of it. *)
Definition check_peer (name : string) (entry : string * Service) : result unit :=
  let peer := entry.2 in
  _ ← iterM (λ dependency, fail_when (dependency =? name)%string
          (Errorf "another service depends on %s; update that dependency before moving" [AStr name]))
        peer.(svc_DependsOn);
  _ ← iterM (λ kv : string * Binding, fail_when (kv.2.(b_Service) =? name)%string
          (Errorf "another service has a binding to %s; update that binding before moving" [AStr name]))
        (range peer.(svc_Bindings));
  match peer.(svc_NetworkAccess) with
  | Some access =>
      iterM (λ from, fail_when (from =? name)%string
          (Errorf "another service has a network rule for %s; update that rule before moving" [AStr name]))
        (default [] access.(na_From))
  | None => Ok tt
  end.

Definition check_secret_providers (svc : Service) : result unit :=
  iterM (λ kv : string * SecretRef, fail_when (negb (is_empty kv.2.(sr_Provider)))
      (Errorf "external secret providers are application-scoped; configure their destination bindings before migrating this service" []))
    (range (SecretReferences svc)).

(** The loop over the networks of the moved service. *)
Definition move_network (source : Application) (nets : gmap string Network) (network : string)
    : result (gmap string Network) :=
  let value := get_network source network in
  _ ← fail_when (negb (is_empty value.(net_VirtualNetwork)))
        (Errorf "shared virtual-network membership needs an explicit migration" []);
  _ ← fail_when (match nets !! network with Some old => negb (bool_decide (old = value)) | None => false end)
        (Errorf "network %s differs in the destination" [AStr network]);
  Ok (<[network := value]> nets).

Definition MoveService (source destination : Application) (name targetName : string)
    : result (Application * Application) :=
  source ← Normalize source;
  destination ← Normalize destination;
  match app_services source !! name with
  | None => Err (Errorf "service %s is absent from this application" [AStr name])
  | Some svc =>
      _ ← fail_when (negb (full_match namePattern targetName))
            (Errorf "destination service name: use 1–40 lowercase letters, digits or hyphens" []);
      _ ← fail_when (has_key (app_services destination) targetName)
            (Errorf "service %s already exists in the destination; choose another name" [AStr targetName]);
      _ ← check_movable source name svc;
      _ ← iterM (check_peer name) (range (app_services source));
      let svc := EffectiveService source svc in
      _ ← check_secret_providers svc;
      nets ← foldM (move_network source) destination.(app_Networks) (default [] svc.(svc_Networks));
      let destination := put_service targetName svc (set_app_Networks nets destination) in
      source ← Normalize (drop_service name source);
      destination ← Normalize destination;
      Ok (source, destination)
  end.
End transfer.

(** * Replacing a volume claim *)

Record VolumeResize : Type := mkVolumeResize {
  vr_Claim : string;
  vr_TargetClaim : string;
  vr_TargetName : string;
  vr_OldGiB : Z;
  vr_SizeGiB : Z;
  vr_Services : list string;
  vr_User : Z;
  vr_Group : Z;
  vr_FSGroup : Z;
}.

Definition volume_claim (name : string) : string := "hakopod-volume-" +:+ name.
Definition data_claim (name : string) : string := name +:+ "-data".

(** [fmt.Sprintf("resize-%x", sha256.Sum256(text)[:10])]: twenty hexadecimal
    digits of a digest the model does not compute. *)
Class Digest := { sha256_hex10 : string → string }.

Section resize.
Context `{Host} `{ThirdParty} `{Quantity} `{RangeOrder} `{Digest}.

Definition HasVolumeClaim (a : Application) (claim : string) : bool :=
  existsb (λ name, (claim =? volume_claim name)%string) (keys_of a.(app_Volumes)) ||
  existsb (λ kv : string * Service, non_nil kv.2.(svc_Volume) && (claim =? data_claim kv.1)%string)
    (range (app_services a)).

(** The first loop: the named volume behind [claim]. *)
Definition find_volume (a : Application) (claim : string) : option (string * NamedVolume) :=
  fold_left (λ acc kv, if (claim =? volume_claim kv.1)%string then Some kv else acc)
    (range a.(app_Volumes)) None.

(** The service's mounts redirected to the new volume, and whether it uses the
    claim: its own volume becomes a mount, mounts of the named one move. *)
Definition redirect_volume (claim target name : string) (svc : Service)
    : Service * option NamedVolume :=
  match svc.(svc_Volume) with
  | Some v =>
      if (claim =? data_claim name)%string then
        (set_svc_Volume None
          (set_svc_Mounts (svc.(svc_Mounts) ++ [mkMount target v.(vol_MountPath) false "data"]) svc),
         Some (mkNamedVolume v.(vol_SizeGiB) v.(vol_StorageClass) "ReadWriteOnce"))
      else (svc, None)
  | None => (svc, None)
  end.

Definition redirect_mount (named target : string) (m : Mount) : Mount :=
  if negb (is_empty named) && (m.(mt_Volume) =? named)%string
  then set_mt_SubPath (path_Join "data" m.(mt_SubPath)) (set_mt_Volume target m) else m.

Definition uses_named (named : string) (svc : Service) : bool :=
  existsb (λ m, negb (is_empty named) && (m.(mt_Volume) =? named)%string) svc.(svc_Mounts).

(** [user], [group] and [fs] with their defaults. *)
Definition identity_of (svc : Service) : Z * Z * Z :=
  let user := if svc.(svc_RunAsUser) =? 0 then 10001 else svc.(svc_RunAsUser) in
  (user, if svc.(svc_RunAsGroup) =? 0 then user else svc.(svc_RunAsGroup),
   if svc.(svc_FSGroup) =? 0 then user else svc.(svc_FSGroup)).

(** The body of the loop over the services: [next], [volume] and [r]. *)
Definition resize_service (claim named : string) (st : Application * NamedVolume * VolumeResize)
    (entry : string * Service) : result (Application * NamedVolume * VolumeResize) :=
  let '(next, volume, r) := st in
  let '(name, svc) := entry in
  _ ← fail_when (non_nil svc.(svc_Job))
        (Errorf "applications with deployment or scheduled jobs require an operator-managed volume migration" []);
  let '(svc1, own) := redirect_volume claim r.(vr_TargetName) name svc in
  let affected := non_nil own || uses_named named svc1 in
  let svc2 := set_svc_Mounts (redirect_mount named r.(vr_TargetName) <$> svc1.(svc_Mounts)) svc1 in
  let volume := default volume own in
  if affected then
    _ ← fail_when (non_nil svc2.(svc_Job) || non_nil svc2.(svc_Autoscaling) ||
                   negb (svc2.(svc_Replicas) =? 1) || non_nil svc2.(svc_Serverless))
          (Errorf "resize requires single-replica services without autoscaling or jobs" []);
    let '(user, group, fs) := identity_of svc2 in
    _ ← fail_when ((0 <? lenl r.(vr_Services)) &&
                   (negb (r.(vr_User) =? user) || negb (r.(vr_Group) =? group) || negb (r.(vr_FSGroup) =? fs)))
          (Errorf "shared-volume services must use the same filesystem identity for migration" []);
    Ok (put_service name svc2 next, volume,
        mkVolumeResize r.(vr_Claim) r.(vr_TargetClaim) r.(vr_TargetName) r.(vr_OldGiB) r.(vr_SizeGiB)
          (r.(vr_Services) ++ [name]) user group fs)
  else Ok (next, volume, r).

Definition zero_NamedVolume : NamedVolume := mkNamedVolume 0 EmptyString EmptyString.

Definition ResizeVolume (original : Application) (claim : string) (size : Z) (operation : string)
    : result (Application * VolumeResize) :=
  next ← Normalize original;
  _ ← fail_when ((size <? 1) || (200 <? size))
        (Errorf "choose a volume size between 1 and 200 GiB" []);
  let target := "resize-" +:+ sha256_hex10 (operation +:+ ":" +:+ claim) in
  let r := mkVolumeResize claim (volume_claim target) target 0 size [] 0 0 0 in
  let found := find_volume next claim in
  let named := match found with Some (name, _) => name | None => EmptyString end in
  let volume := match found with Some (_, v) => v | None => zero_NamedVolume end in
  '(next, volume, r) ← foldM (resize_service claim named) (next, volume, r) (range (app_services next));
  _ ← fail_when ((volume.(nv_SizeGiB) =? 0) || (lenl r.(vr_Services) =? 0))
        (Errorf "choose an attached persistent volume" []);
  _ ← fail_when (size =? volume.(nv_SizeGiB)) (Errorf "choose a different volume size" []);
  let r := mkVolumeResize r.(vr_Claim) r.(vr_TargetClaim) r.(vr_TargetName) volume.(nv_SizeGiB) r.(vr_SizeGiB)
             (sort_strings r.(vr_Services)) r.(vr_User) r.(vr_Group) r.(vr_FSGroup) in
  let volumes := if is_empty named then next.(app_Volumes) else delete named next.(app_Volumes) in
  let volumes := <[r.(vr_TargetName) := set_nv_SizeGiB size volume]> volumes in
  next ← Normalize (set_app_Volumes volumes next);
  Ok (next, r).
End resize.

(** * Facts *)

Section transfer_facts.
Context `{Host} `{ThirdParty} `{Q : Quantity} `{!QuantityLaws Q} `{RangeOrder}.

Lemma Normalize_lookup input app n s : Normalize input = Ok app →
  app_services input !! n = Some s → ∃ s', app_services app !! n = Some s' ∧ kept s s'.
Proof.
  intros [Hk _]%Normalize_frame Hs. specialize (Hk n). rewrite Hs in Hk. inversion Hk; eauto.
Qed.

Lemma Normalize_lookup_None input app n : Normalize input = Ok app →
  app_services input !! n = None → app_services app !! n = None.
Proof. intros [Hk _]%Normalize_frame Hs. specialize (Hk n). rewrite Hs in Hk. by inversion Hk. Qed.

Lemma app_services_drop name app n :
  app_services (drop_service name app) !! n = if decide (n = name) then None else app_services app !! n.
Proof.
  unfold drop_service, app_services. simpl. case_decide; subst; [by rewrite lookup_delete_eq|].
  by rewrite lookup_delete_ne.
Qed.

(** What [kept] says about the inputs of inheritance. *)
Lemma kept_environment s s' : kept s s' →
  s'.(svc_Env) = s.(svc_Env) ∧ s'.(svc_Secrets) = s.(svc_Secrets) ∧ s'.(svc_Bindings) = s.(svc_Bindings) ∧
  (s.(svc_Actions) = None ↔ s'.(svc_Actions) = None).
Proof.
  intros [He Ha]. split_and!; symmetry.
  - exact (f_equal svc_Env He).
  - exact (f_equal svc_Secrets He).
  - exact (f_equal svc_Bindings He).
  - unfold has_actions in Ha. destruct (svc_Actions s), (svc_Actions s'); done.
Qed.

(** A variable with an explicit value stays explicit under any defaults. *)
Lemma effective_value_explicit app s other t k v : kept (EffectiveService app s) t →
  (EffectiveService app s).(svc_Env) !! k = Some v → (EffectiveService other t).(svc_Env) !! k = Some v.
Proof.
  intros Ht Hv. apply kept_environment in Ht as (E1 & E2 & E3 & E4).
  rewrite EffectiveService_Actions in E4.
  destruct (svc_Actions s) eqn:Hact.
  - assert (svc_Actions t ≠ None) as Hne by (intros Hn; apply E4 in Hn; done).
    unfold EffectiveService at 1. destruct (svc_Actions t); [|done]. by rewrite E1.
  - assert (svc_Actions t = None) as Hn by (by apply E4).
    rewrite EffectiveService_Env by done. rewrite E1, E2, E3, Hv.
    destruct (EffectiveService_disjoint app s k Hact) as [Hb Hs]. cbv zeta in *.
    destruct (svc_Bindings (EffectiveService app s) !! k); [destruct Hb as [_ ?]; [done|congruence]|].
    destruct (svc_Secrets (EffectiveService app s) !! k); [|done]. by rewrite Hs in Hv.
Qed.

Lemma iterM_range_each {V} (f : string * V → result unit) (m : gmap string V) u :
  iterM f (range m) = Ok u → ∀ k v, m !! k = Some v → f (k, v) = Ok tt.
Proof. rewrite iterM_Ok, Forall_forall. intros Hall k v Hk. apply Hall. by apply elem_of_range. Qed.

Lemma move_networks_services source nets l nets' : foldM (move_network source) nets l = Ok nets' →
  ∀ k net, nets !! k = Some net → nets' !! k = Some net.
Proof.
  revert nets. induction l as [|n l IH]; intros nets; cbn [foldM]; [by intros [= ->]|].
  rewrite bind_Ok. intros (nets1 & Hn & Hl) k net Hk. eapply IH; [done|].
  unfold move_network in Hn. inv_ok. destruct (decide (n = k)) as [->|Hne].
  - rewrite Hk in *. match goal with H : negb (bool_decide _) = false |- _ => apply negb_false_iff, bool_decide_eq_true in H; subst end.
    by rewrite lookup_insert_eq.
  - by rewrite lookup_insert_ne.
Qed.

(** A plan that succeeded: what each application became. *)
Record moved_service (name target : string) (src dst src' dst' : Application) (svc : Service) : Prop := {
  mv_present : app_services src !! name = Some svc;
  mv_free : app_services dst !! target = None;
  mv_movable : check_movable src name svc = Ok tt;
  mv_peers : ∀ n s, app_services src !! n = Some s → check_peer name (n, s) = Ok tt;
  mv_providers : check_secret_providers (EffectiveService src svc) = Ok tt;
  mv_source : ∀ n, option_Forall2 kept (app_services (drop_service name src) !! n) (app_services src' !! n);
  mv_destination : ∀ n, option_Forall2 kept
    (if decide (n = target) then Some (EffectiveService src svc) else app_services dst !! n) (app_services dst' !! n);
  mv_domains : src'.(app_Domains) = src.(app_Domains);
  mv_networks : ∀ k net, k ≠ "default" → dst.(app_Networks) !! k = Some net → dst'.(app_Networks) !! k = Some net;
  mv_stored : ∀ n s, app_services src' !! n = Some s → stored_service src' n s;
}.

Lemma MoveService_Ok source destination name target src' dst' :
  MoveService source destination name target = Ok (src', dst') →
  ∃ src dst svc, Normalize source = Ok src ∧ Normalize destination = Ok dst ∧
    moved_service name target src dst src' dst' svc.
Proof.
  unfold MoveService. intros Hm. apply bind_Ok in Hm as (src & Hsrc & Hm). apply bind_Ok in Hm as (dst & Hdst & Hm).
  destruct (app_services src !! name) as [svc|] eqn:Hsvc; [|done].
  repeat (apply bind_unit_Ok in Hm as [? Hm]). apply bind_Ok in Hm as (nets & Hnets & Hm).
  apply bind_Ok in Hm as (s1 & Hs1 & Hm). apply bind_Ok in Hm as (d1 & Hd1 & [= <- <-]). 
  exists src, dst, svc. split_and!; [done|done|].
  destruct (Normalize_frame _ _ Hs1) as [Hk1 Hf1]. destruct (Normalize_frame _ _ Hd1) as [Hk2 _].
  rewrite !fail_when_Ok in *. split; try done.
  - unfold has_key in *. by destruct (app_services dst !! target).
  - intros n s Hn. by eapply (iterM_range_each (check_peer name)).
  - intros n. specialize (Hk2 n). by rewrite lookup_put_service in Hk2.
  - rewrite Hf1. reflexivity.
  - intros k net Hne Hk. pose proof (move_networks_services _ _ _ _ Hnets k net Hk) as Hnet.
    apply Normalize_other_networks with (k := k) in Hd1; [|done]. rewrite Hd1. exact Hnet.
  - by apply Normalize_stored with (input := drop_service name src).
Qed.

(** ** What the checks of a move say *)

Lemma check_movable_data app name svc : check_movable app name svc = Ok tt →
  svc.(svc_Volume) = None ∧ svc.(svc_Mounts) = [] ∧ svc.(svc_Bindings) = ∅.
Proof.
  unfold check_movable. intros Hc. inv_ok. split_orb. split_and!; auto with go.
Qed.

Lemma check_movable_domains app name svc h : check_movable app name svc = Ok tt →
  app.(app_Domains) !! h ≠ Some name.
Proof.
  unfold check_movable. intros Hc Hh. inv_ok.
  match goal with H : iterM _ (range (app_Domains app)) = Ok _ |- _ => pose proof (iterM_range_each _ _ _ H h name Hh) as Hd end.
  cbv beta in Hd. rewrite fail_when_Ok in Hd. simpl in Hd. by rewrite String.eqb_refl in Hd.
Qed.

Lemma check_peer_bindings name n s : check_peer name (n, s) = Ok tt →
  ∀ k b, s.(svc_Bindings) !! k = Some b → b.(b_Service) ≠ name.
Proof.
  unfold check_peer. intros Hc k b Hb. apply bind_unit_Ok in Hc as [_ Hc]. apply bind_unit_Ok in Hc as [Hc _].
  pose proof (iterM_range_each _ _ _ Hc k b Hb) as Hp. cbv beta in Hp. rewrite fail_when_Ok in Hp.
  by apply String.eqb_neq.
Qed.

Lemma EffectiveService_Volume app s : (EffectiveService app s).(svc_Volume) = s.(svc_Volume).
Proof. unfold EffectiveService. by destruct (svc_Actions s). Qed.
Lemma EffectiveService_Mounts app s : (EffectiveService app s).(svc_Mounts) = s.(svc_Mounts).
Proof. unfold EffectiveService. by destruct (svc_Actions s). Qed.
End transfer_facts.

(** ** The resize loop *)

Section resize_facts.
Context `{Host} `{ThirdParty} `{Q : Quantity} `{!QuantityLaws Q} `{RangeOrder} `{Digest}.

(** One service with its claim redirected, and whether it used it. *)
Definition redirected (claim named target name : string) (s : Service) : Service :=
  let s1 := (redirect_volume claim target name s).1 in
  set_svc_Mounts (redirect_mount named target <$> s1.(svc_Mounts)) s1.
Definition uses_claim (claim named target name : string) (s : Service) : bool :=
  non_nil (redirect_volume claim target name s).2 ||
  uses_named named (redirect_volume claim target name s).1.

Lemma redirect_mount_none named target ms :
  existsb (λ m, negb (is_empty named) && (m.(mt_Volume) =? named)%string) ms = false →
  redirect_mount named target <$> ms = ms.
Proof.
  induction ms as [|m ms IH]; [done|]. cbn [existsb]. intros [Hm Hms]%orb_false_iff.
  rewrite fmap_cons, IH by done. unfold redirect_mount. by rewrite Hm.
Qed.

Lemma redirected_unused claim named target name s :
  uses_claim claim named target name s = false → redirected claim named target name s = s.
Proof.
  unfold uses_claim, redirected, redirect_volume. intros [Hv Hn]%orb_false_iff.
  destruct (svc_Volume s) as [v|]; [destruct (claim =? data_claim name)%string|]; simpl in *; [done| |];
    unfold uses_named in Hn; rewrite redirect_mount_none by done; by destruct s.
Qed.

Lemma resize_service_Ok claim named next volume r name s st' :
  resize_service claim named (next, volume, r) (name, s) = Ok st' →
  s.(svc_Job) = None ∧
  (uses_claim claim named r.(vr_TargetName) name s = true → s.(svc_Replicas) = 1 ∧ s.(svc_Autoscaling) = None ∧ s.(svc_Serverless) = None) ∧
  st'.1.2 = default volume (redirect_volume claim r.(vr_TargetName) name s).2 ∧
  st'.2.(vr_Claim) = r.(vr_Claim) ∧ st'.2.(vr_TargetClaim) = r.(vr_TargetClaim) ∧
  st'.2.(vr_TargetName) = r.(vr_TargetName) ∧ st'.2.(vr_SizeGiB) = r.(vr_SizeGiB) ∧
  st'.2.(vr_Services) = r.(vr_Services) ++ (if uses_claim claim named r.(vr_TargetName) name s then [name] else []) ∧
  st'.1.1 = (if uses_claim claim named r.(vr_TargetName) name s
             then put_service name (redirected claim named r.(vr_TargetName) name s) next else next).
Proof.
  unfold resize_service. fold (redirected claim named (vr_TargetName r) name s).
  unfold uses_claim, redirected. destruct (redirect_volume claim (vr_TargetName r) name s) as [s1 own] eqn:Hr.
  intros Hn. simpl. apply bind_unit_Ok in Hn as [Hj%fail_when_Ok Hn].
  assert (s1.(svc_Replicas) = s.(svc_Replicas) ∧ s1.(svc_Autoscaling) = s.(svc_Autoscaling) ∧
    s1.(svc_Serverless) = s.(svc_Serverless)) as (E1 & E2 & E3).
  { unfold redirect_volume in Hr. destruct (svc_Volume s); [destruct (_ =? _)%string|]; by injection Hr as <- <-. }
  apply non_nil_false in Hj. split; [done|].
  destruct (non_nil own || uses_named named s1) eqn:Haff.
  - apply bind_unit_Ok in Hn as [Hc%fail_when_Ok Hn]. simpl in Hc. split_orb. zify_bool.
    rewrite <-E1, <-E2, <-E3. destruct (identity_of _) as [[user group] fs].
    apply bind_unit_Ok in Hn as [_ [= <-]]. simpl. split_and!; auto with go.
  - injection Hn as <-. apply orb_false_iff in Haff as [Hown _]. apply non_nil_false in Hown as ->.
    simpl. split_and!; try done. by rewrite app_nil_r.
Qed.

(** The loop over any entries with distinct names. *)
Lemma resize_loop claim named l : ∀ next volume r st', NoDup l.*1 →
  foldM (resize_service claim named) (next, volume, r) l = Ok st' →
  let target := r.(vr_TargetName) in
  same_but_services next st'.1.1 ∧
  (∀ n, n ∉ l.*1 → app_services st'.1.1 !! n = app_services next !! n) ∧
  (∀ n s, (n, s) ∈ l → s.(svc_Job) = None ∧
     (uses_claim claim named target n s = true → s.(svc_Replicas) = 1 ∧ s.(svc_Autoscaling) = None ∧ s.(svc_Serverless) = None) ∧
     app_services st'.1.1 !! n =
       if uses_claim claim named target n s then Some (redirected claim named target n s) else app_services next !! n) ∧
  st'.2.(vr_TargetName) = target ∧ st'.2.(vr_SizeGiB) = r.(vr_SizeGiB) ∧ st'.2.(vr_TargetClaim) = r.(vr_TargetClaim) ∧
  (∀ n, n ∈ st'.2.(vr_Services) ↔ n ∈ r.(vr_Services) ∨ ∃ s, (n, s) ∈ l ∧ uses_claim claim named target n s = true).
Proof.
  induction l as [|[n s] l IH]; intros next volume r st' Hnd; cbn [foldM].
  { intros [= <-]. simpl. split_and!; try done; [intros n s []%not_elem_of_nil|].
    intros n. split; [by left|]. intros [|(s & []%not_elem_of_nil & _)]; done. }
  apply NoDup_cons in Hnd as [Hfresh Hnd]. rewrite bind_Ok. intros (st1 & Hn & Hl).
  destruct st1 as [[next1 volume1] r1].
  apply resize_service_Ok in Hn as (Hj & Hu & _ & _ & E1 & E2 & E3 & E4 & E5). simpl in *.
  destruct (IH _ _ _ _ Hnd Hl) as (Hsame & Hout & Hin & F1 & F2 & F3 & F4). rewrite E2 in *. clear IH Hl.
  set (used := uses_claim claim named (vr_TargetName r) n s) in *.
  assert (∀ k, k ≠ n → app_services next1 !! k = app_services next !! k) as Hother.
  { intros k Hk. rewrite E5. destruct used; [|done]. rewrite lookup_put_service. by case_decide. }
  split_and!; try congruence.
  - etrans; [|exact Hsame]. rewrite E5. destruct used; [apply put_service_same|done].
  - intros k [Hk1 Hk2]%not_elem_of_cons. rewrite Hout by done. by apply Hother.
  - intros k t [[= -> ->]|Hk]%elem_of_cons.
    + split_and!; [done|done|]. fold used. rewrite Hout by done. rewrite E5. destruct used; [|done].
      rewrite lookup_put_service. by case_decide.
    + destruct (Hin k t Hk) as (? & ? & Hs). split_and!; [done|done|].
      rewrite Hother in Hs; [exact Hs|]. intros ->. apply Hfresh. apply list_elem_of_fmap. by exists (n, t).
  - intros k. rewrite F4, E4, elem_of_app. split.
    + intros [[?|Hk]|(t & ? & ?)]; [by left| |right; exists t; split; [by right|done]].
      destruct used eqn:Hused; [|by apply not_elem_of_nil in Hk].
      apply list_elem_of_singleton in Hk as ->. right. exists s. split; [by left|done].
    + intros [?|(t & [[= -> ->]|Ht]%elem_of_cons & Hused)]; [by left; left| |right; by exists t].
      left. right. fold used in Hused. rewrite Hused. by apply list_elem_of_singleton.
Qed.

Lemma volume_claim_inj a b : volume_claim a = volume_claim b → a = b.
Proof. apply string_app_inj_l. Qed.

(** The named volume behind a claim is the only one with that claim. *)
Lemma find_volume_spec a claim :
  match find_volume a claim with
  | Some (name, v) => a.(app_Volumes) !! name = Some v ∧ claim = volume_claim name
  | None => ∀ name, is_Some (a.(app_Volumes) !! name) → claim ≠ volume_claim name
  end.
Proof.
  unfold find_volume.
  cut (∀ l (acc : option (string * NamedVolume)),
    match fold_left (λ acc kv, if (claim =? volume_claim kv.1)%string then Some kv else acc) l acc with
    | Some kv => acc = Some kv ∨ kv ∈ l ∧ claim = volume_claim kv.1
    | None => acc = None ∧ ∀ kv : string * NamedVolume, kv ∈ l → claim ≠ volume_claim kv.1
    end).
  { intros Hgen. specialize (Hgen (range (app_Volumes a)) None). destruct (fold_left _ _ _) as [[name v]|].
    - destruct Hgen as [|[Hin Hc]]; [done|]. split; [by apply elem_of_range|done].
    - destruct Hgen as [_ Hno]. intros name [v Hv]. apply (Hno (name, v)). by apply elem_of_range. }
  induction l as [|kv l IH]; intros acc; cbn [fold_left].
  { destruct acc; [by left|]. split; [done|]. intros kv []%not_elem_of_nil. }
  specialize (IH (if (claim =? volume_claim kv.1)%string then Some kv else acc)).
  destruct (fold_left _ l _) as [kv'|].
  - destruct IH as [IH|[? ?]]; [|by right; split; [right|]].
    destruct (String.eqb_spec claim (volume_claim kv.1)); [|by left]. injection IH as <-. right. by split; [left|].
  - destruct IH as [IH Hno]. destruct (String.eqb_spec claim (volume_claim kv.1)); [done|].
    split; [done|]. intros kv' [->|Hin]%elem_of_cons; [done|by apply Hno].
Qed.

Lemma redirected_Volume claim named target n s : claim = data_claim n →
  non_nil (redirected claim named target n s).(svc_Volume) = false.
Proof.
  intros ->. unfold redirected, redirect_volume. destruct (svc_Volume s) as [v|] eqn:Hv; simpl; [|by rewrite Hv].
  by rewrite String.eqb_refl.
Qed.

(** The name of the volume behind a claim, empty when there is none. *)
Definition named_behind (a : Application) (claim : string) : string :=
  match find_volume a claim with Some (name, _) => name | None => EmptyString end.
Definition resize_target (claim operation : string) : string :=
  "resize-" +:+ sha256_hex10 (operation +:+ ":" +:+ claim).

(** A volume of a stored application has a name. *)
Lemma volume_name_non_empty input app : Normalize input = Ok app → app.(app_Volumes) !! EmptyString = None.
Proof.
  intros Hn. destruct (Normalize_storage _ _ Hn) as [Hv _ _].
  destruct (app_Volumes app !! EmptyString) as [v|] eqn:He; [|done].
  destruct (Hv _ _ He) as [Hm _]. vm_compute in Hm. discriminate.
Qed.

Lemma old_volume_gone next plan app claim target k v : Normalize plan = Ok app →
  plan.(app_Volumes) = <[target := v]>
    (if is_empty (named_behind next claim) then next.(app_Volumes) else delete (named_behind next claim) next.(app_Volumes)) →
  claim = volume_claim k → claim ≠ volume_claim target → app.(app_Volumes) !! k = None.
Proof.
  intros Hplan Hv Hc Hne.
  destruct (decide (k = EmptyString)) as [->|Hk]; [by eapply volume_name_non_empty|].
  pose proof (Normalize_volumes _ _ k Hplan) as Hf. rewrite Hv in Hf.
  rewrite lookup_insert_ne in Hf by (intros ->; done).
  unfold named_behind in Hf. pose proof (find_volume_spec next claim) as Hs.
  destruct (find_volume next claim) as [[name w]|].
  - destruct Hs as [_ Hs]. rewrite Hc in Hs. apply volume_claim_inj in Hs as <-.
    apply is_empty_false in Hk. rewrite Hk, lookup_delete_eq in Hf. by inversion Hf.
  - simpl in Hf. destruct (app_Volumes next !! k) as [w|] eqn:Hw; [|by inversion Hf].
    exfalso. by apply (Hs k).
Qed.

Lemma ResizeVolume_Ok original claim size operation app r :
  ResizeVolume original claim size operation = Ok (app, r) →
  ∃ next plan, Normalize original = Ok next ∧ Normalize plan = Ok app ∧
    let target := resize_target claim operation in let named := named_behind next claim in
    1 ≤ size ≤ 200 ∧ r.(vr_TargetName) = target ∧ r.(vr_TargetClaim) = volume_claim target ∧
    r.(vr_SizeGiB) = size ∧ r.(vr_OldGiB) ≠ size ∧ r.(vr_Services) ≠ [] ∧ Sorted str_le r.(vr_Services) ∧
    (∃ v, plan.(app_Volumes) = <[target := set_nv_SizeGiB size v]>
            (if is_empty named then next.(app_Volumes) else delete named next.(app_Volumes))) ∧
    (∀ n, app_services plan !! n = redirected claim named target n <$> app_services next !! n) ∧
    (∀ n s, app_services next !! n = Some s → s.(svc_Job) = None ∧
       (uses_claim claim named target n s = true → s.(svc_Replicas) = 1 ∧ s.(svc_Autoscaling) = None ∧ s.(svc_Serverless) = None)) ∧
    (∀ n, n ∈ r.(vr_Services) ↔ ∃ s, app_services next !! n = Some s ∧ uses_claim claim named target n s = true).
Proof.
  unfold ResizeVolume. intros Hr. apply bind_Ok in Hr as (next & Hnext & Hr). apply bind_unit_Ok in Hr as [Hsz%fail_when_Ok Hr].
  cbv zeta in Hr. change (match find_volume next claim with Some (name, _) => name | None => EmptyString end)
    with (named_behind next claim) in Hr.
  change ("resize-" +:+ sha256_hex10 (operation +:+ ":" +:+ claim)) with (resize_target claim operation) in Hr.
  set (target := resize_target claim operation) in *. set (named := named_behind next claim) in *.
  apply bind_Ok in Hr as ([[plan volume] r1] & Hl & Hr).
  apply bind_unit_Ok in Hr as [Hat%fail_when_Ok Hr]. apply bind_unit_Ok in Hr as [Hne%fail_when_Ok Hr].
  apply bind_Ok in Hr as (final & Hfinal & [= <- <-]).
  apply resize_loop in Hl as (Hsame & Hout & Hin & E1 & E2 & E3 & E4); [|apply keys_of_NoDup]. simpl in *.
  split_orb. zify_bool. exists next, (set_app_Volumes (<[vr_TargetName r1:=set_nv_SizeGiB size volume]>
    (if is_empty named then app_Volumes plan else delete named (app_Volumes plan))) plan).
  assert (plan.(app_Volumes) = next.(app_Volumes)) as Ev by (rewrite Hsame; reflexivity).
  cbv zeta. simpl. rewrite E1, E2, E3, Ev in *. split_and!; try done; try lia.
  - intros Hnil. assert (vr_Services r1 = []) as Hz.
    { destruct (vr_Services r1) as [|x l] eqn:Hs; [done|]. exfalso. apply (not_elem_of_nil x).
      rewrite <-Hnil, sort_strings_perm. by left. }
    rewrite Hz in *. done.
  - apply sort_strings_sorted.
  - by exists volume.
  - intros n. change (app_services plan !! n = redirected claim named target n <$> app_services next !! n).
    destruct (app_services next !! n) as [s|] eqn:Hn.
    + destruct (Hin n s) as (_ & _ & ->); [by apply elem_of_range|]. simpl.
      destruct (uses_claim claim named target n s) eqn:Hu; [done|]. by rewrite redirected_unused, Hn.
    + rewrite Hout; [by rewrite Hn|]. intros ([k s] & -> & Hk%elem_of_range)%list_elem_of_fmap. simpl in *. congruence.
  - intros n s Hn. destruct (Hin n s) as (? & ? & _); [by apply elem_of_range|done].
  - intros n. rewrite sort_strings_perm, E4. setoid_rewrite elem_of_range. split; [|by right].
    intros [[]%not_elem_of_nil|]; done.
Qed.
End resize_facts.

(** * Properties *)

Section transfer_properties.
Context `{Host} `{ThirdParty} `{Q : Quantity} `{!QuantityLaws Q} `{RangeOrder}.

(** A move that is planned removes the service from the source and adds it to
    the destination, nothing else: every other service of both applications is
    kept, the source is left without dependency, binding or domain naming the
    service, the moved service carries no volume, job, binding or external
    secret, and every environment value it had at run time is the value it
    has in the destination, whatever the defaults there. *)
Theorem MoveService_sound source destination name target src' dst' :
  MoveService source destination name target = Ok (src', dst') →
  ∃ src dst svc moved, Normalize source = Ok src ∧ Normalize destination = Ok dst ∧
    app_services src !! name = Some svc ∧ app_services src' !! name = None ∧
    app_services dst !! target = None ∧ app_services dst' !! target = Some moved ∧
    (∀ n, n ≠ name → option_Forall2 kept (app_services src !! n) (app_services src' !! n)) ∧
    (∀ n, n ≠ target → option_Forall2 kept (app_services dst !! n) (app_services dst' !! n)) ∧
    (∀ n s, app_services src' !! n = Some s → (name ∉ s.(svc_DependsOn)) ∧
       ∀ k b, s.(svc_Bindings) !! k = Some b → b.(b_Service) ≠ name) ∧
    (∀ h, src'.(app_Domains) !! h ≠ Some name) ∧
    moved.(svc_Volume) = None ∧ moved.(svc_Mounts) = [] ∧ moved.(svc_Bindings) = ∅ ∧
    (∀ k r, SecretReferences (EffectiveService src svc) !! k = Some r → r.(sr_Provider) = EmptyString) ∧
    (∀ k v, (EffectiveService src svc).(svc_Env) !! k = Some v →
       (EffectiveService dst' moved).(svc_Env) !! k = Some v).
Proof.
  intros (src & dst & svc & Hsrc & Hdst & [])%MoveService_Ok.
  pose proof (mv_destination0 target) as Ht. rewrite decide_True in Ht by done.
  inversion Ht as [e moved Hkept He Hmoved|]; subst.
  assert (app_services src' !! name = None) as Hgone.
  { specialize (mv_source0 name). rewrite app_services_drop, decide_True in mv_source0 by done. by inversion mv_source0. }
  exists src, dst, svc, moved. split_and!; try done.
  - intros n Hne. specialize (mv_source0 n). by rewrite app_services_drop, decide_False in mv_source0 by done.
  - intros n Hne. specialize (mv_destination0 n). by rewrite decide_False in mv_destination0 by done.
  - intros n s Hn. split.
    + intros Hin. destruct (mv_stored0 n s Hn) as [_ [_ _ (_ & _ & Hdep) _] _ _ _ _ _ _ _].
      destruct (Hdep name Hin) as [_ [t Ht']]. congruence.
    + intros k b Hb. specialize (mv_source0 n). rewrite app_services_drop, Hn in mv_source0.
      case_decide as Hd; [by inversion mv_source0|]. inversion mv_source0 as [s0 s1 Hk0 Hs0|]; subst.
      symmetry in Hs0. apply kept_environment in Hk0 as (_ & _ & Hbind & _). rewrite Hbind in Hb.
      exact (check_peer_bindings _ _ _ (mv_peers0 n s0 Hs0) k b Hb).
  - intros h Hh. rewrite mv_domains0 in Hh. by eapply check_movable_domains.
  - apply check_movable_data in mv_movable0 as (Hv & _ & _).
    destruct Hkept as [He _]. transitivity (svc_Volume (EffectiveService src svc));
      [symmetry; exact (f_equal svc_Volume He)|]. by rewrite EffectiveService_Volume.
  - apply check_movable_data in mv_movable0 as (_ & Hm & _).
    destruct Hkept as [He _]. transitivity (svc_Mounts (EffectiveService src svc));
      [symmetry; exact (f_equal svc_Mounts He)|]. by rewrite EffectiveService_Mounts.
  - apply check_movable_data in mv_movable0 as (_ & _ & Hb).
    apply kept_environment in Hkept as (_ & _ & -> & _). by rewrite EffectiveService_Bindings.
  - intros k r Hk. pose proof (iterM_range_each _ _ _ mv_providers0 k r Hk) as Hp. cbv beta in Hp.
    rewrite fail_when_Ok in Hp. apply negb_false_iff in Hp. by apply is_empty_true.
  - intros k v. by apply effective_value_explicit.
Qed.
End transfer_properties.

Section resize_properties.
Context `{Host} `{ThirdParty} `{Q : Quantity} `{!QuantityLaws Q} `{RangeOrder} `{Digest}.

(** A volume resize that is planned declares the new volume with the size
    asked for, leaves no service on the old claim, moves every mount of it to
    the new volume under the directory data and nothing else, and reports
    exactly the services it moved, each a single replica of an application
    without jobs. The new claim must not be the old one. *)
Theorem ResizeVolume_sound original claim size operation app r :
  ResizeVolume original claim size operation = Ok (app, r) →
  let target := resize_target claim operation in
  claim ≠ volume_claim target →
  ∃ next, Normalize original = Ok next ∧ let named := named_behind next claim in
    1 ≤ size ≤ 200 ∧ r.(vr_TargetClaim) = volume_claim target ∧
    (∃ v, app.(app_Volumes) !! target = Some v ∧ v.(nv_SizeGiB) = size) ∧
    HasVolumeClaim app claim = false ∧
    (∀ n, option_Forall2 kept (redirected claim named target n <$> app_services next !! n) (app_services app !! n)) ∧
    (∀ n, n ∈ r.(vr_Services) ↔ ∃ s, app_services next !! n = Some s ∧ uses_claim claim named target n s = true) ∧
    (∀ n s, app_services next !! n = Some s → s.(svc_Job) = None ∧
       (uses_claim claim named target n s = true → s.(svc_Replicas) = 1 ∧ s.(svc_Autoscaling) = None)).
Proof.
  intros Hr target Hne.
  destruct (ResizeVolume_Ok _ _ _ _ _ _ Hr) as (next & plan & Hnext & Hplan & Hsz & _ & Htc & _ & _ & _ & _ & [v Hv] & Hsv & Hok & Hin).
  fold target in Htc, Hv, Hsv, Hok, Hin. exists next. split; [done|].
  destruct (Normalize_frame _ _ Hplan) as [Hk _]. split_and!; try done; try lia.
  - pose proof (Normalize_volumes _ _ target Hplan) as Ht. rewrite Hv, lookup_insert_eq in Ht. unfold volume_filled in Ht.
    destruct (app_Volumes app !! target) as [w|]; [|by inversion Ht]. exists w. split; [done|].
    inversion Ht as [v0 v1 [Hw|[_ Hw]]|]; subst v0 v1; by rewrite Hw.
  - unfold HasVolumeClaim. apply orb_false_iff. split; apply existsb_false, Forall_forall.
    + intros k Hk'. apply String.eqb_neq. intros ->.
      apply elem_of_keys_of in Hk' as [w Hw].
      by rewrite (old_volume_gone next plan app (volume_claim k) target k _ Hplan Hv eq_refl Hne) in Hw.
    + intros [n s'] Hs'%elem_of_range. simpl. apply andb_false_iff.
      destruct (String.eqb_spec claim (data_claim n)) as [->|]; [left|by right].
      specialize (Hk n). rewrite Hs', Hsv in Hk. destruct (app_services next !! n) as [s|]; [|by inversion Hk].
      inversion Hk as [s0 s1 [He _]|]; subst. pose proof (f_equal svc_Volume He) as Hvol.
      change (svc_Volume (redirected (data_claim n) (named_behind next (data_claim n)) target n s) = svc_Volume s') in Hvol.
      rewrite <-Hvol. by rewrite redirected_Volume.
  - intros n. rewrite <-Hsv. apply Hk.
  - intros n s Hn. destruct (Hok n s Hn) as [? Hu]. split; [done|]. intros Hus. by destruct (Hu Hus) as (? & ? & _).
Qed.
End resize_properties.

(** * Examples *)

Module TransferExample.
Import Concrete.
#[export] Instance digest : Digest := { sha256_hex10 := λ _, "0123456789abcdef0123" }.

Definition worker : Service :=
  set_svc_Env {["QUEUE" := "mail"]} (set_svc_Image "worker:1" zero_Service).
Definition source : Application :=
  set_app_Env {["REGION" := "eu"]} (set_app_InjectEnv true
    (set_app_Services (Some {["worker" := worker; "web" := set_svc_Image "nginx:1" zero_Service]})
      (set_app_Name "shop" zero_Application))).
Definition destination : Application :=
  set_app_Env {["REGION" := "us"; "TIER" := "gold"]} (set_app_InjectEnv true
    (set_app_Services (Some {["api" := set_svc_Image "api:1" zero_Service]})
      (set_app_Name "mail" zero_Application))).
Definition moved : Application * Application :=
  match MoveService source destination "worker" "sender" with Ok p => p | Err _ => (source, destination) end.

Definition claim : string := "hakopod-volume-data".
Definition empty_resize : VolumeResize :=
  mkVolumeResize EmptyString EmptyString EmptyString 0 0 [] 0 0 0.
Definition resized : Application * VolumeResize :=
  match ResizeVolume Shop.app claim 20 "op-1" with Ok p => p | Err _ => (Shop.app, empty_resize) end.
Definition resized_app : Application := resized.1.
Definition resize : VolumeResize := resized.2.

Lemma resized_ok : ResizeVolume Shop.app claim 20 "op-1" = Ok (resized_app, resize).
Proof. vm_compute. reflexivity. Qed.
End TransferExample.

Import Concrete.
Import TransferExample.

(** The moved service keeps the region of its source. *)
Lemma MoveService_sound_witness :
  ∃ src svc moved, app_services src !! "worker" = Some svc ∧
    app_services TransferExample.moved.2 !! "sender" = Some moved ∧
    (∀ k v, (EffectiveService src svc).(svc_Env) !! k = Some v →
       (EffectiveService TransferExample.moved.2 moved).(svc_Env) !! k = Some v).
Proof.
  destruct (MoveService_sound source destination "worker" "sender" moved.1 moved.2)
    as (src & dst & svc & mvd & ? & ? & Hsvc & ? & ? & Hmoved & ? & ? & ? & ? & ? & ? & ? & ? & Henv);
    [vm_compute; reflexivity|].
  exists src, svc, mvd. split; [exact Hsvc|]. split; [exact Hmoved|exact Henv].
Defined.

Lemma ResizeVolume_sound_witness : HasVolumeClaim resized_app claim = false.
Proof.
  assert (claim ≠ volume_claim (resize_target claim "op-1")) as Hne by (vm_compute; discriminate).
  destruct (ResizeVolume_sound Shop.app claim 20 "op-1" resized_app resize resized_ok Hne)
    as (next & ? & ? & ? & ? & Hgone & ?).
  exact Hgone.
Defined.
