(* ===== verification/SpecRelease.v ===== *)
(** Reviewing a revision (spec.go): the differences shown to an operator
    ([Diff]) and the warnings on an application ([Warnings]). *)
From S2P Require Import Prelude GoStd Regex SpecTypes Platform SpecChecks SpecServices SpecEnvironment SpecResources SpecNormalize.
#[global] Open Scope Z_scope.

(** * Differences *)

(** A value of type [any] in a change: nil, a string map, or any other value by
    its JSON form. *)
Inductive value : Type :=
  | VNil
  | VEnv (m : gmap string string)
  | VJson (j : json).

Record Change : Type := mkChange {
  ch_Service : string;
  ch_Field : string;
  ch_Before : value;
  ch_After : value;
  ch_Sensitive : bool;
}.

Definition of_json {A} (enc : A → json) (a : A) : value := VJson (enc a).
Definition of_str (s : string) : value := VJson (JStr s).
Definition of_bool (b : bool) : value := VJson (JBool b).
Definition of_int (z : Z) : value := VJson (JNum z).

Definition redacted : string := "[redacted]".

Section diff.
Context `{RangeOrder}.

(** One loop of [changedKeys]: the entries of [m] that differ in [other]. *)
Definition differing (m other : gmap string string) : gmap string string :=
  fold_left (λ acc kv,
    match other !! kv.1 with
    | Some next => if (next =? kv.2)%string then acc else <[kv.1 := kv.2]> acc
    | None => <[kv.1 := kv.2]> acc
    end) (range m) ∅.
Definition changedKeys (before after : gmap string string) : gmap string string * gmap string string :=
  (differing before after, differing after before).

Definition redact_map (m : gmap string string) : gmap string string :=
  copy_into id (λ _, redacted) m ∅.
Definition redact (v : value) : value :=
  match v with VEnv m => VEnv (redact_map m) | _ => v end.

Definition redactSidecars (l : list Sidecar) : list Sidecar :=
  (λ sc, set_sc_Env (redact_map sc.(sc_Env)) sc) <$> l.

Definition shown (sensitive : bool) (a b : value) : value * value :=
  if sensitive then
    let '(a, b) := match a, b with
                   | VEnv x, VEnv y => let '(x, y) := changedKeys x y in (VEnv x, VEnv y)
                   | _, _ => (a, b)
                   end in
    (redact a, redact b)
  else (a, b).

(** The closure [add]. *)
Definition add {A} `{EqDecision A} (inj : A → value) (service field : string) (a b : A) (sensitive : bool)
    : list Change :=
  if decide (a = b) then []
  else let '(x, y) := shown sensitive (inj a) (inj b) in [mkChange service field x y sensitive].

Definition diff_files (n : string) (a b : Service) : list Change :=
  if decide (a.(svc_Files) = b.(svc_Files)) then []
  else [mkChange n "files" (of_str redacted) (of_str redacted) true].

Definition diff_sidecars (n : string) (a b : Service) : list Change :=
  if decide (a.(svc_Sidecars) = b.(svc_Sidecars)) then []
  else [mkChange n "sidecars" (of_json (json_list json_Sidecar) (redactSidecars a.(svc_Sidecars)))
          (of_json (json_list json_Sidecar) (redactSidecars b.(svc_Sidecars))) true].

(** The fields of a service present in both revisions, or new. *)
Definition diff_service (n : string) (a b : Service) : list Change := concat [
  add of_str n "image" a.(svc_Image) b.(svc_Image) false;
  add (of_json (json_nil json_Job)) n "job" a.(svc_Job) b.(svc_Job) false;
  add (of_json (json_map json_Binding)) n "bindings" a.(svc_Bindings) b.(svc_Bindings) false;
  add VEnv n "database_client_profiles" a.(svc_DatabaseClientProfiles) b.(svc_DatabaseClientProfiles) false;
  add (of_json (json_map json_HTTPEndpoint)) n "http" a.(svc_HTTP) b.(svc_HTTP) false;
  diff_files n a b;
  add of_int n "port" a.(svc_Port) b.(svc_Port) false;
  add (of_json (json_list json_Port)) n "ports" a.(svc_Ports) b.(svc_Ports) false;
  add (of_json (json_list json_PublicTCPListener)) n "public_tcp" a.(svc_PublicTCP) b.(svc_PublicTCP) false;
  add (of_json (json_nil json_NetworkAccess)) n "network_access" a.(svc_NetworkAccess) b.(svc_NetworkAccess) false;
  add of_bool n "public" a.(svc_Public) b.(svc_Public) false;
  add of_str n "size" a.(svc_Size) b.(svc_Size) false;
  add (of_json (json_nil json_Resources)) n "resources" a.(svc_Resources) b.(svc_Resources) false;
  add of_int n "replicas" a.(svc_Replicas) b.(svc_Replicas) false;
  add of_bool n "suspended" a.(svc_Suspended) b.(svc_Suspended) false;
  add of_str n "healthcheck" a.(svc_Healthcheck) b.(svc_Healthcheck) false;
  add of_int n "startup_timeout_seconds" a.(svc_StartupTimeoutSeconds) b.(svc_StartupTimeoutSeconds) false;
  add (of_json (json_nil json_Readiness)) n "readiness" a.(svc_Readiness) b.(svc_Readiness) false;
  add of_bool n "backend_http2" a.(svc_BackendHTTP2) b.(svc_BackendHTTP2) false;
  add of_int n "ingress_timeout_seconds" a.(svc_IngressTimeoutSeconds) b.(svc_IngressTimeoutSeconds) false;
  add (of_json (json_nil json_CustomHostnames)) n "custom_hostnames" a.(svc_CustomHostnames) b.(svc_CustomHostnames) false;
  add (of_json (json_nil json_KubernetesPatches)) n "kubernetes" a.(svc_Kubernetes) b.(svc_Kubernetes) false;
  add of_str n "update_strategy" a.(svc_UpdateStrategy) b.(svc_UpdateStrategy) false;
  add VEnv n "env" a.(svc_Env) b.(svc_Env) true;
  add (of_json (json_list JStr)) n "command" a.(svc_Command) b.(svc_Command) false;
  add (of_json (json_list JStr)) n "args" a.(svc_Args) b.(svc_Args) false;
  add (of_json (json_list JStr)) n "depends_on" a.(svc_DependsOn) b.(svc_DependsOn) false;
  add (of_json (json_nil (json_list JStr))) n "networks" a.(svc_Networks) b.(svc_Networks) false;
  add (of_json (json_list JStr)) n "private_egress" a.(svc_PrivateEgress) b.(svc_PrivateEgress) false;
  add (of_json (json_map json_SecretRef)) n "secrets" a.(svc_Secrets) b.(svc_Secrets) true;
  add (of_json (json_nil json_Autoscaling)) n "autoscaling" a.(svc_Autoscaling) b.(svc_Autoscaling) false;
  add of_str n "restart_nonce" a.(svc_RestartNonce) b.(svc_RestartNonce) false;
  add of_str n "registry_credential" a.(svc_RegistryCredential) b.(svc_RegistryCredential) false;
  add (of_json (json_nil json_TLSConfig)) n "tls" a.(svc_TLS) b.(svc_TLS) false;
  add of_str n "aws_identity" a.(svc_AWSIdentity) b.(svc_AWSIdentity) false;
  add of_str n "container_daemon" a.(svc_ContainerDaemon) b.(svc_ContainerDaemon) false;
  add of_str n "runtime_profile" a.(svc_RuntimeProfile) b.(svc_RuntimeProfile) false;
  add of_str n "node_profile" a.(svc_NodeProfile) b.(svc_NodeProfile) false;
  add (of_json (json_list json_CertificateMount)) n "certificate_mounts" a.(svc_CertificateMounts) b.(svc_CertificateMounts) false;
  add (of_json (json_nil json_Volume)) n "volume" a.(svc_Volume) b.(svc_Volume) false;
  add (of_json (json_list json_Mount)) n "mounts" a.(svc_Mounts) b.(svc_Mounts) false;
  add (of_json (json_list json_TemporaryMount)) n "temporary_mounts" a.(svc_TemporaryMounts) b.(svc_TemporaryMounts) false;
  add (of_json (json_nil json_GPU)) n "gpu" a.(svc_GPU) b.(svc_GPU) false;
  add of_int n "run_as_user" a.(svc_RunAsUser) b.(svc_RunAsUser) false;
  add of_int n "run_as_group" a.(svc_RunAsGroup) b.(svc_RunAsGroup) false;
  add of_int n "fs_group" a.(svc_FSGroup) b.(svc_FSGroup) false;
  add of_bool n "read_only_root_filesystem" a.(svc_ReadOnlyRootFilesystem) b.(svc_ReadOnlyRootFilesystem) false;
  add of_str n "working_dir" a.(svc_WorkingDir) b.(svc_WorkingDir) false;
  add of_int n "termination_grace_seconds" a.(svc_TerminationGraceSeconds) b.(svc_TerminationGraceSeconds) false;
  add of_str n "architecture" a.(svc_Architecture) b.(svc_Architecture) false;
  add of_str n "node_name" a.(svc_NodeName) b.(svc_NodeName) false;
  add (of_json (json_nil json_Serverless)) n "serverless" a.(svc_Serverless) b.(svc_Serverless) false;
  diff_sidecars n a b
].

(** The body of the loop over the names of both revisions. *)
Definition diff_name (old after : Application) (n : string) : list Change :=
  (if has_key (app_services old) n then [] else [mkChange n "service" VNil (of_str "added") false]) ++
  match app_services after !! n with
  | None => [mkChange n "service" (of_str "present") VNil false]
  | Some b => diff_service n (default zero_Service (app_services old !! n)) b
  end.

Definition both_names (old after : Application) : list string :=
  sort_strings (elements (list_to_set (keys_of (app_services old)) ∪
                          list_to_set (keys_of (app_services after)) : gset string)).

Definition diff_application (old after : Application) : list Change := concat [
  add of_bool EmptyString "inject_env" old.(app_InjectEnv) after.(app_InjectEnv) false;
  add VEnv EmptyString "env" old.(app_Env) after.(app_Env) true;
  add (of_json (json_map json_SecretRef)) EmptyString "secrets" old.(app_Secrets) after.(app_Secrets) true;
  add (of_json (json_nil json_RecoveryPolicy)) EmptyString "recovery" old.(app_Recovery) after.(app_Recovery) false;
  add of_str EmptyString "name" old.(app_Name) after.(app_Name) false;
  add (of_json (json_map json_Network)) EmptyString "networks" old.(app_Networks) after.(app_Networks) false;
  add (of_json (json_map json_NamedVolume)) EmptyString "volumes" old.(app_Volumes) after.(app_Volumes) false;
  add VEnv EmptyString "domains" old.(app_Domains) after.(app_Domains) false
].

Definition Diff (before : option Application) (after : Application) : list Change :=
  let old := default zero_Application before in
  diff_application old after ++ (both_names old after ≫= diff_name old after).
End diff.

(** * Warnings *)

Definition warn_service (app : Application) (name : string) (svc : Service) : list string :=
  let say (b : bool) (text : string) := if b then [name +:+ text] else [] in
  let internal := existsb (λ n, (get_network app n).(net_Internal)) (default [] svc.(svc_Networks)) in
  let external := existsb (λ n, negb (get_network app n).(net_Internal)) (default [] svc.(svc_Networks)) in
  match svc.(svc_Job) with
  | Some j =>
      match j.(job_Schedule) with
      | Some schedule =>
          [name +:+ ": scheduled job uses " +:+ schedule.(js_Timezone) +:+ " and skips overlapping runs. Pause stops future scheduling; an active run finishes independently."]
      | None => [name +:+ ": deployment job must finish before dependent services start. Retries and new revisions can repeat side effects; make migrations idempotent. Rollback does not undo database changes."]
      end
  | None => []
  end ++
  say (0 <? lenm svc.(svc_Files))
    ": file content is stored in configuration history; use secret references for sensitive files. File updates take effect through a deployment." ++
  say (non_nil svc.(svc_Volume) || (0 <? lenl svc.(svc_Mounts)))
    ": persistent service uses one replica and Recreate updates, with brief downtime; rollback restores configuration, not database contents. Back up data separately." ++
  say (non_nil svc.(svc_GPU))
    ": requires an installed NVIDIA device plugin and matching GPU capacity; model downloads and inference have their own memory and storage costs." ++
  say (internal && external)
    ": membership in an egress-enabled network permits external egress even with an internal network" ++
  say (svc.(svc_BackendHTTP2) && negb (is_empty svc.(svc_Healthcheck)))
    ": HTTP/2 backend keeps an HTTP/1.1 healthcheck probe; a server that only speaks HTTP/2 rejects the probe, the pod never becomes ready and the deployment fails before routing changes. Remove the healthcheck path or serve it over HTTP/1.1." ++
  say svc.(svc_Public) ": public HTTP exposure; TLS requires an operator-configured certificate issuer".

Definition Warnings (app : Application) : list string :=
  (if 0 <? lenm app.(app_Domains) then
     ["Custom domains are saved with this application. New domains remain inactive until you verify DNS ownership and activate them from Networking > Domains."]
   else []) ++
  (Names app ≫= λ name, match app_services app !! name with Some svc => warn_service app name svc | None => [] end).

(** * Facts about differences *)

Section diff_facts.
Context `{RangeOrder}.

Lemma add_nil {A} `{EqDecision A} (inj : A → value) n f (a b : A) s : add inj n f a b s = [] ↔ a = b.
Proof. unfold add. destruct (decide (a = b)); [done|]. by destruct (shown _ _ _). Qed.

Lemma add_field {A} `{EqDecision A} (inj : A → value) n f (a b : A) s c :
  c ∈ add inj n f a b s → c.(ch_Field) = f ∧ c.(ch_Service) = n ∧
    (c.(ch_Before), c.(ch_After)) = shown s (inj a) (inj b).
Proof.
  unfold add. destruct (decide (a = b)); [by intros []%not_elem_of_nil|].
  destruct (shown s (inj a) (inj b)). by intros ->%list_elem_of_singleton.
Qed.

Lemma diff_files_nil n a b : diff_files n a b = [] ↔ a.(svc_Files) = b.(svc_Files).
Proof. unfold diff_files. by destruct (decide _). Qed.
Lemma diff_sidecars_nil n a b : diff_sidecars n a b = [] ↔ a.(svc_Sidecars) = b.(svc_Sidecars).
Proof. unfold diff_sidecars. by destruct (decide _). Qed.

Lemma concat_cons_nil {A} (x : list A) l : concat (x :: l) = [] ↔ x = [] ∧ concat l = [].
Proof. change (concat (x :: l)) with (x ++ concat l). apply app_nil. Qed.

(** The fields no entry of [Diff] reports. *)
Definition without_pools (s : Service) : Service := set_svc_Session None (set_svc_Actions None s).

Lemma diff_service_nil_1 n a b : diff_service n a b = [] → without_pools a = without_pools b.
Proof.
  unfold diff_service. intros Hd.
  repeat (apply concat_cons_nil in Hd as [Hf Hd];
          first [apply add_nil in Hf | apply diff_files_nil in Hf | apply diff_sidecars_nil in Hf];
          revert Hf).
  clear Hd. destruct a, b. cbn. intros. subst. reflexivity.
Qed.

Lemma diff_service_nil_2 n a b : without_pools a = without_pools b → diff_service n a b = [].
Proof.
  unfold diff_service. intros Hab.
  repeat (apply concat_cons_nil; split;
          [first [apply add_nil | apply diff_files_nil | apply diff_sidecars_nil];
           match goal with |- ?f a = ?f b => exact (f_equal f Hab) end|]).
  reflexivity.
Qed.

(** ** Redaction *)

Lemma differing_list (other : gmap string string) l k : ∀ acc : gmap string string, NoDup l.*1 →
  fold_left (λ acc (kv : string * string),
    match other !! kv.1 with
    | Some next => if (next =? kv.2)%string then acc else <[kv.1 := kv.2]> acc
    | None => <[kv.1 := kv.2]> acc
    end) l acc !! k =
  match (list_to_map l : gmap string string) !! k with
  | Some v => if decide (other !! k = Some v) then acc !! k else Some v
  | None => acc !! k
  end.
Proof.
  induction l as [|[i v] l IH]; intros acc Hnd; cbn [fold_left fst snd]; [simpl; by rewrite lookup_empty|].
  apply NoDup_cons in Hnd as [Hi Hnd]. rewrite IH by done. simpl.
  destruct (decide (i = k)) as [->|Hne].
  - rewrite not_elem_of_list_to_map_1, lookup_insert_eq by done.
    destruct (other !! k) as [next|]; [destruct (String.eqb_spec next v) as [->|]|].
    + by rewrite decide_True.
    + rewrite decide_False by congruence. by rewrite lookup_insert_eq.
    + by rewrite lookup_insert_eq.
  - rewrite lookup_insert_ne by done. 
    assert ((match other !! i with
             | Some next => if (next =? v)%string then acc else <[i:=v]> acc
             | None => <[i:=v]> acc end) !! k = acc !! k) as ->; [|done].
    destruct (other !! i) as [next|]; [destruct (_ =? _)%string|]; rewrite ?lookup_insert_ne by done; done.
Qed.

(** [changedKeys] keeps exactly the entries that are new or changed. *)
Lemma differing_lookup m other k : differing m other !! k =
  match m !! k with
  | Some v => if decide (other !! k = Some v) then None else Some v
  | None => None
  end.
Proof.
  unfold differing. rewrite differing_list by apply keys_of_NoDup. by rewrite range_to_map, lookup_empty.
Qed.

Lemma redact_map_lookup m k : redact_map m !! k = (λ _, redacted) <$> m !! k.
Proof.
  unfold redact_map, copy_into, id. rewrite (foldl_insert_lookup (λ _, redacted)) by apply keys_of_NoDup.
  rewrite range_to_map, lookup_empty. by destruct (m !! k).
Qed.

Definition all_redacted (v : value) : Prop :=
  ∃ m, v = VEnv m ∧ ∀ k x, m !! k = Some x → x = redacted.

(** What a redacted map shows. *)
Lemma shown_env x y : ∃ bx by_, shown true (VEnv x) (VEnv y) = (VEnv bx, VEnv by_) ∧
  (∀ k r, bx !! k = Some r → r = redacted) ∧ (∀ k r, by_ !! k = Some r → r = redacted) ∧
  (∀ k, is_Some (bx !! k) ∨ is_Some (by_ !! k) ↔ x !! k ≠ y !! k).
Proof.
  exists (redact_map (differing x y)), (redact_map (differing y x)). split_and!; [done| | |].
  - intros k r. rewrite redact_map_lookup. destruct (_ !! k); naive_solver.
  - intros k r. rewrite redact_map_lookup. destruct (_ !! k); naive_solver.
  - intros k. rewrite !redact_map_lookup, !fmap_is_Some, !differing_lookup.
    destruct (x !! k) as [a|], (y !! k) as [b|]; [destruct (decide (a = b)) as [->|Hab]| | |].
    + rewrite !decide_True by done. rewrite is_Some_None_iff. clear. intuition congruence.
    + rewrite !decide_False by congruence. rewrite !is_Some_Some_iff. revert Hab. clear. intuition congruence.
    + rewrite decide_False by congruence. rewrite is_Some_None_iff, is_Some_Some_iff. clear. intuition congruence.
    + rewrite decide_False by congruence. rewrite is_Some_None_iff, is_Some_Some_iff. clear. intuition congruence.
    + rewrite is_Some_None_iff. clear. intuition congruence.
Qed.

Lemma elem_of_concat_cons {A} (c : A) x l : c ∈ concat (x :: l) → c ∈ x ∨ c ∈ concat l.
Proof. change (concat (x :: l)) with (x ++ concat l). apply elem_of_app. Qed.

(** The environment entry of a service's differences. *)
Lemma diff_service_env n a b c : c ∈ diff_service n a b → c.(ch_Field) = "env" →
  (c.(ch_Before), c.(ch_After)) = shown true (VEnv a.(svc_Env)) (VEnv b.(svc_Env)).
Proof.
  unfold diff_service. intros Hc Hf.
  repeat (apply elem_of_concat_cons in Hc as [Hx|Hc];
    [first
      [ apply add_field in Hx as (Hn & _ & Hs); rewrite Hf in Hn; first [discriminate Hn|exact Hs]
      | unfold diff_files, diff_sidecars in Hx; destruct (decide _) in Hx;
        [by apply not_elem_of_nil in Hx|apply list_elem_of_singleton in Hx; subst c; discriminate Hf] ]|]).
  by apply not_elem_of_nil in Hc.
Qed.

(** ** The application *)

Definition same_settings (a b : Application) : Prop :=
  a.(app_InjectEnv) = b.(app_InjectEnv) ∧ a.(app_Env) = b.(app_Env) ∧ a.(app_Secrets) = b.(app_Secrets) ∧
  a.(app_Recovery) = b.(app_Recovery) ∧ a.(app_Name) = b.(app_Name) ∧ a.(app_Networks) = b.(app_Networks) ∧
  a.(app_Volumes) = b.(app_Volumes) ∧ a.(app_Domains) = b.(app_Domains).

Lemma diff_application_nil a b : diff_application a b = [] ↔ same_settings a b.
Proof. unfold diff_application, same_settings. rewrite !concat_cons_nil, !add_nil. clear. intuition. Qed.

Lemma elem_of_both_names a b n :
  n ∈ both_names a b ↔ is_Some (app_services a !! n) ∨ is_Some (app_services b !! n).
Proof.
  unfold both_names. rewrite sort_strings_perm, elem_of_elements, elem_of_union, !elem_of_list_to_set.
  by rewrite !elem_of_keys_of.
Qed.

Lemma diff_name_nil a b n : n ∈ both_names a b →
  diff_name a b n = [] ↔ option_Forall2 (λ s t, without_pools s = without_pools t) (app_services a !! n) (app_services b !! n).
Proof.
  rewrite elem_of_both_names. unfold diff_name, has_key.
  destruct (app_services a !! n) as [s|], (app_services b !! n) as [t|]; simpl; intros Hn.
  - split; [intros Hd; constructor; by eapply diff_service_nil_1|]. inversion 1. by apply diff_service_nil_2.
  - split; [done|by inversion 1].
  - split; [done|by inversion 1].
  - by destruct Hn as [[]|[]].
Qed.

Lemma list_bind_nil {A B} (f : A → list B) l : l ≫= f = [] ↔ ∀ x, x ∈ l → f x = [].
Proof.
  induction l as [|x l IH]; [split; [intros _ x []%not_elem_of_nil|done]|].
  cbn [mbind list_bind]. rewrite app_nil, IH. setoid_rewrite elem_of_cons. clear. naive_solver.
Qed.

Lemma Diff_nil a b : Diff (Some a) b = [] ↔ same_settings a b ∧
  ∀ n, option_Forall2 (λ s t, without_pools s = without_pools t) (app_services a !! n) (app_services b !! n).
Proof.
  unfold Diff. simpl. rewrite app_nil, diff_application_nil, list_bind_nil. split.
  - intros [Hset Hall]. split; [done|]. intros n.
    destruct (decide (n ∈ both_names a b)) as [Hin|Hout]; [by apply diff_name_nil, Hall|].
    rewrite elem_of_both_names in Hout.
    destruct (app_services a !! n), (app_services b !! n); [destruct Hout; by left|destruct Hout; by left|
      destruct Hout; by right|constructor].
  - intros [Hset Hall]. split; [done|]. intros n Hn. by apply diff_name_nil.
Qed.

(** Where an environment entry comes from. *)
Lemma Diff_env_source before after c : c ∈ Diff before after → c.(ch_Field) = "env" →
  ∃ x y, (c.(ch_Before), c.(ch_After)) = shown true (VEnv x) (VEnv y) ∧
    ((x = (default zero_Application before).(app_Env) ∧ y = after.(app_Env)) ∨
     ∃ n t, app_services after !! n = Some t ∧ y = t.(svc_Env) ∧
       x = (default zero_Service (app_services (default zero_Application before) !! n)).(svc_Env)).
Proof.
  unfold Diff. intros [Hc|Hc]%elem_of_app Hf.
  - unfold diff_application in Hc.
    repeat (apply elem_of_concat_cons in Hc as [Hx|Hc];
      [apply add_field in Hx as (Hn & _ & Hs); rewrite Hf in Hn;
       first [discriminate Hn|do 2 eexists; split; [exact Hs|by left]]|]).
    by apply not_elem_of_nil in Hc.
  - apply list_elem_of_bind in Hc as (n & Hc & _). unfold diff_name in Hc. apply elem_of_app in Hc as [Hc|Hc].
    + destruct (has_key _ _); [by apply not_elem_of_nil in Hc|]. apply list_elem_of_singleton in Hc. by subst c.
    + destruct (app_services after !! n) as [t|] eqn:Ht; [|apply list_elem_of_singleton in Hc; by subst c].
      do 2 eexists. split; [by eapply diff_service_env|]. right. by exists n, t.
Qed.
End diff_facts.

(** * Properties *)

Section diff_properties.
Context `{RangeOrder}.

(** [Diff] is empty exactly when the two revisions have the same settings and
    services and each service agrees on every field other than its runner pool
    and its session: no other field can change without being reported. *)
Theorem Diff_empty_iff a b : Diff (Some a) b = [] ↔ same_settings a b ∧
  ∀ n, option_Forall2 (λ s t, without_pools s = without_pools t) (app_services a !! n) (app_services b !! n).
Proof. apply Diff_nil. Qed.

(** [Diff] does not report a change of a service's runner pool or session:
    whatever they become, the list of changes is empty. *)
Theorem Diff_misses_pools app n svc pool session : app_services app !! n = Some svc →
  Diff (Some app) (put_service n (set_svc_Session session (set_svc_Actions pool svc)) app) = [].
Proof.
  intros Hn. apply Diff_nil. split; [by destruct app|]. intros k. rewrite lookup_put_service.
  case_decide as Hk; [subst; rewrite Hn; constructor; reflexivity|].
  destruct (app_services app !! k); by constructor.
Qed.

(** No environment value is shown: an entry for an environment, of the
    application or of a service, names exactly the variables that were removed,
    added or changed, each with the text [redacted]. *)
Theorem Diff_redacts before after c : c ∈ Diff before after → c.(ch_Field) = "env" →
  ∃ x y bx by_, c.(ch_Before) = VEnv bx ∧ c.(ch_After) = VEnv by_ ∧
    (∀ k r, bx !! k = Some r ∨ by_ !! k = Some r → r = redacted) ∧
    (∀ k, is_Some (bx !! k) ∨ is_Some (by_ !! k) ↔ x !! k ≠ y !! k) ∧
    ((x = (default zero_Application before).(app_Env) ∧ y = after.(app_Env)) ∨
     ∃ n t, app_services after !! n = Some t ∧ y = t.(svc_Env) ∧
       x = (default zero_Service (app_services (default zero_Application before) !! n)).(svc_Env)).
Proof.
  intros Hc Hf. destruct (Diff_env_source _ _ _ Hc Hf) as (x & y & Hs & Hsrc).
  destruct (shown_env x y) as (bx & by_ & Hb & H1 & H2 & H3). rewrite Hb in Hs. injection Hs as Hx Hy.
  exists x, y, bx, by_. split_and!; [done|done| |done|done]. intros k r [?|?]; eauto.
Qed.
End diff_properties.

Module DiffExample.
Definition before : Application :=
  set_app_Services (Some {["web" := set_svc_Env {["MODE" := "a"; "KEEP" := "k"]} zero_Service]}) zero_Application.
Definition after : Application :=
  set_app_Services (Some {["web" := set_svc_Env {["MODE" := "b"; "KEEP" := "k"]} zero_Service]}) zero_Application.
Definition web : Service := set_svc_Env {["MODE" := "a"; "KEEP" := "k"]} zero_Service.
Definition session : SandboxSession := mkSandboxSession ["reviewer"] ["/helper"] ["/ready"] 0 0 0.
(** The same service turned into a session. *)
Definition with_session : Application :=
  put_service "web" (set_svc_Session (Some session) (set_svc_Actions None web)) before.
Definition change : Change :=
  mkChange "web" "env" (VEnv {["MODE" := redacted]}) (VEnv {["MODE" := redacted]}) true.
End DiffExample.

Lemma Diff_redacts_witness : ∃ x y : gmap string string, x !! "MODE" ≠ y !! "MODE".
Proof.
  assert (DiffExample.change ∈ Diff (Some DiffExample.before) DiffExample.after) as Hc by (vm_compute; left).
  destruct (Diff_redacts _ _ _ Hc eq_refl) as (x & y & bx & by_ & Hb & _ & _ & Hk & _).
  exists x, y. apply Hk. left. injection Hb as <-. vm_compute. eexists. reflexivity.
Defined.

Lemma Diff_misses_pools_witness :
  Diff (Some DiffExample.before) DiffExample.with_session = [].
Proof.
  refine (Diff_misses_pools DiffExample.before "web" DiffExample.web None (Some DiffExample.session) _).
  vm_compute. reflexivity.
Defined.
