(* ===== verification/SpecRecovery.v ===== *)
(** Decisions about revisions: automatic recovery (recovery.go), preview limits
    (preview.go), the secrets a revision needs (secret_requirements.go), public
    build arguments (build_arguments.go) and the three-way merge of a staged
    draft (rebase.go). *)
From S2P Require Import Prelude GoStd Regex SpecTypes Platform SpecChecks SpecServices SpecEnvironment SpecWorkloads.
#[global] Open Scope Z_scope.

(** * Automatic recovery *)

Definition recovery_disabled : string := "Automatic release recovery is disabled in this revision".
Definition recovery_first : string := "No previous successful release is available".
Definition recovery_topology : string := "Service additions or removals require a reviewed recovery".
Definition recovery_data : string :=
  "Persistent volumes require a reviewed recovery; restoring configuration cannot restore stored data".
Definition recovery_jobs : string :=
  "Deployment and scheduled jobs require a reviewed recovery; Hakopod will not rerun migrations or scheduled work automatically".

Section recovery.
Context `{RangeOrder}.

(** The first non-empty reason of a sequence of checks. *)
Fixpoint first_reason {A} (f : A → string) (l : list A) : string :=
  match l with
  | [] => EmptyString
  | x :: l' => if is_empty (f x) then first_reason f l' else f x
  end.

Definition service_reason (s : Service) : string :=
  if non_nil s.(svc_Job) then recovery_jobs
  else if non_nil s.(svc_Volume) || (0 <? lenl s.(svc_Mounts)) then recovery_data
  else EmptyString.

(** The body of the loop over the two revisions. *)
Definition data_reason (app : Application) : string :=
  if 0 <? lenm app.(app_Volumes) then recovery_data
  else first_reason (λ name, service_reason (default zero_Service (app_services app !! name))) (Names app).

Definition RecoveryBlocked (next : Application) (previous : option Application) : string :=
  if match next.(app_Recovery) with Some r => (r.(rp_OnFailure) =? "disabled")%string | None => false end
  then recovery_disabled
  else match previous with
  | None => recovery_first
  | Some previous =>
      if negb (lenm (app_services next) =? lenm (app_services previous)) then recovery_topology
      else if negb (forallb (has_key (app_services previous)) (keys_of (app_services next))) then recovery_topology
      else first_reason data_reason [next; previous]
  end.
End recovery.

(** * Previews *)

Section preview.
Context `{RangeOrder}.

Definition check_preview_service (s : Service) : result unit :=
  _ ← fail_when (non_nil s.(svc_Actions)) (Errorf "Managed Actions pools cannot be copied into previews" []);
  _ ← fail_when (negb (s.(svc_Size) =? "small")%string || (1 <? s.(svc_Replicas)) ||
                 non_nil s.(svc_Autoscaling) || non_nil s.(svc_GPU))
        (Errorf "previews require the small profile, one replica and no autoscaling or GPU" []);
  _ ← fail_when (negb (is_empty s.(svc_NodeProfile)))
        (Errorf "previews cannot inherit a node profile grant from the original application" []);
  _ ← fail_when (negb (is_empty s.(svc_RuntimeProfile)))
        (Errorf "previews cannot inherit a runtime profile grant from the original application" []);
  _ ← fail_when ((0 <? lenl s.(svc_PublicTCP)) || (0 <? lenl s.(svc_CertificateMounts)) ||
                 negb (is_empty s.(svc_AWSIdentity)) || negb (is_empty s.(svc_ContainerDaemon)) ||
                 non_nil s.(svc_TLS))
        (Errorf "previews do not expose public TCP or inherit certificates, AWS identities or container daemon bindings" []);
  _ ← fail_when (match s.(svc_Job) with
                 | Some j => (non_nil j.(job_Schedule) || non_nil j.(job_Invocation)) && negb s.(svc_Suspended)
                 | None => false
                 end)
        (Errorf "scheduled and invoked jobs must stay paused in previews" []);
  iterM (λ kv : string * SecretRef, fail_when (negb (is_empty kv.2.(sr_Provider)))
      (Errorf "previews require their own native secrets; external secret providers are not inherited" []))
    (range (SecretReferences s)).

(** [disk] after the service's own volume. *)
Definition preview_disk (s : Service) : Z :=
  match s.(svc_Volume) with Some v => v.(vol_SizeGiB) | None => 0 end.

Definition ValidatePreview (a : Application) : result unit :=
  let a := RuntimeEnvironment a in
  _ ← fail_when (4 <? lenm (app_services a)) (Errorf "previews support at most four small services" []);
  _ ← fail_when (0 <? lenm a.(app_Domains))
        (Errorf "previews use their generated hostname; remove custom domains" []);
  _ ← iterM (λ kv : string * Network,
          fail_when (negb (is_empty kv.2.(net_VirtualNetwork)) || negb (is_empty kv.2.(net_Segment)))
            (Errorf "previews cannot join shared virtual networks" []))
        (range a.(app_Networks));
  let disk := fold_left (λ disk kv, wrap64 (disk + kv.2.(nv_SizeGiB))) (range a.(app_Volumes)) 0 in
  disk ← foldM (λ disk (kv : string * Service),
           _ ← check_preview_service kv.2; Ok (wrap64 (disk + preview_disk kv.2))) disk (range (app_services a));
  fail_when (5 <? disk) (Errorf "preview storage is limited to 5 GiB and deleted at expiry" []).
End preview.

(** * Required secrets *)

Section secrets.
Context `{RangeOrder}.

(** The names one service adds to [seen]. *)
Definition add_name (b : bool) (name : string) (seen : gset string) : gset string :=
  if b then {[name]} ∪ seen else seen.
Definition pool_secrets (a : Actions) (seen : gset string) : gset string :=
  let seen := {[a.(act_Credential)]} ∪ seen in
  let seen := add_name (negb (is_empty a.(act_JobsCredential))) a.(act_JobsCredential) seen in
  match a.(act_Cache) with
  | Some c => add_name (negb (is_empty c.(ac_Credential))) c.(ac_Credential) seen
  | None => seen
  end.
Definition service_secrets (seen : gset string) (service : Service) : gset string :=
  let seen := match service.(svc_Actions) with Some a => pool_secrets a seen | None => seen end in
  fold_left (λ seen (kv : string * SecretRef), add_name (negb (is_empty kv.2.(sr_Ref))) kv.2.(sr_Ref) seen)
    (range (SecretReferences service)) seen.

Definition LocalSecretNames (app : Application) : list string :=
  sort_strings (elements (fold_left (λ seen (kv : string * Service), service_secrets seen kv.2)
    (range (app_services (RuntimeEnvironment app))) ∅)).
End secrets.

(** * Build arguments *)

Definition ValidateBuildArguments `{Host} `{RangeOrder} (values : gmap string string) : result unit :=
  _ ← fail_when (32 <? lenm values) (Errorf "build_args: at most 32 public build arguments" []);
  iterM (λ '(key, value),
    fail_when (negb (full_match envPattern key) || (128 <? len key) || (2048 <? len value) ||
               ContainsAny value (NUL +:+ CR +:+ LF) || Contains value "${{" || Contains value "{{" ||
               sensitiveEnv key value)
      (Errorf "build_args.%s: use a public single-line value of at most 2048 bytes, without credentials or workflow expressions" [AStr key]))
    (range values).

(** * Rebase *)

(** JSON values up to the order of object keys, as [json.Unmarshal] into [any]
    holds them; [merge3] compares them with [reflect.DeepEqual]. *)
Section merge.
Context {V : Type} `{EqDecision V}.

(** [b[key]] on a map of values: [None] is nil. *)
Definition merge3 (base current draft : option V) : option V * bool :=
  if decide (current = draft) then (current, false)
  else if decide (base = draft) then (current, false)
  else if decide (base = current) then (draft, false)
  else (current, true).

Definition keys (b c d : gmap string V) : list string :=
  sort_strings (elements (dom b ∪ dom c ∪ dom d)).

(** One of the two loops of [Rebase]: the merged entries, the conflicts under a
    prefix. *)
Definition merge_keys (prefix : string) (b c d : gmap string V) (names : list string)
    (acc : gmap string V * list string) : gmap string V * list string :=
  fold_left (λ '(merged, conflicts) key,
    let '(v, conflict) := merge3 (b !! key) (c !! key) (d !! key) in
    (match v with Some v => <[key := v]> merged | None => merged end,
     if conflict : bool then conflicts ++ [prefix +:+ key] else conflicts)) names acc.
End merge.

(** ** The parts of a draft *)

Fixpoint json_eqb (a b : json) : bool :=
  match a, b with
  | JNull, JNull => true
  | JBool x, JBool y => Bool.eqb x y
  | JNum x, JNum y => x =? y
  | JStr x, JStr y => (x =? y)%string
  | JArr l, JArr l' =>
      (fix go l l' := match l, l' with
       | [], [] => true | x :: l, y :: l' => json_eqb x y && go l l' | _, _ => false end) l l'
  | JObj l, JObj l' =>
      (fix go l l' := match l, l' with
       | [], [] => true
       | (k, x) :: l, (k', y) :: l' => (k =? k')%string && json_eqb x y && go l l'
       | _, _ => false end) l l'
  | _, _ => false
  end.

Fixpoint json_eqb_eq (a b : json) {struct a} : json_eqb a b = true ↔ a = b.
Proof.
  destruct a as [|x|x|x|l|l], b as [|y|y|y|l'|l']; simpl; try (split; [done|congruence]).
  - rewrite Bool.eqb_true_iff. split; congruence.
  - rewrite Z.eqb_eq. split; congruence.
  - rewrite String.eqb_eq. split; congruence.
  - transitivity (l = l'); [|split; congruence]. revert l'.
    induction l as [|x l IH]; intros [|y l']; try (split; [done|congruence]).
    rewrite andb_true_iff, json_eqb_eq, IH. split; [intros [-> ->]; done|intros [=]; done].
  - transitivity (l = l'); [|split; congruence]. revert l'.
    induction l as [|[k x] l IH]; intros [|[k' y] l']; try (split; [done|congruence]).
    rewrite !andb_true_iff, json_eqb_eq, IH, String.eqb_eq. split; [intros [[-> ->] ->]; done|intros [=]; done].
Qed.

#[export] Instance json_eq_dec : EqDecision json.
Proof. intros a b. destruct (json_eqb a b) eqn:He; [left; by apply json_eqb_eq|right; intros Hab; apply json_eqb_eq in Hab; congruence]. Defined.

(** [asMap] and [submap]: the fields of an encoded object. *)
Definition fields_of_json (j : json) : gmap string json :=
  match j with JObj l => list_to_map l | _ => ∅ end.
Definition asMap (a : Application) : gmap string json := fields_of_json (json_Application a).
Definition submap (v : option json) : gmap string json :=
  match v with Some j => fields_of_json j | None => ∅ end.

(** [Rebase] up to the decoding of [merged]: the merged settings without the
    services, the merged services, and the conflicts. *)
Definition Rebase_parts (base current draft : Application) : gmap string json * gmap string json * list string :=
  let b := asMap base in let c := asMap current in let d := asMap draft in
  let '(merged, conflicts) :=
    merge_keys EmptyString b c d (List.filter (λ key, negb (key =? "services")%string) (keys b c d)) (∅, []) in
  let bs := submap (b !! "services") in let cs := submap (c !! "services") in let ds := submap (d !! "services") in
  let '(services, conflicts) := merge_keys "services." bs cs ds (keys bs cs ds) (∅, conflicts) in
  (merged, services, conflicts).

(** * Facts *)

Section merge_facts.
Context {V : Type} `{EqDecision V}.
Implicit Types b c d : gmap string V.

Lemma elem_of_keys b c d k : k ∈ keys b c d ↔ is_Some (b !! k) ∨ is_Some (c !! k) ∨ is_Some (d !! k).
Proof.
  unfold keys. rewrite sort_strings_perm, elem_of_elements, !elem_of_union, !elem_of_dom. clear. tauto.
Qed.

Lemma keys_NoDup b c d : NoDup (keys b c d).
Proof. unfold keys. rewrite sort_strings_perm. apply NoDup_elements. Qed.

(** [k] has three different states. *)
Definition conflicting b c d (k : string) : Prop := (merge3 (b !! k) (c !! k) (d !! k)).2 = true.

Lemma merge3_conflict (base current draft : option V) :
  (merge3 base current draft).2 = true ↔ base ≠ current ∧ base ≠ draft ∧ current ≠ draft.
Proof. unfold merge3. repeat case_decide; simpl; naive_solver. Qed.

Lemma merge_keys_spec prefix b c d names : ∀ merged conflicts, NoDup names →
  let r := merge_keys prefix b c d names (merged, conflicts) in
  (∀ k, k ∈ names → r.1 !! k = match (merge3 (b !! k) (c !! k) (d !! k)).1 with Some v => Some v | None => merged !! k end) ∧
  (∀ k, k ∉ names → r.1 !! k = merged !! k) ∧
  ∀ s, s ∈ r.2 ↔ s ∈ conflicts ∨ ∃ k, k ∈ names ∧ s = prefix +:+ k ∧ conflicting b c d k.
Proof.
  unfold merge_keys. induction names as [|n names IH]; intros merged conflicts Hnd; cbn [fold_left].
  { cbv zeta. simpl. split_and!; [intros k []%not_elem_of_nil|done|].
    intros s. split; [by left|]. intros [|(k & []%not_elem_of_nil & _)]; done. }
  apply NoDup_cons in Hnd as [Hn Hnd].
  unfold conflicting in *. destruct (merge3 (b !! n) (c !! n) (d !! n)) as [v conflict] eqn:Hm.
  destruct (IH (match v with Some v => <[n := v]> merged | None => merged end)
               (if conflict then conflicts ++ [prefix +:+ n] else conflicts) Hnd) as (Hin & Hout & Hc).
  cbv zeta in *. split_and!.
  - intros k [->|Hk]%elem_of_cons.
    + rewrite Hout, Hm by done. simpl. destruct v; [by rewrite lookup_insert_eq|done].
    + rewrite Hin by done. destruct ((merge3 (b !! k) (c !! k) (d !! k)).1); [done|].
      assert (k ≠ n) by (by intros ->). destruct v; [by rewrite lookup_insert_ne|done].
  - intros k [Hkn Hk]%not_elem_of_cons. rewrite Hout by done. destruct v; [by rewrite lookup_insert_ne|done].
  - intros s. rewrite Hc. split.
    + intros [Hs|(k & Hk & -> & Hk')]; [|right; exists k; split_and!; [by right|done|done]].
      destruct conflict; [|by left]. apply elem_of_app in Hs as [Hs| ->%list_elem_of_singleton]; [by left|].
      right. exists n. rewrite Hm. split_and!; [by left|done|done].
    + intros [Hs|(k & [->|Hk]%elem_of_cons & -> & Hk')].
      * left. destruct conflict; [|done]. apply elem_of_app. by left.
      * rewrite Hm in Hk'. simpl in Hk'. subst conflict. left. apply elem_of_app. right. by apply list_elem_of_singleton.
      * right. by exists k.
Qed.

Lemma merge3_cases (base current draft : option V) :
  (base = draft → merge3 base current draft = (current, false)) ∧
  (base = current → merge3 base current draft = (draft, false)) ∧
  (current = draft → merge3 base current draft = (current, false)) ∧
  (base ≠ current → base ≠ draft → current ≠ draft → merge3 base current draft = (current, true)).
Proof. unfold merge3. split_and!; intros; repeat case_decide; congruence. Qed.

Lemma conflicting_keys b c d k : conflicting b c d k → k ∈ keys b c d.
Proof.
  unfold conflicting. rewrite merge3_conflict, elem_of_keys. intros (H1 & H2 & H3).
  destruct (b !! k); [by left; eexists|]. destruct (c !! k); [by right; left; eexists|].
  destruct (d !! k); [by right; right; eexists|done].
Qed.

Lemma merge_keys_lookup prefix b c d names conflicts k : NoDup names → (k ∈ keys b c d → k ∈ names) →
  (merge_keys prefix b c d names (∅, conflicts)).1 !! k = (merge3 (b !! k) (c !! k) (d !! k)).1.
Proof.
  intros Hnd Hk. destruct (merge_keys_spec prefix b c d names ∅ conflicts Hnd) as (Hin & Hout & _). cbv zeta in *.
  destruct (decide (k ∈ names)) as [Hin'|Hnot].
  - rewrite Hin by done. rewrite lookup_empty. by destruct ((merge3 _ _ _).1).
  - rewrite Hout, lookup_empty by done. rewrite elem_of_keys in Hk.
    destruct (b !! k); [exfalso; apply Hnot, Hk; by left; eexists|].
    destruct (c !! k); [exfalso; apply Hnot, Hk; by right; left; eexists|].
    destruct (d !! k); [exfalso; apply Hnot, Hk; by right; right; eexists|done].
Qed.
End merge_facts.

(** ** Recovery and previews *)

Section recovery_facts.
Context `{RangeOrder}.

Lemma first_reason_empty {A} (f : A → string) l : first_reason f l = EmptyString ↔ Forall (λ x, f x = EmptyString) l.
Proof.
  induction l as [|x l IH]; simpl; [split; [constructor|done]|]. rewrite Forall_cons, <-IH.
  destruct (is_empty (f x)) eqn:He; [apply is_empty_true in He|apply is_empty_false in He]; naive_solver.
Qed.

(** A service that holds no state and runs no job. *)
Definition stateless (s : Service) : Prop :=
  s.(svc_Job) = None ∧ s.(svc_Volume) = None ∧ s.(svc_Mounts) = [].

Lemma service_reason_empty s : service_reason s = EmptyString ↔ stateless s.
Proof.
  unfold service_reason, stateless. destruct (svc_Job s); simpl; [naive_solver|].
  destruct (svc_Volume s); simpl; [naive_solver|]. destruct (svc_Mounts s) as [|m l]; [naive_solver|].
  assert ((0 <? lenl (m :: l)) = true) as -> by (apply Z.ltb_lt; unfold lenl; simpl; lia). naive_solver.
Qed.

Lemma data_reason_empty app : data_reason app = EmptyString ↔
  app.(app_Volumes) = ∅ ∧ ∀ n s, app_services app !! n = Some s → stateless s.
Proof.
  unfold data_reason. destruct (0 <? lenm (app_Volumes app)) eqn:Hv.
  - split; [done|]. intros [He _]. rewrite He in Hv. done.
  - apply Z.ltb_ge in Hv. assert (app_Volumes app = ∅) as -> by (apply lenm_zero; unfold lenm in *; lia).
    rewrite first_reason_empty, Forall_forall. setoid_rewrite elem_of_Names. setoid_rewrite service_reason_empty.
    split.
    + intros Hall. split; [done|]. intros n s Hs. specialize (Hall n). rewrite Hs in Hall. by apply Hall.
    + intros [_ Hall] n [s Hs]. rewrite Hs. by eapply Hall.
Qed.

Lemma same_names_dom (a b : gmap string Service) : lenm a = lenm b →
  forallb (has_key b) (keys_of a) = true → dom a = dom b.
Proof.
  intros Hlen Hall. apply set_subseteq_size_eq; [|rewrite !size_dom; unfold lenm in Hlen; lia].
  intros n [s Hs]%elem_of_dom. rewrite forallb_forall in Hall. specialize (Hall n).
  rewrite <-list_elem_of_In, elem_of_keys_of in Hall. apply elem_of_dom.
  specialize (Hall ltac:(by eexists)). unfold has_key in Hall. by destruct (b !! n).
Qed.

(** ** Previews *)

Lemma check_preview_Ok s u : check_preview_service s = Ok u →
  s.(svc_Actions) = None ∧ s.(svc_Size) = "small" ∧ s.(svc_Replicas) ≤ 1 ∧ s.(svc_Autoscaling) = None ∧
  s.(svc_GPU) = None ∧ s.(svc_PublicTCP) = [] ∧ s.(svc_TLS) = None ∧
  ∀ k r, SecretReferences s !! k = Some r → r.(sr_Provider) = EmptyString.
Proof.
  unfold check_preview_service. intros Hc. inv_ok. split_orb. zify_bool.
  rewrite iterM_Ok, Forall_forall in Hc. rewrite String.eqb_eq in *.
  split_and!; try done; try (by apply non_nil_false); try by apply lenl_ltb_zero, Z.ltb_ge.
  intros k r Hk. specialize (Hc (k, r) ltac:(by apply elem_of_range)).
  rewrite fail_when_Ok in Hc. apply negb_false_iff in Hc. by apply is_empty_true.
Qed.
End recovery_facts.

(** * Properties *)

(** Rebasing a draft merges each top-level setting and each service on its
    own: a part only the draft changed keeps the draft's, a part only the
    current revision changed (or both changed alike) takes the current one, and
    a part changed both ways takes the current one and is reported; the
    conflicts reported are exactly those parts. *)
Theorem Rebase_three_way base current draft merged services conflicts :
  Rebase_parts base current draft = (merged, services, conflicts) →
  let b := asMap base in let c := asMap current in let d := asMap draft in
  let bs := submap (b !! "services") in let cs := submap (c !! "services") in let ds := submap (d !! "services") in
  (∀ k, k ≠ "services" →
     (b !! k = c !! k → merged !! k = d !! k) ∧ (b !! k = d !! k → merged !! k = c !! k) ∧
     (b !! k ≠ c !! k → b !! k ≠ d !! k → merged !! k = c !! k)) ∧
  (∀ n, (bs !! n = cs !! n → services !! n = ds !! n) ∧ (bs !! n = ds !! n → services !! n = cs !! n) ∧
     (bs !! n ≠ cs !! n → bs !! n ≠ ds !! n → services !! n = cs !! n)) ∧
  (∀ s, s ∈ conflicts ↔
     (∃ k, k ≠ "services" ∧ s = k ∧ b !! k ≠ c !! k ∧ b !! k ≠ d !! k ∧ c !! k ≠ d !! k) ∨
     ∃ n, s = "services." +:+ n ∧ bs !! n ≠ cs !! n ∧ bs !! n ≠ ds !! n ∧ cs !! n ≠ ds !! n).
Proof.
  unfold Rebase_parts. cbv zeta. set (b := asMap base). set (c := asMap current). set (d := asMap draft).
  set (bs := submap (b !! "services")). set (cs := submap (c !! "services")). set (ds := submap (d !! "services")).
  set (names := List.filter (λ key, negb (key =? "services")%string) (keys b c d)).
  destruct (merge_keys EmptyString b c d names (∅, [])) as [m1 conf1] eqn:H1.
  destruct (merge_keys "services." bs cs ds (keys bs cs ds) (∅, conf1)) as [s1 conf2] eqn:H2.
  intros [= <- <- <-].
  assert (NoDup names) as Hnd by (apply NoDup_ListNoDup, List.NoDup_filter, NoDup_ListNoDup, keys_NoDup).
  assert (∀ k, k ∈ names ↔ k ∈ keys b c d ∧ k ≠ "services") as Hnames.
  { intros k. unfold names. rewrite !list_elem_of_In, List.filter_In, negb_true_iff, String.eqb_neq. done. }
  assert (∀ (b c d : option json), (b = c → (merge3 b c d).1 = d) ∧ (b = d → (merge3 b c d).1 = c) ∧
    (b ≠ c → b ≠ d → (merge3 b c d).1 = c)) as Hcases.
  { intros x y z. unfold merge3. split_and!; intros; repeat case_decide; simpl; congruence. }
  split_and!.
  - intros k Hk. pose proof (merge_keys_lookup EmptyString b c d names [] k Hnd) as Hl.
    rewrite H1 in Hl. simpl in Hl. rewrite Hl by (rewrite Hnames; done). apply Hcases.
  - intros n. pose proof (merge_keys_lookup "services." bs cs ds (keys bs cs ds) conf1 n (keys_NoDup _ _ _)) as Hl.
    rewrite H2 in Hl. simpl in Hl. rewrite Hl by done. apply Hcases.
  - intros s. destruct (merge_keys_spec "services." bs cs ds _ ∅ conf1 (keys_NoDup bs cs ds)) as (_ & _ & Hc2).
    destruct (merge_keys_spec EmptyString b c d names ∅ [] Hnd) as (_ & _ & Hc1). cbv zeta in *.
    rewrite H1 in Hc1. rewrite H2 in Hc2. simpl in Hc1, Hc2. rewrite Hc2, Hc1.
    setoid_rewrite Hnames. setoid_rewrite <-merge3_conflict. unfold conflicting. split.
    + intros [[[]%not_elem_of_nil|(k & [_ Hk] & -> & Hm)]|(n & _ & -> & Hm)]; [left; by exists k|right; by exists n].
    + intros [(k & Hk & -> & Hm)|(n & -> & Hm)].
      * left. right. exists k. split_and!; [by apply conflicting_keys|done|done|done].
      * right. exists n. split_and!; [by apply conflicting_keys|done|done].
Qed.

Section recovery_properties.
Context `{RangeOrder}.

(** A failed release is recovered automatically exactly when the revision
    does not disable it, a previous release exists with the same services, and
    neither revision has a volume, a job or a mount: recovery never restores
    data or repeats a job. *)
Theorem RecoveryBlocked_exact next previous : RecoveryBlocked next previous = EmptyString ↔
  (∀ r, next.(app_Recovery) = Some r → r.(rp_OnFailure) ≠ "disabled") ∧
  ∃ prev, previous = Some prev ∧ dom (app_services next) = dom (app_services prev) ∧
    ∀ app, app = next ∨ app = prev →
      app.(app_Volumes) = ∅ ∧ ∀ n s, app_services app !! n = Some s → stateless s.
Proof.
  unfold RecoveryBlocked.
  destruct (match app_Recovery next with Some r => _ | None => _ end) eqn:Hd.
  { split; [done|]. intros [Hno _]. destruct (app_Recovery next) as [r|]; [|done].
    apply String.eqb_eq in Hd. by destruct (Hno r). }
  assert (∀ r, app_Recovery next = Some r → rp_OnFailure r ≠ "disabled") as Hno.
  { intros r Hr. rewrite Hr in Hd. by apply String.eqb_neq. }
  destruct previous as [prev|]; [|split; [done|]; by intros [_ (? & ? & _)]].
  destruct (lenm (app_services next) =? lenm (app_services prev)) eqn:Hl; cbn [negb].
  - destruct (forallb (has_key (app_services prev)) (keys_of (app_services next))) eqn:Hf; cbn [negb].
    + rewrite first_reason_empty, !Forall_cons, !data_reason_empty.
      apply Z.eqb_eq in Hl. pose proof (same_names_dom _ _ Hl Hf) as Hdom. split.
      * intros (H1 & H2 & _). split; [done|]. exists prev. split_and!; [done|done|]. intros app [->| ->]; done.
      * intros (_ & p & [= <-] & _ & Hall). split_and!; [..|constructor]; by apply Hall; eauto.
    + split; [done|]. intros (_ & p & [= <-] & Hdom & _). exfalso.
      assert (forallb (has_key (app_services prev)) (keys_of (app_services next)) = true); [|congruence].
      apply forallb_forall. intros n. rewrite <-list_elem_of_In, elem_of_keys_of, <-elem_of_dom, Hdom, elem_of_dom.
      unfold has_key. by intros [? ->].
  - split; [done|]. intros (_ & p & [= <-] & Hdom & _). exfalso. apply Z.eqb_neq in Hl. apply Hl.
    unfold lenm. by rewrite <-!(size_dom (D := gset string)), Hdom.
Qed.

(** An accepted preview has at most four services, no custom domain and no
    shared network, and each service as it will run is a single small replica
    without pool, autoscaling, GPU, public TCP or certificate, whose secrets
    are all the preview's own. *)
Theorem ValidatePreview_sound a : ValidatePreview a = Ok tt →
  lenm (app_services a) ≤ 4 ∧ a.(app_Domains) = ∅ ∧
  (∀ k net, a.(app_Networks) !! k = Some net → net.(net_VirtualNetwork) = EmptyString ∧ net.(net_Segment) = EmptyString) ∧
  ∀ n s, app_services a !! n = Some s → let e := EffectiveService a s in
    s.(svc_Actions) = None ∧ s.(svc_Size) = "small" ∧ s.(svc_Replicas) ≤ 1 ∧ s.(svc_Autoscaling) = None ∧
    s.(svc_GPU) = None ∧ s.(svc_PublicTCP) = [] ∧ s.(svc_TLS) = None ∧
    ∀ k r, SecretReferences e !! k = Some r → r.(sr_Provider) = EmptyString.
Proof.
  unfold ValidatePreview. rewrite RuntimeEnvironment_eq. intros Hv. cbv zeta in Hv. inv_ok. zify_bool. simpl in *.
  match goal with H : iterM _ _ = Ok _ |- _ => rewrite iterM_Ok, Forall_forall in H; rename H into Hnets end.
  match goal with H : foldM _ _ _ = Ok _ |- _ => rename H into Hl end.
  split_and!.
  - unfold lenm in *. unfold app_services in *. simpl in *. rewrite map_size_fmap in *. lia.
  - apply lenm_zero. unfold lenm in *. lia.
  - intros k net Hk. specialize (Hnets (k, net) ltac:(by apply elem_of_range)). rewrite fail_when_Ok in Hnets.
    simpl in Hnets. split_orb. by rewrite !is_empty_true in *.
  - intros n s Hs. set (e := EffectiveService a s).
    assert (check_preview_service e = Ok tt) as He%check_preview_Ok.
    { apply foldM_each with (x := (n, e)) in Hl as (t & t' & Hx).
      - simpl in Hx. by apply bind_unit_Ok in Hx as [? _].
      - apply elem_of_range. change (((EffectiveService a) <$> app_services a) !! n = Some e). by rewrite lookup_fmap, Hs. }
    revert He. unfold e. rewrite EffectiveService_Actions. unfold EffectiveService.
    destruct (svc_Actions s); [by intros [? _]|]. simpl. done.
Qed.
End recovery_properties.

(** Two revisions that each changed another service, and one both changed. *)
Module RebaseExample.
Definition revision (web worker name : string) : Application :=
  set_app_Name name (set_app_Services (Some {["web" := set_svc_Image web zero_Service;
    "worker" := set_svc_Image worker zero_Service]}) zero_Application).
Definition base : Application := revision "web:1" "worker:1" "shop".
Definition current : Application := revision "web:2" "worker:1" "store".
Definition draft : Application := revision "web:1" "worker:2" "market".
Definition merged := (Rebase_parts base current draft).1.1.
Definition services := (Rebase_parts base current draft).1.2.
Definition conflicts := (Rebase_parts base current draft).2.

Definition preview : Application :=
  set_app_Services (Some {["web" := set_svc_Size "small" (set_svc_Replicas 1 zero_Service)]}) zero_Application.
End RebaseExample.

Lemma Rebase_three_way_witness :
  RebaseExample.conflicts = ["name"] ∧
  RebaseExample.services !! "worker" = submap (asMap RebaseExample.draft !! "services") !! "worker".
Proof.
  split; [vm_compute; reflexivity|].
  refine (proj1 (proj1 (proj2 (Rebase_three_way RebaseExample.base RebaseExample.current RebaseExample.draft
    RebaseExample.merged RebaseExample.services RebaseExample.conflicts _)) "worker") _); vm_compute; reflexivity.
Defined.

Lemma ValidatePreview_sound_witness : svc_Replicas zero_Service ≤ 1 ∧ lenm (app_services RebaseExample.preview) ≤ 4.
Proof.
  split; [vm_compute; discriminate|]. refine (proj1 (ValidatePreview_sound RebaseExample.preview _)).
  vm_compute. reflexivity.
Defined.
