(* ===== verification/Gateway.v ===== *)
(** The serverless gateway (internal/serverless/gateway.go): routing by host, one
    activation per service, bounded concurrency and putting idle services to
    sleep. The goroutines of the requests and of [Run] are a transition system:
    each step is one access to the shared gateway (a channel operation, a region
    under its lock, or the data an entry's gate protects) or one call of the
    runtime. *)
From S2P Require Import Prelude GoStd GoNet SpecTypes Platform.
#[global] Open Scope Z_scope.

(** * Data *)

Record IdleHTTPService : Type := mkIdleHTTPService {
  ih_ApplicationID : string;
  ih_Project : string;
  ih_Environment : string;
  ih_Service : string;
  ih_Revision : Z;
  ih_Hosts : list string;
}.

Record Route : Type := mkRoute {
  rt_Target : IdleHTTPService;
  rt_Backend : string;
  rt_Settings : Serverless;
}.

(** [chan struct{}] of capacity one is a boolean: whether it is full. Times are
    nanoseconds. *)
Record entry : Type := mkEntry {
  e_route : Route;
  e_gate : bool;
  e_active : Z;
  e_awake : bool;
  e_sleeping : bool;
  e_last : Z;
}.

(** Entries are shared by pointer: [heap] holds every entry allocated, and a
    pointer is its position. [refreshed] is [None] for the zero time. [slots] and
    [transitions] are the numbers of values in the channels. *)
Record Gateway : Type := mkGateway {
  g_heap : list entry;
  g_routes : gmap string nat;
  g_entries : gmap string nat;
  g_refreshed : option Z;
  g_refresh : bool;
  g_slots : Z;
  g_transitions : Z;
}.

Definition max_slots : Z := 128.
Definition max_transitions : Z := 2.
Definition Second : Z := 1000000000.

Definition New : Gateway := mkGateway [] ∅ ∅ None false 0 0.

Definition key (r : Route) : string := r.(rt_Target).(ih_ApplicationID) +:+ "/" +:+ r.(rt_Target).(ih_Service).

Definition host (raw : string) : string :=
  let raw := ToLower raw in
  let raw := match SplitHostPort raw with Some (h, _) => h | None => raw end in
  TrimSuffix raw ".".

(** ** Assignments *)

Definition set_gate (b : bool) (e : entry) : entry :=
  mkEntry e.(e_route) b e.(e_active) e.(e_awake) e.(e_sleeping) e.(e_last).
Definition set_active (n : Z) (e : entry) : entry :=
  mkEntry e.(e_route) e.(e_gate) n e.(e_awake) e.(e_sleeping) e.(e_last).
Definition set_power (awake sleeping : bool) (e : entry) : entry :=
  mkEntry e.(e_route) e.(e_gate) e.(e_active) awake sleeping e.(e_last).
Definition set_last (t : Z) (e : entry) : entry :=
  mkEntry e.(e_route) e.(e_gate) e.(e_active) e.(e_awake) e.(e_sleeping) t.

Definition set_heap (h : list entry) (g : Gateway) : Gateway :=
  mkGateway h g.(g_routes) g.(g_entries) g.(g_refreshed) g.(g_refresh) g.(g_slots) g.(g_transitions).
Definition set_refresh (b : bool) (g : Gateway) : Gateway :=
  mkGateway g.(g_heap) g.(g_routes) g.(g_entries) g.(g_refreshed) b g.(g_slots) g.(g_transitions).
Definition set_slots (n : Z) (g : Gateway) : Gateway :=
  mkGateway g.(g_heap) g.(g_routes) g.(g_entries) g.(g_refreshed) g.(g_refresh) n g.(g_transitions).
Definition set_transitions (n : Z) (g : Gateway) : Gateway :=
  mkGateway g.(g_heap) g.(g_routes) g.(g_entries) g.(g_refreshed) g.(g_refresh) g.(g_slots) n.

(** [*e = f( *e)] *)
Definition update (e : nat) (f : entry → entry) (g : Gateway) : Gateway := set_heap (alter f e g.(g_heap)) g.

(** * Refresh *)

Section gateway.
Context `{Host}.

Definition invalid_route (r : Route) : bool :=
  match url_Parse r.(rt_Backend) with
  | None => true
  | Some upstream =>
      negb (upstream.(u_Scheme) =? "http")%string || upstream.(u_has_User) || negb (ParseIP upstream.(u_Hostname)) ||
      (64 <? lenl r.(rt_Target).(ih_Hosts)) || (r.(rt_Settings).(sl_MaxConcurrency) <? 1) ||
      (64 <? r.(rt_Settings).(sl_MaxConcurrency))
  end.

(** The entry of a route: the present one, unless its revision or its backend
    changed. *)
Definition route_entry (g : Gateway) (now : Z) (heap : list entry) (r : Route) : list entry * nat :=
  let fresh := (heap ++ [mkEntry r false 0 false false now], length heap) in
  match g.(g_entries) !! key r with
  | None => fresh
  | Some v =>
      match g.(g_heap) !! v with
      | None => fresh
      | Some old =>
          if negb (old.(e_route).(rt_Target).(ih_Revision) =? r.(rt_Target).(ih_Revision)) ||
             negb (old.(e_route).(rt_Backend) =? r.(rt_Backend))%string
          then fresh else (heap, v)
      end
  end.

Definition add_host (v : nat) (hosts : gmap string nat) (h : string) : result (gmap string nat) :=
  let h := host h in
  _ ← fail_when (match hosts !! h with Some prior => negb (prior =? v)%nat | None => false end)
        (Errorf "ambiguous serverless host" []);
  Ok (<[h := v]> hosts).

Definition add_route (g : Gateway) (now : Z) (st : list entry * gmap string nat * gmap string nat) (r : Route)
  : result (list entry * gmap string nat * gmap string nat) :=
  let '(heap, entries, hosts) := st in
  _ ← fail_when (invalid_route r) (Errorf "invalid serverless route" []);
  let '(heap, v) := route_entry g now heap r in
  hosts ← foldM (add_host v) hosts r.(rt_Target).(ih_Hosts);
  Ok (heap, <[key r := v]> entries, hosts).

(** The part of [Refresh] under the lock. *)
Definition apply_routes (g : Gateway) (now : Z) (routes : list Route) : result Gateway :=
  '(heap, entries, hosts) ← foldM (add_route g now) (g.(g_heap), ∅, ∅) routes;
  Ok (mkGateway heap hosts entries (Some now) g.(g_refresh) g.(g_slots) g.(g_transitions)).

Definition since (now : Z) (t : option Z) (limit : Z) : bool :=
  match t with Some t => now - t <? limit | None => false end.

(** Where a goroutine is inside [Refresh]. *)
Inductive refresh_pc : Type :=
  | RefreshTry                        (* select g.refresh <- *)
  | RefreshRecent                     (* holding g.refresh: time.Since(g.refreshed) *)
  | RefreshRoutes                     (* g.runtime.Routes(ctx) *)
  | RefreshApply (routes : list Route)
  | RefreshRelease (r : result unit). (* the deferred <-g.refresh *)

(** What the runtime or the context answers in a step. *)
Inductive answer : Type :=
  | Runs
  | Returned (ok : bool)
  | RoutesReturned (r : result (list Route))
  | ContextDone.

Definition refresh_step (g : Gateway) (now : Z) (pc : refresh_pc) (a : answer) : option (Gateway * (refresh_pc + result unit)) :=
  match pc, a with
  | RefreshTry, Runs =>
      if g.(g_refresh) then Some (g, inr (Ok tt)) else Some (set_refresh true g, inl RefreshRecent)
  | RefreshRecent, Runs =>
      Some (g, inl (if since now g.(g_refreshed) Second then RefreshRelease (Ok tt) else RefreshRoutes))
  | RefreshRoutes, RoutesReturned (Err e) => Some (g, inl (RefreshRelease (Err e)))
  | RefreshRoutes, RoutesReturned (Ok routes) =>
      Some (g, inl (if 512 <? lenl routes then RefreshRelease (Err (Errorf "serverless service limit exceeded" []))
                    else RefreshApply routes))
  | RefreshApply routes, Runs =>
      match apply_routes g now routes with
      | Ok g' => Some (g', inl (RefreshRelease (Ok tt)))
      | Err e => Some (g, inl (RefreshRelease (Err e)))
      end
  | RefreshRelease r, Runs => Some (set_refresh false g, inr r)
  | _, _ => None
  end.

(** * ServeHTTP *)

Record Request : Type := mkRequest { rq_Host : string; rq_ContentLength : Z }.

Inductive outcome : Type :=
  | Rejected (status : Z)
  | Forwarded.

Inductive serve_pc : Type :=
  | ServeSlot                       (* select g.slots <- *)
  | ServeLookup                     (* g.routes[host(r.Host)] under the read lock *)
  | ServeRefresh (pc : refresh_pc)
  | ServeRelookup
  | ServeValidate (e : nat)         (* g.runtime.Validate(ctx, e.route) *)
  | ServeGate (e : nat)             (* select e.gate <- / ctx.Done() *)
  | ServeAdmit (e : nat)            (* the gate is held from here *)
  | ServeTransition (e : nat)       (* select g.transitions <- / ctx.Done() *)
  | ServeWake (e : nat)             (* g.runtime.WakeHTTPService *)
  | ServeDial (e : nat)             (* backendReady: g.dial *)
  | ServeRetry (e : nat)            (* backendReady: ctx.Done() or 100 ms *)
  | ServeWoken (e : nat) (ok : bool)
  | ServeRevalidate (e : nat)       (* the second Validate *)
  | ServeForward (e : nat)          (* proxy.ServeHTTP; the gate is free *)
  | ServeFinish (e : nat)           (* deferred: e.gate <- *)
  | ServeFinished (e : nat)         (* deferred: e.active--, e.last, <-e.gate *)
  | ServeReturn (o : outcome)       (* deferred: <-g.slots *)
  | ServeDone (o : outcome).

(** The checks after the routes were read: [e] and [fresh]. *)
Definition dispatch (r : Request) (e : option nat) (fresh : bool) : serve_pc :=
  if negb fresh then ServeReturn (Rejected 503)
  else match e with
  | None => ServeReturn (Rejected 404)
  | Some e => if 4194304 <? r.(rq_ContentLength) then ServeReturn (Rejected 413) else ServeValidate e
  end.

Definition serve_step (r : Request) (g : Gateway) (now : Z) (pc : serve_pc) (a : answer) : option (Gateway * serve_pc) :=
  let found := g.(g_routes) !! host r.(rq_Host) in
  let fresh := since now g.(g_refreshed) (30 * Second) in
  match pc, a with
  | ServeSlot, Runs =>
      if g.(g_slots) <? max_slots then Some (set_slots (g.(g_slots) + 1) g, ServeLookup)
      else Some (g, ServeDone (Rejected 503))
  | ServeLookup, Runs =>
      Some (g, if negb (non_nil found) || negb fresh then ServeRefresh RefreshTry else dispatch r found fresh)
  | ServeRefresh pc, a =>
      '(g', out) ← refresh_step g now pc a;
      Some (g', match out with
                | inl pc' => ServeRefresh pc'
                | inr (Ok _) => ServeRelookup
                | inr (Err _) => ServeReturn (Rejected 503)
                end)
  | ServeRelookup, Runs => Some (g, dispatch r found fresh)
  | ServeValidate e, Returned ok => Some (g, if ok : bool then ServeGate e else ServeReturn (Rejected 503))
  | ServeGate e, Runs =>
      v ← g.(g_heap) !! e;
      if v.(e_gate) : bool then None else Some (update e (set_gate true) g, ServeAdmit e)
  | ServeGate e, ContextDone => Some (g, ServeReturn (Rejected 504))
  | ServeAdmit e, Runs =>
      v ← g.(g_heap) !! e;
      if v.(e_route).(rt_Settings).(sl_MaxConcurrency) <=? v.(e_active)
      then Some (update e (set_gate false) g, ServeReturn (Rejected 429))
      else Some (g, if v.(e_awake) : bool then ServeRevalidate e else ServeTransition e)
  | ServeTransition e, Runs =>
      if g.(g_transitions) <? max_transitions then Some (set_transitions (g.(g_transitions) + 1) g, ServeWake e) else None
  | ServeTransition e, ContextDone => Some (update e (set_gate false) g, ServeReturn (Rejected 504))
  | ServeWake e, Returned ok => Some (g, if ok : bool then ServeDial e else ServeWoken e false)
  | ServeDial e, Returned ok => Some (g, if ok : bool then ServeWoken e true else ServeRetry e)
  | ServeRetry e, ContextDone => Some (g, ServeWoken e false)
  | ServeRetry e, Runs => Some (g, ServeDial e)
  | ServeWoken e ok, Runs =>
      let g := set_transitions (g.(g_transitions) - 1) g in
      if ok : bool then Some (update e (set_power true false) g, ServeRevalidate e)
      else Some (update e (set_gate false) g, ServeReturn (Rejected 503))
  | ServeRevalidate e, Returned ok =>
      if ok : bool
      then Some (update e (λ v, set_gate false (set_active (v.(e_active) + 1) v)) g, ServeForward e)
      else Some (update e (set_gate false) g, ServeReturn (Rejected 503))
  | ServeForward e, Returned _ => Some (g, ServeFinish e)
  | ServeFinish e, Runs =>
      v ← g.(g_heap) !! e;
      if v.(e_gate) : bool then None else Some (update e (set_gate true) g, ServeFinished e)
  | ServeFinished e, Runs =>
      Some (update e (λ v, set_gate false (set_last now (set_active (v.(e_active) - 1) v))) g, ServeReturn Forwarded)
  | ServeReturn o, Runs => Some (set_slots (g.(g_slots) - 1) g, ServeDone o)
  | _, _ => None
  end.
End gateway.

(** * SleepIdle and Run *)

Inductive sleep_pc : Type :=
  | SleepSnapshot                                (* the entries, under the read lock *)
  | SleepNext (es : list nat)                    (* ctx.Err(), select e.gate <- *)
  | SleepCheck (e : nat) (es : list nat)         (* the gate is held from here *)
  | SleepCall (e : nat) (es : list nat)          (* g.runtime.SleepHTTPService *)
  | SleepRelease (e : nat) (es : list nat).      (* <-e.gate *)

Definition idle (now : Z) (v : entry) : bool :=
  negb v.(e_sleeping) && (v.(e_active) =? 0) && (v.(e_route).(rt_Settings).(sl_MinReplicas) =? 0) &&
  (wrap64 (v.(e_route).(rt_Settings).(sl_IdleSeconds) * Second) <=? now - v.(e_last)).

Section runner.
Context `{Host} `{RangeOrder}.

(** [None] as the next place is the return. *)
Definition sleep_step (g : Gateway) (now : Z) (pc : sleep_pc) (a : answer) : option (Gateway * option sleep_pc) :=
  match pc, a with
  | SleepSnapshot, Runs => Some (g, Some (SleepNext (range g.(g_entries)).*2))
  | SleepNext [], Runs => Some (g, None)
  | SleepNext (_ :: _), ContextDone => Some (g, None)
  | SleepNext (e :: es), Runs =>
      v ← g.(g_heap) !! e;
      if v.(e_gate) : bool then Some (g, Some (SleepNext es)) else Some (update e (set_gate true) g, Some (SleepCheck e es))
  | SleepCheck e es, Runs =>
      v ← g.(g_heap) !! e;
      Some (g, Some (if idle now v then SleepCall e es else SleepRelease e es))
  | SleepCall e es, Returned ok =>
      Some (if ok : bool then update e (set_power false true) g else g, Some (SleepRelease e es))
  | SleepRelease e es, Runs => Some (update e (set_gate false) g, Some (SleepNext es))
  | _, _ => None
  end.

Inductive run_pc : Type :=
  | RunRefresh (pc : refresh_pc)
  | RunSleep (pc : sleep_pc)
  | RunWait
  | RunDone.

Definition run_step (g : Gateway) (now : Z) (pc : run_pc) (a : answer) : option (Gateway * run_pc) :=
  match pc, a with
  | RunRefresh pc, a =>
      '(g', out) ← refresh_step g now pc a;
      Some (g', match out with inl pc' => RunRefresh pc' | inr _ => RunSleep SleepSnapshot end)
  | RunSleep pc, a =>
      '(g', out) ← sleep_step g now pc a;
      Some (g', match out with Some pc' => RunSleep pc' | None => RunWait end)
  | RunWait, Runs => Some (g, RunRefresh RefreshTry)
  | RunWait, ContextDone => Some (g, RunDone)
  | _, _ => None
  end.

(** * The system *)

(** The gateway, the clock, every request that arrived with where its goroutine
    is, and the goroutine of [Run]. *)
Record system : Type := mkSystem {
  s_gateway : Gateway;
  s_now : Z;
  s_requests : list (Request * serve_pc);
  s_runner : run_pc;
}.

Definition started (now : Z) : system := mkSystem New now [] (RunRefresh RefreshTry).

Inductive step : system → system → Prop :=
  | step_arrive s r :
      step s (mkSystem s.(s_gateway) s.(s_now) (s.(s_requests) ++ [(r, ServeSlot)]) s.(s_runner))
  | step_serve s i r pc a g' pc' :
      s.(s_requests) !! i = Some (r, pc) → serve_step r s.(s_gateway) s.(s_now) pc a = Some (g', pc') →
      step s (mkSystem g' s.(s_now) (<[i := (r, pc')]> s.(s_requests)) s.(s_runner))
  | step_run s a g' pc' :
      run_step s.(s_gateway) s.(s_now) s.(s_runner) a = Some (g', pc') →
      step s (mkSystem g' s.(s_now) s.(s_requests) pc')
  | step_clock s d :
      0 <= d → step s (mkSystem s.(s_gateway) (s.(s_now) + d) s.(s_requests) s.(s_runner)).

Definition reachable (s : system) : Prop := ∃ now, rtc step (started now) s.
End runner.

(** * Forwarding headers *)

Definition validForwardedFor (chain : string) : bool :=
  if (512 <? len chain) || is_empty chain then false
  else
    let parts := Split chain "," in
    if 8 <? lenl parts then false else forallb (λ part, ParseIP (TrimSpace part)) parts.

(** * Playing a schedule

    The steps as a function of the event that happens. *)

Section play.
Context `{Host} `{RangeOrder}.

Inductive event : Type :=
  | Arrive (r : Request)
  | Serve (i : nat) (a : answer)
  | Runner (a : answer)
  | Clock (d : Z).

Definition play_event (s : system) (ev : event) : option system :=
  match ev with
  | Arrive r => Some (mkSystem s.(s_gateway) s.(s_now) (s.(s_requests) ++ [(r, ServeSlot)]) s.(s_runner))
  | Serve i a =>
      '(r, pc) ← s.(s_requests) !! i;
      '(g', pc') ← serve_step r s.(s_gateway) s.(s_now) pc a;
      Some (mkSystem g' s.(s_now) (<[i := (r, pc')]> s.(s_requests)) s.(s_runner))
  | Runner a =>
      '(g', pc') ← run_step s.(s_gateway) s.(s_now) s.(s_runner) a;
      Some (mkSystem g' s.(s_now) s.(s_requests) pc')
  | Clock d => if 0 <=? d then Some (mkSystem s.(s_gateway) (s.(s_now) + d) s.(s_requests) s.(s_runner)) else None
  end.

Fixpoint play (s : system) (evs : list event) : option system :=
  match evs with
  | [] => Some s
  | ev :: evs' => s' ← play_event s ev; play s' evs'
  end.

Lemma play_event_step s ev s' : play_event s ev = Some s' → step s s'.
Proof.
  destruct ev as [r|i a|a|d]; simpl.
  - intros [= <-]. constructor.
  - destruct (s_requests s !! i) as [[r pc]|] eqn:Hi; [|done]. simpl.
    destruct (serve_step r _ _ pc a) as [[g' pc']|] eqn:Hs; [|done]. intros [= <-]. by eapply step_serve.
  - destruct (run_step _ _ _ a) as [[g' pc']|] eqn:Hs; [|done]. intros [= <-]. by eapply step_run.
  - destruct (Z.leb_spec 0 d); [|done]. intros [= <-]. by constructor.
Qed.

(** Every step of the system is an event, and a schedule that plays is an
    execution. *)
Lemma step_play s s' : step s s' ↔ ∃ ev, play_event s ev = Some s'.
Proof.
  split; [|intros [ev Hev]; by eapply play_event_step].
  intros Hs. destruct Hs as [s r|s i r pc a g' pc' Hi Hs|s a g' pc' Hs|s d Hd].
  - by exists (Arrive r).
  - exists (Serve i a). simpl. rewrite Hi. simpl. by rewrite Hs.
  - exists (Runner a). simpl. by rewrite Hs.
  - exists (Clock d). simpl. by rewrite (proj2 (Z.leb_le 0 d) Hd).
Qed.

Lemma play_steps s evs s' : play s evs = Some s' → rtc step s s'.
Proof.
  revert s. induction evs as [|ev evs IH]; intros s; simpl; [by intros [= ->]|].
  destruct (play_event s ev) as [s1|] eqn:Hev; [|done]. intros Hp. eapply rtc_l; [by eapply play_event_step|by apply IH].
Qed.
End play.

(** * An example *)

#[local] Existing Instance Concrete.host.

Module GatewayExample.
Definition target : IdleHTTPService := mkIdleHTTPService "app" "p" "production" "web" 1 ["App.example.test."].
Definition route : Route := mkRoute target "http://10.0.0.1" (mkServerless 0 30 5 2 1).
Definition request : Request := mkRequest "app.example.test:443" 12.
Definition serve (i : nat) (l : list answer) : list event := Serve i <$> l.
(** [Run] reads the routes, a first request wakes the service and is forwarded, a
    second one finds its only place taken. *)
Definition schedule : list event :=
  (Runner <$> [Runs; Runs; RoutesReturned (Ok [route]); Runs; Runs]) ++
  [Arrive request; Arrive request] ++
  serve 0 [Runs; Runs; Returned true; Runs; Runs; Runs; Returned true; Returned false] ++ [Clock Second] ++
  serve 0 [Runs; Returned true; Runs; Returned true] ++
  serve 1 [Runs; Runs; Returned true; Runs; Runs].
Definition busy : option system := play (started 0) schedule.
(** The first request returns, and after half a minute the service is put to
    sleep. *)
Definition asleep : option system :=
  s ← busy; play s (serve 0 [Returned true; Runs; Runs; Runs] ++ serve 1 [Runs] ++ [Clock (30 * Second)] ++
                    (Runner <$> [Runs; Runs; Runs; Returned true; Runs; Runs])).
End GatewayExample.

Example busy_requests :
  (λ s, (s.(s_requests).*2, (λ v, (v.(e_active), v.(e_awake))) <$> s.(s_gateway).(g_heap))) <$> GatewayExample.busy =
  Some ([ServeForward 0; ServeReturn (Rejected 429)], [(1, true)]).
Proof. vm_compute. reflexivity. Qed.

Example asleep_service :
  (λ s, (s.(s_requests).*2, (λ v, (v.(e_active), v.(e_awake), v.(e_sleeping))) <$> s.(s_gateway).(g_heap))) <$> GatewayExample.asleep =
  Some ([ServeDone Forwarded; ServeDone (Rejected 429)], [(0, false, true)]).
Proof. vm_compute. reflexivity. Qed.
