(* ===== verification/GatewaySafety.v ===== *)
(** The invariants of the serverless gateway: what the channels of capacity one
    protect, the bounds on concurrency, and that an entry is awake while requests
    are forwarded to it. The goroutines are taken together as a list of threads;
    every step changes one of them. *)
From S2P Require Import Prelude GoStd GoNet SpecTypes Platform Gateway.
#[global] Open Scope Z_scope.

(** * Threads *)

Inductive thread : Type :=
  | TRun (pc : run_pc)
  | TServe (pc : serve_pc).

Definition threads (s : system) : list thread := TRun s.(s_runner) :: (TServe ∘ snd <$> s.(s_requests)).

(** The entry whose gate a thread holds. *)
Definition holding (t : thread) : option nat :=
  match t with
  | TServe (ServeAdmit e) | TServe (ServeTransition e) | TServe (ServeWake e) | TServe (ServeDial e)
  | TServe (ServeRetry e) | TServe (ServeWoken e _) | TServe (ServeRevalidate e) | TServe (ServeFinished e)
  | TRun (RunSleep (SleepCheck e _)) | TRun (RunSleep (SleepCall e _)) | TRun (RunSleep (SleepRelease e _)) => Some e
  | _ => None
  end.

(** The entry a thread counts among the active requests of. *)
Definition forwarding (t : thread) : option nat :=
  match t with
  | TServe (ServeForward e) | TServe (ServeFinish e) | TServe (ServeFinished e) => Some e
  | _ => None
  end.

(** The entry that has room for the request of a thread. *)
Definition admitted (t : thread) : option nat :=
  match t with
  | TServe (ServeTransition e) | TServe (ServeWake e) | TServe (ServeDial e) | TServe (ServeRetry e)
  | TServe (ServeWoken e _) | TServe (ServeRevalidate e) => Some e
  | _ => None
  end.
Definition ready (t : thread) : option nat := match t with TServe (ServeRevalidate e) => Some e | _ => None end.
(** The entry a thread is putting to sleep. *)
Definition quiet (t : thread) : option nat := match t with TRun (RunSleep (SleepCall e _)) => Some e | _ => None end.

Definition holds_slot (t : thread) : Z :=
  match t with TRun _ | TServe ServeSlot | TServe (ServeDone _) => 0 | TServe _ => 1 end.
Definition holds_transition (t : thread) : Z :=
  match t with
  | TServe (ServeWake _) | TServe (ServeDial _) | TServe (ServeRetry _) | TServe (ServeWoken _ _) => 1
  | _ => 0
  end.
Definition refreshing (t : thread) : Z :=
  match t with
  | TRun (RunRefresh RefreshTry) | TServe (ServeRefresh RefreshTry) => 0
  | TRun (RunRefresh _) | TServe (ServeRefresh _) => 1
  | _ => 0
  end.

(** Every entry a thread points to. *)
Definition pointers (t : thread) : list nat :=
  match t with
  | TServe (ServeValidate e) | TServe (ServeGate e) | TServe (ServeAdmit e) | TServe (ServeTransition e)
  | TServe (ServeWake e) | TServe (ServeDial e) | TServe (ServeRetry e) | TServe (ServeWoken e _)
  | TServe (ServeRevalidate e) | TServe (ServeForward e) | TServe (ServeFinish e) | TServe (ServeFinished e) => [e]
  | TRun (RunSleep (SleepNext es)) => es
  | TRun (RunSleep (SleepCheck e es)) | TRun (RunSleep (SleepCall e es)) | TRun (RunSleep (SleepRelease e es)) => e :: es
  | _ => []
  end.

(** One when the entry is [e], for counting. *)
Definition at_entry (e : nat) (o : option nat) : Z := if decide (o = Some e) then 1 else 0.

Definition total (f : thread → Z) (ts : list thread) : Z := foldr (λ t acc, f t + acc) 0 ts.

(** * The invariant *)

Definition limit (v : entry) : Z := v.(e_route).(rt_Settings).(sl_MaxConcurrency).

Definition thread_ok (heap : list entry) (t : thread) : Prop :=
  Forall (λ e, (e < length heap)%nat) (pointers t) ∧
  ∀ e v, heap !! e = Some v →
    (admitted t = Some e → v.(e_active) < limit v) ∧
    (ready t = Some e → v.(e_awake) = true) ∧
    (quiet t = Some e → v.(e_active) = 0).

(** An entry against the threads: its gate is full exactly when a thread holds it,
    its counter counts the requests forwarded to it, within its limit, and it is
    awake while there are any. *)
Definition entry_ok (ts : list thread) (e : nat) (v : entry) : Prop :=
  Z.b2z v.(e_gate) = total (λ t, at_entry e (holding t)) ts ∧
  v.(e_active) = total (λ t, at_entry e (forwarding t)) ts ∧
  v.(e_active) <= limit v ∧ 1 <= limit v <= 64 ∧
  (0 < v.(e_active) → v.(e_awake) = true) ∧
  (v.(e_awake) = true → v.(e_sleeping) = false).

Definition counts_ok (g : Gateway) (ts : list thread) : Prop :=
  g.(g_slots) = total holds_slot ts ∧ g.(g_slots) <= max_slots ∧
  g.(g_transitions) = total holds_transition ts ∧ g.(g_transitions) <= max_transitions ∧
  Z.b2z g.(g_refresh) = total refreshing ts.

Definition locations_ok (g : Gateway) : Prop :=
  map_Forall (λ _ e, (e < length g.(g_heap))%nat) g.(g_routes) ∧
  map_Forall (λ _ e, (e < length g.(g_heap))%nat) g.(g_entries).

Record inv (g : Gateway) (ts : list thread) : Prop := {
  inv_entries : ∀ e v, g.(g_heap) !! e = Some v → entry_ok ts e v;
  inv_threads : Forall (thread_ok g.(g_heap)) ts;
  inv_counts : counts_ok g ts;
  inv_locations : locations_ok g;
}.

(** * Counting *)

Lemma total_insert f ts k t t' : ts !! k = Some t → total f (<[k := t']> ts) = total f ts - f t + f t'.
Proof.
  revert k. induction ts as [|u ts IH]; intros [|k] Hk; simplify_eq/=; [lia|]. rewrite (IH k Hk). lia.
Qed.

Lemma total_app f ts us : total f (ts ++ us) = total f ts + total f us.
Proof. induction ts as [|t ts IH]; simpl; [lia|]. rewrite IH. lia. Qed.

Lemma total_nonneg f ts : (∀ t, 0 <= f t) → 0 <= total f ts.
Proof. intros Hf. induction ts as [|t ts IH]; simpl; [lia|]. pose proof (Hf t). lia. Qed.

Lemma total_one f ts k t : (∀ t, 0 <= f t) → ts !! k = Some t → f t <= total f ts.
Proof.
  intros Hf. revert k. induction ts as [|x ts IH]; intros [|k] Hk; simplify_eq/=.
  - pose proof (total_nonneg f ts Hf). lia.
  - pose proof (Hf x). pose proof (IH k Hk). lia.
Qed.

Lemma total_two f ts j k t u : (∀ t, 0 <= f t) → j ≠ k → ts !! j = Some t → ts !! k = Some u → f t + f u <= total f ts.
Proof.
  intros Hf. revert j k. induction ts as [|x ts IH]; intros [|j] [|k] Hne Hj Hk; simplify_eq/=.
  - pose proof (total_one f ts k u Hf Hk). lia.
  - pose proof (total_one f ts j t Hf Hj). lia.
  - pose proof (Hf x). pose proof (IH j k ltac:(lia) Hj Hk). lia.
Qed.

Lemma refreshing_nonneg t : 0 <= refreshing t.
Proof. by destruct t as [[[]| | |]|[| |[]| | | | | | | | | | | | | | |]]. Qed.
Lemma holds_slot_nonneg t : 0 <= holds_slot t.
Proof. by destruct t as [|[]]. Qed.
Lemma holds_transition_nonneg t : 0 <= holds_transition t.
Proof. by destruct t as [|[]]. Qed.

Lemma total_zero f ts : Forall (λ t, f t = 0) ts → total f ts = 0.
Proof. induction 1; simpl; lia. Qed.

Lemma at_entry_range e o : 0 <= at_entry e o <= 1.
Proof. unfold at_entry. case_decide; lia. Qed.

Lemma at_entry_same e : at_entry e (Some e) = 1.
Proof. unfold at_entry. by rewrite decide_True. Qed.

Lemma at_entry_none e : at_entry e None = 0.
Proof. done. Qed.

Lemma admitted_holding t e : admitted t = Some e → holding t = Some e.
Proof. by destruct t as [|[]]. Qed.
Lemma ready_holding t e : ready t = Some e → holding t = Some e.
Proof. by destruct t as [|[]]. Qed.
Lemma quiet_holding t e : quiet t = Some e → holding t = Some e.
Proof. by destruct t as [[| [] | |]|]. Qed.
Lemma holding_pointer t e : holding t = Some e ∨ forwarding t = Some e → e ∈ pointers t.
Proof. intros [H|H]; destruct t as [[|[]| |]|[]]; simplify_eq/=; by left. Qed.

(** * Changing one thread *)

(** What a step may do to an entry: it keeps the route; gate and counter follow
    the thread; whoever changes the counter or puts the entry to sleep or wakes it
    held the gate. *)
Definition entry_step (t t' : thread) (e : nat) (v v' : entry) : Prop :=
  v'.(e_route) = v.(e_route) ∧
  Z.b2z v'.(e_gate) = Z.b2z v.(e_gate) - at_entry e (holding t) + at_entry e (holding t') ∧
  v'.(e_active) = v.(e_active) - at_entry e (forwarding t) + at_entry e (forwarding t') ∧
  (v'.(e_active) = v.(e_active) ∧ v'.(e_awake) = v.(e_awake) ∧ v'.(e_sleeping) = v.(e_sleeping) ∨
   holding t = Some e ∧ v'.(e_active) <= limit v ∧ (0 < v'.(e_active) → v'.(e_awake) = true) ∧
   (v'.(e_awake) = true → v'.(e_sleeping) = false)).

Definition new_entry (v : entry) : Prop :=
  v.(e_gate) = false ∧ v.(e_active) = 0 ∧ v.(e_awake) = false ∧ 1 <= limit v <= 64.

Definition heap_step (t t' : thread) (heap heap' : list entry) : Prop :=
  (length heap <= length heap')%nat ∧
  ∀ e v', heap' !! e = Some v' →
    match heap !! e with
    | Some v => entry_step t t' e v v'
    | None => new_entry v' ∧ holding t' ≠ Some e ∧ forwarding t' ≠ Some e
    end.

Lemma no_pointer heap ts e f : Forall (thread_ok heap) ts → heap !! e = None →
  (∀ t, f t = Some e → holding t = Some e ∨ forwarding t = Some e) → total (λ t, at_entry e (f t)) ts = 0.
Proof.
  intros Hts He Hf. apply lookup_ge_None in He. apply total_zero. eapply Forall_impl; [exact Hts|]. intros t [Hp _].
  unfold at_entry. case_decide as Hd; [|done]. apply Hf, holding_pointer in Hd. rewrite Forall_forall in Hp.
  apply Hp in Hd. lia.
Qed.

Lemma at_entry_other e o : o ≠ Some e → at_entry e o = 0.
Proof. intros H. unfold at_entry. by rewrite decide_False. Qed.

Lemma entry_after g ts k t t' e v' : inv g ts → ts !! k = Some t →
  match g.(g_heap) !! e with
  | Some v => entry_step t t' e v v'
  | None => new_entry v' ∧ holding t' ≠ Some e ∧ forwarding t' ≠ Some e
  end → entry_ok (<[k := t']> ts) e v'.
Proof.
  intros [Hentries Hthreads _ _] Hk Hstep. unfold entry_ok. rewrite !(total_insert _ _ _ _ _ Hk). cbv beta.
  destruct (g_heap g !! e) as [v|] eqn:Hv.
  - destruct (Hentries e v Hv) as (H1 & H2 & H3 & H4 & H5 & H6). destruct Hstep as (Hroute & Hg & Ha & Hcase).
    assert (limit v' = limit v) as Hl by (unfold limit; by rewrite Hroute). rewrite Hl.
    split_and!; try lia.
    + destruct Hcase as [(-> & -> & _)|(_ & _ & ? & _)]; done.
    + destruct Hcase as [(_ & -> & ->)|(_ & _ & _ & ?)]; done.
  - destruct Hstep as ((Hg & Ha & Haw & Hl) & Hh & Hf). rewrite Hg, Ha, Haw.
    assert (thread_ok (g_heap g) t) as [Ht _] by by eapply Forall_lookup_1.
    assert (e ∉ pointers t) as Hno.
    { intros Hin. rewrite Forall_forall in Ht. apply Ht in Hin. apply lookup_ge_None in Hv. lia. }
    rewrite (at_entry_other e (holding t')), (at_entry_other e (forwarding t')) by done.
    rewrite (at_entry_other e (holding t)), (at_entry_other e (forwarding t))
      by (intros Hp; apply Hno, holding_pointer; auto).
    assert (∀ f, (∀ t, f t = Some e → holding t = Some e ∨ forwarding t = Some e) → total (λ t, at_entry e (f t)) ts = 0) as Hz.
    { intros f Hfp. by eapply no_pointer. }
    rewrite (Hz holding), (Hz forwarding) by auto. repeat split; try done; lia.
Qed.

(** The other threads keep what they rely on: it is protected by gates they hold,
    and nobody else holds them. *)
Lemma thread_frame g ts j k t t' u heap' : inv g ts → j ≠ k → ts !! j = Some u → ts !! k = Some t →
  heap_step t t' g.(g_heap) heap' → thread_ok heap' u.
Proof.
  intros [Hentries Hthreads _ _] Hne Hj Hk [Hlen Hheap].
  assert (thread_ok (g_heap g) u) as [Hp Hu] by by eapply Forall_lookup_1.
  assert (Forall (λ e, (e < length heap')%nat) (pointers u)) as Hp'.
  { eapply Forall_impl; [exact Hp|]. simpl. lia. }
  split; [done|]. intros e v' Hv'. specialize (Hheap e v' Hv').
  assert (holding u = Some e → ∃ v, g_heap g !! e = Some v ∧ limit v' = limit v ∧
    v'.(e_active) = v.(e_active) ∧ v'.(e_awake) = v.(e_awake)) as Hsame.
  { intros Hhold. destruct (g_heap g !! e) as [v|] eqn:Hv.
    - exists v. split; [done|]. destruct (Hentries e v Hv) as (Hgate & _). destruct Hheap as (Hroute & _ & _ & Hcase).
      split; [unfold limit; by rewrite Hroute|]. destruct Hcase as [(? & ? & _)|(Hht & _)]; [done|exfalso].
      pose proof (total_two (λ t, at_entry e (holding t)) ts j k u t (λ t, proj1 (at_entry_range e (holding t))) Hne Hj Hk) as H2.
      cbv beta in H2. rewrite Hhold, Hht, at_entry_same in H2. destruct (e_gate v); simpl in Hgate; lia.
    - exfalso. apply lookup_ge_None in Hv. rewrite Forall_forall in Hp.
      assert (e < length (g_heap g))%nat by (apply Hp, holding_pointer; by left). lia. }
  split_and!; intros H.
  - destruct (Hsame (admitted_holding _ _ H)) as (v & Hv & -> & -> & _). by apply (Hu e v Hv).
  - destruct (Hsame (ready_holding _ _ H)) as (v & Hv & _ & _ & ->). by apply (Hu e v Hv).
  - destruct (Hsame (quiet_holding _ _ H)) as (v & Hv & _ & -> & _). by apply (Hu e v Hv).
Qed.

Lemma thread_step g g' ts k t t' : inv g ts → ts !! k = Some t →
  heap_step t t' g.(g_heap) g'.(g_heap) → thread_ok g'.(g_heap) t' →
  g'.(g_slots) = g.(g_slots) - holds_slot t + holds_slot t' → g'.(g_slots) <= max_slots →
  g'.(g_transitions) = g.(g_transitions) - holds_transition t + holds_transition t' → g'.(g_transitions) <= max_transitions →
  Z.b2z g'.(g_refresh) = Z.b2z g.(g_refresh) - refreshing t + refreshing t' →
  locations_ok g' → inv g' (<[k := t']> ts).
Proof.
  intros Hinv Hk Hheap Ht' Hslots Hslots' Htrans Htrans' Hrefresh Hloc. split; [| | |done].
  - intros e v' Hv'. eapply entry_after; [done|done|]. by apply Hheap.
  - apply Forall_lookup. intros j u Hj. destruct (decide (j = k)) as [->|Hne].
    + rewrite list_lookup_insert_eq in Hj by by eapply lookup_lt_Some. by simplify_eq.
    + rewrite list_lookup_insert_ne in Hj by done. by eapply thread_frame.
  - destruct Hinv as [_ _ (Hs & _ & Htr & _ & Hr) _]. unfold counts_ok. rewrite !(total_insert _ _ _ _ _ Hk). lia.
Qed.

(** ** Heaps after a step *)

Lemma entry_step_same t t' e v : holding t = holding t' → forwarding t = forwarding t' → entry_step t t' e v v.
Proof. intros Hh Hf. unfold entry_step. rewrite Hh, Hf. split_and!; try lia; [done|]. by left. Qed.

Lemma heap_step_same t t' heap : holding t = holding t' → forwarding t = forwarding t' → heap_step t t' heap heap.
Proof.
  intros Hh Hf. split; [done|]. intros e v Hv. rewrite Hv. by apply entry_step_same.
Qed.

Lemma heap_step_grow t t' heap new : holding t = holding t' → forwarding t = forwarding t' →
  holding t' = None → forwarding t' = None → Forall new_entry new → heap_step t t' heap (heap ++ new).
Proof.
  intros Hh Hf Hh0 Hf0 Hnew. split; [rewrite length_app; lia|]. intros e v Hv. destruct (heap !! e) as [w|] eqn:Hw.
  - rewrite (lookup_app_l_Some _ _ _ _ Hw) in Hv. injection Hv as <-. by apply entry_step_same.
  - rewrite lookup_app_r in Hv by by apply lookup_ge_None. rewrite Hh0, Hf0. split; [|done].
    by eapply Forall_lookup_1.
Qed.

(** Only [e] is written, and only the gate and the counter of [e] are taken or
    given back. *)
Definition local_to (e : nat) (o o' : option nat) : Prop := (o = None ∨ o = Some e) ∧ (o' = None ∨ o' = Some e).

Lemma heap_step_alter t t' heap e f : local_to e (holding t) (holding t') → local_to e (forwarding t) (forwarding t') →
  (∀ v, heap !! e = Some v → entry_step t t' e v (f v)) → heap_step t t' heap (alter f e heap).
Proof.
  intros Hh Hf Hv. split; [by rewrite length_alter|]. intros i v'. destruct (decide (i = e)) as [->|Hne].
  - rewrite list_lookup_alter_eq. destruct (heap !! e) as [v|] eqn:He; [|done]. intros [= <-]. by apply Hv.
  - rewrite list_lookup_alter_ne by done. intros Hi. rewrite Hi. unfold entry_step.
    assert (∀ o o', local_to e o o' → at_entry i o = 0 ∧ at_entry i o' = 0) as Hz.
    { intros o o' [Ho Ho']. split; apply at_entry_other; [destruct Ho as [->| ->]|destruct Ho' as [->| ->]]; congruence. }
    destruct (Hz _ _ Hh) as [-> ->], (Hz _ _ Hf) as [-> ->]. split_and!; try lia; [done|]. by left.
Qed.

Lemma locations_alter g e f : locations_ok g → locations_ok (update e f g).
Proof. unfold locations_ok, update. simpl. by rewrite length_alter. Qed.

(** ** Refreshing *)

Section refresh.
Context `{Host}.

Lemma invalid_route_limit r now : invalid_route r = false → new_entry (mkEntry r false 0 false false now).
Proof.
  unfold invalid_route. destruct (url_Parse _); [|done]. intros Hr. split_orb. zify_bool.
  unfold new_entry, limit. simpl. lia.
Qed.

Lemma apply_routes_heap g now routes g' : apply_routes g now routes = Ok g' →
  (∃ new, g'.(g_heap) = g.(g_heap) ++ new ∧ Forall new_entry new) ∧ locations_ok g' ∧
  g'.(g_refresh) = g.(g_refresh) ∧ g'.(g_slots) = g.(g_slots) ∧ g'.(g_transitions) = g.(g_transitions).
Proof.
  unfold apply_routes. rewrite bind_Ok. intros ([[heap entries] hosts] & Hf & [= <-]). cbn [g_heap g_refresh g_slots g_transitions].
  cut ((∃ new, heap = g.(g_heap) ++ new ∧ Forall new_entry new) ∧
    map_Forall (λ _ e, (e < length heap)%nat) hosts ∧ map_Forall (λ _ e, (e < length heap)%nat) entries).
  { intros (? & ? & ?). split_and!; done. }
  revert Hf. set (P := λ (_ : list Route) (st : list entry * gmap string nat * gmap string nat),
    (∃ new, st.1.1 = g.(g_heap) ++ new ∧ Forall new_entry new) ∧
    map_Forall (λ _ e, (e < length st.1.1)%nat) st.2 ∧ map_Forall (λ _ e, (e < length st.1.1)%nat) st.1.2).
  intros Hf. apply (foldM_inv P) in Hf; [done|..].
  { split_and!; [exists []; by rewrite app_nil_r|apply map_Forall_empty..]. }
  clear. intros pre r post [[heap entries] hosts] st' _ ((new & Hheap & Hnew) & Hhosts & Hentries) Hadd.
  cbn [fst snd] in *. subst heap. unfold add_route in Hadd. apply bind_unit_Ok in Hadd as [Hvalid%fail_when_Ok Hadd].
  assert (∃ new' v, route_entry g now (g_heap g ++ new) r = (g_heap g ++ new ++ new', v) ∧ Forall new_entry new' ∧
    (v < length (g_heap g ++ new ++ new'))%nat) as (new' & v & Hre & Hnew' & Hv).
  { apply (invalid_route_limit _ now) in Hvalid.
    assert (∃ new' v, ((g_heap g ++ new) ++ [mkEntry r false 0 false false now], length (g_heap g ++ new)) =
      (g_heap g ++ new ++ new', v) ∧ Forall new_entry new' ∧ (v < length (g_heap g ++ new ++ new'))%nat) as Hfresh.
    { eexists [_], _. split; [by rewrite <-app_assoc|]. split; [by rewrite Forall_singleton|].
      rewrite !length_app. simpl. lia. }
    unfold route_entry. destruct (g_entries g !! key r) as [w|]; [|done]. destruct (g_heap g !! w) as [old|] eqn:Hw; [|done].
    destruct (_ || _); [done|]. exists [], w. rewrite app_nil_r. split_and!; [done|constructor|].
    apply lookup_lt_Some in Hw. rewrite length_app. lia. }
  rewrite Hre in Hadd. apply bind_Ok in Hadd as (hosts' & Hh & [= <-]). unfold P. cbn [fst snd].
  assert (∀ (m : gmap string nat), map_Forall (λ _ e, (e < length (g_heap g ++ new))%nat) m →
    map_Forall (λ _ e, (e < length (g_heap g ++ new ++ new'))%nat) m) as Hmono.
  { intros m Hm k e Hk. specialize (Hm k e Hk). simpl in Hm. rewrite !length_app in *. lia. }
  split_and!.
  - exists (new ++ new'). split; [done|]. by apply Forall_app.
  - revert Hh. apply (foldM_inv (λ _ m, map_Forall (λ _ e, (e < length (g_heap g ++ new ++ new'))%nat) m)); [by apply Hmono|].
    clear -Hv. intros _ h _ m m' _ Hm. unfold add_host. rewrite bind_unit_Ok. intros [_ [= <-]].
    by apply map_Forall_insert_2.
  - apply map_Forall_insert_2; [done|]. by apply Hmono.
Qed.

(** A step of [Refresh] inside any goroutine. *)
Lemma refresh_inv g ts k now pc a g' out t t' : inv g ts → ts !! k = Some t →
  refresh_step g now pc a = Some (g', out) →
  holding t = None → forwarding t = None → holding t' = None → forwarding t' = None →
  holds_slot t' = holds_slot t → holds_transition t' = holds_transition t → pointers t' = [] ∧ admitted t' = None ∧ ready t' = None ∧ quiet t' = None →
  refreshing t = (match pc with RefreshTry => 0 | _ => 1 end) →
  refreshing t' = (match out with inl RefreshTry => 0 | inl _ => 1 | inr _ => 0 end) →
  inv g' (<[k := t']> ts).
Proof.
  intros Hinv Hk Hstep Hh Hf Hh' Hf' Hslot Htrans (Hp & Ha & Hr & Hq) Hrt Hrt'.
  assert (thread_ok (g_heap g') t') as Ht'.
  { split; [by rewrite Hp|]. intros e v _. rewrite Ha, Hr, Hq. done. }
  destruct Hinv as [He Ht (Hs & Hs' & Htr & Htr' & Href) Hloc] eqn:Hi. clear Hi.
  assert (inv g ts) as Hinv' by by constructor.
  assert (∀ g0 : Gateway, (∃ new, g0.(g_heap) = g.(g_heap) ++ new ∧ Forall new_entry new) →
    heap_step t t' (g_heap g) (g_heap g0)) as Hgrow.
  { intros g0 (new & -> & Hnew). apply heap_step_grow; congruence. }
  assert (heap_step t t' (g_heap g) (g_heap g)) as Hsame by (apply heap_step_same; congruence).
  assert (0 <= total refreshing ts <= 1) as Hbound.
  { rewrite <-Href. destruct (g_refresh g); simpl; lia. }
  destruct pc, a; simplify_eq/=; try done.
  - destruct (g_refresh g) eqn:Hg; simplify_eq; eapply thread_step; try done; simpl; rewrite ?Hg; simpl; lia.
  - destruct (since _ _ _); simplify_eq; eapply thread_step; try done; lia.
  - destruct r as [routes|e]; simplify_eq; [destruct (512 <? _)|]; eapply thread_step; try done; lia.
  - destruct (apply_routes g now routes) as [g0|e] eqn:Happ; simplify_eq.
    + apply apply_routes_heap in Happ as (Hnew & Hloc' & Hr1 & Hr2 & Hr3). eapply thread_step; try done; [by apply Hgrow|rewrite ?Hr1; lia..].
    + eapply thread_step; try done; lia.
  - simplify_eq. assert (g_refresh g = true) as Hg.
    { pose proof (total_one refreshing ts k t refreshing_nonneg Hk). destruct (g_refresh g); [done|]. simpl in Href. lia. }
    eapply thread_step; try done; simpl; rewrite ?Hg; simpl; lia.
Qed.
End refresh.

(** ** The steps of a request *)

Lemma thread_ok_none heap t : pointers t = [] → thread_ok heap t.
Proof.
  intros Hp. split; [by rewrite Hp|]. intros e v _.
  assert (holding t ≠ Some e) as Hno.
  { intros Hh. assert (e ∈ pointers t) as Hin by (apply holding_pointer; by left). rewrite Hp in Hin. by apply not_elem_of_nil in Hin. }
  split_and!; intros Hx; exfalso; apply Hno; [by apply admitted_holding|by apply ready_holding|by apply quiet_holding].
Qed.

Lemma thread_ok_one heap t e v : pointers t = [e] → heap !! e = Some v →
  (admitted t = Some e → v.(e_active) < limit v) → (ready t = Some e → v.(e_awake) = true) →
  (quiet t = Some e → v.(e_active) = 0) → thread_ok heap t.
Proof.
  intros Hp Hv Ha Hr Hq. split; [rewrite Hp, Forall_singleton; by eapply lookup_lt_Some|].
  assert (∀ i, holding t = Some i → i = e) as Honly.
  { intros i Hh. assert (i ∈ pointers t) as Hin by (apply holding_pointer; by left). rewrite Hp in Hin. by apply list_elem_of_singleton in Hin. }
  intros i w Hi. split_and!; intros Hx.
  - pose proof (Honly i (admitted_holding _ _ Hx)) as ->. rewrite Hv in Hi. injection Hi as <-. by apply Ha.
  - pose proof (Honly i (ready_holding _ _ Hx)) as ->. rewrite Hv in Hi. injection Hi as <-. by apply Hr.
  - pose proof (Honly i (quiet_holding _ _ Hx)) as ->. rewrite Hv in Hi. injection Hi as <-. by apply Hq.
Qed.

Lemma inv_pointer g ts k t e : inv g ts → ts !! k = Some t → e ∈ pointers t → ∃ v, g.(g_heap) !! e = Some v.
Proof.
  intros [_ Ht _ _] Hk He. assert (thread_ok (g_heap g) t) as [Hp _] by by eapply Forall_lookup_1.
  rewrite Forall_forall in Hp. apply Hp in He. by apply lookup_lt_is_Some_2.
Qed.

(** A thread that holds a gate finds it full. *)
Lemma gate_held g ts k t e v : inv g ts → ts !! k = Some t → holding t = Some e → g.(g_heap) !! e = Some v → v.(e_gate) = true.
Proof.
  intros [He _ _ _] Hk Hh Hv. destruct (He e v Hv) as (Hg & _).
  pose proof (total_one (λ t, at_entry e (holding t)) ts k t (λ t, proj1 (at_entry_range e (holding t))) Hk) as Ht.
  cbv beta in Ht. rewrite Hh, at_entry_same in Ht. destruct (e_gate v); [done|]. simpl in Hg. lia.
Qed.

(** A step of a request that leaves the heap alone. *)
Lemma serve_same g g' ts k pc pc' : inv g ts → ts !! k = Some (TServe pc) → g'.(g_heap) = g.(g_heap) →
  g'.(g_routes) = g.(g_routes) → g'.(g_entries) = g.(g_entries) → g'.(g_refresh) = g.(g_refresh) →
  holding (TServe pc) = holding (TServe pc') → forwarding (TServe pc) = forwarding (TServe pc') →
  refreshing (TServe pc') = refreshing (TServe pc) → thread_ok g.(g_heap) (TServe pc') →
  g'.(g_slots) = g.(g_slots) - holds_slot (TServe pc) + holds_slot (TServe pc') → g'.(g_slots) <= max_slots →
  g'.(g_transitions) = g.(g_transitions) - holds_transition (TServe pc) + holds_transition (TServe pc') → g'.(g_transitions) <= max_transitions →
  inv g' (<[k := TServe pc']> ts).
Proof.
  intros Hinv Hk Hheap Hroutes Hentries Href Hh Hf Hr Ht' Hs Hs' Htr Htr'.
  pose proof Hinv as [_ _ _ [Hl1 Hl2]]. eapply thread_step; try done; rewrite ?Hheap; try done.
  - by apply heap_step_same.
  - rewrite Href. lia.
  - unfold locations_ok. by rewrite Hheap, Hroutes, Hentries.
Qed.

(** A step of a request that writes one entry. *)
Lemma serve_update g ts k pc pc' e v f (n : Z) : inv g ts → ts !! k = Some (TServe pc) → g.(g_heap) !! e = Some v →
  local_to e (holding (TServe pc)) (holding (TServe pc')) → local_to e (forwarding (TServe pc)) (forwarding (TServe pc')) →
  entry_step (TServe pc) (TServe pc') e v (f v) →
  refreshing (TServe pc) = 0 → refreshing (TServe pc') = 0 → holds_slot (TServe pc) = 1 → holds_slot (TServe pc') = 1 →
  n = g.(g_transitions) - holds_transition (TServe pc) + holds_transition (TServe pc') → n <= max_transitions →
  pointers (TServe pc') = [e] ∨ pointers (TServe pc') = [] →
  (admitted (TServe pc') = Some e → (f v).(e_active) < limit (f v)) → (ready (TServe pc') = Some e → (f v).(e_awake) = true) →
  inv (update e f (set_transitions n g)) (<[k := TServe pc']> ts).
Proof.
  intros Hinv Hk Hv Hh Hf He Hr Hr' Hs Hs' Hn Hn' Hp Ha Hrd. pose proof Hinv as [_ _ (_ & Hsl & _) Hloc].
  eapply thread_step; try done; cbn [g_slots g_transitions g_refresh g_heap update set_heap set_transitions]; try lia.
  - apply heap_step_alter; [done|done|]. intros w Hw. rewrite Hv in Hw. by injection Hw as <-.
  - destruct Hp as [Hp|Hp]; [|by apply thread_ok_none].
    apply (thread_ok_one _ _ e (f v)); [done|by rewrite list_lookup_alter_eq, Hv|done|done|by destruct pc'].
  - by apply locations_alter.
Qed.

Lemma dispatch_thread_ok g r fresh h : locations_ok g →
  thread_ok g.(g_heap) (TServe (dispatch r (g.(g_routes) !! h) fresh)) ∧
  holding (TServe (dispatch r (g.(g_routes) !! h) fresh)) = None ∧ forwarding (TServe (dispatch r (g.(g_routes) !! h) fresh)) = None ∧
  refreshing (TServe (dispatch r (g.(g_routes) !! h) fresh)) = 0 ∧ holds_slot (TServe (dispatch r (g.(g_routes) !! h) fresh)) = 1 ∧
  holds_transition (TServe (dispatch r (g.(g_routes) !! h) fresh)) = 0.
Proof.
  intros [Hloc _]. unfold dispatch. destruct (negb fresh); [split; [by apply thread_ok_none|done]|].
  destruct (g_routes g !! h) as [e|] eqn:Hh; [|split; [by apply thread_ok_none|done]].
  destruct (_ <? _); [split; [by apply thread_ok_none|done]|]. split; [|done].
  specialize (Hloc h e Hh). simpl in Hloc. apply lookup_lt_is_Some_2 in Hloc as [v Hv]. by apply (thread_ok_one _ _ e v).
Qed.

Section serve.
Context `{Host}.

Ltac same Hinv Hk := eapply (serve_same _ _ _ _ _ _ Hinv Hk);
  first [done | by apply thread_ok_none | simpl; lia | idtac].
Ltac writes Hinv Hk Hv n := eapply (serve_update _ _ _ _ _ _ _ _ n Hinv Hk Hv);
  first [done | split; by auto | by left | by right | simpl; lia | idtac].

Lemma update_same_transitions e f g : update e f g = update e f (set_transitions (g_transitions g) g).
Proof. by destruct g. Qed.

Ltac writes_same Hinv Hk Hv :=
  rewrite update_same_transitions; eapply (serve_update _ _ _ _ _ _ _ _ _ Hinv Hk Hv);
  first [done | split; by auto | by left | by right | simpl; lia | idtac].

(** The moves of a request before it waits for a gate, and after it returned. *)
Lemma serve_ungated r g ts k now pc a g' pc' : inv g ts → ts !! k = Some (TServe pc) →
  match pc with
  | ServeSlot | ServeLookup | ServeRefresh _ | ServeRelookup | ServeValidate _ | ServeReturn _ | ServeDone _ => True
  | _ => False
  end → serve_step r g now pc a = Some (g', pc') → inv g' (<[k := TServe pc']> ts).
Proof.
  intros Hinv Hk Hpc Hstep. pose proof Hinv as [_ Hthreads (Hs & Hs' & Htr & Htr' & Hrf) Hloc].
  assert (thread_ok (g_heap g) (TServe pc)) as Hok by by eapply Forall_lookup_1.
  destruct pc as [| |rpc| |e|e|e|e|e|e|e|e ok|e|e|e|e|o|o]; try done; clear Hpc; unfold serve_step in Hstep; cbv zeta in Hstep.
  - destruct a; try done. destruct (_ <? _) eqn:Hlt; simplify_eq; zify_bool; same Hinv Hk.
  - destruct a; try done. injection Hstep as <- <-. destruct (_ || _); [same Hinv Hk|].
    destruct (dispatch_thread_ok g r (since now (g_refreshed g) (30 * Second)) (host (rq_Host r)) Hloc) as (Ht & H1 & H2 & H3 & H4 & H5).
    same Hinv Hk; rewrite ?H4, ?H5; simpl; lia.
  - destruct (refresh_step g now rpc a) as [[g0 out]|] eqn:Hr; [|done]. simpl in Hstep. injection Hstep as <- <-.
    eapply refresh_inv; [exact Hinv|exact Hk|exact Hr|..]; try done; try (by destruct out as [|[]]);
      try (by destruct rpc); destruct out as [[]|[]]; done.
  - destruct a; try done. injection Hstep as <- <-.
    destruct (dispatch_thread_ok g r (since now (g_refreshed g) (30 * Second)) (host (rq_Host r)) Hloc) as (Ht & H1 & H2 & H3 & H4 & H5).
    same Hinv Hk; rewrite ?H4, ?H5; simpl; lia.
  - destruct a as [|ok| |]; try done. injection Hstep as <- <-. destruct ok; same Hinv Hk.
  - destruct a; try done. injection Hstep as <- <-. same Hinv Hk.
Qed.

Lemma serve_inv r g ts k now pc a g' pc' : inv g ts → ts !! k = Some (TServe pc) →
  serve_step r g now pc a = Some (g', pc') → inv g' (<[k := TServe pc']> ts).
Proof.
  intros Hinv Hk Hstep. pose proof Hinv as [Hentries Hthreads (Hs & Hs' & Htr & Htr' & Hrf) Hloc].
  assert (thread_ok (g_heap g) (TServe pc)) as [Hptr Hok] by by eapply Forall_lookup_1.
  pose proof (total_one holds_transition ts k _ holds_transition_nonneg Hk) as Hone.
  assert (∀ e, e ∈ pointers (TServe pc) → ∃ v, g_heap g !! e = Some v ∧ entry_ok ts e v ∧
    (holding (TServe pc) = Some e → v.(e_gate) = true)) as Hptrs.
  { intros e He. destruct (inv_pointer _ _ _ _ _ Hinv Hk He) as [v Hv]. exists v. split_and!; [done|by apply Hentries|].
    intros Hh. by eapply gate_held. }
  destruct pc as [| |rpc| |e|e|e|e|e|e|e|e ok|e|e|e|e|o|o];
    try (by eapply serve_ungated); unfold serve_step in Hstep; cbv zeta in Hstep;
    destruct (Hptrs e) as (v & Hv & Hentry & Hgate); try (by left); clear Hptrs.
  - (* ServeGate *)
    destruct a; try done; [|by injection Hstep as <- <-; same Hinv Hk].
    rewrite Hv in Hstep. simpl in Hstep. destruct (e_gate v) eqn:Hg; simplify_eq.
    writes_same Hinv Hk Hv. unfold entry_step. simpl. rewrite Hg, ?at_entry_same, ?at_entry_none. split_and!; try done; try lia; by left.
  - (* ServeAdmit *)
    destruct a; try done. rewrite Hv in Hstep. simpl in Hstep. specialize (Hgate eq_refl).
    destruct (_ <=? _) eqn:Hle; simplify_eq; zify_bool.
    + writes_same Hinv Hk Hv. unfold entry_step. simpl. rewrite Hgate, ?at_entry_same, ?at_entry_none. split_and!; try done; try lia; by left.
    + destruct (e_awake v) eqn:Haw; same Hinv Hk; apply (thread_ok_one _ _ e v); try done; unfold limit; lia.
  - (* ServeTransition *)
    specialize (Hgate eq_refl). destruct (Hok e v Hv) as (Hadm & _ & _). destruct a; try done.
    + destruct (_ <? _) eqn:Hlt; simplify_eq; zify_bool. same Hinv Hk; by apply (thread_ok_one _ _ e v).
    + injection Hstep as <- <-. writes_same Hinv Hk Hv. unfold entry_step. simpl. rewrite Hgate, ?at_entry_same, ?at_entry_none.
      split_and!; try done; try lia; by left.
  - (* ServeWake *)
    destruct (Hok e v Hv) as (Hadm & _ & _). destruct a as [|ok| |]; try done. injection Hstep as <- <-.
    destruct ok; same Hinv Hk; by apply (thread_ok_one _ _ e v).
  - (* ServeDial *)
    destruct (Hok e v Hv) as (Hadm & _ & _). destruct a as [|ok| |]; try done. injection Hstep as <- <-.
    destruct ok; same Hinv Hk; by apply (thread_ok_one _ _ e v).
  - (* ServeRetry *)
    destruct (Hok e v Hv) as (Hadm & _ & _). destruct a; try done; injection Hstep as <- <-;
      same Hinv Hk; by apply (thread_ok_one _ _ e v).
  - (* ServeWoken *)
    specialize (Hgate eq_refl). destruct (Hok e v Hv) as (Hadm & _ & _). specialize (Hadm eq_refl).
    destruct Hentry as (_ & _ & Hlim & Hl & Hpos & _). destruct a; try done. simpl in Hone. destruct ok; injection Hstep as <- <-.
    + eapply (serve_update _ _ _ _ _ _ _ _ _ Hinv Hk Hv); first [done | split; by auto | by left | simpl; lia | idtac].
      unfold entry_step. simpl. split_and!; try done; try lia. right. done.
    + eapply (serve_update _ _ _ _ _ _ _ _ _ Hinv Hk Hv); first [done | split; by auto | by right | simpl; lia | idtac].
      unfold entry_step. simpl. rewrite Hgate, ?at_entry_same, ?at_entry_none. split_and!; try done; try lia; by left.
  - (* ServeRevalidate *)
    specialize (Hgate eq_refl). destruct (Hok e v Hv) as (Hadm & Haw & _). specialize (Hadm eq_refl). specialize (Haw eq_refl).
    destruct Hentry as (_ & _ & Hlim & Hl & Hpos & Hpow). destruct a as [|ok| |]; try done. destruct ok; injection Hstep as <- <-.
    + writes_same Hinv Hk Hv. unfold entry_step. simpl. rewrite Hgate, ?at_entry_same, ?at_entry_none.
      split_and!; try done; try lia. right. split_and!; try done. lia.
    + writes_same Hinv Hk Hv. unfold entry_step. simpl. rewrite Hgate, ?at_entry_same, ?at_entry_none. split_and!; try done; try lia; by left.
  - (* ServeForward *)
    destruct a; try done. injection Hstep as <- <-. same Hinv Hk; by apply (thread_ok_one _ _ e v).
  - (* ServeFinish *)
    destruct a; try done. rewrite Hv in Hstep. simpl in Hstep. destruct (e_gate v) eqn:Hg; simplify_eq.
    writes_same Hinv Hk Hv. unfold entry_step. simpl. rewrite Hg, ?at_entry_same, ?at_entry_none. split_and!; try done; try lia; by left.
  - (* ServeFinished *)
    specialize (Hgate eq_refl). destruct Hentry as (_ & _ & Hlim & Hl & Hpos & Hpow). destruct a; try done. injection Hstep as <- <-.
    writes_same Hinv Hk Hv. unfold entry_step. simpl. rewrite Hgate, ?at_entry_same, ?at_entry_none.
    split_and!; try done; try lia. right. split_and!; try done; try lia. intros ?. apply Hpos. lia.
Qed.
End serve.

(** ** The steps of Run *)

Section run.
Context `{Host} `{RangeOrder}.

(** A step of [SleepIdle]: the heap changes at most at one entry. *)
Lemma sleeper_step g g' ts k t t' : inv g ts → ts !! k = Some t → (∃ pc, t = TRun pc) → (∃ pc, t' = TRun pc) →
  refreshing t = 0 → refreshing t' = 0 →
  heap_step t t' g.(g_heap) g'.(g_heap) → thread_ok g'.(g_heap) t' → length g'.(g_heap) = length g.(g_heap) →
  g'.(g_slots) = g.(g_slots) → g'.(g_transitions) = g.(g_transitions) → g'.(g_refresh) = g.(g_refresh) →
  g'.(g_routes) = g.(g_routes) → g'.(g_entries) = g.(g_entries) →
  inv g' (<[k := t']> ts).
Proof.
  intros Hinv Hk [pc ->] [pc' ->] Hr Hr' Hheap Ht' Hlen Hs Htr Href Hro Hen.
  pose proof Hinv as [_ _ (_ & ? & _ & ? & _) Hloc].
  assert (holds_slot (TRun pc) = 0 ∧ holds_slot (TRun pc') = 0 ∧ holds_transition (TRun pc) = 0 ∧ holds_transition (TRun pc') = 0)
    as (Hz1 & Hz2 & Hz3 & Hz4) by done.
  eapply thread_step; try done; rewrite ?Hs, ?Htr, ?Href; try lia.
  unfold locations_ok in *. by rewrite Hlen, Hro, Hen.
Qed.

Lemma thread_ok_pointers heap t : Forall (λ e, (e < length heap)%nat) (pointers t) → admitted t = None → ready t = None →
  (∀ e v, quiet t = Some e → heap !! e = Some v → v.(e_active) = 0) → thread_ok heap t.
Proof. intros Hp Ha Hr Hq. split; [done|]. intros e v Hv. rewrite Ha, Hr. split_and!; [done|done|]. intros ?. by eapply Hq. Qed.

Lemma sleep_inv g ts k now pc a g' out : inv g ts → ts !! k = Some (TRun (RunSleep pc)) →
  sleep_step g now pc a = Some (g', out) →
  inv g' (<[k := TRun (match out with Some pc' => RunSleep pc' | None => RunWait end)]> ts).
Proof.
  intros Hinv Hk Hstep. pose proof Hinv as [Hentries Hthreads _ [_ Hloc]].
  assert (thread_ok (g_heap g) (TRun (RunSleep pc))) as [Hptr Hok] by by eapply Forall_lookup_1.
  assert (∀ e, e ∈ pointers (TRun (RunSleep pc)) → ∃ v, g_heap g !! e = Some v ∧ entry_ok ts e v ∧
    (holding (TRun (RunSleep pc)) = Some e → v.(e_gate) = true)) as Hptrs.
  { intros e He. destruct (inv_pointer _ _ _ _ _ Hinv Hk He) as [v Hv]. exists v. split_and!; [done|by apply Hentries|].
    intros Hh. by eapply gate_held. }
  destruct pc as [|es|e es|e es|e es]; unfold sleep_step in Hstep.
  - destruct a; try done. injection Hstep as <- <-. eapply sleeper_step; eauto; [by apply heap_step_same|].
    apply thread_ok_pointers; try done. cbn [pointers]. apply Forall_fmap, Forall_forall. intros [n e] Hin%elem_of_range.
    by apply (Hloc n e).
  - destruct es as [|e es].
    + destruct a; try done. injection Hstep as <- <-. eapply sleeper_step; eauto; [by apply heap_step_same|by apply thread_ok_none].
    + destruct (Hptrs e) as (v & Hv & Hentry & _); [by left|]. apply Forall_cons in Hptr as [_ Hes]. destruct a; try done.
      * rewrite Hv in Hstep. simpl in Hstep. destruct (e_gate v) eqn:Hg; injection Hstep as <- <-.
        -- eapply sleeper_step; eauto; [by apply heap_step_same|by apply thread_ok_pointers].
        -- eapply sleeper_step; eauto; try exact (length_alter _ _ _).
           ++ apply heap_step_alter; [split; by auto..|]. intros w Hw. rewrite Hv in Hw. injection Hw as <-.
              unfold entry_step. simpl. rewrite Hg, ?at_entry_same, ?at_entry_none. split_and!; try done; try lia; by left.
           ++ apply thread_ok_pointers; try done. cbn [pointers]. simpl. rewrite length_alter.
              constructor; [by eapply lookup_lt_Some|done].
      * injection Hstep as <- <-. eapply sleeper_step; eauto; [by apply heap_step_same|by apply thread_ok_none].
  - destruct (Hptrs e) as (v & Hv & Hentry & Hgate); [by left|]. destruct a; try done. rewrite Hv in Hstep. simpl in Hstep.
    injection Hstep as <- <-. destruct (idle now v) eqn:Hi; (eapply sleeper_step; eauto; [by apply heap_step_same|]);
      apply thread_ok_pointers; try done. cbn [quiet]. intros i w [= <-] Hw.
    rewrite Hv in Hw. injection Hw as <-. unfold idle in Hi. split_orb. by zify_bool.
  - destruct (Hptrs e) as (v & Hv & Hentry & Hgate); [by left|]. destruct (Hok e v Hv) as (_ & _ & Hq). specialize (Hq eq_refl).
    destruct a as [|ok| |]; try done. injection Hstep as <- <-. destruct ok.
    + eapply sleeper_step; eauto; try exact (length_alter _ _ _).
      * apply heap_step_alter; [split; by auto..|]. intros w Hw. rewrite Hv in Hw. injection Hw as <-.
        destruct Hentry as (_ & _ & Hlim & ? & _). unfold entry_step. simpl. rewrite ?at_entry_same, ?at_entry_none.
        split_and!; try done; try lia. right. split_and!; try done. lia.
      * apply thread_ok_pointers; try done. cbn [pointers] in *. simpl. by rewrite length_alter.
    + eapply sleeper_step; eauto; [by apply heap_step_same|by apply thread_ok_pointers].
  - destruct (Hptrs e) as (v & Hv & Hentry & Hgate); [by left|]. specialize (Hgate eq_refl). destruct a; try done.
    injection Hstep as <- <-. apply Forall_cons in Hptr as [_ Hes]. eapply sleeper_step; eauto; try exact (length_alter _ _ _).
    + apply heap_step_alter; [split; by auto..|]. intros w Hw. rewrite Hv in Hw. injection Hw as <-.
      unfold entry_step. simpl. rewrite Hgate, ?at_entry_same, ?at_entry_none. split_and!; try done; try lia; by left.
    + apply thread_ok_pointers; try done. cbn [pointers] in *. simpl. by rewrite length_alter.
Qed.

Lemma run_inv g ts k now pc a g' pc' : inv g ts → ts !! k = Some (TRun pc) →
  run_step g now pc a = Some (g', pc') → inv g' (<[k := TRun pc']> ts).
Proof.
  intros Hinv Hk Hstep. destruct pc as [rpc|spc| |]; unfold run_step in Hstep.
  - destruct (refresh_step g now rpc a) as [[g0 out]|] eqn:Hr; [|done]. simpl in Hstep. injection Hstep as <- <-.
    eapply refresh_inv; [exact Hinv|exact Hk|exact Hr|..]; try done; try (by destruct out); try (by destruct rpc).
  - destruct (sleep_step g now spc a) as [[g0 out]|] eqn:Hr; [|done]. simpl in Hstep. injection Hstep as <- <-.
    by eapply sleep_inv.
  - destruct a; try done; injection Hstep as <- <-; (eapply sleeper_step; eauto; [by apply heap_step_same|by apply thread_ok_none]).
  - done.
Qed.

(** ** Reachable systems *)

Lemma threads_insert s i r pc pc' : s.(s_requests) !! i = Some (r, pc) →
  threads (mkSystem s.(s_gateway) s.(s_now) (<[i := (r, pc')]> s.(s_requests)) s.(s_runner)) = <[S i := TServe pc']> (threads s).
Proof. intros _. unfold threads. simpl. f_equal. by rewrite list_fmap_insert. Qed.

Lemma threads_lookup s i r pc : s.(s_requests) !! i = Some (r, pc) → threads s !! S i = Some (TServe pc).
Proof. intros Hi. unfold threads. simpl. by rewrite list_lookup_fmap, Hi. Qed.

Lemma step_inv s s' : step s s' → inv s.(s_gateway) (threads s) → inv s'.(s_gateway) (threads s').
Proof.
  intros Hstep Hinv. destruct Hstep as [s r|s i r pc a g' pc' Hi Hs|s a g' pc' Hs|s d _]; cbn [s_gateway].
  - assert (threads (mkSystem (s_gateway s) (s_now s) (s_requests s ++ [(r, ServeSlot)]) (s_runner s)) = threads s ++ [TServe ServeSlot]) as ->.
    { unfold threads. simpl. by rewrite fmap_app. }
    destruct Hinv as [He Ht Hc Hl]. split; [|apply Forall_app; split; [done|by apply Forall_singleton, thread_ok_none]| |done].
    + intros e v Hv. specialize (He e v Hv). unfold entry_ok in *. rewrite !total_app. simpl. rewrite !Z.add_0_r. done.
    + unfold counts_ok in *. rewrite !total_app. simpl. rewrite !Z.add_0_r. done.
  - change (threads (mkSystem g' (s_now s) (<[i := (r, pc')]> (s_requests s)) (s_runner s)))
      with (threads (mkSystem (s_gateway s) (s_now s) (<[i := (r, pc')]> (s_requests s)) (s_runner s))).
    rewrite (threads_insert _ _ _ pc) by done. eapply serve_inv; [done|by apply threads_lookup in Hi|done].
  - change (threads (mkSystem g' (s_now s) (s_requests s) pc')) with (<[0%nat := TRun pc']> (threads s)). by eapply run_inv.
  - done.
Qed.

Lemma started_inv now : inv (started now).(s_gateway) (threads (started now)).
Proof.
  split.
  - intros e v Hv. by destruct e.
  - by apply Forall_singleton, thread_ok_none.
  - repeat split; done.
  - split; apply map_Forall_empty.
Qed.

Lemma reachable_inv s : reachable s → inv s.(s_gateway) (threads s).
Proof.
  intros [now Hs]. revert Hs. generalize (started_inv now). generalize (started now). intros s0 Hstart Hs.
  induction Hs as [|s1 s2 s3 Hs12 _ IH]; [done|]. apply IH. by eapply step_inv.
Qed.
End run.

(** * Properties *)

(** The requests that are at a place of [ServeHTTP]. *)
Definition count_requests (P : serve_pc → bool) (s : system) : Z := lenl (filter (λ x, P x.2 = true) s.(s_requests)).

Definition forwards_to (e : nat) (pc : serve_pc) : bool := bool_decide (forwarding (TServe pc) = Some e).
Definition in_flight (s : system) (e : nat) : Z := count_requests (forwards_to e) s.
Definition served (s : system) : Z := count_requests (λ pc, negb (holds_slot (TServe pc) =? 0)) s.
Definition waking (s : system) : Z := count_requests (λ pc, negb (holds_transition (TServe pc) =? 0)) s.
(** Inside the region an entry's gate protects. *)
Definition inside (e : nat) (t : thread) : bool := bool_decide (holding t = Some e).

Lemma count_total P f s : (∀ pc, f (TServe pc) = if P pc : bool then 1 else 0) → (∀ pc, f (TRun pc) = 0) →
  count_requests P s = total f (threads s).
Proof.
  intros Hs Hr. unfold count_requests, threads. cbn [total foldr]. rewrite Hr, Z.add_0_l.
  induction (s_requests s) as [|[r pc] l IH]; [done|]. rewrite filter_cons, fmap_cons. cbn [foldr snd compose].
  rewrite Hs. unfold lenl in *. cbn [snd]. destruct (P pc) eqn:HP.
  - rewrite decide_True by done. simpl length. rewrite Nat2Z.inj_succ, IH. unfold total. lia.
  - rewrite decide_False by done. rewrite IH. unfold total. lia.
Qed.

Lemma in_flight_total s e : in_flight s e = total (λ t, at_entry e (forwarding t)) (threads s).
Proof.
  apply count_total; [|done]. intros pc. unfold forwards_to, at_entry. case_decide; case_bool_decide; done.
Qed.

Section properties.
Context `{Host} `{RangeOrder}.

(** C8: In every interleaving of requests, refreshes and the idle sleeper: at
    most [MaxConcurrency], hence 64, requests are forwarded to an entry at a time,
    and its counter is their number; while any is, the entry is awake and is not
    being put to sleep; at most 128 requests are served and at most two services
    are woken at a time; and no two goroutines are inside the region the gate of
    an entry protects. *)
Theorem gateway_bounded s : reachable s →
  (∀ e v, s.(s_gateway).(g_heap) !! e = Some v →
    in_flight s e = v.(e_active) ∧ in_flight s e <= limit v <= 64 ∧
    (0 < in_flight s e → v.(e_awake) = true ∧ v.(e_sleeping) = false ∧ ∀ es, s.(s_runner) ≠ RunSleep (SleepCall e es))) ∧
  served s <= 128 ∧ waking s <= 2 ∧
  (∀ e j k t u, j ≠ k → threads s !! j = Some t → threads s !! k = Some u → inside e t = true → inside e u = false).
Proof.
  intros Hr. pose proof (reachable_inv s Hr) as Hinv. pose proof Hinv as [Hentries Hthreads (Hs & Hs' & Ht & Ht' & _) _].
  split_and!.
  - intros e v Hv. rewrite in_flight_total. destruct (Hentries e v Hv) as (Hg & Ha & Hl & Hm & Hp & Hw). split_and!; try lia.
    intros Hpos. split_and!; [apply Hp; lia|apply Hw, Hp; lia|]. intros es Hrun.
    assert (thread_ok (g_heap (s_gateway s)) (TRun (s_runner s))) as [_ Hok] by by apply Forall_cons in Hthreads as [].
    destruct (Hok e v Hv) as (_ & _ & Hq). rewrite Hrun in Hq. specialize (Hq eq_refl). lia.
  - unfold served. rewrite (count_total _ holds_slot), <-Hs; [done| |done]. by intros [].
  - unfold waking. rewrite (count_total _ holds_transition), <-Ht; [done| |done]. by intros [].
  - unfold inside. intros e j k t u Hne Hj Hk Hin%bool_decide_eq_true. apply bool_decide_eq_false. intros Hu.
    pose proof (total_two (λ t, at_entry e (holding t)) _ j k t u (λ t, proj1 (at_entry_range e (holding t))) Hne Hj Hk) as H2.
    cbv beta in H2. rewrite Hin, Hu, at_entry_same in H2.
    assert (thread_ok (g_heap (s_gateway s)) t) as [Hp _] by by eapply Forall_lookup_1.
    assert (e ∈ pointers t) as He by (apply holding_pointer; by left). rewrite Forall_forall in Hp. apply Hp in He.
    apply lookup_lt_is_Some_2 in He as [v Hv]. destruct (Hentries e v Hv) as (Hg & _). destruct (e_gate v); cbn [Z.b2z] in Hg; lia.
Qed.
End properties.

#[local] Existing Instance Concrete.host.

(** A reachable system with a forwarded request. *)
Definition busy_system : system := Eval vm_compute in default (started 0) GatewayExample.busy.

Lemma busy_reachable : reachable busy_system.
Proof. exists 0. apply (play_steps _ GatewayExample.schedule). vm_compute. reflexivity. Qed.

Lemma gateway_bounded_witness : reachable busy_system ∧ in_flight busy_system 0 = 1 ∧
  ∀ es, s_runner busy_system ≠ RunSleep (SleepCall 0%nat es).
Proof.
  split; [apply busy_reachable|]. split; [vm_compute; reflexivity|].
  destruct (gateway_bounded busy_system busy_reachable) as (Hall & _).
  assert (∃ v, g_heap (s_gateway busy_system) !! 0%nat = Some v) as [v Hv] by (eexists; vm_compute; reflexivity).
  destruct (Hall 0%nat v Hv) as (_ & _ & Hpos). apply Hpos. vm_compute. reflexivity.
Defined.
