(* ===== verification/GatewaySpec.v ===== *)
(** The serverless gateway against a specification of one service's lifecycle
    (refinement), the absence of deadlock (every reachable system can finish all
    its requests) and what a refresh of the routes does. *)
From S2P Require Import Prelude GoStd GoNet SpecTypes Platform Gateway GatewaySafety.
#[global] Open Scope Z_scope.

(** * The lifecycle of services and requests

    What the gateway promises to its clients and to the runtime, without gates,
    slots or goroutines. A request waits, runs at a service or is refused, and runs
    only once. *)

Inductive standing : Type := Waiting | Running (e : nat) | Finished | Refused (status : Z).
#[export] Instance standing_eq_dec : EqDecision standing.
Proof. solve_decision. Defined.






(** * What is seen of the gateway

    Read off the place a goroutine leaves and the place it comes to. *)





(** * Refinement *)







Section refinement.
Context `{Host} `{RangeOrder}.










End refinement.

(** * Progress *)

Definition refresh_rank (pc : refresh_pc) : nat :=
  match pc with
  | RefreshTry => 5 | RefreshRecent => 4 | RefreshRoutes => 3 | RefreshApply _ => 2 | RefreshRelease _ => 1
  end.

(** How many steps a request may still take, the probes of a starting backend
    apart. *)
Definition serve_rank (pc : serve_pc) : nat :=
  match pc with
  | ServeSlot => 21 | ServeLookup => 20 | ServeRefresh pc => 14 + refresh_rank pc | ServeRelookup => 14
  | ServeValidate _ => 13 | ServeGate _ => 12 | ServeAdmit _ => 11 | ServeTransition _ => 10 | ServeWake _ => 9
  | ServeDial _ => 8 | ServeRetry _ => 7 | ServeWoken _ _ => 6 | ServeRevalidate _ => 5 | ServeForward _ => 4
  | ServeFinish _ => 3 | ServeFinished _ => 2 | ServeReturn _ => 1 | ServeDone _ => 0
  end.

(** The steps [Run] takes before it gives back the gate it holds: the one of an entry,
    or the one of the refresh. *)
Definition run_rank (pc : run_pc) : nat :=
  match pc with
  | RunSleep (SleepCheck _ _) => 3 | RunSleep (SleepCall _ _) => 2 | RunSleep (SleepRelease _ _) => 1
  | RunRefresh RefreshTry => 0 | RunRefresh pc => refresh_rank pc
  | _ => 0
  end.

Definition thread_rank (t : thread) : nat := match t with TRun pc => run_rank pc | TServe pc => serve_rank pc end.
Definition measure (s : system) : nat := sum_list_with thread_rank (threads s).

Definition is_done (x : Request * serve_pc) : bool := match x.2 with ServeDone _ => true | _ => false end.
(** Every request is answered, and [Run] holds nothing. *)
Definition quiescent (s : system) : bool := forallb is_done s.(s_requests) && (run_rank s.(s_runner) =? 0)%nat.

Lemma sum_list_insert ts k t t' : ts !! k = Some t → (thread_rank t' < thread_rank t)%nat →
  (sum_list_with thread_rank (<[k := t']> ts) < sum_list_with thread_rank ts)%nat.
Proof.
  revert k. induction ts as [|u ts IH]; intros [|k] Hk Hlt; simplify_eq/=; [lia|]. specialize (IH k Hk Hlt). lia.
Qed.

Lemma total_positive f ts : (∀ t, 0 <= f t) → 0 < total f ts → ∃ k t, ts !! k = Some t ∧ 0 < f t.
Proof.
  intros Hf. induction ts as [|u ts IH]; simpl; [lia|]. intros Hpos. destruct (Z.ltb_spec 0 (f u)).
  - by exists 0%nat, u.
  - pose proof (Hf u). destruct IH as (k & t & Hk & Ht); [lia|]. by exists (S k), t.
Qed.

Section progress.
Context `{Host} `{RangeOrder}.

Lemma refresh_step_rank g now pc a g' pc' : refresh_step g now pc a = Some (g', inl pc') → (refresh_rank pc' < refresh_rank pc)%nat.
Proof. intros Hs. destruct pc, a; simplify_eq/=; try done; repeat case_match; simplify_eq/=; lia. Qed.

Lemma refresh_can_step g now pc : ∃ a g' out, refresh_step g now pc a = Some (g', out).
Proof.
  destruct pc as [| | |routes|r].
  - exists Runs. simpl. destruct (g_refresh g); eauto.
  - exists Runs. simpl. eauto.
  - exists (RoutesReturned (Ok [])). simpl. eauto.
  - exists Runs. simpl. destruct (apply_routes g now routes); eauto.
  - exists Runs. simpl. eauto.
Qed.

Lemma dispatch_rank r e fresh : (serve_rank (dispatch r e fresh) <= 13)%nat.
Proof. unfold dispatch. repeat case_match; simpl; lia. Qed.

(** Every step of a request brings it closer to its end, unless it probes a
    starting backend once more. *)
Lemma serve_step_rank r g now pc a g' pc' : serve_step r g now pc a = Some (g', pc') →
  (serve_rank pc' < serve_rank pc)%nat ∨ ∃ e, pc = ServeRetry e ∧ pc' = ServeDial e ∧ a = Runs.
Proof.
  intros Hs. destruct pc as [| |rpc| |e|e|e|e|e|e|e|e ok|e|e|e|e|o|o]; unfold serve_step in Hs; cbv zeta in Hs.
  - destruct a; try done. destruct (_ <? _); simplify_eq; left; simpl; lia.
  - destruct a; try done. injection Hs as <- <-. left. destruct (_ || _); [simpl; lia|].
    pose proof (dispatch_rank r (g_routes g !! host (rq_Host r)) (since now (g_refreshed g) (30 * Second))). simpl serve_rank at 2. lia.
  - destruct (refresh_step g now rpc a) as [[g0 out]|] eqn:Hr; [|done]. simpl in Hs. injection Hs as <- <-. left.
    destruct out as [pc''|[]]; [apply refresh_step_rank in Hr; simpl; lia|simpl; destruct rpc; simpl; lia..].
  - destruct a; try done. injection Hs as <- <-. left.
    pose proof (dispatch_rank r (g_routes g !! host (rq_Host r)) (since now (g_refreshed g) (30 * Second))). simpl serve_rank at 2. lia.
  - destruct a as [|ok| |]; try done. injection Hs as <- <-. left. destruct ok; simpl; lia.
  - destruct a; try done; [|injection Hs as <- <-; left; simpl; lia]. destruct (g_heap g !! e) as [v|]; [|done]. simpl in Hs.
    destruct (e_gate v); simplify_eq. left. simpl. lia.
  - destruct a; try done. destruct (g_heap g !! e) as [v|]; [|done]. simpl in Hs.
    destruct (_ <=? _); [|destruct (e_awake v)]; simplify_eq; left; simpl; lia.
  - destruct a; try done; [destruct (_ <? _)|]; simplify_eq; left; simpl; lia.
  - destruct a as [|ok| |]; try done. injection Hs as <- <-. left. destruct ok; simpl; lia.
  - destruct a as [|ok| |]; try done. injection Hs as <- <-. left. destruct ok; simpl; lia.
  - destruct a; try done; injection Hs as <- <-; [right; by exists e|left; simpl; lia].
  - destruct a; try done. destruct ok; injection Hs as <- <-; left; simpl; lia.
  - destruct a as [|ok| |]; try done. destruct ok; injection Hs as <- <-; left; simpl; lia.
  - destruct a; try done. injection Hs as <- <-. left. simpl. lia.
  - destruct a; try done. destruct (g_heap g !! e) as [v|]; [|done]. simpl in Hs. destruct (e_gate v); simplify_eq. left. simpl. lia.
  - destruct a; try done. injection Hs as <- <-. left. simpl. lia.
  - destruct a; try done. injection Hs as <- <-. left. simpl. lia.
  - by destruct a.
Qed.

(** A request that is not done can step towards its end, unless it waits to leave
    an entry whose gate is full. *)
Lemma serve_can_step r g now pc : (∀ e, e ∈ pointers (TServe pc) → ∃ v, g.(g_heap) !! e = Some v) →
  (∀ o, pc ≠ ServeDone o) →
  (∃ a g' pc', serve_step r g now pc a = Some (g', pc') ∧ ∀ e, ¬ (pc = ServeRetry e ∧ a = Runs)) ∨
  (∃ e v, pc = ServeFinish e ∧ g.(g_heap) !! e = Some v ∧ v.(e_gate) = true).
Proof.
  intros Hptr Hnd. destruct pc as [| |rpc| |e|e|e|e|e|e|e|e ok|e|e|e|e|o|o]; unfold serve_step; cbv zeta.
  - left. exists Runs. destruct (_ <? _); eexists _, _; split; try done; naive_solver.
  - left. exists Runs. eexists _, _. split; [done|]. naive_solver.
  - left. destruct (refresh_can_step g now rpc) as (a & g' & out & Hr). exists a. rewrite Hr. eexists _, _. split; [done|]. naive_solver.
  - left. exists Runs. eexists _, _. split; [done|]. naive_solver.
  - left. exists (Returned true). eexists _, _. split; [done|]. naive_solver.
  - left. exists ContextDone. eexists _, _. split; [done|]. naive_solver.
  - left. exists Runs. destruct (Hptr e) as [v ->]; [by left|]. simpl. destruct (_ <=? _); eexists _, _; split; try done; naive_solver.
  - left. exists ContextDone. eexists _, _. split; [done|]. naive_solver.
  - left. exists (Returned true). eexists _, _. split; [done|]. naive_solver.
  - left. exists (Returned true). eexists _, _. split; [done|]. naive_solver.
  - left. exists ContextDone. eexists _, _. split; [done|]. naive_solver.
  - left. exists Runs. destruct ok; eexists _, _; split; try done; naive_solver.
  - left. exists (Returned true). eexists _, _. split; [done|]. naive_solver.
  - left. exists (Returned true). eexists _, _. split; [done|]. naive_solver.
  - destruct (Hptr e) as [v Hv]; [by left|]. destruct (e_gate v) eqn:Hg; [right; by exists e, v|].
    left. exists Runs. rewrite Hv. simpl. rewrite Hg. eexists _, _. split; [done|]. naive_solver.
  - left. exists Runs. eexists _, _. split; [done|]. naive_solver.
  - left. exists Runs. eexists _, _. split; [done|]. naive_solver.
  - by destruct (Hnd o).
Qed.

Lemma run_can_step g now pc : (∀ e, e ∈ pointers (TRun pc) → ∃ v, g.(g_heap) !! e = Some v) →
  (0 < run_rank pc)%nat → ∃ a g' pc', run_step g now pc a = Some (g', pc') ∧ (run_rank pc' < run_rank pc)%nat.
Proof.
  intros Hptr Hh. destruct pc as [rpc|[| |i es|i es|i es]| |]; try (cbn in Hh; lia).
  - destruct (refresh_can_step g now rpc) as (a & g' & out & Hs). exists a. unfold run_step. rewrite Hs. cbn. eexists _, _. split; [done|].
    destruct rpc; [by apply Nat.lt_irrefl in Hh|..]; destruct out as [pc'|]; try (apply refresh_step_rank in Hs; destruct pc'; cbn in *; lia); cbn; lia.
  - exists Runs. destruct (Hptr i) as [v Hv]; [by left|]. simpl. rewrite Hv. simpl. eexists _, _. split; [done|].
    destruct (idle now v); simpl; lia.
  - exists (Returned true). simpl. eexists _, _. split; [done|]. simpl. lia.
  - exists Runs. simpl. eexists _, _. split; [done|]. simpl. lia.
Qed.

Lemma run_progress s : inv s.(s_gateway) (threads s) → (0 < run_rank s.(s_runner))%nat →
  ∃ s', step s s' ∧ (measure s' < measure s)%nat ∧ length s'.(s_requests) = length s.(s_requests).
Proof.
  intros Hinv Hr. destruct (run_can_step (s_gateway s) (s_now s) (s_runner s)) as (a & g' & pc' & Hs & Hlt); [|done|].
  { intros j Hj. by eapply (inv_pointer _ _ 0). }
  eexists. split; [by eapply step_run|]. split; [|done]. unfold measure, threads. simpl. lia.
Qed.

Lemma serve_progress s i r pc : inv s.(s_gateway) (threads s) → s.(s_requests) !! i = Some (r, pc) → (∀ o, pc ≠ ServeDone o) →
  (∃ s', step s s' ∧ (measure s' < measure s)%nat ∧ length s'.(s_requests) = length s.(s_requests)) ∨
  (∃ e v, pc = ServeFinish e ∧ s.(s_gateway).(g_heap) !! e = Some v ∧ v.(e_gate) = true).
Proof.
  intros Hinv Hi Hnd. pose proof (threads_lookup _ _ _ _ Hi) as Hk.
  destruct (serve_can_step r (s_gateway s) (s_now s) pc) as [(a & g' & pc' & Hs & Hno)|Hw];
    [intros e He; by eapply inv_pointer|done| |by right].
  left. eexists. split; [by eapply step_serve|]. split; [|simpl; by rewrite length_insert].
  unfold measure. cbn [s_gateway].
  change (threads (mkSystem g' (s_now s) (<[i := (r, pc')]> (s_requests s)) (s_runner s)))
    with (threads (mkSystem (s_gateway s) (s_now s) (<[i := (r, pc')]> (s_requests s)) (s_runner s))).
  rewrite (threads_insert _ _ _ pc) by done. apply (sum_list_insert _ _ _ _ Hk). simpl.
  destruct (serve_step_rank _ _ _ _ _ _ _ Hs) as [?|(e & -> & -> & ->)]; [done|]. by destruct (Hno e).
Qed.

(** Whoever holds a gate can give it back without waiting for another. *)
Lemma progress s i r pc : inv s.(s_gateway) (threads s) → s.(s_requests) !! i = Some (r, pc) → (∀ o, pc ≠ ServeDone o) →
  ∃ s', step s s' ∧ (measure s' < measure s)%nat ∧ length s'.(s_requests) = length s.(s_requests).
Proof.
  intros Hinv Hi Hnd. destruct (serve_progress s i r pc Hinv Hi Hnd) as [?|(e & v & -> & Hv & Hg)]; [done|].
  pose proof Hinv as [Hentries _ _ _]. destruct (Hentries e v Hv) as (Hgate & _). rewrite Hg in Hgate. cbn [Z.b2z] in Hgate.
  destruct (total_positive _ _ (λ t, proj1 (at_entry_range e (holding t))) ltac:(rewrite <-Hgate; lia)) as (k & t & Hk & Ht).
  unfold at_entry in Ht. case_decide as Hh; [|lia]. destruct t as [rpc|pc2].
  - assert (rpc = s_runner s ∧ k = 0%nat) as [-> ->].
    { destruct k as [|k]; [by injection Hk as <-|]. unfold threads in Hk. simpl in Hk. rewrite list_lookup_fmap in Hk.
      by destruct (s_requests s !! k). }
    apply run_progress; [done|]. destruct (s_runner s) as [|[]| |]; try done; cbn; lia.
  - destruct k as [|k]; [done|]. unfold threads in Hk. simpl in Hk. rewrite list_lookup_fmap in Hk.
    destruct (s_requests s !! k) as [[r2 pc2']|] eqn:Hk2; [|done]. injection Hk as <-.
    destruct (serve_progress s k r2 pc2' Hinv Hk2) as [?|(e' & v' & -> & _)]; [by intros o ->|done|done].
Qed.

Lemma rank_bound t : (thread_rank t <= 21)%nat.
Proof. destruct t as [[[]|[]| |]|[| |[]| | | | | | | | | | | | | | |]]; simpl; lia. Qed.

Lemma measure_bound s : (measure s <= 21 * length s.(s_requests) + 4)%nat.
Proof.
  unfold measure, threads. cbn [sum_list_with thread_rank].
  assert (run_rank (s_runner s) <= 4)%nat by (destruct (s_runner s) as [[]|[]| |]; simpl; lia).
  assert (∀ l : list (Request * serve_pc), (sum_list_with thread_rank (TServe ∘ snd <$> l) <= 21 * length l)%nat) as Hl.
  { induction l as [|[r pc] l IH]; [done|]. rewrite fmap_cons. cbn [sum_list_with length].
    pose proof (rank_bound ((TServe ∘ snd) (r, pc))). lia. }
  specialize (Hl (s_requests s)). lia.
Qed.

(** In a quiescent system nothing is held. *)
Lemma quiescent_free s : inv s.(s_gateway) (threads s) → quiescent s = true →
  s.(s_gateway).(g_slots) = 0 ∧ s.(s_gateway).(g_transitions) = 0 ∧ s.(s_gateway).(g_refresh) = false ∧
  Forall (λ v, v.(e_active) = 0 ∧ v.(e_gate) = false) s.(s_gateway).(g_heap).
Proof.
  intros [Hentries _ (Hs & _ & Ht & _ & Hre) _] [Hd Hrun%Nat.eqb_eq]%andb_true_iff.
  assert (∀ f : thread → Z, f (TRun s.(s_runner)) = 0 → (∀ o, f (TServe (ServeDone o)) = 0) → total f (threads s) = 0) as Hz.
  { intros f Hr Ho. apply total_zero. constructor; [done|]. apply Forall_fmap, Forall_forall. intros [r pc] Hin.
    rewrite forallb_forall in Hd. apply list_elem_of_In, Hd in Hin. destruct pc; try done. apply Ho. }
  rewrite (Hz holds_slot) in Hs by done. rewrite (Hz holds_transition) in Ht by done.
  rewrite (Hz refreshing) in Hre; [|destruct (s_runner s) as [[]|[]| |]; done|done].
  split_and!; [done|done|by destruct (g_refresh _)|].
  apply Forall_lookup. intros e v Hv. destruct (Hentries e v Hv) as (Hg & Ha & _).
  rewrite Hz in Hg; [|destruct (s_runner s) as [|[]| |]; done|done]. rewrite Hz in Ha; [|done..].
  split; [done|]. by destruct (e_gate v).
Qed.

Lemma drain s : inv s.(s_gateway) (threads s) → ∃ n s', nsteps step n s s' ∧ (n <= measure s)%nat ∧
  length s'.(s_requests) = length s.(s_requests) ∧ quiescent s' = true ∧ inv s'.(s_gateway) (threads s').
Proof.
  remember (measure s) as m eqn:Hm. revert s Hm.
  induction m as [m IH] using (well_founded_induction lt_wf). intros s -> Hinv.
  assert (quiescent s = true ∨ ∃ s1, step s s1 ∧ (measure s1 < measure s)%nat ∧ length (s_requests s1) = length (s_requests s)) as [Hq|(s1 & Hstep & Hlt & Hlen)].
  { unfold quiescent. destruct (forallb _ (s_requests s)) eqn:Hd.
    - destruct (run_rank (s_runner s)) eqn:Hr; [by left|right]. apply run_progress; [done|]. lia.
    - right. assert (∃ i r pc, s_requests s !! i = Some (r, pc) ∧ ∀ o, pc ≠ ServeDone o) as (i & r & pc & Hi & Hnd); [|by eapply progress].
      clear -Hd. induction (s_requests s) as [|[r pc] l IH]; [done|]. simpl in Hd. destruct (is_done (r, pc)) eqn:Hx; cbn in Hd.
      + destruct (IH Hd) as (i & r' & pc' & Hi & Hnd). by exists (S i), r', pc'.
      + exists 0%nat, r, pc. split; [done|]. by intros o ->. }
  - exists 0%nat, s. split_and!; [constructor|lia|done..].
  - destruct (IH (measure s1) Hlt s1 eq_refl) as (n & s' & Hn & Hle & Hlen' & Hdone & Hinv'); [by eapply step_inv|].
    exists (S n), s'. split_and!; [by eapply nsteps_l|lia|congruence|done|done].
Qed.

(** C15: The gateway cannot deadlock. From every reachable system there is a way on, of
    at most 21 steps for each request and four of [Run], in which every request is
    answered, and then nothing is held any more: no slot, no transition, no place
    among the active requests, the gate of no entry and not that of the refresh. And
    every step of a request brings it closer to its end, except another probe of a
    starting backend. *)
Theorem gateway_drains s : reachable s →
  (∃ n s', nsteps step n s s' ∧ (n <= 21 * length s.(s_requests) + 4)%nat ∧
    length s'.(s_requests) = length s.(s_requests) ∧ Forall (λ x, ∃ o, x.2 = ServeDone o) s'.(s_requests) ∧
    s'.(s_gateway).(g_slots) = 0 ∧ s'.(s_gateway).(g_transitions) = 0 ∧ s'.(s_gateway).(g_refresh) = false ∧
    Forall (λ v, v.(e_active) = 0 ∧ v.(e_gate) = false) s'.(s_gateway).(g_heap)) ∧
  (∀ r g now pc a g' pc', serve_step r g now pc a = Some (g', pc') →
    (serve_rank pc' < serve_rank pc)%nat ∨ ∃ e, pc = ServeRetry e ∧ pc' = ServeDial e ∧ a = Runs).
Proof.
  intros Hr. split; [|intros r g now pc a g' pc'; apply serve_step_rank].
  destruct (drain s (reachable_inv s Hr)) as (n & s' & Hn & Hle & Hlen & Hd & Hinv').
  destruct (quiescent_free s' Hinv' Hd) as (Hs & Ht & Hre & Ha). exists n, s'. pose proof (measure_bound s). split_and!; try done; [lia|].
  unfold quiescent in Hd. apply andb_true_iff in Hd as [Hd _]. rewrite forallb_forall in Hd. apply Forall_forall. intros [r pc] Hin.
  apply list_elem_of_In, Hd in Hin. destruct pc; try done. by eexists.
Qed.
End progress.

(** * Routing *)

(** The entry a route is served by: same service, revision and backend. *)
Definition serves (heap : list entry) (r : Route) (e : nat) : Prop :=
  ∃ v, heap !! e = Some v ∧ key v.(e_route) = key r ∧ v.(e_route).(rt_Backend) = r.(rt_Backend) ∧
    v.(e_route).(rt_Target).(ih_Revision) = r.(rt_Target).(ih_Revision).

(** Each entry is filed under the key of its route. *)
Definition keyed (heap : list entry) (entries : gmap string nat) : Prop :=
  map_Forall (λ k e, ∃ v, heap !! e = Some v ∧ key v.(e_route) = k) entries.

Lemma serves_app heap new r e : serves heap r e → serves (heap ++ new) r e.
Proof. intros (v & Hv & Hr). exists v. split; [|done]. by apply lookup_app_l_Some. Qed.

Lemma keyed_app heap new entries : keyed heap entries → keyed (heap ++ new) entries.
Proof. intros Hk k e He. destruct (Hk k e He) as (v & Hv & Hkey). exists v. split; [|done]. by apply lookup_app_l_Some. Qed.

Lemma add_hosts_Ok v l hosts hosts' : foldM (add_host v) hosts l = Ok hosts' →
  ∀ h e, hosts' !! h = Some e ↔ hosts !! h = Some e ∨ (e = v ∧ h ∈ host <$> l).
Proof.
  revert hosts. induction l as [|h0 l IH]; intros hosts; cbn [foldM].
  - intros [= <-] h e. cbn [fmap list_fmap]. rewrite elem_of_nil. tauto.
  - rewrite bind_Ok. unfold add_host at 1. intros (m & Hm & Hl) h e. inv_ok. rewrite (IH _ Hl), fmap_cons, elem_of_cons.
    destruct (decide (h = host h0)) as [->|Hne].
    + rewrite lookup_insert_eq. destruct (hosts !! host h0) as [prior|] eqn:Hp.
      * apply negb_false_iff, Nat.eqb_eq in Hok. subst prior. naive_solver.
      * naive_solver.
    + rewrite lookup_insert_ne by done. naive_solver.
Qed.

Section routing.
Context `{Host}.

Lemma route_entry_spec g now new r : keyed g.(g_heap) g.(g_entries) → ∃ new' v,
  route_entry g now (g.(g_heap) ++ new) r = ((g.(g_heap) ++ new) ++ new', v) ∧ serves ((g.(g_heap) ++ new) ++ new') r v ∧
  (∀ e, g.(g_entries) !! key r = Some e → serves g.(g_heap) r e → v = e).
Proof.
  intros Hkeyed. set (heap := g.(g_heap) ++ new).
  assert (serves (heap ++ [mkEntry r false 0 false false now]) r (length heap)) as Hfresh.
  { eexists. split; [by apply list_lookup_middle|done]. }
  unfold route_entry. destruct (g_entries g !! key r) as [w|] eqn:Hw.
  - destruct (Hkeyed _ _ Hw) as (old & Hold & Hkey). rewrite Hold.
    destruct (Z.eqb_spec (ih_Revision (rt_Target (e_route old))) (ih_Revision (rt_Target r))) as [Hrev|Hrev];
      destruct (String.eqb_spec (rt_Backend (e_route old)) (rt_Backend r)) as [Hb|Hb]; cbn [negb orb].
    2-4: (eexists _, _; split; [done|]; split; [done|]; intros e [= <-] (v & Hv & _ & ? & ?); by simplify_eq).
    exists [], w. rewrite app_nil_r. split; [done|]. split; [|by intros e [= <-]].
    apply serves_app. by exists old.
  - eexists _, _. split; [done|]. split; [done|]. done.
Qed.

(** A refresh that succeeds routes every host the runtime lists to the
    service that lists it, at the listed revision and backend, and no other host;
    no host is ambiguous. A service whose revision and backend are unchanged keeps
    its entry, and with it its gate, its counter and whether it is awake. *)
Theorem apply_routes_exact g now routes g' :
  keyed g.(g_heap) g.(g_entries) → apply_routes g now routes = Ok g' →
  keyed g'.(g_heap) g'.(g_entries) ∧
  (∀ r h, r ∈ routes → h ∈ r.(rt_Target).(ih_Hosts) → ∃ e, g'.(g_routes) !! host h = Some e ∧ serves g'.(g_heap) r e) ∧
  (∀ h e, g'.(g_routes) !! h = Some e → ∃ r h0, r ∈ routes ∧ h0 ∈ r.(rt_Target).(ih_Hosts) ∧ h = host h0 ∧ serves g'.(g_heap) r e) ∧
  (∀ e v, g.(g_heap) !! e = Some v → g'.(g_heap) !! e = Some v) ∧
  (NoDup (key <$> routes) → ∀ r e, r ∈ routes → g.(g_entries) !! key r = Some e → serves g.(g_heap) r e →
    g'.(g_entries) !! key r = Some e).
Proof.
  intros Hkeyed. unfold apply_routes. rewrite bind_Ok. intros ([[heap entries] hosts] & Hf & [= <-]). cbn [g_heap g_entries g_routes].
  set (P := λ (pre : list Route) (st : list entry * gmap string nat * gmap string nat), ∃ new, st.1.1 = g.(g_heap) ++ new ∧
    keyed st.1.1 st.1.2 ∧
    (∀ r h, r ∈ pre → h ∈ r.(rt_Target).(ih_Hosts) → ∃ e, st.2 !! host h = Some e ∧ serves st.1.1 r e) ∧
    (∀ h e, st.2 !! h = Some e → ∃ r h0, r ∈ pre ∧ h0 ∈ r.(rt_Target).(ih_Hosts) ∧ h = host h0 ∧ serves st.1.1 r e) ∧
    (NoDup (key <$> pre) → ∀ r e, r ∈ pre → g.(g_entries) !! key r = Some e → serves g.(g_heap) r e → st.1.2 !! key r = Some e)).
  apply (foldM_inv P) in Hf.
  - destruct Hf as (new & Hheap & Hk & Hin & Hout & Hkeep). cbn [fst snd] in *. split_and!; try done.
    intros e v Hv. rewrite Hheap. by apply lookup_app_l_Some.
  - exists []. cbn [fst snd]. rewrite app_nil_r. split_and!; [done|by apply map_Forall_empty|set_solver|done|set_solver].
  - clear -Hkeyed. intros pre r post [[heap entries] hosts] st' _ (new & Hheap & Hk & Hin & Hout & Hkeep) Hadd. cbn [fst snd] in *.
    subst heap. unfold add_route in Hadd. apply bind_unit_Ok in Hadd as [_ Hadd].
    destruct (route_entry_spec g now new r Hkeyed) as (new' & v & Hre & Hserves & Hsame). rewrite Hre in Hadd.
    apply bind_Ok in Hadd as (hosts' & Hh & [= <-]). pose proof (add_hosts_Ok _ _ _ _ Hh) as Hhosts.
    exists (new ++ new'). cbn [fst snd]. split; [by rewrite app_assoc|]. split_and!.
    + apply map_Forall_insert_2; [|by apply keyed_app]. destruct Hserves as (w & Hw & Hkey & _). by exists w.
    + intros r0 h [Hr0|Hr0%list_elem_of_singleton]%elem_of_app Hh0; [|subst r0].
      * destruct (Hin r0 h Hr0 Hh0) as (e & He & Hs). exists e. split; [apply Hhosts; by left|by apply serves_app].
      * exists v. split; [|done]. apply Hhosts. right. split; [done|]. by apply list_elem_of_fmap_2.
    + intros h e [He|[-> (h0 & -> & Hh0)%list_elem_of_fmap]]%Hhosts.
      * destruct (Hout h e He) as (r0 & h0 & Hr0 & Hh0 & -> & Hs). exists r0, h0. split_and!; [set_solver|done|done|by apply serves_app].
      * exists r, h0. split_and!; [set_solver|done|done|done].
    + rewrite fmap_app, NoDup_app. intros (Hnd & Hdis & _) r0 e [Hr0|Hr0%list_elem_of_singleton]%elem_of_app He Hs; [|subst r0].
      * rewrite lookup_insert_ne; [by apply Hkeep|]. intros Hkey. apply (Hdis (key r0)); [by apply list_elem_of_fmap_2|].
        rewrite <-Hkey. cbn. by apply list_elem_of_singleton.
      * rewrite lookup_insert_eq. f_equal. by apply Hsame.
Qed.
End routing.

(** * Instances *)

#[local] Existing Instance Concrete.host.



Lemma gateway_drains_witness : ∃ n s', nsteps step n busy_system s' ∧ (n <= 46)%nat ∧ length s'.(s_requests) = 2%nat ∧
  Forall (λ x, ∃ o, x.2 = ServeDone o) s'.(s_requests) ∧ Forall (λ v, v.(e_active) = 0 ∧ v.(e_gate) = false) s'.(s_gateway).(g_heap).
Proof.
  destruct (proj1 (gateway_drains busy_system busy_reachable)) as (n & s' & Hn & Hle & Hlen & Hd & _ & _ & _ & Hg).
  exists n, s'. repeat (split; [assumption|]). exact Hg.
Defined.

Lemma apply_routes_exact_witness : ∃ g', apply_routes New 7 [GatewayExample.route] = Ok g' ∧
  ∃ e, g'.(g_routes) !! "app.example.test" = Some e ∧ serves g'.(g_heap) GatewayExample.route e.
Proof.
  eexists. split; [vm_compute; reflexivity|].
  refine (proj1 (proj2 (apply_routes_exact New 7 [GatewayExample.route] _ _ _)) GatewayExample.route "App.example.test." _ _).
  - intros k e Hk. vm_compute in Hk. discriminate.
  - vm_compute. reflexivity.
  - left.
  - left.
Defined.
