(* ===== verification/StoreErrors.v ===== *)
(** The errors of internal/store, by the name of the variable that holds them. *)
From S2P Require Import Prelude.

Definition ErrConflict : error := Errorf "revision or idempotency conflict" [].
Definition ErrUnauthorized : error := Errorf "credential is invalid, expired, revoked, or disabled" [].
Definition ErrForbidden : error := Errorf "credential does not allow this operation in the requested scope" [].
Definition ErrInput : error := Errorf "invalid input" [].
Definition ErrBusy : error := Errorf "authentication is busy; retry shortly" [].
Definition ErrMFARequired : error := Errorf "a two-factor authentication code is required" [].

(** Of the database driver: no row matched; a statement broke a constraint. *)
Definition ErrNoRows : error := Errorf "no rows in result set" [].
Definition ErrConstraint : error := Errorf "constraint violation" [].
