(* ===== verification/License.v ===== *)
(** Signed licenses (internal/license/license.go) and the installation's license
    record (internal/store/licensing.go): verification of a token, the catalog of
    features, and the record's life under installation and removal. *)
From S2P Require Import Prelude GoStd Regex StoreErrors.
#[global] Open Scope Z_scope.

(** What is outside the repository: Ed25519, SHA-256 and the strict decoder of the
    claims (one JSON object, no unknown field). *)
Record Claims : Type := mkClaims {
  c_Version : Z;
  c_KeyID : string;
  c_LicenseID : string;
  c_InstallationID : string;
  c_Customer : string;
  c_Plan : string;
  c_Sequence : Z;
  c_IssuedAt : Z;
  c_NotBefore : Z;
  c_ExpiresAt : Z;
  c_Lifetime : bool;
  c_Features : list string;
}.

Class Issuer := {
  ed25519_Verify : string → string → string → bool;
  sha256_Sum : string → string;
  decode_claims : string → option Claims;
}.

Record Feature : Type := mkFeature {
  f_ID : string;
  f_Name : string;
  f_Plan : string;
  f_Description : string;
  f_Enabled : bool;
}.

Definition ReleaseKeys : string :=
  "hakopod-2026-09=CrQD0KiOhy_RZgzhyKoVhIHuDQ925whZzVx0VE7VrgE,hakopod-web-2026-11=n_8mjrO3epLlcYPzaUAKAd6aCQlVceOPv5WiW6wfDio".

Definition Domain : string := "hakopod-license-v1" +:+ NUL.
Definition MaxTokenBytes : Z := 16384.

Definition catalog : list Feature := [
  mkFeature "managed_actions" "Managed Actions" "pro" "Run organization or repository GitHub Actions jobs in isolated, single-job runner pools." false;
  mkFeature "custom_roles" "Custom project roles" "pro" "Choose deployment and log permissions for people and teams." false;
  mkFeature "team_mfa" "Organization MFA enforcement" "pro" "Require verified multi-factor sessions for installation access." false;
  mkFeature "deployments" "Application deployments" "free" "Deploy, review, roll back and observe applications." false;
  mkFeature "source_builds" "Source builds" "free" "Reviewed remote builds and immutable image deployment." false;
  mkFeature "source_sync" "Repository synchronization" "free" "Approved repository configuration and signed source automation." false;
  mkFeature "runtime" "Cluster and service operations" "free" "Logs, metrics, nodes, registries, secrets, TLS and service workloads." false;
  mkFeature "account_security" "Account security" "free" "Owner recovery, password login, passkeys, TOTP and session revocation." false;
  mkFeature "teams" "Teams" "free" "One self-hosted team, membership and team-derived access." false;
  mkFeature "invitations" "Member invitations" "free" "Create and accept invitations for additional team or project members." false;
  mkFeature "project_rbac" "Project roles" "free" "Grant and use fixed administrator, developer and viewer roles for people and teams." false;
  mkFeature "multi_team" "Multiple teams" "pro" "Create additional teams on self-hosted installations." false;
  mkFeature "oauth_login" "Social login" "pro" "Sign in through Google, GitHub or GitLab." false;
  mkFeature "enterprise_sso" "Enterprise SSO" "pro" "Sign in through an OpenID Connect identity provider." false;
  mkFeature "audit_history" "User audit history and export" "pro" "Inspect user activity with paginated history and bounded CSV exports." false;
  mkFeature "private_access" "Private management access" "pro" "Restrict the dashboard, API, CLI and MCP to allowed networks or a VPN." false;
  mkFeature "slack_notifications" "Slack notifications" "pro" "Deliver selected alarm, audit, deployment, application and service events to a connected Slack workspace." false;
  mkFeature "agent_policies" "Agent policies" "pro" "Block machine-key requests or hold them until a person approves the exact request." false
].

Definition knownEntitlement (id : string) : bool :=
  one_of id ["teams"; "invitations"; "project_rbac"; "custom_roles"; "audit_history"; "team_mfa"; "multi_team"; "oauth_login";
             "enterprise_sso"; "managed_actions"; "slack_notifications"; "private_access"; "agent_policies"].

Definition Catalog (enabled : list string) : list Feature :=
  (λ f, mkFeature f.(f_ID) f.(f_Name) f.(f_Plan) f.(f_Description) ((f.(f_Plan) =? "free")%string || one_of f.(f_ID) enabled)) <$> catalog.

(** * Verification *)

Definition hex_lower (c : ascii) : bool := in_range "a" "f" c || digit c.
Definition idPattern : regex := RRep (RCls hex_lower) 32 32.
Definition keyIDPattern : regex := RRep (RCls (λ c, upper c || lower c || digit c || any_of "_-" c)) 1 64.

Abbreviation Verifier := (gmap string string).

Section license.
Context `{Issuer} `{RangeOrder}.

Definition NewVerifier (keys : gmap string string) : Verifier :=
  fold_left (λ v x, if (len x.2 =? 32) && full_match keyIDPattern x.1 && (lenm v <? 8) then <[x.1 := x.2]> v else v) (range keys) ∅.

Definition ReleaseVerifier : Verifier :=
  NewVerifier (fold_left (λ keys entry,
    match Cut entry "=" with
    | None => keys
    | Some (id, encoded) => match RawURL_Decode encoded with Some key => <[id := key]> keys | None => keys end
    end) (Split ReleaseKeys ",") ∅).

Definition Configured (v : Verifier) : bool := 0 <? lenm v.

Definition no_claims : Claims := mkClaims 0 "" "" "" "" "" 0 0 0 0 false [].

(** The claims of a token and the signature that covers them, up to the lookup of
    the key. *)
Definition token_parts (token : string) : option (string * string) :=
  if MaxTokenBytes <? len token then None
  else match Split token "." with
  | [head; payload; signature] =>
      if negb (head =? "hl1")%string then None
      else
        payload ← RawURL_Decode payload;
        if 8192 <? len payload then None
        else
          signature ← RawURL_Decode signature;
          if negb (len signature =? 64) then None else Some (payload, signature)
  | _ => None
  end.

Definition ten_years : Z := 10 * 366 * 86400.

(** [c.ExpiresAt-c.IssuedAt] wraps around. *)
Definition bad_claims (c : Claims) : bool :=
  negb (c.(c_Version) =? 1) || negb (full_match idPattern c.(c_LicenseID)) || negb (full_match idPattern c.(c_InstallationID)) ||
  (c.(c_Sequence) <? 1) || (len c.(c_Customer) <? 1) || (200 <? len c.(c_Customer)) ||
  negb (c.(c_Plan) =? "free")%string && negb (c.(c_Plan) =? "pro")%string ||
  (c.(c_IssuedAt) <=? 0) || (c.(c_NotBefore) <? c.(c_IssuedAt)) || (9 <? lenl c.(c_Features)).

Definition bad_term (c : Claims) : bool :=
  if c.(c_Lifetime) then negb (c.(c_Plan) =? "pro")%string || negb (c.(c_ExpiresAt) =? 0)
  else (c.(c_ExpiresAt) <=? c.(c_NotBefore)) || (ten_years <? wrap64 (c.(c_ExpiresAt) - c.(c_IssuedAt))).

Fixpoint bad_features (plan : string) (seen : list string) (features : list string) : bool :=
  match features with
  | [] => false
  | id :: features' =>
      negb (plan =? "pro")%string || one_of id seen || negb (knownEntitlement id) || bad_features plan (id :: seen) features'
  end.

(** The claims with the state of the error, if any. *)
Definition Verify (v : Verifier) (token installation : string) (now : Z) : Claims * option string :=
  let invalid := λ state, (no_claims, Some state) in
  if negb (Configured v) then invalid "issuer_not_configured"
  else match token_parts token with
  | None => invalid "invalid"
  | Some (payload, signature) =>
      match decode_claims payload with
      | None => invalid "invalid"
      | Some c =>
          match v !! c.(c_KeyID) with
          | None => invalid "invalid_signature"
          | Some key =>
              if negb (ed25519_Verify key (Domain +:+ payload) signature) then invalid "invalid_signature"
              else if bad_claims c || bad_term c || bad_features c.(c_Plan) [] c.(c_Features) then invalid "invalid"
              else if negb (c.(c_InstallationID) =? installation)%string then invalid "wrong_installation"
              else if now <? c.(c_NotBefore) then (c, Some "not_yet_valid")
              else if negb c.(c_Lifetime) && (c.(c_ExpiresAt) <=? now) then (c, Some "expired")
              else (c, None)
          end
      end
  end.

(** * The installation's record *)

Record licenseRecord : Type := mkRecord {
  r_InstallationID : string;
  r_Token : string;
  r_Revision : Z;
  r_Sequence : Z;
  r_Digest : string;
}.

Record LicenseStatus : Type := mkStatus {
  st_InstallationID : string;
  st_Revision : Z;
  st_Plan : string;
  st_State : string;
  st_Valid : bool;
  st_IssuerConfigured : bool;
  st_LicensedTo : string;
  st_LicenseID : string;
  st_ExpiresAt : option Z;
  st_Sequence : Z;
  st_Features : list string;
  st_Catalog : list Feature;
}.

Definition licenseStatus (v : Verifier) (record : licenseRecord) (now : Z) : LicenseStatus :=
  let '(claims, err) := if is_empty record.(r_Token) then (no_claims, None) else Verify v record.(r_Token) record.(r_InstallationID) now in
  let '(state, valid, plan, features) :=
    if is_empty record.(r_Token) then (if 0 <? record.(r_Sequence) then "inactive" else "free", false, "free", [])
    else match err with
    | Some state => (state, false, "free", [])
    | None =>
        if negb (claims.(c_Sequence) =? record.(r_Sequence)) || negb (record.(r_Digest) =? sha256_Sum record.(r_Token))%string
        then ("rollback_rejected", false, "free", [])
        else ("active", true, claims.(c_Plan), claims.(c_Features))
    end in
  let known := negb (is_empty claims.(c_LicenseID)) in
  let catalog := Catalog features in
  mkStatus record.(r_InstallationID) record.(r_Revision) plan state valid (Configured v)
    (if known then claims.(c_Customer) else EmptyString) (if known then claims.(c_LicenseID) else EmptyString)
    (if known && negb claims.(c_Lifetime) then Some claims.(c_ExpiresAt) else None) record.(r_Sequence)
    (fold_left (λ features f, if (f.(f_Plan) =? "free")%string && negb (one_of f.(f_ID) features) then features ++ [f.(f_ID)] else features)
       catalog features)
    catalog.

Definition licenseAllows (status : LicenseStatus) (features : list string) : bool :=
  forallb (λ feature, one_of feature status.(st_Features)) features.

Definition RequireFeatures (v : Verifier) (record : licenseRecord) (now : Z) (features : list string) : result unit :=
  fail_when (negb (licenseAllows (licenseStatus v record now) features)) (Errorf "a valid paid license is required" []).

(** [revision+1] in the database, which refuses to overflow a bigint. *)
Definition next_revision (record : licenseRecord) : result Z :=
  _ ← fail_when (max_int64 <=? record.(r_Revision)) (Errorf "bigint out of range" []);
  Ok (record.(r_Revision) + 1).

(** [browser] and [admin] are what the principal's credential type and [IsAdmin]
    say. The record is locked for update until the transaction commits. *)
Definition InstallLicense (v : Verifier) (browser admin : bool) (token : string) (expected now : Z) (record : licenseRecord)
  : result licenseRecord :=
  _ ← fail_when (negb browser || negb admin) ErrForbidden;
  _ ← fail_when (negb (expected =? record.(r_Revision))) ErrConflict;
  let '(claims, err) := Verify v token record.(r_InstallationID) now in
  _ ← match err with Some state => Err (Errorf "%w: %s" [AErr ErrInput; AErr (Errorf "license is %s" [AStr state])]) | None => Ok tt end;
  let digest := sha256_Sum token in
  _ ← fail_when ((claims.(c_Sequence) <? record.(r_Sequence)) ||
        (claims.(c_Sequence) =? record.(r_Sequence)) &&
        (negb (token =? record.(r_Token))%string || negb (record.(r_Digest) =? digest)%string))
        (Errorf "%w: a newer signed license sequence is required" [AErr ErrConflict]);
  if (token =? record.(r_Token))%string then Ok record
  else
    revision ← next_revision record;
    Ok (mkRecord record.(r_InstallationID) token revision claims.(c_Sequence) digest).

Definition RemoveLicense (browser admin : bool) (expected : Z) (record : licenseRecord) : result licenseRecord :=
  _ ← fail_when (negb browser || negb admin) ErrForbidden;
  _ ← fail_when (negb (expected =? record.(r_Revision))) ErrConflict;
  revision ← next_revision record;
  Ok (mkRecord record.(r_InstallationID) EmptyString revision record.(r_Sequence) record.(r_Digest)).

(** The transactions on the record, one after the other: one that fails or does
    not commit leaves it as it was. *)
Inductive license_step (v : Verifier) : licenseRecord → licenseRecord → Prop :=
  | step_install browser admin token expected now r r' :
      InstallLicense v browser admin token expected now r = Ok r' → license_step v r r'
  | step_remove browser admin expected r r' : RemoveLicense browser admin expected r = Ok r' → license_step v r r'.

(** A fresh installation. *)
Definition fresh_record (id : string) : licenseRecord := mkRecord id EmptyString 0 0 EmptyString.
End license.

(** * What verification accepts *)

Section verification.
Context `{Issuer} `{RangeOrder}.

(** The claims of a token signed with a trusted key. *)
Definition genuine (v : Verifier) (token : string) (c : Claims) : Prop :=
  ∃ payload signature key, token_parts token = Some (payload, signature) ∧ decode_claims payload = Some c ∧
    v !! c.(c_KeyID) = Some key ∧ ed25519_Verify key (Domain +:+ payload) signature = true.

Definition in_force (c : Claims) (installation : string) (now : Z) : Prop :=
  c.(c_InstallationID) = installation ∧ c.(c_NotBefore) <= now ∧ (c.(c_Lifetime) = true ∨ now < c.(c_ExpiresAt)).

(** Well-formed claims: a paid feature needs the Pro plan, and a license without an
    end must say so. *)
Definition claims_ok (c : Claims) : Prop :=
  c.(c_Version) = 1 ∧ full_match idPattern c.(c_LicenseID) = true ∧ full_match idPattern c.(c_InstallationID) = true ∧
  1 <= c.(c_Sequence) ∧ 1 <= len c.(c_Customer) <= 200 ∧ (c.(c_Plan) = "free" ∨ c.(c_Plan) = "pro") ∧
  0 < c.(c_IssuedAt) <= c.(c_NotBefore) ∧
  (if c.(c_Lifetime) then c.(c_Plan) = "pro" ∧ c.(c_ExpiresAt) = 0
   else c.(c_NotBefore) < c.(c_ExpiresAt) ∧ wrap64 (c.(c_ExpiresAt) - c.(c_IssuedAt)) <= ten_years) ∧
  lenl c.(c_Features) <= 9 ∧ NoDup c.(c_Features) ∧ Forall (λ id, knownEntitlement id = true) c.(c_Features) ∧
  (c.(c_Features) ≠ [] → c.(c_Plan) = "pro").

Lemma bad_features_false plan seen l : bad_features plan seen l = false ↔
  NoDup l ∧ (∀ x, x ∈ l → x ∉ seen) ∧ Forall (λ id, knownEntitlement id = true) l ∧ (l ≠ [] → plan = "pro").
Proof.
  revert seen. induction l as [|id l IH]; intros seen; cbn [bad_features].
  - split; [|done]. intros _. split_and!; [constructor|set_solver|constructor|done].
  - rewrite !orb_false_iff, !negb_false_iff, String.eqb_eq, one_of_false, IH, NoDup_cons, Forall_cons. split.
    + intros (((-> & Hs) & Hk) & Hnd & Hseen & Hall & _). split_and!; [set_solver|done|set_solver|done|done|done].
    + intros ((Hid & Hnd) & Hseen & (Hk & Hall) & Hp). split_and!; [by apply Hp|set_solver|done|done|set_solver|done|by intros _; apply Hp].
Qed.

Lemma claims_ok_spec c : bad_claims c || bad_term c || bad_features c.(c_Plan) [] c.(c_Features) = false ↔ claims_ok c.
Proof.
  unfold bad_claims, bad_term, claims_ok. rewrite !orb_false_iff, bad_features_false, !negb_false_iff, andb_false_iff, !negb_false_iff, !Z.ltb_ge, !String.eqb_eq, Z.eqb_eq, Z.leb_gt.
  destruct (c_Lifetime c).
  - rewrite orb_false_iff, !negb_false_iff, String.eqb_eq, Z.eqb_eq. intuition (auto; set_solver || lia).
  - rewrite orb_false_iff, Z.leb_gt, Z.ltb_ge. intuition (auto; set_solver || lia).
Qed.

Lemma Verify_Ok v token installation now c :
  Verify v token installation now = (c, None) ↔ genuine v token c ∧ claims_ok c ∧ in_force c installation now.
Proof.
  unfold Verify, genuine, in_force. cbv zeta. rewrite <-claims_ok_spec. split.
  - destruct (Configured v); [cbn [negb]|done]. destruct (token_parts token) as [[payload signature]|]; [|done].
    destruct (decode_claims payload) as [c'|] eqn:Hd; [|done]. destruct (v !! c_KeyID c') as [key|] eqn:Hk; [|done].
    destruct (ed25519_Verify key _ signature) eqn:Hs; [cbn [negb]|done]. destruct (bad_claims c' || _ || _) eqn:Hb; [done|].
    destruct (String.eqb_spec c'.(c_InstallationID) installation) as [Hi|]; [cbn [negb]|done].
    destruct (Z.ltb_spec now c'.(c_NotBefore)); [done|]. destruct (negb (c_Lifetime c') && _) eqn:He; [done|]. intros [= <-].
    split; [by exists payload, signature, key|]. split; [done|]. split_and!; [done|done|].
    apply andb_false_iff in He as [He%negb_false_iff|He%Z.leb_gt]; tauto.
  - intros ((payload & signature & key & -> & -> & Hk & Hs) & Hc & Hi & Hn & He). rewrite Hk, Hs.
    assert (Configured v = true) as ->.
    { apply Z.ltb_lt. assert (lenm v ≠ 0) as Hz by (rewrite lenm_zero; intros ->; by rewrite lookup_empty in Hk). unfold lenm in *. lia. }
    cbn [negb]. rewrite Hc, Hi, String.eqb_refl. cbn [negb]. rewrite (proj2 (Z.ltb_ge _ _) Hn).
    destruct He as [->|He]; [done|]. rewrite (proj2 (Z.leb_gt _ _) He). by rewrite andb_false_r.
Qed.

(** A token has at most one content. *)
Lemma genuine_inj v token c c' : genuine v token c → genuine v token c' → c = c'.
Proof. intros (p & s & k & Hp & Hd & _) (p' & s' & k' & Hp' & Hd' & _). congruence. Qed.

(** A license is in force exactly when it is signed with a trusted key over its
    domain and payload, well formed, issued for this installation, and now lies in
    its term; only a Pro license that says so has no end. *)
Theorem Verify_exact v token installation now :
  (∃ c, Verify v token installation now = (c, None)) ↔ ∃ c, genuine v token c ∧ claims_ok c ∧ in_force c installation now.
Proof. split; intros [c Hc]; exists c; by apply Verify_Ok. Qed.

(** ** The record *)

Lemma next_revision_Ok r n : next_revision r = Ok n → n = r.(r_Revision) + 1.
Proof. unfold next_revision. intros Hn. by inv_ok. Qed.

Lemma InstallLicense_Ok v browser admin token expected now r r' :
  InstallLicense v browser admin token expected now r = Ok r' →
  browser = true ∧ admin = true ∧ expected = r.(r_Revision) ∧
  ((token = r.(r_Token) ∧ r' = r) ∨
   (token ≠ r.(r_Token) ∧ ∃ c, Verify v token r.(r_InstallationID) now = (c, None) ∧ r.(r_Sequence) < c.(c_Sequence) ∧
    r' = mkRecord r.(r_InstallationID) token (r.(r_Revision) + 1) c.(c_Sequence) (sha256_Sum token))).
Proof.
  unfold InstallLicense. rewrite !bind_unit_Ok, !fail_when_Ok. intros ([Hb%negb_false_iff Ha%negb_false_iff]%orb_false_iff & He%negb_false_iff%Z.eqb_eq & Hrest).
  destruct (Verify v token _ now) as [c err] eqn:Hv. apply bind_unit_Ok in Hrest as [Herr Hrest]. destruct err as [state|]; [done|].
  apply bind_unit_Ok in Hrest as [[Hlt%Z.ltb_ge Heq]%fail_when_Ok%orb_false_iff Hrest]. split_and!; [done..|].
  destruct (String.eqb_spec token (r_Token r)) as [Ht|Ht].
  - left. injection Hrest as <-. done.
  - right. split; [done|]. exists c. apply bind_Ok in Hrest as (n & ->%next_revision_Ok & [= <-]). split_and!; [done| |done].
    apply andb_false_iff in Heq as [Heq%Z.eqb_neq|Heq]; [lia|done].
Qed.

Lemma RemoveLicense_Ok browser admin expected r r' : RemoveLicense browser admin expected r = Ok r' →
  browser = true ∧ admin = true ∧ expected = r.(r_Revision) ∧
  r' = mkRecord r.(r_InstallationID) EmptyString (r.(r_Revision) + 1) r.(r_Sequence) r.(r_Digest).
Proof.
  unfold RemoveLicense. intros Hr. inv_ok. apply orb_false_iff in Hok as [Hb%negb_false_iff Ha%negb_false_iff].
  apply negb_false_iff, Z.eqb_eq in Hok0. by apply next_revision_Ok in Hok1 as ->.
Qed.

(** The token present carries the sequence of the record. *)
Definition record_ok (v : Verifier) (id : string) (r : licenseRecord) : Prop :=
  r.(r_InstallationID) = id ∧ 0 <= r.(r_Sequence) ∧
  (r.(r_Token) ≠ EmptyString → r.(r_Digest) = sha256_Sum r.(r_Token) ∧
     ∃ c, genuine v r.(r_Token) c ∧ claims_ok c ∧ c.(c_InstallationID) = id ∧ c.(c_Sequence) = r.(r_Sequence)).

Lemma license_step_ok v id r r' : record_ok v id r → license_step v r r' → record_ok v id r'.
Proof.
  intros Hr Hs. destruct Hs as [browser admin token expected now r r' Hi|browser admin expected r r' Hi].
  - apply InstallLicense_Ok in Hi as (_ & _ & _ & [[_ ->]|(_ & c & (Hg & Hc & Hf)%Verify_Ok & Hlt & ->)]); [done|].
    destruct Hr as (Hid & Hs & _). split_and!; [done|simpl; lia|]. intros _. split; [done|]. exists c.
    split_and!; [done|done|by destruct Hf as [-> _]|done].
  - apply RemoveLicense_Ok in Hi as (_ & _ & _ & ->). destruct Hr as (Hid & Hs & _). by split_and!.
Qed.

(** What a step does to the token and the sequence. *)
Lemma license_step_sequence v r r' : license_step v r r' →
  r.(r_Sequence) <= r'.(r_Sequence) ∧ r.(r_Revision) <= r'.(r_Revision) ∧
  (r'.(r_Token) = r.(r_Token) ∨ r'.(r_Token) = EmptyString ∨ r.(r_Sequence) < r'.(r_Sequence)).
Proof.
  intros Hs. destruct Hs as [browser admin token expected now r r' Hi|browser admin expected r r' Hi].
  - apply InstallLicense_Ok in Hi as (_ & _ & _ & [[_ ->]|(_ & c & _ & Hlt & ->)]); [split_and!; [done|done|by left]|].
    simpl. split_and!; [lia|lia|by right; right].
  - apply RemoveLicense_Ok in Hi as (_ & _ & _ & ->). simpl. split_and!; [done|lia|by right; left].
Qed.

Lemma license_steps_ok v id r r' : record_ok v id r → rtc (license_step v) r r' → record_ok v id r' ∧ r.(r_Sequence) <= r'.(r_Sequence).
Proof.
  intros Hr Hs. induction Hs as [r|r1 r2 r3 Hs _ IH]; [done|]. destruct IH as [? ?]; [by eapply license_step_ok|].
  apply license_step_sequence in Hs as [? _]. split; [done|lia].
Qed.

Lemma fresh_record_ok v id : record_ok v id (fresh_record id).
Proof. by split_and!. Qed.

(** A token that was superseded or removed has too low a sequence to come back. *)
Definition spent (v : Verifier) (token : string) (r : licenseRecord) : Prop :=
  r.(r_Token) ≠ token ∧ ∀ c, genuine v token c → c.(c_Sequence) <= r.(r_Sequence).

Lemma license_step_spent v id token r r' : token ≠ EmptyString → record_ok v id r → license_step v r r' →
  spent v token r → spent v token r'.
Proof.
  intros Hne Hr Hs [Ht Hseq]. pose proof (license_step_ok _ _ _ _ Hr Hs) as (_ & _ & Hr').
  apply license_step_sequence in Hs as (Hle & _ & Hcase). split.
  - intros <-. destruct (Hr' Hne) as (_ & c & Hg & _ & _ & Hc). specialize (Hseq _ Hg). destruct Hcase as [Hcase|[Hcase|Hcase]]; [by rewrite Hcase in Ht|done|lia].
  - intros c Hg. specialize (Hseq _ Hg). lia.
Qed.

Lemma license_step_leaves v id token r r' : r.(r_Token) = token → token ≠ EmptyString → record_ok v id r → license_step v r r' →
  r'.(r_Token) = token ∨ spent v token r'.
Proof.
  intros <- Hne (_ & _ & Hr) Hs. destruct (decide (r'.(r_Token) = r.(r_Token))) as [|Hch]; [by left|right].
  apply license_step_sequence in Hs as (Hle & _). split; [done|]. destruct (Hr Hne) as (_ & c & Hg & _ & _ & Hc).
  intros c' Hg'. rewrite <-(genuine_inj _ _ _ _ Hg Hg'). lia.
Qed.

(** C36: A license cannot be rolled back. Whatever is installed and removed, the
    sequence of the record never decreases, and a license that was replaced or
    removed is never the installed one again, though its token still verifies. *)
Theorem license_no_rollback v id r r' : rtc (license_step v) (fresh_record id) r → rtc (license_step v) r r' →
  r.(r_Sequence) <= r'.(r_Sequence) ∧
  (∀ token, token = r.(r_Token) → token ≠ EmptyString → r'.(r_Token) ≠ token →
     ∀ r2, rtc (license_step v) r' r2 → r2.(r_Token) ≠ token).
Proof.
  intros Hr Hs. pose proof (license_steps_ok _ _ _ _ (fresh_record_ok v id) Hr) as [Hok _].
  split; [by eapply license_steps_ok|]. intros token Htoken Hne Hleft r2 Hs2.
  assert (r'.(r_Token) = token ∨ spent v token r') as [|Hspent]; [|done|].
  - assert (r.(r_Token) = token ∨ spent v token r) as Hstart by by left. clear Hr Htoken Hleft Hs2.
    induction Hs as [r|r1 r3 r' H13 _ IH]; [done|]. apply IH; [by eapply license_step_ok|].
    destruct Hstart as [Hstart|Hstart]; [by eapply license_step_leaves|right; by eapply license_step_spent].
  - pose proof (license_steps_ok _ _ _ _ Hok Hs) as [Hok' _]. clear -Hs2 Hspent Hne Hok'.
    induction Hs2 as [r|r1 r3 r2 H13 _ IH]; [by destruct Hspent|]. apply IH; [by eapply license_step_spent|by eapply license_step_ok].
Qed.

(** ** Features *)

Definition of_plan (plan : string) : list string := f_ID <$> filter (λ f, f.(f_Plan) = plan) catalog.

(** The claims that count now: verified, and those the record was installed with. *)
Definition granted (v : Verifier) (r : licenseRecord) (now : Z) : list string :=
  match Verify v r.(r_Token) r.(r_InstallationID) now with
  | (c, None) =>
      if negb (is_empty r.(r_Token)) && (c.(c_Sequence) =? r.(r_Sequence)) && (r.(r_Digest) =? sha256_Sum r.(r_Token))%string
      then c.(c_Features) else []
  | _ => []
  end.

Lemma elem_of_status_fold x l acc :
  x ∈ fold_left (λ features f, if (f.(f_Plan) =? "free")%string && negb (one_of f.(f_ID) features) then features ++ [f.(f_ID)] else features) l acc ↔
  x ∈ acc ∨ x ∈ f_ID <$> filter (λ f, f.(f_Plan) = "free") l.
Proof.
  revert acc. induction l as [|f l IH]; intros acc; [set_solver|]. cbn [fold_left]. rewrite IH, filter_cons.
  destruct (String.eqb_spec f.(f_Plan) "free") as [Hp|Hp]; [rewrite decide_True by done|rewrite decide_False by done; tauto].
  rewrite fmap_cons, elem_of_cons. destruct (one_of (f_ID f) acc) eqn:Ho; cbn [andb negb].
  - apply one_of_spec in Ho. naive_solver.
  - rewrite elem_of_app, list_elem_of_singleton. tauto.
Qed.

Lemma Catalog_plan enabled plan : f_ID <$> filter (λ f, f.(f_Plan) = plan) (Catalog enabled) = of_plan plan.
Proof.
  unfold of_plan, Catalog. induction catalog as [|f l IH]; [done|]. rewrite fmap_cons, !filter_cons. cbn [f_Plan].
  case_decide; [|done]. rewrite !fmap_cons. by rewrite IH.
Qed.

Lemma elem_of_st_Features v r now x : x ∈ (licenseStatus v r now).(st_Features) ↔ x ∈ granted v r now ∨ x ∈ of_plan "free".
Proof.
  unfold licenseStatus, granted. destruct (is_empty (r_Token r)) eqn:He.
  - cbn [st_Features]. rewrite elem_of_status_fold, Catalog_plan. cbn [negb andb]. by destruct (Verify _ _ _ _) as [? []].
  - destruct (Verify v _ _ now) as [c [state|]]; [cbn [st_Features]; by rewrite elem_of_status_fold, Catalog_plan|].
    destruct (c_Sequence c =? r_Sequence r), (r_Digest r =? sha256_Sum (r_Token r))%string; cbn [negb orb andb st_Features];
      by rewrite elem_of_status_fold, Catalog_plan.
Qed.

Lemma RequireFeatures_Ok v r now l u : RequireFeatures v r now l = Ok u ↔ ∀ x, x ∈ l → x ∈ granted v r now ∨ x ∈ of_plan "free".
Proof.
  unfold RequireFeatures, licenseAllows. rewrite fail_when_Ok, negb_false_iff, forallb_forall. split.
  - intros Hl x Hx. apply elem_of_st_Features, one_of_spec, Hl. by apply list_elem_of_In.
  - intros Hl x Hx. apply one_of_spec, elem_of_st_Features, Hl. by apply list_elem_of_In.
Qed.

Lemma paid_not_free x : x ∈ of_plan "pro" → x ∉ of_plan "free".
Proof.
  intros Hx Hf. assert (NoDup (of_plan "pro" ++ of_plan "free")) as Hnd by (apply (bool_decide_unpack _); vm_compute; exact I).
  apply NoDup_app in Hnd as (_ & Hd & _). by eapply Hd.
Qed.

(** Paid features are available exactly while the installed license is genuine,
    issued for this installation, in its term and lists them; free features always
    are. *)
Theorem paid_features_licensed v id r now : rtc (license_step v) (fresh_record id) r →
  (∀ feature, feature ∈ of_plan "pro" → is_ok (RequireFeatures v r now [feature]) = true ↔
     r.(r_Token) ≠ EmptyString ∧ ∃ c, genuine v r.(r_Token) c ∧ in_force c id now ∧ feature ∈ c.(c_Features)) ∧
  is_ok (RequireFeatures v r now (of_plan "free")) = true.
Proof.
  intros Hr. pose proof (license_steps_ok _ _ _ _ (fresh_record_ok v id) Hr) as [(Hid & _ & Hok) _]. split.
  - intros feature Hp. rewrite is_ok_true. setoid_rewrite RequireFeatures_Ok. setoid_rewrite list_elem_of_singleton. split.
    + intros [_ Hl]. destruct (Hl feature eq_refl) as [Hg|Hf]; [|by apply paid_not_free in Hp]. unfold granted in Hg. rewrite Hid in Hg.
      destruct (Verify v (r_Token r) id now) as [c [|]] eqn:Hv; [set_solver|]. destruct (negb _ && _ && _) eqn:Hb; [|set_solver]. split_orb.
      apply Verify_Ok in Hv as (Hgen & _ & Hforce). split; [by apply is_empty_false|]. by exists c.
    + intros (Hne & c & Hg & Hf & Hin). exists tt. intros x ->. left. unfold granted. destruct (Hok Hne) as (Hd & c' & Hg' & Hc & _ & Hs).
      rewrite <-(genuine_inj _ _ _ _ Hg Hg') in Hc, Hs. rewrite Hid, (proj2 (Verify_Ok v _ id now c)) by done.
      rewrite Hd, Hs, String.eqb_refl, Z.eqb_refl. by rewrite (proj2 (is_empty_false _) Hne).
  - apply is_ok_true. exists tt. apply RequireFeatures_Ok. by right.
Qed.

(** The catalog sells ten features, and no license may list more than nine. *)
Theorem no_full_license v r now : is_ok (RequireFeatures v r now (of_plan "pro")) = false.
Proof.
  apply not_true_iff_false. rewrite is_ok_true. setoid_rewrite RequireFeatures_Ok. intros [_ Hl].
  assert (of_plan "pro" ⊆ granted v r now) as Hsub by (intros x Hx; destruct (Hl x Hx) as [|Hf]; [done|by apply paid_not_free in Hx]).
  assert (length (of_plan "pro") <= length (granted v r now))%nat as Hlen.
  { apply submseteq_length, NoDup_submseteq; [|exact Hsub]. apply (bool_decide_unpack _); vm_compute; exact I. }
  change (length (of_plan "pro")) with 10%nat in Hlen. unfold granted in Hlen.
  destruct (Verify v _ _ now) as [c [|]] eqn:Hv; [simpl in Hlen; lia|]. apply Verify_Ok in Hv as (_ & Hc & _).
  destruct (negb _ && _ && _); [|simpl in Hlen; lia]. destruct Hc as (_ & _ & _ & _ & _ & _ & _ & _ & Hn & _). unfold lenl in Hn. lia.
Qed.
End verification.

(** * An example *)

Module LicenseExample.
(** Claims are a single byte, the sequence; a signature of zeros is the right one. *)
Definition key : string := byte_string (replicate 32 7).
Definition claims (seq : Z) : Claims :=
  mkClaims 1 "issuer" (byte_string (replicate 32 97)) (byte_string (replicate 32 98)) "Example" "pro" seq 100 100 1000 false ["teams"; "custom_roles"].
#[export] Instance issuer : Issuer := {|
  ed25519_Verify k m s := (k =? key)%string && (s =? byte_string (replicate 64 0))%string;
  sha256_Sum s := s;
  decode_claims s := match s with String c EmptyString => Some (claims (byte_of c)) | _ => None end;
|}.
Definition v : Verifier := NewVerifier {["issuer" := key]}.
Definition token (payload : string) : string :=
  "hl1." +:+ payload +:+ "." +:+ String.string_of_list_ascii (replicate 86 "A"%char).
Definition first : string := token "MQ".
Definition second : string := token "Mg".
Definition installation : string := byte_string (replicate 32 98).
Definition install (t : string) (r : licenseRecord) : option licenseRecord :=
  match InstallLicense v true true t r.(r_Revision) 500 r with Ok r => Some r | Err _ => None end.
Definition remove (r : licenseRecord) : option licenseRecord :=
  match RemoveLicense true true r.(r_Revision) r with Ok r => Some r | Err _ => None end.
Definition installed : licenseRecord := Eval vm_compute in default (fresh_record installation) (install first (fresh_record installation)).
Definition renewed : licenseRecord := Eval vm_compute in default installed (install second installed).
Definition removed : licenseRecord := Eval vm_compute in default renewed (remove renewed).
End LicenseExample.

#[local] Existing Instance LicenseExample.issuer.

(** The keys the release trusts. *)
Example release_keys : (len <$> @ReleaseVerifier map_to_list_order) =
  {["hakopod-2026-09" := 32; "hakopod-web-2026-11" := 32]}.
Proof. vm_compute. reflexivity. Qed.

Example license_life :
  (LicenseExample.installed.(r_Sequence), LicenseExample.renewed.(r_Sequence), LicenseExample.removed.(r_Sequence)) = (49, 50, 50) ∧
  LicenseExample.install LicenseExample.first LicenseExample.renewed = None ∧
  LicenseExample.install LicenseExample.second LicenseExample.removed = None ∧
  (licenseStatus LicenseExample.v LicenseExample.renewed 500).(st_State) = "active" ∧
  (licenseStatus LicenseExample.v LicenseExample.renewed 1000).(st_State) = "expired" ∧
  (licenseStatus LicenseExample.v LicenseExample.removed 500).(st_State) = "inactive".
Proof. vm_compute. repeat split. Qed.

Lemma installed_steps : rtc (license_step LicenseExample.v) (fresh_record LicenseExample.installation) LicenseExample.installed.
Proof. apply rtc_once, (step_install _ true true LicenseExample.first 0 500). vm_compute. reflexivity. Qed.

Lemma renewed_steps : rtc (license_step LicenseExample.v) LicenseExample.installed LicenseExample.renewed.
Proof. apply rtc_once, (step_install _ true true LicenseExample.second 1 500). vm_compute. reflexivity. Qed.

Lemma removed_steps : rtc (license_step LicenseExample.v) LicenseExample.renewed LicenseExample.removed.
Proof. apply rtc_once, (step_remove _ true true 2). vm_compute. reflexivity. Qed.

Lemma license_no_rollback_witness : LicenseExample.removed.(r_Token) ≠ LicenseExample.first.
Proof.
  apply (proj2 (license_no_rollback _ _ _ _ installed_steps renewed_steps) LicenseExample.first);
    [vm_compute; reflexivity|discriminate|vm_compute; discriminate|exact removed_steps].
Defined.

Lemma paid_features_licensed_witness : is_ok (RequireFeatures LicenseExample.v LicenseExample.installed 500 ["custom_roles"]) = true ∧
  ∃ c, genuine LicenseExample.v LicenseExample.first c ∧ in_force c LicenseExample.installation 500 ∧ "custom_roles" ∈ c.(c_Features).
Proof.
  assert (is_ok (RequireFeatures LicenseExample.v LicenseExample.installed 500 ["custom_roles"]) = true) as Hok by (vm_compute; reflexivity).
  split; [exact Hok|].
  refine (proj2 (proj1 (proj1 (paid_features_licensed _ _ _ 500 installed_steps) "custom_roles" _) Hok)).
  apply (bool_decide_unpack _). vm_compute. exact I.
Defined.
