(* ===== verification/LogQuery.v ===== *)
(** The query language of the log explorer (internal/logquery/query.go): lines of
    structured logs, the tokens of a query, its recursive-descent parser into a
    predicate over lines, and the comparison of values. The decoding of a line's
    JSON metadata (ParseEntry, metadataAllowed) is not modelled. *)
From S2P Require Import Prelude GoStd Regex.
#[global] Open Scope Z_scope.

(** * Values

    What [encoding/json] decodes to with [UseNumber]. A map is listed in key
    order, which is also the order [fmt] prints it in. *)

Inductive any : Type :=
  | Nil
  | Bool (b : bool)
  | Number (s : string)
  | Text (s : string)
  | Slice (l : list any)
  | Map (m : list (string * any)).

Fixpoint assoc {V} (k : string) (m : list (string * V)) : option V :=
  match m with [] => None | (k', v) :: m' => if (k =? k')%string then Some v else assoc k m' end.

(** [fmt.Sprint] of a decoded value. *)
Fixpoint Sprint (v : any) : string :=
  match v with
  | Nil => "<nil>"
  | Bool b => if b then "true" else "false"
  | Number s | Text s => s
  | Slice l => "[" +:+ Join (map Sprint l) " " +:+ "]"
  | Map m => "map[" +:+ Join (map (λ x, x.1 +:+ ":" +:+ Sprint x.2) m) " " +:+ "]"
  end.

(** Times, floating-point numbers and Unicode case folding come from Go's library:
    [time.Parse] and [Format] with RFC3339Nano, [strconv.ParseFloat(s, 64)] with
    whether it failed, and the representative of a rune under simple folding. *)
Class Values := {
  Time : Type;
  Time_Format : Time → string;
  Time_Parse : string → option Time;
  Time_Compare : Time → Time → Z;
  Float : Type;
  ParseFloat : string → Float * bool;
  IsNaN : Float → bool;
  IsInf : Float → bool;
  Float_lt : Float → Float → bool;
  SimpleFold : Z → Z;
}.

Section logquery.
Context `{Values}.

Record Entry : Type := mkEntry {
  en_Timestamp : Time;
  en_Pod : string;
  en_Container : string;
  en_Service : string;
  en_Message : string;
  en_Severity : string;
  en_Fields : list (string * any);
}.

Definition Predicate : Type := Entry → bool.

Record token : Type := mkToken { value : string; quoted : bool }.

(** * Tokens *)

(** [unicode.IsSpace(rune(input[i]))]: a byte is taken for a Latin-1 rune. *)
Definition space_byte (c : ascii) : bool := IsSpace (byte_of c).

(** A quoted value after its opening quote [c], and what follows its closing one;
    a doubled quote stands for itself. *)
Fixpoint read_quoted (c : ascii) (s : string) : option (string * string) :=
  match s with
  | EmptyString => None
  | String a s' =>
      if Ascii.eqb a c then
        match s' with
        | String b s'' =>
            if Ascii.eqb b c then '(v, rest) ← read_quoted c s''; Some (String c v, rest)
            else Some (EmptyString, s')
        | EmptyString => Some (EmptyString, s')
        end
      else '(v, rest) ← read_quoted c s'; Some (String a v, rest)
  end.

Definition punctuation : string := "()=<>!,".
Definition dquote : ascii := ascii_of_nat 34.
Definition squote : ascii := ascii_of_nat 39.

Definition word_byte (c : ascii) : bool :=
  negb (space_byte c) && negb (has_byte c punctuation) && negb (Ascii.eqb c dquote) && negb (Ascii.eqb c squote).

Fixpoint read_word (s : string) : string * string :=
  match s with
  | String c s' => if word_byte c then let '(v, rest) := read_word s' in (String c v, rest) else (EmptyString, s)
  | EmptyString => (EmptyString, EmptyString)
  end.

(** An operator, with the [=] or [>] that belongs to it. *)
Definition read_punctuation (c : ascii) (s : string) : string * string :=
  match s with
  | String d s' =>
      if has_byte c "<>!" && Ascii.eqb d "=" || Ascii.eqb c "<" && Ascii.eqb d ">"
      then (String c (String d EmptyString), s') else (String c EmptyString, s)
  | EmptyString => (String c EmptyString, s)
  end.

(** One iteration of the loop past the limit on tokens. *)
Definition read_token (c : ascii) (s : string) : result (token * string) :=
  if Ascii.eqb c squote || Ascii.eqb c dquote then
    match read_quoted c s with
    | Some (v, rest) => Ok (mkToken v true, rest)
    | None => Err (Errorf "unterminated quoted value" [])
    end
  else if has_byte c punctuation then
    let '(v, rest) := read_punctuation c s in Ok (mkToken v false, rest)
  else
    let '(v, rest) := read_word (String c s) in
    _ ← fail_when (is_empty v) (Errorf "invalid query token" []);
    Ok (mkToken v false, rest).

Fixpoint tokenize_loop (fuel : nat) (out : list token) (input : string) : result (list token) :=
  match input with
  | EmptyString => Ok out
  | String c s =>
      match fuel with
      | O => Err (Errorf "out of fuel" [])
      | S fuel =>
          if space_byte c then tokenize_loop fuel out s
          else
            _ ← fail_when (128 <=? lenl out) (Errorf "query exceeds 128 tokens" []);
            '(t, rest) ← read_token c s;
            tokenize_loop fuel (out ++ [t]) rest
      end
  end.

Definition tokenize (input : string) : result (list token) := tokenize_loop (String.length input) [] input.

(** * Fields and comparisons *)

Definition first_char (c : ascii) : bool := lower c || upper c || any_of "_" c.
Definition path_char (c : ascii) : bool := lower c || upper c || digit c || any_of "_.-" c.
Definition fieldPattern : regex :=
  RSeq [RLit "json."; RCls first_char; RRep (RCls path_char) 0 127].

Definition fieldValue (e : Entry) (field : string) : any :=
  if (field =? "message")%string then Text e.(en_Message)
  else if (field =? "severity")%string then Text e.(en_Severity)
  else if (field =? "pod")%string then Text e.(en_Pod)
  else if (field =? "container")%string then Text e.(en_Container)
  else if (field =? "service")%string then Text e.(en_Service)
  else if (field =? "timestamp")%string then Text (Time_Format e.(en_Timestamp))
  else
    let path := if HasPrefix field "json." then drop_string 5 field else field in
    fold_left (λ v part, match v with Map m => default Nil (assoc part m) | _ => Nil end)
      (Split path ".") (Map e.(en_Fields)).

Definition is_nil (v : any) : bool := match v with Nil => true | _ => false end.

Definition ranks : list (string * Z) :=
  [("DEFAULT", 0); ("TRACE", 50); ("DEBUG", 100); ("INFO", 200); ("NOTICE", 300); ("WARNING", 400); ("WARN", 400);
   ("ERROR", 500); ("CRITICAL", 600); ("FATAL", 600); ("ALERT", 700); ("EMERGENCY", 800)].

(** [strings.Compare] *)
Definition string_compare (a b : string) : Z :=
  match String.compare a b with Eq => 0 | Lt => -1 | Gt => 1 end.

(** [cmp], or [None] for the early [return false]. *)
Definition compared (a : string) (expected : token) (field : string) : option Z :=
  let b := expected.(value) in
  if (field =? "severity")%string then
    x ← assoc (ToUpper a) ranks; y ← assoc (ToUpper b) ranks; Some (x - y)
  else if (field =? "timestamp")%string then
    x ← Time_Parse a; y ← Time_Parse b; Some (Time_Compare x y)
  else if expected.(quoted) then Some (string_compare a b)
  else
    let '(x, xe) := ParseFloat a in
    let '(y, ye) := ParseFloat b in
    if IsNaN y || IsInf y then None
    else if ye : bool then Some (string_compare a b)
    else if (xe : bool) || IsNaN x || IsInf x then None
    else Some (if Float_lt y x then 1 else if Float_lt x y then -1 else 0).

Definition holds (op : string) (cmp : Z) : bool :=
  if (op =? "=")%string then cmp =? 0
  else if (op =? "!=")%string || (op =? "<>")%string then negb (cmp =? 0)
  else if (op =? ">")%string then 0 <? cmp
  else if (op =? ">=")%string then 0 <=? cmp
  else if (op =? "<")%string then cmp <? 0
  else if (op =? "<=")%string then cmp <=? 0
  else false.

Definition compare (v : any) (expected : token) (op field : string) : bool :=
  let a := Sprint v in
  if (op =? "CONTAINS")%string then Contains a expected.(value)
  else match compared a expected field with Some cmp => holds op cmp | None => false end.

(** ** LIKE

    The regular expression a pattern is rewritten to, between its anchors: [.*],
    [.] or a quoted rune. *)

Inductive item : Type :=
  | AnyRun
  | AnyOne
  | Just (r : Z).

Definition like_items (pattern : string) : list item :=
  (λ r, if r =? byte_of "%" then AnyRun else if r =? byte_of "_" then AnyOne else Just r) <$> runes pattern.

(** [re.MatchString]: matching the items from the left, with all ways to match a
    run kept; [fold] is the flag [i]. *)
Definition same_rune (fold : bool) (a b : Z) : bool :=
  if fold then SimpleFold a =? SimpleFold b else a =? b.

Fixpoint match_items (fold : bool) (items : list item) : list Z → bool :=
  match items with
  | [] => λ text, negb (non_empty text)
  | AnyOne :: items' => λ text, match text with _ :: text' => match_items fold items' text' | [] => false end
  | Just r :: items' => λ text, match text with c :: text' => same_rune fold r c && match_items fold items' text' | [] => false end
  | AnyRun :: items' =>
      fix run (text : list Z) : bool :=
        match_items fold items' text || match text with _ :: text' => run text' | [] => false end
  end.

Definition like (fold : bool) (pattern text : string) : bool := match_items fold (like_items pattern) (runes text).

(** * The parser

    The state is the list of the tokens left; [depth] is counted down from its
    limit. *)

Definition is_word (s : string) (t : token) : bool := negb t.(quoted) && EqualFold t.(value) s.

Definition take_token (s : string) (ts : list token) : bool * list token :=
  match ts with
  | t :: ts' => if is_word s t then (true, ts') else (false, ts)
  | [] => (false, ts)
  end.

Definition next_value (ts : list token) : result (token * list token) :=
  match ts with
  | [] => Err (Errorf "expected a comparison value" [])
  | t :: ts' =>
      _ ← fail_when (negb t.(quoted) && (ContainsAny t.(value) punctuation || EqualFold t.(value) "AND" || EqualFold t.(value) "OR"))
            (Errorf "quote the comparison value" []);
      Ok (t, ts')
  end.

(** The loop over the values of IN, ended by the limit of 32. *)
Fixpoint in_list (room : nat) (values : list token) (ts : list token) : result (list token * list token) :=
  '(v, ts) ← next_value ts;
  match room with
  | O => Err (Errorf "IN supports at most 32 values" [])
  | S room =>
      let '(closed, ts) := take_token ")" ts in
      if closed : bool then Ok (values ++ [v], ts)
      else
        let '(comma, ts) := take_token "," ts in
        if comma : bool then in_list room (values ++ [v]) ts else Err (Errorf "expected comma in IN list" [])
  end.

Definition known_field (t : token) : bool :=
  let field := ToLower t.(value) in
  negb t.(quoted) &&
  ((field =? "message")%string || (field =? "severity")%string || (field =? "pod")%string || (field =? "service")%string ||
   (field =? "container")%string || (field =? "timestamp")%string || full_match fieldPattern t.(value)).

Definition field_name (t : token) : string :=
  if HasPrefix (ToLower t.(value)) "json." then t.(value) else ToLower t.(value).

Definition operators : list string := ["="; "!="; "<>"; ">"; ">="; "<"; "<="; "LIKE"; "ILIKE"; "CONTAINS"].
Definition text_operators : list string := ["LIKE"; "ILIKE"; "CONTAINS"].

Definition is_null (field : string) (negate : bool) : Predicate :=
  λ e, negb (Bool.eqb (is_nil (fieldValue e field)) negate).
Definition in_values (field : string) (negate : bool) (values : list token) : Predicate :=
  λ e, let v := fieldValue e field in
       if is_nil v then false else negb (Bool.eqb (existsb (λ t, compare v t "=" field) values) negate).
Definition likes (field : string) (negate fold : bool) (pattern : string) : Predicate :=
  λ e, let x := fieldValue e field in
       if is_nil x then false else negb (Bool.eqb (like fold pattern (Sprint x)) negate).
Definition compares (field : string) (negate : bool) (op : string) (v : token) : Predicate :=
  λ e, let x := fieldValue e field in
       if is_nil x then false else negb (Bool.eqb (compare x v op field) negate).

(** The rest of [atom] after its field. *)
Definition comparison (field : string) (ts : list token) : result (Predicate * list token) :=
  let '(tested, ts) := take_token "IS" ts in
  if tested : bool then
    let '(negate, ts) := take_token "NOT" ts in
    let '(null, ts) := take_token "NULL" ts in
    if null : bool then Ok (is_null field negate, ts) else Err (Errorf "IS supports NULL or NOT NULL" [])
  else
    let '(negate, ts) := take_token "NOT" ts in
    let '(inside, ts) := take_token "IN" ts in
    if inside : bool then
      let '(opened, ts) := take_token "(" ts in
      if opened : bool then
        '(values, ts) ← in_list 32 [] ts;
        Ok (in_values field negate values, ts)
      else Err (Errorf "IN requires a parenthesized value list" [])
    else match ts with
    | [] => Err (Errorf "expected comparison operator" [])
    | t :: ts =>
        let op := ToUpper t.(value) in
        _ ← fail_when (t.(quoted) || negb (one_of op operators) || negate && negb (one_of op text_operators))
              (Errorf "unsupported comparison operator" []);
        '(v, ts) ← next_value ts;
        Ok (if (op =? "LIKE")%string || (op =? "ILIKE")%string
            then likes field negate (op =? "ILIKE")%string v.(value)
            else compares field negate op v, ts)
    end.

Section levels.
Context (atom : list token → result (Predicate * list token)).

(** [for p.take("AND") { ... }]; the fuel is the number of tokens left. *)
Fixpoint and_loop (fuel : nat) (lhs : Predicate) (ts : list token) : result (Predicate * list token) :=
  let '(more, ts') := take_token "AND" ts in
  if more : bool then
    match fuel with
    | O => Err (Errorf "out of fuel" [])
    | S fuel =>
        '(rhs, ts'') ← atom ts';
        and_loop fuel (λ e, lhs e && rhs e) ts''
    end
  else Ok (lhs, ts).

Definition parse_and (ts : list token) : result (Predicate * list token) :=
  '(lhs, ts) ← atom ts; and_loop (length ts) lhs ts.

Fixpoint or_loop (fuel : nat) (lhs : Predicate) (ts : list token) : result (Predicate * list token) :=
  let '(more, ts') := take_token "OR" ts in
  if more : bool then
    match fuel with
    | O => Err (Errorf "out of fuel" [])
    | S fuel =>
        '(rhs, ts'') ← parse_and ts';
        or_loop fuel (λ e, lhs e || rhs e) ts''
    end
  else Ok (lhs, ts).

Definition parse_or (ts : list token) : result (Predicate * list token) :=
  '(lhs, ts) ← parse_and ts; or_loop (length ts) lhs ts.
End levels.

Fixpoint parse_atom (depth : nat) (ts : list token) : result (Predicate * list token) :=
  match depth with
  | O => Err (Errorf "query nesting exceeds 12 levels" [])
  | S depth =>
      let '(negated, ts) := take_token "NOT" ts in
      if negated : bool then
        '(inner, ts) ← parse_atom depth ts; Ok (λ e, negb (inner e), ts)
      else
        let '(opened, ts) := take_token "(" ts in
        if opened : bool then
          '(inner, ts) ← parse_or (parse_atom depth) ts;
          let '(closed, ts) := take_token ")" ts in
          if closed : bool then Ok (inner, ts) else Err (Errorf "expected closing parenthesis" [])
        else match ts with
        | [] => Err (Errorf "expected a field comparison" [])
        | f :: ts =>
            _ ← fail_when (negb (known_field f))
                  (Errorf "unknown field %q; use message, severity, pod, service, container, timestamp or json.field" [AStr f.(value)]);
            comparison (field_name f) ts
        end
  end.

Definition max_depth : nat := 12.

Definition Compile (input : string) : result Predicate :=
  _ ← fail_when (4096 <? len input) (Errorf "query exceeds 4096 characters" []);
  tokens ← tokenize input;
  if non_empty tokens then
    let '(_, ts) := take_token "WHERE" tokens in
    '(result, ts) ← parse_or (parse_atom max_depth) ts;
    match ts with
    | [] => Ok result
    | t :: _ => Err (Errorf "unexpected token %q" [AStr t.(value)])
    end
  else Ok (λ _, true).

(** * Entries *)

(** [severityOf] maps a level name to its canonical rank name, or to nothing. *)
Definition severityOf (level : string) : string :=
  let level := ToUpper level in
  match assoc level ranks with
  | None => EmptyString
  | Some _ => if (level =? "WARN")%string then "WARNING" else level
  end.

Fixpoint metadataBytes (v : any) : Z :=
  match v with
  | Map m => fold_right (λ x n, 256 + len x.1 + metadataBytes x.2 + n) 256 m
  | Slice l => fold_right (λ x n, metadataBytes x + n) (64 + 32 * lenl l) l
  | Text s | Number s => 32 + len s
  | Nil | Bool _ => 32
  end.

Definition RetainedBytes (e : Entry) : Z :=
  256 + len e.(en_Message) + len e.(en_Pod) + len e.(en_Service) + len e.(en_Container) + len e.(en_Severity) +
  metadataBytes (Map e.(en_Fields)).
End logquery.

(** * An example *)

Module LogExample.
(** Integers for times and numbers. *)
Definition values : Values := {|
  Time := Z;
  Time_Format := Itoa;
  Time_Parse := Atoi;
  Time_Compare a b := a - b;
  Float := Z;
  ParseFloat s := match Atoi s with Some z => (z, false) | None => (0, true) end;
  IsNaN _ := false;
  IsInf _ := false;
  Float_lt := Z.ltb;
  SimpleFold := fold_rune;
|}.
#[export] Existing Instance values.

Definition line : Entry :=
  mkEntry 1700000000 "api-1" "app" "api" "Upstream TIMEOUT" "ERROR"
    [("request", Map [("method", Text "POST")]); ("status", Number "503")].

Definition selects (query : string) : option bool :=
  match Compile query with Ok p => Some (p line) | Err _ => None end.
End LogExample.

Example selects_precedence :
  LogExample.selects "WHERE service = web OR json.status >= 500 AND message ilike '%timeout'" = Some true ∧
  LogExample.selects "(service = web OR json.status >= 500) AND NOT json.request.method = 'POST'" = Some false ∧
  LogExample.selects "json.missing IS NULL AND json.missing != 'x' OR pod NOT IN ('api-1', b)" = Some false ∧
  LogExample.selects "severity > warn and severity < CRITICAL" = Some true ∧
  LogExample.selects "message = 'oops" = None ∧
  LogExample.selects "SELECT * FROM logs" = None.
Proof. vm_compute. repeat split. Qed.

(** The bytes of a query are taken for Latin-1 runes when blanks are looked for: the
    second byte of an accented a is one, and ends an unquoted value. *)
Lemma unquoted_value_truncated : tokenize ("pod=voil" +:+ chr 195 +:+ chr 160) =
  Ok [mkToken "pod" false; mkToken "=" false; mkToken ("voil" +:+ chr 195) false].
Proof. vm_compute. reflexivity. Qed.
