(* ===== verification/LogQueryGrammar.v ===== *)
(** The parser of log queries decides a grammar: which sequences of tokens are
    queries, what each means, and that writing tokens out and reading them back
    returns them. *)
From S2P Require Import Prelude GoStd Regex Text LogQuery.
#[global] Open Scope Z_scope.

Section grammar.
Context `{Values}.

(** * Queries and their meaning *)

Inductive query : Type :=
  | QOr (a b : query)
  | QAnd (a b : query)
  | QNot (a : query)
  | QIsNull (field : string) (negate : bool)
  | QIn (field : string) (negate : bool) (values : list token)
  | QLike (field : string) (negate fold : bool) (pattern : string)
  | QCompare (field : string) (negate : bool) (op : string) (v : token).

Fixpoint denote (q : query) (e : Entry) : bool :=
  match q with
  | QOr a b => denote a e || denote b e
  | QAnd a b => denote a e && denote b e
  | QNot a => negb (denote a e)
  | QIsNull f n => is_null f n e
  | QIn f n vs => in_values f n vs e
  | QLike f n i p => likes f n i p e
  | QCompare f n op v => compares f n op v e
  end.

(** * The grammar

    A word is an unquoted token, whatever its case. Each rule is indexed by the
    levels of nesting left. *)

Definition a_value (v : token) : bool :=
  v.(quoted) || negb (ContainsAny v.(value) punctuation || EqualFold v.(value) "AND" || EqualFold v.(value) "OR").

Inductive optional (w : string) : bool → list token → Prop :=
  | optional_absent : optional w false []
  | optional_present t : is_word w t = true → optional w true [t].

(** The values of IN after the first, each behind a comma. *)
Inductive more_values : list token → list token → Prop :=
  | more_nil : more_values [] []
  | more_cons t v vs ts : is_word "," t = true → a_value v = true → more_values vs ts → more_values (v :: vs) (t :: v :: ts).

Inductive spells_comparison (field : string) : query → list token → Prop :=
  | spells_is_null negate i no n :
      is_word "IS" i = true → optional "NOT" negate no → is_word "NULL" n = true →
      spells_comparison field (QIsNull field negate) (i :: no ++ [n])
  | spells_in negate no i o v vs ts c :
      optional "NOT" negate no → is_word "IN" i = true → is_word "(" o = true → a_value v = true → more_values vs ts →
      (length vs < 32)%nat → is_word ")" c = true →
      spells_comparison field (QIn field negate (v :: vs)) (no ++ i :: o :: v :: ts ++ [c])
  | spells_like negate no op v :
      optional "NOT" negate no → op.(quoted) = false → ToUpper op.(value) = "LIKE" → a_value v = true →
      spells_comparison field (QLike field negate false v.(value)) (no ++ [op; v])
  | spells_ilike negate no op v :
      optional "NOT" negate no → op.(quoted) = false → ToUpper op.(value) = "ILIKE" → a_value v = true →
      spells_comparison field (QLike field negate true v.(value)) (no ++ [op; v])
  | spells_contains negate no op v :
      optional "NOT" negate no → op.(quoted) = false → ToUpper op.(value) = "CONTAINS" → a_value v = true →
      spells_comparison field (QCompare field negate "CONTAINS" v) (no ++ [op; v])
  | spells_compare op v :
      op.(quoted) = false → one_of (ToUpper op.(value)) ["="; "!="; "<>"; ">"; ">="; "<"; "<="] = true → a_value v = true →
      spells_comparison field (QCompare field false (ToUpper op.(value)) v) [op; v].

Inductive spells_atom : nat → query → list token → Prop :=
  | spells_not d t q ts : is_word "NOT" t = true → spells_atom d q ts → spells_atom (S d) (QNot q) (t :: ts)
  | spells_paren d o q ts c :
      is_word "(" o = true → spells_or d q ts → is_word ")" c = true → spells_atom (S d) q (o :: ts ++ [c])
  | spells_field d f q ts :
      known_field f = true → spells_comparison (field_name f) q ts → spells_atom (S d) q (f :: ts)
with spells_and : nat → query → list token → Prop :=
  | spells_and_one d q ts : spells_atom d q ts → spells_and d q ts
  | spells_and_more d a b ts t us :
      spells_and d a ts → is_word "AND" t = true → spells_atom d b us → spells_and d (QAnd a b) (ts ++ t :: us)
with spells_or : nat → query → list token → Prop :=
  | spells_or_one d q ts : spells_and d q ts → spells_or d q ts
  | spells_or_more d a b ts t us :
      spells_or d a ts → is_word "OR" t = true → spells_and d b us → spells_or d (QOr a b) (ts ++ t :: us).

(** What a whole query may be: an expression, after an optional WHERE. *)
Definition asks (q : query) (ts : list token) : Prop :=
  ∃ w us, optional "WHERE" w us ∧ ∃ es, ts = us ++ es ∧ spells_or max_depth q es.

(** * Words *)

Lemma is_word_spec w t : is_word w t = true ↔ t.(quoted) = false ∧ fold_rune <$> runes t.(value) = fold_rune <$> runes w.
Proof. unfold is_word, EqualFold. rewrite andb_true_iff, negb_true_iff, bool_decide_eq_true. done. Qed.

(** A token is at most one of the words. *)
Lemma is_word_other w w' t :
  is_word w t = true → bool_decide (fold_rune <$> runes w = fold_rune <$> runes w') = false → is_word w' t = false.
Proof.
  intros [_ Hw]%is_word_spec Hne%bool_decide_eq_false. apply not_true_iff_false. intros [_ Hw']%is_word_spec. congruence.
Qed.

Lemma take_token_yes w t ts : is_word w t = true → take_token w (t :: ts) = (true, ts).
Proof. unfold take_token. by intros ->. Qed.

Lemma take_token_no w t ts : is_word w t = false → take_token w (t :: ts) = (false, t :: ts).
Proof. unfold take_token. by intros ->. Qed.

Lemma take_token_true w ts ts' : take_token w ts = (true, ts') → ∃ t, ts = t :: ts' ∧ is_word w t = true.
Proof. destruct ts as [|t ts]; [done|]. simpl. destruct (is_word w t) eqn:Hw; [|done]. intros [= ->]. by exists t. Qed.

Lemma take_token_false w ts ts' : take_token w ts = (false, ts') → ts' = ts ∧ ∀ t ts0, ts = t :: ts0 → is_word w t = false.
Proof.
  destruct ts as [|t ts]; simpl; [intros [= <-]; done|]. destruct (is_word w t) eqn:Hw; [done|]. intros [= <-].
  split; [done|]. by intros ? ? [= <- <-].
Qed.

Lemma take_token_absent w ts : (∀ t ts0, ts = t :: ts0 → is_word w t = false) → take_token w ts = (false, ts).
Proof. destruct ts as [|t ts]; [done|]. intros Hn. apply take_token_no. by eapply Hn. Qed.

Lemma take_optional w b ts ts' : take_token w ts = (b, ts') → ∃ us, ts = us ++ ts' ∧ optional w b us.
Proof.
  destruct b; intros Ht.
  - apply take_token_true in Ht as (t & -> & Ht). exists [t]. split; [done|by constructor].
  - apply take_token_false in Ht as [-> _]. exists []. split; [done|constructor].
Qed.

Lemma optional_take w b us t ts : optional w b us → is_word w t = false → take_token w (us ++ t :: ts) = (b, t :: ts).
Proof. intros [|u Hu] Ht; cbn [app]; [by apply take_token_no|by apply take_token_yes]. Qed.

Lemma next_value_Ok ts v ts' : next_value ts = Ok (v, ts') ↔ ts = v :: ts' ∧ a_value v = true.
Proof.
  unfold next_value, a_value. destruct ts as [|t ts]; [naive_solver|]. rewrite bind_unit_Ok, fail_when_Ok, Ok_inj.
  destruct (quoted t) eqn:Hq; simpl.
  - split; [intros [_ [= <- <-]]; by rewrite Hq|]. intros [[= <- <-] _]. done.
  - split; [intros [Hv [= <- <-]]; rewrite Hq; simpl; by rewrite Hv|]. intros [[= <- <-] Hv]. rewrite Hq in Hv. simpl in Hv.
    split; [by apply negb_true_iff in Hv|done].
Qed.

(** * The parser reads what the grammar spells *)

Lemma in_list_sound room acc ts vs rest : in_list room acc ts = Ok (vs, rest) →
  ∃ v more us c, vs = acc ++ v :: more ∧ ts = v :: us ++ c :: rest ∧ a_value v = true ∧ more_values more us ∧
    (length more < room)%nat ∧ is_word ")" c = true.
Proof.
  revert acc ts. induction room as [|room IH]; intros acc ts; cbn [in_list]; rewrite bind_Ok; intros ([v ts1] & Hv & Hrest); [done|].
  apply next_value_Ok in Hv as [-> Hv]. destruct (take_token ")" ts1) as [[] ts2] eqn:Hc.
  - apply take_token_true in Hc as (c & -> & Hc). injection Hrest as <- <-. exists v, [], [], c. split_and!; [done..|constructor|simpl; lia|done].
  - apply take_token_false in Hc as [-> _]. destruct (take_token "," ts1) as [[] ts3] eqn:Hcomma; [|done].
    apply take_token_true in Hcomma as (t & -> & Ht). apply IH in Hrest as (w & more & us & c & -> & -> & Hw & Hmore & Hlen & Hclose).
    exists v, (w :: more), (t :: w :: us), c. rewrite <-app_assoc. split_and!; [done..|by constructor|simpl; lia|done].
Qed.

Lemma in_list_complete more us room acc v c rest : more_values more us → (length more < room)%nat → a_value v = true →
  is_word ")" c = true → in_list room acc (v :: us ++ c :: rest) = Ok (acc ++ v :: more, rest).
Proof.
  intros Hm. revert room acc v. induction Hm as [|t w vs ts Ht Hw Hm IH]; intros [|room] acc v Hlen Hv Hc; simpl in Hlen; try lia; cbn [in_list app].
  - rewrite (proj2 (next_value_Ok (v :: c :: rest) v (c :: rest))) by done. cbn [mbind result_bind]. by rewrite take_token_yes.
  - rewrite (proj2 (next_value_Ok (v :: t :: _) v _)) by done. cbn [mbind result_bind].
    rewrite take_token_no by by eapply is_word_other. rewrite take_token_yes by done.
    rewrite IH by (done || lia). by rewrite <-app_assoc.
Qed.

Definition reads (d : Predicate) (q : query) : Prop := ∀ e, d e = denote q e.

Lemma text_operators_spec op : one_of op text_operators = true ↔ op = "LIKE" ∨ op = "ILIKE" ∨ op = "CONTAINS".
Proof. rewrite one_of_spec. unfold text_operators. rewrite !elem_of_cons, elem_of_nil. tauto. Qed.

Lemma comparison_sound field ts p rest : comparison field ts = Ok (p, rest) →
  ∃ q us, ts = us ++ rest ∧ spells_comparison field q us ∧ reads p q.
Proof.
  unfold comparison. destruct (take_token "IS" ts) as [[] ts1] eqn:His.
  - apply take_token_true in His as (i & -> & Hi). destruct (take_token "NOT" ts1) as [negate ts2] eqn:Hn.
    apply take_optional in Hn as (no & -> & Hno). destruct (take_token "NULL" ts2) as [[] ts3] eqn:Hnull; [|done].
    apply take_token_true in Hnull as (n & -> & Hnull). intros [= <- <-].
    exists (QIsNull field negate), (i :: no ++ [n]). split; [cbn [app]; by rewrite <-app_assoc|]. split; [by constructor|done].
  - apply take_token_false in His as [-> _]. destruct (take_token "NOT" ts) as [negate ts2] eqn:Hn.
    apply take_optional in Hn as (no & -> & Hno). destruct (take_token "IN" ts2) as [[] ts3] eqn:Hin.
    + apply take_token_true in Hin as (i & -> & Hin). destruct (take_token "(" ts3) as [[] ts4] eqn:Ho; [|done].
      apply take_token_true in Ho as (o & -> & Ho). rewrite bind_Ok. intros ([vs ts5] & Hvs & [= <- <-]).
      apply in_list_sound in Hvs as (v & more & us & c & -> & -> & Hv & Hmore & Hlen & Hc).
      exists (QIn field negate (v :: more)), (no ++ i :: o :: v :: us ++ [c]).
      split; [simplify_list_eq; done|]. split; [by constructor|done].
    + apply take_token_false in Hin as [-> _]. destruct ts2 as [|op ts2]; [done|]. cbv zeta. rewrite bind_unit_Ok, fail_when_Ok, bind_Ok.
      intros ([[Hq Hop%negb_false_iff]%orb_false_iff Hneg]%orb_false_iff & [v ts3] & [-> Hv]%next_value_Ok & Hp).
      destruct (one_of (ToUpper (value op)) text_operators) eqn:Htext.
      * apply text_operators_spec in Htext as [Hl|[Hl|Hl]]; rewrite Hl in Hp; injection Hp as <- <-.
        -- exists (QLike field negate false v.(value)), (no ++ [op; v]). split; [simplify_list_eq; done|]. split; [by constructor|done].
        -- exists (QLike field negate true v.(value)), (no ++ [op; v]). split; [simplify_list_eq; done|]. split; [by constructor|done].
        -- exists (QCompare field negate "CONTAINS" v), (no ++ [op; v]). split; [simplify_list_eq; done|]. split; [by constructor|done].
      * rewrite andb_true_r in Hneg. subst negate. inversion Hno; subst no. cbn [app].
        destruct ((ToUpper (value op) =? "LIKE")%string || (ToUpper (value op) =? "ILIKE")%string) eqn:Hlike.
        { exfalso. apply not_true_iff_false in Htext. apply Htext, text_operators_spec.
          apply orb_true_iff in Hlike as [?%String.eqb_eq|?%String.eqb_eq]; tauto. }
        injection Hp as <- <-.
        exists (QCompare field false (ToUpper (value op)) v), [op; v]. split; [done|]. split; [|done]. constructor; [done| |done].
        apply one_of_spec in Hop. apply one_of_spec. apply one_of_false in Htext.
        unfold operators, text_operators in *. rewrite !elem_of_cons in *. naive_solver.
Qed.

(** An operator is none of the keywords before it, and a field none of those that
    open an expression. *)
Lemma operator_no_word w op : op.(quoted) = false → word_bytes "K" w = true →
  (∀ o, one_of o operators = true → o ≠ ToUpper w) → one_of (ToUpper op.(value)) operators = true → is_word w op = false.
Proof.
  intros Hq Hw Hne Hop. apply not_true_iff_false. unfold is_word. rewrite Hq. cbn [negb andb]. intros Hf.
  apply (EqualFold_ToUpper _ _ Hw) in Hf. by eapply Hne.
Qed.

Lemma known_field_no_word w f : word_bytes "KS" w = true → one_of (ToLower w) ["("; "not"; "where"] = true →
  known_field f = true → is_word w f = false.
Proof.
  intros Hw Hl Hf. apply not_true_iff_false. unfold is_word, known_field in *. intros [Hq Hfold]%andb_true_iff. rewrite Hq in Hf.
  apply (EqualFold_ToLower _ _ Hw) in Hfold. cbv zeta in Hf. cbn [andb] in Hf. apply orb_true_iff in Hf as [Hf|Hf].
  - apply one_of_spec in Hl. rewrite !elem_of_cons, elem_of_nil in Hl. rewrite Hfold in Hf.
    destruct Hl as [Hl|[Hl|[Hl|[]]]]; rewrite Hl in Hf; discriminate Hf.
  - apply full_match_spec in Hf. unfold fieldPattern in Hf. cbn [RSeq] in Hf. apply cat_matches in Hf as (s1 & s2 & Hs & H1 & _).
    apply lit_matches in H1 as ->. rewrite Hs in Hfold. apply one_of_spec in Hl. rewrite <-Hfold, !elem_of_cons, elem_of_nil in Hl.
    rewrite string_app_cons, ToLower_cons in Hl by done. destruct Hl as [Hl|[Hl|[Hl|[]]]]; discriminate Hl.
Qed.

Lemma comparison_operator field negate no op v rest : optional "NOT" negate no → op.(quoted) = false →
  one_of (ToUpper op.(value)) operators = true → (negate = true → one_of (ToUpper op.(value)) text_operators = true) → a_value v = true →
  comparison field ((no ++ [op; v]) ++ rest) =
  Ok (if (ToUpper op.(value) =? "LIKE")%string || (ToUpper op.(value) =? "ILIKE")%string
      then likes field negate (ToUpper op.(value) =? "ILIKE")%string v.(value) else compares field negate (ToUpper op.(value)) v, rest).
Proof.
  intros Hno Hq Hop Hneg Hv. rewrite <-app_assoc. cbn [app]. unfold comparison.
  assert (∀ w, one_of w ["IS"; "NOT"; "IN"] = true → is_word w op = false) as Hw.
  { intros w Hw. apply operator_no_word; [done| | |done]; apply one_of_spec in Hw; rewrite !elem_of_cons, elem_of_nil in Hw;
      destruct Hw as [->|[->|[->|[]]]]; try done; intros o Ho ->; discriminate Ho. }
  assert (take_token "IS" (no ++ op :: v :: rest) = (false, no ++ op :: v :: rest)) as ->.
  { destruct Hno as [|t Ht]; apply take_token_no; [by apply Hw|by eapply is_word_other]. }
  rewrite (optional_take _ _ _ op _ Hno) by by apply Hw. rewrite take_token_no by by apply Hw. cbv zeta. rewrite Hq, Hop. cbn [orb negb].
  rewrite fail_when_false by (destruct negate; [by rewrite Hneg|done]). cbn [mbind result_bind].
  by rewrite (proj2 (next_value_Ok (v :: rest) v rest)).
Qed.

Lemma comparison_complete field q us rest : spells_comparison field q us →
  ∃ p, comparison field (us ++ rest) = Ok (p, rest) ∧ reads p q.
Proof.
  intros [negate no i n Hi Hno Hn|negate no i o v vs ts c Hno Hi Ho Hv Hvs Hlen Hc|negate no op v Hno Hq Hop Hv|
    negate no op v Hno Hq Hop Hv|negate no op v Hno Hq Hop Hv|op v Hq Hop Hv].
  - exists (is_null field negate). split; [|done]. unfold comparison. cbn [app]. rewrite take_token_yes by done.
    rewrite <-app_assoc. cbn [app]. rewrite (optional_take _ _ _ n _ Hno) by by eapply is_word_other. by rewrite take_token_yes.
  - exists (in_values field negate (v :: vs)). split; [|done]. unfold comparison. rewrite <-app_assoc. cbn [app]. rewrite <-app_assoc. cbn [app].
    assert (take_token "IS" (no ++ i :: o :: v :: ts ++ c :: rest) = (false, no ++ i :: o :: v :: ts ++ c :: rest)) as ->.
    { destruct Hno; apply take_token_no; by eapply is_word_other. }
    rewrite (optional_take _ _ _ i _ Hno) by by eapply is_word_other. rewrite !take_token_yes by done.
    by rewrite (in_list_complete vs).
  - eexists. rewrite (comparison_operator _ negate) by (rewrite ?Hop; done). rewrite Hop. done.
  - eexists. rewrite (comparison_operator _ negate) by (rewrite ?Hop; done). rewrite Hop. done.
  - eexists. rewrite (comparison_operator _ negate) by (rewrite ?Hop; done). rewrite Hop. done.
  - eexists. change ([op; v] ++ rest) with (([] ++ [op; v]) ++ rest).
    rewrite (comparison_operator _ false); [| constructor|done| |done|done].
    + split; [done|]. apply one_of_spec in Hop. rewrite !elem_of_cons, elem_of_nil in Hop.
      destruct Hop as [->|[->|[->|[->|[->|[->|[->|[]]]]]]]]; done.
    + apply one_of_spec. apply one_of_spec in Hop. unfold operators. rewrite !elem_of_cons in *. naive_solver.
Qed.

(** ** The loops *)

Definition consumes (p : list token → result (Predicate * list token)) : Prop :=
  ∀ ts d rest, p ts = Ok (d, rest) → (length rest <= length ts)%nat.
Definition sound (p : list token → result (Predicate * list token)) (spells : query → list token → Prop) : Prop :=
  ∀ ts d rest, p ts = Ok (d, rest) → ∃ q us, ts = us ++ rest ∧ spells q us ∧ reads d q.

Lemma sound_consumes p spells : sound p spells → consumes p.
Proof. intros Hp ts d rest (q & us & -> & _)%Hp. rewrite length_app. lia. Qed.

(** Fuel for the tokens left is enough. *)
Lemma and_loop_fuel atom k1 k2 d ts : consumes atom → (length ts <= k1)%nat → (length ts <= k2)%nat →
  and_loop atom k1 d ts = and_loop atom k2 d ts.
Proof.
  intros Ha. revert k2 d ts. induction k1 as [|k1 IH]; intros [|k2] d ts H1 H2; destruct ts as [|t ts]; simpl in H1, H2; try lia; try done.
  cbn [and_loop]. destruct (take_token "AND" (t :: ts)) as [[] ts'] eqn:Ht; [|done].
  apply take_token_true in Ht as (t' & [= -> ->] & _). destruct (atom ts') as [[r ts'']|] eqn:Hr; [|done]. cbn [mbind result_bind].
  apply Ha in Hr. apply IH; lia.
Qed.

Lemma or_loop_fuel atom k1 k2 d ts : consumes (parse_and atom) → (length ts <= k1)%nat → (length ts <= k2)%nat →
  or_loop atom k1 d ts = or_loop atom k2 d ts.
Proof.
  intros Ha. revert k2 d ts. induction k1 as [|k1 IH]; intros [|k2] d ts H1 H2; destruct ts as [|t ts]; simpl in H1, H2; try lia; try done.
  cbn [or_loop]. destruct (take_token "OR" (t :: ts)) as [[] ts'] eqn:Ht; [|done].
  apply take_token_true in Ht as (t' & [= -> ->] & _). destruct (parse_and atom ts') as [[r ts'']|] eqn:Hr; [|done]. cbn [mbind result_bind].
  apply Ha in Hr. apply IH; lia.
Qed.

Section levels.
Context (atom : list token → result (Predicate * list token)) (d : nat).
Hypothesis atom_sound : sound atom (spells_atom d).

Lemma and_loop_sound fuel p0 q0 us0 ts p rest : spells_and d q0 us0 → reads p0 q0 → and_loop atom fuel p0 ts = Ok (p, rest) →
  ∃ q us, ts = us ++ rest ∧ spells_and d q (us0 ++ us) ∧ reads p q.
Proof.
  revert p0 q0 us0 ts. induction fuel as [|fuel IH]; intros p0 q0 us0 ts Hq Hp; cbn [and_loop];
    destruct (take_token "AND" ts) as [[] ts'] eqn:Ht; try done.
  2: apply take_token_true in Ht as (t & -> & Ht); rewrite bind_Ok; intros ([r ts''] & (b & vs & -> & Hb & Hr)%atom_sound & Hl).
  2: apply (IH _ (QAnd q0 b) (us0 ++ t :: vs)) in Hl as (q & us & -> & Hus & Hread); [|by constructor|intros e; simpl; by rewrite Hp, Hr].
  2: exists q, (t :: vs ++ us); simplify_list_eq; done.
  all: intros [= <- <-]; exists q0, []; rewrite app_nil_r; done.
Qed.

Lemma parse_and_sound : sound (parse_and atom) (spells_and d).
Proof.
  intros ts p rest. unfold parse_and. rewrite bind_Ok. intros ([l ts'] & (a & us & -> & Ha & Hl)%atom_sound & Hloop).
  eapply and_loop_sound in Hloop as (q & vs & -> & Hq & Hp); [|by constructor|done]. exists q, (us ++ vs). by rewrite <-app_assoc.
Qed.

Lemma or_loop_sound fuel p0 q0 us0 ts p rest : spells_or d q0 us0 → reads p0 q0 → or_loop atom fuel p0 ts = Ok (p, rest) →
  ∃ q us, ts = us ++ rest ∧ spells_or d q (us0 ++ us) ∧ reads p q.
Proof.
  revert p0 q0 us0 ts. induction fuel as [|fuel IH]; intros p0 q0 us0 ts Hq Hp; cbn [or_loop];
    destruct (take_token "OR" ts) as [[] ts'] eqn:Ht; try done.
  2: apply take_token_true in Ht as (t & -> & Ht); rewrite bind_Ok; intros ([r ts''] & (b & vs & -> & Hb & Hr)%parse_and_sound & Hl).
  2: apply (IH _ (QOr q0 b) (us0 ++ t :: vs)) in Hl as (q & us & -> & Hus & Hread); [|by constructor|intros e; simpl; by rewrite Hp, Hr].
  2: exists q, (t :: vs ++ us); simplify_list_eq; done.
  all: intros [= <- <-]; exists q0, []; rewrite app_nil_r; done.
Qed.

Lemma parse_or_sound : sound (parse_or atom) (spells_or d).
Proof.
  intros ts p rest. unfold parse_or. rewrite bind_Ok. intros ([l ts'] & (a & us & -> & Ha & Hl)%parse_and_sound & Hloop).
  eapply or_loop_sound in Hloop as (q & vs & -> & Hq & Hp); [|by constructor|done]. exists q, (us ++ vs). by rewrite <-app_assoc.
Qed.
End levels.

Lemma parse_atom_sound d : sound (parse_atom d) (spells_atom d).
Proof.
  induction d as [|d IH]; intros ts p rest; cbn [parse_atom]; [done|].
  destruct (take_token "NOT" ts) as [[] ts1] eqn:Hn.
  - apply take_token_true in Hn as (t & -> & Ht). rewrite bind_Ok. intros ([i ts2] & (q & us & -> & Hq & Hi)%IH & [= <- <-]).
    exists (QNot q), (t :: us). split_and!; [done|by constructor|intros e; simpl; by rewrite Hi].
  - apply take_token_false in Hn as [-> _]. destruct (take_token "(" ts) as [[] ts1] eqn:Ho.
    + apply take_token_true in Ho as (o & -> & Ho). rewrite bind_Ok.
      intros ([i ts2] & (q & us & -> & Hq & Hi)%(parse_or_sound _ _ IH) & Hc). destruct (take_token ")" ts2) as [[] ts3] eqn:Hclose; [|done].
      apply take_token_true in Hclose as (c & -> & Hclose). injection Hc as <- <-.
      exists q, (o :: us ++ [c]). split; [cbn [app]; by rewrite <-app_assoc|]. split; [by constructor|done].
    + apply take_token_false in Ho as [-> _]. destruct ts as [|f ts]; [done|]. rewrite bind_unit_Ok, fail_when_Ok, negb_false_iff.
      intros (Hf & (q & us & -> & Hq & Hp)%comparison_sound). exists q, (f :: us). split_and!; [done|by constructor|done].
Qed.

(** ** Completeness

    A loop stops where the next token is not its word. *)

Definition stops (w : string) (rest : list token) : Prop := ∀ t ts, rest = t :: ts → is_word w t = false.

Lemma stops_other w w' t ts : is_word w t = true → bool_decide (fold_rune <$> runes w = fold_rune <$> runes w') = false → stops w' (t :: ts).
Proof. intros Hw Hne ? ? [= <- <-]. by eapply is_word_other. Qed.

Section complete_levels.
Context (atom : list token → result (Predicate * list token)) (d : nat).
Hypothesis atom_sound : sound atom (spells_atom d).
Hypothesis atom_complete : ∀ q us rest, spells_atom d q us → ∃ p, atom (us ++ rest) = Ok (p, rest) ∧ reads p q.

Lemma parse_and_reaches q us rest : spells_and d q us →
  ∃ p, parse_and atom (us ++ rest) = and_loop atom (length rest) p rest ∧ reads p q.
Proof.
  intros Hs. revert rest. remember d as d' eqn:Hd in Hs. induction Hs as [d' q ts Ha|d' a b ts t us _ IH Ht Hb]; intros rest; subst d'.
  - destruct (atom_complete _ _ rest Ha) as (p & Hp & Hr). exists p. split; [|done]. unfold parse_and. by rewrite Hp.
  - destruct (IH eq_refl (t :: us ++ rest)) as (p & Hp & Hr). destruct (atom_complete _ _ rest Hb) as (r & Hrb & Hrr).
    exists (λ e, p e && r e). split; [|intros e; simpl; by rewrite Hr, Hrr].
    rewrite <-app_assoc. cbn [app]. rewrite Hp. cbn [and_loop length]. rewrite take_token_yes by done. rewrite Hrb. cbn [mbind result_bind].
    apply and_loop_fuel; [by eapply sound_consumes|rewrite length_app; lia|done].
Qed.

Lemma parse_and_complete q us rest : spells_and d q us → stops "AND" rest →
  ∃ p, parse_and atom (us ++ rest) = Ok (p, rest) ∧ reads p q.
Proof.
  intros Hs Hstop. destruct (parse_and_reaches _ _ rest Hs) as (p & Hp & Hr). exists p. split; [|done]. rewrite Hp.
  destruct rest as [|t rest]; cbn [and_loop length]; [done|]. by rewrite take_token_no by by eapply Hstop.
Qed.

Lemma parse_or_reaches q us rest : spells_or d q us → stops "AND" rest →
  ∃ p, parse_or atom (us ++ rest) = or_loop atom (length rest) p rest ∧ reads p q.
Proof.
  intros Hs. revert rest. remember d as d' eqn:Hd in Hs. induction Hs as [d' q ts Ha|d' a b ts t us _ IH Ht Hb]; intros rest Hrest; subst d'.
  - destruct (parse_and_complete _ _ rest Ha Hrest) as (p & Hp & Hr). exists p. split; [|done]. unfold parse_or. by rewrite Hp.
  - destruct (IH eq_refl (t :: us ++ rest)) as (p & Hp & Hr); [by eapply stops_other|].
    destruct (parse_and_complete _ _ rest Hb Hrest) as (r & Hrb & Hrr).
    exists (λ e, p e || r e). split; [|intros e; simpl; by rewrite Hr, Hrr].
    rewrite <-app_assoc. cbn [app]. rewrite Hp. cbn [or_loop length]. rewrite take_token_yes by done. rewrite Hrb. cbn [mbind result_bind].
    apply or_loop_fuel; [|rewrite length_app; lia|done]. eapply sound_consumes. by apply parse_and_sound.
Qed.

Lemma parse_or_complete q us rest : spells_or d q us → stops "AND" rest → stops "OR" rest →
  ∃ p, parse_or atom (us ++ rest) = Ok (p, rest) ∧ reads p q.
Proof.
  intros Hs Hand Hor. destruct (parse_or_reaches _ _ rest Hs Hand) as (p & Hp & Hr). exists p. split; [|done]. rewrite Hp.
  destruct rest as [|t rest]; cbn [or_loop length]; [done|]. by rewrite take_token_no by by eapply Hor.
Qed.
End complete_levels.

Lemma parse_atom_complete d q us rest : spells_atom d q us → ∃ p, parse_atom d (us ++ rest) = Ok (p, rest) ∧ reads p q.
Proof.
  revert q us rest. induction d as [|d IH]; intros q us rest Hs; [by inversion Hs|]. inversion Hs as [? t q' ts Ht Hq|? o q' ts c Ho Hq Hc|? f q' ts Hf Hq]; subst.
  - destruct (IH _ _ rest Hq) as (p & Hp & Hr). exists (λ e, negb (p e)). cbn [app parse_atom]. rewrite take_token_yes by done.
    rewrite Hp. split; [done|]. intros e. simpl. by rewrite Hr.
  - cbn [app parse_atom]. rewrite take_token_no by by eapply is_word_other. rewrite take_token_yes by done. rewrite <-app_assoc. cbn [app].
    destruct (parse_or_complete _ d (parse_atom_sound d) IH q ts (c :: rest)) as (p & Hp & Hr); [done|by eapply stops_other..|].
    exists p. rewrite Hp. cbn [mbind result_bind]. by rewrite take_token_yes.
  - destruct (comparison_complete _ _ _ rest Hq) as (p & Hp & Hr). exists p. cbn [app parse_atom].
    rewrite !take_token_no by by apply known_field_no_word. by rewrite fail_when_false by by rewrite Hf.
Qed.

(** An expression does not begin with WHERE. *)
Lemma spells_or_first d q us : spells_or d q us → ∃ t ts, us = t :: ts ∧ is_word "WHERE" t = false.
Proof.
  intros Hs. induction Hs as [d q ts Hs|d a b ts t us _ IH _ _]; [|destruct IH as (t' & ts' & -> & Ht'); by exists t', (ts' ++ t :: us)].
  induction Hs as [d q ts Hs|d a b ts t us _ IH _ _]; [|destruct IH as (t' & ts' & -> & Ht'); by exists t', (ts' ++ t :: us)].
  destruct Hs as [d t q ts Ht _|d o q ts c Ho _ _|d f q ts Hf _]; eexists _, _; split; try done; [by eapply is_word_other..|].
  by apply known_field_no_word.
Qed.

(** * Rendering tokens *)

Fixpoint double_quotes (s : string) : string :=
  match s with
  | EmptyString => EmptyString
  | String a s' => if Ascii.eqb a squote then String a (String a (double_quotes s')) else String a (double_quotes s')
  end.

Definition render_token (t : token) : string :=
  if t.(quoted) then String squote (double_quotes t.(value) +:+ String squote EmptyString) else t.(value).

Fixpoint render (ts : list token) : string :=
  match ts with [] => EmptyString | t :: ts' => render_token t +:+ " " +:+ render ts' end.

Definition symbols : list string := ["("; ")"; "="; "<"; ">"; "!"; ","; "<="; ">="; "!="; "<>"].
Definition token_ok (t : token) : bool :=
  t.(quoted) || one_of t.(value) symbols || negb (is_empty t.(value)) && all_bytes word_byte t.(value).

Lemma read_quoted_length c s v rest : read_quoted c s = Some (v, rest) → (String.length rest < String.length s)%nat.
Proof.
  revert s v rest. fix IH 1. intros [|a s] v rest; cbn [read_quoted]; [done|]. destruct (Ascii.eqb a c).
  - destruct s as [|b s]; [intros [= <- <-]; simpl; lia|]. destruct (Ascii.eqb b c); [|intros [= <- <-]; simpl; lia].
    destruct (read_quoted c s) as [[w r]|] eqn:Hr; [|done]. intros [= <- <-]. apply IH in Hr. simpl. lia.
  - destruct (read_quoted c s) as [[w r]|] eqn:Hr; [|done]. intros [= <- <-]. apply IH in Hr. simpl. lia.
Qed.

Lemma read_word_spec s v rest : read_word s = (v, rest) → s = v +:+ rest ∧ all_bytes word_byte v = true.
Proof.
  revert v rest. induction s as [|c s IH]; intros v rest; cbn [read_word]; [by intros [= <- <-]|].
  destruct (word_byte c) eqn:Hc; [|by intros [= <- <-]]. destruct (read_word s) as [w r] eqn:Hw. intros [= <- <-].
  destruct (IH w r eq_refl) as [-> Hall]. split; [done|]. simpl. by rewrite Hc.
Qed.

Lemma read_word_app v s : all_bytes word_byte v = true → (∀ c s', s = String c s' → word_byte c = false) → read_word (v +:+ s) = (v, s).
Proof.
  intros Hv Hs. induction v as [|c v IH].
  - destruct s as [|c s]; [done|]. change (EmptyString +:+ String c s) with (String c s). cbn [read_word]. by rewrite (Hs c s).
  - cbn [all_bytes] in Hv. apply andb_true_iff in Hv as [Hc Hv]. rewrite string_app_cons. cbn [read_word]. by rewrite Hc, IH.
Qed.

Lemma read_token_Ok c s t rest : space_byte c = false → read_token c s = Ok (t, rest) →
  token_ok t = true ∧ (String.length rest <= String.length s)%nat.
Proof.
  intros Hsp. unfold read_token. destruct (_ || _) eqn:Hq.
  - destruct (read_quoted c s) as [[v r]|] eqn:Hr; [|done]. intros [= <- <-]. apply read_quoted_length in Hr. split; [done|lia].
  - destruct (has_byte c punctuation) eqn:Hp.
    + unfold read_punctuation. assert (one_of (String c EmptyString) symbols = true) as Hone.
      { clear -Hp. apply one_of_spec. unfold punctuation in Hp. cbn [has_byte] in Hp. unfold symbols.
        repeat (apply orb_true_iff in Hp as [<-%Ascii.eqb_eq|Hp]; [set_solver|]). done. }
      destruct s as [|d s]; [intros [= <- <-]; unfold token_ok; cbn [quoted value orb]; by rewrite Hone|].
      destruct (has_byte c "<>!" && Ascii.eqb d "=" || Ascii.eqb c "<" && Ascii.eqb d ">") eqn:Hd.
      * intros [= <- <-]. split; [|simpl; lia]. unfold token_ok. cbn [quoted value orb]. rewrite orb_true_iff. left.
        clear -Hd. apply one_of_spec. unfold symbols. apply orb_true_iff in Hd as [[Hc ->%Ascii.eqb_eq]%andb_true_iff|[->%Ascii.eqb_eq ->%Ascii.eqb_eq]%andb_true_iff]; [|set_solver].
        cbn [has_byte] in Hc. repeat (apply orb_true_iff in Hc as [<-%Ascii.eqb_eq|Hc]; [set_solver|]). done.
      * intros [= <- <-]. split; [|done]. unfold token_ok. cbn [quoted value orb]. by rewrite Hone.
    + apply orb_false_iff in Hq as [Hq1 Hq2]. assert (word_byte c = true) as Hw by (unfold word_byte; by rewrite Hsp, Hp, Hq1, Hq2).
      cbn [read_word]. rewrite Hw. destruct (read_word s) as [v r] eqn:Hr. cbn [is_empty]. rewrite bind_unit_Ok. intros [_ [= <- <-]].
      apply read_word_spec in Hr as [-> Hv]. split; [|rewrite string_length_app; lia]. unfold token_ok. cbn [quoted value orb].
      apply orb_true_iff. right. simpl. by rewrite Hw, Hv.
Qed.

Lemma tokenize_loop_fuel k1 k2 out s : (String.length s <= k1)%nat → (String.length s <= k2)%nat → tokenize_loop k1 out s = tokenize_loop k2 out s.
Proof.
  revert k2 out s. induction k1 as [|k1 IH]; intros [|k2] out [|c s] H1 H2; simpl in H1, H2; try lia; try done.
  cbn [tokenize_loop]. destruct (space_byte c) eqn:Hsp; [apply IH; lia|].
  destruct (fail_when _ _) as [[]|]; [|done]. cbn [mbind result_bind]. destruct (read_token c s) as [[t rest]|] eqn:Hr; [|done].
  apply read_token_Ok in Hr as [_ Hr]; [|done]. cbn [mbind result_bind]. apply IH; lia.
Qed.

Lemma tokenize_loop_sound fuel out s ts : tokenize_loop fuel out s = Ok ts → Forall (λ t, token_ok t = true) out → lenl out <= 128 →
  Forall (λ t, token_ok t = true) ts ∧ lenl ts <= 128.
Proof.
  revert out s. induction fuel as [|fuel IH]; intros out [|c s]; cbn [tokenize_loop]; try (by intros [= <-]).
  destruct (space_byte c) eqn:Hsp; [by apply IH|]. rewrite bind_unit_Ok, fail_when_Ok, bind_Ok.
  intros (Hlen%Z.leb_gt & [t rest] & Ht & Hl) Hout _. apply read_token_Ok in Ht as [Ht _]; [|done]. eapply IH; [done| |].
  - apply Forall_app. split; [done|by apply Forall_singleton].
  - unfold lenl in *. rewrite length_app. simpl. lia.
Qed.

Lemma read_quoted_render v s : (∀ c s', s = String c s' → c ≠ squote) →
  read_quoted squote (double_quotes v +:+ String squote s) = Some (v, s).
Proof.
  intros Hs. induction v as [|a v IH].
  - destruct s as [|b s]; [done|]. change (read_quoted squote (String squote (String b s)) = Some (EmptyString, String b s)).
    cbn [read_quoted]. rewrite Ascii.eqb_refl. destruct (Ascii.eqb_spec b squote) as [->|]; [|done]. by specialize (Hs _ _ eq_refl).
  - cbn [double_quotes]. destruct (Ascii.eqb_spec a squote) as [->|Ha]; rewrite !string_app_cons; cbn [read_quoted].
    + rewrite Ascii.eqb_refl, IH. done.
    + rewrite (proj2 (Ascii.eqb_neq _ _) Ha), IH. done.
Qed.

Lemma word_byte_false c : word_byte c = true → space_byte c = false ∧ has_byte c punctuation = false ∧ Ascii.eqb c dquote = false ∧ Ascii.eqb c squote = false.
Proof. unfold word_byte. intros H0. split_orb. done. Qed.

Lemma read_token_render t s : token_ok t = true →
  ∃ c s', render_token t +:+ String " " s = String c s' ∧ space_byte c = false ∧ read_token c s' = Ok (t, String " " s).
Proof.
  destruct t as [v []]; unfold token_ok, render_token; cbn [value quoted orb].
  - intros _. exists squote, (double_quotes v +:+ String squote (String " " s)). split_and!; [|done|].
    + by rewrite string_app_cons, <-string_app_assoc.
    + unfold read_token. cbn [Ascii.eqb squote dquote]. rewrite read_quoted_render; [done|]. by intros ? ? [= <- _].
  - rewrite orb_true_iff. intros [Hs|[Hne Hw]%andb_true_iff].
    + apply one_of_spec in Hs. unfold symbols in Hs. rewrite !elem_of_cons, elem_of_nil in Hs.
      repeat (destruct Hs as [->|Hs]; [eexists _, _; split_and!; reflexivity|]). done.
    + destruct v as [|c v]; [done|]. cbn [all_bytes] in Hw. apply andb_true_iff in Hw as [Hc Hw].
      exists c, (v +:+ String " " s). destruct (word_byte_false c Hc) as (Hsp & Hp & Hd & Hq). split_and!; [done|done|].
      unfold read_token. rewrite Hq, Hd, Hp. cbn [orb]. cbn [read_word]. rewrite Hc, read_word_app; [done|done|].
      by intros ? ? [= <- _].
Qed.

Lemma tokenize_loop_render ts k out : Forall (λ t, token_ok t = true) ts → lenl out + lenl ts <= 128 →
  (String.length (render ts) <= k)%nat → tokenize_loop k out (render ts) = Ok (out ++ ts).
Proof.
  intros Hts. revert k out. induction Hts as [|t ts Ht _ IH]; intros k out Hlen Hk.
  - rewrite app_nil_r. by destruct k.
  - cbn [render] in *. change (" " +:+ render ts) with (String " " (render ts)) in *.
    destruct (read_token_render t (render ts) Ht) as (c & s' & Hs & Hsp & Hr). rewrite Hs in *.
    pose proof (proj2 (read_token_Ok _ _ _ _ Hsp Hr)) as Hle. destruct k as [|k]; simpl in Hk; [lia|].
    unfold lenl in *. simpl length in Hlen. cbn [tokenize_loop]. rewrite Hsp, fail_when_false by (apply Z.leb_gt; unfold lenl; lia).
    cbn [mbind result_bind]. rewrite Hr. cbn [mbind result_bind]. simpl String.length in Hle.
    destruct k as [|k]; [lia|]. cbn [tokenize_loop]. change (space_byte " ") with true. cbv iota.
    rewrite IH; [by rewrite <-app_assoc| |lia]. rewrite length_app. simpl. lia.
Qed.

(** The tokens a query can be split into are at most 128
    quoted values, operators and words; writing such tokens out, quotes doubled,
    and splitting the text again returns them. *)
Theorem tokenize_render ts : (∃ input, tokenize input = Ok ts) ↔
  (lenl ts <= 128 ∧ Forall (λ t, token_ok t = true) ts ∧ tokenize (render ts) = Ok ts).
Proof.
  split; [|intros (_ & _ & Hr); eauto]. intros [input Hi]. unfold tokenize in Hi.
  apply tokenize_loop_sound in Hi as [Hok Hlen]; [|constructor|by vm_compute]. split_and!; [done|done|].
  by apply (tokenize_loop_render ts _ []).
Qed.

(** C35: [Compile] decides the grammar of queries, and the predicate it returns is the
    meaning of the query spelled: it accepts exactly the texts within the limits
    whose tokens spell one, with OR binding less than AND, and AND less than NOT,
    nested at most 12 levels. *)
Theorem Compile_grammar input :
  (∀ p, Compile input = Ok p → len input <= 4096 ∧ ∃ ts, tokenize input = Ok ts ∧
    ((ts = [] ∧ ∀ e, p e = true) ∨ ∃ q, asks q ts ∧ ∀ e, p e = denote q e)) ∧
  (∀ ts q, len input <= 4096 → tokenize input = Ok ts → asks q ts → ∃ p, Compile input = Ok p ∧ ∀ e, p e = denote q e).
Proof.
  unfold Compile. split.
  - intros p. rewrite bind_unit_Ok, fail_when_Ok, bind_Ok. intros (Hlen%Z.ltb_ge & ts & Hts & Hp). split; [done|]. exists ts. split; [done|].
    destruct ts as [|t ts]; [left; by injection Hp as <-|right]. cbn [non_empty] in Hp.
    destruct (take_token "WHERE" (t :: ts)) as [w ts1] eqn:Hw. apply take_optional in Hw as (us & Hus & Hw).
    apply bind_Ok in Hp as ([f ts2] & Hf & Hend). destruct ts2; [|done]. injection Hend as <-.
    apply (parse_or_sound _ _ (parse_atom_sound max_depth)) in Hf as (q & es & -> & Hq & Hr). rewrite app_nil_r in Hus.
    exists q. split; [|done]. exists w, us. eauto.
  - intros ts q Hlen Hts (w & us & Hw & es & -> & Hq). rewrite fail_when_false by by apply Z.ltb_ge. cbn [mbind result_bind]. rewrite Hts.
    cbn [mbind result_bind]. destruct (spells_or_first _ _ _ Hq) as (t & es' & -> & Ht).
    rewrite (optional_take _ _ _ _ _ Hw Ht). destruct (us ++ t :: es') eqn:Hus; [by destruct us|]. cbn [non_empty].
    destruct (parse_or_complete _ _ (parse_atom_sound max_depth) (parse_atom_complete max_depth) q (t :: es') []) as (p & Hp & Hr); [done|by intros ? ?..|].
    rewrite app_nil_r in Hp. rewrite Hp. by exists p.
Qed.
(** * LIKE *)

(** A text is made of what the items of a pattern stand for, one after the other. *)
Inductive covers (fold : bool) : list item → list Z → Prop :=
  | covers_nil : covers fold [] []
  | covers_run items run text : covers fold items text → covers fold (AnyRun :: items) (run ++ text)
  | covers_one items c text : covers fold items text → covers fold (AnyOne :: items) (c :: text)
  | covers_just items r c text : same_rune fold r c = true → covers fold items text → covers fold (Just r :: items) (c :: text).

Lemma match_items_run fold items text : match_items fold (AnyRun :: items) text =
  match_items fold items text || match text with _ :: text' => match_items fold (AnyRun :: items) text' | [] => false end.
Proof. by destruct text. Qed.

Lemma match_items_covers fold items text : match_items fold items text = true ↔ covers fold items text.
Proof.
  revert text. induction items as [|[| |r] items IH]; intros text.
  - destruct text; simpl; split; try done; [constructor|by inversion 1].
  - induction text as [|c text IHt]; rewrite match_items_run, orb_true_iff, IH.
    + split; [intros [Hm|Hm]; [by apply (covers_run _ _ [])|done]|]. inversion 1 as [|? run text Hc Hi Ht| |]; subst.
      apply app_eq_nil in Ht as [-> ->]. by left.
    + rewrite IHt. split.
      * intros [Hm|Hm]; [by apply (covers_run _ _ [])|]. inversion Hm as [|? run text' Hc| |]; subst. by apply (covers_run _ _ (c :: run)).
      * inversion 1 as [|? [|c' run] text' Hc Hi Ht| |]; subst; simplify_eq/=; [by left|]. right. by constructor.
  - destruct text as [|c text]; simpl; [split; [done|by inversion 1]|]. rewrite IH. split; [by constructor|by inversion 1].
  - destruct text as [|c text]; simpl; [split; [done|by inversion 1]|]. rewrite andb_true_iff, IH. split; [intros [? ?]; by constructor|by inversion 1].
Qed.

Lemma like_covers fold pattern text : like fold pattern text = true ↔ covers fold (like_items pattern) (runes text).
Proof. apply match_items_covers. Qed.
End grammar.
