(* ===== verification/AgentAccess.v ===== *)
(** Agent access policies (internal/agentaccess): the wildcard matcher of
    conditions, documents and their validation (document.go, engine.go), the
    evaluation of a request against the published policies, and the digest an
    approval is bound to. *)
From S2P Require Import Prelude GoStd.
#[global] Open Scope Z_scope.

(** * Wildcards

    [MatchPattern] walks the two strings with two indices and remembers the last
    star. [w_star = None] stands for [star = -1]. *)

Definition bytes (s : string) : list ascii := String.list_ascii_of_string s.

Record walk : Type := mkWalk { w_p : nat; w_v : nat; w_star : option nat; w_mark : nat }.

Definition star_byte : ascii := "*".

Section pattern.
Context (pattern value : list ascii).

(** The default branches: back to the last star, or fail. *)
Definition walk_back (w : walk) : walk + bool :=
  match w.(w_star) with
  | Some st => inl (mkWalk (S st) (S w.(w_mark)) w.(w_star) (S w.(w_mark)))
  | None => inr false
  end.

(** One iteration of the first loop, or the result after the second. *)
Definition walk_step (w : walk) : walk + bool :=
  match value !! w.(w_v) with
  | None => inr (forallb (Ascii.eqb star_byte) (drop w.(w_p) pattern))
  | Some b =>
      match pattern !! w.(w_p) with
      | Some a =>
          if Ascii.eqb a star_byte then inl (mkWalk (S w.(w_p)) w.(w_v) (Some w.(w_p)) w.(w_v))
          else if Ascii.eqb a b then inl (mkWalk (S w.(w_p)) (S w.(w_v)) w.(w_star) w.(w_mark))
          else walk_back w
      | None => walk_back w
      end
  end.

Fixpoint walk_loop (fuel : nat) (w : walk) : option bool :=
  match fuel with
  | O => None
  | S fuel => match walk_step w with inl w => walk_loop fuel w | inr b => Some b end
  end.

Definition walk_start : walk := mkWalk 0 0 None 0.
Definition walk_fuel : nat := S ((S (length value)) * (S (length pattern)) + length pattern).
End pattern.

Definition MatchPattern (pattern value : string) : bool :=
  default false (walk_loop (bytes pattern) (bytes value) (walk_fuel (bytes pattern) (bytes value)) walk_start).

(** ** The declarative meaning *)

Inductive glob : list ascii → list ascii → Prop :=
  | glob_nil : glob [] []
  | glob_lit c p s : c ≠ star_byte → glob p s → glob (c :: p) (c :: s)
  | glob_star p s t : glob p t → glob (star_byte :: p) (s ++ t).

Lemma glob_star_iff p s : glob (star_byte :: p) s ↔ ∃ n, (n ≤ length s)%nat ∧ glob p (drop n s).
Proof.
  split.
  - inversion 1 as [|c q t Hc|q t u Hu]; subst; [done|]. exists (length t). rewrite length_app, drop_app_length.
    split; [lia|done].
  - intros (n & _ & Hg). rewrite <-(take_drop n s). by constructor.
Qed.

Lemma glob_lit_iff c p s : c ≠ star_byte → glob (c :: p) s ↔ ∃ t, s = c :: t ∧ glob p t.
Proof. intros Hc. split; [inversion 1; subst; eauto; done|]. intros (t & -> & ?). by constructor. Qed.

Lemma glob_nil_iff s : glob [] s ↔ s = [].
Proof. split; [by inversion 1|intros ->; constructor]. Qed.

(** Literal text followed by a pattern. *)
Lemma glob_lits lits p s : (star_byte ∉ lits) → glob (lits ++ p) s ↔ ∃ t, s = lits ++ t ∧ glob p t.
Proof.
  revert s. induction lits as [|c lits IH]; intros s Hl.
  - split; [by exists s|by intros (t & -> & ?)].
  - apply not_elem_of_cons in Hl as [Hc Hl]. rewrite <-app_comm_cons, glob_lit_iff by done. split.
    + intros (t & -> & Hg). apply IH in Hg as (u & -> & ?); [|done]. by exists u.
    + intros (t & -> & Hg). exists (lits ++ t). split; [done|]. apply IH; eauto.
Qed.

Lemma glob_stars p : forallb (Ascii.eqb star_byte) p = true ↔ glob p [].
Proof.
  induction p as [|c p IH]; [split; [constructor|done]|]. cbn [forallb]. rewrite andb_true_iff, Ascii.eqb_eq, IH. split.
  - intros [<- Hg]. apply glob_star_iff. by exists 0%nat.
  - intros Hg. destruct (decide (c = star_byte)) as [->|Hc].
    + apply glob_star_iff in Hg as (n & _ & Hg). by rewrite drop_nil in Hg.
    + apply glob_lit_iff in Hg as (t & ? & _); done.
Qed.

(** A leading star absorbs a prefix. *)
Lemma glob_star_suffix p s n : glob (star_byte :: p) (drop n s) → glob (star_byte :: p) s.
Proof.
  rewrite !glob_star_iff. intros (k & Hk & Hg). rewrite drop_drop in Hg. exists (min (n + k) (length s)).
  split; [lia|]. destruct (decide (n + k ≤ length s)%nat); [by rewrite Nat.min_l|].
  rewrite Nat.min_r by lia. rewrite (drop_ge s (n + k)) in Hg by lia. by rewrite drop_ge.
Qed.

(** ** The walk decides it *)

Section walk_facts.
Context (P V : list ascii).

(** What the walk still has to decide: from the start, or, after a star at
    [st] whose literal text from [st+1] to [p] equals the value from [mark]
    to [v], from that star. *)
Definition walk_inv (w : walk) : Prop :=
  (w.(w_p) ≤ length P)%nat ∧ (w.(w_v) ≤ length V)%nat ∧
  match w.(w_star) with
  | None => glob P V ↔ glob (drop w.(w_p) P) (drop w.(w_v) V)
  | Some st =>
      ∃ lits, (star_byte ∉ lits) ∧ drop st P = star_byte :: lits ++ drop w.(w_p) P ∧
        drop w.(w_mark) V = lits ++ drop w.(w_v) V ∧ w.(w_p) = (st + 1 + length lits)%nat ∧
        w.(w_v) = (w.(w_mark) + length lits)%nat ∧
        (glob P V ↔ glob (drop st P) (drop w.(w_mark) V))
  end.

Definition walk_measure (w : walk) : nat :=
  (S (length V) - match w.(w_star) with Some _ => w.(w_mark) | None => 0 end) * S (length P) + (length P - w.(w_p)).

Lemma drop_lookup (l : list ascii) n a : l !! n = Some a → drop n l = a :: drop (S n) l.
Proof. intros Hl. by apply drop_S. Qed.

Lemma walk_start_inv : walk_inv walk_start.
Proof. split_and!; simpl; [lia|lia|done]. Qed.

Lemma step_star w b : walk_inv w → V !! w.(w_v) = Some b → P !! w.(w_p) = Some star_byte →
  walk_inv (mkWalk (S w.(w_p)) w.(w_v) (Some w.(w_p)) w.(w_v)).
Proof.
  intros (Hp & Hv & Hstar) Hb Ha. pose proof (lookup_lt_Some _ _ _ Ha). unfold walk_inv. simpl.
  split_and!; [lia|done|]. exists []. rewrite (drop_lookup _ _ _ Ha). simpl.
  split_and!; [apply not_elem_of_nil|done|done|lia|lia|].
  destruct (w_star w) as [st|].
  - destruct Hstar as (lits & Hl & Hd & Hm & Ep & Ev & ->). rewrite Hd, (drop_lookup _ _ _ Ha), Hm.
    rewrite glob_star_iff. split.
    + intros (n & Hn & (t & Ht & Hg)%glob_lits); [|done]. 
      apply (glob_star_suffix _ _ n). 
      assert (t = drop n (drop (w_v w) V)) as <-; [|done].
      apply (f_equal (drop (length lits))) in Ht. rewrite drop_app_length in Ht. rewrite <-Ht.
      rewrite drop_drop, Nat.add_comm, <-drop_drop. by rewrite drop_app_length.
    + intros Hg. exists 0%nat. split; [lia|]. rewrite drop_0. apply glob_lits; [done|]. eauto.
  - rewrite Hstar. by rewrite (drop_lookup _ _ _ Ha).
Qed.

Lemma step_equal w a : walk_inv w → V !! w.(w_v) = Some a → P !! w.(w_p) = Some a → a ≠ star_byte →
  walk_inv (mkWalk (S w.(w_p)) (S w.(w_v)) w.(w_star) w.(w_mark)).
Proof.
  intros (Hp & Hv & Hstar) Hb Ha Hne. pose proof (lookup_lt_Some _ _ _ Ha). pose proof (lookup_lt_Some _ _ _ Hb).
  unfold walk_inv. simpl. split_and!; [lia|lia|].
  destruct (w_star w) as [st|].
  - destruct Hstar as (lits & Hl & Hd & Hm & Ep & Ev & Hg). exists (lits ++ [a]).
    rewrite (drop_lookup _ _ _ Ha) in Hd. rewrite (drop_lookup _ _ _ Hb) in Hm.
    rewrite <-!app_assoc. split_and!; [|done|done|rewrite length_app; simpl; lia|rewrite length_app; simpl; lia|done].
    rewrite elem_of_app, list_elem_of_singleton. intros [|]; congruence.
  - rewrite Hstar, (drop_lookup _ _ _ Ha), (drop_lookup _ _ _ Hb), glob_lit_iff by done.
    split; [by intros (t & [= ->] & ?)|eauto].
Qed.

(** The pattern cannot consume the byte at [v] where it stands. *)
Definition stuck (w : walk) (b : ascii) : Prop :=
  match P !! w.(w_p) with Some a => a ≠ star_byte ∧ a ≠ b | None => True end.

Lemma stuck_fails w b : stuck w b → V !! w.(w_v) = Some b → ¬ glob (drop w.(w_p) P) (drop w.(w_v) V).
Proof.
  unfold stuck. intros Hs Hb Hg. rewrite (drop_lookup _ _ _ Hb) in Hg.
  destruct (P !! w_p w) as [a|] eqn:Ha.
  - destruct Hs as [Hne Hab]. rewrite (drop_lookup _ _ _ Ha) in Hg.
    apply glob_lit_iff in Hg as (t & [= ->] & _); done.
  - apply lookup_ge_None in Ha. rewrite drop_ge in Hg by lia. by apply glob_nil_iff in Hg.
Qed.

Lemma step_back w b st : walk_inv w → V !! w.(w_v) = Some b → stuck w b → w.(w_star) = Some st →
  walk_inv (mkWalk (S st) (S w.(w_mark)) w.(w_star) (S w.(w_mark))).
Proof.
  intros (Hp & Hv & Hstar) Hb Hs Hst. pose proof (stuck_fails _ _ Hs Hb) as Hno. pose proof (lookup_lt_Some _ _ _ Hb).
  rewrite Hst in Hstar. destruct Hstar as (lits & Hl & Hd & Hm & Ep & Ev & Hg).
  unfold walk_inv. simpl. rewrite Hst. split_and!; [lia|lia|]. exists [].
  assert (drop (S st) P = lits ++ drop (w_p w) P) as Hd1.
  { replace (S st) with (st + 1)%nat by lia. by rewrite <-drop_drop, Hd. }
  rewrite Hd, Hd1. simpl. split_and!; [apply not_elem_of_nil|done|done|lia|lia|].
  rewrite Hg, Hd, Hm. rewrite !glob_star_iff.
  assert (drop (S (w_mark w)) V = drop 1 (lits ++ drop (w_v w) V)) as Hm1.
  { rewrite <-Hm, drop_drop. f_equal. lia. }
  split.
  - intros ([|n] & Hn & Hgn).
    + rewrite drop_0 in Hgn. apply glob_lits in Hgn as (t & Ht & Hgt); [|done].
      apply app_inv_head in Ht as <-. done.
    + exists n. rewrite Hm1, drop_drop, length_drop. split; [lia|]. by replace (1 + n)%nat with (S n) by lia.
  - intros (n & Hn & Hgn). rewrite Hm1, length_drop in Hn. rewrite Hm1, drop_drop in Hgn. 
    destruct (decide (length (lits ++ drop (w_v w) V) = 0)%nat) as [Hz|Hz].
    + exists 0%nat. split; [lia|]. rewrite (nil_length_inv _ Hz) in *. by rewrite drop_nil in *.
    + exists (S n). split; [lia|]. by replace (1 + n)%nat with (S n) in Hgn by lia.
Qed.

Lemma step_done w : walk_inv w → V !! w.(w_v) = None →
  forallb (Ascii.eqb star_byte) (drop w.(w_p) P) = true ↔ glob P V.
Proof.
  intros (Hp & Hv & Hstar) Hend%lookup_ge_None. rewrite glob_stars.
  assert (drop (w_v w) V = []) as Hnil by (apply drop_ge; lia).
  destruct (w_star w) as [st|]; [|by rewrite Hstar, Hnil].
  destruct Hstar as (lits & Hl & Hd & Hm & Ep & Ev & ->). rewrite Hd, Hm, Hnil, app_nil_r, glob_star_iff. split.
  - intros Hg. exists 0%nat. split; [lia|]. rewrite drop_0. apply glob_lits; [done|]. exists []. by rewrite app_nil_r.
  - intros (n & Hn & Hgn). apply glob_lits in Hgn as (t & Ht & Hgt); [|done].
    apply (f_equal length) in Ht. rewrite length_drop, length_app in Ht.
    assert (t = []) as -> by (apply nil_length_inv; lia). done.
Qed.

Lemma walk_back_spec w b : walk_inv w → V !! w.(w_v) = Some b → stuck w b →
  match walk_back w with
  | inl w' => walk_inv w' ∧ (walk_measure w' < walk_measure w)%nat
  | inr r => r = true ↔ glob P V
  end.
Proof.
  intros Hw Hb Hs. unfold walk_back. destruct (w_star w) as [st|] eqn:Hst.
  - rewrite <-Hst. split; [by eapply step_back|].
    destruct Hw as (Hp & Hv & Hstar). rewrite Hst in Hstar. destruct Hstar as (lits & _ & Hd & _ & Ep & Ev & _).
    pose proof (lookup_lt_Some _ _ _ Hb). unfold walk_measure. simpl. rewrite Hst.
    replace (S (length V) - w_mark w)%nat with (S (length V - w_mark w)) by lia. 
    replace (length V - w_mark w)%nat with (S (length V - S (w_mark w))) by lia. nia.
  - split; [done|]. intros Hg. exfalso. apply (stuck_fails _ _ Hs Hb).
    destruct Hw as (_ & _ & Hstar). rewrite Hst in Hstar. by apply Hstar.
Qed.

Lemma walk_step_spec w : walk_inv w →
  match walk_step P V w with
  | inl w' => walk_inv w' ∧ (walk_measure w' < walk_measure w)%nat
  | inr r => r = true ↔ glob P V
  end.
Proof.
  intros Hw. unfold walk_step. destruct (V !! w_v w) as [b|] eqn:Hb; [|by apply step_done].
  destruct (P !! w_p w) as [a|] eqn:Ha; [|apply (walk_back_spec w b Hw Hb); unfold stuck; by rewrite Ha].
  pose proof Hw as (Hp & Hv & Hstar). pose proof (lookup_lt_Some _ _ _ Ha). pose proof (lookup_lt_Some _ _ _ Hb).
  destruct (Ascii.eqb_spec a star_byte) as [->|Hne]; [|destruct (Ascii.eqb_spec a b) as [->|Hab]].
  - split; [by eapply step_star|]. unfold walk_measure. simpl. destruct (w_star w) as [st|]; [|nia].
    destruct Hstar as (lits & _ & _ & _ & _ & Ev & _). nia.
  - split; [by eapply step_equal|]. unfold walk_measure. simpl. destruct (w_star w); lia.
  - apply (walk_back_spec w b Hw Hb). unfold stuck. by rewrite Ha.
Qed.

(** The loop ends within its measure, with the right answer. *)
Lemma walk_loop_spec fuel : ∀ w, walk_inv w → (walk_measure w < fuel)%nat →
  ∃ r, walk_loop P V fuel w = Some r ∧ (r = true ↔ glob P V).
Proof.
  induction fuel as [|fuel IH]; intros w Hw Hm; [lia|]. simpl. pose proof (walk_step_spec w Hw) as Hs.
  destruct (walk_step P V w) as [w'|r]; [|by exists r]. destruct Hs as [Hw' Hlt]. apply IH; [done|lia].
Qed.

Lemma walk_total : ∃ r, walk_loop P V (walk_fuel P V) walk_start = Some r ∧ (r = true ↔ glob P V).
Proof. apply walk_loop_spec; [apply walk_start_inv|]. unfold walk_measure, walk_fuel. simpl. lia. Qed.
End walk_facts.

Lemma MatchPattern_spec pattern value : MatchPattern pattern value = true ↔ glob (bytes pattern) (bytes value).
Proof. unfold MatchPattern. destruct (walk_total (bytes pattern) (bytes value)) as (r & -> & Hr). done. Qed.

(** * Documents *)

Definition SchemaVersion : Z := 1.
Definition FieldTeam : string := "team".
Definition FieldKey : string := "key".
Definition FieldCategory : string := "category".
Definition FieldOperation : string := "operation".
Definition FieldProject : string := "project".
Definition FieldEnvironment : string := "environment".
Definition OpIsAnyOf : string := "is_any_of".
Definition OpIsNoneOf : string := "is_none_of".
Definition OpMatches : string := "matches".
Definition EffectBlock : string := "block".
Definition EffectRequireApproval : string := "require_approval".
Definition ApproverProjectAdmins : string := "project_admins".
Definition ApproverTeam : string := "team".
Definition ApproverIdentity : string := "identity".
Definition StatusEnforced : string := "enforced".
Definition StatusMonitor : string := "monitor".
Definition DecisionAllow : string := "allow".
Definition DecisionBlock : string := "block".
Definition DecisionRequireApproval : string := "require_approval".
Definition DecisionException : string := "exception".
Definition DecisionMonitorBlock : string := "monitor_block".
Definition DecisionMonitorApproval : string := "monitor_approval".
Definition MaxConditions : Z := 8.
Definition MaxValues : Z := 16.
Definition MaxValueLength : Z := 128.
Definition MaxApprovers : Z := 8.
Definition MaxDescriptionLength : Z := 200.
Definition MinApprovalTTLSeconds : Z := 300.
Definition MaxApprovalTTLSeconds : Z := 86400.
Definition MinCredentialTTLSeconds : Z := 300.
Definition MaxCredentialTTLSeconds : Z := 30 * 86400.
Definition maxApproverIDLength : Z := 128.

Record Condition : Type := mkCondition { c_Field : string; c_Operator : string; c_Values : list string }.
Record Approver : Type := mkApprover { ap_Kind : string; ap_ID : string }.
Record Then : Type := mkThen {
  t_Effect : string; t_Approvers : list Approver; t_ApprovalTTLSeconds : Z; t_MaxCredentialTTLSeconds : Z }.
(** [Except] is its one flag, [None] when the pointer is nil. *)
Record Document : Type := mkDocument {
  d_SchemaVersion : Z; d_Description : string; d_When : list Condition; d_Then : Then; d_Except : option bool }.
Record Published : Type := mkPublished {
  p_ID : string; p_Name : string; p_Version : Z; p_Status : string; p_Document : Document }.
Record Request : Type := mkRequest {
  r_KeyID : string; r_IdentityID : string; r_TeamIDs : list string; r_Operation : string; r_Category : string;
  r_Project : string; r_Environment : string; r_ActiveIncident : bool }.
Record Match : Type := mkMatch {
  m_PolicyID : string; m_Name : string; m_Version : Z; m_Status : string; m_Effect : string; m_Exception : bool }.
(** The text of [Reason] is kept as its format and arguments. *)
Record Decision : Type := mkDecision {
  dn_Decision : string; dn_Policy : option Match; dn_Matches : list Match; dn_Reason : error }.

#[export] Instance Approver_eq_dec : EqDecision Approver.
Proof. solve_decision. Defined.
#[export] Instance Approver_countable : Countable Approver.
Proof.
  refine (inj_countable' (λ a, (a.(ap_Kind), a.(ap_ID))) (λ p, mkApprover p.1 p.2) _). by intros [].
Defined.

(** ** Validation *)

Definition fields : list string :=
  [FieldTeam; FieldKey; FieldCategory; FieldOperation; FieldProject; FieldEnvironment].

Definition checkValue (op v : string) : result unit :=
  _ ← fail_when (is_empty (TrimSpace v)) (Errorf "must not be empty" []);
  _ ← fail_when (MaxValueLength <? len v) (Errorf "must be at most %d bytes" [AInt MaxValueLength]);
  _ ← fail_when (existsb IsControl (runes v)) (Errorf "must not contain control characters" []);
  _ ← fail_when ((op =? OpMatches)%string && ContainsAny v "?[]\")
        (Errorf "may use only '*' as a wildcard" []);
  fail_when (negb (op =? OpMatches)%string && Contains v "*")
    (Errorf "contains '*'; use the matches operator for wildcards" []).

(** The loop over the values of condition [i]: the index and [seen]. *)
Definition check_value (i : Z) (op : string) (st : Z * gset string) (v : string) : result (Z * gset string) :=
  let '(j, seen) := st in
  _ ← wrap (λ err, Errorf "when[%d].values[%d] %s" [AInt i; AInt j; AErr err]) (checkValue op v);
  _ ← fail_when (bool_decide (v ∈ seen)) (Errorf "when[%d].values[%d] %q is a duplicate" [AInt i; AInt j; AStr v]);
  Ok (j + 1, {[v]} ∪ seen).

(** The loop over the conditions: the index and [seenField]. *)
Definition check_condition (st : Z * gset string) (c : Condition) : result (Z * gset string) :=
  let '(i, seenField) := st in
  _ ← fail_when (negb (one_of c.(c_Field) fields))
        (Errorf "when[%d].field %q is not a known field" [AInt i; AStr c.(c_Field)]);
  _ ← fail_when (bool_decide (c.(c_Field) ∈ seenField))
        (Errorf "when[%d].field %q appears more than once" [AInt i; AStr c.(c_Field)]);
  _ ← fail_when (negb (one_of c.(c_Operator) [OpIsAnyOf; OpIsNoneOf; OpMatches]))
        (Errorf "when[%d].operator %q is not a known operator" [AInt i; AStr c.(c_Operator)]);
  _ ← fail_when ((lenl c.(c_Values) =? 0) || (MaxValues <? lenl c.(c_Values)))
        (Errorf "when[%d].values must have between 1 and %d values" [AInt i; AInt MaxValues]);
  _ ← foldM (check_value i c.(c_Operator)) (0, ∅) c.(c_Values);
  Ok (i + 1, {[c.(c_Field)]} ∪ seenField).

(** The loop over the approvers. *)
Definition check_approver (st : Z * gset Approver) (a : Approver) : result (Z * gset Approver) :=
  let '(i, seen) := st in
  _ ← (if (a.(ap_Kind) =? ApproverProjectAdmins)%string then
         fail_when (negb (is_empty a.(ap_ID)))
           (Errorf "then.approvers[%d].id must be empty for project_admins" [AInt i])
       else if one_of a.(ap_Kind) [ApproverTeam; ApproverIdentity] then
         fail_when (is_empty a.(ap_ID) || (maxApproverIDLength <? len a.(ap_ID)))
           (Errorf "then.approvers[%d].id must be between 1 and %d characters" [AInt i; AInt maxApproverIDLength])
       else Err (Errorf "then.approvers[%d].kind %q is not a known approver kind" [AInt i; AStr a.(ap_Kind)]));
  _ ← fail_when (bool_decide (a ∈ seen)) (Errorf "then.approvers[%d] is a duplicate" [AInt i]);
  Ok (i + 1, {[a]} ∪ seen).

Definition check_then (t : Then) : result unit :=
  _ ← (if (t.(t_Effect) =? EffectBlock)%string then
         _ ← fail_when (0 <? lenl t.(t_Approvers))
               (Errorf "then.approvers must be empty when the effect is block" []);
         fail_when (negb (t.(t_ApprovalTTLSeconds) =? 0))
           (Errorf "then.approval_ttl_seconds must be unset when the effect is block" [])
       else if (t.(t_Effect) =? EffectRequireApproval)%string then
         _ ← fail_when (MaxApprovers <? lenl t.(t_Approvers))
               (Errorf "then.approvers must have at most %d entries" [AInt MaxApprovers]);
         _ ← fail_when ((t.(t_ApprovalTTLSeconds) <? MinApprovalTTLSeconds) ||
                        (MaxApprovalTTLSeconds <? t.(t_ApprovalTTLSeconds)))
               (Errorf "then.approval_ttl_seconds must be between %d and %d"
                  [AInt MinApprovalTTLSeconds; AInt MaxApprovalTTLSeconds]);
         _ ← foldM check_approver (0, ∅) t.(t_Approvers); Ok tt
       else Err (Errorf "then.effect %q must be block or require_approval" [AStr t.(t_Effect)]));
  let c := t.(t_MaxCredentialTTLSeconds) in
  fail_when (negb (c =? 0) && ((c <? MinCredentialTTLSeconds) || (MaxCredentialTTLSeconds <? c)))
    (Errorf "then.max_credential_ttl_seconds must be between %d and %d"
       [AInt MinCredentialTTLSeconds; AInt MaxCredentialTTLSeconds]).

Definition Document_Validate (d : Document) : result unit :=
  _ ← fail_when (negb (d.(d_SchemaVersion) =? SchemaVersion))
        (Errorf "schema_version must be %d" [AInt SchemaVersion]);
  _ ← fail_when (MaxDescriptionLength <? RuneCountInString d.(d_Description))
        (Errorf "description must be at most %d characters" [AInt MaxDescriptionLength]);
  _ ← fail_when ((lenl d.(d_When) =? 0) || (MaxConditions <? lenl d.(d_When)))
        (Errorf "when must have between 1 and %d conditions" [AInt MaxConditions]);
  _ ← foldM check_condition (0, ∅) d.(d_When);
  check_then d.(d_Then).

(** ** Matching a request *)

(** [subjects], or [None] for an unknown field. *)
Definition subjects_of (c : Condition) (r : Request) : option (list string) :=
  let f := c.(c_Field) in
  if (f =? FieldTeam)%string then Some r.(r_TeamIDs)
  else if (f =? FieldKey)%string then Some [r.(r_KeyID)]
  else if one_of f [FieldCategory; FieldOperation] then
    Some [if (f =? FieldOperation)%string then r.(r_Operation) else r.(r_Category)]
  else if (f =? FieldProject)%string then Some [r.(r_Project)]
  else if (f =? FieldEnvironment)%string then Some [r.(r_Environment)]
  else None.

Definition value_hit (c : Condition) (s v : string) : bool :=
  ((c.(c_Operator) =? OpMatches)%string && MatchPattern v s) ||
  (negb (c.(c_Operator) =? OpMatches)%string && (v =? s)%string).

Definition Condition_matches (c : Condition) (r : Request) : bool :=
  match subjects_of c r with
  | None => false
  | Some subjects =>
      if negb (existsb (λ s, negb (is_empty s)) subjects) then (c.(c_Operator) =? OpIsNoneOf)%string
      else
        let hit := existsb (λ s, existsb (value_hit c s) c.(c_Values)) subjects in
        if (c.(c_Operator) =? OpIsNoneOf)%string then negb hit else hit
  end.

Definition Document_Matches (d : Document) (r : Request) : bool :=
  forallb (λ c, Condition_matches c r) d.(d_When).

(** * Evaluation *)

Definition match_of (r : Request) (p : Published) : option Match :=
  if negb (one_of p.(p_Status) [StatusEnforced; StatusMonitor]) then None
  else if negb (Document_Matches p.(p_Document) r) then None
  else Some (mkMatch p.(p_ID) p.(p_Name) p.(p_Version) p.(p_Status) p.(p_Document).(d_Then).(t_Effect)
               (match p.(p_Document).(d_Except) with Some active => active && r.(r_ActiveIncident) | None => false end)).

(** The closure [find] over the matches. *)
Definition wanted (status effect : string) (exception : bool) (m : Match) : bool :=
  (m.(m_Status) =? status)%string && Bool.eqb m.(m_Exception) exception &&
  (is_empty effect || (m.(m_Effect) =? effect)%string).
Definition find_match (matches : list Match) (status effect : string) (exception : bool) : option Match :=
  List.find (wanted status effect exception) matches.

Definition decide_matches (matches : list Match) : Decision :=
  let reason fmt (m : Match) := Errorf fmt [AStr m.(m_Name); AInt m.(m_Version)] in
  match find_match matches StatusEnforced EffectBlock false with
  | Some m => mkDecision DecisionBlock (Some m) matches (reason "Blocked by %q v%d." m)
  | None =>
  match find_match matches StatusEnforced EffectRequireApproval false with
  | Some m => mkDecision DecisionRequireApproval (Some m) matches (reason "Held for approval by %q v%d." m)
  | None =>
  match find_match matches StatusEnforced EmptyString true with
  | Some m => mkDecision DecisionException (Some m) matches
                (reason "Allowed because an alarm is active; %q v%d has an incident exception." m)
  | None =>
  match find_match matches StatusMonitor EffectBlock false with
  | Some m => mkDecision DecisionMonitorBlock (Some m) matches (reason "%q v%d would block this request (monitor)." m)
  | None =>
  match find_match matches StatusMonitor EffectRequireApproval false with
  | Some m => mkDecision DecisionMonitorApproval (Some m) matches
                (reason "%q v%d would hold this request for approval (monitor)." m)
  | None => mkDecision DecisionAllow None matches (Errorf "No policy matches." [])
  end end end end end.

Definition Evaluate (r : Request) (policies : list Published) : Decision :=
  decide_matches (omap (match_of r) policies).

Definition Restrictiveness (decision : string) : Z :=
  if (decision =? DecisionBlock)%string then 5
  else if (decision =? DecisionRequireApproval)%string then 4
  else if (decision =? DecisionMonitorBlock)%string then 3
  else if (decision =? DecisionMonitorApproval)%string then 2
  else if (decision =? DecisionException)%string then 1
  else 0.

(** [CapsCredential]: the cap in nanoseconds and whether it is set. *)
Definition CapsCredential (d : Document) : Z * bool :=
  let s := d.(d_Then).(t_MaxCredentialTTLSeconds) in (wrap64 (s * 1000000000), 0 <? s).

(** * The digest of a request *)

(** [binary.BigEndian.PutUint64]: eight bytes, most significant first. *)
Definition byte_at (z : Z) (shift : Z) : ascii := ascii_of_N (Z.to_N (Z.land (Z.shiftr z shift) 255)).
Definition PutUint64 (z : Z) : string :=
  String.string_of_list_ascii (byte_at z <$> [56; 48; 40; 32; 24; 16; 8; 0]).

(** What is written to the hash. *)
Definition digest_input (parts : list string) : string :=
  String.concat EmptyString ((λ part, PutUint64 (len part) +:+ part) <$> parts).

Definition RequestDigest (sha256 : string → string) (keyID method path rawQuery body : string) : string :=
  sha256 (digest_input [keyID; ToUpper method; path; rawQuery; body]).

(** * Facts *)

Lemma one_of_In s l : one_of s l = true ↔ s ∈ l.
Proof.
  unfold one_of. rewrite existsb_exists, list_elem_of_In. split.
  - intros (x & Hx & ->%String.eqb_eq). done.
  - intros Hs. exists s. by rewrite String.eqb_refl.
Qed.

(** ** Loops with an index and a set of the keys seen *)

Lemma foldM_indexed {A K} `{Countable K} (key : A → K) (f : Z * gset K → A → result (Z * gset K)) (P : A → Prop) l :
  (∀ i seen x st', f (i, seen) x = Ok st' → P x ∧ (key x ∉ seen) ∧ st'.2 = {[key x]} ∪ seen) →
  ∀ st st', foldM f st l = Ok st' → NoDup (key <$> l) ∧ Forall P l ∧ ∀ x, x ∈ l → key x ∉ st.2.
Proof.
  intros Hf st st' Hl.
  destruct (foldM_seen snd (λ x, [key x]) f l) with (s := st) (s' := st') as (Hnd & Hfresh & _ & Hall); [|done|].
  { intros [i seen] x st1 Hx. destruct (Hf _ _ _ _ Hx) as (_ & Hk & ->). split_and!.
    - apply NoDup_singleton.
    - intros k ->%list_elem_of_singleton. done.
    - intros k. rewrite elem_of_union, elem_of_singleton, list_elem_of_singleton. simpl. tauto. }
  assert (l ≫= (λ x, [key x]) = key <$> l) as Heq.
  { clear. induction l as [|x l IH]; [done|]. cbn [mbind list_bind]. rewrite IH. done. }
  rewrite Heq in *. split_and!; [done| |].
  - eapply Forall_impl; [exact Hall|]. intros x ([i seen] & t' & Hx). by apply Hf in Hx as [? _].
  - intros x Hx. apply Hfresh. apply list_elem_of_fmap. eauto.
Qed.

(** ** Validation *)

Definition value_ok (op v : string) : Prop :=
  len v ≤ 128 ∧ TrimSpace v ≠ EmptyString ∧ Forall (λ r, IsControl r = false) (runes v) ∧
  (op ≠ OpMatches → Contains v "*" = false) ∧ (op = OpMatches → ContainsAny v "?[]\" = false).

Lemma checkValue_Ok op v u : checkValue op v = Ok u ↔ value_ok op v.
Proof.
  unfold checkValue, value_ok, MaxValueLength. destruct u.
  rewrite !bind_unit_Ok, !fail_when_Ok, is_empty_false, Z.ltb_ge, andb_false_iff, andb_false_iff.
  rewrite negb_false_iff, String.eqb_neq, String.eqb_eq.
  assert (existsb IsControl (runes v) = false ↔ Forall (λ r, IsControl r = false) (runes v)) as ->.
  { generalize (runes v). intros l. induction l as [|r l IH]; simpl; [split; [constructor|done]|].
    by rewrite orb_false_iff, Forall_cons, IH. }
  destruct (decide (op = OpMatches)) as [He|He]; revert He; clear; intros He; split; intros Hall;
    decompose [and] Hall; split_and!; try done; try tauto.
Qed.

Record condition_ok (c : Condition) : Prop := {
  co_field : c.(c_Field) ∈ fields;
  co_operator : c.(c_Operator) ∈ [OpIsAnyOf; OpIsNoneOf; OpMatches];
  co_count : 1 ≤ lenl c.(c_Values) ≤ 16;
  co_values : NoDup c.(c_Values) ∧ Forall (value_ok c.(c_Operator)) c.(c_Values);
}.

Lemma check_condition_Ok i seen c st' : check_condition (i, seen) c = Ok st' →
  condition_ok c ∧ (c.(c_Field) ∉ seen) ∧ st'.2 = {[c.(c_Field)]} ∪ seen.
Proof.
  unfold check_condition. intros Hc. inv_ok. split_orb. rewrite !one_of_In in *.
  rewrite bool_decide_eq_false in *. zify_bool. split_and!; [|done|done].
  match goal with H : foldM (check_value _ _) _ _ = Ok _ |- _ =>
    apply (foldM_indexed (λ v : string, v) _ (value_ok c.(c_Operator))) in H as (Hnd & Hall & _) end.
  - rewrite list_fmap_id in Hnd. unfold MaxValues in *. split; [done|done|unfold lenl in *; lia|done].
  - intros j s v st1. unfold check_value. intros Hv. inv_ok. rewrite bool_decide_eq_false in *.
    split_and!; [by eapply checkValue_Ok|done|done].
Qed.

Definition approver_ok (a : Approver) : Prop :=
  (a.(ap_Kind) = ApproverProjectAdmins ∧ a.(ap_ID) = EmptyString) ∨
  (a.(ap_Kind) ∈ [ApproverTeam; ApproverIdentity] ∧ 1 ≤ len a.(ap_ID) ≤ 128).

Lemma check_approver_Ok i seen a st' : check_approver (i, seen) a = Ok st' →
  approver_ok a ∧ (a ∉ seen) ∧ st'.2 = {[a]} ∪ seen.
Proof.
  unfold check_approver, approver_ok. intros Hc. inv_ok. rewrite bool_decide_eq_false in *. split_and!; [|done|done].
  destruct (String.eqb_spec (ap_Kind a) ApproverProjectAdmins).
  - inv_ok. split_orb. left. by rewrite is_empty_true in *.
  - destruct (one_of (ap_Kind a) [ApproverTeam; ApproverIdentity]) eqn:Hk; inv_ok. split_orb. zify_bool.
    rewrite one_of_In in Hk. rewrite is_empty_false in *. right. split; [done|].
    unfold maxApproverIDLength in *. destruct (ap_ID a); [done|]. unfold len in *. simpl in *. lia.
Qed.

(** What a valid document is. *)
Record document_ok (d : Document) : Prop := {
  do_count : 1 ≤ lenl d.(d_When) ≤ 8;
  do_conditions : NoDup (c_Field <$> d.(d_When)) ∧ Forall condition_ok d.(d_When);
  do_effect : d.(d_Then).(t_Effect) = EffectBlock ∧ d.(d_Then).(t_Approvers) = [] ∧ d.(d_Then).(t_ApprovalTTLSeconds) = 0 ∨
    d.(d_Then).(t_Effect) = EffectRequireApproval ∧ lenl d.(d_Then).(t_Approvers) ≤ 8 ∧
      300 ≤ d.(d_Then).(t_ApprovalTTLSeconds) ≤ 86400 ∧ NoDup d.(d_Then).(t_Approvers) ∧
      Forall approver_ok d.(d_Then).(t_Approvers);
  do_cap : d.(d_Then).(t_MaxCredentialTTLSeconds) = 0 ∨ 300 ≤ d.(d_Then).(t_MaxCredentialTTLSeconds) ≤ 2592000;
}.

Lemma check_then_Ok t : check_then t = Ok tt →
  (t.(t_Effect) = EffectBlock ∧ t.(t_Approvers) = [] ∧ t.(t_ApprovalTTLSeconds) = 0 ∨
   t.(t_Effect) = EffectRequireApproval ∧ lenl t.(t_Approvers) ≤ 8 ∧ 300 ≤ t.(t_ApprovalTTLSeconds) ≤ 86400 ∧
     NoDup t.(t_Approvers) ∧ Forall approver_ok t.(t_Approvers)) ∧
  (t.(t_MaxCredentialTTLSeconds) = 0 ∨ 300 ≤ t.(t_MaxCredentialTTLSeconds) ≤ 2592000).
Proof.
  unfold check_then. intros Hc. apply bind_unit_Ok in Hc as [He Hc%fail_when_Ok].
  unfold MinCredentialTTLSeconds, MaxCredentialTTLSeconds, MinApprovalTTLSeconds, MaxApprovalTTLSeconds, MaxApprovers in *.
  split.
  - destruct (String.eqb_spec (t_Effect t) EffectBlock) as [Hb|_].
    + left. inv_ok. split_orb. zify_bool. split_and!; [done| |done].
      apply lenl_zero. unfold lenl in *. lia.
    + right. destruct (String.eqb_spec (t_Effect t) EffectRequireApproval); inv_ok. split_orb. zify_bool.
      match goal with H : foldM check_approver _ _ = Ok _ |- _ =>
        apply (foldM_indexed (λ a : Approver, a) _ approver_ok _ check_approver_Ok) in H as (Hnd & Hall & _) end.
      rewrite list_fmap_id in Hnd. split_and!; try done; lia.
  - apply andb_false_iff in Hc as [Hc|Hc]; [left|right]; split_orb; zify_bool; lia.
Qed.

Lemma Document_Validate_Ok d : Document_Validate d = Ok tt → document_ok d.
Proof.
  unfold Document_Validate. intros Hv. inv_ok. split_orb. zify_bool. unfold MaxConditions in *.
  match goal with H : foldM check_condition _ _ = Ok _ |- _ =>
    apply (foldM_indexed c_Field _ condition_ok _ check_condition_Ok) in H as (Hnd & Hall & _) end.
  apply check_then_Ok in Hv as [? ?]. split; [unfold lenl in *; lia|done|done|done].
Qed.

(** ** Evaluation *)

Lemma find_match_None ms status effect exc :
  find_match ms status effect exc = None ↔ ∀ m, m ∈ ms → wanted status effect exc m = false.
Proof.
  unfold find_match. setoid_rewrite list_elem_of_In. split.
  - intros Hf m Hm. by eapply find_none.
  - intros Hall. destruct (List.find _ ms) as [m|] eqn:Hf; [|done].
    apply find_some in Hf as [Hm Hw]. specialize (Hall m Hm). congruence.
Qed.

Lemma find_match_Some ms status effect exc m :
  find_match ms status effect exc = Some m → m ∈ ms ∧ wanted status effect exc m = true.
Proof. unfold find_match. rewrite list_elem_of_In. apply find_some. Qed.

(** Some match is wanted. *)
Definition some_match (ms : list Match) (status effect : string) (exc : bool) : Prop :=
  ∃ m, m ∈ ms ∧ wanted status effect exc m = true.

Lemma find_match_decides ms status effect exc : find_match ms status effect exc = None ↔ ¬ some_match ms status effect exc.
Proof.
  rewrite find_match_None. unfold some_match. split.
  - intros Hall (m & Hm & Hw). specialize (Hall m Hm). congruence.
  - intros Hno m Hm. destruct (wanted status effect exc m) eqn:Hw; [|done]. destruct Hno. eauto.
Qed.

Lemma some_match_perm ms ms' status effect exc : ms ≡ₚ ms' → some_match ms status effect exc → some_match ms' status effect exc.
Proof. intros Hp (m & Hm & Hw). exists m. by rewrite <-Hp. Qed.

(** The decision by the kinds of matches there are. *)
Definition decision_of (block approve exempt mblock mapprove : bool) : string :=
  if block then DecisionBlock else if approve then DecisionRequireApproval else if exempt then DecisionException
  else if mblock then DecisionMonitorBlock else if mapprove then DecisionMonitorApproval else DecisionAllow.

Lemma decide_matches_decision ms :
  (decide_matches ms).(dn_Decision) =
  decision_of (non_nil (find_match ms StatusEnforced EffectBlock false))
    (non_nil (find_match ms StatusEnforced EffectRequireApproval false))
    (non_nil (find_match ms StatusEnforced EmptyString true))
    (non_nil (find_match ms StatusMonitor EffectBlock false))
    (non_nil (find_match ms StatusMonitor EffectRequireApproval false)).
Proof.
  unfold decide_matches.
  destruct (find_match ms StatusEnforced EffectBlock false); [done|].
  destruct (find_match ms StatusEnforced EffectRequireApproval false); [done|].
  destruct (find_match ms StatusEnforced EmptyString true); [done|].
  destruct (find_match ms StatusMonitor EffectBlock false); [done|].
  by destruct (find_match ms StatusMonitor EffectRequireApproval false).
Qed.

Lemma decide_matches_policy ms m : (decide_matches ms).(dn_Policy) = Some m → m ∈ ms.
Proof.
  unfold decide_matches. repeat case_goal; simpl; intros [= <-];
    match goal with H : find_match _ _ _ _ = Some _ |- _ => by apply find_match_Some in H as [? _] end.
Qed.

Lemma find_match_true ms status effect exc :
  non_nil (find_match ms status effect exc) = true ↔ some_match ms status effect exc.
Proof.
  pose proof (find_match_decides ms status effect exc) as Hd. split.
  - destruct (find_match ms status effect exc) as [m|] eqn:Hf; [|done]. intros _. exists m. by apply find_match_Some.
  - intros Hs. destruct (find_match ms status effect exc); [done|]. by destruct (proj1 Hd eq_refl).
Qed.

Lemma find_match_perm ms ms' status effect exc : ms ≡ₚ ms' →
  non_nil (find_match ms status effect exc) = non_nil (find_match ms' status effect exc).
Proof.
  intros Hp. apply eq_true_iff_eq. rewrite !find_match_true. split; [by apply some_match_perm|].
  symmetry in Hp. by apply some_match_perm.
Qed.

(** A policy that applies to a request: its status, its conditions, its effect
    (any, when empty) and whether an incident excepts it. *)
Definition excepted (p : Published) (r : Request) : bool :=
  match p.(p_Document).(d_Except) with Some active => active && r.(r_ActiveIncident) | None => false end.
Definition applies (r : Request) (status effect : string) (exc : bool) (p : Published) : Prop :=
  p.(p_Status) = status ∧ Document_Matches p.(p_Document) r = true ∧ excepted p r = exc ∧
  (effect = EmptyString ∨ p.(p_Document).(d_Then).(t_Effect) = effect).

Lemma wanted_iff status effect exc m : wanted status effect exc m = true ↔
  m.(m_Status) = status ∧ m.(m_Exception) = exc ∧ (effect = EmptyString ∨ m.(m_Effect) = effect).
Proof.
  unfold wanted. rewrite !andb_true_iff, orb_true_iff, !String.eqb_eq, Bool.eqb_true_iff, is_empty_true. clear. tauto.
Qed.

Lemma some_match_applies r ps status effect exc : status ∈ [StatusEnforced; StatusMonitor] →
  some_match (omap (match_of r) ps) status effect exc ↔ ∃ p, p ∈ ps ∧ applies r status effect exc p.
Proof.
  intros Hst. unfold some_match, applies. setoid_rewrite list_elem_of_omap. setoid_rewrite wanted_iff. split.
  - intros (m & (p & Hp & Hm) & Hs & He & Hf). exists p. split; [done|]. unfold match_of in Hm.
    destruct (one_of _ _); [|done]. destruct (Document_Matches _ _) eqn:Hd; [|done]. simpl in Hm. injection Hm as <-.
    simpl in *. done.
  - intros (p & Hp & Hs & Hd & He & Hf).
    exists (mkMatch p.(p_ID) p.(p_Name) p.(p_Version) p.(p_Status) p.(p_Document).(d_Then).(t_Effect) (excepted p r)).
    simpl. split_and!; [|done..]. exists p. split; [done|]. unfold match_of. rewrite Hs.
    apply one_of_In in Hst. by rewrite Hst, Hd.
Qed.

Lemma Evaluate_decision r ps :
  (Evaluate r ps).(dn_Decision) =
  let found status effect exc := non_nil (find_match (omap (match_of r) ps) status effect exc) in
  decision_of (found StatusEnforced EffectBlock false) (found StatusEnforced EffectRequireApproval false)
    (found StatusEnforced EmptyString true) (found StatusMonitor EffectBlock false)
    (found StatusMonitor EffectRequireApproval false).
Proof. apply decide_matches_decision. Qed.

(** ** Digests *)

Lemma string_app_length (a b : string) : String.length (a +:+ b) = (String.length a + String.length b)%nat.
Proof. induction a as [|c a IH]; [done|]. rewrite string_app_cons. simpl. by rewrite IH. Qed.

(** Two prefixes of one length of equal texts are equal. *)
Lemma string_app_inj_length (a b c d : string) : String.length a = String.length c →
  a +:+ b = c +:+ d → a = c ∧ b = d.
Proof.
  revert c. induction a as [|x a IH]; intros [|y c]; simpl; try discriminate; [done|].
  rewrite !string_app_cons. intros [= Hl] [= -> Heq]. by destruct (IH c Hl Heq) as [-> ->].
Qed.

Lemma PutUint64_length z : String.length (PutUint64 z) = 8%nat.
Proof. done. Qed.

Lemma byte_at_value z s : 0 ≤ s → Z.of_N (N_of_ascii (byte_at z s)) = (z / 2 ^ s) mod 256.
Proof.
  intros Hs. unfold byte_at. rewrite Z.shiftr_div_pow2 by done.
  change 255 with (Z.ones 8). rewrite Z.land_ones by done. change (2 ^ 8) with 256.
  pose proof (Z.mod_pos_bound (z / 2 ^ s) 256 ltac:(lia)).
  rewrite N_ascii_embedding by lia. lia.
Qed.

Lemma byte_at_inj z z' s : 0 ≤ s → byte_at z s = byte_at z' s → (z / 2 ^ s) mod 256 = (z' / 2 ^ s) mod 256.
Proof. intros Hs Heq. by rewrite <-!byte_at_value, Heq by done. Qed.

Lemma div_pow_step z s : 0 ≤ s → z / 2 ^ s = 256 * (z / 2 ^ (s + 8)) + (z / 2 ^ s) mod 256.
Proof.
  intros Hs. rewrite Z.pow_add_r by lia. change (2 ^ 8) with 256.
  rewrite <-Z.div_div by lia. apply Z.div_mod. lia.
Qed.

Lemma PutUint64_inj z z' : 0 ≤ z < 2 ^ 64 → 0 ≤ z' < 2 ^ 64 → PutUint64 z = PutUint64 z' → z = z'.
Proof.
  intros Hz Hz' Heq. unfold PutUint64 in Heq. cbn [fmap list_fmap String.string_of_list_ascii] in Heq.
  injection Heq as H56 H48 H40 H32 H24 H16 H8 H0.
  repeat match goal with H : byte_at _ _ = byte_at _ _ |- _ => apply byte_at_inj in H; [|lia] end.
  assert (z / 2 ^ 64 = z' / 2 ^ 64) as E by (rewrite !Z.div_small; lia).
  assert (∀ s, 0 ≤ s → z / 2 ^ (s + 8) = z' / 2 ^ (s + 8) → (z / 2 ^ s) mod 256 = (z' / 2 ^ s) mod 256 →
    z / 2 ^ s = z' / 2 ^ s) as Hstep.
  { intros s Hs Hhi Hlo. rewrite (div_pow_step z s Hs), (div_pow_step z' s Hs). by rewrite Hhi, Hlo. }
  apply (Hstep 56) in H56; [|lia|done]. apply (Hstep 48) in H48; [|lia|done]. apply (Hstep 40) in H40; [|lia|done].
  apply (Hstep 32) in H32; [|lia|done]. apply (Hstep 24) in H24; [|lia|done]. apply (Hstep 16) in H16; [|lia|done].
  apply (Hstep 8) in H8; [|lia|done]. apply (Hstep 0) in H0; [|lia|done]. by rewrite !Z.div_1_r in H0.
Qed.

Lemma digest_input_cons p parts : digest_input (p :: parts) = PutUint64 (len p) +:+ (p +:+ digest_input parts).
Proof.
  unfold digest_input. destruct parts as [|q parts]; [by rewrite string_app_nil_r|].
  change (String.concat EmptyString ((λ part, PutUint64 (len part) +:+ part) <$> p :: q :: parts)) with
    ((PutUint64 (len p) +:+ p) +:+ (EmptyString +:+
      String.concat EmptyString ((λ part, PutUint64 (len part) +:+ part) <$> q :: parts))).
  by rewrite <-string_app_assoc.
Qed.

Lemma digest_input_inj ps : ∀ qs, length ps = length qs →
  Forall (λ p, len p < 2 ^ 64) ps → Forall (λ p, len p < 2 ^ 64) qs →
  digest_input ps = digest_input qs → ps = qs.
Proof.
  induction ps as [|p ps IH]; intros [|q qs] Hl; try discriminate Hl; [done|].
  intros [Hp Hps]%Forall_cons [Hq Hqs]%Forall_cons. rewrite !digest_input_cons. intros Heq.
  apply string_app_inj_length in Heq as [Hlen Heq]; [|by rewrite !PutUint64_length].
  apply PutUint64_inj in Hlen; [|unfold len in *; lia..].
  apply string_app_inj_length in Heq as [-> Heq]; [|unfold len in *; lia].
  f_equal. injection Hl as Hl. by apply IH.
Qed.

(** * Properties *)

(** C37: [MatchPattern] ends, and holds exactly when the value is in the language
    of the pattern, in which a star stands for any run of bytes and every other
    byte for itself: the two-pointer walk loses no match by keeping only its
    last star. *)
Theorem MatchPattern_glob pattern value :
  (∃ b, walk_loop (bytes pattern) (bytes value) (walk_fuel (bytes pattern) (bytes value)) walk_start = Some b) ∧
  (MatchPattern pattern value = true ↔ glob (bytes pattern) (bytes value)).
Proof.
  split; [|apply MatchPattern_spec]. destruct (walk_total (bytes pattern) (bytes value)) as (b & Hb & _). eauto.
Qed.

(** A request is blocked exactly when an enforced blocking policy without an
    active exception matches it; it is held exactly when none does and such an
    approval policy matches it. *)
Theorem Evaluate_acts r ps :
  let blocks := ∃ p, p ∈ ps ∧ applies r StatusEnforced EffectBlock false p in
  let holds := ∃ p, p ∈ ps ∧ applies r StatusEnforced EffectRequireApproval false p in
  ((Evaluate r ps).(dn_Decision) = DecisionBlock ↔ blocks) ∧
  ((Evaluate r ps).(dn_Decision) = DecisionRequireApproval ↔ ¬ blocks ∧ holds) ∧
  ∀ m, (Evaluate r ps).(dn_Policy) = Some m → ∃ p, p ∈ ps ∧ match_of r p = Some m.
Proof.
  cbv zeta. rewrite Evaluate_decision. cbv beta zeta.
  assert (StatusEnforced ∈ [StatusEnforced; StatusMonitor]) as Hst by by left.
  rewrite <-!(some_match_applies r ps _ _ _ Hst), <-!find_match_true. split_and!.
  - destruct (non_nil (find_match _ StatusEnforced EffectBlock false)); [done|]. unfold decision_of.
    destruct (non_nil (find_match _ StatusEnforced EffectRequireApproval false)); [done|].
    destruct (non_nil (find_match _ StatusEnforced EmptyString true)); [done|].
    destruct (non_nil (find_match _ StatusMonitor EffectBlock false)); [done|].
    by destruct (non_nil (find_match _ StatusMonitor EffectRequireApproval false)).
  - destruct (non_nil (find_match _ StatusEnforced EffectBlock false)); [clear; split; [done|intros [Hno _]; by destruct Hno]|].
    unfold decision_of. destruct (non_nil (find_match _ StatusEnforced EffectRequireApproval false)); [clear; by split|].
    destruct (non_nil (find_match _ StatusEnforced EmptyString true)); [clear; split; [done|by intros [_ ?]]|].
    destruct (non_nil (find_match _ StatusMonitor EffectBlock false)); [clear; split; [done|by intros [_ ?]]|].
    destruct (non_nil (find_match _ StatusMonitor EffectRequireApproval false)); clear; (split; [done|by intros [_ ?]]).
  - intros m Hm. apply decide_matches_policy in Hm. apply list_elem_of_omap in Hm as (p & ? & ?). eauto.
Qed.

(** The decision does not depend on the order of the published policies, and
    policies that are not enforced never change whether a request is blocked,
    held or excepted. *)
Theorem Evaluate_order_and_monitors r ps ps' extra : ps ≡ₚ ps' →
  (Evaluate r ps).(dn_Decision) = (Evaluate r ps').(dn_Decision) ∧
  (Forall (λ p, p.(p_Status) ≠ StatusEnforced) extra →
   ∀ d, d ∈ [DecisionBlock; DecisionRequireApproval; DecisionException] →
     (Evaluate r (ps ++ extra)).(dn_Decision) = d ↔ (Evaluate r ps).(dn_Decision) = d).
Proof.
  intros Hp. split.
  - rewrite !Evaluate_decision. cbv beta zeta.
    assert (omap (match_of r) ps ≡ₚ omap (match_of r) ps') as Hm by by rewrite Hp.
    by rewrite !(find_match_perm _ _ _ _ _ Hm).
  - intros Hex d Hd. rewrite !Evaluate_decision. cbv beta zeta.
    assert (∀ effect exc, non_nil (find_match (omap (match_of r) (ps ++ extra)) StatusEnforced effect exc) =
                          non_nil (find_match (omap (match_of r) ps) StatusEnforced effect exc)) as Hsame.
    { intros effect exc. apply eq_true_iff_eq. rewrite !find_match_true, !some_match_applies by by left.
      setoid_rewrite elem_of_app. split; [|intros (p & ? & ?); exists p; split; [by left|done]].
      intros (p & [Hp'|Hp'] & Ha); [by exists p|]. rewrite Forall_forall in Hex.
      by destruct (Hex p Hp'), Ha. }
    rewrite !Hsame. unfold decision_of.
    destruct (non_nil (find_match (omap (match_of r) ps) StatusEnforced EffectBlock false)); [done|].
    destruct (non_nil (find_match (omap (match_of r) ps) StatusEnforced EffectRequireApproval false)); [done|].
    destruct (non_nil (find_match (omap (match_of r) ps) StatusEnforced EmptyString true)); [done|].
    rewrite !elem_of_cons in Hd. 
    destruct Hd as [->|[->|[->|[]%not_elem_of_nil]]]; split; repeat case_goal; done.
Qed.

(** A document that passes [Validate] has between one and eight conditions on
    distinct known fields, each with up to sixteen distinct printable values
    (wildcards only under matches), a block effect without approvers or an
    approval effect with up to eight distinct approvers and a lifetime of five
    minutes to a day, and a credential cap within its bounds. *)
Theorem Document_Validate_sound d : Document_Validate d = Ok tt → document_ok d.
Proof. apply Document_Validate_Ok. Qed.

(** Approvals cannot be confused: two requests with one digest have the same
    key, method (up to case), path, query and body, or their hashed bytes are a
    collision of the hash. *)
Theorem RequestDigest_separates sha256 k m p q b k' m' p' q' b' :
  Forall (λ s, len s < 2 ^ 64) [k; ToUpper m; p; q; b; k'; ToUpper m'; p'; q'; b'] →
  RequestDigest sha256 k m p q b = RequestDigest sha256 k' m' p' q' b' →
  (k = k' ∧ ToUpper m = ToUpper m' ∧ p = p' ∧ q = q' ∧ b = b') ∨
  ∃ x y, x ≠ y ∧ sha256 x = sha256 y.
Proof.
  intros Hall Heq. unfold RequestDigest in Heq. rewrite !Forall_cons in Hall.
  destruct Hall as (? & ? & ? & ? & ? & ? & ? & ? & ? & ? & _).
  destruct (decide (digest_input [k; ToUpper m; p; q; b] = digest_input [k'; ToUpper m'; p'; q'; b'])) as [Hin|Hin].
  - left. apply digest_input_inj in Hin; [|done|repeat constructor; done..]. by injection Hin.
  - right. eauto.
Qed.

(** Policies, documents and requests. *)
Module AccessExample.
Definition operators : Document :=
  mkDocument 1 "Operators ask first" [mkCondition FieldProject OpMatches ["prod-*"]]
    (mkThen EffectRequireApproval [mkApprover ApproverTeam "operators"] 3600 0) (Some true).
Definition held : Published := mkPublished "p1" "hold" 1 StatusEnforced operators.
Definition watch : Published := mkPublished "p2" "watch" 3 StatusMonitor operators.
Definition request : Request := mkRequest "k1" "i1" ["t1"] "deploy" "change" "prod-eu" "live" false.
End AccessExample.

Lemma Evaluate_order_and_monitors_witness :
  (Evaluate AccessExample.request [AccessExample.held; AccessExample.watch]).(dn_Decision) = DecisionRequireApproval ∧
  (Evaluate AccessExample.request ([AccessExample.held] ++ [AccessExample.watch])).(dn_Decision) = DecisionRequireApproval.
Proof.
  split; [vm_compute; reflexivity|].
  refine (proj2 (proj2 (Evaluate_order_and_monitors AccessExample.request [AccessExample.held] [AccessExample.held]
    [AccessExample.watch] (Permutation_refl _)) _ DecisionRequireApproval _) _).
  - constructor; [discriminate|constructor].
  - right. left.
  - vm_compute. reflexivity.
Defined.

Lemma Document_Validate_sound_witness : document_ok AccessExample.operators.
Proof. refine (Document_Validate_sound _ _). vm_compute. reflexivity. Defined.

Lemma RequestDigest_separates_witness :
  RequestDigest id "k" "post" "/a" EmptyString "x" = RequestDigest id "k" "POST" "/a" EmptyString "x" ∧
  (("k" = "k" ∧ ToUpper "post" = ToUpper "POST" ∧ "/a" = "/a" ∧ EmptyString = EmptyString ∧ "x" = "x") ∨
   ∃ x y : string, x ≠ y ∧ id x = id y).
Proof.
  split; [vm_compute; reflexivity|].
  refine (RequestDigest_separates id "k" "post" "/a" EmptyString "x" "k" "POST" "/a" EmptyString "x" _ _).
  - repeat constructor.
  - vm_compute. reflexivity.
Defined.
