(* ===== verification/EnvFiles.v ===== *)
(** Environment files (env_files.go): the references an application makes to
    them and the dotenv parser, with the bounds of its result and the meaning of
    a quoted value. Importing them into a TOML document is not modelled. *)
From S2P Require Import Prelude GoStd Paths Regex SpecTypes Platform SpecChecks.
#[global] Open Scope Z_scope.

Definition MaxEnvironmentFileBytes : Z := 131072.

(** * References *)

(** A value of type [any] from a TOML document, as [EnvironmentFilePaths] tells
    it apart. *)
Inductive toml_value : Type :=
  | TNil
  | TString (s : string)
  | TArray (l : list toml_value)
  | TOther.

Definition bad_env_file : error := Errorf "env_file: use a relative filename or an array of filenames" [].

Definition item_name (v : toml_value) : result string :=
  match v with TString s => Ok s | _ => Err bad_env_file end.

Definition good_env_path (name : string) : bool :=
  negb (is_empty name) && (len name <=? 200) && clean_relative name &&
  negb (ContainsAny name ("\:" +:+ NUL +:+ CR +:+ LF)).

Definition EnvironmentFilePaths (value : toml_value) : result (list string) :=
  names ← match value with
          | TString s => Ok (Some [s])
          | TArray l => names ← mapM item_name l; Ok (Some names)
          | TNil => Ok None
          | TOther => Err bad_env_file
          end;
  match names with
  | None => Ok []
  | Some names =>
      _ ← fail_when ((lenl names =? 0) || (8 <? lenl names)) (Errorf "env_file: provide 1–8 relative filenames" []);
      let bad := Errorf "env_file: use unique paths inside the configuration directory, without parent traversal" [] in
      _ ← range_unique (λ name, fail_when (negb (good_env_path name)) bad) id (λ _, bad) no_check names;
      Ok names
  end.

(** * Dotenv *)

Definition bytes (s : string) : list ascii := String.list_ascii_of_string s.
Definition unbytes (l : list ascii) : string := String.string_of_list_ascii l.

Definition lf : ascii := ascii_of_nat 10.
Definition cr : ascii := ascii_of_nat 13.
Definition tab : ascii := ascii_of_nat 9.
Definition dquote : ascii := ascii_of_nat 34.
Definition squote : ascii := ascii_of_nat 39.
Definition backslash : ascii := "\".
Definition hash : ascii := "#".

(** Line ends: [\r\n] becomes [\n], then the other [\r]. *)
Fixpoint unify_crlf (l : list ascii) : list ascii :=
  match l with
  | [] => []
  | a :: l' => match l' with
               | b :: l'' => if Ascii.eqb a cr && Ascii.eqb b lf then lf :: unify_crlf l'' else a :: unify_crlf l'
               | [] => [a]
               end
  end.
Definition unify_cr (l : list ascii) : list ascii := (λ a, if Ascii.eqb a cr then lf else a) <$> l.

(** [strings.TrimPrefix(data, "\ufeff")]: the UTF-8 byte order mark. *)
Definition bom : list ascii := ascii_of_nat <$> [239; 187; 191]%nat.
Definition trim_bom (l : list ascii) : list ascii :=
  if bool_decide (take 3 l = bom) then drop 3 l else l.

Definition dotenv_lines (data : string) : list string :=
  Split (unbytes (unify_cr (unify_crlf (trim_bom (bytes data))))) lf.

(** [strings.TrimRight(value, " \t")] *)
Definition blank (a : ascii) : bool := Ascii.eqb a " " || Ascii.eqb a tab.
Definition trim_right (l : list ascii) : list ascii := reverse (drop_while blank (reverse l)).

(** The loop over [j]: the value up to a [#] at its start or after a blank. *)
Fixpoint cut_comment (after_blank : bool) (l : list ascii) : list ascii :=
  match l with
  | [] => []
  | a :: l' => if Ascii.eqb a hash && after_blank then [] else a :: cut_comment (blank a) l'
  end.

(** The inner loop from [pos]: the index of the closing quote, or where the scan
    left off past the end of the source. *)
Fixpoint scan_quote (quote : ascii) (l : list ascii) (pos : nat) : nat + nat :=
  match l with
  | [] => inr pos
  | a :: l' =>
      if Ascii.eqb quote dquote && Ascii.eqb a backslash then
        match l' with [] => inr (S (S pos)) | _ :: l'' => scan_quote quote l'' (S (S pos)) end
      else if Ascii.eqb a quote then inl pos
      else scan_quote quote l' (S pos)
  end.

(** The outer loop: further lines are appended until the quote closes. The
    result is the source, the index of the quote and the lines left. *)
Fixpoint find_quote (quote : ascii) (source : list ascii) (pos : nat) (rest : list string)
    : result (list ascii * nat * list string) :=
  match scan_quote quote (drop pos source) pos with
  | inl stop => Ok (source, stop, rest)
  | inr pos =>
      match rest with
      | [] => Err (Errorf "env_file: unclosed quoted value" [])
      | line :: rest => find_quote quote (source ++ lf :: bytes line) pos rest
      end
  end.

(** The [strings.NewReplacer] of a double-quoted value. *)
Definition unescape_byte (a : ascii) : option ascii :=
  if Ascii.eqb a "n" then Some lf else if Ascii.eqb a "r" then Some cr else if Ascii.eqb a "t" then Some tab
  else if Ascii.eqb a dquote then Some dquote else if Ascii.eqb a backslash then Some backslash else None.
Fixpoint unescape (l : list ascii) : list ascii :=
  match l with
  | [] => []
  | a :: l' =>
      if Ascii.eqb a backslash then
        match l' with
        | b :: l'' => match unescape_byte b with Some c => c :: unescape l'' | None => a :: unescape l' end
        | [] => [a]
        end
      else a :: unescape l'
  end.

(** The value of an assignment and the lines left after it. *)
Definition dotenv_value (value : string) (rest : list string) : result (string * list string) :=
  match bytes value with
  | quote :: source =>
      if Ascii.eqb quote dquote || Ascii.eqb quote squote then
        '(source, stop, rest) ← find_quote quote source 0 rest;
        let tail := TrimSpace (unbytes (drop (S stop) source)) in
        _ ← fail_when (negb (is_empty tail) && negb (HasPrefix tail "#"))
              (Errorf "env_file: unexpected text after a quoted value" []);
        let inner := take stop source in
        Ok (unbytes (if Ascii.eqb quote dquote then unescape inner else inner), rest)
      else Ok (unbytes (trim_right (cut_comment true (quote :: source))), rest)
  | [] => Ok (EmptyString, rest)
  end.

Definition strip_export (line : string) : string :=
  if HasPrefix line "export " || HasPrefix line ("export" +:+ TAB) then TrimSpace (drop_string 6 line) else line.

Section dotenv.
Context `{Host}.

(** The body of the loop for one non-blank line, [number] being [i+1]. *)
Definition dotenv_line (number : Z) (line : string) (rest : list string) (values : gmap string string)
    : result (gmap string string * list string) :=
  let line := strip_export line in
  let invalid := Errorf "env_file: invalid assignment on line %d; use NAME=value" [AInt number] in
  match Cut line "=" with
  | None => Err invalid
  | Some (key, value) =>
      let key := TrimSpace key in
      _ ← fail_when (negb (full_match envPattern key) || (128 <? len key)) invalid;
      _ ← fail_when (has_key values key) (Errorf "env_file: duplicate variable on line %d" [AInt number]);
      '(value, rest) ← dotenv_value (TrimSpace value) rest;
      _ ← fail_when ((65536 <? len value) || ((4096 <? len value) && negb (sensitiveEnv key value)))
            (Errorf "env_file: plain values must be at most 4096 bytes and secrets at most 64 KiB" []);
      let values := <[key := value]> values in
      _ ← fail_when (128 <? lenm values) (Errorf "env_file: at most 128 variables per file" []);
      Ok (values, rest)
  end.

(** The loop over the lines; [fuel] is their number. *)
Fixpoint dotenv_loop (fuel : nat) (total : Z) (lines : list string) (values : gmap string string)
    : option (result (gmap string string)) :=
  match fuel with
  | O => None
  | S fuel =>
      match lines with
      | [] => Some (Ok values)
      | l :: rest =>
          let line := TrimSpace l in
          if is_empty line || HasPrefix line "#" then dotenv_loop fuel total rest values
          else match dotenv_line (total - lenl rest) line rest values with
               | Ok (values, rest) => dotenv_loop fuel total rest values
               | Err e => Some (Err e)
               end
      end
  end.

Definition ParseDotenv (data : string) : option (result (gmap string string)) :=
  if (MaxEnvironmentFileBytes <? len data) || negb (ValidString data) || has_byte Ascii.zero data
  then Some (Err (Errorf "env_file: use UTF-8 text without NUL, at most 128 KiB" []))
  else let lines := dotenv_lines data in dotenv_loop (S (length lines)) (lenl lines) lines ∅.
End dotenv.

(** * Facts *)

(** ** Quoted values *)

(** A value written between double quotes. *)
Definition escape_byte (a : ascii) : list ascii :=
  if Ascii.eqb a lf then [backslash; "n"%char] else if Ascii.eqb a cr then [backslash; "r"%char]
  else if Ascii.eqb a tab then [backslash; "t"%char] else if Ascii.eqb a dquote then [backslash; dquote]
  else if Ascii.eqb a backslash then [backslash; backslash] else [a].
Definition escape_value (l : list ascii) : list ascii := l ≫= escape_byte.
Definition quoted (l : list ascii) : list ascii := dquote :: escape_value l ++ [dquote].

Lemma escape_value_cons a l : escape_value (a :: l) = escape_byte a ++ escape_value l.
Proof. done. Qed.

(** An escaped byte is a plain byte or a backslash pair. *)
Lemma escape_byte_cases a :
  (∃ b, escape_byte a = [backslash; b] ∧ unescape_byte b = Some a) ∨
  (escape_byte a = [a] ∧ a ≠ backslash ∧ a ≠ dquote).
Proof.
  unfold escape_byte.
  destruct (Ascii.eqb_spec a lf) as [->|]; [left; by eexists|].
  destruct (Ascii.eqb_spec a cr) as [->|]; [left; by eexists|].
  destruct (Ascii.eqb_spec a tab) as [->|]; [left; by eexists|].
  destruct (Ascii.eqb_spec a dquote) as [->|]; [left; by eexists|].
  destruct (Ascii.eqb_spec a backslash) as [->|]; [left; by eexists|]. by right.
Qed.

Lemma unescape_escape l : unescape (escape_value l) = l.
Proof.
  induction l as [|a l IH]; [done|]. rewrite escape_value_cons.
  destruct (escape_byte_cases a) as [(b & -> & Hb)|(-> & Hne & _)].
  - rewrite <-!app_comm_cons. cbn [unescape]. rewrite Ascii.eqb_refl, Hb. f_equal. exact IH.
  - rewrite <-app_comm_cons. cbn [unescape]. apply Ascii.eqb_neq in Hne. rewrite Hne. f_equal. exact IH.
Qed.

Lemma scan_escaped l tail : ∀ pos,
  scan_quote dquote (escape_value l ++ dquote :: tail) pos = inl (pos + length (escape_value l))%nat.
Proof.
  induction l as [|a l IH]; intros pos.
  - change (escape_value []) with (@nil ascii). simpl. f_equal. lia.
  - rewrite escape_value_cons. destruct (escape_byte_cases a) as [(b & -> & Hb)|(-> & Hne & Hq)].
    + rewrite <-!app_comm_cons. cbn [scan_quote]. change ([] ++ escape_value l) with (escape_value l).
      change (Ascii.eqb dquote dquote && Ascii.eqb backslash backslash) with true. rewrite IH. f_equal.
      simpl. lia.
    + rewrite <-!app_comm_cons. cbn [scan_quote]. change ([] ++ escape_value l) with (escape_value l).
      apply Ascii.eqb_neq in Hne, Hq. rewrite Hne, Hq, andb_false_r, IH. f_equal. simpl. lia.
Qed.

Lemma bytes_unbytes l : bytes (unbytes l) = l.
Proof. apply String.list_ascii_of_string_of_list_ascii. Qed.
Lemma unbytes_bytes s : unbytes (bytes s) = s.
Proof. apply String.string_of_list_ascii_of_string. Qed.

Lemma dotenv_value_quoted l rest : dotenv_value (unbytes (quoted l)) rest = Ok (unbytes l, rest).
Proof.
  unfold dotenv_value, quoted. rewrite bytes_unbytes. change (Ascii.eqb dquote dquote || Ascii.eqb dquote squote) with true.
  assert (find_quote dquote (escape_value l ++ [dquote]) 0 rest =
          Ok (escape_value l ++ [dquote], length (escape_value l), rest)) as Hf.
  { destruct rest; simpl; rewrite drop_0, scan_escaped; done. }
  rewrite Hf. cbn [mbind result_bind].
  assert (drop (S (length (escape_value l))) (escape_value l ++ [dquote]) = []) as ->.
  { apply drop_ge. rewrite length_app. simpl. lia. }
  rewrite take_app_length. change (Ascii.eqb dquote dquote) with true. cbv iota. by rewrite unescape_escape.
Qed.

(** ** Termination and bounds *)

Lemma find_quote_rest quote rest : ∀ source pos r, find_quote quote source pos rest = Ok r →
  (length r.2 ≤ length rest)%nat.
Proof.
  induction rest as [|line rest IH]; intros source pos r; simpl; destruct (scan_quote _ _ _); try discriminate.
  - intros [= <-]. simpl. lia.
  - intros [= <-]. simpl. lia.
  - intros Hr. apply IH in Hr. lia.
Qed.

Lemma dotenv_value_rest value rest v rest' : dotenv_value value rest = Ok (v, rest') → (length rest' ≤ length rest)%nat.
Proof.
  unfold dotenv_value. destruct (bytes value) as [|quote source]; [intros [= <- <-]; lia|].
  destruct (_ || _); [|intros [= <- <-]; lia]. intros Hv. apply bind_Ok in Hv as ([[s stop] r] & Hf & Hv).
  apply find_quote_rest in Hf. simpl in Hf. apply bind_unit_Ok in Hv as [_ [= _ <-]]. done.
Qed.

Section dotenv_facts.
Context `{Host}.

(** What the variables of a file satisfy. *)
Definition dotenv_ok (values : gmap string string) : Prop :=
  lenm values ≤ 128 ∧ map_Forall (λ k v, full_match envPattern k = true ∧ len k ≤ 128 ∧ len v ≤ 65536 ∧
    (4096 < len v → sensitiveEnv k v = true)) values.

Lemma dotenv_line_Ok number line rest values values' rest' :
  dotenv_line number line rest values = Ok (values', rest') → dotenv_ok values →
  dotenv_ok values' ∧ (length rest' ≤ length rest)%nat.
Proof.
  unfold dotenv_line. destruct (Cut (strip_export line) "=") as [[key value]|]; [|done]. intros Hl [Hs Hv].
  inv_ok. destruct a as [v r]. inv_ok. injection Hl as <- <-. split_orb. zify_bool.
  match goal with H : dotenv_value _ _ = Ok _ |- _ => apply dotenv_value_rest in H; rename H into Hr end.
  split; [|done]. split; [done|]. apply map_Forall_insert_2; [|done]. split_and!; try done.
  intros Hbig. match goal with H : (4096 <? len v) && _ = false |- _ => apply andb_false_iff in H as [H|H] end.
  - zify_bool. lia.
  - by apply negb_false_iff.
Qed.

Lemma dotenv_loop_total fuel : ∀ total lines values, (length lines < fuel)%nat → dotenv_ok values →
  ∃ r, dotenv_loop fuel total lines values = Some r ∧ ∀ m, r = Ok m → dotenv_ok m.
Proof.
  induction fuel as [|fuel IH]; intros total lines values Hf Hv; [lia|].
  destruct lines as [|l rest]; cbn [dotenv_loop]; [by exists (Ok values); split; [|intros m [= <-]]|].
  simpl in Hf. destruct (_ || _); [apply IH; [lia|done]|].
  destruct (dotenv_line _ _ _ _) as [[values' rest']|e] eqn:Hl; [|by exists (Err e)].
  apply dotenv_line_Ok in Hl as [Hv' Hr]; [|done]. apply IH; [lia|done].
Qed.
End dotenv_facts.

(** * Properties *)

(** [ParseDotenv] ends on every input. A file it accepts has at most 128
    variables, each with a valid name of at most 128 bytes and a value of at
    most 64 KiB, and only a variable that looks sensitive may exceed 4096
    bytes. *)
Theorem ParseDotenv_bounds `{Host} data : ∃ r, ParseDotenv data = Some r ∧
  ∀ m, r = Ok m → lenm m ≤ 128 ∧ ∀ k v, m !! k = Some v →
    full_match envPattern k = true ∧ len k ≤ 128 ∧ len v ≤ 65536 ∧ (4096 < len v → sensitiveEnv k v = true).
Proof.
  unfold ParseDotenv. destruct (_ || _); [by eexists|].
  destruct (dotenv_loop_total (S (length (dotenv_lines data))) (lenl (dotenv_lines data)) (dotenv_lines data) ∅)
    as (r & Hr & Hok); [lia|split; [done|apply map_Forall_empty]|].
  exists r. split; [done|]. intros m Hm. destruct (Hok m Hm) as [Hs Hall]. split; [done|exact Hall].
Qed.

(** A double-quoted value is read back as it was: whatever bytes a value has,
    written between double quotes with its line ends, tabs, quotes and
    backslashes escaped, the parser returns exactly them, and consumes no other
    line. *)
Theorem quoted_value_roundtrip (l : list ascii) rest :
  dotenv_value (unbytes (quoted l)) rest = Ok (unbytes l, rest).
Proof. apply dotenv_value_quoted. Qed.

(** Referenced environment files stay inside the configuration directory: the
    names accepted are one to eight, distinct, relative, clean and without a
    parent segment. *)
Theorem EnvironmentFilePaths_contained v names : EnvironmentFilePaths v = Ok names →
  lenl names ≤ 8 ∧ NoDup names ∧
  ∀ name, name ∈ names → len name ≤ 200 ∧ Forall ordinary (Split name "/") ∧
    ∀ dir, cleanDirectory dir = true → within dir (path_Join dir name).
Proof.
  unfold EnvironmentFilePaths. intros Hn. apply bind_Ok in Hn as ([l|] & _ & Hn); [|by injection Hn as <-; split_and!;
    [done|constructor|intros name []%not_elem_of_nil]].
  inv_ok. split_orb. zify_bool.
  match goal with H : range_unique _ _ _ _ _ = Ok _ |- _ => apply range_unique_Ok in H as (_ & Hnd & Hall) end.
  rewrite list_fmap_id in Hnd. split_and!; [done|done|]. intros name Hin.
  rewrite Forall_forall in Hall. destruct (Hall name Hin) as [Hp _]. rewrite fail_when_Ok in Hp.
  apply negb_false_iff in Hp. unfold good_env_path in Hp. split_orb. zify_bool.
  match goal with H : clean_relative name = true |- _ => apply clean_relative_spec in H; rename H into Hord end.
  split_and!; [done|done|]. intros dir Hdir.
  apply cleanDirectory_spec in Hdir as (_ & segs & Hs & Hne & Hsegs). by eapply path_Join_within.
Qed.

Import Concrete.

Lemma EnvironmentFilePaths_contained_witness : Forall ordinary (Split "config/app.env" "/").
Proof.
  destruct (EnvironmentFilePaths_contained (TArray [TString "config/app.env"; TString ".env"])
    ["config/app.env"; ".env"]) as (_ & _ & Hall); [vm_compute; reflexivity|].
  exact (proj1 (proj2 (Hall "config/app.env" ltac:(by left)))).
Defined.
