(* ===== verification/Principals.v ===== *)
(** Who may do what (internal/store: store.go, humans.go, custom_roles.go,
    host_access.go, device.go, alarms.go, managed_databases.go, agent_access.go):
    principals, the permissions of roles and keys, and every test of authority
    that depends on the principal alone. *)
From S2P Require Import Prelude GoStd StoreErrors SpecTypes AgentAccess.
#[global] Open Scope Z_scope.

(** * Data *)

Record ProjectRole : Type := mkProjectRole {
  pr_Permissions : list string;
  pr_Name : string;
  pr_Project : string;
  pr_Role : string;
}.

Record HostPermission : Type := mkHostPermission { hp_Node : string; hp_Permission : string }.

Record Principal : Type := mkPrincipal {
  p_MFAVerified : bool;
  p_MFARequired : bool;
  p_ID : string;
  p_Name : string;
  p_Admin : bool;
  p_Owner : bool;
  p_Email : string;
  p_CredentialType : string;
  p_ProjectRoles : list ProjectRole;
  p_HostPermissions : list HostPermission;
  p_KeyID : string;
  p_Project : string;
  p_Environment : string;
  p_Application : string;
  p_Permissions : list string;
  p_IdentityProject : string;
  p_IdentityEnvironment : string;
  p_IdentityPermissions : list string;
}.

Definition contains (xs : list string) (s : string) : bool := existsb (String.eqb s) xs.

(** * Roles *)

Definition rolePermissions (role : string) : list string :=
  if (role =? "admin")%string then
    ["deployments:read"; "deployments:write"; "logs:read"; "pods:exec"; "kubernetes:patch"; "hostnames:manage"; "databases:query";
     "databases:write-query"; "agent:credentials"; "networks:write"; "git:manage"; "applications:manage"]
  else if (role =? "developer")%string then ["deployments:read"; "deployments:write"; "logs:read"]
  else if (role =? "viewer")%string then ["deployments:read"; "logs:read"]
  else [].

Definition custom_permissions : list string :=
  ["deployments:read"; "deployments:write"; "logs:read"; "pods:exec"; "kubernetes:patch"; "hostnames:manage"; "databases:query";
   "databases:write-query"; "agent:credentials"].

(** The loop of [validRolePermissions], which returns the set it has seen. *)
Fixpoint seen_permissions (allowed seen permissions : list string) : option (list string) :=
  match permissions with
  | [] => Some seen
  | p :: permissions' =>
      if contains seen p || negb (contains allowed p) then None else seen_permissions allowed (p :: seen) permissions'
  end.

Definition validRolePermissions (permissions : list string) : bool :=
  if (lenl permissions =? 0) || (8 <? lenl permissions) then false
  else match seen_permissions custom_permissions [] permissions with
  | None => false
  | Some seen =>
      (negb (contains seen "deployments:write") || contains seen "deployments:read") &&
      (negb (contains seen "databases:write-query") || contains seen "databases:query")
  end.

Definition ProjectRole_permissions (r : ProjectRole) : list string :=
  if HasPrefix r.(pr_Role) "custom:" then r.(pr_Permissions) else rolePermissions r.(pr_Role).

(** * Authority *)

Definition management_permissions : list string := ["networks:write"; "git:manage"; "applications:manage"].

Definition Principal_Allows (p : Principal) (permission project environment application : string) : bool :=
  if p.(p_MFARequired) then false
  else if negb (is_empty p.(p_Project)) && negb (p.(p_Project) =? project)%string then false
  else if negb (is_empty p.(p_Environment)) && negb (p.(p_Environment) =? environment)%string then false
  else if negb (is_empty p.(p_Application)) && negb (p.(p_Application) =? application)%string then false
  else if negb (is_empty p.(p_IdentityProject)) && negb (p.(p_IdentityProject) =? project)%string then false
  else if negb (is_empty p.(p_IdentityEnvironment)) && negb (p.(p_IdentityEnvironment) =? environment)%string then false
  else
    let keyOK := contains p.(p_Permissions) permission || contains p.(p_Permissions) "admin" in
    let identityOK :=
      if negb (is_empty p.(p_Email)) && negb p.(p_Admin) then
        existsb (λ role,
          let management := (p.(p_CredentialType) =? "machine")%string && (role.(pr_Role) =? "admin")%string &&
                            contains management_permissions permission in
          (role.(pr_Project) =? project)%string && (contains (ProjectRole_permissions role) permission || management)) p.(p_ProjectRoles)
      else p.(p_Admin) || contains p.(p_IdentityPermissions) permission in
    keyOK && identityOK.

Definition Principal_IsAdmin (p : Principal) : bool :=
  negb p.(p_MFARequired) && p.(p_Admin) && contains p.(p_Permissions) "admin" && is_empty p.(p_Project) && is_empty p.(p_Environment) &&
  is_empty p.(p_Application) && is_empty p.(p_IdentityProject) && is_empty p.(p_IdentityEnvironment).

Definition Principal_CanUseInstallationAgentAdministration (p : Principal) : bool :=
  Principal_IsAdmin p && contains p.(p_Permissions) "agent:admin" &&
  ((p.(p_CredentialType) =? "machine")%string || (p.(p_CredentialType) =? "cli")%string).

Definition Principal_IsHuman (p : Principal) : bool :=
  negb (is_empty p.(p_Email)) && ((p.(p_CredentialType) =? "browser")%string || (p.(p_CredentialType) =? "cli")%string).

Definition Principal_CanManageProject (p : Principal) (project : string) : bool :=
  if p.(p_MFARequired) then false
  else if Principal_IsAdmin p then true
  else if negb (p.(p_CredentialType) =? "browser")%string then false
  else existsb (λ r, (r.(pr_Project) =? project)%string && (r.(pr_Role) =? "admin")%string) p.(p_ProjectRoles).

Definition Principal_IsSuperAdmin (p : Principal) : bool :=
  p.(p_Owner) && Principal_IsAdmin p && Principal_IsHuman p && (p.(p_CredentialType) =? "browser")%string.

Definition Principal_CanManageHostAccess (p : Principal) : bool :=
  Principal_IsSuperAdmin p || p.(p_Owner) && Principal_CanUseInstallationAgentAdministration p.

Definition Principal_CanUseHostCredential (p : Principal) : bool :=
  negb p.(p_MFARequired) && negb (is_empty p.(p_Email)) &&
  ((p.(p_CredentialType) =? "machine")%string || (p.(p_CredentialType) =? "cli")%string) && contains p.(p_Permissions) "nodes:terminal" &&
  is_empty p.(p_Project) && is_empty p.(p_Environment) && is_empty p.(p_Application) && is_empty p.(p_IdentityProject) &&
  is_empty p.(p_IdentityEnvironment).

Definition Principal_CanHostTerminal (p : Principal) (node : string) : bool :=
  let granted := existsb (λ g, (g.(hp_Permission) =? "nodes:terminal")%string && ((g.(hp_Node) =? node)%string || (g.(hp_Node) =? "*")%string))
                   p.(p_HostPermissions) in
  if p.(p_MFARequired) || negb (is_empty p.(p_Project)) || negb (is_empty p.(p_Environment)) || negb (is_empty p.(p_Application)) ||
     negb (is_empty p.(p_IdentityProject)) || negb (is_empty p.(p_IdentityEnvironment)) then false
  else if (p.(p_CredentialType) =? "machine")%string || (p.(p_CredentialType) =? "cli")%string then
    if negb (contains p.(p_Permissions) "nodes:terminal") then false
    else if p.(p_Owner) && Principal_CanUseInstallationAgentAdministration p then true
    else granted
  else if negb (Principal_IsHuman p) || negb (p.(p_CredentialType) =? "browser")%string then false
  else if Principal_IsSuperAdmin p then true
  else granted.

Definition Principal_AllowsDatabase (p : Principal) (project environment : string) (write : bool) : bool :=
  is_empty p.(p_Application) &&
  Principal_Allows p (if write then "deployments:write" else "deployments:read") project environment EmptyString.

Definition Principal_CanManageBackups (p : Principal) : bool :=
  Principal_IsAdmin p ||
  negb (is_empty p.(p_Project)) && negb (is_empty p.(p_Environment)) && is_empty p.(p_Application) &&
  Principal_Allows p "deployments:write" p.(p_Project) p.(p_Environment) EmptyString.

(** * Deciding agent approvals *)

Record AgentApproval : Type := mkAgentApproval {
  aa_IdentityID : string;
  aa_Project : string;
  aa_Approvers : list Approver;
}.

Definition agentDecider (p : Principal) : bool :=
  Principal_IsHuman p && (p.(p_CredentialType) =? "browser")%string && negb p.(p_MFARequired).

Definition canDecideAgentApproval (p : Principal) (teams : list string) (a : AgentApproval) : bool :=
  if negb (agentDecider p) || (p.(p_ID) =? a.(aa_IdentityID))%string then false
  else if lenl a.(aa_Approvers) =? 0 then Principal_IsAdmin p
  else existsb (λ ap,
    if (ap.(ap_Kind) =? ApproverProjectAdmins)%string then Principal_IsAdmin p || Principal_CanManageProject p a.(aa_Project)
    else if (ap.(ap_Kind) =? ApproverTeam)%string then contains teams ap.(ap_ID)
    else if (ap.(ap_Kind) =? ApproverIdentity)%string then (p.(p_ID) =? ap.(ap_ID))%string
    else false) a.(aa_Approvers).

(** * Alarms *)

Record AlarmScope : Type := mkAlarmScope { as_Project : string; as_Environment : string; as_ApplicationID : string }.

Record Alarm : Type := mkAlarm { al_Scope : AlarmScope; al_Status : string }.

Definition CanManageAlarmSettings (p : Principal) (scope : AlarmScope) : bool :=
  if is_empty scope.(as_Project) then Principal_IsAdmin p
  else if negb (is_empty scope.(as_ApplicationID)) then
    Principal_Allows p "deployments:write" scope.(as_Project) scope.(as_Environment) scope.(as_ApplicationID)
  else Principal_CanManageProject p scope.(as_Project) &&
       Principal_Allows p "deployments:write" scope.(as_Project) scope.(as_Environment) EmptyString.

(** The WHERE clause [alarmVisibility] builds, one constructor per kind of
    condition. *)
Inductive condition : Type :=
  | NotInstallation                              (* a.project<>'' *)
  | Never                                        (* FALSE *)
  | ProjectIn (projects : list string)           (* a.project=ANY(...) *)
  | ProjectIs (project : string)
  | EnvironmentIs (environment : string)
  | ApplicationIs (application : string)
  | StatusIs (status : string).

Definition condition_holds (a : Alarm) (c : condition) : bool :=
  match c with
  | NotInstallation => negb (is_empty a.(al_Scope).(as_Project))
  | Never => false
  | ProjectIn projects => contains projects a.(al_Scope).(as_Project)
  | ProjectIs project => (a.(al_Scope).(as_Project) =? project)%string
  | EnvironmentIs environment => (a.(al_Scope).(as_Environment) =? environment)%string
  | ApplicationIs application => (a.(al_Scope).(as_ApplicationID) =? application)%string
  | StatusIs status => (a.(al_Status) =? status)%string
  end.

(** [f.equal]: no condition for an empty value. *)
Definition equal (c : string → condition) (v : string) : list condition := if is_empty v then [] else [c v].

Definition alarmVisibility (p : Principal) (scope : AlarmScope) (status : string) : list condition :=
  (if negb (Principal_IsAdmin p) then
     [NotInstallation] ++
     (if negb (contains p.(p_Permissions) "admin") && negb (contains p.(p_Permissions) "deployments:read") then [Never] else []) ++
     (if negb p.(p_Admin) then
        if negb (is_empty p.(p_Email)) then
          [ProjectIn (pr_Project <$> filter (λ role, contains (ProjectRole_permissions role) "deployments:read" = true) p.(p_ProjectRoles))]
        else if negb (contains p.(p_IdentityPermissions) "deployments:read") then [Never] else []
      else []) ++
     equal ProjectIs p.(p_Project) ++ equal EnvironmentIs p.(p_Environment) ++ equal ApplicationIs p.(p_Application) ++
     equal ProjectIs p.(p_IdentityProject) ++ equal EnvironmentIs p.(p_IdentityEnvironment)
   else []) ++
  equal ProjectIs scope.(as_Project) ++ equal EnvironmentIs scope.(as_Environment) ++ equal ApplicationIs scope.(as_ApplicationID) ++
  equal StatusIs status.

Definition visible (conditions : list condition) (a : Alarm) : bool := forallb (condition_holds a) conditions.

Definition alarmReadable (p : Principal) (a : Alarm) : bool :=
  if is_empty a.(al_Scope).(as_Project) then Principal_IsAdmin p
  else Principal_Allows p "deployments:read" a.(al_Scope).(as_Project) a.(al_Scope).(as_Environment) a.(al_Scope).(as_ApplicationID).

(** * Keys *)

Record KeyInput : Type := mkKeyInput {
  ki_Name : string;
  ki_Project : string;
  ki_Environment : string;
  ki_Application : string;
  ki_Permissions : list string;
  ki_ExpiresAt : option Z;   (* [None]: the zero time *)
  ki_NeverExpires : bool;
}.

Definition key_permissions : list string :=
  ["admin"; "deployments:read"; "deployments:write"; "logs:read"; "jobs:invoke"; "jobs:read"; "jobs:cancel"; "jobs:logs"; "sessions:create";
   "sessions:read"; "sessions:call"; "sessions:delete"; "networks:write"; "git:manage"; "applications:manage"; "slack:relay"; "pods:exec";
   "kubernetes:patch"; "hostnames:manage"; "databases:query"; "databases:write-query"; "agent:admin"; "agent:credentials"; "nodes:terminal"].

Definition validKeyFields (name project environment application : string) (permissions : list string) : result unit :=
  let has := contains permissions in
  let scoped := negb (is_empty project) || negb (is_empty environment) || negb (is_empty application) in
  let hostOnly := (lenl permissions =? 1) && has "nodes:terminal" in
  _ ← fail_when ((len name <? 1) || (100 <? len name)) (Errorf "name must contain 1–100 characters" []);
  _ ← fail_when (lenl permissions =? 0) (Errorf "at least one permission is required" []);
  _ ← iterM (λ v, fail_when (negb (contains key_permissions v)) (Errorf "unsupported permission %q" [AStr v])) permissions;
  _ ← fail_when (has "nodes:terminal" && scoped) (Errorf "nodes:terminal requires installation scope" []);
  _ ← fail_when (has "agent:admin" && (negb (has "admin") || scoped))
        (Errorf "agent:admin requires admin and an installation scope without project, environment or application restrictions" []);
  _ ← fail_when (negb (has "admin") && negb hostOnly && (is_empty project || is_empty environment))
        (Errorf "machine keys require explicit project and environment" []);
  _ ← fail_when ((has "pods:exec" || has "databases:query" || has "databases:write-query") && (is_empty project || is_empty environment))
        (Errorf "command and query keys require an explicit project and environment" []);
  _ ← fail_when ((has "databases:query" || has "databases:write-query") && negb (is_empty application))
        (Errorf "database query keys cannot have an application restriction" []);
  _ ← fail_when (has "databases:write-query" && negb (has "databases:query")) (Errorf "databases:write-query requires databases:query" []);
  fail_when ((has "networks:write" || has "git:manage" || has "applications:manage" || has "slack:relay") &&
             (is_empty project || is_empty environment || negb (is_empty application)))
    (Errorf "scoped management keys require a project and environment without an application restriction" []).

(** Times in seconds. *)
Definition validKeyInput (now : Z) (i : KeyInput) (allowNeverExpires : bool) : result unit :=
  _ ← (if i.(ki_NeverExpires) then
         _ ← fail_when (negb allowNeverExpires) (Errorf "never_expires needs a self-hosted administrator in a browser session" []);
         fail_when (non_nil i.(ki_ExpiresAt)) (Errorf "expires_at must be omitted when never_expires is true" [])
       else
         let outside := match i.(ki_ExpiresAt) with
                        | Some t => (t <? now + 60) || (now + 90 * 86400 <? t)
                        | None => true
                        end in
         fail_when outside (Errorf "expires_at must be between one minute and 90 days from now" []));
  validKeyFields i.(ki_Name) i.(ki_Project) i.(ki_Environment) i.(ki_Application) i.(ki_Permissions).

Definition allowNeverExpiringKey (managedCloud : bool) (p : Principal) : bool :=
  negb managedCloud && Principal_IsAdmin p && Principal_IsHuman p && (p.(p_CredentialType) =? "browser")%string.

(** * Devices *)

Record DeviceScope : Type := mkDeviceScope {
  ds_ID : string;
  ds_Label : string;
  ds_Project : string;
  ds_Environment : string;
  ds_Permissions : option (list string);
}.

Definition default_permissions : list string := ["deployments:read"; "deployments:write"; "logs:read"].

Definition deviceScopeAllows (scope : DeviceScope) (requested : list string) : bool :=
  let allowed := match scope.(ds_Permissions) with Some l => l | None => default_permissions end in
  forallb (contains allowed) requested.

Definition device_permission_names : list string :=
  ["admin"; "agent:admin"; "agent:credentials"; "deployments:read"; "deployments:write"; "logs:read"; "pods:exec"; "kubernetes:patch";
   "hostnames:manage"; "databases:query"; "databases:write-query"; "networks:write"; "git:manage"; "applications:manage"; "nodes:terminal"].

Fixpoint device_seen (seen permissions : list string) : result (list string) :=
  match permissions with
  | [] => Ok seen
  | p :: permissions' =>
      _ ← fail_when (negb (contains device_permission_names p)) ErrForbidden;
      _ ← fail_when (contains seen p) ErrInput;
      device_seen (p :: seen) permissions'
  end.

Definition devicePermissions (l : list string) : result (list string) :=
  if lenl l =? 0 then Ok default_permissions
  else
    _ ← fail_when (12 <? lenl l) ErrInput;
    seen ← device_seen [] l;
    let has := contains seen in
    _ ← fail_when (has "nodes:terminal" && negb (has "agent:admin") && negb (lenl l =? 1)) ErrInput;
    _ ← fail_when (has "databases:write-query" && negb (has "databases:query")) ErrInput;
    _ ← fail_when (negb (Bool.eqb (has "admin") (has "agent:admin"))) ErrInput;
    _ ← fail_when (has "agent:admin" &&
          existsb (λ p, negb (p =? "admin")%string && negb (p =? "agent:admin")%string && negb (p =? "agent:credentials")%string &&
                        negb (p =? "nodes:terminal")%string) l) ErrInput;
    Ok l.

(** * What principals may do *)

Lemma contains_spec xs s : contains xs s = true ↔ s ∈ xs.
Proof. unfold contains. rewrite existsb_exists. setoid_rewrite String.eqb_eq. rewrite list_elem_of_In. firstorder congruence. Qed.

Lemma contains_false xs s : contains xs s = false ↔ s ∉ xs.
Proof. rewrite <-contains_spec. destruct (contains xs s); naive_solver. Qed.

Lemma is_empty_spec s : is_empty s = true ↔ s = EmptyString.
Proof. by destruct s. Qed.

(** A restriction of a credential: empty, or the value asked for. *)
Definition within (restriction value : string) : bool := is_empty restriction || (restriction =? value)%string.

Lemma restriction_spec r v : within r v = true ↔ r = EmptyString ∨ r = v.
Proof. unfold within. by rewrite orb_true_iff, is_empty_spec, String.eqb_eq. Qed.

Lemma within_guard r v (b : bool) : (if negb (is_empty r) && negb (r =? v)%string then false else b) = within r v && b.
Proof. unfold within. by destruct (is_empty r), (r =? v)%string. Qed.

(** What the identity behind the credential may do in a project. *)
Definition identity_allows (p : Principal) (permission project : string) : bool :=
  if negb (is_empty p.(p_Email)) && negb p.(p_Admin) then
    existsb (λ role, (role.(pr_Project) =? project)%string &&
      (contains (ProjectRole_permissions role) permission ||
       (p.(p_CredentialType) =? "machine")%string && (role.(pr_Role) =? "admin")%string && contains management_permissions permission)) p.(p_ProjectRoles)
  else p.(p_Admin) || contains p.(p_IdentityPermissions) permission.

(** [Allows] is the conjunction of the credential's and the identity's authority. *)
Lemma Allows_split p permission project environment application :
  Principal_Allows p permission project environment application =
  negb p.(p_MFARequired) &&
  (within p.(p_Project) project && within p.(p_Environment) environment && within p.(p_Application) application &&
   within p.(p_IdentityProject) project && within p.(p_IdentityEnvironment) environment) &&
  ((contains p.(p_Permissions) permission || contains p.(p_Permissions) "admin") && identity_allows p permission project).
Proof. unfold Principal_Allows. rewrite !within_guard. unfold identity_allows. destruct (p_MFARequired p); [done|]. cbn [negb andb]. by rewrite !andb_assoc. Qed.

Lemma IsAdmin_spec p : Principal_IsAdmin p = true ↔
  p.(p_MFARequired) = false ∧ p.(p_Admin) = true ∧ "admin" ∈ p.(p_Permissions) ∧ p.(p_Project) = EmptyString ∧ p.(p_Environment) = EmptyString ∧
  p.(p_Application) = EmptyString ∧ p.(p_IdentityProject) = EmptyString ∧ p.(p_IdentityEnvironment) = EmptyString.
Proof.
  unfold Principal_IsAdmin. rewrite !andb_true_iff, negb_true_iff, contains_spec, !is_empty_spec. tauto.
Qed.

(** An administrator may do everything. *)
Lemma IsAdmin_Allows p permission project environment application :
  Principal_IsAdmin p = true → Principal_Allows p permission project environment application = true.
Proof.
  intros (Hm & Ha & Hp%contains_spec & H1 & H2 & H3 & H4 & H5)%IsAdmin_spec. rewrite Allows_split, Hm, Hp. unfold identity_allows, within.
  rewrite H1, H2, H3, H4, H5, Ha. cbn. by rewrite orb_true_r, andb_false_r.
Qed.

(** ** The list of alarms and the single alarm agree *)

Lemma visible_app c1 c2 a : visible (c1 ++ c2) a = visible c1 a && visible c2 a.
Proof. apply forallb_app. Qed.

Lemma visible_equal c v a (f : string) : (∀ v, condition_holds a (c v) = (f =? v)%string) → visible (equal c v) a = within v f.
Proof.
  intros Hc. unfold equal, within. destruct (is_empty v); [done|]. cbn. rewrite Hc, andb_true_r, String.eqb_sym. done.
Qed.

Lemma visible_if (b : bool) c a : visible (if b then [c] else []) a = negb b || condition_holds a c.
Proof. destruct b; cbn; by rewrite ?andb_true_r. Qed.

Lemma contains_readable roles project :
  contains (pr_Project <$> filter (λ role, contains (ProjectRole_permissions role) "deployments:read" = true) roles) project =
  existsb (λ role, (role.(pr_Project) =? project)%string && contains (ProjectRole_permissions role) "deployments:read") roles.
Proof.
  induction roles as [|role roles IH]; [done|]. rewrite filter_cons. cbn [existsb]. rewrite <-IH.
  destruct (decide (contains (ProjectRole_permissions role) "deployments:read" = true)) as [Hc|Hc].
  - rewrite Hc, andb_true_r, fmap_cons. unfold contains at 1. cbn [existsb]. by rewrite String.eqb_sym.
  - apply not_true_iff_false in Hc. by rewrite Hc, andb_false_r.
Qed.

Lemma existsb_ext_in {A} (f g : A → bool) l : (∀ x, x ∈ l → f x = g x) → existsb f l = existsb g l.
Proof. induction l as [|x l IH]; intros Hfg; [done|]. cbn. rewrite Hfg by set_solver. rewrite IH; set_solver. Qed.

Lemma visible_identity p a :
  visible (if negb p.(p_Admin) then
     if negb (is_empty p.(p_Email)) then
       [ProjectIn (pr_Project <$> filter (λ role, contains (ProjectRole_permissions role) "deployments:read" = true) p.(p_ProjectRoles))]
     else if negb (contains p.(p_IdentityPermissions) "deployments:read") then [Never] else []
   else []) a = identity_allows p "deployments:read" a.(al_Scope).(as_Project).
Proof.
  unfold identity_allows. destruct (p_Admin p); cbn [negb andb orb]; [by rewrite andb_false_r|]. rewrite andb_true_r.
  destruct (is_empty (p_Email p)); cbn [negb].
  - by destruct (contains (p_IdentityPermissions p) "deployments:read").
  - cbn [visible forallb condition_holds]. rewrite andb_true_r, contains_readable. apply existsb_ext_in. intros role _.
    by rewrite (andb_false_r (_ && _)), orb_false_r.
Qed.

(** The SQL that selects alarms and the check of a single alarm agree: unless
    a second factor is pending, the unfiltered list holds exactly the alarms that
    can be read one by one, and with one pending none can be read. *)
Theorem alarm_list_authorized p a :
  alarmReadable p a =
  negb p.(p_MFARequired) && visible (alarmVisibility p (mkAlarmScope EmptyString EmptyString EmptyString) EmptyString) a.
Proof.
  unfold alarmVisibility, alarmReadable. cbn [as_Project as_Environment as_ApplicationID].
  change (equal ProjectIs EmptyString) with (@nil condition). change (equal EnvironmentIs EmptyString) with (@nil condition).
  change (equal ApplicationIs EmptyString) with (@nil condition). change (equal StatusIs EmptyString) with (@nil condition).
  rewrite !app_nil_r, Allows_split. destruct (Principal_IsAdmin p) eqn:Hadm; cbn [negb].
  - pose proof (IsAdmin_Allows p "deployments:read" (as_Project (al_Scope a)) (as_Environment (al_Scope a)) (as_ApplicationID (al_Scope a)) Hadm) as Ha.
    rewrite Allows_split in Ha. rewrite Ha. apply IsAdmin_spec in Hadm as [-> _]. by destruct (is_empty (as_Project (al_Scope a))).
  - rewrite !visible_app, visible_identity, visible_if.
    rewrite (visible_equal ProjectIs _ _ (as_Project (al_Scope a))), (visible_equal EnvironmentIs _ _ (as_Environment (al_Scope a))),
      (visible_equal ApplicationIs _ _ (as_ApplicationID (al_Scope a))), (visible_equal ProjectIs _ _ (as_Project (al_Scope a))),
      (visible_equal EnvironmentIs _ _ (as_Environment (al_Scope a))) by done.
    cbn [visible forallb condition_holds]. destruct (is_empty (as_Project (al_Scope a))); [by rewrite andb_false_r|]. cbn [negb andb].
    rewrite negb_andb, !negb_involutive, orb_false_r, (orb_comm (contains _ "admin")).
    repeat match goal with |- context [within ?r ?v] => destruct (within r v) end; cbn [andb]; rewrite ?andb_false_r, ?andb_true_r; done.
Qed.

(** ** The permissions a device may ask for *)

Lemma device_seen_Ok seen l s : device_seen seen l = Ok s ↔
  s = reverse l ++ seen ∧ NoDup l ∧ (∀ x, x ∈ l → x ∉ seen) ∧ Forall (λ x, x ∈ device_permission_names) l.
Proof.
  revert seen. induction l as [|x l IH]; intros seen; cbn [device_seen].
  - split; [intros [= <-]; split_and!; [done|constructor|set_solver|constructor]|by intros [-> _]].
  - rewrite !bind_unit_Ok, !fail_when_Ok, IH, negb_false_iff, contains_spec, contains_false, NoDup_cons, Forall_cons, reverse_cons, <-app_assoc.
    split; [intros (Hx & Hs & -> & Hnd & Hd & Hf)|intros (-> & (Hl & Hnd) & Hd & Hx & Hf)]; split_and!; try done; set_solver.
Qed.

(** Asking for the authority over an installation brings nothing of a project. *)
Definition device_request_ok (l : list string) : Prop :=
  lenl l <= 12 ∧ NoDup l ∧ Forall (λ x, x ∈ device_permission_names) l ∧
  ("nodes:terminal" ∈ l → "agent:admin" ∈ l ∨ l = ["nodes:terminal"]) ∧
  ("databases:write-query" ∈ l → "databases:query" ∈ l) ∧ ("admin" ∈ l ↔ "agent:admin" ∈ l) ∧
  ("agent:admin" ∈ l → ∀ x, x ∈ l → x ∈ ["admin"; "agent:admin"; "agent:credentials"; "nodes:terminal"]).

Lemma contains_perm l l' x : (∀ x, x ∈ l ↔ x ∈ l') → contains l x = contains l' x.
Proof. intros Hl. apply eq_iff_eq_true. by rewrite !contains_spec. Qed.

Lemma singleton_request l : lenl l = 1 → "nodes:terminal" ∈ l → l = ["nodes:terminal"].
Proof. unfold lenl. destruct l as [|x [|y l]]; cbn; [lia| |lia]. by intros _ ->%list_elem_of_singleton. Qed.

Lemma devicePermissions_Ok l l' : devicePermissions l = Ok l' ↔
  (l = [] ∧ l' = default_permissions) ∨ (l ≠ [] ∧ l' = l ∧ device_request_ok l).
Proof.
  unfold devicePermissions. destruct l as [|x l0]; [cbn; naive_solver|].
  rewrite (proj2 (Z.eqb_neq (lenl (x :: l0)) 0)) by (unfold lenl; cbn; lia). set (l := x :: l0).
  assert (∀ s, s = reverse l ++ [] → ∀ y, contains s y = contains l y) as Hs.
  { intros s -> y. apply contains_perm. intros z. rewrite app_nil_r. apply elem_of_reverse. }
  assert (∀ s, (s = reverse l ++ [] ∧ NoDup l ∧ (∀ x, x ∈ l → x ∉ []) ∧ Forall (λ x, x ∈ device_permission_names) l) ↔
    s = reverse l ++ [] ∧ NoDup l ∧ Forall (λ x, x ∈ device_permission_names) l) as Hnil by (intros s; set_solver).
  unfold device_request_ok. split.
  - intros Hd. inv_ok. apply device_seen_Ok, Hnil in Hok0 as (Heq & Hnd & Hf). rewrite !(Hs _ Heq) in *. zify_bool.
    right. split_and!; try done.
    + rewrite <-!contains_spec. intros Ht. rewrite Ht in *. destruct (contains l "agent:admin"); [by left|right].
      apply negb_false_iff, Z.eqb_eq in Hok1. by apply singleton_request, contains_spec.
    + rewrite <-!contains_spec. intros Ht. rewrite Ht in *. by destruct (contains l "databases:query").
    + apply negb_false_iff, eqb_prop in Hok3. by rewrite <-!contains_spec, Hok3.
    + rewrite <-contains_spec. intros Ht y Hy. rewrite Ht in Hok4. cbn [andb] in Hok4.
      rewrite <-not_true_iff_false, existsb_exists in Hok4. destruct (decide (y ∈ ["admin"; "agent:admin"; "agent:credentials"; "nodes:terminal"])) as [|Hn]; [done|].
      destruct Hok4. exists y. split; [by apply list_elem_of_In|]. rewrite !andb_true_iff, !negb_true_iff, !String.eqb_neq. set_solver.
  - intros [[? _]|(_ & -> & Hlen & Hnd & Hf & Hh & Hw & Ha & Hx)]; [done|]. rewrite fail_when_false by (apply Z.ltb_ge; done). cbn [mbind result_bind].
    assert (device_seen [] l = Ok (reverse l ++ [])) as -> by by apply device_seen_Ok, Hnil. cbn [mbind result_bind].
    rewrite !(Hs _ eq_refl).
    rewrite (fail_when_false (_ && negb (lenl l =? 1))); cycle 1.
    { destruct (contains l "nodes:terminal") eqn:Ht; [|done]. apply contains_spec in Ht. destruct (Hh Ht) as [Hag| ->]; [|done].
      apply contains_spec in Hag. by rewrite Hag. }
    rewrite (fail_when_false (contains l "databases:write-query" && _)); cycle 1.
    { destruct (contains l "databases:write-query") eqn:Ht; [|done]. apply contains_spec, Hw, contains_spec in Ht. by rewrite Ht. }
    rewrite (fail_when_false (negb (Bool.eqb _ _))); cycle 1.
    { apply negb_false_iff, eqb_true_iff, eq_iff_eq_true. by rewrite !contains_spec. }
    rewrite (fail_when_false (contains l "agent:admin" && _)); [done|].
    destruct (contains l "agent:admin") eqn:Hag; [|done]. apply contains_spec in Hag. cbn [andb].
    rewrite <-not_true_iff_false, existsb_exists. intros (y & Hy%list_elem_of_In & Hb). apply (Hx Hag) in Hy.
    rewrite !andb_true_iff, !negb_true_iff, !String.eqb_neq in Hb. set_solver.
Qed.

(** A device asks either for nothing, which means the deployment permissions, or
    for a well-formed list, which is kept as it is. *)
Theorem devicePermissions_exact l l' : devicePermissions l = Ok l' ↔
  (l = [] ∧ l' = default_permissions) ∨ (l ≠ [] ∧ l' = l ∧ device_request_ok l).
Proof. apply devicePermissions_Ok. Qed.
