(* ===== verification/Credentials.v ===== *)
(** Credentials (internal/store: store.go, humans.go, automation_keys.go,
    rotation.go, source.go, host_actions.go, showcase.go, and the revocation of
    api.go): the tables they live in, the principal behind a credential, and every
    operation that creates, renews, rotates or revokes one.

    A SQL statement is a function on the tables it reads or writes. An operation
    returns its result with the database it leaves; a transaction that fails
    leaves the database it found ([commit]). [now] is the time of the operation,
    in seconds; identifiers and secrets drawn at random are arguments. The order
    in which SQL returns rows it was not asked to sort is that of [range]. *)
From S2P Require Import Prelude GoStd StoreErrors SpecTypes Regex License Principals.
#[global] Open Scope Z_scope.


(** * Tables *)

Record Identity : Type := mkIdentity {
  i_Name : string;
  i_Email : option string;
  i_EmailVerified : bool;
  i_Admin : bool;
  i_Owner : bool;
  i_Disabled : bool;
  i_OnboardingRequired : bool;
  i_TOTP : bool;                     (* totp_secret IS NOT NULL *)
  i_Project : string;
  i_Environment : string;
  i_Permissions : list string;
}.

Record ApiKey : Type := mkApiKey {
  k_IdentityID : string;
  k_Name : string;
  k_Digest : string;
  k_Prefix : string;
  k_Kind : string;
  k_Project : string;
  k_Environment : string;
  k_Application : string;
  k_Permissions : list string;
  k_ExpiresAt : option Z;
  k_NeverExpires : bool;
  k_AdminNeverExpires : bool;
  k_MFAVerified : bool;
  k_RevokedAt : option Z;
  k_LastUsedAt : option Z;
  k_CreatedAt : Z;
}.

Record DeviceCode : Type := mkDeviceCode {
  dc_Digest : string;
  dc_UserCode : string;
  dc_Project : string;
  dc_Environment : string;
  dc_Permissions : list string;
  dc_IdentityID : option string;
  dc_Approved : option bool;
  dc_MFAVerified : bool;
  dc_ScopeID : string;
  dc_ExpiresAt : Z;
  dc_ConsumedAt : option Z;
  dc_LastPolledAt : option Z;
  dc_ClientID : string;
  dc_RedirectURI : string;
  dc_Challenge : string;
}.

Record HostAccess : Type := mkHostAccess { ha_IdentityID : string; ha_Node : string; ha_Permission : string; ha_ExpiresAt : Z }.

Record AuditEvent : Type := mkAudit { ae_IdentityID : string; ae_KeyID : string; ae_Action : string; ae_Resource : string; ae_Metadata : list (string * string) }.

Record Database : Type := mkDatabase {
  identities : gmap string Identity;
  passkeys : gmap string string;                       (* id → identity *)
  api_keys : gmap string ApiKey;
  automation_key_scopes : gmap string (string * string); (* key → scope, binding *)
  device_codes : gmap string DeviceCode;
  device_session_scopes : gmap string string;          (* key → scope *)
  environments : list (string * string);               (* project, name *)
  personal_workspaces : list (string * string);        (* identity, project *)
  project_members : list (string * string * string);   (* project, identity, role *)
  project_teams : list (string * string * string);     (* project, team, role *)
  team_members : list (string * string);               (* team, identity *)
  custom_roles : gmap string (string * list string);   (* id → name, permissions *)
  host_access : list HostAccess;
  require_mfa : bool;
  license_record : licenseRecord;
  audit_events : list AuditEvent;
}.

Definition set_identities (t : gmap string Identity) (db : Database) : Database :=
  mkDatabase t db.(passkeys) db.(api_keys) db.(automation_key_scopes) db.(device_codes) db.(device_session_scopes) db.(environments)
    db.(personal_workspaces) db.(project_members) db.(project_teams) db.(team_members) db.(custom_roles) db.(host_access) db.(require_mfa)
    db.(license_record) db.(audit_events).
Definition set_api_keys (t : gmap string ApiKey) (db : Database) : Database :=
  mkDatabase db.(identities) db.(passkeys) t db.(automation_key_scopes) db.(device_codes) db.(device_session_scopes) db.(environments)
    db.(personal_workspaces) db.(project_members) db.(project_teams) db.(team_members) db.(custom_roles) db.(host_access) db.(require_mfa)
    db.(license_record) db.(audit_events).
Definition set_automation (t : gmap string (string * string)) (db : Database) : Database :=
  mkDatabase db.(identities) db.(passkeys) db.(api_keys) t db.(device_codes) db.(device_session_scopes) db.(environments)
    db.(personal_workspaces) db.(project_members) db.(project_teams) db.(team_members) db.(custom_roles) db.(host_access) db.(require_mfa)
    db.(license_record) db.(audit_events).
Definition set_device_codes (t : gmap string DeviceCode) (db : Database) : Database :=
  mkDatabase db.(identities) db.(passkeys) db.(api_keys) db.(automation_key_scopes) t db.(device_session_scopes) db.(environments)
    db.(personal_workspaces) db.(project_members) db.(project_teams) db.(team_members) db.(custom_roles) db.(host_access) db.(require_mfa)
    db.(license_record) db.(audit_events).
Definition set_device_session_scopes (t : gmap string string) (db : Database) : Database :=
  mkDatabase db.(identities) db.(passkeys) db.(api_keys) db.(automation_key_scopes) db.(device_codes) t db.(environments)
    db.(personal_workspaces) db.(project_members) db.(project_teams) db.(team_members) db.(custom_roles) db.(host_access) db.(require_mfa)
    db.(license_record) db.(audit_events).
Definition set_audit (t : list AuditEvent) (db : Database) : Database :=
  mkDatabase db.(identities) db.(passkeys) db.(api_keys) db.(automation_key_scopes) db.(device_codes) db.(device_session_scopes)
    db.(environments) db.(personal_workspaces) db.(project_members) db.(project_teams) db.(team_members) db.(custom_roles)
    db.(host_access) db.(require_mfa) db.(license_record) t.

Definition add_environment (project name : string) (db : Database) : Database :=
  mkDatabase db.(identities) db.(passkeys) db.(api_keys) db.(automation_key_scopes) db.(device_codes) db.(device_session_scopes)
    (db.(environments) ++ [(project, name)]) db.(personal_workspaces) db.(project_members) db.(project_teams) db.(team_members)
    db.(custom_roles) db.(host_access) db.(require_mfa) db.(license_record) db.(audit_events).

Definition set_k_ExpiresAt (e : option Z) (never admin_never : bool) (k : ApiKey) : ApiKey :=
  mkApiKey k.(k_IdentityID) k.(k_Name) k.(k_Digest) k.(k_Prefix) k.(k_Kind) k.(k_Project) k.(k_Environment) k.(k_Application)
    k.(k_Permissions) e never admin_never k.(k_MFAVerified) k.(k_RevokedAt) k.(k_LastUsedAt) k.(k_CreatedAt).
Definition set_k_RevokedAt (t : option Z) (k : ApiKey) : ApiKey :=
  mkApiKey k.(k_IdentityID) k.(k_Name) k.(k_Digest) k.(k_Prefix) k.(k_Kind) k.(k_Project) k.(k_Environment) k.(k_Application)
    k.(k_Permissions) k.(k_ExpiresAt) k.(k_NeverExpires) k.(k_AdminNeverExpires) k.(k_MFAVerified) t k.(k_LastUsedAt) k.(k_CreatedAt).
Definition set_k_LastUsedAt (t : option Z) (k : ApiKey) : ApiKey :=
  mkApiKey k.(k_IdentityID) k.(k_Name) k.(k_Digest) k.(k_Prefix) k.(k_Kind) k.(k_Project) k.(k_Environment) k.(k_Application)
    k.(k_Permissions) k.(k_ExpiresAt) k.(k_NeverExpires) k.(k_AdminNeverExpires) k.(k_MFAVerified) k.(k_RevokedAt) t k.(k_CreatedAt).

Definition set_k_MFAVerified (b : bool) (k : ApiKey) : ApiKey :=
  mkApiKey k.(k_IdentityID) k.(k_Name) k.(k_Digest) k.(k_Prefix) k.(k_Kind) k.(k_Project) k.(k_Environment) k.(k_Application)
    k.(k_Permissions) k.(k_ExpiresAt) k.(k_NeverExpires) k.(k_AdminNeverExpires) b k.(k_RevokedAt) k.(k_LastUsedAt) k.(k_CreatedAt).
Definition set_k_Name (name : string) (k : ApiKey) : ApiKey :=
  mkApiKey k.(k_IdentityID) name k.(k_Digest) k.(k_Prefix) k.(k_Kind) k.(k_Project) k.(k_Environment) k.(k_Application)
    k.(k_Permissions) k.(k_ExpiresAt) k.(k_NeverExpires) k.(k_AdminNeverExpires) k.(k_MFAVerified) k.(k_RevokedAt) k.(k_LastUsedAt) k.(k_CreatedAt).

(** The configuration of a [Store]: whether it is the managed service, its source of
    device scopes (unset on a self-hosted installation), the license verifier, and
    the collation of the database's text. *)
Class Server `{Issuer} := {
  ManagedCloud : bool;
  DeviceScopes : option (Z → Principal → result (list DeviceScope));
  license_verifier : gmap string string;
  text_le : string → string → bool;
}.

(** [tx.Commit] after every statement succeeded, [tx.Rollback] otherwise. *)
Definition commit {A} (db : Database) (r : result (A * Database)) : result A * Database :=
  match r with Ok (a, db') => (Ok a, db') | Err e => (Err e, db) end.

Definition audit (p_id key action resource : string) (metadata : list (string * string)) (db : Database) : Database :=
  set_audit (db.(audit_events) ++ [mkAudit p_id key action resource metadata]) db.

Definition json_bool (b : bool) : string := if b then "true" else "false".

(** * Insertion, with the constraints of the table *)

Definition human_kind (kind : string) : bool := (kind =? "browser")%string || (kind =? "cli")%string.

(** [api_keys_expiry_shape] *)
Definition expiry_shape (k : ApiKey) : bool :=
  negb k.(k_NeverExpires) && non_nil k.(k_ExpiresAt) ||
  k.(k_NeverExpires) && negb (non_nil k.(k_ExpiresAt)) && (k.(k_Kind) =? "machine")%string.

Definition insert_key (id : string) (k : ApiKey) (db : Database) : result Database :=
  _ ← fail_when (has_key db.(api_keys) id) ErrConstraint;
  _ ← fail_when (negb (has_key db.(identities) k.(k_IdentityID))) ErrConstraint;
  _ ← fail_when (negb (one_of k.(k_Kind) ["machine"; "browser"; "cli"; "integration"])) ErrConstraint;
  _ ← fail_when (negb (expiry_shape k)) ErrConstraint;
  Ok (set_api_keys (<[id := k]> db.(api_keys)) db).

(** * The principal behind a credential *)

Section credentials.
Context `{Issuer} `{!Server} `{RangeOrder}.

(** Project, then role, in the order of the database. *)
Definition role_le (r1 r2 : string * string) : Prop :=
  (if (r1.1 =? r2.1)%string then text_le r1.2 r2.2 else text_le r1.1 r2.1) = true.
#[export] Instance role_le_dec : RelDecision role_le := λ r1 r2, decide (_ = true).

Definition member_roles (db : Database) (now : Z) (id : string) : list (string * string) :=
  let status := licenseStatus license_verifier db.(license_record) now in
  let rbac := licenseAllows status ["project_rbac"] in
  let teams := licenseAllows status ["teams"] in
  let personal := (λ w, (w.2, "admin")) <$> filter (λ w, (w.1 =? id)%string = true) db.(personal_workspaces) in
  let members := (λ m, (m.1.1, m.2)) <$> filter (λ m, (m.1.2 =? id)%string && rbac = true) db.(project_members) in
  let of_teams := (λ t, (t.1.1, t.2)) <$> filter (λ t,
      existsb (λ m, (m.1 =? t.1.2)%string && (m.2 =? id)%string) db.(team_members) && teams && rbac = true) db.(project_teams) in
  take 400 (merge_sort role_le (remove_dups (personal ++ members ++ of_teams))).

Definition projectRoles (db : Database) (now : Z) (id : string) : list ProjectRole :=
  let out := (λ r, mkProjectRole [] EmptyString r.1 r.2) <$> member_roles db now id in
  if licenseAllows (licenseStatus license_verifier db.(license_record) now) ["custom_roles"] then
    fold_left (λ out row, (λ r, if (r.(pr_Role) =? row.1)%string then mkProjectRole row.2.2 row.2.1 r.(pr_Project) r.(pr_Role) else r) <$> out)
      (take 100 (range db.(custom_roles))) out
  else out.

Definition node_le (h1 h2 : HostAccess) : Prop := text_le h1.(ha_Node) h2.(ha_Node) = true.
#[export] Instance node_le_dec : RelDecision node_le := λ h1 h2, decide (_ = true).

Definition hostPermissions (db : Database) (now : Z) (id : string) : list HostPermission :=
  (λ h, mkHostPermission h.(ha_Node) h.(ha_Permission)) <$>
    take 100 (merge_sort node_le (filter (λ h, (h.(ha_IdentityID) =? id)%string && (now <? h.(ha_ExpiresAt)) = true) db.(host_access))).

(** A credential that still counts. *)
Definition live_key (db : Database) (now : Z) (id : string) (k : ApiKey) : bool :=
  negb (non_nil k.(k_RevokedAt)) &&
  (match k.(k_ExpiresAt) with Some t => now <? t | None => false end ||
   k.(k_NeverExpires) && (k.(k_Kind) =? "machine")%string && (k.(k_AdminNeverExpires) || has_key db.(automation_key_scopes) id)).

Definition has_factor (db : Database) (id : string) (i : Identity) : bool :=
  i.(i_TOTP) || existsb (λ pk, (pk.2 =? id)%string) (map_to_list db.(passkeys)).

Definition or_empty (o : option string) : string := match o with Some s => s | None => EmptyString end.

(** The row of [principal] as the principal of the credential. What only the
    dashboard shows (the avatar and the computed [can_manage_...]) is left out. *)
Definition key_principal (db : Database) (now : Z) (id : string) (k : ApiKey) (i : Identity) : Principal :=
  let email := or_empty i.(i_Email) in
  let kind := k.(k_Kind) in
  let human := negb (is_empty email) && human_kind kind in
  let verified := k.(k_MFAVerified) && has_factor db k.(k_IdentityID) i in
  mkPrincipal verified (human && db.(require_mfa) && negb verified) k.(k_IdentityID) i.(i_Name) i.(i_Admin) i.(i_Owner) email kind
    (if is_empty email then [] else projectRoles db now k.(k_IdentityID))
    (if negb (is_empty email) && (human_kind kind || (kind =? "machine")%string) then hostPermissions db now k.(k_IdentityID) else [])
    id k.(k_Project) k.(k_Environment) k.(k_Application) k.(k_Permissions) i.(i_Project) i.(i_Environment) i.(i_Permissions).

Definition principal (db : Database) (now : Z) (keyID : string) : result (Principal * string) :=
  match db.(api_keys) !! keyID with
  | None => Err ErrUnauthorized
  | Some k =>
      match db.(identities) !! k.(k_IdentityID) with
      | None => Err ErrUnauthorized
      | Some i =>
          if negb (live_key db now keyID k) || i.(i_Disabled) then Err ErrUnauthorized
          else Ok (key_principal db now keyID k i, k.(k_Digest))
      end
  end.

Definition KeyPrincipal (db : Database) (now : Z) (keyID : string) : result Principal := fst <$> principal db now keyID.

(** The row's [last_used_at], at most once a minute. *)
Definition touch (now : Z) (k : ApiKey) : ApiKey :=
  if match k.(k_LastUsedAt) with Some t => t <? now - 60 | None => true end then set_k_LastUsedAt (Some now) k else k.

Definition update_key (id : string) (f : ApiKey → ApiKey) (db : Database) : Database := set_api_keys (alter f id db.(api_keys)) db.

Definition Authenticate (now : Z) (raw : string) (db : Database) : result Principal * Database :=
  match Split raw "_" with
  | [head; id; secret] =>
      if negb (head =? "hp")%string && negb (head =? "hs")%string || negb (len id =? 32) || negb (len secret =? 64) then (Err ErrUnauthorized, db)
      else match principal db now id with
      | Err e => (Err e, db)
      | Ok (p, digest) =>
          if negb (Bool.eqb (head =? "hp")%string (p.(p_CredentialType) =? "machine")%string) then (Err ErrUnauthorized, db)
          else if (p.(p_CredentialType) =? "integration")%string then (Err ErrUnauthorized, db)
          else if negb (sha256_Sum raw =? digest)%string then (Err ErrUnauthorized, db)
          else (Ok p, update_key p.(p_KeyID) (touch now) db)
      end
  | _ => (Err ErrUnauthorized, db)
  end.

Definition Reauthorize (db : Database) (now : Z) (keyID project environment app : string) : result unit :=
  p ← KeyPrincipal db now keyID;
  fail_when (negb (Principal_Allows p "deployments:write" project environment app)) ErrForbidden.

(** * Keys *)

(** The token and its digest. *)
Definition makeKey (id secret : string) : string * string :=
  let raw := "hp_" +:+ id +:+ "_" +:+ secret in (raw, sha256_Sum raw).

Definition key_prefix (prefix id : string) : string := prefix +:+ String.substring 0 8 id.

Definition machine_key (identity digest : string) (now : Z) (id : string) (i : KeyInput) (expires : option Z) (admin_never mfa : bool) : ApiKey :=
  mkApiKey identity i.(ki_Name) digest (key_prefix "hp_" id) "machine" i.(ki_Project) i.(ki_Environment) i.(ki_Application)
    i.(ki_Permissions) expires i.(ki_NeverExpires) admin_never mfa None None now.

Definition CreateKey (now : Z) (id secret : string) (p : Principal) (i : KeyInput) (db : Database) : result (ApiKey * string) * Database :=
  commit db (
    _ ← fail_when (negb (Principal_IsAdmin p)) ErrForbidden;
    _ ← validKeyInput now i (allowNeverExpiringKey ManagedCloud p);
    _ ← fail_when (negb (is_empty i.(ki_Project)) && negb (bool_decide ((i.(ki_Project), i.(ki_Environment)) ∈ db.(environments))))
          (Errorf "project/environment does not exist" []);
    let '(raw, digest) := makeKey id secret in
    let k := machine_key p.(p_ID) digest now id i (if i.(ki_NeverExpires) then None else i.(ki_ExpiresAt)) i.(ki_NeverExpires) false in
    db ← insert_key id k db;
    Ok (k, raw, audit p.(p_ID) p.(p_KeyID) "key.create" id [("never_expires", json_bool i.(ki_NeverExpires))] db)).

(** The first administrator and the first key; the table of projects is not kept. *)
Definition Bootstrap (now : Z) (ident id secret name : string) (db : Database) : result string * Database :=
  commit db (
    _ ← fail_when (negb (lenm db.(identities) =? 0)) (Errorf "administrator already exists; bootstrap is disabled" []);
    let '(raw, digest) := makeKey id secret in
    let db := set_identities (<[ident := mkIdentity name None false true false false false false EmptyString EmptyString []]> db.(identities)) db in
    db ← insert_key id (mkApiKey ident "bootstrap" digest (key_prefix "hp_" id) "machine" EmptyString EmptyString EmptyString ["admin"]
           (Some (now + 7 * 86400)) false false false None None now) db;
    _ ← fail_when (bool_decide (("demo", "development") ∈ db.(environments))) ErrConstraint;
    Ok (raw, add_environment "demo" "development" db)).

(** Fifteen minutes of overlap, never past the old expiry. *)
Definition overlap (now : Z) (e : option Z) : option Z := Some (match e with Some t => Z.min t (now + 900) | None => now + 900 end).

Definition RotateKey (now : Z) (id secret : string) (p : Principal) (oldID : string) (expires : option Z) (neverExpires : bool)
    (db : Database) : result (ApiKey * string) * Database :=
  commit db (
    _ ← fail_when (negb (Principal_IsAdmin p)) ErrForbidden;
    old ← match db.(api_keys) !! oldID with
          | Some k =>
              if non_nil k.(k_RevokedAt) || negb (match k.(k_ExpiresAt) with Some t => now <? t | None => false end || k.(k_NeverExpires)) ||
                 has_key db.(automation_key_scopes) oldID
              then Err ErrNoRows else Ok k
          | None => Err ErrNoRows
          end;
    let i := mkKeyInput old.(k_Name) old.(k_Project) old.(k_Environment) old.(k_Application) old.(k_Permissions) expires neverExpires in
    _ ← validKeyInput now i (allowNeverExpiringKey ManagedCloud p);
    let '(raw, digest) := makeKey id secret in
    let k := machine_key old.(k_IdentityID) digest now id i (if neverExpires then None else expires) neverExpires false in
    db ← insert_key id k db;
    let db := update_key oldID (λ k, set_k_ExpiresAt (overlap now k.(k_ExpiresAt)) false false k) db in
    Ok (k, raw, audit p.(p_ID) p.(p_KeyID) "key.rotate" oldID [("replacement_id", id); ("overlap_seconds", "900")] db)).

(** The keys of trusted product issuers, bound to a scope. [expires_at] is absent or
    a time; the input has the fields of a [KeyInput]. *)
Definition validBoundKeyInput (now : Z) (i : KeyInput) (allowNeverExpires : bool) : result unit :=
  _ ← (if i.(ki_NeverExpires) then
         _ ← fail_when (negb allowNeverExpires) (Errorf "never_expires is only available to the trusted Cloud automation issuer" []);
         fail_when (non_nil i.(ki_ExpiresAt)) (Errorf "expires_at must be omitted when never_expires is true" [])
       else
         fail_when (match i.(ki_ExpiresAt) with Some t => (t <? now + 60) || (now + 90 * 86400 <? t) | None => true end)
           (Errorf "expires_at must be between one minute and 90 days from now" []));
  validKeyFields i.(ki_Name) i.(ki_Project) i.(ki_Environment) i.(ki_Application) i.(ki_Permissions).

(** The key still counts for the quota of its scope. *)
Definition bound_live (now : Z) (k : ApiKey) : bool :=
  negb (non_nil k.(k_RevokedAt)) && (match k.(k_ExpiresAt) with Some t => now <? t | None => false end || k.(k_NeverExpires)).

Definition scope_keys (db : Database) (now : Z) (scope : string) : list (string * (string * string)) :=
  filter (λ b, (b.2.1 =? scope)%string && match db.(api_keys) !! b.1 with Some k => bound_live now k | None => false end = true)
    (map_to_list db.(automation_key_scopes)).

Definition bound_browser (p : Principal) : bool := (p.(p_CredentialType) =? "browser")%string && Principal_IsHuman p && negb p.(p_MFARequired).

Definition CreateBoundKey (now : Z) (id secret : string) (p : Principal) (i : KeyInput) (scope binding rotate : string) (allowNeverExpires : bool)
    (db : Database) : result (ApiKey * string) * Database :=
  commit db (
    _ ← fail_when (negb (bound_browser p)) ErrForbidden;
    _ ← wrap (λ e, Errorf "%w: %s" [AErr ErrInput; AErr e]) (validBoundKeyInput now i allowNeverExpires);
    _ ← fail_when (is_empty scope || (128 <? len scope) || is_empty binding || (512 <? len binding) || negb (is_empty i.(ki_Application)) ||
                   one_of "admin" i.(ki_Permissions) || (6 <? lenl i.(ki_Permissions))) ErrInput;
    db ← (if is_empty rotate then Ok db
          else match db.(api_keys) !! rotate, db.(automation_key_scopes) !! rotate with
          | Some old, Some (oldScope, oldBinding) =>
              _ ← fail_when (negb (oldScope =? scope)%string || negb (bound_live now old)) ErrNoRows;
              _ ← fail_when (negb (old.(k_IdentityID) =? p.(p_ID))%string || negb (old.(k_Name) =? i.(ki_Name))%string ||
                     negb (old.(k_Project) =? i.(ki_Project))%string || negb (old.(k_Environment) =? i.(ki_Environment))%string ||
                     negb (bool_decide (old.(k_Permissions) = i.(ki_Permissions))) || negb (oldBinding =? binding)%string) ErrConflict;
              Ok (update_key rotate (λ k, set_k_ExpiresAt (overlap now k.(k_ExpiresAt)) false k.(k_AdminNeverExpires) k) db)
          | _, _ => Err ErrNoRows
          end);
    _ ← fail_when (50 <=? lenl (scope_keys db now scope)) ErrBusy;
    let '(raw, digest) := makeKey id secret in
    let i := mkKeyInput i.(ki_Name) i.(ki_Project) i.(ki_Environment) EmptyString i.(ki_Permissions) i.(ki_ExpiresAt) i.(ki_NeverExpires) in
    let k := machine_key p.(p_ID) digest now id i (if i.(ki_NeverExpires) then None else i.(ki_ExpiresAt)) false p.(p_MFAVerified) in
    db ← insert_key id k db;
    _ ← fail_when (has_key db.(automation_key_scopes) id) ErrConstraint;
    let db := set_automation (<[id := (scope, binding)]> db.(automation_key_scopes)) db in
    Ok (k, raw, audit p.(p_ID) p.(p_KeyID) "automation-key.create" id [] db)).

Definition revoke (now : Z) (k : ApiKey) : ApiKey := set_k_RevokedAt (Some now) k.

(** [COALESCE(revoked_at,now())] *)
Definition revoke_once (now : Z) (k : ApiKey) : ApiKey := if non_nil k.(k_RevokedAt) then k else revoke now k.

Definition RevokeBoundKey (now : Z) (p : Principal) (scope id : string) (db : Database) : result unit * Database :=
  commit db (
    _ ← fail_when (negb (bound_browser p)) ErrForbidden;
    _ ← fail_when (negb (has_key db.(api_keys) id) ||
                   negb (match db.(automation_key_scopes) !! id with Some (s, _) => (s =? scope)%string | None => false end)) ErrNoRows;
    Ok (tt, audit p.(p_ID) p.(p_KeyID) "automation-key.revoke" id [] (update_key id (revoke_once now) db))).

(** The handler of api.go; its guard [admin] refuses who is not an administrator. *)
Definition revokeKey (now : Z) (p : Principal) (id : string) (db : Database) : result unit * Database :=
  commit db (
    _ ← fail_when (negb (Principal_IsAdmin p)) ErrForbidden;
    _ ← fail_when (negb (has_key db.(api_keys) id)) ErrNoRows;
    Ok (tt, audit p.(p_ID) p.(p_KeyID) "key.revoke" id [] (update_key id (revoke_once now) db))).

(** A grant a server uses on someone's behalf; its digest is random. The
    statement runs in the caller's transaction. *)
Definition NewSourceGrant (now : Z) (id digest : string) (p : Principal) (project environment app : string) (db : Database)
  : result (string * Database) :=
  _ ← fail_when (negb (Principal_Allows p "deployments:write" project environment app)) ErrForbidden;
  db ← insert_key id (mkApiKey p.(p_ID) "Source deployment grant" digest "internal" "integration" project environment app
         ["deployments:read"; "deployments:write"] (Some (now + 90 * 86400)) false false false None None now) db;
  Ok (id, db).

(** The grant of the sample application: a source grant of the owner, renamed. The
    transaction checks that nothing is deployed before, and records the grant after. *)
Definition showcase_grant (now : Z) (id digest ownerID : string) (db : Database) : result (string * Database) :=
  let p := mkPrincipal false false ownerID EmptyString true false EmptyString EmptyString [] [] EmptyString EmptyString EmptyString EmptyString
             ["admin"] EmptyString EmptyString ["admin"] in
  '(grant, db) ← NewSourceGrant now id digest p "demo" "development" "shop" db;
  Ok (grant, update_key grant (set_k_Name "Sample shop deployment grant") db).

(** * Statements elsewhere *)

(** What the other statements on api_keys do to a row: many revoke it, some note a
    second factor or forget it. *)
Inductive key_edit (now : Z) : ApiKey → ApiKey → Prop :=
  | edit_none k : key_edit now k k
  | edit_revoke k : key_edit now k (revoke now k)
  | edit_revoke_once k : key_edit now k (revoke_once now k)
  | edit_mfa b k : key_edit now k (set_k_MFAVerified b k).

(** A reset password takes back what was approved and not yet used. *)
Inductive code_edit : DeviceCode → DeviceCode → Prop :=
  | code_none c : code_edit c c
  | code_refused c : non_nil c.(dc_ConsumedAt) = false →
      code_edit c (mkDeviceCode c.(dc_Digest) c.(dc_UserCode) c.(dc_Project) c.(dc_Environment) c.(dc_Permissions) c.(dc_IdentityID) (Some false)
        c.(dc_MFAVerified) c.(dc_ScopeID) c.(dc_ExpiresAt) c.(dc_ConsumedAt) c.(dc_LastPolledAt) c.(dc_ClientID) c.(dc_RedirectURI) c.(dc_Challenge)).

(** * Sessions *)

Record Session : Type := mkSession {
  s_ScopeID : string;
  s_Token : string;
  s_User : Principal;
  s_ExpiresAt : Z;
  s_OnboardingRequired : bool;
}.

(** The unrevoked sessions of an identity, the newest first. *)
Definition session_of (identity : string) (k : ApiKey) : bool :=
  (k.(k_IdentityID) =? identity)%string && human_kind k.(k_Kind) && negb (non_nil k.(k_RevokedAt)).

Definition newer (x y : string * ApiKey) : Prop := y.2.(k_CreatedAt) <= x.2.(k_CreatedAt).
#[export] Instance newer_dec : RelDecision newer := λ x y, decide (_ <= _).

Definition open_sessions (db : Database) (identity : string) : list (string * ApiKey) :=
  merge_sort newer (filter (λ r, session_of identity r.2 = true) (range db.(api_keys))).

(** Revokes all but the nineteen newest. *)
Definition revoke_older (now : Z) (identity : string) (db : Database) : Database :=
  fold_left (λ db r, update_key r.1 (revoke now) db) (drop 19 (open_sessions db identity)) db.

Definition NewVerifiedSession (now : Z) (id secret : string) (identity kind project environment : string) (permissions : list string)
    (verified : bool) (db : Database) : result Session * Database :=
  let opened := commit db (
    _ ← fail_when (negb (kind =? "browser")%string && negb (kind =? "cli")%string) ErrInput;
    let browser := (kind =? "browser")%string in
    let permissions := if browser then ["admin"] else permissions in
    let project := if browser then EmptyString else project in
    let environment := if browser then EmptyString else environment in
    let cli := (kind =? "cli")%string in
    let unscoped := is_empty project && is_empty environment in
    let installationAgent := cli && unscoped && contains permissions "agent:admin" in
    let hostAgent := cli && unscoped && bool_decide (permissions = ["nodes:terminal"]) in
    _ ← (if installationAgent || hostAgent then _ ← devicePermissions permissions; Ok tt else Ok tt);
    _ ← fail_when (cli && negb installationAgent && negb hostAgent &&
                   (is_empty project || is_empty environment || (lenl permissions =? 0) || contains permissions "agent:admin")) ErrInput;
    let raw := "hs_" +:+ id +:+ "_" +:+ secret in
    let expires := now + 12 * 3600 in
    i ← match db.(identities) !! identity with Some i => Ok i | None => Err ErrNoRows end;
    _ ← fail_when (negb (non_nil i.(i_Email) && negb i.(i_Disabled))) ErrForbidden;
    _ ← fail_when (installationAgent &&
          (negb (i.(i_Admin) && is_empty i.(i_Project) && is_empty i.(i_Environment)) || non_nil DeviceScopes)) ErrForbidden;
    let db := revoke_older now identity db in
    db ← insert_key id (mkApiKey identity kind (sha256_Sum raw) (key_prefix "hs_" id) kind project environment EmptyString permissions
           (Some expires) false false verified None None now) db;
    Ok (raw, expires, i.(i_OnboardingRequired), audit identity id "session.create" kind [] db)) in
  match opened with
  | (Err e, db) => (Err e, db)
  | (Ok (raw, expires, onboarding), db) =>
      (p ← KeyPrincipal db now id; Ok (mkSession EmptyString raw p expires onboarding), db)
  end.

Definition NewSession (now : Z) (id secret identity kind project environment : string) (permissions : list string) : Database → result Session * Database :=
  NewVerifiedSession now id secret identity kind project environment permissions false.

Definition RevokeSession (now : Z) (p : Principal) (id : string) (db : Database) : result unit * Database :=
  commit db (
    _ ← fail_when (negb (Principal_IsHuman p)) ErrForbidden;
    let id := if is_empty id then p.(p_KeyID) else id in
    _ ← fail_when ((p.(p_CredentialType) =? "cli")%string && negb (id =? p.(p_KeyID))%string) ErrForbidden;
    match db.(api_keys) !! id with
    | Some k =>
        _ ← fail_when (negb (k.(k_IdentityID) =? p.(p_ID))%string || negb (human_kind k.(k_Kind))) ErrNoRows;
        Ok (tt, update_key id (revoke now) db)
    | None => Err ErrNoRows
    end).

Definition set_i_standing (disabled admin : bool) (i : Identity) : Identity :=
  mkIdentity i.(i_Name) i.(i_Email) i.(i_EmailVerified) admin i.(i_Owner) disabled i.(i_OnboardingRequired) i.(i_TOTP) i.(i_Project) i.(i_Environment) i.(i_Permissions).

Definition UpdateUser (p : Principal) (id : string) (disabled admin : bool) (db : Database) : result unit * Database :=
  commit db (
    _ ← fail_when (negb (p.(p_CredentialType) =? "browser")%string && negb (Principal_CanUseInstallationAgentAdministration p) ||
                   negb (Principal_IsAdmin p)) ErrForbidden;
    i ← match db.(identities) !! id with
        | Some i => if non_nil i.(i_Email) then Ok i else Err ErrNoRows
        | None => Err ErrNoRows
        end;
    _ ← fail_when (i.(i_Owner) && (disabled || negb admin)) (Errorf "%w: installer owner cannot be disabled or demoted" [AErr ErrInput]);
    Ok (tt, audit p.(p_ID) p.(p_KeyID) "user.update" id [("disabled", json_bool disabled); ("admin", json_bool admin)]
          (set_identities (alter (set_i_standing disabled admin) id db.(identities)) db))).
End credentials.

(** * Keys of hosts

    The key with which the host of a managed installation recovers one application
    (host_actions.go): the embedding issues it for an owner and an application whose
    only service runs Actions, shows it to renew it, and finds it refused once it was
    revoked or stands for anything else.

    The table of applications belongs to the deployments; a transaction reads the row
    of the grant in it ([applications]). The lock of the workspace makes transactions
    of one workspace wait for each other, which the steps of a run do anyway. *)

Record HostActionsGrant : Type := mkHostGrant {
  hg_OwnerIdentity : string;
  hg_Workspace : string;
  hg_Project : string;
  hg_Environment : string;
  hg_ApplicationID : string;
  hg_Service : string;
  hg_HostID : string;
}.

(** [name,project,environment,spec] of a row of applications. *)
Record HostApplication : Type := mkHostApplication {
  ha_Name : string;
  ha_Project : string;
  ha_Env : string;
  ha_Spec : Application;
}.

(** ** The shape of a grant *)

Definition hex_digit (c : ascii) : bool := in_range "a" "f" c || digit c.
Definition hostActionsID : regex := RRep (RCls hex_digit) 32 32.
Definition hostActionsHostID : regex := RCat hostActionsID (ROpt hostActionsID).
Definition hostActionsName : regex := RCat (RCls lower) (RRep (RCls (λ c, lower c || digit c || any_of "-" c)) 0 39).
Definition hostActionsToken : regex := RSeq [RLit "hp_"; hostActionsID; RLit "_"; RRep (RCls hex_digit) 64 64].

Definition HostActionsGrant_valid (g : HostActionsGrant) : bool :=
  full_match hostActionsID g.(hg_OwnerIdentity) && full_match hostActionsID g.(hg_Workspace) &&
  full_match hostActionsID g.(hg_ApplicationID) && full_match hostActionsHostID g.(hg_HostID) &&
  full_match hostActionsName g.(hg_Project) && full_match hostActionsName g.(hg_Environment) && full_match hostActionsName g.(hg_Service).

Definition HostActionsGrant_scope (g : HostActionsGrant) : string := "host-actions:" +:+ g.(hg_Workspace).
Definition HostActionsGrant_binding (g : HostActionsGrant) : string :=
  "host-actions:" +:+ g.(hg_HostID) +:+ ":" +:+ g.(hg_ApplicationID) +:+ ":" +:+ g.(hg_Service).

Section host_actions.
Context `{Issuer} `{!Server} `{RangeOrder}.

Definition host_permissions : list string := ["deployments:read"; "deployments:write"].

(** An owner who may act for the whole installation. *)
Definition host_owner (i : Identity) : bool :=
  i.(i_Owner) && i.(i_Admin) && i.(i_EmailVerified) && negb (is_empty (or_empty i.(i_Email))) && negb i.(i_Disabled) &&
  is_empty i.(i_Project) && is_empty i.(i_Environment).

(** The application is the one granted, with one service and Actions in it. *)
Definition host_application (g : HostActionsGrant) (a : HostApplication) : bool :=
  let services := app_services a.(ha_Spec) in
  (a.(ha_Project) =? g.(hg_Project))%string && (a.(ha_Env) =? g.(hg_Environment))%string && (a.(ha_Spec).(app_Name) =? a.(ha_Name))%string &&
  (lenm services =? 1) && match services !! g.(hg_Service) with Some service => non_nil service.(svc_Actions) | None => false end.

(** The unrevoked keys of a workspace, with their bindings. *)
Definition host_keys (scope : string) (db : Database) : list string :=
  (λ b, b.2.2) <$> filter (λ b, (b.2.1 =? scope)%string &&
      match db.(api_keys) !! b.1 with Some k => negb (non_nil k.(k_RevokedAt)) | None => false end = true)
    (map_to_list db.(automation_key_scopes)).

Definition host_metadata (g : HostActionsGrant) : list (string * string) :=
  [("workspace", g.(hg_Workspace)); ("service", g.(hg_Service)); ("host_id", g.(hg_HostID))].

(** The branch without a token: a new key of ninety days. *)
Definition host_key_create (now : Z) (id secret : string) (g : HostActionsGrant) (name : string) (db : Database)
  : result (ApiKey * string * Database) :=
  let keys := host_keys (HostActionsGrant_scope g) db in
  _ ← fail_when (existsb (λ b, (b =? HostActionsGrant_binding g)%string) keys) ErrConflict;
  _ ← fail_when (16 <=? lenl keys) ErrBusy;
  let '(raw, digest) := makeKey id secret in
  let i := mkKeyInput ("Host Actions recovery " +:+ g.(hg_ApplicationID)) g.(hg_Project) g.(hg_Environment) name host_permissions
             (Some (now + 90 * 86400)) false in
  _ ← validKeyInput now i false;
  let k := machine_key g.(hg_OwnerIdentity) digest now id i i.(ki_ExpiresAt) false false in
  db ← insert_key id k db;
  _ ← fail_when (has_key db.(automation_key_scopes) id) ErrConstraint;
  let db := set_automation (<[id := (HostActionsGrant_scope g, HostActionsGrant_binding g)]> db.(automation_key_scopes)) db in
  Ok (k, raw, audit g.(hg_OwnerIdentity) id "host-actions-key.create" g.(hg_ApplicationID) (host_metadata g) db).

(** The identifier in a token: [strings.Split(raw,"_")[1]]. *)
Definition token_id (raw : string) : string := nth 1 (Split raw "_") EmptyString.

(** The row a token stands for is the key of this grant and not another. *)
Definition host_key_matches (g : HostActionsGrant) (name raw scope binding : string) (k : ApiKey) : bool :=
  (sha256_Sum raw =? k.(k_Digest))%string && (k.(k_Kind) =? "machine")%string && negb k.(k_NeverExpires) && non_nil k.(k_ExpiresAt) &&
  (k.(k_IdentityID) =? g.(hg_OwnerIdentity))%string && (k.(k_Project) =? g.(hg_Project))%string && (k.(k_Environment) =? g.(hg_Environment))%string &&
  (k.(k_Application) =? name)%string && bool_decide (k.(k_Permissions) = host_permissions) &&
  (scope =? HostActionsGrant_scope g)%string && (binding =? HostActionsGrant_binding g)%string.

(** Ninety more days. *)
Definition renew_key (now : Z) (k : ApiKey) : ApiKey := set_k_ExpiresAt (Some (now + 90 * 86400)) k.(k_NeverExpires) k.(k_AdminNeverExpires) k.

(** The branch with a token. *)
Definition host_key_renew (now : Z) (g : HostActionsGrant) (name raw : string) (renew : bool) (db : Database) : result (ApiKey * string * Database) :=
  let id := token_id raw in
  match db.(api_keys) !! id, db.(automation_key_scopes) !! id with
  | Some k, Some (scope, binding) =>
      _ ← fail_when (non_nil k.(k_RevokedAt)) ErrUnauthorized;
      _ ← fail_when (negb (host_key_matches g name raw scope binding k)) ErrUnauthorized;
      let expires := default 0 k.(k_ExpiresAt) in
      _ ← fail_when (negb renew && negb (now <? expires)) ErrUnauthorized;
      if renew && (expires <? now + 30 * 86400) then
        Ok (renew_key now k, raw,
            audit g.(hg_OwnerIdentity) id "host-actions-key.renew" g.(hg_ApplicationID) (host_metadata g) (update_key id (renew_key now) db))
      else Ok (k, raw, db)
  | _, _ => Err ErrUnauthorized
  end.

Definition hostActionsKey (now : Z) (applications : gmap string HostApplication) (id secret : string) (g : HostActionsGrant) (raw : string) (renew : bool)
    (db : Database) : result (ApiKey * string) * Database :=
  commit db (
    _ ← fail_when (negb (HostActionsGrant_valid g) || negb (is_empty raw) && negb (full_match hostActionsToken raw) || negb renew && is_empty raw)
          ErrUnauthorized;
    _ ← fail_when (negb match db.(identities) !! g.(hg_OwnerIdentity) with Some i => host_owner i | None => false end) ErrForbidden;
    match applications !! g.(hg_ApplicationID) with
    | None => Err ErrForbidden
    | Some a =>
        _ ← fail_when (negb (host_application g a)) ErrForbidden;
        if is_empty raw then host_key_create now id secret g a.(ha_Name) db else host_key_renew now g a.(ha_Name) raw renew db
    end).

Definition EnsureHostActionsKey (now : Z) (applications : gmap string HostApplication) (id secret : string) (g : HostActionsGrant) (raw : string)
    : Database → result (ApiKey * string) * Database :=
  hostActionsKey now applications id secret g raw true.

(** Reads the key and signs in with it, which notes its use. *)
Definition VerifyHostActionsKey (now : Z) (applications : gmap string HostApplication) (g : HostActionsGrant) (raw : string) (db : Database)
  : result Principal * Database :=
  match (hostActionsKey now applications EmptyString EmptyString g raw false db).1 with
  | Err e => (Err e, db)
  | Ok _ => Authenticate now raw db
  end.
End host_actions.
