(* ===== verification/Devices.v ===== *)
(** Signing in from a device (internal/store: device.go, oauth.go): a device starts
    a code, a person approves it in a browser and the device redeems it once for a
    session; an OAuth client does the same with PKCE. *)
From S2P Require Import Prelude GoStd StoreErrors GoNet Regex Platform License Principals Credentials.
#[global] Open Scope Z_scope.

Definition ErrPending : error := Errorf "authorization_pending" [].
Definition ErrSlowDown : error := Errorf "slow_down" [].
Definition ErrDenied : error := Errorf "access_denied" [].
Definition ErrUnknownOAuthClient : error := Errorf "unknown client or unregistered redirect_uri" [].

Record DeviceAuthorization : Type := mkAuthorization { da_DeviceCode : string; da_UserCode : string; da_ExpiresIn : Z; da_Interval : Z }.

Record DeviceDetailsV : Type := mkDetails {
  dd_Scopes : list DeviceScope;
  dd_ScopeID : string;
  dd_UserCode : string;
  dd_Project : string;
  dd_Environment : string;
  dd_Permissions : list string;
  dd_ExpiresAt : Z;
}.

(** [oauthGrant]: empty for a code the command line starts. *)
Record oauthGrant : Type := mkGrant { g_identity : string; g_client : string; g_redirectURI : string; g_challenge : string }.
Definition no_grant : oauthGrant := mkGrant "" "" "" "".

Record OAuthExchange : Type := mkExchange { x_ClientID : string; x_RedirectURI : string; x_Verifier : string }.

Record OAuthClient : Type := mkClient { oc_Name : string; oc_RedirectURIs : list string; oc_LastUsedAt : Z }.

(** * User codes *)

Definition base32_char (v : Z) : ascii := ascii_of_nat (Z.to_nat (if v <? 26 then v + 65 else v + 24)).

(** Eight characters for five bytes, given as one number, in two groups of four. *)
Definition user_code (random : Z) : string :=
  let c i := base32_char (Z.shiftr random (35 - 5 * i) mod 32) in
  String (c 0) (String (c 1) (String (c 2) (String (c 3)
    ("-" +:+ String (c 4) (String (c 5) (String (c 6) (String (c 7) EmptyString))))))).

Definition normalizeUserCode (code : string) : string :=
  let code := ToUpper (remove_byte "-" (TrimSpace code)) in
  if negb (len code =? 8) then EmptyString else String.substring 0 4 code +:+ "-" +:+ String.substring 4 4 code.

(** * Codes *)

Section devices.
Context `{Issuer} `{!Server} `{RangeOrder} `{Host}.

(** [token1] and [token2] are the two identifiers of the token, [id] that of the row. *)
Definition startDevice (now : Z) (id token1 token2 : string) (random : Z) (project environment : string) (permissions : list string)
    (grant : oauthGrant) (db : Database) : result DeviceAuthorization * Database :=
  commit db (
    _ ← fail_when (negb (Bool.eqb (is_empty project) (is_empty environment))) ErrInput;
    permissions ← devicePermissions permissions;
    let scoped := negb (is_empty project) || negb (is_empty environment) || non_nil DeviceScopes in
    _ ← fail_when (contains permissions "nodes:terminal" && scoped) ErrForbidden;
    _ ← fail_when (contains permissions "agent:admin" && scoped) ErrForbidden;
    _ ← fail_when (negb (is_empty project) && negb (non_nil DeviceScopes) && negb (bool_decide ((project, environment) ∈ db.(environments)))) ErrInput;
    let token := token1 +:+ token2 in
    let codes := filter (λ r, negb (r.2.(dc_ExpiresAt) <? now) = true) db.(device_codes) in
    _ ← fail_when (1000 <=? lenm codes) ErrBusy;
    _ ← fail_when (has_key codes id || existsb (λ r, (r.2.(dc_UserCode) =? user_code random)%string) (map_to_list codes) ||
                   negb (is_empty grant.(g_identity)) && negb (has_key db.(identities) grant.(g_identity))) ErrConstraint;
    let code := mkDeviceCode (sha256_Sum token) (user_code random) project environment permissions
      (if is_empty grant.(g_identity) then None else Some grant.(g_identity)) None false EmptyString (now + 600) None None
      grant.(g_client) grant.(g_redirectURI) grant.(g_challenge) in
    Ok (mkAuthorization token (user_code random) 600 5, set_device_codes (<[id := code]> codes) db)).

Definition StartDevice (now : Z) (id token1 token2 : string) (random : Z) (project environment : string) (permissions : list string)
    : Database → result DeviceAuthorization * Database :=
  startDevice now id token1 token2 random project environment permissions no_grant.

(** [... AND consumed_at IS NULL AND expires_at>now()] *)
Definition open_code (now : Z) (c : DeviceCode) : bool := negb (non_nil c.(dc_ConsumedAt)) && (now <? c.(dc_ExpiresAt)).

(** The row of the table that satisfies a condition. *)
Definition find_code (f : DeviceCode → bool) (db : Database) : option (string * DeviceCode) :=
  head (filter (λ r, f r.2 = true) (range db.(device_codes))).

(** The environments in which the person may deploy. *)
Definition deviceScopes (db : Database) (now : Z) (p : Principal) : result (list DeviceScope) :=
  _ ← fail_when (negb (Principal_IsHuman p) || p.(p_MFARequired)) ErrForbidden;
  match DeviceScopes with
  | Some scopes => scopes now p
  | None =>
      Ok ((λ e, mkDeviceScope EmptyString (e.1 +:+ " / " +:+ e.2) e.1 e.2 None) <$>
          filter (λ e, Principal_Allows p "deployments:write" e.1 e.2 EmptyString = true) (take 1000 (merge_sort role_le db.(environments))))
  end.

Definition DeviceDetails (now : Z) (p : Principal) (code : string) (db : Database) : result DeviceDetailsV :=
  _ ← fail_when (negb (p.(p_CredentialType) =? "browser")%string) ErrForbidden;
  match find_code (λ c, (c.(dc_UserCode) =? normalizeUserCode code)%string && open_code now c) db with
  | None => Err ErrNoRows
  | Some (_, c) =>
      let details := λ scopes, mkDetails scopes c.(dc_ScopeID) c.(dc_UserCode) c.(dc_Project) c.(dc_Environment) c.(dc_Permissions) c.(dc_ExpiresAt) in
      if contains c.(dc_Permissions) "agent:admin" then
        _ ← fail_when (negb (Principal_IsAdmin p) || non_nil DeviceScopes || negb (is_empty c.(dc_Project)) || negb (is_empty c.(dc_Environment)))
              ErrForbidden;
        Ok (details [mkDeviceScope "installation" "This installation" "" "" None])
      else if contains c.(dc_Permissions) "nodes:terminal" then
        _ ← fail_when (p.(p_MFARequired) || negb (Principal_IsHuman p) || non_nil DeviceScopes || (lenl p.(p_HostPermissions) =? 0)) ErrForbidden;
        Ok (details [mkDeviceScope "host" "Your granted host access" "" "" None])
      else
        scopes ← deviceScopes db now p;
        Ok (details scopes)
  end.

Definition approve_row (identity : string) (approve verified : bool) (project environment scope : string) (c : DeviceCode) : DeviceCode :=
  mkDeviceCode c.(dc_Digest) c.(dc_UserCode) project environment c.(dc_Permissions) (Some identity) (Some approve) verified scope
    c.(dc_ExpiresAt) c.(dc_ConsumedAt) c.(dc_LastPolledAt) c.(dc_ClientID) c.(dc_RedirectURI) c.(dc_Challenge).

(** The selected scope as the project, environment and scope of the session. *)
Definition consent (p : Principal) (v : DeviceDetailsV) (selected : list DeviceScope) : result (string * string * string) :=
  let picked := λ id, match selected with [s] => (s.(ds_ID) =? id)%string && is_empty s.(ds_Project) && is_empty s.(ds_Environment) | _ => false end in
  _ ← fail_when (contains v.(dd_Permissions) "agent:admin" && (negb (picked "installation") || negb (Principal_IsAdmin p))) ErrForbidden;
  _ ← fail_when (contains v.(dd_Permissions) "nodes:terminal" && negb (contains v.(dd_Permissions) "agent:admin") && negb (picked "host")) ErrForbidden;
  let choice := match selected with s :: _ => s | [] => mkDeviceScope EmptyString EmptyString v.(dd_Project) v.(dd_Environment) None end in
  _ ← fail_when (negb (is_empty v.(dd_Project)) &&
        (negb (choice.(ds_Project) =? v.(dd_Project))%string || negb (choice.(ds_Environment) =? v.(dd_Environment))%string)) ErrForbidden;
  match head (filter (λ s, (s.(ds_ID) =? choice.(ds_ID))%string && (s.(ds_Project) =? choice.(ds_Project))%string &&
                           (s.(ds_Environment) =? choice.(ds_Environment))%string = true) v.(dd_Scopes)) with
  | None => Err ErrForbidden
  | Some scope =>
      _ ← fail_when (non_nil DeviceScopes && negb (deviceScopeAllows scope v.(dd_Permissions))) ErrForbidden;
      _ ← fail_when (negb (non_nil DeviceScopes) && negb (scope.(ds_ID) =? "host")%string &&
            negb (forallb (λ permission, Principal_Allows p permission scope.(ds_Project) scope.(ds_Environment) EmptyString) v.(dd_Permissions)))
            ErrForbidden;
      Ok (scope.(ds_Project), scope.(ds_Environment), scope.(ds_ID))
  end.

Definition ApproveDevice (now : Z) (p : Principal) (code : string) (approve : bool) (selected : list DeviceScope) (db : Database)
  : result unit * Database :=
  commit db (
    v ← DeviceDetails now p code db;
    '(project, environment, scope) ← (if approve then consent p v selected else Ok (v.(dd_Project), v.(dd_Environment), v.(dd_ScopeID)));
    match find_code (λ c, (c.(dc_UserCode) =? v.(dd_UserCode))%string && negb (non_nil c.(dc_Approved)) && open_code now c &&
                          (is_empty c.(dc_ClientID) || (or_empty c.(dc_IdentityID) =? p.(p_ID))%string && non_nil c.(dc_IdentityID))) db with
    | None => Err ErrConflict
    | Some (id, _) =>
        Ok (tt, set_device_codes (alter (approve_row p.(p_ID) approve p.(p_MFAVerified) project environment scope) id db.(device_codes)) db)
    end).

(** * Redemption *)

Definition OAuthExchange_matches (x : OAuthExchange) (client redirectURI challenge : string) : bool :=
  (43 <=? len x.(x_Verifier)) && (len x.(x_Verifier) <=? 128) && (x.(x_ClientID) =? client)%string &&
  (x.(x_RedirectURI) =? redirectURI)%string && (RawURL_Encode (sha256_Sum x.(x_Verifier)) =? challenge)%string.

Definition set_dc_ConsumedAt (t : option Z) (c : DeviceCode) : DeviceCode :=
  mkDeviceCode c.(dc_Digest) c.(dc_UserCode) c.(dc_Project) c.(dc_Environment) c.(dc_Permissions) c.(dc_IdentityID) c.(dc_Approved)
    c.(dc_MFAVerified) c.(dc_ScopeID) c.(dc_ExpiresAt) t c.(dc_LastPolledAt) c.(dc_ClientID) c.(dc_RedirectURI) c.(dc_Challenge).
Definition set_dc_LastPolledAt (t : option Z) (c : DeviceCode) : DeviceCode :=
  mkDeviceCode c.(dc_Digest) c.(dc_UserCode) c.(dc_Project) c.(dc_Environment) c.(dc_Permissions) c.(dc_IdentityID) c.(dc_Approved)
    c.(dc_MFAVerified) c.(dc_ScopeID) c.(dc_ExpiresAt) c.(dc_ConsumedAt) t c.(dc_ClientID) c.(dc_RedirectURI) c.(dc_Challenge).

Definition update_code (id : string) (f : DeviceCode → DeviceCode) (db : Database) : Database := set_device_codes (alter f id db.(device_codes)) db.

Definition set_s_ScopeID (scope : string) (s : Session) : Session :=
  mkSession scope s.(s_Token) s.(s_User) s.(s_ExpiresAt) s.(s_OnboardingRequired).

(** Whether the session may keep what it was issued for, and its scope. *)
Definition session_scope (db : Database) (now : Z) (p : Principal) (project environment scopeID : string) (permissions : list string)
  : option string :=
  if contains permissions "agent:admin" then
    if negb (scopeID =? "installation")%string || non_nil DeviceScopes || negb (Principal_CanUseInstallationAgentAdministration p) then None
    else Some "installation"
  else if contains permissions "nodes:terminal" then
    if negb (scopeID =? "host")%string || negb (Principal_CanUseHostCredential p) || (lenl p.(p_HostPermissions) =? 0) then None
    else Some "host"
  else if non_nil DeviceScopes then
    match deviceScopes db now p with
    | Ok scopes =>
        if negb (existsb (λ s, (s.(ds_ID) =? scopeID)%string && (s.(ds_Project) =? project)%string && (s.(ds_Environment) =? environment)%string &&
                               deviceScopeAllows s permissions) scopes) || is_empty scopeID then None
        else Some scopeID
    | Err _ => None
    end
  else if forallb (λ permission, Principal_Allows p permission project environment EmptyString) permissions then Some EmptyString
  else None.

(** A session that may not keep it is revoked; the row of its scope cannot clash,
    as its key is new. *)
Definition issueDeviceSession (now : Z) (id secret : string) (identity project environment scopeID : string) (permissions : list string)
    (verified : bool) (db : Database) : result Session * Database :=
  match NewVerifiedSession now id secret identity "cli" project environment permissions verified db with
  | (Err e, db) => (Err e, db)
  | (Ok session, db) =>
      let p := session.(s_User) in
      let revoked := (RevokeSession now p p.(p_KeyID) db).2 in
      match session_scope db now p project environment scopeID permissions with
      | None => (Err ErrForbidden, revoked)
      | Some scope =>
          let record := non_nil DeviceScopes && negb (contains permissions "agent:admin") && negb (contains permissions "nodes:terminal") in
          if record && has_key db.(device_session_scopes) p.(p_KeyID) then (Err ErrConstraint, revoked)
          else (Ok (set_s_ScopeID scope session),
                if record then set_device_session_scopes (<[p.(p_KeyID) := scopeID]> db.(device_session_scopes)) db else db)
      end
  end.

Definition pollDevice (now : Z) (id secret : string) (token : string) (exchange : option OAuthExchange) (db : Database)
  : result Session * Database :=
  if negb (len token =? 64) then (Err ErrUnauthorized, db)
  else match find_code (λ c, (c.(dc_Digest) =? sha256_Sum token)%string && open_code now c) db with
  | None => (Err ErrUnauthorized, db)
  | Some (row, c) =>
      if negb (Bool.eqb (is_empty c.(dc_ClientID)) (negb (non_nil exchange))) then (Err ErrUnauthorized, db)
      else
        let issue := issueDeviceSession now id secret (or_empty c.(dc_IdentityID)) c.(dc_Project) c.(dc_Environment) c.(dc_ScopeID)
                       c.(dc_Permissions) c.(dc_MFAVerified) in
        match exchange with
        | Some exchange =>
            let db := update_code row (set_dc_ConsumedAt (Some now)) db in
            match c.(dc_Approved) with
            | None => (Err ErrUnauthorized, db)
            | Some approved =>
                if negb (OAuthExchange_matches exchange c.(dc_ClientID) c.(dc_RedirectURI) c.(dc_Challenge)) then (Err ErrUnauthorized, db)
                else if negb approved then (Err ErrDenied, db)
                else issue db
            end
        | None =>
            if match c.(dc_LastPolledAt) with Some t => now - t <? 5 | None => false end then (Err ErrSlowDown, db)
            else
              let db := update_code row (set_dc_LastPolledAt (Some now)) db in
              match c.(dc_Approved) with
              | None => (Err ErrPending, db)
              | Some approved =>
                  let db := update_code row (set_dc_ConsumedAt (Some now)) db in
                  if negb approved then (Err ErrDenied, db) else issue db
              end
        end
  end.

Definition PollDevice (now : Z) (id secret token : string) : Database → result Session * Database := pollDevice now id secret token None.

Definition ExchangeOAuthCode (now : Z) (id secret code : string) (exchange : OAuthExchange) : Database → result Session * Database :=
  pollDevice now id secret code (Some exchange).

(** * OAuth clients *)

Definition pkceChallenge : regex := RRep (RCls (λ c, upper c || lower c || digit c || any_of "_-" c)) 43 43.

(** [net.ParseIP(host)] is a loopback address. *)
Definition loopback_ip (host : string) : bool :=
  match ParseAddr host with Some a => is_empty (Zone a) && IsLoopback a | None => false end.

Definition ValidRedirectURI (raw : string) : bool :=
  match url_Parse raw with
  | None => false
  | Some u =>
      if (2000 <? len raw) || Contains raw "#" || u.(u_has_User) || negb (is_empty u.(u_Opaque)) || is_empty u.(u_Hostname) then false
      else if (u.(u_Scheme) =? "https")%string then true
      else if (u.(u_Scheme) =? "http")%string then (u.(u_Hostname) =? "localhost")%string || loopback_ip u.(u_Hostname)
      else false
  end.

(** The table of clients is apart from the others. *)
Definition RegisterOAuthClient (now : Z) (id name : string) (redirectURIs : list string) (clients : gmap string OAuthClient)
  : result (OAuthClient * gmap string OAuthClient) :=
  let name := TrimSpace name in
  _ ← fail_when ((100 <? lenl (decode name)) || (lenl redirectURIs =? 0) || (10 <? lenl redirectURIs)) ErrInput;
  _ ← iterM (λ uri, fail_when (negb (ValidRedirectURI uri)) ErrInput) redirectURIs;
  let name := if is_empty name then "MCP client" else name in
  let clients := filter (λ c, negb (c.2.(oc_LastUsedAt) <? now - 30 * 86400) = true) clients in
  _ ← fail_when (1000 <=? lenm clients) ErrBusy;
  _ ← fail_when (has_key clients id) ErrConstraint;
  let client := mkClient name redirectURIs now in
  Ok (client, <[id := client]> clients).

Definition StartOAuthDevice (now : Z) (id token1 token2 : string) (random : Z) (p : Principal) (clientID redirectURI challenge project environment : string)
    (permissions : list string) (clients : gmap string OAuthClient) (db : Database)
  : result DeviceAuthorization * gmap string OAuthClient * Database :=
  if negb (p.(p_CredentialType) =? "browser")%string then (Err ErrForbidden, clients, db)
  else if is_empty project || negb (full_match pkceChallenge challenge) then (Err ErrInput, clients, db)
  else match clients !! clientID with
  | None => (Err ErrUnknownOAuthClient, clients, db)
  | Some client =>
      let clients := <[clientID := mkClient client.(oc_Name) client.(oc_RedirectURIs) now]> clients in
      if negb (one_of redirectURI client.(oc_RedirectURIs)) then (Err ErrUnknownOAuthClient, clients, db)
      else
        let '(v, db) := startDevice now id token1 token2 random project environment permissions
                          (mkGrant p.(p_ID) clientID redirectURI challenge) db in
        (v, clients, db)
  end.
End devices.
