(* ===== verification/CredentialSafety.v ===== *)
(** What holds of credentials whatever is done to them: the steps of the store on
    its tables, how a key changes over them, and the guarantees about tokens,
    sessions and scopes. *)
From S2P Require Import Prelude GoStd StoreErrors SpecTypes Regex License Principals Credentials.
#[global] Open Scope Z_scope.

(** * Keys over time *)

(** Revoked, or past its expiry. *)
Definition ended (now : Z) (k : ApiKey) : Prop := non_nil k.(k_RevokedAt) = true ∨ ∃ t, k.(k_ExpiresAt) = Some t ∧ t <= now.

(** What a key is for, which never changes. *)
Definition key_scope (k : ApiKey) : string * string * string * string * string * string * string * list string :=
  (k.(k_IdentityID), k.(k_Name), k.(k_Digest), k.(k_Kind), k.(k_Project), k.(k_Environment), k.(k_Application), k.(k_Permissions)).

(** [k'] is [k] at a later moment: no statement revives a key that has ended, and a
    key that never expires was created so. *)
Record key_later (now : Z) (k k' : ApiKey) : Prop := mkLater {
  later_scope : key_scope k' = key_scope k;
  later_shape : expiry_shape k = true → expiry_shape k' = true;
  later_ended : expiry_shape k = true → ended now k → ended now k';
  later_never : k'.(k_NeverExpires) = true → k.(k_NeverExpires) = true ∧ k'.(k_AdminNeverExpires) = k.(k_AdminNeverExpires);
  later_revoked : non_nil k.(k_RevokedAt) = true → non_nil k'.(k_RevokedAt) = true;
}.

(** The scope of a command-line session. *)
Definition cli_ok (project environment : string) (permissions : list string) : Prop :=
  (project ≠ EmptyString ∧ environment ≠ EmptyString ∧ "agent:admin" ∉ permissions) ∨
  (project = EmptyString ∧ environment = EmptyString ∧ devicePermissions permissions = Ok permissions ∧
   ("agent:admin" ∈ permissions ∨ permissions = ["nodes:terminal"])).

Definition key_ok (k : ApiKey) : Prop :=
  expiry_shape k = true ∧
  ((k.(k_Kind) = "machine" ∧ validKeyFields k.(k_Name) k.(k_Project) k.(k_Environment) k.(k_Application) k.(k_Permissions) = Ok tt) ∨
   (k.(k_Kind) = "browser" ∧ k.(k_Permissions) = ["admin"] ∧ k.(k_Project) = EmptyString ∧ k.(k_Environment) = EmptyString) ∨
   (k.(k_Kind) = "cli" ∧ cli_ok k.(k_Project) k.(k_Environment) k.(k_Permissions)) ∨
   (k.(k_Kind) = "integration" ∧ k.(k_Permissions) = ["deployments:read"; "deployments:write"])).

Lemma key_later_refl now k : key_later now k k.
Proof. by split. Qed.

Lemma key_later_trans now k1 k2 k3 : key_later now k1 k2 → key_later now k2 k3 → key_later now k1 k3.
Proof.
  intros [S1 P1 E1 N1 R1] [S2 P2 E2 N2 R2]. split; [congruence|auto|auto| |auto].
  intros [H2 HA2]%N2. destruct (N1 H2) as [H1 HA1]. split; [done|congruence].
Qed.

Lemma key_later_ok now k k' : key_later now k k' → key_ok k → key_ok k'.
Proof. intros [S P _ _ _] [Hs Hk]. split; [auto|]. injection S as S1 S2 S3 S4 S5 S6 S7 S8. by rewrite S2, S4, S5, S6, S7, S8. Qed.

Lemma ended_mono now now' k : now <= now' → ended now k → ended now' k.
Proof. intros Hle [Hr|(t & Ht & Hlt)]; [by left|right; exists t; split; [done|lia]]. Qed.

Lemma touch_later now k : key_later now k (touch now k).
Proof. unfold touch. destruct (match k_LastUsedAt k with Some _ => _ | None => _ end); [by split|apply key_later_refl]. Qed.

Lemma revoke_later now t k : key_later now k (revoke t k).
Proof. split; try done; [by intros _ _; left]. Qed.

Lemma revoke_once_later now t k : key_later now k (revoke_once t k).
Proof. unfold revoke_once. destruct (non_nil _); [apply key_later_refl|apply revoke_later]. Qed.

Lemma edit_later now k k' : key_edit now k k' → key_later now k k'.
Proof. destruct 1; [apply key_later_refl|apply revoke_later|apply revoke_once_later|by split]. Qed.

(** A rotated key was still alive. *)
Lemma overlap_later now admin_never k : (expiry_shape k = true → ¬ ended now k) → key_later now k (set_k_ExpiresAt (overlap now k.(k_ExpiresAt)) false admin_never k).
Proof. intros Hne. split; try done. intros Hs He. by destruct (Hne Hs). Qed.

(** * The table of keys *)

Definition sessions_of (identity : string) (m : gmap string ApiKey) : gmap string ApiKey := filter (λ r, session_of identity r.2 = true) m.

Inductive keys_change (now : Z) : gmap string ApiKey → gmap string ApiKey → Prop :=
  | change_insert m id k : m !! id = None → key_ok k → human_kind k.(k_Kind) = false → keys_change now m (<[id := k]> m)
  | change_update m id k k' : m !! id = Some k → key_later now k k' → keys_change now m (<[id := k']> m)
  | change_rows m m' : map_Forall2 (λ _, key_later now) m m' → keys_change now m m'
  | change_session m id k : m !! id = None → key_ok k → (size (sessions_of k.(k_IdentityID) m) <= 19)%nat →
      keys_change now m (<[id := k]> m).

Definition keys_ok (m : gmap string ApiKey) : Prop := map_Forall (λ _, key_ok) m.

Lemma keys_change_ok now m m' : keys_change now m m' → keys_ok m → keys_ok m'.
Proof.
  intros Hc Hm. destruct Hc as [m id k Hid Hk _|m id k k' Hk Hl|m m' Hl|m id k Hid Hk _]; try (apply map_Forall_insert_2; done).
  - apply map_Forall_insert_2; [|done]. by eapply key_later_ok, Hm.
  - intros id k' Hk'. specialize (Hl id). rewrite Hk' in Hl. inversion Hl as [k k1 Hl' E1 E2|]; subst. by eapply key_later_ok, Hm.
Qed.

(** Keys stay, and only grow older. *)
Definition keys_later (now : Z) (m m' : gmap string ApiKey) : Prop := ∀ id k, m !! id = Some k → ∃ k', m' !! id = Some k' ∧ key_later now k k'.

Lemma keys_change_later now m m' : keys_change now m m' → keys_later now m m'.
Proof.
  assert (∀ m id k', m !! id = None → keys_later now m (<[id := k']> m)) as Hins.
  { intros m0 id k' Hid id' k Hk. exists k. split; [rewrite lookup_insert_ne; [done|congruence]|apply key_later_refl]. }
  destruct 1 as [m id k Hid _ _|m id k k' Hk Hl|m m' Hl|m id k Hid _ _]; [by apply Hins| | |by apply Hins].
  - intros id0 k0 Hk0. destruct (decide (id = id0)) as [<-|Hne].
    + exists k'. rewrite lookup_insert_eq. split; [done|congruence].
    + exists k0. rewrite lookup_insert_ne by done. split; [done|apply key_later_refl].
  - intros id k Hk. specialize (Hl id). rewrite Hk in Hl. inversion Hl as [k1 k' Hl' E1 E2|]; subst. by exists k'.
Qed.

Lemma keys_later_refl now m : keys_later now m m.
Proof. intros id k Hk. exists k. split; [done|apply key_later_refl]. Qed.

Lemma keys_later_trans now m1 m2 m3 : keys_later now m1 m2 → keys_later now m2 m3 → keys_later now m1 m3.
Proof.
  intros H12 H23 id k Hk. destruct (H12 _ _ Hk) as (k2 & Hk2 & Hl2). destruct (H23 _ _ Hk2) as (k3 & Hk3 & Hl3).
  exists k3. split; [done|by eapply key_later_trans].
Qed.

(** At most twenty sessions of a person are open. *)
Definition sessions_bounded_by (n : nat) (m : gmap string ApiKey) : Prop := ∀ identity, (size (sessions_of identity m) <= n)%nat.

Lemma session_of_later now identity k k' : key_later now k k' → session_of identity k' = true → session_of identity k = true.
Proof.
  intros [S _ _ _ R]. unfold session_of. injection S as S1 _ _ S4 _ _ _ _. rewrite S1, S4.
  rewrite !andb_true_iff, !negb_true_iff. intros [Hk Hr]. split; [done|]. destruct (non_nil (k_RevokedAt k)); [by rewrite R in Hr|done].
Qed.

Lemma sessions_of_insert_le identity m id k : m !! id = None →
  (size (sessions_of identity (<[id := k]> m)) <= (if session_of identity k then 1 else 0) + size (sessions_of identity m))%nat.
Proof.
  intros Hid. unfold sessions_of. destruct (session_of identity k) eqn:Hk.
  - rewrite map_filter_insert_True by done. rewrite map_size_insert. destruct (filter _ m !! id); cbn; lia.
  - rewrite map_filter_insert_False by (cbn; by rewrite Hk). by rewrite delete_id.
Qed.

(** No session opens where rows only lose what makes them one. *)
Lemma sessions_of_le identity m m' :
  (∀ id k', m' !! id = Some k' → session_of identity k' = true → ∃ k, m !! id = Some k ∧ session_of identity k = true) →
  (size (sessions_of identity m') <= size (sessions_of identity m))%nat.
Proof.
  intros Hm. rewrite <-!size_dom. apply subseteq_size. intros id [k' [Hk' Hs]%map_lookup_filter_Some]%elem_of_dom. apply elem_of_dom.
  destruct (Hm id k' Hk' Hs) as (k & Hk & Hs'). exists k. by apply map_lookup_filter_Some.
Qed.

Lemma sessions_of_update_le identity m id k k' : m !! id = Some k → (session_of identity k' = true → session_of identity k = true) →
  (size (sessions_of identity (<[id := k']> m)) <= size (sessions_of identity m))%nat.
Proof.
  intros Hk Hl. apply sessions_of_le. intros id' k0 [[<- <-]|[_ Hk0]]%lookup_insert_Some Hs; [by exists k; auto|by exists k0].
Qed.

Lemma keys_change_bounded now m m' : keys_change now m m' → sessions_bounded_by 20 m → sessions_bounded_by 20 m'.
Proof.
  intros Hc Hm identity. specialize (Hm identity). destruct Hc as [m id k Hid _ Hh|m id k k' Hk Hl|m m' Hl|m id k Hid _ Hn].
  - pose proof (sessions_of_insert_le identity m id k Hid) as Hi. unfold session_of in Hi. rewrite Hh, andb_false_r in Hi. cbn in Hi. lia.
  - pose proof (sessions_of_update_le identity m id k k' Hk (session_of_later _ identity _ _ Hl)). lia.
  - etrans; [|exact Hm]. apply sessions_of_le. intros id k' Hk' Hs. specialize (Hl id). rewrite Hk' in Hl. inversion Hl as [k k1 Hl' E1 E2|]; subst.
    exists k. split; [done|by eapply session_of_later].
  - pose proof (sessions_of_insert_le identity m id k Hid) as Hi. destruct (session_of identity k) eqn:Hs; [|lia].
    unfold session_of in Hs. apply andb_true_iff in Hs as [[He%String.eqb_eq _]%andb_true_iff _]. rewrite He in Hn. lia.
Qed.

Lemma keys_changes now m m' : rtc (keys_change now) m m' →
  keys_later now m m' ∧ (keys_ok m → keys_ok m') ∧ (sessions_bounded_by 20 m → sessions_bounded_by 20 m').
Proof.
  induction 1 as [m|m1 m2 m3 H12 _ (IHl & IHo & IHb)]; [split_and!; [apply keys_later_refl|done..]|]. split_and!.
  - eapply keys_later_trans; [by apply keys_change_later|done].
  - intros Hm. by apply IHo, (keys_change_ok now m1).
  - intros Hm. by apply IHb, (keys_change_bounded now m1).
Qed.

(** * What each operation does to the table of keys *)

Section operations.
Context `{Issuer} `{!Server} `{RangeOrder}.

Definition keys_step (now : Z) (db db' : Database) : Prop := rtc (keys_change now) db.(api_keys) db'.(api_keys).

#[export] Instance keys_step_po now : PreOrder (keys_step now).
Proof. split; [intros db; apply rtc_refl|intros db1 db2 db3; apply rtc_trans]. Qed.

Lemma commit_step {A} (P : Database → Prop) db (r : result (A * Database)) :
  (∀ a db', r = Ok (a, db') → P db') → P db → P (commit db r).2.
Proof. intros Hok Hdb. destruct r as [[a db']|e]; [by eapply Hok|done]. Qed.

Lemma alter_present {A} (f : A → A) (m : gmap string A) id x : m !! id = Some x → alter f id m = <[id := f x]> m.
Proof.
  intros Hx. apply map_eq. intros j. destruct (decide (id = j)) as [<-|Hne].
  - by rewrite lookup_alter_eq, Hx, lookup_insert_eq.
  - by rewrite lookup_alter_ne, lookup_insert_ne.
Qed.

Lemma alter_absent {A} (f : A → A) (m : gmap string A) id : m !! id = None → alter f id m = m.
Proof.
  intros Hx. apply map_eq. intros j. destruct (decide (id = j)) as [<-|Hne]; [by rewrite lookup_alter_eq, Hx|by rewrite lookup_alter_ne].
Qed.

Lemma update_key_step now id f db : (∀ k, db.(api_keys) !! id = Some k → key_later now k (f k)) → keys_step now db (update_key id f db).
Proof.
  intros Hf. unfold keys_step, update_key. cbn [api_keys set_api_keys]. destruct (db.(api_keys) !! id) as [k|] eqn:Hk.
  - rewrite (alter_present _ _ _ _ Hk). apply rtc_once, change_update with k; [done|by apply Hf].
  - rewrite alter_absent by done. apply rtc_refl.
Qed.

Lemma insert_key_Ok id k db db' : insert_key id k db = Ok db' →
  db' = set_api_keys (<[id := k]> db.(api_keys)) db ∧ db.(api_keys) !! id = None ∧ expiry_shape k = true ∧ is_Some (db.(identities) !! k.(k_IdentityID)).
Proof.
  unfold insert_key. intros Hi. inv_ok. split_orb. unfold has_key in *. split_and!; [done| |done|].
  - by destruct (api_keys db !! id).
  - destruct (identities db !! k_IdentityID k); [by eexists|done].
Qed.

Lemma machine_key_step now id (k : ApiKey) db db' : insert_key id k db = Ok db' → k.(k_Kind) = "machine" →
  validKeyFields k.(k_Name) k.(k_Project) k.(k_Environment) k.(k_Application) k.(k_Permissions) = Ok tt → keys_step now db db'.
Proof.
  intros (-> & Hid & Hs & _)%insert_key_Ok Hk Hv. apply rtc_once, change_insert; [done| |by rewrite Hk]. split; [done|by left].
Qed.

Lemma validKeyInput_fields now i never : validKeyInput now i never = Ok tt →
  validKeyFields i.(ki_Name) i.(ki_Project) i.(ki_Environment) i.(ki_Application) i.(ki_Permissions) = Ok tt.
Proof. unfold validKeyInput. by intros [_ Hf]%bind_unit_Ok. Qed.

Lemma CreateKey_step now id secret p i db : keys_step now db (CreateKey now id secret p i db).2.
Proof.
  apply (commit_step (keys_step now db)); [|apply rtc_refl]. intros [k raw] db'. unfold makeKey. intros Hc. inv_ok. simplify_eq.
  exact (machine_key_step now _ _ _ _ Hok2 eq_refl (validKeyInput_fields _ _ _ Hok0)).
Qed.

Lemma Bootstrap_step now ident id secret name db : keys_step now db (Bootstrap now ident id secret name db).2.
Proof.
  apply (commit_step (keys_step now db)); [|reflexivity]. intros raw db'. unfold makeKey. intros Hc. inv_ok. simplify_eq.
  exact (machine_key_step now _ _ _ _ Hok0 eq_refl eq_refl).
Qed.

Lemma rotated_later now admin_never db id k : db.(api_keys) !! id = Some k → negb (non_nil k.(k_RevokedAt)) = true →
  match k.(k_ExpiresAt) with Some t => now <? t | None => false end || k.(k_NeverExpires) = true →
  key_later now k (set_k_ExpiresAt (overlap now k.(k_ExpiresAt)) false admin_never k).
Proof.
  intros Hk Hr He. apply overlap_later. intros Hs [Hr'|(t & Ht & Hlt)]; [by rewrite Hr' in Hr|].
  rewrite Ht in He. unfold expiry_shape in Hs. rewrite Ht in Hs. destruct (k_NeverExpires k); [done|]. rewrite orb_false_r in He. lia.
Qed.

Lemma RotateKey_step now id secret p old expires never db : keys_step now db (RotateKey now id secret p old expires never db).2.
Proof.
  apply (commit_step (keys_step now db)); [|reflexivity]. intros [k raw] db'. unfold makeKey. intros Hc. inv_ok. simplify_eq.
  destruct (api_keys db !! old) as [ko|] eqn:Ho; [|done]. destruct (_ || _) eqn:Hg in Hok0; [done|]. inv_ok. split_orb.
  pose proof (insert_key_Ok _ _ _ _ Hok2) as (Ha & Hid & _ & _).
  etrans; [exact (machine_key_step now _ _ _ _ Hok2 eq_refl (validKeyInput_fields _ _ _ Hok1))|].
  apply (update_key_step now old). intros k0. rewrite Ha. cbn [api_keys set_api_keys].
  rewrite lookup_insert_ne by congruence. rewrite Ho. intros [= <-]. by eapply rotated_later; [done|rewrite negb_true_iff|].
Qed.

Lemma CreateBoundKey_step now id secret p i scope binding rotate never db :
  keys_step now db (CreateBoundKey now id secret p i scope binding rotate never db).2.
Proof.
  apply (commit_step (keys_step now db)); [|reflexivity]. intros [k raw] db'. unfold makeKey. intros Hc. inv_ok. simplify_eq.
  apply orb_false_iff in Hok1 as [[[_ Happ%negb_false_iff%is_empty_spec]%orb_false_iff _]%orb_false_iff _].
  unfold validBoundKeyInput in Hok0. apply bind_unit_Ok in Hok0 as [_ Hv]. rewrite Happ in Hv.
  etrans; [|exact (machine_key_step now _ _ _ _ Hok4 eq_refl Hv)].
  destruct (is_empty rotate); [injection Hok2 as ->; reflexivity|]. destruct (api_keys db !! rotate) as [old|] eqn:Ho; [|done].
  destruct (automation_key_scopes db !! rotate) as [[oldScope oldBinding]|]; [|done]. inv_ok. unfold bound_live in *. split_orb.
  apply update_key_step. intros k0. rewrite Ho. intros [= <-]. by eapply rotated_later; [done|rewrite negb_true_iff|].
Qed.

Lemma RevokeBoundKey_step now p scope id db : keys_step now db (RevokeBoundKey now p scope id db).2.
Proof.
  apply (commit_step (keys_step now db)); [|reflexivity]. intros [] db' Hc. inv_ok. simplify_eq.
  apply (update_key_step now id). intros k _. apply revoke_once_later.
Qed.

Lemma revokeKey_step now p id db : keys_step now db (revokeKey now p id db).2.
Proof.
  apply (commit_step (keys_step now db)); [|reflexivity]. intros [] db' Hc. inv_ok. simplify_eq.
  apply (update_key_step now id). intros k _. apply revoke_once_later.
Qed.

Lemma NewSourceGrant_step now id digest p project environment app db id' db' :
  NewSourceGrant now id digest p project environment app db = Ok (id', db') → keys_step now db db'.
Proof.
  unfold NewSourceGrant. intros Hc. inv_ok. simplify_eq. apply insert_key_Ok in Hok0 as (-> & Hid & Hs & _).
  apply rtc_once, change_insert; [done| |done]. split; [done|]. by do 3 right.
Qed.

Lemma showcase_grant_step now id digest owner db id' db' : showcase_grant now id digest owner db = Ok (id', db') → keys_step now db db'.
Proof.
  unfold showcase_grant. intros [[grant db1] [Hg [= <- <-]]]%bind_Ok. unfold NewSourceGrant in Hg. inv_ok. simplify_eq.
  apply insert_key_Ok in Hok0 as (-> & Hid & Hs & _). unfold keys_step, update_key. cbn [api_keys set_api_keys].
  rewrite (alter_present _ _ _ _ (lookup_insert_eq _ _ _)), insert_insert_eq.
  apply rtc_once, change_insert; [done| |done]. split; [done|]. by do 3 right.
Qed.

(** ** Renewal by the host *)

(** [k] is the key of the grant, and [raw] its token. *)
Record host_key (g : HostActionsGrant) (raw : string) (k : ApiKey) : Prop := {
  host_token : sha256_Sum raw = k.(k_Digest);
  host_kind : k.(k_Kind) = "machine";
  host_whose : k.(k_IdentityID) = g.(hg_OwnerIdentity) ∧ k.(k_Project) = g.(hg_Project) ∧ k.(k_Environment) = g.(hg_Environment);
  host_allowed : k.(k_Permissions) = host_permissions;
}.

(** One unrevoked key gets a new expiry. *)
Definition renewal (now : Z) (g : HostActionsGrant) (raw : string) (m m' : gmap string ApiKey) : Prop :=
  ∃ k, m !! token_id raw = Some k ∧ k.(k_RevokedAt) = None ∧ k.(k_NeverExpires) = false ∧ host_key g raw k ∧ m' = <[token_id raw := renew_key now k]> m.

Lemma renewal_ok now g raw m m' : renewal now g raw m m' → keys_ok m → keys_ok m'.
Proof.
  intros (k & Hk & _ & Hn & _ & ->) Hm. apply map_Forall_insert_2; [|done]. destruct (Hm _ _ Hk) as [_ Hok]. split; [|exact Hok].
  unfold expiry_shape. cbn. by rewrite Hn.
Qed.

Lemma renewal_bounded now g raw m m' : renewal now g raw m m' → sessions_bounded_by 20 m → sessions_bounded_by 20 m'.
Proof.
  intros (k & Hk & _ & _ & _ & ->) Hm identity. etrans; [|exact (Hm identity)]. by apply (sessions_of_update_le _ _ _ k).
Qed.

Lemma EnsureHostActionsKey_step now applications id secret g raw db :
  let r := EnsureHostActionsKey now applications id secret g raw db in
  keys_step now db r.2 ∨ is_ok r.1 = true ∧ is_empty raw = false ∧ renewal now g raw db.(api_keys) r.2.(api_keys).
Proof.
  cbv zeta. unfold EnsureHostActionsKey, hostActionsKey. match goal with |- context [commit db ?o] => destruct o as [[a db']|e] eqn:Ho end; cbn [commit fst snd];
    [|left; reflexivity].
  apply bind_unit_Ok in Ho as [_ Ho]. apply bind_unit_Ok in Ho as [_ Ho]. destruct (applications !! _) as [app|]; [|done].
  apply bind_unit_Ok in Ho as [_ Ho]. destruct (is_empty raw) eqn:Hraw.
  - left. unfold host_key_create, makeKey in Ho. inv_ok. simplify_eq.
    match goal with Hi : insert_key _ _ _ = Ok _, Hv : validKeyInput _ _ _ = Ok _ |- _ =>
      exact (machine_key_step now _ _ _ _ Hi eq_refl (validKeyInput_fields _ _ _ Hv)) end.
  - unfold host_key_renew in Ho. cbv zeta in Ho. destruct (api_keys db !! token_id raw) as [k|] eqn:Hk; [|done].
    destruct (automation_key_scopes db !! token_id raw) as [[scope binding]|]; [|done].
    apply bind_unit_Ok in Ho as [Hrev%fail_when_Ok Ho]. apply bind_unit_Ok in Ho as [Hm%fail_when_Ok%negb_false_iff Ho]. apply bind_unit_Ok in Ho as [_ Ho].
    destruct (true && _); [|injection Ho as <- <-; left; reflexivity]. injection Ho as <- <-. right. split_and!; [done|done|]. exists k.
    unfold host_key_matches in Hm. rewrite !andb_true_iff, !String.eqb_eq, bool_decide_eq_true in Hm.
    destruct Hm as ((((((((((M1 & M2) & M3%negb_true_iff) & M4) & M5) & M6) & M7) & M8) & M9) & M10) & M11).
    split_and!; [done|by destruct (k_RevokedAt k)|done|by split|]. cbn. by rewrite (alter_present _ _ _ _ Hk).
Qed.

Lemma RevokeSession_step now p id db : keys_step now db (RevokeSession now p id db).2.
Proof.
  apply (commit_step (keys_step now db)); [|reflexivity]. intros [] db' Hc. inv_ok.
  destruct (api_keys db !! _); [|done]. inv_ok. simplify_eq. apply update_key_step. intros k _. apply revoke_later.
Qed.

Lemma UpdateUser_step now p id disabled adm db : keys_step now db (UpdateUser p id disabled adm db).2.
Proof. apply (commit_step (keys_step now db)); [|reflexivity]. intros [] db' Hc. inv_ok. simplify_eq. apply rtc_refl. Qed.

Lemma Authenticate_step now raw db : keys_step now db (Authenticate now raw db).2.
Proof.
  unfold Authenticate. repeat case_goal; try reflexivity. apply update_key_step. intros k _. apply touch_later.
Qed.

(** ** Opening a session *)

Lemma revoke_list_step now l db : keys_step now db (fold_left (λ db (r : string * ApiKey), update_key r.1 (revoke now) db) l db).
Proof.
  revert db. induction l as [|r l IH]; intros db; [reflexivity|]. cbn [fold_left]. etrans; [|apply IH].
  apply update_key_step. intros k _. apply revoke_later.
Qed.

Lemma revoke_list_lookup now l db id k identity :
  api_keys (fold_left (λ db (r : string * ApiKey), update_key r.1 (revoke now) db) l db) !! id = Some k → session_of identity k = true →
  (id ∉ l.*1) ∧ db.(api_keys) !! id = Some k.
Proof.
  revert db. induction l as [|r l IH]; intros db; cbn [fold_left]; [intros Hk _; split; [set_solver|done]|].
  intros Hk Hs. destruct (IH _ Hk Hs) as [Hl Hk']. cbn [update_key api_keys set_api_keys] in Hk'. destruct (decide (r.1 = id)) as [<-|Hne].
  - rewrite lookup_alter_eq in Hk'. destruct (api_keys db !! r.1) as [k0|]; [|done]. injection Hk' as <-.
    unfold session_of in Hs. cbn in Hs. by rewrite andb_false_r in Hs.
  - rewrite lookup_alter_ne in Hk' by done. split; [|done]. rewrite fmap_cons. set_solver.
Qed.

Lemma open_sessions_perm db identity : open_sessions db identity ≡ₚ map_to_list (sessions_of identity db.(api_keys)).
Proof.
  unfold open_sessions, sessions_of. rewrite merge_sort_Permutation, range_perm. apply NoDup_Permutation.
  - apply NoDup_filter, NoDup_map_to_list.
  - apply NoDup_map_to_list.
  - intros [id k]. rewrite list_elem_of_filter, !elem_of_map_to_list, map_lookup_filter_Some. tauto.
Qed.

Lemma revoke_older_count now identity db : (size (sessions_of identity (revoke_older now identity db).(api_keys)) <= 19)%nat.
Proof.
  etrans; [|exact (firstn_le_length 19 (open_sessions db identity))]. rewrite <-(length_fmap fst).
  rewrite <-size_dom, <-(size_list_to_set (C := gset string) (take 19 (open_sessions db identity)).*1).
  - apply subseteq_size. intros id [k [Hk Hs]%map_lookup_filter_Some]%elem_of_dom. cbn in Hs.
    apply (revoke_list_lookup now _ db id k identity) in Hk as [Hid Hk]; [|done]. apply elem_of_list_to_set.
    assert ((id, k) ∈ open_sessions db identity) as Ho.
    { rewrite open_sessions_perm, elem_of_map_to_list. by apply map_lookup_filter_Some. }
    rewrite <-(take_drop 19 (open_sessions db identity)), elem_of_app in Ho. destruct Ho as [Ho|Ho]; apply (list_elem_of_fmap_2 fst) in Ho; [done|by destruct Hid].
  - eapply sublist_NoDup; [|apply fmap_sublist, sublist_take]. rewrite open_sessions_perm. apply NoDup_fst_map_to_list.
Qed.

Lemma devicePermissions_id l l' : devicePermissions l = Ok l' → l ≠ [] → l' = l.
Proof.
  unfold devicePermissions, lenl. destruct l as [|x l]; [done|]. rewrite (proj2 (Z.eqb_neq _ _)) by (cbn; lia).
  intros Hd _. by inv_ok.
Qed.

Lemma revoke_older_frame now identity db : revoke_older now identity db = set_api_keys (revoke_older now identity db).(api_keys) db.
Proof.
  unfold revoke_older. generalize (drop 19 (open_sessions db identity)). intros l. revert db.
  induction l as [|r l IH]; intros db; cbn [fold_left]; [by destruct db|]. by rewrite IH at 1.
Qed.

(** What [NewVerifiedSession] stores. *)
Record session_row (now : Z) (id secret identity kind project environment : string) (permissions : list string) (verified : bool) (k : ApiKey) : Prop := {
  row_identity : k.(k_IdentityID) = identity;
  row_kind : k.(k_Kind) = kind;
  row_digest : k.(k_Digest) = sha256_Sum ("hs_" +:+ id +:+ "_" +:+ secret);
  row_expiry : k.(k_ExpiresAt) = Some (now + 43200);
  row_never : k.(k_NeverExpires) = false;
  row_unrevoked : k.(k_RevokedAt) = None;
  row_verified : k.(k_MFAVerified) = verified;
  row_human : human_kind kind = true;
  row_ok : key_ok k;
  row_scope : kind = "cli" → k.(k_Project) = project ∧ k.(k_Environment) = environment ∧ k.(k_Permissions) = permissions;
  row_app : k.(k_Application) = EmptyString;
}.

Definition opened (now : Z) (id identity kind : string) (k : ApiKey) (db : Database) : Database :=
  audit identity id "session.create" kind [] (set_api_keys (<[id := k]> (revoke_older now identity db).(api_keys)) db).

Lemma cli_row_ok project environment permissions :
  (_ ← (if is_empty project && is_empty environment && contains permissions "agent:admin" ||
          is_empty project && is_empty environment && bool_decide (permissions = ["nodes:terminal"])
       then _ ← devicePermissions permissions; Ok tt else Ok tt);
   fail_when (negb (is_empty project && is_empty environment && contains permissions "agent:admin") &&
     negb (is_empty project && is_empty environment && bool_decide (permissions = ["nodes:terminal"])) &&
     (is_empty project || is_empty environment || (lenl permissions =? 0) || contains permissions "agent:admin")) ErrInput) = Ok tt →
  cli_ok project environment permissions.
Proof.
  intros [Hd Hg%fail_when_Ok]%bind_unit_Ok. unfold cli_ok. destruct (is_empty project) eqn:Hp, (is_empty environment) eqn:He; cbn [andb orb negb] in *.
  - right. apply is_empty_spec in Hp as ->. apply is_empty_spec in He as ->. rewrite andb_true_r in Hg.
    assert ("agent:admin" ∈ permissions ∨ permissions = ["nodes:terminal"]) as Hc.
    { destruct (contains permissions "agent:admin") eqn:Ha; [left; by apply contains_spec|]. case_bool_decide; [by right|done]. }
    split_and!; [done|done| |done].
    assert (contains permissions "agent:admin" || bool_decide (permissions = ["nodes:terminal"]) = true) as Ho.
    { apply orb_true_iff. rewrite contains_spec, bool_decide_eq_true. done. }
    rewrite Ho in Hd. apply bind_Ok in Hd as (l & Hl & _). rewrite Hl. f_equal. eapply devicePermissions_id; [done|].
    intros ->. destruct Hc as [[]%not_elem_of_nil|Hc]; done.
  - done.
  - done.
  - left. apply orb_false_iff in Hg as [_ Ha%contains_false]. split_and!; [by intros ->|by intros ->|done].
Qed.

Lemma live_session now id secret identity kind project environment permissions verified k db t :
  session_row now id secret identity kind project environment permissions verified k → live_key db t id k = (t <? now + 43200).
Proof. intros Hr. unfold live_key. rewrite (row_unrevoked _ _ _ _ _ _ _ _ _ _ Hr), (row_expiry _ _ _ _ _ _ _ _ _ _ Hr), (row_never _ _ _ _ _ _ _ _ _ _ Hr). by rewrite orb_false_r. Qed.

(** A session is refused and nothing changes, or it is stored and returned. *)
Lemma NewVerifiedSession_spec now id secret identity kind project environment permissions verified db :
  let r := NewVerifiedSession now id secret identity kind project environment permissions verified db in
  r.2 = db ∧ is_ok r.1 = false ∨
  ∃ k i, session_row now id secret identity kind project environment permissions verified k ∧
    (revoke_older now identity db).(api_keys) !! id = None ∧
    db.(identities) !! identity = Some i ∧ i.(i_Disabled) = false ∧ non_nil i.(i_Email) = true ∧
    r.2 = opened now id identity kind k db ∧
    r.1 = Ok (mkSession EmptyString ("hs_" +:+ id +:+ "_" +:+ secret) (key_principal (opened now id identity kind k db) now id k i)
                (now + 43200) i.(i_OnboardingRequired)).
Proof.
  cbv zeta. unfold NewVerifiedSession. cbv zeta.
  match goal with |- context [commit db ?o] => destruct o as [[[[raw expires] onboarding] db']|e] eqn:Ho end; cbn [commit]; [|by left].
  right. apply bind_unit_Ok in Ho as [Hk%fail_when_Ok Ho].
  assert (human_kind kind = true) as Hh by (unfold human_kind; by destruct (kind =? "browser")%string, (kind =? "cli")%string).
  apply bind_unit_Ok in Ho as [Hd Ho]. apply bind_unit_Ok in Ho as [Hg Ho]. apply bind_Ok in Ho as (i & Hi & Ho).
  destruct (identities db !! identity) as [i'|] eqn:Hid; [|done]. injection Hi as ->. apply bind_unit_Ok in Ho as [He%fail_when_Ok Ho].
  apply bind_unit_Ok in Ho as [_ Ho]. apply bind_Ok in Ho as (db0 & (-> & Hnone & Hs & _)%insert_key_Ok & Ho). injection Ho as <- <- <- <-.
  apply negb_false_iff, andb_true_iff in He as [He Hdis%negb_true_iff].
  match goal with |- context [<[id := ?k]> _] => set (k0 := k); exists k0, i end.
  assert (session_row now id secret identity kind project environment permissions verified k0) as Hrow.
  { split; try done.
    - split; [done|]. destruct (String.eqb_spec kind "browser") as [->|Hb].
      + by right; left.
      + destruct (String.eqb_spec kind "cli") as [->|Hc]; [|done]. right; right; left. split; [done|].
        apply cli_row_ok, bind_unit_Ok. done.
    - intros ->. done. }
  rewrite revoke_older_frame. fold (opened now id identity kind k0 db). split_and!; [done..|].
  unfold KeyPrincipal, principal. cbn [opened audit set_audit api_keys set_api_keys identities].
  rewrite lookup_insert_eq. cbn [k_IdentityID k0]. rewrite Hid, (live_session _ _ _ _ _ _ _ _ _ _ _ _ Hrow), Hdis.
  rewrite (proj2 (Z.ltb_lt _ _)) by lia. done.
Qed.

Lemma opened_step now id secret identity kind project environment permissions verified k db :
  session_row now id secret identity kind project environment permissions verified k →
  (revoke_older now identity db).(api_keys) !! id = None → keys_step now db (opened now id identity kind k db).
Proof.
  intros Hr Hid. eapply rtc_r; [exact (revoke_list_step now (drop 19 (open_sessions db identity)) db)|]. apply change_session; [done|apply Hr|].
  rewrite (row_identity _ _ _ _ _ _ _ _ _ _ Hr). apply revoke_older_count.
Qed.

Lemma NewVerifiedSession_step now id secret identity kind project environment permissions verified db :
  keys_step now db (NewVerifiedSession now id secret identity kind project environment permissions verified db).2.
Proof.
  destruct (NewVerifiedSession_spec now id secret identity kind project environment permissions verified db)
    as [[-> _]|(k & i & Hr & Hid & _ & _ & _ & -> & _)]; [reflexivity|by eapply opened_step].
Qed.
End operations.
