(* ===== verification/CredentialRuns.v ===== *)
(** Runs of the store on its credentials: the steps it takes, in any order and
    under any caller, what a credential keeps over a run, and the guarantees on
    tokens, sessions and scopes that hold whatever happened before. *)
From S2P Require Import Prelude GoStd StoreErrors GoNet Paths SpecTypes Regex Platform License Principals Credentials Devices CredentialSafety.
#[global] Open Scope Z_scope.

Section runs.
Context `{Issuer} `{!Server} `{RangeOrder} `{Host}.

(** * What device operations do to the table of keys *)

Lemma startDevice_keys now id t1 t2 random project environment permissions grant db :
  (startDevice now id t1 t2 random project environment permissions grant db).2.(api_keys) = db.(api_keys).
Proof.
  apply (commit_step (λ db', db'.(api_keys) = db.(api_keys))); [|done]. intros a db' Hs. inv_ok. by simplify_eq.
Qed.

Lemma ApproveDevice_keys now p code approve selected db : (ApproveDevice now p code approve selected db).2.(api_keys) = db.(api_keys).
Proof.
  apply (commit_step (λ db', db'.(api_keys) = db.(api_keys))); [|done]. intros a db' Hs. inv_ok. destruct a1 as [[project environment] scope].
  destruct (find_code _ db) as [[row c]|]; [|done]. by simplify_eq/=.
Qed.

Lemma issueDeviceSession_step now id secret identity project environment scopeID permissions verified db :
  keys_step now db (issueDeviceSession now id secret identity project environment scopeID permissions verified db).2.
Proof.
  unfold issueDeviceSession. pose proof (NewVerifiedSession_step now id secret identity "cli" project environment permissions verified db) as Hs.
  destruct (NewVerifiedSession _ _ _ _ _ _ _ _ _ db) as [[session|e] db']; [|done]. cbn [snd] in Hs.
  assert (∀ p id, keys_step now db (RevokeSession now p id db').2) as Hr by (intros; etrans; [done|apply RevokeSession_step]).
  case_match; [|apply Hr]. cbv zeta. case_match; [apply Hr|]. cbn [snd]. by case_match.
Qed.

Lemma update_code_step now row f db : keys_step now db (update_code row f db).
Proof. apply rtc_refl. Qed.

Lemma pollDevice_step now id secret token exchange db : keys_step now db (pollDevice now id secret token exchange db).2.
Proof.
  unfold pollDevice. destruct (negb _); [reflexivity|]. destruct (find_code _ db) as [[row c]|]; [|reflexivity].
  destruct (negb _); [reflexivity|]. cbv zeta. destruct exchange as [x|].
  - destruct (dc_Approved c) as [approved|]; [|apply update_code_step]. destruct (negb _); [apply update_code_step|].
    destruct (negb approved); [apply update_code_step|]. etrans; [apply update_code_step|apply issueDeviceSession_step].
  - destruct (match dc_LastPolledAt c with Some _ => _ | None => _ end); [reflexivity|].
    destruct (dc_Approved c) as [approved|]; [|apply update_code_step].
    destruct (negb approved); [etrans; apply update_code_step|].
    etrans; [apply update_code_step|]. etrans; [apply update_code_step|apply issueDeviceSession_step].
Qed.

(** * Steps *)

Inductive event : Type :=
  | Started (digest : string)
  | Approved (digest : string) (at_time : Z) (by_whom : Principal)
  | Issued (digest : string) (at_time : Z) (session : Session)
  | Renewed (grant : HostActionsGrant) (token : string).

(** The transactions of the store on credentials and codes, each with what it
    witnesses of codes and of keys renewed. Who calls and with what is left open, and
    so is all that the rest of the store does to the other tables; what it does to
    keys and codes is [key_edit] and [code_edit], row by row. *)
Inductive store_step (now : Z) (db : Database) : list event → Database → Prop :=
  | do_other db' : map_Forall2 (λ _, key_edit now) db.(api_keys) db'.(api_keys) → map_Forall2 (λ _, code_edit) db.(device_codes) db'.(device_codes) →
      store_step now db [] db'
  | do_Bootstrap ident id secret name : store_step now db [] (Bootstrap now ident id secret name db).2
  | do_CreateKey id secret p i : store_step now db [] (CreateKey now id secret p i db).2
  | do_RotateKey id secret p old expires never : store_step now db [] (RotateKey now id secret p old expires never db).2
  | do_CreateBoundKey id secret p i scope binding rotate never :
      store_step now db [] (CreateBoundKey now id secret p i scope binding rotate never db).2
  | do_RevokeBoundKey p scope id : store_step now db [] (RevokeBoundKey now p scope id db).2
  | do_revokeKey p id : store_step now db [] (revokeKey now p id db).2
  | do_NewSourceGrant id digest p project environment app id' db' :
      NewSourceGrant now id digest p project environment app db = Ok (id', db') → store_step now db [] db'
  | do_showcase_grant id digest owner id' db' : showcase_grant now id digest owner db = Ok (id', db') → store_step now db [] db'
  | do_EnsureHostActionsKey applications id secret grant raw :
      store_step now db (if is_ok (EnsureHostActionsKey now applications id secret grant raw db).1 && negb (is_empty raw) then [Renewed grant raw] else [])
        (EnsureHostActionsKey now applications id secret grant raw db).2
  | do_VerifyHostActionsKey applications grant raw : store_step now db [] (VerifyHostActionsKey now applications grant raw db).2
  | do_NewSession id secret identity kind project environment permissions verified :
      store_step now db [] (NewVerifiedSession now id secret identity kind project environment permissions verified db).2
  | do_RevokeSession p id : store_step now db [] (RevokeSession now p id db).2
  | do_UpdateUser p id disabled admin : store_step now db [] (UpdateUser p id disabled admin db).2
  | do_Authenticate raw : store_step now db [] (Authenticate now raw db).2
  | do_startDevice id t1 t2 random project environment permissions grant a db' :
      startDevice now id t1 t2 random project environment permissions grant db = (Ok a, db') →
      store_step now db [Started (sha256_Sum a.(da_DeviceCode))] db'
  | do_approve p code selected row c db' :
      ApproveDevice now p code true selected db = (Ok tt, db') →
      find_code (λ c, (c.(dc_UserCode) =? normalizeUserCode code)%string && open_code now c) db = Some (row, c) →
      store_step now db [Approved c.(dc_Digest) now p] db'
  | do_deny p code selected : store_step now db [] (ApproveDevice now p code false selected db).2
  | do_poll id secret token exchange :
      store_step now db (match (pollDevice now id secret token exchange db).1 with Ok s => [Issued (sha256_Sum token) now s] | Err _ => [] end)
        (pollDevice now id secret token exchange db).2.

(** Time passes between steps; a step that fails leaves nothing to see. *)
Inductive run (now0 : Z) (db0 : Database) : list event → Z → Database → Prop :=
  | run_start : run now0 db0 [] now0 db0
  | run_step ls now db now' l db' : run now0 db0 ls now db → now <= now' → store_step now' db l db' → run now0 db0 (ls ++ l) now' db'.

Lemma step_nothing now db : store_step now db [] db.
Proof. apply do_other; intros id; [destruct (api_keys db !! id)|destruct (device_codes db !! id)]; repeat constructor. Qed.

Lemma store_step_keys now db l db' : store_step now db l db' →
  keys_step now db db' ∨ ∃ g raw, l = [Renewed g raw] ∧ renewal now g raw db.(api_keys) db'.(api_keys).
Proof.
  destruct 1 as [db' Hk _| | | | | | | |id digest owner id' db' Hg|applications id secret g raw| | | | |
    |id t1 t2 random project environment permissions grant a db' Hs|p code selected row c db' Ha _| |].
  10: by destruct (EnsureHostActionsKey_step now applications id secret g raw db) as [Hs|(E1 & E2 & Hr)]; [left|right; exists g, raw; rewrite E1, E2].
  all: left.
  - apply rtc_once, change_rows. eapply map_Forall2_impl; [exact Hk|]. intros ? k k'. apply edit_later.
  - apply Bootstrap_step.
  - apply CreateKey_step.
  - apply RotateKey_step.
  - apply CreateBoundKey_step.
  - apply RevokeBoundKey_step.
  - apply revokeKey_step.
  - by eapply NewSourceGrant_step.
  - by eapply showcase_grant_step.
  - unfold VerifyHostActionsKey. destruct (hostActionsKey _ _ _ _ _ _ _ _).1; [apply Authenticate_step|reflexivity].
  - apply NewVerifiedSession_step.
  - apply RevokeSession_step.
  - apply UpdateUser_step.
  - apply Authenticate_step.
  - unfold keys_step. replace db' with (startDevice now id t1 t2 random project environment permissions grant db).2 by by rewrite Hs.
    rewrite startDevice_keys. apply rtc_refl.
  - unfold keys_step. replace db' with (ApproveDevice now p code true selected db).2 by by rewrite Ha. rewrite ApproveDevice_keys. apply rtc_refl.
  - unfold keys_step. rewrite ApproveDevice_keys. apply rtc_refl.
  - apply pollDevice_step.
Qed.

Lemma store_step_ok now db l db' : store_step now db l db' →
  (keys_ok db.(api_keys) → keys_ok db'.(api_keys)) ∧ (sessions_bounded_by 20 db.(api_keys) → sessions_bounded_by 20 db'.(api_keys)).
Proof.
  intros [Hs%keys_changes|(g & raw & _ & Hr)]%store_step_keys; [apply Hs|]. split; [by eapply renewal_ok|by eapply renewal_bounded].
Qed.

(** ** Keys over a run *)

Lemma run_time now0 db0 ls now db : run now0 db0 ls now db → now0 <= now.
Proof. induction 1; lia. Qed.

Lemma run_ok now0 db0 ls now db : run now0 db0 ls now db →
  (keys_ok db0.(api_keys) → keys_ok db.(api_keys)) ∧ (sessions_bounded_by 20 db0.(api_keys) → sessions_bounded_by 20 db.(api_keys)).
Proof. induction 1 as [|ls now db now' l db' _ [IHo IHb] _ Hs]; [done|]. destruct (store_step_ok _ _ _ _ Hs). auto. Qed.

(** The host renewed the key, showing its token. *)
Definition renewed_in (ls : list event) (id : string) (k : ApiKey) : Prop :=
  ∃ g raw, Renewed g raw ∈ ls ∧ token_id raw = id ∧ host_key g raw k.

(** What a key keeps over a run. *)
Record key_kept (now0 now : Z) (ls : list event) (id : string) (k k' : ApiKey) : Prop := {
  kept_scope : key_scope k' = key_scope k;
  kept_ended : ended now0 k → ended now k' ∨ renewed_in ls id k;
  kept_revoked : non_nil k.(k_RevokedAt) = true → non_nil k'.(k_RevokedAt) = true;
  kept_never : k'.(k_NeverExpires) = true → k.(k_NeverExpires) = true ∧ k'.(k_AdminNeverExpires) = k.(k_AdminNeverExpires);
}.

Lemma host_key_scope g raw k k' : key_scope k' = key_scope k → host_key g raw k' → host_key g raw k.
Proof. intros S [T K W A]. injection S as S1 S2 S3 S4 S5 S6 S7 S8. split; [congruence|congruence| |congruence]. by rewrite <-S1, <-S5, <-S6. Qed.

Lemma renewed_in_more ls l id k : renewed_in ls id k → renewed_in (ls ++ l) id k.
Proof. intros (g & raw & Hr & ?). exists g, raw. rewrite elem_of_app. auto. Qed.

(** A step keeps a key, in what it witnesses. *)
Lemma store_step_key now db l db' id k : store_step now db l db' → keys_ok db.(api_keys) → db.(api_keys) !! id = Some k →
  ∃ k', db'.(api_keys) !! id = Some k' ∧ key_kept now now l id k k'.
Proof.
  intros Hs Hok Hk. destruct (Hok _ _ Hk) as [Hshape _]. apply store_step_keys in Hs as [Hs%keys_changes|(g & raw & -> & (k0 & Hk0 & Hrev & Hn & Hh & ->))].
  - destruct (proj1 Hs _ _ Hk) as (k' & Hk' & [S _ E N R]). exists k'. split; [done|]. split; [done|auto|done|done].
  - destruct (decide (token_id raw = id)) as [<-|Hne].
    + replace k0 with k in * by congruence. exists (renew_key now k). split; [by rewrite lookup_insert_eq|]. split; [done| |done|done].
      intros _. right. exists g, raw. split; [by left|done].
    + exists k. split; [by rewrite lookup_insert_ne|]. split; auto.
Qed.

Lemma run_key now0 db0 ls now db : run now0 db0 ls now db → keys_ok db0.(api_keys) → ∀ id k, db0.(api_keys) !! id = Some k →
  ∃ k', db.(api_keys) !! id = Some k' ∧ key_kept now0 now ls id k k'.
Proof.
  intros Hrun Hok id k Hk. induction Hrun as [|ls now db now' l db' Hrun (k1 & Hk1 & [S1 E1 R1 N1]) Hle Hs]; [exists k; split; [done|split; auto]|].
  destruct (run_ok _ _ _ _ _ Hrun) as [Hok1 _].
  destruct (store_step_key _ _ _ _ _ _ Hs (Hok1 Hok) Hk1) as (k2 & Hk2 & [S2 E2 R2 N2]).
  exists k2. split; [done|]. split; [congruence| |auto|].
  - intros [He|Hr]%E1; [|right; by apply renewed_in_more]. apply (ended_mono _ _ _ Hle) in He. destruct (E2 He) as [He2|(g & raw & Hr & Hid & Hh)]; [by left|right].
    exists g, raw. rewrite elem_of_app. split_and!; [by right|done|by eapply host_key_scope].
  - intros [Hn2 Ha2]%N2. destruct (N1 Hn2) as [Hn1 Ha1]. split; [done|congruence].
Qed.

Lemma principal_Ok db now id p digest : principal db now id = Ok (p, digest) ↔
  ∃ k i, db.(api_keys) !! id = Some k ∧ db.(identities) !! k.(k_IdentityID) = Some i ∧ live_key db now id k = true ∧ i.(i_Disabled) = false ∧
    p = key_principal db now id k i ∧ digest = k.(k_Digest).
Proof.
  unfold principal. destruct (api_keys db !! id) as [k|] eqn:Hk; [|naive_solver].
  destruct (identities db !! k_IdentityID k) as [i|] eqn:Hi; [|naive_solver].
  destruct (live_key db now id k) eqn:Hl, (i_Disabled i) eqn:Hd; cbn [negb orb];
    try by (split; [done|intros (k' & i' & [= <-] & Hi' & Hl' & Hd' & _); congruence]).
  split; [intros [= <- <-]; by exists k, i|]. intros (k' & i' & [= <-] & Hi' & _ & _ & -> & ->). by simplify_eq.
Qed.

(** The principal a token stands for. *)
Lemma Authenticate_Ok now raw db p : (Authenticate now raw db).1 = Ok p ↔
  ∃ head id secret, Split raw "_" = [head; id; secret] ∧ (head = "hp" ∨ head = "hs") ∧ len id = 32 ∧ len secret = 64 ∧
    principal db now id = Ok (p, sha256_Sum raw) ∧ p.(p_CredentialType) ≠ "integration" ∧ (head = "hp" ↔ p.(p_CredentialType) = "machine").
Proof.
  unfold Authenticate. split.
  - destruct (Split raw "_") as [|head [|id [|secret [|]]]]; try done. destruct (_ || _) eqn:Hg; [done|].
    destruct (principal db now id) as [[q digest]|e] eqn:Hp; [|done]. destruct (negb (Bool.eqb _ _)) eqn:He; [done|].
    destruct (String.eqb_spec (p_CredentialType q) "integration"); [done|]. destruct (String.eqb_spec (sha256_Sum raw) digest) as [Hd|]; [|done].
    cbn. intros [= <-]. exists head, id, secret. split_orb. zify_bool. rewrite Hd. split_and!; try done.
    + destruct (String.eqb_spec head "hp"); [by left|]. destruct (String.eqb_spec head "hs"); [by right|done].
    + apply eqb_prop in He. rewrite <-!String.eqb_eq. by rewrite He.
  - intros (head & id & secret & -> & Hh & Hi & Hs & -> & Hint & Hm).
    assert (negb (head =? "hp")%string && negb (head =? "hs")%string = false) as -> by (by destruct Hh as [-> | ->]).
    rewrite Hi, Hs. cbn [Z.eqb negb orb Pos.eqb].
    assert (Bool.eqb (head =? "hp")%string (p_CredentialType p =? "machine")%string = true) as ->.
    { apply eqb_true_iff, eq_iff_eq_true. by rewrite !String.eqb_eq. }
    cbn [negb]. destruct (String.eqb_spec (p_CredentialType p) "integration"); [done|]. by rewrite String.eqb_refl.
Qed.

(** * Guarantees *)

(** An installation before anyone could sign in. *)
Definition fresh (db : Database) : Prop := db.(api_keys) = ∅ ∧ db.(device_codes) = ∅.

Lemma fresh_run_ok now0 db0 ls now db : fresh db0 → run now0 db0 ls now db → keys_ok db.(api_keys).
Proof. intros [Hk _] Hr. apply (run_ok _ _ _ _ _ Hr). rewrite Hk. apply map_Forall_empty. Qed.

Lemma live_not_ended db now id k : expiry_shape k = true → live_key db now id k = true → ¬ ended now k.
Proof.
  unfold live_key. intros Hs [Hr Hl]%andb_true_iff [Hr'|(t & Ht & Hle)]; [by rewrite Hr' in Hr|]. unfold expiry_shape in Hs. rewrite Ht in *.
  cbn [non_nil negb] in Hs. rewrite andb_false_r, andb_true_r, orb_false_r in Hs. apply negb_true_iff in Hs. rewrite Hs, orb_false_r in Hl.
  apply Z.ltb_lt in Hl. lia.
Qed.

(** C24: Nobody has more than twenty open sessions, whatever the order of sign-ins
    and revocations: the oldest are revoked as new ones are opened. *)
Theorem sessions_bounded now0 db0 ls now db identity : fresh db0 → run now0 db0 ls now db →
  (length (open_sessions db identity) <= 20)%nat.
Proof.
  intros [Hk _] Hr. rewrite open_sessions_perm. destruct (run_ok _ _ _ _ _ Hr) as [_ Hb].
  rewrite length_map_to_list. apply Hb. intros id. unfold sessions_of. rewrite Hk, map_filter_empty, map_size_empty. lia.
Qed.

(** C23: A credential that was revoked never authenticates again, whatever is done
    afterwards. One that ran out authenticates only if the trusted host renewed it
    since, by [EnsureHostActionsKey] and with the credential's own token, which makes
    it the machine key of a host grant: its owner, project and environment are those of
    the grant and its permissions the two of recovery. No rotation, sign-in or other
    statement brings a credential back. *)
Theorem ended_forever now0 db0 ls1 now1 db1 ls2 now2 db2 id k raw p :
  fresh db0 → run now0 db0 ls1 now1 db1 → db1.(api_keys) !! id = Some k → ended now1 k → run now1 db1 ls2 now2 db2 →
  (Authenticate now2 raw db2).1 = Ok p →
  p.(p_KeyID) ≠ id ∨ k.(k_RevokedAt) = None ∧ ∃ g token, Renewed g token ∈ ls2 ∧ token_id token = id ∧ host_key g token k.
Proof.
  intros Hf Hr1 Hk He Hr2. pose proof (fresh_run_ok _ _ _ _ _ Hf Hr1) as Hok1.
  intros (head & id' & secret & _ & _ & _ & _ & Hp & _)%Authenticate_Ok.
  apply principal_Ok in Hp as (k2 & i & Hk2 & _ & Hl & _ & -> & _). cbn [key_principal p_KeyID].
  destruct (decide (id' = id)) as [->|Hne]; [right|by left].
  destruct (run_key _ _ _ _ _ Hr2 Hok1 _ _ Hk) as (k2' & Hk2' & [_ He2 Rv2 _]). simplify_eq.
  destruct (run_ok _ _ _ _ _ Hr2) as [Hok2 _]. pose proof (live_not_ended _ _ _ _ (proj1 (Hok2 Hok1 _ _ Hk2)) Hl) as Hlive. split.
  - destruct (k_RevokedAt k) eqn:Hrev; [|done]. destruct Hlive. left. by apply Rv2.
  - destruct (He2 He) as [He3|Hr]; [by destruct Hlive|exact Hr].
Qed.

(** ** The scope of a credential *)

(** A credential without [admin] is confined to a project and an environment, or is
    for the terminals of hosts only. *)
Lemma key_ok_confined k : key_ok k → k.(k_Kind) ≠ "integration" → "admin" ∉ k.(k_Permissions) →
  (k.(k_Project) ≠ EmptyString ∧ k.(k_Environment) ≠ EmptyString) ∨ k.(k_Permissions) = ["nodes:terminal"].
Proof.
  intros [_ [[_ Hv]|[(_ & Hp & _)|[(_ & Hc)|[Hi _]]]]] Hint Ha; [| | |done].
  - unfold validKeyFields in Hv. cbv zeta in Hv. apply contains_false in Ha. rewrite Ha in Hv. cbn [negb andb orb] in Hv. inv_ok.
    match goal with H : negb (_ && contains _ "nodes:terminal") && _ = false |- _ => apply andb_false_iff in H as [H|H] end.
    + right. apply negb_false_iff, andb_true_iff in Hok4 as [Hl%Z.eqb_eq Hh%contains_spec]. unfold lenl in Hl.
      destruct (k_Permissions k) as [|x [|y l]]; cbn in Hl; [lia| |lia]. apply list_elem_of_singleton in Hh as ->. done.
    + left. apply orb_false_iff in Hok4 as [Hp%is_empty_false He%is_empty_false]. done.
  - rewrite Hp in Ha. set_solver.
  - destruct Hc as [(Hp & He & _)|(_ & _ & Hd & Hag)]; [by left|right]. destruct Hag as [Hag|]; [|done]. exfalso.
    apply devicePermissions_Ok in Hd as [[Hnil _]|(_ & _ & _ & _ & _ & _ & _ & Hadm & _)]; [rewrite Hnil in Hag; set_solver|].
    by apply Ha, Hadm.
Qed.

Lemma run_key_ok now0 db0 ls now db id p digest : fresh db0 → run now0 db0 ls now db → principal db now id = Ok (p, digest) →
  ∃ k i, db.(api_keys) !! id = Some k ∧ key_ok k ∧ p = key_principal db now id k i.
Proof.
  intros Hf Hr (k & i & Hk & _ & _ & _ & -> & _)%principal_Ok. exists k, i. split; [done|]. split; [|done]. by apply (fresh_run_ok _ _ _ _ _ Hf Hr id).
Qed.

(** C22: Every credential that does not hold [admin] gives its bearer only what it was
    made for. Its bearer is no administrator, and is allowed only the permissions of
    the credential; those only in the credential's own project and environment, and in
    its application if it names one, or else the credential is one for host terminals,
    whose sole permission is [nodes:terminal] and which is allowed that one without
    regard to a project. Server grants never sign in, whatever token they carry. *)
Theorem credential_confined now0 db0 ls now db raw p : fresh db0 → run now0 db0 ls now db → (Authenticate now raw db).1 = Ok p →
  p.(p_CredentialType) ≠ "integration" ∧
  ("admin" ∉ p.(p_Permissions) → Principal_IsAdmin p = false ∧
   ∀ permission project environment application, Principal_Allows p permission project environment application = true →
     permission ∈ p.(p_Permissions) ∧
     ((p.(p_Project) ≠ EmptyString ∧ project = p.(p_Project) ∧ environment = p.(p_Environment) ∧
       (p.(p_Application) = EmptyString ∨ application = p.(p_Application))) ∨
      (p.(p_Permissions) = ["nodes:terminal"] ∧ permission = "nodes:terminal"))).
Proof.
  intros Hf Hr (head & id & secret & _ & _ & _ & _ & Hp & Hint & _)%Authenticate_Ok. split; [done|]. intros Ha. split.
  { apply not_true_iff_false. by intros (_ & _ & Hadm & _)%IsAdmin_spec. }
  destruct (run_key_ok _ _ _ _ _ _ _ _ Hf Hr Hp) as (k & i & _ & Hk & ->). cbn [key_principal p_CredentialType p_Permissions p_Project p_Environment p_Application] in *.
  intros permission project environment application Hal. rewrite Allows_split in Hal.
  cbn [key_principal p_CredentialType p_Permissions p_Project p_Environment p_Application] in Hal.
  apply andb_true_iff in Hal as [[_ Hw]%andb_true_iff [Hperm _]%andb_true_iff].
  apply contains_false in Ha as Hna. rewrite Hna, orb_false_r in Hperm. apply contains_spec in Hperm. split; [done|].
  rewrite !andb_true_iff, !restriction_spec in Hw. destruct Hw as ((([Hwp Hwe] & Hwa) & _) & _).
  destruct (key_ok_confined k Hk Hint Ha) as [[Hpr Hen]|Hh].
  - left. split_and!; [done|by destruct Hwp|by destruct Hwe|]. destruct Hwa; [by left|by right].
  - right. split; [done|]. rewrite Hh in Hperm. by apply list_elem_of_singleton in Hperm.
Qed.

(** ** The life of a key *)

(** What [NewID] and the secret of [makeKey] look like. *)
Definition hex_text (n : Z) (s : string) : Prop := len s = n ∧ no_sep "_" s.

Lemma token_parts head id secret : no_sep "_" head → hex_text 32 id → hex_text 64 secret →
  Split (head +:+ "_" +:+ id +:+ "_" +:+ secret) "_" = [head; id; secret].
Proof.
  intros Hh [_ Hi] [_ Hs]. change (Split (head +:+ String "_" (id +:+ String "_" secret)) "_" = [head; id; secret]).
  rewrite (Split_app head), (Split_app id), !Split_single by done. done.
Qed.

Lemma live_of_CreateKey db now id k : expiry_shape k = true → k.(k_Kind) = "machine" →
  (k.(k_NeverExpires) = true → k.(k_AdminNeverExpires) = true) → ¬ ended now k → live_key db now id k = true.
Proof.
  unfold live_key, expiry_shape, ended. intros Hs -> Hn He. destruct (k_RevokedAt k) as [|] eqn:Hr; [destruct He; by left|]. cbn [non_nil negb andb].
  destruct (k_ExpiresAt k) as [t|] eqn:Ht.
  - apply orb_true_iff. left. apply Z.ltb_lt. destruct (Z.ltb_spec now t); [done|]. destruct He. right. by exists t.
  - cbn [non_nil negb andb orb] in *. rewrite andb_false_r, andb_true_r in Hs. cbn [orb] in Hs. apply andb_true_iff in Hs as [Hs _].
    by rewrite Hs, Hn.
Qed.

Lemma CreateKey_Ok now id secret p i db k raw db' : CreateKey now id secret p i db = (Ok (k, raw), db') →
  raw = "hp_" +:+ id +:+ "_" +:+ secret ∧ Principal_IsAdmin p = true ∧ db'.(api_keys) !! id = Some k ∧
  k.(k_AdminNeverExpires) = i.(ki_NeverExpires) ∧ k.(k_NeverExpires) = i.(ki_NeverExpires) ∧
  key_scope k = (p.(p_ID), i.(ki_Name), sha256_Sum raw, "machine", i.(ki_Project), i.(ki_Environment), i.(ki_Application), i.(ki_Permissions)).
Proof.
  unfold CreateKey. intros Hc. match type of Hc with commit db ?o = _ => destruct o as [[[k0 raw0] db0]|e] eqn:Ho; [|done] end.
  cbn [commit] in Hc. injection Hc as -> -> ->. unfold makeKey in Ho. inv_ok. simplify_eq.
  apply insert_key_Ok in Hok2 as (-> & _ & _ & _). split_and!; try done; [by apply negb_false_iff|].
  cbn [audit set_audit api_keys set_api_keys]. apply lookup_insert_eq.
Qed.

(** C18: The token [CreateKey] returns signs in, at any later time and whatever was
    done since, exactly while the key is neither revoked nor out of date and its
    owner is enabled; who signs in is the owner with the scope that was asked for. *)
Theorem token_life now0 db0 ls1 now1 db1 id secret creator i k raw db2 ls2 now db :
  fresh db0 → run now0 db0 ls1 now1 db1 → hex_text 32 id → hex_text 64 secret →
  CreateKey now1 id secret creator i db1 = (Ok (k, raw), db2) → run now1 db2 ls2 now db →
  ((∃ p, (Authenticate now raw db).1 = Ok p) ↔
   ∃ k' owner, db.(api_keys) !! id = Some k' ∧ ¬ ended now k' ∧
     db.(identities) !! creator.(p_ID) = Some owner ∧ owner.(i_Disabled) = false) ∧
  (∀ p, (Authenticate now raw db).1 = Ok p →
     p.(p_ID) = creator.(p_ID) ∧ p.(p_KeyID) = id ∧ p.(p_CredentialType) = "machine" ∧ p.(p_Permissions) = i.(ki_Permissions) ∧
     p.(p_Project) = i.(ki_Project) ∧ p.(p_Environment) = i.(ki_Environment) ∧ p.(p_Application) = i.(ki_Application)).
Proof.
  intros Hf Hr1 Hid Hsec Hc Hr2.
  assert (run now0 db0 (ls1 ++ []) now1 db2) as Hr1'.
  { eapply run_step; [done|lia|]. replace db2 with (CreateKey now1 id secret creator i db1).2 by by rewrite Hc. apply do_CreateKey. }
  pose proof (fresh_run_ok _ _ _ _ _ Hf Hr1') as Hok2. destruct (run_ok _ _ _ _ _ Hr2) as [Hok _]. specialize (Hok Hok2).
  apply CreateKey_Ok in Hc as (-> & _ & Hk2 & Hadm & Hnever & Hscope).
  destruct (run_key _ _ _ _ _ Hr2 Hok2 _ _ Hk2) as (k' & Hk' & [Sc _ _ Nv]). rewrite Hscope in Sc. destruct (Hok _ _ Hk') as [Hshape _].
  injection Sc as S1 S2 S3 S4 S5 S6 S7 S8.
  assert (Split ("hp_" +:+ id +:+ "_" +:+ secret) "_" = ["hp"; id; secret]) as Hsplit by by apply (token_parts "hp").
  assert (∀ p, (Authenticate now ("hp_" +:+ id +:+ "_" +:+ secret) db).1 = Ok p →
    ∃ owner, db.(identities) !! creator.(p_ID) = Some owner ∧ owner.(i_Disabled) = false ∧ live_key db now id k' = true ∧
      p = key_principal db now id k' owner) as Hfwd.
  { intros p (head & id' & secret' & Hs & _ & _ & _ & (k3 & owner & Hk3 & Ho & Hl & Hd & -> & _)%principal_Ok & _)%Authenticate_Ok.
    rewrite Hsplit in Hs. simplify_eq. exists owner. by rewrite <-S1. }
  split; [split|].
  - intros [p (owner & Ho & Hd & Hl & _)%Hfwd]. exists k', owner. split_and!; [done| |done|done]. by apply live_not_ended with db id.
  - intros (k3 & owner & Hk3 & He & Ho & Hd). simplify_eq. exists (key_principal db now id k' owner). apply Authenticate_Ok.
    exists "hp", id, secret. split_and!; [done|by left|apply Hid|apply Hsec| |by cbn; rewrite S4|by cbn; rewrite S4].
    apply principal_Ok. exists k', owner. rewrite S1, S3. split_and!; try done.
    apply live_of_CreateKey; [done|done| |done]. intros [Hn Ha]%Nv. by rewrite Ha, Hadm, <-Hnever.
  - intros p (owner & _ & _ & _ & ->)%Hfwd. cbn [key_principal p_ID p_KeyID p_CredentialType p_Permissions p_Project p_Environment p_Application].
    by split_and!.
Qed.
End runs.

(** * An example *)

Module CredentialExample.
#[export] Instance server : Server (H := LicenseExample.issuer) := {|
  ManagedCloud := false;
  DeviceScopes := None;
  license_verifier := ∅;
  text_le a b := bool_decide (str_le a b);
|}.
Definition ada : Identity := mkIdentity "Ada" (Some "ada@example.org") true true true false false false "" "" [].
Definition db0 : Database :=
  mkDatabase {["ada" := ada]} ∅ ∅ ∅ ∅ ∅ [("shop", "prod")] [] [] [] [] ∅ [] false (fresh_record "installation") [].
Definition browser : Principal :=
  mkPrincipal false false "ada" "Ada" true true "ada@example.org" "browser" [] [] "session" "" "" "" ["admin"] "" "" [].
Definition id : string := String.string_of_list_ascii (replicate 32 "a"%char).
Definition secret : string := String.string_of_list_ascii (replicate 64 "b"%char).
Definition input : KeyInput := mkKeyInput "ci" "shop" "prod" "" ["deployments:read"; "deployments:write"] (Some 90000) false.
Definition created : result (ApiKey * string) * Database :=
  CreateKey (H := LicenseExample.issuer) 1000 id secret browser input db0.
Definition token : string := "hp_" +:+ id +:+ "_" +:+ secret.
Definition key : ApiKey :=
  mkApiKey "ada" "ci" token "hp_aaaaaaaa" "machine" "shop" "prod" "" ["deployments:read"; "deployments:write"] (Some 90000) false false false None None 1000.
Definition revoked : Database := (revokeKey 2000 browser id created.2).2.
(** Another key, and who signs in with either. *)
Definition id2 : string := String.string_of_list_ascii (replicate 32 "c"%char).
Definition token2 : string := "hp_" +:+ id2 +:+ "_" +:+ secret.
Definition renewed : Database := (CreateKey (H := LicenseExample.issuer) 2000 id2 secret browser input revoked).2.
(** The key of a host, which ran out and was renewed with its own token. *)
Definition owner : string := String.string_of_list_ascii (replicate 32 "0"%char).
Definition recovery : string := String.string_of_list_ascii (replicate 32 "1"%char).
Definition grant : HostActionsGrant := mkHostGrant owner id "shop" "prod" recovery "runner" id2.
Definition applications : gmap string HostApplication :=
  {[recovery := mkHostApplication "ci" "shop" "prod" (set_app_Name "ci" (set_app_Services (Some {["runner" := set_svc_Actions (Some (mkActions "" "" "" 0 None None "" "" [] 0 0 None 0 0)) zero_Service]}) zero_Application))]}.
Definition host0 : Database :=
  mkDatabase {[owner := ada]} ∅ ∅ ∅ ∅ ∅ [("shop", "prod")] [] [] [] [] ∅ [] false (fresh_record "installation") [].
Definition issued : result (ApiKey * string) * Database :=
  EnsureHostActionsKey (H := LicenseExample.issuer) 1000 applications id secret grant "" host0.
Definition host_row : ApiKey :=
  mkApiKey owner ("Host Actions recovery " +:+ recovery) token "hp_aaaaaaaa" "machine" "shop" "prod" "ci" ["deployments:read"; "deployments:write"]
    (Some 7777000) false false false None None 1000.
Definition extended : result (ApiKey * string) * Database :=
  EnsureHostActionsKey (H := LicenseExample.issuer) 8000000 applications id2 secret grant token issued.2.
Definition who (r : result Principal) : Principal := match r with Ok p => p | Err _ => browser end.
Definition first : Principal := who (Authenticate (H := LicenseExample.issuer) 1000 token created.2).1.
Definition third : Principal := who (Authenticate (H := LicenseExample.issuer) 8000001 token extended.2).1.
Definition second : Principal := who (Authenticate (H := LicenseExample.issuer) 3000 token2 renewed).1.
End CredentialExample.

#[local] Existing Instance LicenseExample.issuer.
#[local] Existing Instance CredentialExample.server.

Example created_key : CredentialExample.created.1 = Ok (CredentialExample.key, CredentialExample.token).
Proof. vm_compute. reflexivity. Qed.

(** The token signs in until it runs out or is revoked. *)
Example sign_in :
  is_ok (Authenticate 89999 CredentialExample.token CredentialExample.created.2).1 = true ∧
  is_ok (Authenticate 90000 CredentialExample.token CredentialExample.created.2).1 = false ∧
  is_ok (Authenticate 2000 CredentialExample.token CredentialExample.revoked).1 = false.
Proof. vm_compute. repeat split. Qed.

(** The key of the host ran out, is refused, and signs in again once it was renewed. *)
Example host_key_life :
  CredentialExample.issued.1 = Ok (CredentialExample.host_row, CredentialExample.token) ∧
  is_ok (Authenticate 7776999 CredentialExample.token CredentialExample.issued.2).1 = true ∧
  is_ok (Authenticate 8000000 CredentialExample.token CredentialExample.issued.2).1 = false ∧
  is_ok (VerifyHostActionsKey 8000000 CredentialExample.applications CredentialExample.grant CredentialExample.token CredentialExample.issued.2).1 = false ∧
  is_ok CredentialExample.extended.1 = true ∧ is_ok (Authenticate 8000001 CredentialExample.token CredentialExample.extended.2).1 = true ∧
  is_ok (VerifyHostActionsKey 8000001 CredentialExample.applications CredentialExample.grant CredentialExample.token CredentialExample.extended.2).1 = true.
Proof. vm_compute. repeat split. Qed.

Lemma fresh_example : fresh CredentialExample.db0.
Proof. done. Qed.

Lemma created_run : run 1000 CredentialExample.db0 ([] ++ []) 1000 CredentialExample.created.2.
Proof. eapply run_step; [apply run_start|lia|apply do_CreateKey]. Qed.

Lemma sessions_bounded_witness : (length (open_sessions CredentialExample.created.2 "ada") <= 20)%nat.
Proof. exact (sessions_bounded _ _ _ _ _ "ada" fresh_example created_run). Defined.

Lemma token_life_witness :
  (∃ p, (Authenticate 2000 CredentialExample.token CredentialExample.created.2).1 = Ok p) ∧
  ∀ p, (Authenticate 2000 CredentialExample.token CredentialExample.created.2).1 = Ok p → p.(p_Project) = "shop".
Proof.
  assert (run 1000 CredentialExample.created.2 ([] ++ []) 2000 CredentialExample.created.2) as Hr.
  { eapply run_step; [apply run_start|lia|apply step_nothing]. }
  destruct (token_life 1000 CredentialExample.db0 [] 1000 CredentialExample.db0 CredentialExample.id CredentialExample.secret
    CredentialExample.browser CredentialExample.input CredentialExample.key CredentialExample.token CredentialExample.created.2 ([] ++ []) 2000
    CredentialExample.created.2 fresh_example (run_start _ _)) as [Hiff Hp]; [done|done|vm_compute; reflexivity|exact Hr|].
  split.
  - apply Hiff. exists CredentialExample.key, CredentialExample.ada. split_and!; [vm_compute; reflexivity| |vm_compute; reflexivity|done].
    intros [Hrev|(t & [= <-] & Ht)]; [done|lia].
  - intros p Hok. apply (Hp p Hok).
Defined.

(** A revoked key is gone; the key of the host is back because of its renewal. *)
Lemma ended_forever_witness : CredentialExample.second.(p_KeyID) ≠ CredentialExample.id ∧
  CredentialExample.third.(p_KeyID) = CredentialExample.id ∧
  ∃ g, g.(hg_OwnerIdentity) = CredentialExample.owner ∧ Renewed g CredentialExample.token ∈ [Renewed CredentialExample.grant CredentialExample.token].
Proof.
  assert (run 1000 CredentialExample.db0 (([] ++ []) ++ []) 2000 CredentialExample.revoked) as Hr1.
  { eapply run_step; [exact created_run|lia|apply do_revokeKey]. }
  assert (run 2000 CredentialExample.revoked (([] ++ []) ++ []) 3000 CredentialExample.renewed) as Hr2.
  { eapply run_step; [eapply run_step; [apply run_start|reflexivity|apply do_CreateKey]|lia|apply step_nothing]. }
  assert (run 1000 CredentialExample.host0 (([] ++ []) ++ []) 8000000 CredentialExample.issued.2) as Hr3.
  { eapply run_step; [eapply run_step; [apply run_start|reflexivity|]|lia|apply step_nothing].
    exact (do_EnsureHostActionsKey 1000 CredentialExample.host0 CredentialExample.applications CredentialExample.id CredentialExample.secret CredentialExample.grant ""). }
  assert (run 8000000 CredentialExample.issued.2 (([] ++ [Renewed CredentialExample.grant CredentialExample.token]) ++ []) 8000001 CredentialExample.extended.2) as Hr4.
  { eapply run_step; [eapply run_step; [apply run_start|reflexivity|]|lia|apply step_nothing].
    exact (do_EnsureHostActionsKey 8000000 CredentialExample.issued.2 CredentialExample.applications CredentialExample.id2 CredentialExample.secret
      CredentialExample.grant CredentialExample.token). }
  split; [|assert (CredentialExample.third.(p_KeyID) = CredentialExample.id) as Hid by (vm_compute; reflexivity); split; [exact Hid|]].
  - destruct (ended_forever 1000 CredentialExample.db0 (([] ++ []) ++ []) 2000 CredentialExample.revoked (([] ++ []) ++ []) 3000 CredentialExample.renewed
      CredentialExample.id (revoke 2000 CredentialExample.key) CredentialExample.token2 CredentialExample.second fresh_example Hr1) as [Hne|[Hrev _]];
      [vm_compute; reflexivity|by left|exact Hr2|vm_compute; reflexivity|exact Hne|discriminate].
  - destruct (ended_forever 1000 CredentialExample.host0 (([] ++ []) ++ []) 8000000 CredentialExample.issued.2
      (([] ++ [Renewed CredentialExample.grant CredentialExample.token]) ++ []) 8000001 CredentialExample.extended.2
      CredentialExample.id CredentialExample.host_row CredentialExample.token CredentialExample.third) as [Hne|(_ & g & token & Hin & _ & Hk)];
      [split; reflexivity|exact Hr3|vm_compute; reflexivity|right; exists 7777000; split; [reflexivity|lia]|exact Hr4|vm_compute; reflexivity|
       destruct Hne; exact Hid|].
    cbn in Hin. apply list_elem_of_singleton in Hin as Heq. injection Heq as -> ->. exists CredentialExample.grant. split; [reflexivity|by left].
Defined.

Lemma credential_confined_witness : Principal_IsAdmin CredentialExample.first = false ∧
  Principal_Allows CredentialExample.first "deployments:write" "shop" "prod" "web" = true ∧
  Principal_Allows CredentialExample.first "deployments:write" "bank" "prod" "web" = false.
Proof.
  destruct (credential_confined 1000 CredentialExample.db0 ([] ++ []) 1000 CredentialExample.created.2 CredentialExample.token CredentialExample.first
    fresh_example created_run) as [_ Hc]; [vm_compute; reflexivity|].
  destruct Hc as [Ha Hc]; [apply (bool_decide_unpack _); vm_compute; exact I|]. split; [exact Ha|]. split; [vm_compute; reflexivity|].
  apply not_true_iff_false. intros [_ [(_ & Hp & _)|[_ Hn]]]%Hc; [|discriminate].
  assert (CredentialExample.first.(p_Project) = "shop") as Hs by (vm_compute; reflexivity). rewrite Hs in Hp. discriminate.
Defined.
