(* ===== verification/DeviceConsent.v ===== *)
(** Device sign-in over runs of the store: a code gives at most one session, after a
    person approved it in a browser, to that person, for what was asked. *)
From S2P Require Import Prelude GoStd StoreErrors GoNet Paths SpecTypes Regex Platform License Principals Credentials Devices CredentialSafety CredentialRuns.
#[global] Open Scope Z_scope.

Section consent.
Context `{Issuer} `{!Server} `{RangeOrder}.

(** * What is promised *)

(** What entitles a person to a session of these permissions under a scope, at a time.
    The administration of the installation takes its administrator, the terminals of
    hosts take grants of hosts, and everything else takes, on a managed installation,
    a scope that is offered to the person and covers the permissions, and otherwise
    every permission in the project and environment. *)
Definition entitled (administers hosts : Principal → bool) (now : Z) (p : Principal) (scope project environment : string) (permissions : list string) : Prop :=
  if contains permissions "agent:admin" then scope = "installation" ∧ administers p = true
  else if contains permissions "nodes:terminal" then scope = "host" ∧ hosts p = true ∧ p.(p_HostPermissions) ≠ []
  else match DeviceScopes with
  | None => scope = EmptyString ∧ Forall (λ x, Principal_Allows p x project environment EmptyString = true) permissions
  | Some offered => Principal_IsHuman p = true ∧ p.(p_MFARequired) = false ∧ ∃ scopes s, offered now p = Ok scopes ∧ s ∈ scopes ∧
      s.(ds_ID) = scope ∧ s.(ds_Project) = project ∧ s.(ds_Environment) = environment ∧ deviceScopeAllows s permissions = true
  end.

(** What the approver held, for what was approved. *)
Record consent_ok (now : Z) (p : Principal) (scope project environment : string) (permissions : list string) : Prop := {
  consent_browser : p.(p_CredentialType) = "browser";
  consent_mfa : p.(p_MFARequired) = false;
  consent_entitled : entitled Principal_IsAdmin Principal_IsHuman now p scope project environment permissions;
  consent_unscoped : "agent:admin" ∈ permissions ∨ "nodes:terminal" ∈ permissions →
    DeviceScopes = None ∧ project = EmptyString ∧ environment = EmptyString;
}.

(** What the bearer of the session holds as it is issued. *)
Record issued_ok (now : Z) (s : Session) : Prop := {
  issued_cli : s.(s_User).(p_CredentialType) = "cli";
  issued_expires : s.(s_ExpiresAt) = now + 43200;
  issued_entitled : entitled Principal_CanUseInstallationAgentAdministration Principal_CanUseHostCredential now s.(s_User) s.(s_ScopeID)
    s.(s_User).(p_Project) s.(s_User).(p_Environment) s.(s_User).(p_Permissions);
  issued_scope : DeviceScopes ≠ None → s.(s_ScopeID) ≠ EmptyString;
}.

(** The approval of what a session is for, by its bearer. *)
Definition approved_for (now : Z) (p : Principal) (s : Session) : Prop :=
  p.(p_ID) = s.(s_User).(p_ID) ∧ (s.(s_User).(p_MFAVerified) = true → p.(p_MFAVerified) = true) ∧
  consent_ok now p s.(s_ScopeID) s.(s_User).(p_Project) s.(s_User).(p_Environment) s.(s_User).(p_Permissions).

(** Every session comes after an approval by its bearer, and is the first of its code. *)
Definition consented (ls : list event) : Prop := ∀ l1 d t s l2, ls = l1 ++ Issued d t s :: l2 →
  issued_ok t s ∧ (∀ t' s', Issued d t' s' ∉ l1) ∧ ∃ t0 p, Approved d t0 p ∈ l1 ∧ approved_for t0 p s.

Definition started (ls : list event) : list string := omap (λ e, match e with Started d => Some d | _ => None end) ls.

(** * Codes over time *)

Record code_later (c c' : DeviceCode) : Prop := mkCodeLater {
  code_same : (c'.(dc_Digest), c'.(dc_UserCode), c'.(dc_Permissions)) = (c.(dc_Digest), c.(dc_UserCode), c.(dc_Permissions));
  code_approved : c'.(dc_Approved) = Some true →
    (c.(dc_Approved), c.(dc_IdentityID), c.(dc_Project), c.(dc_Environment), c.(dc_ScopeID), c.(dc_MFAVerified)) =
    (c'.(dc_Approved), c'.(dc_IdentityID), c'.(dc_Project), c'.(dc_Environment), c'.(dc_ScopeID), c'.(dc_MFAVerified));
  code_consumed : non_nil c.(dc_ConsumedAt) = true → non_nil c'.(dc_ConsumedAt) = true;
}.

(** Rows may disappear and otherwise only grow older. *)
Definition codes_later (m m' : gmap string DeviceCode) : Prop := ∀ row c', m' !! row = Some c' → ∃ c, m !! row = Some c ∧ code_later c c'.

Lemma code_later_refl c : code_later c c.
Proof. by split. Qed.

Lemma codes_later_refl m : codes_later m m.
Proof. intros row c Hc. exists c. split; [done|apply code_later_refl]. Qed.

Lemma code_later_trans c1 c2 c3 : code_later c1 c2 → code_later c2 c3 → code_later c1 c3.
Proof.
  intros [S1 A1 C1] [S2 A2 C2]. split; [congruence| |auto]. intros Ha. specialize (A2 Ha).
  assert (dc_Approved c2 = Some true) as Ha2 by congruence. specialize (A1 Ha2). congruence.
Qed.

Lemma codes_later_trans m1 m2 m3 : codes_later m1 m2 → codes_later m2 m3 → codes_later m1 m3.
Proof.
  intros H12 H23 row c3 Hc3. destruct (H23 _ _ Hc3) as (c2 & Hc2 & L2). destruct (H12 _ _ Hc2) as (c1 & Hc1 & L1).
  exists c1. split; [done|by eapply code_later_trans].
Qed.

Lemma codes_later_alter m row f : (∀ c, m !! row = Some c → code_later c (f c)) → codes_later m (alter f row m).
Proof.
  intros Hf row' c' Hc'. destruct (decide (row = row')) as [<-|Hne].
  - rewrite lookup_alter_eq in Hc'. destruct (m !! row) as [c|] eqn:Hc; [|done]. injection Hc' as <-. exists c. split; [done|by apply Hf].
  - rewrite lookup_alter_ne in Hc' by done. exists c'. split; [done|apply code_later_refl].
Qed.

Lemma find_code_Some f db row c : find_code f db = Some (row, c) → db.(device_codes) !! row = Some c ∧ f c = true.
Proof.
  unfold find_code. intros Hh. assert ((row, c) ∈ filter (λ r : string * DeviceCode, f r.2 = true) (range db.(device_codes))) as Hin.
  { destruct (filter _ _) as [|x l]; [done|]. injection Hh as ->. by left. }
  apply list_elem_of_filter in Hin as [Hf Hin]. split; [by apply elem_of_range|done].
Qed.

(** ** Operations that leave the codes alone *)

Definition same_codes (db db' : Database) : Prop := db'.(device_codes) = db.(device_codes).

Lemma update_key_codes id f db : same_codes db (update_key id f db).
Proof. done. Qed.

Lemma insert_key_codes id k db db' : insert_key id k db = Ok db' → same_codes db db'.
Proof. by intros (-> & _)%insert_key_Ok. Qed.

Lemma NewVerifiedSession_codes now id secret identity kind project environment permissions verified db :
  same_codes db (NewVerifiedSession now id secret identity kind project environment permissions verified db).2.
Proof.
  destruct (NewVerifiedSession_spec now id secret identity kind project environment permissions verified db) as [[-> _]|(k & i & _ & _ & _ & _ & _ & -> & _)]; done.
Qed.

Lemma RevokeSession_codes now p id db : same_codes db (RevokeSession now p id db).2.
Proof.
  apply (commit_step (same_codes db)); [|done]. intros [] db' Hc. inv_ok. destruct (api_keys db !! _); [|done]. inv_ok. by simplify_eq.
Qed.

Lemma CreateBoundKey_codes now id secret p i scope binding rotate never db :
  same_codes db (CreateBoundKey now id secret p i scope binding rotate never db).2.
Proof.
  apply (commit_step (same_codes db)); [|done]. intros [k raw] db' Hc. unfold makeKey in Hc. inv_ok. simplify_eq.
  apply insert_key_codes in Hok4. unfold same_codes in *. cbn [audit set_audit set_automation device_codes]. rewrite Hok4.
  destruct (is_empty rotate); [by injection Hok2 as ->|]. destruct (api_keys db !! rotate); [|done].
  destruct (automation_key_scopes db !! rotate) as [[]|]; [|done]. inv_ok. done.
Qed.

Ltac quiet := unfold makeKey; intros; inv_ok; simplify_eq; unfold same_codes in *; try done;
  match goal with Hi : insert_key _ _ _ = Ok _ |- _ => apply insert_key_codes in Hi; exact Hi end.

Lemma Authenticate_codes now raw db : same_codes db (Authenticate now raw db).2.
Proof. unfold Authenticate. repeat case_match; done. Qed.

Lemma EnsureHostActionsKey_codes now applications id secret g raw db : same_codes db (EnsureHostActionsKey now applications id secret g raw db).2.
Proof.
  apply (commit_step (same_codes db)); [|done]. intros [k token] db' Hc. apply bind_unit_Ok in Hc as [_ Hc]. apply bind_unit_Ok in Hc as [_ Hc].
  destruct (applications !! _); [|done]. apply bind_unit_Ok in Hc as [_ Hc]. destruct (is_empty raw).
  - unfold host_key_create in Hc. revert Hc. cbv zeta. quiet.
  - unfold host_key_renew in Hc. cbv zeta in Hc. destruct (api_keys db !! _); [|done]. destruct (automation_key_scopes db !! _) as [[]|]; [|done].
    do 3 apply bind_unit_Ok in Hc as [_ Hc]. case_match; by simplify_eq.
Qed.

Lemma edited_codes m m' : map_Forall2 (λ _, code_edit) m m' → codes_later m m'.
Proof.
  intros Hm row c' Hc'. specialize (Hm row). rewrite Hc' in Hm. inversion Hm as [c c1 He E1 E2|]; subst. exists c. split; [done|].
  destruct He; [apply code_later_refl|by split].
Qed.

(** The steps of credentials: they see nothing of codes, and at most take an approval back. *)
Definition quiet_events (l : list event) : Prop := started l = [] ∧ ∀ d t s, Issued d t s ∉ l.

Lemma quiet_step now db l db' : store_step now db l db' →
  (codes_later db.(device_codes) db'.(device_codes) ∧ quiet_events l) ∨ (∃ id t1 t2 random project environment permissions grant a,
      startDevice now id t1 t2 random project environment permissions grant db = (Ok a, db') ∧ l = [Started (sha256_Sum a.(da_DeviceCode))]) ∨
  (∃ p code selected row c, ApproveDevice now p code true selected db = (Ok tt, db') ∧ l = [Approved c.(dc_Digest) now p] ∧
      find_code (λ c, (c.(dc_UserCode) =? normalizeUserCode code)%string && open_code now c) db = Some (row, c)) ∨
  (∃ p code selected, db' = (ApproveDevice now p code false selected db).2 ∧ l = []) ∨
  ∃ id secret token exchange, db' = (pollDevice now id secret token exchange db).2 ∧
      l = match (pollDevice now id secret token exchange db).1 with Ok s => [Issued (sha256_Sum token) now s] | Err _ => [] end.
Proof.
  assert (∀ l db', same_codes db db' → quiet_events l → codes_later db.(device_codes) db'.(device_codes) ∧ quiet_events l) as Hsame.
  { intros l0 db0 He Hl. unfold same_codes in He. rewrite He. split; [apply codes_later_refl|done]. }
  assert (quiet_events []) as Hnil by (split; [done|intros d t s []%not_elem_of_nil]).
  destruct 1 as [db' _ Hc|ident id secret name|id secret p i|id secret p old expires never|id secret p i scope binding rotate never|p scope id|p id
    |id digest p project environment app id' db' Hg|id digest owner id' db' Hg|applications id secret g raw|applications g raw
    |id secret identity kind project environment permissions verified|p id|p id disabled adm|raw
    |id t1 t2 random project environment permissions grant a db' Hs|p code selected row c db' Ha Hf|p code selected|id secret token exchange].
  1: left; split; [by apply edited_codes|done].
  1-14: left; apply Hsame; [|try exact Hnil].
  - apply (commit_step (same_codes db)); [quiet|done].
  - apply (commit_step (same_codes db)); [intros [k raw] db'; quiet|done].
  - apply (commit_step (same_codes db)); [intros [k raw] db'; quiet|done].
  - apply CreateBoundKey_codes.
  - apply (commit_step (same_codes db)); [quiet|done].
  - apply (commit_step (same_codes db)); [quiet|done].
  - unfold NewSourceGrant in Hg. quiet.
  - unfold showcase_grant in Hg. apply bind_Ok in Hg as ([grant db1] & Hg & [= <- <-]). unfold NewSourceGrant in Hg. quiet.
  - apply EnsureHostActionsKey_codes.
  - case_match; [|done]. split; [done|]. intros d t s. set_solver.
  - unfold VerifyHostActionsKey. destruct (hostActionsKey _ _ _ _ _ _ _ _).1; [apply Authenticate_codes|done].
  - apply NewVerifiedSession_codes.
  - apply RevokeSession_codes.
  - apply (commit_step (same_codes db)); [quiet|done].
  - apply Authenticate_codes.
  - right; left. by exists id, t1, t2, random, project, environment, permissions, grant, a.
  - right; right; left. by exists p, code, selected, row, c.
  - do 3 right; left. by exists p, code, selected.
  - do 4 right. by exists id, secret, token, exchange.
Qed.

(** ** Operations on codes *)

Lemma startDevice_codes now id t1 t2 random project environment permissions grant db a db' :
  startDevice now id t1 t2 random project environment permissions grant db = (Ok a, db') →
  ∃ m c, codes_later db.(device_codes) m ∧ (∀ row c0, m !! row = Some c0 → c0.(dc_UserCode) ≠ c.(dc_UserCode)) ∧ m !! id = None ∧
    db'.(device_codes) = <[id := c]> m ∧ c.(dc_Digest) = sha256_Sum a.(da_DeviceCode) ∧ c.(dc_Approved) = None.
Proof.
  unfold startDevice. intros Hs. match type of Hs with commit db ?o = _ => destruct o as [[a0 db0]|e] eqn:Ho; [|done] end.
  cbn [commit] in Hs. injection Hs as -> ->. inv_ok. simplify_eq. apply orb_false_iff in Hok5 as [[Hid Huser]%orb_false_iff _].
  eexists _, _. cbn [device_codes set_device_codes]. split_and!; [| | |reflexivity|done|done].
  - intros row c' [Hc' _]%map_lookup_filter_Some. exists c'. split; [done|apply code_later_refl].
  - intros row c0 Hc0. cbn [dc_UserCode]. intros He. rewrite <-not_true_iff_false, existsb_exists in Huser. destruct Huser.
    exists (row, c0). split; [by apply list_elem_of_In, elem_of_map_to_list|by apply String.eqb_eq].
  - unfold has_key in Hid. by destruct (_ !! id).
Qed.

(** What a person is offered for a code. *)
Definition offered_for (now : Z) (p : Principal) (permissions : list string) (scopes : list DeviceScope) : Prop :=
  if contains permissions "agent:admin" then
    DeviceScopes = None ∧ Principal_IsAdmin p = true ∧ ∀ s, s ∈ scopes → s.(ds_ID) = "installation" ∧ s.(ds_Project) = EmptyString ∧ s.(ds_Environment) = EmptyString
  else if contains permissions "nodes:terminal" then
    DeviceScopes = None ∧ Principal_IsHuman p = true ∧ p.(p_HostPermissions) ≠ [] ∧
    ∀ s, s ∈ scopes → s.(ds_ID) = "host" ∧ s.(ds_Project) = EmptyString ∧ s.(ds_Environment) = EmptyString
  else match DeviceScopes with
  | None => ∀ s, s ∈ scopes → s.(ds_ID) = EmptyString
  | Some offered => Principal_IsHuman p = true ∧ offered now p = Ok scopes
  end.

Lemma details_Ok now p code db v : DeviceDetails now p code db = Ok v →
  p.(p_CredentialType) = "browser" ∧ p.(p_MFARequired) = false ∧
  ∃ row c, find_code (λ c, (c.(dc_UserCode) =? normalizeUserCode code)%string && open_code now c) db = Some (row, c) ∧
    v.(dd_UserCode) = c.(dc_UserCode) ∧ v.(dd_Permissions) = c.(dc_Permissions) ∧ offered_for now p c.(dc_Permissions) v.(dd_Scopes).
Proof.
  unfold DeviceDetails. intros [Hb%fail_when_Ok%negb_false_iff%String.eqb_eq Hd]%bind_unit_Ok. split; [done|].
  destruct (find_code _ db) as [[row c]|] eqn:Hf; [|done]. cbv zeta in Hd. unfold offered_for.
  destruct (contains (dc_Permissions c) "agent:admin") eqn:Ha; [|destruct (contains (dc_Permissions c) "nodes:terminal") eqn:Ht].
  - apply bind_unit_Ok in Hd as [[[[Hadm%negb_false_iff Hn]%orb_false_iff _]%orb_false_iff _]%fail_when_Ok%orb_false_iff [= <-]].
    split; [by apply IsAdmin_spec in Hadm as []|]. exists row, c. rewrite Ha. split_and!; [done..|by destruct DeviceScopes|done|].
    by intros s ->%list_elem_of_singleton.
  - apply bind_unit_Ok in Hd as [[[[Hm Hh%negb_false_iff]%orb_false_iff Hn]%orb_false_iff Hl%Z.eqb_neq]%fail_when_Ok%orb_false_iff [= <-]].
    split; [done|]. exists row, c. rewrite Ha, Ht. split_and!; [done..|by destruct DeviceScopes|done|by intros He; rewrite He in Hl|].
    by intros s ->%list_elem_of_singleton.
  - apply bind_Ok in Hd as (scopes & Hs & [= <-]). unfold deviceScopes in Hs.
    apply bind_unit_Ok in Hs as [[Hh%negb_false_iff Hm]%fail_when_Ok%orb_false_iff Hs]. split; [done|]. exists row, c. rewrite Ha, Ht. split_and!; [done..|].
    destruct DeviceScopes as [offered|]; [done|]. injection Hs as <-. by intros s (e & -> & _)%list_elem_of_fmap.
Qed.

Lemma forallb_Forall {A} (f : A → bool) l : forallb f l = true → Forall (λ x, f x = true) l.
Proof. intros Hf. apply Forall_forall. intros x Hx. rewrite forallb_forall in Hf. by apply Hf, list_elem_of_In. Qed.

Lemma consent_Ok p v selected project environment scope : consent p v selected = Ok (project, environment, scope) →
  ∃ s, s ∈ v.(dd_Scopes) ∧ s.(ds_Project) = project ∧ s.(ds_Environment) = environment ∧ s.(ds_ID) = scope ∧
    (non_nil DeviceScopes = true → deviceScopeAllows s v.(dd_Permissions) = true) ∧
    (DeviceScopes = None → s.(ds_ID) ≠ "host" →
       Forall (λ x, Principal_Allows p x project environment EmptyString = true) v.(dd_Permissions)).
Proof.
  unfold consent. cbv zeta. rewrite !bind_unit_Ok. intros (_ & _ & _ & Hc).
  match type of Hc with match head ?l with _ => _ end = _ => destruct l as [|s l'] eqn:Hl; [done|] end. cbn [head] in Hc.
  assert (s ∈ dd_Scopes v) as Hin.
  { eapply (list_elem_of_filter _ _ s). rewrite Hl. by left. }
  apply bind_unit_Ok in Hc as [Hmanaged%fail_when_Ok Hc]. apply bind_unit_Ok in Hc as [Hall%fail_when_Ok [= <- <- <-]].
  exists s. split_and!; [done..| |].
  - intros Hn. rewrite Hn in Hmanaged. by apply negb_false_iff in Hmanaged.
  - intros Hnone Hid. rewrite Hnone in Hall. apply String.eqb_neq in Hid. rewrite Hid in Hall.
    cbn [non_nil negb andb] in Hall. by apply negb_false_iff, forallb_Forall in Hall.
Qed.

(** An offer that was taken up entitles to the session. *)
Lemma offered_entitled now p permissions scopes s :
  offered_for now p permissions scopes → p.(p_MFARequired) = false → s ∈ scopes → (non_nil DeviceScopes = true → deviceScopeAllows s permissions = true) →
  (DeviceScopes = None → s.(ds_ID) ≠ "host" →
     Forall (λ x, Principal_Allows p x s.(ds_Project) s.(ds_Environment) EmptyString = true) permissions) →
  entitled Principal_IsAdmin Principal_IsHuman now p s.(ds_ID) s.(ds_Project) s.(ds_Environment) permissions ∧
  ("agent:admin" ∈ permissions ∨ "nodes:terminal" ∈ permissions → DeviceScopes = None ∧ s.(ds_Project) = EmptyString ∧ s.(ds_Environment) = EmptyString).
Proof.
  unfold offered_for, entitled. intros Ho Hm Hs Hcov Hall. destruct (contains permissions "agent:admin") eqn:Ha; [|destruct (contains permissions "nodes:terminal") eqn:Ht].
  - destruct Ho as (Hn & Hadm & Hone). by destruct (Hone s Hs) as (-> & -> & ->).
  - destruct Ho as (Hn & Hh & Hg & Hone). by destruct (Hone s Hs) as (-> & -> & ->).
  - apply contains_false in Ha, Ht. split; [|by intros []]. destruct DeviceScopes as [offered|].
    + destruct Ho as [Hh Ho]. split_and!; [done|done|]. exists scopes, s. by split_and!; [..|apply Hcov].
    + specialize (Ho s Hs). split; [done|]. apply Hall; [done|by rewrite Ho].
Qed.

(** The row an approval or a refusal settles. *)
Lemma ApproveDevice_Ok now p code approve selected db db' : ApproveDevice now p code approve selected db = (Ok tt, db') →
  ∃ row0 c0 row c project environment scope,
    find_code (λ c, (c.(dc_UserCode) =? normalizeUserCode code)%string && open_code now c) db = Some (row0, c0) ∧
    db.(device_codes) !! row = Some c ∧ c.(dc_UserCode) = c0.(dc_UserCode) ∧ c.(dc_Approved) = None ∧
    db' = set_device_codes (alter (approve_row p.(p_ID) approve p.(p_MFAVerified) project environment scope) row db.(device_codes)) db ∧
    (approve = true → consent_ok now p scope project environment c0.(dc_Permissions)).
Proof.
  unfold ApproveDevice. intros Hs. match type of Hs with commit db ?o = _ => destruct o as [[a0 db0]|e] eqn:Ho; [|done] end.
  cbn [commit] in Hs. injection Hs as -> ->. apply bind_Ok in Ho as (v & Hv & Ho). apply bind_Ok in Ho as ([[project environment] scope] & Hc & Ho).
  destruct (find_code (λ c, (c.(dc_UserCode) =? dd_UserCode v)%string && _ && _ && _) db) as [[row c]|] eqn:Hf; [|done]. injection Ho as <-.
  apply details_Ok in Hv as (Hb & Hm & row0 & c0 & Hf0 & Hu & Hp & Hoff). apply find_code_Some in Hf as [Hrow Hcond].
  rewrite !andb_true_iff in Hcond. destruct Hcond as (((Hcu%String.eqb_eq & Hca) & _) & _).
  exists row0, c0, row, c, project, environment, scope. split_and!; [done|done|congruence|by destruct (dc_Approved c)|done|].
  intros ->. apply consent_Ok in Hc as (s & Hs & <- & <- & <- & Hcov & Hall). rewrite Hp in Hcov, Hall.
  destruct (offered_entitled _ _ _ _ _ Hoff Hm Hs Hcov Hall). by split.
Qed.

Lemma issueDeviceSession_codes now id secret identity project environment scopeID permissions verified db :
  same_codes db (issueDeviceSession now id secret identity project environment scopeID permissions verified db).2.
Proof.
  unfold issueDeviceSession. pose proof (NewVerifiedSession_codes now id secret identity "cli" project environment permissions verified db) as Hs.
  destruct (NewVerifiedSession _ _ _ _ _ _ _ _ _ db) as [[session|e] db']; [|done]. cbn [snd] in Hs.
  assert (∀ p id, same_codes db (RevokeSession now p id db').2) as Hr.
  { intros p id0. pose proof (RevokeSession_codes now p id0 db'). unfold same_codes in *. congruence. }
  cbv zeta. case_match; [|apply Hr]. case_match; [apply Hr|]. cbn [snd]. by case_match.
Qed.

Lemma session_scope_entitled db now p project environment scopeID permissions scope :
  session_scope db now p project environment scopeID permissions = Some scope →
  (non_nil DeviceScopes = false → contains permissions "agent:admin" = false → contains permissions "nodes:terminal" = false → scopeID = EmptyString) →
  scope = scopeID ∧ (DeviceScopes ≠ None → scope ≠ EmptyString) ∧
  entitled Principal_CanUseInstallationAgentAdministration Principal_CanUseHostCredential now p scope project environment permissions.
Proof.
  unfold session_scope, entitled. intros Hs Hplain. destruct (contains permissions "agent:admin"); [|destruct (contains permissions "nodes:terminal")].
  - destruct (_ || _) eqn:Hg; [done|]. injection Hs as <-. apply orb_false_iff in Hg as [[Hi%negb_false_iff%String.eqb_eq _]%orb_false_iff Ha%negb_false_iff]. by split_and!.
  - destruct (_ || _) eqn:Hg; [done|]. injection Hs as <-.
    apply orb_false_iff in Hg as [[Hi%negb_false_iff%String.eqb_eq Hh%negb_false_iff]%orb_false_iff Hl%Z.eqb_neq]. split_and!; [done..|].
    by intros He; rewrite He in Hl.
  - unfold deviceScopes in Hs. destruct DeviceScopes as [offered|]; cbn [non_nil] in *.
    + destruct (Principal_IsHuman p) eqn:Hh; [|done]. destruct (p_MFARequired p) eqn:Hm; [done|]. cbn [negb orb fail_when mbind result_bind] in Hs.
      destruct (offered now p) as [scopes|] eqn:Ho; [|done]. destruct (_ || is_empty scopeID) eqn:Hg; [done|]. injection Hs as <-.
      apply orb_false_iff in Hg as [Hg%negb_false_iff Hid%is_empty_false]. split_and!; [done|done|done|done|].
      apply existsb_exists in Hg as (s & Hin%list_elem_of_In & Hg). rewrite !andb_true_iff, !String.eqb_eq in Hg. exists scopes, s. tauto.
    + destruct (forallb _ permissions) eqn:Hf; [|done]. injection Hs as <-. rewrite Hplain by done. split_and!; [done|done|done|by apply forallb_Forall].
Qed.

(** The session is the approver's, for what was approved. *)
Lemma issueDeviceSession_Ok now id secret identity project environment scopeID permissions verified db s db' :
  issueDeviceSession now id secret identity project environment scopeID permissions verified db = (Ok s, db') →
  (non_nil DeviceScopes = false → contains permissions "agent:admin" = false → contains permissions "nodes:terminal" = false → scopeID = EmptyString) →
  issued_ok now s ∧ s.(s_User).(p_ID) = identity ∧ s.(s_User).(p_Project) = project ∧ s.(s_User).(p_Environment) = environment ∧
  s.(s_User).(p_Permissions) = permissions ∧ s.(s_ScopeID) = scopeID ∧ (s.(s_User).(p_MFAVerified) = true → verified = true).
Proof.
  unfold issueDeviceSession.
  destruct (NewVerifiedSession_spec now id secret identity "cli" project environment permissions verified db) as [[_ He]|(k & i & Hr & _ & _ & _ & _ & _ & Hok)].
  { destruct (NewVerifiedSession _ _ _ _ _ _ _ _ _ db) as [[]]; done. }
  destruct (NewVerifiedSession _ _ _ _ _ _ _ _ _ db) as [r db0]. cbn [fst] in Hok. subst r. cbv zeta.
  destruct (row_scope _ _ _ _ _ _ _ _ _ _ Hr eq_refl) as (Hp & Hen & Hperm). pose proof (row_identity _ _ _ _ _ _ _ _ _ _ Hr) as Hid.
  pose proof (row_kind _ _ _ _ _ _ _ _ _ _ Hr) as Hkind. pose proof (row_verified _ _ _ _ _ _ _ _ _ _ Hr) as Hver.
  set (p := key_principal _ now id k i). assert (p.(p_ID) = identity ∧ p.(p_Project) = project ∧ p.(p_Environment) = environment ∧
    p.(p_Permissions) = permissions ∧ p.(p_CredentialType) = "cli" ∧ (p.(p_MFAVerified) = true → verified = true)) as (E1 & E2 & E3 & E4 & E5 & E6).
  { unfold p. cbn [key_principal p_ID p_Project p_Environment p_Permissions p_CredentialType p_MFAVerified]. rewrite andb_true_iff, Hver. tauto. }
  clearbody p. cbn [s_User]. destruct (session_scope _ now p _ _ _ _) as [scope|] eqn:Hs; [|done]. case_match; [done|]. intros [= <- _] Hplain.
  apply session_scope_entitled in Hs as (-> & Hne & Hent); [|done].
  cbn [set_s_ScopeID s_User s_ScopeID]. split; [|done]. split; cbn [set_s_ScopeID s_User s_ScopeID s_ExpiresAt]; [done|done| |done].
  by rewrite E2, E3, E4.
Qed.

Lemma consume_later now c : code_later c (set_dc_ConsumedAt (Some now) c).
Proof. by split. Qed.

Lemma polled_later now c : code_later c (set_dc_LastPolledAt (Some now) c).
Proof. by split. Qed.

(** The scope of a plain code is empty where no scopes are configured. *)
Definition plain_scope (c : DeviceCode) : Prop :=
  non_nil DeviceScopes = false → contains c.(dc_Permissions) "agent:admin" = false → contains c.(dc_Permissions) "nodes:terminal" = false →
  c.(dc_ScopeID) = EmptyString.

(** The session has what the code says. *)
Definition issued_from (now : Z) (s : Session) (c : DeviceCode) : Prop :=
  issued_ok now s ∧ s.(s_User).(p_ID) = or_empty c.(dc_IdentityID) ∧ s.(s_User).(p_Project) = c.(dc_Project) ∧
  s.(s_User).(p_Environment) = c.(dc_Environment) ∧ s.(s_User).(p_Permissions) = c.(dc_Permissions) ∧ s.(s_ScopeID) = c.(dc_ScopeID) ∧
  (s.(s_User).(p_MFAVerified) = true → c.(dc_MFAVerified) = true).

(** A poll gave a session for a code: approved, unused before and used after. *)
Definition issued_code (now : Z) (token : string) (m m' : gmap string DeviceCode) (s : Session) : Prop :=
  ∃ row c c', m !! row = Some c ∧ c.(dc_Digest) = sha256_Sum token ∧ non_nil c.(dc_ConsumedAt) = false ∧
    c.(dc_Approved) = Some true ∧ m' !! row = Some c' ∧ non_nil c'.(dc_ConsumedAt) = true ∧ (plain_scope c → issued_from now s c).

(** A poll leaves the codes alone, or notes the poll or the use of one. *)
Lemma pollDevice_spec now id secret token exchange db :
  let r := pollDevice now id secret token exchange db in
  codes_later db.(device_codes) r.2.(device_codes) ∧ ∀ s, r.1 = Ok s → issued_code now token db.(device_codes) r.2.(device_codes) s.
Proof.
  cbv zeta. unfold pollDevice. destruct (negb _); [split; [apply codes_later_refl|done]|].
  destruct (find_code _ db) as [[row c]|] eqn:Hf; [|split; [apply codes_later_refl|done]].
  apply find_code_Some in Hf as [Hrow [Hd%String.eqb_eq [Hc%negb_true_iff _]%andb_true_iff]%andb_true_iff].
  destruct (negb _); [split; [apply codes_later_refl|done]|]. cbv zeta.
  assert (∀ f db', (∀ c, code_later c (f c)) → codes_later db.(device_codes) db'.(device_codes) →
    codes_later db.(device_codes) (update_code row f db').(device_codes)) as Hup.
  { intros f db' Hl H'. eapply codes_later_trans; [exact H'|]. apply codes_later_alter. intros c0 _. apply Hl. }
  assert (∀ db', codes_later db.(device_codes) db'.(device_codes) → (∃ c', db'.(device_codes) !! row = Some c' ∧ non_nil c'.(dc_ConsumedAt) = true) →
    dc_Approved c = Some true →
    let r := issueDeviceSession now id secret (or_empty (dc_IdentityID c)) (dc_Project c) (dc_Environment c) (dc_ScopeID c)
      (dc_Permissions c) (dc_MFAVerified c) db' in
    codes_later db.(device_codes) r.2.(device_codes) ∧ ∀ s, r.1 = Ok s → issued_code now token db.(device_codes) r.2.(device_codes) s) as Hissue.
  { intros db' Hl (c' & Hc' & Hcons) Happ. cbv zeta.
    pose proof (issueDeviceSession_codes now id secret (or_empty (dc_IdentityID c)) (dc_Project c) (dc_Environment c) (dc_ScopeID c)
      (dc_Permissions c) (dc_MFAVerified c) db') as Hsame. unfold same_codes in Hsame. rewrite Hsame. split; [done|]. intros s Hs.
    exists row, c, c'. split_and!; [done..|]. intros Hplain.
    destruct (issueDeviceSession _ _ _ _ _ _ _ _ _ db') as [r db2] eqn:Hi. cbn [fst] in Hs. subst r. by apply issueDeviceSession_Ok in Hi. }
  pose proof (codes_later_refl db.(device_codes)) as Hrefl.
  destruct exchange as [x|].
  - assert (codes_later db.(device_codes) (update_code row (set_dc_ConsumedAt (Some now)) db).(device_codes)) as Hl by (apply Hup; [apply consume_later|done]).
    destruct (dc_Approved c) as [approved|] eqn:Happ; [|done]. destruct (negb _); [done|]. destruct approved; cbn [negb]; [|done].
    apply Hissue; [done| |done]. cbn. rewrite lookup_alter_eq, Hrow. eexists. done.
  - destruct (match dc_LastPolledAt c with Some _ => _ | None => _ end); [done|].
    assert (codes_later db.(device_codes) (update_code row (set_dc_LastPolledAt (Some now)) db).(device_codes)) as Hl by (apply Hup; [apply polled_later|done]).
    destruct (dc_Approved c) as [approved|] eqn:Happ; [|done].
    assert (codes_later db.(device_codes) (update_code row (set_dc_ConsumedAt (Some now)) (update_code row (set_dc_LastPolledAt (Some now)) db)).(device_codes)) as Hl2
      by (apply Hup; [apply consume_later|done]).
    destruct approved; cbn [negb]; [|done]. apply Hissue; [done| |done]. cbn. rewrite !lookup_alter_eq, Hrow. eexists. done.
Qed.

(** * Over a run *)

(** Somebody approved the code as it is. *)
Definition code_approved_by (ls : list event) (c : DeviceCode) : Prop :=
  ∃ t p, Approved c.(dc_Digest) t p ∈ ls ∧ c.(dc_IdentityID) = Some p.(p_ID) ∧ c.(dc_MFAVerified) = p.(p_MFAVerified) ∧
    consent_ok t p c.(dc_ScopeID) c.(dc_Project) c.(dc_Environment) c.(dc_Permissions).

Record codes_inv (ls : list event) (m : gmap string DeviceCode) : Prop := {
  inv_started : ∀ row c, m !! row = Some c → Started c.(dc_Digest) ∈ ls;
  inv_digest : ∀ row1 row2 c1 c2, m !! row1 = Some c1 → m !! row2 = Some c2 → c1.(dc_Digest) = c2.(dc_Digest) → row1 = row2;
  inv_user : ∀ row1 row2 c1 c2, m !! row1 = Some c1 → m !! row2 = Some c2 → c1.(dc_UserCode) = c2.(dc_UserCode) → row1 = row2;
  inv_approved : ∀ row c, m !! row = Some c → c.(dc_Approved) = Some true → code_approved_by ls c;
  inv_issued : ∀ d t s, Issued d t s ∈ ls → Started d ∈ ls ∧ ∀ row c, m !! row = Some c → c.(dc_Digest) = d → non_nil c.(dc_ConsumedAt) = true;
}.

Lemma code_approved_more ls l c : code_approved_by ls c → code_approved_by (ls ++ l) c.
Proof. intros (t & p & Hp & ?). exists t, p. rewrite elem_of_app. auto. Qed.

Lemma code_approved_plain ls c : code_approved_by ls c → plain_scope c.
Proof.
  intros (t & p & _ & _ & _ & [_ _ He _]) Hn Ha Ht. unfold entitled in He. rewrite Ha, Ht in He. destruct DeviceScopes; [done|]. apply He.
Qed.

Lemma codes_inv_later ls m m' : codes_later m m' → codes_inv ls m → codes_inv ls m'.
Proof.
  intros Hl [Is Id Iu Ia Ii]. split.
  - intros row c' Hc'. destruct (Hl _ _ Hc') as (c & Hc & [S _ _]). injection S as -> _ _. by eapply Is.
  - intros row1 row2 c1 c2 Hc1 Hc2 He. destruct (Hl _ _ Hc1) as (d1 & Hd1 & [S1 _ _]). destruct (Hl _ _ Hc2) as (d2 & Hd2 & [S2 _ _]).
    apply (Id _ _ _ _ Hd1 Hd2). congruence.
  - intros row1 row2 c1 c2 Hc1 Hc2 He. destruct (Hl _ _ Hc1) as (d1 & Hd1 & [S1 _ _]). destruct (Hl _ _ Hc2) as (d2 & Hd2 & [S2 _ _]).
    apply (Iu _ _ _ _ Hd1 Hd2). congruence.
  - intros row c' Hc' Ha. destruct (Hl _ _ Hc') as (c & Hc & [S A _]). specialize (A Ha). injection A as A1 A2 A3 A4 A5 A6. injection S as S1 _ S3.
    assert (dc_Approved c = Some true) as (t & p & Hp & Hrest)%(Ia _ _ Hc) by congruence.
    exists t, p. by rewrite S1, S3, <-A2, <-A3, <-A4, <-A5, <-A6.
  - intros d t s Hi. destruct (Ii _ _ _ Hi) as [Hs Hc]. split; [done|]. intros row c' Hc' Hd. destruct (Hl _ _ Hc') as (c & Hc0 & [S _ C]).
    injection S as S _ _. apply C, (Hc _ _ Hc0). congruence.
Qed.

(** More was seen, nothing of it an issue. *)
Lemma codes_inv_more ls l m : (∀ d t s, Issued d t s ∉ l) → codes_inv ls m → codes_inv (ls ++ l) m.
Proof.
  intros Hl [Is Id Iu Ia Ii]. split; [|done|done| |].
  - intros row c Hc. apply elem_of_app. left. by eapply Is.
  - intros row c Hc Ha. by apply code_approved_more, (Ia _ _ Hc).
  - intros d t s [Hi|Hi]%elem_of_app; [|by destruct (Hl d t s)]. destruct (Ii _ _ _ Hi). split; [by apply elem_of_app; left|done].
Qed.

Lemma codes_inv_start ls m id c : Started c.(dc_Digest) ∉ ls → m !! id = None → c.(dc_Approved) = None →
  (∀ row c0, m !! row = Some c0 → c0.(dc_UserCode) ≠ c.(dc_UserCode)) →
  codes_inv ls m → codes_inv (ls ++ [Started c.(dc_Digest)]) (<[id := c]> m).
Proof.
  intros Hd Hid Hna Hu Hinv.
  assert (∀ row c0, m !! row = Some c0 → c0.(dc_Digest) ≠ c.(dc_Digest)) as Hfresh.
  { intros row c0 Hc0%(inv_started _ _ Hinv) He. by rewrite He in Hc0. }
  assert (∀ t s, Issued c.(dc_Digest) t s ∉ ls) as Hnew by (intros t s Hi; by apply (inv_issued _ _ Hinv) in Hi as [? _]).
  apply (codes_inv_more _ [Started c.(dc_Digest)]) in Hinv as [Is Id Iu Ia Ii]; [|set_solver].
  split.
  - intros row c0 [[<- <-]|[_ Hc0]]%lookup_insert_Some; [apply elem_of_app; right; by left|by eapply Is].
  - intros row1 row2 c1 c2 [[<- <-]|[_ Hc1]]%lookup_insert_Some [[<- <-]|[_ Hc2]]%lookup_insert_Some He; [done| | |by eapply Id].
    + by destruct (Hfresh _ _ Hc2).
    + by destruct (Hfresh _ _ Hc1).
  - intros row1 row2 c1 c2 [[<- <-]|[_ Hc1]]%lookup_insert_Some [[<- <-]|[_ Hc2]]%lookup_insert_Some He; [done| | |by eapply Iu].
    + by destruct (Hu _ _ Hc2).
    + by destruct (Hu _ _ Hc1).
  - intros row c0 [[<- <-]|[_ Hc0]]%lookup_insert_Some Ha; [congruence|by apply (Ia _ _ Hc0)].
  - intros d t s Hi. destruct (Ii _ _ _ Hi) as [Hs Hc]. split; [done|].
    intros row c0 [[<- <-]|[_ Hc0]]%lookup_insert_Some He; [|by apply (Hc _ _ Hc0)]. subst d.
    apply elem_of_app in Hi as [Hi|Hi]; [by destruct (Hnew t s)|set_solver].
Qed.

Lemma codes_inv_approve ls m row c now p project environment scope : m !! row = Some c → c.(dc_Approved) = None →
  consent_ok now p scope project environment c.(dc_Permissions) → codes_inv ls m →
  codes_inv (ls ++ [Approved c.(dc_Digest) now p]) (alter (approve_row p.(p_ID) true p.(p_MFAVerified) project environment scope) row m).
Proof.
  intros Hrow Hna Hp Hinv. apply (codes_inv_more _ [Approved c.(dc_Digest) now p]) in Hinv as [Is Id Iu Ia Ii]; [|set_solver].
  rewrite (alter_present _ _ _ _ Hrow). set (c' := approve_row _ _ _ _ _ _ c).
  split.
  - intros row' c0 [[<- <-]|[_ Hc0]]%lookup_insert_Some; [exact (Is row c Hrow)|by eapply Is].
  - intros row1 row2 c1 c2 [[<- <-]|[_ Hc1]]%lookup_insert_Some [[<- <-]|[_ Hc2]]%lookup_insert_Some He; [done| | |by eapply Id].
    + exact (Id _ _ _ _ Hrow Hc2 He).
    + exact (Id _ _ _ _ Hc1 Hrow He).
  - intros row1 row2 c1 c2 [[<- <-]|[_ Hc1]]%lookup_insert_Some [[<- <-]|[_ Hc2]]%lookup_insert_Some He; [done| | |by eapply Iu].
    + exact (Iu _ _ _ _ Hrow Hc2 He).
    + exact (Iu _ _ _ _ Hc1 Hrow He).
  - intros row' c0 [[<- <-]|[_ Hc0]]%lookup_insert_Some Ha; [|by apply (Ia _ _ Hc0)].
    exists now, p. split_and!; [apply elem_of_app; right; by left|done..].
  - intros d t s Hi. destruct (Ii _ _ _ Hi) as [Hs Hc]. split; [done|].
    intros row' c0 [[<- <-]|[_ Hc0]]%lookup_insert_Some He; [exact (Hc _ _ Hrow He)|by apply (Hc _ _ Hc0)].
Qed.

Lemma codes_inv_issue ls m row c now s d : codes_inv ls m → m !! row = Some c → c.(dc_Digest) = d → non_nil c.(dc_ConsumedAt) = true →
  codes_inv (ls ++ [Issued d now s]) m.
Proof.
  intros [Is Id Iu Ia Ii] Hrow <- Hcons. split; [|done|done| |].
  - intros row' c' Hc'. apply elem_of_app. left. by eapply Is.
  - intros row' c' Hc' Ha. by apply code_approved_more, (Ia _ _ Hc').
  - intros d t s' [Hi|Hi]%elem_of_app.
    + destruct (Ii _ _ _ Hi). split; [by apply elem_of_app; left|done].
    + apply list_elem_of_singleton in Hi as [= -> -> ->]. split; [apply elem_of_app; left; by eapply Is|].
      intros row' c' Hc' He. assert (row' = row) as -> by (by apply (Id _ _ _ _ Hc' Hrow)). congruence.
Qed.

(** ** The record of what was seen *)

Lemma consented_more ls l : (∀ d t s, Issued d t s ∉ l) → consented ls → consented (ls ++ l).
Proof.
  intros Hl Hc. induction l as [|e l IH] using rev_ind; [by rewrite app_nil_r|]. rewrite app_assoc.
  assert (consented (ls ++ l)) as Hc' by (apply IH; intros d t s Hi; apply (Hl d t s), elem_of_app; by left). clear IH Hc.
  intros l1 d t s l2 Heq. destruct l2 as [|e' l2 _] using rev_ind.
  - apply app_inj_tail in Heq as [_ ->]. destruct (Hl d t s). apply elem_of_app. right. by left.
  - rewrite app_comm_cons, app_assoc in Heq. apply app_inj_tail in Heq as [Heq _]. by apply (Hc' l1 d t s l2).
Qed.

Lemma consented_issue ls d t s t0 p : consented ls → issued_ok t s → (∀ t' s', Issued d t' s' ∉ ls) → Approved d t0 p ∈ ls → approved_for t0 p s →
  consented (ls ++ [Issued d t s]).
Proof.
  intros Hc Hs Hn Hp Hok l1 d' t' s' l2 Heq. destruct l2 as [|e' l2 _] using rev_ind.
  - apply app_inj_tail in Heq as [<- [= <- <- <-]]. split_and!; [done|done|by exists t0, p].
  - rewrite app_comm_cons, app_assoc in Heq. apply app_inj_tail in Heq as [-> _]. by apply (Hc l1 d' t' s' l2).
Qed.

Lemma deny_later now p code selected db : codes_later db.(device_codes) (ApproveDevice now p code false selected db).2.(device_codes).
Proof.
  destruct (ApproveDevice now p code false selected db) as [[[]|e] db'] eqn:Ha.
  - apply ApproveDevice_Ok in Ha as (row0 & c0 & row & c & project & environment & scope & _ & Hrow & _ & Hna & -> & _).
    cbn [snd set_device_codes device_codes]. apply codes_later_alter. intros c1 Hc1. by split.
  - unfold ApproveDevice in Ha. match type of Ha with commit _ ?o = _ => destruct o as [[[] db0]|e'] end; [done|].
    injection Ha as _ <-. apply codes_later_refl.
Qed.

Lemma run_consented now0 db0 ls now db : fresh db0 → run now0 db0 ls now db → NoDup (started ls) →
  codes_inv ls db.(device_codes) ∧ consented ls.
Proof.
  intros [_ Hf] Hrun. induction Hrun as [|ls now db now' l db' Hrun IH _ Hs]; intros Hnd.
  { rewrite Hf. split; [by split; intros *; rewrite ?lookup_empty; try done; intros ?%elem_of_nil|].
    intros l1 d t s l2 Heq. by destruct l1. }
  unfold started in Hnd. rewrite omap_app, NoDup_app in Hnd. destruct Hnd as (Hnd & Hdisj & _). destruct (IH Hnd) as [Hinv Hcons]. clear IH.
  apply quiet_step in Hs as [[Hl [_ Hq]]|[(id & t1 & t2 & random & project & environment & permissions & grant & a & Hs & ->)
    |[(p & code & selected & row & c & Ha & -> & Hfind)|[(p & code & selected & -> & ->)|(id & secret & token & exchange & -> & ->)]]]].
  - split; [|by apply consented_more]. apply codes_inv_more; [done|by eapply codes_inv_later].
  - apply startDevice_codes in Hs as (m & c & Hl & Hu & Hid & -> & Hdig & Hna). rewrite <-Hdig in *.
    split; [|apply consented_more; [set_solver|done]].
    apply codes_inv_start; [|done|done|done|by eapply codes_inv_later]. intros Hd. apply (Hdisj c.(dc_Digest)); [|by left].
    apply list_elem_of_omap. by exists (Started c.(dc_Digest)).
  - apply ApproveDevice_Ok in Ha as (row0 & c0 & row' & c' & project & environment & scope & Hfind' & Hrow & Hu & Hna & -> & Hok).
    rewrite Hfind in Hfind'. injection Hfind' as <- <-. apply find_code_Some in Hfind as [Hrow0 _].
    assert (row' = row) as -> by (by apply (inv_user _ _ Hinv _ _ _ _ Hrow Hrow0)). simplify_eq.
    split; [|apply consented_more; [set_solver|done]]. cbn [set_device_codes device_codes]. apply codes_inv_approve; [done|done|by apply Hok|done].
  - rewrite app_nil_r. split; [|done]. eapply codes_inv_later; [apply deny_later|done].
  - destruct (pollDevice_spec now' id secret token exchange db) as [Hl Hok]. apply (codes_inv_later _ _ _ Hl) in Hinv as Hinv'.
    destruct (pollDevice now' id secret token exchange db) as [[s|e] db']; cbn [fst snd] in *; [|by rewrite app_nil_r].
    destruct (Hok s eq_refl) as (row & c & c' & Hrow & Hd & Hunused & Happ & Hrow' & Hused & Hfrom).
    assert (c'.(dc_Digest) = sha256_Sum token) as Hd'.
    { destruct (Hl _ _ Hrow') as (c1 & Hc1 & [S _ _]). simplify_eq. congruence. }
    split; [by eapply codes_inv_issue|]. pose proof (inv_approved _ _ Hinv _ _ Hrow Happ) as Hby.
    destruct (Hfrom (code_approved_plain _ _ Hby)) as (Hsok & Hid & Hpr & Hen & Hperm & Hscope & Hver). destruct Hby as (t0 & p & Hp & Hpid & Hpver & Hpok).
    rewrite Hd in Hp. rewrite Hpid in Hid. rewrite Hpver in Hver.
    eapply consented_issue; [done|done| |exact Hp|split_and!; [done|done|by rewrite Hpr, Hen, Hperm, Hscope]].
    intros t' s' Hi. destruct (inv_issued _ _ Hinv _ _ _ Hi) as [_ Hc]. by rewrite (Hc _ _ Hrow Hd) in Hunused.
Qed.

(** C17: Signing in from a device takes consent. In any run of an installation that
    started without codes and in which every code has a secret of its own, each
    session issued for a code is the only one of that code and follows an approval of
    that code by the session's own bearer, made in a browser session with no second
    factor pending, and for the same scope, project, environment and permissions. The
    approver is entitled to them when approving and the bearer again when the session
    is issued ([entitled]): [agent:admin] takes an administrator of an unscoped
    self-hosted installation, [nodes:terminal] takes grants of hosts there and a
    credential for hosts, and everything else takes every single permission in the
    project and environment or, on a managed installation, a scope that is offered to
    the person at that moment, is for that project and environment and covers the
    permissions. The session is verified by a second factor only if the approver was,
    and ends after twelve hours. *)
Theorem device_sessions_consented now0 db0 ls now db l1 d t s l2 : fresh db0 → run now0 db0 ls now db → NoDup (started ls) →
  ls = l1 ++ Issued d t s :: l2 →
  issued_ok t s ∧ (∀ t' s', Issued d t' s' ∉ l1 ++ l2) ∧ ∃ t0 p, Approved d t0 p ∈ l1 ∧ approved_for t0 p s.
Proof.
  intros Hf Hr Hnd Heq. destruct (run_consented _ _ _ _ _ Hf Hr Hnd) as [_ Hc]. destruct (Hc _ _ _ _ _ Heq) as (Hok & Hn & Hp).
  split; [done|]. split; [|done]. intros t' s' [Hi|Hi]%elem_of_app; [by apply (Hn t' s')|].
  apply list_elem_of_split in Hi as (l3 & l4 & ->).
  assert (ls = (l1 ++ Issued d t s :: l3) ++ Issued d t' s' :: l4) as Heq' by by rewrite Heq, <-app_assoc.
  destruct (Hc _ _ _ _ _ Heq') as (_ & Hn' & _). apply (Hn' t s). rewrite elem_of_app. right. by left.
Qed.
End consent.

(** * An example *)

Module DeviceExample.
#[local] Existing Instance LicenseExample.issuer.
#[local] Existing Instance CredentialExample.server.
Definition started_code : result DeviceAuthorization * Database :=
  startDevice 1000 "code" CredentialExample.id CredentialExample.id2 7 "shop" "prod" ["deployments:write"] no_grant CredentialExample.db0.
Definition device_token : string := CredentialExample.id +:+ CredentialExample.id2.
Definition code : DeviceCode :=
  mkDeviceCode device_token (user_code 7) "shop" "prod" ["deployments:write"] None None false "" 1600 None None "" "" "".
Definition approved : result unit * Database := ApproveDevice 1010 CredentialExample.browser "aaaa aaah" true [] started_code.2.
Definition approved_code : result unit * Database := ApproveDevice 1010 CredentialExample.browser " aaaaaaah " true [] started_code.2.
Definition polled : result Session * Database := PollDevice 1020 CredentialExample.id CredentialExample.secret device_token approved_code.2.
Definition nobody : Session := mkSession "" "" CredentialExample.browser 0 false.
Definition session : Session := match polled.1 with Ok s => s | Err _ => nobody end.
Definition again : result Session * Database := PollDevice 1030 CredentialExample.id2 CredentialExample.secret device_token polled.2.
End DeviceExample.

(** The same on a managed installation, which offers Ada one scope for reading. *)
Module ManagedExample.
#[local] Existing Instance LicenseExample.issuer.
Definition scope : DeviceScope := mkDeviceScope "ws" "Workspace" "shop" "prod" (Some ["deployments:read"]).
Definition managed : Server (H := LicenseExample.issuer) := {|
  ManagedCloud := true;
  DeviceScopes := Some (λ _ p, if (p.(p_ID) =? "ada")%string then Ok [scope] else Err ErrForbidden);
  license_verifier := ∅;
  text_le a b := bool_decide (str_le a b);
|}.
#[local] Existing Instance managed.
Definition started_for (permission : string) : Database :=
  (startDevice 1000 "code" CredentialExample.id CredentialExample.id2 7 "" "" [permission] no_grant CredentialExample.db0).2.
Definition approved_for (permission : string) : result unit * Database :=
  ApproveDevice 1010 CredentialExample.browser "aaaaaaah" true [scope] (started_for permission).
Definition polled_for (permission : string) : result Session * Database :=
  PollDevice 1020 CredentialExample.id CredentialExample.secret DeviceExample.device_token (approved_for permission).2.

(** What the scope covers is approved and issued under it; the rest is refused. *)
Example managed_flow :
  (approved_for "deployments:read").1 = Ok tt ∧
  match (polled_for "deployments:read").1 with
  | Ok s => (s.(s_ScopeID), s.(s_User).(p_Project), s.(s_User).(p_Environment)) = ("ws", "shop", "prod")
  | Err _ => False
  end ∧
  (approved_for "deployments:write").1 = Err ErrForbidden ∧ (polled_for "deployments:write").1 = Err ErrPending.
Proof. vm_compute. repeat split. Qed.
End ManagedExample.

#[local] Existing Instance LicenseExample.issuer.
#[local] Existing Instance CredentialExample.server.

(** A code is typed with or without its dash and in any case, but as one word; it is
    pending before the approval and spent after the first session. *)
Example device_flow :
  is_ok DeviceExample.started_code.1 = true ∧ DeviceExample.approved.1 = Err ErrNoRows ∧
  (PollDevice 1005 CredentialExample.id CredentialExample.secret DeviceExample.device_token DeviceExample.started_code.2).1 = Err ErrPending ∧
  DeviceExample.approved_code.1 = Ok tt ∧ is_ok DeviceExample.polled.1 = true ∧ DeviceExample.again.1 = Err ErrUnauthorized.
Proof. vm_compute. repeat split. Qed.

Lemma device_run : run 1000 CredentialExample.db0 ((([] ++ [Started DeviceExample.device_token]) ++
    [Approved DeviceExample.device_token 1010 CredentialExample.browser]) ++
    [Issued DeviceExample.device_token 1020 DeviceExample.session]) 1020 DeviceExample.polled.2.
Proof.
  eapply (run_step _ _ _ 1010 DeviceExample.approved_code.2); [eapply (run_step _ _ _ 1000 DeviceExample.started_code.2);
    [eapply (run_step _ _ _ 1000 CredentialExample.db0); [apply run_start|lia|]|lia|]|lia|].
  - refine (do_startDevice 1000 CredentialExample.db0 "code" CredentialExample.id CredentialExample.id2 7 "shop" "prod" ["deployments:write"] no_grant
      (mkAuthorization DeviceExample.device_token (user_code 7) 600 5) DeviceExample.started_code.2 _). vm_compute. reflexivity.
  - refine (do_approve 1010 DeviceExample.started_code.2 CredentialExample.browser " aaaaaaah " [] "code" DeviceExample.code DeviceExample.approved_code.2 _ _);
      vm_compute; reflexivity.
  - pose proof (do_poll 1020 DeviceExample.approved_code.2 CredentialExample.id CredentialExample.secret DeviceExample.device_token None) as Hp.
    change (pollDevice _ _ _ _ _ _) with DeviceExample.polled in Hp.
    replace DeviceExample.polled.1 with (@Ok Session DeviceExample.session) in Hp by (vm_compute; reflexivity). exact Hp.
Qed.

(** Ada approved her own session, and may deploy to the environment it is for. *)
Lemma device_sessions_consented_witness :
  DeviceExample.session.(s_User).(p_ID) = "ada" ∧ issued_ok 1020 DeviceExample.session ∧
  ∃ p, p.(p_ID) = "ada" ∧ Principal_Allows p "deployments:write" "shop" "prod" "" = true.
Proof.
  destruct (device_sessions_consented 1000 CredentialExample.db0
    ([Started DeviceExample.device_token; Approved DeviceExample.device_token 1010 CredentialExample.browser; Issued DeviceExample.device_token 1020 DeviceExample.session])
    1020 DeviceExample.polled.2 [Started DeviceExample.device_token; Approved DeviceExample.device_token 1010 CredentialExample.browser]
    DeviceExample.device_token 1020 DeviceExample.session [] fresh_example device_run) as (Hok & _ & t0 & p & _ & Hid & _ & Hp);
    [apply (bool_decide_unpack _); vm_compute; exact I|reflexivity|].
  assert (DeviceExample.session.(s_User).(p_ID) = "ada") as Hada by (vm_compute; reflexivity). split_and!; [exact Hada|exact Hok|].
  exists p. split; [congruence|].
  pose proof (consent_entitled _ _ _ _ _ _ Hp) as Hall.
  replace (s_User DeviceExample.session).(p_Permissions) with ["deployments:write"] in Hall by (vm_compute; reflexivity).
  replace (s_User DeviceExample.session).(p_Project) with "shop" in Hall by (vm_compute; reflexivity).
  replace (s_User DeviceExample.session).(p_Environment) with "prod" in Hall by (vm_compute; reflexivity).
  destruct Hall as [_ Hall]. by apply Forall_cons in Hall as [Hall _].
Defined.
