(* ===== verification/RedisWire.v ===== *)
(** The bounded Redis connection (internal/database/redis_wire.go): the bytes of a
    command, the reader of RESP2 replies with its depth and byte budget, and the
    cluster slot of a key.

    The reader's input is the string of bytes the server sends before it closes the
    connection; the writer's output is the string a successful [Command] flushes.
    Deadlines and failing writes are the network's and are not modelled. *)
From S2P Require Import Prelude GoStd Paths Decimal.
#[global] Open Scope Z_scope.

Definition RedisCopyMaxValue : Z := Z.shiftl 64 20.
Definition reply_budget : Z := RedisCopyMaxValue + Z.shiftl 2 20.
Definition CRLF : string := CR +:+ LF.

(** * Commands *)

Definition redis_error (text : string) : error := Errorf text [].

(** One argument of the command and the running total of argument bytes. *)
Definition command_arg (total_out : Z * string) (arg : string) : result (Z * string) :=
  let total := total_out.1 + len arg in
  if total >? reply_budget then Err (redis_error "Redis command exceeds its byte limit")
  else Ok (total, total_out.2 +:+ "$" +:+ Itoa (len arg) +:+ CRLF +:+ arg +:+ CRLF).

Definition command_bytes (args : list string) : result string :=
  if (lenl args =? 0) || (lenl args >? 32) then Err (redis_error "Redis command exceeds its argument limit")
  else out ← foldM command_arg (0, "*" +:+ Itoa (lenl args) +:+ CRLF) args; Ok out.2.

(** * Replies

    The dynamic types of the [any] a reply is returned as: [string], [int64],
    [nil], [[]byte] and [[]any]. *)

Inductive reply : Type :=
  | Status (s : string)
  | Integer (n : Z)
  | Null
  | Bulk (b : string)
  | Array (l : list reply).

Definition EOF : error := redis_error "EOF".
Definition ErrUnexpectedEOF : error := redis_error "unexpected EOF".
Definition ErrBufferFull : error := redis_error "bufio: buffer full".

(** [in.ReadSlice(LF)] on a 4096-byte buffer: the line with its delimiter and what
    follows it. *)
Definition ReadSlice (s : string) : result (string * string) :=
  match Cut s "010" with
  | Some (before, after) =>
      if len before + 1 >? 4096 then Err ErrBufferFull else Ok (before +:+ LF, after)
  | None => if len s >=? 4096 then Err ErrBufferFull else Err EOF
  end.

(** [io.ReadFull] into a buffer of [n] bytes. *)
Definition ReadFull (s : string) (n : Z) : result (string * string) :=
  if len s <? n then Err (if is_empty s then EOF else ErrUnexpectedEOF)
  else Ok (take_string (Z.to_nat n) s, drop_string (Z.to_nat n) s).

Definition ErrTransport (e : error) : error := Errorf "Redis reply transport failed: %w" [AErr e].
Definition ErrBulkTransport (e : error) : error := Errorf "Redis bulk reply transport failed: %w" [AErr e].

(** The value between the type byte and the line's end, when the framing holds. *)
Definition line_value (line : string) : option (ascii * string) :=
  if len line <? 3 then None
  else match String.get (String.length line - 2) line, line with
       | Some cr, String kind body =>
           if Ascii.eqb cr "013" then Some (kind, take_string (String.length body - 2) body) else None
       | _, _ => None
       end.

Section reading.
Context (read : string → Z → result (reply * string * Z)).

(** [for i := range values]: the elements of an array, one after the other. *)
Fixpoint read_values (n : nat) (s : string) (budget : Z) : result (list reply * string * Z) :=
  match n with
  | O => Ok ([], s, budget)
  | S n' =>
      '(v, s1, b1) ← read s budget;
      '(vs, s2, b2) ← read_values n' s1 b1;
      Ok (v :: vs, s2, b2)
  end.

Definition read_bulk (n : Z) (s : string) (budget : Z) : result (reply * string * Z) :=
  if (n >? RedisCopyMaxValue) || (n + 2 >? budget) then
    Err (redis_error "Redis value exceeds the 64 MiB recovery limit")
  else
    '(buf, s1) ← wrap ErrBulkTransport (ReadFull s (n + 2));
    if negb (drop_string (Z.to_nat n) buf =? CRLF)%string then Err (redis_error "Redis bulk reply is truncated")
    else Ok (Bulk (take_string (Z.to_nat n) buf), s1, budget - (n + 2)).

Definition read_array (n : Z) (s : string) (budget : Z) : result (reply * string * Z) :=
  if (n >? 16384) || (n * 8 >? budget) then Err (redis_error "Redis array reply exceeds its limit")
  else
    '(vs, s1, b1) ← read_values (Z.to_nat n) s (budget - n * 8);
    Ok (Array vs, s1, b1).

Definition read_sized (bulk : bool) (value : string) (s : string) (budget : Z) : result (reply * string * Z) :=
  match Atoi value with
  | None => Err (redis_error "Redis reply length is invalid")
  | Some n =>
      if n <? -1 then Err (redis_error "Redis reply length is invalid")
      else if n =? -1 then Ok (Null, s, budget)
      else if bulk then read_bulk n s budget else read_array n s budget
  end.

Definition read_line (s : string) (budget : Z) : result (reply * string * Z) :=
  if budget <=? 0 then Err (redis_error "Redis reply exceeds its limit")
  else
    '(line, s1) ← wrap ErrTransport (ReadSlice s);
    match line_value line with
    | None => Err (redis_error "Redis reply framing is invalid")
    | Some (kind, value) =>
        let b1 := budget - len line in
        if Ascii.eqb kind "+" then Ok (Status value, s1, b1)
        else if Ascii.eqb kind "-" then Err (redis_error "Redis rejected a recovery command")
        else if Ascii.eqb kind ":" then
          match Atoi value with
          | None => Err (redis_error "Redis integer reply is invalid")
          | Some n => Ok (Integer n, s1, b1)
          end
        else if Ascii.eqb kind "$" then read_sized true value s1 b1
        else if Ascii.eqb kind "*" then read_sized false value s1 b1
        else Err (redis_error "Redis reply type is unsupported")
    end.
End reading.

(** [readRedisReply in depth budget] with [room] the levels that are left: depth [d]
    is [5 - d] of them, and none at depth 5. *)
Fixpoint readRedisReply (room : nat) (s : string) (budget : Z) : result (reply * string * Z) :=
  match room with
  | O => Err (redis_error "Redis reply exceeds its limit")
  | S room' => read_line (readRedisReply room') s budget
  end.

Definition reply_room : nat := 5.

(** [Command]: the bytes written, and the reply read from the server's stream. *)
Definition Command (args : list string) (stream : string) : result (string * reply) :=
  out ← command_bytes args;
  '(v, _, _) ← readRedisReply reply_room stream reply_budget;
  Ok (out, v).

(** * Slots *)

Definition crc_bit (crc : Z) : Z :=
  let shifted := Z.land (Z.shiftl crc 1) 65535 in
  if negb (Z.land crc 32768 =? 0) then Z.lxor shifted 4129 else shifted.

Definition crc_byte (crc : Z) (b : ascii) : Z :=
  Nat.iter 8 crc_bit (Z.lxor crc (Z.shiftl (byte_of b) 8)).

Definition crc16 (key : string) : Z := fold_left crc_byte (String.list_ascii_of_string key) 0.

(** The part of the key that is hashed: what stands between the first opening brace
    and the next closing brace, when that is not empty. *)
Definition hash_tag (key : string) : string :=
  match Cut key "{" with
  | None => key
  | Some (_, rest) =>
      match Cut rest "}" with
      | Some (tag, _) => if is_empty tag then key else tag
      | None => key
      end
  end.

Definition RedisKeySlot (key : string) : Z := crc16 (hash_tag key) mod 16384.

(** * What a server sends, and what a reply costs *)

Fixpoint encode (v : reply) : string :=
  match v with
  | Status s => String "+" (s +:+ CRLF)
  | Integer n => String ":" (Itoa n +:+ CRLF)
  | Null => String "$" (Itoa (-1) +:+ CRLF)
  | Bulk b => String "$" (Itoa (len b) +:+ CRLF +:+ b +:+ CRLF)
  | Array l => String "*" (Itoa (lenl l) +:+ CRLF +:+ String.concat EmptyString (map encode l))
  end.

(** What the reader charges to its budget for a reply. *)
Fixpoint cost (v : reply) : Z :=
  match v with
  | Status s => len s + 3
  | Integer n => len (Itoa n) + 3
  | Null => 5
  | Bulk b => len (Itoa (len b)) + 3 + (len b + 2)
  | Array l => len (Itoa (lenl l)) + 3 + lenl l * 8 + foldr (λ v n, cost v + n) 0 l
  end.

(** The bytes a reply holds: its texts, and eight for every element of an array. *)
Fixpoint weight (v : reply) : Z :=
  match v with
  | Status s => len s
  | Integer _ | Null => 0
  | Bulk b => len b
  | Array l => lenl l * 8 + foldr (λ v n, weight v + n) 0 l
  end.

Fixpoint levels (v : reply) : nat :=
  match v with
  | Array l => S (foldr (λ v n, Nat.max (levels v) n) 0%nat l)
  | _ => 1%nat
  end.

(** The replies of the protocol: status lines are lines, numbers are machine
    integers, values and arrays are within the reader's limits. *)
Fixpoint sound (v : reply) : Prop :=
  match v with
  | Status s => no_sep "010" s ∧ len s ≤ 4093
  | Integer n => min_int64 ≤ n ≤ max_int64
  | Null => True
  | Bulk b => len b ≤ RedisCopyMaxValue
  | Array l => lenl l ≤ 16384 ∧ foldr (λ v P, sound v ∧ P) True l
  end.

(** What can be written in the protocol at all. *)
Fixpoint encodable (v : reply) : Prop :=
  match v with
  | Status s => no_sep "010" s
  | Integer n => min_int64 ≤ n ≤ max_int64
  | Null => True
  | Bulk b => len b ≤ max_int64
  | Array l => lenl l ≤ max_int64 ∧ foldr (λ v P, encodable v ∧ P) True l
  end.

Lemma reply_elim (P : reply → Prop) : (∀ s, P (Status s)) → (∀ n, P (Integer n)) → P Null → (∀ b, P (Bulk b)) →
  (∀ l, Forall P l → P (Array l)) → ∀ v, P v.
Proof.
  intros Hs Hn Hz Hb Ha. fix IH 1. intros [s|n| |b|l]; [auto..|]. apply Ha. induction l; constructor; auto.
Qed.

(** ** Lines *)



Lemma take_string_length n s : (n <= String.length s)%nat → String.length (take_string n s) = n.
Proof. revert s. induction n as [|n IH]; intros [|c s] Hn; cbn in *; try lia. rewrite IH; lia. Qed.

Lemma take_drop_string n s : take_string n s +:+ drop_string n s = s.
Proof. revert s. induction n as [|n IH]; intros [|c s]; try done. cbn [take_string drop_string]. by rewrite string_app_cons, IH. Qed.

Lemma get_app (a b : string) n : String.get (String.length a + n) (a +:+ b) = String.get n b.
Proof. induction a as [|c a IH]; [done|]. rewrite string_app_cons. cbn. apply IH. Qed.

Lemma ReadSlice_line k v rest : k ≠ "010"%char → no_sep "010" v → len v ≤ 4093 →
  ReadSlice (String k (v +:+ CRLF +:+ rest)) = Ok (String k (v +:+ CRLF), rest).
Proof.
  intros Hk Hv Hlen. unfold ReadSlice.
  assert (String k (v +:+ CRLF +:+ rest) = String k (v +:+ CR) +:+ String "010" rest) as ->.
  { rewrite string_app_cons. f_equal. by rewrite <-string_app_assoc. }
  rewrite Cut_app.
  - replace (len (String k (v +:+ CR)) + 1 >? 4096) with false; [by rewrite string_app_cons, <-string_app_assoc|].
    symmetry. rewrite Z.gtb_ltb. apply Z.ltb_ge. unfold len in *. cbn [String.length]. rewrite string_length_app. cbn [String.length CR chr]. lia.
  - unfold no_sep in *. cbn [has_byte]. rewrite has_byte_app, Hv. by destruct (Ascii.eqb_spec k "010").
Qed.

Lemma line_value_line k v : line_value (String k (v +:+ CRLF)) = Some (k, v).
Proof.
  unfold line_value, len. cbn [String.length]. rewrite string_length_app. change (String.length CRLF) with 2%nat.
  replace (Z.of_nat (S (String.length v + 2)) <? 3) with false by (symmetry; apply Z.ltb_ge; lia).
  replace (S (String.length v + 2) - 2)%nat with (S (String.length v + 0)) by lia. cbn [String.get]. rewrite get_app.
  change (String.get 0 CRLF) with (Some "013"%char). cbv iota. rewrite Ascii.eqb_refl.
  replace (String.length v + 2 - 2)%nat with (String.length v) by lia. by rewrite take_string_app.
Qed.

(** A framed line is read as its type byte, its value and its length. *)
Lemma read_line_frame (read : string → Z → result (reply * string * Z)) k v rest b :
  k ≠ "010"%char → no_sep "010" v → len v ≤ 4093 → 0 < b →
  read_line read (String k (v +:+ CRLF +:+ rest)) b =
    (let b1 := b - (len v + 3) in
     if Ascii.eqb k "+" then Ok (Status v, rest, b1)
     else if Ascii.eqb k "-" then Err (redis_error "Redis rejected a recovery command")
     else if Ascii.eqb k ":" then
       match Atoi v with
       | None => Err (redis_error "Redis integer reply is invalid")
       | Some n => Ok (Integer n, rest, b1)
       end
     else if Ascii.eqb k "$" then read_sized read true v rest b1
     else if Ascii.eqb k "*" then read_sized read false v rest b1
     else Err (redis_error "Redis reply type is unsupported")).
Proof.
  intros Hk Hv Hlen Hb. unfold read_line. rewrite (proj2 (Z.leb_gt b 0)) by done.
  rewrite ReadSlice_line by done. cbn [wrap mbind result_bind]. rewrite line_value_line. cbv zeta.
  replace (len (String k (v +:+ CRLF))) with (len v + 3); [done|].
  unfold len. cbn [String.length]. rewrite string_length_app. change (String.length CRLF) with 2%nat. lia.
Qed.

Lemma Itoa_value n : min_int64 ≤ n ≤ max_int64 → no_sep "010" (Itoa n) ∧ 0 < len (Itoa n) ≤ 4093.
Proof.
  intros Hn. split; [by apply Itoa_no_sep|]. pose proof (len_Itoa n Hn). pose proof (len_Itoa_pos n). lia.
Qed.

Lemma read_sized_length read bulk n s b : 0 ≤ n ≤ max_int64 →
  read_sized read bulk (Itoa n) s b = if bulk then read_bulk n s b else read_array read n s b.
Proof.
  intros Hn. unfold read_sized. rewrite Atoi_Itoa by (unfold min_int64; lia).
  by rewrite (proj2 (Z.ltb_ge n (-1))), (proj2 (Z.eqb_neq n (-1))) by lia.
Qed.


Lemma read_bulk_value v rest b : len v ≤ RedisCopyMaxValue → len v + 2 ≤ b →
  read_bulk (len v) (v +:+ CRLF +:+ rest) b = Ok (Bulk v, rest, b - (len v + 2)).
Proof.
  intros Hv Hb. unfold read_bulk. rewrite !Z.gtb_ltb, (proj2 (Z.ltb_ge RedisCopyMaxValue (len v))), (proj2 (Z.ltb_ge b (len v + 2))) by lia. cbn [orb].
  unfold ReadFull. rewrite string_app_assoc.
  assert (len v + 2 = len (v +:+ CRLF)) as E by (unfold len; rewrite string_length_app; change (String.length CRLF) with 2%nat; lia).
  rewrite E at 1. rewrite (proj2 (Z.ltb_ge (len ((v +:+ CRLF) +:+ rest)) (len (v +:+ CRLF)))) by (unfold len; rewrite (string_length_app (v +:+ CRLF)); lia).
  assert (∀ a c : string, take_string (Z.to_nat (len a)) (a +:+ c) = a ∧ drop_string (Z.to_nat (len a)) (a +:+ c) = c) as Hcut.
  { intros a c. unfold len. rewrite Nat2Z.id. by rewrite take_string_app, drop_string_app. }
  rewrite E at 1 2. rewrite (proj1 (Hcut (v +:+ CRLF) rest)), (proj2 (Hcut (v +:+ CRLF) rest)). cbn [wrap mbind result_bind].
  rewrite (proj1 (Hcut v CRLF)), (proj2 (Hcut v CRLF)). by rewrite String.eqb_refl.
Qed.

(** ** Round trip *)

Lemma list_cost_nonneg l : 0 ≤ foldr (λ v n, cost v + n) 0 l ∧ Forall (λ v, 0 < cost v) l.
Proof.
  assert (∀ v, 0 < cost v) as Hpos.
  { fix IH 1. intros [s|n| |b|l']; cbn [cost].
    - pose proof (len_nonneg s); lia.
    - pose proof (len_Itoa_pos n); lia.
    - lia.
    - pose proof (len_nonneg b); pose proof (len_Itoa_pos (len b)); lia.
    - assert (0 ≤ foldr (λ v n, cost v + n) 0 l') as Hl.
      { induction l' as [|v l' IHl]; cbn [foldr]; [lia|]. specialize (IH v). lia. }
      pose proof (len_Itoa_pos (lenl l')); pose proof (lenl_nonneg l'). lia. }
  split; [|apply Forall_forall; auto]. induction l as [|v l IH]; cbn [foldr]; [lia|]. specialize (Hpos v). lia.
Qed.

Lemma read_values_encode read l : ∀ rest b,
  Forall (λ v, ∀ rest b, cost v ≤ b → read (encode v +:+ rest) b = Ok (v, rest, b - cost v)) l →
  foldr (λ v n, cost v + n) 0 l ≤ b →
  read_values read (length l) (String.concat EmptyString (map encode l) +:+ rest) b =
    Ok (l, rest, b - foldr (λ v n, cost v + n) 0 l).
Proof.
  induction l as [|v l IH]; intros rest b Hl Hb; cbn [foldr] in *; [cbn; by rewrite Z.sub_0_r|].
  apply Forall_cons in Hl as [Hv Hl]. destruct (list_cost_nonneg l) as [H0 _].
  cbn [length map read_values]. rewrite concat_cons, <-string_app_assoc, Hv by lia. cbn [mbind result_bind].
  rewrite IH by (done || lia). cbn [mbind result_bind]. do 2 f_equal. lia.
Qed.

(** Decides which reply type a literal type byte selects. *)
Ltac reply_kind := repeat match goal with |- context [Ascii.eqb ?a ?b] =>
    let v := eval vm_compute in (Ascii.eqb a b) in change (Ascii.eqb a b) with v end; cbv iota.

Lemma read_encode v : ∀ room rest b, sound v → (levels v <= room)%nat → cost v ≤ b →
  readRedisReply room (encode v +:+ rest) b = Ok (v, rest, b - cost v).
Proof.
  induction v as [s|n| |b|l Hl] using reply_elim; intros [|room] rest budget Hsound Hroom Hb; cbn [levels] in Hroom;
    try (exfalso; lia); cbn [readRedisReply encode cost sound] in *; rewrite string_app_cons, <-?string_app_assoc.
  - destruct Hsound as [Hs Hlen]. pose proof (len_nonneg s).
    rewrite read_line_frame by (done || lia). done.
  - destruct (Itoa_value n Hsound) as [Hi Hlen]. rewrite read_line_frame by (done || lia). cbv zeta. rewrite Atoi_Itoa by done. done.
  - rewrite read_line_frame by (done || lia). cbv zeta. done.
  - pose proof (len_nonneg b). change RedisCopyMaxValue with 67108864 in *.
    destruct (Itoa_value (len b)) as [Hi Hlen]; [unfold min_int64, max_int64; lia|].
    rewrite read_line_frame by (done || lia). cbv zeta. reply_kind.
    rewrite read_sized_length by (unfold max_int64; lia). rewrite read_bulk_value by (change RedisCopyMaxValue with 67108864; lia).
    do 2 f_equal. lia.
  - destruct Hsound as [Hlen Hsound]. pose proof (lenl_nonneg l). destruct (list_cost_nonneg l) as [Hc _].
    destruct (Itoa_value (lenl l)) as [Hi Hil]; [unfold min_int64, max_int64; lia|].
    rewrite read_line_frame by (done || lia). cbv zeta. reply_kind.
    rewrite read_sized_length by (unfold max_int64; lia). unfold read_array.
    rewrite !Z.gtb_ltb, (proj2 (Z.ltb_ge 16384 (lenl l))), (proj2 (Z.ltb_ge _ (lenl l * 8))) by lia. cbn [orb].
    unfold lenl at 1. rewrite Nat2Z.id, read_values_encode; [cbn [mbind result_bind]; do 2 f_equal; lia| |lia].
    clear -Hl Hsound Hroom. apply le_S_n in Hroom. induction l as [|v l IH]; [done|]. cbn [foldr] in *.
    apply Forall_cons in Hl as [Hv Hl]. destruct Hsound as [Hs1 Hs2]. constructor; [intros; apply Hv; (done || lia)|apply IH; (done || lia)].
Qed.

(** ** What is not within the limits *)

Lemma ReadSlice_long k v rest : k ≠ "010"%char → no_sep "010" v → 4093 < len v → ReadSlice (String k (v +:+ CRLF +:+ rest)) = Err ErrBufferFull.
Proof.
  intros Hk Hv Hlen. unfold ReadSlice.
  assert (String k (v +:+ CRLF +:+ rest) = String k (v +:+ CR) +:+ String "010" rest) as ->.
  { rewrite string_app_cons. f_equal. by rewrite <-string_app_assoc. }
  rewrite Cut_app.
  - rewrite Z.gtb_ltb, (proj2 (Z.ltb_lt 4096 _)); [done|]. unfold len in *. cbn [String.length]. rewrite string_length_app. cbn [String.length CR chr]. lia.
  - unfold no_sep in *. cbn [has_byte]. rewrite has_byte_app, Hv. by destruct (Ascii.eqb_spec k "010").
Qed.

(** A framed line that is read is short, and the budget was not used up before it. *)
Lemma read_line_frame_Ok (read : string → Z → result (reply * string * Z)) k v rest b out :
  k ≠ "010"%char → no_sep "010" v → read_line read (String k (v +:+ CRLF +:+ rest)) b = Ok out → len v ≤ 4093 ∧ 0 < b.
Proof.
  intros Hk Hv. unfold read_line. destruct (Z.leb_spec b 0); [done|]. destruct (Z.le_gt_cases (len v) 4093); [by split|].
  by rewrite ReadSlice_long.
Qed.

Lemma read_bulk_value_Ok v rest b out : read_bulk (len v) (v +:+ CRLF +:+ rest) b = Ok out → len v ≤ RedisCopyMaxValue ∧ len v + 2 ≤ b.
Proof. unfold read_bulk. destruct (_ || _) eqn:E; [done|]. split_orb. zify_bool. lia. Qed.

Lemma read_values_encode_inv (read : string → Z → result (reply * string * Z)) (Q : reply → Prop) l : ∀ rest b out,
  Forall (λ v, ∀ rest b out, read (encode v +:+ rest) b = Ok out → out = (v, rest, b - cost v) ∧ Q v) l →
  read_values read (length l) (String.concat EmptyString (map encode l) +:+ rest) b = Ok out →
  out = (l, rest, b - foldr (λ v n, cost v + n) 0 l) ∧ Forall Q l.
Proof.
  induction l as [|v l IH]; intros rest b out Hl; cbn [length map read_values foldr].
  { intros [= <-]. split; [by rewrite Z.sub_0_r|constructor]. }
  apply Forall_cons in Hl as [Hv Hl]. rewrite concat_cons, <-string_app_assoc. intros Hr.
  apply bind_Ok in Hr as ([[w s1] b1] & Hw & Hr). apply Hv in Hw as [[= -> -> ->] Hq].
  apply bind_Ok in Hr as ([[ws s2] b2] & Hws & [= <-]). apply IH in Hws as [[= -> -> ->] Hqs]; [|done].
  split; [|by constructor]. f_equal. lia.
Qed.

Lemma read_encode_inv v : ∀ room rest b out, encodable v → readRedisReply room (encode v +:+ rest) b = Ok out →
  out = (v, rest, b - cost v) ∧ sound v ∧ (levels v <= room)%nat.
Proof.
  induction v as [s|n| |b|l Hl] using reply_elim; intros [|room] rest budget out He Hr; try done;
    cbn [readRedisReply encode encodable] in *; rewrite string_app_cons, <-?string_app_assoc in Hr.
  - pose proof Hr as [Hlen Hb]%read_line_frame_Ok; [|done|exact He]. rewrite read_line_frame in Hr by done.
    cbv zeta in Hr. revert Hr. reply_kind. intros [= <-]. cbn [cost sound levels]. split_and!; [done..|lia].
  - destruct (Itoa_value n He) as [Hi _]. pose proof Hr as [Hlen Hb]%read_line_frame_Ok; [|done|exact Hi].
    rewrite read_line_frame in Hr by done. cbv zeta in Hr. rewrite Atoi_Itoa in Hr by done. revert Hr. reply_kind. intros [= <-]. cbn [cost sound levels]. split_and!; (done || lia).
  - pose proof Hr as [Hlen Hb]%read_line_frame_Ok; [|done|vm_compute; reflexivity].
    rewrite read_line_frame in Hr by done. cbv zeta in Hr. revert Hr. reply_kind. intros [= <-]. cbn [cost sound levels]. split_and!; [done..|lia].
  - pose proof (len_nonneg b). destruct (Itoa_value (len b)) as [Hi _]; [unfold min_int64 in *; lia|].
    pose proof Hr as [Hlen Hb]%read_line_frame_Ok; [|done|exact Hi]. rewrite read_line_frame in Hr by done. cbv zeta in Hr.
    revert Hr. reply_kind. rewrite read_sized_length by lia. intros Hr. destruct (read_bulk_value_Ok _ _ _ _ Hr) as [Hmax Hleft].
    rewrite read_bulk_value in Hr by done. injection Hr as <-. cbn [cost sound levels]. split_and!; [f_equal; lia|done|lia].
  - destruct He as [Hlen He]. pose proof (lenl_nonneg l). destruct (Itoa_value (lenl l)) as [Hi _]; [unfold min_int64 in *; lia|].
    pose proof Hr as [Hline Hb]%read_line_frame_Ok; [|done|exact Hi]. rewrite read_line_frame in Hr by done. cbv zeta in Hr.
    revert Hr. reply_kind. rewrite read_sized_length by lia. unfold read_array. destruct (_ || _) eqn:E; [done|]. apply orb_false_iff in E as [Hmax Hleft]. zify_bool. intros Hr.
    apply bind_Ok in Hr as ([[vs s1] b1] & Hv & [= <-]). unfold lenl in Hv at 1. rewrite Nat2Z.id in Hv.
    apply (read_values_encode_inv _ (λ v, sound v ∧ (levels v <= room)%nat)) in Hv as [[= -> -> ->] Hq].
    + cbn [cost sound levels]. split; [f_equal; lia|]. clear -Hq Hmax.
      assert (foldr (λ v P, sound v ∧ P) True l ∧ (foldr (λ v n, Nat.max (levels v) n) 0%nat l <= room)%nat) as [? ?].
      { clear Hmax. induction Hq as [|v l [? ?] _ [? ?]]; cbn [foldr]; [split; [done|lia]|]. split; [done|lia]. }
      split_and!; [done|done|lia].
    + clear -Hl He. induction l as [|v l IH]; [constructor|]. cbn [foldr] in He. destruct He as [He1 He2].
      apply Forall_cons in Hl as [Hv Hl]. constructor; [|by apply IH]. intros rest b out Hr. destruct (Hv _ _ _ _ He1 Hr) as (? & ? & ?). done.
Qed.

(** ** Bounds *)

Definition bounded (room : nat) (read : string → Z → result (reply * string * Z)) : Prop :=
  ∀ s b v s' b', read s b = Ok (v, s', b') → weight v ≤ b - b' ∧ -4096 < b' ∧ (levels v <= room)%nat.

Lemma ReadSlice_Ok s line rest : ReadSlice s = Ok (line, rest) → len line ≤ 4096.
Proof.
  unfold ReadSlice. destruct (Cut s "010") as [[before after]|]; [|by case_match].
  destruct (len before + 1 >? 4096) eqn:E; [done|]. intros [= <- <-]. zify_bool.
  unfold len in *. rewrite string_length_app. change (String.length LF) with 1%nat. lia.
Qed.

Lemma line_value_Some line kind value : line_value line = Some (kind, value) → len value + 3 = len line.
Proof.
  unfold line_value. destruct (len line <? 3) eqn:E; [done|]. zify_bool.
  destruct (String.get _ line); [|done]. destruct line as [|k body]; [done|].
  destruct (Ascii.eqb _ _); [|done]. intros [= <- <-]. unfold len in *. cbn [String.length] in *.
  rewrite take_string_length; lia.
Qed.

Lemma ReadFull_Ok s n buf rest : 0 ≤ n → ReadFull s n = Ok (buf, rest) → len buf = n.
Proof.
  intros Hn. unfold ReadFull. destruct (len s <? n) eqn:E; [done|]. intros [= <- <-]. zify_bool.
  unfold len in *. rewrite take_string_length; lia.
Qed.

Lemma read_bulk_bounded n s b v s' b' room : 0 ≤ n → read_bulk n s b = Ok (v, s', b') →
  weight v ≤ b - b' ∧ -4096 < b' ∧ (levels v <= S room)%nat.
Proof.
  intros Hn. unfold read_bulk. destruct (_ || _) eqn:E; [done|]. split_orb. zify_bool.
  intros Hr. apply bind_Ok in Hr as ([buf rest] & Hf & Hr). apply wrap_Ok, ReadFull_Ok in Hf; [|lia].
  destruct (negb _) eqn:Ht; [done|]. injection Hr as <- <- <-. cbn [weight levels].
  unfold len in *. rewrite take_string_length by lia. lia.
Qed.

Lemma read_values_bounded read room : bounded room read → ∀ n s b vs s' b',
  read_values read n s b = Ok (vs, s', b') → -4096 < b →
  foldr (λ v n, weight v + n) 0 vs ≤ b - b' ∧ -4096 < b' ∧ length vs = n ∧
  (foldr (λ v n, Nat.max (levels v) n) 0%nat vs <= room)%nat.
Proof.
  intros Hread. induction n as [|n IH]; intros s b vs s' b'; cbn [read_values].
  - intros [= <- <- <-]. cbn [foldr length]. lia.
  - intros Hr Hb. apply bind_Ok in Hr as ([[v s1] b1] & Hv & Hr). apply bind_Ok in Hr as ([[ws s2] b2] & Hw & Hr).
    injection Hr as <- <- <-. apply Hread in Hv as (? & ? & ?). apply IH in Hw as (? & ? & <- & ?); [|done].
    cbn [foldr length]. lia.
Qed.

Lemma read_array_bounded read room : bounded room read → ∀ n s b v s' b', 0 ≤ n →
  read_array read n s b = Ok (v, s', b') → weight v ≤ b - b' ∧ -4096 < b' ∧ (levels v <= S room)%nat.
Proof.
  intros Hread n s b v s' b' Hn. unfold read_array. destruct (_ || _) eqn:E; [done|]. split_orb. zify_bool.
  intros Hr. apply bind_Ok in Hr as ([[vs s1] b1] & Hv & Hr). injection Hr as <- <- <-.
  apply (read_values_bounded _ room) in Hv as (? & ? & Hlen & ?); [|done|lia]. cbn [weight levels].
  unfold lenl. rewrite Hlen. lia.
Qed.

Lemma read_line_bounded read room : bounded room read → bounded (S room) (read_line read).
Proof.
  intros Hread s b v s' b'. unfold read_line. destruct (b <=? 0) eqn:Eb; [done|]. zify_bool. intros Hr.
  apply bind_Ok in Hr as ([line rest] & Hl & Hr). apply wrap_Ok, ReadSlice_Ok in Hl.
  destruct (line_value line) as [[kind value]|] eqn:Hv; [|done]. apply line_value_Some in Hv. cbv zeta in Hr.
  pose proof (len_nonneg value).
  assert (∀ bulk, read_sized read bulk value rest (b - len line) = Ok (v, s', b') →
    weight v ≤ b - b' ∧ -4096 < b' ∧ (levels v <= S room)%nat) as Hsized.
  { intros bulk. unfold read_sized. destruct (Atoi value) as [n|]; [|done].
    destruct (n <? -1) eqn:E1; [done|]. destruct (n =? -1) eqn:E2; zify_bool.
    - intros [= <- <- <-]. cbn [weight levels]. lia.
    - intros Hs. enough (weight v ≤ b - len line - b' ∧ -4096 < b' ∧ (levels v <= S room)%nat) by lia.
      destruct bulk; [apply (read_bulk_bounded n rest (b - len line) v s' b'); [lia|done]|].
      apply (read_array_bounded read room Hread n rest (b - len line) v s' b'); [lia|done]. }
  repeat case_match; simplify_eq; try by eapply Hsized; eauto. all: cbn [weight levels]; lia.
Qed.

Lemma readRedisReply_bounded room : bounded room (readRedisReply room).
Proof. induction room as [|room IH]; [intros ?????; done|]. cbn [readRedisReply]. by apply read_line_bounded. Qed.

Lemma command_args_encode args : ∀ st st', foldM command_arg st args = Ok st' →
  st'.2 = st.2 +:+ String.concat EmptyString (map encode (Bulk <$> args)) ∧
  st'.1 = st.1 + foldr (λ a n, len a + n) 0 args ∧ (args ≠ [] → st'.1 ≤ reply_budget).
Proof.
  induction args as [|a args IH]; intros [total out] st'; cbn [foldM].
  - intros [= <-]. cbn. rewrite string_app_nil_r. split_and!; [done|lia|done].
  - intros Hr. apply bind_Ok in Hr as ([t1 o1] & Ha & Hr). unfold command_arg in Ha. cbn [fst snd] in Ha. cbv zeta in Ha.
    destruct (_ >? _) eqn:E in Ha; [done|]. injection Ha as <- <-. zify_bool.
    destruct (IH _ _ Hr) as (H1 & H2 & H3). cbn [fst snd] in H1, H2, H3 |- *. split_and!.
    + rewrite H1. cbn [fmap list_fmap map]. rewrite concat_cons. cbn [encode].
      change ("$" +:+ Itoa (len a) +:+ CRLF +:+ a +:+ CRLF) with (String "$" (Itoa (len a) +:+ CRLF +:+ a +:+ CRLF)).
      by rewrite <-string_app_assoc.
    + cbn [foldr]. lia.
    + intros _. destruct args; [|by apply H3]. cbn [foldr] in H2. lia.
Qed.

Lemma command_bytes_encode args out : command_bytes args = Ok out →
  out = encode (Array (Bulk <$> args)) ∧ 0 < lenl args ≤ 32 ∧ foldr (λ a n, len a + n) 0 args ≤ reply_budget.
Proof.
  unfold command_bytes. destruct (_ || _) eqn:E; [done|]. split_orb. zify_bool. intros Hr.
  apply bind_Ok in Hr as ([t o] & Hf & Hr). injection Hr as <-.
  apply command_args_encode in Hf as (H1 & H2 & H3). cbn [fst snd] in *. pose proof (lenl_nonneg args). split_and!.
  - rewrite H1. cbn [encode]. unfold lenl. rewrite length_fmap.
    change ("*" +:+ Itoa (Z.of_nat (length args)) +:+ CRLF) with (String "*" (Itoa (Z.of_nat (length args)) +:+ CRLF)).
    by rewrite string_app_cons, <-string_app_assoc.
  - lia.
  - lia.
  - assert (args ≠ []) as Hne by (intros ->; done). specialize (H3 Hne). lia.
Qed.

(** ** Errors

    Everything [readRedisReply] can fail with: fixed texts, and the transport's own
    error. *)
Definition reply_errors : list error :=
  (redis_error <$> ["Redis reply exceeds its limit"; "Redis reply framing is invalid"; "Redis rejected a recovery command";
    "Redis integer reply is invalid"; "Redis reply length is invalid"; "Redis value exceeds the 64 MiB recovery limit";
    "Redis bulk reply is truncated"; "Redis array reply exceeds its limit"; "Redis reply type is unsupported"]) ++
  (ErrTransport <$> [EOF; ErrBufferFull]) ++ (ErrBulkTransport <$> [EOF; ErrUnexpectedEOF]).

Definition known_error {A} (r : result A) : Prop := match r with Ok _ => True | Err e => e ∈ reply_errors end.

Ltac known := cbn [known_error wrap]; unfold reply_errors; apply list_elem_of_In; cbn; auto 15; done.

Lemma known_bind {A B} (m : result A) (f : A → result B) : known_error m → (∀ a, known_error (f a)) → known_error (m ≫= f).
Proof. destruct m; cbn; auto. Qed.

Lemma known_if {A} (b : bool) (m n : result A) : known_error m → known_error n → known_error (if b then m else n).
Proof. by destruct b. Qed.

Lemma ReadSlice_known s : known_error (wrap ErrTransport (ReadSlice s)).
Proof. unfold ReadSlice. repeat case_match; cbn [wrap known_error]; [known|done|known|known]. Qed.

Lemma ReadFull_known s n : known_error (wrap ErrBulkTransport (ReadFull s n)).
Proof. unfold ReadFull. repeat case_match; cbn [wrap known_error]; [known|known|done]. Qed.

Lemma read_values_known read n : (∀ s b, known_error (read s b)) → ∀ s b, known_error (read_values read n s b).
Proof.
  intros Hread. induction n as [|n IH]; intros s b; cbn [read_values]; [done|].
  apply known_bind; [apply Hread|]. intros [[v s1] b1]. apply known_bind; [apply IH|]. by intros [[vs s2] b2].
Qed.

Lemma read_bulk_known n s b : known_error (read_bulk n s b).
Proof.
  unfold read_bulk. apply known_if; [known|]. apply known_bind; [apply ReadFull_known|]. intros [buf rest].
  apply known_if; [known|done].
Qed.

Lemma read_sized_known read bulk value s b : (∀ s b, known_error (read s b)) → known_error (read_sized read bulk value s b).
Proof.
  intros Hread. unfold read_sized. destruct (Atoi value) as [n|]; [|known]. apply known_if; [known|]. apply known_if; [done|].
  destruct bulk; [apply read_bulk_known|]. unfold read_array. apply known_if; [known|].
  apply known_bind; [by apply read_values_known|]. by intros [[vs s1] b1].
Qed.

Lemma readRedisReply_known room : ∀ s b, known_error (readRedisReply room s b).
Proof.
  induction room as [|room IH]; intros s b; cbn [readRedisReply]; [known|]. unfold read_line. apply known_if; [known|].
  apply known_bind; [apply ReadSlice_known|]. intros [line rest]. destruct (line_value line) as [[kind value]|]; [|known].
  cbv zeta. repeat apply known_if; try done; [known|destruct (Atoi value); [done|known]|by apply read_sized_known..|known].
Qed.

(** ** The checksum against its definition

    Long division over GF(2) by x^16 + x^12 + x^5 + 1: the remainder takes one bit of
    the message at a time. *)
Definition reduce (t : Z) : Z := if Z.testbit t 16 then Z.lxor t 69665 else t.
Definition div_step (r : Z) (bit : bool) : Z := reduce (Z.lxor (Z.shiftl r 1) (Z.b2z bit)).
Definition divide (r : Z) (bits : list bool) : Z := fold_left div_step bits r.
Definition byte_bits (c : ascii) : list bool := (λ i, Z.testbit (byte_of c) (7 - Z.of_nat i)) <$> seq 0 8.
Definition zeros (n : nat) : list bool := replicate n false.

(** CRC-16/XMODEM of a text: the remainder of the message followed by sixteen zeros. *)
Definition crc16_reference (key : string) : Z :=
  divide 0 ((String.list_ascii_of_string key ≫= byte_bits) ++ zeros 16).

Lemma reduce_lxor a b : reduce (Z.lxor a b) = Z.lxor (reduce a) (reduce b).
Proof.
  unfold reduce. rewrite Z.lxor_spec. destruct (Z.testbit a 16), (Z.testbit b 16); cbn [xorb]; [|..|done].
  - by rewrite (Z.lxor_comm b), Z.lxor_assoc, <-(Z.lxor_assoc 69665), Z.lxor_nilpotent, Z.lxor_0_l.
  - by rewrite !Z.lxor_assoc, (Z.lxor_comm b).
  - by rewrite Z.lxor_assoc.
Qed.

Lemma div_step_lxor r s b c : div_step (Z.lxor r s) (xorb b c) = Z.lxor (div_step r b) (div_step s c).
Proof.
  unfold div_step. rewrite <-reduce_lxor. f_equal. rewrite Z.shiftl_lxor.
  assert (Z.b2z (xorb b c) = Z.lxor (Z.b2z b) (Z.b2z c)) as -> by (by destruct b, c).
  rewrite !Z.lxor_assoc. f_equal. by rewrite <-!Z.lxor_assoc, (Z.lxor_comm _ (Z.b2z b)).
Qed.

Lemma divide_app r l1 l2 : divide r (l1 ++ l2) = divide (divide r l1) l2.
Proof. apply fold_left_app. Qed.

Lemma divide_zeros r s l : divide (Z.lxor r s) l = Z.lxor (divide r (zeros (length l))) (divide s l).
Proof.
  revert r s. induction l as [|b l IH]; intros r s; [done|]. cbn [length zeros replicate divide fold_left].
  rewrite <-(xorb_false_l b) at 1. rewrite div_step_lxor. apply IH.
Qed.

(** Checks [f] on [n] consecutive integers. *)
Fixpoint all_from (n : nat) (z : Z) (f : Z → bool) : bool :=
  match n with O => true | S n' => f z && all_from n' (z + 1) f end.

Lemma all_from_spec n z f x : all_from n z f = true → z ≤ x < z + Z.of_nat n → f x = true.
Proof.
  revert z. induction n as [|n IH]; intros z; cbn [all_from]; [lia|]. intros [Hz Hn]%andb_true_iff Hx.
  destruct (decide (x = z)) as [->|]; [done|]. apply (IH (z + 1)); [done|lia].
Qed.

Definition is16 (r : Z) : Prop := 0 ≤ r < 65536.

Definition crc_bit_check (r : Z) : bool :=
  (crc_bit r =? div_step r false) && (0 <=? div_step r false) && (div_step r false <? 65536)
  && (0 <=? div_step r true) && (div_step r true <? 65536).

Lemma crc_bit_step r : is16 r → crc_bit r = div_step r false ∧ is16 (div_step r false) ∧ is16 (div_step r true).
Proof.
  intros Hr. assert (all_from (Z.to_nat 65536) 0 crc_bit_check = true) as Hall by (vm_compute; reflexivity).
  apply (all_from_spec _ _ _ r) in Hall; [|unfold is16 in Hr; lia]. unfold crc_bit_check in Hall. split_orb. zify_bool.
  unfold is16. lia.
Qed.

Lemma divide_16 r l : is16 r → is16 (divide r l).
Proof.
  revert r. induction l as [|b l IH]; intros r Hr; [done|]. cbn [divide fold_left]. apply IH.
  destruct b; by apply crc_bit_step.
Qed.

Lemma crc_bits_divide n r : is16 r → Nat.iter n crc_bit r = divide r (zeros n).
Proof.
  intros Hr. induction n as [|n IH]; [done|]. rewrite Nat.iter_succ, IH.
  replace (zeros (S n)) with (zeros n ++ [false]) by (unfold zeros; by rewrite <-replicate_cons_app).
  rewrite divide_app. cbn [divide fold_left]. apply crc_bit_step. by apply divide_16.
Qed.

Lemma lxor_16 a b : is16 a → is16 b → is16 (Z.lxor a b).
Proof.
  intros Ha Hb. unfold is16 in *. assert (0 ≤ Z.lxor a b) as Hn by (apply Z.lxor_nonneg; lia). split; [done|].
  change 65536 with (2 ^ 16) in *. apply Z.bounded_iff_bits_nonneg; [lia|done|]. intros l Hl.
  rewrite Z.lxor_spec, (proj1 (Z.bounded_iff_bits_nonneg 16 a ltac:(lia) ltac:(lia)) ltac:(lia) l Hl).
  by rewrite (proj1 (Z.bounded_iff_bits_nonneg 16 b ltac:(lia) ltac:(lia)) ltac:(lia) l Hl).
Qed.

Definition crc_byte_check (z : Z) : bool :=
  (divide (Z.shiftl z 8) (zeros 8) =? divide 0 (byte_bits (ascii_of_N (Z.to_N z)) ++ zeros 16)) &&
  ((0 <=? Z.shiftl z 8) && (Z.shiftl z 8 <? 65536)).

Lemma crc_byte_table : all_from 256 0 crc_byte_check = true.
Proof. vm_compute. reflexivity. Qed.

Lemma crc_byte_checked z : crc_byte_check z = true →
  divide (Z.shiftl z 8) (zeros 8) = divide 0 (byte_bits (ascii_of_N (Z.to_N z)) ++ zeros 16) ∧ is16 (Z.shiftl z 8).
Proof.
  unfold crc_byte_check, is16. intros [Hd [H0 H1]%andb_true_iff]%andb_true_iff.
  by apply Z.eqb_eq in Hd; apply Z.leb_le in H0; apply Z.ltb_lt in H1.
Qed.

Lemma crc_byte_divide c :
  divide (Z.shiftl (byte_of c) 8) (zeros 8) = divide 0 (byte_bits c ++ zeros 16) ∧ is16 (Z.shiftl (byte_of c) 8).
Proof.
  assert (ascii_of_N (Z.to_N (byte_of c)) = c) as Hc by (unfold byte_of; rewrite N2Z.id; apply ascii_N_embedding).
  pose proof (all_from_spec _ _ _ (byte_of c) crc_byte_table) as Hall.
  destruct (crc_byte_checked (byte_of c)) as [H1 H2]; [apply Hall|by rewrite Hc in H1].
  unfold byte_of. pose proof (N_ascii_bounded c). lia.
Qed.

Lemma crc_byte_step r c : is16 r → crc_byte r c = Z.lxor (divide r (zeros 8)) (divide 0 (byte_bits c ++ zeros 16)) ∧ is16 (crc_byte r c).
Proof.
  intros Hr. destruct (crc_byte_divide c) as [Hc Hs]. unfold crc_byte. rewrite crc_bits_divide by by apply lxor_16.
  rewrite divide_zeros. assert (length (zeros 8) = 8%nat) as -> by done. rewrite Hc. split; [done|]. rewrite <-Hc. apply lxor_16; by apply divide_16.
Qed.

(** The bits of a text, byte after byte. *)
Lemma key_bits_cons c key : (String.list_ascii_of_string (String c key) ≫= byte_bits)
  = byte_bits c ++ (String.list_ascii_of_string key ≫= byte_bits).
Proof. done. Qed.

Lemma crc_fold_cons c key r : fold_left crc_byte (String.list_ascii_of_string (String c key)) r
  = fold_left crc_byte (String.list_ascii_of_string key) (crc_byte r c).
Proof. done. Qed.

Lemma crc_byte_zeros r c : is16 r → crc_byte (divide r (zeros 16)) c = divide (divide r (byte_bits c)) (zeros 16).
Proof.
  intros Hr. destruct (crc_byte_step (divide r (zeros 16)) c) as [-> _]; [by apply divide_16|].
  rewrite <-!divide_app. assert (zeros 16 ++ zeros 8 = zeros (length (byte_bits c ++ zeros 16))) as -> by done.
  by rewrite <-divide_zeros, Z.lxor_0_r.
Qed.

Lemma crc16_divide key : ∀ r, is16 r →
  fold_left crc_byte (String.list_ascii_of_string key) (divide r (zeros 16)) =
    divide r ((String.list_ascii_of_string key ≫= byte_bits) ++ zeros 16).
Proof.
  induction key as [|c key IH]; intros r Hr; [done|].
  rewrite crc_fold_cons, key_bits_cons, crc_byte_zeros, <-app_assoc, (divide_app r (byte_bits c)) by done.
  apply IH. by apply divide_16.
Qed.

(** ** Properties *)

(** C30: The reader decodes what a server encodes, within its limits, and refuses the rest.
    A reply whose lines are within 4096 bytes, whose values are within 64 MiB, whose
    arrays are within 16384 elements and the levels that are left, and whose cost is
    within the budget, is returned exactly; its bytes are consumed and no more, and it is
    charged its cost. And of the encoding of any reply nothing else is ever returned:
    what is read is that reply, it is within all those limits, and its cost exceeds the
    budget by less than the one line that may overdraw it. *)
Theorem reply_roundtrip room v rest budget :
  (sound v → (levels v <= room)%nat → cost v ≤ budget →
    readRedisReply room (encode v +:+ rest) budget = Ok (v, rest, budget - cost v)) ∧
  (encodable v → ∀ out, readRedisReply room (encode v +:+ rest) budget = Ok out →
    out = (v, rest, budget - cost v) ∧ sound v ∧ (levels v <= room)%nat ∧ cost v < budget + 4096).
Proof.
  split; [apply read_encode|]. intros Hv out Hr. destruct (read_encode_inv v _ _ _ _ Hv Hr) as (-> & Hs & Hl). split_and!; [done..|].
  apply readRedisReply_bounded in Hr as (_ & Hb & _). lia.
Qed.

(** The bytes of a command carry its arguments and nothing else, whatever bytes
    those hold: a reader of the protocol gets the argument list back. *)
Theorem command_roundtrip args out rest budget :
  command_bytes args = Ok out → (∀ a, a ∈ args → len a ≤ RedisCopyMaxValue) → cost (Array (Bulk <$> args)) ≤ budget →
  readRedisReply 2 (out +:+ rest) budget = Ok (Array (Bulk <$> args), rest, budget - cost (Array (Bulk <$> args))).
Proof.
  intros Hout Hargs Hcost. destruct (command_bytes_encode _ _ Hout) as (-> & Hlen & _). apply read_encode; [|..|done].
  - cbn [sound]. unfold lenl in *. rewrite length_fmap. split; [lia|]. clear -Hargs.
    induction args as [|a args IH]; [done|]. cbn [fmap list_fmap foldr sound]. split; [apply Hargs; set_solver|].
    apply IH. intros b Hb. apply Hargs. set_solver.
  - cbn [levels]. apply le_n_S. clear. induction args as [|a args IH]; [cbn; lia|]. cbn [fmap list_fmap foldr levels]. lia.
Qed.

(** Whatever the server sends, a reply that [Command] returns is bounded: less
    than the budget and one line of bytes and array cells, at most five levels. A
    command writes at most 32 arguments of 66 MiB in all. *)
Theorem command_bounded args stream out v : Command args stream = Ok (out, v) →
  weight v < reply_budget + 4096 ∧ (levels v <= 5)%nat ∧
  0 < lenl args ≤ 32 ∧ foldr (λ a n, len a + n) 0 args ≤ reply_budget.
Proof.
  unfold Command. intros Hr. apply bind_Ok in Hr as (o & Ho & Hr). apply bind_Ok in Hr as ([[w s] b] & Hw & Hr).
  injection Hr as <- <-. apply (readRedisReply_bounded reply_room) in Hw as (H1 & H2 & H3).
  destruct (command_bytes_encode _ _ Ho) as (_ & H4 & H5). unfold reply_room in H3. split_and!; lia.
Qed.

(** No byte of a server's reply reaches an error: whatever was read, a failure is
    one of thirteen fixed values. *)
Theorem reply_errors_fixed room s budget e : readRedisReply room s budget = Err e → e ∈ reply_errors.
Proof. intros Hr. pose proof (readRedisReply_known room s budget) as Hk. by rewrite Hr in Hk. Qed.

(** The slot of a key is the CRC-16 of its hash tag, the remainder of the
    polynomial division, modulo 16384; a key with a tag has the slot of every other
    key with that tag. *)
Theorem slot_reference key : RedisKeySlot key = crc16_reference (hash_tag key) mod 16384 ∧
  ∀ head tag tail, no_sep "{" head → no_sep "}" tag → tag ≠ EmptyString → key = head +:+ "{" +:+ tag +:+ "}" +:+ tail →
    RedisKeySlot key = crc16_reference tag mod 16384.
Proof.
  assert (∀ k, crc16 k = crc16_reference k) as Hcrc.
  { intros k. unfold crc16, crc16_reference. apply (crc16_divide k 0). unfold is16. lia. }
  split; [unfold RedisKeySlot; by rewrite Hcrc|]. intros head tag tail Hh Ht Hne ->. unfold RedisKeySlot. rewrite Hcrc.
  do 2 f_equal. unfold hash_tag. change ("{" +:+ tag +:+ "}" +:+ tail) with (String "{" (tag +:+ String "}" tail)).
  rewrite Cut_app by done. rewrite Cut_app by done. by rewrite (proj2 (is_empty_false _) Hne).
Qed.

(** * Witnesses *)

(** An array of three is decoded; six arrays inside each other are not, by the five
    levels of [Command]. *)
Lemma reply_roundtrip_witness :
  readRedisReply 2 (encode (Array [Bulk "a"; Integer (-7); Null]) +:+ "+OK") 100 =
    Ok (Array [Bulk "a"; Integer (-7); Null], "+OK", 100 - cost (Array [Bulk "a"; Integer (-7); Null])) ∧
  let nested := Array [Array [Array [Array [Array [Array []]]]]] in
  ∀ out, readRedisReply reply_room (encode nested) reply_budget ≠ Ok out.
Proof.
  split.
  - apply (proj1 (reply_roundtrip 2 (Array [Bulk "a"; Integer (-7); Null]) "+OK" 100)); [|cbn; lia|vm_compute; discriminate].
    cbn. unfold RedisCopyMaxValue. split_and!; (done || vm_compute; discriminate).
  - intros nested out Hr. destruct (proj2 (reply_roundtrip reply_room nested EmptyString reply_budget)) with (out := out) as (_ & _ & Hl & _).
    + vm_compute. repeat split; discriminate.
    + rewrite string_app_nil_r. exact Hr.
    + vm_compute in Hl. lia.
Defined.

Definition get_command : string :=
  "*2" +:+ CRLF +:+ "$3" +:+ CRLF +:+ "GET" +:+ CRLF +:+ "$2" +:+ CRLF +:+ CRLF +:+ CRLF.

Lemma command_roundtrip_witness :
  readRedisReply 2 (get_command +:+ "next") 100 =
    Ok (Array [Bulk "GET"; Bulk CRLF], "next", 100 - cost (Array [Bulk "GET"; Bulk CRLF])).
Proof.
  refine (command_roundtrip ["GET"; CRLF] get_command "next" 100 _ _ _); [reflexivity| |vm_compute; discriminate].
  intros a Ha. repeat (apply elem_of_cons in Ha as [->|Ha]; [vm_compute; discriminate|]). by apply elem_of_nil in Ha.
Defined.

Lemma command_bounded_witness : weight (Status "PONG") < reply_budget + 4096 ∧ (levels (Status "PONG") <= 5)%nat ∧
  0 < lenl ["PING"] ≤ 32 ∧ foldr (λ a n, len a + n) 0 ["PING"] ≤ reply_budget.
Proof. apply (command_bounded ["PING"] ("+PONG" +:+ CRLF) ("*1" +:+ CRLF +:+ "$4" +:+ CRLF +:+ "PING" +:+ CRLF)). reflexivity. Defined.

Lemma reply_errors_fixed_witness : redis_error "Redis rejected a recovery command" ∈ reply_errors.
Proof. apply (reply_errors_fixed 5 ("-ERR secret" +:+ CRLF) 100). reflexivity. Defined.
