(* ===== verification/RedisTopology.v ===== *)
(** The Redis cluster topology Hakopod accepts (internal/database/redis.go): the
    checks of ParseRedisTopology over the lines of CLUSTER NODES, and what they
    establish: every slot has exactly one owner, every primary its replicas, and the
    fingerprint does not depend on the order in which the members are listed. *)
From S2P Require Import Prelude GoStd GoNet.
#[global] Open Scope Z_scope.

Definition MaxMembers : Z := 48.
Definition slot_count : Z := 16384.

Record RedisNode : Type := mkRedisNode {
  rn_ID : string;
  rn_Host : string;
  rn_Role : string;
  rn_Primary : string;
  rn_Slots : list string;
}.

(** The integers from [z] on, [n] of them: [for slot := start; slot <= end; slot++]. *)
Fixpoint zrange (n : nat) (z : Z) : list Z :=
  match n with O => [] | S n' => z :: zrange n' (z + 1) end.

(** The array of slots, false where nothing was assigned. *)
Definition assigned (slots : gmap Z bool) (slot : Z) : bool := default false (slots !! slot).

(** The variables the loop over the lines assigns. *)
Record members : Type := mkMembers {
  m_slots : gmap Z bool;
  m_nodes : list RedisNode;
  m_masters : gmap string Z;
  m_seen : gset string;
  m_canonical : list string;
}.

Definition topology_error (text : string) : error := Errorf text [].

Fixpoint all_hex (s : string) : bool :=
  match s with EmptyString => true | String c s' => non_nil (hex_of c) && all_hex s' end.

(** [err == nil] of [hex.DecodeString]. *)
Definition hex_DecodeString (s : string) : bool := (len s mod 2 =? 0) && all_hex s.

(** The bounds of one slot span: [a] or [a-b] within the table. *)
Definition span_bounds (span : string) : result (Z * Z) :=
  let invalid := topology_error "Redis slot range is invalid" in
  if ContainsAny span "[]" then Err (topology_error "Redis slot migration is still in progress")
  else
    let bounds := Split span "-" in
    if lenl bounds >? 2 then Err invalid
    else match Atoi (nth 0 bounds EmptyString) with
         | None => Err invalid
         | Some start =>
             let stop := if lenl bounds =? 2 then Atoi (nth 1 bounds EmptyString) else Some start in
             match stop with
             | None => Err invalid
             | Some stop =>
                 if (start <? 0) || (stop <? start) || (stop >=? slot_count) then Err invalid
                 else Ok (start, stop)
             end
         end.

Definition assign_slot (slots : gmap Z bool) (slot : Z) : result (gmap Z bool) :=
  if assigned slots slot then Err (topology_error "Redis slot has more than one owner")
  else Ok (<[slot := true]> slots).

Definition assign_span (st : gmap Z bool * list string) (span : string) : result (gmap Z bool * list string) :=
  '(start, stop) ← span_bounds span;
  slots ← foldM assign_slot st.1 (zrange (Z.to_nat (stop - start + 1)) start);
  Ok (slots, st.2 ++ [span]).

Definition has_flag (fields2 flag : string) : bool := Contains ("," +:+ fields2 +:+ ",") ("," +:+ flag +:+ ",").

Definition node_role (flags : string) : result string :=
  if has_flag flags "fail" || has_flag flags "fail?" || has_flag flags "handshake" || has_flag flags "noaddr" then
    Err (topology_error "Redis reports an unhealthy cluster member")
  else if has_flag flags "master" then Ok "primary"
  else if has_flag flags "slave" then Ok "replica"
  else Err (topology_error "Redis member role is unknown").

Definition node_host (field : string) : result string :=
  let addr := nth 0 (Split (nth 0 (Split field ",") EmptyString) "@") EmptyString in
  match SplitHostPort addr with
  | Some (host, _) => if ParseIP host then Ok host else Err (topology_error "Redis member address is invalid")
  | None => Err (topology_error "Redis member address is invalid")
  end.

Definition canonical_node (n : RedisNode) : string :=
  Join [n.(rn_ID); n.(rn_Host); n.(rn_Role); n.(rn_Primary); Join n.(rn_Slots) ","] " ".

(** One line: a member of the cluster. *)
Definition add_member (st : members) (line : string) : result members :=
  let fields := Fields line in
  let field i := nth i fields EmptyString in
  let id := field 0%nat in
  if (lenl fields <? 8) || negb (len id =? 40) then Err (topology_error "Redis returned an invalid cluster member")
  else if negb (hex_DecodeString id) || bool_decide (id ∈ st.(m_seen)) then
    Err (topology_error "Redis node identity is invalid or duplicated")
  else
    let seen := {[id]} ∪ st.(m_seen) in
    if negb (field 7%nat =? "connected")%string then Err (topology_error "Redis has a disconnected cluster member")
    else
      role ← node_role (field 2%nat);
      host ← node_host (field 1%nat);
      let finish masters slots spans :=
        let node := mkRedisNode id host role (field 3%nat) spans in
        Ok (mkMembers slots (st.(m_nodes) ++ [node]) masters seen (st.(m_canonical) ++ [canonical_node node])) in
      if (role =? "primary")%string then
        if negb (field 3%nat =? "-")%string || (lenl fields <? 9) then Err (topology_error "Redis primary has no assigned slots")
        else
          '(slots, spans) ← foldM assign_span (st.(m_slots), []) (drop 8 fields);
          finish (<[id := 0]> st.(m_masters)) slots spans
      else if negb (lenl fields =? 8) then Err (topology_error "Redis replica unexpectedly owns slots")
      else finish st.(m_masters) st.(m_slots) [].

(** [if node.Role == "replica" { ... masters[node.Primary] = count + 1 }] *)
Definition count_replica (masters : gmap string Z) (n : RedisNode) : result (gmap string Z) :=
  if (n.(rn_Role) =? "replica")%string then
    match masters !! n.(rn_Primary) with
    | None => Err (topology_error "Redis replica has no known primary")
    | Some count => Ok (<[n.(rn_Primary) := count + 1]> masters)
    end
  else Ok masters.

Definition no_members : members := mkMembers ∅ [] ∅ ∅ [].

Section topology.
(** The hexadecimal SHA-256 digest of a text. *)
Context (sha256_hex : string → string).

Definition ParseRedisTopology (raw : string) (shards replicas : Z) : result (list RedisNode * string) :=
  if (len raw >? Z.shiftl 128 10) || (shards <? 3) || (shards >? 16) || (replicas <? 1) || (replicas >? 2) then
    Err (topology_error "Redis topology exceeds supported bounds")
  else
    let lines := Split (TrimSpace raw) "010" in
    if negb (lenl lines =? shards * (1 + replicas)) || (lenl lines >? MaxMembers) then
      Err (topology_error "Redis member count does not match the requested topology")
    else
      st ← foldM add_member no_members lines;
      if negb (lenm st.(m_masters) =? shards) then
        Err (topology_error "Redis primary count does not match the requested shard count")
      else
        masters ← foldM count_replica st.(m_masters) st.(m_nodes);
        if negb (forallb (λ x, x.2 =? replicas) (map_to_list masters)) then
          Err (topology_error "Redis shard does not have the requested replicas")
        else if negb (forallb (assigned st.(m_slots)) (zrange (Z.to_nat slot_count) 0)) then
          Err (topology_error "Redis has unassigned slots")
        else Ok (st.(m_nodes), sha256_hex (Join (sort_strings st.(m_canonical)) LF)).
End topology.

(** * What a topology promises *)

(** A node owns the slots of its spans. *)
Definition owns (n : RedisNode) (slot : Z) : Prop :=
  ∃ span lo hi, span ∈ n.(rn_Slots) ∧ span_bounds span = Ok (lo, hi) ∧ lo ≤ slot ≤ hi.

Definition is_role (role : string) (n : RedisNode) : bool := (n.(rn_Role) =? role)%string.
Definition replica_of (id : string) (n : RedisNode) : bool := is_role "replica" n && (n.(rn_Primary) =? id)%string.
Definition countb {A} (f : A → bool) (l : list A) : Z := lenl (filter (λ x, f x = true) l).

(** A cluster of [shards] primaries with [replicas] replicas each: distinct members,
    every slot with one owner, a primary, and every replica with its primary. *)
Record cluster (shards replicas : Z) (nodes : list RedisNode) : Prop := mkCluster {
  cl_ids : NoDup (rn_ID <$> nodes);
  cl_size : lenl nodes = shards * (1 + replicas);
  cl_primaries : countb (is_role "primary") nodes = shards;
  cl_replicas : ∀ n, n ∈ nodes → is_role "primary" n = true → countb (replica_of n.(rn_ID)) nodes = replicas;
  cl_known : ∀ n, n ∈ nodes → is_role "replica" n = true →
    ∃ p, p ∈ nodes ∧ is_role "primary" p = true ∧ p.(rn_ID) = n.(rn_Primary);
  cl_covered : ∀ slot, 0 ≤ slot < slot_count → ∃ n, n ∈ nodes ∧ owns n slot ∧ is_role "primary" n = true;
  cl_single : ∀ slot n m, n ∈ nodes → m ∈ nodes → owns n slot → owns m slot → n = m;
}.

(** ** Slots *)

Lemma elem_of_zrange s n z : s ∈ zrange n z ↔ z ≤ s < z + Z.of_nat n.
Proof.
  revert z. induction n as [|n IH]; intros z; cbn [zrange]; [rewrite elem_of_nil; lia|].
  rewrite elem_of_cons, IH. lia.
Qed.

Lemma assigned_insert slots x s : assigned (<[x := true]> slots) s = true ↔ s = x ∨ assigned slots s = true.
Proof.
  unfold assigned. destruct (decide (x = s)) as [->|Hne]; [rewrite lookup_insert_eq; naive_solver|].
  rewrite lookup_insert_ne by done. naive_solver.
Qed.

Lemma assign_slots_spec l slots slots' : foldM assign_slot slots l = Ok slots' →
  (∀ s, assigned slots' s = true ↔ s ∈ l ∨ assigned slots s = true) ∧ (∀ s, s ∈ l → assigned slots s = false).
Proof.
  revert slots. induction l as [|x l IH]; intros slots; cbn [foldM].
  - intros [= <-]. split; [intros s; rewrite elem_of_nil; tauto|intros s []%elem_of_nil].
  - intros Hr. apply bind_Ok in Hr as (t & Hx & Hr). unfold assign_slot in Hx. destruct (assigned slots x) eqn:Ha; [done|].
    injection Hx as <-. destruct (IH _ Hr) as [H1 H2].
    split; [intros s; rewrite H1, elem_of_cons, assigned_insert; tauto|]. intros s [->|Hs]%elem_of_cons; [done|].
    specialize (H2 s Hs). apply not_true_iff_false. intros H3. apply not_true_iff_false in H2. apply H2, assigned_insert. by right.
Qed.

Definition spans_own (spans : list string) (slot : Z) : Prop :=
  ∃ span lo hi, span ∈ spans ∧ span_bounds span = Ok (lo, hi) ∧ lo ≤ slot ≤ hi.

Lemma assign_spans_spec l : ∀ st st', foldM assign_span st l = Ok st' →
  st'.2 = st.2 ++ l ∧ (∀ s, assigned st'.1 s = true ↔ spans_own l s ∨ assigned st.1 s = true) ∧
  (∀ s, spans_own l s → assigned st.1 s = false).
Proof.
  induction l as [|x l IH]; intros [slots spans] st'; cbn [foldM].
  - intros [= <-]. cbn [fst snd]. rewrite app_nil_r. unfold spans_own. setoid_rewrite elem_of_nil. naive_solver.
  - intros Hr. apply bind_Ok in Hr as (t & Hx & Hr). unfold assign_span in Hx.
    apply bind_Ok in Hx as ([lo hi] & Hb & Hx). apply bind_Ok in Hx as (slots1 & Hs & Hx). injection Hx as <-.
    cbn [fst snd] in *. destruct (assign_slots_spec _ _ _ Hs) as [H1 H2]. destruct (IH _ _ Hr) as (H3 & H4 & H5).
    cbn [fst snd] in *. split; [by rewrite H3, <-app_assoc|].
    assert (∀ s, spans_own (x :: l) s ↔ s ∈ zrange (Z.to_nat (hi - lo + 1)) lo ∨ spans_own l s) as Hown.
    { intros s. unfold spans_own. setoid_rewrite elem_of_zrange. setoid_rewrite elem_of_cons. split.
      * intros (sp & a & b & [->|Hsp] & Hab & Hin); [left|by right; exists sp, a, b]. rewrite Hb in Hab. injection Hab as <- <-. lia.
      * intros [Hin|(sp & a & b & Hsp & Hab & Hin)]; [|exists sp, a, b; auto]. exists x, lo, hi. split_and!; (auto || lia). }
    split; intros s; rewrite ?H4, ?Hown, ?H1; [tauto|]. intros [Hs'|Hs']; [by apply H2|].
    specialize (H5 s Hs'). apply not_true_iff_false. apply not_true_iff_false in H5. rewrite H1 in H5. tauto.
Qed.

(** ** Members *)

(** What the loop over the lines has established about the nodes so far. *)
Record inv (st : members) : Prop := mkInv {
  in_ids : NoDup (rn_ID <$> st.(m_nodes));
  in_seen : ∀ id, id ∈ st.(m_seen) ↔ id ∈ rn_ID <$> st.(m_nodes);
  in_masters : st.(m_masters) = list_to_map ((λ n, (n.(rn_ID), 0)) <$> filter (λ n, is_role "primary" n = true) st.(m_nodes));
  in_slots : ∀ s, assigned st.(m_slots) s = true ↔ ∃ n, n ∈ st.(m_nodes) ∧ owns n s;
  in_single : ∀ s n m, n ∈ st.(m_nodes) → m ∈ st.(m_nodes) → owns n s → owns m s → n = m;
  in_role : ∀ n, n ∈ st.(m_nodes) → is_role "primary" n = false → n.(rn_Slots) = [];
  in_canonical : st.(m_canonical) = canonical_node <$> st.(m_nodes);
}.

(** A line adds one node; what it assigns are that node's slots, free before. *)
Lemma add_member_node st line st' : add_member st line = Ok st' → ∃ n,
  st'.(m_nodes) = st.(m_nodes) ++ [n] ∧ st'.(m_canonical) = st.(m_canonical) ++ [canonical_node n] ∧
  (n.(rn_ID) ∉ st.(m_seen)) ∧ st'.(m_seen) = {[n.(rn_ID)]} ∪ st.(m_seen) ∧
  (∀ s, assigned st'.(m_slots) s = true ↔ owns n s ∨ assigned st.(m_slots) s = true) ∧
  (∀ s, owns n s → assigned st.(m_slots) s = false) ∧
  (is_role "primary" n = false → n.(rn_Slots) = []) ∧
  st'.(m_masters) = (if is_role "primary" n then <[n.(rn_ID) := 0]> st.(m_masters) else st.(m_masters)).
Proof.
  unfold add_member. cbv zeta. destruct (_ || _) eqn:E1; [done|]. destruct (_ || _) eqn:E2 in |- *; [done|].
  destruct (negb (nth 7 _ _ =? _)%string) eqn:E3; [done|]. split_orb.
  match goal with H : bool_decide _ = false |- _ => apply bool_decide_eq_false in H end.
  intros Hr. apply bind_Ok in Hr as (role & Hrole & Hr). apply bind_Ok in Hr as (host & _ & Hr).
  destruct (role =? "primary")%string eqn:Ep.
  - destruct (_ || _) eqn:E4 in Hr; [done|]. apply bind_Ok in Hr as ([slots spans] & Hs & Hr). injection Hr as <-.
    destruct (assign_spans_spec _ _ _ Hs) as (Hspans & Hown & Hfree). cbn [fst snd app] in *. subst spans.
    eexists. cbn [m_nodes m_canonical m_seen m_slots m_masters]. split_and!; [done..| | | |].
    + exact Hown.
    + exact Hfree.
    + unfold is_role. cbn [rn_Role]. by rewrite Ep.
    + unfold is_role. cbn [rn_Role rn_ID]. by rewrite Ep.
  - destruct (negb _) eqn:E4 in Hr; [done|]. injection Hr as <-.
    eexists. cbn [m_nodes m_canonical m_seen m_slots m_masters]. split_and!; [done..| | | |].
    + intros s. unfold owns. cbn [rn_Slots]. set_solver.
    + intros s. unfold owns. cbn [rn_Slots]. set_solver.
    + done.
    + unfold is_role. cbn [rn_Role rn_ID]. by rewrite Ep.
Qed.

Lemma add_member_inv st line st' : inv st → add_member st line = Ok st' → inv st'.
Proof.
  intros [I1 I2 I3 I4 I5 I6 I7] Hadd. destruct (add_member_node _ _ _ Hadd) as (n & Hn & Hc & Hseen & Hseen' & Hs & Hfree & Hrole & Hm).
  assert (n.(rn_ID) ∉ rn_ID <$> st.(m_nodes)) as Hnew by by rewrite <-I2.
  split; rewrite ?Hn, ?Hc, ?Hseen', ?Hm.
  - rewrite fmap_app. apply NoDup_snoc. done.
  - intros id. rewrite fmap_app, elem_of_app, <-I2. cbn [fmap list_fmap]. set_solver.
  - rewrite filter_app, fmap_app, I3. destruct (is_role "primary" n) eqn:Ep.
    + rewrite filter_cons_True, filter_nil by done. cbn [fmap list_fmap].
      rewrite list_to_map_snoc; [done|]. rewrite <-list_fmap_compose. intros (m & E & Hm')%list_elem_of_fmap.
      apply Hnew, list_elem_of_fmap. exists m. split; [done|]. apply list_elem_of_filter in Hm'. tauto.
    + rewrite filter_cons_False, filter_nil by (by rewrite Ep). cbn [fmap list_fmap]. by rewrite app_nil_r.
  - intros s. rewrite Hs, I4. setoid_rewrite elem_of_app. setoid_rewrite list_elem_of_singleton. naive_solver.
  - intros s a b. rewrite !elem_of_app, !list_elem_of_singleton. intros [Ha| ->] [Hb| ->] Oa Ob; [by eapply I5| | |done].
    + exfalso. specialize (Hfree s Ob). rewrite (proj2 (I4 s)) in Hfree; [done|eauto].
    + exfalso. specialize (Hfree s Oa). rewrite (proj2 (I4 s)) in Hfree; [done|eauto].
  - intros m. rewrite elem_of_app, list_elem_of_singleton. intros [Hm'| ->]; [by apply I6|done].
  - by rewrite fmap_app, I7.
Qed.

Lemma add_members_inv lines st st' : inv st → foldM add_member st lines = Ok st' →
  inv st' ∧ length st'.(m_nodes) = (length st.(m_nodes) + length lines)%nat.
Proof.
  revert st. induction lines as [|x lines IH]; intros st Hi; cbn [foldM].
  - intros [= <-]. split; [done|]. cbn. lia.
  - intros Hr. apply bind_Ok in Hr as (t & Hx & Hr). destruct (add_member_node _ _ _ Hx) as (n & Hn & _).
    destruct (IH t (add_member_inv _ _ _ Hi Hx) Hr) as [Hi' Hl]. split; [done|].
    rewrite Hl, Hn, length_app. cbn. lia.
Qed.

Lemma no_members_inv : inv no_members.
Proof. split; try done; cbn; try set_solver. constructor. Qed.

(** ** Replicas *)

Lemma countb_cons {A} (f : A → bool) x l : countb f (x :: l) = (if f x then 1 else 0) + countb f l.
Proof.
  unfold countb, lenl. destruct (f x) eqn:E; [rewrite filter_cons_True by done|rewrite filter_cons_False by by rewrite E]; cbn [length]; lia.
Qed.

(** Every replica found its primary, and every primary counts its replicas. *)
Lemma count_replicas_spec nodes : ∀ masters masters', foldM count_replica masters nodes = Ok masters' →
  (∀ id, masters' !! id = (λ c, c + countb (replica_of id) nodes) <$> masters !! id) ∧
  (∀ n, n ∈ nodes → is_role "replica" n = true → is_Some (masters !! n.(rn_Primary))).
Proof.
  induction nodes as [|x nodes IH]; intros masters masters'; cbn [foldM].
  - intros [= <-]. split; [|set_solver]. intros id. destruct (masters !! id) as [c|]; [cbn; by rewrite Z.add_0_r|done].
  - intros Hr. apply bind_Ok in Hr as (t & Hx & Hr). destruct (IH _ _ Hr) as [H1 H2]. unfold count_replica in Hx.
    setoid_rewrite elem_of_cons. destruct (rn_Role x =? "replica")%string eqn:Er.
    + destruct (masters !! rn_Primary x) as [c|] eqn:Hc; [|done]. injection Hx as <-. split.
      * intros id. rewrite H1, countb_cons. unfold replica_of at 2, is_role. rewrite Er. cbn [andb].
        destruct (decide (rn_Primary x = id)) as [<-|Hne].
        { rewrite lookup_insert_eq, Hc, String.eqb_refl. cbn. f_equal. lia. }
        rewrite lookup_insert_ne by done. rewrite (proj2 (String.eqb_neq _ _)) by done. by destruct (masters !! id).
      * intros n [->|Hn] Hrole; [by rewrite Hc|]. specialize (H2 n Hn Hrole).
        destruct (decide (rn_Primary x = rn_Primary n)) as [<-|Hne]; [by rewrite Hc|]. by rewrite lookup_insert_ne in H2.
    + injection Hx as <-. split.
      * intros id. rewrite H1, countb_cons. unfold replica_of at 2, is_role. rewrite Er. cbn [andb]. by destruct (masters !! id).
      * intros n [->|Hn] Hrole; [|by apply H2]. unfold is_role in Hrole. by rewrite Er in Hrole.
Qed.

(** ** Acceptance *)

Lemma NoDup_filter_fmap {A B} (f : A → B) (P : A → Prop) `{∀ x, Decision (P x)} l : NoDup (f <$> l) → NoDup (f <$> filter P l).
Proof.
  induction l as [|x l IH]; [done|]. cbn [fmap list_fmap]. intros [Hx Hl]%NoDup_cons. rewrite filter_cons. case_decide; [|auto].
  cbn [fmap list_fmap]. apply NoDup_cons. split; [|auto]. intros (y & E & Hy)%list_elem_of_fmap. apply Hx, list_elem_of_fmap.
  exists y. split; [done|]. apply list_elem_of_filter in Hy. tauto.
Qed.

(** The node a line describes, whatever the lines before it. *)
Definition from_ok {A} (d : A) (r : result A) : A := match r with Ok a => a | Err _ => d end.
Definition node_of (line : string) : RedisNode :=
  let field i := nth i (Fields line) EmptyString in
  let role := from_ok EmptyString (node_role (field 2%nat)) in
  mkRedisNode (field 0%nat) (from_ok EmptyString (node_host (field 1%nat))) role (field 3%nat)
    (if (role =? "primary")%string then drop 8 (Fields line) else []).

Lemma add_member_line st line st' : add_member st line = Ok st' → st'.(m_nodes) = st.(m_nodes) ++ [node_of line].
Proof.
  unfold add_member, node_of. cbv zeta. destruct (_ || _); [done|]. destruct (_ || _); [done|].
  destruct (negb (nth 7 _ _ =? _)%string); [done|].
  intros Hr. apply bind_Ok in Hr as (role & -> & Hr). apply bind_Ok in Hr as (host & -> & Hr). cbn [from_ok].
  destruct (role =? "primary")%string.
  - destruct (_ || _) in Hr; [done|]. apply bind_Ok in Hr as ([slots spans] & Hs & Hr). injection Hr as <-.
    destruct (assign_spans_spec _ _ _ Hs) as [Hspans _]. cbn [fst snd app] in Hspans. by rewrite Hspans.
  - destruct (negb _) in Hr; [done|]. by injection Hr as <-.
Qed.

Lemma add_members_lines lines st st' : foldM add_member st lines = Ok st' → st'.(m_nodes) = st.(m_nodes) ++ (node_of <$> lines).
Proof.
  revert st. induction lines as [|x lines IH]; intros st; cbn [foldM]; [intros [= <-]; by rewrite app_nil_r|].
  intros Hr. apply bind_Ok in Hr as (t & Hx & Hr). rewrite (IH _ Hr), (add_member_line _ _ _ Hx). by rewrite <-app_assoc.
Qed.

Section accepted.
Context (sha256_hex : string → string).

(** What a successful parse went through. *)
Lemma ParseRedisTopology_Ok raw shards replicas nodes fingerprint :
  ParseRedisTopology sha256_hex raw shards replicas = Ok (nodes, fingerprint) → ∃ st masters,
  foldM add_member no_members (Split (TrimSpace raw) "010") = Ok st ∧ nodes = st.(m_nodes) ∧
  lenl (Split (TrimSpace raw) "010") = shards * (1 + replicas) ∧ lenm st.(m_masters) = shards ∧
  foldM count_replica st.(m_masters) nodes = Ok masters ∧ (∀ id c, masters !! id = Some c → c = replicas) ∧
  (∀ slot, 0 ≤ slot < slot_count → assigned st.(m_slots) slot = true) ∧
  fingerprint = sha256_hex (Join (sort_strings st.(m_canonical)) LF).
Proof.
  unfold ParseRedisTopology. cbv zeta. destruct (_ || _); [done|]. destruct (_ || _) eqn:E in |- *; [done|].
  intros Hr. apply bind_Ok in Hr as (st & Hst & Hr). destruct (negb _) eqn:E2 in Hr; [done|].
  apply bind_Ok in Hr as (masters & Hm & Hr). destruct (negb _) eqn:E3 in Hr; [done|]. destruct (negb _) eqn:E4 in Hr; [done|].
  injection Hr as <- <-. split_orb. zify_bool. exists st, masters. split_and!; try done.
  - intros id c Hc. rewrite forallb_forall in E3. specialize (E3 (id, c)). cbn in E3. apply Z.eqb_eq, E3.
    by apply list_elem_of_In, elem_of_map_to_list.
  - intros slot Hs. rewrite forallb_forall in E4. apply E4, list_elem_of_In, elem_of_zrange.
    unfold slot_count in *. lia.
Qed.

(** C27: A topology that is accepted is a complete cluster: distinct members in the
    requested number, the requested primaries each with the requested replicas,
    every replica with a known primary, and every one of the 16384 slots owned by
    exactly one member, which is a primary. *)
Theorem topology_cluster raw shards replicas nodes fingerprint :
  ParseRedisTopology sha256_hex raw shards replicas = Ok (nodes, fingerprint) → cluster shards replicas nodes.
Proof.
  intros (st & masters & Hfold & -> & Hlen & Hsize & Hcount & Hall & Hslots & _)%ParseRedisTopology_Ok.
  destruct (add_members_inv _ _ _ no_members_inv Hfold) as [[I1 I2 I3 I4 I5 I6 I7] Hl].
  destruct (count_replicas_spec _ _ _ Hcount) as [Hc Hknown].
  set (primaries := filter (λ n, is_role "primary" n = true) (m_nodes st)) in *.
  assert (NoDup ((λ n, (rn_ID n, 0)) <$> primaries).*1) as Hnd.
  { rewrite <-list_fmap_compose. by apply (NoDup_filter_fmap rn_ID). }
  assert (∀ n, n ∈ m_nodes st → is_role "primary" n = true → m_masters st !! rn_ID n = Some 0) as Hprimary.
  { intros n Hn Hp. rewrite I3. apply elem_of_list_to_map_1; [done|]. apply list_elem_of_fmap. exists n. split; [done|].
    by apply list_elem_of_filter. }
  split; [done|..].
  - unfold lenl in *. rewrite Hl. cbn. lia.
  - rewrite <-Hsize, I3. unfold lenm, countb, lenl. f_equal. rewrite <-(length_map_to_list (list_to_map _)), map_to_list_to_map by done.
    by rewrite length_fmap.
  - intros n Hn Hp. specialize (Hc (rn_ID n)). rewrite (Hprimary n Hn Hp) in Hc. cbn [fmap option_fmap option_map] in Hc. by apply Hall in Hc.
  - intros n Hn Hrole. destruct (Hknown n Hn Hrole) as [c Hc']. rewrite I3 in Hc'. apply elem_of_list_to_map_2, list_elem_of_fmap in Hc' as (p & [= Hp _] & Hin).
    apply list_elem_of_filter in Hin as [Hr Hin]. exists p. auto.
  - intros slot Hs. apply Hslots, I4 in Hs as (n & Hn & Ho). exists n. split_and!; [done..|].
    destruct (is_role "primary" n) eqn:Ep; [done|]. destruct Ho as (span & lo & hi & Hin & _). rewrite (I6 n Hn Ep) in Hin. by apply elem_of_nil in Hin.
  - done.
Qed.

(** The fingerprint of a cluster does not depend on the order in which a member
    lists the others. *)
Theorem fingerprint_order raw raw' shards replicas nodes nodes' fp fp' :
  Split (TrimSpace raw) "010" ≡ₚ Split (TrimSpace raw') "010" →
  ParseRedisTopology sha256_hex raw shards replicas = Ok (nodes, fp) →
  ParseRedisTopology sha256_hex raw' shards replicas = Ok (nodes', fp') → fp = fp'.
Proof.
  intros Hp (st & _ & Hf & -> & _ & _ & _ & _ & _ & ->)%ParseRedisTopology_Ok
    (st' & _ & Hf' & -> & _ & _ & _ & _ & _ & ->)%ParseRedisTopology_Ok.
  destruct (add_members_inv _ _ _ no_members_inv Hf) as [Hi _]. destruct (add_members_inv _ _ _ no_members_inv Hf') as [Hi' _].
  rewrite (in_canonical _ Hi), (in_canonical _ Hi'), (add_members_lines _ _ _ Hf), (add_members_lines _ _ _ Hf').
  do 2 f_equal. apply sort_strings_proper. cbn [m_nodes no_members app]. by rewrite Hp.
Qed.
End accepted.

(** * A cluster of three primaries, each with a replica *)

Module TopologyExample.
Definition id_of (c : string) : string := Join (replicate 40 c) "".
Definition primary_line (c host span : string) : string :=
  id_of c +:+ " " +:+ host +:+ ":6379@16379 master - 0 0 1 connected " +:+ span.
Definition replica_line (c host primary : string) : string :=
  id_of c +:+ " " +:+ host +:+ ":6379@16379 slave " +:+ id_of primary +:+ " 0 0 1 connected".

Definition members_lines : list string :=
  [primary_line "a" "10.0.0.1" "0-5460"; replica_line "d" "10.0.0.4" "a"; primary_line "b" "10.0.0.2" "5461-10922";
   replica_line "e" "10.0.0.5" "b"; primary_line "c" "10.0.0.3" "10923-16383"; replica_line "f" "10.0.0.6" "c"].
Definition listing : string := Join members_lines LF.
Definition listing_reversed : string := Join (reverse members_lines) LF.
Definition digest (s : string) : string := s.

Definition parsed (raw : string) : list RedisNode * string :=
  from_ok ([], EmptyString) (ParseRedisTopology digest raw 3 1).
End TopologyExample.

Lemma topology_cluster_witness : cluster 3 1 (TopologyExample.parsed TopologyExample.listing).1.
Proof.
  apply (topology_cluster TopologyExample.digest TopologyExample.listing 3 1 _ (TopologyExample.parsed TopologyExample.listing).2).
  vm_compute. reflexivity.
Defined.

Lemma fingerprint_order_witness :
  (TopologyExample.parsed TopologyExample.listing).2 = (TopologyExample.parsed TopologyExample.listing_reversed).2.
Proof.
  apply (fingerprint_order TopologyExample.digest TopologyExample.listing TopologyExample.listing_reversed 3 1
    (TopologyExample.parsed TopologyExample.listing).1 (TopologyExample.parsed TopologyExample.listing_reversed).1).
  - replace (Split (TrimSpace TopologyExample.listing_reversed) "010")
      with (reverse (Split (TrimSpace TopologyExample.listing) "010")) by (vm_compute; reflexivity).
    symmetry. apply reverse_Permutation.
  - vm_compute. reflexivity.
  - vm_compute. reflexivity.
Defined.
