(* ===== verification/Escapes.v ===== *)
(** Encodings of the Go library on byte strings: [net/url] escaping, the four base64
    alphabets and the strings of JSON. *)
From S2P Require Import Prelude GoStd.
#[global] Open Scope Z_scope.

Definition hex_upper (d : Z) : ascii := ascii_of_nat (Z.to_nat (if d <? 10 then d + 48 else d + 55)).

Definition alnum (c : ascii) : bool :=
  let b := byte_of c in
  (97 <=? b) && (b <=? 122) || (65 <=? b) && (b <=? 90) || (48 <=? b) && (b <=? 57).

(** A byte as a percent sign and two hexadecimal digits. *)
Definition percent (c : ascii) (rest : string) : string :=
  String "%" (String (hex_upper (byte_of c / 16)) (String (hex_upper (byte_of c mod 16)) rest)).

Definition path_plain (c : ascii) : bool := alnum c || has_byte c "-_.~$&+=:@".

Fixpoint PathEscape (s : string) : string :=
  match s with
  | EmptyString => EmptyString
  | String c s' => if path_plain c then String c (PathEscape s') else percent c (PathEscape s')
  end.

Definition query_plain (c : ascii) : bool := alnum c || has_byte c "-_.~".

Fixpoint QueryEscape (s : string) : string :=
  match s with
  | EmptyString => EmptyString
  | String c s' =>
      if query_plain c then String c (QueryEscape s')
      else if Ascii.eqb c " " then String "+" (QueryEscape s') else percent c (QueryEscape s')
  end.

Definition StdEncoding (s : string) : string := base64_Encode (byte_of <$> String.list_ascii_of_string s).
Definition RawStdEncoding (s : string) : string := remove_byte "=" (StdEncoding s).
Definition url_alphabet (c : ascii) : ascii := if Ascii.eqb c "+" then "-" else if Ascii.eqb c "/" then "_" else c.
Definition URLEncoding (s : string) : string := map_string url_alphabet (StdEncoding s).
Definition RawURLEncoding (s : string) : string := remove_byte "=" (URLEncoding s).

(** ** Strings in JSON

    How [json.Marshal] writes a string: the characters of HTML are escaped too, and a
    byte that is not UTF-8 is written as U+FFFD. *)

Definition quote : string := String "034" EmptyString.
Definition hex_lower (d : Z) : string := String (ascii_of_nat (Z.to_nat (if d <? 10 then d + 48 else d + 87))) EmptyString.
Definition json_rune (x : Z * string) : string :=
  let '(r, bytes) := x in
  if (r =? 34) || (r =? 92) then "\" +:+ bytes
  else if r =? 8 then "\b" else if r =? 9 then "\t" else if r =? 10 then "\n" else if r =? 12 then "\f" else if r =? 13 then "\r"
  else if (r <? 32) || (r =? 38) || (r =? 60) || (r =? 62) then "\u00" +:+ hex_lower (r / 16) +:+ hex_lower (r mod 16)
  else if (r =? RuneError) && (len bytes =? 1) then "\ufffd"
  else if r =? 8232 then "\u2028" else if r =? 8233 then "\u2029"
  else bytes.
Definition json_string (s : string) : string := quote +:+ String.concat EmptyString (json_rune <$> decode s) +:+ quote.
