(* ===== verification/Advisory.v ===== *)
(** Security advisories (internal/advisory): the versions and image names they
    compare, the findings of an inventory, their order, the merge of two sources and
    the checks of a signed feed. *)
From S2P Require Import Prelude GoStd Regex.
#[global] Open Scope Z_scope.

(** * Data (types.go) *)

Definition Critical : string := "critical".
Definition High : string := "high".
Definition Moderate : string := "moderate".
Definition Low : string := "low".
Definition ActionUpdate : string := "update".
Definition ActionManual : string := "manual".
Definition SourceHakopod : string := "hakopod".
Definition SourceOSV : string := "osv".
Definition KindImage : string := "image".
Definition KindSource : string := "source".
Definition Confirmed : string := "confirmed".
Definition Possible : string := "possible".
Definition FixReresolve : string := "reresolve".
Definition FixRebuild : string := "rebuild".
Definition FixManual : string := "manual".

Record Range : Type := mkRange { r_Introduced : string; r_Fixed : string; r_LastAffected : string }.

Record ImageTarget : Type := mkImageTarget {
  it_Repository : string;
  it_AffectedDigests : list string;
  it_AffectedTags : list string;
  it_FixedDigests : list string;
}.

Record RuntimeTarget : Type := mkRuntimeTarget { rt_Runtime : string; rt_Ranges : list Range }.
Record Target : Type := mkTarget { t_Image : option ImageTarget; t_Runtime : option RuntimeTarget }.

Record Advisory : Type := mkAdvisory {
  a_ID : string;
  a_Revision : Z;
  a_Source : string;
  a_Title : string;
  a_Message : string;
  a_Severity : string;
  a_URL : string;
  a_PublishedAt : Z;
  a_Action : string;
  a_Aliases : list string;
  a_Targets : list Target;
}.

Record Feed : Type := mkFeed {
  fd_Format : Z;
  fd_Revision : Z;
  fd_IssuedAt : Z;
  fd_ExpiresAt : Z;
  fd_Advisories : list Advisory;
}.

Record SignedFeed : Type := mkSignedFeed { sf_Payload : string; sf_Signature : string }.

Record ServiceEvidence : Type := mkServiceEvidence {
  se_Service : string;
  se_Kind : string;
  se_Image : string;
  se_Digest : string;
  se_Mutable : bool;
  se_Runtimes : gmap string string;
  se_Unknown : bool;
  se_BaseImage : string;
  se_BasePinned : bool;
  se_Reason : string;
}.

Record Inventory : Type := mkInventory {
  i_ApplicationID : string;
  i_DeploymentID : string;
  i_Revision : Z;
  i_Services : list ServiceEvidence;
  i_Incomplete : list string;
  i_CheckedAt : Z;
}.

Record Finding : Type := mkFinding {
  f_AdvisoryID : string;
  f_AdvisoryRevision : Z;
  f_Source : string;
  f_Severity : string;
  f_Title : string;
  f_URL : string;
  f_Service : string;
  f_Confidence : string;
  f_Evidence : string;
  f_Fix : string;
  f_FixReason : string;
  f_AutoEligible : bool;
  f_FixedDigests : list string;
  f_Aliases : list string;
}.

Definition set_evidence (f : Finding) (confidence evidence : string) : Finding :=
  mkFinding f.(f_AdvisoryID) f.(f_AdvisoryRevision) f.(f_Source) f.(f_Severity) f.(f_Title) f.(f_URL) f.(f_Service)
    confidence evidence f.(f_Fix) f.(f_FixReason) f.(f_AutoEligible) f.(f_FixedDigests) f.(f_Aliases).
Definition set_auto (f : Finding) (fixed : list string) : Finding :=
  mkFinding f.(f_AdvisoryID) f.(f_AdvisoryRevision) f.(f_Source) f.(f_Severity) f.(f_Title) f.(f_URL) f.(f_Service)
    f.(f_Confidence) f.(f_Evidence) f.(f_Fix) f.(f_FixReason) true fixed f.(f_Aliases).
Definition set_fix (f : Finding) (fix_reason : string * string) : Finding :=
  mkFinding f.(f_AdvisoryID) f.(f_AdvisoryRevision) f.(f_Source) f.(f_Severity) f.(f_Title) f.(f_URL) f.(f_Service)
    f.(f_Confidence) f.(f_Evidence) fix_reason.1 fix_reason.2 f.(f_AutoEligible) f.(f_FixedDigests) f.(f_Aliases).

(** The runtime names of RuntimeEnv. *)
Definition RuntimeEnv : list (string * string) :=
  [("node", "NODE_VERSION"); ("python", "PYTHON_VERSION"); ("go", "GOLANG_VERSION"); ("php", "PHP_VERSION");
   ("ruby", "RUBY_VERSION"); ("java", "JAVA_VERSION")].

(** * Versions (match.go) *)

(** [s[:i]] for [i := strings.IndexAny(s, chars)], or all of [s]. *)
Fixpoint before_any (s chars : string) : string :=
  match s with
  | EmptyString => EmptyString
  | String c s' => if has_byte c chars then EmptyString else String c (before_any s' chars)
  end.

Fixpoint trim_left (c : ascii) (s : string) : string :=
  match s with String d s' => if Ascii.eqb d c then trim_left c s' else s | EmptyString => EmptyString end.
(** [strings.Trim] for one byte *)
Definition trim_byte (c : ascii) (s : string) : string := rev_string (trim_left c (rev_string (trim_left c s))).

Definition NormalizeVersion (runtime raw : string) : string :=
  let v := TrimSpace raw in
  let v := TrimPrefix (TrimPrefix v "jdk-") "v" in
  let v := trim_byte "." (before_any v "+-") in
  if is_empty v || negb (all_in v "0123456789.") || Contains v ".." then EmptyString else v.

(** The digits a segment starts with, and the rest of it. *)
Fixpoint span_digits (s : string) : string * string :=
  match s with
  | String c s' => match digit_of c with
                   | Some _ => let '(d, r) := span_digits s' in (String c d, r)
                   | None => (EmptyString, s)
                   end
  | EmptyString => (EmptyString, EmptyString)
  end.

(** The value [strconv.Atoi] returns for a run of digits, errors ignored: 0 for no
    digit, the largest int when it is out of range. *)
Definition Atoi_digits (s : string) : Z := Z.min (default 0 (digits_value 0 s)) max_int64.

Fixpoint parts_of (segments : list string) : list Z :=
  match segments with
  | [] => []
  | seg :: rest =>
      let '(digits, suffix) := span_digits seg in
      Atoi_digits digits :: (if is_empty suffix then parts_of rest else [])
  end.

Definition versionParts (v : string) : list Z := parts_of (Split (TrimPrefix (TrimSpace v) "v") ".").

(** The loop over the segments from index [i] on, [n] of them. *)
Fixpoint compare_parts (n i : nat) (a b : list Z) : Z :=
  match n with
  | O => 0
  | S n' =>
      let x := nth i a 0 in
      let y := nth i b 0 in
      if negb (x =? y) then (if x <? y then -1 else 1) else compare_parts n' (S i) a b
  end.

Definition CompareVersions (a b : string) : Z :=
  let a := versionParts a in
  let b := versionParts b in
  compare_parts (Nat.max (length a) (length b)) 0 a b.

Definition in_range_of (v : string) (r : Range) : bool :=
  negb (CompareVersions v r.(r_Introduced) <? 0) &&
  (negb (is_empty r.(r_Fixed)) && (CompareVersions v r.(r_Fixed) <? 0) ||
   negb (is_empty r.(r_LastAffected)) && (CompareVersions v r.(r_LastAffected) <=? 0) ||
   is_empty r.(r_Fixed) && is_empty r.(r_LastAffected)).

Definition inRanges (v : string) (ranges : list Range) : bool := existsb (in_range_of v) ranges.

(** * Images *)

(** The colon of a tag is the last one and no slash follows it. *)
Definition splitImage (image : string) : string * string * string :=
  let '(name, digest) := match Cut (TrimSpace image) "@" with
                         | Some (name, digest) => (name, digest)
                         | None => (TrimSpace image, EmptyString)
                         end in
  match CutLast name ":" with
  | Some (before, after) => if has_byte "/" after then (name, EmptyString, digest) else (before, after, digest)
  | None => (name, EmptyString, digest)
  end.

Definition ImageTag (image : string) : string :=
  let '(_, tag, digest) := splitImage image in
  if is_empty tag && is_empty digest then "latest" else tag.

Section advisory.
(** [strings.ToLower], with Go's Unicode tables. *)
Context (to_lower : string → string).

Definition NormalizeRepository (image : string) : string :=
  let name := (splitImage image).1.1 in
  if is_empty name then EmptyString
  else match Cut name "/" with
  | None => "docker.io/library/" +:+ name
  | Some (first, rest) =>
      if ContainsAny first ".:" || (first =? "localhost")%string then
        let first := to_lower first in
        let first := if (first =? "index.docker.io")%string || (first =? "registry-1.docker.io")%string then "docker.io" else first in
        let rest := if (first =? "docker.io")%string && negb (has_byte "/" rest) then "library/" +:+ rest else rest in
        first +:+ "/" +:+ rest
      else "docker.io/" +:+ name
  end.

(** * Findings *)

(** [strings.Split(s, sep)] for the separator comma and space. *)
Fixpoint split_evidence (s : string) : list string :=
  match s with
  | EmptyString => [EmptyString]
  | String c s' =>
      match s' with
      | String d s'' =>
          if Ascii.eqb c "," && Ascii.eqb d " " then EmptyString :: split_evidence s''
          else match split_evidence s' with [] => [String c EmptyString] | h :: t => String c h :: t end
      | EmptyString => [String c EmptyString]
      end
  end.

(** The closure [add] of Match on the finding it captures. *)
Definition add (adv : Advisory) (svc : ServiceEvidence) (f : option Finding) (conf evidence : string)
    (image : option ImageTarget) : option Finding :=
  let f1 := match f with
    | None => mkFinding adv.(a_ID) adv.(a_Revision) adv.(a_Source) adv.(a_Severity) adv.(a_Title) adv.(a_URL) svc.(se_Service)
                conf evidence EmptyString EmptyString false [] adv.(a_Aliases)
    | Some f =>
        let conf := if (conf =? Confirmed)%string then Confirmed else f.(f_Confidence) in
        set_evidence f conf (if one_of evidence (split_evidence f.(f_Evidence)) then f.(f_Evidence)
                             else f.(f_Evidence) +:+ ", " +:+ evidence)
    end in
  match image with
  | Some image =>
      if (conf =? Confirmed)%string && (adv.(a_Source) =? SourceHakopod)%string && (adv.(a_Action) =? ActionUpdate)%string &&
         (svc.(se_Kind) =? KindImage)%string && svc.(se_Mutable) && (0 <? lenl image.(it_FixedDigests))
      then Some (set_auto f1 image.(it_FixedDigests)) else Some f1
  | None => Some f1
  end.

(** [matchImage]: the call of [add] it makes, if any. *)
Definition matchImage (t : ImageTarget) (svc : ServiceEvidence) : option (string * string) :=
  let source := (svc.(se_Kind) =? KindSource)%string in
  let image := if source then svc.(se_BaseImage) else svc.(se_Image) in
  let repo := NormalizeRepository image in
  if is_empty image || negb (repo =? NormalizeRepository t.(it_Repository))%string then None
  else
    let digest := if source then match Cut image "@" with Some (_, d) => d | None => EmptyString end else svc.(se_Digest) in
    if negb (is_empty digest) && one_of digest t.(it_FixedDigests) then None
    else if negb (is_empty digest) && one_of digest t.(it_AffectedDigests) then Some (Confirmed, repo +:+ "@" +:+ digest)
    else
      let tag := ImageTag image in
      if negb (is_empty tag) && one_of tag t.(it_AffectedTags) then Some (Possible, repo +:+ ":" +:+ tag) else None.

(** The call of [add] a target makes: its confidence, evidence and image. *)
Definition target_call (svc : ServiceEvidence) (t : Target) : option (string * string * option ImageTarget) :=
  match t.(t_Image), t.(t_Runtime) with
  | Some image, _ => '(conf, evidence) ← matchImage image svc; Some (conf, evidence, Some image)
  | None, Some rt =>
      let v := NormalizeVersion rt.(rt_Runtime) (default EmptyString (svc.(se_Runtimes) !! rt.(rt_Runtime))) in
      if negb (is_empty v) && inRanges v rt.(rt_Ranges) then Some (Confirmed, rt.(rt_Runtime) +:+ " " +:+ v, None) else None
  | None, None => None
  end.

Definition match_target (adv : Advisory) (svc : ServiceEvidence) (f : option Finding) (t : Target) : option Finding :=
  match target_call svc t with
  | Some (conf, evidence, image) => add adv svc f conf evidence image
  | None => f
  end.

Definition fixFor (adv : Advisory) (svc : ServiceEvidence) : string * string :=
  let source := (svc.(se_Kind) =? KindSource)%string in
  if (adv.(a_Action) =? ActionManual)%string then (FixManual, adv.(a_Message))
  else if source && svc.(se_BasePinned) then (FixManual, "Base image is pinned by Hakopod; update Hakopod, then rebuild.")
  else if source then (FixRebuild, EmptyString)
  else if negb svc.(se_Mutable) then (FixManual, "Image is pinned by digest; change the pinned digest.")
  else (FixReresolve, EmptyString).

(** The finding of one advisory on one service. *)
Definition match_service (adv : Advisory) (svc : ServiceEvidence) : option Finding :=
  (λ f, set_fix f (fixFor adv svc)) <$> fold_left (match_target adv svc) adv.(a_Targets) None.

Definition severity_rank (s : string) : Z :=
  if (s =? Critical)%string then 0 else if (s =? High)%string then 1
  else if (s =? Moderate)%string then 2 else if (s =? Low)%string then 3 else 4.

Definition finding_less (a b : Finding) : bool :=
  let ra := severity_rank a.(f_Severity) in
  let rb := severity_rank b.(f_Severity) in
  if negb (ra =? rb) then ra <? rb
  else if negb (a.(f_AdvisoryID) =? b.(f_AdvisoryID))%string then String.ltb a.(f_AdvisoryID) b.(f_AdvisoryID)
  else String.ltb a.(f_Service) b.(f_Service).

(** [sort.SliceStable]: equal elements keep their order. *)
Fixpoint insert_finding (f : Finding) (l : list Finding) : list Finding :=
  match l with
  | [] => [f]
  | g :: l' => if finding_less g f then g :: insert_finding f l' else f :: l
  end.
Definition sortFindings (l : list Finding) : list Finding := foldr insert_finding [] l.

Definition Match (advisories : list Advisory) (inv : Inventory) : list Finding :=
  sortFindings (advisories ≫= λ adv, inv.(i_Services) ≫= λ svc, option_list (match_service adv svc)).

(** * Merge *)

Definition finding_keys (f : Finding) : list string :=
  (λ id, f.(f_Service) +:+ NUL +:+ to_lower id) <$> f.(f_AdvisoryID) :: f.(f_Aliases).

Definition see_key (conf : string) (seen : gmap string string) (key : string) : gmap string string :=
  if negb (default EmptyString (seen !! key) =? Confirmed)%string then <[key := conf]> seen else seen.

Definition see_finding (seen : gmap string string) (f : Finding) : gmap string string :=
  fold_left (see_key f.(f_Confidence)) (finding_keys f) seen.

Definition covered (seen : gmap string string) (f : Finding) : bool :=
  existsb (λ key, match seen !! key with
                  | Some c => (c =? Confirmed)%string || negb (f.(f_Confidence) =? Confirmed)%string
                  | None => false
                  end) (finding_keys f).

Definition Merge (primary secondary : list Finding) : list Finding :=
  let seen := fold_left see_finding primary ∅ in
  sortFindings (primary ++ filter (λ f, covered seen f = false) secondary).
End advisory.

(** * The signed feed (verify.go) *)

(** Ed25519, and the JSON decoding of the signed file and of its payload, the latter
    strict and with whether more input follows it. *)
Class FeedCodec := {
  feed_ed25519_Verify : string → string → string → bool;
  decode_signed : string → option SignedFeed;
  decode_feed : string → option (Feed * bool);
}.

Definition feed_error (text : string) : error := Errorf text [].

Definition SignatureDomain : string := "hakopod-security-advisories-v1" +:+ LF.
Definition FeedFormat : Z := 1.
Definition maxFeedBytes : Z := Z.shiftl 1 20.
Definition maxAdvisories : Z := 500.
Definition maxTargets : Z := 32.
Definition maxTitle : Z := 200.
Definition maxMessage : Z := 2000.
Definition minute : Z := 60 * 10 ^ 9.
Definition maxClockSkew : Z := 5 * minute.
Definition maxFeedValidity : Z := 31 * 24 * 60 * minute.

Definition aliasPattern : regex := RRep (RCls (λ c, upper c || lower c || digit c || any_of "._:-" c)) 1 64.
Definition advisoryDigest : regex := RCat (RLit "sha256:") (RTimes (RCls (λ c, in_range "a" "f" c || digit c)) 64).

(** One target, carrying [fixable]. *)
Definition validate_target (fixable : bool) (t : Target) : result bool :=
  match t.(t_Image), t.(t_Runtime) with
  | None, None | Some _, Some _ => Err (feed_error "target must have exactly one of image or runtime")
  | Some image, None =>
      _ ← fail_when (is_empty image.(it_Repository)) (feed_error "image repository is empty");
      _ ← iterM (iterM (λ d, fail_when (negb (full_match advisoryDigest d)) (Errorf "invalid digest %q" [AStr d])))
            [image.(it_AffectedDigests); image.(it_FixedDigests)];
      Ok (fixable && (0 <? lenl image.(it_FixedDigests)))
  | None, Some rt =>
      _ ← fail_when (negb (one_of rt.(rt_Runtime) RuntimeEnv.*1)) (Errorf "unknown runtime %q" [AStr rt.(rt_Runtime)]);
      _ ← fail_when (lenl rt.(rt_Ranges) =? 0) (feed_error "runtime target has no ranges");
      foldM (λ fixable r,
        _ ← fail_when (is_empty r.(r_Introduced)) (feed_error "range introduced is required");
        Ok (fixable && negb (is_empty r.(r_Fixed)))) fixable rt.(rt_Ranges)
  end.

Definition validateAdvisory (a : Advisory) : result unit :=
  _ ← fail_when (a.(a_Revision) <? 1) (feed_error "revision must be at least 1");
  _ ← fail_when (negb (one_of a.(a_Severity) [Critical; High; Moderate; Low])) (Errorf "unknown severity %q" [AStr a.(a_Severity)]);
  _ ← fail_when (negb (a.(a_Action) =? ActionUpdate)%string && negb (a.(a_Action) =? ActionManual)%string)
        (Errorf "unknown action %q" [AStr a.(a_Action)]);
  _ ← fail_when (negb (a.(a_Source) =? SourceHakopod)%string) (feed_error "source must be hakopod");
  _ ← fail_when (negb (HasPrefix a.(a_URL) "https://") || (len a.(a_URL) =? len "https://")) (feed_error "url must be https");
  _ ← fail_when ((RuneCountInString a.(a_Title) >? maxTitle) || (RuneCountInString a.(a_Message) >? maxMessage))
        (feed_error "title or message is too long");
  _ ← fail_when (lenl a.(a_Aliases) >? 20) (feed_error "more than 20 aliases");
  _ ← iterM (λ alias, fail_when (negb (full_match aliasPattern alias)) (Errorf "invalid alias %q" [AStr alias])) a.(a_Aliases);
  _ ← fail_when ((lenl a.(a_Targets) <? 1) || (lenl a.(a_Targets) >? maxTargets)) (Errorf "must have 1 to %d targets" [AInt maxTargets]);
  fixable ← foldM validate_target true a.(a_Targets);
  fail_when ((a.(a_Action) =? ActionUpdate)%string && negb fixable) (feed_error "update advisory must name a fix on every target").

(** The loop over the advisories: the index and the identities seen. *)
Definition check_advisory (st : Z * list string) (a : Advisory) : result (Z * list string) :=
  let '(i, seen) := st in
  _ ← fail_when (is_empty a.(a_ID) || one_of a.(a_ID) seen) (Errorf "advisory %d: id is empty or duplicated" [AInt i]);
  _ ← wrap (λ e, Errorf "advisory %s: %w" [AStr a.(a_ID); AErr e]) (validateAdvisory a);
  Ok (i + 1, a.(a_ID) :: seen).

Section feed.
Context `{FeedCodec}.

(** Times are nanoseconds; the difference of two of them saturates far outside the
    window it is compared with. *)
Definition Verify (signed pub : string) (now minRevision : Z) : result Feed :=
  _ ← fail_when (len signed >? maxFeedBytes) (feed_error "advisory feed exceeds 1 MiB");
  match decode_signed signed with
  | None => Err (feed_error "decode signed feed: %w")
  | Some sf =>
      match base64_Decode sf.(sf_Signature) with
      | None => Err (feed_error "advisory feed signature is malformed")
      | Some sig =>
          _ ← fail_when (negb (lenl sig =? 64)) (feed_error "advisory feed signature is malformed");
          _ ← fail_when (negb (len pub =? 32) || negb (feed_ed25519_Verify pub (SignatureDomain +:+ sf.(sf_Payload)) (byte_string sig)))
                (feed_error "advisory feed signature does not verify");
          match decode_feed sf.(sf_Payload) with
          | None => Err (feed_error "decode advisory feed: %w")
          | Some (feed, more) =>
              _ ← fail_when more (feed_error "advisory feed has trailing data");
              _ ← fail_when (negb (feed.(fd_Format) =? FeedFormat)) (Errorf "advisory feed format %d is not supported" [AInt feed.(fd_Format)]);
              _ ← fail_when (feed.(fd_Revision) <? minRevision)
                    (Errorf "advisory feed revision %d is older than %d" [AInt feed.(fd_Revision); AInt minRevision]);
              _ ← fail_when (feed.(fd_IssuedAt) >? now + maxClockSkew) (feed_error "advisory feed is issued in the future");
              let validity := feed.(fd_ExpiresAt) - feed.(fd_IssuedAt) in
              _ ← fail_when ((validity <=? 0) || (validity >? maxFeedValidity)) (feed_error "advisory feed validity window is invalid");
              _ ← fail_when (lenl feed.(fd_Advisories) >? maxAdvisories)
                    (Errorf "advisory feed has more than %d advisories" [AInt maxAdvisories]);
              _ ← foldM check_advisory (0, []) feed.(fd_Advisories);
              Ok feed
          end
      end
  end.
End feed.

(** [Backoff]: failures are counted from zero. *)
Definition Backoff (failures retryAfter : Z) : Z :=
  let d := 6 * 60 * minute in
  let d := if failures <? 9 then Z.min d (Z.shiftl minute (Z.max failures 0)) else d in
  Z.max d retryAfter.
