(* ===== verification/AdvisorySpec.v ===== *)
(** What the advisory component promises: version comparison is an order, findings
    are complete, sorted and one per advisory and service, an update is automatic only
    on a confirmed digest of the signed feed, a merge drops exactly the duplicates, and
    a verified feed is signed, current and well formed. *)
From S2P Require Import Prelude GoStd Regex Advisory.
#[global] Open Scope Z_scope.

(** * Versions *)

Lemma compare_parts_same n i a b : (∀ j, (i <= j < i + n)%nat → nth j a 0 = nth j b 0) → compare_parts n i a b = 0.
Proof.
  revert i. induction n as [|n IH]; intros i Hj; [done|]. cbn [compare_parts]. cbv zeta.
  rewrite (proj2 (Z.eqb_eq _ _)) by (apply Hj; lia). cbn [negb]. apply IH. intros j Hj'. apply Hj. lia.
Qed.

(** The comparison from an index on: equal, or decided at the first difference. *)
Lemma compare_parts_cases n i a b :
  ((∀ j, (i <= j < i + n)%nat → nth j a 0 = nth j b 0) ∧ compare_parts n i a b = 0) ∨
  (∃ k, (i <= k < i + n)%nat ∧ (∀ j, (i <= j < k)%nat → nth j a 0 = nth j b 0) ∧
    (nth k a 0 < nth k b 0 ∧ compare_parts n i a b = -1 ∨ nth k b 0 < nth k a 0 ∧ compare_parts n i a b = 1)).
Proof.
  revert i. induction n as [|n IH]; intros i; [left; split; [lia|done]|]. cbn [compare_parts]. cbv zeta.
  destruct (nth i a 0 =? nth i b 0) eqn:E; cbn [negb]; zify_bool.
  - destruct (IH (S i)) as [[Heq ->]|(k & Hk & Hj & Hc)]; [left|right].
    + split; [|done]. intros j Hj. destruct (decide (j = i)) as [->|]; [done|]. apply Heq. lia.
    + exists k. split_and!; [lia|lia| |done]. intros j Hj'. destruct (decide (j = i)) as [->|]; [done|]. apply Hj. lia.
  - right. exists i. split_and!; [lia|lia|lia|]. destruct (nth i a 0 <? nth i b 0) eqn:El; zify_bool; [left|right]; split; (done || lia).
Qed.

Lemma compare_parts_more n m a b : (Nat.max (length a) (length b) <= n)%nat → (n <= m)%nat →
  compare_parts m 0 a b = compare_parts n 0 a b.
Proof.
  intros Hn Hm.
  destruct (compare_parts_cases n 0 a b) as [[Heq ->]|(k & Hk & Hj & Hc)];
    destruct (compare_parts_cases m 0 a b) as [[Heq' ->]|(k' & Hk' & Hj' & Hc')]; [done|..].
  - assert (nth k' a 0 = nth k' b 0) as E; [|rewrite E in Hc'; lia].
    destruct (decide (k' < n)%nat); [apply Heq; lia|]. rewrite !nth_overflow; (done || lia).
  - rewrite (Heq' k) in Hc by lia. lia.
  - assert (k = k') as <-; [|lia]. destruct (Nat.lt_trichotomy k k') as [Hlt|[->|Hlt]]; [|done|].
    + rewrite (Hj' k) in Hc by lia. lia.
    + rewrite (Hj k') in Hc' by lia. lia.
Qed.

(** ** Order of the common length *)

Lemma compare_parts_refl n a : compare_parts n 0 a a = 0.
Proof. by apply compare_parts_same. Qed.

Lemma compare_parts_flip n a b : compare_parts n 0 b a = - compare_parts n 0 a b.
Proof.
  destruct (compare_parts_cases n 0 a b) as [[Heq ->]|(k & Hk & Hj & Hc)];
    destruct (compare_parts_cases n 0 b a) as [[Heq' ->]|(k' & Hk' & Hj' & Hc')]; [done|..].
  - rewrite (Heq k') in Hc' by lia. lia.
  - rewrite (Heq' k) in Hc by lia. lia.
  - assert (k = k') as <-; [|lia]. destruct (Nat.lt_trichotomy k k') as [Hlt|[->|Hlt]]; [|done|].
    + rewrite (Hj' k) in Hc by lia. lia.
    + rewrite (Hj k') in Hc' by lia. lia.
Qed.

Lemma compare_parts_trans n a b c : compare_parts n 0 a b ≤ 0 → compare_parts n 0 b c ≤ 0 → compare_parts n 0 a c ≤ 0.
Proof.
  destruct (compare_parts_cases n 0 a c) as [[Heq ->]|(k & Hk & Hj & [[_ ->]|[Hlt ->]])]; [lia|lia|].
  intros Hab Hbc. exfalso.
  destruct (compare_parts_cases n 0 a b) as [[Hab1 _]|(p & Hp & Hab1 & Hc1)];
    destruct (compare_parts_cases n 0 b c) as [[Hbc1 _]|(q & Hq & Hbc1 & Hc2)].
  - rewrite Hab1, Hbc1 in Hlt by lia. lia.
  - destruct (Nat.lt_trichotomy q k) as [Hl|[->|Hl]].
    + specialize (Hj q). rewrite (Hab1 q) in Hj by lia. lia.
    + rewrite (Hab1 k) in Hlt by lia. lia.
    + rewrite (Hab1 k), (Hbc1 k) in Hlt by lia. lia.
  - destruct (Nat.lt_trichotomy p k) as [Hl|[->|Hl]].
    + specialize (Hj p). rewrite <-(Hbc1 p) in Hj by lia. lia.
    + rewrite <-(Hbc1 k) in Hlt by lia. lia.
    + rewrite (Hab1 k), (Hbc1 k) in Hlt by lia. lia.
  - pose proof (Hj p); pose proof (Hj q); pose proof (Hab1 q); pose proof (Hbc1 p); pose proof (Hab1 k); pose proof (Hbc1 k).
    destruct (Nat.lt_trichotomy p k) as [Hl|[Hl|Hl]]; destruct (Nat.lt_trichotomy q p) as [Hl'|[Hl'|Hl']];
      destruct (Nat.lt_trichotomy q k) as [Hq'|[Hq'|Hq']]; subst; lia.
Qed.

Lemma CompareVersions_at n a b : (Nat.max (length (versionParts a)) (length (versionParts b)) <= n)%nat →
  CompareVersions a b = compare_parts n 0 (versionParts a) (versionParts b).
Proof. intros Hn. unfold CompareVersions. symmetry. by apply compare_parts_more. Qed.

(** Not after, in the order of versions. *)
Definition at_most (a b : string) : Prop := CompareVersions a b ≤ 0.

(** Comparing versions is a total preorder: a version is equal to itself, swapping
    the arguments swaps the answer, the answer is -1, 0 or 1, and being at most is
    transitive, across versions with different numbers of segments. *)
Theorem CompareVersions_order a b c :
  CompareVersions a a = 0 ∧ CompareVersions b a = - CompareVersions a b ∧ -1 ≤ CompareVersions a b ≤ 1 ∧
  (at_most a b → at_most b c → at_most a c).
Proof.
  unfold at_most.
  set (n := Nat.max (length (versionParts a)) (Nat.max (length (versionParts b)) (length (versionParts c)))).
  rewrite !(CompareVersions_at n) by (subst n; lia). split_and!.
  - apply compare_parts_refl.
  - apply compare_parts_flip.
  - destruct (compare_parts_cases n 0 (versionParts a) (versionParts b)) as [[_ ->]|(k & _ & _ & [[_ ->]|[_ ->]])]; lia.
  - destruct (compare_parts_cases n 0 (versionParts a) (versionParts b)) as [[_ ->]|(k & _ & _ & [[_ ->]|[_ ->]])]; lia.
  - apply compare_parts_trans.
Qed.

(** * The order of findings *)

Lemma ltb_asym s t : String.ltb s t = true → String.ltb t s = false.
Proof. unfold String.ltb. rewrite (String.compare_antisym s t). by destruct (String.compare t s). Qed.

Lemma finding_less_asym f g : finding_less f g = true → finding_less g f = false.
Proof.
  unfold finding_less. cbv zeta. destruct (severity_rank (f_Severity f) =? severity_rank (f_Severity g)) eqn:E; zify_bool.
  - rewrite E, Z.eqb_refl. cbn [negb]. destruct (f_AdvisoryID f =? f_AdvisoryID g)%string eqn:Ei; cbn [negb].
    + apply String.eqb_eq in Ei. rewrite Ei, String.eqb_refl. apply ltb_asym.
    + rewrite String.eqb_sym, Ei. apply ltb_asym.
  - rewrite (proj2 (Z.eqb_neq _ _)) by done. cbn [negb]. intros Hl. zify_bool. apply Z.ltb_ge. lia.
Qed.

Definition not_before (f g : Finding) : Prop := finding_less g f = false.

Lemma insert_finding_perm f l : insert_finding f l ≡ₚ f :: l.
Proof. induction l as [|g l IH]; [done|]. cbn [insert_finding]. case_match; [|done]. rewrite IH. constructor. Qed.

Lemma insert_finding_sorted f l : Sorted not_before l → Sorted not_before (insert_finding f l).
Proof.
  induction l as [|g l IH]; intros Hl; cbn [insert_finding]; [by repeat constructor|].
  destruct (finding_less g f) eqn:E; [|by constructor; [|constructor]].
  apply Sorted_inv in Hl as [Hl Hg]. constructor; [by apply IH|]. pose proof (finding_less_asym _ _ E) as Ha.
  destruct l as [|h l]; cbn [insert_finding]; [by constructor|]. case_match; constructor; [by inversion Hg|done].
Qed.

Lemma sortFindings_perm l : sortFindings l ≡ₚ l.
Proof. induction l as [|f l IH]; [done|]. unfold sortFindings in *. cbn [foldr]. by rewrite insert_finding_perm, IH. Qed.

Lemma sortFindings_sorted l : Sorted not_before (sortFindings l).
Proof. induction l as [|f l IH]; [constructor|]. by apply insert_finding_sorted. Qed.

(** * Findings *)

Section findings.
Context (to_lower : string → string).

(** A target that is hit: the confidence of the hit. *)
Definition hit (svc : ServiceEvidence) (t : Target) : option string :=
  (λ c, c.1.1) <$> target_call to_lower svc t.

(** A target that makes an update automatic: an image of the signed feed, running by a
    listed digest and not yet by a fixed one, whose mutable tag can be resolved again. *)
Definition automatic (adv : Advisory) (svc : ServiceEvidence) (t : Target) : Prop :=
  ∃ image, t.(t_Image) = Some image ∧ adv.(a_Source) = SourceHakopod ∧ adv.(a_Action) = ActionUpdate ∧
    svc.(se_Kind) = KindImage ∧ svc.(se_Mutable) = true ∧ image.(it_FixedDigests) ≠ [] ∧
    svc.(se_Image) ≠ EmptyString ∧ NormalizeRepository to_lower svc.(se_Image) = NormalizeRepository to_lower image.(it_Repository) ∧
    svc.(se_Digest) ≠ EmptyString ∧ svc.(se_Digest) ∈ image.(it_AffectedDigests) ∧ svc.(se_Digest) ∉ image.(it_FixedDigests).

Lemma matchImage_confidence t svc c e : matchImage to_lower t svc = Some (c, e) → c = Confirmed ∨ c = Possible.
Proof.
  unfold matchImage. cbv zeta. destruct (_ || _); [done|]. destruct (_ && _) in |- *; [done|].
  destruct (_ && _) in |- *; [intros [= <- _]; by left|]. destruct (_ && _) in |- *; [intros [= <- _]; by right|done].
Qed.

Lemma matchImage_confirmed t svc : svc.(se_Kind) = KindImage →
  (∃ e, matchImage to_lower t svc = Some (Confirmed, e)) ↔
  svc.(se_Image) ≠ EmptyString ∧ NormalizeRepository to_lower svc.(se_Image) = NormalizeRepository to_lower t.(it_Repository) ∧
  svc.(se_Digest) ≠ EmptyString ∧ svc.(se_Digest) ∈ t.(it_AffectedDigests) ∧ svc.(se_Digest) ∉ t.(it_FixedDigests).
Proof.
  intros Hk. unfold matchImage. rewrite Hk. change (KindImage =? KindSource)%string with false. cbv zeta iota.
  rewrite <-is_empty_false, <-is_empty_false, <-one_of_spec, <-one_of_false.
  destruct (is_empty (se_Image svc)); cbn [orb]; [split; [by intros [? ?]|naive_solver]|].
  destruct (String.eqb_spec (NormalizeRepository to_lower (se_Image svc)) (NormalizeRepository to_lower (it_Repository t))) as [E|E];
    cbn [negb]; [|split; [by intros [? ?]|naive_solver]].
  destruct (is_empty (se_Digest svc)); cbn [negb andb]; [split; [|naive_solver]; intros [e He]; by destruct (_ && _) in He|].
  destruct (one_of (se_Digest svc) (it_FixedDigests t)); [split; [by intros [? ?]|naive_solver]|].
  destruct (one_of (se_Digest svc) (it_AffectedDigests t)); [split; [done|eauto]|].
  split; [|naive_solver]. intros [e He]. by destruct (_ && _) in He.
Qed.

Lemma hit_confidence svc t c : hit svc t = Some c → c = Confirmed ∨ c = Possible.
Proof.
  unfold hit, target_call. destruct (t_Image t) as [image|].
  - destruct (matchImage to_lower image svc) as [[conf e]|] eqn:Hm; [|done]. intros [= <-]. by eapply matchImage_confidence.
  - destruct (t_Runtime t); [|done]. cbv zeta. destruct (_ && _); [|done]. intros [= <-]. by left.
Qed.

(** What the targets seen so far have made of the finding. *)
Definition finding_inv (adv : Advisory) (svc : ServiceEvidence) (ts : list Target) (o : option Finding) : Prop :=
  match o with
  | None => ∀ t, t ∈ ts → hit svc t = None
  | Some f =>
      f.(f_AdvisoryID) = adv.(a_ID) ∧ f.(f_Service) = svc.(se_Service) ∧ f.(f_Severity) = adv.(a_Severity) ∧
      f.(f_Source) = adv.(a_Source) ∧
      (∃ t, t ∈ ts ∧ is_Some (hit svc t)) ∧
      (f.(f_Confidence) = Confirmed ∧ (∃ t, t ∈ ts ∧ hit svc t = Some Confirmed) ∨
       f.(f_Confidence) = Possible ∧ (∀ t, t ∈ ts → hit svc t ≠ Some Confirmed)) ∧
      (f.(f_AutoEligible) = true ↔ ∃ t, t ∈ ts ∧ automatic adv svc t) ∧
      (f.(f_AutoEligible) = true → f.(f_Confidence) = Confirmed ∧
         ∃ t image, t ∈ ts ∧ automatic adv svc t ∧ t.(t_Image) = Some image ∧ f.(f_FixedDigests) = image.(it_FixedDigests))
  end.

(** The condition under which [add] marks a finding, for the image it is given. *)
Definition marks (adv : Advisory) (svc : ServiceEvidence) (conf : string) (image : option ImageTarget) : bool :=
  match image with
  | Some image => (conf =? Confirmed)%string && (adv.(a_Source) =? SourceHakopod)%string && (adv.(a_Action) =? ActionUpdate)%string &&
      (svc.(se_Kind) =? KindImage)%string && svc.(se_Mutable) && (0 <? lenl image.(it_FixedDigests))
  | None => false
  end.

Lemma lenl_pos {A} (l : list A) : (0 <? lenl l) = true ↔ l ≠ [].
Proof. destruct l; cbn; naive_solver. Qed.

Lemma target_call_image svc t conf evidence image : target_call to_lower svc t = Some (conf, evidence, image) →
  ∀ i, image = Some i → t.(t_Image) = Some i ∧ matchImage to_lower i svc = Some (conf, evidence).
Proof.
  unfold target_call. destruct (t_Image t) as [i|].
  - destruct (matchImage to_lower i svc) as [[c e]|] eqn:Hm; [|done]. intros [= <- <- <-] ? [= <-]. done.
  - destruct (t_Runtime t); [|done]. cbv zeta. destruct (_ && _); [|done]. by intros [= _ _ <-].
Qed.

Lemma marks_true adv svc conf image : marks adv svc conf image = true ↔ ∃ i, image = Some i ∧ conf = Confirmed ∧
  adv.(a_Source) = SourceHakopod ∧ adv.(a_Action) = ActionUpdate ∧ svc.(se_Kind) = KindImage ∧ svc.(se_Mutable) = true ∧
  i.(it_FixedDigests) ≠ [].
Proof.
  unfold marks. destruct image as [i|]; [|split; [done|by intros (? & ? & _)]].
  rewrite !andb_true_iff, !String.eqb_eq, lenl_pos. naive_solver.
Qed.

(** A target is automatic exactly when its call of [add] marks the finding. *)
Lemma automatic_marks adv svc t : automatic adv svc t ↔
  ∃ conf evidence image, target_call to_lower svc t = Some (conf, evidence, image) ∧ marks adv svc conf image = true.
Proof.
  setoid_rewrite marks_true. split.
  - intros (i & Hi & Hsrc & Hact & Hkind & Hmut & Hfixed & Himage).
    apply matchImage_confirmed in Himage as [e He]; [|done]. exists Confirmed, e, (Some i). split; [|eauto 10].
    unfold target_call. by rewrite Hi, He.
  - intros (conf & e & image & Hc & i & -> & -> & Hsrc & Hact & Hkind & Hmut & Hfixed).
    destruct (target_call_image _ _ _ _ _ Hc i eq_refl) as [Hi Hm]. exists i. split_and!; try done;
      by apply (matchImage_confirmed i svc Hkind); eexists.
Qed.

Lemma add_some adv svc o conf evidence image : ∃ f, add adv svc o conf evidence image = Some f ∧
  f.(f_AutoEligible) = match o with Some g => g.(f_AutoEligible) | None => false end || marks adv svc conf image ∧
  f.(f_Confidence) = match o with Some g => if (conf =? Confirmed)%string then Confirmed else g.(f_Confidence) | None => conf end ∧
  f.(f_FixedDigests) = (match image with
                        | Some i => if marks adv svc conf image then i.(it_FixedDigests)
                                    else match o with Some g => g.(f_FixedDigests) | None => [] end
                        | None => match o with Some g => g.(f_FixedDigests) | None => [] end
                        end) ∧
  (match o with Some g => f.(f_AdvisoryID) = g.(f_AdvisoryID) ∧ f.(f_Service) = g.(f_Service) ∧ f.(f_Severity) = g.(f_Severity) ∧
                          f.(f_Source) = g.(f_Source)
              | None => f.(f_AdvisoryID) = adv.(a_ID) ∧ f.(f_Service) = svc.(se_Service) ∧ f.(f_Severity) = adv.(a_Severity) ∧
                        f.(f_Source) = adv.(a_Source) end).
Proof.
  unfold add. cbv zeta. change (match image with
    | Some image0 => (conf =? Confirmed)%string && (a_Source adv =? SourceHakopod)%string && (a_Action adv =? ActionUpdate)%string &&
        (se_Kind svc =? KindImage)%string && se_Mutable svc && (0 <? lenl (it_FixedDigests image0)) | None => false end)
    with (marks adv svc conf image).
  destruct image as [i|]; cbn [marks];
    [destruct (_ && (0 <? lenl _)) eqn:Em|]; (eexists; split; [reflexivity|]);
    destruct o as [g|]; cbn; rewrite ?orb_true_r, ?orb_false_r; auto 10.
Qed.

Lemma snoc_exists (P : Target → Prop) ts t : (∃ x, x ∈ ts ++ [t] ∧ P x) ↔ (∃ x, x ∈ ts ∧ P x) ∨ P t.
Proof. setoid_rewrite elem_of_app. setoid_rewrite list_elem_of_singleton. naive_solver. Qed.

Lemma snoc_forall (P : Target → Prop) ts t : (∀ x, x ∈ ts ++ [t] → P x) ↔ (∀ x, x ∈ ts → P x) ∧ P t.
Proof. setoid_rewrite elem_of_app. setoid_rewrite list_elem_of_singleton. naive_solver. Qed.

(** A target that is not hit changes nothing. *)
Lemma quiet_target adv svc ts o t : target_call to_lower svc t = None → finding_inv adv svc ts o → finding_inv adv svc (ts ++ [t]) o.
Proof.
  intros Hc. assert (hit svc t = None) as Hh by (unfold hit; by rewrite Hc).
  assert (¬ automatic adv svc t) as Ha by (rewrite automatic_marks, Hc; by intros (? & ? & ? & ? & _)).
  unfold finding_inv. destruct o as [f|]; [|by rewrite snoc_forall].
  rewrite !snoc_exists, snoc_forall, Hh. intros (H1 & H2 & H3 & H4 & H5 & H6 & H7 & H8). split_and!; [done..|by left| | |].
  - destruct H6 as [[A B]|[A B]]; [left; split; [done|by left]|by right].
  - rewrite H7. tauto.
  - intros Hauto. destruct (H8 Hauto) as (Hconf & t' & image & Ht' & Hrest). split; [done|]. exists t', image. rewrite elem_of_app. auto.
Qed.

Lemma match_target_inv adv svc ts o t : finding_inv adv svc ts o → finding_inv adv svc (ts ++ [t]) (match_target to_lower adv svc o t).
Proof.
  unfold match_target. destruct (target_call to_lower svc t) as [[[conf e] image]|] eqn:Hc; [|by apply quiet_target].
  assert (hit svc t = Some conf) as Hh by (unfold hit; by rewrite Hc).
  assert (automatic adv svc t ↔ marks adv svc conf image = true) as Ha.
  { rewrite automatic_marks, Hc. split; [by intros (? & ? & ? & [= <- <- <-] & ?)|eauto]. }
  assert (marks adv svc conf image = true → conf = Confirmed ∧ ∃ i, image = Some i ∧ t.(t_Image) = Some i) as Hmark.
  { rewrite marks_true. intros (i & Hi & -> & _). split; [done|]. exists i. split; [done|]. by eapply target_call_image. }
  pose proof (hit_confidence _ _ _ Hh) as Hconf.
  destruct (add_some adv svc o conf e image) as (f & -> & Hauto & Hfc & Hfixed & Hsame). intros Hinv. cbn [finding_inv].
  rewrite !snoc_exists, snoc_forall, Hh, Hauto, Hfc, Ha. destruct o as [g|]; cbn [finding_inv] in Hinv.
  - destruct Hinv as (H1 & H2 & H3 & H4 & H5 & H6 & H7 & H8). destruct Hsame as (-> & -> & -> & ->). split_and!; try done.
    + by right.
    + destruct Hconf as [->| ->]; cbn; [left; split; [done|by right]|].
      destruct H6 as [[A B]|[A B]]; [left; split; [done|by left]|by right].
    + rewrite orb_true_iff, H7. tauto.
    + intros Hor. destruct (marks adv svc conf image) eqn:Em.
      * destruct (Hmark eq_refl) as (-> & i & -> & Hi). split; [done|]. exists t, i. rewrite Hfixed, elem_of_app, list_elem_of_singleton. tauto.
      * rewrite orb_false_r in Hor. destruct (H8 Hor) as (-> & t' & i & Ht' & Hrest). split; [by destruct (conf =? Confirmed)%string|].
        exists t', i. rewrite elem_of_app. destruct image; rewrite Hfixed; auto.
  - destruct Hsame as (-> & -> & -> & ->). assert (∀ x, x ∈ ts → ¬ automatic adv svc x) as Hno.
    { intros x Hx Hx'. apply automatic_marks in Hx' as (? & ? & ? & Hcall & _). specialize (Hinv x Hx). unfold hit in Hinv. by rewrite Hcall in Hinv. }
    cbn [orb]. split_and!; try done.
    + by right.
    + destruct Hconf as [->| ->]; [left; split; [done|by right]|right]. split; [done|]. split; [|done]. intros x Hx. by rewrite (Hinv x Hx).
    + naive_solver.
    + intros Em. rewrite Em in Hfixed. destruct (Hmark Em) as (-> & i & -> & Hi). split; [done|]. exists t, i.
      rewrite elem_of_app, list_elem_of_singleton. tauto.
Qed.

Lemma match_targets_inv adv svc ts : ∀ pre o, finding_inv adv svc pre o →
  finding_inv adv svc (pre ++ ts) (fold_left (match_target to_lower adv svc) ts o).
Proof.
  induction ts as [|t ts IH]; intros pre o Hinv; cbn [fold_left]; [by rewrite app_nil_r|].
  replace (pre ++ t :: ts) with ((pre ++ [t]) ++ ts) by by rewrite <-app_assoc. by apply IH, match_target_inv.
Qed.

Lemma match_service_inv adv svc : finding_inv adv svc adv.(a_Targets) (match_service to_lower adv svc).
Proof.
  pose proof (match_targets_inv adv svc adv.(a_Targets) [] None) as H. cbn [app] in H. unfold match_service.
  destruct (fold_left _ _ None) as [f|]; cbn [fmap option_fmap option_map]; apply H; intros t; by rewrite elem_of_nil.
Qed.

(** The findings of an inventory: sorted by severity, advisory and service; one for
    an advisory and a service exactly when some target of the advisory is hit there;
    confirmed exactly when some hit is. *)
Theorem Match_complete advisories inv :
  Sorted not_before (Match to_lower advisories inv) ∧
  (∀ f, f ∈ Match to_lower advisories inv ↔
    ∃ adv svc, adv ∈ advisories ∧ svc ∈ inv.(i_Services) ∧ match_service to_lower adv svc = Some f) ∧
  (length (Match to_lower advisories inv) <= length advisories * length inv.(i_Services))%nat ∧
  (∀ adv svc, match_service to_lower adv svc = None ↔ ∀ t, t ∈ adv.(a_Targets) → hit svc t = None) ∧
  (∀ adv svc f, match_service to_lower adv svc = Some f → f.(f_AdvisoryID) = adv.(a_ID) ∧ f.(f_Service) = svc.(se_Service) ∧
    (f.(f_Confidence) = Confirmed ↔ ∃ t, t ∈ adv.(a_Targets) ∧ hit svc t = Some Confirmed)).
Proof.
  unfold Match. split; [apply sortFindings_sorted|]. split; [|split; [|split]].
  - intros f. rewrite sortFindings_perm, list_elem_of_bind. setoid_rewrite list_elem_of_bind. split.
    + intros (adv & (svc & Hf & Hsvc) & Hadv). exists adv, svc. split_and!; [done..|]. destruct (match_service to_lower adv svc); set_solver.
    + intros (adv & svc & Hadv & Hsvc & Hf). exists adv. split; [|done]. exists svc. rewrite Hf. set_solver.
  - rewrite sortFindings_perm. induction advisories as [|adv advs IH]; [cbn; lia|]. cbn [mbind list_bind length] in *.
    rewrite length_app. cbn. enough (length (i_Services inv ≫= λ svc, option_list (match_service to_lower adv svc)) <= length (i_Services inv))%nat by lia.
    clear. induction (i_Services inv) as [|svc l IH]; [cbn; lia|]. cbn [mbind list_bind length] in *. rewrite length_app.
    destruct (match_service to_lower adv svc); cbn; lia.
  - intros adv svc. pose proof (match_service_inv adv svc) as Hi. destruct (match_service to_lower adv svc) as [f|]; cbn in Hi; [|tauto].
    destruct Hi as (_ & _ & _ & _ & (t & Ht & [c Hc]) & _). split; [done|]. intros Hall. by rewrite (Hall t Ht) in Hc.
  - intros adv svc f Hf. pose proof (match_service_inv adv svc) as Hi. rewrite Hf in Hi. cbn in Hi.
    destruct Hi as (-> & -> & _ & _ & _ & Hc & _). split_and!; [done..|]. destruct Hc as [[-> Hc]|[-> Hc]]; [naive_solver|].
    split; [done|]. intros (t & Ht & He). by apply Hc in He.
Qed.

(** C29: An update is offered as automatic exactly when the advisory comes from the
    signed feed, asks for an update and names the running digest of a mutable image
    service as affected and not fixed; the finding is then confirmed and carries the
    fixed digests of such a target. *)
Theorem automatic_update_safe adv svc f : match_service to_lower adv svc = Some f →
  (f.(f_AutoEligible) = true ↔ ∃ t, t ∈ adv.(a_Targets) ∧ automatic adv svc t) ∧
  (f.(f_AutoEligible) = true → f.(f_Confidence) = Confirmed ∧ f.(f_Source) = SourceHakopod ∧
    ∃ t image, t ∈ adv.(a_Targets) ∧ automatic adv svc t ∧ t.(t_Image) = Some image ∧ f.(f_FixedDigests) = image.(it_FixedDigests) ∧
      svc.(se_Digest) ∉ f.(f_FixedDigests)).
Proof.
  intros Hf. pose proof (match_service_inv adv svc) as Hi. rewrite Hf in Hi. cbn in Hi.
  destruct Hi as (_ & _ & _ & Hsrc & _ & _ & Hiff & Hauto). split; [done|]. intros Ht. destruct (Hauto Ht) as (Hc & t & i & Hin & Ha & Hi & Hfd).
  pose proof Ha as Ha'. destruct Ha as (i' & Hi' & Hs & _ & _ & _ & _ & _ & _ & _ & _ & Hn). rewrite Hi in Hi'. injection Hi' as <-.
  split_and!; [done|by rewrite Hsrc|]. exists t, i. rewrite Hfd. auto.
Qed.
End findings.

(** * Merge *)

Section merging.
Context (to_lower : string → string).
Abbreviation keys := (finding_keys to_lower).

(** A finding of the second source repeats one of the first: same service, a shared
    identifier, and at least as strong. *)
Definition repeats (primary : list Finding) (f : Finding) : Prop :=
  ∃ p key, p ∈ primary ∧ key ∈ keys p ∧ key ∈ keys f ∧ (p.(f_Confidence) = Confirmed ∨ f.(f_Confidence) ≠ Confirmed).

(** What the map of seen keys knows of the findings that were read. *)
Definition seen_inv (done : list (string * string)) (seen : gmap string string) : Prop :=
  ∀ key, match seen !! key with
         | None => ∀ c, (key, c) ∉ done
         | Some c => (key, c) ∈ done ∧ (c ≠ Confirmed → (key, Confirmed) ∉ done)
         end.

Lemma see_key_inv done seen conf key : seen_inv done seen → seen_inv (done ++ [(key, conf)]) (see_key conf seen key).
Proof.
  intros Hinv k. specialize (Hinv k) as Hk. unfold see_key.
  assert (∀ c, (k, c) ∈ done ++ [(key, conf)] ↔ (k, c) ∈ done ∨ k = key ∧ c = conf) as Hin.
  { intros c. rewrite elem_of_app, list_elem_of_singleton. naive_solver. }
  destruct (decide (k = key)) as [->|Hne].
  - destruct (seen !! key) as [c|] eqn:Hs; cbn [default].
    + change (default EmptyString (Some c)) with c. change (id c) with c. destruct (String.eqb_spec c Confirmed) as [->|Hc].
      * change (negb true) with false. cbv iota. rewrite Hs, Hin. naive_solver.
      * change (negb false) with true. cbv iota. rewrite lookup_insert_eq, !Hin. naive_solver.
    + match goal with |- context [negb ?b] => change (negb b) with true end. cbv iota. rewrite lookup_insert_eq, !Hin. naive_solver.
  - assert ((if negb (default EmptyString (seen !! key) =? Confirmed)%string then <[key:=conf]> seen else seen) !! k = seen !! k) as ->.
    { destruct (negb _); [by rewrite lookup_insert_ne|done]. }
    destruct (seen !! k); [rewrite !Hin; naive_solver|]. intros c. rewrite Hin. naive_solver.
Qed.

Lemma see_keys_inv conf ks : ∀ done seen, seen_inv done seen →
  seen_inv (done ++ ((λ k, (k, conf)) <$> ks)) (fold_left (see_key conf) ks seen).
Proof.
  induction ks as [|k ks IH]; intros done seen Hinv; cbn [fold_left fmap list_fmap]; [by rewrite app_nil_r|].
  replace (done ++ (k, conf) :: _) with ((done ++ [(k, conf)]) ++ ((λ k, (k, conf)) <$> ks)) by by rewrite <-app_assoc.
  by apply IH, see_key_inv.
Qed.

Definition claims (primary : list Finding) : list (string * string) :=
  primary ≫= λ p, (λ k, (k, p.(f_Confidence))) <$> keys p.

Lemma see_findings_inv primary : ∀ done seen, seen_inv done seen →
  seen_inv (done ++ claims primary) (fold_left (see_finding to_lower) primary seen).
Proof.
  induction primary as [|p l IH]; intros done seen Hinv; cbn [fold_left]; [unfold claims; cbn; by rewrite app_nil_r|].
  unfold claims. rewrite bind_cons, app_assoc. apply IH. by apply see_keys_inv.
Qed.

Lemma elem_of_claims primary key c : (key, c) ∈ claims primary ↔ ∃ p, p ∈ primary ∧ key ∈ keys p ∧ p.(f_Confidence) = c.
Proof.
  unfold claims. rewrite list_elem_of_bind. split.
  - intros (p & Hk & Hp). apply list_elem_of_fmap in Hk as (k & [= -> ->] & Hk). eauto.
  - intros (p & Hp & Hk & <-). exists p. split; [|done]. apply list_elem_of_fmap. eauto.
Qed.

Lemma covered_repeats primary f :
  covered to_lower (fold_left (see_finding to_lower) primary ∅) f = true ↔ repeats primary f.
Proof.
  pose proof (see_findings_inv primary [] ∅) as Hinv. cbn [app] in Hinv.
  assert (seen_inv [] ∅) as H0 by (intros k; rewrite lookup_empty; intros c; apply not_elem_of_nil). specialize (Hinv H0). clear H0.
  unfold covered. rewrite existsb_exists. setoid_rewrite <-list_elem_of_In. unfold repeats. split.
  - intros (key & Hk & Hc). specialize (Hinv key). destruct (_ !! key) as [c|]; [|done]. destruct Hinv as [Hin _].
    apply elem_of_claims in Hin as (p & Hp & Hkp & Hpc). exists p, key. split_and!; [done..|].
    apply orb_true_iff in Hc as [Hc|Hc]; [left; apply String.eqb_eq in Hc; congruence|right; by apply negb_true_iff, String.eqb_neq in Hc].
  - intros (p & key & Hp & Hkp & Hkf & Hor). exists key. split; [done|]. specialize (Hinv key).
    assert ((key, p.(f_Confidence)) ∈ claims primary) as Hin by (apply elem_of_claims; eauto).
    destruct (_ !! key) as [c|]; [|by apply Hinv in Hin]. destruct Hinv as [_ Hc]. destruct (String.eqb_spec c Confirmed) as [->|Hne]; [done|].
    cbn [orb]. apply negb_true_iff, String.eqb_neq. destruct Hor as [Hp'|]; [|done]. rewrite Hp' in Hin. by apply Hc in Hin.
Qed.

(** A merge keeps every finding of the first source and exactly those of the second
    that repeat none of them, a confirmed one also against a merely possible twin; the
    result is sorted and nothing is added. *)
Theorem Merge_exact primary secondary :
  Sorted not_before (Merge to_lower primary secondary) ∧
  (∃ kept, Merge to_lower primary secondary ≡ₚ primary ++ kept ∧ sublist kept secondary) ∧
  (∀ f, f ∈ Merge to_lower primary secondary ↔ f ∈ primary ∨ f ∈ secondary ∧ ¬ repeats primary f).
Proof.
  unfold Merge. split_and!.
  - apply sortFindings_sorted.
  - eexists. split; [apply sortFindings_perm|apply sublist_filter].
  - intros f. rewrite sortFindings_perm, elem_of_app, list_elem_of_filter, <-covered_repeats, not_true_iff_false. tauto.
Qed.
End merging.

(** * Verified feeds *)

Section verified.
Context `{FeedCodec}.

(** An advisory the feed may carry. *)
Record sound_advisory (a : Advisory) : Prop := mkSoundAdvisory {
  sa_source : a.(a_Source) = SourceHakopod;
  sa_severity : a.(a_Severity) ∈ [Critical; High; Moderate; Low];
  sa_url : HasPrefix a.(a_URL) "https://" = true;
  sa_targets : 1 ≤ lenl a.(a_Targets) ≤ maxTargets;
  sa_one : ∀ t, t ∈ a.(a_Targets) → non_nil t.(t_Image) ≠ non_nil t.(t_Runtime);
  sa_fix : a.(a_Action) = ActionUpdate → ∀ t, t ∈ a.(a_Targets) →
    (∀ i, t.(t_Image) = Some i → i.(it_FixedDigests) ≠ []) ∧
    (∀ r, t.(t_Runtime) = Some r → ∀ range, range ∈ r.(rt_Ranges) → range.(r_Fixed) ≠ EmptyString);
}.

Lemma ranges_fixable (l : list Range) b b' :
  foldM (λ fixable r, _ ← fail_when (is_empty r.(r_Introduced)) (feed_error "range introduced is required");
    Ok (fixable && negb (is_empty r.(r_Fixed)))) b l = Ok b' →
  b' = true → b = true ∧ ∀ range, range ∈ l → range.(r_Fixed) ≠ EmptyString.
Proof.
  revert b. induction l as [|r l IH]; intros b; cbn [foldM]; [intros [= <-]; split; [done|by intros ? ?%elem_of_nil]|].
  intros Hr Hb. inv_ok. destruct (IH _ Hr eq_refl) as [Hf Hl]. apply andb_true_iff in Hf as [-> Hf].
  split; [done|]. intros range [->|Hin]%elem_of_cons; [|by apply Hl]. by apply negb_true_iff, is_empty_false in Hf.
Qed.

Lemma validate_target_Ok b t b' : validate_target b t = Ok b' → non_nil t.(t_Image) ≠ non_nil t.(t_Runtime) ∧
  (b' = true → b = true ∧ (∀ i, t.(t_Image) = Some i → i.(it_FixedDigests) ≠ []) ∧
    (∀ r, t.(t_Runtime) = Some r → ∀ range, range ∈ r.(rt_Ranges) → range.(r_Fixed) ≠ EmptyString)).
Proof.
  unfold validate_target. destruct (t_Image t) as [image|], (t_Runtime t) as [rt|]; [done|..|done].
  - intros Hr. apply bind_unit_Ok in Hr as [_ Hr]. apply bind_unit_Ok in Hr as [_ Hr]. injection Hr as <-. split; [done|].
    intros [-> Hl]%andb_true_iff. split_and!; [done| |done]. intros i [= <-]. by apply lenl_pos.
  - intros Hr. apply bind_unit_Ok in Hr as [_ Hr]. apply bind_unit_Ok in Hr as [_ Hr]. split; [done|].
    intros Hb. destruct (ranges_fixable _ _ _ Hr Hb) as [-> Hl]. split_and!; [done..|]. by intros r [= <-].
Qed.

Lemma targets_fixable (l : list Target) : ∀ b b', foldM validate_target b l = Ok b' →
  (∀ t, t ∈ l → non_nil t.(t_Image) ≠ non_nil t.(t_Runtime)) ∧
  (b' = true → b = true ∧ ∀ t, t ∈ l → (∀ i, t.(t_Image) = Some i → i.(it_FixedDigests) ≠ []) ∧
    (∀ r, t.(t_Runtime) = Some r → ∀ range, range ∈ r.(rt_Ranges) → range.(r_Fixed) ≠ EmptyString)).
Proof.
  induction l as [|t l IH]; intros b b'; cbn [foldM].
  - intros [= <-]. setoid_rewrite elem_of_nil. naive_solver.
  - intros Hr. apply bind_Ok in Hr as (b1 & Ht & Hr). destruct (validate_target_Ok _ _ _ Ht) as [H1 H2]. destruct (IH _ _ Hr) as [H3 H4].
    split; [by intros x [->|Hx]%elem_of_cons; [|apply H3]|]. intros Hb. destruct (H4 Hb) as [-> H5]. destruct (H2 eq_refl) as [-> H6].
    split; [done|]. intros x [->|Hx]%elem_of_cons; [done|by apply H5].
Qed.

Lemma validateAdvisory_sound a u : validateAdvisory a = Ok u → sound_advisory a.
Proof.
  unfold validateAdvisory. intros Hr. inv_ok. split_orb. zify_bool.
  match goal with H : foldM validate_target _ _ = Ok _ |- _ => destruct (targets_fixable _ _ _ H) as [Hone Hfix] end.
  split; try done.
  - by apply String.eqb_eq.
  - by apply one_of_spec.
  - intros Hact. match goal with H : _ && _ = false |- _ => rewrite Hact in H; cbn in H; apply negb_false_iff in H; by apply Hfix in H as [_ ?] end.
Qed.

Lemma check_advisories_sound l : ∀ i seen st, foldM check_advisory (i, seen) l = Ok st →
  Forall sound_advisory l ∧ NoDup (a_ID <$> l) ∧ (∀ a, a ∈ l → (a.(a_ID) ∉ seen) ∧ a.(a_ID) ≠ EmptyString).
Proof.
  induction l as [|a l IH]; intros i seen st; cbn [foldM].
  - intros _. split_and!; [constructor|constructor|]. by intros a ?%elem_of_nil.
  - intros Hr. apply bind_Ok in Hr as ([i' seen'] & Ha & Hr). unfold check_advisory in Ha. inv_ok. injection Ha as <- <-.
    destruct (IH _ _ _ Hr) as (H1 & H2 & H3). split_orb. split_and!.
    + constructor; [by eapply validateAdvisory_sound|done].
    + cbn. constructor; [|done]. intros (b & Hb & Hin)%list_elem_of_fmap. destruct (H3 b Hin) as [Hn _]. apply Hn. rewrite <-Hb. by left.
    + intros b [->|Hin]%elem_of_cons; [split; [by apply one_of_false|by apply is_empty_false]|].
      destruct (H3 b Hin) as [Hn He]. split; [|done]. intros Hs. apply Hn. by right.
Qed.

(** A feed that verifies was signed by the key for this purpose over exactly its
    payload, is not older than the revision already held, was not issued in the
    future and lives at most 31 days; its advisories are distinct and well formed,
    and those that ask for an update name a fix on every target. *)
Theorem Verify_sound signed pub now minRevision feed : Verify signed pub now minRevision = Ok feed →
  (∃ sf sig, decode_signed signed = Some sf ∧ base64_Decode sf.(sf_Signature) = Some sig ∧
    feed_ed25519_Verify pub (SignatureDomain +:+ sf.(sf_Payload)) (byte_string sig) = true ∧
    decode_feed sf.(sf_Payload) = Some (feed, false)) ∧
  feed.(fd_Format) = FeedFormat ∧ minRevision ≤ feed.(fd_Revision) ∧ feed.(fd_IssuedAt) ≤ now + maxClockSkew ∧
  0 < feed.(fd_ExpiresAt) - feed.(fd_IssuedAt) ≤ maxFeedValidity ∧ lenl feed.(fd_Advisories) ≤ maxAdvisories ∧
  Forall sound_advisory feed.(fd_Advisories) ∧ NoDup (a_ID <$> feed.(fd_Advisories)).
Proof.
  unfold Verify. intros Hr. apply bind_unit_Ok in Hr as [_ Hr]. destruct (decode_signed signed) as [sf|]; [|done].
  destruct (base64_Decode (sf_Signature sf)) as [sig|] eqn:Hsig; [|done]. apply bind_unit_Ok in Hr as [_ Hr].
  apply bind_unit_Ok in Hr as [Hver Hr]. destruct (decode_feed (sf_Payload sf)) as [[f more]|] eqn:Hf; [|done]. cbv zeta in Hr.
  inv_ok. split_orb. zify_bool.
  match goal with H : foldM check_advisory _ _ = Ok _ |- _ => destruct (check_advisories_sound _ _ _ _ H) as (Hsound & Hnd & _) end.
  split; [exists sf, sig; auto|]. split_and!; (done || lia).
Qed.
End verified.

(** * Witnesses *)

Module AdvisoryExample.
Definition plain_lower (s : string) : string := s.
Definition sha (c : string) : string := "sha256:" +:+ Join (replicate 64 c) "".
Definition node_image : ImageTarget := mkImageTarget "node" [sha "a"] ["22"] [sha "b"].
Definition advisory : Advisory := mkAdvisory "HAKOPOD-1" 1 SourceHakopod "Title" "Message" High "https://example.com/a" 0 ActionUpdate
  ["CVE-1"] [mkTarget (Some node_image) None].
Definition service : ServiceEvidence := mkServiceEvidence "web" KindImage "node:22" (sha "a") true ∅ false "" false "".
Definition inventory : Inventory := mkInventory "app" "dep" 1 [service] [] 0.
Definition finding : Finding := default
  (mkFinding "" 0 "" "" "" "" "" "" "" "" "" false [] []) (match_service plain_lower advisory service).
Definition feed : Feed := mkFeed 1 7 100 (100 + minute) [advisory].
Definition codec : FeedCodec := {|
  feed_ed25519_Verify := λ _ _ _, true;
  decode_signed := λ s, Some (mkSignedFeed s (Join (replicate 85 "A") "" +:+ "A=="));
  decode_feed := λ _, Some (feed, false);
|}.
Definition key : string := Join (replicate 32 "k") "".
#[local] Existing Instance codec.
Definition verified : result Feed := Verify "payload" key 100 7.
End AdvisoryExample.

Lemma automatic_update_safe_witness :
  AdvisoryExample.finding.(f_AutoEligible) = true ∧ AdvisoryExample.finding.(f_Confidence) = Confirmed ∧
  AdvisoryExample.service.(se_Digest) ∉ AdvisoryExample.finding.(f_FixedDigests).
Proof.
  assert (AdvisoryExample.finding.(f_AutoEligible) = true) as Ha by (vm_compute; reflexivity).
  pose proof (automatic_update_safe AdvisoryExample.plain_lower AdvisoryExample.advisory AdvisoryExample.service
    AdvisoryExample.finding ltac:(vm_compute; reflexivity)) as [_ H].
  split; [exact Ha|]. destruct (H Ha) as (Hc & _ & t & i & _ & _ & _ & _ & Hd). split; [exact Hc|exact Hd].
Defined.

Lemma Verify_sound_witness : (7 ≤ AdvisoryExample.feed.(fd_Revision)) ∧ Forall sound_advisory AdvisoryExample.feed.(fd_Advisories).
Proof.
  pose proof (Verify_sound (H := AdvisoryExample.codec) "payload" AdvisoryExample.key 100 7 AdvisoryExample.feed ltac:(vm_compute; reflexivity))
    as (_ & _ & Hr & _ & _ & _ & Hs & _).
  split; [exact Hr|exact Hs].
Defined.
