(* ===== verification/AdvisoryOsv.v ===== *)
(** The OSV.dev source of advisories (internal/advisory/osv.go): the queries it sends
    page by page, the vulnerabilities it reads within its caps, and the advisory made
    of each. The HTTP exchange and the decoding of its JSON are the server's side, a
    class here. The four workers read in any order; a failure of any of them is a
    failure of the query. *)
From S2P Require Import Prelude GoStd Escapes Advisory.
#[global] Open Scope Z_scope.

Definition osvMaxQueries : Z := 32.
Definition osvMaxVulns : Z := 200.
Definition osvMaxPages : nat := 3.
Definition osvMessageMax : nat := 600.

Definition osvCoverage : list (string * (string * string)) :=
  [("go", ("Go", "stdlib")); ("node", ("Bitnami", "node")); ("python", ("Bitnami", "python")); ("php", ("Bitnami", "php"));
   ("ruby", ("Bitnami", "ruby")); ("java", ("Bitnami", "java"))].

Definition Covered (runtime : string) : option (string * string) :=
  snd <$> List.find (λ x, (x.1 =? runtime)%string) osvCoverage.

Record osvEvent : Type := mkOsvEvent { e_Introduced : string; e_Fixed : string; e_LastAffected : string }.
Record osvRange : Type := mkOsvRange { or_Type : string; or_Events : list osvEvent }.
Record osvAffected : Type := mkOsvAffected {
  oa_Name : string;
  oa_Ecosystem : string;
  oa_Ranges : list osvRange;
  oa_Severity : string;
}.

(** Times are nanoseconds of the Unix epoch. *)
Record osvVuln : Type := mkOsvVuln {
  v_ID : string;
  v_Aliases : list string;
  v_Summary : string;
  v_Details : string;
  v_Modified : Z;
  v_Published : Z;
  v_Withdrawn : string;
  v_Severity : string;
  v_Affected : list osvAffected;
}.

Definition zero_time : Z := -62135596800 * 10 ^ 9.
Definition Unix (t : Z) : Z := t / 10 ^ 9.

(** * One vulnerability *)

(** The loop of pairEvents: the ranges closed so far and the open one. *)
Definition pair_event (st : list Range * option Range) (e : osvEvent) : list Range * option Range :=
  let '(out, open) := st in
  if negb (is_empty e.(e_Introduced)) then (out ++ option_list open, Some (mkRange e.(e_Introduced) EmptyString EmptyString))
  else match open with
  | Some r =>
      if negb (is_empty e.(e_Fixed)) then (out ++ [mkRange r.(r_Introduced) e.(e_Fixed) r.(r_LastAffected)], None)
      else if negb (is_empty e.(e_LastAffected)) then (out ++ [mkRange r.(r_Introduced) r.(r_Fixed) e.(e_LastAffected)], None)
      else st
  | None => st
  end.

Definition pairEvents (events : list osvEvent) : list Range :=
  let '(out, open) := fold_left pair_event events ([], None) in out ++ option_list open.

Definition osvSeverity (s : string) : string :=
  let u := ToUpper s in
  if (u =? "CRITICAL")%string then Critical
  else if (u =? "HIGH")%string then High
  else if (u =? "LOW")%string then Low else Moderate.

(** [string([]rune(s)[:n]) + ellipsis] when there are more than [n] runes. A byte that
    is not UTF-8 has become the replacement character. *)
Definition replacement : string := chr 239 +:+ chr 191 +:+ chr 189.
Definition ellipsis : string := chr 226 +:+ chr 128 +:+ chr 166.
Definition rune_text (x : Z * string) : string := if x.1 =? RuneError then replacement else x.2.
Definition clip (n : nat) (s : string) : string :=
  if RuneCountInString s >? Z.of_nat n then String.concat EmptyString (rune_text <$> take n (decode s)) +:+ ellipsis else s.

(** What stands before the first period and space. *)
Fixpoint first_sentence (s : string) : string :=
  match s with
  | EmptyString => EmptyString
  | String c s' => if HasPrefix s ". " then EmptyString else String c (first_sentence s')
  end.

Definition first_line (s : string) : string := match Cut s "010" with Some (a, _) => a | None => s end.

Definition vuln_title (v : osvVuln) (runtime : string) : string :=
  let title := if is_empty v.(v_Summary) then clip 120 (TrimSuffix (first_line (first_sentence (TrimSpace v.(v_Details)))) ".")
               else v.(v_Summary) in
  if is_empty title then
    let name := match List.find (λ a, HasPrefix a "CVE-") v.(v_Aliases) with
                | Some a => a
                | None => hd v.(v_ID) v.(v_Aliases)
                end in
    name +:+ " in " +:+ runtime
  else title.

Definition vuln_ranges (a : osvAffected) : list Range :=
  a.(oa_Ranges) ≫= λ r, if one_of r.(or_Type) ["SEMVER"; "ECOSYSTEM"] then pairEvents r.(or_Events) else [].

Definition about (eco name : string) (a : osvAffected) : bool := (a.(oa_Ecosystem) =? eco)%string && (a.(oa_Name) =? name)%string.

(** [osvVuln.advisory] *)
Definition advisory (v : osvVuln) (runtime : string) : option Advisory :=
  let '(eco, name) := default (EmptyString, EmptyString) (Covered runtime) in
  if negb (is_empty v.(v_Withdrawn)) then None
  else
    let affected := filter (λ a, about eco name a = true) v.(v_Affected) in
    let sev := fold_left (λ sev a, if is_empty sev then a.(oa_Severity) else sev) affected v.(v_Severity) in
    let ranges := affected ≫= vuln_ranges in
    if lenl ranges =? 0 then None
    else
      let rev := if v.(v_Published) =? zero_time then v.(v_Modified) else v.(v_Published) in
      Some (mkAdvisory v.(v_ID) (Unix rev) SourceOSV (vuln_title v runtime) (clip osvMessageMax v.(v_Details)) (osvSeverity sev)
              ("https://osv.dev/vulnerability/" +:+ PathEscape v.(v_ID)) v.(v_Published) ActionUpdate (take 20 v.(v_Aliases))
              [mkTarget None (Some (mkRuntimeTarget runtime ranges))]).

(** * Queries *)

Record RuntimeQuery : Type := mkRuntimeQuery { q_Runtime : string; q_Version : string }.
#[export] Instance RuntimeQuery_eq_dec : EqDecision RuntimeQuery.
Proof. solve_decision. Defined.
#[export] Instance RuntimeQuery_countable : Countable RuntimeQuery.
Proof.
  refine (inj_countable' (λ q, (q.(q_Runtime), q.(q_Version))) (λ p, mkRuntimeQuery p.1 p.2) _). by intros [].
Defined.

Record pkgQ : Type := mkPkgQ { pq_Ecosystem : string; pq_Name : string; pq_Version : string; pq_PageToken : string }.

(** The server: the results of a batch, one for each query, as identifiers and the
    token of the next page; and one vulnerability. *)
Class OsvServer := {
  querybatch : list pkgQ → result (list (list string * string));
  vulns : string → result osvVuln;
}.

Section query.
Context `{OsvServer}.

Definition osv_error (format : string) (args : list arg) : error := Errorf format args.

(** The queries that are sent: those of a covered runtime with a version. *)
Definition sent_query (q : RuntimeQuery) : option (RuntimeQuery * pkgQ) :=
  '(eco, name) ← Covered q.(q_Runtime);
  if is_empty q.(q_Version) then None else Some (q, mkPkgQ eco name q.(q_Version) EmptyString).

(** One result of a page: its identifiers are kept, its token is the next question. *)
Definition page_result (st : list pkgQ * list (list string) * list nat) (x : nat * (list string * string)) :
    list pkgQ * list (list string) * list nat :=
  let '(pq, ids, next) := st in
  let '(i, (found, token)) := x in
  let ids := alter (λ l, l ++ found) i ids in
  if is_empty token then (pq, ids, next)
  else (alter (λ p, mkPkgQ p.(pq_Ecosystem) p.(pq_Name) p.(pq_Version) token) i pq, ids, next ++ [i]).

(** The pages that are left to ask for, [room] of them: the identifiers of each query,
    and how many queries have more pages than that. *)
Fixpoint fetch_pages (room : nat) (pq : list pkgQ) (ids : list (list string)) (pending : list nat) : result (list (list string) * Z) :=
  match pending, room with
  | [], _ => Ok (ids, 0)
  | _, O => Ok (ids, lenl pending)
  | _, S room' =>
      results ← querybatch (omap (λ i, pq !! i) pending);
      if negb (lenl results =? lenl pending) then
        Err (osv_error "osv: %d results for %d queries" [AInt (lenl results); AInt (lenl pending)])
      else
        let '(pq, ids, next) := fold_left page_result (zip pending results) (pq, ids, []) in
        fetch_pages room' pq ids next
  end.

(** The distinct identifiers in order, up to the cap; the rest is counted. *)
Definition pick_id (st : list string * gset string * Z) (id : string) : list string * gset string * Z :=
  let '(order, seen, skipped) := st in
  if bool_decide (id ∈ seen) then st
  else if lenl order >=? osvMaxVulns then (order, {[id]} ∪ seen, skipped + 1)
  else (order ++ [id], {[id]} ∪ seen, skipped).

Definition fetch_vuln (cache : gmap string osvVuln) (id : string) : result (gmap string osvVuln) :=
  v ← vulns id; Ok (<[id := v]> cache).

(** The advisories of one query, appended to what its key holds already. *)
Definition collect (cache : gmap string osvVuln) (out : gmap RuntimeQuery (list Advisory)) (x : RuntimeQuery * list string) :
    gmap RuntimeQuery (list Advisory) :=
  let '(q, ids) := x in
  let found := omap (λ id, v ← cache !! id; advisory v q.(q_Runtime)) ids in
  if non_empty found then <[q := default [] (out !! q) ++ found]> out else out.

(** [Query]: the advisories and the notes of what was cut off; with a note the result
    is returned together with ErrOSVTruncated. *)
Definition Query (queries : list RuntimeQuery) : result (gmap RuntimeQuery (list Advisory) * list error) :=
  _ ← fail_when (lenl queries >? osvMaxQueries)
        (osv_error "osv: %d queries exceeds limit of %d" [AInt (lenl queries); AInt osvMaxQueries]);
  let sent := omap sent_query queries in
  '(ids, more) ← fetch_pages osvMaxPages sent.*2 (replicate (length sent) []) (seq 0 (length sent));
  let '(order, _, skipped) := fold_left pick_id (mjoin ids) ([], ∅, 0) in
  cache ← foldM fetch_vuln ∅ order;
  let out := fold_left (collect cache) (zip sent.*1 ids) ∅ in
  Ok (out, (if more =? 0 then [] else [osv_error "%d queries past %d pages" [AInt more; AInt 3]]) ++
           (if skipped >? 0 then [osv_error "%d vulns past hydration cap %d" [AInt skipped; AInt osvMaxVulns]] else [])).
End query.

(** * What a query accounts for *)

Section accounted.
Context `{OsvServer}.

Lemma pick_ids_spec l : ∀ order seen skipped order' seen' skipped',
  fold_left pick_id l (order, seen, skipped) = (order', seen', skipped') →
  lenl order ≤ osvMaxVulns → (∀ x, x ∈ order → x ∈ seen) → (skipped = 0 → ∀ x, x ∈ seen → x ∈ order) → 0 ≤ skipped →
  lenl order' ≤ osvMaxVulns ∧ skipped ≤ skipped' ∧ (∀ x, x ∈ order → x ∈ order') ∧
  (skipped' = 0 → ∀ x, x ∈ l → x ∈ order').
Proof.
  induction l as [|id l IH]; intros order seen skipped order' seen' skipped'; cbn [fold_left].
  - intros [= <- <- <-] ????. split_and!; [done|lia|done|]. by intros _ x ?%elem_of_nil.
  - unfold pick_id at 2. intros Hf Hlen Hsub Hall Hpos. case_bool_decide as Hin.
    + destruct (IH _ _ _ _ _ _ Hf Hlen Hsub Hall Hpos) as (H1 & H2 & H3 & H4). split_and!; [done..|].
      intros H0 x [->|Hx]%elem_of_cons; [|by apply H4]. apply H3, Hall; [lia|done].
    + destruct (lenl order >=? osvMaxVulns) eqn:E; zify_bool.
      * apply IH in Hf as (H1 & H2 & H3 & H4); [|done|set_solver|lia|lia]. split_and!; [done|lia|done|lia].
      * apply IH in Hf as (H1 & H2 & H3 & H4); [|unfold lenl in *; rewrite length_app; cbn; lia|set_solver|set_solver|done].
        split_and!; [done|done|set_solver|]. intros H0 x [->|Hx]%elem_of_cons; [|by apply H4]. apply H3. set_solver.
Qed.

Lemma fetch_vulns_spec order : ∀ cache cache', foldM fetch_vuln cache order = Ok cache' →
  (∀ id v, cache !! id = Some v → vulns id = Ok v) →
  (∀ id v, cache' !! id = Some v → vulns id = Ok v) ∧ (∀ id, id ∈ order ∨ is_Some (cache !! id) → is_Some (cache' !! id)).
Proof.
  induction order as [|x order IH]; intros cache cache'; cbn [foldM].
  - intros [= <-] Hc. split; [done|]. by intros id [?%elem_of_nil|].
  - intros Hr Hc. apply bind_Ok in Hr as (t & Hx & Hr). unfold fetch_vuln in Hx. apply bind_Ok in Hx as (v & Hv & [= <-]).
    destruct (IH _ _ Hr) as [H1 H2].
    { intros id w. destruct (decide (x = id)) as [->|Hne]; [rewrite lookup_insert_eq; naive_solver|rewrite lookup_insert_ne by done; auto]. }
    split; [done|]. intros id Hid. apply H2. destruct (decide (x = id)) as [->|Hne]; [right; by rewrite lookup_insert_eq|].
    rewrite lookup_insert_ne by done. rewrite elem_of_cons in Hid. naive_solver.
Qed.

Definition held (out : gmap RuntimeQuery (list Advisory)) (q : RuntimeQuery) : list Advisory := default [] (out !! q).

Lemma collect_held cache out q ids r : held (collect cache out (q, ids)) r =
  held out r ++ (if decide (q = r) then omap (λ id, v ← cache !! id; advisory v q.(q_Runtime)) ids else []).
Proof.
  unfold collect, held. cbv zeta. set (found := omap _ _). destruct found as [|a l] eqn:E; cbn [non_empty].
  - by case_decide; rewrite app_nil_r.
  - case_decide as Hq; [subst r; by rewrite lookup_insert_eq|]. by rewrite lookup_insert_ne, app_nil_r.
Qed.

Lemma collect_all_held cache l : ∀ out r, held (fold_left (collect cache) l out) r =
  held out r ++ (l ≫= λ x, if decide (x.1 = r) then omap (λ id, v ← cache !! id; advisory v x.1.(q_Runtime)) x.2 else []).
Proof.
  induction l as [|[q ids] l IH]; intros out r; cbn [fold_left]; [by rewrite app_nil_r|].
  by rewrite IH, collect_held, bind_cons, <-app_assoc.
Qed.

(** A query that returns without a note lost nothing: of every identifier the pages
    named for a query that was sent, the vulnerability was read, and the advisory it
    gives stands under that query; nothing else stands there, and at most 200
    vulnerabilities are read. *)
Theorem Query_complete queries out notes : Query queries = Ok (out, notes) → ∃ ids more order,
  fetch_pages osvMaxPages (omap sent_query queries).*2 (replicate (length (omap sent_query queries)) [])
    (seq 0 (length (omap sent_query queries))) = Ok (ids, more) ∧ lenl order ≤ osvMaxVulns ∧
  (notes = [] → more = 0 ∧ ∀ q l id, (q, l) ∈ zip (omap sent_query queries).*1 ids → id ∈ l →
    id ∈ order ∧ ∃ v, vulns id = Ok v ∧ ∀ a, advisory v q.(q_Runtime) = Some a → a ∈ held out q) ∧
  (∀ q a, a ∈ held out q → ∃ l id v, (q, l) ∈ zip (omap sent_query queries).*1 ids ∧ id ∈ l ∧ vulns id = Ok v ∧
    advisory v q.(q_Runtime) = Some a).
Proof.
  unfold Query. cbv zeta. intros Hr. apply bind_unit_Ok in Hr as [_ Hr]. apply bind_Ok in Hr as ([ids more] & Hp & Hr).
  destruct (fold_left pick_id (mjoin ids) ([], ∅, 0)) as [[order seen] skipped] eqn:Hpick.
  apply bind_Ok in Hr as (cache & Hc & [= <- <-]). exists ids, more, order. split; [done|].
  apply pick_ids_spec in Hpick as (Hlen & Hpos & _ & Hall); [|done|set_solver|set_solver|done].
  destruct (fetch_vulns_spec _ _ _ Hc) as [Hsound Htotal]; [intros id v; by rewrite lookup_empty|].
  split; [done|]. split.
  - intros Hn. apply app_eq_nil in Hn as [Hmore Hskip]. destruct (more =? 0) eqn:Em; [|done]. destruct (skipped >? 0) eqn:Es; [done|].
    zify_bool. split; [done|]. intros q l id Hql Hid. assert (id ∈ order) as Hin.
    { apply Hall; [lia|]. apply list_elem_of_join. exists l. split; [done|]. apply elem_of_zip_r in Hql. done. }
    split; [done|]. destruct (Htotal id (or_introl Hin)) as [v Hv]. exists v. split; [by apply Hsound|]. intros a Ha.
    rewrite collect_all_held. apply elem_of_app. right. apply list_elem_of_bind. exists (q, l). split; [|done].
    cbn [fst snd]. rewrite decide_True by done. apply list_elem_of_omap. exists id. split; [done|]. by rewrite Hv.
  - intros q a. rewrite collect_all_held. unfold held. rewrite elem_of_app, lookup_empty.
    intros [Hn|Hin]; [by apply elem_of_nil in Hn|]. apply list_elem_of_bind in Hin as ([q' l] & Ha & Hql). cbn [fst snd] in Ha.
    case_decide as Hq; [subst q'|by apply elem_of_nil in Ha]. apply list_elem_of_omap in Ha as (id & Hid & Ha).
    destruct (cache !! id) as [v|] eqn:Hv; [|done]. exists l, id, v. split_and!; [done..|by apply Hsound|done].
Qed.
End accounted.

#[export] Instance Range_eq_dec : EqDecision Range.
Proof. solve_decision. Defined.
#[export] Instance ImageTarget_eq_dec : EqDecision ImageTarget.
Proof. solve_decision. Defined.
#[export] Instance RuntimeTarget_eq_dec : EqDecision RuntimeTarget.
Proof. solve_decision. Defined.
#[export] Instance Target_eq_dec : EqDecision Target.
Proof. solve_decision. Defined.
#[export] Instance Advisory_eq_dec : EqDecision Advisory.
Proof. solve_decision. Defined.

Module OsvExample.
Definition bad_vuln : osvVuln := mkOsvVuln "GO-1" ["CVE-2026-1"] "" "Broken parser. More text." 0 0 "" "HIGH"
  [mkOsvAffected "stdlib" "Go" [mkOsvRange "SEMVER" [mkOsvEvent "0" "" ""; mkOsvEvent "" "1.22.5" ""]] ""].
#[local] Instance server : OsvServer := {|
  querybatch := λ qs, Ok ((λ _, (["GO-1"], "")) <$> qs);
  vulns := λ _, Ok bad_vuln;
|}.
Definition queries : list RuntimeQuery := [mkRuntimeQuery "go" "1.22.3"; mkRuntimeQuery "perl" "5"].
Definition answer : result (gmap RuntimeQuery (list Advisory) * list error) := Query queries.
Definition out : gmap RuntimeQuery (list Advisory) := match answer with Ok (out, _) => out | Err _ => ∅ end.
Definition expected : Advisory := mkAdvisory "GO-1" 0 SourceOSV "Broken parser" "Broken parser. More text." High
  "https://osv.dev/vulnerability/GO-1" 0 ActionUpdate ["CVE-2026-1"]
  [mkTarget None (Some (mkRuntimeTarget "go" [mkRange "0" "1.22.5" ""]))].
End OsvExample.

Lemma Query_complete_witness : ∃ order : list string, lenl order ≤ osvMaxVulns ∧
  (∃ (l : list string) id v, id ∈ l ∧ vulns (OsvServer := OsvExample.server) id = Ok v ∧ advisory v "go" = Some OsvExample.expected).
Proof.
  assert (Query (H := OsvExample.server) OsvExample.queries = Ok (OsvExample.out, [])) as Hq
    by vm_cast_no_check (eq_refl (Query (H := OsvExample.server) OsvExample.queries)).
  destruct (Query_complete (H := OsvExample.server) OsvExample.queries OsvExample.out [] Hq)
    as (ids & more & order & _ & Hlen & _ & Hback).
  exists order. split; [exact Hlen|].
  destruct (Hback (mkRuntimeQuery "go" "1.22.3") OsvExample.expected) as (l & id & v & _ & Hid & Hv & Ha).
  - apply (bool_decide_unpack _). vm_cast_no_check I.
  - exists l, id, v. split; [exact Hid|]. split; [exact Hv|exact Ha].
Defined.
