(* ===== verification/Logmask.v ===== *)
(** Redaction of logs (internal/logmask/mask.go): the known values of a scope and the
    encodings they are registered under, the patterns of credentials, the prefilters
    that skip them, the line by line masker with its private-key state, and the reader
    that never emits a partial line.

    A pattern is matched the way [regexp] does: leftmost, alternatives in order,
    repetitions greedy. [net/url] and [encoding/json] are a class. *)
From S2P Require Import Prelude GoStd Regex Escapes.
#[global] Open Scope Z_scope.

Definition Replacement : string := "***".
Definition MaxLineBytes : Z := Z.shiftl 64 10.
Definition maxMasks : Z := 4096.
Definition maxMaskBytes : Z := Z.shiftl 4 20.
Definition withheld : string := "[log output withheld: redaction limit exceeded]".
Definition partial : string := "[incomplete log line withheld]".

(** * Leftmost-first matching *)

Section run.
Context {X : Type}.

(** Backtracking: the first way to match a prefix of [s] that [k] accepts the rest
    of. A repetition goes on only when it consumed something. *)
Fixpoint run (r : regex) (s : string) (k : string → option X) : option X :=
  match r with
  | RNone => None
  | REps => k s
  | RCls f => match s with String c s' => if f c then k s' else None | EmptyString => None end
  | RCat r1 r2 => run r1 s (λ s', run r2 s' k)
  | RAlt r1 r2 => match run r1 s k with Some x => Some x | None => run r2 s k end
  | RStar r1 =>
      (fix loop (n : nat) (s : string) : option X :=
         match n with
         | O => k s
         | S n' =>
             match run r1 s (λ s', if (String.length s' <? String.length s)%nat then loop n' s' else None) with
             | Some x => Some x
             | None => k s
             end
         end) (String.length s) s
  end.
End run.

(** A pattern with two groups, one after the other, and whether it starts at a word
    boundary. *)
Record pattern : Type := mkPattern { p_boundary : bool; p_first : regex; p_second : regex }.

Definition word_char (c : ascii) : bool := lower c || upper c || digit c || Ascii.eqb c "_".
Definition at_boundary (prev : option ascii) (s : string) : bool :=
  let before := match prev with Some c => word_char c | None => false end in
  let after := match s with String c _ => word_char c | EmptyString => false end in
  xorb before after.

(** A match at the start of [s]: the texts of the groups and the rest. *)
Definition match_at (p : pattern) (prev : option ascii) (s : string) : option (string * string * string) :=
  if p.(p_boundary) && negb (at_boundary prev s) then None
  else
    '(s1, s2) ← run p.(p_first) s (λ s1, run p.(p_second) s1 (λ s2, Some (s1, s2)));
    let n1 := (String.length s - String.length s1)%nat in
    Some (take_string n1 s, take_string (String.length s1 - String.length s2) s1, s2).

Definition last_byte (prev : option ascii) (s : string) : option ascii :=
  match rev_string s with String c _ => Some c | EmptyString => prev end.

(** [ReplaceAllStringFunc], with [f] on the groups; [fuel] is more than the length. *)
Fixpoint replace_from (p : pattern) (f : string → string → string) (fuel : nat) (prev : option ascii) (s : string) : string :=
  match fuel with
  | O => s
  | S n =>
      match match_at p prev s with
      | Some (g1, g2, rest) => f g1 g2 +:+ replace_from p f n (last_byte prev (g1 +:+ g2)) rest
      | None => match s with
                | String c s' => String c (replace_from p f n (Some c) s')
                | EmptyString => EmptyString
                end
      end
  end.
Definition ReplaceAll (p : pattern) (f : string → string → string) (s : string) : string :=
  replace_from p f (S (String.length s)) None s.

(** * Patterns *)

(** [r?], which prefers to match. *)
Definition GOpt (r : regex) : regex := RAlt r REps.
Definition sharp_s : regex := RLit (chr 197 +:+ chr 191).
Definition kelvin : regex := RLit (chr 226 +:+ chr 132 +:+ chr 170).
(** A class with all letters under [(?i)]: the two runes that fold to s and k too. *)
Definition folded (f : ascii → bool) : regex := RAlt (RCls f) (RAlt sharp_s kelvin).
Definition letter_digit (c : ascii) : bool := lower c || upper c || digit c.
Definition blank (c : ascii) : bool := has_byte c (" " +:+ TAB).
Definition blanks : regex := RStar (RCls blank).
Definition quote_char (c : ascii) : bool := Ascii.eqb c "034" || Ascii.eqb c "'".
Definition white (c : ascii) : bool := has_byte c (" " +:+ TAB +:+ LF +:+ chr 12 +:+ CR).
Definition dash : regex := GOpt (RCls (any_of "_-")).

Definition quoted (q : ascii) (inner : regex) : regex := RSeq [RCls (Ascii.eqb q); RStar inner; RCls (Ascii.eqb q)].
Definition value_group : regex := RAlts [
  quoted "034" (RAlt (RCat (RCls (Ascii.eqb "\")) (RCls (λ c, negb (Ascii.eqb c "010"))))
                     (RCls (λ c, negb (Ascii.eqb c "034" || Ascii.eqb c "\"))));
  quoted "'" (RCls (λ c, negb (Ascii.eqb c "'")));
  RPlus (RCls (λ c, negb (white c || has_byte c ",;&<>" || quote_char c)))].

Definition assignment_names : list regex :=
  [RFold "password"; RFold "passwd"; RFold "pwd"; RFold "token"; RSeq [RFold "api"; dash; RFold "key"];
   RSeq [RFold "access"; dash; RFold "key"]; RSeq [RFold "access"; dash; RFold "token"]; RSeq [RFold "refresh"; dash; RFold "token"];
   RSeq [RFold "id"; dash; RFold "token"]; RFold "secret"; RSeq [RFold "secret"; dash; RFold "key"];
   RSeq [RFold "client"; dash; RFold "secret"]; RSeq [RFold "session"; dash; RFold "token"]; RSeq [RFold "session"; dash; RFold "key"];
   RFold "signature"; RFold "sig"; RFold "credential"; RFold "authorization"; RSeq [RFold "proxy"; dash; RFold "authorization"];
   RFold "cookie"; RFold "set-cookie"; RFold "x-api-key"].

Definition assignment : pattern := mkPattern false
  (RSeq [GOpt (RCls quote_char); GOpt (RCat (RPlus (folded letter_digit)) (RCls (any_of "_-"))); RAlts assignment_names;
         GOpt (RCls quote_char); blanks; RCls (any_of ":="); blanks])
  value_group.

Definition flag_names : list regex :=
  [RFold "password"; RFold "passwd"; RFold "token"; RFold "api-key"; RFold "api_token"; RFold "access-token";
   RFold "client-secret"; RFold "secret"].
Definition flag : pattern := mkPattern false (RSeq [RLit "--"; RAlts flag_names; RPlus (RCls blank)]) value_group.

Definition header_names : list regex :=
  [RFold "authorization"; RFold "proxy-authorization"; RFold "cookie"; RFold "set-cookie"; RFold "x-api-key"].
Definition header : pattern := mkPattern true
  (RSeq [RAlts header_names; blanks; RLit ":"; blanks]) (RPlus (RCls (λ c, negb (has_byte c (CR +:+ LF))))).

Definition bearer : pattern := mkPattern true (RAlt (RFold "Bearer") (RFold "Basic"))
  (RCat (RPlus (RCls blank)) (RPlus (folded (λ c, letter_digit c || has_byte c "._~+/=-")))).

Definition many (f : ascii → bool) (n : nat) : regex := RCat (RTimes (RCls f) n) (RStar (RCls f)).
Definition word_dash (c : ascii) : bool := letter_digit c || has_byte c "_-".
Definition token_alternatives : list regex := [
  RCat (RLit "github_pat_") (many (λ c, letter_digit c || Ascii.eqb c "_") 8);
  RSeq [RLit "gh"; RCls (any_of "pousr"); RLit "_"; many (λ c, letter_digit c || Ascii.eqb c "_") 8];
  RSeq [RLit "gl"; RAlts [RLit "pat"; RLit "rt"; RLit "cbt"; RLit "dt"; RLit "ptt"]; RLit "-"; many (λ c, word_dash c || Ascii.eqb c ".") 8];
  RCat (RAlt (RLit "AKIA") (RLit "ASIA")) (RTimes (RCls (λ c, upper c || digit c)) 16);
  RSeq [RLit "eyJ"; many word_dash 8; RLit "."; many word_dash 8; RLit "."; many word_dash 8]].
Definition token : pattern := mkPattern false REps (RAlts token_alternatives).

Definition userinfo : pattern := mkPattern false
  (RSeq [folded (λ c, lower c || upper c); RStar (folded (λ c, letter_digit c || has_byte c "+.-")); RLit "://"])
  (RCat (RPlus (RCls (λ c, negb (white c || has_byte c "/@")))) (RLit "@")).

Definition ansi : pattern := mkPattern false REps
  (RCat (RCls (Ascii.eqb "027"))
     (RAlt (RSeq [RLit "["; RStar (RCls (in_range "0" "?")); RStar (RCls (in_range " " "/")); RCls (in_range "@" "~")])
           (RSeq [RLit "]"; RStar (RCls (λ c, negb (Ascii.eqb c "007" || Ascii.eqb c "027")));
                  RAlt (RCls (Ascii.eqb "007")) (RCat (RCls (Ascii.eqb "027")) (RLit "\"))]))).

(** The class of controls. *)
Definition control_byte (c : ascii) : bool :=
  let b := byte_of c in
  (b <=? 8) || (b =? 11) || (b =? 12) || (14 <=? b) && (b <=? 31) || (b =? 127).

Definition key_marker (kind : string) : regex :=
  RSeq [RLit ("-----" +:+ kind +:+ " "); GOpt (RCat (RPlus (RCls (λ c, upper c || digit c))) (RLit " ")); RLit "PRIVATE KEY-----"].
Definition privateBegin (line : string) : bool := search (key_marker "BEGIN") line.
Definition privateEnd (line : string) : bool := search (key_marker "END") line.

Definition digits (n : nat) : regex := RTimes (RCls digit) n.
Definition section_stamp : regex :=
  RSeq [digits 4; RLit "-"; digits 2; RLit "-"; digits 2; RLit "T"; digits 2; RLit ":"; digits 2; RLit ":"; digits 2;
        ROpt (RCat (RLit ".") (RPlus (RCls digit))); RLit "Z "].
Definition section_name : regex := RRep (RCls (λ c, word_dash c || Ascii.eqb c ".")) 1 255.
Definition gitlabSection (line : string) : bool := full_match (RSeq [
  ROpt section_stamp; RLit "section_";
  RAlt (RSeq [RLit "start:"; RRep (RCls digit) 1 13; RLit ":"; section_name;
              ROpt (RSeq [RLit "[collapsed="; RAlt (RLit "true") (RLit "false"); RLit "]"]); RLit CR;
              RStar (RCls (λ c, negb (has_byte c (CR +:+ LF))))])
       (RSeq [RLit "end:"; RRep (RCls digit) 1 13; RLit ":"; section_name; RLit CR]);
  ROpt (RLit CR)]) line.

(** * The masker *)

(** What the standard library decodes: the password of a URL that has one, the text
    fields of a JSON object with whether there are at most 32 of them, and a text as
    JSON writes it between its quotes. *)
Class Formats := {
  url_password : string → option string;
  json_fields : string → list (string * string);
  json_text : string → string;
}.

(** [m_replacer] is the cached replacer: the texts of its pairs in the order of the
    arguments, each of which is replaced by the mask; [None] when it has to be built. *)
Record Masker : Type := mkMasker {
  m_values : gset string;
  m_bytes : Z;
  m_failed : bool;
  m_privateKey : bool;
  m_dynamic : list string;
  m_replacer : option (list string);
}.

Definition set_failed (m : Masker) : Masker := mkMasker m.(m_values) m.(m_bytes) true m.(m_privateKey) m.(m_dynamic) m.(m_replacer).
Definition set_privateKey (m : Masker) (b : bool) : Masker := mkMasker m.(m_values) m.(m_bytes) m.(m_failed) b m.(m_dynamic) m.(m_replacer).
Definition set_replacer (m : Masker) (olds : list string) : Masker := mkMasker m.(m_values) m.(m_bytes) m.(m_failed) m.(m_privateKey) m.(m_dynamic) (Some olds).

(** [strings.ReplaceAll(line, CR, nothing)] and the removal of control bytes. *)
Fixpoint filter_string (f : ascii → bool) (s : string) : string :=
  match s with
  | EmptyString => EmptyString
  | String c s' => if f c then String c (filter_string f s') else filter_string f s'
  end.
Definition drop_cr (s : string) : string := filter_string (λ c, negb (Ascii.eqb c "013")) s.
Definition strip_controls (s : string) : string := filter_string (λ c, negb (control_byte c)) s.
Definition strip_ansi (s : string) : string := ReplaceAll ansi (λ _ _, EmptyString) s.

Fixpoint hasControl (s : string) : bool :=
  match s with
  | EmptyString => false
  | String c s' =>
      let b := byte_of c in
      (b <? 32) && negb (b =? 9) && negb (b =? 10) && negb (b =? 13) || (b =? 127) || hasControl s'
  end.

Definition learn (m : Masker) (v : string) : Masker :=
  if (lenl m.(m_dynamic) <? 256) && (len v <=? MaxLineBytes)
  then mkMasker m.(m_values) m.(m_bytes) m.(m_failed) m.(m_privateKey) (m.(m_dynamic) ++ [v]) m.(m_replacer) else m.

Definition Invalidate (m : Masker) : Masker := mkMasker ∅ m.(m_bytes) true m.(m_privateKey) m.(m_dynamic) None.

Definition add (m : Masker) (value : string) : Masker :=
  if is_empty value || (value =? Replacement)%string || m.(m_failed) then m
  else if bool_decide (value ∈ m.(m_values)) then m
  else if (len value >? MaxLineBytes) || (Z.of_nat (size m.(m_values)) >=? maxMasks) || (m.(m_bytes) + len value >? maxMaskBytes)
  then Invalidate m
  else mkMasker ({[value]} ∪ m.(m_values)) (m.(m_bytes) + len value) m.(m_failed) m.(m_privateKey) m.(m_dynamic) None.

(** [strings.FieldsFunc] at carriage returns and line feeds. *)
Fixpoint line_fields (cur s : string) : list string :=
  match s with
  | EmptyString => if is_empty cur then [] else [cur]
  | String c s' =>
      if Ascii.eqb c "013" || Ascii.eqb c "010" then (if is_empty cur then [] else [cur]) ++ line_fields EmptyString s'
      else line_fields (cur +:+ String c EmptyString) s'
  end.

(** Every branch of the patterns holds one of these texts; a lead byte of the two runes
    that fold to s and k counts as one. *)
Definition low (c : ascii) : Z := Z.lor (byte_of c) 32.
Fixpoint foldHas (s lit : string) : bool :=
  match lit, s with
  | EmptyString, _ => true
  | String l lit', String c s' => (low c =? byte_of l) && foldHas s' lit'
  | String _ _, EmptyString => false
  end.

Fixpoint mayBearer (s : string) : bool :=
  match s with
  | EmptyString => false
  | String c r =>
      (byte_of c =? 197) || (low c =? byte_of "b") && (foldHas r "earer" || foldHas r "asic") || mayBearer r
  end.

Definition mayToken (s : string) : bool := existsb (Contains s) ["gh"; "gl"; "AKIA"; "ASIA"; "eyJ"; "github_pat_"].

Definition sensitive_at (c : ascii) (r : string) : bool :=
  if low c =? byte_of "p" then foldHas r "ass" || foldHas r "wd"
  else if low c =? byte_of "t" then foldHas r "oken"
  else if low c =? byte_of "k" then foldHas r "ey"
  else if low c =? byte_of "s" then foldHas r "ecret" || foldHas r "ig"
  else if low c =? byte_of "c" then foldHas r "redential" || foldHas r "ookie"
  else if low c =? byte_of "a" then foldHas r "uthorization"
  else false.

Fixpoint mentionsSensitive (s : string) : bool :=
  match s with
  | EmptyString => false
  | String c r => (byte_of c =? 197) || (byte_of c =? 226) || sensitive_at c r || mentionsSensitive r
  end.

(** ** Replacing known values *)

(** [strings.Replacer.Replace]: from left to right and without overlaps, at each place the
    first of the texts, in the order of the arguments, that starts there. *)
Fixpoint first_prefix (olds : list string) (s : string) : option string :=
  match olds with
  | [] => None
  | v :: olds' => if HasPrefix s v then Some v else first_prefix olds' s
  end.
Fixpoint Replace (olds : list string) (fuel : nat) (s : string) : string :=
  match fuel, s with
  | S n, String c s' =>
      match first_prefix olds s with
      | Some v => Replacement +:+ Replace olds n (drop_string (String.length v) s)
      | None => String c (Replace olds n s')
      end
  | _, _ => EmptyString
  end.

(** [len(values[i]) > len(values[j])]: the longer text comes first. *)
Definition by_length (a b : string) : Prop := (String.length b <= String.length a)%nat.
#[export] Instance by_length_dec a b : Decision (by_length a b) := decide (String.length b <= String.length a)%nat.

Section replacing.
Context `{RangeOrder}.

(** The values in the order the map is ranged over, then sorted. *)
Definition replacer_values (values : gset string) : list string := merge_sort by_length (range (gset_to_gmap tt values)).*1.

Definition replaceKnown (m : Masker) (line : string) : Masker * string :=
  if m.(m_failed) then (m, withheld)
  else
    let m := match m.(m_replacer) with
             | None => if (0 <? size m.(m_values))%nat then set_replacer m (replacer_values m.(m_values)) else m
             | Some _ => m
             end in
    (m, match m.(m_replacer) with Some olds => Replace olds (String.length line) line | None => line end).
End replacing.

(** ** Patterns *)

(** The mask keeps the quote the value starts with. *)
Definition mask_assignment (g1 g2 : string) : string :=
  g1 +:+ match g2 with
         | String q (String _ _) => if quote_char q then String q (Replacement +:+ String q EmptyString) else Replacement
         | _ => Replacement
         end.
Definition redactAssignments (p : pattern) (line : string) : string := ReplaceAll p mask_assignment line.

Definition mask_header (g1 _ : string) : string := g1 +:+ Replacement.
Definition mask_userinfo (g1 _ : string) : string := g1 +:+ Replacement +:+ "@".
Definition mask_bearer (g1 g2 : string) : string := hd EmptyString (Fields (g1 +:+ g2)) +:+ " " +:+ Replacement.
Definition mask_token (_ _ : string) : string := Replacement.

(** [redactText] after the known values were replaced. *)
Definition redactPatterns (line : string) : string :=
  let line := if has_byte "@" line && Contains line "://" then ReplaceAll userinfo mask_userinfo line else line in
  let line := if mayBearer line then ReplaceAll bearer mask_bearer line else line in
  let line := if mayToken line then ReplaceAll token mask_token line else line in
  if negb (mentionsSensitive line) then line
  else
    let colon := has_byte ":" line in
    let line := if colon then ReplaceAll header mask_header line else line in
    let line := if colon || has_byte "=" line then redactAssignments assignment line else line in
    if Contains line "--" then redactAssignments flag line else line.
Definition redactText `{RangeOrder} (m : Masker) (line : string) : Masker * string :=
  let '(m, line) := replaceKnown m line in (m, redactPatterns line).

Definition SensitiveName (name : string) : bool := search (RCat assignment.(p_first) assignment.(p_second)) (name +:+ "=x").

Section masker.
Context `{Formats} `{RangeOrder}.

Definition addForms (m : Masker) (value : string) : Masker :=
  if is_empty value || m.(m_failed) then m
  else
    let m := add m value in
    let m := add m (drop_cr (strip_controls (strip_ansi value))) in
    let m := add m (QueryEscape value) in
    let m := add m (PathEscape value) in
    let m := fold_left (λ m encode, add m (encode value)) [StdEncoding; RawStdEncoding; URLEncoding; RawURLEncoding] m in
    add m (json_text value).

Definition Add (m : Masker) (value : string) : Masker :=
  if len value >? MaxLineBytes then set_failed m
  else
    let m := addForms m value in
    let m := fold_left addForms (line_fields EmptyString value) m in
    let m := match url_password value with Some password => addForms m password | None => m end in
    if len value <=? Z.shiftl 16 10 then
      fold_left (λ m x, if SensitiveName x.1 then addForms m x.2 else m) (json_fields value) m
    else m.

Definition New (secrets : list string) : Masker := fold_left Add secrets (mkMasker ∅ 0 false false [] None).
Definition Added (m : Masker) : list string := m.(m_dynamic).
Definition Failed (m : Masker) : bool := m.(m_failed).
Definition InPrivateKey (m : Masker) : bool := m.(m_privateKey).
Definition ResumePrivateKey (m : Masker) : Masker := set_privateKey m true.

(** [strings.NewReplacer] for the three escapes of a mask command. *)
Fixpoint unescape_command (s : string) : string :=
  match s with
  | String c ((String d (String e rest)) as s') =>
      if Ascii.eqb c "%" then
        if Ascii.eqb d "0" && Ascii.eqb e "D" then CR +:+ unescape_command rest
        else if Ascii.eqb d "0" && Ascii.eqb e "A" then LF +:+ unescape_command rest
        else if Ascii.eqb d "2" && Ascii.eqb e "5" then "%" +:+ unescape_command rest
        else String c (unescape_command s')
      else String c (unescape_command s')
  | String c s' => String c (unescape_command s')
  | EmptyString => EmptyString
  end.

(** What stands before and after the first mask command of a line. *)
Definition add_mask : string := "::add-mask::".
Fixpoint cut_command (s : string) : option (string * string) :=
  if HasPrefix s add_mask then Some (EmptyString, drop_string (String.length add_mask) s)
  else match s with
       | EmptyString => None
       | String c s' => '(a, b) ← cut_command s'; Some (String c a, b)
       end.

Definition mask_command (m : Masker) (line : string) : Masker * string :=
  match cut_command line with
  | None => (m, line)
  | Some (before, after) =>
      let value := unescape_command after in
      let m := learn (Add m value) value in
      let m := fold_left (λ m word, learn (add m word) word) (Fields value) m in
      (m, before +:+ add_mask +:+ Replacement)
  end.

(** The line after the private-key markers were read: whether it is masked whole. *)
Definition key_state (m : Masker) (line : string) : Masker * bool :=
  let hasKey := Contains line "PRIVATE KEY" in
  let inside := m.(m_privateKey) || hasKey && privateBegin line in
  if inside then (set_privateKey m (negb (hasKey && privateEnd line)), true) else (set_privateKey m false, false).

Definition Line (m : Masker) (line : string) : Masker * string :=
  if len line >? MaxLineBytes then (set_failed m, withheld)
  else
    let line := if has_byte "027" line then strip_ansi line else line in
    let line := if hasControl line then strip_controls line else line in
    let keepCR := has_byte "013" line && gitlabSection line in
    let line := if keepCR then line else drop_cr line in
    let '(m, line) := mask_command m line in
    let '(m, inside) := key_state m line in
    if inside then (m, Replacement)
    else
      let '(m, masked) := redactText m line in
      if keepCR then
        let '(m, joined) := redactText m (drop_cr line) in
        if negb (drop_cr masked =? joined)%string then (m, joined) else (m, masked)
      else (m, masked).

(** * The reader

    [bufio.Reader.ReadSlice] over the stream that is left, in a buffer of one byte more
    than a line. [timestamp] tells the timestamps Kubernetes puts before a space. *)
Context (timestamp : string → bool).

Definition read_chunk (m : Masker) (timestamped : bool) (text : string) : Masker * string :=
  let complete := match Cut text " " with Some (stamp, _) => timestamp stamp | None => false end in
  if timestamped && negb complete then (m, partial +:+ LF)
  else let '(m, out) := Line m text in (m, out +:+ LF).

(** Everything [Read] emits for the stream, with the masker it leaves: each complete
    line masked; a fragment at the end, or a line beyond the buffer and what follows it
    in the same read, as a fixed text. After a full buffer the reader stops where the
    long line ends, with the error of the last read. *)
Fixpoint read_all (fuel : nat) (m : Masker) (timestamped : bool) (stream : string) : Masker * string :=
  match fuel with
  | O => (m, EmptyString)
  | S n =>
      match Cut stream "010" with
      | Some (text, rest) =>
          if len text >? MaxLineBytes then
            let m := set_failed m in
            let '(m, out) := read_all n m timestamped rest in (m, withheld +:+ LF +:+ out)
          else
            let '(m, first) := read_chunk m timestamped text in
            let '(m, out) := read_all n m timestamped rest in
            (m, first +:+ out)
      | None =>
          if len stream >? MaxLineBytes then (set_failed m, withheld +:+ LF)
          else (m, if is_empty stream then EmptyString else partial +:+ LF)
      end
  end.
Definition ReadAll (m : Masker) (timestamped : bool) (stream : string) : Masker * string :=
  read_all (S (String.length stream)) m timestamped stream.
End masker.
