(* ===== verification/LogmaskSpec.v ===== *)
(** What the log masker promises: once it gave up it emits fixed texts only, known
    values are cut out of a line, the longest first, the prefilters change nothing, its memory is
    bounded, and the reader's output does not depend on a partial line. *)
From S2P Require Import Prelude GoStd Paths Text Regex Escapes Logmask.
#[global] Open Scope Z_scope.

(** * Matching *)

(** What the matcher finds is a match of the expression. *)
Lemma run_sound {X} r : ∀ s (k : string → option X) x, run r s k = Some x →
  ∃ a b, s = a +:+ b ∧ matches r a ∧ k b = Some x.
Proof.
  induction r as [| |f|r1 IH1 r2 IH2|r1 IH1 r2 IH2|r IH]; intros s k x; cbn [run].
  - done.
  - intros Hk. exists EmptyString, s. split_and!; [done|constructor|done].
  - destruct s as [|c s]; [done|]. destruct (f c) eqn:Hf; [|done]. intros Hk.
    exists (String c EmptyString), s. split_and!; [done|by constructor|done].
  - intros Hr. apply IH1 in Hr as (a & b & -> & Ha & Hr). apply IH2 in Hr as (c & d & -> & Hc & Hk).
    exists (a +:+ c), d. split_and!; [by rewrite string_app_assoc|by constructor|done].
  - destruct (run r1 s k) as [y|] eqn:H1.
    + intros [= ->]. apply IH1 in H1 as (a & b & -> & Ha & Hk). exists a, b. split_and!; [done|by constructor|done].
    + intros H2. apply IH2 in H2 as (a & b & -> & Ha & Hk). exists a, b. split_and!; [done|by constructor|done].
  - generalize (String.length s) at 1. intros n. revert s. induction n as [|n IHn]; intros s.
    + intros Hk. exists EmptyString, s. split_and!; [done|constructor|done].
    + destruct (run r s _) as [y|] eqn:H1.
      * intros [= ->]. apply IH in H1 as (a & b & -> & Ha & Hk). destruct (_ <? _)%nat in Hk; [|done].
        apply IHn in Hk as (c & d & -> & Hc & Hk). exists (a +:+ c), d.
        split_and!; [by rewrite string_app_assoc|by constructor|done].
      * intros Hk. exists EmptyString, s. split_and!; [done|constructor|done].
Qed.

Lemma take_app_length (a b : string) : take_string (String.length (a +:+ b) - String.length b) (a +:+ b) = a.
Proof.
  rewrite string_length_app. replace (String.length a + String.length b - String.length b)%nat with (String.length a) by lia.
  induction a as [|c a IH]; [by destruct b|]. rewrite string_app_cons. cbn. by rewrite IH.
Qed.

Lemma match_at_sound p prev s g1 g2 rest : match_at p prev s = Some (g1, g2, rest) →
  s = g1 +:+ (g2 +:+ rest) ∧ matches p.(p_first) g1 ∧ matches p.(p_second) g2.
Proof.
  unfold match_at. destruct (_ && _); [done|]. destruct (run _ s _) as [[s1 s2]|] eqn:Hr; [|done]. cbn [mbind option_bind].
  intros [= <- <- <-]. apply run_sound in Hr as (a & b & -> & Ha & Hr). apply run_sound in Hr as (c & d & -> & Hc & [= <- <-]).
  rewrite !take_app_length. done.
Qed.

(** A text in which the pattern occurs. *)
Definition occurs (p : pattern) (s : string) : Prop :=
  ∃ a g1 g2 b, s = a +:+ (g1 +:+ (g2 +:+ b)) ∧ matches p.(p_first) g1 ∧ matches p.(p_second) g2.

Lemma replace_from_id p f n : ∀ prev s, ¬ occurs p s → replace_from p f n prev s = s.
Proof.
  induction n as [|n IH]; intros prev s Hno; [done|]. cbn [replace_from].
  destruct (match_at p prev s) as [[[g1 g2] rest]|] eqn:Hm.
  - exfalso. apply Hno. apply match_at_sound in Hm as (-> & H1 & H2). by exists EmptyString, g1, g2, rest.
  - destruct s as [|c s]; [done|]. f_equal. apply IH. intros (a & g1 & g2 & b & -> & H1 & H2). apply Hno.
    exists (String c a), g1, g2, b. by rewrite string_app_cons.
Qed.

Lemma ReplaceAll_id p f s : ¬ occurs p s → ReplaceAll p f s = s.
Proof. apply replace_from_id. Qed.

(** * Prefilters *)

(** A test that stays true when text is added around. *)
Definition monotone (may : string → bool) : Prop := ∀ a x b, may x = true → may (a +:+ (x +:+ b)) = true.

Lemma has_byte_monotone c : monotone (has_byte c).
Proof. intros a x b H. by rewrite !has_byte_app, H, orb_true_r. Qed.

Lemma HasPrefix_ext x l b : HasPrefix x l = true → HasPrefix (x +:+ b) l = true.
Proof. rewrite !HasPrefix_spec. intros (t & ->). exists (t +:+ b). by rewrite string_app_assoc. Qed.

Lemma Contains_cons c s l : Contains s l = true → Contains (String c s) l = true.
Proof. cbn [Contains]. intros ->. apply orb_true_r. Qed.

Lemma Contains_monotone l : monotone (λ s, Contains s l).
Proof.
  assert (∀ x b, Contains x l = true → Contains (x +:+ b) l = true) as Hr.
  { induction x as [|c x IH]; intros b.
    - cbn [Contains]. intros H. change (EmptyString +:+ b) with b. destruct l; [by destruct b|done].
    - rewrite string_app_cons. cbn [Contains]. intros [H|H]%orb_true_iff; apply orb_true_iff; [left|right; by apply IH].
      rewrite <-string_app_cons. by apply HasPrefix_ext. }
  intros a x b H. cbv beta in *. induction a as [|c a IH]; [change (EmptyString +:+ (x +:+ b)) with (x +:+ b); by apply Hr|].
  rewrite string_app_cons. by apply Contains_cons.
Qed.

Lemma foldHas_ext l x b : foldHas x l = true → foldHas (x +:+ b) l = true.
Proof.
  revert x. induction l as [|d l IH]; intros x; [by destruct (x +:+ b)|]. destruct x as [|c x]; [done|].
  rewrite string_app_cons. cbn [foldHas].
  rewrite !andb_true_iff. intros [-> H]. split; [done|by apply IH].
Qed.

Lemma or_ext (a b a' b' : bool) : (a = true → a' = true) → (b = true → b' = true) → a || b = true → a' || b' = true.
Proof. rewrite !orb_true_iff. tauto. Qed.

Lemma sensitive_at_ext c x b : sensitive_at c x = true → sensitive_at c (x +:+ b) = true.
Proof.
  unfold sensitive_at. repeat case_match; try done; try apply or_ext; apply foldHas_ext.
Qed.

Lemma mentionsSensitive_monotone : monotone mentionsSensitive.
Proof.
  intros a x b H. induction a as [|c a IH].
  - change (EmptyString +:+ (x +:+ b)) with (x +:+ b). induction x as [|c x IH]; [done|]. rewrite string_app_cons. cbn [mentionsSensitive] in *.
    revert H. apply or_ext; [|done]. apply or_ext; [done|]. apply sensitive_at_ext.
  - rewrite string_app_cons. cbn [mentionsSensitive]. by rewrite IH, orb_true_r.
Qed.

Lemma mayBearer_monotone : monotone mayBearer.
Proof.
  intros a x b H. induction a as [|c a IH].
  - change (EmptyString +:+ (x +:+ b)) with (x +:+ b). induction x as [|c x IH]; [done|]. rewrite string_app_cons. cbn [mayBearer] in *.
    revert H. apply or_ext; [|done]. apply or_ext; [done|]. rewrite !andb_true_iff. intros [-> H]. split; [done|]. revert H. apply or_ext; apply foldHas_ext.
  - rewrite string_app_cons. cbn [mayBearer]. by rewrite IH, orb_true_r.
Qed.

Lemma mayToken_monotone : monotone mayToken.
Proof.
  intros a x b. unfold mayToken. rewrite !existsb_exists. intros (l & Hl & Hx). exists l. split; [done|]. by apply Contains_monotone.
Qed.

(** ** Parts of a match *)

Lemma alts_matches l x : matches (RAlts l) x → ∃ r, r ∈ l ∧ matches r x.
Proof.
  induction l as [|r l IH]; [by inversion 1|]. destruct l as [|r' l].
  - intros H. exists r. split; [by left|done].
  - intros [H|H]%alt_matches; [exists r; split; [by left|done]|]. destruct (IH H) as (q & Hq & Hx). exists q. split; [by right|done].
Qed.

Lemma seq_part r l : r ∈ l → ∀ x, matches (RSeq l) x → ∃ a y b, x = a +:+ (y +:+ b) ∧ matches r y.
Proof.
  induction l as [|q l IH]; [by intros ?%elem_of_nil|]. intros Hr x Hx. destruct l as [|q' l].
  - apply list_elem_of_singleton in Hr as ->. exists EmptyString, x, EmptyString. by rewrite string_app_nil_r.
  - apply cat_matches in Hx as (s1 & s2 & -> & H1 & H2). apply elem_of_cons in Hr as [->|Hr].
    + exists EmptyString, s1, s2. done.
    + destruct (IH Hr s2 H2) as (a & y & b & -> & Hy). exists (s1 +:+ a), y, b. by rewrite <-string_app_assoc.
Qed.

(** The expression holds, in every match, something that sets the test off. *)
Definition triggers (may : string → bool) (r : regex) : Prop := ∀ x, matches r x → may x = true.

Lemma triggers_seq may l r : monotone may → r ∈ l → triggers may r → triggers may (RSeq l).
Proof. intros Hm Hr Ht x Hx. destruct (seq_part r l Hr x Hx) as (a & y & b & -> & Hy). by apply Hm, Ht. Qed.

Lemma triggers_alts may l : Forall (triggers may) l → triggers may (RAlts l).
Proof. intros Hl x Hx. apply alts_matches in Hx as (r & Hr & Hx). rewrite Forall_forall in Hl. by eapply Hl. Qed.

Lemma triggers_lit may l : may l = true → triggers may (RLit l).
Proof. by intros H x ->%lit_matches. Qed.

Lemma triggers_cat_l may r1 r2 : monotone may → triggers may r1 → triggers may (RCat r1 r2).
Proof. intros Hm H x (s1 & s2 & -> & H1 & _)%cat_matches. apply (Hm EmptyString). by apply H. Qed.

Lemma triggers_cat_r may r1 r2 : monotone may → triggers may r2 → triggers may (RCat r1 r2).
Proof.
  intros Hm H x (s1 & s2 & -> & _ & H2)%cat_matches. rewrite <-(string_app_nil_r s2). by apply Hm, H.
Qed.

Lemma triggers_occurs may p s : monotone may → triggers may p.(p_first) ∨ triggers may p.(p_second) → occurs p s → may s = true.
Proof.
  intros Hm Ht (a & g1 & g2 & b & -> & H1 & H2). destruct Ht as [Ht|Ht].
  - by apply Hm, Ht.
  - rewrite string_app_assoc. by apply Hm, Ht.
Qed.

(** ** Names, in any case *)

Definition lows (s : string) : list Z := low <$> String.list_ascii_of_string s.

Lemma lows_app s t : lows (s +:+ t) = lows s ++ lows t.
Proof. unfold lows. induction s as [|c s IH]; [done|]. rewrite string_app_cons. cbn in *. by rewrite IH. Qed.

Lemma low_fold c d : upper_ascii c = upper_ascii d → low c = low d.
Proof.
  assert (∀ c, low c = low (upper_ascii c)) as H; [|intros E; by rewrite (H c), E, <-(H d)].
  clear. intros [[] [] [] [] [] [] [] []]; vm_compute; reflexivity.
Qed.

Fixpoint has_k (w : string) : bool :=
  match w with EmptyString => false | String c w' => Ascii.eqb (upper_ascii c) "K" || has_k w' end.

(** A text that matches a word in any case holds one of the two lead bytes or is the
    word up to the bit that tells the case. *)
Lemma fold_matches w : ∀ x, matches (RFold w) x →
  has_byte "197" x = true ∨ has_k w = true ∧ has_byte "226" x = true ∨ lows x = lows w.
Proof.
  induction w as [|c w IH]; intros x; cbn [RFold]; [intros ->%eps_matches; by right; right|].
  intros (s1 & s2 & -> & H1 & H2)%cat_matches.
  assert (has_byte "197" s1 = true ∨ Ascii.eqb (upper_ascii c) "K" = true ∧ has_byte "226" s1 = true ∨ lows s1 = [low c]) as Hc.
  { unfold RFoldChar in H1. destruct (Ascii.eqb (upper_ascii c) "S").
    - apply alt_matches in H1 as [(d & -> & Hd)%cls_matches|H1]; [|apply lit_matches in H1 as ->; by left].
      right; right. cbn. apply Ascii.eqb_eq in Hd. by rewrite (low_fold _ _ Hd).
    - destruct (Ascii.eqb (upper_ascii c) "K").
      + apply alt_matches in H1 as [(d & -> & Hd)%cls_matches|H1]; [|apply lit_matches in H1 as ->; right; by left].
        right; right. cbn. apply Ascii.eqb_eq in Hd. by rewrite (low_fold _ _ Hd).
      + apply cls_matches in H1 as (d & -> & Hd). right; right. cbn. apply Ascii.eqb_eq in Hd. by rewrite (low_fold _ _ Hd). }
  rewrite !has_byte_app. cbn [has_k]. destruct (IH s2 H2) as [H|[[Hk H]|H]]; [rewrite H, orb_true_r; by left| |].
  - rewrite Hk, H, !orb_true_r. right; left. done.
  - destruct Hc as [Hc|[[Hk Hc]|Hc]]; [rewrite Hc; by left|rewrite Hk, Hc; right; left; done|]. right; right.
    by rewrite lows_app, Hc, H.
Qed.

Lemma foldHas_lows l : ∀ x y, lows x = lows y → foldHas x l = foldHas y l.
Proof.
  induction l as [|d l IH]; [intros [|] [|]; done|]. intros [|c x] [|e y]; try done. cbn. intros [= Hc Hx]. rewrite Hc. f_equal. by apply IH.
Qed.

Lemma sensitive_at_lows c d x y : low c = low d → lows x = lows y → sensitive_at c x = sensitive_at d y.
Proof. intros Hc Hx. unfold sensitive_at. rewrite Hc. by rewrite !(λ l, foldHas_lows l x y Hx). Qed.

(** ** What sets the prefilters off *)

Fixpoint mentions_plain (s : string) : bool :=
  match s with EmptyString => false | String c r => sensitive_at c r || mentions_plain r end.

Lemma mentions_lows x : ∀ w, lows x = lows w → mentions_plain w = true → mentionsSensitive x = true.
Proof.
  induction x as [|c x IH]; intros [|d w]; try done. cbn [mentionsSensitive mentions_plain]. unfold lows. cbn. intros [= Hc Hx].
  rewrite (sensitive_at_lows c d x w Hc Hx). intros [-> | H]%orb_true_iff; [by rewrite orb_true_r|]. by rewrite (IH w), orb_true_r.
Qed.

Lemma mentions_byte b x : b = "197"%char ∨ b = "226"%char → has_byte b x = true → mentionsSensitive x = true.
Proof.
  intros Hb. induction x as [|c x IH]; [done|]. cbn [has_byte mentionsSensitive]. intros [->%Ascii.eqb_eq|H]%orb_true_iff.
  - by destruct Hb as [->| ->].
  - by rewrite IH, orb_true_r.
Qed.

Lemma word_triggers w : mentions_plain w = true → triggers mentionsSensitive (RFold w).
Proof.
  intros Hw x [H|[[_ H]|H]]%fold_matches; [by eapply mentions_byte; [left|]|by eapply mentions_byte; [right|]|by eapply mentions_lows].
Qed.

Lemma bearer_lows x : ∀ w, lows x = lows w → mayBearer w = true → has_byte "197" w = false → mayBearer x = true.
Proof.
  induction x as [|c x IH]; intros [|d w]; try done. cbn [mayBearer has_byte]. unfold lows. cbn. intros [= Hc Hx] Hm Hb.
  apply orb_false_iff in Hb as [Hd Hb]. rewrite Hc, !(λ l, foldHas_lows l x w Hx). apply orb_true_iff in Hm as [Hm|Hm].
  - apply orb_true_iff in Hm as [Hm|Hm]; [|by rewrite Hm, orb_true_r]. exfalso. apply Z.eqb_eq in Hm.
    assert (d = "197"%char) as ->; [|done]. rewrite <-(ascii_N_embedding d). unfold byte_of in Hm. replace (N_of_ascii d) with 197%N by lia. done.
  - by rewrite (IH w), orb_true_r.
Qed.

Lemma bearer_byte x : has_byte "197" x = true → mayBearer x = true.
Proof.
  induction x as [|c x IH]; [done|]. cbn [has_byte mayBearer]. intros [->%Ascii.eqb_eq|H]%orb_true_iff; [done|].
  by rewrite IH, orb_true_r.
Qed.

Lemma bearer_word_triggers w : mayBearer w = true → has_k w = false → has_byte "197" w = false → triggers mayBearer (RFold w).
Proof.
  intros Hw Hk Hb x [H|[[H _]|H]]%fold_matches; [by apply bearer_byte|by rewrite Hk in H|by eapply bearer_lows].
Qed.

(** One name: a word that sets the test off, alone or in a sequence. *)
Ltac name_triggers :=
  match goal with
  | |- triggers _ (RFold _) => apply word_triggers; vm_compute; reflexivity
  | |- triggers _ (RSeq [?a; ?d; ?w]) =>
      first [apply (triggers_seq mentionsSensitive [a; d; w] w);
               [apply mentionsSensitive_monotone|do 2 right; left|apply word_triggers; vm_compute; reflexivity]
            |apply (triggers_seq mentionsSensitive [a; d; w] a);
               [apply mentionsSensitive_monotone|left|apply word_triggers; vm_compute; reflexivity]]
  end.

Lemma names_trigger : triggers mentionsSensitive (RAlts assignment_names) ∧ triggers mentionsSensitive (RAlts flag_names) ∧
  triggers mentionsSensitive (RAlts header_names).
Proof. split_and!; apply triggers_alts; repeat (constructor; [name_triggers|]); constructor. Qed.

(** Each prefilter is a necessary condition for its pattern. *)
Lemma assignment_needs s : occurs assignment s → mentionsSensitive s = true ∧ (has_byte ":" s || has_byte "=" s) = true.
Proof.
  intros Ho. split.
  - revert Ho. apply triggers_occurs; [apply mentionsSensitive_monotone|left]. eapply triggers_seq; [apply mentionsSensitive_monotone| |apply (proj1 names_trigger)].
    right; right; left.
  - destruct Ho as (a & g1 & g2 & b & -> & H1 & _). apply (seq_part (RCls (any_of ":="))) in H1 as (c & y & d & -> & Hy); [|do 5 right; left].
    apply cls_matches in Hy as (e & -> & He). rewrite !has_byte_app. cbn [has_byte]. unfold any_of in He. cbn [has_byte] in He.
    rewrite orb_false_r in He. apply orb_true_iff in He as [He|He]; apply Ascii.eqb_eq in He as <-; cbn; rewrite !orb_true_r; done.
Qed.

Lemma flag_needs s : occurs flag s → mentionsSensitive s = true ∧ Contains s "--" = true.
Proof.
  intros Ho. split; revert Ho.
  - apply triggers_occurs; [apply mentionsSensitive_monotone|left]. eapply triggers_seq; [apply mentionsSensitive_monotone| |apply (proj1 (proj2 names_trigger))].
    right; left.
  - apply (triggers_occurs (λ s, Contains s "--")); [apply Contains_monotone|left]. eapply triggers_seq; [apply Contains_monotone| |apply (triggers_lit _ "--"); done].
    left.
Qed.

Lemma header_needs s : occurs header s → mentionsSensitive s = true ∧ has_byte ":" s = true.
Proof.
  intros Ho. split; revert Ho.
  - apply triggers_occurs; [apply mentionsSensitive_monotone|left]. eapply triggers_seq; [apply mentionsSensitive_monotone| |apply (proj2 (proj2 names_trigger))].
    left.
  - apply triggers_occurs; [apply has_byte_monotone|left]. eapply triggers_seq; [apply has_byte_monotone| |apply (triggers_lit _ ":"); done].
    right; right; left.
Qed.

Lemma bearer_needs s : occurs bearer s → mayBearer s = true.
Proof.
  apply triggers_occurs; [apply mayBearer_monotone|left]. apply (triggers_alts _ [RFold "Bearer"; RFold "Basic"]).
  repeat (apply Forall_cons; split); [apply bearer_word_triggers..|apply Forall_nil]; vm_compute; done.
Qed.

Lemma token_needs s : occurs token s → mayToken s = true.
Proof.
  apply triggers_occurs; [apply mayToken_monotone|right]. apply triggers_alts. repeat (apply Forall_cons; split); [..|apply Forall_nil];
    try (apply triggers_cat_l; [apply mayToken_monotone|]; first [apply triggers_lit; done
      |apply (triggers_alts _ [RLit "AKIA"; RLit "ASIA"]); repeat (apply Forall_cons; split); [apply triggers_lit; done..|apply Forall_nil]; done]).
  done.
Qed.

Lemma userinfo_needs s : occurs userinfo s → (has_byte "@" s && Contains s "://") = true.
Proof.
  intros Ho. apply andb_true_iff. split; revert Ho.
  - apply triggers_occurs; [apply has_byte_monotone|right]. apply triggers_cat_r; [apply has_byte_monotone|]. by apply triggers_lit.
  - apply (triggers_occurs (λ s, Contains s "://")); [apply Contains_monotone|left].
    eapply triggers_seq; [apply Contains_monotone| |apply (triggers_lit _ "://"); done]. right; right; left.
Qed.

(** * Redaction without prefilters *)

(** Every pattern on every line. *)
Definition redactPatterns_reference (line : string) : string :=
  redactAssignments flag (redactAssignments assignment (ReplaceAll header mask_header
    (ReplaceAll token mask_token (ReplaceAll bearer mask_bearer (ReplaceAll userinfo mask_userinfo line))))).
Definition redactText_reference `{RangeOrder} (m : Masker) (line : string) : string := redactPatterns_reference (replaceKnown m line).2.

Lemma filtered p f may s : (occurs p s → may = true) → (if may then ReplaceAll p f s else s) = ReplaceAll p f s.
Proof.
  destruct may; [done|]. intros H. symmetry. apply ReplaceAll_id. intros Ho. by apply H in Ho.
Qed.

Lemma redactPatterns_unfiltered line : redactPatterns line = redactPatterns_reference line.
Proof.
  unfold redactPatterns, redactPatterns_reference. cbv zeta.
  rewrite (filtered userinfo) by apply userinfo_needs. rewrite (filtered bearer) by apply bearer_needs.
  rewrite (filtered token) by apply token_needs.
  set (l := ReplaceAll token _ _). destruct (mentionsSensitive l) eqn:Hs; cbn [negb].
  - rewrite (filtered header) by apply header_needs. unfold redactAssignments.
    assert ((if has_byte ":" l || has_byte "=" (ReplaceAll header mask_header l)
             then ReplaceAll assignment mask_assignment (ReplaceAll header mask_header l) else ReplaceAll header mask_header l)
            = ReplaceAll assignment mask_assignment (ReplaceAll header mask_header l)) as ->.
    { apply filtered. intros Ho. destruct (has_byte ":" l) eqn:Hc; [done|]. cbn [orb].
      rewrite (ReplaceAll_id header) in Ho |- * by (intros [_ Hh]%header_needs; congruence).
      apply assignment_needs in Ho as [_ Ho]. by rewrite Hc in Ho. }
    apply filtered. apply flag_needs.
  - rewrite (ReplaceAll_id header) by (intros [Hh _]%header_needs; congruence). unfold redactAssignments.
    rewrite (ReplaceAll_id assignment) by (intros [Hh _]%assignment_needs; congruence).
    by rewrite (ReplaceAll_id flag) by (intros [Hh _]%flag_needs; congruence).
Qed.

(** C28: The prefilters skip work, never a credential: what a line becomes is what all
    the patterns, applied in order to the whole line, make of it. *)
Theorem redactText_unfiltered `{RangeOrder} m line : redactText m line = ((replaceKnown m line).1, redactText_reference m line).
Proof. unfold redactText, redactText_reference. destruct (replaceKnown m line) as [m' l]. cbn [fst snd]. by rewrite redactPatterns_unfiltered. Qed.

(** * Known values *)











#[export] Instance by_length_total : Total by_length.
Proof. intros a b. unfold by_length. lia. Qed.
#[export] Instance by_length_trans : Transitive by_length.
Proof. intros a b c. unfold by_length. lia. Qed.


(** * Bounds *)

Section masker.
Context `{Formats} `{RangeOrder} (timestamp : string → bool).

Definition total_bytes (values : gset string) : Z := foldr (λ v n, len v + n) 0 (elements values).

(** What holds of every masker: its memory is bounded, its values can be looked for. *)
Record bounded (m : Masker) : Prop := mkBounded {
  b_count : Z.of_nat (size m.(m_values)) ≤ maxMasks;
  b_bytes : total_bytes m.(m_values) ≤ m.(m_bytes) ≤ maxMaskBytes;
  b_each : ∀ v, v ∈ m.(m_values) → v ≠ EmptyString ∧ v ≠ Replacement ∧ len v ≤ MaxLineBytes;
  b_learned : lenl m.(m_dynamic) ≤ 256 ∧ ∀ v, v ∈ m.(m_dynamic) → len v ≤ MaxLineBytes;
}.

Lemma total_bytes_insert v values : v ∉ values → total_bytes ({[v]} ∪ values) = len v + total_bytes values.
Proof.
  intros Hv. unfold total_bytes.
  assert (∀ l l', l ≡ₚ l' → foldr (λ v n, len v + n) 0 l = foldr (λ v n, len v + n) 0 l') as Hp.
  { induction 1; cbn [foldr]; lia. }
  by rewrite (Hp _ _ (elements_union_singleton _ _ Hv)).
Qed.

Lemma total_bytes_nonneg values : 0 ≤ total_bytes values.
Proof. unfold total_bytes. induction (elements values) as [|v l IH]; cbn [foldr]; [lia|]. assert (0 ≤ len v) by (unfold len; lia). lia. Qed.

Lemma total_bytes_empty : total_bytes ∅ = 0.
Proof. unfold total_bytes. by rewrite elements_empty. Qed.

(** The ways the state changes; [key] allows the private-key state to. *)
Inductive moves (key : bool) : Masker → Masker → Prop :=
  | mv_refl m : moves key m m
  | mv_trans m1 m2 m3 : moves key m1 m2 → moves key m2 m3 → moves key m1 m3
  | mv_add m v : moves key m (add m v)
  | mv_learn m v : moves key m (learn m v)
  | mv_fail m : moves key m (set_failed m)
  | mv_invalidate m : moves key m (Invalidate m)
  | mv_replacer m line : moves key m (replaceKnown m line).1
  | mv_key m b : key = true → moves key m (set_privateKey m b).

Lemma moves_fold {A} key (f : Masker → A → Masker) (l : list A) : (∀ m x, moves key m (f m x)) → ∀ m, moves key m (fold_left f l m).
Proof.
  intros Hf. induction l as [|x l IH]; intros m; [apply mv_refl|]. cbn [fold_left]. eapply mv_trans; [apply Hf|apply IH].
Qed.

(** The value itself comes first. *)
Lemma addForms_add key m v : moves key (add m v) (addForms m v).
Proof.
  unfold addForms. destruct (_ || _) eqn:E.
  { unfold add. replace (is_empty v || (v =? Replacement)%string || m_failed m) with true; [apply mv_refl|].
    symmetry. apply orb_true_iff in E as [->| ->]; [done|apply orb_true_r]. }
  cbv zeta. eapply mv_trans; [|apply mv_add].
  eapply mv_trans; [|apply moves_fold; intros; apply mv_add]. do 3 (eapply mv_trans; [|apply mv_add]). apply mv_refl.
Qed.

Lemma addForms_moves key m v : moves key m (addForms m v).
Proof. eapply mv_trans; [apply mv_add|apply addForms_add]. Qed.

Lemma Add_moves key m v : moves key m (Add m v).
Proof.
  unfold Add. destruct (_ >? _); [apply mv_fail|]. cbv zeta.
  assert (moves key m (match url_password v with
    | Some password => addForms (fold_left addForms (line_fields EmptyString v) (addForms m v)) password
    | None => fold_left addForms (line_fields EmptyString v) (addForms m v) end)) as Hm.
  { assert (moves key m (fold_left addForms (line_fields EmptyString v) (addForms m v))) as H1.
    { eapply mv_trans; [apply addForms_moves|]. apply moves_fold. apply addForms_moves. }
    destruct (url_password v); [|done]. eapply mv_trans; [done|apply addForms_moves]. }
  destruct (_ <=? _); [|done]. eapply mv_trans; [exact Hm|]. apply moves_fold. intros m' x. destruct (SensitiveName x.1); [apply addForms_moves|apply mv_refl].
Qed.

Lemma mask_command_moves key m line : moves key m (mask_command m line).1.
Proof.
  unfold mask_command. destruct (cut_command line) as [[a b]|]; [|apply mv_refl]. cbv zeta. cbn [fst].
  eapply mv_trans; [eapply mv_trans; [apply Add_moves|apply mv_learn]|]. apply moves_fold. intros m' w.
  eapply mv_trans; [apply mv_add|apply mv_learn].
Qed.

Lemma Line_moves m line : moves true m (Line m line).1.
Proof.
  unfold Line. destruct (_ >? _); [apply mv_fail|]. cbv zeta.
  match goal with |- context [mask_command m ?l] => pose proof (mask_command_moves true m l) as Hm; destruct (mask_command m l) as [m1 l1] end.
  cbn [fst] in Hm. eapply mv_trans; [exact Hm|]. unfold key_state. cbv zeta. destruct (_ || _).
  - by apply mv_key.
  - pose proof (mv_replacer true (set_privateKey m1 false) l1) as Hr. unfold redactText. destruct (replaceKnown _ l1) as [m2 l2]. cbn [fst] in Hr.
    assert (moves true m1 m2) as Hm2 by (eapply mv_trans; [by apply mv_key|exact Hr]). destruct (_ && _); cbn [fst]; [|done].
    pose proof (mv_replacer true m2 (drop_cr l1)) as Hr2. destruct (replaceKnown m2 _) as [m3 l3]. cbn [fst] in Hr2.
    assert (moves true m1 m3) by (by eapply mv_trans). by destruct (negb _).
Qed.

Lemma read_all_moves timestamped fuel : ∀ m stream, moves true m (read_all timestamp fuel m timestamped stream).1.
Proof.
  induction fuel as [|n IH]; intros m stream; [apply mv_refl|]. cbn [read_all].
  destruct (Cut stream "010") as [[text rest]|]; [destruct (_ >? _)|destruct (_ >? _); [apply mv_fail|apply mv_refl]].
  - specialize (IH (set_failed m) rest). destruct (read_all _ n _ _ rest) as [m' out]. eapply mv_trans; [apply mv_fail|exact IH].
  - unfold read_chunk. cbv zeta. destruct (_ && _).
    + specialize (IH m rest). by destruct (read_all _ n m _ rest).
    + pose proof (Line_moves m text) as Hl. destruct (Line m text) as [m1 o1]. specialize (IH m1 rest).
      destruct (read_all _ n m1 _ rest) as [m2 o2]. eapply mv_trans; [exact Hl|exact IH].
Qed.

Lemma bounded_empty : bounded (mkMasker ∅ 0 false false [] None).
Proof. split; cbn [m_values m_bytes m_dynamic]; [done|rewrite total_bytes_empty; done|set_solver|split; [done|set_solver]]. Qed.

Lemma replaceKnown_cases m line : (replaceKnown m line).1 = m ∨
  (m.(m_replacer) = None ∧ (replaceKnown m line).1 = set_replacer m (replacer_values m.(m_values))).
Proof. unfold replaceKnown. destruct (m_failed m); [by left|]. destruct (m_replacer m); [by left|]. cbn [fst]. destruct (_ <? _)%nat; [by right|by left]. Qed.

Lemma moves_bounded key m m' : moves key m m' → bounded m → bounded m'.
Proof.
  induction 1 as [m|m1 m2 m3 _ IH1 _ IH2|m v|m v|m|m|m l|m b _]; intros Hb; [done|auto| | | | | |]; destruct Hb as [B1 B2 B3 B4]; pose proof (total_bytes_nonneg (m_values m)) as B0.
  - unfold add. destruct (is_empty v || _ || _) eqn:E; [done|]. apply orb_false_iff in E as [[E1 E2]%orb_false_iff E3].
    case_bool_decide as Hin; [done|]. destruct (_ || _) eqn:E4.
    + split; cbn [m_values m_bytes m_dynamic Invalidate]; [rewrite size_empty; done|rewrite total_bytes_empty; lia|set_solver|done].
    + split_orb. zify_bool. split; cbn [m_values m_bytes m_dynamic].
      * rewrite size_union_alt, size_singleton. rewrite difference_disjoint_L by set_solver. lia.
      * rewrite total_bytes_insert by done. lia.
      * intros w [->%elem_of_singleton|Hw]%elem_of_union; [|by apply B3]. split_and!; [by apply is_empty_false|by apply String.eqb_neq|done].
      * done.
  - unfold learn. destruct (_ && _) eqn:E; [|done]. apply andb_true_iff in E as [E1 E2]. zify_bool.
    split; cbn [m_values m_bytes m_dynamic]; [done..|]. unfold lenl in *. rewrite length_app. cbn [length]. split; [lia|].
    intros w [Hw| ->%list_elem_of_singleton]%elem_of_app; [by apply B4|done].
  - by split.
  - split; cbn [m_values m_bytes m_dynamic Invalidate]; [rewrite size_empty; done|rewrite total_bytes_empty; lia|set_solver|done].
  - destruct (replaceKnown_cases m l) as [->|[_ ->]]; by split.
  - by split.
Qed.




Lemma moves_New key secrets : moves key (mkMasker ∅ 0 false false [] None) (New secrets).
Proof. apply moves_fold. apply Add_moves. Qed.


(** ** Known values after any calls *)




(** Memory is bounded whatever is read: a masker made of any secrets holds, after
    any stream, at most 4096 values of at most 4 MiB together, none of them empty, the
    mask itself or longer than a line, and at most 256 learned ones. *)
Theorem masker_bounded secrets timestamped stream : bounded (ReadAll timestamp (New secrets) timestamped stream).1.
Proof.
  eapply moves_bounded; [apply read_all_moves|]. eapply moves_bounded; [apply (moves_New true)|]. apply bounded_empty.
Qed.
End masker.

(** * Giving up, and fragments *)

Section closed.
Context `{Formats} `{RangeOrder} (timestamp : string → bool).

Definition fixed (out : string) : Prop := out = withheld ∨ out = Replacement.

Lemma moves_failed key m m' : moves key m m' → m.(m_failed) = true → m'.(m_failed) = true.
Proof.
  induction 1 as [m|m1 m2 m3 _ IH1 _ IH2|m v|m v|m|m|m l|m b _]; intros Hf; auto.
  - unfold add. rewrite Hf, orb_true_r. done.
  - unfold learn. by destruct (_ && _).
  - by destruct (replaceKnown_cases m l) as [->|[_ ->]].
Qed.

Lemma redactText_failed m line : m.(m_failed) = true → redactText m line = (m, withheld).
Proof. intros Hf. unfold redactText, replaceKnown. by rewrite Hf. Qed.

Lemma Line_failed m line : (Line m line).1.(m_failed) = true → fixed (Line m line).2.
Proof.
  unfold Line. destruct (_ >? _); [by left|]. cbv zeta. destruct (mask_command m _) as [m1 l1] eqn:Hm.
  destruct (key_state m1 l1) as [m2 inside] eqn:Hk. destruct inside; [by right|]. cbn [fst snd].
  destruct (m_failed m2) eqn:Hf2.
  - rewrite redactText_failed by done. intros _. left. destruct (_ && _); [|done]. rewrite redactText_failed by done. by destruct (negb _).
  - intros Hf. exfalso. revert Hf. unfold redactText.
    assert (∀ m l, m.(m_failed) = false → (replaceKnown m l).1.(m_failed) = false) as Hk'.
    { intros m0 l0 Hm0. by destruct (replaceKnown_cases m0 l0) as [->|[_ ->]]. }
    pose proof (Hk' m2 l1 Hf2) as Hf3. destruct (replaceKnown m2 l1) as [m3 l3]. cbn [fst] in Hf3. destruct (_ && _); cbn [fst]; [|congruence].
    pose proof (Hk' m3 (drop_cr l1) Hf3) as Hf4. destruct (replaceKnown m3 (drop_cr l1)) as [m4 l4]. cbn [fst] in Hf4. destruct (negb _); cbn [fst]; congruence.
Qed.

Lemma read_all_lines timestamped fuel : ∀ m stream, m.(m_failed) = true → ∃ chunks,
  (read_all timestamp fuel m timestamped stream).2 = String.concat EmptyString ((λ c, c +:+ LF) <$> chunks) ∧
  Forall (λ c, c ∈ [withheld; Replacement; partial]) chunks.
Proof.
  induction fuel as [|n IH]; intros m stream Hf; [by exists []|]. cbn [read_all].
  assert (∀ c, c ∈ [withheld; Replacement; partial] → ∀ m' rest, m'.(m_failed) = true → ∃ chunks,
    c +:+ LF +:+ (read_all timestamp n m' timestamped rest).2 = String.concat EmptyString ((λ c, c +:+ LF) <$> chunks) ∧
    Forall (λ c, c ∈ [withheld; Replacement; partial]) chunks) as Hnext.
  { intros c Hc m' rest Hf'. destruct (IH m' rest Hf') as (chunks & -> & Hall). exists (c :: chunks).
    rewrite fmap_cons, concat_cons, <-string_app_assoc. split; [done|by constructor]. }
  destruct (Cut stream "010") as [[text rest]|]; [destruct (_ >? _)|destruct (_ >? _)].
  - specialize (Hnext withheld ltac:(left) (set_failed m) rest eq_refl). by destruct (read_all _ n _ _ rest).
  - unfold read_chunk. cbv zeta. destruct (_ && _).
    + specialize (Hnext partial ltac:(do 2 right; left) m rest Hf). destruct (read_all _ n m _ rest). cbn [snd] in *. by rewrite <-string_app_assoc.
    + pose proof (moves_failed _ _ _ (Line_moves m text) Hf) as Hf1. pose proof (Line_failed m text Hf1) as Hfix.
      destruct (Line m text) as [m1 o1]. cbn [fst snd] in *.
      specialize (Hnext o1 ltac:(destruct Hfix as [->| ->]; [left|right; left]) m1 rest Hf1).
      destruct (read_all _ n m1 _ rest). cbn [snd] in *. by rewrite <-string_app_assoc.
  - exists [withheld]. split; [done|]. repeat constructor.
  - destruct (is_empty stream); [by exists []|]. exists [partial]. split; [done|]. constructor; [do 2 right; left|constructor].
Qed.

(** C33: A masker that gave up is closed for good: whatever it reads afterwards, every
    line it emits is one of three fixed texts. *)
Theorem failed_masker_closed m timestamped stream : m.(m_failed) = true → ∃ chunks,
  (ReadAll timestamp m timestamped stream).2 = String.concat EmptyString ((λ c, c +:+ LF) <$> chunks) ∧
  Forall (λ c, c ∈ [withheld; Replacement; partial]) chunks ∧
  (ReadAll timestamp m timestamped stream).1.(m_failed) = true.
Proof.
  intros Hf. destruct (read_all_lines timestamped (S (String.length stream)) m stream Hf) as (chunks & H1 & H2).
  exists chunks. split_and!; [done..|]. eapply moves_failed; [apply read_all_moves|done].
Qed.

Lemma Cut_line_app a b s : Cut s "010" = Some (a, b) → ∀ t, Cut (s +:+ t) "010" = Some (a, b +:+ t).
Proof. intros [-> Ha]%Cut_Some t. rewrite <-string_app_assoc, string_app_cons. by apply Cut_app. Qed.

Lemma Cut_none_no_sep s c : Cut s c = None → no_sep c s.
Proof.
  unfold no_sep. induction s as [|d s IH]; [done|]. cbn [Cut has_byte]. destruct (Ascii.eqb d c); [done|].
  destruct (Cut s c) as [[]|]; [done|]. auto.
Qed.

(** The stream read so far ends at a line's end. *)
Definition whole (stream : string) : Prop := stream = EmptyString ∨ ∃ s, stream = s +:+ LF.

Lemma whole_cut stream a b : whole stream → Cut stream "010" = Some (a, b) → whole b.
Proof.
  intros [->|[s ->]] Hc; [done|]. apply Cut_Some in Hc as [E Ha]. destruct (Cut s "010") as [[p q]|] eqn:Hs.
  - right. exists q. apply (Cut_line_app _ _ _) with (t := LF) in Hs. rewrite E, Cut_app in Hs by done. by injection Hs as <- <-.
  - left. apply Cut_none_no_sep in Hs. change LF with (String "010" EmptyString) in E.
    pose proof (Cut_app s "010" EmptyString Hs) as H1. rewrite E, Cut_app in H1 by done. by injection H1 as _ ->.
Qed.

Lemma whole_no_cut stream : whole stream → Cut stream "010" = None → stream = EmptyString.
Proof.
  intros [->|[s ->]]; [done|]. intros Hn%Cut_none_no_sep. unfold no_sep in Hn. by rewrite has_byte_app, orb_true_r in Hn.
Qed.

Lemma read_all_fragment timestamped f1 f2 : no_sep "010" f1 → no_sep "010" f2 → f1 ≠ EmptyString → f2 ≠ EmptyString →
  len f1 ≤ MaxLineBytes → len f2 ≤ MaxLineBytes → ∀ n1 n2 m stream, whole stream →
  (String.length (stream +:+ f1) < n1)%nat → (String.length (stream +:+ f2) < n2)%nat →
  read_all timestamp n1 m timestamped (stream +:+ f1) = read_all timestamp n2 m timestamped (stream +:+ f2).
Proof.
  intros Hn1 Hn2 He1 He2 Hl1 Hl2. induction n1 as [|n1 IH]; intros [|n2] m stream Hw H1 H2; try lia. cbn [read_all].
  destruct (Cut stream "010") as [[text rest]|] eqn:Hc.
  - rewrite !(Cut_line_app _ _ _ Hc). assert (∀ f, String.length (stream +:+ f) = S (String.length text + String.length (rest +:+ f)))%nat as Hlen.
    { intros f. pose proof Hc as E. apply Cut_Some in E as [-> _]. rewrite <-string_app_assoc, string_app_cons, string_length_app. cbn [String.length]. lia. }
    rewrite Hlen in H1, H2. pose proof (whole_cut _ _ _ Hw Hc) as Hw'.
    assert (∀ m', read_all timestamp n1 m' timestamped (rest +:+ f1) = read_all timestamp n2 m' timestamped (rest +:+ f2)) as Hrec.
    { intros m'. apply IH; [done|lia|lia]. }
    destruct (_ >? _); [by rewrite Hrec|]. destruct (read_chunk _ m _ text) as [m1 o1]. by rewrite Hrec.
  - apply whole_no_cut in Hc as ->; [|done]. change (EmptyString +:+ f1) with f1. change (EmptyString +:+ f2) with f2.
    rewrite (Cut_none f1), (Cut_none f2) by done. rewrite !Z.gtb_ltb, (proj2 (Z.ltb_ge _ _) Hl1), (proj2 (Z.ltb_ge _ _) Hl2).
    by rewrite (proj2 (is_empty_false f1)), (proj2 (is_empty_false f2)).
Qed.

(** A partial line leaves no trace: two streams with the same whole lines and
    different fragments at the end give the same output and the same masker. *)
Theorem fragment_withheld m timestamped lines f1 f2 : whole lines → no_sep "010" f1 → no_sep "010" f2 →
  f1 ≠ EmptyString → f2 ≠ EmptyString → len f1 ≤ MaxLineBytes → len f2 ≤ MaxLineBytes →
  ReadAll timestamp m timestamped (lines +:+ f1) = ReadAll timestamp m timestamped (lines +:+ f2).
Proof. intros. unfold ReadAll. apply read_all_fragment; (done || lia). Qed.

Lemma moves_key m m' : moves false m m' → m'.(m_privateKey) = m.(m_privateKey).
Proof.
  remember false as key eqn:Hkey. induction 1 as [m|m1 m2 m3 _ IH1 _ IH2|m v|m v|m|m|m l|m b Hk]; [done| | | |done|done|by destruct (replaceKnown_cases m l) as [->|[_ ->]]|by rewrite Hk in Hkey].
  - rewrite IH2, IH1; done.
  - unfold add. by repeat case_match.
  - unfold learn. by case_match.
Qed.

(** The text of a line that the private-key state looks at. *)
Definition visible_text (m : Masker) (line : string) : string :=
  let line := if has_byte "027" line then strip_ansi line else line in
  let line := if hasControl line then strip_controls line else line in
  let line := if has_byte "013" line && gitlabSection line then line else drop_cr line in
  (mask_command m line).2.

(** Inside a private key nothing is emitted but the mask, and only a line with the
    key's end leaves it; outside, a line with a beginning is masked whole. *)
Theorem private_key_masked m line : len line ≤ MaxLineBytes →
  (m.(m_privateKey) = true ∨ privateBegin (visible_text m line) = true ∧ Contains (visible_text m line) "PRIVATE KEY" = true) →
  (Line m line).2 = Replacement ∧
  ((Line m line).1.(m_privateKey) = false →
    Contains (visible_text m line) "PRIVATE KEY" = true ∧ privateEnd (visible_text m line) = true).
Proof.
  intros Hl. unfold Line, visible_text. rewrite Z.gtb_ltb, (proj2 (Z.ltb_ge _ _) Hl). cbv zeta.
  match goal with |- context [mask_command m ?l] => set (l0 := l) in *; pose proof (mask_command_moves false m l0) as Hm;
    destruct (mask_command m l0) as [m1 l1] end.
  cbn [fst snd] in *. apply moves_key in Hm. intros Hk. unfold key_state. cbv zeta.
  assert (m_privateKey m1 || Contains l1 "PRIVATE KEY" && privateBegin l1 = true) as ->.
  { rewrite Hm. destruct Hk as [->|[-> ->]]; [done|apply orb_true_r]. }
  cbn [fst snd set_privateKey m_privateKey]. split; [done|]. intros Hn%negb_false_iff%andb_true_iff. done.
Qed.
End closed.

(** * Witnesses *)

Module LogmaskExample.
Definition plain : Formats := {| url_password := λ _, None; json_fields := λ _, []; json_text := λ s, s |}.
Definition stamp (s : string) : bool := false.
Definition secret_masker : Masker := mkMasker {["hunter2"; "hunter"]} 13 false false [] None.
Definition broken : Masker := Invalidate secret_masker.
Definition in_key : Masker := set_privateKey secret_masker true.
Definition key_end : string := "-----END RSA PRIVATE KEY-----".
End LogmaskExample.


Lemma failed_masker_closed_witness : ∃ chunks,
  (ReadAll (H := LogmaskExample.plain) LogmaskExample.stamp LogmaskExample.broken false ("token=x" +:+ LF +:+ "y")).2
    = String.concat EmptyString ((λ c, c +:+ LF) <$> chunks) ∧
  Forall (λ c, c ∈ [withheld; Replacement; partial]) chunks.
Proof.
  destruct (failed_masker_closed (H := LogmaskExample.plain) LogmaskExample.stamp LogmaskExample.broken false ("token=x" +:+ LF +:+ "y") eq_refl)
    as (chunks & H1 & H2 & _).
  exists chunks. split; [exact H1|exact H2].
Defined.

Lemma fragment_withheld_witness :
  ReadAll (H := LogmaskExample.plain) LogmaskExample.stamp LogmaskExample.secret_masker false (("line" +:+ LF) +:+ "password=ab")
  = ReadAll (H := LogmaskExample.plain) LogmaskExample.stamp LogmaskExample.secret_masker false (("line" +:+ LF) +:+ "other").
Proof.
  apply (fragment_withheld (H := LogmaskExample.plain) LogmaskExample.stamp LogmaskExample.secret_masker false ("line" +:+ LF)
    "password=ab" "other"); [right; by exists "line"|reflexivity|reflexivity|discriminate|discriminate|vm_compute; discriminate|vm_compute; discriminate].
Defined.

Lemma private_key_masked_witness :
  (Line (H := LogmaskExample.plain) LogmaskExample.in_key LogmaskExample.key_end).2 = Replacement.
Proof.
  apply (private_key_masked (H := LogmaskExample.plain) LogmaskExample.in_key LogmaskExample.key_end); [vm_compute; discriminate|by left].
Defined.
