(* ===== verification/Egress.v ===== *)
(** Guarded outbound connections: the addresses a secret provider may be reached at and
    the dialer that checks them (internal/secretprovider/http.go), and the trust policy
    of GitLab connections (internal/actions/gitlab_transport.go). Name resolution and
    the connection itself are arguments, as in the code; certificates and parsed URLs
    are a class. *)
From S2P Require Import Prelude GoStd GoNet.
#[global] Open Scope Z_scope.

(** [netip.MustParsePrefix] of a constant, and of a list of them. *)
Definition must_prefix (s : string) : Prefix := default (mkPrefix AddrZero 0) (ParsePrefix s).
Definition contained (l : list Prefix) (a : Addr) : bool := existsb (λ p, Prefix_Contains p a) l.

(** * Secret providers *)

Definition metadata_address : Addr := default AddrZero (ParseAddr "100.100.100.200").

Definition shared_networks : list Prefix := must_prefix <$>
  ["100.64.0.0/10"; "198.18.0.0/15"; "192.0.0.0/24"; "240.0.0.0/4"; "64:ff9b::/96"; "64:ff9b:1::/48"; "2002::/16"; "2001::/32"].

Definition allowedAddress (ip : Addr) (cidrs : list string) : bool :=
  let ip := Unmap ip in
  if negb (IsGlobalUnicast ip) || IsLoopback ip || IsLinkLocalUnicast ip || IsLinkLocalMulticast ip ||
     bool_decide (ip = metadata_address) then false
  else if negb (IsPrivate ip) then negb (contained shared_networks ip)
  else existsb (λ raw, match ParsePrefix raw with Some prefix => Prefix_Contains prefix ip | None => false end) cidrs.

Definition ErrUnavailable : error :=
  Errorf "external secret is unavailable; check provider access and configuration" [].

Section dialing.
(** The resolver, and the dialer with the connections it gives. *)
Context {Conn : Type} (lookup : string → result (list Addr)) (dial : string → result Conn).

Definition safeDial (address : string) (cidrs : list string) : result Conn :=
  match SplitHostPort address with
  | None => Err ErrUnavailable
  | Some (host, port) =>
      match lookup host with
      | Err _ => Err ErrUnavailable
      | Ok addresses =>
          if (lenl addresses =? 0) || (lenl addresses >? 16) then Err ErrUnavailable
          else
            _ ← iterM (λ ip, fail_when (negb (allowedAddress ip cidrs)) ErrUnavailable) addresses;
            dial (JoinHostPort (Addr_String (hd AddrZero addresses)) port)
      end
  end.

(** * GitLab *)

Record GitLabTrustPolicy : Type := mkGitLabTrustPolicy {
  gt_Name : string;
  gt_BaseURL : string;
  gt_CAPEM : string;
  gt_AllowedPrivateCIDRs : list string;
  gt_DeniedCIDRs : list string;
}.

(** [p.freshDenied]: absent, or the current addresses of the installation. *)
Record gitlabTransportPolicy : Type := mkGitlabTransportPolicy {
  gp_host : string;
  gp_port : string;
  gp_allowed : list Prefix;
  gp_denied : list Prefix;
  gp_freshDenied : option (result (list string));
}.

Definition gitlabSpecialNetworks : list Prefix := must_prefix <$>
  ["0.0.0.0/8"; "100.64.0.0/10"; "127.0.0.0/8"; "169.254.0.0/16"; "168.63.129.16/32"; "192.0.0.0/24";
   "192.0.2.0/24"; "198.18.0.0/15"; "198.51.100.0/24"; "203.0.113.0/24"; "224.0.0.0/4"; "240.0.0.0/4";
   "64:ff9b::/96"; "64:ff9b:1::/48"; "2001::/32"; "2001:db8::/32"; "2002::/16"; "fd00:ec2::254/128"].

Definition allowed_prefix (raw : string) : result Prefix :=
  let invalid := Errorf "GitLab installation policy must name explicit private network ranges" [] in
  match ParsePrefix raw with
  | None => Err invalid
  | Some prefix =>
      let a := prefix.(px_Addr) in
      if negb (bool_decide (prefix = Masked prefix)) || negb (IsPrivate a) || Is4In6 a ||
         Is4 a && (prefix.(px_Bits) <? 8) || Is6 a && (prefix.(px_Bits) <? 7) then Err invalid
      else Ok prefix
  end.

Definition denied_prefix (raw : string) : result Prefix :=
  let invalid := Errorf "GitLab installation policy contains an invalid denied network range" [] in
  match ParsePrefix raw with
  | None => Err invalid
  | Some prefix =>
      if negb (bool_decide (prefix = Masked prefix)) || Is4In6 prefix.(px_Addr) then Err invalid else Ok prefix
  end.

(** [gitlabPolicy] for the target's trust policy name and URL: [host] and [port] are
    those of the parsed URL, [roots] whether the system has its certificates, and
    [bundle] the reading of the CA bundle. *)
Definition gitlabPolicy (roots : bool) (bundle : string → result unit) (trust url host port : string) (configured : option GitLabTrustPolicy)
    : result gitlabTransportPolicy :=
  let port := if is_empty port then "443" else port in
  if negb roots then Err (Errorf "GitLab system certificate trust is unavailable" [])
  else match configured with
  | None =>
      if negb (is_empty trust) || negb (url =? "https://gitlab.com")%string then
        Err (Errorf "GitLab requires its resolved installation trust policy" [])
      else Ok (mkGitlabTransportPolicy host port [] [] None)
  | Some c =>
      if negb (c.(gt_Name) =? trust)%string || negb (c.(gt_BaseURL) =? url)%string || (len c.(gt_CAPEM) >? Z.shiftl 64 10) ||
         (lenl c.(gt_AllowedPrivateCIDRs) >? 32) || (lenl c.(gt_DeniedCIDRs) >? 64) then
        Err (Errorf "GitLab installation trust policy does not match the configured target or exceeds its bounds" [])
      else
        _ ← bundle c.(gt_CAPEM);
        allowed ← Prelude.mapM allowed_prefix c.(gt_AllowedPrivateCIDRs);
        denied ← Prelude.mapM denied_prefix c.(gt_DeniedCIDRs);
        Ok (mkGitlabTransportPolicy host port allowed denied None)
  end.

Definition allows (p : gitlabTransportPolicy) (address : Addr) : bool :=
  let address := Unmap address in
  if negb (IsValid address) || negb (IsGlobalUnicast address) || IsLoopback address || IsLinkLocalUnicast address ||
     IsLinkLocalMulticast address then false
  else if contained gitlabSpecialNetworks address then false
  else if contained p.(gp_denied) address then false
  else if negb (IsPrivate address) then true
  else contained p.(gp_allowed) address.

Definition GitLabError (kind : string) : error := Errorf "GitLab error %s" [AStr kind].

(** The denied networks of the policy with the fresh ones, for this dial only. *)
Definition current_policy (p : gitlabTransportPolicy) : result gitlabTransportPolicy :=
  match p.(gp_freshDenied) with
  | None => Ok p
  | Some (Err _) => Err (GitLabError "scope")
  | Some (Ok denied) =>
      if lenl denied >? 4096 then Err (GitLabError "scope")
      else
        fresh ← Prelude.mapM (λ raw, match ParsePrefix raw with
                                     | Some prefix => if bool_decide (prefix = Masked prefix) then Ok prefix else Err (GitLabError "scope")
                                     | None => Err (GitLabError "scope")
                                     end) denied;
        Ok (mkGitlabTransportPolicy p.(gp_host) p.(gp_port) p.(gp_allowed) (p.(gp_denied) ++ fresh) p.(gp_freshDenied))
  end.

(** The addresses are tried in order while the context, [live], lasts; with the texts
    that were dialed. *)
Fixpoint dial_first (live : nat → bool) (i : nat) (port : string) (addresses : list Addr) : result Conn * list string :=
  match addresses with
  | [] => (Err (GitLabError "transport"), [])
  | a :: rest =>
      let target := JoinHostPort (Addr_String (Unmap a)) port in
      match dial target with
      | Ok conn => (Ok conn, [target])
      | Err _ => if live i then let '(r, tried) := dial_first live (S i) port rest in (r, target :: tried)
                 else (Err (GitLabError "transport"), [target])
      end
  end.

Definition gitlab_dial (p : gitlabTransportPolicy) (live : nat → bool) (address : string) : result Conn * list string :=
  match SplitHostPort address with
  | None => (Err (GitLabError "scope"), [])
  | Some (host, port) =>
      if negb (host =? p.(gp_host))%string || negb (port =? p.(gp_port))%string then (Err (GitLabError "scope"), [])
      else match current_policy p with
      | Err e => (Err e, [])
      | Ok p =>
          match lookup host with
          | Err _ => (Err (GitLabError "scope"), [])
          | Ok addresses =>
              if (lenl addresses <? 1) || (lenl addresses >? 16) then (Err (GitLabError "scope"), [])
              else if negb (forallb (allows p) addresses) then (Err (GitLabError "scope"), [])
              else dial_first live 0 port addresses
          end
      end
  end.
End dialing.
