(* ===== verification/EgressSafety.v ===== *)
(** What the guarded dialers promise: which addresses a secret provider may be reached
    at, that only one checked address of a single resolution is dialed, and the same
    for GitLab connections with their denied networks. *)
From S2P Require Import Prelude GoStd Paths GoNet Prefixes AccessCanonical Egress.
#[global] Open Scope Z_scope.

(** * Address classes, as ranges of numbers *)

(** Unspecified, shared, loopback, link-local, protocol assignment, benchmark,
    multicast and reserved IPv4 addresses. *)
Definition reserved4 (ip : Z) : Prop :=
  ip = 0 ∨ ip / 2 ^ 22 = 100 * 4 + 1 ∨ ip / 2 ^ 24 = 127 ∨ ip / 2 ^ 16 = 169 * 256 + 254 ∨
  ip / 2 ^ 8 = 192 * 65536 ∨ ip / 2 ^ 17 = 198 * 128 + 9 ∨ ip / 2 ^ 28 = 14 ∨ ip / 2 ^ 28 = 15.

(** Unspecified, loopback, link-local and multicast IPv6 addresses, and those that
    embed IPv4 addresses: NAT64, Teredo and 6to4. *)
Definition reserved6 (ip : Z) : Prop :=
  ip = 0 ∨ ip = 1 ∨ ip / 2 ^ 118 = 65152 / 64 ∨ ip / 2 ^ 120 = 255 ∨ ip / 2 ^ 32 = 0x0064ff9b * 2 ^ 64 ∨
  ip / 2 ^ 80 = 0x0064ff9b0001 ∨ ip / 2 ^ 96 = 0x20010000 ∨ ip / 2 ^ 112 = 0x2002.

Definition reserved (a : Addr) : Prop :=
  match a with AddrZero => True | Addr4 ip => reserved4 ip | Addr6 ip _ => reserved6 ip end.

Definition private (a : Addr) : Prop :=
  match a with AddrZero => False | Addr4 ip => private4 ip = true | Addr6 ip _ => private6 ip = true end.

(** The networks a list of texts names. *)
Definition inside (cidrs : list string) (a : Addr) : Prop :=
  ∃ raw prefix, raw ∈ cidrs ∧ ParsePrefix raw = Some prefix ∧ Prefix_Contains prefix a = true.

Definition reachable (cidrs : list string) (a : Addr) : Prop := ¬ reserved a ∧ (private a → inside cidrs a).

(** An address as a resolver gives it. *)
Definition resolved (a : Addr) : Prop := addr_ok a ∧ Zone a = EmptyString.

Lemma Unmap_idem a : Unmap (Unmap a) = Unmap a.
Proof. unfold Unmap at 2 3. by destruct (Is4In6 a) eqn:Ha; [|unfold Unmap; rewrite Ha]. Qed.

Lemma Unmap_resolved a : resolved a → resolved (Unmap a).
Proof.
  intros [Hok Hz]. unfold Unmap. destruct (Is4In6 a); [|done]. split; [|done]. cbn [addr_ok].
  apply Z.mod_pos_bound. lia.
Qed.

(** A resolved address that is not IPv4 in disguise. *)
Lemma Unmap_cases a : resolved a → (∃ ip, Unmap a = Addr4 ip ∧ 0 ≤ ip < 2 ^ 32) ∨
  (∃ ip, Unmap a = Addr6 ip EmptyString ∧ 0 ≤ ip < 2 ^ 128 ∧ ip / 2 ^ 32 ≠ 65535).
Proof.
  intros Hok. apply Unmap_resolved in Hok as [Hok Hz]. pose proof (Unmap_idem a) as Hid.
  destruct (Unmap a) as [|ip|ip zone]; cbn [addr_ok Zone] in *; [done|left; eauto|right].
  subst zone. exists ip. split_and!; [done|lia..|]. intros Heq. unfold Unmap in Hid. cbn [Is4In6] in Hid.
  by rewrite Heq in Hid.
Qed.

Lemma existsb_iff {A} (f : A → bool) l : existsb f l = true ↔ ∃ x, x ∈ l ∧ f x = true.
Proof. rewrite existsb_exists. by setoid_rewrite <-list_elem_of_In. Qed.

Lemma inside_existsb cidrs a :
  existsb (λ raw, match ParsePrefix raw with Some p => Prefix_Contains p a | None => false end) cidrs = true ↔ inside cidrs a.
Proof.
  rewrite existsb_iff. split.
  - intros (raw & Hin & Hp). destruct (ParsePrefix raw) as [p|] eqn:?; [|done]. by exists raw, p.
  - intros (raw & p & Hin & Hp & Hc). exists raw. by rewrite Hp.
Qed.

Lemma IsPrivate_iff a : IsPrivate a = true ↔ private (Unmap a).
Proof. unfold IsPrivate, private. by destruct (Unmap a). Qed.

(** ** The networks of the code against the ranges *)

Lemma contained4 l ip : contained l (Addr4 ip) = existsb (λ p,
  match p.(px_Addr) with Addr4 n => n / 2 ^ (32 - p.(px_Bits)) =? ip / 2 ^ (32 - p.(px_Bits)) | _ => false end) l.
Proof. unfold contained. induction l as [|[[|n|n z] b] l IH]; [done|..]; cbn [existsb]; by rewrite IH. Qed.

Lemma contained6 l ip : contained l (Addr6 ip EmptyString) = existsb (λ p,
  match p.(px_Addr) with Addr6 n _ => n / 2 ^ (128 - p.(px_Bits)) =? ip / 2 ^ (128 - p.(px_Bits)) | _ => false end) l.
Proof. unfold contained. induction l as [|[[|n|n z] b] l IH]; [done|..]; cbn [existsb]; by rewrite IH. Qed.

Definition shared_table : list Prefix := [
  mkPrefix (Addr4 0x64400000) 10; mkPrefix (Addr4 0xc6120000) 15; mkPrefix (Addr4 0xc0000000) 24; mkPrefix (Addr4 0xf0000000) 4;
  mkPrefix (Addr6 (0x0064ff9b * 2 ^ 96) EmptyString) 96; mkPrefix (Addr6 (0x0064ff9b0001 * 2 ^ 80) EmptyString) 48;
  mkPrefix (Addr6 (0x2002 * 2 ^ 112) EmptyString) 16; mkPrefix (Addr6 (0x2001 * 2 ^ 112) EmptyString) 32].
Lemma shared_networks_table : shared_networks = shared_table.
Proof. vm_compute. reflexivity. Qed.

(** The tests before the networks, on the numbers. *)
Definition refused (ip : Addr) : bool :=
  negb (IsGlobalUnicast ip) || IsLoopback ip || IsLinkLocalUnicast ip || IsLinkLocalMulticast ip || bool_decide (ip = metadata_address).

Lemma refused4 ip : refused (Addr4 ip) = false ↔
  ¬ (ip = 0 ∨ ip = 2 ^ 32 - 1 ∨ ip / 2 ^ 24 = 127 ∨ ip / 2 ^ 28 = 14 ∨ ip / 2 ^ 16 = 169 * 256 + 254 ∨ ip / 2 ^ 8 = 224 * 65536 ∨ ip = 0x646464c8).
Proof.
  unfold refused. change metadata_address with (Addr4 0x646464c8).
  assert (bool_decide (Addr4 ip = Addr4 0x646464c8) = (ip =? 0x646464c8)) as ->.
  { apply eq_true_iff_eq. rewrite bool_decide_eq_true, Z.eqb_eq. naive_solver. }
  unfold IsGlobalUnicast, IsLoopback, IsMulticast, IsLinkLocalUnicast, IsLinkLocalMulticast, Unmap.
  cbn [Is4In6]. rewrite !orb_false_iff, !negb_false_iff, !andb_true_iff, !negb_true_iff, !Z.eqb_neq. lia.
Qed.

Lemma refused6 ip : ip / 2 ^ 32 ≠ 65535 → refused (Addr6 ip EmptyString) = false ↔
  ¬ (ip = 0 ∨ ip = 1 ∨ ip / 2 ^ 120 = 255 ∨ ip / 2 ^ 118 = 65152 / 64).
Proof.
  intros Hm. unfold refused, IsGlobalUnicast, IsLoopback, IsMulticast, IsLinkLocalUnicast, IsLinkLocalMulticast, Unmap.
  assert (Is4In6 (Addr6 ip EmptyString) = false) as -> by by apply Z.eqb_neq. 
  rewrite (bool_decide_eq_false_2 (Addr6 ip EmptyString = metadata_address)) by done.
  assert (bool_decide (Addr6 ip EmptyString = Addr6 0 EmptyString) = (ip =? 0)) as ->.
  { apply eq_true_iff_eq. rewrite bool_decide_eq_true, Z.eqb_eq. naive_solver. }
  rewrite !orb_false_iff, !negb_false_iff, !andb_true_iff, !negb_true_iff, !andb_false_iff, !Z.eqb_neq. lia.
Qed.

Lemma shared4 ip : contained shared_networks (Addr4 ip) = true ↔
  ip / 2 ^ 22 = 100 * 4 + 1 ∨ ip / 2 ^ 17 = 198 * 128 + 9 ∨ ip / 2 ^ 8 = 192 * 65536 ∨ ip / 2 ^ 28 = 15.
Proof.
  rewrite contained4, shared_networks_table.
  change (((100 * 4 + 1 =? ip / 2 ^ 22) || ((198 * 128 + 9 =? ip / 2 ^ 17) || ((192 * 65536 =? ip / 2 ^ 8) || ((15 =? ip / 2 ^ 28) || false)))) = true ↔
    ip / 2 ^ 22 = 100 * 4 + 1 ∨ ip / 2 ^ 17 = 198 * 128 + 9 ∨ ip / 2 ^ 8 = 192 * 65536 ∨ ip / 2 ^ 28 = 15).
  rewrite !orb_true_iff, !Z.eqb_eq. intuition congruence.
Qed.

Lemma shared6 ip : contained shared_networks (Addr6 ip EmptyString) = true ↔
  ip / 2 ^ 32 = 0x0064ff9b * 2 ^ 64 ∨ ip / 2 ^ 80 = 0x0064ff9b0001 ∨ ip / 2 ^ 112 = 0x2002 ∨ ip / 2 ^ 96 = 0x20010000.
Proof.
  rewrite contained6, shared_networks_table.
  change (((0x0064ff9b * 2 ^ 64 =? ip / 2 ^ 32) || ((0x0064ff9b0001 =? ip / 2 ^ 80) || ((0x2002 =? ip / 2 ^ 112) ||
    ((0x20010000 =? ip / 2 ^ 96) || false)))) = true ↔
    ip / 2 ^ 32 = 0x0064ff9b * 2 ^ 64 ∨ ip / 2 ^ 80 = 0x0064ff9b0001 ∨ ip / 2 ^ 112 = 0x2002 ∨ ip / 2 ^ 96 = 0x20010000).
  rewrite !orb_true_iff, !Z.eqb_eq. intuition congruence.
Qed.

(** * The addresses of secret providers *)

Lemma not_true_or_false (b : bool) (P : Prop) : (b = true ↔ P) → (b = false ↔ ¬ P).
Proof. destruct b; naive_solver. Qed.

Lemma allowed_unfold a cidrs : allowedAddress a cidrs = true ↔
  refused (Unmap a) = false ∧ (private (Unmap a) ∧ inside cidrs (Unmap a) ∨ ¬ private (Unmap a) ∧ contained shared_networks (Unmap a) = false).
Proof.
  unfold allowedAddress. cbv zeta. fold (refused (Unmap a)).
  pose proof (IsPrivate_iff (Unmap a)) as Hp. rewrite Unmap_idem in Hp.
  pose proof (inside_existsb cidrs (Unmap a)) as Hi.
  destruct (refused (Unmap a)); [intuition discriminate|]. destruct (IsPrivate (Unmap a)); cbn [negb].
  - rewrite Hi. tauto.
  - rewrite negb_true_iff. assert (¬ private (Unmap a)) by (intros ?%Hp; done). tauto.
Qed.

(** A network as a range of numbers. *)
Lemma div_range x k c : 0 ≤ k → (x / 2 ^ k = c ↔ c * 2 ^ k ≤ x < (c + 1) * 2 ^ k).
Proof. intros Hk. pose proof (Z.pow_pos_nonneg 2 k ltac:(lia) Hk). split.
  - intros <-. pose proof (Z.mul_div_le x (2 ^ k)). pose proof (Z.mul_succ_div_gt x (2 ^ k)). lia.
  - intros Hx. symmetry. apply (Z.div_unique x (2 ^ k) c (x - c * 2 ^ k)); lia.
Qed.

(** What is refused, or shared while not private, is what is reserved. *)
Lemma reserved4_exact ip : 0 ≤ ip < 2 ^ 32 →
  (reserved4 ip ↔ refused (Addr4 ip) = true ∨ private4 ip = false ∧ contained shared_networks (Addr4 ip) = true).
Proof.
  intros Hr. pose proof (refused4 ip) as Hf. rewrite shared4.
  assert (private4 ip = true ↔ ip / 2 ^ 24 = 10 ∨ ip / 2 ^ 20 = 172 * 16 + 1 ∨ ip / 2 ^ 16 = 192 * 256 + 168) as Hp.
  { unfold private4. rewrite !orb_true_iff, !Z.eqb_eq. tauto. }
  unfold reserved4. rewrite !div_range in * by lia. destruct (refused (Addr4 ip)); [|destruct (private4 ip)].
  - split; [by left|]. intros _. apply dec_stable. intros Hn. enough (true = false) by done. apply Hf. lia.
  - destruct Hf as [Hf _], Hp as [Hp _]. specialize (Hf eq_refl). specialize (Hp eq_refl). split; [intros Hres; exfalso; lia|]. by intros [|[]].
  - destruct Hf as [Hf _]. specialize (Hf eq_refl). split; [|intros [|[]]; [done|lia]]. intros; right. split; [done|]. lia.
Qed.

Lemma reserved6_exact ip : 0 ≤ ip < 2 ^ 128 → ip / 2 ^ 32 ≠ 65535 →
  (reserved6 ip ↔ refused (Addr6 ip EmptyString) = true ∨ private6 ip = false ∧ contained shared_networks (Addr6 ip EmptyString) = true).
Proof.
  intros Hr Hm. pose proof (refused6 ip Hm) as Hf. rewrite shared6.
  assert (private6 ip = true ↔ ip / 2 ^ 121 = 126) as Hp by apply Z.eqb_eq.
  unfold reserved6. destruct (refused (Addr6 ip EmptyString)); [|destruct (private6 ip)].
  - split; [by left|]. intros _. apply dec_stable. intros Hn. enough (true = false) by done. apply Hf. tauto.
  - destruct Hf as [Hf _], Hp as [Hp _]. specialize (Hf eq_refl). specialize (Hp eq_refl). rewrite !div_range in * by lia. split; [intros Hres; exfalso; lia|]. by intros [|[]].
  - destruct Hf as [Hf _]. specialize (Hf eq_refl). split; [|intros [|[]]; [done|tauto]]. intros; right. split; [done|]. tauto.
Qed.

Lemma allowed_exact a cidrs : resolved a → allowedAddress a cidrs = true ↔ reachable cidrs (Unmap a).
Proof.
  intros Hok. rewrite allowed_unfold. unfold reachable.
  destruct (Unmap_cases a Hok) as [(ip & -> & Hr)|(ip & -> & Hr & Hm)]; cbn [private reserved].
  - rewrite (reserved4_exact ip Hr). destruct (refused _), (private4 ip), (contained _ _); intuition congruence.
  - rewrite (reserved6_exact ip Hr Hm). destruct (refused _), (private6 ip), (contained _ _); intuition congruence.
Qed.

(** * Dialing a secret provider *)

Lemma iterM_guard {A} (f : A → bool) e (l : list A) :
  iterM (λ x, fail_when (negb (f x)) e) l = if forallb f l then Ok tt else Err e.
Proof. induction l as [|x l IH]; [done|]. cbn [iterM forallb]. destruct (f x); [exact IH|done]. Qed.

Lemma forallb_Forall_iff {A} (f : A → bool) (P : A → Prop) l : (∀ x, x ∈ l → f x = true ↔ P x) → forallb f l = true ↔ Forall P l.
Proof.
  rewrite forallb_forall, Forall_forall. setoid_rewrite <-list_elem_of_In. naive_solver.
Qed.

(** The answer of a resolver that a provider may be dialed at: between one and sixteen
    addresses, all of them reachable. *)
Definition provider_answer (cidrs : list string) (addresses : list Addr) : Prop :=
  0 < lenl addresses ≤ 16 ∧ Forall (λ a, reachable cidrs (Unmap a)) addresses.

Section provider.
Context {Conn : Type} (lookup : string → result (list Addr)) (dial : string → result Conn).
Context (lookup_resolved : ∀ host l, lookup host = Ok l → Forall resolved l).

(** *)
Theorem safeDial_exact address cidrs :
  (∀ host port a rest, SplitHostPort address = Some (host, port) → lookup host = Ok (a :: rest) →
     provider_answer cidrs (a :: rest) → safeDial lookup dial address cidrs = dial (JoinHostPort (Addr_String a) port)) ∧
  ((¬ ∃ host port l, SplitHostPort address = Some (host, port) ∧ lookup host = Ok l ∧ provider_answer cidrs l) →
     safeDial lookup dial address cidrs = Err ErrUnavailable).
Proof.
  assert (∀ host l, lookup host = Ok l → forallb (λ a, allowedAddress a cidrs) l = true ↔ Forall (λ a, reachable cidrs (Unmap a)) l) as Hall.
  { intros host l Hl. apply forallb_Forall_iff. intros a Ha. rewrite allowed_unfold.
    pose proof (proj1 (Forall_forall _ _) (lookup_resolved _ _ Hl) a Ha) as Hok. rewrite <-allowed_unfold. by apply allowed_exact. }
  unfold safeDial, provider_answer. split.
  - intros host port a rest -> Hl [Hn Hok%(Hall _ _ Hl)]. rewrite Hl, iterM_guard, Hok.
    replace (_ || _) with false; [done|]. symmetry. rewrite orb_false_iff, Z.eqb_neq, Z.gtb_ltb, Z.ltb_ge. lia.
  - intros Hno. destruct (SplitHostPort address) as [[host port]|]; [|done]. destruct (lookup host) as [l|] eqn:Hl; [|done].
    destruct (_ || _) eqn:Hn; [done|]. rewrite iterM_guard. destruct (forallb _ l) eqn:Hf; [|done]. destruct Hno.
    exists host, port, l. split_and!; [done..| | |by apply (Hall host)]; rewrite orb_false_iff, Z.eqb_neq, Z.gtb_ltb, Z.ltb_ge in Hn; unfold lenl in *; lia.
Qed.
End provider.

(** * Dialing GitLab *)

(** The whole of network zero, the networks of documentation, and the metadata services
    of Azure and AWS. *)
Definition special (a : Addr) : Prop :=
  match a with
  | AddrZero => False
  | Addr4 ip => ip / 2 ^ 24 = 0 ∨ ip / 2 ^ 8 = 192 * 65536 + 2 ∨ ip / 2 ^ 8 = 198 * 65536 + 51 * 256 + 100 ∨
                ip / 2 ^ 8 = 203 * 65536 + 113 ∨ ip / 2 ^ 0 = 0xa83f8110
  | Addr6 ip _ => ip / 2 ^ 96 = 0x20010db8 ∨ ip / 2 ^ 0 = 0xfd000ec2 * 2 ^ 96 + 0x254
  end.

Definition within (networks : list Prefix) (a : Addr) : Prop := ∃ p, p ∈ networks ∧ Prefix_Contains p a = true.

(** What a policy lets through: denied networks win over allowed ones, and a private
    address needs one. *)
Definition gitlab_reachable (p : gitlabTransportPolicy) (a : Addr) : Prop :=
  ¬ reserved a ∧ ¬ special a ∧ ¬ within p.(gp_denied) a ∧ (private a → within p.(gp_allowed) a).

Lemma contained_iff networks a : contained networks a = true ↔ within networks a.
Proof. apply existsb_iff. Qed.

Definition special_table : list Prefix := [
  mkPrefix (Addr4 0) 8; mkPrefix (Addr4 0x64400000) 10; mkPrefix (Addr4 0x7f000000) 8; mkPrefix (Addr4 0xa9fe0000) 16;
  mkPrefix (Addr4 0xa83f8110) 32; mkPrefix (Addr4 0xc0000000) 24; mkPrefix (Addr4 0xc0000200) 24; mkPrefix (Addr4 0xc6120000) 15;
  mkPrefix (Addr4 0xc6336400) 24; mkPrefix (Addr4 0xcb007100) 24; mkPrefix (Addr4 0xe0000000) 4; mkPrefix (Addr4 0xf0000000) 4;
  mkPrefix (Addr6 (0x0064ff9b * 2 ^ 96) EmptyString) 96; mkPrefix (Addr6 (0x0064ff9b0001 * 2 ^ 80) EmptyString) 48;
  mkPrefix (Addr6 (0x2001 * 2 ^ 112) EmptyString) 32; mkPrefix (Addr6 (0x20010db8 * 2 ^ 96) EmptyString) 32;
  mkPrefix (Addr6 (0x2002 * 2 ^ 112) EmptyString) 16; mkPrefix (Addr6 (0xfd000ec2 * 2 ^ 96 + 0x254) EmptyString) 128].
Lemma special_networks_table : gitlabSpecialNetworks = special_table.
Proof. vm_compute. reflexivity. Qed.

Lemma special4 ip : contained gitlabSpecialNetworks (Addr4 ip) = true ↔ special (Addr4 ip) ∨
  ip / 2 ^ 22 = 100 * 4 + 1 ∨ ip / 2 ^ 24 = 127 ∨ ip / 2 ^ 16 = 169 * 256 + 254 ∨ ip / 2 ^ 8 = 192 * 65536 ∨
  ip / 2 ^ 17 = 198 * 128 + 9 ∨ ip / 2 ^ 28 = 14 ∨ ip / 2 ^ 28 = 15.
Proof.
  rewrite contained4, special_networks_table.
  match goal with |- _ ↔ ?P => change (((0 =? ip / 2 ^ 24) || ((100 * 4 + 1 =? ip / 2 ^ 22) || ((127 =? ip / 2 ^ 24) || ((169 * 256 + 254 =? ip / 2 ^ 16) ||
    ((0xa83f8110 =? ip / 2 ^ 0) || ((192 * 65536 =? ip / 2 ^ 8) || ((192 * 65536 + 2 =? ip / 2 ^ 8) || ((198 * 128 + 9 =? ip / 2 ^ 17) ||
    ((198 * 65536 + 51 * 256 + 100 =? ip / 2 ^ 8) || ((203 * 65536 + 113 =? ip / 2 ^ 8) || ((14 =? ip / 2 ^ 28) ||
    ((15 =? ip / 2 ^ 28) || false)))))))))))) = true ↔ P) end.
  rewrite !orb_true_iff, !Z.eqb_eq. cbn [special]. split; intros Hip; repeat destruct Hip as [Hip|Hip]; auto 15; done.
Qed.

Lemma special6 ip : contained gitlabSpecialNetworks (Addr6 ip EmptyString) = true ↔ special (Addr6 ip EmptyString) ∨
  ip / 2 ^ 32 = 0x0064ff9b * 2 ^ 64 ∨ ip / 2 ^ 80 = 0x0064ff9b0001 ∨ ip / 2 ^ 96 = 0x20010000 ∨ ip / 2 ^ 112 = 0x2002.
Proof.
  rewrite contained6, special_networks_table.
  match goal with |- _ ↔ ?P => change (((0x0064ff9b * 2 ^ 64 =? ip / 2 ^ 32) || ((0x0064ff9b0001 =? ip / 2 ^ 80) || ((0x20010000 =? ip / 2 ^ 96) ||
    ((0x20010db8 =? ip / 2 ^ 96) || ((0x2002 =? ip / 2 ^ 112) || ((0xfd000ec2 * 2 ^ 96 + 0x254 =? ip / 2 ^ 0) || false)))))) = true ↔ P) end.
  rewrite !orb_true_iff, !Z.eqb_eq. cbn [special]. split; intros Hip; repeat destruct Hip as [Hip|Hip]; auto 15; done.
Qed.

Definition unroutable (a : Addr) : bool :=
  negb (IsValid a) || negb (IsGlobalUnicast a) || IsLoopback a || IsLinkLocalUnicast a || IsLinkLocalMulticast a.

Lemma unroutable4 ip : unroutable (Addr4 ip) = false ↔
  ¬ (ip = 0 ∨ ip = 2 ^ 32 - 1 ∨ ip / 2 ^ 24 = 127 ∨ ip / 2 ^ 28 = 14 ∨ ip / 2 ^ 16 = 169 * 256 + 254 ∨ ip / 2 ^ 8 = 224 * 65536).
Proof.
  unfold unroutable, IsGlobalUnicast, IsLoopback, IsMulticast, IsLinkLocalUnicast, IsLinkLocalMulticast, Unmap.
  cbn [Is4In6 IsValid Is4 Is6 orb negb]. rewrite !orb_false_iff, !negb_false_iff, !andb_true_iff, !negb_true_iff, !Z.eqb_neq. lia.
Qed.

Lemma unroutable6 ip : ip / 2 ^ 32 ≠ 65535 → unroutable (Addr6 ip EmptyString) = false ↔
  ¬ (ip = 0 ∨ ip = 1 ∨ ip / 2 ^ 120 = 255 ∨ ip / 2 ^ 118 = 65152 / 64).
Proof.
  intros Hm. rewrite <-(refused6 ip Hm). unfold refused, unroutable.
  rewrite (bool_decide_eq_false_2 (Addr6 ip EmptyString = metadata_address)) by done.
  by rewrite orb_false_r.
Qed.

(** What the checks before the lists of a policy refuse. *)
Lemma reserved_special4 ip : 0 ≤ ip < 2 ^ 32 →
  (reserved4 ip ∨ special (Addr4 ip) ↔ unroutable (Addr4 ip) = true ∨ contained gitlabSpecialNetworks (Addr4 ip) = true).
Proof.
  intros Hr. rewrite special4. pose proof (unroutable4 ip) as Hu. unfold reserved4.
  destruct (unroutable (Addr4 ip)); [|destruct Hu as [Hu _]; specialize (Hu eq_refl); intuition lia].
  split; [by left|]. intros _. cbn [special]. rewrite !div_range in * by lia.
  apply dec_stable. intros Hn. enough (true = false) by done. apply Hu. lia.
Qed.

Lemma reserved_special6 ip : 0 ≤ ip < 2 ^ 128 → ip / 2 ^ 32 ≠ 65535 →
  (reserved6 ip ∨ special (Addr6 ip EmptyString) ↔
   unroutable (Addr6 ip EmptyString) = true ∨ contained gitlabSpecialNetworks (Addr6 ip EmptyString) = true).
Proof.
  intros Hr Hm. rewrite special6. pose proof (unroutable6 ip Hm) as Hu. unfold reserved6.
  destruct (unroutable (Addr6 ip EmptyString)); [|destruct Hu as [Hu _]; specialize (Hu eq_refl); intuition lia].
  split; [by left|]. intros _. cbn [special].
  apply dec_stable. intros Hn. enough (true = false) by done. apply Hu. tauto.
Qed.

Lemma allows_exact p a : resolved a → allows p a = true ↔ gitlab_reachable p (Unmap a).
Proof.
  intros Hok.
  assert (reserved (Unmap a) ∨ special (Unmap a) ↔ unroutable (Unmap a) = true ∨ contained gitlabSpecialNetworks (Unmap a) = true) as Hres.
  { destruct (Unmap_cases a Hok) as [(ip & -> & Hr)|(ip & -> & Hr & Hm)]; [by apply reserved_special4|by apply reserved_special6]. }
  unfold gitlab_reachable. rewrite <-!contained_iff.
  pose proof (IsPrivate_iff (Unmap a)) as Hp. rewrite Unmap_idem in Hp.
  unfold allows. fold (unroutable (Unmap a)). cbv zeta.
  destruct (unroutable (Unmap a)), (contained gitlabSpecialNetworks (Unmap a)); [intuition discriminate..|].
  destruct (contained (gp_denied p) (Unmap a)); [intuition discriminate|].
  destruct (IsPrivate (Unmap a)); cbn [negb]; intuition congruence.
Qed.

Definition gitlab_target (port : string) (a : Addr) : string := JoinHostPort (Addr_String (Unmap a)) port.

(** The addresses the installation denies at the moment; all of them when it cannot
    say. *)
Definition freshly_denied (p : gitlabTransportPolicy) (a : Addr) : Prop :=
  match p.(gp_freshDenied) with Some (Ok denied) => inside denied a | Some (Err _) => True | None => False end.

Lemma current_policy_Ok p cur : current_policy p = Ok cur →
  ∀ a, gitlab_reachable cur a → gitlab_reachable p a ∧ ¬ freshly_denied p a.
Proof.
  unfold current_policy, freshly_denied. destruct (gp_freshDenied p) as [[denied|e]|]; [|done|by intros [= <-]; auto].
  destruct (_ >? _); [done|]. destruct (Prelude.mapM _ denied) as [fresh|] eqn:Hm; [|done]. cbn. intros [= <-] a.
  apply mapM_Ok in Hm. unfold gitlab_reachable. cbn [gp_denied gp_allowed]. intros (Hr & Hs & Hd & Ha).
  assert (∀ q, q ∈ gp_denied p ++ fresh → Prefix_Contains q a = true → False) as Hno by (intros q Hq Hc; apply Hd; by exists q).
  split; [split_and!; [done..| |done]; intros (q & Hq & Hc); eapply Hno; [|done]; set_solver|].
  intros (raw & q & Hraw & Hp & Hc). apply list_elem_of_lookup in Hraw as [i Hi].
  destruct (Forall2_lookup_l _ _ _ _ _ Hm Hi) as (q' & Hq' & Heq). rewrite Hp in Heq. case_match; simplify_eq.
  eapply Hno; [|exact Hc]. apply elem_of_app. right. by eapply list_elem_of_lookup_2.
Qed.

Section gitlab.
Context {Conn : Type} (lookup : string → result (list Addr)) (dial : string → result Conn).
Context (lookup_resolved : ∀ host l, lookup host = Ok l → Forall resolved l).

(** The dial of a connection ends at the first address that answers. *)
Lemma dial_first_spec live port addresses : ∀ i r tried, dial_first dial live i port addresses = (r, tried) →
  tried `prefix_of` (gitlab_target port <$> addresses) ∧
  match r with
  | Ok c => ∃ before t, tried = before ++ [t] ∧ dial t = Ok c ∧ Forall (λ u, ∃ e, dial u = Err e) before
  | Err e => e = GitLabError "transport" ∧ Forall (λ u, ∃ e, dial u = Err e) tried ∧
      (addresses ≠ [] → tried ≠ []) ∧ (length tried = length addresses ∨ ∃ j, live j = false)
  end.
Proof.
  induction addresses as [|a l IH]; intros i r tried; cbn [dial_first].
  - intros [= <- <-]. split; [done|]. split_and!; auto.
  - cbv zeta. fold (gitlab_target port a). set (t := gitlab_target port a).
    assert (∀ ts, ts `prefix_of` (gitlab_target port <$> l) → (t :: ts) `prefix_of` (gitlab_target port <$> a :: l)) as Hcons.
    { intros ts Hts. rewrite fmap_cons. by apply prefix_cons. }
    destruct (dial t) as [c|e] eqn:Ht.
    + intros [= <- <-]. split; [apply Hcons, prefix_nil|]. by exists [], t.
    + destruct (live i) eqn:Hlive.
      * destruct (dial_first dial live (S i) port l) as [r' ts] eqn:Hd. intros [= <- <-].
        destruct (IH _ _ _ Hd) as [Hts Hr]. split; [by apply Hcons|]. destruct r'.
        -- destruct Hr as (before & u & -> & Hu & Hb). exists (t :: before), u. split_and!; [done..|]. constructor; eauto.
        -- destruct Hr as (-> & Hb & _ & Hlen). split_and!; [done|constructor; eauto|done|]. cbn [length]. destruct Hlen as [<-|]; auto.
      * intros [= <- <-]. split_and!; [apply Hcons, prefix_nil|done|constructor; eauto|done|]. right. eauto.
Qed.

(** *)
Theorem gitlab_dial_confined p live address r tried :
  gitlab_dial lookup dial p live address = (r, tried) →
  (tried ≠ [] → ∃ l, lookup p.(gp_host) = Ok l ∧ (length l <= 16)%nat ∧
     SplitHostPort address = Some (p.(gp_host), p.(gp_port)) ∧
     Forall (λ a, gitlab_reachable p (Unmap a) ∧ ¬ freshly_denied p (Unmap a)) l ∧ tried `prefix_of` (gitlab_target p.(gp_port) <$> l)) ∧
  match r with
  | Ok c => ∃ before t, tried = before ++ [t] ∧ dial t = Ok c ∧ Forall (λ u, ∃ e, dial u = Err e) before
  | Err e => (e = GitLabError "scope" ∧ tried = []) ∨ (e = GitLabError "transport" ∧ tried ≠ [] ∧ Forall (λ u, ∃ e, dial u = Err e) tried)
  end.
Proof.
  assert (∀ q e, current_policy q = Err e → e = GitLabError "scope") as Hcur.
  { intros q e. unfold current_policy. destruct (gp_freshDenied q) as [[l|e']|]; [|by intros [= <-]|done].
    case_match; [by intros [= <-]|]. destruct (Prelude.mapM _ l) as [fresh|e'] eqn:Hm; [done|]. cbn. intros [= <-].
    apply mapM_Err in Hm as (x & _ & Hx). by repeat case_match; simplify_eq. }
  unfold gitlab_dial. intros H.
  destruct (SplitHostPort address) as [[host port]|]; [|simplify_eq; split; [done|by left]].
  destruct (_ || _) eqn:Hhp; [simplify_eq; split; [done|by left]|].
  apply orb_false_iff in Hhp as [->%negb_false_iff%String.eqb_eq ->%negb_false_iff%String.eqb_eq].
  destruct (current_policy p) as [cur|e] eqn:Hc; [|simplify_eq; split; [done|left; eauto]].
  destruct (lookup (gp_host p)) as [l|] eqn:Hl; [|simplify_eq; split; [done|by left]].
  destruct (_ || _) eqn:Hn; [simplify_eq; split; [done|by left]|].
  destruct (forallb _ l) eqn:Hall; cbn [negb] in H; [|simplify_eq; split; [done|by left]].
  apply orb_false_iff in Hn as [Hlo%Z.ltb_ge Hhi]. rewrite Z.gtb_ltb, Z.ltb_ge in Hhi.
  apply dial_first_spec in H as [Hpre Hr]. split.
  - intros _. exists l. split_and!; [done..|unfold lenl in Hhi; lia|done| |done].
    apply (forallb_Forall_iff (allows cur) (λ a, gitlab_reachable cur (Unmap a))) in Hall.
    + eapply Forall_impl; [exact Hall|]. intros a Ha. by apply (current_policy_Ok _ _ Hc).
    + intros a Ha. apply allows_exact. by eapply (proj1 (Forall_forall _ _)); [apply (lookup_resolved _ _ Hl)|].
  - destruct r as [c|e]; [done|]. right. destruct Hr as (-> & Hf & Hne & _). split_and!; [done|apply Hne|done].
    intros ->. done.
Qed.
End gitlab.

Definition gitlab_example : gitlabTransportPolicy :=
  mkGitlabTransportPolicy "git.example.com" "443" (must_prefix <$> ["10.0.0.0/8"]) (must_prefix <$> ["10.1.0.0/16"]) (Some (Ok ["10.2.3.4/32"])).
Definition gitlab_lookup (host : string) : result (list Addr) := Ok [Addr4 0x0a030405; Addr6 (65535 * 2 ^ 32 + 0x08080808) EmptyString].
Definition second_answers (target : string) : result unit :=
  if (target =? "8.8.8.8:443")%string then Ok tt else Err (Errorf "refused" []).

Lemma gitlab_lookup_resolved host l : gitlab_lookup host = Ok l → Forall resolved l.
Proof. intros [= <-]. repeat constructor; vm_compute; congruence. Qed.

Lemma gitlab_dial_confined_witness : ∃ l, gitlab_lookup "git.example.com" = Ok l ∧
    Forall (λ a, gitlab_reachable gitlab_example (Unmap a) ∧ ¬ freshly_denied gitlab_example (Unmap a)) l ∧
    ["10.3.4.5:443"; "8.8.8.8:443"] `prefix_of` (gitlab_target "443" <$> l).
Proof.
  assert (gitlab_dial gitlab_lookup second_answers gitlab_example (λ _, true) "git.example.com:443" = (Ok tt, ["10.3.4.5:443"; "8.8.8.8:443"])) as Hd
    by (vm_compute; reflexivity).
  destruct (proj1 (gitlab_dial_confined gitlab_lookup second_answers gitlab_lookup_resolved gitlab_example _ _ _ _ Hd) ltac:(discriminate))
    as (l & Hl & _ & _ & Hf & Hp).
  exists l. split; [exact Hl|]. split; [exact Hf|exact Hp].
Defined.

Definition provider_lookup (host : string) : result (list Addr) := Ok [Addr4 0x0a030405].

Lemma provider_lookup_resolved host l : provider_lookup host = Ok l → Forall resolved l.
Proof. intros [= <-]. repeat constructor; vm_compute; congruence. Qed.

Lemma safeDial_exact_witness :
  safeDial provider_lookup second_answers "vault.example.com:8200" ["10.3.0.0/16"] = second_answers "10.3.4.5:8200".
Proof.
  apply (proj1 (safeDial_exact provider_lookup second_answers provider_lookup_resolved "vault.example.com:8200" ["10.3.0.0/16"])
    "vault.example.com" "8200" (Addr4 0x0a030405) []); [vm_compute; reflexivity|reflexivity|].
  split; [vm_compute; split; congruence|]. constructor; [|constructor]. split; [vm_compute; intuition congruence|].
  intros _. exists "10.3.0.0/16", (mkPrefix (Addr4 0x0a030000) 16). split; [left|split; vm_compute; reflexivity].
Defined.

(** The metadata addresses of Azure and AWS: no policy of GitLab lets them through, while
    every secret provider may be reached at the first, and at the second inside a
    network that contains it. *)
Definition azure_metadata : Addr := Addr4 0xa83f8110.
Definition aws_metadata6 : Addr := Addr6 (0xfd000ec2 * 2 ^ 96 + 0x254) EmptyString.

(** *)
Theorem metadata_addresses : (∀ p, allows p azure_metadata = false ∧ allows p aws_metadata6 = false) ∧
  (∀ cidrs, allowedAddress azure_metadata cidrs = true) ∧ allowedAddress aws_metadata6 ["fd00:ec2::/32"] = true.
Proof.
  assert (∀ p a, contained gitlabSpecialNetworks (Unmap a) = true → allows p a = false) as Hno.
  { intros p a Ha. unfold allows. rewrite Ha. by case_match. }
  split; [intros p; split; apply Hno; vm_compute; reflexivity|]. split; [intros cidrs|]; vm_compute; reflexivity.
Qed.
