(* ===== verification/Cipher.v ===== *)
(** The authenticated cipher the program seals credentials with (AES-GCM of the Go
    library): an interface, the law the theorems rely on, and a cipher that has it for
    the examples. *)
From S2P Require Import Prelude GoStd Paths Decimal.
#[global] Open Scope Z_scope.

(** [gcm_Seal key nonce plain data] and [gcm_Open key nonce sealed data]. *)
Class Cipher := {
  nonce_size : Z;
  overhead : Z;
  gcm_Seal : string → string → string → string → string;
  gcm_Open : string → string → string → string → option string;
}.

(** What was sealed opens with the data it was sealed with, and with no other; and it is
    longer than the text by the tag, at least. *)
Class CipherLaws (C : Cipher) : Prop := {
  gcm_authentic : ∀ k n m d d', gcm_Open k n (gcm_Seal k n m d) d' = if decide (d = d') then Some m else None;
  gcm_expands : ∀ k n m d, len m + overhead ≤ len (gcm_Seal k n m d);
  gcm_overhead : 0 ≤ overhead;
}.

(** [gcm.Open] of what follows the nonce. *)
Definition open_sealed `{Cipher} (key sealed data : string) : option string :=
  gcm_Open key (take_string (Z.to_nat nonce_size) sealed) (drop_string (Z.to_nat nonce_size) sealed) data.

Lemma open_sealed_seal `{CipherLaws} key nonce plain d d' : len nonce = nonce_size →
  open_sealed key (nonce +:+ gcm_Seal key nonce plain d) d' = if decide (d = d') then Some plain else None.
Proof.
  intros Hn. unfold open_sealed. replace (Z.to_nat nonce_size) with (String.length nonce) by (unfold len in Hn; lia).
  rewrite take_string_app, drop_string_app. apply gcm_authentic.
Qed.

Module ToyCipher.
(** Binds its data by writing it, with its length, before the text. *)
Definition seal (k n m d : string) : string := Itoa (len d) +:+ String ":" (d +:+ m).
Definition open (k n sealed d : string) : option string :=
  match Cut sealed ":" with
  | Some (l, rest) =>
      if (l =? Itoa (len d))%string && (take_string (String.length d) rest =? d)%string
      then Some (drop_string (String.length d) rest) else None
  | None => None
  end.

#[export] Instance cipher : Cipher | 100 := {| nonce_size := 4; overhead := 1; gcm_Seal := seal; gcm_Open := open |}.

#[export] Instance cipher_laws : CipherLaws cipher.
Proof.
  split; [|intros k n m d; cbn [overhead gcm_Seal cipher]; unfold seal, len; rewrite !string_length_app; cbn [String.length]; rewrite string_length_app; lia|done].
  intros k n m d d'. cbn [gcm_Open gcm_Seal cipher]. unfold open, seal. rewrite Cut_app by by apply Itoa_no_sep.
  destruct (decide (d = d')) as [<-|Hne].
  - rewrite String.eqb_refl, take_string_app, String.eqb_refl, drop_string_app. done.
  - destruct (_ && _) eqn:Heq; [|done]. apply andb_true_iff in Heq as [Hl%String.eqb_eq Ht%String.eqb_eq]. destruct Hne.
    rewrite !Itoa_nonneg in Hl by apply len_nonneg. apply (inj pretty) in Hl. rewrite <-Ht. symmetry.
    replace (String.length d') with (String.length d) by (unfold len in Hl; lia). apply take_string_app.
Qed.
End ToyCipher.
