(* ===== verification/Traced.v ===== *)
(** Computations that record what they send: a result together with the trace of the
    requests sent so far, which only grows, and the triples that reason about them. *)
From S2P Require Import Prelude GoStd.

Section traced.
Context {X : Type}.

(** The trace so far is the state; an error keeps the trace. *)
Definition eff (A : Type) : Type := list X → result A * list X.
#[export] Instance eff_ret : MRet eff := λ A a log, (Ok a, log).
#[export] Instance eff_bind : MBind eff := λ A B f m log,
  match m log with (Ok a, log') => f a log' | (Err e, log') => (Err e, log') end.

Definition lift {A} (r : result A) : eff A := λ log, (r, log).
Definition throw {A} (e : error) : eff A := λ log, (Err e, log).
Definition guard_or (e : error) (b : bool) : eff unit := if b then mret tt else throw e.
Definition some_or {A} (e : error) (o : option A) : eff A := match o with Some a => mret a | None => throw e end.

Fixpoint foldE {S A} (f : S → A → eff S) (s : S) (l : list A) : eff S :=
  match l with [] => mret s | x :: l' => s ← f s x; foldE f s l' end.
Fixpoint iterE {A} (f : A → eff unit) (l : list A) : eff unit :=
  match l with [] => mret tt | x :: l' => _ ← f x; iterE f l' end.

(** From a trace in [P]: a value and a trace in [Q], or an error and a trace in [E]. *)
Definition triple {A} (P : list X → Prop) (m : eff A) (Q : A → list X → Prop) (E : error → list X → Prop) : Prop :=
  ∀ log, P log → match m log with (Ok a, log') => Q a log' | (Err e, log') => E e log' end.

Implicit Types (P : list X → Prop) (E : error → list X → Prop).

Lemma triple_ret {A} P E (Q : A → list X → Prop) a : (∀ log, P log → Q a log) → triple P (eff_ret A a) Q E.
Proof. intros HQ log Hl. by apply HQ. Qed.

Lemma triple_bind {A B} P (m : eff A) (f : A → eff B) Q R E :
  triple P m R E → (∀ a, triple (R a) (f a) Q E) → triple P (eff_bind A B f m) Q E.
Proof. intros Hm Hf log Hl. specialize (Hm log Hl). unfold eff_bind. destruct (m log) as [[a|e] log']; [by apply Hf|done]. Qed.

Lemma triple_throw {A} P E (Q : A → list X → Prop) e : (∀ log, P log → E e log) → triple P (throw e) Q E.
Proof. intros HE log Hl. by apply HE. Qed.

Lemma triple_lift {A} P E (r : result A) : (∀ e log, r = Err e → P log → E e log) → triple P (lift r) (λ a log, P log ∧ r = Ok a) E.
Proof. intros HE log Hl. unfold lift. destruct r; [done|by apply HE]. Qed.

Lemma triple_guard P E e b : (∀ log, P log → E e log) → triple P (guard_or e b) (λ _ log, P log ∧ b = true) E.
Proof. intros HE. unfold guard_or. destruct b; [by apply triple_ret|by apply triple_throw]. Qed.

Lemma triple_some {A} P E e (o : option A) : (∀ log, P log → E e log) → triple P (some_or e o) (λ a log, P log ∧ o = Some a) E.
Proof. intros HE. destruct o; [by apply triple_ret|by apply triple_throw]. Qed.

(** A fact that does not depend on the trace. *)
Lemma triple_pure {A} (C : Prop) P (m : eff A) Q E : (C → triple P m Q E) → triple (λ log, P log ∧ C) m Q E.
Proof. intros Hm log [Hl Hc]. by apply Hm. Qed.

Lemma triple_pre {A} P P' (m : eff A) Q E : (∀ log, P' log → P log) → triple P m Q E → triple P' m Q E.
Proof. intros HP Hm log Hl. by apply Hm, HP. Qed.

Lemma triple_post {A} P (m : eff A) (Q Q' : A → list X → Prop) E E' :
  triple P m Q E → (∀ a log, Q a log → Q' a log) → (∀ e log, E e log → E' e log) → triple P m Q' E'.
Proof. intros Hm HQ HE log Hl. specialize (Hm log Hl). destruct (m log) as [[a|e] log']; [by apply HQ|by apply HE]. Qed.

Lemma triple_foldE {S A} (f : S → A → eff S) (I : list A → S → list X → Prop) E l :
  ∀ done s, (∀ pre x post s, done ++ l = pre ++ x :: post → triple (I pre s) (f s x) (I (pre ++ [x])) E) →
  triple (I done s) (foldE f s l) (I (done ++ l)) E.
Proof.
  induction l as [|x l IH]; intros done s Hf; cbn [foldE].
  - apply triple_ret. intros log. by rewrite app_nil_r.
  - eapply triple_bind; [by apply (Hf done x l)|]. intros s'. cbn beta.
    replace (done ++ x :: l) with ((done ++ [x]) ++ l) in * by by rewrite <-app_assoc.
    by apply IH.
Qed.

Lemma triple_iterE {A} (f : A → eff unit) (I : list A → list X → Prop) E l :
  ∀ done, (∀ pre x post, done ++ l = pre ++ x :: post → triple (I pre) (f x) (λ _, I (pre ++ [x])) E) →
  triple (I done) (iterE f l) (λ _, I (done ++ l)) E.
Proof.
  induction l as [|x l IH]; intros done Hf; cbn [iterE].
  - apply triple_ret. intros log. by rewrite app_nil_r.
  - eapply triple_bind; [by apply (Hf done x l)|]. intros []. cbn beta.
    replace (done ++ x :: l) with ((done ++ [x]) ++ l) in * by by rewrite <-app_assoc.
    by apply IH.
Qed.
End traced.
Arguments eff X A : clear implicits.
