(* ===== verification/JsonValue.v ===== *)
(** Decoded JSON as the program passes it around ([any] of the Go code): numbers are the
    literals of [json.Number], and the entries of an object come in the order the map is
    ranged over. *)
From S2P Require Import Prelude GoStd.
#[global] Open Scope Z_scope.

Inductive any : Type :=
  | VNull
  | VBool (b : bool)
  | VNum (literal : string)
  | VStr (s : string)
  | VArr (l : list any)
  | VObj (m : list (string * any)).

(** The induction principle with the elements and the entries. *)
Section any_ind.
Context (P : any → Prop).
Context (Hnull : P VNull) (Hbool : ∀ b, P (VBool b)) (Hnum : ∀ n, P (VNum n)) (Hstr : ∀ s, P (VStr s)).
Context (Harr : ∀ l, Forall P l → P (VArr l)) (Hobj : ∀ m, Forall (λ e, P e.2) m → P (VObj m)).

Fixpoint any_nested_ind (v : any) : P v :=
  match v with
  | VNull => Hnull
  | VBool b => Hbool b
  | VNum n => Hnum n
  | VStr s => Hstr s
  | VArr l => Harr l ((fix elements l := match l return Forall P l with [] => Forall_nil_2 P | x :: l' => Forall_cons_2 P x l' (any_nested_ind x) (elements l') end) l)
  | VObj m => Hobj m ((fix entries (m : list (string * any)) := match m return Forall (λ e, P e.2) m with [] => Forall_nil_2 _ | e :: m' => Forall_cons_2 (λ e, P e.2) e m' (any_nested_ind e.2) (entries m') end) m)
  end.
End any_ind.

(** A key of an object, and the text it holds. *)
Definition field (m : list (string * any)) (k : string) : option any := snd <$> List.find (λ e, (e.1 =? k)%string) m.
Definition as_string (v : any) : option string := match v with VStr s => Some s | _ => None end.
Definition as_object (v : any) : option (list (string * any)) := match v with VObj m => Some m | _ => None end.
Definition text (m : list (string * any)) (k : string) : option string := field m k ≫= as_string.
(** [v == s] of an interface and a string. *)
Definition is_text (v : option any) (s : string) : bool := match v with Some (VStr t) => (t =? s)%string | _ => false end.

(** [m[k] = v]: in place, or a new entry. *)
Fixpoint set_field (m : list (string * any)) (k : string) (v : any) : list (string * any) :=
  match m with
  | [] => [(k, v)]
  | e :: m' => if (e.1 =? k)%string then (k, v) :: m' else e :: set_field m' k v
  end.

(** Something holds of every value inside, this one first. *)
Inductive within (v : any) : any → Prop :=
  | within_refl : within v v
  | within_arr l x : x ∈ l → within v x → within v (VArr l)
  | within_obj m k x : (k, x) ∈ m → within v x → within v (VObj m).

Lemma field_Some m k v : field m k = Some v → (k, v) ∈ m.
Proof.
  unfold field. destruct (List.find _ m) as [[k' w]|] eqn:Hf; [|done]. intros [= <-]. apply find_some in Hf as [Hin Heq].
  cbn in Heq. apply String.eqb_eq in Heq as ->. by apply list_elem_of_In.
Qed.

Lemma field_None m k : field m k = None → ∀ v, (k, v) ∉ m.
Proof.
  unfold field. destruct (List.find _ m) as [[k' w]|] eqn:Hf; [done|]. intros _ v Hin%list_elem_of_In.
  apply (find_none _ _ Hf) in Hin. cbn in Hin. by rewrite String.eqb_refl in Hin.
Qed.

Lemma set_field_elem m k v e : e ∈ set_field m k v → e = (k, v) ∨ e ∈ m.
Proof.
  induction m as [|d m IH]; cbn [set_field]; [set_solver|]. destruct (d.1 =? k)%string; set_solver.
Qed.

Lemma is_text_true v s : is_text v s = true ↔ v = Some (VStr s).
Proof.
  unfold is_text. destruct v as [[]|]; try done. rewrite String.eqb_eq. naive_solver.
Qed.
