(* ===== verification/Operations.v ===== *)
(** Operations an agent invokes on the control plane (internal/operations): the policy of
    an operation (policy.go), which operation a path is (route_resolve.go, route_policy.go),
    the bounds of a document (schema.go), the access of a connection (access.go) and the
    invocation with its checks before the request is sent (catalog.go). The embedded
    contract, JSON Schema and the JSON decoders are a class; the control plane answers
    each request knowing the ones before, and every request is recorded. *)
From S2P Require Import Prelude GoStd Paths Regex Escapes Traced JsonValue.
#[global] Open Scope Z_scope.

(** * Operations and policies *)

Definition schema : Type := list (string * any).

Record Policy : Type := mkPolicy {
  po_FixedScope : option (gmap string string);
  po_Category : string;
  po_CredentialRequired : bool;
  po_ScopeRequirement : string;
  po_Boundary : string;
  po_Exposure : string;
  po_MachinePermissions : list string;
  po_Permissions : list string;
  po_Review : string;
  po_SensitiveFields : list string;
  po_Prerequisite : string;
  po_References : gmap string string;
  po_Resource : string;
  po_ResourceParameter : string;
}.

Record parameter : Type := mkParameter { pa_Name : string; pa_In : string; pa_Required : bool; pa_Schema : option schema }.

Record Operation : Type := mkOperation {
  op_ID : string;
  op_Summary : string;
  op_Description : string;
  op_Method : string;
  op_Path : string;
  op_Mutating : bool;
  op_Available : bool;
  op_Exclusion : string;
  op_Parameters : list parameter;
  op_Body : option schema;
  op_Policy : Policy;
  op_bodyRequired : bool;
}.

Record Invocation : Type := mkInvocation {
  in_Operation : string;
  in_Path : gmap string string;
  in_Query : gmap string string;
  in_Body : string;
  in_IdempotencyKey : string;
}.

Record Scope : Type := mkScope { sc_Project : string; sc_Environment : string }.

Record Access : Type := mkAccess {
  ac_Installation : bool;
  ac_AllowWrite : bool;
  ac_AllowDeploy : bool;
  ac_AllowAdmin : bool;
  ac_AllowCredentials : bool;
}.

(** What [/me] says of the credential. *)
Record Me : Type := mkMe {
  me_Owner : bool;
  me_Permissions : list string;
  me_Project : string;
  me_Environment : string;
  me_Application : string;
  me_CredentialType : string;
}.

Definition unclassified : Policy :=
  mkPolicy None "unclassified" false "" "none" "unavailable" [] [] "" [] "" ∅ "" "".

Definition classify (policy : Policy) : Policy * string :=
  if one_of policy.(po_Category) [EmptyString; "unclassified"] || (policy.(po_Exposure) =? "unavailable")%string then
    (unclassified, "This contract operation is not classified. Update the OpenAPI policy before invocation.")
  else if (policy.(po_Exposure) =? "installation")%string then
    (policy, "Requires a separate installation connection with admin and agent:admin.")
  else if (policy.(po_Exposure) =? "generic")%string then (policy, EmptyString)
  else if negb (is_empty policy.(po_Prerequisite)) then (policy, policy.(po_Prerequisite))
  else (policy, "This operation requires a dedicated workflow. Generic invocation is unavailable.").

(** An entry of the contract, as the catalog keeps it. *)
Definition catalog_entry (id summary description method path : string) (parameters : list parameter) (body : option schema)
    (required : bool) (policy : Policy) : Operation :=
  let '(policy', exclusion) := classify policy in
  mkOperation id summary description (ToUpper method) path (negb (method =? "get")%string) (is_empty exclusion) exclusion
    parameters body policy' required.

(** * Requests *)

Record request : Type := mkRequest { q_Method : string; q_Path : string; q_Body : any; q_Key : string }.

(** The contract with its compiled schemas, and the decoders. *)
Class Contract := {
  catalog : list Operation;
  component_schema : string → option schema;
  schema_Validate : schema → any → option bool;    (* no answer without a compiled schema *)
  json_Decode : string → result any;
  marshal_Invocation : Invocation → Z;             (* its length *)
  marshal_length : any → result Z;
  decode_Me : any → result Me;
  marshal_Selected : Operation → gmap string schema → result Z;
  ParseFloat_finite : string → bool;
}.

(** [^[a-zA-Z0-9][a-zA-Z0-9_.@-]{0,255}$] *)
Definition segment_first (c : ascii) : bool := lower c || upper c || digit c.
Definition segment_char (c : ascii) : bool := lower c || upper c || digit c || any_of "_.@-" c.
Definition segment : regex := RCat (RCls segment_first) (RUpTo (RCls segment_char) 255).

Definition MaxBytes : Z := Z.shiftl 1 20.
Definition op_error (message : string) : error := Errorf message [].

(** * The bounds of a document *)

Definition maxInstanceNodes : Z := 10000.
(** The grammar of JSON numbers. *)
Definition numberLiteral : regex :=
  RSeq [ROpt (RLit "-"); RAlt (RLit "0") (RCat (RCls (in_range "1" "9")) (RStar (RCls digit)));
        ROpt (RCat (RLit ".") (RPlus (RCls digit)));
        ROpt (RSeq [RCls (any_of "eE"); ROpt (RCls (any_of "+-")); RPlus (RCls digit)])].

(** What follows the first of the bytes [chars]. *)
Fixpoint after_any (chars s : string) : option string :=
  match s with EmptyString => None | String c s' => if has_byte c chars then Some s' else after_any chars s' end.

Definition number_in_bounds (literal : string) : result unit :=
  _ ← fail_when ((len literal >? 128) || negb (full_match numberLiteral literal)) (op_error "JSON number must contain at most 128 characters");
  match after_any "eE" literal with
  | None => Ok tt
  | Some exponent =>
      match Atoi exponent with
      | Some n => fail_when ((n <? -1000) || (n >? 1000)) (op_error "JSON number exponent must be from -1000 to 1000")
      | None => Err (op_error "JSON number exponent must be from -1000 to 1000")
      end
  end.

(** The number of values that may still follow. *)
Fixpoint boundSchemaInstance (v : any) (depth remaining : Z) {struct v} : result Z :=
  let remaining := remaining - 1 in
  if (depth >? 32) || (remaining <? 0) then Err (op_error "JSON exceeds 32 nested levels or 10000 values")
  else match v with
  | VObj m =>
      foldM (λ remaining '(key, child),
        _ ← fail_when (len key >? MaxBytes) (op_error "JSON property name exceeds 1 MiB");
        boundSchemaInstance child (depth + 1) remaining) remaining m
  | VArr l =>
      _ ← fail_when (lenl l >? 1000) (op_error "JSON array exceeds 1000 items");
      foldM (λ remaining child, boundSchemaInstance child (depth + 1) remaining) remaining l
  | VStr s => _ ← fail_when (len s >? MaxBytes) (op_error "JSON string exceeds 1 MiB"); Ok remaining
  | VNum literal => _ ← number_in_bounds literal; Ok remaining
  | VBool _ | VNull => Ok remaining
  end.

Section contract.
Context `{Contract} `{RangeOrder}.

Definition validate (v : any) (s : option schema) (depth : Z) : result unit :=
  _ ← boundSchemaInstance v depth maxInstanceNodes;
  match schema_Validate (default [] s) v with
  | None => Err (op_error "operation schema is unavailable")
  | Some valid => fail_when (negb valid) (op_error "request does not match the operation schema. Read the operation schema before retrying")
  end.

(** * Which operation a path is *)

Definition route_parts (path : string) : list string := Split (TrimPrefix path "/") "/".
Definition parameter_part (part : string) : bool := HasPrefix part "{" && HasSuffix part "}".
Definition plain_segment (actual : string) : bool := full_match segment actual && negb (actual =? ".")%string && negb (actual =? "..")%string.

(** The number of literal parts, [-1] when the path does not fit. *)
Fixpoint literal_parts (expected actual : list string) (literals : Z) : Z :=
  match expected, actual with
  | part :: expected', a :: actual' =>
      if parameter_part part then if plain_segment a then literal_parts expected' actual' literals else -1
      else if (part =? a)%string then literal_parts expected' actual' (literals + 1) else -1
  | _, _ => literals
  end.

Definition better_route (method : string) (actual : list string) (best : Z * option Operation) (candidate : Operation) : Z * option Operation :=
  if negb (candidate.(op_Method) =? method)%string then best
  else
    let expected := route_parts candidate.(op_Path) in
    if negb (lenl expected =? lenl actual) then best
    else
      let literals := literal_parts expected actual 0 in
      if literals >? best.1 then (literals, Some candidate) else best.

Definition ResolveSegments (method : string) (actual : list string) : option (string * string * Operation) :=
  let total := foldr (λ part n, len part + 1 + n) 0 actual in
  if (total >? 4096) || (lenl actual >? 64) then None
  else
    match (fold_left (better_route method actual) catalog (-1, None)).2 with
    | None => None
    | Some op =>
        let category := op.(op_Policy).(po_Category) in
        Some (op.(op_ID), if (category =? "unclassified")%string then EmptyString else category, op)
    end.

Definition NUL : string := String "000" EmptyString.

Definition ResolveRoute (method path : string) : option (string * string * Operation) :=
  if negb (HasPrefix path "/") || ContainsAny path ("\?#" +:+ NUL) then None
  else ResolveSegments method (route_parts path).

Fixpoint route_fits (expected actual : list string) : bool :=
  match expected, actual with
  | part :: expected', a :: actual' =>
      if parameter_part part then plain_segment a && route_fits expected' actual'
      else (part =? a)%string && route_fits expected' actual'
  | _, _ => true
  end.

Definition ConcreteRouteRequiresCredentials (method path : string) : bool :=
  if (len path >? 4096) || negb (HasPrefix path "/") || ContainsAny path ("%\?#" +:+ NUL) then false
  else
    let actual := route_parts path in
    existsb (λ op,
      (op.(op_Method) =? method)%string && op.(op_Policy).(po_CredentialRequired) &&
      (let expected := route_parts op.(op_Path) in (lenl actual =? lenl expected) && route_fits expected actual)) catalog.

Definition find_operation (id : string) : option Operation := List.find (λ op, (op.(op_ID) =? id)%string) catalog.
Definition OperationByID (id : string) : option Operation := find_operation id.

Definition InstallationAvailable (id : string) : bool :=
  match find_operation id with Some op => (op.(op_Policy).(po_Exposure) =? "installation")%string | None => false end.

(** * Discovery *)

Definition in_family (family : string) (op : Operation) : bool :=
  is_empty family || HasPrefix op.(op_Path) ("/" +:+ family +:+ "/") || (op.(op_Path) =? "/" +:+ family)%string.

(** [o.Body = nil] *)
Definition without_body (o : Operation) : Operation :=
  mkOperation o.(op_ID) o.(op_Summary) o.(op_Description) o.(op_Method) o.(op_Path) o.(op_Mutating) o.(op_Available) o.(op_Exclusion)
    o.(op_Parameters) None o.(op_Policy) o.(op_bodyRequired).

(** One page after [cursor], and whether there is more. *)
Fixpoint discovery_page (cursor family : string) (limit : Z) (ops page : list Operation) : list Operation * bool :=
  match ops with
  | [] => (page, false)
  | o :: rest =>
      if String.leb o.(op_ID) cursor then discovery_page cursor family limit rest page
      else if negb (in_family family o) then discovery_page cursor family limit rest page
      else if lenl page =? limit then (page, true)
      else discovery_page cursor family limit rest (page ++ [without_body o])
  end.

(** The component schemas a document refers to; a value at depth [d] has the fuel
    [33 - d], so deeper values are not looked at. *)
Fixpoint collectDefinitions (fuel : nat) (v : any) (out : gmap string schema) : gmap string schema :=
  match fuel with
  | O => out
  | S fuel' =>
      if Z.of_nat (size out) >? 256 then out
      else match v with
      | VObj x =>
          let out :=
            match text x "$ref" with
            | Some ref =>
                let key := TrimPrefix ref "#/components/schemas/" in
                if has_key out key then out
                else match component_schema key with
                | Some s => collectDefinitions fuel' (VObj s) (<[ key := s ]> out)
                | None => out
                end
            | None => out
            end in
          fold_left (λ out e, collectDefinitions fuel' e.2 out) x out
      | VArr x => fold_left (λ out val, collectDefinitions fuel' val out) x out
      | _ => out
      end
  end.
Definition definitions_fuel : nat := 33.

Definition operation_definitions (o : Operation) : gmap string schema :=
  fold_left (λ out p, collectDefinitions definitions_fuel (VObj (default [] p.(pa_Schema))) out) o.(op_Parameters)
    (collectDefinitions definitions_fuel (VObj (default [] o.(op_Body))) ∅).

(** What discovery answers: one operation with the schemas it refers to, or a page of
    operations with the next cursor. *)
Inductive discovered : Type :=
  | Selected (o : Operation) (schemas : gmap string schema)
  | Page (operations : list Operation) (next_cursor : option string).
Record Discovered : Type := mkDiscovered { di_total : Z; di_available : Z; di_excluded : Z; di_answer : discovered }.

Definition Discovery (cursor family operation : string) (limit : Z) : result Discovered :=
  let limit := if limit =? 0 then 25 else limit in
  if (limit <? 1) || (limit >? 100) || (len cursor >? 256) || (len family >? 128) then Err (op_error "invalid discovery bounds")
  else
    let available := lenl (List.filter op_Available catalog) in
    let answer := mkDiscovered (lenl catalog) available (lenl catalog - available) in
    if negb (is_empty operation) then
      match find_operation operation with
      | Some o =>
          let schemas := operation_definitions o in
          match marshal_Selected o schemas with
          | Ok size => if size >? MaxBytes then Err (op_error "selected operation schema exceeds 1 MiB") else Ok (answer (Selected o schemas))
          | Err _ => Err (op_error "selected operation schema exceeds 1 MiB")
          end
      | None => Err (op_error "unknown operation")
      end
    else
      let '(page, more) := discovery_page cursor family limit catalog [] in
      Ok (answer (Page page (if more then op_ID <$> last page else None))).

(** * Access *)

Section invocation.
(** The control plane: its answer to a request, after those before it. *)
Context (call : list request → request → result any).

Definition send (method path : string) (body : any) (key : string) : eff request any := λ log,
  let req := mkRequest method path body key in (call log req, log ++ [req]).

(** Decoding an answer into a [map[string]any]. *)
Definition object_of (v : any) : result (list (string * any)) :=
  match v with VObj m => Ok m | VNull => Ok [] | _ => Err (op_error "json: cannot unmarshal into a map") end.

Definition get_object (path : string) : eff request (list (string * any)) :=
  v ← send "GET" path VNull EmptyString; lift (object_of v).
Definition get_me : eff request Me := v ← send "GET" "/me" VNull EmptyString; lift (decode_Me v).

Definition machine_or_cli (credential : string) : bool := one_of credential ["machine"; "cli"].

Definition requireInstallation (credentials owner : bool) : eff request unit :=
  p ← get_me;
  _ ← guard_or (op_error "installation access requires explicit admin and agent:admin grants on an installation credential")
        (is_empty p.(me_Project) && is_empty p.(me_Environment) && is_empty p.(me_Application) &&
         one_of "admin" p.(me_Permissions) && one_of "agent:admin" p.(me_Permissions) && machine_or_cli p.(me_CredentialType));
  _ ← guard_or (op_error "installation maintenance requires the current installation owner") (negb (owner && negb p.(me_Owner)));
  guard_or (op_error "credential access requires an explicit agent:credentials grant")
    (negb (credentials && negb (one_of "agent:credentials" p.(me_Permissions)))).

Definition requireProjectCredential (s : Scope) : eff request unit :=
  p ← get_me;
  guard_or (op_error "this operation requires a credential for the exact project and environment, without an application restriction")
    ((p.(me_Project) =? s.(sc_Project))%string && (p.(me_Environment) =? s.(sc_Environment))%string && is_empty p.(me_Application) &&
     machine_or_cli p.(me_CredentialType)).

Definition requireProjectCredentialGrant (s : Scope) : eff request unit :=
  p ← get_me;
  guard_or (op_error "credential access requires agent:credentials for the exact project and environment")
    (one_of "agent:credentials" p.(me_Permissions) && (p.(me_Project) =? s.(sc_Project))%string &&
     (p.(me_Environment) =? s.(sc_Environment))%string && is_empty p.(me_Application)).

(** * Scope *)

Definition outside_scope : error := op_error "resource is outside the configured scope".

(** The resource an operation belongs to, when its answer names it. *)
Definition owner_of (resource : string) (out : list (string * any)) : option (string * string) :=
  match text out "database_id" with
  | Some database =>
      if one_of resource ["database-operations"; "database-public-endpoint-operations"] then Some ("databases", database)
      else if (resource =? "external-database-operations")%string then Some ("external-databases", database)
      else None
  | None => None
  end ∪
  match text out "platform_id" with
  | Some platform => if (resource =? "managed-platform-operations")%string then Some ("managed-platforms", platform) else None
  | None => None
  end ∪
  match text out "application_id" with
  | Some app => if (resource =? "deployments")%string then Some ("applications", app) else None
  | None => None
  end.

Definition in_scope (s : Scope) (out : list (string * any)) : bool :=
  is_text (field out "project") s.(sc_Project) && is_text (field out "environment") s.(sc_Environment).

Fixpoint resource_scope (fuel : nat) (s : Scope) (resource id : string) : eff request unit :=
  match fuel with
  | O => throw outside_scope
  | S fuel' =>
      _ ← guard_or (op_error "invalid resource ID") (full_match segment id);
      out ← get_object ("/" +:+ resource +:+ "/" +:+ PathEscape id);
      match owner_of resource out with
      | Some (owner, owner_id) => resource_scope fuel' s owner owner_id
      | None => guard_or outside_scope (in_scope s out)
      end
  end.
(** An owner has no owner, so two steps are enough. *)
Definition resourceScope (s : Scope) (resource id : string) : eff request unit := resource_scope 2 s resource id.

Definition check_reference (s : Scope) (refs : gmap string string) (k : string) (v : any) : eff request unit :=
  let resource := default EmptyString (refs !! k) in
  if is_empty resource then mret tt
  else match as_string v with
  | None => throw (op_error "invalid resource reference")
  | Some id => if is_empty id then mret tt else resourceScope s resource id
  end.

Fixpoint references (s : Scope) (refs : gmap string string) (v : any) {struct v} : eff request unit :=
  match v with
  | VObj m =>
      (fix entries (m : list (string * any)) : eff request unit :=
         match m with
         | [] => mret tt
         | (k, val) :: m' => _ ← check_reference s refs k val; _ ← references s refs val; entries m'
         end) m
  | VArr l =>
      (fix elements (l : list any) : eff request unit :=
         match l with [] => mret tt | val :: l' => _ ← references s refs val; elements l' end) l
  | _ => mret tt
  end.

Definition body_outside : error := op_error "body is outside the configured scope".

Fixpoint checkScope (s : Scope) (v : any) {struct v} : result unit :=
  match v with
  | VObj m =>
      (fix entries (m : list (string * any)) : result unit :=
         match m with
         | [] => Ok tt
         | (k, val) :: m' =>
             _ ← fail_when ((k =? "project")%string && negb (is_text (Some val) s.(sc_Project)) ||
                            (k =? "environment")%string && negb (is_text (Some val) s.(sc_Environment))) body_outside;
             _ ← checkScope s val;
             entries m'
         end) m
  | VArr l =>
      (fix elements (l : list any) : result unit :=
         match l with [] => Ok tt | val :: l' => _ ← checkScope s val; elements l' end) l
  | _ => Ok tt
  end.

Fixpoint rejectAutoDeploy (v : any) : result unit :=
  match v with
  | VObj m =>
      (fix entries (m : list (string * any)) : result unit :=
         match m with
         | [] => Ok tt
         | (k, val) :: m' =>
             _ ← fail_when ((k =? "auto_deploy")%string && match val with VBool b => b | _ => false end)
                   (op_error "automatic deployment requires its dedicated reviewed interface");
             _ ← rejectAutoDeploy val;
             entries m'
         end) m
  | VArr l =>
      (fix elements (l : list any) : result unit :=
         match l with [] => Ok tt | val :: l' => _ ← rejectAutoDeploy val; elements l' end) l
  | _ => Ok tt
  end.

Fixpoint hasSensitiveFields (fields : list string) (v : any) : bool :=
  match v with
  | VObj m =>
      (fix entries (m : list (string * any)) : bool :=
         match m with [] => false | (k, val) :: m' => one_of k fields || hasSensitiveFields fields val || entries m' end) m
  | VArr l =>
      (fix elements (l : list any) : bool :=
         match l with [] => false | val :: l' => hasSensitiveFields fields val || elements l' end) l
  | _ => false
  end.

(** * The request *)

(** [strings.ReplaceAll] for a text that is not empty. *)
Fixpoint replace_all (fuel : nat) (s old new : string) : string :=
  match fuel with
  | O => s
  | S n =>
      if HasPrefix s old then new +:+ replace_all n (drop_string (String.length old) s) old new
      else match s with EmptyString => EmptyString | String c s' => String c (replace_all n s' old new) end
  end.
Definition ReplaceAll_text (s old new : string) : string := replace_all (S (String.length s)) s old new.

Definition accepts (op : Operation) (kind name : string) : bool :=
  existsb (λ p, (p.(pa_In) =? kind)%string && (p.(pa_Name) =? name)%string) op.(op_Parameters).

Definition each_parameter (op : Operation) (kind name : string) (f : parameter → result unit) : result unit :=
  iterM (λ p, if (p.(pa_In) =? kind)%string && (p.(pa_Name) =? name)%string then f p else Ok tt) op.(op_Parameters).

Definition CR_LF_NUL : string := String "013" (String "010" (String "000" EmptyString)).

Definition check_key (op : Operation) (key : string) : result unit :=
  _ ← fail_when ((len key >? 128) || ContainsAny key CR_LF_NUL) (op_error "invalid idempotency key");
  iterM (λ p, fail_when ((p.(pa_In) =? "header")%string && (p.(pa_Name) =? "Idempotency-Key")%string && p.(pa_Required) && (len key <? 8))
    (op_error "idempotency key requires 8 to 128 characters")) op.(op_Parameters).

Definition path_argument (op : Operation) (path : string) (kv : string * string) : result string :=
  let '(k, v) := kv in
  _ ← fail_when (negb (accepts op "path" k) || negb (plain_segment v)) (op_error "invalid path parameter");
  _ ← each_parameter op "path" k (λ p, wrap (λ _, op_error "invalid path parameter value") (validate (VStr v) p.(pa_Schema) 0));
  Ok (ReplaceAll_text path ("{" +:+ k +:+ "}") (PathEscape v)).

Definition ParseBool (s : string) : option bool :=
  if one_of s ["1"; "t"; "T"; "TRUE"; "true"; "True"] then Some true
  else if one_of s ["0"; "f"; "F"; "FALSE"; "false"; "False"] then Some false else None.

(** The value of a query parameter as its schema reads it. *)
Definition query_value (s : option schema) (v : string) : result any :=
  let kind := field (default [] s) "type" in
  if is_text kind "integer" || is_text kind "number" then
    _ ← fail_when (negb (ParseFloat_finite v)) (op_error "invalid numeric query parameter"); Ok (VNum v)
  else if is_text kind "boolean" then
    match ParseBool v with Some b => Ok (VBool b) | None => Err (op_error "invalid boolean query parameter") end
  else Ok (VStr v).

Definition query_argument (op : Operation) (query : gmap string string) (kv : string * string) : result (gmap string string) :=
  let '(k, v) := kv in
  _ ← fail_when (negb (accepts op "query" k) || (len v >? 2048) || ContainsAny v CR_LF_NUL) (op_error "invalid query parameter");
  _ ← (if one_of k ["limit"; "page"] then
         match Atoi v with
         | Some n => fail_when ((n <? 1) || (n >? 100)) (op_error "list limit and page must be 1 to 100")
         | None => Err (op_error "list limit and page must be 1 to 100")
         end
       else Ok tt);
  _ ← each_parameter op "query" k (λ p, value ← query_value p.(pa_Schema) v; validate value p.(pa_Schema) 0);
  Ok (<[ k := v ]> query).

Definition query_get (query : gmap string string) (k : string) : string := default EmptyString (query !! k).

Definition check_required_query (op : Operation) (query : gmap string string) : result unit :=
  iterM (λ p, fail_when ((p.(pa_In) =? "query")%string && p.(pa_Required) && is_empty (query_get query p.(pa_Name)) &&
                         negb (one_of p.(pa_Name) ["project"; "environment"]))
    (Errorf "missing query parameter %s" [AStr p.(pa_Name)])) op.(op_Parameters).

Definition read_body (op : Operation) (raw : string) : result any :=
  if 0 <? len raw then
    _ ← fail_when (len raw >? MaxBytes) (op_error "request exceeds 1 MiB");
    body ← json_Decode raw;
    _ ← fail_when (negb (non_nil op.(op_Body))) (op_error "operation does not accept a JSON body");
    _ ← validate body op.(op_Body) 0;
    Ok body
  else _ ← fail_when op.(op_bodyRequired) (op_error "request body is required"); Ok VNull.

Definition scope_query (op : Operation) (s : Scope) (query : gmap string string) : result (gmap string string) :=
  foldM (λ (query : gmap string string) '(key, wanted),
    let val := query_get query key in
    _ ← fail_when (negb (is_empty val) && negb (val =? wanted)%string) (op_error "query is outside the configured scope");
    Ok (if accepts op "query" key then <[ key := wanted ]> query else query)) query
    [("project", s.(sc_Project)); ("environment", s.(sc_Environment))].

Definition resolve_schema (s : schema) : schema :=
  match text s "$ref" with
  | Some ref => default [] (component_schema (TrimPrefix ref "#/components/schemas/"))
  | None => s
  end.

Definition scope_body (op : Operation) (s : Scope) (body : any) : any :=
  match body with
  | VObj obj =>
      let props := default [] (field (resolve_schema (default [] op.(op_Body))) "properties" ≫= as_object) in
      let obj := if non_nil (field props "project") then set_field obj "project" (VStr s.(sc_Project)) else obj in
      let obj := if non_nil (field props "environment") then set_field obj "environment" (VStr s.(sc_Environment)) else obj in
      VObj obj
  | _ => body
  end.

(** Collections and named resources that take the scope in the query. *)
Definition scoped_paths : list string :=
  ["/applications"; "/databases"; "/external-databases"; "/managed-platforms"; "/builds"; "/virtual-networks"; "/dns-providers";
   "/registries"; "/secrets"; "/alarms"; "/alarm-settings"; "/requests"; "/storage/retained"; "/placement/nodes";
   "/database-placement/nodes"; "/actions/capabilities"; "/cloud/capabilities"].
Definition scoped_path (path : string) : bool :=
  one_of path scoped_paths || HasPrefix path "/virtual-networks/" || HasPrefix path "/registries/" ||
  HasPrefix path "/dns-providers/" || HasPrefix path "/secrets/".

(** [strings.Trim(s, "/")] *)
Fixpoint trim_left_slash (s : string) : string :=
  match s with String c s' => if Ascii.eqb c "/" then trim_left_slash s' else s | EmptyString => EmptyString end.
Definition trim_slashes (s : string) : string := rev_string (trim_left_slash (rev_string (trim_left_slash s))).

Definition identified : list string :=
  ["applications"; "databases"; "external-databases"; "managed-platforms"; "builds"; "deployments"; "managed-platform-operations";
   "managed-platform-recovery-operations"].

(** The first part of a path whose second part is the identifier. *)
Definition identified_part (path : string) : option string :=
  match Split (trim_slashes path) "/" with
  | first :: second :: _ => if (second =? "{id}")%string && one_of first identified then Some first else None
  | _ => None
  end.

Definition body_text (body : any) (k : string) : string := default EmptyString (as_object body ≫= λ m, text m k).

(** The checks before the request, and the query with the scope. *)
Definition preflight (s : Scope) (o : Operation) (p query : gmap string string) (body : any) : eff request (gmap string string) :=
  _ ← guard_or (op_error "operation belongs to a different fixed project/environment")
        (match o.(op_Policy).(po_FixedScope) with
         | Some fixed => (s.(sc_Project) =? query_get fixed "project")%string && (s.(sc_Environment) =? query_get fixed "environment")%string
         | None => true
         end);
  let platform := body_text body "id" in
  if one_of o.(op_ID) ["reviewManagedPlatform"; "acceptManagedPlatform"] && negb (is_empty platform) then
    _ ← resourceScope s "managed-platforms" platform; mret query
  else if negb (is_empty o.(op_Policy).(po_Resource)) then
    _ ← resourceScope s o.(op_Policy).(po_Resource) (query_get p o.(op_Policy).(po_ResourceParameter)); mret query
  else
    let resource := default EmptyString (identified_part o.(op_Path)) in
    let id := query_get p "id" in
    if is_empty resource then
      let query := if scoped_path o.(op_Path) then <[ "environment" := s.(sc_Environment) ]> (<[ "project" := s.(sc_Project) ]> query) else query in
      let app := body_text body "application_id" in
      _ ← (if is_empty app then mret tt else resourceScope s "applications" app);
      mret query
    else if (resource =? "builds")%string && o.(op_Mutating) then
      build ← get_object ("/builds/" +:+ PathEscape id);
      _ ← guard_or outside_scope (in_scope s build);
      _ ← guard_or (op_error "automatic deployment builds require their dedicated reviewed interface")
            (negb (match field build "auto_deploy" with Some (VBool b) => b | _ => false end));
      mret query
    else _ ← resourceScope s resource id; mret query.

(** [query.Encode()] *)
Definition encode_query (query : gmap string string) : string :=
  Join ((λ k, QueryEscape k +:+ "=" +:+ QueryEscape (query_get query k)) <$> sort_strings (map_to_list query).*1) "&".

Definition invoke (s : Scope) (allowWrite : bool) (i : Invocation) (installation credentials deploy : bool) : eff request any :=
  _ ← guard_or (op_error "request exceeds 1 MiB") (marshal_Invocation i <=? MaxBytes);
  _ ← guard_or (op_error "project and environment are required") (installation || negb (is_empty s.(sc_Project) || is_empty s.(sc_Environment)));
  op ← some_or (op_error "unknown operation") (find_operation i.(in_Operation));
  _ ← guard_or (op_error "credential operations require explicit credential opt-in") (negb op.(op_Policy).(po_CredentialRequired) || credentials);
  _ ← guard_or (op_error "deployment operations require explicit deployment opt-in") (negb (op.(op_Policy).(po_Category) =? "deploy")%string || deploy);
  _ ← guard_or (op_error op.(op_Exclusion)) (op.(op_Available) || installation);
  _ ← (if (op.(op_Policy).(po_ScopeRequirement) =? "project_credential")%string then requireProjectCredential s else mret tt);
  _ ← guard_or (op_error "mutation requires explicit write opt-in") (negb op.(op_Mutating) || allowWrite);
  _ ← lift (check_key op i.(in_IdempotencyKey));
  path ← lift (foldM (path_argument op) op.(op_Path) (range i.(in_Path)));
  _ ← guard_or (op_error "missing path parameter") (negb (Contains path "{"));
  query ← lift (foldM (query_argument op) ∅ (range i.(in_Query)));
  _ ← lift (check_required_query op query);
  body ← lift (read_body op i.(in_Body));
  _ ← lift (if HasPrefix op.(op_Path) "/builds" && op.(op_Mutating) then rejectAutoDeploy body else Ok tt);
  _ ← guard_or (op_error "credential fields require separate credential opt-in and agent:credentials")
        (negb (installation && negb credentials && hasSensitiveFields op.(op_Policy).(po_SensitiveFields) body));
  '(query, body) ← (if installation then mret (query, body)
     else
       _ ← lift (checkScope s body);
       query ← lift (scope_query op s query);
       let body := scope_body op s body in
       _ ← references s op.(op_Policy).(po_References) body;
       let app := query_get query "application_id" in
       _ ← (if is_empty app then mret tt else resourceScope s "applications" app);
       query ← preflight s op i.(in_Path) query body;
       mret (query, body));
  let query := if (op.(op_Path) =? "/templates")%string then delete "environment" (delete "project" query) else query in
  let path := if bool_decide (query = ∅) then path else path +:+ "?" +:+ encode_query query in
  out ← send op.(op_Method) path body i.(in_IdempotencyKey);
  size ← lift (marshal_length out);
  _ ← guard_or (op_error "response exceeds 1 MiB") (size <=? MaxBytes);
  mret out.

Definition Invoke (s : Scope) (allowWrite : bool) (i : Invocation) : eff request any := invoke s allowWrite i false false false.

(** What the last operation of that name in the catalog requires. *)
Definition last_operation (id : string) : option Operation := last (filter (λ op, op.(op_ID) = id) catalog).
Definition credential_required (id : string) : bool :=
  match last_operation id with Some op => op.(op_Policy).(po_CredentialRequired) | None => false end.
Definition owner_required (id : string) : bool :=
  match last_operation id with Some op => (op.(op_Policy).(po_ScopeRequirement) =? "installation_owner")%string | None => false end.

Definition InvokeWithAccess (s : Scope) (a : Access) (i : Invocation) : eff request any :=
  if negb a.(ac_Installation) then
    _ ← guard_or (op_error "administration requires a separate installation connection") (negb a.(ac_AllowAdmin));
    _ ← (if credential_required i.(in_Operation) then
           _ ← guard_or (op_error "credential operations require explicit credential opt-in") a.(ac_AllowCredentials);
           requireProjectCredentialGrant s
         else mret tt);
    invoke s a.(ac_AllowWrite) i false a.(ac_AllowCredentials) a.(ac_AllowDeploy)
  else
    _ ← guard_or (op_error "installation connections cannot include project or environment") (is_empty s.(sc_Project) && is_empty s.(sc_Environment));
    _ ← guard_or (op_error "installation operations require explicit administration opt-in") a.(ac_AllowAdmin);
    _ ← guard_or (op_error "this operation is not available on an installation connection") (InstallationAvailable i.(in_Operation));
    _ ← guard_or (op_error "credential operations require explicit credential opt-in") (negb (credential_required i.(in_Operation)) || a.(ac_AllowCredentials));
    _ ← requireInstallation a.(ac_AllowCredentials) (owner_required i.(in_Operation));
    invoke s a.(ac_AllowWrite) i true a.(ac_AllowCredentials) a.(ac_AllowDeploy).
End invocation.
End contract.
