(* ===== verification/OperationsSpec.v ===== *)
(** What an agent's connection can do: nothing is sent but reads until every check has
    passed, then one request, for the operation that was named, within the scope and the
    opt-ins of the connection. *)
From S2P Require Import Prelude GoStd Paths Regex Escapes Traced JsonValue Operations.
#[global] Open Scope Z_scope.
#[local] Set Default Proof Using "Type".

(** * Documents *)

(** Every project and environment named inside a document is that of the scope. *)
Definition inside_scope (s : Scope) (v : any) : Prop := ∀ m k x, within (VObj m) v → (k, x) ∈ m →
  (k = "project" → x = VStr s.(sc_Project)) ∧ (k = "environment" → x = VStr s.(sc_Environment)).

Definition scalar (v : any) : Prop := match v with VArr _ | VObj _ => False | _ => True end.

Lemma within_scalar m v : scalar v → ¬ within (VObj m) v.
Proof. intros Hs Hw. by destruct Hw. Qed.

Lemma within_arr_inv m l : within (VObj m) (VArr l) ↔ ∃ x, x ∈ l ∧ within (VObj m) x.
Proof. split; [inversion 1; eauto|]. intros (x & Hx & Hw). by apply (within_arr _ l x). Qed.

Lemma within_obj_inv m m' : within (VObj m) (VObj m') ↔ m = m' ∨ ∃ k x, (k, x) ∈ m' ∧ within (VObj m) x.
Proof.
  split; [inversion 1; eauto|]. intros [->|(k & x & Hx & Hw)]; [apply within_refl|by apply (within_obj _ m' k x)].
Qed.

(** A check of every entry of every object, by cases on the document. *)
Section every_entry.
Context (check : string → any → Prop).

Definition every_entry (v : any) : Prop := ∀ m k x, within (VObj m) v → (k, x) ∈ m → check k x.

Lemma every_scalar v : scalar v → every_entry v.
Proof. intros Hs m k x Hw. by apply within_scalar in Hw. Qed.

Lemma every_arr l : every_entry (VArr l) ↔ Forall every_entry l.
Proof.
  rewrite Forall_forall. unfold every_entry. setoid_rewrite within_arr_inv. naive_solver.
Qed.

Lemma every_obj m : every_entry (VObj m) ↔ Forall (λ e, check e.1 e.2 ∧ every_entry e.2) m.
Proof.
  rewrite Forall_forall. unfold every_entry. setoid_rewrite within_obj_inv. split.
  - intros Hall [k x] Hin. split; [apply (Hall m); eauto|]. intros m' k' x' Hw Hin'. apply (Hall m'); eauto.
  - intros Hall m' k x [->|(k' & x' & Hin' & Hw)] Hin; [by apply (Hall (k, x))|]. destruct (Hall (k', x') Hin') as [_ He]. eauto.
Qed.
End every_entry.

Definition scope_entry (s : Scope) (k : string) (x : any) : Prop :=
  (k = "project" → x = VStr s.(sc_Project)) ∧ (k = "environment" → x = VStr s.(sc_Environment)).

Lemma scope_entry_check s k x :
  (k =? "project")%string && negb (is_text (Some x) s.(sc_Project)) || (k =? "environment")%string && negb (is_text (Some x) s.(sc_Environment)) = false ↔
  scope_entry s k x.
Proof.
  unfold scope_entry. rewrite orb_false_iff, !andb_false_iff, !String.eqb_neq, !negb_false_iff, !is_text_true.
  assert (∀ t, Some x = Some (VStr t) ↔ x = VStr t) as Hs by (intros t; split; [by intros [= ->]|by intros ->]). rewrite !Hs.
  destruct (decide (k = "project")), (decide (k = "environment")); tauto.
Qed.

Lemma checkScope_inside s v : checkScope s v = Ok tt ↔ every_entry (scope_entry s) v.
Proof.
  induction v as [| | | |l IH|m IH] using any_nested_ind; cbn [checkScope]; try (split; [intros _; by apply every_scalar|done]).
  - rewrite every_arr. induction IH as [|x l Hx _ IHl]; [done|]. rewrite Forall_cons, bind_Ok, <-IHl, <-Hx.
    split; [intros ([] & H1 & H2); done|intros [-> ->]; by exists tt].
  - rewrite every_obj. induction IH as [|[k x] m Hx _ IHm]; [done|]. rewrite Forall_cons, bind_Ok, <-IHm, <-Hx, <-scope_entry_check. cbn [fst snd].
    split.
    + intros ([] & Hf & Hr). apply fail_when_Ok in Hf. apply bind_Ok in Hr as ([] & H1 & H2). done.
    + intros [[Hf Hc] Hm]. exists tt. split; [by apply fail_when_Ok|]. rewrite Hc. done.
Qed.

(** A sensitive field anywhere. *)
Lemma hasSensitive_false fields v : hasSensitiveFields fields v = false ↔ every_entry (λ k _, k ∉ fields) v.
Proof.
  induction v as [| | | |l IH|m IH] using any_nested_ind; cbn [hasSensitiveFields]; try (split; [intros _; by apply every_scalar|done]).
  - rewrite every_arr. induction IH as [|x l Hx _ IHl]; [done|]. rewrite Forall_cons, orb_false_iff, IHl, Hx. done.
  - rewrite every_obj. induction IH as [|[k x] m Hx _ IHm]; [done|]. rewrite Forall_cons, !orb_false_iff, IHm, Hx. cbn [fst snd].
    rewrite <-not_true_iff_false, one_of_spec. tauto.
Qed.

(** Automatic deployment is not asked for anywhere. *)
Lemma rejectAutoDeploy_Ok v : rejectAutoDeploy v = Ok tt ↔ every_entry (λ k x, k = "auto_deploy" → x ≠ VBool true) v.
Proof.
  induction v as [| | | |l IH|m IH] using any_nested_ind; cbn [rejectAutoDeploy]; try (split; [intros _; by apply every_scalar|done]).
  - rewrite every_arr. induction IH as [|x l Hx _ IHl]; [done|]. rewrite Forall_cons, bind_Ok, <-IHl, <-Hx.
    split; [intros ([] & H1 & H2); done|intros [-> ->]; by exists tt].
  - rewrite every_obj. induction IH as [|[k x] m Hx _ IHm]; [done|]. rewrite Forall_cons, bind_Ok, <-IHm, <-Hx. cbn [fst snd].
    assert ((k =? "auto_deploy")%string && match x with VBool b => b | _ => false end = false ↔ (k = "auto_deploy" → x ≠ VBool true)) as Hc.
    { rewrite andb_false_iff, String.eqb_neq. destruct (decide (k = "auto_deploy")), x as [|[]| | | |]; naive_solver. }
    rewrite <-Hc. split.
    + intros ([] & Hf & Hr). apply fail_when_Ok in Hf. apply bind_Ok in Hr as ([] & H1 & H2). done.
    + intros [[Hf Hr] Hm]. exists tt. split; [by apply fail_when_Ok|]. rewrite Hr. done.
Qed.

(** Setting the scope in a document inside the scope leaves it inside. *)
Lemma set_field_every check m k v : check k v → every_entry check v → every_entry check (VObj m) → every_entry check (VObj (set_field m k v)).
Proof.
  intros Hc Hv. rewrite !every_obj, !Forall_forall. intros Hall e [->|He]%set_field_elem; [done|by apply Hall].
Qed.

Lemma set_scope_every check (b : bool) m k t : check k (VStr t) → every_entry check (VObj m) →
  every_entry check (VObj (if b then set_field m k (VStr t) else m)).
Proof. intros Ht Hm. destruct b; [|done]. by apply set_field_every; [|apply every_scalar|]. Qed.

Lemma scope_body_every `{Contract} check op s v : check "project" (VStr s.(sc_Project)) → check "environment" (VStr s.(sc_Environment)) →
  every_entry check v → every_entry check (scope_body op s v).
Proof.
  intros Hp He. destruct v as [| | | |l|m]; try done. intros Hm. unfold scope_body. cbv zeta.
  apply set_scope_every; [done|]. by apply set_scope_every.
Qed.

(** * Queries *)

Lemma scope_query_scoped op s q q' : scope_query op s q = Ok q' →
  (∀ k, is_Some (q !! k) → accepts op "query" k = true) →
  (∀ key wanted, (key, wanted) ∈ [("project", s.(sc_Project)); ("environment", s.(sc_Environment))] →
     if accepts op "query" key then q' !! key = Some wanted else q' !! key = None) ∧
  (∀ k, k ≠ "project" → k ≠ "environment" → q' !! k = q !! k).
Proof.
  unfold scope_query. cbn [foldM]. intros Hf Hq. inv_ok. subst. split.
  - assert (∀ k, accepts op "query" k = false → q !! k = None) as Hnone.
    { intros k Hk. apply eq_None_not_Some. intros Hs%Hq. congruence. }
    intros key wanted [[= -> ->]|[[= -> ->]|[]%not_elem_of_nil]%elem_of_cons]%elem_of_cons.
    + destruct (accepts op "query" "environment"); [rewrite lookup_insert_ne by done|];
        (destruct (accepts op "query" "project") eqn:?; [apply lookup_insert_eq|by apply Hnone]).
    + destruct (accepts op "query" "environment") eqn:?; [apply lookup_insert_eq|].
      destruct (accepts op "query" "project"); [rewrite lookup_insert_ne by done|]; by apply Hnone.
  - intros k Hp He. repeat case_match; by rewrite ?lookup_insert_ne by done.
Qed.

(** Every key of the query was accepted by the operation. *)
Lemma query_arguments_accepted `{Contract} op l q0 q : foldM (query_argument op) q0 l = Ok q →
  (∀ k, is_Some (q0 !! k) → accepts op "query" k = true) → ∀ k, is_Some (q !! k) → accepts op "query" k = true.
Proof.
  revert q0. induction l as [|[k v] l IH]; intros q0; cbn [foldM]; [intros [= <-]; done|].
  intros Hf Hq0. apply bind_Ok in Hf as (q1 & Hk & Hf). apply (IH q1 Hf). unfold query_argument in Hk.
  apply bind_unit_Ok in Hk as [Hc%fail_when_Ok Hk]. apply bind_unit_Ok in Hk as [_ Hk]. apply bind_unit_Ok in Hk as [_ [= <-]].
  intros k' [v' Hl]. apply lookup_insert_Some in Hl as [[<- _]|[_ Hl]]; [|by apply Hq0; exists v'].
  rewrite !orb_false_iff in Hc. destruct Hc as [[Hc _] _]. by apply negb_false_iff.
Qed.

(** * Paths *)

Definition plain_bytes (v : string) : Prop := all_bytes segment_char v = true.

Lemma segment_bytes v : full_match segment v = true → plain_bytes v.
Proof.
  unfold segment, plain_bytes. rewrite full_match_spec, cat_matches. setoid_rewrite cls_matches. setoid_rewrite upto_matches.
  intros (a & b & -> & (c & -> & Hc) & _ & Hb). rewrite all_bytes_app, Hb. cbn [all_bytes]. rewrite !andb_true_r.
  unfold segment_first, segment_char in *. by rewrite Hc.
Qed.

Lemma plain_bytes_no_sep c v : segment_char c = false → plain_bytes v → no_sep c v.
Proof.
  unfold plain_bytes, no_sep. intros Hc. induction v as [|d v IH]; [done|]. cbn [all_bytes has_byte]. intros [Hd Hv]%andb_true_iff.
  rewrite IH by done. destruct (Ascii.eqb_spec d c) as [->|]; [congruence|done].
Qed.

Lemma PathEscape_plain v : plain_bytes v → PathEscape v = v.
Proof.
  unfold plain_bytes. induction v as [|c v IH]; [done|]. cbn [all_bytes PathEscape]. intros [Hc Hv]%andb_true_iff. rewrite IH by done.
  assert (path_plain c = true) as ->; [|done]. clear -Hc. revert c Hc.
  enough (forallb (λ n, implb (segment_char (ascii_of_nat n)) (path_plain (ascii_of_nat n))) (seq 0 256) = true) as Hall.
  { intros c Hc. rewrite forallb_forall in Hall. specialize (Hall (nat_of_ascii c)). rewrite ascii_nat_embedding, Hc in Hall.
    apply Hall, list_elem_of_In, elem_of_seq. pose proof (nat_ascii_bounded c). lia. }
  vm_compute. reflexivity.
Qed.

Lemma HasPrefix_before_sep a b old : no_sep "/" old → HasPrefix (a +:+ String "/" b) old = HasPrefix a old.
Proof.
  revert a. induction old as [|o old IH]; intros a Ho; [by destruct a|].
  unfold no_sep in Ho. cbn [has_byte] in Ho. apply orb_false_iff in Ho as [Ho1 Ho2].
  destruct a as [|c a].
  - change (EmptyString +:+ String "/" b) with (String "/" b). cbn [HasPrefix]. by rewrite Ho1.
  - rewrite string_app_cons. cbn [HasPrefix]. f_equal. by apply IH.
Qed.

Lemma replace_all_enough old new : old ≠ EmptyString → ∀ n m s, (String.length s < n)%nat → (String.length s < m)%nat →
  replace_all n s old new = replace_all m s old new.
Proof.
  intros Hold n. induction n as [|n IH]; intros m s Hn Hm; [lia|]. destruct m as [|m]; [lia|]. cbn [replace_all].
  destruct (HasPrefix s old) eqn:Hp.
  - apply HasPrefix_spec in Hp as [t ->]. rewrite drop_string_app. f_equal. rewrite string_length_app in *.
    assert (0 < String.length old)%nat by (destruct old; [done|simpl; lia]). apply IH; lia.
  - destruct s as [|c s]; [done|]. cbn [String.length] in *. f_equal. apply IH; lia.
Qed.

Lemma ReplaceAll_sep old new a b : old ≠ EmptyString → no_sep "/" old →
  ReplaceAll_text (a +:+ String "/" b) old new = ReplaceAll_text a old new +:+ String "/" (ReplaceAll_text b old new).
Proof.
  intros Hold Ho. unfold ReplaceAll_text at 1 2.
  assert (∀ n a, (String.length a < n)%nat → (String.length (a +:+ String "/" b) < S (n + String.length b))%nat →
    replace_all (S (n + String.length b)) (a +:+ String "/" b) old new = replace_all n a old new +:+ String "/" (ReplaceAll_text b old new)) as Hgen.
  { clear a. induction n as [|n IH]; intros a Hn Hlen; [lia|]. cbn [replace_all]. rewrite HasPrefix_before_sep by done.
    destruct (HasPrefix a old) eqn:Hp.
    - apply HasPrefix_spec in Hp as [t ->]. rewrite <-string_app_assoc, !drop_string_app, <-string_app_assoc. f_equal.
      rewrite !string_length_app in *. assert (0 < String.length old)%nat by (destruct old; [done|simpl; lia]). cbn [String.length] in *.
      rewrite <-IH by (rewrite ?string_length_app; cbn [String.length]; lia).
      apply replace_all_enough; [done|rewrite string_length_app; cbn [String.length]; lia..].
    - destruct a as [|c a].
      + change (EmptyString +:+ String "/" b) with (String "/" b). change (EmptyString +:+ ?t) with t. cbn [replace_all HasPrefix] in *.
        destruct old as [|o old]; [done|]. unfold no_sep in Ho. cbn [has_byte] in Ho. apply orb_false_iff in Ho as [Ho1 _].
        unfold ReplaceAll_text. f_equal. apply replace_all_enough; [done|lia..].
      + rewrite !string_app_cons. f_equal. cbn [String.length] in *. rewrite string_app_cons in Hlen. cbn [String.length] in Hlen.
        rewrite <-IH by lia. apply replace_all_enough; [done|lia|lia]. }
  rewrite <-Hgen.
  - apply replace_all_enough; [done|lia|]. rewrite string_length_app. cbn [String.length]. lia.
  - lia.
  - rewrite string_length_app. cbn [String.length]. lia.
Qed.

(** Replacing acts on each segment of a path. *)
Lemma Split_ReplaceAll old new : old ≠ EmptyString → no_sep "/" old → no_sep "/" new → ∀ s,
  Split (ReplaceAll_text s old new) "/" = (λ seg, ReplaceAll_text seg old new) <$> Split s "/".
Proof.
  intros Hold Ho Hn.
  assert (∀ a, no_sep "/" a → no_sep "/" (ReplaceAll_text a old new)) as Hno.
  { intros a Ha. unfold ReplaceAll_text. generalize (S (String.length a)). intros n. revert a Ha. induction n as [|n IH]; intros a Ha; [done|].
    cbn [replace_all]. destruct (HasPrefix a old) eqn:Hp.
    - apply HasPrefix_spec in Hp as [t ->]. rewrite drop_string_app. apply no_sep_app; [done|]. apply IH. by apply no_sep_app_inv in Ha as [_ ?].
    - destruct a as [|c a]; [done|]. unfold no_sep in *. cbn [has_byte] in *. apply orb_false_iff in Ha as [-> Ha]. by apply IH. }
  intros s. remember (Split s "/") as segs eqn:Hs. revert s Hs. induction segs as [|seg segs IH]; intros s Hs.
  - symmetry in Hs. by apply Split_not_nil in Hs.
  - pose proof (Split_no_sep s "/") as Hall. rewrite <-Hs in Hall. apply Forall_cons in Hall as [Hseg _].
    destruct segs as [|seg' segs].
    + assert (s = seg) as -> by (rewrite <-(Join_Split s "/"), <-Hs; done). cbn [fmap list_fmap]. by apply Split_single, Hno.
    + assert (s = seg +:+ String "/" (Join (seg' :: segs) "/")) as -> by (rewrite <-(Join_Split s "/"), <-Hs; done).
      rewrite ReplaceAll_sep, Split_app, (Split_single _ "/") by (done || by apply Hno). rewrite fmap_cons. cbn [app]. f_equal.
      apply IH. rewrite Split_app, Split_single in Hs by done. by injection Hs.
Qed.

(** A segment without the first byte of the text is not changed. *)
Lemma ReplaceAll_absent c old new seg : no_sep c seg → ReplaceAll_text seg (String c old) new = seg.
Proof.
  unfold ReplaceAll_text. generalize (S (String.length seg)). intros n. revert seg. induction n as [|n IH]; intros seg Hs; [done|].
  cbn [replace_all]. destruct seg as [|d seg]; [done|]. unfold no_sep in Hs. cbn [has_byte] in Hs. apply orb_false_iff in Hs as [Hd Hs].
  cbn [HasPrefix]. rewrite Ascii.eqb_sym, Hd. cbn [andb]. by rewrite IH.
Qed.

Lemma prefix_brace name k : no_sep "}" name → HasPrefix (name +:+ "}") (k +:+ "}") = true → k = name.
Proof.
  revert k. induction name as [|d name IH]; intros k Hn.
  - destruct k as [|c k]; [done|]. rewrite string_app_cons. change (EmptyString +:+ "}") with "}". cbn [HasPrefix].
    destruct k; rewrite ?andb_false_r; done.
  - unfold no_sep in Hn. cbn [has_byte] in Hn. apply orb_false_iff in Hn as [Hd Hn]. destruct k as [|c k].
    + change (EmptyString +:+ "}") with "}". rewrite string_app_cons. cbn [HasPrefix]. rewrite Ascii.eqb_sym, Hd. done.
    + rewrite !string_app_cons. cbn [HasPrefix]. intros [->%Ascii.eqb_eq Hp]%andb_true_iff. f_equal. by apply IH.
Qed.

Definition braced (name : string) : string := "{" +:+ name +:+ "}".

Lemma replace_all_head n s t new : HasPrefix s t = true → replace_all (S n) s t new = new +:+ replace_all n (drop_string (String.length t) s) t new.
Proof. intros Hp. cbn [replace_all]. by rewrite Hp. Qed.

Lemma ReplaceAll_braced name k new : no_sep "{" name → no_sep "}" name →
  ReplaceAll_text (braced name) (braced k) new = if decide (k = name) then new else braced name.
Proof.
  intros Ho Hc. unfold ReplaceAll_text. destruct (decide (k = name)) as [->|Hne].
  - assert (braced name = braced name +:+ EmptyString) as Hb by by rewrite string_app_nil_r.
    rewrite replace_all_head by (apply HasPrefix_spec; by exists EmptyString).
    rewrite Hb at 3. rewrite drop_string_app. cbn [String.length]. unfold braced. cbn. apply string_app_nil_r.
  - unfold braced. change ("{" +:+ ?t) with (String "{" t). cbn [String.length replace_all HasPrefix]. rewrite Ascii.eqb_refl. cbn [andb].
    destruct (HasPrefix (name +:+ "}") (k +:+ "}")) eqn:Hp; [by apply prefix_brace in Hp|]. f_equal.
    apply (ReplaceAll_absent "{"). by apply no_sep_app.
Qed.

(** A path of the contract: each part is literal, or a name in braces. *)
Definition template_part (part : string) : Prop :=
  no_sep "{" part ∨ ∃ name, part = braced name ∧ no_sep "{" name ∧ no_sep "}" name.
Definition template (path : string) : Prop := Forall template_part (Split path "/").

(** What a part becomes: itself, or the plain segment given for its name. *)
Definition instance (args : gmap string string) (part seg : string) : Prop :=
  no_sep "{" part ∧ seg = part ∨
  ∃ name v, part = braced name ∧ args !! name = Some v ∧ seg = v ∧ plain_segment v = true.

(** Halfway, a part may still be as it was. *)
Definition partial (args : gmap string string) (part seg : string) : Prop :=
  instance args part seg ∨ template_part part ∧ seg = part.

Lemma plain_segment_bytes v : plain_segment v = true → plain_bytes v.
Proof. unfold plain_segment. intros [[Hm _]%andb_true_iff _]%andb_true_iff. by apply segment_bytes. Qed.

Lemma partial_step args k v part seg : args !! k = Some v → plain_segment v = true → partial args part seg →
  partial args part (ReplaceAll_text seg (braced k) v).
Proof.
  intros Hk Hv [[[Hp ->]|(name & w & -> & Hn & -> & Hw)]|[[Hp|(name & -> & Ho & Hc)] ->]].
  - left; left. split; [done|]. by apply (ReplaceAll_absent "{").
  - left; right. exists name, w. split_and!; try done. apply (ReplaceAll_absent "{"). apply plain_bytes_no_sep; [done|by apply plain_segment_bytes].
  - left; left. split; [done|]. by apply (ReplaceAll_absent "{").
  - rewrite ReplaceAll_braced by done. case_decide; [subst; left; right; by exists name, v|right; split; [right; by exists name|done]].
Qed.

Section paths.
Context `{Contract}.

(** An operation as the contract writes them: the path is a template, and no parameter
    of the path has a slash in its name. *)
Definition regular (op : Operation) : Prop := template op.(op_Path) ∧ ∀ name, accepts op "path" name = true → no_sep "/" name.

Lemma path_arguments_partial op args l path path' : (∀ name, accepts op "path" name = true → no_sep "/" name) →
  (∀ k v, (k, v) ∈ l → args !! k = Some v) →
  Forall2 (partial args) (Split op.(op_Path) "/") (Split path "/") → foldM (path_argument op) path l = Ok path' →
  Forall2 (partial args) (Split op.(op_Path) "/") (Split path' "/").
Proof.
  intros Hnames. revert path. induction l as [|[k v] l IH]; intros path Hl Hp; cbn [foldM]; [by intros [= <-]|].
  intros Hf. apply bind_Ok in Hf as (path1 & Hk & Hf). apply (IH path1); [|clear Hf|exact Hf]; [intros k' v' Hin; apply Hl; by right|].
  unfold path_argument in Hk. apply bind_unit_Ok in Hk as [Hc%fail_when_Ok Hk]. apply bind_unit_Ok in Hk as [_ [= <-]].
  apply orb_false_iff in Hc as [Hacc%negb_false_iff Hv%negb_false_iff]. pose proof (plain_segment_bytes _ Hv) as Hb.
  rewrite PathEscape_plain by done. change ("{" +:+ k +:+ "}") with (braced k).
  assert (no_sep "/" (braced k)) as Hno by (unfold braced; repeat apply no_sep_app; [done|by apply Hnames|done]).
  rewrite Split_ReplaceAll; [|done|done|by apply plain_bytes_no_sep]. apply Forall2_fmap_r.
  eapply Forall2_impl; [exact Hp|]. intros part seg Hs. apply partial_step; [by apply Hl; left|done..].
Qed.

Lemma Contains_byte s c : Contains s (String c EmptyString) = has_byte c s.
Proof.
  induction s as [|d s IH]; [done|]. change (HasPrefix (String d s) (String c EmptyString) || Contains s (String c EmptyString) = has_byte c (String d s)).
  rewrite IH. cbn [HasPrefix has_byte]. destruct s; by rewrite ?andb_true_r, (Ascii.eqb_sym d c).
Qed.

(** The path of a request: every part that is a name replaced by a plain segment. *)
Lemma path_arguments_instance `{RangeOrder} op args path : regular op →
  foldM (path_argument op) op.(op_Path) (range args) = Ok path → Contains path "{" = false →
  Forall2 (instance args) (Split op.(op_Path) "/") (Split path "/").
Proof.
  intros [Ht Hnames] Hf Hc. eapply path_arguments_partial in Hf; [|exact Hnames|..].
  - assert (no_sep "{" path) as Hno by (unfold no_sep; by rewrite <-Contains_byte).
    rewrite <-(Join_Split path "/") in Hno.
    assert (Forall (no_sep "{") (Split path "/")) as Hsegs.
    { revert Hno. generalize (Split path "/"). intros l. induction l as [|x l IHl]; [by constructor|]. intros Hj. constructor.
      - destruct l; [done|]. by apply no_sep_app_inv in Hj as [? _].
      - apply IHl. destruct l as [|y l]; [done|]. apply no_sep_app_inv in Hj as [_ Hj]. by apply (no_sep_app_inv _ "/") in Hj as [_ ?]. }
    clear Hc Hno. revert Hf Hsegs. generalize (Split (op_Path op) "/") (Split path "/"). intros l l' Hf.
    induction Hf as [|part seg parts segs Hp _ IHf]; [constructor|]. intros [Hs Hsegs]%Forall_cons.
    constructor; [|by apply IHf]. destruct Hp as [Hi|[[Hl|(name & -> & _)] ->]]; [done|by left|].
    unfold braced in Hs. by apply (no_sep_app_inv _ "{") in Hs as [Hs _].
  - intros k v Hin. by apply elem_of_range.
  - clear Hf. unfold template in Ht. induction Ht as [|part parts Hp _ IHt]; constructor; [by right|done].
Qed.
End paths.

(** * Reads *)

Section invocation.
Context `{Contract} `{RangeOrder} (call : list request → request → result any).

(** A request that changes nothing. *)
Definition is_read (q : request) : Prop := q.(q_Method) = "GET" ∧ q.(q_Body) = VNull.
Definition reads (log : list request) : Prop := Forall is_read log.

(** The control plane answered a request of the log with this. *)
Definition answered (log : list request) (req : request) (v : any) : Prop :=
  ∃ before after, log = before ++ req :: after ∧ call before req = Ok v.

Definition get (path : string) : request := mkRequest "GET" path VNull EmptyString.
Definition got_object (log : list request) (path : string) (out : list (string * any)) : Prop :=
  ∃ v, answered log (get path) v ∧ object_of v = Ok out.
Definition got_me (log : list request) (p : Me) : Prop := ∃ v, answered log (get "/me") v ∧ decode_Me v = Ok p.

(** The control plane says that a resource, or what it belongs to, is in the scope. *)
Inductive owned (s : Scope) (log : list request) : string → string → Prop :=
  | owned_here resource id out : got_object log ("/" +:+ resource +:+ "/" +:+ PathEscape id) out →
      owner_of resource out = None → in_scope s out = true → owned s log resource id
  | owned_by resource id out owner owner_id :
      got_object log ("/" +:+ resource +:+ "/" +:+ PathEscape id) out → owner_of resource out = Some (owner, owner_id) →
      owned s log owner owner_id → owned s log resource id.

(** Facts that more requests do not undo. *)
Definition grows (F : list request → Prop) : Prop := ∀ log more, F log → F (log ++ more).

Lemma answered_grows req v : grows (λ log, answered log req v).
Proof. intros log more (b & a & -> & Hc). exists b, (a ++ more). by rewrite <-app_assoc. Qed.
Lemma got_object_grows path out : grows (λ log, got_object log path out).
Proof. intros log more (v & Ha & Ho). exists v. split; [by apply answered_grows|done]. Qed.
Lemma got_me_grows p : grows (λ log, got_me log p).
Proof. intros log more (v & Ha & Ho). exists v. split; [by apply answered_grows|done]. Qed.
Lemma owned_grows s resource id : grows (λ log, owned s log resource id).
Proof.
  intros log more. induction 1; [eapply owned_here|eapply owned_by]; eauto; by apply got_object_grows.
Qed.
Lemma grows_and F G : grows F → grows G → grows (λ log, F log ∧ G log).
Proof. intros HF HG log more [? ?]. split; [by apply HF|by apply HG]. Qed.
Lemma grows_true : grows (λ _, True).
Proof. done. Qed.

(** A computation that only reads, and what it finds out. *)
Definition reading {A} (m : eff request A) (G : A → list request → Prop) : Prop := ∀ F, grows F →
  triple (λ log, reads log ∧ F log) m (λ a log, (reads log ∧ F log) ∧ G a log) (λ _ log, reads log).

Lemma reading_ret {A} (a : A) (G : A → list request → Prop) : (∀ log, G a log) → reading (eff_ret A a) G.
Proof. intros HG F _. apply triple_ret. auto. Qed.

Lemma reading_throw {A} e (G : A → list request → Prop) : reading (throw e) G.
Proof. intros F _. apply triple_throw. by intros log []. Qed.

Lemma reading_guard e b : reading (guard_or e b) (λ _ _, b = true).
Proof. intros F _. apply triple_guard. by intros log []. Qed.

Lemma reading_some {A} e (o : option A) : reading (some_or e o) (λ a _, o = Some a).
Proof. clear call. intros F _. apply triple_some. by intros log []. Qed.

Lemma reading_lift {A} (r : result A) : reading (lift r) (λ a _, r = Ok a).
Proof. intros F _. apply triple_lift. by intros e log _ []. Qed.

Lemma reading_bind {A B} (m : eff request A) (f : A → eff request B) G R :
  reading m R → (∀ a, grows (R a)) → (∀ a, reading (f a) (λ b log, R a log → G b log)) → reading (eff_bind A B f m) G.
Proof.
  intros Hm HR Hf F HF. eapply triple_bind; [by apply Hm|]. intros a. cbn beta.
  eapply triple_pre; [|eapply triple_post; [apply (Hf a (λ log, F log ∧ R a log)); by apply grows_and|..]]; cbn beta.
  - clear call. tauto.
  - intros b log ((H1 & H2 & H3) & H4). clear call. auto.
  - clear call. done.
Qed.

Lemma reading_weaken {A} (m : eff request A) (G G' : A → list request → Prop) : reading m G → (∀ a log, G a log → G' a log) → reading m G'.
Proof. clear call. intros Hm HG F HF. eapply triple_post; [by apply Hm|naive_solver|done]. Qed.

Lemma reading_bind_pure {A B} (m : eff request A) (f : A → eff request B) (C : A → Prop) G :
  reading m (λ a _, C a) → (∀ a, C a → reading (f a) G) → reading (eff_bind A B f m) G.
Proof.
  intros Hm Hf F HF. eapply triple_bind; [by apply Hm|]. intros a. cbn beta. apply triple_pure. intros Ha. by apply (Hf a Ha F).
Qed.

Lemma reading_get path : reading (send call "GET" path VNull EmptyString) (λ v log, answered log (get path) v).
Proof.
  intros F HF log [Hr Hf]. unfold send. cbv zeta. fold (get path).
  assert (reads (log ++ [get path])) as Hr' by (apply Forall_app; split; [done|]; by repeat constructor).
  destruct (call log (get path)) as [v|e] eqn:Hc; [|done]. split; [split; [done|by apply HF]|]. by exists log, [].
Qed.

Lemma reading_get_object path : reading (get_object call path) (λ out log, got_object log path out).
Proof.
  eapply reading_bind; [apply reading_get|intros; apply answered_grows|]. intros v. eapply reading_weaken; [apply reading_lift|].
  intros out log Ho Ha. by exists v.
Qed.

Lemma reading_get_me : reading (get_me call) (λ p log, got_me log p).
Proof.
  eapply reading_bind; [apply reading_get|intros; apply answered_grows|]. intros v. eapply reading_weaken; [apply reading_lift|].
  intros out log Ho Ha. by exists v.
Qed.

Lemma reading_resource_scope fuel s resource id : reading (resource_scope call fuel s resource id) (λ _ log, owned s log resource id).
Proof.
  revert resource id. induction fuel as [|fuel IH]; intros resource id; cbn [resource_scope]; [apply reading_throw|].
  eapply reading_bind_pure; [apply reading_guard|]. intros [] Hid.
  eapply reading_bind; [apply reading_get_object|intros; apply got_object_grows|]. intros out.
  destruct (owner_of resource out) as [[owner owner_id]|] eqn:Ho.
  - eapply reading_weaken; [apply IH|]. intros [] log Hown Hg. by eapply owned_by.
  - eapply reading_weaken; [apply reading_guard|]. intros [] log Hsc Hg. by eapply owned_here.
Qed.

(** The references of a document are owned. *)
Definition reference_owned (s : Scope) (refs : gmap string string) (log : list request) (k : string) (x : any) : Prop :=
  ∀ resource, refs !! k = Some resource → resource ≠ EmptyString → ∃ id, x = VStr id ∧ (id = EmptyString ∨ owned s log resource id).

Definition references_owned (s : Scope) (refs : gmap string string) (v : any) (log : list request) : Prop :=
  every_entry (reference_owned s refs log) v.

Lemma reference_owned_grows s refs k x : grows (λ log, reference_owned s refs log k x).
Proof.
  intros log more Hr resource Hk Hne. destruct (Hr resource Hk Hne) as (id & -> & Hid). exists id. split; [done|].
  destruct Hid as [->|Ho]; [by left|right; by apply owned_grows].
Qed.
Lemma references_owned_grows s refs v : grows (references_owned s refs v).
Proof. intros log more Hr m k x Hw Hin. apply reference_owned_grows. by apply (Hr m). Qed.

Lemma reading_check_reference s refs k x : reading (check_reference call s refs k x) (λ _ log, reference_owned s refs log k x).
Proof.
  unfold check_reference, reference_owned. cbv zeta. destruct (is_empty (default EmptyString (refs !! k))) eqn:Hr.
  - apply reading_ret. intros log resource Hk Hne. rewrite Hk in Hr. by apply is_empty_true in Hr.
  - destruct (as_string x) as [id|] eqn:Hx; [|apply reading_throw]. destruct x; try done. injection Hx as ->.
    destruct (is_empty id) eqn:Hid.
    + apply reading_ret. intros log resource _ _. exists id. split; [done|left]. by apply is_empty_true.
    + eapply reading_weaken; [apply reading_resource_scope|]. intros [] log Ho resource Hk Hne. rewrite Hk in Ho. exists id. auto.
Qed.

Lemma reading_references s refs v : reading (references call s refs v) (λ _ log, references_owned s refs v log).
Proof.
  unfold references_owned.
  induction v as [| | | |l IH|m IH] using any_nested_ind; cbn [references]; try (apply reading_ret; intros log; by apply every_scalar).
  - apply (reading_weaken _ (λ _ log, Forall (every_entry (reference_owned s refs log)) l)); [|intros [] log; apply every_arr].
    induction IH as [|x l Hx _ IHl]; [by apply reading_ret|].
    eapply reading_bind; [exact Hx|intros []; apply references_owned_grows|]. intros [].
    eapply reading_weaken; [exact IHl|]. intros [] log Hl Hx'. by constructor.
  - apply (reading_weaken _ (λ _ log, Forall (λ e, reference_owned s refs log e.1 e.2 ∧ every_entry (reference_owned s refs log) e.2) m)); [|intros [] log; apply every_obj].
    induction IH as [|[k x] m Hx _ IHm]; [by apply reading_ret|].
    eapply reading_bind; [apply reading_check_reference|intros []; apply reference_owned_grows|]. intros [].
    eapply reading_bind; [exact Hx|intros []; apply references_owned_grows|]. intros [].
    eapply reading_weaken; [exact IHm|]. intros [] log Hm Hx' Hc. by constructor.
Qed.

(** The resource an operation acts on, by its policy or its path. *)
Definition target (op : Operation) (args : gmap string string) (body : any) : option (string * string) :=
  if one_of op.(op_ID) ["reviewManagedPlatform"; "acceptManagedPlatform"] && negb (is_empty (body_text body "id")) then
    Some ("managed-platforms", body_text body "id")
  else if negb (is_empty op.(op_Policy).(po_Resource)) then
    Some (op.(op_Policy).(po_Resource), query_get args op.(op_Policy).(po_ResourceParameter))
  else (λ resource, (resource, query_get args "id")) <$> identified_part op.(op_Path).

Definition set_scope (s : Scope) (query : gmap string string) : gmap string string :=
  <[ "environment" := s.(sc_Environment) ]> (<[ "project" := s.(sc_Project) ]> query).

(** What the last checks establish. *)
Record preflighted (s : Scope) (op : Operation) (args : gmap string string) (body : any) (query query' : gmap string string)
    (log : list request) : Prop := {
  pf_fixed : ∀ fixed, op.(op_Policy).(po_FixedScope) = Some fixed →
    s.(sc_Project) = query_get fixed "project" ∧ s.(sc_Environment) = query_get fixed "environment";
  pf_target : ∀ resource id, target op args body = Some (resource, id) → owned s log resource id;
  pf_collection : target op args body = None → scoped_path op.(op_Path) = true → query' = set_scope s query;
  pf_application : target op args body = None → body_text body "application_id" ≠ EmptyString →
    owned s log "applications" (body_text body "application_id");
  pf_query : query' = query ∨ query' = set_scope s query;
}.

Lemma preflighted_grows s op args body query query' : grows (preflighted s op args body query query').
Proof. intros log more [F T C A Q]. split; try done; intros; apply owned_grows; auto. Qed.

Lemma one_of_identified first : one_of first identified = true → is_empty first = false.
Proof. destruct first; [by vm_compute|done]. Qed.

Lemma identified_part_Some path first : identified_part path = Some first → is_empty first = false.
Proof.
  unfold identified_part. destruct (Split _ "/") as [|f [|second l]]; try discriminate.
  destruct ((second =? "{id}")%string && one_of f identified) eqn:Hc; [|discriminate].
  intros [= <-]. apply andb_true_iff in Hc as [_ Hc]. by apply one_of_identified.
Qed.

Lemma reading_preflight s op args query body :
  reading (preflight call s op args query body) (λ query' log, preflighted s op args body query query' log).
Proof.
  unfold preflight. eapply reading_bind_pure; [apply reading_guard|]. intros [] Hfixed. cbv zeta.
  assert (∀ fixed, op.(op_Policy).(po_FixedScope) = Some fixed →
    s.(sc_Project) = query_get fixed "project" ∧ s.(sc_Environment) = query_get fixed "environment") as HF.
  { intros fixed Hf. rewrite Hf in Hfixed. apply andb_true_iff in Hfixed as [?%String.eqb_eq ?%String.eqb_eq]. done. }
  assert (∀ resource id, target op args body = Some (resource, id) →
    reading (_ ← resourceScope call s resource id; mret query) (λ query' log, preflighted s op args body query query' log)) as Hres.
  { intros resource id Ht. eapply reading_bind; [apply reading_resource_scope|intros []; apply owned_grows|]. intros [].
    apply reading_ret. intros log Ho. split; [done|intros r i Hr; by simplify_eq|congruence..|by left]. }
  unfold target in Hres at 1.
  destruct (one_of (op_ID op) _ && negb (is_empty (body_text body "id"))) eqn:H1; [by apply Hres|].
  destruct (negb (is_empty (po_Resource (op_Policy op)))) eqn:H2; [by apply Hres|].
  assert (target op args body = (λ resource, (resource, query_get args "id")) <$> identified_part op.(op_Path)) as Ht
    by (unfold target; by rewrite H1, H2).
  set (part := identified_part (op_Path op)) in *.
  pose proof (identified_part_Some (op_Path op)) as Hpart. fold part in Hpart.
  destruct part as [first|].
  - change (default EmptyString (Some first)) with first. rewrite (Hpart first) by done.
    destruct ((first =? "builds")%string && op_Mutating op) eqn:Hb; [|by apply Hres].
    apply andb_true_iff in Hb as [->%String.eqb_eq _].
    eapply reading_bind; [apply reading_get_object|intros; apply got_object_grows|]. intros build.
    eapply reading_bind_pure; [apply reading_guard|]. intros [] Hin.
    eapply reading_bind_pure; [apply reading_guard|]. intros [] _.
    apply reading_ret. intros log Hg. split; [done| |by rewrite Ht|by rewrite Ht|by left]. rewrite Ht. intros r i [= <- <-].
    eapply owned_here; [exact Hg| |exact Hin]. unfold owner_of. by repeat case_match.
  - change (default EmptyString None) with EmptyString. cbn [is_empty String.eqb].
    eapply (reading_bind _ _ _ (λ _ log, body_text body "application_id" ≠ EmptyString → owned s log "applications" (body_text body "application_id"))).
    + destruct (is_empty (body_text body "application_id")) eqn:Ha.
      * apply reading_ret. intros log. by apply is_empty_true in Ha.
      * eapply reading_weaken; [apply reading_resource_scope|]. auto.
    + intros [] log more Ho Hne. by apply owned_grows, Ho.
    + intros []. apply reading_ret. intros log Ho. split; [done|by rewrite Ht|intros _ ->; done|auto|]. destruct (scoped_path _); auto.
Qed.

(** * Invocations *)

(** The scope of what is sent for a project connection. *)
Record scoped (s : Scope) (op : Operation) (args : gmap string string) (query : gmap string string) (body : any)
    (log : list request) : Prop := {
  sc_body : every_entry (scope_entry s) body;
  sc_references : references_owned s op.(op_Policy).(po_References) body log;
  sc_project : ∀ v, query !! "project" = Some v → v = s.(sc_Project);
  sc_environment : ∀ v, query !! "environment" = Some v → v = s.(sc_Environment);
  sc_declared : ∀ key wanted, (key, wanted) ∈ [("project", s.(sc_Project)); ("environment", s.(sc_Environment))] →
    accepts op "query" key = true → query !! key = Some wanted;
  sc_application : query_get query "application_id" ≠ EmptyString → owned s log "applications" (query_get query "application_id");
  sc_preflight : ∃ query0, preflighted s op args body query0 query log;
}.

Lemma scoped_grows s op args query body : grows (scoped s op args query body).
Proof.
  intros log more [B R P E D A (q0 & F)]. split; try done.
  - by apply references_owned_grows.
  - intros Hne. by apply owned_grows, A.
  - exists q0. by apply preflighted_grows.
Qed.

(** The part of [invoke] for a project connection. *)
Definition scope_request (s : Scope) (op : Operation) (args query : gmap string string) (body : any)
    : eff request (gmap string string * any) :=
  _ ← lift (checkScope s body);
  query ← lift (scope_query op s query);
  let body := scope_body op s body in
  _ ← references call s op.(op_Policy).(po_References) body;
  let app := query_get query "application_id" in
  _ ← (if is_empty app then mret tt else resourceScope call s "applications" app);
  query ← preflight call s op args query body;
  mret (query, body).

Lemma set_scope_lookup s query k : k ≠ "project" → k ≠ "environment" → set_scope s query !! k = query !! k.
Proof. intros Hp He. unfold set_scope. by rewrite !lookup_insert_ne by done. Qed.

Lemma reading_scope_request s op args query0 query body : foldM (query_argument op) ∅ query0 = Ok query →
  reading (scope_request s op args query body) (λ x log, x.2 = scope_body op s body ∧ scoped s op args x.1 x.2 log).
Proof.
  intros Hquery. unfold scope_request. eapply reading_bind_pure; [apply reading_lift|]. intros [] Hbody%checkScope_inside.
  eapply reading_bind_pure; [apply reading_lift|]. intros q1 Hq1. cbv zeta.
  apply scope_query_scoped in Hq1 as [Hscope Hother]; [|eapply query_arguments_accepted; [exact Hquery|]; intros k; by rewrite lookup_empty; intros []].
  pose proof (scope_body_every (scope_entry s) op s body ltac:(done) ltac:(done) Hbody) as Hbody'. set (body' := scope_body op s body) in *.
  eapply reading_bind; [apply reading_references|intros []; apply references_owned_grows|]. intros [].
  eapply (reading_bind _ _ _ (λ _ log, query_get q1 "application_id" ≠ EmptyString → owned s log "applications" (query_get q1 "application_id"))).
  { destruct (is_empty (query_get q1 "application_id")) eqn:Ha.
    - apply reading_ret. intros log. by apply is_empty_true in Ha.
    - eapply reading_weaken; [apply reading_resource_scope|]. auto. }
  { intros [] log more Ho Hne. by apply owned_grows, Ho. }
  intros []. eapply reading_bind; [apply reading_preflight|intros; apply preflighted_grows|]. intros q2.
  apply reading_ret. intros log Hpf Happ Hrefs. cbn [fst snd]. split; [done|].
  assert (∀ key wanted, (key, wanted) ∈ [("project", s.(sc_Project)); ("environment", s.(sc_Environment))] →
    ∀ v, q2 !! key = Some v → v = wanted) as Hvals.
  { intros key wanted Hin v. destruct (pf_query _ _ _ _ _ _ _ Hpf) as [->| ->].
    - specialize (Hscope key wanted Hin). destruct (accepts op "query" key); congruence.
    - unfold set_scope. apply elem_of_cons in Hin as [[= -> ->]|[[= -> ->]|[]%not_elem_of_nil]%elem_of_cons].
      + rewrite lookup_insert_ne, lookup_insert_eq by done. congruence.
      + rewrite lookup_insert_eq. congruence. }
  assert (query_get q2 "application_id" = query_get q1 "application_id") as Hq2.
  { unfold query_get. destruct (pf_query _ _ _ _ _ _ _ Hpf) as [->| ->]; [done|]. by rewrite set_scope_lookup by done. }
  split; try done.
  - intros v. apply (Hvals "project"). set_solver.
  - intros v. apply (Hvals "environment"). set_solver.
  - intros key wanted Hin Hacc. specialize (Hscope key wanted Hin). rewrite Hacc in Hscope.
    destruct (pf_query _ _ _ _ _ _ _ Hpf) as [->| ->]; [done|]. unfold set_scope.
    apply elem_of_cons in Hin as [[= -> ->]|[[= -> ->]|[]%not_elem_of_nil]%elem_of_cons]; [by rewrite lookup_insert_ne, lookup_insert_eq by done|by rewrite lookup_insert_eq].
  - by rewrite Hq2.
  - by exists q1.
Qed.

(** What holds of a request when it is sent. *)
Record sent_for (s : Scope) (write installation credentials deploy : bool) (i : Invocation) (op : Operation) (path : string)
    (query : gmap string string) (body : any) (log : list request) : Prop := {
  sf_operation : find_operation i.(in_Operation) = Some op;
  sf_write : op.(op_Mutating) = true → write = true;
  sf_credentials : op.(op_Policy).(po_CredentialRequired) = true → credentials = true;
  sf_deploy : op.(op_Policy).(po_Category) = "deploy" → deploy = true;
  sf_path : regular op → Forall2 (instance i.(in_Path)) (Split op.(op_Path) "/") (Split path "/");
  sf_auto : HasPrefix op.(op_Path) "/builds" = true → op.(op_Mutating) = true →
    every_entry (λ k x, k = "auto_deploy" → x ≠ VBool true) body;
  sf_sensitive : installation = true → credentials = false → every_entry (λ k _, k ∉ op.(op_Policy).(po_SensitiveFields)) body;
  sf_credential : op.(op_Policy).(po_ScopeRequirement) = "project_credential" → ∃ p, got_me log p ∧
    p.(me_Project) = s.(sc_Project) ∧ p.(me_Environment) = s.(sc_Environment) ∧ p.(me_Application) = EmptyString;
  sf_scope : installation = false → op.(op_Available) = true ∧ s.(sc_Project) ≠ EmptyString ∧ s.(sc_Environment) ≠ EmptyString ∧
    ∃ query0, scoped s op i.(in_Path) query0 body log ∧
      query = if (op.(op_Path) =? "/templates")%string then delete "environment" (delete "project" query0) else query0;
}.
End invocation.
