(* ===== verification/OperationsCatalog.v ===== *)
(** The contract as it is looked up: the bounds of a document (schema.go), the operation
    of a path (route_resolve.go, route_policy.go) and the pages of the discovery
    (catalog.go), each against what it is meant to be. *)
From S2P Require Import Prelude GoStd Paths Regex Escapes JsonValue Operations.
#[global] Open Scope Z_scope.

(** * The bounds of a document *)

(** The number of values of a document, itself included, and its levels. *)
Fixpoint nodes (v : any) : Z :=
  match v with
  | VObj m => 1 + foldr (λ e n, nodes e.2 + n) 0 m
  | VArr l => 1 + foldr (λ x n, nodes x + n) 0 l
  | _ => 1
  end.

Fixpoint levels (v : any) : Z :=
  match v with
  | VObj m => foldr (λ e n, Z.max (1 + levels e.2) n) 0 m
  | VArr l => foldr (λ x n, Z.max (1 + levels x) n) 0 l
  | _ => 0
  end.

(** The bounds on a value itself. *)
Definition own_bounds (v : any) : Prop :=
  match v with
  | VObj m => Forall (λ e, len e.1 ≤ MaxBytes) m
  | VArr l => lenl l ≤ 1000
  | VStr s => len s ≤ MaxBytes
  | VNum literal => number_in_bounds literal = Ok tt
  | VBool _ | VNull => True
  end.

Definition in_bounds (v : any) : Prop := ∀ x, within x v → own_bounds x.

Lemma levels_nonneg v : 0 ≤ levels v.
Proof. induction v as [| | | |l IH|m IH] using any_nested_ind; cbn [levels]; try lia; induction IH; cbn [foldr]; lia. Qed.

Lemma nodes_positive v : 1 ≤ nodes v.
Proof.
  induction v as [| | | |l IH|m IH] using any_nested_ind; cbn [nodes]; try lia; induction IH; cbn [foldr]; lia.
Qed.

Lemma in_bounds_scalar v : match v with VArr _ | VObj _ => False | _ => True end → in_bounds v ↔ own_bounds v.
Proof. unfold in_bounds. intros Hs. split; [intros Hw; apply Hw, within_refl|]. intros Hv x Hw. by destruct Hw. Qed.

Lemma in_bounds_arr l : in_bounds (VArr l) ↔ lenl l ≤ 1000 ∧ Forall in_bounds l.
Proof.
  unfold in_bounds. rewrite Forall_forall. split.
  - intros Hw. split; [exact (Hw (VArr l) (within_refl _))|]. intros y Hy x Hx. by apply Hw, (within_arr _ l y).
  - intros [Hl Hall] x Hx. inversion Hx as [|? y Hy Hxy|]; subst; [done|by apply (Hall y)].
Qed.

Lemma in_bounds_obj m : in_bounds (VObj m) ↔ Forall (λ e, len e.1 ≤ MaxBytes ∧ in_bounds e.2) m.
Proof.
  rewrite Forall_and. unfold in_bounds. rewrite (Forall_forall (λ e : string * any, ∀ x, _)). split.
  - intros Hw. split; [exact (Hw (VObj m) (within_refl _))|]. intros [k y] Hy x Hx. by apply Hw, (within_obj _ m k y).
  - intros [Hl Hall] x Hx. inversion Hx as [| |? k y Hy Hxy]; subst; [done|by apply (Hall (k, y))].
Qed.

(** A loop over the children, where the check of each is exact. *)
Lemma bound_children {A} (child : Z → A → result Z) (level count : A → Z) (P : A → Prop) depth l : depth ≤ 32 →
  Forall (λ x, 0 ≤ level x ∧ 1 ≤ count x ∧
    ∀ r r', child r x = Ok r' ↔ depth + (1 + level x) ≤ 32 ∧ P x ∧ count x ≤ r ∧ r' = r - count x) l →
  ∀ r r', 0 ≤ r → foldM child r l = Ok r' ↔
    depth + foldr (λ x n, Z.max (1 + level x) n) 0 l ≤ 32 ∧ Forall P l ∧ foldr (λ x n, count x + n) 0 l ≤ r ∧
    r' = r - foldr (λ x n, count x + n) 0 l.
Proof.
  intros Hd Hl. induction Hl as [|x l (Hlev & Hcount & Hx) Hl IH]; intros r r' Hr; cbn [foldM foldr].
  - split; [intros [= <-]; split_and!; (done || lia)|intros (_ & _ & _ & ->); f_equal; lia].
  - rewrite bind_Ok, Forall_cons.
    assert (0 ≤ foldr (λ x n, count x + n) 0 l) as Hpos by (clear -Hl; induction Hl as [|y l (_ & Hy & _) _ IH]; cbn [foldr]; lia).
    split.
    + intros (r1 & (H1 & H2 & H3 & ->)%Hx & (H4 & H5 & H6 & ->)%IH); [|lia]. split_and!; (done || lia).
    + intros (H1 & [H2 H3] & H4 & ->). exists (r - count x). rewrite Hx, IH by lia. split_and!; (done || lia).
Qed.

(** The check of a document is exactly its bounds: at most 32 levels, each value within
    its own bounds, and no more values than remain, from which it takes its own. *)
Lemma boundSchemaInstance_exact v : ∀ depth remaining r',
  boundSchemaInstance v depth remaining = Ok r' ↔
  depth + levels v ≤ 32 ∧ in_bounds v ∧ nodes v ≤ remaining ∧ r' = remaining - nodes v.
Proof.
  induction v as [| | | |l IH|m IH] using any_nested_ind; intros depth remaining r'; pose proof levels_nonneg as Hlev; pose proof nodes_positive as Hnodes.
  all: match goal with |- context [boundSchemaInstance ?v] => specialize (Hlev v); specialize (Hnodes v) end.
  all: cbn [boundSchemaInstance]; cbv zeta; destruct ((depth >? 32) || (remaining - 1 <? 0)) eqn:Hc;
    [split; [done|intros; apply orb_true_iff in Hc; lia]|apply orb_false_iff in Hc].
  1-4: rewrite in_bounds_scalar by done; cbn [levels nodes own_bounds].
  - split; [intros [= <-]; split_and!; (done || lia)|intros (_ & _ & _ & ->); done].
  - split; [intros [= <-]; split_and!; (done || lia)|intros (_ & _ & _ & ->); done].
  - rewrite bind_Ok. split; [intros ([] & Hn & [= <-]); split_and!; (done || lia)|intros (_ & Hn & _ & ->); by exists tt].
  - rewrite bind_Ok. split.
    + intros ([] & Hn%fail_when_Ok & [= <-]). split_and!; lia.
    + intros (_ & Hn & _ & ->). exists tt. split; [apply fail_when_Ok; lia|done].
  - cbn [levels nodes]. rewrite in_bounds_arr, bind_Ok.
    assert (Forall (λ x, 0 ≤ levels x ∧ 1 ≤ nodes x ∧ ∀ r r', boundSchemaInstance x (depth + 1) r = Ok r' ↔
      depth + (1 + levels x) ≤ 32 ∧ in_bounds x ∧ nodes x ≤ r ∧ r' = r - nodes x) l) as Hl.
    { eapply Forall_impl; [exact IH|]. intros x Hx. cbn beta in Hx. split_and!; [apply levels_nonneg|apply nodes_positive|]. intros r r1. by rewrite Hx, Z.add_assoc. }
    apply (bound_children (λ r x, boundSchemaInstance x (depth + 1) r) levels nodes in_bounds depth) with (r := remaining - 1) (r' := r') in Hl; [|lia..].
    split.
    + intros ([] & Hn%fail_when_Ok & (H1 & H2 & H3 & ->)%Hl). split_and!; (done || lia).
    + intros (H1 & [H2 H3] & H4 & ->). exists tt. split; [apply fail_when_Ok; lia|]. apply Hl. split_and!; (done || lia).
  - cbn [levels nodes]. rewrite in_bounds_obj.
    rewrite (bound_children _ (λ e, levels e.2) (λ e, nodes e.2) (λ e, len e.1 ≤ MaxBytes ∧ in_bounds e.2) depth m); [|lia| |lia].
    + split; intros (H1 & H2 & H3 & ->); split_and!; (done || lia).
    + eapply Forall_impl; [exact IH|]. intros [k x] Hx. cbn [fst snd] in *. split_and!; [apply levels_nonneg|apply nodes_positive|]. intros r r1.
      rewrite bind_Ok. split.
      * intros ([] & Hn%fail_when_Ok & (H1 & H2 & H3 & ->)%Hx). split_and!; (done || lia).
      * intros (H1 & [Hn H2] & H3 & ->). exists tt. split; [apply fail_when_Ok; lia|]. apply Hx. split_and!; (done || lia).
Qed.

(** * The operation of a path *)

Section routes.
Context `{Contract}.

(** A path fits an operation: as many parts, each the same or a plain segment for a name. *)
Definition fits (method : string) (actual : list string) (op : Operation) : Prop :=
  op.(op_Method) = method ∧ length (route_parts op.(op_Path)) = length actual ∧ route_fits (route_parts op.(op_Path)) actual = true.
#[export] Instance fits_dec method actual op : Decision (fits method actual op) := decide (_ ∧ _ ∧ _).

Definition literals (op : Operation) : Z := lenl (List.filter (λ part, negb (parameter_part part)) (route_parts op.(op_Path))).

Lemma literal_parts_spec expected : ∀ actual n, length expected = length actual →
  literal_parts expected actual n =
    if route_fits expected actual then n + lenl (List.filter (λ part, negb (parameter_part part)) expected) else -1.
Proof.
  induction expected as [|part expected IH]; intros [|a actual] n Hlen; try discriminate; [unfold lenl; cbn; lia|].
  injection Hlen as Hlen. cbn [literal_parts route_fits List.filter]. destruct (parameter_part part); cbn [negb].
  - destruct (plain_segment a); [by apply IH|done].
  - destruct (part =? a)%string; [|done]. cbn [andb]. rewrite IH by done. destruct (route_fits expected actual); [|done].
    unfold lenl. cbn [length]. lia.
Qed.

Lemma better_route_spec method actual best o op : -1 ≤ best →
  better_route method actual (best, o) op =
    if decide (fits method actual op ∧ best < literals op) then (literals op, Some op) else (best, o).
Proof.
  intros Hb. unfold better_route. cbv zeta. cbn [fst]. case_decide as Hd; unfold fits, literals in *.
  - destruct Hd as [(Hm & Hlen & Hf) Hlt]. rewrite (proj2 (String.eqb_eq _ _) Hm). cbn [negb]. rewrite literal_parts_spec, Hf, Z.add_0_l by done.
    unfold lenl at 1 2. rewrite Hlen, Z.eqb_refl. cbn [negb]. by replace (_ >? best) with true by lia.
  - destruct (String.eqb_spec (op_Method op) method) as [Hm|Hm]; cbn [negb]; [|done].
    destruct (lenl (route_parts (op_Path op)) =? lenl actual) eqn:Hl; cbn [negb]; [|done].
    assert (length (route_parts (op_Path op)) = length actual) as Hlen by (unfold lenl in Hl; lia).
    rewrite literal_parts_spec by done. destruct (route_fits _ _) eqn:Hf; [|by replace (-1 >? best) with false by lia].
    rewrite Z.add_0_l. destruct (_ >? best) eqn:Hc; [|done]. destruct Hd. split_and!; (done || lia).
Qed.

(** The first operation with the most literal parts. *)
Definition chosen (method : string) (actual : list string) (op : Operation) (l : list Operation) : Prop :=
  ∃ pre post, l = pre ++ op :: post ∧ fits method actual op ∧
    (∀ o, o ∈ pre → fits method actual o → literals o < literals op) ∧
    (∀ o, o ∈ post → fits method actual o → literals o ≤ literals op).

Lemma best_route method actual l : ∀ best o, -1 ≤ best →
  let r := fold_left (better_route method actual) l (best, o) in
  r = (best, o) ∧ (∀ x, x ∈ l → fits method actual x → literals x ≤ best) ∨
  ∃ op, r = (literals op, Some op) ∧ best < literals op ∧ chosen method actual op l.
Proof.
  induction l as [|x l IH]; intros best o Hb; cbn [fold_left]; [left; split; [done|set_solver]|].
  rewrite better_route_spec by done. case_decide as Hd.
  - destruct Hd as [Hf Hlt]. right. destruct (IH (literals x) (Some x)) as [[-> Hall]|(op & -> & Hlt' & pre & post & -> & Hop & Hpre & Hpost)]; [lia|..].
    + exists x. split_and!; [done..|]. exists [], l. split_and!; (done || set_solver).
    + exists op. split_and!; [done|lia|]. exists (x :: pre), post. split_and!; try done. intros y [->|Hy]%elem_of_cons Hfy; [lia|by apply Hpre].
  - destruct (IH best o Hb) as [[-> Hall]|(op & -> & Hlt' & pre & post & -> & Hop & Hpre & Hpost)].
    + left. split; [done|]. intros y [->|Hy]%elem_of_cons Hfy; [|by apply Hall]. destruct (Z_lt_le_dec best (literals x)); [tauto|done].
    + right. exists op. split_and!; [done..|]. exists (x :: pre), post. split_and!; try done. intros y [->|Hy]%elem_of_cons Hfy; [|by apply Hpre].
      destruct (Z_lt_le_dec best (literals x)); [tauto|lia].
Qed.

Lemma literals_nonneg op : 0 ≤ literals op.
Proof. unfold literals, lenl. lia. Qed.

(** The bytes of a path with a leading slash, part by part. *)
Lemma parts_length s : foldr (λ part n, len part + 1 + n) 0 (Split s "/") = len s + 1.
Proof.
  rewrite <-(Join_Split s "/") at 2. pose proof (Split_not_nil s "/") as Hne. destruct (Split s "/") as [|x l]; [done|clear Hne s].
  revert x. induction l as [|y l IH]; intros x; [cbn; lia|]. cbn [foldr] in *. specialize (IH y). rewrite IH.
  change (Join (x :: y :: l) "/") with (x +:+ "/" +:+ Join (y :: l) "/"). unfold len. rewrite !string_length_app. cbn [String.length]. lia.
Qed.

(** A path within the bounds of a route. *)
Definition routable (path : string) : Prop :=
  HasPrefix path "/" = true ∧ ContainsAny path ("\?#" +:+ NUL) = false ∧ len path ≤ 4096 ∧ lenl (route_parts path) ≤ 64.

Lemma routable_length path : HasPrefix path "/" = true → foldr (λ part n, len part + 1 + n) 0 (route_parts path) = len path.
Proof.
  intros Hp. unfold route_parts. rewrite parts_length. unfold TrimPrefix. rewrite Hp. apply HasPrefix_spec in Hp as [t ->]. rewrite drop_string_app. unfold len. rewrite string_length_app. cbn [String.length]. lia.
Qed.

Lemma ContainsAny_cons c chars s : ContainsAny s (String c chars) = has_byte c s || ContainsAny s chars.
Proof.
  induction s as [|d s IH]; [done|]. cbn [ContainsAny has_byte]. rewrite IH, (Ascii.eqb_sym c d).
  destruct (Ascii.eqb d c), (has_byte d chars), (has_byte c s), (ContainsAny s chars); done.
Qed.

Lemma route_fits_credentials method path op : op ∈ catalog → fits method (route_parts path) op → op.(op_Policy).(po_CredentialRequired) = true →
  routable path → no_sep "%" path → ConcreteRouteRequiresCredentials method path = true.
Proof.
  intros Hin (Hm & Hlen & Hf) Hc (Hp & Hany & Hl & _) Hpct. unfold ConcreteRouteRequiresCredentials.
  replace (len path >? 4096) with false by lia. rewrite Hp. cbn [negb orb].
  assert (ContainsAny path ("%\?#" +:+ NUL) = false) as ->.
  { change ("%\?#" +:+ NUL) with (String "%" ("\?#" +:+ NUL)). by rewrite ContainsAny_cons, Hany, Hpct. }
  apply existsb_exists. exists op. split; [by apply list_elem_of_In|]. rewrite (proj2 (String.eqb_eq _ _) Hm), Hc. cbn [andb].
  cbv zeta. rewrite Hf, andb_true_r. unfold lenl. apply Z.eqb_eq. congruence.
Qed.

(** The operation of a path is the first one of the contract that fits it with the most
    literal parts; there is none exactly when the path is out of bounds or fits nothing.
    Where it requires credentials and the path has no escape, the check of a concrete
    route for credentials says so. *)
Theorem ResolveRoute_exact method path :
  match ResolveRoute method path with
  | Some (id, category, op) =>
      routable path ∧ chosen method (route_parts path) op catalog ∧ id = op.(op_ID) ∧
      category = (if decide (op.(op_Policy).(po_Category) = "unclassified") then EmptyString else op.(op_Policy).(po_Category)) ∧
      (op.(op_Policy).(po_CredentialRequired) = true → no_sep "%" path → ConcreteRouteRequiresCredentials method path = true)
  | None => routable path → ∀ op, op ∈ catalog → ¬ fits method (route_parts path) op
  end.
Proof.
  unfold ResolveRoute. destruct (negb (HasPrefix path "/") || ContainsAny path ("\?#" +:+ NUL)) eqn:Hc.
  { intros (Hp & Ha & _). rewrite Hp, Ha in Hc. done. }
  apply orb_false_iff in Hc as [Hp%negb_false_iff Ha]. unfold ResolveSegments. cbv zeta. rewrite routable_length by done.
  destruct ((len path >? 4096) || (lenl (route_parts path) >? 64)) eqn:Hb.
  { intros (_ & _ & Hl & Hn). apply orb_true_iff in Hb. lia. }
  assert (routable path) as Hr by (apply orb_false_iff in Hb; unfold routable; split_and!; (done || lia)).
  destruct (best_route method (route_parts path) catalog (-1) None) as [[-> Hall]|(op & -> & _ & Hop)]; [lia|..]; cbn [snd].
  - intros _ op Hin Hf. specialize (Hall op Hin Hf). pose proof (literals_nonneg op). lia.
  - split_and!; [done|done|done| |].
    + case_decide as Hd; [by rewrite Hd|]. destruct (String.eqb_spec (po_Category (op_Policy op)) "unclassified"); [done|done].
    + intros Hcr Hpct. destruct Hop as (pre & post & Hcat & Hf & _). apply (route_fits_credentials _ _ op); [rewrite Hcat; set_solver|done..].
Qed.
End routes.

(** * The pages of the discovery *)

Section discovery.
Context `{Contract}.

(** The operations of a family after a cursor. *)
Definition listed (cursor family : string) (o : Operation) : bool := negb (String.leb o.(op_ID) cursor) && in_family family o.
Definition listing (cursor family : string) (ops : list Operation) : list Operation := List.filter (listed cursor family) ops.

Lemma discovery_page_spec cursor family limit ops : ∀ page, lenl page ≤ limit →
  discovery_page cursor family limit ops page =
    (page ++ (without_body <$> take (Z.to_nat (limit - lenl page)) (listing cursor family ops)),
     limit - lenl page <? lenl (listing cursor family ops)).
Proof.
  induction ops as [|o ops IH]; intros page Hp; cbn [discovery_page listing List.filter].
  - rewrite take_nil, app_nil_r. f_equal. symmetry. apply Z.ltb_ge. unfold lenl in *. cbn [length]. lia.
  - fold (listing cursor family ops). unfold listed at 1 2. destruct (String.leb (op_ID o) cursor); cbn [negb andb]; [by apply IH|].
    destruct (in_family family o); cbn [negb]; [|by apply IH]. destruct (lenl page =? limit) eqn:Hl.
    + replace (limit - lenl page) with 0 by lia. by rewrite app_nil_r.
    + assert (lenl (page ++ [without_body o]) = lenl page + 1) as Hlen by (unfold lenl; rewrite length_app; cbn [length]; lia).
      rewrite IH by lia. rewrite Hlen. replace (Z.to_nat (limit - lenl page)) with (S (Z.to_nat (limit - (lenl page + 1)))) by lia.
      rewrite <-app_assoc. f_equal. apply eq_true_iff_eq. rewrite !Z.ltb_lt. unfold lenl. cbn [length]. lia.
Qed.

(** The contract is sorted by distinct names. *)
Definition name_before (a b : Operation) : Prop := String.leb b.(op_ID) a.(op_ID) = false.
Definition sorted_catalog (ops : list Operation) : Prop := StronglySorted name_before ops.

Lemma leb_refl s : String.leb s s = true.
Proof. by destruct (String.leb_total s s). Qed.

Lemma leb_false_trans a b c : String.leb b a = false → String.leb c b = false → String.leb c a = false.
Proof.
  intros H1 H2. destruct (String.leb c a) eqn:H3; [|done]. destruct (String.leb_total b c) as [Hbc|Hbc]; [|congruence].
  assert (str_le b a) by (transitivity c; done). unfold str_le in *. congruence.
Qed.

Lemma listing_sorted cursor family ops : sorted_catalog ops → sorted_catalog (listing cursor family ops).
Proof.
  unfold sorted_catalog, listing. induction 1 as [|o ops Hs IH Ho]; cbn [List.filter]; [constructor|].
  destruct (listed cursor family o); [|done]. constructor; [done|]. rewrite Forall_forall in *. intros x Hx. apply Ho.
  apply list_elem_of_In, filter_In in Hx as [Hx _]. by apply list_elem_of_In.
Qed.

Lemma filter_all {A} (f : A → bool) l b : Forall (λ x, f x = b) l → List.filter f l = if b then l else [].
Proof. induction 1 as [|x l Hx _ IH]; cbn [List.filter]; [by destruct b|]. rewrite Hx, IH. by destruct b. Qed.

Lemma filter_listing cursor family ops o : String.leb (op_ID o) cursor = false →
  listing o.(op_ID) family ops = List.filter (λ x, negb (String.leb x.(op_ID) o.(op_ID))) (listing cursor family ops).
Proof.
  intros Ho. unfold listing. induction ops as [|x ops IH]; [done|]. cbn [List.filter].
  assert (listed (op_ID o) family x = listed cursor family x && negb (String.leb (op_ID x) (op_ID o))) as ->.
  { unfold listed. destruct (in_family family x); rewrite ?andb_false_r, ?andb_true_r; [|done].
    destruct (String.leb (op_ID x) (op_ID o)) eqn:Hx; cbn [negb]; [by rewrite andb_false_r|].
    by rewrite (leb_false_trans cursor (op_ID o) (op_ID x)). }
  destruct (listed cursor family x); cbn [andb]; [|done]. cbn [List.filter]. by destruct (negb _); rewrite IH.
Qed.

Lemma StronglySorted_around {A} (R : A → A → Prop) pre x post : StronglySorted R (pre ++ x :: post) → Forall (λ y, R y x) pre ∧ Forall (R x) post.
Proof.
  induction pre as [|y pre IH]; intros Hs; [by apply StronglySorted_inv in Hs as [_ ?]|]. apply StronglySorted_inv in Hs as [Hs Hy].
  destruct (IH Hs) as [H1 H2]. split; [|done]. constructor; [|done]. rewrite Forall_forall in Hy. apply Hy. set_solver.
Qed.

(** After the last name of a page the listing goes on where the page stopped. *)
Lemma listing_after cursor family ops n o : sorted_catalog ops → last (take n (listing cursor family ops)) = Some o →
  listing o.(op_ID) family ops = drop n (listing cursor family ops).
Proof.
  intros Hs Hlast. apply last_Some in Hlast as [pre Htake]. pose proof (listing_sorted cursor family ops Hs) as Hl.
  pose proof (take_drop n (listing cursor family ops)) as Happ. set (L := listing cursor family ops) in *. rewrite Htake, <-app_assoc in Happ. cbn [app] in Happ.
  assert (String.leb (op_ID o) cursor = false) as Hafter.
  { assert (o ∈ L) as [_ Hin]%list_elem_of_In%filter_In by (rewrite <-Happ; set_solver).
    unfold listed in Hin. by apply andb_true_iff in Hin as [?%negb_true_iff _]. }
  rewrite (filter_listing cursor) by done. fold L. rewrite <-Happ in Hl at 1. apply StronglySorted_around in Hl as [Hpre Hpost].
  rewrite <-Happ at 1. rewrite List.filter_app. cbn [List.filter]. rewrite leb_refl. cbn [negb].
  rewrite (filter_all _ pre false), (filter_all _ (drop n L) true); [done|..].
  - eapply Forall_impl; [exact Hpost|]. unfold name_before. by intros x ->.
  - eapply Forall_impl; [exact Hpre|]. unfold name_before. intros x Hx. destruct (String.leb_total (op_ID x) (op_ID o)) as [->|?]; [done|congruence].
Qed.

(** A page of the discovery is the start of the listing after its cursor, as long as the
    limit, and the next cursor is given exactly when more is listed: from it the listing
    goes on where the page stopped. So the pages that follow each other from the empty
    cursor show every operation of the family, in the order of the contract, each once. *)
Theorem Discovery_pages cursor family limit d : sorted_catalog catalog → Discovery cursor family EmptyString limit = Ok d →
  ∃ n page next, 1 ≤ Z.of_nat n ≤ 100 ∧ (limit ≠ 0 → Z.of_nat n = limit) ∧ d.(di_answer) = Page page next ∧
    d.(di_total) = lenl catalog ∧ d.(di_total) = d.(di_available) + d.(di_excluded) ∧
    page = without_body <$> take n (listing cursor family catalog) ∧
    match next with
    | Some c => listing c family catalog = drop n (listing cursor family catalog) ∧ drop n (listing cursor family catalog) ≠ []
    | None => drop n (listing cursor family catalog) = []
    end.
Proof.
  intros Hs. unfold Discovery. cbv zeta. set (limit' := if limit =? 0 then 25 else limit).
  destruct ((limit' <? 1) || (limit' >? 100) || (len cursor >? 256) || (len family >? 128)) eqn:Hb; [done|]. rewrite !orb_false_iff in Hb.
  cbn [is_empty negb String.eqb]. rewrite discovery_page_spec by (unfold lenl; cbn; lia). change (lenl []) with 0. rewrite Z.sub_0_r. cbn [app].
  intros [= <-]. set (L := listing cursor family catalog). exists (Z.to_nat limit'), (without_body <$> take (Z.to_nat limit') L). eexists.
  cbn [di_answer di_total di_available di_excluded]. split_and!; [lia|lia| |reflexivity|done|lia|done|].
  { intros Hl. unfold limit' in *. destruct (limit =? 0) eqn:Hz; lia. }
  replace (limit' <? lenl L) with (bool_decide (drop (Z.to_nat limit') L ≠ [])).
  - case_bool_decide as Hne; [|by destruct (drop (Z.to_nat limit') L); [|destruct Hne]]. rewrite fmap_last. destruct (last (take (Z.to_nat limit') L)) as [o|] eqn:Ho.
    + split; [|done]. by apply (listing_after cursor family catalog _ o).
    + apply last_None in Ho. destruct L; [by rewrite drop_nil in Hne|]. by replace (Z.to_nat limit') with (S (Z.to_nat (limit' - 1))) in Ho by lia.
  - apply eq_true_iff_eq. rewrite bool_decide_eq_true, Z.ltb_lt. unfold lenl. rewrite <-length_zero_iff_nil, length_drop. lia.
Qed.
End discovery.

(** A contract of two operations. *)
Definition example_policy (category : string) : Policy :=
  mkPolicy None category false "" "tenant" "generic" [] [] "" [] "" ∅ "" "".
Definition example_catalog : list Operation :=
  [catalog_entry "getApplication" "" "" "get" "/applications/{id}" [mkParameter "id" "path" true None] None false (example_policy "read");
   catalog_entry "restartApplication" "" "" "post" "/applications/{id}/restart" [mkParameter "id" "path" true None] None false (example_policy "deploy")].

Definition example_contract : Contract := {|
  catalog := example_catalog;
  component_schema _ := None;
  schema_Validate _ _ := Some true;
  json_Decode _ := Err (op_error "invalid JSON");
  marshal_Invocation _ := 100;
  marshal_length _ := Ok 100;
  decode_Me _ := Err (op_error "invalid principal");
  marshal_Selected _ _ := Ok 100;
  ParseFloat_finite _ := false;
|}.

#[local] Existing Instance example_contract.

Lemma Discovery_pages_witness :
  sorted_catalog catalog ∧
  (∃ d page, Discovery EmptyString "applications" EmptyString 1 = Ok d ∧ d.(di_answer) = Page page (Some "getApplication")) ∧
  ∃ d n page next, Discovery "getApplication" "applications" EmptyString 1 = Ok d ∧
    1 ≤ Z.of_nat n ≤ 100 ∧ d.(di_answer) = Page page next ∧ (op_ID <$> page) = ["restartApplication"] ∧ next = None.
Proof.
  assert (sorted_catalog catalog) as Hs by (repeat constructor).
  split; [exact Hs|]. split; [eexists _, _; split; vm_compute; reflexivity|].
  destruct (Discovery "getApplication" "applications" EmptyString 1) as [d|] eqn:Hd; [|vm_compute in Hd; discriminate].
  destruct (Discovery_pages "getApplication" "applications" 1 d Hs Hd) as (n & page & next & Hn & Hl & Ha & _ & _ & _ & _).
  exists d, n, page, next. split; [reflexivity|]. split; [exact Hn|]. split; [exact Ha|]. vm_compute in Hd. injection Hd as <-. cbn in Ha. injection Ha as <- <-.
  split; reflexivity.
Defined.
