(* ===== verification/OperationsSafety.v ===== *)
(** A connection of an agent is confined: nothing but reads until every check passed, then
    one request, which is the operation that was named, within the scope, the opt-ins and
    the grants of the credential. *)
From S2P Require Import Prelude GoStd Paths Regex Escapes Traced JsonValue Operations OperationsSpec OperationsCatalog.
#[global] Open Scope Z_scope.

Section safety.
Context `{Contract} `{RangeOrder} (call : list request → request → result any).

(** The request an invocation ends in. *)
Definition final_request (op : Operation) (i : Invocation) (path : string) (query : gmap string string) (body : any) : request :=
  mkRequest op.(op_Method) (if bool_decide (query = ∅) then path else path +:+ "?" +:+ encode_query query) body i.(in_IdempotencyKey).

(** Reads, then the request; what held before it was sent. *)
Definition sent (s : Scope) (write installation credentials deploy : bool) (i : Invocation) (F : list request → Prop)
    (log : list request) : Prop :=
  ∃ before op path query body, log = before ++ [final_request op i path query body] ∧ reads before ∧ F before ∧
    sent_for call s write installation credentials deploy i op path query body before.

(** A computation whose last step may send the request. *)
Section sending.
Context (Fin : list request → Prop).

Definition sending {A} (F : list request → Prop) (m : eff request A) : Prop :=
  triple (λ log, reads log ∧ F log) m (λ _, Fin) (λ _ log, reads log ∨ Fin log).

Lemma sending_read {A B} (m : eff request A) (f : A → eff request B) R F : reading m R → grows F →
  (∀ a, sending (λ log, F log ∧ R a log) (f a)) → sending F (eff_bind A B f m).
Proof.
  intros Hm HF Hf. eapply triple_bind; [eapply triple_post; [by apply Hm|intros a log Hl; exact Hl|]|].
  - intros e log Hr. by left.
  - intros a. eapply triple_pre; [|apply (Hf a)]. cbn beta. tauto.
Qed.

Lemma sending_pure {A B} (m : eff request A) (f : A → eff request B) (C : A → Prop) F : reading m (λ a _, C a) → grows F →
  (∀ a, C a → sending F (f a)) → sending F (eff_bind A B f m).
Proof.
  intros Hm HF Hf. eapply sending_read; [exact Hm|done|]. intros a log (Hr & Hl & Hc). by apply Hf.
Qed.

(** After the request only its answer is looked at. *)
Lemma sending_after {A} method path body key (f : any → eff request A) F :
  (∀ log, reads log → F log → Fin (log ++ [mkRequest method path body key])) →
  (∀ a log, (f a log).2 = log) → sending F (eff_bind any A f (send call method path body key)).
Proof.
  intros HF Hf log [Hr Hl]. specialize (HF log Hr Hl). unfold eff_bind, send. cbv zeta.
  destruct (call log _) as [v|e]; [|by right]. specialize (Hf v (log ++ [mkRequest method path body key])).
  destruct (f v _) as [[a|e] log']; cbn [snd] in Hf; subst; [done|by right].
Qed.
End sending.

Lemma reading_when (b : bool) (m : eff request unit) (R : list request → Prop) :
  (b = true → reading m (λ _, R)) → reading (if b then m else mret tt) (λ _ log, b = true → R log).
Proof. intros Hm. destruct b; [|by apply reading_ret]. apply (reading_weaken _ (λ _, R)); [by apply Hm|auto]. Qed.

Definition exact_credential (s : Scope) (p : Me) : Prop :=
  p.(me_Project) = s.(sc_Project) ∧ p.(me_Environment) = s.(sc_Environment) ∧ p.(me_Application) = EmptyString.

Lemma reading_project_credential s : reading (requireProjectCredential call s) (λ _ log, ∃ p, got_me call log p ∧ exact_credential s p).
Proof.
  eapply reading_bind; [apply reading_get_me|intros; apply got_me_grows|]. intros p. eapply reading_weaken; [apply reading_guard|].
  intros [] log [[[Hp%String.eqb_eq He%String.eqb_eq]%andb_true_iff Ha%is_empty_true]%andb_true_iff _]%andb_true_iff Hg. by exists p.
Qed.

Lemma reading_credential_grant s : reading (requireProjectCredentialGrant call s)
  (λ _ log, ∃ p, got_me call log p ∧ exact_credential s p ∧ "agent:credentials" ∈ p.(me_Permissions)).
Proof.
  eapply reading_bind; [apply reading_get_me|intros; apply got_me_grows|]. intros p. eapply reading_weaken; [apply reading_guard|].
  intros [] log [[[Hc%one_of_spec Hp%String.eqb_eq]%andb_true_iff He%String.eqb_eq]%andb_true_iff Ha%is_empty_true]%andb_true_iff Hg. by exists p.
Qed.

(** The credential of an installation connection. *)
Record installation_credential (credentials owner : bool) (p : Me) : Prop := {
  ic_unscoped : p.(me_Project) = EmptyString ∧ p.(me_Environment) = EmptyString ∧ p.(me_Application) = EmptyString;
  ic_grants : "admin" ∈ p.(me_Permissions) ∧ "agent:admin" ∈ p.(me_Permissions);
  ic_type : p.(me_CredentialType) ∈ ["machine"; "cli"];
  ic_owner : owner = true → p.(me_Owner) = true;
  ic_credentials : credentials = true → "agent:credentials" ∈ p.(me_Permissions);
}.

Lemma reading_installation credentials owner : reading (requireInstallation call credentials owner)
  (λ _ log, ∃ p, got_me call log p ∧ installation_credential credentials owner p).
Proof.
  eapply reading_bind; [apply reading_get_me|intros; apply got_me_grows|]. intros p.
  eapply reading_bind_pure; [apply reading_guard|]. intros [] H1. eapply reading_bind_pure; [apply reading_guard|]. intros [] H2.
  eapply reading_weaken; [apply reading_guard|]. intros [] log H3 Hg. exists p. split; [done|].
  rewrite !andb_true_iff, !is_empty_true in H1. unfold machine_or_cli in H1. rewrite !one_of_spec in H1.
  split; [tauto|tauto|tauto| |].
  - intros ->. by destruct (me_Owner p).
  - intros ->. apply one_of_spec. by destruct (one_of "agent:credentials" (me_Permissions p)).
Qed.

Lemma negb_or_true a b : negb a || b = true ↔ (a = true → b = true).
Proof. destruct a, b; naive_solver. Qed.

Section invoke.
Context (s : Scope) (write installation credentials deploy : bool) (i : Invocation).

(** The last part of [invoke]: the scope, then the request. *)
Definition send_scoped (op : Operation) (path : string) (query : gmap string string) (body : any) : eff request any :=
  '(query, body) ← (if installation then mret (query, body) else scope_request call s op i.(in_Path) query body);
  let query := if (op.(op_Path) =? "/templates")%string then delete "environment" (delete "project" query) else query in
  let path := if bool_decide (query = ∅) then path else path +:+ "?" +:+ encode_query query in
  out ← send call op.(op_Method) path body i.(in_IdempotencyKey);
  size ← lift (marshal_length out);
  _ ← guard_or (op_error "response exceeds 1 MiB") (size <=? MaxBytes);
  mret out.

Lemma after_answer out (log : list request) :
  ((size ← lift (marshal_length out); _ ← guard_or (op_error "response exceeds 1 MiB") (size <=? MaxBytes); mret out : eff request any) log).2 = log.
Proof.
  unfold mbind, eff_bind, lift, guard_or. destruct (marshal_length out) as [size|e]; [|done]. by destruct (size <=? MaxBytes).
Qed.

(** The query that is sent, when the one of the checks is known. *)
Definition without_templates (op : Operation) (query : gmap string string) : gmap string string :=
  if (op.(op_Path) =? "/templates")%string then delete "environment" (delete "project" query) else query.

Lemma sending_scoped op path query0 query body F F' : grows F' → (∀ log, F' log → F log) → foldM (query_argument op) ∅ query0 = Ok query →
  (∀ log query' body', F' log → (installation = true → query' = query ∧ body' = body) →
     (installation = false → body' = scope_body op s body ∧ scoped call s op i.(in_Path) query' body' log) →
     sent_for call s write installation credentials deploy i op path (without_templates op query') body' log) →
  sending (sent s write installation credentials deploy i F) F' (send_scoped op path query body).
Proof.
  intros HF HFF Hq Hsent.
  assert (∀ query' body', sending (sent s write installation credentials deploy i F)
    (λ log, F' log ∧ ((installation = true → query' = query ∧ body' = body) ∧
      (installation = false → body' = scope_body op s body ∧ scoped call s op i.(in_Path) query' body' log)))
    (let query := without_templates op query' in
     let path := if bool_decide (query = ∅) then path else path +:+ "?" +:+ encode_query query in
     out ← send call op.(op_Method) path body' i.(in_IdempotencyKey);
     size ← lift (marshal_length out);
     _ ← guard_or (op_error "response exceeds 1 MiB") (size <=? MaxBytes);
     mret out)) as Hlast.
  { intros query' body'. cbv zeta. apply sending_after; [|intros; apply after_answer].
    intros log Hr (Hf & H1 & H2). exists log, op, path, (without_templates op query'), body'. split_and!; try done; [by apply HFF|by apply Hsent]. }
  unfold send_scoped. destruct installation eqn:Hi.
  - eapply triple_pre; [|apply (Hlast query body)]. intros log (Hr & Hf). repeat split; done.
  - eapply sending_read; [by apply (reading_scope_request call s op i.(in_Path) query0)|done|]. intros [query' body'].
    eapply triple_pre; [|apply (Hlast query' body')]. cbn [fst snd]. intros log (Hr & Hf & Hb & Hs). by split_and!.
Qed.

Lemma sending_invoke F : grows F → sending (sent s write installation credentials deploy i F) F
  (invoke call s write i installation credentials deploy).
Proof.
  intros HF. unfold invoke.
  eapply sending_pure; [apply reading_guard|done|]. intros [] _.
  eapply sending_pure; [apply reading_guard|done|]. intros [] Hscope.
  eapply sending_pure; [apply reading_some|done|]. intros op Hop.
  eapply sending_pure; [apply reading_guard|done|]. intros [] Hcred.
  eapply sending_pure; [apply reading_guard|done|]. intros [] Hdeploy.
  eapply sending_pure; [apply reading_guard|done|]. intros [] Havail.
  eapply sending_read; [apply reading_when; intros _; apply reading_project_credential|done|]. intros []. cbv beta.
  set (F' := λ log, F log ∧ _). assert (grows F') as HF'.
  { intros log more [Hl Hc]. split; [by apply HF|]. intros Hr. destruct (Hc Hr) as (p & Hg & He). exists p. split; [by apply got_me_grows|done]. }
  eapply sending_pure; [apply reading_guard|done|]. intros [] Hwrite.
  eapply sending_pure; [apply reading_lift|done|]. intros [] _.
  eapply sending_pure; [apply reading_lift|done|]. intros path Hpath.
  eapply sending_pure; [apply reading_guard|done|]. intros [] Hbrace.
  eapply sending_pure; [apply reading_lift|done|]. intros query Hquery.
  eapply sending_pure; [apply reading_lift|done|]. intros [] _.
  eapply sending_pure; [apply reading_lift|done|]. intros body _.
  eapply sending_pure; [apply reading_lift|done|]. intros [] Hauto.
  eapply sending_pure; [apply reading_guard|done|]. intros [] Hsens.
  apply (sending_scoped op path (range i.(in_Query)) query body F F'); [done|by intros log []|done|].
  intros log query' body' [Hf Hme] Hinst Hproj. rewrite negb_or_true in Hcred, Hdeploy, Hwrite. split; try done.
  - intros Hd. apply Hdeploy. by apply String.eqb_eq.
  - intros Hreg. apply (path_arguments_instance op); [done|done|by apply negb_true_iff].
  - intros Hb Hm. rewrite Hb, Hm in Hauto. cbn [andb] in Hauto. apply rejectAutoDeploy_Ok in Hauto.
    destruct installation; [destruct Hinst as [_ ->]; done|]. destruct Hproj as [-> _]; [done|]. by apply scope_body_every.
  - intros -> ->. cbn [andb negb] in Hsens. destruct Hinst as [_ ->]; [done|]. apply hasSensitive_false. by apply negb_true_iff.
  - intros Hr. destruct Hme as (p & Hg & Hp & He & Ha); [by apply String.eqb_eq|]. by exists p.
  - intros ->. rewrite orb_false_r in Havail. cbn [orb] in Hscope. rewrite negb_true_iff, orb_false_iff in Hscope.
    destruct Hscope as [Hp He]. split_and!; [done|by intros Hp'%is_empty_true; congruence|by intros Hp'%is_empty_true; congruence|].
    destruct Hproj as [_ Hs]; [done|]. by exists query'.
Qed.
End invoke.

(** What the access of the connection adds: the opt-in of its kind and the grants of its
    credential. *)
Record authorized (s : Scope) (a : Access) (op : Operation) (log : list request) : Prop := {
  au_project : a.(ac_Installation) = false → a.(ac_AllowAdmin) = false ∧
    (op.(op_Policy).(po_CredentialRequired) = true →
     ∃ p, got_me call log p ∧ exact_credential s p ∧ "agent:credentials" ∈ p.(me_Permissions));
  au_installation : a.(ac_Installation) = true → a.(ac_AllowAdmin) = true ∧ s = mkScope EmptyString EmptyString ∧
    op.(op_Policy).(po_Exposure) = "installation" ∧
    ∃ p, got_me call log p ∧
      installation_credential a.(ac_AllowCredentials) (op.(op_Policy).(po_ScopeRequirement) =? "installation_owner")%string p;
}.

Lemma find_operation_spec id op : find_operation id = Some op → op ∈ catalog ∧ op.(op_ID) = id.
Proof. intros [Hin Heq]%find_some. split; [by apply list_elem_of_In|by apply String.eqb_eq]. Qed.

(** With distinct names the last operation of a name is the first. *)
Lemma last_operation_find id op : NoDup (op_ID <$> catalog) → find_operation id = Some op → last_operation id = Some op.
Proof.
  unfold find_operation, last_operation. generalize catalog. intros l. induction l as [|o l IH]; [done|]. rewrite fmap_cons.
  intros [Hnot Hnd]%NoDup_cons. cbn [List.find]. destruct (String.eqb_spec (op_ID o) id) as [Heq|Hne].
  - intros [= ->]. rewrite filter_cons_True by done. replace (filter (λ op, op_ID op = id) l) with (@nil Operation); [done|].
    symmetry. destruct (filter _ l) as [|x xs] eqn:Hx; [done|]. assert (x ∈ filter (λ op, op_ID op = id) l) as [Hid Hin]%list_elem_of_filter by (rewrite Hx; by left).
    destruct Hnot. apply list_elem_of_fmap. exists x. split; [congruence|done].
  - intros Hf. rewrite filter_cons_False by done. by apply IH.
Qed.

Lemma sent_weaken s write installation credentials deploy i (F G : list request → Prop) log :
  (∀ l op, find_operation i.(in_Operation) = Some op → F l → G l) →
  sent s write installation credentials deploy i F log → sent s write installation credentials deploy i G log.
Proof.
  intros HFG (before & op & path & query & body & -> & Hr & Hf & Hs). exists before, op, path, query, body. split_and!; try done.
  eapply HFG; [by eapply sf_operation|done].
Qed.

Lemma sending_weaken {A} s write installation credentials deploy i (F G P : list request → Prop) (m : eff request A) :
  (∀ l op, find_operation i.(in_Operation) = Some op → F l → G l) →
  sending (sent s write installation credentials deploy i F) P m → sending (sent s write installation credentials deploy i G) P m.
Proof.
  intros HFG Hm. eapply triple_post; [exact Hm|..].
  - intros v log Hs. by eapply sent_weaken.
  - intros e log [Hr|Hs]; [by left|right]. by eapply sent_weaken.
Qed.

(** For a connection the facts are those of the operation it finds. *)
Definition authorized_found (s : Scope) (a : Access) (i : Invocation) (log : list request) : Prop :=
  ∀ op, find_operation i.(in_Operation) = Some op → authorized s a op log.

Lemma sending_access s a i : NoDup (op_ID <$> catalog) →
  sending (sent s a.(ac_AllowWrite) a.(ac_Installation) a.(ac_AllowCredentials) a.(ac_AllowDeploy) i (authorized_found s a i)) (λ _, True)
    (InvokeWithAccess call s a i).
Proof.
  intros Hnd. unfold InvokeWithAccess. destruct a as [inst write deploy admin creds]. cbn [ac_Installation ac_AllowWrite ac_AllowDeploy ac_AllowAdmin ac_AllowCredentials].
  destruct inst; cbn [negb].
  - eapply sending_pure; [apply reading_guard|apply grows_true|]. intros [] [Hp%is_empty_true He%is_empty_true]%andb_true_iff.
    eapply sending_pure; [apply reading_guard|apply grows_true|]. intros [] Hadmin.
    eapply sending_pure; [apply reading_guard|apply grows_true|]. intros [] Havail.
    eapply sending_pure; [apply reading_guard|apply grows_true|]. intros [] _.
    eapply sending_read; [apply reading_installation|apply grows_true|]. intros []. cbv beta.
    eapply sending_weaken; [|apply sending_invoke]; cbv beta.
    + intros l op Hop [_ (p & Hg & Hi)] op' Hop'. split; [done|]. intros _. unfold InstallationAvailable in Havail. rewrite Hop' in Havail.
      split_and!; [done|destruct s; cbn in *; by subst|by apply String.eqb_eq|]. exists p. split; [done|].
      unfold owner_required in Hi. by rewrite (last_operation_find _ op') in Hi.
    + intros log more [_ (p & Hg & Hi)]. split; [done|]. exists p. split; [by apply got_me_grows|done].
  - eapply sending_pure; [apply reading_guard|apply grows_true|]. intros [] Hadmin%negb_true_iff.
    eapply (sending_read _ _ _ (λ _ log, credential_required i.(in_Operation) = true →
      ∃ p, got_me call log p ∧ exact_credential s p ∧ "agent:credentials" ∈ p.(me_Permissions))); [|apply grows_true|].
    + apply reading_when. intros _. eapply reading_bind_pure; [apply reading_guard|]. intros [] _. apply reading_credential_grant.
    + intros []. cbv beta. eapply sending_weaken; [|apply sending_invoke]; cbv beta.
      * intros l op Hop [_ Hc] op' Hop'. split; [|done]. intros _. split; [done|]. intros Hr. apply Hc.
        unfold credential_required. by rewrite (last_operation_find _ op').
      * intros log more [_ Hc]. split; [done|]. intros Hr. destruct (Hc Hr) as (p & Hg & Hp). exists p. split; [by apply got_me_grows|done].
Qed.

(** C26: An invocation through a connection sends reads until every check has passed; what it
    then sends is one request, for the operation that was named. That request changes
    something only with the write opt-in, deploys only with the deployment opt-in and
    touches credentials only with the opt-in and a credential that was granted it. Its
    path is the operation's, every name in braces replaced by the plain segment given for
    it. On a project connection every project and environment in its query and its
    document is that of the connection, and the control plane has said of every resource
    it refers to, and of the one it acts on, that they are in that scope. On an
    installation connection the operation is one exposed to installations, administration
    was opted in, and the credential is an unrestricted one with the grants, of an owner
    where the operation asks for one. When a check fails, only reads were sent. *)
Theorem InvokeWithAccess_confined s a i : NoDup (op_ID <$> catalog) →
  match InvokeWithAccess call s a i [] with
  | (r, log) =>
      (reads log ∧ ∃ e, r = Err e) ∨
      ∃ before op path query body, log = before ++ [final_request op i path query body] ∧ reads before ∧ authorized s a op before ∧
        sent_for call s a.(ac_AllowWrite) a.(ac_Installation) a.(ac_AllowCredentials) a.(ac_AllowDeploy) i op path query body before
  end.
Proof.
  intros Hnd. pose proof (sending_access s a i Hnd [] (conj (Forall_nil_2 _) I)) as Hs. cbn beta in Hs.
  assert (∀ log, sent s (ac_AllowWrite a) (ac_Installation a) (ac_AllowCredentials a) (ac_AllowDeploy a) i (authorized_found s a i) log →
    ∃ before op path query body, log = before ++ [final_request op i path query body] ∧ reads before ∧ authorized s a op before ∧
      sent_for call s a.(ac_AllowWrite) a.(ac_Installation) a.(ac_AllowCredentials) a.(ac_AllowDeploy) i op path query body before) as Hex.
  { intros log (before & op & path & query & body & -> & Hr & Hf & Hsf). exists before, op, path, query, body. split_and!; try done.
    apply Hf. by eapply sf_operation. }
  destruct (InvokeWithAccess call s a i []) as [[v|e] log]; [right; by apply Hex|].
  destruct Hs as [Hr|Hs]; [left; split; [done|by exists e]|right; by apply Hex].
Qed.
End safety.

#[local] Existing Instance example_contract.

(** A control plane with one application in the scope. *)
Definition example_plane (_ : list request) (q : request) : result any :=
  if (q.(q_Path) =? "/applications/web")%string then Ok (VObj [("project", VStr "shop"); ("environment", VStr "production")])
  else if (q.(q_Path) =? "/applications/other")%string then Ok (VObj [("project", VStr "bank"); ("environment", VStr "production")])
  else Ok VNull.

Definition example_access : Access := mkAccess false true true false false.
Definition example_restart (id : string) : Invocation := mkInvocation "restartApplication" {[ "id" := id ]} ∅ EmptyString EmptyString.
Definition example_scope : Scope := mkScope "shop" "production".

Lemma InvokeWithAccess_confined_witness :
  NoDup (op_ID <$> catalog) ∧
  (q_Path <$> (InvokeWithAccess example_plane example_scope example_access (example_restart "web") []).2) =
    ["/applications/web"; "/applications/web/restart"] ∧
  (q_Path <$> (InvokeWithAccess example_plane example_scope example_access (example_restart "other") []).2) = ["/applications/other"] ∧
  match InvokeWithAccess example_plane example_scope example_access (example_restart "web") [] with
  | (r, log) =>
      (reads log ∧ ∃ e, r = Err e) ∨
      ∃ before op path query body, log = before ++ [final_request op (example_restart "web") path query body] ∧ reads before ∧
        authorized example_plane example_scope example_access op before ∧
        sent_for example_plane example_scope true false false true (example_restart "web") op path query body before
  end.
Proof.
  assert (NoDup (op_ID <$> catalog)) as Hnd by (vm_compute; repeat constructor; set_solver).
  split; [exact Hnd|]. split; [vm_compute; reflexivity|]. split; [vm_compute; reflexivity|].
  exact (InvokeWithAccess_confined example_plane example_scope example_access (example_restart "web") Hnd).
Defined.
