(* ===== verification/SecretProvider.v ===== *)
(** External secret providers (internal/secretprovider): their configuration
    (model.go), the sealing of their credentials (crypto.go), the requests of the
    client (http.go) and the snapshot a deployment resolves (service.go). The cipher,
    certificates, JSON decoders and the provider's server are a class; every request
    is recorded in the order it is sent. *)
From S2P Require Import Prelude GoStd Paths GoNet Regex SpecTypes Platform SpecChecks SpecEnvironment Escapes Egress Cipher Traced.
#[global] Open Scope Z_scope.

Definition ErrInput : error := Errorf "invalid secret provider" [].
Definition invalid_provider (message : string) : error := Errorf "%w: %s" [AErr ErrInput; AStr message].

Record Scope : Type := mkScope { sc_Project : string; sc_Environments : list string }.

Record Provider : Type := mkProvider {
  p_Name : string;
  p_Kind : string;
  p_Endpoint : string;
  p_Mount : string;
  p_RootPath : string;
  p_ProjectID : string;
  p_Environment : string;
  p_Namespace : string;
  p_CACert : string;
  p_PrivateCIDRs : list string;
  p_Scopes : list Scope;
  p_EncryptedCredentials : string;
}.

Record Credentials : Type := mkCredentials { cr_Token : string; cr_ClientID : string; cr_ClientSecret : string }.

(** Certificates; the JSON of credentials and of a
    login; the decoders of the three answers; and the server behind a provider, which
    answers a request with a status and a body, or not at all. *)
Record http_request : Type := mkHTTPRequest {
  rq_Method : string;
  rq_URL : string;
  rq_Headers : list (string * string);
  rq_Body : string;
}.

Class SecretPlatform := {
  cert_pool : bool;                                                 (* SystemCertPool succeeds *)
  has_certificate : string → bool;                                  (* AppendCertsFromPEM succeeds *)
  json_Credentials : Credentials → string;
  unjson_Credentials : string → option Credentials;
  json_login : string → string → string;                            (* client ID and secret *)
  unjson_login : string → option string;                            (* the access token, empty when absent *)
  unjson_vault : string → option (string → option (option string)); (* an entry of data.data: text or null *)
  unjson_infisical : string → option (option string * bool);        (* the value, and whether it is hidden *)
  http_Do : Provider → http_request → option (Z * string);
}.

Section secretprovider.
Context `{Host} `{Cipher} `{SecretPlatform} `{RangeOrder}.

(** * Configuration *)

Definition private_cidr (raw : string) : result unit :=
  let invalid := invalid_provider "private_cidrs accepts explicit private network prefixes only" in
  match ParsePrefix raw with
  | None => Err invalid
  | Some prefix =>
      if negb (IsPrivate prefix.(px_Addr)) || (prefix.(px_Bits) <? 8) || negb (bool_decide (prefix = Masked prefix)) ||
         negb (IsPrivate (Masked prefix).(px_Addr)) then Err invalid
      else fail_when (Is6 prefix.(px_Addr) && (prefix.(px_Bits) <? 7)) (invalid_provider "invalid private network prefix")
  end.

Definition endpoint_ok (endpoint : string) : bool :=
  match url_Parse endpoint with
  | None => false
  | Some u =>
      negb ((len endpoint >? 512) || negb (u.(u_Scheme) =? "https")%string || is_empty u.(u_Hostname) || u.(u_has_User) ||
            negb (is_empty u.(u_RawQuery)) || negb (is_empty u.(u_Fragment)) ||
            (negb (is_empty u.(u_Path)) && negb (u.(u_Path) =? "/")%string) || negb (is_empty u.(u_Opaque)))
  end.

Definition check_scope (projects : gset string) (scope : Scope) : result (gset string) :=
  _ ← fail_when (negb (full_match namePattern scope.(sc_Project)) || bool_decide (scope.(sc_Project) ∈ projects) ||
                 (lenl scope.(sc_Environments) >? 32)) (invalid_provider "project scopes must be valid and unique");
  _ ← foldM (λ (environments : gset string) environment,
         _ ← fail_when (negb (full_match namePattern environment) || bool_decide (environment ∈ environments))
                (invalid_provider "environment scopes must be valid and unique");
         Ok ({[ environment ]} ∪ environments)) ∅ scope.(sc_Environments);
  Ok ({[ scope.(sc_Project) ]} ∪ projects).

Definition Validate (p : Provider) : result unit :=
  _ ← fail_when (negb (full_match namePattern p.(p_Name)) || (negb (p.(p_Kind) =? "vault")%string && negb (p.(p_Kind) =? "infisical")%string))
        (invalid_provider "use a valid name and kind vault or infisical");
  _ ← fail_when (negb (endpoint_ok p.(p_Endpoint))) (invalid_provider "endpoint must be an HTTPS origin without credentials, path or query");
  _ ← fail_when ((len p.(p_CACert) >? Z.shiftl 32 10) || negb (ValidSecretPath p.(p_RootPath)) || (lenl p.(p_PrivateCIDRs) >? 16))
        (invalid_provider "root path, CA certificate or private network list exceeds bounds");
  _ ← fail_when (negb (is_empty p.(p_CACert)) && negb (has_certificate p.(p_CACert)))
        (invalid_provider "ca_cert must contain a PEM certificate authority");
  _ ← iterM private_cidr p.(p_PrivateCIDRs);
  _ ← (if (p.(p_Kind) =? "vault")%string then
         fail_when (is_empty p.(p_Mount) || negb (ValidSecretPath p.(p_Mount)) || negb (is_empty p.(p_ProjectID)) ||
                    negb (is_empty p.(p_Environment)) || negb (ValidSecretPath p.(p_Namespace)))
           (invalid_provider "Vault requires a KV v2 mount and optional namespace")
       else
         fail_when (is_empty p.(p_ProjectID) || (len p.(p_ProjectID) >? 128) || negb (ValidSecretPath p.(p_ProjectID)) ||
                    has_byte "/" p.(p_ProjectID) || negb (full_match namePattern p.(p_Environment)) ||
                    negb (is_empty p.(p_Mount)) || negb (is_empty p.(p_Namespace)))
           (invalid_provider "Infisical requires project_id and environment"));
  _ ← fail_when ((lenl p.(p_Scopes) =? 0) || (lenl p.(p_Scopes) >? 32)) (invalid_provider "select between 1 and 32 project access scopes");
  _ ← foldM check_scope ∅ p.(p_Scopes);
  Ok tt.

(** The values of a credential that go into headers and requests. *)
Definition credential_value (value : string) : bool :=
  negb (is_empty value) && (len value <=? 8192) && negb (ContainsAny value (String "000" (String "013" (String "010" EmptyString)))).

Definition Credentials_Validate (c : Credentials) (kind : string) : result unit :=
  if (kind =? "vault")%string && credential_value c.(cr_Token) && is_empty c.(cr_ClientID) && is_empty c.(cr_ClientSecret) ||
     (kind =? "infisical")%string && credential_value c.(cr_ClientID) && credential_value c.(cr_ClientSecret) && is_empty c.(cr_Token)
  then Ok tt
  else Err (Errorf "%w: provide a Vault token or an Infisical client ID and client secret" [AErr ErrInput]).

Fixpoint scopes_allow (scopes : list Scope) (project environment : string) : bool :=
  match scopes with
  | [] => false
  | scope :: rest =>
      if negb (scope.(sc_Project) =? project)%string then scopes_allow rest project environment
      else if lenl scope.(sc_Environments) =? 0 then true
      else if existsb (λ name, (name =? environment)%string) scope.(sc_Environments) then true
      else scopes_allow rest project environment
  end.
Definition Allows (p : Provider) (project environment : string) : bool := scopes_allow p.(p_Scopes) project environment.

Definition NUL : string := String "000" EmptyString.

Definition SameSource (p other : Provider) : bool :=
  ((p.(p_Name) =? other.(p_Name)) && (p.(p_Kind) =? other.(p_Kind)) && (p.(p_Endpoint) =? other.(p_Endpoint)) &&
   (p.(p_Mount) =? other.(p_Mount)) && (p.(p_RootPath) =? other.(p_RootPath)) && (p.(p_ProjectID) =? other.(p_ProjectID)) &&
   (p.(p_Environment) =? other.(p_Environment)) && (p.(p_Namespace) =? other.(p_Namespace)) && (p.(p_CACert) =? other.(p_CACert)) &&
   (Join p.(p_PrivateCIDRs) NUL =? Join other.(p_PrivateCIDRs) NUL))%string.

(** * Sealed credentials *)

Definition errEncryption : error :=
  Errorf "secret provider credentials require the original persistent authentication encryption key" [].

Definition credential_data (p : Provider) : string := "hakopod-secret-provider-v1:" +:+ p.(p_Name) +:+ ":" +:+ p.(p_Kind).

(** With the nonce that was drawn, if the random source answered. *)
Definition SealCredentials (nonce : option string) (key : string) (p : Provider) (c : Credentials) : result string :=
  _ ← Credentials_Validate c p.(p_Kind);
  _ ← fail_when (negb (len key =? 32)) errEncryption;
  match nonce with
  | None => Err errEncryption
  | Some nonce => Ok (nonce +:+ gcm_Seal key nonce (json_Credentials c) (credential_data p))
  end.

Definition OpenCredentials (key : string) (p : Provider) : result Credentials :=
  if negb (len key =? 32) || (len p.(p_EncryptedCredentials) <? nonce_size) then Err errEncryption
  else
    match open_sealed key p.(p_EncryptedCredentials) (credential_data p) with
    | None => Err errEncryption
    | Some plain =>
        match unjson_Credentials plain with
        | None => Err errEncryption
        | Some c => if is_ok (Credentials_Validate c p.(p_Kind)) then Ok c else Err errEncryption
        end
    end.

(** * The client *)

(** What was sent, and to which provider. *)
Definition sent : Type := Provider * http_request.

(** Computations that send requests; every failure is the same error. *)
Definition eff : Type → Type := Traced.eff sent.
Definition unavailable {A} : eff A := throw ErrUnavailable.
Definition require (b : bool) : eff unit := guard_or ErrUnavailable b.
Definition from_option {A} (o : option A) : eff A := some_or ErrUnavailable o.

Definition maxResponseBytes : Z := Z.shiftl 1 20.
Definition maxValueBytes : Z := Z.shiftl 64 10.

(** A [providerClient]: its provider, and the token once authenticated. *)
Record client : Type := mkClient { c_provider : Provider; c_token : string }.

Definition newProviderClient (p : Provider) : result client :=
  if negb (is_ok (Validate p)) then Err ErrUnavailable
  else if negb cert_pool then Err ErrUnavailable
  else if negb (is_empty p.(p_CACert)) && negb (has_certificate p.(p_CACert)) then Err ErrUnavailable
  else Ok (mkClient p EmptyString).

(** [query.Encode()]: the parameters in the order of their names. *)
Definition encode_query (query : list (string * string)) : string :=
  Join ((λ kv, QueryEscape kv.1 +:+ "=" +:+ QueryEscape kv.2) <$> query) "&".

Definition request_headers (c : client) (has_body : bool) : list (string * string) :=
  [("Accept", "application/json")] ++
  (if has_body then [("Content-Type", "application/json")] else []) ++
  (if is_empty c.(c_token) then []
   else if (c.(c_provider).(p_Kind) =? "vault")%string then [("X-Vault-Token", c.(c_token))]
   else [("Authorization", "Bearer " +:+ c.(c_token))]) ++
  (if is_empty c.(c_provider).(p_Namespace) then [] else [("X-Vault-Namespace", c.(c_provider).(p_Namespace))]).

(** [request], up to the decoding of the answer. *)
Definition request (c : client) (method path : string) (query : list (string * string)) (body : option string) : eff string := λ log,
  let u := TrimSuffix c.(c_provider).(p_Endpoint) "/" +:+ path in
  let u := if lenl query =? 0 then u else u +:+ "?" +:+ encode_query query in
  let req := mkHTTPRequest method u (request_headers c (non_nil body)) (default EmptyString body) in
  let log := log ++ [(c.(c_provider), req)] in
  match http_Do c.(c_provider) req with
  | None => (Err ErrUnavailable, log)
  | Some (status, data) =>
      if negb (status =? 200) || (len data >? maxResponseBytes) then (Err ErrUnavailable, log) else (Ok data, log)
  end.

Definition header_text (value : string) : bool := negb (ContainsAny value (String "013" (String "010" (String "000" EmptyString)))).

Definition authenticate (c : client) (credentials : Credentials) : eff client :=
  _ ← require (is_ok (Credentials_Validate credentials c.(c_provider).(p_Kind)));
  if (c.(c_provider).(p_Kind) =? "vault")%string then mret (mkClient c.(c_provider) credentials.(cr_Token))
  else
    data ← request c "POST" "/api/v1/auth/universal-auth/login" [] (Some (json_login credentials.(cr_ClientID) credentials.(cr_ClientSecret)));
    token ← from_option (unjson_login data);
    _ ← require (negb (is_empty token) && (len token <=? 8192) && header_text token);
    mret (mkClient c.(c_provider) token).

(** [strings.Trim(s, "/")] *)
Fixpoint trim_left_slash (s : string) : string :=
  match s with String c s' => if Ascii.eqb c "/" then trim_left_slash s' else s | EmptyString => EmptyString end.
Fixpoint trim_right_slash (s : string) : string :=
  match s with
  | EmptyString => EmptyString
  | String c s' =>
      let t := trim_right_slash s' in
      if is_empty t && Ascii.eqb c "/" then EmptyString else String c t
  end.
Definition location (p : Provider) (path : string) : string := trim_right_slash (trim_left_slash (Join [p.(p_RootPath); path] "/")).

Definition read_query (p : Provider) (loc : string) : list (string * string) :=
  [("environment", p.(p_Environment)); ("expandSecretReferences", "false"); ("includeImports", "false");
   ("projectId", p.(p_ProjectID)); ("secretPath", "/" +:+ loc); ("type", "shared")].

Definition read (c : client) (path key : string) : eff string :=
  let p := c.(c_provider) in
  let loc := location p path in
  value ← (if (p.(p_Kind) =? "vault")%string then
             _ ← require (negb (is_empty loc));
             data ← request c "GET" ("/v1/" +:+ p.(p_Mount) +:+ "/data/" +:+ loc) [] None;
             entries ← from_option (unjson_vault data);
             from_option (entries key)
           else
             data ← request c "GET" ("/api/v4/secrets/" +:+ PathEscape key) (read_query p loc) None;
             '(value, hidden) ← from_option (unjson_infisical data);
             _ ← require (negb hidden);
             mret value);
  value ← from_option value;
  _ ← require ((len value <=? maxValueBytes) && negb (has_byte "000" value));
  mret value.

(** * The snapshot of a deployment *)

#[export] Instance SecretRef_countable : Countable SecretRef.
Proof.
  apply (inj_countable' (λ r, (r.(sr_Ref), r.(sr_Provider), r.(sr_Path), r.(sr_Key)))
    (λ '(a, b, c, d), mkSecretRef a b c d)). by intros [].
Defined.

Record snapshot : Type := mkSnapshot {
  s_clients : gmap string client;
  s_cache : gmap SecretRef string;
  s_result : gmap string (gmap string string);
  s_total : Z;
}.
Definition no_snapshot : snapshot := mkSnapshot ∅ ∅ ∅ 0.

(** [(s *Service) Resolve]: [repo] is the repository and [key] the credential key. *)
Section resolve.
Context (repo : string → result Provider) (key project environment : string).

Definition provider_client (name : string) (s : snapshot) : eff (client * snapshot) :=
  match s.(s_clients) !! name with
  | Some c => mret (c, s)
  | None =>
      match repo name with
      | Err _ => unavailable
      | Ok p =>
          _ ← require (is_ok (Validate p) && Allows p project environment);
          match OpenCredentials key p with
          | Err _ => unavailable
          | Ok credentials =>
              match newProviderClient p with
              | Err _ => unavailable
              | Ok c =>
                  c ← authenticate c credentials;
                  mret (c, mkSnapshot (<[ name := c ]> s.(s_clients)) s.(s_cache) s.(s_result) s.(s_total))
              end
          end
      end
  end.

Definition cached_value (c : client) (ref : SecretRef) (s : snapshot) : eff (string * snapshot) :=
  match s.(s_cache) !! ref with
  | Some value => mret (value, s)
  | None =>
      value ← read c ref.(sr_Path) ref.(sr_Key);
      mret (value, mkSnapshot s.(s_clients) (<[ ref := value ]> s.(s_cache)) s.(s_result) s.(s_total))
  end.

Definition resolve_ref (name : string) (s : snapshot) (kv : string * SecretRef) : eff snapshot :=
  let '(k, ref) := kv in
  if is_empty ref.(sr_Provider) then mret s
  else
    _ ← require (SecretRef_Valid ref);
    '(c, s) ← provider_client ref.(sr_Provider) s;
    '(value, s) ← cached_value c ref s;
    let total := s.(s_total) + (len value + len k) in
    _ ← require (total <=? Z.shiftl 2 20);
    mret (mkSnapshot s.(s_clients) s.(s_cache)
            (<[ name := <[ k := value ]> (default ∅ (s.(s_result) !! name)) ]> s.(s_result)) total).

Definition resolve_service (app : Application) (s : snapshot) (name : string) : eff snapshot :=
  match app_services app !! name with
  | None => mret s
  | Some service => foldE (resolve_ref name) s (range (SecretReferences (EffectiveService app service)))
  end.

(** [slot]: one of the four slots was free before the deadline. *)
Definition Resolve (slot : bool) (app : Application) : eff (gmap string (gmap string string)) :=
  _ ← require slot;
  s ← foldE (resolve_service app) no_snapshot (Names app);
  mret s.(s_result).
End resolve.
End secretprovider.
