(* ===== verification/SecretProviderSpec.v ===== *)
(** What a deployment gets from external secret providers, and what is sent to them:
    every request goes to a provider that was validated and admits the environment,
    with its own token, below its root path; the snapshot holds exactly the declared
    references. *)
From S2P Require Import Prelude GoStd Paths GoNet Prefixes Regex SpecTypes Platform SpecChecks SpecEnvironment SpecServices Escapes Egress Cipher Traced SecretProvider.
#[global] Open Scope Z_scope.

(** * Paths *)

(** The segments of a secret path; the empty path has none. *)
Definition segments (path : string) : list string := if is_empty path then [] else Split path "/".
(** A segment that names something: not empty and not a step. *)
Definition solid (segment : string) : Prop := segment ≠ EmptyString ∧ segment ≠ "." ∧ segment ≠ "..".

Lemma valid_segments path : ValidSecretPath path = true → Forall solid (segments path).
Proof.
  unfold ValidSecretPath, segments. destruct (512 <? len path); [done|]. destruct (is_empty path); [by constructor|].
  rewrite forallb_forall. intros Hall. apply Forall_forall. intros x Hx.
  specialize (Hall x ltac:(by apply list_elem_of_In)). unfold secretPathSegment in Hall.
  split_and!; intros ->; vm_compute in Hall; done.
Qed.

Definition no_trail (s : string) : Prop := last (Split s "/") ≠ Some EmptyString.

Lemma trim_left_id s : head (Split s "/") ≠ Some EmptyString ∨ s = EmptyString → trim_left_slash s = s.
Proof. intros [Hs| ->]; [|done]. destruct s as [|c s]; [done|]. simpl in *. by destruct (Ascii.eqb c "/"). Qed.

Lemma last_Split_cons c s : s ≠ EmptyString → no_trail (String c s) → no_trail s.
Proof.
  unfold no_trail. simpl. intros Hs. pose proof (Split_not_nil s "/") as Hn. destruct (Ascii.eqb c "/").
  - by destruct (Split s "/").
  - destruct (Split s "/") as [|h [|x t]] eqn:Hsp; [done| |by rewrite !last_cons_cons].
    intros _. cbn [last]. intros [= ->]. apply Hs. apply (Split_inj _ _ "/"). by rewrite Hsp.
Qed.

Lemma trim_right_id s : no_trail s → trim_right_slash s = s.
Proof.
  induction s as [|c s IH]; [done|]. intros Hs. cbn [trim_right_slash]. destruct (decide (s = EmptyString)) as [->|Hne].
  - cbn. destruct (Ascii.eqb c "/") eqn:Hc; [|done]. unfold no_trail in Hs. simpl in Hs. by rewrite Hc in Hs.
  - rewrite IH by by eapply last_Split_cons. by rewrite (proj2 (is_empty_false s) Hne).
Qed.

Lemma trim_right_slash_app s : s ≠ EmptyString → no_trail s → trim_right_slash (s +:+ "/") = s.
Proof.
  induction s as [|c s IH]; [done|]. intros _ Hs. rewrite string_app_cons. cbn [trim_right_slash].
  destruct (decide (s = EmptyString)) as [->|Hne].
  - cbn. destruct (Ascii.eqb c "/") eqn:Hc; [|done]. unfold no_trail in Hs. simpl in Hs. by rewrite Hc in Hs.
  - rewrite IH by (done || by eapply last_Split_cons). by rewrite (proj2 (is_empty_false s) Hne).
Qed.

Lemma solid_ends path : path ≠ EmptyString → Forall solid (segments path) →
  head (Split path "/") ≠ Some EmptyString ∧ no_trail path.
Proof.
  unfold segments, no_trail. intros Hne%is_empty_false. rewrite Hne. intros Hall.
  split; intros Hx; [apply head_Some_elem_of in Hx|apply last_Some_elem_of in Hx];
    apply (proj1 (Forall_forall _ _) Hall) in Hx as [Hx _]; done.
Qed.

(** The location of a reference: the root of the provider, then its path, without a
    step that would leave the root. *)
Lemma location_segments p path : ValidSecretPath p.(p_RootPath) = true → ValidSecretPath path = true →
  location p path = Join (segments p.(p_RootPath) ++ segments path) "/".
Proof.
  intros Hr%valid_segments Hp%valid_segments. unfold location.
  change (Join [p_RootPath p; path] "/") with (p_RootPath p +:+ String "/" path).
  destruct (decide (p_RootPath p = EmptyString)) as [He|He]; [rewrite He|].
  - change (EmptyString +:+ String "/" path) with (String "/" path). change (segments EmptyString) with (@nil string). cbn [app trim_left_slash].
    change (Ascii.eqb "/" "/") with true. cbv iota. destruct (decide (path = EmptyString)) as [->|Hne]; [done|].
    destruct (solid_ends path Hne Hp) as [Hh Hl]. rewrite trim_left_id by by left. rewrite trim_right_id by done.
    unfold segments. rewrite (proj2 (is_empty_false path) Hne). by rewrite (Join_Split path "/").
  - destruct (solid_ends _ He Hr) as [Hh Hl].
    assert (head (Split (p_RootPath p +:+ String "/" path) "/") ≠ Some EmptyString) as Hh'.
    { rewrite Split_app. pose proof (Split_not_nil (p_RootPath p) "/"). by destruct (Split (p_RootPath p) "/"). }
    rewrite trim_left_id by by left. unfold segments at 1. rewrite (proj2 (is_empty_false _) He).
    destruct (decide (path = EmptyString)) as [->|Hne].
    + change (segments EmptyString) with (@nil string). rewrite app_nil_r, (Join_Split _ "/"). by apply trim_right_slash_app.
    + destruct (solid_ends path Hne Hp) as [_ Hl']. unfold segments. rewrite (proj2 (is_empty_false path) Hne).
      rewrite <-Split_app, (Join_Split _ "/"). apply trim_right_id. unfold no_trail. rewrite Split_app.
      rewrite last_app. pose proof (Split_not_nil path "/"). unfold no_trail in Hl'. by destruct (last (Split path "/")).
Qed.

(** * Requests *)

Section spec.
Context `{Host} `{Ci : Cipher} `{SecretPlatform} `{RangeOrder}.

Definition base (p : Provider) : string := TrimSuffix p.(p_Endpoint) "/".

Definition login_request (p : Provider) (cr : Credentials) : http_request :=
  mkHTTPRequest "POST" (base p +:+ "/api/v1/auth/universal-auth/login")
    ([("Accept", "application/json"); ("Content-Type", "application/json")] ++
     if is_empty p.(p_Namespace) then [] else [("X-Vault-Namespace", p.(p_Namespace))])
    (json_login cr.(cr_ClientID) cr.(cr_ClientSecret)).

(** Where a reference is below the root path of its provider. *)
Definition place (p : Provider) (ref : SecretRef) : string := Join (segments p.(p_RootPath) ++ segments ref.(sr_Path)) "/".

Definition read_request (p : Provider) (token : string) (ref : SecretRef) : http_request :=
  let namespace := if is_empty p.(p_Namespace) then [] else [("X-Vault-Namespace", p.(p_Namespace))] in
  if (p.(p_Kind) =? "vault")%string then
    mkHTTPRequest "GET" (base p +:+ "/v1/" +:+ p.(p_Mount) +:+ "/data/" +:+ place p ref)
      (("Accept", "application/json") :: (if is_empty token then [] else [("X-Vault-Token", token)]) ++ namespace) EmptyString
  else
    mkHTTPRequest "GET" (base p +:+ "/api/v4/secrets/" +:+ PathEscape ref.(sr_Key) +:+ "?" +:+ encode_query (read_query p (place p ref)))
      (("Accept", "application/json") :: (if is_empty token then [] else [("Authorization", "Bearer " +:+ token)]) ++ namespace) EmptyString.

(** The body of an answer that is not refused. *)
Definition answer (p : Provider) (req : http_request) (data : string) : Prop :=
  http_Do p req = Some (200, data) ∧ len data ≤ maxResponseBytes.

(** The value a server gives for a reference. *)
Definition answers (p : Provider) (token : string) (ref : SecretRef) (value : string) : Prop :=
  ∃ data, answer p (read_request p token ref) data ∧
    (if (p.(p_Kind) =? "vault")%string then
       place p ref ≠ EmptyString ∧ ∃ entries, unjson_vault data = Some entries ∧ entries ref.(sr_Key) = Some (Some value)
     else unjson_infisical data = Some (Some value, false)) ∧
    len value ≤ maxValueBytes ∧ has_byte "000" value = false.

(** The credentials of a provider that may be used here, and the token they give. *)
Definition usable (repo : string → result Provider) (key project environment name : string) (p : Provider) (cr : Credentials) : Prop :=
  repo name = Ok p ∧ is_ok (Validate p) = true ∧ Allows p project environment = true ∧ OpenCredentials key p = Ok cr.

Definition has_token (p : Provider) (cr : Credentials) (token : string) : Prop :=
  if (p.(p_Kind) =? "vault")%string then token = cr.(cr_Token)
  else ∃ data, answer p (login_request p cr) data ∧ unjson_login data = Some token ∧
    token ≠ EmptyString ∧ len token ≤ 8192 ∧ header_text token = true.

(** * Triples whose only error is [ErrUnavailable] *)

Definition only (E : list sent → Prop) (e : error) (log : list sent) : Prop := e = ErrUnavailable ∧ E log.
#[local] Abbreviation triple P m Q E := (Traced.triple P m Q (only E)).

Lemma triple_unavailable {A} (P E : list sent → Prop) (Q : A → list sent → Prop) : (∀ log, P log → E log) → triple P unavailable Q E.
Proof. intros HE. apply triple_throw. intros log Hl. split; [done|by apply HE]. Qed.

Lemma triple_require b (P E : list sent → Prop) : (∀ log, P log → E log) → triple P (require b) (λ _ log, P log ∧ b = true) E.
Proof. intros HE. apply triple_guard. intros log Hl. split; [done|by apply HE]. Qed.

Lemma triple_option {A} (o : option A) (P E : list sent → Prop) : (∀ log, P log → E log) →
  triple P (from_option o) (λ a log, P log ∧ o = Some a) E.
Proof. intros HE. apply triple_some. intros log Hl. split; [done|by apply HE]. Qed.

Lemma triple_within {A} P (m : eff A) (Q Q' : A → list sent → Prop) (E E' : list sent → Prop) :
  triple P m Q E → (∀ a log, Q a log → Q' a log) → (∀ log, E log → E' log) → triple P m Q' E'.
Proof. intros Hm HQ HE. eapply triple_post; [exact Hm|exact HQ|]. intros e log [-> Hl]. split; [done|by apply HE]. Qed.

(** A request that is sent is logged, whatever the answer. *)
Lemma triple_request c method path query body (P : list sent → Prop) (E : list sent → Prop) req :
  req = mkHTTPRequest method (let u := base (c_provider c) +:+ path in if lenl query =? 0 then u else u +:+ "?" +:+ encode_query query)
          (request_headers c (non_nil body)) (default EmptyString body) →
  (∀ log, P log → E (log ++ [(c_provider c, req)])) →
  triple P (request c method path query body)
    (λ data log, (∃ log0, P log0 ∧ log = log0 ++ [(c_provider c, req)]) ∧ answer (c_provider c) req data) E.
Proof.
  intros Hreq HE log Hl. unfold request. cbv zeta. fold (base (c_provider c)). cbv zeta in Hreq. rewrite <-Hreq.
  destruct (http_Do (c_provider c) req) as [[status data]|] eqn:Hd; [|by split; [|apply HE]].
  destruct (_ || _) eqn:Hb; [by split; [|apply HE]|]. apply orb_false_iff in Hb as [Hs%negb_false_iff%Z.eqb_eq Hlen].
  rewrite Z.gtb_ltb, Z.ltb_ge in Hlen. subst status. split; [by exists log|done].
Qed.

Definition is_vault (p : Provider) : bool := (p.(p_Kind) =? "vault")%string.

Lemma triple_authenticate p cr (P P' : list sent → Prop) :
  (∀ log, P log → P' log) → (∀ log, P log → is_vault p = false → P' (log ++ [(p, login_request p cr)])) →
  triple P (authenticate (mkClient p EmptyString) cr) (λ c log, P' log ∧ ∃ token, c = mkClient p token ∧ has_token p cr token) P'.
Proof.
  intros HP Hreq. unfold authenticate, has_token. eapply triple_bind; [by apply triple_require|]. intros []. cbn beta.
  apply triple_pure. intros _. unfold is_vault in *. cbn [c_provider]. destruct (p_Kind p =? "vault")%string.
  - apply triple_ret. intros log Hl. split; [by apply HP|]. by exists (cr_Token cr).
  - eapply triple_bind; [eapply triple_request; [reflexivity|]; cbn [c_provider]; intros log Hl; by apply Hreq|].
    intros data. cbn beta. apply triple_pure. intros Hans. cbn [c_provider] in *.
    eapply triple_bind; [apply triple_option; intros log (log0 & Hl & ->); by apply Hreq|].
    intros token. cbn beta. apply triple_pure. intros Htok.
    eapply triple_bind; [apply triple_require; intros log (log0 & Hl & ->); by apply Hreq|].
    intros []. cbn beta. apply triple_pure. intros ((Hne%negb_true_iff%is_empty_false & Hlen%Z.leb_le)%andb_true_iff & Hh)%andb_true_iff.
    apply triple_ret. intros log (log0 & Hl & ->). split; [by apply Hreq|]. exists token. split; [done|]. exists data. done.
Qed.

Lemma triple_read p token ref (P P' : list sent → Prop) :
  ValidSecretPath p.(p_RootPath) = true → ValidSecretPath ref.(sr_Path) = true →
  (∀ log, P log → P' log) → (∀ log, P log → P' (log ++ [(p, read_request p token ref)])) →
  triple P (read (mkClient p token) ref.(sr_Path) ref.(sr_Key)) (λ value log, P' log ∧ answers p token ref value) P'.
Proof.
  intros Hroot Hpath HP Hreq. unfold read. cbv zeta. cbn [c_provider].
  rewrite location_segments by done. fold (place p ref).
  eapply (triple_bind _ _ _ _ (λ ov log, P' log ∧ ∃ data, answer p (read_request p token ref) data ∧
    if (p_Kind p =? "vault")%string then
      place p ref ≠ EmptyString ∧ ∃ entries, unjson_vault data = Some entries ∧ entries (sr_Key ref) = Some ov
    else unjson_infisical data = Some (ov, false))).
  - destruct (p_Kind p =? "vault")%string eqn:Hk.
    + eapply triple_bind; [by apply triple_require|]. intros []. cbn beta. apply triple_pure. intros Hne%negb_true_iff%is_empty_false.
      eapply triple_bind.
      { eapply (triple_request _ _ _ _ _ _ _ (read_request p token ref)); [|intros log Hl; by apply Hreq].
        unfold read_request, request_headers. cbn [c_provider c_token non_nil default lenl]. rewrite Hk. done. }
      intros data. cbn beta. apply triple_pure. intros Hans. cbn [c_provider] in *.
      eapply triple_bind; [apply triple_option; intros log (log0 & Hl & ->); by apply Hreq|]. intros entries. cbn beta.
      apply triple_pure. intros He. eapply (triple_within _ _ _ _ P' P'); [apply triple_option; intros log (log0 & Hl & ->); by apply Hreq| |done].
      intros ov log ((log0 & Hl & ->) & Ho). cbn beta. split; [by apply Hreq|]. exists data. split; [done|]. split; [done|]. by exists entries.
    + eapply triple_bind.
      { eapply (triple_request _ _ _ _ _ _ _ (read_request p token ref)); [|intros log Hl; by apply Hreq].
        unfold read_request, request_headers. cbn [c_provider c_token non_nil default]. rewrite Hk. cbv zeta.
        change (lenl (read_query p (place p ref)) =? 0) with false. cbv iota. by rewrite <-!string_app_assoc. }
      intros data. cbn beta. apply triple_pure. intros Hans. cbn [c_provider] in *.
      eapply triple_bind; [apply triple_option; intros log (log0 & Hl & ->); by apply Hreq|]. intros [ov hidden]. cbn beta.
      apply triple_pure. intros He. eapply triple_bind; [apply triple_require; intros log (log0 & Hl & ->); by apply Hreq|].
      intros []. cbn beta. apply triple_pure. intros ->%negb_true_iff. apply triple_ret. intros log (log0 & Hl & ->).
      split; [by apply Hreq|]. by exists data.
  - intros ov. cbn beta. apply triple_pure. intros (data & Hans & Hrest).
    eapply triple_bind; [by apply triple_option|]. intros v. cbn beta. apply triple_pure. intros ->.
    eapply triple_bind; [by apply triple_require|]. intros []. cbn beta. apply triple_pure.
    intros [Hlen%Z.leb_le Hnul%negb_true_iff]%andb_true_iff. apply triple_ret. intros log Hl. split; [done|]. by exists data.
Qed.

(** * Snapshots *)

Lemma size_room `{Countable K} {V} (m : gmap K V) (X : gset K) k : dom m ⊆ X → k ∈ X → m !! k = None → (S (size m) <= size X)%nat.
Proof.
  intros Hsub Hk Hm. rewrite <-(size_dom (D := gset K) m). assert (k ∉ dom m) by by apply not_elem_of_dom.
  replace (S (size (dom m))) with (size ({[ k ]} ∪ dom m)); [apply subseteq_size; set_solver|].
  rewrite size_union by set_solver. by rewrite size_singleton.
Qed.

Lemma size_within `{Countable K} {V} (m : gmap K V) (X : gset K) : dom m ⊆ X → (size m <= size X)%nat.
Proof. intros Hsub. rewrite <-(size_dom (D := gset K) m). by apply subseteq_size. Qed.

(** The bytes of a table of values with their keys, and of all tables. *)
Definition table_bytes (m : gmap string string) : Z := map_fold (λ k v n, len v + len k + n) 0 m.
Definition snapshot_bytes (m : gmap string (gmap string string)) : Z := map_fold (λ _ t n, table_bytes t + n) 0 m.

Lemma map_fold_sum_insert {V} (f : string → V → Z) (m : gmap string V) k v : m !! k = None →
  map_fold (λ k v n, f k v + n) 0 (<[ k := v ]> m) = f k v + map_fold (λ k v n, f k v + n) 0 m.
Proof. intros Hm. rewrite map_fold_insert_L; [done| |done]. intros. lia. Qed.

Lemma map_fold_sum_delete {V} (f : string → V → Z) (m : gmap string V) k v : m !! k = Some v →
  map_fold (λ k v n, f k v + n) 0 m = f k v + map_fold (λ k v n, f k v + n) 0 (delete k m).
Proof. intros Hm. rewrite (map_fold_delete_L _ _ k v); [done| |done]. intros. lia. Qed.

Lemma table_bytes_nonneg m : 0 ≤ table_bytes m.
Proof.
  unfold table_bytes. apply (map_fold_weak_ind (λ n _, 0 ≤ n)); [lia|]. intros k v t n _ Hn.
  pose proof (len_nonneg v). pose proof (len_nonneg k). lia.
Qed.

Lemma table_bytes_insert m k v : table_bytes (<[ k := v ]> m) ≤ len v + len k + table_bytes m.
Proof.
  unfold table_bytes. destruct (m !! k) as [w|] eqn:Hm.
  - rewrite <-insert_delete_eq. rewrite map_fold_sum_insert by by rewrite lookup_delete_eq.
    rewrite (map_fold_sum_delete _ m k w Hm). pose proof (len_nonneg w). pose proof (len_nonneg k). lia.
  - rewrite map_fold_sum_insert by done. lia.
Qed.

Lemma snapshot_bytes_insert (m : gmap string (gmap string string)) name k v :
  snapshot_bytes (<[ name := <[ k := v ]> (default ∅ (m !! name)) ]> m) ≤ len v + len k + snapshot_bytes m.
Proof.
  unfold snapshot_bytes. destruct (m !! name) as [t|] eqn:Hm.
  - change (default ∅ (Some t)) with t. rewrite <-insert_delete_eq. rewrite (map_fold_sum_insert (λ _ t, table_bytes t)) by by rewrite lookup_delete_eq.
    rewrite (map_fold_sum_delete (λ _ t, table_bytes t) m name t Hm). pose proof (table_bytes_insert t k v). lia.
  - change (default ∅ None) with (∅ : gmap string string). rewrite (map_fold_sum_insert (λ _ t, table_bytes t)) by done. pose proof (table_bytes_insert ∅ k v).
    change (table_bytes ∅) with 0 in *. lia.
Qed.

(** * Resolving *)

Section resolve.
Context (repo : string → result Provider) (key project environment : string) (app : Application).

Definition service_refs (name : string) : list (string * SecretRef) :=
  match app_services app !! name with
  | None => []
  | Some service => range (SecretReferences (EffectiveService app service))
  end.

(** A service refers to an external secret under a key. *)
Definition declared (name k : string) (ref : SecretRef) : Prop :=
  ∃ service, app_services app !! name = Some service ∧
    SecretReferences (EffectiveService app service) !! k = Some ref ∧ ref.(sr_Provider) ≠ EmptyString.

Definition external_refs : gset SecretRef :=
  list_to_set (filter (λ ref, ref.(sr_Provider) ≠ EmptyString) (Names app ≫= (λ name, (service_refs name).*2))).
Definition providers : gset string := set_map sr_Provider external_refs.

Lemma service_refs_declared name k ref : (k, ref) ∈ service_refs name → ref.(sr_Provider) ≠ EmptyString → declared name k ref.
Proof.
  unfold service_refs, declared. destruct (app_services app !! name) as [svc|]; [|set_solver].
  rewrite range_perm, elem_of_map_to_list. eauto.
Qed.

Lemma declared_external name k ref : declared name k ref → ref ∈ external_refs ∧ (k, ref) ∈ service_refs name ∧ name ∈ Names app.
Proof.
  intros (svc & Hs & Hr & Hp). assert ((k, ref) ∈ service_refs name) as Hin.
  { unfold service_refs. rewrite Hs, range_perm. by apply elem_of_map_to_list. }
  assert (name ∈ Names app) as Hn by by apply elem_of_Names.
  split_and!; [|done..]. unfold external_refs. apply elem_of_list_to_set, list_elem_of_filter. split; [done|].
  apply list_elem_of_bind. exists name. split; [|done]. apply list_elem_of_fmap. by exists (k, ref).
Qed.

Lemma declared_unique name k ref ref' : declared name k ref → declared name k ref' → ref = ref'.
Proof. intros (svc & Hs & Hr & _) (svc' & Hs' & Hr' & _). by simplify_eq. Qed.

Definition use := usable repo key project environment.

(** A value that was read for a reference. *)
Definition obtained (ref : SecretRef) (value : string) : Prop :=
  SecretRef_Valid ref = true ∧ ∃ p cr token, use ref.(sr_Provider) p cr ∧ has_token p cr token ∧ answers p token ref value.

(** What may be sent: the login of a provider, and the reading of a declared reference
    with the token of its own provider. *)
Definition confined (x : sent) : Prop := ∃ name cr, use name x.1 cr ∧
  (is_vault x.1 = false ∧ x.2 = login_request x.1 cr ∨
   ∃ service k ref token, declared service k ref ∧ ref.(sr_Provider) = name ∧ SecretRef_Valid ref = true ∧
     has_token x.1 cr token ∧ x.2 = read_request x.1 token ref).

Definition log_ok (n : nat) (log : list sent) : Prop := Forall confined log ∧ (length log <= n)%nat.
Definition in_bounds (log : list sent) : Prop := log_ok (size external_refs + size providers) log.

Record inv (handled : list (string * string * SecretRef)) (s : snapshot) (log : list sent) : Prop := {
  inv_clients : ∀ n c, s.(s_clients) !! n = Some c → ∃ p cr token, use n p cr ∧ c = mkClient p token ∧ has_token p cr token;
  inv_names : dom s.(s_clients) ⊆ providers;
  inv_cache : ∀ ref v, s.(s_cache) !! ref = Some v → obtained ref v;
  inv_refs : dom s.(s_cache) ⊆ external_refs;
  inv_declared : ∀ n k ref, (n, k, ref) ∈ handled → ref.(sr_Provider) ≠ EmptyString → declared n k ref;
  inv_all : ∀ n k ref, (n, k, ref) ∈ handled → ref.(sr_Provider) ≠ EmptyString →
    ∃ t v, s.(s_result) !! n = Some t ∧ t !! k = Some v ∧ obtained ref v;
  inv_only : ∀ n k t v, s.(s_result) !! n = Some t → t !! k = Some v → ∃ ref, declared n k ref ∧ obtained ref v;
  inv_bytes : snapshot_bytes s.(s_result) ≤ s.(s_total) ≤ Z.shiftl 2 20;
  inv_log : log_ok (size s.(s_clients) + size s.(s_cache)) log;
}.

Lemma inv_in_bounds handled s log : inv handled s log → in_bounds log.
Proof.
  intros I. destruct (inv_log _ _ _ I) as [Hc Hl]. split; [done|].
  pose proof (size_within _ _ (inv_names _ _ _ I)). pose proof (size_within _ _ (inv_refs _ _ _ I)). lia.
Qed.

Lemma inv_empty : inv [] no_snapshot [].
Proof.
  split; cbn [no_snapshot s_clients s_cache s_result s_total]; set_solver || done.
Qed.

Lemma triple_provider_client handled name s : name ∈ providers →
  triple (inv handled s) (provider_client repo key project environment name s)
    (λ '(c, s') log, inv handled s' log ∧ s'.(s_clients) !! name = Some c) in_bounds.
Proof.
  intros Hname. unfold provider_client. destruct (s_clients s !! name) as [c|] eqn:Hc; [by apply triple_ret|].
  destruct (repo name) as [p|] eqn:Hrepo; [|apply triple_unavailable, inv_in_bounds].
  eapply triple_bind; [apply triple_require, inv_in_bounds|]. intros []. cbn beta. apply triple_pure. intros [Hv Ha]%andb_true_iff.
  destruct (OpenCredentials key p) as [cr|] eqn:Ho; [|apply triple_unavailable, inv_in_bounds].
  destruct (newProviderClient p) as [c|] eqn:Hnew; [|apply triple_unavailable, inv_in_bounds].
  assert (c = mkClient p EmptyString) as -> by (unfold newProviderClient in Hnew; repeat case_match; by simplify_eq).
  set (s1 c := mkSnapshot (<[name:=c]> (s_clients s)) (s_cache s) (s_result s) (s_total s)).
  assert (use name p cr) as Huse by done.
  eapply triple_bind.
  - eapply (triple_within _ _ _ (λ c log, inv handled (s1 c) log)); [apply (triple_authenticate p cr _
      (λ log, log_ok (S (size (s_clients s)) + size (s_cache s)) log ∧ ∃ log0, inv handled s log0))| |].
    + intros log I. destruct (inv_log _ _ _ I) as [Hf Hl]. split; [split; [done|lia]|by exists log].
    + intros log I Hk. destruct (inv_log _ _ _ I) as [Hf Hl]. split; [split|by exists log].
      * apply Forall_app. split; [done|]. constructor; [|done]. exists name, cr. auto.
      * rewrite length_app. simpl. lia.
    + intros c log ([Hlog (log0 & I)] & token & -> & Ht). destruct I. split; cbn [s1 s_clients s_cache s_result s_total]; try done.
      * intros n c. rewrite lookup_insert_Some. intros [[<- <-]|[_ Hn]]; [by exists p, cr, token|by apply inv_clients0].
      * set_solver.
      * rewrite map_size_insert_None; done.
    + intros log ([Hf Hl] & log0 & I). split; [done|].
      pose proof (size_room _ _ name (inv_names _ _ _ I) Hname Hc). pose proof (size_within _ _ (inv_refs _ _ _ I)). lia.
  - intros c. cbn beta. apply triple_ret. intros log I. split; [exact I|]. apply lookup_insert_eq.
Qed.

Lemma valid_ref_path ref : SecretRef_Valid ref = true → ref.(sr_Provider) ≠ EmptyString → ValidSecretPath ref.(sr_Path) = true.
Proof.
  unfold SecretRef_Valid. intros Hv Hp. destruct (is_empty (sr_Ref ref)); cbn [negb] in Hv; rewrite !andb_true_iff in Hv.
  - tauto.
  - destruct Hv as (((_ & He%is_empty_true) & _) & _). done.
Qed.

Lemma valid_root p : is_ok (Validate p) = true → ValidSecretPath p.(p_RootPath) = true.
Proof.
  unfold is_ok. destruct (Validate p) as [[]|] eqn:Hv; [|done]. intros _. unfold Validate in Hv. inv_ok. split_orb.
  done.
Qed.

Lemma triple_cached_value handled service k ref c s : declared service k ref → SecretRef_Valid ref = true →
  s.(s_clients) !! ref.(sr_Provider) = Some c →
  triple (inv handled s) (cached_value c ref s) (λ '(v, s') log, inv handled s' log ∧ obtained ref v) in_bounds.
Proof.
  intros Hdecl Hvalid Hclient. destruct (declared_external _ _ _ Hdecl) as (Hext & _ & _).
  unfold cached_value. destruct (s_cache s !! ref) as [v|] eqn:Hc.
  { apply triple_ret. intros log I. split; [done|]. by apply (inv_cache _ _ _ I). }
  intros log I. pose proof (inv_clients _ _ _ I _ _ Hclient) as (p & cr & token & Huse & -> & Ht).
  destruct (inv_log _ _ _ I) as [Hf Hl].
  assert (ValidSecretPath (p_RootPath p) = true) as Hroot by (apply valid_root; by destruct Huse as (_ & ? & _)).
  assert (sr_Provider ref ≠ EmptyString) as Hprov by by destruct Hdecl as (_ & _ & _ & ?).
  set (s1 v := mkSnapshot (s_clients s) (<[ref:=v]> (s_cache s)) (s_result s) (s_total s)).
  revert log I Hf Hl. enough (triple (λ log, inv handled s log ∧ log_ok (size (s_clients s) + size (s_cache s)) log)
    (v ← read (mkClient p token) (sr_Path ref) (sr_Key ref); eff_ret _ (v, s1 v))
    (λ '(v, s') log, inv handled s' log ∧ obtained ref v) in_bounds) as Htr by (intros log I Hf Hl; by apply Htr).
  eapply triple_bind.
  - eapply (triple_within _ _ _ (λ v log, inv handled (s1 v) log ∧ obtained ref v)); [apply (triple_read p token ref _
      (λ log, log_ok (size (s_clients s) + S (size (s_cache s))) log ∧ ∃ log0, inv handled s log0))| |];
      [done|by apply valid_ref_path|..].
    + intros log [I [Hf Hl]]. split; [split; [done|lia]|by exists log].
    + intros log [I [Hf Hl]]. split; [split|by exists log].
      * apply Forall_app. split; [done|]. constructor; [|done]. exists (sr_Provider ref), cr. split; [done|]. right.
        by exists service, k, ref, token.
      * rewrite length_app. simpl. lia.
    + intros v log ([Hlog (log0 & I)] & Hans).
      assert (obtained ref v) as Hob by (split; [done|]; by exists p, cr, token).
      destruct I. split; [|done]. split; cbn [s1 s_clients s_cache s_result s_total]; [..|]; try done.
      * intros r w. rewrite lookup_insert_Some. intros [[<- <-]|[_ Hn]]; [done|by apply inv_cache0].
      * set_solver.
      * rewrite map_size_insert_None; done.
    + intros log ([Hf Hl] & log0 & I). split; [done|].
      pose proof (size_room _ _ ref (inv_refs _ _ _ I) Hext Hc). pose proof (size_within _ _ (inv_names _ _ _ I)). lia.
  - intros v. cbn beta. by apply triple_ret.
Qed.

(** One more reference is handled. *)
Lemma inv_store handled name k ref v s log : declared name k ref → obtained ref v → inv handled s log →
  s.(s_total) + (len v + len k) ≤ Z.shiftl 2 20 →
  inv (handled ++ [(name, k, ref)])
    (mkSnapshot s.(s_clients) s.(s_cache) (<[ name := <[ k := v ]> (default ∅ (s.(s_result) !! name)) ]> s.(s_result))
       (s.(s_total) + (len v + len k))) log.
Proof.
  intros Hdecl Hob I Htotal. destruct I. split; cbn [s_clients s_cache s_result s_total]; try done.
  - intros n k' ref' [Hin|Hin%list_elem_of_singleton]%elem_of_app Hp; [by apply inv_declared0|by simplify_eq].
  - intros n k' ref' Hin Hp. destruct (decide (n = name)) as [->|Hn].
    + rewrite lookup_insert_eq. exists (<[ k := v ]> (default ∅ (s_result s !! name))). destruct (decide (k' = k)) as [->|Hk].
      * exists v. rewrite lookup_insert_eq. split_and!; [done..|]. apply elem_of_app in Hin as [Hin|Hin].
        -- by rewrite (declared_unique _ _ _ _ (inv_declared0 _ _ _ Hin Hp) Hdecl).
        -- apply list_elem_of_singleton in Hin. by simplify_eq.
      * apply elem_of_app in Hin as [Hin|Hin%list_elem_of_singleton]; [|by simplify_eq].
        destruct (inv_all0 _ _ _ Hin Hp) as (t & w & Ht & Hw & Ho). exists w. split_and!; [reflexivity|rewrite lookup_insert_ne by done; by rewrite Ht|done].
    + rewrite lookup_insert_ne by done. apply elem_of_app in Hin as [Hin|Hin%list_elem_of_singleton]; [by apply inv_all0|by simplify_eq].
  - intros n k' t w. rewrite lookup_insert_Some. intros [[<- <-]|[_ Ht]]; [|by apply inv_only0].
    rewrite lookup_insert_Some. intros [[<- <-]|[_ Hw]]; [by exists ref|].
    destruct (s_result s !! name) as [t|] eqn:Ht; [|done]. by apply (inv_only0 _ _ t).
  - pose proof (snapshot_bytes_insert (s_result s) name k v). split; [lia|done].
Qed.
Lemma inv_skip handled name k ref s log : ref.(sr_Provider) = EmptyString → inv handled s log → inv (handled ++ [(name, k, ref)]) s log.
Proof.
  intros Hp I. destruct I. split; try done; intros n k' ref' [Hin|Hin%list_elem_of_singleton]%elem_of_app Hr; eauto; by simplify_eq.
Qed.

Lemma triple_resolve_ref handled name k ref s : (k, ref) ∈ service_refs name →
  triple (inv handled s) (resolve_ref repo key project environment name s (k, ref)) (inv (handled ++ [(name, k, ref)])) in_bounds.
Proof.
  intros Hin. unfold resolve_ref. destruct (is_empty (sr_Provider ref)) eqn:Hp.
  { apply triple_ret. intros log. apply inv_skip. by apply is_empty_true. }
  pose proof Hp as Hne%is_empty_false. pose proof (service_refs_declared _ _ _ Hin Hne) as Hdecl.
  destruct (declared_external _ _ _ Hdecl) as (Hext & _ & _).
  eapply triple_bind; [apply triple_require, inv_in_bounds|]. intros []. cbn beta. apply triple_pure. intros Hvalid.
  eapply triple_bind; [apply triple_provider_client; by apply elem_of_map_2|]. intros [c s1]. cbn beta iota. apply triple_pure. intros Hc.
  eapply triple_bind; [by eapply triple_cached_value|]. intros [v s2]. cbn beta iota. apply triple_pure. intros Hob.
  cbv zeta. eapply triple_bind; [apply triple_require, inv_in_bounds|]. intros []. cbn beta. apply triple_pure. intros Ht%Z.leb_le.
  apply triple_ret. intros log I. by apply inv_store.
Qed.

Definition entries (name : string) : list (string * string * SecretRef) := (λ kv, (name, kv.1, kv.2)) <$> service_refs name.

Lemma triple_resolve_service handled name s :
  triple (inv handled s) (resolve_service repo key project environment app s name) (inv (handled ++ entries name)) in_bounds.
Proof.
  unfold resolve_service, entries. pose proof (triple_resolve_ref) as Hstep. unfold service_refs in *.
  destruct (app_services app !! name) as [svc|] eqn:Hsvc; [|apply triple_ret; intros log; by rewrite app_nil_r].
  set (l := range _). pose proof (triple_foldE (resolve_ref repo key project environment name)
    (λ pre s log, inv (handled ++ ((λ kv, (name, kv.1, kv.2)) <$> pre)) s log) (only in_bounds) l [] s) as Hfold.
  cbn [fmap list_fmap] in Hfold. rewrite app_nil_r in Hfold. rewrite ?app_nil_l in Hfold. apply Hfold.
  intros pre [k ref] post s' Hl. rewrite fmap_app, app_assoc. cbn [fmap list_fmap fst snd]. apply Hstep.
  rewrite Hsvc. fold l. rewrite Hl. set_solver.
Qed.

Lemma triple_Resolve slot : triple (λ log, log = []) (Resolve repo key project environment slot app)
  (λ result log, ∃ s, inv (Names app ≫= entries) s log ∧ result = s.(s_result)) in_bounds.
Proof.
  unfold Resolve. eapply triple_bind.
  { apply triple_require. intros log ->. apply (inv_in_bounds [] no_snapshot), inv_empty. }
  intros []. cbn beta. apply triple_pure. intros _. eapply triple_bind.
  - apply (triple_pre (inv ([] ≫= entries) no_snapshot)); [intros log ->; exact inv_empty|].
    apply (triple_foldE (resolve_service repo key project environment app) (λ pre s log, inv (pre ≫= entries) s log) (only in_bounds) (Names app) []).
    intros pre name post s Hl. rewrite bind_app. cbn [mbind list_bind]. rewrite app_nil_r. apply triple_resolve_service.
  - intros s. cbn beta. apply triple_ret. intros log I. by exists s.
Qed.

(** C25: Whatever the providers answer, every request that is sent is the login of a
    provider that is valid, admits this project and environment and whose credentials
    open under their own name and kind, or the reading of a reference the application
    declares, below the root path of its own provider and with the token of that
    provider; there is at most one request for each distinct reference and one for each
    provider, and the only error is the fixed one. *)
Theorem Resolve_confined slot r log : Resolve repo key project environment slot app [] = (r, log) →
  Forall confined log ∧ (length log <= size external_refs + size providers)%nat ∧ ∀ e, r = Err e → e = ErrUnavailable.
Proof.
  intros Hr. pose proof (triple_Resolve slot [] eq_refl) as Ht. rewrite Hr in Ht. destruct r as [m|e].
  - destruct Ht as (s & I & _). apply inv_in_bounds in I as [Hc Hl]. split_and!; done.
  - destruct Ht as (-> & Hc & Hl). split_and!; [done..|]. by intros e [= <-].
Qed.

(** C32: A snapshot holds a value for exactly the external references of the services,
    each the value its provider gave for it, in at most 2 MiB of keys and values. *)
Theorem Resolve_exact slot m log : Resolve repo key project environment slot app [] = (Ok m, log) →
  (∀ name k ref, declared name k ref → ∃ t v, m !! name = Some t ∧ t !! k = Some v ∧ obtained ref v) ∧
  (∀ name k t v, m !! name = Some t → t !! k = Some v → ∃ ref, declared name k ref ∧ obtained ref v) ∧
  snapshot_bytes m ≤ Z.shiftl 2 20.
Proof.
  intros Hr. pose proof (triple_Resolve slot [] eq_refl) as Ht. rewrite Hr in Ht. destruct Ht as (s & I & ->).
  destruct I. split_and!; [|done|lia]. intros name k ref Hdecl.
  destruct (declared_external _ _ _ Hdecl) as (_ & Hin & Hname). apply (inv_all0 name k ref).
  - apply list_elem_of_bind. exists name. split; [|done]. unfold entries. apply list_elem_of_fmap. by exists (k, ref).
  - by destruct Hdecl as (_ & _ & _ & ?).
Qed.
End resolve.

(** * Sealed credentials *)

Lemma name_no_colon name : full_match namePattern name = true → no_sep ":" name.
Proof.
  intros Hm%full_match_spec. assert (all_bytes name_char name = true) as Hall by (apply (matches_bytes _ namePattern); [vm_compute; reflexivity|done]).
  clear Hm. unfold no_sep. induction name as [|c name IH]; [done|]. cbn [all_bytes has_byte] in *.
  apply andb_true_iff in Hall as [Hc Hall]. rewrite IH by done. destruct (Ascii.eqb_spec c ":") as [->|]; done.
Qed.

Lemma valid_kind p : Validate p = Ok tt → full_match namePattern p.(p_Name) = true.
Proof. unfold Validate. intros Hv. inv_ok. split_orb. done. Qed.

Lemma credential_data_inj p q : full_match namePattern p.(p_Name) = true → full_match namePattern q.(p_Name) = true →
  credential_data p = credential_data q → p.(p_Name) = q.(p_Name) ∧ p.(p_Kind) = q.(p_Kind).
Proof.
  intros Hp%name_no_colon Hq%name_no_colon. unfold credential_data. intros Heq.
  apply (f_equal (drop_string (String.length "hakopod-secret-provider-v1:"))) in Heq. rewrite !drop_string_app in Heq.
  apply (f_equal (λ s, Cut s ":")) in Heq. change (":" +:+ ?k) with (String ":" k) in Heq.
  rewrite !Cut_app in Heq by done. by simplify_eq.
Qed.

(** Under an authenticated cipher, what SealCredentials returns for a provider opens,
    as the same credentials, under a valid provider with the same name and kind, and
    under no other. *)
Theorem sealed_credentials_bound `{!CipherLaws Ci} key nonce p q c sealed :
  unjson_Credentials (json_Credentials c) = Some c → len nonce = nonce_size →
  Validate p = Ok tt → Validate q = Ok tt →
  SealCredentials (Some nonce) key p c = Ok sealed → q.(p_EncryptedCredentials) = sealed →
  OpenCredentials key q = if decide (p.(p_Name) = q.(p_Name) ∧ p.(p_Kind) = q.(p_Kind)) then Ok c else Err errEncryption.
Proof.
  intros Hjson Hnonce Hp%valid_kind Hq%valid_kind. unfold SealCredentials. intros Hseal. inv_ok. intros Henc.
  unfold OpenCredentials. rewrite Henc. replace (len key =? 32) with true by (symmetry; split_orb; done). cbn [negb orb].
  replace (len (nonce +:+ _) <? nonce_size) with false
    by (symmetry; rewrite Z.ltb_ge; unfold len in *; rewrite string_length_app; lia).
  rewrite open_sealed_seal by done. destruct (decide (credential_data p = credential_data q)) as [Hd|Hd].
  - destruct (credential_data_inj p q Hp Hq Hd) as [Hn Hk]. rewrite decide_True by done. rewrite Hjson, <-Hk.
    by rewrite Hok.
  - rewrite decide_False; [done|]. intros [Hn Hk]. apply Hd. unfold credential_data. by rewrite Hn, Hk.
Qed.

(** * Private networks *)

(** A network of IPv4 addresses that Validate accepts as private holds private
    addresses only, unless it is 192.168.0.0 with a length below 16, which is accepted
    and holds public ones. *)
Theorem private_cidr_exact raw ip bits : private_cidr raw = Ok tt → ParsePrefix raw = Some (mkPrefix (Addr4 ip) bits) →
  (∀ a, Prefix_Contains (mkPrefix (Addr4 ip) bits) (Addr4 a) = true → private4 a = true) ↔ 16 ≤ bits ∨ ip ≠ 0xc0a80000.
Proof.
  unfold private_cidr. intros Hv Hp. pose proof (ParsePrefix_ok _ _ Hp) as (Ha & _ & Hb). rewrite Hp in Hv.
  cbn [addr_ok px_Addr px_Bits BitLen] in *. cbv zeta in Hv. destruct (_ || _) eqn:Hc; [done|]. clear Hv.
  split_orb. zify_bool. apply bool_decide_eq_true in H4. unfold Masked in H4. cbn [mask_to px_Addr px_Bits] in H4.
  injection H4 as Hmask. change (private4 ip = true) in H2.
  assert (∀ a, Prefix_Contains (mkPrefix (Addr4 ip) bits) (Addr4 a) = true ↔ ip / 2 ^ (32 - bits) = a / 2 ^ (32 - bits)) as Hin.
  { intros a. rewrite Prefix_Contains_spec. cbn. split; [by intros (_ & _ & _ & ?)|done]. }
  assert (∀ a k, ip / 2 ^ (32 - bits) = a / 2 ^ (32 - bits) → 0 ≤ k ≤ bits → ip / 2 ^ (32 - k) = a / 2 ^ (32 - k)) as Hcoarse.
  { intros a k Ha' Hk. apply (same_network_coarser 32 k bits); [lia..|done]. }
  unfold private4 in *. rewrite !orb_true_iff, !Z.eqb_eq in H2. setoid_rewrite Hin. split.
  - intros Hall. destruct (decide (16 ≤ bits)) as [|Hlt]; [by left|right]. intros ->.
    specialize (Hall 0xc0a90000). assert (0xc0a80000 / 2 ^ (32 - bits) = 0xc0a90000 / 2 ^ (32 - bits)) as Hsame.
    { apply (same_network_coarser 32 bits 15); [lia..|vm_compute; reflexivity]. }
    specialize (Hall Hsame). vm_compute in Hall. discriminate.
  - intros Hwide a Hsame. rewrite !orb_true_iff, !Z.eqb_eq. destruct H2 as [[H2|H2]|H2].
    + left; left. rewrite <-H2. symmetry. apply (Hcoarse a 8); [done|lia].
    + left; right. rewrite <-H2. symmetry. apply (Hcoarse a 12); [done|]. split; [lia|].
      destruct (decide (12 ≤ bits)) as [|Hlt]; [done|]. exfalso.
      replace (32 - bits) with (21 + (11 - bits)) in Hmask by lia. rewrite Z.pow_add_r in Hmask by lia. 
      set (q := ip / (2 ^ 21 * 2 ^ (11 - bits)) * 2 ^ (11 - bits)) in *. assert (ip = q * 2 * 2 ^ 20) as Hq by (rewrite Hmask at 1; unfold q; ring). clearbody q. rewrite Hq, Z.div_mul in H2 by lia. lia.
    + right. rewrite <-H2. symmetry. apply (Hcoarse a 16); [done|]. split; [lia|]. destruct Hwide as [|Hip]; [done|].
      destruct (decide (16 ≤ bits)) as [|Hlt]; [done|]. exfalso. apply Hip.
      replace (32 - bits) with (16 + (16 - bits)) in Hmask by lia. rewrite Z.pow_add_r in Hmask by lia.
      set (q := ip / (2 ^ 16 * 2 ^ (16 - bits)) * 2 ^ (16 - bits)) in *. assert (ip = q * 2 ^ 16) as Hq by (rewrite Hmask at 1; unfold q; ring). clearbody q. rewrite Hq, Z.div_mul in H2 by lia. lia.
Qed.
End spec.

(** * Witnesses *)

Module SecretExample.
Import Concrete ToyCipher.

(** A Vault server with one entry. *)
Definition vault (p : Provider) (req : http_request) : option (Z * string) :=
  if (req.(rq_URL) =? "https://vault.example.com/v1/kv/data/apps/shop/db")%string then Some (200, "s3cret") else Some (404, "").

#[export] Instance platform : SecretPlatform := {|
  cert_pool := true;
  has_certificate _ := true;
  json_Credentials c := c.(cr_Token);
  unjson_Credentials s := Some (mkCredentials s EmptyString EmptyString);
  json_login _ _ := EmptyString;
  unjson_login _ := None;
  unjson_vault data := Some (λ k, if (k =? "password")%string then Some (Some data) else None);
  unjson_infisical _ := None;
  http_Do := vault;
|}.

Definition credentials : Credentials := mkCredentials "token" EmptyString EmptyString.
Definition master : string := "01234567890123456789012345678901".
Definition provider : Provider :=
  mkProvider "main" "vault" "https://vault.example.com" "kv" "apps" EmptyString EmptyString EmptyString EmptyString []
    [mkScope "shop" ["production"]] ("nonc" +:+ gcm_Seal master "nonc" "token" "hakopod-secret-provider-v1:main:vault").
Definition repo (name : string) : result Provider := if (name =? "main")%string then Ok provider else Err (Errorf "not found" []).
Definition reference : SecretRef := mkSecretRef EmptyString "main" "shop/db" "password".
Definition shop : Application :=
  set_app_Services (Some {["web" := set_svc_Secrets {["DB_PASSWORD" := reference]} zero_Service]}) zero_Application.
Definition read_db : sent :=
  (provider, mkHTTPRequest "GET" "https://vault.example.com/v1/kv/data/apps/shop/db" [("Accept", "application/json"); ("X-Vault-Token", "token")] EmptyString).

Lemma resolved_shop : Resolve repo master "shop" "production" true shop [] = (Ok {["web" := {["DB_PASSWORD" := "s3cret"]}]}, [read_db]).
Proof. vm_compute. reflexivity. Qed.

End SecretExample.

Import Concrete ToyCipher SecretExample.

Lemma Resolve_confined_witness : ∃ r log, Resolve SecretExample.repo master "shop" "production" true shop [] = (r, log) ∧
  Forall (confined SecretExample.repo master "shop" "production" shop) log ∧ log = [read_db].
Proof.
  destruct (Resolve_confined SecretExample.repo master "shop" "production" shop true _ _ resolved_shop) as (Hc & _ & _).
  exists (Ok {["web" := {["DB_PASSWORD" := "s3cret"]}]}), [read_db]. split; [exact resolved_shop|]. split; [exact Hc|reflexivity].
Defined.

Lemma Resolve_exact_witness : snapshot_bytes {["web" := {["DB_PASSWORD" := "s3cret"]}]} ≤ Z.shiftl 2 20 ∧
  ∃ ref, declared shop "web" "DB_PASSWORD" ref ∧ obtained SecretExample.repo master "shop" "production" ref "s3cret".
Proof.
  destruct (Resolve_exact SecretExample.repo master "shop" "production" shop true _ _ resolved_shop) as (_ & Honly & Hbytes).
  split; [exact Hbytes|]. apply (Honly "web" "DB_PASSWORD" {["DB_PASSWORD" := "s3cret"]} "s3cret"); vm_compute; reflexivity.
Defined.

Lemma sealed_credentials_bound_witness : OpenCredentials master provider = Ok credentials.
Proof.
  pose proof (sealed_credentials_bound master "nonc" provider provider credentials _ eq_refl eq_refl
    ltac:(vm_compute; reflexivity) ltac:(vm_compute; reflexivity) ltac:(vm_compute; reflexivity) ltac:(vm_compute; reflexivity)) as Ho.
  rewrite Ho. apply decide_True. split; reflexivity.
Defined.

Lemma private_cidr_exact_witness : private_cidr "192.168.0.0/13" = Ok tt ∧
  ¬ (∀ a, Prefix_Contains (mkPrefix (Addr4 0xc0a80000) 13) (Addr4 a) = true → private4 a = true).
Proof.
  split; [vm_compute; reflexivity|]. intros Hall.
  apply (private_cidr_exact "192.168.0.0/13" 0xc0a80000 13) in Hall; [destruct Hall as [Hb|Hb]; [|by apply Hb]; by apply Hb|vm_compute; reflexivity..].
Defined.
