(* ===== verification/ExternalDatabase.v ===== *)
(** Connections to databases a provider owns (internal/externaldatabase): their
    validation, the sealing of their credentials to one connection and endpoint, and
    when an observation of them counts. How JSON is decoded is a class. *)
From S2P Require Import Prelude GoStd Paths GoNet Regex Text SpecChecks Decimal AccessCanonical Cipher Escapes.
#[global] Open Scope Z_scope.

Definition ErrUnavailable : error :=
  Errorf "external database connection could not be verified; check the endpoint, credentials, provider access rules and TLS trust" [].

Record Spec : Type := mkSpec {
  s_SchemaVersion : Z;
  s_Name : string;
  s_Provider : string;
  s_Engine : string;
  s_Host : string;
  s_Port : Z;
  s_Database : string;
}.

Record Credentials : Type := mkCredentials { c_Username : string; c_Password : string }.

(** [label[0] == '-' || label[len(label)-1] == '-'] of a label that is not empty. *)
Definition hyphen_ends (label : string) : bool := HasPrefix label "-" || HasSuffix label "-".

Definition label_rune (c : Z) : bool := ((97 <=? c) && (c <=? 122)) || ((48 <=? c) && (c <=? 57)) || (c =? 45).

Definition valid_label (label : string) : result unit :=
  _ ← fail_when ((len label =? 0) || (len label >? 63) || hyphen_ends label) (Errorf "provider hostname is invalid" []);
  iterM (λ c, fail_when (negb (label_rune c)) (Errorf "provider hostname is invalid" [])) (runes label).

Definition NUL_CR_LF : string := String "000" (String "013" (String "010" EmptyString)).

Definition Validate (s : Spec) : result unit :=
  _ ← fail_when (negb (s.(s_SchemaVersion) =? 1) || negb (full_match namePattern s.(s_Name)))
        (Errorf "use schema_version 1 and a name containing 1–40 lowercase letters, digits or hyphens" []);
  _ ← fail_when (negb (s.(s_Provider) =? "planetscale")%string ||
                 (negb (s.(s_Engine) =? "mysql")%string && negb (s.(s_Engine) =? "postgresql")%string))
        (Errorf "choose a PlanetScale MySQL or PostgreSQL connection" []);
  _ ← fail_when ((len s.(s_Host) >? 253) || negb (s.(s_Host) =? ToLower s.(s_Host))%string || HasSuffix s.(s_Host) "." ||
                 negb (HasSuffix s.(s_Host) ".psdb.cloud" || HasSuffix s.(s_Host) ".psdb.io"))
        (Errorf "use the provider-issued psdb.cloud or psdb.io hostname" []);
  _ ← iterM valid_label (Split s.(s_Host) ".");
  _ ← fail_when ((s.(s_Engine) =? "mysql")%string && negb (s.(s_Port) =? 3306) ||
                 (s.(s_Engine) =? "postgresql")%string && negb (s.(s_Port) =? 5432) && negb (s.(s_Port) =? 6432))
        (Errorf "use MySQL port 3306 or PostgreSQL port 5432 or 6432" []);
  _ ← fail_when ((len s.(s_Database) =? 0) || (len s.(s_Database) >? 64) || ContainsAny s.(s_Database) ("/\?#" +:+ NUL_CR_LF))
        (Errorf "provide a database name containing 1–64 characters without URL separators" []);
  Ok tt.

Definition SameEndpoint (s other : Spec) : bool :=
  (s.(s_Provider) =? other.(s_Provider))%string && (s.(s_Engine) =? other.(s_Engine))%string && (s.(s_Host) =? other.(s_Host))%string &&
  (s.(s_Port) =? other.(s_Port)) && (s.(s_Database) =? other.(s_Database))%string.

Definition Credentials_Validate (c : Credentials) : result unit :=
  if (len c.(c_Username) =? 0) || (len c.(c_Username) >? 256) || ContainsAny c.(c_Username) NUL_CR_LF ||
     (len c.(c_Password) =? 0) || (len c.(c_Password) >? 4096) || ContainsAny c.(c_Password) NUL_CR_LF
  then Err (Errorf "provide a username of at most 256 characters and a password of at most 4096 characters" [])
  else Ok tt.

Definition credentialAAD (id : string) (s : Spec) : string :=
  "hakopod-external-database-v1:" +:+ id +:+ ":" +:+ s.(s_Provider) +:+ ":" +:+ s.(s_Engine) +:+ ":" +:+
  JoinHostPort s.(s_Host) (Itoa s.(s_Port)) +:+ ":" +:+ s.(s_Database).

(** [json.Marshal(c)] *)
Definition json_Credentials (c : Credentials) : string :=
  "{" +:+ json_string "username" +:+ ":" +:+ json_string c.(c_Username) +:+ "," +:+ json_string "password" +:+ ":" +:+ json_string c.(c_Password) +:+ "}".

(** [json.Unmarshal(plain, &c)] *)
Class CredentialCodec := unjson_Credentials : string → option Credentials.

Section sealing.
Context `{Ci : Cipher} `{CredentialCodec}.

Definition SealCredentials (nonce : option string) (key id : string) (s : Spec) (c : Credentials) : result string :=
  if negb (len key =? 32) || negb (full_match identityPattern id) || negb (is_ok (Validate s)) || negb (is_ok (Credentials_Validate c))
  then Err ErrUnavailable
  else match nonce with
  | None => Err ErrUnavailable
  | Some nonce => Ok (nonce +:+ gcm_Seal key nonce (json_Credentials c) (credentialAAD id s))
  end.

(** Of a resource: its identifier, its specification and its sealed credentials. *)
Definition OpenCredentials (key id : string) (s : Spec) (sealed : string) : result Credentials :=
  if negb (len key =? 32) || negb (full_match identityPattern id) then Err ErrUnavailable
  else if (len sealed <? nonce_size + overhead) || (len sealed >? 8192) then Err ErrUnavailable
  else
    match open_sealed key sealed (credentialAAD id s) with
    | None => Err ErrUnavailable
    | Some plain =>
        match unjson_Credentials plain with
        | None => Err ErrUnavailable
        | Some c => if is_ok (Credentials_Validate c) then Ok c else Err ErrUnavailable
        end
    end.
End sealing.

(** * Observations *)

Record Observation : Type := mkObservation {
  o_ObservedAt : Z;                  (* nanoseconds *)
  o_Revision : Z;
  o_Status : string;
  o_TLSVerified : bool;
  o_QueryVerified : bool;
}.

Definition second : Z := 1000000000.
Definition ObservationMaxAge : Z := 2 * 60 * second.

(** [r.Verified(now)]: [deleted] when [r.DeletedAt] is set. *)
Definition Verified (deleted : bool) (status : string) (revision : Z) (o : Observation) (now : Z) : bool :=
  negb deleted && (status =? "ready")%string && (o.(o_Status) =? "ready")%string && (o.(o_Revision) =? revision) &&
  o.(o_TLSVerified) && o.(o_QueryVerified) && negb (o.(o_ObservedAt) >? now + 5 * second) &&
  (now - o.(o_ObservedAt) <=? ObservationMaxAge).

(** * What sealing promises *)

(** The bytes of a label are those its runes may be. *)
Lemma label_bytes s c : Forall (λ r, label_rune r = true) (runes s) → has_byte c s = true → label_rune (byte_of c) = true.
Proof.
  rewrite <-(encode_decode s) at 2. unfold runes, encode_runes. pose proof (decode_ascii s) as Ha. revert Ha.
  induction (decode s) as [|[r bs] l IH]; [done|]. intros [Hx Ha]%Forall_cons. cbn [fmap list_fmap fst snd].
  intros [Hr Hl]%Forall_cons. rewrite concat_cons, has_byte_app. intros [Hc|Hc]%orb_true_iff; [|by apply IH].
  destruct Hx as (d & Hd & Hb); cbn [fst snd] in *.
  { unfold label_rune in Hr. lia. }
  subst bs. cbn [has_byte] in Hc. rewrite orb_false_r in Hc. apply Ascii.eqb_eq in Hc as ->. by rewrite Hb.
Qed.

Lemma valid_label_bytes label c : valid_label label = Ok tt → has_byte c label = true → label_rune (byte_of c) = true.
Proof.
  unfold valid_label. intros Hl. apply bind_unit_Ok in Hl as [_ Hl]. rewrite iterM_Ok in Hl. apply label_bytes.
  eapply Forall_impl; [exact Hl|]. intros r. cbn beta. rewrite fail_when_Ok. apply negb_false_iff.
Qed.

(** What the text of a valid endpoint is made of: a host without a colon, a known
    engine and a port number. *)
Lemma valid_endpoint s : Validate s = Ok tt → no_sep ":" s.(s_Host) ∧ s.(s_Provider) = "planetscale" ∧
  no_sep ":" s.(s_Engine) ∧ 0 ≤ s.(s_Port) < 65536.
Proof.
  unfold Validate. intros Hv. inv_ok. split_orb. split; [|split; [|split]].
  - rewrite <-(Join_Split (s_Host s) "."). apply no_sep_Join; [done|].
    match goal with Hi : iterM valid_label _ = Ok _ |- _ => rewrite iterM_Ok in Hi; rename Hi into Hlabels end.
    eapply Forall_impl; [exact Hlabels|]. intros label Hl. unfold no_sep. apply not_true_iff_false. intros Hc.
    by apply (valid_label_bytes _ _ Hl) in Hc.
  - by apply String.eqb_eq.
  - destruct (s_Engine s =? "mysql")%string eqn:Hm; [apply String.eqb_eq in Hm as ->; done|].
    destruct (s_Engine s =? "postgresql")%string eqn:Hp; [apply String.eqb_eq in Hp as ->; done|done].
  - destruct (s_Engine s =? "mysql")%string eqn:Hm; cbn in *; zify_bool; [lia|].
    destruct (s_Engine s =? "postgresql")%string eqn:Hp; [|done]. cbn in *.
    destruct (s_Port s =? 5432) eqn:?; zify_bool; [lia|]. cbn in *. zify_bool. lia.
Qed.

Lemma hex_id_no_colon id : full_match identityPattern id = true → no_sep ":" id.
Proof.
  intros Hm%full_match_spec. assert (all_bytes hex_char id = true) as Hall by (apply (matches_bytes _ identityPattern); [vm_compute; reflexivity|done]).
  clear Hm. unfold no_sep. induction id as [|c id IH]; [done|]. cbn [all_bytes has_byte] in *.
  apply andb_true_iff in Hall as [Hc Hall]. rewrite IH by done. destruct (Ascii.eqb_spec c ":") as [->|]; done.
Qed.

(** The parts of a text joined by colons, none of which has one, but the last. *)
Lemma colon_parts a a' b b' : no_sep ":" a → no_sep ":" a' → a +:+ ":" +:+ b = a' +:+ ":" +:+ b' → a = a' ∧ b = b'.
Proof.
  intros Ha Ha' Heq. apply (f_equal (λ s, Cut s ":")) in Heq. change (":" +:+ ?k) with (String ":" k) in Heq.
  rewrite !Cut_app in Heq by done. by simplify_eq.
Qed.

Lemma credentialAAD_injective id id' s s' :
  full_match identityPattern id = true → full_match identityPattern id' = true → Validate s = Ok tt → Validate s' = Ok tt →
  credentialAAD id s = credentialAAD id' s' ↔ id = id' ∧ SameEndpoint s s' = true.
Proof.
  intros Hi%hex_id_no_colon Hi'%hex_id_no_colon (Hh & Hp & He & Hb)%valid_endpoint (Hh' & Hp' & He' & Hb')%valid_endpoint.
  unfold SameEndpoint. rewrite !andb_true_iff, !String.eqb_eq, Z.eqb_eq. unfold credentialAAD, JoinHostPort.
  unfold no_sep in Hh, Hh'. rewrite Hh, Hh', Hp, Hp'. split.
  - intros Heq. apply (f_equal (drop_string (String.length "hakopod-external-database-v1:"))) in Heq. rewrite !drop_string_app in Heq.
    apply colon_parts in Heq as [-> Heq]; [|done..].
    apply (colon_parts "planetscale" "planetscale") in Heq as [_ Heq]; [|done..].
    apply colon_parts in Heq as [-> Heq]; [|done..]. rewrite <-!string_app_assoc in Heq.
    apply colon_parts in Heq as [-> Heq]; [|done..].
    apply colon_parts in Heq as [Hport ->]; [|by apply Itoa_no_sep..]. split_and!; try done.
    apply (f_equal Atoi) in Hport. rewrite !Atoi_Itoa in Hport by (unfold min_int64, max_int64; lia). by simplify_eq.
  - by intros (-> & (((_ & ->) & ->) & ->) & ->).
Qed.

Section sealed.
Context `{Ci : Cipher} `{CredentialCodec}.

(** The least length of what is sealed. *)
Lemma sealed_length `{!CipherLaws Ci} key nonce m d : len nonce = nonce_size → nonce_size + len m + overhead ≤ len (nonce +:+ gcm_Seal key nonce m d).
Proof. intros Hn. pose proof (gcm_expands key nonce m d). unfold len in *. rewrite string_length_app. lia. Qed.

(** C34: Credentials sealed for a connection open, as they were, exactly when the connection
    is the same, its endpoint is, and what was sealed is within 8192 bytes; so an edit of
    the host, port, engine or database makes them useless, and so does moving them to
    another connection. *)
Theorem sealed_for_endpoint `{!CipherLaws Ci} key nonce id id' s s' c sealed :
  unjson_Credentials (json_Credentials c) = Some c → len nonce = nonce_size →
  full_match identityPattern id' = true → Validate s' = Ok tt →
  SealCredentials (Some nonce) key id s c = Ok sealed →
  OpenCredentials key id' s' sealed =
    if decide (id = id' ∧ SameEndpoint s s' = true ∧ len sealed ≤ 8192) then Ok c else Err ErrUnavailable.
Proof.
  intros Hjson Hnonce Hid' Hs'. unfold SealCredentials.
  destruct (_ || _) eqn:Hc; [done|]. intros [= <-]. split_orb.
  assert (Validate s = Ok tt) as Hs by (unfold is_ok in *; by destruct (Validate s) as [[]|]).
  pose proof (sealed_length key nonce (json_Credentials c) (credentialAAD id s) Hnonce) as Hlen.
  pose proof (len_nonneg (json_Credentials c)) as Hj.
  unfold OpenCredentials. rewrite Hid'. replace (len key =? 32) with true by done. cbn [negb orb].
  replace (_ <? nonce_size + overhead) with false by (symmetry; rewrite Z.ltb_ge; lia). cbn [orb]. rewrite Z.gtb_ltb.
  destruct (Z.ltb_spec 8192 (len (nonce +:+ gcm_Seal key nonce (json_Credentials c) (credentialAAD id s)))) as [Hbig|Hbig].
  { rewrite decide_False; [done|]. intros (_ & _ & Hsmall). lia. }
  rewrite open_sealed_seal by done.
  destruct (decide (credentialAAD id s = credentialAAD id' s')) as [Hd|Hd].
  - apply credentialAAD_injective in Hd as [Hi He]; [|done..]. rewrite decide_True by done. rewrite Hjson. unfold is_ok in *. by destruct (Credentials_Validate c).
  - rewrite decide_False; [done|]. intros (Hi & He & _). by apply Hd, credentialAAD_injective.
Qed.

(** A password that is valid, but whose JSON is six times as long. *)
Definition escaped : Credentials := mkCredentials "user" (String.concat EmptyString (replicate 1400 "<")).

(** Sealing accepts every password within 4096 bytes, and opening refuses what was sealed
    beyond 8192: these credentials seal for every connection and open nowhere. *)
Theorem escaped_credentials_lost `{!CipherLaws Ci} key nonce id s :
  len key = 32 → full_match identityPattern id = true → Validate s = Ok tt → len nonce = nonce_size →
  Credentials_Validate escaped = Ok tt ∧
  ∃ sealed, SealCredentials (Some nonce) key id s escaped = Ok sealed ∧ ∀ key' id' s', OpenCredentials key' id' s' sealed = Err ErrUnavailable.
Proof.
  intros Hkey Hid Hs Hn. split; [vm_compute; reflexivity|]. unfold SealCredentials. rewrite Hkey, Hid, Hs.
  replace (is_ok (Credentials_Validate escaped)) with true by (vm_compute; reflexivity). cbn [Z.eqb negb orb is_ok].
  eexists. split; [reflexivity|]. intros key' id' s'. unfold OpenCredentials. destruct (_ || _); [done|].
  pose proof (sealed_length key nonce (json_Credentials escaped) (credentialAAD id s) Hn) as Hlen. pose proof (@gcm_overhead Ci _) as Ho.
  assert (8192 < len (json_Credentials escaped)) as Hbig by (vm_compute; reflexivity). pose proof (len_nonneg nonce) as Hnn.
  rewrite Z.gtb_ltb, (proj2 (Z.ltb_lt 8192 _)), orb_true_r; [done|]. lia.
Qed.
End sealed.

(** * Witness *)

Module SealingExample.
Import ToyCipher.

(** Decodes texts without escapes. *)
#[export] Instance codec : CredentialCodec := λ text,
  match Split text "034"%char with
  | ["{"; "username"; ":"; user; ","; "password"; ":"; password; "}"] => Some (mkCredentials user password)
  | _ => None
  end.

Definition key : string := "01234567890123456789012345678901".
Definition id : string := "0123456789abcdef0123456789abcdef".
Definition spec : Spec := mkSpec 1 "orders" "planetscale" "mysql" "aws.connect.psdb.cloud" 3306 "orders".
Definition moved : Spec := mkSpec 1 "orders" "planetscale" "mysql" "gcp.connect.psdb.cloud" 3306 "orders".
Definition credentials : Credentials := mkCredentials "user" "password".
Definition sealed : string := match SealCredentials (Some "nonc") key id spec credentials with Ok s => s | Err _ => EmptyString end.
End SealingExample.
Import ToyCipher SealingExample.

Lemma sealed_for_endpoint_witness :
  OpenCredentials key id spec sealed = Ok credentials ∧ OpenCredentials key id moved sealed = Err ErrUnavailable.
Proof.
  assert (∀ s, Validate s = Ok tt → OpenCredentials key id s sealed =
    if decide (id = id ∧ SameEndpoint spec s = true ∧ len sealed ≤ 8192) then Ok credentials else Err ErrUnavailable) as Ho.
  { intros s Hs. apply (sealed_for_endpoint key "nonc" id id spec s credentials sealed);
      [vm_compute; reflexivity|reflexivity|vm_compute; reflexivity|exact Hs|vm_compute; reflexivity]. }
  split; rewrite Ho by (vm_compute; reflexivity).
  - apply decide_True. split; [reflexivity|]. split; [vm_compute; reflexivity|vm_compute; discriminate].
  - apply decide_False. intros (_ & Hs & _). vm_compute in Hs. discriminate.
Defined.

Lemma escaped_credentials_lost_witness : ∃ sealed, SealCredentials (Some "nonc") key id spec escaped = Ok sealed ∧
  OpenCredentials key id spec sealed = Err ErrUnavailable.
Proof.
  destruct (escaped_credentials_lost key "nonc" id spec) as (_ & sealed & Hs & Ho); [vm_compute; reflexivity..|].
  exists sealed. split; [exact Hs|apply Ho].
Defined.
