(* ===== verification/DeploymentTables.v ===== *)
(** The tables behind the queue of deployments (internal/store: store.go, 001_initial.sql
    and the migrations that extend them): applications, deployments, the attempts to
    resume one, volume resizes and previews, and the session locks of the connections.
    Encoded JSON that is only stored and handed on is a [string]; instants are seconds. *)
From S2P Require Import Prelude GoStd SpecTypes.
#[global] Open Scope Z_scope.

Inductive Status : Type := Queued | Running | Succeeded | Failed | Cancelled | Superseded.
#[export] Instance status_eq_dec : EqDecision Status.
Proof. solve_decision. Defined.

(** [status IN ('queued','running')] *)
Definition pending (s : Status) : bool := match s with Queued | Running => true | _ => false end.
Definition status_text (s : Status) : string :=
  match s with
  | Queued => "queued" | Running => "running" | Succeeded => "succeeded" | Failed => "failed" | Cancelled => "cancelled"
  | Superseded => "superseded"
  end.

(** A row of deployments: a revision of an application on its way. *)
Record Deployment : Type := mkDeployment {
  d_ID : string;
  d_ApplicationID : string;
  d_IdentityID : string;
  d_KeyID : string;
  d_IdempotencyKey : string;
  d_RequestHash : string;
  d_Revision : Z;
  d_Status : Status;
  d_Spec : Application;
  d_ResolvedSpec : option Application;
  d_Result : string;
  d_Error : string;
  d_CancelRequested : bool;
  d_Attempts : Z;
  d_CreatedAt : Z;
  d_StartedAt : option Z;
  d_FinishedAt : option Z;
  d_RollbackRequested : bool;
  d_RecoveryState : string;
  d_RecoveryRevision : Z;
  d_RecoverySpec : option Application;
  d_RecoveryError : string;
  d_ResumeGeneration : Z;
  d_ResumeServices : list string;
  d_ResumeIdentityID : string;
  d_ResumeKeyID : string;
}.
Definition set_d_IdentityID (v : string) (x : Deployment) : Deployment :=
  mkDeployment x.(d_ID) x.(d_ApplicationID) v x.(d_KeyID) x.(d_IdempotencyKey) x.(d_RequestHash) x.(d_Revision) x.(d_Status) x.(d_Spec) x.(d_ResolvedSpec) x.(d_Result) x.(d_Error) x.(d_CancelRequested) x.(d_Attempts) x.(d_CreatedAt) x.(d_StartedAt) x.(d_FinishedAt) x.(d_RollbackRequested) x.(d_RecoveryState) x.(d_RecoveryRevision) x.(d_RecoverySpec) x.(d_RecoveryError) x.(d_ResumeGeneration) x.(d_ResumeServices) x.(d_ResumeIdentityID) x.(d_ResumeKeyID).
Definition set_d_KeyID (v : string) (x : Deployment) : Deployment :=
  mkDeployment x.(d_ID) x.(d_ApplicationID) x.(d_IdentityID) v x.(d_IdempotencyKey) x.(d_RequestHash) x.(d_Revision) x.(d_Status) x.(d_Spec) x.(d_ResolvedSpec) x.(d_Result) x.(d_Error) x.(d_CancelRequested) x.(d_Attempts) x.(d_CreatedAt) x.(d_StartedAt) x.(d_FinishedAt) x.(d_RollbackRequested) x.(d_RecoveryState) x.(d_RecoveryRevision) x.(d_RecoverySpec) x.(d_RecoveryError) x.(d_ResumeGeneration) x.(d_ResumeServices) x.(d_ResumeIdentityID) x.(d_ResumeKeyID).
Definition set_d_Status (v : Status) (x : Deployment) : Deployment :=
  mkDeployment x.(d_ID) x.(d_ApplicationID) x.(d_IdentityID) x.(d_KeyID) x.(d_IdempotencyKey) x.(d_RequestHash) x.(d_Revision) v x.(d_Spec) x.(d_ResolvedSpec) x.(d_Result) x.(d_Error) x.(d_CancelRequested) x.(d_Attempts) x.(d_CreatedAt) x.(d_StartedAt) x.(d_FinishedAt) x.(d_RollbackRequested) x.(d_RecoveryState) x.(d_RecoveryRevision) x.(d_RecoverySpec) x.(d_RecoveryError) x.(d_ResumeGeneration) x.(d_ResumeServices) x.(d_ResumeIdentityID) x.(d_ResumeKeyID).
Definition set_d_ResolvedSpec (v : option Application) (x : Deployment) : Deployment :=
  mkDeployment x.(d_ID) x.(d_ApplicationID) x.(d_IdentityID) x.(d_KeyID) x.(d_IdempotencyKey) x.(d_RequestHash) x.(d_Revision) x.(d_Status) x.(d_Spec) v x.(d_Result) x.(d_Error) x.(d_CancelRequested) x.(d_Attempts) x.(d_CreatedAt) x.(d_StartedAt) x.(d_FinishedAt) x.(d_RollbackRequested) x.(d_RecoveryState) x.(d_RecoveryRevision) x.(d_RecoverySpec) x.(d_RecoveryError) x.(d_ResumeGeneration) x.(d_ResumeServices) x.(d_ResumeIdentityID) x.(d_ResumeKeyID).
Definition set_d_Result (v : string) (x : Deployment) : Deployment :=
  mkDeployment x.(d_ID) x.(d_ApplicationID) x.(d_IdentityID) x.(d_KeyID) x.(d_IdempotencyKey) x.(d_RequestHash) x.(d_Revision) x.(d_Status) x.(d_Spec) x.(d_ResolvedSpec) v x.(d_Error) x.(d_CancelRequested) x.(d_Attempts) x.(d_CreatedAt) x.(d_StartedAt) x.(d_FinishedAt) x.(d_RollbackRequested) x.(d_RecoveryState) x.(d_RecoveryRevision) x.(d_RecoverySpec) x.(d_RecoveryError) x.(d_ResumeGeneration) x.(d_ResumeServices) x.(d_ResumeIdentityID) x.(d_ResumeKeyID).
Definition set_d_Error (v : string) (x : Deployment) : Deployment :=
  mkDeployment x.(d_ID) x.(d_ApplicationID) x.(d_IdentityID) x.(d_KeyID) x.(d_IdempotencyKey) x.(d_RequestHash) x.(d_Revision) x.(d_Status) x.(d_Spec) x.(d_ResolvedSpec) x.(d_Result) v x.(d_CancelRequested) x.(d_Attempts) x.(d_CreatedAt) x.(d_StartedAt) x.(d_FinishedAt) x.(d_RollbackRequested) x.(d_RecoveryState) x.(d_RecoveryRevision) x.(d_RecoverySpec) x.(d_RecoveryError) x.(d_ResumeGeneration) x.(d_ResumeServices) x.(d_ResumeIdentityID) x.(d_ResumeKeyID).
Definition set_d_CancelRequested (v : bool) (x : Deployment) : Deployment :=
  mkDeployment x.(d_ID) x.(d_ApplicationID) x.(d_IdentityID) x.(d_KeyID) x.(d_IdempotencyKey) x.(d_RequestHash) x.(d_Revision) x.(d_Status) x.(d_Spec) x.(d_ResolvedSpec) x.(d_Result) x.(d_Error) v x.(d_Attempts) x.(d_CreatedAt) x.(d_StartedAt) x.(d_FinishedAt) x.(d_RollbackRequested) x.(d_RecoveryState) x.(d_RecoveryRevision) x.(d_RecoverySpec) x.(d_RecoveryError) x.(d_ResumeGeneration) x.(d_ResumeServices) x.(d_ResumeIdentityID) x.(d_ResumeKeyID).
Definition set_d_Attempts (v : Z) (x : Deployment) : Deployment :=
  mkDeployment x.(d_ID) x.(d_ApplicationID) x.(d_IdentityID) x.(d_KeyID) x.(d_IdempotencyKey) x.(d_RequestHash) x.(d_Revision) x.(d_Status) x.(d_Spec) x.(d_ResolvedSpec) x.(d_Result) x.(d_Error) x.(d_CancelRequested) v x.(d_CreatedAt) x.(d_StartedAt) x.(d_FinishedAt) x.(d_RollbackRequested) x.(d_RecoveryState) x.(d_RecoveryRevision) x.(d_RecoverySpec) x.(d_RecoveryError) x.(d_ResumeGeneration) x.(d_ResumeServices) x.(d_ResumeIdentityID) x.(d_ResumeKeyID).
Definition set_d_StartedAt (v : option Z) (x : Deployment) : Deployment :=
  mkDeployment x.(d_ID) x.(d_ApplicationID) x.(d_IdentityID) x.(d_KeyID) x.(d_IdempotencyKey) x.(d_RequestHash) x.(d_Revision) x.(d_Status) x.(d_Spec) x.(d_ResolvedSpec) x.(d_Result) x.(d_Error) x.(d_CancelRequested) x.(d_Attempts) x.(d_CreatedAt) v x.(d_FinishedAt) x.(d_RollbackRequested) x.(d_RecoveryState) x.(d_RecoveryRevision) x.(d_RecoverySpec) x.(d_RecoveryError) x.(d_ResumeGeneration) x.(d_ResumeServices) x.(d_ResumeIdentityID) x.(d_ResumeKeyID).
Definition set_d_FinishedAt (v : option Z) (x : Deployment) : Deployment :=
  mkDeployment x.(d_ID) x.(d_ApplicationID) x.(d_IdentityID) x.(d_KeyID) x.(d_IdempotencyKey) x.(d_RequestHash) x.(d_Revision) x.(d_Status) x.(d_Spec) x.(d_ResolvedSpec) x.(d_Result) x.(d_Error) x.(d_CancelRequested) x.(d_Attempts) x.(d_CreatedAt) x.(d_StartedAt) v x.(d_RollbackRequested) x.(d_RecoveryState) x.(d_RecoveryRevision) x.(d_RecoverySpec) x.(d_RecoveryError) x.(d_ResumeGeneration) x.(d_ResumeServices) x.(d_ResumeIdentityID) x.(d_ResumeKeyID).
Definition set_d_RecoveryState (v : string) (x : Deployment) : Deployment :=
  mkDeployment x.(d_ID) x.(d_ApplicationID) x.(d_IdentityID) x.(d_KeyID) x.(d_IdempotencyKey) x.(d_RequestHash) x.(d_Revision) x.(d_Status) x.(d_Spec) x.(d_ResolvedSpec) x.(d_Result) x.(d_Error) x.(d_CancelRequested) x.(d_Attempts) x.(d_CreatedAt) x.(d_StartedAt) x.(d_FinishedAt) x.(d_RollbackRequested) v x.(d_RecoveryRevision) x.(d_RecoverySpec) x.(d_RecoveryError) x.(d_ResumeGeneration) x.(d_ResumeServices) x.(d_ResumeIdentityID) x.(d_ResumeKeyID).
Definition set_d_RecoveryRevision (v : Z) (x : Deployment) : Deployment :=
  mkDeployment x.(d_ID) x.(d_ApplicationID) x.(d_IdentityID) x.(d_KeyID) x.(d_IdempotencyKey) x.(d_RequestHash) x.(d_Revision) x.(d_Status) x.(d_Spec) x.(d_ResolvedSpec) x.(d_Result) x.(d_Error) x.(d_CancelRequested) x.(d_Attempts) x.(d_CreatedAt) x.(d_StartedAt) x.(d_FinishedAt) x.(d_RollbackRequested) x.(d_RecoveryState) v x.(d_RecoverySpec) x.(d_RecoveryError) x.(d_ResumeGeneration) x.(d_ResumeServices) x.(d_ResumeIdentityID) x.(d_ResumeKeyID).
Definition set_d_RecoverySpec (v : option Application) (x : Deployment) : Deployment :=
  mkDeployment x.(d_ID) x.(d_ApplicationID) x.(d_IdentityID) x.(d_KeyID) x.(d_IdempotencyKey) x.(d_RequestHash) x.(d_Revision) x.(d_Status) x.(d_Spec) x.(d_ResolvedSpec) x.(d_Result) x.(d_Error) x.(d_CancelRequested) x.(d_Attempts) x.(d_CreatedAt) x.(d_StartedAt) x.(d_FinishedAt) x.(d_RollbackRequested) x.(d_RecoveryState) x.(d_RecoveryRevision) v x.(d_RecoveryError) x.(d_ResumeGeneration) x.(d_ResumeServices) x.(d_ResumeIdentityID) x.(d_ResumeKeyID).
Definition set_d_RecoveryError (v : string) (x : Deployment) : Deployment :=
  mkDeployment x.(d_ID) x.(d_ApplicationID) x.(d_IdentityID) x.(d_KeyID) x.(d_IdempotencyKey) x.(d_RequestHash) x.(d_Revision) x.(d_Status) x.(d_Spec) x.(d_ResolvedSpec) x.(d_Result) x.(d_Error) x.(d_CancelRequested) x.(d_Attempts) x.(d_CreatedAt) x.(d_StartedAt) x.(d_FinishedAt) x.(d_RollbackRequested) x.(d_RecoveryState) x.(d_RecoveryRevision) x.(d_RecoverySpec) v x.(d_ResumeGeneration) x.(d_ResumeServices) x.(d_ResumeIdentityID) x.(d_ResumeKeyID).
Definition set_d_ResumeGeneration (v : Z) (x : Deployment) : Deployment :=
  mkDeployment x.(d_ID) x.(d_ApplicationID) x.(d_IdentityID) x.(d_KeyID) x.(d_IdempotencyKey) x.(d_RequestHash) x.(d_Revision) x.(d_Status) x.(d_Spec) x.(d_ResolvedSpec) x.(d_Result) x.(d_Error) x.(d_CancelRequested) x.(d_Attempts) x.(d_CreatedAt) x.(d_StartedAt) x.(d_FinishedAt) x.(d_RollbackRequested) x.(d_RecoveryState) x.(d_RecoveryRevision) x.(d_RecoverySpec) x.(d_RecoveryError) v x.(d_ResumeServices) x.(d_ResumeIdentityID) x.(d_ResumeKeyID).
Definition set_d_ResumeServices (v : list string) (x : Deployment) : Deployment :=
  mkDeployment x.(d_ID) x.(d_ApplicationID) x.(d_IdentityID) x.(d_KeyID) x.(d_IdempotencyKey) x.(d_RequestHash) x.(d_Revision) x.(d_Status) x.(d_Spec) x.(d_ResolvedSpec) x.(d_Result) x.(d_Error) x.(d_CancelRequested) x.(d_Attempts) x.(d_CreatedAt) x.(d_StartedAt) x.(d_FinishedAt) x.(d_RollbackRequested) x.(d_RecoveryState) x.(d_RecoveryRevision) x.(d_RecoverySpec) x.(d_RecoveryError) x.(d_ResumeGeneration) v x.(d_ResumeIdentityID) x.(d_ResumeKeyID).
Definition set_d_ResumeIdentityID (v : string) (x : Deployment) : Deployment :=
  mkDeployment x.(d_ID) x.(d_ApplicationID) x.(d_IdentityID) x.(d_KeyID) x.(d_IdempotencyKey) x.(d_RequestHash) x.(d_Revision) x.(d_Status) x.(d_Spec) x.(d_ResolvedSpec) x.(d_Result) x.(d_Error) x.(d_CancelRequested) x.(d_Attempts) x.(d_CreatedAt) x.(d_StartedAt) x.(d_FinishedAt) x.(d_RollbackRequested) x.(d_RecoveryState) x.(d_RecoveryRevision) x.(d_RecoverySpec) x.(d_RecoveryError) x.(d_ResumeGeneration) x.(d_ResumeServices) v x.(d_ResumeKeyID).
Definition set_d_ResumeKeyID (v : string) (x : Deployment) : Deployment :=
  mkDeployment x.(d_ID) x.(d_ApplicationID) x.(d_IdentityID) x.(d_KeyID) x.(d_IdempotencyKey) x.(d_RequestHash) x.(d_Revision) x.(d_Status) x.(d_Spec) x.(d_ResolvedSpec) x.(d_Result) x.(d_Error) x.(d_CancelRequested) x.(d_Attempts) x.(d_CreatedAt) x.(d_StartedAt) x.(d_FinishedAt) x.(d_RollbackRequested) x.(d_RecoveryState) x.(d_RecoveryRevision) x.(d_RecoverySpec) x.(d_RecoveryError) x.(d_ResumeGeneration) x.(d_ResumeServices) x.(d_ResumeIdentityID) v.

(** A row of applications. *)
Record AppRow : Type := mkAppRow {
  a_ID : string;
  a_Name : string;
  a_Project : string;
  a_Environment : string;
  a_Revision : Z;
  a_Status : string;
  a_Spec : Application;
  a_Observed : string;
}.
Definition set_a_Revision (v : Z) (x : AppRow) : AppRow :=
  mkAppRow x.(a_ID) x.(a_Name) x.(a_Project) x.(a_Environment) v x.(a_Status) x.(a_Spec) x.(a_Observed).
Definition set_a_Status (v : string) (x : AppRow) : AppRow :=
  mkAppRow x.(a_ID) x.(a_Name) x.(a_Project) x.(a_Environment) x.(a_Revision) v x.(a_Spec) x.(a_Observed).
Definition set_a_Spec (v : Application) (x : AppRow) : AppRow :=
  mkAppRow x.(a_ID) x.(a_Name) x.(a_Project) x.(a_Environment) x.(a_Revision) x.(a_Status) v x.(a_Observed).
Definition set_a_Observed (v : string) (x : AppRow) : AppRow :=
  mkAppRow x.(a_ID) x.(a_Name) x.(a_Project) x.(a_Environment) x.(a_Revision) x.(a_Status) x.(a_Spec) v.

(** A row of deployment_resume_attempts, by deployment and generation. *)
Record Attempt : Type := mkAttempt {
  at_IdentityID : string;
  at_KeyID : string;
  at_IdempotencyKey : string;
  at_RequestHash : string;
  at_Services : list string;
  at_Status : Status;
  at_Error : string;
  at_Result : string;
  at_StartedAt : option Z;
  at_FinishedAt : option Z;
}.
Definition set_at_Status (v : Status) (x : Attempt) : Attempt :=
  mkAttempt x.(at_IdentityID) x.(at_KeyID) x.(at_IdempotencyKey) x.(at_RequestHash) x.(at_Services) v x.(at_Error) x.(at_Result) x.(at_StartedAt) x.(at_FinishedAt).
Definition set_at_Error (v : string) (x : Attempt) : Attempt :=
  mkAttempt x.(at_IdentityID) x.(at_KeyID) x.(at_IdempotencyKey) x.(at_RequestHash) x.(at_Services) x.(at_Status) v x.(at_Result) x.(at_StartedAt) x.(at_FinishedAt).
Definition set_at_Result (v : string) (x : Attempt) : Attempt :=
  mkAttempt x.(at_IdentityID) x.(at_KeyID) x.(at_IdempotencyKey) x.(at_RequestHash) x.(at_Services) x.(at_Status) x.(at_Error) v x.(at_StartedAt) x.(at_FinishedAt).
Definition set_at_StartedAt (v : option Z) (x : Attempt) : Attempt :=
  mkAttempt x.(at_IdentityID) x.(at_KeyID) x.(at_IdempotencyKey) x.(at_RequestHash) x.(at_Services) x.(at_Status) x.(at_Error) x.(at_Result) v x.(at_FinishedAt).
Definition set_at_FinishedAt (v : option Z) (x : Attempt) : Attempt :=
  mkAttempt x.(at_IdentityID) x.(at_KeyID) x.(at_IdempotencyKey) x.(at_RequestHash) x.(at_Services) x.(at_Status) x.(at_Error) x.(at_Result) x.(at_StartedAt) v.

(** A row of volume_resizes. *)
Record ResizeRow : Type := mkResizeRow {
  rz_ID : string;
  rz_ApplicationID : string;
  rz_IdentityID : string;
  rz_KeyID : string;
  rz_IdempotencyKey : string;
  rz_ExpectedRevision : Z;
  rz_Claim : string;
  rz_TargetClaim : string;
  rz_SizeGiB : Z;
  rz_OldGiB : Z;
  rz_SourceSpec : Application;
  rz_TargetSpec : Application;
  rz_Phase : string;
  rz_Error : string;
  rz_Runtime : string;
}.
Definition set_rz_KeyID (v : string) (x : ResizeRow) : ResizeRow :=
  mkResizeRow x.(rz_ID) x.(rz_ApplicationID) x.(rz_IdentityID) v x.(rz_IdempotencyKey) x.(rz_ExpectedRevision) x.(rz_Claim) x.(rz_TargetClaim) x.(rz_SizeGiB) x.(rz_OldGiB) x.(rz_SourceSpec) x.(rz_TargetSpec) x.(rz_Phase) x.(rz_Error) x.(rz_Runtime).
Definition set_rz_Phase (v : string) (x : ResizeRow) : ResizeRow :=
  mkResizeRow x.(rz_ID) x.(rz_ApplicationID) x.(rz_IdentityID) x.(rz_KeyID) x.(rz_IdempotencyKey) x.(rz_ExpectedRevision) x.(rz_Claim) x.(rz_TargetClaim) x.(rz_SizeGiB) x.(rz_OldGiB) x.(rz_SourceSpec) x.(rz_TargetSpec) v x.(rz_Error) x.(rz_Runtime).
Definition set_rz_Error (v : string) (x : ResizeRow) : ResizeRow :=
  mkResizeRow x.(rz_ID) x.(rz_ApplicationID) x.(rz_IdentityID) x.(rz_KeyID) x.(rz_IdempotencyKey) x.(rz_ExpectedRevision) x.(rz_Claim) x.(rz_TargetClaim) x.(rz_SizeGiB) x.(rz_OldGiB) x.(rz_SourceSpec) x.(rz_TargetSpec) x.(rz_Phase) v x.(rz_Runtime).
Definition set_rz_Runtime (v : string) (x : ResizeRow) : ResizeRow :=
  mkResizeRow x.(rz_ID) x.(rz_ApplicationID) x.(rz_IdentityID) x.(rz_KeyID) x.(rz_IdempotencyKey) x.(rz_ExpectedRevision) x.(rz_Claim) x.(rz_TargetClaim) x.(rz_SizeGiB) x.(rz_OldGiB) x.(rz_SourceSpec) x.(rz_TargetSpec) x.(rz_Phase) x.(rz_Error) v.

(** A row of previews. *)
Record PreviewRow : Type := mkPreviewRow {
  pv_ID : string;
  pv_ParentID : string;
  pv_ApplicationID : option string;
  pv_Project : string;
  pv_Environment : string;
  pv_Name : string;
  pv_Branch : string;
  pv_State : string;
  pv_ExpiresAt : Z;
  pv_CleanupError : string;
}.
Definition set_pv_ApplicationID (v : option string) (x : PreviewRow) : PreviewRow :=
  mkPreviewRow x.(pv_ID) x.(pv_ParentID) v x.(pv_Project) x.(pv_Environment) x.(pv_Name) x.(pv_Branch) x.(pv_State) x.(pv_ExpiresAt) x.(pv_CleanupError).
Definition set_pv_State (v : string) (x : PreviewRow) : PreviewRow :=
  mkPreviewRow x.(pv_ID) x.(pv_ParentID) x.(pv_ApplicationID) x.(pv_Project) x.(pv_Environment) x.(pv_Name) x.(pv_Branch) v x.(pv_ExpiresAt) x.(pv_CleanupError).
Definition set_pv_CleanupError (v : string) (x : PreviewRow) : PreviewRow :=
  mkPreviewRow x.(pv_ID) x.(pv_ParentID) x.(pv_ApplicationID) x.(pv_Project) x.(pv_Environment) x.(pv_Name) x.(pv_Branch) x.(pv_State) x.(pv_ExpiresAt) v.

(** Every row is at its key. *)
Definition Keyed {V} (key : V → string) (m : gmap string V) : Prop := ∀ id v, m !! id = Some v → key v = id.

Section keyed.
Context {V : Type} (key : V → string).

Lemma keyed_empty : Keyed key ∅.
Proof. intros id v. by rewrite lookup_empty. Qed.

Lemma keyed_insert m v : Keyed key m → Keyed key (<[ key v := v ]> m).
Proof. intros Hm id w [[<- <-]|[_ Hw]]%lookup_insert_Some; [done|by apply Hm]. Qed.

Lemma keyed_alter f i m : (∀ v, key (f v) = key v) → Keyed key m → Keyed key (alter f i m).
Proof. intros Hf Hm id v [(_ & w & Hw & ->)|[_ Hv]]%lookup_alter_Some; [rewrite Hf|]; by apply Hm. Qed.

Lemma keyed_fmap f m : (∀ v, key (f v) = key v) → Keyed key m → Keyed key (f <$> m).
Proof. intros Hf Hm id v (w & <- & Hw)%lookup_fmap_Some. rewrite Hf. by apply Hm. Qed.

Lemma keyed_filter (P : string * V → Prop) `{∀ e, Decision (P e)} m : Keyed key m → Keyed key (filter P m).
Proof. intros Hm id v [Hv _]%map_lookup_filter_Some. by apply Hm. Qed.

Lemma keyed_delete i m : Keyed key m → Keyed key (delete i m).
Proof. intros Hm id v [_ Hv]%lookup_delete_Some. by apply Hm. Qed.
End keyed.

(** [UPDATE ... WHERE id=$1] of a row that is there. *)
Lemma alter_Some {V} (f : V → V) i (m : gmap string V) v : m !! i = Some v → alter f i m = <[ i := f v ]> m.
Proof.
  intros Hv. apply map_eq. intros j. destruct (decide (j = i)) as [->|Hne].
  - by rewrite lookup_alter_eq, lookup_insert_eq, Hv.
  - by rewrite lookup_alter_ne, lookup_insert_ne.
Qed.

Lemma alter_fmap_same {V W} (g : V → W) (f : V → V) i (m : gmap string V) : (∀ v, g (f v) = g v) → g <$> alter f i m = g <$> m.
Proof.
  intros Hg. apply map_eq. intros j. rewrite !lookup_fmap. destruct (decide (j = i)) as [->|Hne]; [|by rewrite lookup_alter_ne].
  rewrite lookup_alter_eq. destruct (m !! i) as [v|]; [|done]. cbn. by rewrite Hg.
Qed.

Lemma fmap_alter_Some {V W} (g : V → W) (f : V → V) i (m : gmap string V) v : m !! i = Some v → g <$> alter f i m = <[ i := g (f v) ]> (g <$> m).
Proof. intros Hv. by rewrite (alter_Some f i m v Hv), fmap_insert. Qed.

(** The database: these tables, the session locks of an application ("hashtextextended(app,3)"
    by the connection that holds it), and the state of everything else. *)
Section database.
Context {Rest : Type}.

Record Database : Type := mkDatabase {
  deployments : gmap string Deployment;
  applications : gmap string AppRow;
  resume_attempts : gmap (string * Z) Attempt;
  volume_resizes : gmap string ResizeRow;
  previews : gmap string PreviewRow;
  environments : gset (string * string);
  retired_names : gset (string * string * string);
  locks : gmap string nat;
  rest : Rest;
}.
Definition set_deployments (v : gmap string Deployment) (x : Database) : Database :=
  mkDatabase v x.(applications) x.(resume_attempts) x.(volume_resizes) x.(previews) x.(environments) x.(retired_names) x.(locks) x.(rest).
Definition set_applications (v : gmap string AppRow) (x : Database) : Database :=
  mkDatabase x.(deployments) v x.(resume_attempts) x.(volume_resizes) x.(previews) x.(environments) x.(retired_names) x.(locks) x.(rest).
Definition set_resume_attempts (v : gmap (string * Z) Attempt) (x : Database) : Database :=
  mkDatabase x.(deployments) x.(applications) v x.(volume_resizes) x.(previews) x.(environments) x.(retired_names) x.(locks) x.(rest).
Definition set_volume_resizes (v : gmap string ResizeRow) (x : Database) : Database :=
  mkDatabase x.(deployments) x.(applications) x.(resume_attempts) v x.(previews) x.(environments) x.(retired_names) x.(locks) x.(rest).
Definition set_previews (v : gmap string PreviewRow) (x : Database) : Database :=
  mkDatabase x.(deployments) x.(applications) x.(resume_attempts) x.(volume_resizes) v x.(environments) x.(retired_names) x.(locks) x.(rest).
Definition set_retired_names (v : gset (string * string * string)) (x : Database) : Database :=
  mkDatabase x.(deployments) x.(applications) x.(resume_attempts) x.(volume_resizes) x.(previews) x.(environments) v x.(locks) x.(rest).
Definition set_locks (v : gmap string nat) (x : Database) : Database :=
  mkDatabase x.(deployments) x.(applications) x.(resume_attempts) x.(volume_resizes) x.(previews) x.(environments) x.(retired_names) v x.(rest).
Definition set_rest (v : Rest) (x : Database) : Database :=
  mkDatabase x.(deployments) x.(applications) x.(resume_attempts) x.(volume_resizes) x.(previews) x.(environments) x.(retired_names) x.(locks) v.

(** Whether a row of a table satisfies a condition, [EXISTS (SELECT 1 FROM ... WHERE ...)]. *)
Definition some_row {K V} `{Countable K} (m : gmap K V) (c : V → bool) : bool := existsb (λ e, c e.2) (map_to_list m).

Lemma some_row_true {K V} `{Countable K} (m : gmap K V) c : some_row m c = true ↔ ∃ k v, m !! k = Some v ∧ c v = true.
Proof.
  unfold some_row. rewrite existsb_exists. split.
  - intros ([k v] & Hin%list_elem_of_In & Hc). exists k, v. by apply elem_of_map_to_list in Hin.
  - intros (k & v & Hl & Hc). exists (k, v). split; [by apply list_elem_of_In, elem_of_map_to_list|done].
Qed.

Lemma some_row_false {K V} `{Countable K} (m : gmap K V) c : some_row m c = false ↔ ∀ k v, m !! k = Some v → c v = false.
Proof.
  rewrite <-not_true_iff_false, some_row_true. split.
  - intros Hn k v Hl. apply not_true_iff_false. intros Hc. apply Hn. by exists k, v.
  - intros Hall (k & v & Hl & Hc). by rewrite (Hall k v Hl) in Hc.
Qed.

(** A row that satisfies a condition. *)
Definition find_row {K V} `{Countable K} (m : gmap K V) (c : V → bool) : option (K * V) := List.find (λ e, c e.2) (map_to_list m).

Lemma find_row_Some {K V} `{Countable K} (m : gmap K V) c k v : find_row m c = Some (k, v) → m !! k = Some v ∧ c v = true.
Proof. unfold find_row. intros [Hin%list_elem_of_In Hc]%find_some. by apply elem_of_map_to_list in Hin. Qed.

Lemma find_row_None {K V} `{Countable K} (m : gmap K V) c : find_row m c = None → ∀ k v, m !! k = Some v → c v = false.
Proof. unfold find_row. intros Hf k v Hl. apply (find_none _ _ Hf (k, v)). by apply list_elem_of_In, elem_of_map_to_list. Qed.
End database.
Arguments Database : clear implicits.
