(* ===== verification/DeploymentStore.v ===== *)
(** The queue of deployments (internal/store: operations.go, deployment_resume.go,
    recovery.go, previews.go, volume_resizes.go, deletion.go): each transaction and each
    single statement is a function on the database, the loops that claim work are cut
    where another connection can come between. What the acceptance of a release asks of
    other parts of the store is the class [Others], on a state of their own. The audit
    log and the events are not kept. *)
From S2P Require Import Prelude GoStd SpecTypes Regex Platform SpecWorkloads SpecNormalize SpecTransfer SpecRecovery StoreErrors Principals DeploymentTables.
#[global] Open Scope Z_scope.

Record InitialPreview : Type := mkInitialPreview {
  ip_ID : string;
  ip_ParentID : string;
  ip_ParentRevision : Z;
  ip_Name : string;
  ip_Branch : string;
  ip_TTLHours : Z;
}.

(** What the result of a failed deployment tells. *)
Record Observation : Type := mkObservation { ob_Services : list (string * string); ob_Attempt : option (list string) }.

(** The other parts: hooks of the installation, checks and reservations in other tables,
    the digest of a request, the JSON decoder and the collation of identifiers. *)
Class Others := {
  Rest : Type;
  requireActions : Rest → string → string → Application → result unit;
  AdmitDeployment : Rest → Principal → string → string → string → result Rest;
  resolveVirtualNetworks : Rest → string → string → Application → result unit;
  ApplicationLimit : option (string → string → result Z);
  patches_enabled : Rest → bool;
  checkApplicationAllocation : Rest → AppRow → Application → result unit;
  validateDatabaseBindings : Rest → Principal → AppRow → list Application → result unit;
  consumeDatabaseConnectionReview : Rest → Principal → AppRow → Application → result Rest;
  ValidateDeployment : option (AppRow → Application → result unit);
  sessions_active : Rest → string → bool;
  invocations_active : Rest → string → bool;
  cancel_queued_invocations : Rest → string → Rest;
  cleanup_pending : Rest → string → bool;
  cleanup_incomplete : Rest → string → bool;
  reserveStorage : Rest → AppRow → Application → Z → result Rest;
  checkApplicationPoolCapacity : Rest → AppRow → Application → result unit;
  validateServerlessCapacity : Rest → string → Application → result unit;
  reserveDomains : Rest → string → Application → result Rest;
  acceptCustomHostnames : Rest → string → Application → result Rest;
  AuthorizeRetainedCleanup : Rest → Principal → string → string → result unit;
  backup_busy : Rest → string → bool;
  showcase_app : Rest → string → bool;
  actions_pending : Rest → string → bool;
  deletion_busy : Rest → AppRow → bool;
  remove_actions_pools : Rest → string → Rest;
  delete_metadata : Rest → AppRow → result Rest;
  request_data_deletion : Rest → Principal → string → Rest;
  forget_storage : Rest → string → Rest;
  KeyPrincipal : Rest → string → result Principal;
  accept_hash : string → string → Application → Z → option Application → bool → option InitialPreview → string;
  resume_hash : string → Z → string;
  ResizeID : string → string → string;
  PreviewID : string → string → string;
  json_status : string → string;
  json_observation : string → result Observation;
  json_verified : string → bool;
  json_retry : string → string;
}.

Definition conflict (message : string) : error := Errorf "%w: %s" [AErr ErrConflict; AStr message].
Definition ErrClaimLost : error := Errorf "durable application claim is no longer held" [].
Definition ErrKubernetesPatchesDisabled : error := Errorf "raw Kubernetes patches are turned off for this installation; an administrator can enable them in Settings" [].

Section store.
Context `{Host} `{ThirdParty} `{Quantity} `{RangeOrder} `{Digest} `{Others}.
#[local] Abbreviation DB := (Database Rest).

(** * Accepting a release *)

Definition idempotency_length (idem : string) : bool := (len idem <? 8) || (128 <? len idem).
Definition find_key (db : DB) (identity idem : string) : option (string * Deployment) :=
  find_row db.(deployments) (λ d, (d.(d_IdentityID) =? identity)%string && (d.(d_IdempotencyKey) =? idem)%string).
Definition find_app (db : DB) (project env name : string) : option (string * AppRow) :=
  find_row db.(applications) (λ a, (a.(a_Project) =? project)%string && (a.(a_Environment) =? env)%string && (a.(a_Name) =? name)%string).

(** The digest-pinned revision a rollback brings. *)
Definition seed_of (next : Application) (seedResolved : option Application) : result (option Application) :=
  match seedResolved with
  | None => Ok None
  | Some s =>
      resolved ← wrap (λ e, Errorf "invalid trusted resolved revision: %w" [AErr e]) (Normalize s);
      _ ← fail_when (negb (resolved.(app_Name) =? next.(app_Name))%string) (Errorf "resolved revision belongs to a different application" []);
      _ ← fail_when (some_row (app_services resolved) (λ svc, negb (Contains svc.(svc_Image) "@sha256:")))
            (Errorf "trusted resolved revisions must contain immutable image digests" []);
      Ok (Some resolved)
  end.

(** A table refuses a second row of the same identifier, idempotency key or revision. *)
Definition insert_deployment (d : Deployment) (db : DB) : result DB :=
  _ ← fail_when (has_key db.(deployments) d.(d_ID)) ErrConstraint;
  _ ← fail_when (some_row db.(deployments) (λ o, (o.(d_IdentityID) =? d.(d_IdentityID))%string && (o.(d_IdempotencyKey) =? d.(d_IdempotencyKey))%string)) ErrConstraint;
  _ ← fail_when (some_row db.(deployments) (λ o, (o.(d_ApplicationID) =? d.(d_ApplicationID))%string && (o.(d_Revision) =? d.(d_Revision)))) ErrConstraint;
  _ ← fail_when (negb (has_key db.(applications) d.(d_ApplicationID))) ErrConstraint;
  Ok (set_deployments (<[ d.(d_ID) := d ]> db.(deployments)) db).

Definition new_deployment (id app identity key idem hash : string) (revision : Z) (status : Status) (spec : Application)
    (resolved : option Application) (created : Z) (started : option Z) (rollback : bool) : Deployment :=
  mkDeployment id app identity key idem hash revision status spec resolved "{}" EmptyString false 0 created started None rollback
    EmptyString 0 None EmptyString 0 [] EmptyString EmptyString.

Definition in_environment (project env : string) (a : AppRow) : bool := (a.(a_Project) =? project)%string && (a.(a_Environment) =? env)%string.
Definition count_rows {K V} `{Countable K} (m : gmap K V) (c : V → bool) : Z := lenl (List.filter (λ e, c e.2) (map_to_list m)).

(** The application, or a new row for its first release. *)
Definition application_for (fresh : string) (project env : string) (next : Application) (expected : Z) (db : DB) : result (AppRow * DB) :=
  match find_app db project env next.(app_Name) with
  | Some (_, a) => Ok (a, db)
  | None =>
      _ ← fail_when (bool_decide ((project, env, next.(app_Name)) ∈ db.(retired_names))) (conflict "this application name was deleted; choose a new name");
      _ ← fail_when (bool_decide (app_services next = ∅)) (Errorf "a new application needs at least one service" []);
      limit ← match ApplicationLimit with
              | None => Ok 200
              | Some limit_of => limit ← limit_of project env; _ ← fail_when ((limit <? 1) || (200 <? limit)) (Errorf "invalid application limit" []); Ok limit
              end;
      _ ← fail_when (limit <=? count_rows db.(applications) (in_environment project env)) (Errorf "this environment supports at most %d applications" [AInt limit]);
      _ ← fail_when (negb (expected =? 0)) (conflict "application has revision 0");
      _ ← fail_when (has_key db.(applications) fresh) ErrConstraint;
      let row := mkAppRow fresh next.(app_Name) project env 0 "pending" next "{}" in
      Ok (mkAppRow fresh next.(app_Name) project env 0 EmptyString zero_Application EmptyString, set_applications (<[ fresh := row ]> db.(applications)) db)
  end.

Definition preview_of (db : DB) (app : string) : option (string * PreviewRow) :=
  find_row db.(previews) (λ p, bool_decide (p.(pv_ApplicationID) = Some app)).

Definition validatePreviewAcceptance (now : Z) (a : AppRow) (next : Application) (initial : option InitialPreview) (db : DB) : result unit :=
  match initial with
  | Some i =>
      match db.(applications) !! i.(ip_ParentID) with
      | None => Err ErrNoRows
      | Some parent =>
          _ ← fail_when (negb (parent.(a_Project) =? a.(a_Project))%string || negb (parent.(a_Environment) =? a.(a_Environment))%string ||
                         negb (parent.(a_Revision) =? i.(ip_ParentRevision))) (conflict "parent application changed; review the preview again");
          _ ← fail_when (non_nil (preview_of db parent.(a_ID))) (Errorf "%w: previews cannot have previews" [AErr ErrInput]);
          _ ← fail_when (3 <=? count_rows db.(previews) (λ p, (p.(pv_Project) =? a.(a_Project))%string && negb (p.(pv_State) =? "deleted")%string))
                (conflict "at most three active previews per project; delete a preview first");
          ValidatePreview next
      end
  | None =>
      match preview_of db a.(a_ID) with
      | None => Ok tt
      | Some (_, p) =>
          _ ← fail_when (negb (p.(pv_State) =? "active")%string || (p.(pv_ExpiresAt) <=? now)) (conflict "preview expired or is being deleted");
          ValidatePreview next
      end
  end.

Definition kubernetesPatchGate (p : Principal) (project environment : string) (previous next : Application) (enabled : bool) : result unit :=
  if negb (KubernetesPatchesChanged previous next) then Ok tt
  else
    _ ← fail_when (negb enabled) ErrKubernetesPatchesDisabled;
    let explicit := negb (p.(p_CredentialType) =? "machine")%string && negb (p.(p_CredentialType) =? "cli")%string || contains p.(p_Permissions) "kubernetes:patch" in
    fail_when (negb explicit || negb (Principal_Allows p "kubernetes:patch" project environment next.(app_Name)))
      (Errorf "%w: adding or changing Kubernetes patches requires kubernetes:patch" [AErr ErrForbidden]).

Definition specs_of (next : Application) (seed : option Application) : list Application := next :: option_list seed.

(** Active sandbox sessions and invocations keep a release out; queued invocations end. *)
Definition fenceSessionsForDeployment (r : Rest) (app : string) : result unit :=
  fail_when (sessions_active r app) (conflict "close active sandbox sessions before deploying").
Definition fenceInvocationsForDeployment (r : Rest) (app : string) : result Rest :=
  _ ← fail_when (invocations_active r app) (conflict "cancel or finish active invocations before deploying");
  Ok (cancel_queued_invocations r app).

(** [resizeBlocking] *)
Definition resizeBlocking (r : ResizeRow) : bool := one_of r.(rz_Phase) ["queued"; "copying"; "switching"; "cancelling"; "deleting_original"].
Definition resize_pending (db : DB) (app : string) : bool :=
  some_row db.(volume_resizes) (λ r, (r.(rz_ApplicationID) =? app)%string && resizeBlocking r).

(** The claims the release would create, and the ones a resize replaced. *)
Definition planned_claims (next : Application) : list string :=
  ((λ e, "hakopod-volume-" +:+ e.1) <$> range next.(app_Volumes)) ++
  ((λ e, e.1 +:+ "-data") <$> List.filter (λ e, non_nil (e.2).(svc_Volume)) (range (app_services next))).
Definition claim_retired (db : DB) (app : string) (claims : list string) : bool :=
  some_row db.(volume_resizes) (λ r, (r.(rz_ApplicationID) =? app)%string && one_of r.(rz_Phase) ["original_retained"; "completed"] && one_of r.(rz_Claim) claims).

Definition app_pending (app : string) (d : Deployment) : bool := (d.(d_ApplicationID) =? app)%string && pending d.(d_Status).

(** The checks of the runtime. *)
Definition check_runtime (a : AppRow) (next : Application) (seed : option Application) : result unit :=
  match ValidateDeployment with
  | None => fail_when (existsb HasDeliveryCapabilities (specs_of next seed))
              (Errorf "node placement, serverless and other delivery capabilities require a configured runtime validator" [])
  | Some validate => iterM (validate a) (specs_of next seed)
  end.

(** The other tables a release reserves, in the order of the code. *)
Definition reserve_all (r : Rest) (a : AppRow) (next : Application) : result Rest :=
  r ← reserveStorage r a next 0;
  _ ← checkApplicationPoolCapacity r a next;
  _ ← validateServerlessCapacity r a.(a_ID) next;
  r ← reserveDomains r a.(a_ID) next;
  acceptCustomHostnames r a.(a_ID) next.

Definition insert_preview (now : Z) (a : AppRow) (initial : option InitialPreview) (db : DB) : result DB :=
  match initial with
  | None => Ok db
  | Some i =>
      _ ← fail_when (has_key db.(previews) i.(ip_ID)) ErrConstraint;
      _ ← fail_when (non_nil (preview_of db a.(a_ID))) ErrConstraint;
      _ ← fail_when (some_row db.(previews) (λ p, (p.(pv_ParentID) =? i.(ip_ParentID))%string && (p.(pv_Name) =? i.(ip_Name))%string && negb (p.(pv_State) =? "deleted")%string)) ErrConstraint;
      let row := mkPreviewRow i.(ip_ID) i.(ip_ParentID) (Some a.(a_ID)) a.(a_Project) a.(a_Environment) i.(ip_Name) i.(ip_Branch) "active"
                   (now + i.(ip_TTLHours) * 3600) EmptyString in
      Ok (set_previews (<[ i.(ip_ID) := row ]> db.(previews)) db)
  end.

(** [UPDATE applications SET ... WHERE id=$1], where there is a row. *)
Definition update_app (id : string) (f : AppRow → AppRow) (db : DB) : DB := set_applications (alter f id db.(applications)) db.
Definition update_deployment (id : string) (f : Deployment → Deployment) (db : DB) : DB := set_deployments (alter f id db.(deployments)) db.

Definition queue_app (revision : Z) (spec : Application) (a : AppRow) : AppRow :=
  set_a_Status "queued" (set_a_Observed "{}" (set_a_Spec spec (set_a_Revision revision a))).

(** A release that was not accepted before, once the request is known to be new. *)
Definition accept_new (now : Z) (fresh_app fresh_id : string) (p : Principal) (project env : string) (next : Application) (expected : Z)
    (idem hash : string) (initial : option InitialPreview) (rollback : bool) (seed : option Application) (db : DB) : result (Deployment * DB) :=
  r ← AdmitDeployment db.(rest) p project env idem;
  let db := set_rest r db in
  _ ← resolveVirtualNetworks db.(rest) project env next;
  _ ← fail_when (negb (bool_decide ((project, env) ∈ db.(environments)))) (Errorf "project/environment does not exist" []);
  '(a, db) ← application_for fresh_app project env next expected db;
  _ ← validatePreviewAcceptance now a next initial db;
  _ ← fail_when (negb (a.(a_Revision) =? expected))
        (Errorf "%w: expected %d, current revision is %d; plan again" [AErr ErrConflict; AInt expected; AInt a.(a_Revision)]);
  _ ← iterM (λ candidate, kubernetesPatchGate p project env a.(a_Spec) candidate (patches_enabled db.(rest))) (specs_of next seed);
  _ ← checkApplicationAllocation db.(rest) a next;
  _ ← validateDatabaseBindings db.(rest) p a (specs_of next seed);
  r ← consumeDatabaseConnectionReview db.(rest) p a next;
  _ ← check_runtime a next seed;
  _ ← fenceSessionsForDeployment r a.(a_ID);
  r ← fenceInvocationsForDeployment r a.(a_ID);
  _ ← fail_when (cleanup_pending r a.(a_ID)) (conflict "wait for the accepted volume cleanup before changing this application");
  _ ← fail_when (resize_pending db a.(a_ID)) (conflict "finish volume maintenance before changing this application");
  _ ← fail_when (claim_retired db a.(a_ID) (planned_claims next))
        (conflict "this configuration references a volume replaced by resize; use the application's current volume and mount settings");
  r ← reserve_all r a next;
  let db := set_rest r db in
  _ ← fail_when (20 <=? count_rows db.(deployments) (app_pending a.(a_ID)))
        (Errorf "application queue is full (20 pending releases); wait or cancel a queued deployment" []);
  let revision := a.(a_Revision) + 1 in
  let d := new_deployment fresh_id a.(a_ID) p.(p_ID) p.(p_KeyID) idem hash revision Queued next seed now None rollback in
  db ← insert_deployment d db;
  let db := update_app a.(a_ID) (queue_app revision next) db in
  db ← insert_preview now a initial db;
  Ok (d, db).

(** The plain call of [acceptGuarded]: no showcase, transfer, source or volume deletion. *)
Definition Accept (now : Z) (fresh_app fresh_id : string) (p : Principal) (project env : string) (next : Application) (expected : Z)
    (idem : string) (initial : option InitialPreview) (rollback : bool) (seedResolved : option Application) (db : DB) : result (Deployment * DB) :=
  _ ← fail_when (idempotency_length idem) (Errorf "Idempotency-Key must contain 8–128 characters" []);
  _ ← fail_when (negb (Principal_Allows p "deployments:write" project env next.(app_Name))) ErrForbidden;
  seed ← seed_of next seedResolved;
  let hash := accept_hash project env next expected seed rollback initial in
  _ ← requireActions db.(rest) project env next;
  match find_key db p.(p_ID) idem with
  | Some (_, d) =>
      _ ← fail_when (negb (hash =? d.(d_RequestHash))%string) (conflict "idempotency key reused with different input");
      Ok (d, db)
  | None => accept_new now fresh_app fresh_id p project env next expected idem hash initial rollback seed db
  end.

Definition canManagePreviews (p : Principal) (project environment : string) : bool :=
  Principal_Allows p "deployments:write" project environment EmptyString &&
  (Principal_CanManageProject p project ||
   (p.(p_CredentialType) =? "machine")%string && (p.(p_Project) =? project)%string && (p.(p_Environment) =? environment)%string && is_empty p.(p_Application)).

(** [^[a-z][a-z0-9-]{0,31}$] *)
Definition previewName : regex := RCat (RCls lower) (RUpTo (RCls (λ c, lower c || digit c || any_of "-" c)) 31).

(** [AcceptPreview]: the application of a preview is new and named after its identifier. *)
Definition AcceptPreview (now : Z) (fresh_app fresh_id : string) (p : Principal) (parent : AppRow) (next : Application) (i : InitialPreview) (idem : string) (db : DB)
    : result (Deployment * DB) :=
  _ ← fail_when (negb (canManagePreviews p parent.(a_Project) parent.(a_Environment))) ErrForbidden;
  _ ← fail_when (negb (full_match previewName i.(ip_Name)) || (200 <? len i.(ip_Branch)) || (i.(ip_TTLHours) <? 1) || (72 <? i.(ip_TTLHours)))
        (Errorf "%w: preview name, branch or lifetime is invalid; use 1–72 hours" [AErr ErrInput]);
  let id := PreviewID p.(p_ID) idem in
  let i := mkInitialPreview id parent.(a_ID) i.(ip_ParentRevision) i.(ip_Name) i.(ip_Branch) i.(ip_TTLHours) in
  normalized ← Normalize (set_app_Name ("preview-" +:+ id) next);
  _ ← ValidatePreview normalized;
  Accept now fresh_app fresh_id p parent.(a_Project) parent.(a_Environment) normalized 0 idem (Some i) false None db.

(** * Resuming a failed release *)

Definition ready_status (s : string) : bool := one_of s ["ready"; "completed"; "configured"; "scheduled"; "stopped"; "sleeping"].

(** The services that are not ready; a failed job cannot be resumed. *)
Definition not_ready (observed : list (string * string)) (selected : gset string) (entry : string * Service) : result (gset string) :=
  let '(name, svc) := entry in
  let status := default EmptyString (snd <$> last (filter (λ s, s.1 = name) observed)) in
  if ready_status status then Ok selected
  else
    _ ← fail_when (non_nil svc.(svc_Job) && (status =? "failed")%string)
          (Errorf "%w: failed deployment job %s requires a new reviewed revision" [AErr ErrConflict; AStr name]);
    Ok ({[ name ]} ∪ selected).

(** One pass over the services: those that depend on a selected one. *)
Definition dependent (selected : gset string) (entry : string * Service) : gset string :=
  let '(name, svc) := entry in
  if bool_decide (name ∈ selected) then selected
  else if existsb (λ dependency, bool_decide (dependency ∈ selected)) svc.(svc_DependsOn) then {[ name ]} ∪ selected else selected.
Fixpoint with_dependents (fuel : nat) (services : list (string * Service)) (selected : gset string) : gset string :=
  match fuel with
  | O => selected
  | S n =>
      let selected' := fold_left dependent services selected in
      if bool_decide (selected' = selected) then selected else with_dependents n services selected'
  end.
Definition resume_services (spec : Application) (observed : list (string * string)) : result (list string) :=
  let services := range (app_services spec) in
  selected ← foldM (not_ready observed) ∅ services;
  let selected := with_dependents (S (length services)) services selected in
  _ ← fail_when (bool_decide (selected = ∅)) (conflict "no failed or incomplete service can resume");
  Ok (sort_strings (elements selected)).

Definition requeue (generation : Z) (services : list string) (p : Principal) (d : Deployment) : Deployment :=
  set_d_ResumeKeyID p.(p_KeyID) (set_d_ResumeIdentityID p.(p_ID) (set_d_ResumeServices services (set_d_ResumeGeneration generation
    (set_d_RecoveryError EmptyString (set_d_RecoverySpec None (set_d_RecoveryRevision 0 (set_d_RecoveryState EmptyString
    (set_d_FinishedAt None (set_d_StartedAt None (set_d_CancelRequested false (set_d_Error EmptyString (set_d_Status Queued d)))))))))))).

Definition find_attempt (db : DB) (identity idem : string) : option ((string * Z) * Attempt) :=
  find_row db.(resume_attempts) (λ t, (t.(at_IdentityID) =? identity)%string && (t.(at_IdempotencyKey) =? idem)%string).
Definition insert_attempt (key : string * Z) (t : Attempt) (db : DB) : result DB :=
  _ ← fail_when (non_nil (db.(resume_attempts) !! key) || non_nil (find_attempt db t.(at_IdentityID) t.(at_IdempotencyKey))) ErrConstraint;
  Ok (set_resume_attempts (<[ key := t ]> db.(resume_attempts)) db).
(** [ON CONFLICT DO NOTHING] *)
Definition insert_attempt_once (key : string * Z) (t : Attempt) (db : DB) : DB :=
  match insert_attempt key t db with Ok db' => db' | Err _ => db end.

(** Whether a release of the application waits for volume maintenance. *)
Definition maintenance (db : DB) (app : string) : bool := cleanup_incomplete db.(rest) app || resize_pending db app.

Definition resumable (d : Deployment) (a : AppRow) (expected : Z) : bool :=
  bool_decide (d.(d_Status) = Failed) && (d.(d_Revision) =? expected) && (a.(a_Revision) =? expected) && non_nil d.(d_ResolvedSpec) &&
  is_empty d.(d_RecoveryState).

Definition resume_new (p : Principal) (id : string) (expected : Z) (idem hash : string) (db : DB) : result (Deployment * DB) :=
  match db.(deployments) !! id with
  | None => Err ErrNoRows
  | Some d =>
  match db.(applications) !! d.(d_ApplicationID) with
  | None => Err ErrNoRows
  | Some a =>
  _ ← fail_when (negb (Principal_Allows p "deployments:write" a.(a_Project) a.(a_Environment) a.(a_Name))) ErrForbidden;
  _ ← fail_when (negb (resumable d a expected)) (conflict "only the latest partially failed unrecovered revision can resume");
  let spec := default zero_Application d.(d_ResolvedSpec) in
  r ← AdmitDeployment db.(rest) p a.(a_Project) a.(a_Environment) idem;
  let db := set_rest r db in
  _ ← requireActions db.(rest) a.(a_Project) a.(a_Environment) spec;
  _ ← fail_when (some_row db.(deployments) (λ o, (o.(d_ApplicationID) =? a.(a_ID))%string && (d.(d_Revision) <? o.(d_Revision)))) ErrConflict;
  _ ← match ValidateDeployment with Some validate => validate a spec | None => Ok tt end;
  _ ← fenceSessionsForDeployment db.(rest) a.(a_ID);
  r ← fenceInvocationsForDeployment db.(rest) a.(a_ID);
  let db := set_rest r db in
  _ ← fail_when (maintenance db a.(a_ID)) (conflict "finish volume maintenance before resuming this deployment");
  observed ← wrap (λ _, ErrConflict) (json_observation d.(d_Result));
  _ ← fail_when (match observed.(ob_Attempt) with Some (_ :: _) => false | _ => true end)
        (conflict "this failure has no recorded service attempt that can safely resume");
  services ← resume_services spec observed.(ob_Services);
  let db := if d.(d_ResumeGeneration) =? 0 then
      insert_attempt_once (id, 0) (mkAttempt d.(d_IdentityID) d.(d_KeyID) ("original:" +:+ id) EmptyString [] d.(d_Status) d.(d_Error) d.(d_Result) d.(d_StartedAt) d.(d_FinishedAt)) db
    else db in
  let generation := d.(d_ResumeGeneration) + 1 in
  db ← insert_attempt (id, generation) (mkAttempt p.(p_ID) p.(p_KeyID) idem hash services Queued EmptyString "{}" None None) db;
  let db := update_deployment id (requeue generation services p) db in
  let db := update_app a.(a_ID) (λ row, if row.(a_Revision) =? d.(d_Revision) then set_a_Status "queued" row else row) db in
  Ok (requeue generation services p d, db)
  end end.

Definition ResumeDeployment (p : Principal) (id : string) (expected : Z) (idem : string) (db : DB) : result (Deployment * DB) :=
  _ ← fail_when (idempotency_length idem || (expected <? 1)) ErrInput;
  let hash := resume_hash id expected in
  match find_attempt db p.(p_ID) idem with
  | Some ((replayed, _), t) =>
      _ ← fail_when (negb (replayed =? id)%string || negb (t.(at_RequestHash) =? hash)%string) (conflict "idempotency key reused with different input");
      match db.(deployments) !! id with
      | None => Err ErrNoRows
      | Some d =>
          match db.(applications) !! d.(d_ApplicationID) with
          | None => Err ErrNoRows
          | Some a =>
              _ ← fail_when (negb (Principal_Allows p "deployments:write" a.(a_Project) a.(a_Environment) a.(a_Name))) ErrForbidden;
              Ok (d, db)
          end
      end
  | None => resume_new p id expected idem hash db
  end.

(** Cancelling asks; a resize is stopped by its own controls. *)
Definition cancel (id : string) (db : DB) : result (unit * DB) :=
  match db.(deployments) !! id with
  | None => Err ErrNoRows
  | Some d =>
      _ ← fail_when (negb (pending d.(d_Status))) (Errorf "deployment has already completed" []);
      _ ← fail_when (has_key db.(volume_resizes) id) (Errorf "Use the volume resize controls to stop or recover this maintenance operation." []);
      Ok (tt, update_deployment id (set_d_CancelRequested true) db)
  end.

(** * Claiming work *)

(** An expired preview, or one that is being deleted. *)
Definition preview_ended (now : Z) (app : string) (db : DB) : bool :=
  some_row db.(previews) (λ p, bool_decide (p.(pv_ApplicationID) = Some app) && (negb (p.(pv_State) =? "active")%string || (p.(pv_ExpiresAt) <=? now))).

(** The next release of its application, that is not a resize or of an ended preview. *)
Definition claimable (now : Z) (db : DB) (d : Deployment) : bool :=
  pending d.(d_Status) && negb (has_key db.(volume_resizes) d.(d_ID)) && negb (preview_ended now d.(d_ApplicationID) db) &&
  negb (some_row db.(deployments) (λ older, (older.(d_ApplicationID) =? d.(d_ApplicationID))%string && (older.(d_Revision) <? d.(d_Revision)) && pending older.(d_Status))).

Definition created_le (d1 d2 : Deployment) : Prop := d1.(d_CreatedAt) ≤ d2.(d_CreatedAt).
#[export] Instance created_le_dec : RelDecision created_le := λ d1 d2, decide (_ ≤ _).

Definition candidates (now : Z) (db : DB) : list (string * string) :=
  (λ d, (d.(d_ID), d.(d_ApplicationID))) <$>
    take 16 (merge_sort created_le (List.filter (claimable now db) ((map_to_list db.(deployments)).*2))).

(** The session lock of an application. *)
Definition lock_app (conn : nat) (app : string) (db : DB) : DB := set_locks (<[ app := conn ]> db.(locks)) db.
Definition locked (db : DB) (app : string) : bool := has_key db.(locks) app.
(** [pg_advisory_unlock_all], or the end of the connection. *)
Definition unlock_all (conn : nat) (db : DB) : DB := set_locks (filter (λ e, e.2 ≠ conn) db.(locks)) db.

(** [UPDATE ... SET status='running' ... RETURNING], where there is a row. *)
Definition start_row (now : Z) (d : Deployment) : Deployment :=
  set_d_Attempts (d.(d_Attempts) + 1) (set_d_StartedAt (Some (default now d.(d_StartedAt))) (set_d_Status Running d)).
Definition start_deployment (now : Z) (id : string) (db : DB) : option (Deployment * DB) :=
  match db.(deployments) !! id with
  | Some d => if pending d.(d_Status) then Some (start_row now d, update_deployment id (start_row now) db) else None
  | None => None
  end.

(** The attempt to resume becomes the running one, and the claim acts for its requester. *)
Definition start_attempt_row (now : Z) (t : Attempt) : Attempt :=
  if pending t.(at_Status) then set_at_StartedAt (Some (default now t.(at_StartedAt))) (set_at_Status Running t) else t.
Definition start_attempt (now : Z) (d : Deployment) (db : DB) : Deployment * DB :=
  if (0 <? d.(d_ResumeGeneration)) && negb (is_empty d.(d_ResumeKeyID)) then
    (set_d_IdentityID d.(d_ResumeIdentityID) (set_d_KeyID d.(d_ResumeKeyID) d),
     set_resume_attempts (alter (start_attempt_row now) (d.(d_ID), d.(d_ResumeGeneration)) db.(resume_attempts)) db)
  else (d, db).

Record Claim : Type := mkClaim { c_Deployment : Deployment; c_App : AppRow }.

(** [Check] of a claim whose connection is open. *)
Definition claim_lost (now : Z) (c : Claim) (db : DB) : bool := preview_ended now c.(c_App).(a_ID) db.

Definition runs (d : Deployment) : bool := bool_decide (d.(d_Status) = Running).

Definition SetResolved (c : Claim) (app : Application) (db : DB) : result (Application * DB) :=
  let id := c.(c_Deployment).(d_ID) in
  match db.(deployments) !! id with
  | Some d =>
      if (d.(d_ApplicationID) =? c.(c_Deployment).(d_ApplicationID))%string && runs d then
        let winner := default app d.(d_ResolvedSpec) in
        Ok (winner, update_deployment id (set_d_ResolvedSpec (Some winner)) db)
      else Err (Errorf "%w: operation is no longer running" [AErr ErrClaimLost])
  | None => Err (Errorf "%w: operation is no longer running" [AErr ErrClaimLost])
  end.

Definition begin_recovery_row (state : string) (revision : Z) (spec : option Application) (skip failure : string) (d : Deployment) : Deployment :=
  set_d_Error failure (set_d_RecoveryError skip (set_d_RecoverySpec spec (set_d_RecoveryRevision revision (set_d_RecoveryState state d)))).

Definition BeginRecovery (c : Claim) (previous : option Deployment) (failure skip : string) (db : DB) : result (Claim * DB) :=
  let d0 := c.(c_Deployment) in
  '(state, revision, spec) ←
    (if negb (is_empty skip) then Ok ("skipped", 0, None)
     else match previous with
     | Some prev =>
         _ ← fail_when (negb (prev.(d_ApplicationID) =? d0.(d_ApplicationID))%string || (d0.(d_Revision) <=? prev.(d_Revision)) ||
                        negb (non_nil prev.(d_ResolvedSpec)) || negb (bool_decide (prev.(d_Status) = Succeeded))) ErrInput;
         Ok ("running", prev.(d_Revision), prev.(d_ResolvedSpec))
     | None => Err ErrInput
     end);
  match db.(deployments) !! d0.(d_ID) with
  | Some d =>
      if runs d && is_empty d.(d_RecoveryState) then
        let row := begin_recovery_row state revision spec skip failure in
        Ok (mkClaim (row d) c.(c_App), update_deployment d0.(d_ID) row db)
      else Err ErrNoRows
  | None => Err ErrNoRows
  end.

Definition FinishRecovery (c : Claim) (state message result_json : string) (db : DB) : result (Claim * DB) :=
  _ ← fail_when (negb (one_of state ["succeeded"; "failed"])) ErrInput;
  match db.(deployments) !! c.(c_Deployment).(d_ID) with
  | Some d =>
      if runs d && (d.(d_RecoveryState) =? "running")%string then
        let row := λ d, set_d_Result result_json (set_d_RecoveryError message (set_d_RecoveryState state d)) in
        Ok (mkClaim (row d) c.(c_App), update_deployment c.(c_Deployment).(d_ID) row db)
      else Err (Errorf "%w: recovery phase changed" [AErr ErrClaimLost])
  | None => Err (Errorf "%w: recovery phase changed" [AErr ErrClaimLost])
  end.

Definition storableObservation (result_json : string) : bool := negb (is_empty (json_status result_json)).

Definition finish_row (now : Z) (status : Status) (message result_json : string) (d : Deployment) : Deployment :=
  set_d_FinishedAt (Some now) (set_d_Result result_json (set_d_Error message (set_d_Status status d))).
Definition finish_attempt_row (now : Z) (status : Status) (message result_json : string) (t : Attempt) : Attempt :=
  if bool_decide (t.(at_Status) = Running) then
    set_at_FinishedAt (Some now) (set_at_Result result_json (set_at_Error message (set_at_Status status t)))
  else t.

(** The status of the application after its latest release finished. *)
Definition finished_status (d : Deployment) (status : Status) : string :=
  match status with
  | Succeeded => if bool_decide (app_services d.(d_Spec) = ∅) then "empty" else "healthy"
  | Failed => if (d.(d_RecoveryState) =? "succeeded")%string then "recovered" else "failed"
  | _ => status_text status
  end.
Definition finish_app (d : Deployment) (status : Status) (result_json : string) (a : AppRow) : AppRow :=
  let latest := a.(a_Revision) =? d.(d_Revision) in
  set_a_Status (if latest then finished_status d status else "queued")
    (set_a_Observed (if latest && storableObservation result_json then result_json else a.(a_Observed)) a).

(** [finishTransaction], for the deployment as the claim holds it. *)
Definition Finish (now : Z) (c : Claim) (status : Status) (message result_json : string) (db : DB) : result (unit * DB) :=
  let d := c.(c_Deployment) in
  _ ← fail_when (negb (bool_decide (status ∈ [Succeeded; Failed; Cancelled]))) (Errorf "operation can only finish succeeded, failed or cancelled" []);
  match db.(deployments) !! d.(d_ID) with
  | Some row =>
      if (row.(d_ApplicationID) =? d.(d_ApplicationID))%string && runs row then
        let db := update_deployment d.(d_ID) (finish_row now status message result_json) db in
        let db := if 0 <? d.(d_ResumeGeneration) then
            set_resume_attempts (alter (finish_attempt_row now status message result_json) (d.(d_ID), d.(d_ResumeGeneration)) db.(resume_attempts)) db
          else db in
        Ok (tt, update_app d.(d_ApplicationID) (finish_app d status result_json) db)
      else Err (Errorf "%w: operation is no longer running or available" [AErr ErrClaimLost])
  | None => Err (Errorf "%w: operation is no longer running or available" [AErr ErrClaimLost])
  end.

(** * What ran before *)

(** The succeeded releases of an application before a revision. *)
Definition healthy_before (app : string) (before : Z) (d : Deployment) : bool :=
  (d.(d_ApplicationID) =? app)%string && (d.(d_Revision) <? before) && bool_decide (d.(d_Status) = Succeeded) && non_nil d.(d_ResolvedSpec).
Definition later (best : option Deployment) (d : Deployment) : option Deployment :=
  match best with Some b => if b.(d_Revision) <? d.(d_Revision) then Some d else best | None => Some d end.
(** [ORDER BY revision DESC LIMIT 1] *)
Definition LastHealthyRelease (app : string) (before : Z) (db : DB) : option Deployment :=
  fold_left later (List.filter (healthy_before app before) ((map_to_list db.(deployments)).*2)) None.

Definition ObservedSpec (a : AppRow) (db : DB) : Application :=
  match find_row db.(deployments) (λ d, (d.(d_ApplicationID) =? a.(a_ID))%string && (d.(d_Revision) =? a.(a_Revision)) && (d.(d_RecoveryState) =? "succeeded")%string) with
  | Some (_, d) => default a.(a_Spec) d.(d_RecoverySpec)
  | None => a.(a_Spec)
  end.

(** * Previews and deletion *)

(** [UPDATE deployments SET ... WHERE application_id=$1 AND status IN ('queued','running')] *)
Definition update_pending (app : string) (f : Deployment → Deployment) (db : DB) : DB :=
  set_deployments ((λ d, if app_pending app d then f d else d) <$> db.(deployments)) db.

Definition RequestPreviewDeletion (p : Principal) (id confirmation : string) (db : DB) : result (unit * DB) :=
  match db.(previews) !! id with
  | None => Err ErrNoRows
  | Some preview =>
      _ ← fail_when (negb (canManagePreviews p preview.(pv_Project) preview.(pv_Environment))) ErrForbidden;
      _ ← fail_when (negb (confirmation =? preview.(pv_Name))%string) (Errorf "%w: confirm the preview name" [AErr ErrInput]);
      let db := set_previews (alter (λ v, if (v.(pv_State) =? "active")%string then set_pv_State "deleting" v else v) id db.(previews)) db in
      Ok (tt, match preview.(pv_ApplicationID) with Some app => update_pending app (set_d_CancelRequested true) db | None => db end)
  end.

(** The previews whose cleanup is due. *)
Definition cleanup_due (now : Z) (v : PreviewRow) : bool :=
  (v.(pv_State) =? "deleting")%string || (v.(pv_State) =? "active")%string && (v.(pv_ExpiresAt) <=? now).
Definition cleanup_candidates (now : Z) (db : DB) : list string :=
  omap (λ e, if cleanup_due now e.2 then e.2.(pv_ApplicationID) else None) (map_to_list db.(previews)).

(** [UPDATE previews SET state='deleting' ... RETURNING], where there is a row. *)
Definition mark_preview (now : Z) (app : string) (db : DB) : option (PreviewRow * DB) :=
  match preview_of db app with
  | Some (id, v) =>
      if cleanup_due now v then Some (set_pv_State "deleting" v, set_previews (alter (set_pv_State "deleting") id db.(previews)) db) else None
  | None => None
  end.

Definition preview_cancelled (now : Z) (d : Deployment) : Deployment :=
  set_d_FinishedAt (Some now) (set_d_Error "Preview expired or was deleted" (set_d_CancelRequested true (set_d_Status Cancelled d))).
Definition cancel_pending (now : Z) (app : string) (db : DB) : DB := update_pending app (preview_cancelled now) db.

(** The application goes with its deployments and what refers to it; its name is retired. *)
Definition remove_application (a : AppRow) (db : DB) : DB :=
  let id := a.(a_ID) in
  mkDatabase (filter (λ e, e.2.(d_ApplicationID) ≠ id) db.(deployments)) (delete id db.(applications))
    (filter (λ e, d_ApplicationID <$> db.(deployments) !! e.1.1 ≠ Some id) db.(resume_attempts))
    (filter (λ e, e.2.(rz_ApplicationID) ≠ id) db.(volume_resizes))
    ((λ v, if bool_decide (v.(pv_ApplicationID) = Some id) then set_pv_ApplicationID None v else v) <$> db.(previews))
    db.(environments) ({[ (a.(a_Project), a.(a_Environment), a.(a_Name)) ]} ∪ db.(retired_names)) db.(locks) db.(rest).

Definition deleteApplicationMetadata (a : AppRow) (db : DB) : result DB :=
  _ ← fenceSessionsForDeployment db.(rest) a.(a_ID);
  _ ← fail_when (bool_decide ((a.(a_Project), a.(a_Environment), a.(a_Name)) ∈ db.(retired_names))) ErrConstraint;
  r ← delete_metadata db.(rest) a;
  Ok (remove_application a (set_rest r db)).

(** The end of the cleanup of a preview. *)
Definition PreviewFinish (v : PreviewRow) (a : AppRow) (cleanup_error : string) (db : DB) : result (unit * DB) :=
  if negb (is_empty cleanup_error) then
    Ok (tt, set_previews (alter (set_pv_CleanupError cleanup_error) v.(pv_ID) db.(previews)) db)
  else
    db ← deleteApplicationMetadata a db;
    let db := set_rest (forget_storage db.(rest) a.(a_ID)) db in
    Ok (tt, set_previews (alter (λ w, set_pv_CleanupError EmptyString (set_pv_State "deleted" w)) v.(pv_ID) db.(previews)) db).

(** * Resizing a volume *)

Definition canManageCLIWorkload (p : Principal) (project : string) : bool :=
  if negb (p.(p_CredentialType) =? "cli")%string || negb (p.(p_Project) =? project)%string || is_empty project || is_empty p.(p_Environment) ||
     negb (is_empty p.(p_Application)) || negb (Principal_Allows p "deployments:write" project p.(p_Environment) EmptyString) then false
  else p.(p_Admin) || existsb (λ r, (r.(pr_Project) =? project)%string && (r.(pr_Role) =? "admin")%string) p.(p_ProjectRoles).
Definition Principal_CanManageApplication (p : Principal) (project environment name : string) : bool :=
  Principal_Allows p "deployments:write" project environment name &&
  (Principal_CanManageProject p project || canManageCLIWorkload p project ||
   (p.(p_CredentialType) =? "machine")%string && (p.(p_Project) =? project)%string && (p.(p_Environment) =? environment)%string &&
   negb (is_empty project) && negb (is_empty environment) && is_empty p.(p_Application) &&
   Principal_Allows p "applications:manage" project environment name).

(** [DeleteEmptyApplication]: the runtime lock must be free. *)
Definition DeleteEmptyApplication (p : Principal) (id : string) (expected : Z) (confirmation : string) (deleteData : bool) (db : DB) : result (unit * DB) :=
  match db.(applications) !! id with
  | None => Err ErrNoRows
  | Some a =>
      _ ← fail_when (negb (Principal_CanManageApplication p a.(a_Project) a.(a_Environment) a.(a_Name))) ErrForbidden;
      _ ← fail_when (locked db id) (conflict "application has active runtime work; wait and try again");
      _ ← fail_when (negb (a.(a_Name) =? confirmation)%string || negb (a.(a_Revision) =? expected)) (conflict "application changed; review it again and confirm its name");
      _ ← fail_when (some_row db.(previews) (λ v, (bool_decide (v.(pv_ApplicationID) = Some id) || (v.(pv_ParentID) =? id)%string) && negb (v.(pv_State) =? "deleted")%string))
            (conflict "delete previews through their expiry controls first");
      _ ← fail_when (negb (bool_decide (app_services a.(a_Spec) = ∅))) (conflict "remove all services through a reviewed deployment before deleting this application");
      _ ← fail_when (actions_pending db.(rest) id) (conflict "wait for Managed Actions runner and registration cleanup");
      _ ← fail_when (negb (some_row db.(deployments) (λ d, (d.(d_ApplicationID) =? id)%string && (d.(d_Revision) =? expected) && bool_decide (d.(d_Status) = Succeeded))) ||
                     some_row db.(deployments) (app_pending id)) (conflict "wait for the empty application revision to deploy successfully");
      _ ← fail_when (deletion_busy db.(rest) a ||
                     some_row db.(volume_resizes) (λ r, (r.(rz_ApplicationID) =? id)%string && negb (one_of r.(rz_Phase) ["completed"; "cancelled"])))
            (conflict "stop active builds, source imports and backup schedules before deletion");
      db ← deleteApplicationMetadata a (set_rest (remove_actions_pools db.(rest) id) db);
      Ok (tt, if deleteData then set_rest (request_data_deletion db.(rest) p id) db else db)
  end.

Definition resizeAuthority (r : Rest) (p : Principal) (a : AppRow) : result unit :=
  _ ← fail_when (negb (Principal_CanManageApplication p a.(a_Project) a.(a_Environment) a.(a_Name)) ||
                 negb (Principal_Allows p "deployments:write" a.(a_Project) a.(a_Environment) a.(a_Name))) ErrForbidden;
  AuthorizeRetainedCleanup r p a.(a_Project) a.(a_Environment).

(** The release that runs, which the resize starts from. *)
Definition running_release (app : string) (revision : Z) (db : DB) : option Application :=
  match find_row db.(deployments) (λ d, (d.(d_ApplicationID) =? app)%string && (d.(d_Revision) =? revision) && bool_decide (d.(d_Status) = Succeeded) && non_nil d.(d_ResolvedSpec)) with
  | Some (_, d) => d.(d_ResolvedSpec)
  | None => None
  end.

Definition start_resize_new (id : string) (p : Principal) (app claim : string) (size revision : Z) (idem runtime : string) (a : AppRow) (db : DB)
    : result (ResizeRow * DB) :=
  r ← AdmitDeployment db.(rest) p a.(a_Project) a.(a_Environment) idem;
  let db := set_rest r db in
  _ ← fail_when (locked db app) (conflict "application maintenance is advancing");
  _ ← fail_when (negb (a.(a_Revision) =? revision)) ErrConflict;
  _ ← fail_when (backup_busy db.(rest) app) (Errorf "wait for the active database backup or restore before resizing" []);
  _ ← fail_when (non_nil (preview_of db app) || showcase_app db.(rest) app)
        (Errorf "resize is available for permanent applications, not expiring previews or sample applications" []);
  _ ← fail_when (some_row db.(deployments) (app_pending app) || resize_pending db app || cleanup_pending db.(rest) app) (conflict "wait for pending application work");
  source ← match running_release app revision db with Some s => Ok s | None => Err (Errorf "resize requires a successful current deployment" []) end;
  '(next, plan) ← ResizeVolume source claim size id;
  _ ← match ValidateDeployment with Some validate => validate a next | None => Ok tt end;
  r ← reserveStorage db.(rest) a source 0;
  r ← reserveStorage r a next plan.(vr_OldGiB);
  _ ← fail_when (has_key db.(volume_resizes) id ||
                 some_row db.(volume_resizes) (λ o, (o.(rz_IdentityID) =? p.(p_ID))%string && (o.(rz_IdempotencyKey) =? idem)%string)) ErrConstraint;
  let row := mkResizeRow id app p.(p_ID) p.(p_KeyID) idem revision claim plan.(vr_TargetClaim) size plan.(vr_OldGiB) source next "queued" EmptyString
               (if is_empty runtime then "{}" else runtime) in
  Ok (row, set_volume_resizes (<[ id := row ]> db.(volume_resizes)) (set_rest r db)).

Definition StartVolumeResize (p : Principal) (app claim : string) (size revision : Z) (idem runtime : string) (db : DB) : result (ResizeRow * DB) :=
  _ ← fail_when (idempotency_length idem) (Errorf "Idempotency-Key must contain 8–128 characters" []);
  match db.(applications) !! app with
  | None => Err ErrNoRows
  | Some a =>
      _ ← resizeAuthority db.(rest) p a;
      let id := ResizeID p.(p_ID) idem in
      match db.(volume_resizes) !! id with
      | Some prior =>
          _ ← fail_when (negb (prior.(rz_ApplicationID) =? app)%string || negb (prior.(rz_Claim) =? claim)%string || negb (prior.(rz_SizeGiB) =? size) ||
                         negb (prior.(rz_ExpectedRevision) =? revision)) ErrConflict;
          Ok (prior, db)
      | None => start_resize_new id p app claim size revision idem runtime a db
      end
  end.

(** The phase an action asks for. *)
Definition action_phase (r : ResizeRow) (action confirm : string) (db : DB) : result (string * string) :=
  if (action =? "retry")%string then
    _ ← fail_when (is_empty r.(rz_Error)) ErrConflict; Ok (r.(rz_Phase), json_retry r.(rz_Runtime))
  else if (action =? "cancel")%string then
    _ ← fail_when (negb (one_of r.(rz_Phase) ["queued"; "copying"])) ErrConflict; Ok ("cancelling", r.(rz_Runtime))
  else if (action =? "retain")%string then
    _ ← fail_when (negb (r.(rz_Phase) =? "switching")%string || is_empty r.(rz_Error)) ErrConflict; Ok ("original_retained", r.(rz_Runtime))
  else if (action =? "delete-original")%string then
    _ ← fail_when (negb (r.(rz_Phase) =? "original_retained")%string || negb (confirm =? r.(rz_Claim))%string) ErrConflict;
    _ ← fail_when (some_row db.(volume_resizes) (λ o, (o.(rz_ApplicationID) =? r.(rz_ApplicationID))%string && negb (o.(rz_ID) =? r.(rz_ID))%string && resizeBlocking o))
          (conflict "another volume maintenance operation is active");
    Ok ("deleting_original", r.(rz_Runtime))
  else Err (Errorf "unknown resize action" []).

Definition update_resize (id : string) (f : ResizeRow → ResizeRow) (db : DB) : DB := set_volume_resizes (alter f id db.(volume_resizes)) db.

(** The session lock is held for the time of the action. *)
Definition ResizeAction (p : Principal) (app id action confirm : string) (db : DB) : result (unit * DB) :=
  match db.(applications) !! app with
  | None => Err ErrNoRows
  | Some a =>
      _ ← resizeAuthority db.(rest) p a;
      _ ← fail_when (locked db app) (conflict "resize is currently advancing; retry shortly");
      match db.(volume_resizes) !! id with
      | Some r =>
          if (r.(rz_ApplicationID) =? app)%string then
            '(phase, runtime) ← action_phase r action confirm db;
            Ok (tt, update_resize id (λ r, set_rz_Runtime runtime (set_rz_KeyID p.(p_KeyID) (set_rz_Error EmptyString (set_rz_Phase phase r)))) db)
          else Err ErrNoRows
      | None => Err ErrNoRows
      end
  end.

Definition resize_due (r : ResizeRow) : bool := resizeBlocking r && is_empty r.(rz_Error).
Definition resize_candidates (db : DB) : list (string * string) :=
  take 16 ((λ e, (e.2.(rz_ID), e.2.(rz_ApplicationID))) <$> List.filter (λ e, resize_due e.2) (map_to_list db.(volume_resizes))).

Record ResizeClaim : Type := mkResizeClaim { rc_Resize : ResizeRow; rc_App : AppRow }.

(** The row of a candidate under the lock. *)
Definition read_resize (id : string) (db : DB) : option ResizeRow :=
  match db.(volume_resizes) !! id with Some r => if resize_due r then Some r else None | None => None end.

Definition ResizeCheck (c : ResizeClaim) (db : DB) : result unit :=
  p ← KeyPrincipal db.(rest) c.(rc_Resize).(rz_KeyID);
  _ ← resizeAuthority db.(rest) p c.(rc_App);
  match db.(applications) !! c.(rc_App).(a_ID) with
  | Some a => fail_when (negb (a.(a_Revision) =? c.(rc_App).(a_Revision))) ErrConflict
  | None => Err ErrNoRows
  end.

Definition Save (c : ResizeClaim) (phase runtime message : string) (db : DB) : ResizeClaim * DB :=
  let row := λ r, set_rz_Error message (set_rz_Runtime runtime (set_rz_Phase phase r)) in
  (mkResizeClaim (row c.(rc_Resize)) c.(rc_App), update_resize c.(rc_Resize).(rz_ID) row db).

Definition cut_over_app (r : ResizeRow) (a : AppRow) : AppRow :=
  set_a_Status "running" (set_a_Spec r.(rz_TargetSpec) (set_a_Revision (r.(rz_ExpectedRevision) + 1) a)).

Definition BeginCutover (now : Z) (c : ResizeClaim) (db : DB) : result (ResizeClaim * DB) :=
  _ ← ResizeCheck c db;
  let r := c.(rc_Resize) in
  _ ← fail_when (negb (json_verified r.(rz_Runtime)) || negb (r.(rz_Phase) =? "copying")%string) (conflict "a verified offline copy is required before cutover");
  let d := new_deployment r.(rz_ID) r.(rz_ApplicationID) r.(rz_IdentityID) r.(rz_KeyID) ("volume-resize:" +:+ r.(rz_ID)) r.(rz_ID)
             (r.(rz_ExpectedRevision) + 1) Running r.(rz_TargetSpec) (Some r.(rz_TargetSpec)) now (Some now) false in
  db ← insert_deployment d db;
  match db.(applications) !! r.(rz_ApplicationID) with
  | Some a =>
      _ ← fail_when (negb (a.(a_Revision) =? r.(rz_ExpectedRevision))) ErrConflict;
      let db := update_app r.(rz_ApplicationID) (cut_over_app r) db in
      Ok (mkResizeClaim (set_rz_Phase "switching" r) (cut_over_app r c.(rc_App)), update_resize r.(rz_ID) (set_rz_Phase "switching") db)
  | None => Err ErrConflict
  end.

Definition CutoverResult (now : Z) (c : ResizeClaim) (result_json message : string) (db : DB) : DB :=
  let failed := negb (is_empty message) in
  let db := update_deployment c.(rc_Resize).(rz_ID) (finish_row now (if failed then Failed else Succeeded) message result_json) db in
  let db := update_app c.(rc_App).(a_ID)
              (λ a, if a.(a_Revision) =? c.(rc_App).(a_Revision) then set_a_Observed result_json (set_a_Status (if failed then "failed" else "healthy") a) else a) db in
  update_resize c.(rc_Resize).(rz_ID) (λ r, set_rz_Error message (set_rz_Phase (if failed then "switching" else "original_retained") r)) db.

(** The storage of a claim was given back. *)
Definition Reclaimed (c : ResizeClaim) (phase : string) (db : DB) : DB :=
  update_resize c.(rc_Resize).(rz_ID) (λ r, set_rz_Error EmptyString (set_rz_Phase phase r)) db.
End store.
