(* ===== verification/DeploymentResume.v ===== *)
(** What a resumed release runs again, and what it falls back to: the services that were
    not ready with all that depend on them, and the last release that succeeded. *)
From S2P Require Import Prelude GoStd SpecTypes Platform SpecWorkloads SpecNormalize SpecTransfer SpecRecovery StoreErrors Principals DeploymentTables DeploymentStore.
#[global] Open Scope Z_scope.
Set Default Proof Using "Type".

(** The last status a result tells of a service. *)
Definition status_of (observed : list (string * string)) (name : string) : string := default EmptyString (snd <$> last (filter (λ s, s.1 = name) observed)).
Definition unready (spec : Application) (observed : list (string * string)) (name : string) : Prop :=
  ∃ svc, app_services spec !! name = Some svc ∧ ready_status (status_of observed name) = false.
Definition requires (spec : Application) (name dependency : string) : Prop :=
  ∃ svc, app_services spec !! name = Some svc ∧ dependency ∈ svc.(svc_DependsOn).
(** Not ready, or behind a service that is not. *)
Definition affected (spec : Application) (observed : list (string * string)) (name : string) : Prop :=
  ∃ root, rtc (requires spec) name root ∧ unready spec observed root.
(** A job that ran and failed. *)
Definition failed_job (spec : Application) (observed : list (string * string)) (name : string) : Prop :=
  ∃ svc, app_services spec !! name = Some svc ∧ svc.(svc_Job) ≠ None ∧ status_of observed name = "failed".

Section services.
Context `{RangeOrder} (spec : Application) (observed : list (string * string)).
#[local] Abbreviation services := (range (app_services spec)).

(** ** The services that are not ready *)

Lemma not_ready_fold s s' : foldM (not_ready observed) s services = Ok s' →
  (∀ n, n ∈ s' ↔ n ∈ s ∨ unready spec observed n) ∧ ∀ n, ¬ failed_job spec observed n.
Proof.
  intros Hf. cut ((∀ n, n ∈ s' ↔ n ∈ s ∨ ∃ svc, (n, svc) ∈ services ∧ ready_status (status_of observed n) = false) ∧
    ∀ n svc, (n, svc) ∈ services → svc.(svc_Job) ≠ None → status_of observed n ≠ "failed").
  { intros [Hin Hj]. split.
    - intros n. rewrite Hin. unfold unready. by setoid_rewrite elem_of_range.
    - intros n (svc & Hn & Hjob & Hs). apply (Hj n svc); [by apply elem_of_range|done|done]. }
  apply (foldM_inv (λ pre t, (∀ n, n ∈ t ↔ n ∈ s ∨ ∃ svc, (n, svc) ∈ pre ∧ ready_status (status_of observed n) = false) ∧
    ∀ n svc, (n, svc) ∈ pre → svc.(svc_Job) ≠ None → status_of observed n ≠ "failed") (not_ready observed) services s s'); [|clear Hf|done].
  - split; [intros n; split; [by left|]; intros [?|(svc & []%not_elem_of_nil & _)]; done|]. intros n svc []%not_elem_of_nil.
  - intros pre [n svc] post t t' _ [Hin Hj] Hx. unfold not_ready in Hx. fold (status_of observed n) in Hx.
    assert ((∀ m, m ∈ t' ↔ m ∈ t ∨ m = n ∧ ready_status (status_of observed n) = false) ∧ (svc.(svc_Job) ≠ None → status_of observed n ≠ "failed")) as [Ht Hn].
    { destruct (ready_status (status_of observed n)) eqn:Hr.
      - injection Hx as <-. split; [naive_solver|]. intros _ Hs. by rewrite Hs in Hr.
      - inv_ok. split; [set_solver|]. intros Hjob Hs. rewrite Hs in *. by destruct svc.(svc_Job). }
    split.
    + intros m. rewrite Ht, Hin. setoid_rewrite elem_of_app. setoid_rewrite list_elem_of_singleton. naive_solver.
    + intros m svc' [Hm|[= -> ->]%list_elem_of_singleton]%elem_of_app; [by apply Hj|done].
Qed.

Lemma not_ready_accepts l : (∀ n svc, (n, svc) ∈ l → svc.(svc_Job) ≠ None → status_of observed n ≠ "failed") → ∀ s, ∃ s', foldM (not_ready observed) s l = Ok s'.
Proof.
  induction l as [|[n svc] l IH]; intros Hj s; [by exists s|]. cbn [foldM].
  assert (∃ t, not_ready observed s (n, svc) = Ok t) as [t ->].
  { unfold not_ready. fold (status_of observed n). destruct (ready_status (status_of observed n)); [by eexists|]. rewrite fail_when_false; [by eexists|].
    destruct (svc.(svc_Job)) eqn:Hjob; [|done]. cbn [non_nil andb]. apply String.eqb_neq, (Hj n svc); [by left|congruence]. }
  apply IH. intros m svc' Hm. apply Hj. by right.
Qed.

(** ** The services that depend on them *)

Definition pass (selected : gset string) : gset string := fold_left dependent services selected.

Lemma dependent_spec selected n svc m : m ∈ dependent selected (n, svc) ↔ m ∈ selected ∨ m = n ∧ ∃ dependency, dependency ∈ svc.(svc_DependsOn) ∧ dependency ∈ selected.
Proof.
  unfold dependent. case_bool_decide as Hn; [naive_solver|]. destruct (existsb _ _) eqn:He.
  - apply existsb_exists in He as (dep & Hd%list_elem_of_In & Hs%bool_decide_eq_true). set_solver.
  - split; [by left|]. intros [?|(-> & dep & Hd & Hs)]; [done|]. exfalso. apply not_true_iff_false in He. apply He, existsb_exists.
    exists dep. split; [by apply list_elem_of_In|by apply bool_decide_eq_true].
Qed.

Lemma fold_dependent_grows l selected : selected ⊆ fold_left dependent l selected.
Proof.
  revert selected. induction l as [|[n svc] l IH]; intros selected; [done|]. cbn [fold_left]. etrans; [|apply IH]. intros m Hm. apply dependent_spec. by left.
Qed.

(** Only services that depend on selected ones are added. *)
Lemma fold_dependent_sound (P : string → Prop) l selected : (∀ n svc dep, (n, svc) ∈ l → dep ∈ svc.(svc_DependsOn) → P dep → P n) →
  (∀ n, n ∈ selected → P n) → ∀ n, n ∈ fold_left dependent l selected → P n.
Proof.
  revert selected. induction l as [|[n svc] l IH]; intros selected Hl Hs; [done|]. cbn [fold_left]. apply IH.
  - intros m svc' dep Hm. apply Hl. by right.
  - intros m [Hm|(-> & dep & Hd & Hsd)]%dependent_spec; [by apply Hs|]. apply (Hl n svc dep); [by left|done|by apply Hs].
Qed.

(** A pass that adds nothing leaves nothing to add. *)
Lemma fold_dependent_fixed l selected : fold_left dependent l selected = selected → ∀ n svc dep, (n, svc) ∈ l → dep ∈ svc.(svc_DependsOn) → dep ∈ selected → n ∈ selected.
Proof.
  induction l as [|[m svc'] l IH]; [by intros _ n svc dep []%not_elem_of_nil|]. cbn [fold_left]. intros Hf.
  assert (dependent selected (m, svc') = selected) as Hd.
  { apply set_eq. intros x. split; [|intros Hx; apply dependent_spec; by left]. intros Hx. rewrite <-Hf. by apply fold_dependent_grows. }
  rewrite Hd in Hf. intros n svc dep [[= -> ->]|Hn]%elem_of_cons Hdep Hs; [|by eapply IH]. rewrite <-Hd. apply dependent_spec. right. split; [done|by exists dep].
Qed.

(** The passes end: each one but the last adds a service. *)
Lemma with_dependents_closed (all : gset string) fuel selected : (∀ n svc, (n, svc) ∈ services → n ∈ all) → selected ⊆ all → (size all < fuel + size selected)%nat →
  pass (with_dependents fuel services selected) = with_dependents fuel services selected.
Proof.
  intros Hall. revert selected. induction fuel as [|fuel IH]; intros selected Hs Hsize; [apply subseteq_size in Hs; lia|]. cbn [with_dependents].
  fold (pass selected). case_bool_decide as Hp; [done|].
  assert (pass selected ⊆ all) as Hs'.
  { intros n. apply (fold_dependent_sound (λ m, m ∈ all)); [|by apply Hs]. intros m svc dep Hm _ _. by eapply Hall. }
  apply IH; [done|]. assert (selected ⊂ pass selected) as Hgrow%subset_size; [|lia].
  split; [apply fold_dependent_grows|]. intros Hle. apply Hp. apply set_eq. intros x. split; [apply Hle|apply fold_dependent_grows].
Qed.

Lemma with_dependents_sound (P : string → Prop) fuel selected : (∀ n svc dep, (n, svc) ∈ services → dep ∈ svc.(svc_DependsOn) → P dep → P n) →
  (∀ n, n ∈ selected → P n) → ∀ n, n ∈ with_dependents fuel services selected → P n.
Proof.
  intros Hl. revert selected. induction fuel as [|fuel IH]; intros selected Hs; [done|]. cbn [with_dependents]. case_bool_decide; [done|].
  apply IH. by apply fold_dependent_sound.
Qed.

Lemma with_dependents_grows fuel selected : selected ⊆ with_dependents fuel services selected.
Proof.
  revert selected. induction fuel as [|fuel IH]; intros selected; [done|]. cbn [with_dependents]. case_bool_decide; [done|]. etrans; [apply fold_dependent_grows|apply IH].
Qed.

Lemma with_dependents_affected selected : (∀ n, n ∈ selected ↔ unready spec observed n) →
  ∀ n, n ∈ with_dependents (S (length services)) services selected ↔ affected spec observed n.
Proof.
  intros Hsel n. split.
  - apply with_dependents_sound.
    + intros m svc dep Hm Hd (root & Hr & Hu). exists root. split; [|done]. eapply rtc_l; [|exact Hr]. exists svc. split; [by apply elem_of_range|done].
    + intros m Hm. exists m. split; [apply rtc_refl|by apply Hsel].
  - intros (root & Hr & Hu). set (closed := with_dependents _ _ _).
    assert (pass closed = closed) as Hfix.
    { apply (with_dependents_closed (dom (app_services spec))).
      - intros m svc Hm%elem_of_range. by apply elem_of_dom_2 in Hm.
      - intros m (svc & Hm & _)%Hsel. by apply elem_of_dom_2 in Hm.
      - rewrite size_dom. rewrite (Permutation_length (range_perm (app_services spec))), length_map_to_list. lia. }
    induction Hr as [m|m dep root' (svc & Hm & Hd) _ IH]; [by apply with_dependents_grows, Hsel|].
    eapply (fold_dependent_fixed services); [exact Hfix|by apply elem_of_range|exact Hd|by apply IH].
Qed.

(** C21: Resuming runs exactly the services that were not ready and all that depend on one of
    these, however long the chain; it is refused when there is none, or when a job that
    failed would have to run a second time. *)
Theorem resume_services_exact :
  (is_ok (resume_services spec observed) = true ↔ (∃ n, unready spec observed n) ∧ ∀ n, ¬ failed_job spec observed n) ∧
  ∀ l, resume_services spec observed = Ok l → Sorted str_le l ∧ NoDup l ∧ ∀ n, n ∈ l ↔ affected spec observed n.
Proof.
  unfold resume_services. split.
  - split.
    + intros (l & Hl)%is_ok_true. inv_ok. match goal with Hf : foldM _ _ _ = Ok ?s |- _ => destruct (not_ready_fold _ _ Hf) as [Hs Hj];
        pose proof (with_dependents_affected s ltac:(intros n; rewrite Hs; set_solver)) as Ha end.
      split; [|done]. match goal with He : bool_decide _ = false |- _ => apply bool_decide_eq_false, set_choose_L in He; destruct He as [n Hin] end.
      apply Ha in Hin as (root & _ & Hu). by exists root.
    + intros [[n Hn] Hj]. destruct (not_ready_accepts services) with (s := (∅ : gset string)) as [s Hs].
      { intros m svc Hm%elem_of_range Hjob Hst. apply (Hj m). by exists svc. }
      rewrite Hs. cbn [mbind result_bind]. destruct (not_ready_fold _ _ Hs) as [Hin _]. rewrite fail_when_false; [done|]. apply bool_decide_eq_false. intros He.
      assert (n ∈ with_dependents (S (length services)) services s) as Hw by (apply with_dependents_grows, Hin; by right). rewrite He in Hw. set_solver.
  - intros l Hl. inv_ok. match goal with Hf : foldM _ _ _ = Ok ?s |- _ => destruct (not_ready_fold _ _ Hf) as [Hs Hj];
      pose proof (with_dependents_affected s ltac:(intros n; rewrite Hs; set_solver)) as Ha end.
    split_and!; [apply sort_strings_sorted| |].
    + rewrite sort_strings_perm. apply NoDup_elements.
    + intros n. rewrite elem_of_sort_strings, elem_of_elements. apply Ha.
Qed.
End services.

Import Concrete.

(** The database of the shop failed: the web service behind it runs again too. *)
Lemma resume_services_exact_witness : ∃ l, resume_services Shop.stored [("db", "failed"); ("web", "ready")] = Ok l ∧ affected Shop.stored [("db", "failed"); ("web", "ready")] "web".
Proof.
  destruct (resume_services Shop.stored [("db", "failed"); ("web", "ready")]) as [l|e] eqn:Hl; [|vm_compute in Hl; discriminate]. exists l. split; [done|].
  destruct (proj2 (resume_services_exact Shop.stored [("db", "failed"); ("web", "ready")]) l Hl) as (_ & _ & Ha). apply Ha.
  vm_compute in Hl. injection Hl as <-. by repeat constructor.
Defined.
