(* ===== verification/Protocol.v ===== *)
(** Programs of calls, whose answers are left open, and the protocols they keep. A protocol
    says which calls are allowed at a stage, what stage an answer leads to, and which answers
    can be counted on; a program obeys it when every call it makes is allowed, whatever the
    answers. *)
From S2P Require Import Prelude.
Set Default Proof Using "Type".

(** Programs over calls [E], each with its type of answers. *)
Inductive Program {E : Type} (Ans : E → Type) (A : Type) : Type :=
  | Return (a : A)
  | Ask (c : E) (k : Ans c → Program Ans A).
Arguments Return {E Ans A} a.
Arguments Ask {E Ans A} c k.

Record Protocol {E : Type} (Ans : E → Type) (S : Type) : Type := mkProtocol {
  pr_allowed : S → E → Prop;
  pr_after : S → ∀ c, Ans c → S;
  pr_honest : ∀ c, Ans c → Prop;
}.
Arguments mkProtocol {E Ans S} pr_allowed pr_after pr_honest.
Arguments pr_allowed {E Ans S} p.
Arguments pr_after {E Ans S} p.
Arguments pr_honest {E Ans S} p.

Section program.
Context {E : Type} {Ans : E → Type}.

Fixpoint Program_bind {A B} (f : A → Program Ans B) (p : Program Ans A) : Program Ans B :=
  match p with Return a => f a | Ask c k => Ask c (λ x, Program_bind f (k x)) end.
#[export] Instance program_ret : MRet (Program Ans) := @Return E Ans.
#[export] Instance program_bind : MBind (Program Ans) := @Program_bind.
Definition ask_for (c : E) : Program Ans (Ans c) := Ask c Return.

Context {S : Type} (P : Protocol Ans S).

(** From stage [s] the program keeps the protocol, and [post] holds when it returns. *)
Fixpoint obeys {A} (s : S) (p : Program Ans A) (post : S → A → Prop) : Prop :=
  match p with
  | Return a => post s a
  | Ask c k => P.(pr_allowed) s c ∧ ∀ a, P.(pr_honest) c a → obeys (P.(pr_after) s c a) (k a) post
  end.

Lemma obeys_bind {A B} (p : Program Ans A) (f : A → Program Ans B) s post : obeys s p (λ s a, obeys s (f a) post) → obeys s (p ≫= f) post.
Proof.
  unfold mbind, program_bind. revert s. induction p as [a|c k IH]; intros s; cbn; [done|]. intros [Ha Hk]. split; [done|]. intros a Hh. by apply IH, Hk.
Qed.

Lemma obeys_mono {A} (p : Program Ans A) s (post post' : S → A → Prop) : (∀ s a, post s a → post' s a) → obeys s p post → obeys s p post'.
Proof.
  intros Hm. revert s. induction p as [a|c k IH]; intros s; cbn; [apply Hm|]. intros [Ha Hk]. split; [done|]. intros a Hh. by apply IH, Hk.
Qed.

Lemma obeys_ask c s post : P.(pr_allowed) s c → (∀ a, P.(pr_honest) c a → post (P.(pr_after) s c a) a) → obeys s (ask_for c) post.
Proof. by intros; split. Qed.

Lemma obeys_ask_bind {B} c (f : Ans c → Program Ans B) s post : P.(pr_allowed) s c →
  (∀ a, P.(pr_honest) c a → obeys (P.(pr_after) s c a) (f a) post) → obeys s (ask_for c ≫= f) post.
Proof. intros Ha Hk. by apply obeys_bind, obeys_ask. Qed.
End program.
