(* ===== verification/DeploymentWorker.v ===== *)
(** The worker that runs a claimed release (internal/worker: worker.go,
    actions_timeout.go). A run is a program of calls: to the store, to the
    cluster, and to the state of its context, which other goroutines end. What each call
    answers is left open; the time budgets are functions on nanoseconds. *)
From S2P Require Import Prelude Protocol GoStd SpecTypes Provider SpecServices SpecStorage SpecNormalize SpecRecovery Platform StoreErrors Principals DeploymentTables DeploymentStore.
#[global] Open Scope Z_scope.

(** [reflect.DeepEqual] on applications. *)
#[export] Instance SandboxSession_eq_dec : EqDecision SandboxSession.
Proof. solve_decision. Defined.
#[export] Instance GitLabTarget_eq_dec : EqDecision GitLabTarget.
Proof. solve_decision. Defined.
#[export] Instance BitbucketTarget_eq_dec : EqDecision BitbucketTarget.
Proof. solve_decision. Defined.
#[export] Instance ActionsCache_eq_dec : EqDecision ActionsCache.
Proof. solve_decision. Defined.
#[export] Instance Actions_eq_dec : EqDecision Actions.
Proof. solve_decision. Defined.
#[export] Instance Service_eq_dec : EqDecision Service.
Proof. solve_decision. Defined.
#[export] Instance Application_eq_dec : EqDecision Application.
Proof. solve_decision. Defined.

(** * Time budgets *)

Definition Minute : Z := 60 * Second.

(** [time.Duration(n) * time.Second] *)
Definition seconds (n : Z) : Z := wrap64 (n * Second).

Definition recreateGrace (service : Service) : Z := if Recreates service then TerminationGrace service else 0.

(** A job that runs with the release. *)
Definition release_job (j : Job) : bool := negb (non_nil j.(job_Schedule)) && negb (non_nil j.(job_Invocation)).

Section budgets.
Context `{RangeOrder}.

(** The body of the loop of [deploymentAttemptTimeout]: what is requested, if anything is. *)
Definition attempt_budget (requested : option Z) (entry : string * Service) : option Z :=
  let service := entry.2 in
  let start := default (30 * Second) requested in
  match service.(svc_Job) with
  | Some j => if release_job j then Some (wrap64 (start + wrap64 (seconds j.(job_TimeoutSeconds) + 30 * Second))) else requested
  | None =>
      let grace := if service.(svc_TerminationGraceSeconds) =? 0 then 0 else recreateGrace service in
      if negb (service.(svc_StartupTimeoutSeconds) =? 0) || (0 <? grace)
      then Some (wrap64 (start + wrap64 (seconds service.(svc_StartupTimeoutSeconds) + grace))) else requested
  end.
Definition deploymentAttemptTimeout (app : Application) (fallback : Z) : Z :=
  match fold_left attempt_budget (range (app_services app)) None with
  | None => fallback
  | Some requested => Z.max fallback requested
  end.

(** With a cluster that tells how long the rollout of one service may take. *)
Definition runtime_budget (rollout : Z) (requested : Z) (entry : string * Service) : Z :=
  let service := entry.2 in
  match service.(svc_Job) with
  | Some j => if release_job j then wrap64 (requested + wrap64 (seconds j.(job_TimeoutSeconds) + 30 * Second)) else requested
  | None =>
      let requested := if 0 <? service.(svc_StartupTimeoutSeconds) then wrap64 (requested + seconds service.(svc_StartupTimeoutSeconds)) else wrap64 (requested + rollout) in
      wrap64 (requested + recreateGrace service)
  end.
Definition deploymentRuntimeTimeout (rollout : option Z) (app : Application) (fallback : Z) : Z :=
  match rollout with
  | Some r =>
      if r <=? 0 then deploymentAttemptTimeout app fallback
      else if bool_decide (app_services app = ∅) then fallback
      else Z.max fallback (fold_left (runtime_budget r) (range (app_services app)) (30 * Second))
  | None => deploymentAttemptTimeout app fallback
  end.
End budgets.

Definition deploymentRecoveryBudgetSpec (d : Deployment) (previous : option Deployment) : Application :=
  match d.(d_RecoverySpec), (d.(d_RecoveryState) =? "running")%string with
  | Some spec, true => spec
  | _, _ => match previous with Some {| d_ResolvedSpec := Some spec |} => spec | _ => d.(d_Spec) end
  end.

Definition deploymentOperationTimeout (base deploy recovery : Z) : Z :=
  if (deploy <=? wrap64 (base * 2) ÷ 3) && (recovery <=? base ÷ 2) then base else Z.max base (wrap64 (wrap64 (deploy + recovery) + 30 * Second)).

(** * Programs of calls *)

Record Target : Type := mkTarget {
  tg_Project : string;
  tg_Environment : string;
  tg_ApplicationID : string;
  tg_OperationID : string;
  tg_Revision : Z;
  tg_Spec : Application;
  tg_Previous : option Application;
  tg_ResumeServices : list string;
}.

(** What a deployment of the cluster returns: its report, the services that failed in it,
    and its error, which may say that nothing was changed. *)
Record DeployReport : Type := mkReport { rep_JSON : string; rep_Failed : list string }.
Record DeployError : Type := mkDeployError { de_Text : string; de_NotApplied : bool }.
Record ActionsSlot : Type := mkActionsSlot { as_ApplicationID : string; as_Service : string; as_Config : Service }.

(** The result a run is finished with: a status, a status with the time it was seen, the
    report of a deployment, or the stored one. *)
Inductive RunResult : Type := StatusOnly (s : Status) | StatusSeen (s : Status) | Observed (r : DeployReport) | Stored (json : string).

(** Why the context of a run ended. *)
Inductive Cause : Type := CauseCancelled | CauseAuthority | CauseDatabase | CauseOther (text : string).
Definition cause_text (c : Cause) : string :=
  match c with
  | CauseCancelled => "cancellation requested; already applied resources remain"
  | CauseAuthority => "deployment authority revoked or expired; new steps stopped; existing resources remain"
  | CauseDatabase => "database connectivity lost; operation will resume"
  | CauseOther text => text
  end.
(** The contexts of a run: whether the one of the process is live, why its own ended. *)
Record Contexts : Type := mkContexts { cx_Parent : bool; cx_Cause : option Cause }.

(** [Reauthorize]: granted, denied (unauthorized or forbidden), or not known. *)
Inductive Access : Type := Granted | Denied | AccessUnknown.

(** [CallWithin] sets the deadline of the calls that follow, from the start of the run;
    [CallExpired] asks whether it passed. *)
Inductive Call : Type :=
  | CallWithin (limit : Z)
  | CallExpired
  | CallContexts
  | CallCancel (cause : Cause)
  | CallStepEnded
  | CallReauthorize (key : string) (a : AppRow)
  | CallRuntimeBase (app : string) (revision : Z)
  | CallActionsSlots (app service : string)
  | CallLastHealthy (app : string) (before : Z)
  | CallDeployment (id : string)
  | CallCheck (c : Claim)
  | CallEvent (type message : string)
  | CallResolve (app : Application) (project environment : string)
  | CallDeploy (limit : Z) (target : Target)
  | CallSetResolved (c : Claim) (app : Application)
  | CallBeginRecovery (c : Claim) (previous : option Deployment) (failure skip : string)
  | CallFinishRecovery (c : Claim) (state message : string) (r : RunResult)
  | CallFinish (c : Claim) (status : Status) (message : string) (r : RunResult).

Definition Answer (c : Call) : Type :=
  match c with
  | CallWithin _ | CallCancel _ | CallEvent _ _ => unit
  | CallExpired => bool
  | CallContexts => Contexts
  | CallStepEnded => option string
  | CallReauthorize _ _ => Access
  | CallRuntimeBase _ _ | CallLastHealthy _ _ => result (option Deployment)
  | CallActionsSlots _ _ => result (list ActionsSlot)
  | CallDeployment _ => result Deployment
  | CallCheck _ => bool
  | CallResolve _ _ _ => Application + string
  | CallDeploy _ _ => DeployReport * option DeployError
  | CallSetResolved _ _ => result Application
  | CallBeginRecovery _ _ _ _ | CallFinishRecovery _ _ _ _ => result Claim
  | CallFinish _ _ _ _ => result unit
  end.

Abbreviation Prog := (Program Answer).
Definition ask (c : Call) : Prog (Answer c) := ask_for c.

(** * Managed Actions: time to drain *)

Definition suspended_pool (s : Service) : bool := non_nil s.(svc_Actions) && s.(svc_Suspended).

Definition actionsDrainCandidate `{RangeOrder} (d : Deployment) : bool :=
  negb d.(d_CancelRequested) && negb (d.(d_Revision) <? 2) && is_empty d.(d_RecoveryState) &&
  match d.(d_ResolvedSpec) with Some spec => existsb (λ e, suspended_pool e.2) (range (app_services spec)) | None => false end.

Definition actionsDrainLifetime (service : Service) : option Z :=
  match service.(svc_Actions) with
  | None => None
  | Some a =>
      let minutes := if a.(act_TimeoutMinutes) =? 0 then 60 else a.(act_TimeoutMinutes) in
      if (minutes <? 5) || (360 <? minutes) then None
      else if (Effective a.(act_Provider) =? ProviderGitHub)%string then Some (minutes * Minute + 30 * Second)
      else if (Effective a.(act_Provider) =? ProviderGitLab)%string then Some (minutes * Minute + 4 * Minute)
      else None
  end.

Section drain.
Context `{Host} `{ThirdParty} `{Quantity} `{RangeOrder}.

(** One service of the next revision: the pools it suspends, those it keeps suspended. *)
Definition suspension (previous : Application) (st : list string * gmap string Service * Application) (name : string)
    : list string * gmap string Service * Application :=
  let '(changed, suspended, next) := st in
  let service := default zero_Service (app_services next !! name) in
  if negb (suspended_pool service) then st
  else
    let suspended := <[ name := service ]> suspended in
    match app_services previous !! name with
    | Some prior =>
        if non_nil prior.(svc_Actions) && negb prior.(svc_Suspended)
        then (changed ++ [name], suspended, set_app_Services (Some (<[ name := set_svc_Suspended false service ]> (app_services next))) next)
        else (changed, suspended, next)
    | None => (changed, suspended, next)
    end.
Definition actionsSuspensionChanges (before after : Application) : list string * gmap string Service :=
  match Normalize before, Normalize after with
  | Ok previous, Ok next =>
      let '(changed, suspended, undone) := fold_left (suspension previous) (Names next) ([], ∅, next) in
      if bool_decide (changed = []) || negb (bool_decide (previous = undone)) then ([], ∅) else (changed, suspended)
  | _, _ => ([], ∅)
  end.

(** The base of a release that was recovered is what it was recovered to. *)
Definition recovered_base (base : Deployment) : Deployment :=
  match base.(d_RecoverySpec), (base.(d_RecoveryState) =? "succeeded")%string with
  | Some spec, true =>
      mkDeployment base.(d_ID) base.(d_ApplicationID) base.(d_IdentityID) base.(d_KeyID) base.(d_IdempotencyKey) base.(d_RequestHash) base.(d_Revision) Succeeded
        spec (Some spec) base.(d_Result) base.(d_Error) base.(d_CancelRequested) base.(d_Attempts) base.(d_CreatedAt) base.(d_StartedAt) base.(d_FinishedAt)
        base.(d_RollbackRequested) base.(d_RecoveryState) base.(d_RecoveryRevision) base.(d_RecoverySpec) base.(d_RecoveryError) base.(d_ResumeGeneration)
        base.(d_ResumeServices) base.(d_ResumeIdentityID) base.(d_ResumeKeyID)
  | _, _ => base
  end.
Definition actionsSuspensionServices (d base : Deployment) : gmap string Service :=
  if negb (actionsDrainCandidate d) || negb (base.(d_ApplicationID) =? d.(d_ApplicationID))%string || negb (base.(d_Revision) =? d.(d_Revision) - 1) then ∅
  else
    let base := recovered_base base in
    match base.(d_ResolvedSpec), d.(d_ResolvedSpec) with
    | Some base_resolved, Some resolved =>
        if negb (bool_decide (base.(d_Status) ∈ [Succeeded; Failed])) || (base.(d_RecoveryState) =? "running")%string then ∅
        else
          let desired := (actionsSuspensionChanges base.(d_Spec) d.(d_Spec)).1 in
          let '(changed, services) := actionsSuspensionChanges base_resolved resolved in
          if bool_decide (desired = []) || negb (bool_decide (desired = changed)) then ∅ else services
    | _, _ => ∅
    end.

(** The slots of one pool: [None] gives up on an allowance. *)
Fixpoint slots_allowance (app name : string) (slots : list ActionsSlot) (allowance : Z) : result (option Z) :=
  match slots with
  | [] => Ok (Some allowance)
  | slot :: slots =>
      if negb (slot.(as_ApplicationID) =? app)%string || negb (slot.(as_Service) =? name)%string
      then Err (Errorf "Managed Actions slot belongs to another pool" [])
      else match actionsDrainLifetime slot.(as_Config) with
           | None => Ok None
           | Some lifetime => slots_allowance app name slots (Z.max allowance lifetime)
           end
  end.
Fixpoint pools_allowance (app : string) (services : gmap string Service) (names : list string) (allowance : Z) : Prog (result Z) :=
  match names with
  | [] => Return (Ok allowance)
  | name :: names =>
      match actionsDrainLifetime (default zero_Service (services !! name)) with
      | None => Return (Ok 0)
      | Some lifetime =>
          slots ← ask (CallActionsSlots app name);
          match slots with
          | Err e => Return (Err e)
          | Ok slots =>
              if 20 <? lenl slots then Return (Err (Errorf "Managed Actions slot inventory exceeds its bound" []))
              else match slots_allowance app name slots (Z.max allowance lifetime) with
                   | Err e => Return (Err e)
                   | Ok None => Return (Ok 0)
                   | Ok (Some allowance) => pools_allowance app services names allowance
                   end
          end
      end
  end.
Definition actionsDrainAllowance (d : Deployment) : Prog (result Z) :=
  if negb (actionsDrainCandidate d) then Return (Ok 0)
  else
    base ← ask (CallRuntimeBase d.(d_ApplicationID) (d.(d_Revision) - 1));
    match base with
    | Err e => Return (Err e)
    | Ok None => Return (Ok 0)
    | Ok (Some base) =>
        let services := actionsSuspensionServices d base in
        pools_allowance d.(d_ApplicationID) services (sort_strings (keys_of services)) 0
    end.
End drain.

(** * A run *)

Section run.
Context `{Host} `{ThirdParty} `{Quantity} `{RangeOrder}.
(** The budget of the worker, zero when none is configured, and how long its cluster gives
    the rollout of a service, when it tells. *)
Context (Timeout : Z) (rollout : option Z).

Definition emit (type message : string) : Prog unit := ask (CallEvent type message).

Definition finish (c : Claim) (status : Status) (message : string) (r : RunResult) : Prog unit :=
  let failed := negb (bool_decide (status = Succeeded)) in
  ended ← (if (c.(c_Deployment).(d_RecoveryState) =? "running")%string && failed
           then ask (CallFinishRecovery c "failed" ("Recovery stopped: " +:+ message) r) else Return (Ok c));
  match ended with
  | Err _ => Return tt
  | Ok c =>
      finished ← ask (CallFinish c status message r);
      match finished with
      | Err _ => Return tt
      | Ok _ => if failed then emit (status_text status) message else Return tt
      end
  end.

Definition handleFailure (c : Claim) (err : string) (r : option RunResult) : Prog unit :=
  cx ← ask CallContexts;
  match cx.(cx_Parent), cx.(cx_Cause) with
  | false, _ | _, Some CauseDatabase => Return tt
  | true, cause =>
      let '(status, message) := match cause with
        | Some ((CauseCancelled | CauseAuthority) as cause) => (Cancelled, cause_text cause)
        | _ => (Failed, err)
        end in
      finish c status message (default (StatusSeen status) r)
  end.

(** The end of a release that was recovered, or whose recovery failed or was skipped. *)
Definition finish_recovered (c : Claim) : Prog unit :=
  let d := c.(c_Deployment) in
  let outcome := if (d.(d_RecoveryState) =? "succeeded")%string then "; previous healthy workload configuration restored"
                 else "; recovery " +:+ d.(d_RecoveryState) +:+ ": " +:+ d.(d_RecoveryError) in
  finish c Failed (d.(d_Error) +:+ outcome) (Stored d.(d_Result)).

Definition recovery_target (target : Target) (spec : Application) : Target :=
  mkTarget target.(tg_Project) target.(tg_Environment) target.(tg_ApplicationID) target.(tg_OperationID) target.(tg_Revision)
    spec (Some target.(tg_Spec)) target.(tg_ResumeServices).

Definition recoverRelease (c : Claim) (target : Target) : Prog unit :=
  let d := c.(c_Deployment) in
  if negb (d.(d_RecoveryState) =? "running")%string then finish_recovered c
  else match d.(d_RecoverySpec) with
  | None => Return tt
  | Some spec =>
      _ ← emit "recovery_started" ("Restoring workload configuration from revision " +:+ Itoa d.(d_RecoveryRevision) +:+ ". External data and secret values are not rolled back");
      let fallback := if Timeout ÷ 2 =? 0 then 5 * Minute else Timeout ÷ 2 in
      deployed ← ask (CallDeploy (deploymentRuntimeTimeout rollout spec fallback) (recovery_target target spec));
      cx ← ask CallContexts;
      match cx.(cx_Cause) with
      | Some cause => handleFailure c (cause_text cause) (Some (Observed deployed.1))
      | None =>
          let '(state, message) := match deployed.2 with None => ("succeeded", EmptyString) | Some e => ("failed", e.(de_Text)) end in
          recovered ← ask (CallFinishRecovery c state message (Observed deployed.1));
          match recovered with
          | Err _ => Return tt
          | Ok c =>
              _ ← (if (state =? "succeeded")%string
                   then emit "recovered" ("Revision " +:+ Itoa c.(c_Deployment).(d_RecoveryRevision) +:+ " workload configuration restored; the attempted release remains failed")
                   else emit "recovery_failed" message);
              finish_recovered c
          end
      end
  end.

(** What is given before any deadline of the run is set: the time to drain, unless the run ends. *)
Definition prepare (base : Z) (c : Claim) : Prog (option Z) :=
  let d := c.(c_Deployment) in
  if negb (actionsDrainCandidate d) then Return (Some 0)
  else
    _ ← ask (CallWithin (Z.min base (5 * Second)));
    access ← ask (CallReauthorize d.(d_KeyID) c.(c_App));
    match access with
    | Denied => _ ← finish c Cancelled (cause_text CauseAuthority) (StatusOnly Cancelled); Return None
    | AccessUnknown => Return None
    | Granted =>
        allowance ← actionsDrainAllowance d;
        expired ← ask CallExpired;
        match allowance with Ok allowance => Return (if expired : bool then None else Some allowance) | Err _ => Return None end
    end.

(** The images of a release are resolved once. *)
Definition resolve (c : Claim) : Prog (option Application) :=
  let d := c.(c_Deployment) in
  match d.(d_ResolvedSpec) with
  | Some resolved => Return (Some resolved)
  | None =>
      resolved ← ask (CallResolve d.(d_Spec) c.(c_App).(a_Project) c.(c_App).(a_Environment));
      match resolved with
      | inr err => _ ← handleFailure c err None; Return None
      | inl app =>
          winner ← ask (CallSetResolved c app);
          match winner with
          | Err _ => _ ← ask (CallCancel CauseDatabase); Return None
          | Ok app => _ ← emit "resolved" "All container images resolved to immutable digests"; Return (Some app)
          end
      end
  end.

(** What follows the first deployment of a release. *)
Definition conclude (c : Claim) (previous : option Deployment) (target : Target) (report : DeployReport) (err : option DeployError) : Prog unit :=
  match err with
  | None =>
      _ ← emit "succeeded" "Every service is ready; release completed";
      cx ← ask CallContexts;
      match cx.(cx_Cause) with
      | Some cause => handleFailure c (cause_text cause) (Some (Observed report))
      | None => finish c Succeeded EmptyString (Observed report)
      end
  | Some err =>
      let message := err.(de_Text) in
      cx ← ask CallContexts;
      if non_nil cx.(cx_Cause) then handleFailure c message (Some (Observed report))
      else
        _ ← emit "failed" message;
        if err.(de_NotApplied) then
          _ ← emit "recovery_skipped" "No workload was changed; the running release was left in place.";
          finish c Failed message (Observed report)
        else if 0 <? lenl report.(rep_Failed) then
          _ ← emit "resume_available" "Healthy independent services were retained. Resume retries failed and dependent services at this accepted revision.";
          finish c Failed message (Observed report)
        else
          let skip := RecoveryBlocked target.(tg_Spec) target.(tg_Previous) in
          begun ← ask (CallBeginRecovery c previous message skip);
          match begun with
          | Err _ => ask (CallCancel CauseDatabase)
          | Ok c =>
              if negb (is_empty skip) then _ ← emit "recovery_skipped" skip; finish c Failed (message +:+ "; " +:+ skip) (Observed report)
              else recoverRelease c target
          end
  end.

(** With the deadline of the run set. *)
Definition reconcile (deploy drain : Z) (c : Claim) (previous : option Deployment) : Prog unit :=
  let d := c.(c_Deployment) in
  let a := c.(c_App) in
  access ← ask (CallReauthorize d.(d_KeyID) a);
  match access with
  | Denied => finish c Cancelled (cause_text CauseAuthority) (StatusOnly Cancelled)
  | AccessUnknown => Return tt
  | Granted =>
      if d.(d_CancelRequested) then finish c Cancelled (cause_text CauseCancelled) (StatusOnly Cancelled)
      else
        _ ← emit "running" "Reconciling immutable application release";
        resolved ← resolve c;
        match resolved with
        | None => Return tt
        | Some resolved =>
            let target := mkTarget a.(a_Project) a.(a_Environment) a.(a_ID) d.(d_ID) d.(d_Revision) resolved (previous ≫= d_ResolvedSpec) d.(d_ResumeServices) in
            if negb (is_empty d.(d_RecoveryState)) then recoverRelease c target
            else
              deployed ← ask (CallDeploy (wrap64 (deploy + drain)) target);
              conclude c previous target deployed.1 deployed.2
        end
  end.

Definition run (c : Claim) : Prog unit :=
  let d := c.(c_Deployment) in
  let base := if Timeout =? 0 then 10 * Minute else Timeout in
  let deploy := deploymentRuntimeTimeout rollout d.(d_Spec) (wrap64 (base * 2) ÷ 3) in
  prepared ← prepare base c;
  match prepared with
  | None => Return tt
  | Some drain =>
      _ ← ask (CallWithin (Z.min base (5 * Second)));
      previous ← ask (CallLastHealthy c.(c_App).(a_ID) d.(d_Revision));
      expired ← ask CallExpired;
      match previous with
      | Err _ => Return tt
      | Ok previous =>
          if expired : bool then Return tt
          else
            let recovery := deploymentRuntimeTimeout rollout (deploymentRecoveryBudgetSpec d previous) (base ÷ 2) in
            _ ← ask (CallWithin (wrap64 (deploymentOperationTimeout base deploy recovery + drain)));
            reconcile deploy drain c previous
      end
  end.

(** * The checks beside a run *)

(** One tick of the guard: the cause it ends the run with. *)
Definition guard (c : Claim) : Prog (option Cause) :=
  let d := c.(c_Deployment) in
  alive ← ask (CallCheck c);
  if negb alive then Return (Some CauseDatabase)
  else
    access ← ask (CallReauthorize d.(d_KeyID) c.(c_App));
    match access with
    | Denied => Return (Some CauseAuthority)
    | AccessUnknown => Return (Some CauseDatabase)
    | Granted =>
        current ← ask (CallDeployment d.(d_ID));
        match current with
        | Err _ => Return (Some CauseDatabase)
        | Ok current => Return (if current.(d_CancelRequested) then Some CauseCancelled else None)
        end
    end.

(** What the cluster asks before each step it takes: the error that stops it. *)
Definition BeforeStep (c : Claim) : Prog (option string) :=
  let d := c.(c_Deployment) in
  ended ← ask CallStepEnded;
  match ended with
  | Some err => Return (Some err)
  | None =>
      access ← ask (CallReauthorize d.(d_KeyID) c.(c_App));
      match access with
      | Granted =>
          current ← ask (CallDeployment d.(d_ID));
          match current with
          | Err _ =>
              ended ← ask CallStepEnded;
              match ended with
              | Some err => Return (Some err)
              | None => _ ← ask (CallCancel CauseDatabase); Return (Some (cause_text CauseDatabase))
              end
          | Ok current =>
              if current.(d_CancelRequested) then _ ← ask (CallCancel CauseCancelled); Return (Some (cause_text CauseCancelled))
              else
                alive ← ask (CallCheck c);
                if negb alive then _ ← ask (CallCancel CauseDatabase); Return (Some (cause_text CauseDatabase)) else Return None
          end
      | access =>
          ended ← ask CallStepEnded;
          match ended with
          | Some err => Return (Some err)
          | None =>
              _ ← ask (CallCancel (match access with Denied => CauseAuthority | _ => CauseDatabase end));
              cx ← ask CallContexts;
              Return (cause_text <$> cx.(cx_Cause))
          end
      end
  end.
End run.

(** * Budgets do not depend on the order of a map *)

Lemma wrap64_wrap64 x y : wrap64 (wrap64 x + y) = wrap64 (x + y).
Proof. unfold wrap64. replace ((x + 2 ^ 63) mod 2 ^ 64 - 2 ^ 63 + y + 2 ^ 63) with ((x + 2 ^ 63) mod 2 ^ 64 + y) by lia. rewrite Zplus_mod_idemp_l. do 2 f_equal. lia. Qed.

Lemma fold_left_perm {A B} (f : A → B → A) l l' a : (∀ a x y, f (f a x) y = f (f a y) x) → l ≡ₚ l' → fold_left f l a = fold_left f l' a.
Proof. intros Hc Hp. revert a. induction Hp as [|x l l' _ IH|x y l|l l' l'' _ IH _ IH']; intros a; cbn; [done|by rewrite IH|by rewrite Hc|by rewrite IH]. Qed.

(** What one service adds to a budget. *)
Lemma attempt_budget_adds entry : ∃ k, ∀ r, attempt_budget r entry = match k with Some k => Some (wrap64 (default (30 * Second) r + k)) | None => r end.
Proof.
  unfold attempt_budget. destruct (svc_Job _) as [j|].
  - destruct (release_job j); [by eexists (Some _)|by exists None].
  - destruct (_ || _); [by eexists (Some _)|by exists None].
Qed.

Lemma runtime_budget_adds rollout entry : ∃ k, ∀ r, runtime_budget rollout r entry = match k with Some k => wrap64 (r + k) | None => r end.
Proof.
  unfold runtime_budget. destruct (svc_Job _) as [j|].
  - destruct (release_job j); [by eexists (Some _)|by exists None].
  - exists (Some ((if 0 <? svc_StartupTimeoutSeconds entry.2 then seconds (svc_StartupTimeoutSeconds entry.2) else rollout) + recreateGrace entry.2)).
    intros r. destruct (0 <? _); rewrite wrap64_wrap64; f_equal; lia.
Qed.

Lemma budgets_order (R1 R2 : RangeOrder) rollout app fallback :
  @deploymentRuntimeTimeout R1 rollout app fallback = @deploymentRuntimeTimeout R2 rollout app fallback.
Proof.
  assert (@range R1 _ (app_services app) ≡ₚ @range R2 _ (app_services app)) as Hp by (etrans; [apply range_perm|symmetry; apply range_perm]).
  assert (@deploymentAttemptTimeout R1 app fallback = @deploymentAttemptTimeout R2 app fallback) as Ha.
  { unfold deploymentAttemptTimeout. rewrite (fold_left_perm _ _ (@range R2 _ (app_services app)) None); [done| |done].
    intros r x y. destruct (attempt_budget_adds x) as [kx Hx], (attempt_budget_adds y) as [ky Hy]. rewrite !Hx, !Hy. destruct kx, ky; cbn; try done.
    rewrite !wrap64_wrap64. do 2 f_equal. lia. }
  unfold deploymentRuntimeTimeout. destruct rollout as [r|]; [|done]. destruct (r <=? 0); [done|]. destruct (bool_decide _); [done|]. f_equal.
  apply fold_left_perm; [|done]. intros a x y. destruct (runtime_budget_adds r x) as [kx Hx], (runtime_budget_adds r y) as [ky Hy]. rewrite !Hx, !Hy.
  destruct kx, ky; try done. rewrite !wrap64_wrap64. f_equal. lia.
Qed.
