(* ===== verification/DeploymentQueue.v ===== *)
(** The queue as it is meant to be: the releases of each application with their revisions
    and statuses, the current revision of the application, and the volume maintenance that
    holds it. Every step that moves a claimed release names the application whose lock it
    needs. The invariant of these steps is what the store promises its workers. *)
From S2P Require Import Prelude GoStd DeploymentTables.
#[global] Open Scope Z_scope.

Record Release : Type := mkRelease { r_App : string; r_Rev : Z; r_Status : Status }.
Record QApp : Type := mkQApp { q_Rev : Z; q_Healthy : bool }.
Record Maint : Type := mkMaint { m_App : string; m_Expected : Z; m_Phase : string }.
Record Queue : Type := mkQueue { releases : gmap string Release; apps : gmap string QApp; maints : gmap string Maint; used : gset string }.

Definition of_app (app : string) (r : Release) : Prop := r.(r_App) = app.
Definition is_pending (r : Release) : Prop := pending r.(r_Status) = true.
(** The phases before the cut-over, and all phases that hold the application. *)
Definition early (phase : string) : bool := one_of phase ["queued"; "copying"; "cancelling"].
Definition blocking (phase : string) : bool := early phase || one_of phase ["switching"; "deleting_original"].

Definition with_status (s : Status) (r : Release) : Release := mkRelease r.(r_App) r.(r_Rev) s.
Definition unblocked (q : Queue) (app : string) : Prop := ∀ id m, q.(maints) !! id = Some m → m.(m_App) = app → blocking m.(m_Phase) = false.
Definition idle (q : Queue) (app : string) : Prop := ∀ id r, q.(releases) !! id = Some r → r.(r_App) = app → ¬ is_pending r.
(** Every older release of the application is done. *)
Definition first_in_line (q : Queue) (r : Release) : Prop :=
  ∀ id o, q.(releases) !! id = Some o → o.(r_App) = r.(r_App) → o.(r_Rev) < r.(r_Rev) → ¬ is_pending o.
Definition pending_in (app : string) (r : Release) : bool := (r.(r_App) =? app)%string && pending r.(r_Status).
Definition pending_count (q : Queue) (app : string) : nat := size (filter (λ e, pending_in app e.2 = true) q.(releases)).

(** How a resize goes from phase to phase. *)
Definition next_phase (from to : string) : bool :=
  (from =? to)%string || (from =? "queued")%string && (to =? "copying")%string ||
  one_of from ["queued"; "copying"] && (to =? "cancelling")%string || (from =? "switching")%string && (to =? "original_retained")%string ||
  (from =? "original_retained")%string && (to =? "deleting_original")%string || (from =? "cancelling")%string && (to =? "cancelled")%string ||
  (from =? "deleting_original")%string && (to =? "completed")%string.

Definition terminal (s : Status) : Prop := s = Succeeded ∨ s = Failed ∨ s = Cancelled.

Inductive qstep : option string → Queue → Queue → Prop :=
  | q_stutter q u : q.(used) ⊆ u → qstep None q (mkQueue q.(releases) q.(apps) q.(maints) u)
  | q_enqueue q id app rev u :
      id ∉ q.(used) → {[ id; app ]} ∪ q.(used) ⊆ u → unblocked q app → (pending_count q app < 20)%nat →
      ((∃ h, q.(apps) !! app = Some (mkQApp rev h)) ∨ ((q.(apps) !! app = None) ∧ (app ∉ q.(used)) ∧ rev = 0)) →
      qstep None q (mkQueue (<[ id := mkRelease app (rev + 1) Queued ]> q.(releases)) (<[ app := mkQApp (rev + 1) false ]> q.(apps))
                      q.(maints) u)
  | q_requeue q id r h :
      q.(releases) !! id = Some r → r.(r_Status) = Failed → q.(apps) !! r.(r_App) = Some (mkQApp r.(r_Rev) h) → unblocked q r.(r_App) →
      qstep None q (mkQueue (<[ id := with_status Queued r ]> q.(releases)) (<[ r.(r_App) := mkQApp r.(r_Rev) false ]> q.(apps)) q.(maints) q.(used))
  | q_resize q id app rev h u :
      id ∉ q.(used) → {[ id ]} ∪ q.(used) ⊆ u → q.(apps) !! app = Some (mkQApp rev h) → unblocked q app → idle q app →
      qstep None q (mkQueue q.(releases) q.(apps) (<[ id := mkMaint app rev "queued" ]> q.(maints)) u)
  | q_start q id r :
      q.(releases) !! id = Some r → is_pending r → q.(maints) !! id = None → first_in_line q r →
      qstep (Some r.(r_App)) q (mkQueue (<[ id := with_status Running r ]> q.(releases)) q.(apps) q.(maints) q.(used))
  | q_finish q id r s a h :
      q.(releases) !! id = Some r → r.(r_Status) = Running → q.(maints) !! id = None → terminal s → q.(apps) !! r.(r_App) = Some a →
      (h = true → s = Succeeded ∧ a.(q_Rev) = r.(r_Rev)) →
      qstep (Some r.(r_App)) q
        (mkQueue (<[ id := with_status s r ]> q.(releases)) (<[ r.(r_App) := mkQApp a.(q_Rev) h ]> q.(apps)) q.(maints) q.(used))
  | q_cancel q app :
      qstep (Some app) q (mkQueue ((λ r, if pending_in app r then with_status Cancelled r else r) <$> q.(releases)) q.(apps) q.(maints) q.(used))
  | q_drop q app :
      qstep (Some app) q (mkQueue (filter (λ e, e.2.(r_App) ≠ app) q.(releases)) (delete app q.(apps)) (filter (λ e, e.2.(m_App) ≠ app) q.(maints)) q.(used))
  | q_phase q id m to :
      q.(maints) !! id = Some m → next_phase m.(m_Phase) to = true →
      (to = "deleting_original" → ∀ id' m', q.(maints) !! id' = Some m' → m'.(m_App) = m.(m_App) → id' ≠ id → blocking m'.(m_Phase) = false) →
      qstep (Some m.(m_App)) q (mkQueue q.(releases) q.(apps) (<[ id := mkMaint m.(m_App) m.(m_Expected) to ]> q.(maints)) q.(used))
  | q_cutover q id m h :
      q.(maints) !! id = Some m → m.(m_Phase) = "copying" → q.(apps) !! m.(m_App) = Some (mkQApp m.(m_Expected) h) →
      qstep (Some m.(m_App)) q
        (mkQueue (<[ id := mkRelease m.(m_App) (m.(m_Expected) + 1) Running ]> q.(releases)) (<[ m.(m_App) := mkQApp (m.(m_Expected) + 1) false ]> q.(apps))
           (<[ id := mkMaint m.(m_App) m.(m_Expected) "switching" ]> q.(maints)) q.(used))
  | q_settle q id m r a (ok : bool) :
      q.(maints) !! id = Some m → m.(m_Phase) = "switching" → q.(releases) !! id = Some r → q.(apps) !! m.(m_App) = Some a →
      qstep (Some m.(m_App)) q
        (mkQueue (<[ id := with_status (if ok then Succeeded else Failed) r ]> q.(releases)) (<[ m.(m_App) := mkQApp a.(q_Rev) ok ]> q.(apps))
           (<[ id := mkMaint m.(m_App) m.(m_Expected) (if ok then "original_retained" else "switching") ]> q.(maints)) q.(used)).

(** * The invariant *)

(** What a resize can rely on in each of its phases. *)
Definition maint_ok (q : Queue) (id : string) (m : Maint) : Prop :=
  ∃ a, q.(apps) !! m.(m_App) = Some a ∧
    (early m.(m_Phase) = true → a.(q_Rev) = m.(m_Expected) ∧ idle q m.(m_App) ∧ q.(releases) !! id = None) ∧
    (m.(m_Phase) = "switching" → a.(q_Rev) = m.(m_Expected) + 1 ∧
       (∃ r, q.(releases) !! id = Some r ∧ r.(r_App) = m.(m_App) ∧ r.(r_Rev) = m.(m_Expected) + 1) ∧
       ∀ id' r', q.(releases) !! id' = Some r' → r'.(r_App) = m.(m_App) → is_pending r' → id' = id).

Record qinv (q : Queue) : Prop := {
  qi_release : ∀ id r, q.(releases) !! id = Some r → id ∈ q.(used) ∧ ∃ a, q.(apps) !! r.(r_App) = Some a ∧ 1 ≤ r.(r_Rev) ≤ a.(q_Rev);
  qi_app : ∀ app a, q.(apps) !! app = Some a → app ∈ q.(used) ∧ 0 ≤ a.(q_Rev);
  qi_unique : ∀ id1 id2 r1 r2, q.(releases) !! id1 = Some r1 → q.(releases) !! id2 = Some r2 → r1.(r_App) = r2.(r_App) → r1.(r_Rev) = r2.(r_Rev) → id1 = id2;
  (* while a release is pending, all newer ones wait *)
  qi_ordered : ∀ id1 id2 r1 r2, q.(releases) !! id1 = Some r1 → q.(releases) !! id2 = Some r2 → r1.(r_App) = r2.(r_App) →
    r1.(r_Rev) < r2.(r_Rev) → is_pending r1 → r2.(r_Status) = Queued;
  qi_maint : ∀ id m, q.(maints) !! id = Some m → id ∈ q.(used) ∧ maint_ok q id m;
  qi_single : ∀ id1 id2 m1 m2, q.(maints) !! id1 = Some m1 → q.(maints) !! id2 = Some m2 → m1.(m_App) = m2.(m_App) →
    blocking m1.(m_Phase) = true → blocking m2.(m_Phase) = true → id1 = id2;
  qi_healthy : ∀ app a, q.(apps) !! app = Some a → a.(q_Healthy) = true →
    ∃ id r, q.(releases) !! id = Some r ∧ r.(r_App) = app ∧ r.(r_Rev) = a.(q_Rev) ∧ r.(r_Status) = Succeeded;
  qi_bounded : ∀ app, (pending_count q app ≤ 20)%nat;
}.

Lemma pending_with s r : is_pending (with_status s r) ↔ pending s = true.
Proof. done. Qed.

(** A resize keeps its promise when nothing of its application moved. *)
Lemma maint_ok_other q q' id m : maint_ok q id m → q'.(apps) !! m.(m_App) = q.(apps) !! m.(m_App) →
  (∀ id' r', r'.(r_App) = m.(m_App) → q'.(releases) !! id' = Some r' ↔ q.(releases) !! id' = Some r') →
  (q.(releases) !! id = None → q'.(releases) !! id = None) → maint_ok q' id m.
Proof.
  intros (a & Ha & He & Hs) Happ Hrel Hnone. exists a. rewrite Happ. split; [done|]. split.
  - intros Hp. destruct (He Hp) as (H1 & H2 & H3). split_and!; [done| |by apply Hnone]. intros i r Hr Hra. apply (H2 i); [by apply Hrel|done].
  - intros Hp. destruct (Hs Hp) as (H1 & (r & Hr & Hra & Hrev) & H2). split_and!; [done| |].
    + exists r. split_and!; [by apply Hrel|done..].
    + intros i r' Hr' Hra'. apply (H2 i); [by apply Hrel|done].
Qed.

Lemma blocking_early phase : early phase = true → blocking phase = true.
Proof. unfold blocking. by intros ->. Qed.

(** ** Counting *)

Lemma filter_insert_size (P : string * Release → Prop) `{∀ e, Decision (P e)} (m : gmap string Release) id r :
  (size (filter P (<[ id := r ]> m)) ≤ S (size (filter P (delete id m))))%nat.
Proof.
  destruct (decide (P (id, r))) as [Hp|Hp].
  - rewrite <-insert_delete_eq, map_filter_insert_True by done. rewrite map_size_insert_None; [done|].
    apply map_lookup_filter_None. left. apply lookup_delete_eq.
  - rewrite <-insert_delete_eq, map_filter_insert_False by done. rewrite delete_delete_eq. lia.
Qed.

Lemma pending_count_mono q q' app :
  (∀ id r', q'.(releases) !! id = Some r' → pending_in app r' = true → ∃ r, q.(releases) !! id = Some r ∧ pending_in app r = true) →
  (pending_count q' app ≤ pending_count q app)%nat.
Proof.
  intros Hm. unfold pending_count. rewrite <-!size_dom. apply subseteq_size. intros id. rewrite !elem_of_dom.
  intros [r' [Hr Hp]%map_lookup_filter_Some]. destruct (Hm id r' Hr Hp) as (r & Hr' & Hp'). exists r. by apply map_lookup_filter_Some.
Qed.

Lemma pending_count_zero q app : idle q app → pending_count q app = 0%nat.
Proof.
  intros Hi. unfold pending_count. rewrite map_size_empty_iff. apply map_eq. intros id. rewrite lookup_empty.
  apply map_lookup_filter_None. right. intros r Hr [Ha%String.eqb_eq Hp]%andb_true_iff. by apply (Hi id r Hr).
Qed.

(** At most one more release is pending. *)
Lemma pending_count_insert q q' app id r : q'.(releases) = <[ id := r ]> q.(releases) → (pending_count q' app ≤ S (pending_count q app))%nat.
Proof.
  intros Hq. unfold pending_count. rewrite Hq. etrans; [apply filter_insert_size|]. apply le_n_S. rewrite map_filter_delete.
  rewrite <-!size_dom, dom_delete_L. apply subseteq_size. set_solver.
Qed.

(** ** Changes of the status of one release *)

Section status.
Context (q : Queue) (id : string) (r : Release) (s : Status) (Hr : q.(releases) !! id = Some r).
#[local] Abbreviation rels := (<[ id := with_status s r ]> q.(releases)).

(** A release of the new table is one of the old up to its status. *)
Lemma status_lookup id' r' : rels !! id' = Some r' → ∃ r0, q.(releases) !! id' = Some r0 ∧ r'.(r_App) = r0.(r_App) ∧ r'.(r_Rev) = r0.(r_Rev) ∧
  (id' = id ∧ r0 = r ∧ r'.(r_Status) = s ∨ id' ≠ id ∧ r' = r0).
Proof.
  rewrite lookup_insert_Some. intros [[<- <-]|[Hne Hl]]; [exists r; naive_solver|exists r'; naive_solver].
Qed.

Context (Hinv : qinv q).

Lemma status_release (apps' : gmap string QApp) :
  (∀ app a, q.(apps) !! app = Some a → ∃ a', apps' !! app = Some a' ∧ a'.(q_Rev) = a.(q_Rev)) →
  ∀ id' r', rels !! id' = Some r' → id' ∈ q.(used) ∧ ∃ a, apps' !! r'.(r_App) = Some a ∧ 1 ≤ r'.(r_Rev) ≤ a.(q_Rev).
Proof.
  intros Happs id' r' (r0 & Hr0 & -> & -> & _)%status_lookup. destruct (qi_release q Hinv id' r0 Hr0) as (Hu & a & Ha & Hrev).
  destruct (Happs _ _ Ha) as (a' & Ha' & Heq). split; [done|]. exists a'. rewrite Heq. done.
Qed.

Lemma status_unique id1 id2 r1 r2 : rels !! id1 = Some r1 → rels !! id2 = Some r2 → r1.(r_App) = r2.(r_App) → r1.(r_Rev) = r2.(r_Rev) → id1 = id2.
Proof.
  intros (o1 & Ho1 & -> & -> & _)%status_lookup (o2 & Ho2 & -> & -> & _)%status_lookup. by apply (qi_unique q Hinv).
Qed.

(** The order holds when the release may have its new status: waiting ones stay, older
    ones are done before it moves, and a pending one has only waiting ones behind it. *)
Lemma status_ordered : (s ≠ Queued → first_in_line q r) → (pending s = true → is_pending r ∨
    ∀ id' o, q.(releases) !! id' = Some o → o.(r_App) = r.(r_App) → o.(r_Rev) ≤ r.(r_Rev)) →
  ∀ id1 id2 r1 r2, rels !! id1 = Some r1 → rels !! id2 = Some r2 → r1.(r_App) = r2.(r_App) → r1.(r_Rev) < r2.(r_Rev) → is_pending r1 → r2.(r_Status) = Queued.
Proof.
  intros Hold Hnew id1 id2 r1 r2 (o1 & Ho1 & -> & -> & H1)%status_lookup (o2 & Ho2 & -> & -> & H2)%status_lookup Happ Hrev Hp.
  destruct H2 as [(-> & -> & ->)|(Hne2 & ->)].
  - destruct (decide (s = Queued)) as [->|Hs]; [done|]. destruct H1 as [(-> & -> & _)|(_ & ->)]; [lia|].
    destruct (Hold Hs id1 o1 Ho1 Happ Hrev Hp).
  - destruct H1 as [(-> & -> & Hs)|(_ & ->)]; [|by apply (qi_ordered q Hinv id1 id2 o1)].
    unfold is_pending in Hp. rewrite Hs in Hp. destruct (Hnew Hp) as [Hpr|Hlast]; [by apply (qi_ordered q Hinv id id2 r)|].
    specialize (Hlast id2 o2 Ho2). rewrite Happ in Hlast. specialize (Hlast eq_refl). lia.
Qed.

(** A maintenance is not disturbed when its own release does not get pending again. *)
Lemma status_maint (apps' : gmap string QApp) :
  (∀ app a, q.(apps) !! app = Some a → ∃ a', apps' !! app = Some a' ∧ a'.(q_Rev) = a.(q_Rev)) →
  (pending s = true → is_pending r ∨ unblocked q r.(r_App)) →
  ∀ id' m, q.(maints) !! id' = Some m → id' ∈ q.(used) ∧ maint_ok (mkQueue rels apps' q.(maints) q.(used)) id' m.
Proof.
  intros Happs Hpend id' m Hm. destruct (qi_maint q Hinv id' m Hm) as (Hu & a & Ha & He & Hsw). split; [done|].
  destruct (Happs _ _ Ha) as (a' & Ha' & Heq). exists a'. cbn [apps releases]. rewrite Heq. split; [done|]. split.
  - intros Hp. destruct (He Hp) as (H1 & H2 & H3). split_and!; [done| |].
    + intros i r' (r0 & Hr0 & Happ & _ & Hc)%status_lookup Hra Hpr. cbn [releases] in *. destruct Hc as [(-> & -> & Hs)|(_ & ->)].
      * unfold is_pending in Hpr. rewrite Hs in Hpr. destruct (Hpend Hpr) as [Hpr'|Hub]; [by apply (H2 id r); [done|congruence|]|].
        specialize (Hub id' m Hm). rewrite blocking_early in Hub; [|done]. assert (m_App m = r_App r) by congruence. by specialize (Hub H).
      * by apply (H2 i r0).
    + destruct (decide (id' = id)) as [->|Hne]; [congruence|]. by rewrite lookup_insert_ne.
  - intros Hp. destruct (Hsw Hp) as (H1 & (rm & Hrm & Hrma & Hrmr) & H2). split_and!; [done| |].
    + destruct (decide (id' = id)) as [->|Hne]; [|exists rm; by rewrite lookup_insert_ne].
      rewrite Hr in Hrm. injection Hrm as <-. exists (with_status s r). by rewrite lookup_insert_eq.
    + intros i r' (r0 & Hr0 & Happ & _ & Hc)%status_lookup Hra Hpr. destruct Hc as [(-> & -> & Hs)|(_ & ->)]; [|by apply (H2 i r0)].
      unfold is_pending in Hpr. rewrite Hs in Hpr. destruct (Hpend Hpr) as [Hpr'|Hub]; [by apply (H2 id r); [done|congruence|]|].
      specialize (Hub id' m Hm). rewrite Hp in Hub. assert (m_App m = r_App r) by congruence. by specialize (Hub H).
Qed.
End status.

(** Where only statuses change, no application gets more pending releases than it had,
    or it had none. *)
Lemma status_bounded q id r s q' : qinv q → q.(releases) !! id = Some r → q'.(releases) = <[ id := with_status s r ]> q.(releases) →
  (pending s = true → is_pending r ∨ idle q r.(r_App)) → ∀ app, (pending_count q' app ≤ 20)%nat.
Proof.
  intros Hinv Hr Hq Hp app. destruct (decide (pending s = true ∧ ¬ is_pending r ∧ app = r.(r_App))) as [(Hs & Hnp & ->)|Hno].
  - destruct (Hp Hs) as [?|Hi]; [done|]. etrans; [by eapply pending_count_insert|]. rewrite pending_count_zero by done. lia.
  - etrans; [|apply (qi_bounded q Hinv app)]. apply pending_count_mono. intros id' r' Hr' Hpend. rewrite Hq in Hr'.
    apply lookup_insert_Some in Hr' as [[<- <-]|[_ Hr']]; [|by exists r']. unfold pending_in in *. cbn [with_status r_App r_Status] in Hpend.
    apply andb_true_iff in Hpend as [Ha Hs]. exists r. split; [done|]. rewrite Ha. cbn [andb]. apply String.eqb_eq in Ha.
    destruct (pending (r_Status r)) eqn:Hps; [done|]. destruct Hno. split_and!; [done| |done]. unfold is_pending. congruence.
Qed.

Lemma terminal_pending s : terminal s → pending s = false.
Proof. by intros [->|[->| ->]]. Qed.

(** A failed latest release has nothing pending in front of it. *)
Lemma failed_latest_idle q id r a : qinv q → q.(releases) !! id = Some r → r.(r_Status) = Failed → q.(apps) !! r.(r_App) = Some a →
  a.(q_Rev) = r.(r_Rev) → idle q r.(r_App).
Proof.
  intros Hinv Hr Hf Ha Hrev id' o Ho Happ Hp. destruct (qi_release q Hinv id' o Ho) as (_ & a' & Ha' & Hb). rewrite Happ, Ha in Ha'. injection Ha' as <-.
  destruct (decide (o.(r_Rev) = r.(r_Rev))) as [Heq|Hne].
  - assert (id' = id) as -> by (by eapply (qi_unique q Hinv)). rewrite Hr in Ho. injection Ho as <-. unfold is_pending in Hp. by rewrite Hf in Hp.
  - assert (r.(r_Status) = Queued) by (apply (qi_ordered q Hinv id' id o r); (done || lia)). congruence.
Qed.

Lemma running_first q id r : qinv q → q.(releases) !! id = Some r → r.(r_Status) ≠ Queued → first_in_line q r.
Proof.
  intros Hinv Hr Hs id' o Ho Happ Hlt Hp. destruct Hs. by eapply (qi_ordered q Hinv id' id o r).
Qed.

Lemma preserved_start q id r : qinv q → q.(releases) !! id = Some r → is_pending r → q.(maints) !! id = None → first_in_line q r →
  qinv (mkQueue (<[ id := with_status Running r ]> q.(releases)) q.(apps) q.(maints) q.(used)).
Proof.
  intros Hinv Hr Hp Hm Hf. split; cbn [releases apps maints used].
  - eapply status_release; [done..|]. eauto.
  - apply (qi_app q Hinv).
  - by eapply status_unique.
  - eapply status_ordered; [done..|by intros _ | by left].
  - eapply status_maint; [done..|eauto|by left].
  - apply (qi_single q Hinv).
  - intros app a Ha Hh. destruct (qi_healthy q Hinv app a Ha Hh) as (i & o & Ho & H1 & H2 & H3). exists i, o.
    destruct (decide (i = id)) as [->|Hne]; [|by rewrite lookup_insert_ne]. rewrite Hr in Ho. injection Ho as <-. unfold is_pending in Hp. by rewrite H3 in Hp.
  - eapply status_bounded; [done..|by left].
Qed.

Lemma preserved_finish q id r s a h : qinv q → q.(releases) !! id = Some r → r.(r_Status) = Running → q.(maints) !! id = None → terminal s →
  q.(apps) !! r.(r_App) = Some a → (h = true → s = Succeeded ∧ a.(q_Rev) = r.(r_Rev)) →
  qinv (mkQueue (<[ id := with_status s r ]> q.(releases)) (<[ r.(r_App) := mkQApp a.(q_Rev) h ]> q.(apps)) q.(maints) q.(used)).
Proof.
  intros Hinv Hr Hrun Hm Hs Ha Hh. pose proof (terminal_pending s Hs) as Hnp.
  assert (∀ app b, q.(apps) !! app = Some b → ∃ b', (<[ r.(r_App) := mkQApp a.(q_Rev) h ]> q.(apps)) !! app = Some b' ∧ b'.(q_Rev) = b.(q_Rev)) as Happs.
  { intros app b Hb. destruct (decide (app = r.(r_App))) as [->|Hne]; [|exists b; by rewrite lookup_insert_ne].
    rewrite Ha in Hb. injection Hb as <-. exists (mkQApp a.(q_Rev) h). by rewrite lookup_insert_eq. }
  split; cbn [releases apps maints used].
  - by eapply status_release.
  - intros app b [[<- <-]|[_ Hb]]%lookup_insert_Some; [by apply (qi_app q Hinv _ a)|by apply (qi_app q Hinv _ b)].
  - by eapply status_unique.
  - eapply status_ordered; [done..| |by rewrite Hnp]. intros _. eapply running_first; [done..|]. by rewrite Hrun.
  - eapply status_maint; [done..|by rewrite Hnp].
  - apply (qi_single q Hinv).
  - intros app b [[<- <-]|[Hne Hb]]%lookup_insert_Some Hb'; cbn [q_Healthy q_Rev] in *.
    + destruct (Hh Hb') as [-> Hrev]. exists id, (with_status Succeeded r). by rewrite lookup_insert_eq.
    + destruct (qi_healthy q Hinv app b Hb Hb') as (i & o & Ho & H1 & H2 & H3). exists i, o.
      destruct (decide (i = id)) as [->|Hne']; [|by rewrite lookup_insert_ne]. rewrite Hr in Ho. injection Ho as <-. congruence.
  - eapply status_bounded; [done..|by rewrite Hnp].
Qed.

Lemma preserved_requeue q id r h : qinv q → q.(releases) !! id = Some r → r.(r_Status) = Failed → q.(apps) !! r.(r_App) = Some (mkQApp r.(r_Rev) h) →
  unblocked q r.(r_App) →
  qinv (mkQueue (<[ id := with_status Queued r ]> q.(releases)) (<[ r.(r_App) := mkQApp r.(r_Rev) false ]> q.(apps)) q.(maints) q.(used)).
Proof.
  intros Hinv Hr Hf Ha Hub. pose proof (failed_latest_idle q id r _ Hinv Hr Hf Ha eq_refl) as Hidle.
  assert (∀ app b, q.(apps) !! app = Some b → ∃ b', (<[ r.(r_App) := mkQApp r.(r_Rev) false ]> q.(apps)) !! app = Some b' ∧ b'.(q_Rev) = b.(q_Rev)) as Happs.
  { intros app b Hb. destruct (decide (app = r.(r_App))) as [->|Hne]; [|exists b; by rewrite lookup_insert_ne].
    rewrite Ha in Hb. injection Hb as <-. exists (mkQApp r.(r_Rev) false). by rewrite lookup_insert_eq. }
  split; cbn [releases apps maints used].
  - by eapply status_release.
  - intros app b [[<- <-]|[_ Hb]]%lookup_insert_Some; [by apply (qi_app q Hinv _ _ Ha)|by apply (qi_app q Hinv _ b)].
  - by eapply status_unique.
  - eapply status_ordered; [done..|]. intros _. right. intros i o Ho Happ. destruct (qi_release q Hinv i o Ho) as (_ & b & Hb & Hle).
    rewrite Happ, Ha in Hb. injection Hb as <-. cbn [q_Rev] in Hle. lia.
  - eapply status_maint; [done..|by right].
  - apply (qi_single q Hinv).
  - intros app b [[<- <-]|[Hne Hb]]%lookup_insert_Some Hb'; [done|]. destruct (qi_healthy q Hinv app b Hb Hb') as (i & o & Ho & H1 & H2 & H3). exists i, o.
    destruct (decide (i = id)) as [->|Hne']; [|by rewrite lookup_insert_ne]. rewrite Hr in Ho. injection Ho as <-. congruence.
  - eapply status_bounded; [done..|by right].
Qed.

(** ** A new release *)

Section added.
Context (q : Queue) (id app : string) (rev : Z) (s : Status) (Hinv : qinv q) (Hid : q.(releases) !! id = None).
Context (Hrevs : ∀ i o, q.(releases) !! i = Some o → o.(r_App) = app → o.(r_Rev) ≤ rev).
#[local] Abbreviation rels := (<[ id := mkRelease app (rev + 1) s ]> q.(releases)).

Lemma added_unique id1 id2 r1 r2 : rels !! id1 = Some r1 → rels !! id2 = Some r2 → r1.(r_App) = r2.(r_App) → r1.(r_Rev) = r2.(r_Rev) → id1 = id2.
Proof.
  intros [[<- <-]|[_ H1]]%lookup_insert_Some [[<- <-]|[_ H2]]%lookup_insert_Some; cbn [r_App r_Rev]; [done| | |by apply (qi_unique q Hinv)].
  - intros Ha Hr. specialize (Hrevs id2 r2 H2 (eq_sym Ha)). lia.
  - intros Ha Hr. specialize (Hrevs id1 r1 H1 Ha). lia.
Qed.

Lemma added_ordered : (s = Queued ∨ idle q app) →
  ∀ id1 id2 r1 r2, rels !! id1 = Some r1 → rels !! id2 = Some r2 → r1.(r_App) = r2.(r_App) → r1.(r_Rev) < r2.(r_Rev) → is_pending r1 → r2.(r_Status) = Queued.
Proof.
  intros Hs id1 id2 r1 r2 [[<- <-]|[_ H1]]%lookup_insert_Some [[<- <-]|[_ H2]]%lookup_insert_Some; cbn [r_App r_Rev r_Status].
  - lia.
  - intros Ha Hlt. specialize (Hrevs id2 r2 H2 (eq_sym Ha)). lia.
  - intros Happ _ Hp. destruct Hs as [->|Hi]; [done|]. by destruct (Hi id1 r1 H1 Happ).
  - by apply (qi_ordered q Hinv id1 id2).
Qed.
End added.

Lemma revisions_bounded q app a : qinv q → q.(apps) !! app = Some a → ∀ i o, q.(releases) !! i = Some o → o.(r_App) = app → o.(r_Rev) ≤ a.(q_Rev).
Proof.
  intros Hinv Ha i o Ho Happ. destruct (qi_release q Hinv i o Ho) as (_ & b & Hb & Hle). rewrite Happ, Ha in Hb. injection Hb as <-. lia.
Qed.

Lemma unknown_release q id : qinv q → id ∉ q.(used) → q.(releases) !! id = None.
Proof. intros Hinv Hid. destruct (q.(releases) !! id) as [r|] eqn:Hr; [|done]. by destruct (qi_release q Hinv id r Hr) as [Hu _]. Qed.
Lemma unknown_maint q id : qinv q → id ∉ q.(used) → q.(maints) !! id = None.
Proof. intros Hinv Hid. destruct (q.(maints) !! id) as [m|] eqn:Hm; [|done]. by destruct (qi_maint q Hinv id m Hm) as [Hu _]. Qed.

Lemma not_blocking phase : blocking phase = false → early phase = false ∧ phase ≠ "switching".
Proof. unfold blocking. intros [He Hs]%orb_false_iff. split; [done|]. by intros ->. Qed.

Lemma preserved_enqueue q id app rev u : qinv q → id ∉ q.(used) → {[ id; app ]} ∪ q.(used) ⊆ u → unblocked q app → (pending_count q app < 20)%nat →
  (∃ h, q.(apps) !! app = Some (mkQApp rev h)) ∨ ((q.(apps) !! app = None) ∧ (app ∉ q.(used)) ∧ rev = 0) →
  qinv (mkQueue (<[ id := mkRelease app (rev + 1) Queued ]> q.(releases)) (<[ app := mkQApp (rev + 1) false ]> q.(apps))
          q.(maints) u).
Proof.
  intros Hinv Hid Hu Hub Hcount Happ. pose proof (unknown_release q id Hinv Hid) as Hnone.
  assert (0 ≤ rev) as Hpos by (destruct Happ as [[h Ha]|(_ & _ & ->)]; [by destruct (qi_app q Hinv app _ Ha)|lia]).
  assert (∀ i o, q.(releases) !! i = Some o → o.(r_App) = app → o.(r_Rev) ≤ rev) as Hrevs.
  { intros i o Ho Ha. destruct (qi_release q Hinv i o Ho) as (_ & b & Hb & Hle). rewrite Ha in Hb. destruct Happ as [[h Happ]|(Happ & _)]; [|congruence].
    rewrite Happ in Hb. injection Hb as <-. cbn in Hle. lia. }
  split; cbn [releases apps maints used].
  - intros i o [[<- <-]|[_ Ho]]%lookup_insert_Some; cbn [r_App r_Rev].
    + split; [set_solver|]. exists (mkQApp (rev + 1) false). rewrite lookup_insert_eq. split; [done|]. cbn [q_Rev]. lia.
    + destruct (qi_release q Hinv i o Ho) as (Hui & b & Hb & Hle). split; [set_solver|]. destruct (decide (o.(r_App) = app)) as [<-|Hne].
      * exists (mkQApp (rev + 1) false). rewrite lookup_insert_eq. split; [done|]. specialize (Hrevs i o Ho eq_refl). cbn [q_Rev]. lia.
      * exists b. by rewrite lookup_insert_ne.
  - intros i b [[<- <-]|[_ Hb]]%lookup_insert_Some; cbn [q_Rev]; [split; [set_solver|lia]|]. destruct (qi_app q Hinv i b Hb). split; [set_solver|done].
  - by apply added_unique.
  - apply added_ordered; [done..|by left].
  - intros i m Hm. destruct (qi_maint q Hinv i m Hm) as [Hui Hok]. split; [set_solver|]. destruct (decide (m.(m_App) = app)) as [Heq|Hne].
    + destruct (not_blocking _ (Hub i m Hm Heq)) as [He Hsw]. exists (mkQApp (rev + 1) false). cbn [apps]. rewrite Heq, lookup_insert_eq. by rewrite He.
    + eapply maint_ok_other; [exact Hok|..]; cbn [apps releases].
      * by rewrite lookup_insert_ne.
      * intros i' r' Hra. rewrite lookup_insert_Some. split; [intros [[_ <-]|[_ ?]]; [done|done]|]. intros Hr'. right. split; [|done]. congruence.
      * intros Hi. rewrite lookup_insert_ne; [done|]. intros ->. done.
  - apply (qi_single q Hinv).
  - intros i b [[<- <-]|[_ Hb]]%lookup_insert_Some Hh; [done|]. destruct (qi_healthy q Hinv i b Hb Hh) as (j & o & Ho & Hrest). exists j, o.
    rewrite lookup_insert_ne; [done|congruence].
  - intros i. destruct (decide (i = app)) as [->|Hne].
    + etrans; [by eapply (pending_count_insert q)|]. lia.
    + etrans; [|apply (qi_bounded q Hinv i)]. apply pending_count_mono. cbn [releases]. intros j r' [[<- <-]|[_ Hr']]%lookup_insert_Some Hp; [|by exists r'].
      unfold pending_in in Hp. cbn [r_App] in Hp. apply andb_true_iff in Hp as [Hp%String.eqb_eq _]. congruence.
Qed.

(** ** Resizes *)

Lemma preserved_resize q id app rev h u : qinv q → id ∉ q.(used) → {[ id ]} ∪ q.(used) ⊆ u → q.(apps) !! app = Some (mkQApp rev h) → unblocked q app → idle q app →
  qinv (mkQueue q.(releases) q.(apps) (<[ id := mkMaint app rev "queued" ]> q.(maints)) u).
Proof.
  intros Hinv Hid Hu Ha Hub Hidle. split; cbn [releases apps maints used]; try apply Hinv.
  - intros i r Hr. destruct (qi_release q Hinv i r Hr) as [? ?]. split; [set_solver|done].
  - intros i a Hi. destruct (qi_app q Hinv i a Hi) as [? ?]. split; [set_solver|done].
  - intros i m [[<- <-]|[_ Hm]]%lookup_insert_Some.
    + split; [set_solver|]. exists (mkQApp rev h). split; [done|]. split; [|done]. intros _. split_and!; [done|done|by apply (unknown_release q)].
    + destruct (qi_maint q Hinv i m Hm) as [Hui Hok]. split; [set_solver|done].
  - intros i1 i2 m1 m2 [[<- <-]|[_ H1]]%lookup_insert_Some [[<- <-]|[_ H2]]%lookup_insert_Some; cbn [m_App m_Phase]; [done| | |by apply (qi_single q Hinv)].
    + intros Heq _ Hb. by rewrite (Hub i2 m2 H2 (eq_sym Heq)) in Hb.
    + intros Heq Hb _. by rewrite (Hub i1 m1 H1 Heq) in Hb.
Qed.

Lemma next_phase_early from to : next_phase from to = true → early to = true → early from = true.
Proof.
  unfold next_phase. rewrite !orb_true_iff, !andb_true_iff, !String.eqb_eq, one_of_spec. intros Hn He.
  destruct Hn as [[[[[[->|[-> ->]]|[Hf ->]]|[-> ->]]|[-> ->]]|[-> ->]]|[-> ->]]; try done.
  unfold early. apply one_of_spec. set_solver.
Qed.
Lemma next_phase_switching from to : next_phase from to = true → to = "switching" → from = "switching".
Proof.
  unfold next_phase. rewrite !orb_true_iff, !andb_true_iff, !String.eqb_eq. intros Hn ->. naive_solver.
Qed.
Lemma next_phase_blocking from to : next_phase from to = true → blocking to = true → blocking from = true ∨ to = "deleting_original".
Proof.
  unfold next_phase. rewrite !orb_true_iff, !andb_true_iff, !String.eqb_eq, one_of_spec. intros Hn Hb.
  destruct Hn as [[[[[[->|[-> ->]]|[Hf ->]]|[-> ->]]|[-> ->]]|[-> ->]]|[-> ->]]; try (by left); try (by right); [|done..].
  left. apply blocking_early. unfold early. apply one_of_spec. set_solver.
Qed.

(** A resize moves on: its new phase promises no more than the old one. *)
Lemma maint_ok_phase q id m to : maint_ok q id m → next_phase m.(m_Phase) to = true → maint_ok q id (mkMaint m.(m_App) m.(m_Expected) to).
Proof.
  intros (a & Ha & He & Hs) Hn. exists a. cbn [m_App m_Phase m_Expected]. split; [done|]. split.
  - intros Hto. apply He. by eapply next_phase_early.
  - intros Hto. apply Hs. by eapply next_phase_switching.
Qed.

Lemma preserved_phase q id m to : qinv q → q.(maints) !! id = Some m → next_phase m.(m_Phase) to = true →
  (to = "deleting_original" → ∀ id' m', q.(maints) !! id' = Some m' → m'.(m_App) = m.(m_App) → id' ≠ id → blocking m'.(m_Phase) = false) →
  qinv (mkQueue q.(releases) q.(apps) (<[ id := mkMaint m.(m_App) m.(m_Expected) to ]> q.(maints)) q.(used)).
Proof.
  intros Hinv Hm Hn Hdel. split; cbn [releases apps maints used]; try apply Hinv.
  - intros i m' [[<- <-]|[_ Hm']]%lookup_insert_Some; [|by apply (qi_maint q Hinv)]. destruct (qi_maint q Hinv id m Hm) as [Hu Hok].
    split; [done|]. by apply maint_ok_phase.
  - assert (∀ i m', q.(maints) !! i = Some m' → m'.(m_App) = m.(m_App) → blocking m'.(m_Phase) = true → blocking to = true → i = id) as Hone.
    { intros i m' Hm' Happ Hb Hto. destruct (decide (i = id)) as [|Hne]; [done|]. destruct (next_phase_blocking _ _ Hn Hto) as [Hf|Heq].
      - by apply (qi_single q Hinv i id m' m).
      - by rewrite (Hdel Heq i m' Hm' Happ Hne) in Hb. }
    intros i1 i2 m1 m2 [[<- <-]|[Hne1 H1]]%lookup_insert_Some [[<- <-]|[Hne2 H2]]%lookup_insert_Some; cbn [m_App m_Phase]; [done| | |by apply (qi_single q Hinv)].
    + intros Heq Hb1 Hb2. symmetry. by apply (Hone i2 m2).
    + intros Heq Hb1 Hb2. by apply (Hone i1 m1).
Qed.

(** The cut-over: the resize has the application for itself. *)
Lemma preserved_cutover q id m h : qinv q → q.(maints) !! id = Some m → m.(m_Phase) = "copying" →
  q.(apps) !! m.(m_App) = Some (mkQApp m.(m_Expected) h) →
  qinv (mkQueue (<[ id := mkRelease m.(m_App) (m.(m_Expected) + 1) Running ]> q.(releases)) (<[ m.(m_App) := mkQApp (m.(m_Expected) + 1) false ]> q.(apps))
          (<[ id := mkMaint m.(m_App) m.(m_Expected) "switching" ]> q.(maints)) q.(used)).
Proof.
  intros Hinv Hm Hphase Ha. destruct (qi_maint q Hinv id m Hm) as (Hu & a & Ha' & He & _). rewrite Ha in Ha'. injection Ha' as <-.
  destruct He as (_ & Hidle & Hnone); [by rewrite Hphase|]. pose proof (revisions_bounded q _ _ Hinv Ha) as Hrevs. cbn [q_Rev] in Hrevs.
  destruct (qi_app q Hinv _ _ Ha) as [Hua Hpos]. cbn [q_Rev] in Hpos.
  split; cbn [releases apps maints used].
  - intros i o [[<- <-]|[_ Ho]]%lookup_insert_Some; cbn [r_App r_Rev].
    + split; [done|]. exists (mkQApp (m.(m_Expected) + 1) false). rewrite lookup_insert_eq. split; [done|]. cbn [q_Rev]. lia.
    + destruct (qi_release q Hinv i o Ho) as (Hui & b & Hb & Hle). split; [done|]. destruct (decide (o.(r_App) = m.(m_App))) as [Heq|Hne].
      * exists (mkQApp (m.(m_Expected) + 1) false). rewrite Heq, lookup_insert_eq. split; [done|]. specialize (Hrevs i o Ho Heq). cbn [q_Rev]. lia.
      * exists b. by rewrite lookup_insert_ne.
  - intros i b [[<- <-]|[_ Hb]]%lookup_insert_Some; cbn [q_Rev]; [split; [done|lia]|by apply (qi_app q Hinv)].
  - by apply added_unique.
  - apply added_ordered; [done..|by right].
  - intros i m' [[<- <-]|[Hne Hm']]%lookup_insert_Some.
    + split; [done|]. exists (mkQApp (m.(m_Expected) + 1) false). cbn [apps releases m_App m_Phase m_Expected q_Rev]. rewrite !lookup_insert_eq. split; [done|].
      split; [done|]. intros _. split_and!; [done|by exists (mkRelease m.(m_App) (m.(m_Expected) + 1) Running)|].
      intros i' r' [[<- _]|[_ Hr']]%lookup_insert_Some Hra Hp; [done|]. by destruct (Hidle i' r' Hr' Hra).
    + destruct (qi_maint q Hinv i m' Hm') as [Hui Hok]. split; [done|]. destruct (decide (m'.(m_App) = m.(m_App))) as [Heq|Hna].
      * assert (blocking m'.(m_Phase) = false) as Hb.
        { destruct (blocking m'.(m_Phase)) eqn:Hb; [|done]. destruct Hne. by apply (qi_single q Hinv id i m m'); [..|rewrite Hphase|]. }
        destruct (not_blocking _ Hb) as [He' Hsw]. exists (mkQApp (m.(m_Expected) + 1) false). cbn [apps]. rewrite Heq, lookup_insert_eq, He'. done.
      * eapply maint_ok_other; [exact Hok|..]; cbn [apps releases].
        -- by rewrite lookup_insert_ne.
        -- intros i' r' Hra. rewrite lookup_insert_Some. split; [intros [[_ <-]|[_ ?]]; [cbn [r_App] in Hra; congruence|done]|].
           intros Hr'. right. split; [|done]. intros <-. congruence.
        -- intros Hi. by rewrite lookup_insert_ne.
  - assert (∀ i m', q.(maints) !! i = Some m' → m'.(m_App) = m.(m_App) → blocking m'.(m_Phase) = true → id = i) as Hone.
    { intros i m' Hm' Happ Hb. by apply (qi_single q Hinv id i m m'); [..|rewrite Hphase|]. }
    intros i1 i2 m1 m2 [[<- <-]|[_ H1]]%lookup_insert_Some [[<- <-]|[_ H2]]%lookup_insert_Some; cbn [m_App m_Phase]; [done| | |by apply (qi_single q Hinv)].
    + intros Heq _ Hb. by apply (Hone i2 m2).
    + intros Heq Hb _. symmetry. by apply (Hone i1 m1).
  - intros i b [[<- <-]|[_ Hb]]%lookup_insert_Some Hh; [done|]. destruct (qi_healthy q Hinv i b Hb Hh) as (j & o & Ho & Hrest). exists j, o.
    rewrite lookup_insert_ne; [done|congruence].
  - intros i. destruct (decide (i = m.(m_App))) as [->|Hne].
    + etrans; [by eapply (pending_count_insert q)|]. rewrite pending_count_zero by done. lia.
    + etrans; [|apply (qi_bounded q Hinv i)]. apply pending_count_mono. cbn [releases]. intros j r' [[<- <-]|[_ Hr']]%lookup_insert_Some Hp; [|by exists r'].
      unfold pending_in in Hp. cbn [r_App] in Hp. apply andb_true_iff in Hp as [Hp%String.eqb_eq _]. congruence.
Qed.

(** Its result. *)
Lemma preserved_settle q id m r a (ok : bool) : qinv q → q.(maints) !! id = Some m → m.(m_Phase) = "switching" → q.(releases) !! id = Some r →
  q.(apps) !! m.(m_App) = Some a →
  qinv (mkQueue (<[ id := with_status (if ok then Succeeded else Failed) r ]> q.(releases)) (<[ m.(m_App) := mkQApp a.(q_Rev) ok ]> q.(apps))
          (<[ id := mkMaint m.(m_App) m.(m_Expected) (if ok then "original_retained" else "switching") ]> q.(maints)) q.(used)).
Proof.
  intros Hinv Hm Hphase Hr Ha. destruct (qi_maint q Hinv id m Hm) as (Hu & a' & Ha' & _ & Hsw). rewrite Ha in Ha'. injection Ha' as <-.
  destruct (Hsw Hphase) as (Hrev & (r0 & Hr0 & Hra & Hrr) & Honly). rewrite Hr in Hr0. injection Hr0 as <-.
  set (s := if ok then Succeeded else Failed). assert (pending s = false) as Hnp by (unfold s; by destruct ok).
  assert (∀ app b, q.(apps) !! app = Some b → ∃ b', (<[ m.(m_App) := mkQApp a.(q_Rev) ok ]> q.(apps)) !! app = Some b' ∧ b'.(q_Rev) = b.(q_Rev)) as Happs.
  { intros app b Hb. destruct (decide (app = m.(m_App))) as [->|Hne]; [|exists b; by rewrite lookup_insert_ne].
    rewrite Ha in Hb. injection Hb as <-. exists (mkQApp a.(q_Rev) ok). by rewrite lookup_insert_eq. }
  assert (∀ i m', q.(maints) !! i = Some m' → i ≠ id → m'.(m_App) = m.(m_App) → blocking m'.(m_Phase) = false) as Hone.
  { intros i m' Hm' Hne Happ. destruct (blocking m'.(m_Phase)) eqn:Hb; [|done]. destruct Hne. by apply (qi_single q Hinv i id m' m); [..|rewrite Hphase]. }
  split; cbn [releases apps maints used].
  - by eapply status_release.
  - intros app b [[<- <-]|[_ Hb]]%lookup_insert_Some; [by apply (qi_app q Hinv _ a)|by apply (qi_app q Hinv _ b)].
  - by eapply status_unique.
  - eapply status_ordered; [done..| |by rewrite Hnp]. intros _ i o Ho Happ Hlt Hp. assert (i = id) as -> by (apply (Honly i o Ho); [congruence|done]).
    rewrite Hr in Ho. injection Ho as <-. lia.
  - intros i m' [[<- <-]|[Hne Hm']]%lookup_insert_Some.
    + split; [done|]. exists (mkQApp a.(q_Rev) ok). cbn [apps releases m_App m_Phase m_Expected q_Rev]. rewrite lookup_insert_eq. split; [done|].
      split; [by destruct ok|]. intros Hp. split_and!; [done| |].
      * exists (with_status s r). by rewrite lookup_insert_eq.
      * intros i' r' [[<- _]|[_ Hr']]%lookup_insert_Some Hra' Hp'; [done|]. by apply (Honly i' r').
    + destruct (status_maint q id r s Hr Hinv _ Happs ltac:(by rewrite Hnp) i m' Hm') as [? Hok]. split; [done|].
      destruct Hok as (b & Hb & Hrest). exists b. split; [exact Hb|exact Hrest].
  - intros i1 i2 m1 m2 [[<- <-]|[Hn1 H1]]%lookup_insert_Some [[<- <-]|[Hn2 H2]]%lookup_insert_Some; cbn [m_App m_Phase]; [done| | |by apply (qi_single q Hinv)].
    + intros Heq _ Hb. by rewrite (Hone i2 m2 H2) in Hb.
    + intros Heq Hb _. by rewrite (Hone i1 m1 H1) in Hb.
  - intros app b [[<- <-]|[Hne Hb]]%lookup_insert_Some Hh; cbn [q_Healthy q_Rev] in *.
    + exists id, (with_status s r). rewrite lookup_insert_eq. unfold s. rewrite Hh. cbn [with_status r_App r_Rev r_Status]. split_and!; [done..|congruence|done].
    + destruct (qi_healthy q Hinv app b Hb Hh) as (i & o & Ho & H1 & H2 & H3). exists i, o.
      destruct (decide (i = id)) as [->|Hne']; [|by rewrite lookup_insert_ne]. rewrite Hr in Ho. injection Ho as <-. congruence.
  - eapply status_bounded; [done..|by rewrite Hnp].
Qed.

(** ** The end of a preview, the end of an application *)

Lemma cancel_lookup q app id r' : ((λ r, if pending_in app r then with_status Cancelled r else r) <$> q.(releases)) !! id = Some r' →
  ∃ r, q.(releases) !! id = Some r ∧ r'.(r_App) = r.(r_App) ∧ r'.(r_Rev) = r.(r_Rev) ∧
    (r' = r ∧ (r.(r_App) = app → ¬ is_pending r) ∨ r.(r_App) = app ∧ is_pending r ∧ r'.(r_Status) = Cancelled).
Proof.
  rewrite lookup_fmap_Some. intros (r & <- & Hr). exists r. split; [done|]. unfold pending_in, is_pending. destruct (r_App r =? app)%string eqn:Ha; cbn [andb].
  - apply String.eqb_eq in Ha. destruct (pending (r_Status r)) eqn:Hp; cbn [with_status r_App r_Rev r_Status]; [tauto|].
    split_and!; [done..|]. left. split; [done|]. by intros _.
  - apply String.eqb_neq in Ha. tauto.
Qed.

Lemma cancel_pending_lookup q app id r' : ((λ r, if pending_in app r then with_status Cancelled r else r) <$> q.(releases)) !! id = Some r' →
  is_pending r' → q.(releases) !! id = Some r' ∧ r'.(r_App) ≠ app.
Proof.
  intros (r & Hr & Ha & _ & [[-> Hn]|(_ & _ & Hc)])%cancel_lookup Hp; [|unfold is_pending in Hp; by rewrite Hc in Hp].
  split; [done|]. intros He. by destruct (Hn He).
Qed.

Lemma preserved_cancel q app : qinv q →
  qinv (mkQueue ((λ r, if pending_in app r then with_status Cancelled r else r) <$> q.(releases)) q.(apps) q.(maints) q.(used)).
Proof.
  intros Hinv. split; cbn [releases apps maints used]; try apply Hinv.
  - intros id r' (r & Hr & -> & -> & _)%cancel_lookup. by apply (qi_release q Hinv).
  - intros i1 i2 r1 r2 (o1 & H1 & -> & -> & _)%cancel_lookup (o2 & H2 & -> & -> & _)%cancel_lookup. by apply (qi_unique q Hinv).
  - intros i1 i2 r1 r2 H1 (o2 & H2 & Happ2 & Hrev2 & Hc)%cancel_lookup Happ Hlt Hp. destruct (cancel_pending_lookup _ _ _ _ H1 Hp) as [H1' Hne].
    destruct Hc as [[-> _]|(Heq & _)]; [by apply (qi_ordered q Hinv i1 i2 r1)|congruence].
  - intros id m Hm. destruct (qi_maint q Hinv id m Hm) as (Hu & a & Ha & He & Hs). split; [done|]. exists a. cbn [apps releases]. split; [done|]. split.
    + intros Hp. destruct (He Hp) as (H1 & H2 & H3). split_and!; [done| |by rewrite lookup_fmap, H3].
      intros i r Hr Hra Hpr. destruct (cancel_pending_lookup _ _ _ _ Hr Hpr) as [Hr' _]. by apply (H2 i r).
    + intros Hp. destruct (Hs Hp) as (H1 & (r & Hr & Hra & Hrr) & H2). split_and!; [done| |].
      * exists (if pending_in app r then with_status Cancelled r else r). rewrite lookup_fmap, Hr. split; [done|]. by destruct (pending_in app r).
      * intros i r' Hr' Hra' Hpr. destruct (cancel_pending_lookup _ _ _ _ Hr' Hpr) as [Hr'' _]. by apply (H2 i r').
  - intros i a Ha Hh. destruct (qi_healthy q Hinv i a Ha Hh) as (id & r & Hr & H1 & H2 & H3). exists id, r. rewrite lookup_fmap, Hr. cbn [fmap option_fmap option_map].
    unfold pending_in. rewrite H3, andb_false_r. done.
  - intros i. etrans; [|apply (qi_bounded q Hinv i)]. apply pending_count_mono. cbn [releases]. intros id r' Hr' Hp.
    unfold pending_in in Hp. apply andb_true_iff in Hp as [Ha Hp]. destruct (cancel_pending_lookup _ _ _ _ Hr' Hp) as [Hr _]. exists r'. split; [done|].
    unfold pending_in. by rewrite Ha, Hp.
Qed.

Lemma preserved_drop q app : qinv q →
  qinv (mkQueue (filter (λ e, e.2.(r_App) ≠ app) q.(releases)) (delete app q.(apps)) (filter (λ e, e.2.(m_App) ≠ app) q.(maints)) q.(used)).
Proof.
  intros Hinv.
  assert (∀ id r, filter (λ e : string * Release, e.2.(r_App) ≠ app) q.(releases) !! id = Some r ↔ q.(releases) !! id = Some r ∧ r.(r_App) ≠ app) as Hrel
    by (intros; apply map_lookup_filter_Some).
  assert (∀ id m, filter (λ e : string * Maint, e.2.(m_App) ≠ app) q.(maints) !! id = Some m ↔ q.(maints) !! id = Some m ∧ m.(m_App) ≠ app) as Hmaint
    by (intros; apply map_lookup_filter_Some).
  split; cbn [releases apps maints used].
  - intros id r [Hr Hne]%Hrel. destruct (qi_release q Hinv id r Hr) as (Hu & a & Ha & Hb). split; [done|]. exists a. by rewrite lookup_delete_ne.
  - intros i a [_ Ha]%lookup_delete_Some. by apply (qi_app q Hinv).
  - intros i1 i2 r1 r2 [H1 _]%Hrel [H2 _]%Hrel. by apply (qi_unique q Hinv).
  - intros i1 i2 r1 r2 [H1 _]%Hrel [H2 _]%Hrel. by apply (qi_ordered q Hinv i1 i2).
  - intros id m [Hm Hne]%Hmaint. destruct (qi_maint q Hinv id m Hm) as [Hu Hok]. split; [done|]. eapply maint_ok_other; [exact Hok|..]; cbn [apps releases].
    + by rewrite lookup_delete_ne.
    + intros i r Hra. rewrite Hrel. split; [tauto|]. intros Hr. split; [done|congruence].
    + intros Hi. apply map_lookup_filter_None. by left.
  - intros i1 i2 m1 m2 [H1 _]%Hmaint [H2 _]%Hmaint. by apply (qi_single q Hinv).
  - intros i a [Hne Ha]%lookup_delete_Some Hh. destruct (qi_healthy q Hinv i a Ha Hh) as (id & r & Hr & H1 & H2). exists id, r.
    rewrite Hrel. split; [split; [done|congruence]|done].
  - intros i. etrans; [|apply (qi_bounded q Hinv i)]. apply pending_count_mono. cbn [releases]. intros id r [Hr _]%Hrel Hp. by exists r.
Qed.

Lemma preserved_stutter q u : qinv q → q.(used) ⊆ u → qinv (mkQueue q.(releases) q.(apps) q.(maints) u).
Proof.
  intros Hinv Hu. split; cbn [releases apps maints used]; try apply Hinv.
  - intros id r Hr. destruct (qi_release q Hinv id r Hr). split; [set_solver|done].
  - intros app a Ha. destruct (qi_app q Hinv app a Ha). split; [set_solver|done].
  - intros id m Hm. destruct (qi_maint q Hinv id m Hm). split; [set_solver|done].
Qed.

(** Every step keeps the invariant. *)
Lemma qstep_inv l q q' : qstep l q q' → qinv q → qinv q'.
Proof.
  intros Hs Hinv. destruct Hs; [by apply preserved_stutter|by apply preserved_enqueue|by eapply preserved_requeue|by eapply preserved_resize|by apply preserved_start|
    by apply preserved_finish|by apply preserved_cancel|by apply preserved_drop|by apply preserved_phase|by eapply preserved_cutover|by eapply preserved_settle].
Qed.

(** * What a worker knows, and the steps of others *)

Lemma qstep_used l q q' : qstep l q q' → q.(used) ⊆ q'.(used).
Proof. destruct 1; cbn [used]; set_solver. Qed.

(** A release a worker has read of: it may be gone, but none of its elders comes back. *)
Definition candidate (q : Queue) (id app : string) : Prop :=
  id ∈ q.(used) ∧ q.(maints) !! id = None ∧ ∀ r, q.(releases) !! id = Some r → r.(r_App) = app ∧ first_in_line q r.

(** The release a worker runs. *)
Definition running (q : Queue) (id app : string) (rev : Z) : Prop :=
  q.(releases) !! id = Some (mkRelease app rev Running) ∧ q.(maints) !! id = None.

(** A resize a worker has read of. *)
Definition resize_of (q : Queue) (id app : string) : Prop := id ∈ q.(used) ∧ ∀ m, q.(maints) !! id = Some m → m.(m_App) = app.

(** The releases that were there, up to their statuses, and the new ones. *)
Lemma qstep_release l q q' id r' : qstep l q q' → qinv q → q'.(releases) !! id = Some r' →
  (∃ r, q.(releases) !! id = Some r ∧ r'.(r_App) = r.(r_App) ∧ r'.(r_Rev) = r.(r_Rev) ∧
     (is_pending r' → is_pending r ∨ ∃ a, q.(apps) !! r.(r_App) = Some a ∧ a.(q_Rev) = r.(r_Rev))) ∨
  (id ∉ q.(used) ∨ is_Some (q.(maints) !! id)) ∧ ∀ a, q.(apps) !! r'.(r_App) = Some a → a.(q_Rev) < r'.(r_Rev).
Proof.
  intros Hs Hinv. destruct Hs as [q u Hu|q i app rev u Hi Hu _ _ Happ|q i r0 h Hr0 Hf Ha _|q i app rev h u Hi Hu _ _ _|q i r0 Hr0 Hp _ _|q i r0 s a h Hr0 Hrun _ Ht _ _|q app|q app|
    q i m to Hm _ _|q i m h Hm _ Ha|q i m r0 a ok Hm _ Hr0 Ha]; cbn [releases].
  - intros Hr. left. exists r'. tauto.
  - intros [[<- <-]|[_ Hr]]%lookup_insert_Some; [right|left; exists r'; tauto]. split; [by left|]. cbn [r_App r_Rev]. intros a Ha.
    destruct Happ as [[h Happ]|(Happ & _)]; [|congruence]. rewrite Happ in Ha. injection Ha as <-. cbn [q_Rev]. lia.
  - intros [[<- <-]|[_ Hr]]%lookup_insert_Some; [left|left; exists r'; tauto]. exists r0. split_and!; [done..|]. intros _. right.
    exists (mkQApp r0.(r_Rev) h). done.
  - intros Hr. left. exists r'. tauto.
  - intros [[<- <-]|[_ Hr]]%lookup_insert_Some; [left; exists r0|left; exists r'; tauto]. split_and!; [done..|]. tauto.
  - intros [[<- <-]|[_ Hr]]%lookup_insert_Some; [left; exists r0|left; exists r'; tauto]. split_and!; [done..|]. unfold is_pending at 1.
    cbn [with_status r_Status]. by rewrite terminal_pending.
  - intros Hr. left. destruct (cancel_lookup _ _ _ _ Hr) as (r & Hr1 & Ha & Hrev & _). exists r. split_and!; [done..|]. intros Hp.
    destruct (cancel_pending_lookup _ _ _ _ Hr Hp) as [Hr2 _]. left. congruence.
  - intros [Hr _]%map_lookup_filter_Some. left. exists r'. tauto.
  - intros Hr. left. exists r'. tauto.
  - intros [[<- <-]|[_ Hr]]%lookup_insert_Some; [right|left; exists r'; tauto]. split; [right; by eexists|]. cbn [r_App r_Rev]. intros a Ha'.
    rewrite Ha in Ha'. injection Ha' as <-. cbn [q_Rev]. lia.
  - intros [[<- <-]|[_ Hr]]%lookup_insert_Some; [left; exists r0|left; exists r'; tauto]. split_and!; [done..|]. unfold is_pending at 1.
    cbn [with_status r_Status]. by destruct ok.
Qed.

Lemma qstep_maint_None l q q' id : qstep l q q' → id ∈ q.(used) → q.(maints) !! id = None → q'.(maints) !! id = None.
Proof.
  intros Hs Hu Hn. destruct Hs; cbn [maints]; try done; try (rewrite lookup_insert_ne; [done|]; set_solver || congruence).
  apply map_lookup_filter_None. by left.
Qed.

Lemma candidate_stable l q q' id app : qstep l q q' → qinv q → candidate q id app → candidate q' id app.
Proof.
  intros Hs Hinv (Hu & Hm & Hc). split_and!; [by apply (qstep_used l q q' Hs)|by eapply qstep_maint_None|].
  intros r' Hr'. destruct (qstep_release l q q' id r' Hs Hinv Hr') as [(r & Hr & Ha & Hrev & _)|([?|Hsome] & _)]; [|done|destruct Hsome; congruence].
  destruct (Hc r Hr) as [Happ Hfirst]. split; [congruence|]. intros i o Ho Hoa Hlt Hp.
  destruct (qi_release q Hinv id r Hr) as (_ & ar & Har & Hbr).
  destruct (qstep_release l q q' i o Hs Hinv Ho) as [(o0 & Ho0 & Hoa0 & Hor0 & Hpo)|(_ & Hnew)].
  - destruct (Hpo Hp) as [Hp0|(a & Ha0 & Hra)]; [by apply (Hfirst i o0 Ho0); [congruence|lia|]|].
    assert (r_App o0 = r_App r) as Heq by congruence. rewrite Heq, Har in Ha0. injection Ha0 as ->. lia.
  - specialize (Hnew ar). rewrite Hoa, Ha in Hnew. specialize (Hnew Har). lia.
Qed.

Lemma running_stable l q q' id app rev : qstep l q q' → qinv q → l ≠ Some app → running q id app rev → running q' id app rev.
Proof.
  intros Hs Hinv Hl [Hr Hm]. destruct (qi_release q Hinv id _ Hr) as [Hu _]. split; [|by eapply qstep_maint_None].
  destruct Hs as [q u Hu'|q i app' rev' u Hi Hu' _ _ Happ|q i r0 h Hr0 Hf Ha _|q i app' rev' h u Hi Hu' _ _ _|q i r0 Hr0 Hp _ _|q i r0 s a h Hr0 Hrun _ Ht _ _|q app'|q app'|
    q i m to Hm' _ _|q i m h Hm' _ Ha|q i m r0 a ok Hm' _ Hr0 Ha]; cbn [releases]; try done.
  - rewrite lookup_insert_ne; [done|congruence].
  - rewrite lookup_insert_ne; [done|]. intros ->. rewrite Hr in Hr0. injection Hr0 as <-. discriminate.
  - rewrite lookup_insert_ne; [done|]. intros ->. rewrite Hr in Hr0. injection Hr0 as <-. done.
  - rewrite lookup_insert_ne; [done|]. intros ->. rewrite Hr in Hr0. injection Hr0 as <-. done.
  - rewrite lookup_fmap, Hr. cbn. unfold pending_in. cbn [r_App]. destruct (String.eqb_spec app app') as [->|Hne]; done.
  - apply map_lookup_filter_Some. split; [done|]. cbn. congruence.
  - rewrite lookup_insert_ne; [done|congruence].
  - rewrite lookup_insert_ne; [done|congruence].
Qed.

Lemma resize_of_stable l q q' id app : qstep l q q' → qinv q → resize_of q id app → resize_of q' id app.
Proof.
  intros Hs Hinv [Hu Hm]. split; [by apply (qstep_used l q q' Hs)|].
  destruct Hs; cbn [maints]; try done; intros m' Hl; try (apply lookup_insert_Some in Hl as [[<- <-]|[_ Hl]]; [|by apply Hm]); cbn [m_App]; try by apply Hm.
  - done.
  - apply map_lookup_filter_Some in Hl as [Hl _]. by apply Hm.
Qed.

(** Only the holder of the application moves its resizes. *)
Lemma maint_stable l q q' id m : qstep l q q' → qinv q → l ≠ Some m.(m_App) → q.(maints) !! id = Some m → q'.(maints) !! id = Some m.
Proof.
  intros Hs Hinv Hl Hm. destruct (qi_maint q Hinv id m Hm) as [Hu _].
  destruct Hs; cbn [maints]; try done; try (rewrite lookup_insert_ne; [done|intros ->; congruence]).
  apply map_lookup_filter_Some. split; [done|]. cbn. congruence.
Qed.

(** While a resize holds it, only the holder of its lock moves the revision. *)
Lemma revision_stable l q q' id m a : qstep l q q' → qinv q → l ≠ Some m.(m_App) → q.(maints) !! id = Some m → blocking m.(m_Phase) = true →
  q.(apps) !! m.(m_App) = Some a → ∃ a', q'.(apps) !! m.(m_App) = Some a' ∧ a'.(q_Rev) = a.(q_Rev).
Proof.
  intros Hs Hinv Hl Hm Hb Ha.
  destruct Hs as [q u Hu'|q i app' rev' u Hi Hu' Hub _ Happ|q i r0 h Hr0 Hf Ha' _|q i app' rev' h u Hi Hu' _ _ _|q i r0 Hr0 Hp _ _|q i r0 s a0 h Hr0 Hrun _ Ht _ _|q app'|q app'|
    q i m' to Hm' _ _|q i m' h Hm' _ Ha'|q i m' r0 a' ok Hm' _ Hr0 Ha']; cbn [apps]; try (by exists a).
  - destruct (decide (m.(m_App) = app')) as [Heq|Hne]; [|exists a; by rewrite lookup_insert_ne]. by rewrite (Hub id m Hm Heq) in Hb.
  - destruct (decide (m.(m_App) = r0.(r_App))) as [Heq|Hne]; [|exists a; by rewrite lookup_insert_ne]. rewrite Heq, lookup_insert_eq.
    rewrite Heq, Ha' in Ha. injection Ha as <-. by eexists.
  - exists a. rewrite lookup_insert_ne; [done|congruence].
  - exists a. rewrite lookup_delete_ne; [done|congruence].
  - exists a. rewrite lookup_insert_ne; [done|congruence].
  - exists a. rewrite lookup_insert_ne; [done|congruence].
Qed.
