(* ===== verification/DeploymentSteps.v ===== *)
(** Workers on the store: each connection runs the loop of [Claim], [ClaimVolumeResize] or
    [ClaimPreviewCleanup] one statement at a time, then the methods of the claim it won;
    in between, requests of the API are single transactions. A worker may stop and lose
    its connection at any point. *)
From stdpp Require Import functions.
From S2P Require Import Prelude GoStd SpecTypes Platform SpecWorkloads SpecNormalize SpecTransfer SpecRecovery StoreErrors Principals DeploymentTables DeploymentStore DeploymentQueue.
#[global] Open Scope Z_scope.

(** Where a connection stands: the candidates still to try, what it holds, what it read. *)
Inductive Worker : Type :=
  | Idle
  | Choosing (todo : list (string * string))
  | Locked (id app : string) (todo : list (string * string))
  | Fenced (id app : string) (todo : list (string * string))
  | Starting (d : Deployment) (app : string)
  | Reading (d : Deployment) (app : string)
  | Holding (c : Claim)
  | ResizeChoosing (todo : list (string * string))
  | ResizeLocked (id app : string) (todo : list (string * string))
  | ResizeReading (r : ResizeRow) (app : string) (todo : list (string * string))
  | Resizing (c : ResizeClaim)
  | PreviewChoosing (todo : list string)
  | PreviewLocked (app : string) (todo : list string)
  | PreviewReading (v : PreviewRow) (app : string)
  | PreviewCancelling (v : PreviewRow) (a : AppRow) (app : string)
  | Cleaning (v : PreviewRow) (a : AppRow)
  | Maintaining (app : string)
  | Done (app : string).

(** The application whose lock the connection has. *)
Definition held (w : Worker) : option string :=
  match w with
  | Idle | Choosing _ | ResizeChoosing _ | PreviewChoosing _ => None
  | Locked _ app _ | Fenced _ app _ | Starting _ app | Reading _ app | ResizeLocked _ app _ | ResizeReading _ app _
  | PreviewLocked app _ | PreviewReading _ app | PreviewCancelling _ _ app | Maintaining app | Done app => Some app
  | Holding c => Some c.(c_App).(a_ID)
  | Resizing c => Some c.(rc_App).(a_ID)
  | Cleaning _ a => Some a.(a_ID)
  end.

Section steps.
Context `{Host} `{ThirdParty} `{Quantity} `{RangeOrder} `{Digest} `{Others}.
#[local] Abbreviation DB := (Database Rest).

(** * The loops that claim *)

(** [pg_try_advisory_lock] for the next candidate. *)
Definition try_lock {A} (n : nat) (app : string) (won lost : A) (db : DB) : A * DB :=
  if locked db app then (lost, db) else (won, lock_app n app db).

(** The next statement of a worker on connection [n]. *)
Definition advance (now : Z) (n : nat) (w : Worker) (db : DB) : Worker * DB :=
  match w with
  | Choosing [] | ResizeChoosing [] | PreviewChoosing [] => (Idle, db)
  | Choosing ((id, app) :: todo) => try_lock n app (Locked id app todo) (Choosing todo) db
  | Locked id app todo =>
      if invocations_active db.(rest) app || sessions_active db.(rest) app then (Choosing todo, unlock_all n db) else (Fenced id app todo, db)
  | Fenced id app todo =>
      match start_deployment now id db with
      | Some (d, db') => (Starting d app, db')
      | None => (Choosing todo, unlock_all n db)
      end
  | Starting d app => let '(d', db') := start_attempt now d db in (Reading d' app, db')
  | Reading d app => match db.(applications) !! app with Some a => (Holding (mkClaim d a), db) | None => (Idle, unlock_all n db) end
  | ResizeChoosing ((id, app) :: todo) => try_lock n app (ResizeLocked id app todo) (ResizeChoosing todo) db
  | ResizeLocked id app todo =>
      match read_resize id db with Some r => (ResizeReading r app todo, db) | None => (ResizeChoosing todo, unlock_all n db) end
  | ResizeReading r app todo =>
      match db.(applications) !! app with Some a => (Resizing (mkResizeClaim r a), db) | None => (ResizeChoosing todo, unlock_all n db) end
  | PreviewChoosing (app :: todo) => try_lock n app (PreviewLocked app todo) (PreviewChoosing todo) db
  | PreviewLocked app todo =>
      match mark_preview now app db with Some (v, db') => (PreviewReading v app, db') | None => (PreviewChoosing todo, unlock_all n db) end
  | PreviewReading v app => match db.(applications) !! app with Some a => (PreviewCancelling v a app, db) | None => (Idle, unlock_all n db) end
  | PreviewCancelling v a app => (Cleaning v a, cancel_pending now app db)
  | Idle | Holding _ | Resizing _ | Cleaning _ _ | Maintaining _ | Done _ => (w, db)
  end.

(** * The methods of a claim *)

(** What a worker does with a release it holds. *)
Inductive claim_call : Claim → DB → Worker → DB → Prop :=
  | call_SetResolved c db app winner db' : SetResolved c app db = Ok (winner, db') → claim_call c db (Holding c) db'
  | call_BeginRecovery c db previous failure skip c' db' : BeginRecovery c previous failure skip db = Ok (c', db') → claim_call c db (Holding c') db'
  | call_FinishRecovery c db state message result_json c' db' :
      FinishRecovery c state message result_json db = Ok (c', db') → claim_call c db (Holding c') db'
  | call_Finish c db now status message result_json db' :
      Finish now c status message result_json db = Ok (tt, db') → claim_call c db (Done c.(c_App).(a_ID)) db'.

(** What [resizeVolume] does with a resize, by its phase. *)
Inductive resize_call : ResizeClaim → DB → Worker → DB → Prop :=
  | call_Save c db phase runtime message c' db' :
      phase = c.(rc_Resize).(rz_Phase) ∨ c.(rc_Resize).(rz_Phase) = "queued" ∧ phase = "copying" →
      Save c phase runtime message db = (c', db') → resize_call c db (Resizing c') db'
  | call_BeginCutover c db now c' db' : BeginCutover now c db = Ok (c', db') → resize_call c db (Resizing c') db'
  | call_CutoverResult c db now result_json message :
      c.(rc_Resize).(rz_Phase) = "switching" → resize_call c db (Done c.(rc_App).(a_ID)) (CutoverResult now c result_json message db)
  | call_Reclaimed c db phase :
      c.(rc_Resize).(rz_Phase) = "cancelling" ∧ phase = "cancelled" ∨ c.(rc_Resize).(rz_Phase) = "deleting_original" ∧ phase = "completed" →
      resize_call c db (Done c.(rc_App).(a_ID)) (Reclaimed c phase db).

Inductive worker_step (n : nat) : Worker → DB → Worker → DB → Prop :=
  | work_deployments now db : worker_step n Idle db (Choosing (candidates now db)) db
  | work_resizes db : worker_step n Idle db (ResizeChoosing (resize_candidates db)) db
  | work_previews now db : worker_step n Idle db (PreviewChoosing (cleanup_candidates now db)) db
  | work_other app db : locked db app = false → worker_step n Idle db (Maintaining app) (lock_app n app db)
  | work_advance now w db : worker_step n w db (advance now n w db).1 (advance now n w db).2
  | work_claim c db w' db' : claim_call c db w' db' → worker_step n (Holding c) db w' db'
  | work_resize c db w' db' : resize_call c db w' db' → worker_step n (Resizing c) db w' db'
  | work_cleanup v a db message db' : PreviewFinish v a message db = Ok (tt, db') → worker_step n (Cleaning v a) db (Done a.(a_ID)) db'
  | work_release w db : worker_step n w db Idle (unlock_all n db).

(** * The requests of the API *)

(** New identifiers are random, and the one of a resize is a digest of its caller and
    key: none was given out before. *)
Inductive request : gset string → DB → gset string → DB → Prop :=
  | req_accept used db now fresh_app fresh_id p project env next expected idem initial rollback seed d db' :
      fresh_app ∉ used → fresh_id ∉ used → fresh_app ≠ fresh_id →
      Accept now fresh_app fresh_id p project env next expected idem initial rollback seed db = Ok (d, db') →
      request used db ({[ fresh_id; fresh_app ]} ∪ used) db'
  | req_accept_preview used db now fresh_app fresh_id p parent next initial idem d db' :
      fresh_app ∉ used → fresh_id ∉ used → fresh_app ≠ fresh_id →
      AcceptPreview now fresh_app fresh_id p parent next initial idem db = Ok (d, db') → request used db ({[ fresh_id; fresh_app ]} ∪ used) db'
  | req_resume used db p id expected idem d db' : ResumeDeployment p id expected idem db = Ok (d, db') → request used db used db'
  | req_cancel used db id db' : cancel id db = Ok (tt, db') → request used db used db'
  | req_delete_preview used db p id confirmation db' : RequestPreviewDeletion p id confirmation db = Ok (tt, db') → request used db used db'
  | req_delete_application used db p id expected confirmation deleteData db' :
      DeleteEmptyApplication p id expected confirmation deleteData db = Ok (tt, db') → request used db used db'
  | req_resize used db p app claim size revision idem runtime r db' :
      (has_key db.(volume_resizes) (ResizeID p.(p_ID) idem) = false → ResizeID p.(p_ID) idem ∉ used) →
      StartVolumeResize p app claim size revision idem runtime db = Ok (r, db') → request used db ({[ ResizeID p.(p_ID) idem ]} ∪ used) db'
  | req_resize_action used db p app id action confirm db' : ResizeAction p app id action confirm db = Ok (tt, db') → request used db used db'
  | req_rest used db r : request used db used (set_rest r db).

(** * The system *)

Record System : Type := mkSystem { sys_db : DB; sys_workers : nat → Worker; sys_used : gset string }.

Inductive step : System → System → Prop :=
  | step_request db ws used db' used' : request used db used' db' → step (mkSystem db ws used) (mkSystem db' ws used')
  | step_worker n db ws used w' db' : worker_step n (ws n) db w' db' → step (mkSystem db ws used) (mkSystem db' (<[ n := w' ]> ws) used).

(** An installation without applications, whatever its other tables hold. *)
Definition fresh_system (s : System) : Prop :=
  s.(sys_db).(deployments) = ∅ ∧ s.(sys_db).(applications) = ∅ ∧ s.(sys_db).(volume_resizes) = ∅ ∧ s.(sys_db).(resume_attempts) = ∅ ∧
  s.(sys_db).(previews) = ∅ ∧ s.(sys_db).(locks) = ∅ ∧ ∀ n, s.(sys_workers) n = Idle.

(** * The queue the tables hold *)

Definition view_release (d : Deployment) : Release := mkRelease d.(d_ApplicationID) d.(d_Revision) d.(d_Status).
Definition view_app (a : AppRow) : QApp := mkQApp a.(a_Revision) (a.(a_Status) =? "healthy")%string.
Definition view_maint (r : ResizeRow) : Maint := mkMaint r.(rz_ApplicationID) r.(rz_ExpectedRevision) r.(rz_Phase).
Definition view (db : DB) (u : gset string) : Queue :=
  mkQueue (view_release <$> db.(deployments)) (view_app <$> db.(applications)) (view_maint <$> db.(volume_resizes)) u.

(** Every row has the key of its place. *)
Record keyed (db : DB) : Prop := {
  kd_deployment : Keyed d_ID db.(deployments);
  kd_app : Keyed a_ID db.(applications);
  kd_resize : Keyed rz_ID db.(volume_resizes);
  kd_preview : Keyed pv_ID db.(previews);
}.
End steps.
