(* ===== verification/DeploymentExample.v ===== *)
(** A run on concrete tables: a release is accepted, claimed and held. The other parts of
    the store let everything pass and keep no state. *)
From stdpp Require Import functions.
From S2P Require Import Prelude GoStd SpecTypes Platform SpecWorkloads SpecNormalize SpecTransfer SpecRecovery StoreErrors Principals DeploymentTables DeploymentStore DeploymentQueue DeploymentSteps.
#[global] Open Scope Z_scope.

Module DeploymentExample.
Import Concrete.
Import TransferExample.

Definition ada : Principal :=
  mkPrincipal false false "ada" "Ada" true true EmptyString "browser" [] [] "key" EmptyString EmptyString EmptyString ["admin"] EmptyString EmptyString [].

(** A result tells its failed services by their name. *)
#[export] Instance others : Others | 100 := {|
  Rest := unit;
  requireActions _ _ _ _ := Ok tt;
  AdmitDeployment _ _ _ _ _ := Ok tt;
  resolveVirtualNetworks _ _ _ _ := Ok tt;
  ApplicationLimit := None;
  patches_enabled _ := false;
  checkApplicationAllocation _ _ _ := Ok tt;
  validateDatabaseBindings _ _ _ _ := Ok tt;
  consumeDatabaseConnectionReview _ _ _ _ := Ok tt;
  ValidateDeployment := None;
  sessions_active _ _ := false;
  invocations_active _ _ := false;
  cancel_queued_invocations r _ := r;
  cleanup_pending _ _ := false;
  cleanup_incomplete _ _ := false;
  reserveStorage _ _ _ _ := Ok tt;
  checkApplicationPoolCapacity _ _ _ := Ok tt;
  validateServerlessCapacity _ _ _ := Ok tt;
  reserveDomains _ _ _ := Ok tt;
  acceptCustomHostnames _ _ _ := Ok tt;
  AuthorizeRetainedCleanup _ _ _ _ := Ok tt;
  backup_busy _ _ := false;
  showcase_app _ _ := false;
  actions_pending _ _ := false;
  deletion_busy _ _ := false;
  remove_actions_pools r _ := r;
  delete_metadata _ _ := Ok tt;
  request_data_deletion r _ _ := r;
  forget_storage r _ := r;
  KeyPrincipal _ _ := Ok ada;
  accept_hash project env next expected _ _ _ := project +:+ "/" +:+ env +:+ "/" +:+ next.(app_Name) +:+ "/" +:+ Itoa expected;
  resume_hash id expected := id +:+ "/" +:+ Itoa expected;
  ResizeID identity idem := identity +:+ ":" +:+ idem;
  PreviewID identity idem := identity +:+ "-" +:+ idem;
  json_status s := s;
  json_observation s := Ok (mkObservation [(s, "failed")] (Some [s]));
  json_verified s := (s =? "verified")%string;
  json_retry s := s;
|}.

#[local] Abbreviation DB := (Database Rest).

Definition shop : Application :=
  set_app_Volumes {["data" := mkNamedVolume 10 EmptyString EmptyString]}
    (set_app_Services (Some {["db" := set_svc_Mounts [mkMount "data" "/data" false EmptyString] (set_svc_Image "pg:1" zero_Service)]})
      (set_app_Name "shop" zero_Application)).

Definition empty : DB := mkDatabase ∅ ∅ ∅ ∅ ∅ {[ ("demo", "prod") ]} ∅ ∅ tt.
Definition start : System := mkSystem empty (λ _, Idle) ∅.

Definition accept (now : Z) (fresh_app fresh_id : string) (expected : Z) (idem : string) (db : DB) : result (Deployment * DB) :=
  Accept now fresh_app fresh_id ada "demo" "prod" shop expected idem None false None db.
Definition db_of {A} (db : DB) (r : result (A * DB)) : DB := match r with Ok (_, db') => db' | Err _ => db end.

(** Two releases are queued, a worker claims the first and holds it. *)
Definition first : DB := Eval vm_compute in db_of empty (accept 10 "app" "dep-1" 0 "key-0001" empty).
Definition second : DB := Eval vm_compute in db_of first (accept 20 "app-2" "dep-2" 1 "key-0002" first).
Definition listed : Worker := Choosing (candidates 30 second).
Fixpoint advances (n : nat) (w : Worker) (db : DB) : Worker * DB :=
  match n with O => (w, db) | S n => let '(w, db) := advance 30 7 w db in advances n w db end.
Definition claimed : Worker * DB := Eval vm_compute in advances 5 listed second.
Definition claim : Claim := Eval vm_compute in match claimed.1 with Holding c => c | _ => mkClaim (new_deployment EmptyString EmptyString EmptyString EmptyString EmptyString EmptyString 0 Queued shop None 0 None false)
  (mkAppRow EmptyString EmptyString EmptyString EmptyString 0 EmptyString shop EmptyString) end.
Definition finished : DB := Eval vm_compute in db_of claimed.2 (Finish 40 claim Succeeded EmptyString "healthy" claimed.2).

Lemma candidates_first : candidates 30 second = [("dep-1", "app")].
Proof. vm_compute. reflexivity. Qed.
Lemma claimed_holds : claimed.1 = Holding claim.
Proof. vm_compute. reflexivity. Qed.

Definition used_now : gset string := {[ "dep-2"; "app-2" ]} ∪ ({[ "dep-1"; "app" ]} ∪ ∅).
Definition accepted : System := mkSystem second (λ _, Idle) used_now.

Lemma start_fresh : fresh_system start.
Proof. by split_and!. Qed.

Lemma second_run : rtc step (mkSystem first (λ _, Idle) ({[ "dep-1"; "app" ]} ∪ ∅)) accepted.
Proof.
  apply rtc_once, step_request. eapply (req_accept _ first 20 "app-2" "dep-2" ada "demo" "prod" shop 1 "key-0002" None false None); [| |done|].
  - apply (bool_decide_unpack _). vm_compute. exact I.
  - apply (bool_decide_unpack _). vm_compute. exact I.
  - vm_compute. reflexivity.
Qed.

Lemma accepted_run : rtc step start accepted.
Proof.
  eapply rtc_l; [|apply second_run]. apply step_request.
  eapply (req_accept ∅ empty 10 "app" "dep-1" ada "demo" "prod" shop 0 "key-0001" None false None); [set_solver|set_solver|done|]. vm_compute. reflexivity.
Qed.

(** The first release succeeds, its volume is resized, the cut-over fails, its original is
    retained, and the failed cut-over is resumed. *)
Definition holder (w : Worker) : Claim := match w with Holding c => c | _ => claim end.
Definition resizer (w : Worker) : ResizeClaim :=
  match w with
  | Resizing c => c
  | _ => mkResizeClaim (mkResizeRow EmptyString EmptyString EmptyString EmptyString EmptyString 0 EmptyString EmptyString 0 0 shop shop EmptyString EmptyString EmptyString)
           (c_App claim)
  end.
Definition alone : Worker * DB := Eval vm_compute in advances 5 (Choosing (candidates 30 first)) first.
Definition resolved : DB := Eval vm_compute in db_of alone.2 (SetResolved (holder alone.1) shop alone.2).
Definition served : DB := Eval vm_compute in db_of resolved (Finish 40 (holder alone.1) Succeeded EmptyString "healthy" resolved).
Definition healthy : DB := unlock_all 7 served.
Definition volume : string := "hakopod-volume-data".
Definition resize_id : string := ResizeID "ada" "key-0003".
Definition planned : DB := Eval vm_compute in db_of healthy (StartVolumeResize ada "app" volume 20 1 "key-0003" "{}" healthy).
Definition resizing : Worker * DB := Eval vm_compute in advances 3 (ResizeChoosing (resize_candidates planned)) planned.
Definition copied : ResizeClaim * DB := Eval vm_compute in Save (resizer resizing.1) "copying" "verified" EmptyString resizing.2.
Definition switched : result (ResizeClaim * DB) := BeginCutover 50 copied.1 copied.2.
Definition switching : ResizeClaim * DB := Eval vm_compute in match switched with Ok s => s | Err _ => copied end.
Definition broken : DB := Eval vm_compute in CutoverResult 60 switching.1 "db" "db failed" switching.2.
Definition failed : DB := unlock_all 7 broken.
Definition retained : DB := Eval vm_compute in db_of failed (ResizeAction ada "app" resize_id "retain" EmptyString failed).
Definition resume : result (Deployment * DB) := ResumeDeployment ada resize_id 2 "key-0004" retained.
Definition resumed : DB := Eval vm_compute in db_of retained resume.

(** The statements of the worker on connection 7. *)
Lemma advances_run n w (db : DB) ws u : ws 7%nat = w →
  ∃ ws', rtc step (mkSystem db ws u) (mkSystem (advances n w db).2 ws' u) ∧ ws' 7%nat = (advances n w db).1.
Proof.
  revert w db ws. induction n as [|n IH]; intros w db ws Hw; [by exists ws|]. cbn [advances]. destruct (advance 30 7 w db) as [w' db'] eqn:Ha.
  destruct (IH w' db' (<[ 7%nat := w' ]> ws)) as (ws' & Hrun & Hw'); [by rewrite fn_lookup_insert|]. exists ws'. split; [|done].
  eapply rtc_l; [|exact Hrun]. apply step_worker. rewrite Hw. pose proof (work_advance 7 30 w db) as Hs. by rewrite Ha in Hs.
Qed.

Lemma claimed_eq : claimed = advances 5 listed second.
Proof. vm_compute. reflexivity. Qed.

Lemma claimed_run : ∃ ws, rtc step accepted (mkSystem claimed.2 ws used_now) ∧ ws 7%nat = Holding claim.
Proof.
  destruct (advances_run 5 listed second (<[ 7%nat := listed ]> (λ _, Idle)) used_now) as (ws & Hrun & Hw); [by rewrite fn_lookup_insert|].
  rewrite <-claimed_eq in Hrun, Hw. exists ws. split; [|rewrite Hw; apply claimed_holds]. eapply rtc_l; [|exact Hrun]. apply (step_worker 7). apply work_deployments.
Qed.

Lemma finished_run : ∃ ws, rtc step accepted (mkSystem finished ws used_now).
Proof.
  destruct claimed_run as (ws & Hrun & Hw). eexists. etrans; [exact Hrun|]. apply rtc_once, (step_worker 7). rewrite Hw. apply work_claim.
  eapply (call_Finish claim claimed.2 40 Succeeded EmptyString "healthy"). vm_compute. reflexivity.
Qed.

(** One step of that worker, one request. *)
Definition runs_to (db : DB) (u : gset string) (w : Worker) : Prop := ∃ ws, rtc step start (mkSystem db ws u) ∧ ws 7%nat = w.

Lemma runs_work (db : DB) u w w' db' : runs_to db u w → worker_step 7 w db w' db' → runs_to db' u w'.
Proof.
  intros (ws & Hrun & Hw) Hs. exists (<[ 7%nat := w' ]> ws). split; [|by rewrite fn_lookup_insert]. etrans; [exact Hrun|]. apply rtc_once, step_worker. by rewrite Hw.
Qed.

Lemma runs_advances n (db : DB) u w : runs_to db u w → runs_to (advances n w db).2 u (advances n w db).1.
Proof. intros (ws & Hrun & Hw). destruct (advances_run n w db ws u Hw) as (ws' & Hrun' & Hw'). exists ws'. split; [by etrans|done]. Qed.

Lemma runs_request (db : DB) u u' w db' : runs_to db u w → request u db u' db' → runs_to db' u' w.
Proof. intros (ws & Hrun & Hw) Hr. exists ws. split; [|done]. etrans; [exact Hrun|]. by apply rtc_once, step_request. Qed.

Definition ids : gset string := {[ "dep-1"; "app" ]} ∪ ∅.
Definition ids_resize : gset string := {[ resize_id ]} ∪ ids.

Lemma alone_eq : alone = advances 5 (Choosing (candidates 30 first)) first.
Proof. vm_compute. reflexivity. Qed.
Lemma resizing_eq : resizing = advances 3 (ResizeChoosing (resize_candidates planned)) planned.
Proof. vm_compute. reflexivity. Qed.
Lemma alone_holds : alone.1 = Holding (holder alone.1).
Proof. done. Qed.
Lemma resizing_holds : resizing.1 = Resizing (resizer resizing.1).
Proof. done. Qed.

Lemma healthy_run : runs_to healthy ids Idle.
Proof.
  assert (runs_to first ids Idle) as H1.
  { apply (runs_request empty ∅); [exists (λ _, Idle); by split; [apply rtc_refl|]|].
    eapply (req_accept ∅ empty 10 "app" "dep-1" ada "demo" "prod" shop 0 "key-0001" None false None); [set_solver|set_solver|done|]. vm_compute. reflexivity. }
  assert (runs_to alone.2 ids (Holding (holder alone.1))) as H2.
  { rewrite <-alone_holds, alone_eq. apply (runs_advances 5). eapply runs_work; [exact H1|]. apply work_deployments. }
  eapply runs_work; [|apply work_release]. eapply runs_work; [eapply runs_work; [exact H2|]|]; apply work_claim.
  - eapply (call_SetResolved _ _ shop). vm_compute. reflexivity.
  - eapply (call_Finish _ _ 40 Succeeded EmptyString "healthy"). vm_compute. reflexivity.
Qed.

Lemma failed_run : runs_to failed ids_resize Idle.
Proof.
  assert (runs_to planned ids_resize Idle) as H1.
  { eapply runs_request; [exact healthy_run|]. eapply (req_resize ids healthy ada "app" volume 20 1 "key-0003" "{}").
    - intros _. apply (bool_decide_unpack _). vm_compute. exact I.
    - vm_compute. reflexivity. }
  assert (runs_to resizing.2 ids_resize (Resizing (resizer resizing.1))) as H2.
  { rewrite <-resizing_holds, resizing_eq. apply (runs_advances 3). eapply runs_work; [exact H1|]. apply work_resizes. }
  eapply runs_work; [|apply work_release]. eapply runs_work; [eapply runs_work; [eapply runs_work; [exact H2|]|]|]; apply work_resize.
  - apply (call_Save _ _ "copying" "verified" EmptyString copied.1 copied.2); [right; vm_compute; done|done].
  - apply (call_BeginCutover _ _ 50 switching.1 switching.2). vm_compute. reflexivity.
  - assert (broken = CutoverResult 60 switching.1 "db" "db failed" switching.2) as -> by (vm_compute; reflexivity).
    apply call_CutoverResult. vm_compute. reflexivity.
Qed.

Lemma resumed_run : runs_to resumed ids_resize Idle.
Proof.
  eapply runs_request; [eapply runs_request; [exact failed_run|]|].
  - eapply (req_resize_action _ failed ada "app" resize_id "retain" EmptyString). vm_compute. reflexivity.
  - eapply (req_resume _ retained ada resize_id 2 "key-0004"). vm_compute. reflexivity.
Qed.
End DeploymentExample.
