(* ===== verification/DeploymentRefine.v ===== *)
(** The tables implement the queue: each request and each statement of a worker is a step
    of the abstract queue that asks for a lock the worker has, or that nobody has. *)
From S2P Require Import Prelude GoStd SpecTypes Platform SpecWorkloads SpecNormalize SpecTransfer SpecRecovery StoreErrors Principals DeploymentTables DeploymentStore DeploymentQueue DeploymentSteps.
#[global] Open Scope Z_scope.
Set Default Proof Using "Type".

Lemma filter_fmap_size {V W} (g : V → W) (c : V → bool) (c' : W → bool) (m : gmap string V) : (∀ v, c' (g v) = c v) →
  size (filter (λ e : string * W, c' e.2 = true) (g <$> m)) = length (List.filter (λ e, c e.2) (map_to_list m)).
Proof.
  intros Hc. rewrite map_filter_alt, map_size_list_to_map.
  - rewrite map_to_list_fmap. induction (map_to_list m) as [|[k v] l IH]; [done|]. rewrite fmap_cons, filter_cons. cbn [List.filter prod_map fst snd].
    rewrite Hc. destruct (c v); [rewrite decide_True by done|rewrite decide_False by done]; cbn [length]; by rewrite IH.
  - apply (sublist_NoDup _ (map_to_list (g <$> m)).*1); [apply NoDup_fst_map_to_list|]. apply fmap_sublist, sublist_filter.
Qed.

Section refine.
Context `{Host} `{ThirdParty} `{Quantity} `{RangeOrder} `{Digest} `{Others}.
#[local] Abbreviation DB := (Database Rest).

Lemma view_pending_count (db : DB) u app : count_rows db.(deployments) (app_pending app) = Z.of_nat (pending_count (view db u) app).
Proof. unfold count_rows, pending_count, lenl. f_equal. symmetry. by apply filter_fmap_size. Qed.

Lemma blocking_view r : resizeBlocking r = blocking (view_maint r).(m_Phase).
Proof. apply eq_true_iff_eq. unfold resizeBlocking, blocking, early. rewrite orb_true_iff, !one_of_spec. cbn [view_maint m_Phase]. set_solver. Qed.

Lemma view_unblocked (db : DB) u app : resize_pending db app = false → unblocked (view db u) app.
Proof.
  unfold resize_pending. rewrite some_row_false. intros Hn id m (r & <- & Hr)%lookup_fmap_Some Happ. specialize (Hn id r Hr).
  cbn [view_maint m_App] in Happ. by rewrite Happ, String.eqb_refl, blocking_view in Hn.
Qed.

(** What a request may do to the queue, when nobody holds the lock its step asks for. *)
Definition refined (db : DB) (u : gset string) (db' : DB) (u' : gset string) : Prop :=
  keyed db' ∧ db'.(locks) = db.(locks) ∧
  ∃ l, qstep l (view db u) (view db' u') ∧ ∀ app, l = Some app → locked db app = false.

(** Nothing of the queue changes. *)
Lemma refined_same db u db' u' : keyed db → u ⊆ u' → Keyed d_ID db'.(deployments) → Keyed a_ID db'.(applications) → Keyed pv_ID db'.(previews) →
  db'.(volume_resizes) = db.(volume_resizes) → db'.(locks) = db.(locks) →
  view_release <$> db'.(deployments) = view_release <$> db.(deployments) → view_app <$> db'.(applications) = view_app <$> db.(applications) →
  refined db u db' u'.
Proof.
  intros Hk Hu Hd Ha Hp Hr Hl Hvd Hva. split_and!; [split; [done..|rewrite Hr; apply Hk|done]|done|].
  exists None. split; [|done]. unfold view. rewrite Hvd, Hva, Hr. by apply (q_stutter (mkQueue _ _ _ u)).
Qed.

Lemma refined_refl db u u' : keyed db → u ⊆ u' → refined db u db u'.
Proof. intros Hk Hu. by apply refined_same; [..|apply Hk|apply Hk|apply Hk| | | |]. Qed.

(** * Accepting *)

Lemma find_app_Some (db : DB) project env name k a : keyed db → find_app db project env name = Some (k, a) → db.(applications) !! a.(a_ID) = Some a.
Proof. intros Hk [Ha _]%find_row_Some. by rewrite (kd_app db Hk k a Ha). Qed.

(** The application is there afterwards, at the revision that was read. *)
Lemma application_for_spec fresh project env next expected (db : DB) a db' : keyed db →
  application_for fresh project env next expected db = Ok (a, db') →
  keyed db' ∧ db'.(deployments) = db.(deployments) ∧ db'.(volume_resizes) = db.(volume_resizes) ∧ db'.(locks) = db.(locks) ∧ db'.(previews) = db.(previews) ∧
  (db' = db ∧ db.(applications) !! a.(a_ID) = Some a ∨
   a.(a_ID) = fresh ∧ a.(a_Revision) = 0 ∧ db.(applications) !! fresh = None ∧
   ∃ row, row.(a_ID) = fresh ∧ db'.(applications) = <[ fresh := row ]> db.(applications)).
Proof.
  intros Hk. unfold application_for. destruct (find_app db project env next.(app_Name)) as [[k row]|] eqn:Hf.
  - intros [= <- <-]. split_and!; [done..|]. left. split; [done|]. by apply (find_app_Some db project env next.(app_Name) k).
  - intros Hnew. inv_ok. simplify_eq. cbn. match goal with Hn : has_key _ fresh = false |- _ => apply has_key_false in Hn end. split_and!; [|done..|].
    + split; [apply Hk| |apply Hk|apply Hk]. cbn. apply (keyed_insert a_ID _ (mkAppRow fresh _ _ _ _ _ _ _)), Hk.
    + right. split_and!; [done..|]. eexists. split; [|done]. done.
Qed.

Lemma insert_deployment_spec d (db db' : DB) : insert_deployment d db = Ok db' →
  db.(deployments) !! d.(d_ID) = None ∧ db' = set_deployments (<[ d.(d_ID) := d ]> db.(deployments)) db.
Proof. unfold insert_deployment. intros Hi. inv_ok. split; [by apply has_key_false|done]. Qed.

(** No row has the caller and the idempotency key of this one. *)
Definition apart (m : gmap string Deployment) (d : Deployment) : Prop :=
  ∀ i o, m !! i = Some o → (o.(d_IdentityID), o.(d_IdempotencyKey)) ≠ (d.(d_IdentityID), d.(d_IdempotencyKey)).

Lemma key_differs (o : Deployment) identity idem :
  (o.(d_IdentityID) =? identity)%string && (o.(d_IdempotencyKey) =? idem)%string = false → (o.(d_IdentityID), o.(d_IdempotencyKey)) ≠ (identity, idem).
Proof. intros Hf [= Hi Hk]. by rewrite Hi, Hk, !String.eqb_refl in Hf. Qed.

Lemma insert_deployment_apart d (db db' : DB) : insert_deployment d db = Ok db' → apart db.(deployments) d.
Proof.
  unfold insert_deployment. intros Hi i o Ho. inv_ok.
  match goal with Hs : some_row _ (λ o, (o.(d_IdentityID) =? _)%string && _) = false |- _ => rewrite some_row_false in Hs; apply key_differs, (Hs i o Ho) end.
Qed.

Lemma find_key_apart (db : DB) identity idem d : find_key db identity idem = None → d.(d_IdentityID) = identity → d.(d_IdempotencyKey) = idem →
  apart db.(deployments) d.
Proof. intros Hf <- <- i o Ho. apply key_differs, (find_row_None _ _ Hf i o Ho). Qed.

Lemma insert_preview_spec now a initial (db db' : DB) : Keyed pv_ID db.(previews) → insert_preview now a initial db = Ok db' →
  db'.(deployments) = db.(deployments) ∧ db'.(applications) = db.(applications) ∧ db'.(volume_resizes) = db.(volume_resizes) ∧ db'.(locks) = db.(locks) ∧
  Keyed pv_ID db'.(previews).
Proof.
  intros Hk. unfold insert_preview. destruct initial as [i|]; [|by intros [= <-]]. intros Hi. inv_ok. split_and!; [done..|]. cbn.
  by apply (keyed_insert pv_ID _ (mkPreviewRow i.(ip_ID) _ _ _ _ _ _ _ _ _)).
Qed.

(** A release goes to the end of the queue of an application. *)
Lemma enqueue_refined (db : DB) u db' id app rev d row row' :
  keyed db → qinv (view db u) → id ∉ u → d.(d_ID) = id → row'.(a_ID) = app → view_release d = mkRelease app (rev + 1) Queued → view_app row' = mkQApp (rev + 1) false →
  (db.(applications) !! app = Some row ∧ row.(a_Revision) = rev ∨ ((db.(applications) !! app = None) ∧ (app ∉ u) ∧ rev = 0)) →
  resize_pending db app = false → count_rows db.(deployments) (app_pending app) < 20 →
  db'.(deployments) = <[ id := d ]> db.(deployments) → db'.(applications) = <[ app := row' ]> db.(applications) →
  db'.(volume_resizes) = db.(volume_resizes) → db'.(locks) = db.(locks) → Keyed pv_ID db'.(previews) →
  ∀ u', {[ id; app ]} ∪ u ⊆ u' → refined db u db' u'.
Proof.
  intros Hk Hinv Hid Hdid Hrow' Hd Hr Happ Hub Hcount Hds Has Hrs Hls Hps u' Hu'. split_and!; [split; [..|rewrite Hrs; apply Hk|done]|done|].
  - rewrite Hds, <-Hdid. apply keyed_insert, Hk.
  - rewrite Has, <-Hrow'. apply keyed_insert, Hk.
  - exists None. split; [|done]. unfold view. rewrite Hds, Has, Hrs, !fmap_insert, Hd, Hr.
    apply (q_enqueue (view db u)); [done|done|by apply view_unblocked| |].
    + rewrite (view_pending_count db u app) in Hcount. lia.
    + cbn [view apps used]. rewrite lookup_fmap. destruct Happ as [[-> <-]|(-> & Hn & ->)]; [left; by eexists|right; done].
Qed.

Lemma accept_new_refined now fresh_app fresh_id p project env next expected idem hash initial rollback seed (db : DB) u d db' :
  keyed db → qinv (view db u) → fresh_app ∉ u → fresh_id ∉ u →
  accept_new now fresh_app fresh_id p project env next expected idem hash initial rollback seed db = Ok (d, db') →
  refined db u db' ({[ fresh_id; fresh_app ]} ∪ u).
Proof.
  intros Hk Hinv Hfa Hfi Hacc. unfold accept_new in Hacc. inv_ok.
  match goal with Ha : application_for _ _ _ _ _ ?db0 = Ok ?x |- _ => destruct x as [ar db1]; assert (keyed db0) as Hk0 by (split; apply Hk);
    destruct (application_for_spec fresh_app project env next expected db0 ar db1 Hk0 Ha) as (Hk1 & Hd1 & Hr1 & Hl1 & Hp1 & Hcase) end.
  inv_ok. simplify_eq.
  match goal with Hi : insert_deployment ?dd ?db2 = Ok ?db3, Hv : insert_preview _ _ _ _ = Ok db' |- _ =>
    destruct (insert_deployment_spec dd db2 db3 Hi) as [_ ->];
    apply insert_preview_spec in Hv as (Hd' & Ha' & Hr' & Hl' & Hp'); [|cbn; by rewrite Hp1; apply Hk] end.
  cbn [update_app set_applications set_deployments set_rest deployments applications volume_resizes locks previews] in *.
  match goal with Hc : (20 <=? count_rows _ _) = false |- _ => apply Z.leb_gt in Hc; rewrite Hd1 in Hc end.
  assert (∃ row row', (db.(applications) !! ar.(a_ID) = Some row ∧ row.(a_Revision) = ar.(a_Revision) ∨ ((db.(applications) !! ar.(a_ID) = None) ∧ (ar.(a_ID) ∉ u) ∧ ar.(a_Revision) = 0)) ∧
     row'.(a_ID) = ar.(a_ID) ∧ view_app row' = mkQApp (ar.(a_Revision) + 1) false ∧ db'.(applications) = <[ ar.(a_ID) := row' ]> db.(applications) ∧
     (ar.(a_ID) ∈ u ∨ ar.(a_ID) = fresh_app)) as (row & row' & Happ & Hid & Hv & Has & Hin).
  { rewrite Ha'. destruct Hcase as [[-> Hl]|(Hai & Hrev & Hn & row & Hrow & Has1)].
    - exists ar, (queue_app (ar.(a_Revision) + 1) next ar). rewrite (alter_Some _ _ _ ar Hl). split_and!; [by left|done..|]. left.
      eapply (qi_app _ Hinv). cbn [view apps]. by rewrite lookup_fmap, Hl.
    - exists row, (queue_app (ar.(a_Revision) + 1) next row). rewrite Has1, Hai. split_and!; [by right| done|done| |by right].
      rewrite (alter_Some _ _ _ row) by apply lookup_insert_eq. by rewrite insert_insert_eq. }
  rewrite Hd1 in Hd'. match type of Hd' with _ = <[ _ := ?dd ]> _ => apply (enqueue_refined db u db' fresh_id ar.(a_ID) ar.(a_Revision) dd row row'); try done end.
  - match goal with Hn : resize_pending db1 _ = false |- _ => unfold resize_pending in *; by rewrite Hr1 in Hn end.
  - by rewrite Hr', Hr1.
  - by rewrite Hl', Hl1.
  - destruct Hin as [Hin| ->]; set_solver.
Qed.

Lemma Accept_refined now fresh_app fresh_id p project env next expected idem initial rollback seed (db : DB) u d db' :
  keyed db → qinv (view db u) → fresh_app ∉ u → fresh_id ∉ u →
  Accept now fresh_app fresh_id p project env next expected idem initial rollback seed db = Ok (d, db') →
  refined db u db' ({[ fresh_id; fresh_app ]} ∪ u).
Proof.
  intros Hk Hinv Hfa Hfi. unfold Accept. intros Hacc. inv_ok. destruct (find_key db p.(p_ID) idem) as [[k o]|].
  - inv_ok. simplify_eq. apply refined_refl; [done|set_solver].
  - by eapply accept_new_refined.
Qed.

Lemma AcceptPreview_refined now fresh_app fresh_id p parent next initial idem (db : DB) u d db' :
  keyed db → qinv (view db u) → fresh_app ∉ u → fresh_id ∉ u →
  AcceptPreview now fresh_app fresh_id p parent next initial idem db = Ok (d, db') → refined db u db' ({[ fresh_id; fresh_app ]} ∪ u).
Proof. intros Hk Hinv Hfa Hfi. unfold AcceptPreview. intros Ha. inv_ok. by eapply Accept_refined. Qed.

(** * Resuming and cancelling *)

Lemma insert_attempt_queue key t (db db' : DB) : insert_attempt key t db = Ok db' → ∃ m, db' = set_resume_attempts m db.
Proof. unfold insert_attempt. intros Hi. inv_ok. by eexists. Qed.

Lemma insert_attempt_once_queue key t (db : DB) : ∃ m, insert_attempt_once key t db = set_resume_attempts m db.
Proof.
  unfold insert_attempt_once. destruct (insert_attempt key t db) as [db'|e] eqn:Hi; [|exists db.(resume_attempts); by destruct db].
  by apply insert_attempt_queue in Hi.
Qed.

(** The queue after one release and its application changed. *)
Lemma view_alter (db db' : DB) u id d f app a g : db.(deployments) !! id = Some d → db.(applications) !! app = Some a →
  db'.(deployments) = alter f id db.(deployments) → db'.(applications) = alter g app db.(applications) → db'.(volume_resizes) = db.(volume_resizes) →
  view db' u = mkQueue (<[ id := view_release (f d) ]> (view db u).(releases)) (<[ app := view_app (g a) ]> (view db u).(apps)) (view db u).(maints) u.
Proof.
  intros Hd Ha Hds Has Hrs. unfold view. cbn [releases apps maints]. by rewrite Hds, Has, Hrs, (fmap_alter_Some _ _ _ _ d Hd), (fmap_alter_Some _ _ _ _ a Ha).
Qed.

Lemma keyed_alter_rows (db db' : DB) id f app g : keyed db →
  db'.(deployments) = alter f id db.(deployments) → db'.(applications) = alter g app db.(applications) → db'.(volume_resizes) = db.(volume_resizes) →
  db'.(previews) = db.(previews) → (∀ d, (f d).(d_ID) = d.(d_ID)) → (∀ a, (g a).(a_ID) = a.(a_ID)) → keyed db'.
Proof.
  intros Hk Hds Has Hrs Hps Hf Hg. split; [rewrite Hds; by apply keyed_alter, Hk|rewrite Has; by apply keyed_alter, Hk|rewrite Hrs; apply Hk|rewrite Hps; apply Hk].
Qed.

Lemma resume_new_refined p id expected idem hash (db : DB) u d db' :
  keyed db → qinv (view db u) → resume_new p id expected idem hash db = Ok (d, db') → refined db u db' u.
Proof.
  intros Hk Hinv. unfold resume_new. destruct (db.(deployments) !! id) as [d0|] eqn:Hd; [|done].
  destruct (db.(applications) !! d0.(d_ApplicationID)) as [a|] eqn:Ha; [|done]. pose proof (kd_app db Hk _ _ Ha) as Haid.
  intros Hres. inv_ok. simplify_eq. unfold resumable in *. split_orb. zify_bool.
  match goal with Hi : insert_attempt _ _ ?x = Ok _ |- _ => apply insert_attempt_queue in Hi as [m2 ->]; assert (∃ m r, x = set_resume_attempts m (set_rest r db)) as (m & r & ->) end.
  { match goal with |- context [set_rest ?x (set_rest _ db)] => set (r := x) end. destruct (d_ResumeGeneration d0 =? 0); [|by exists db.(resume_attempts), r].
    match goal with |- context [insert_attempt_once ?k ?t ?y] => destruct (insert_attempt_once_queue k t y) as [m ->] end. by exists m, r. }
  rewrite Haid in *. match goal with |- refined _ _ ?x _ => set (db' := x) end.
  split_and!; [eapply (keyed_alter_rows db db' _ _ _ _ Hk); [reflexivity..|done|]; intros row; cbn beta; by destruct (_ =? _)|done|].
  exists None. split; [|done]. rewrite (view_alter db db' u id d0 _ _ a _ Hd Ha eq_refl eq_refl eq_refl).
  cbn beta. rewrite (proj2 (Z.eqb_eq _ _)) by congruence.
  match goal with Hs : bool_decide (_ = Failed) = true |- _ => apply bool_decide_eq_true in Hs end.
  assert (view_app (set_a_Status "queued" a) = mkQApp d0.(d_Revision) false) as -> by (unfold view_app; cbn; congruence).
  apply (q_requeue (view db u) id (view_release d0) (a_Status a =? "healthy")%string); cbn [view releases apps view_release r_App r_Rev r_Status].
  - by rewrite lookup_fmap, Hd.
  - done.
  - rewrite lookup_fmap, Ha. cbn. unfold view_app. congruence.
  - apply view_unblocked. match goal with Hm : maintenance _ _ = false |- _ => by apply orb_false_iff in Hm as [_ Hm] end.
Qed.

Lemma ResumeDeployment_refined p id expected idem (db : DB) u d db' :
  keyed db → qinv (view db u) → ResumeDeployment p id expected idem db = Ok (d, db') → refined db u db' u.
Proof.
  intros Hk Hinv. unfold ResumeDeployment. intros Hr. inv_ok. destruct (find_attempt db p.(p_ID) idem) as [[[i g] t]|]; [|by eapply resume_new_refined].
  inv_ok. destruct (db.(deployments) !! id) as [o|]; [|done]. destruct (db.(applications) !! _) as [a|]; [|done]. inv_ok. simplify_eq. by apply refined_refl.
Qed.

(** A change that a release does not show. *)
Lemma refined_update id f (db db' : DB) u : keyed db → (∀ d, (f d).(d_ID) = d.(d_ID)) → (∀ d, view_release (f d) = view_release d) →
  db'.(deployments) = alter f id db.(deployments) → db'.(applications) = db.(applications) → db'.(volume_resizes) = db.(volume_resizes) →
  db'.(previews) = db.(previews) → db'.(locks) = db.(locks) → refined db u db' u.
Proof.
  intros Hk Hid Hv Hd Ha Hr Hp Hl. apply refined_same; [done|done| | | |done|done| |].
  - rewrite Hd. by apply keyed_alter, Hk.
  - rewrite Ha. apply Hk.
  - rewrite Hp. apply Hk.
  - rewrite Hd. by apply alter_fmap_same.
  - by rewrite Ha.
Qed.

Lemma cancel_refined id (db : DB) u db' : keyed db → cancel id db = Ok (tt, db') → refined db u db' u.
Proof.
  intros Hk. unfold cancel. destruct (db.(deployments) !! id) as [d|]; [|done]. intros Hc. inv_ok. simplify_eq.
  by apply (refined_update id (set_d_CancelRequested true)).
Qed.

(** * Previews and deletion *)

Lemma update_pending_same app f (m : gmap string Deployment) : (∀ d, view_release (f d) = view_release d) →
  view_release <$> ((λ d, if app_pending app d then f d else d) <$> m) = view_release <$> m.
Proof.
  intros Hf. rewrite <-map_fmap_compose. apply map_fmap_ext. intros i d _. cbn.
  by destruct (app_pending app d).
Qed.

Lemma RequestPreviewDeletion_refined p id confirmation (db : DB) u db' :
  keyed db → RequestPreviewDeletion p id confirmation db = Ok (tt, db') → refined db u db' u.
Proof.
  intros Hk. unfold RequestPreviewDeletion. destruct (db.(previews) !! id) as [v|]; [|done]. intros Hd. inv_ok. simplify_eq.
  assert (Keyed pv_ID (alter (λ v, if (v.(pv_State) =? "active")%string then set_pv_State "deleting" v else v) id db.(previews))) as Hp.
  { apply keyed_alter, Hk. intros w. cbn beta. by destruct (pv_State w =? "active")%string. }
  destruct v.(pv_ApplicationID) as [app|].
  - apply refined_same; [done|done| |apply Hk|exact Hp|done|done| |done].
    + apply keyed_fmap, Hk. intros d. by destruct (app_pending app d).
    + by apply update_pending_same.
  - apply refined_same; [done|done|apply Hk|apply Hk|exact Hp|done|done|done|done].
Qed.

(** The application is taken out of the queue. *)
Lemma remove_application_refined a (db : DB) u r : keyed db →
  keyed (remove_application a (set_rest r db)) ∧ (remove_application a (set_rest r db)).(locks) = db.(locks) ∧
  qstep (Some a.(a_ID)) (view db u) (view (remove_application a (set_rest r db)) u).
Proof.
  intros Hk. split_and!; [split; cbn|done|].
  - apply keyed_filter, Hk.
  - apply keyed_delete, Hk.
  - apply keyed_filter, Hk.
  - apply keyed_fmap, Hk. intros v. by case_bool_decide.
  - unfold view, remove_application. cbn [set_rest deployments applications volume_resizes]. rewrite fmap_delete.
    pose proof (q_drop (view db u) a.(a_ID)) as Hs. cbn [view releases apps maints used] in Hs. rewrite !map_filter_fmap in Hs. exact Hs.
Qed.

Lemma deleteApplicationMetadata_spec a (db db' : DB) : deleteApplicationMetadata a db = Ok db' → ∃ r, db' = remove_application a (set_rest r db).
Proof. unfold deleteApplicationMetadata. intros Hd. inv_ok. by eexists. Qed.

Lemma DeleteEmptyApplication_refined p id expected confirmation deleteData (db : DB) u db' :
  keyed db → DeleteEmptyApplication p id expected confirmation deleteData db = Ok (tt, db') → refined db u db' u.
Proof.
  intros Hk. unfold DeleteEmptyApplication. intros Hd. destruct (db.(applications) !! id) as [a|] eqn:Ha; [|done]. inv_ok. simplify_eq.
  match goal with Hm : deleteApplicationMetadata _ _ = _ |- _ => destruct (deleteApplicationMetadata_spec _ _ _ Hm) as [r ->] end.
  destruct (remove_application_refined a db u r Hk) as (Hk' & Hl' & Hs').
  assert (refined db u (remove_application a (set_rest r db)) u) as Href.
  { split_and!; [done..|]. exists (Some a.(a_ID)). split; [done|]. intros app [= <-]. by rewrite (kd_app db Hk id a Ha). }
  destruct deleteData; [|exact Href]. destruct Href as (H1' & H2' & H3'). split_and!; [split; apply H1'|exact H2'|exact H3'].
Qed.

(** * Resizes *)

Lemma view_idle (db : DB) u app : some_row db.(deployments) (app_pending app) = false → idle (view db u) app.
Proof.
  rewrite some_row_false. intros Hn id r (d & <- & Hd)%lookup_fmap_Some Ha. specialize (Hn id d Hd). unfold app_pending in Hn.
  cbn [view_release r_App] in Ha. rewrite Ha, String.eqb_refl in Hn. unfold is_pending. cbn [view_release r_Status andb] in *. by rewrite Hn.
Qed.

Lemma StartVolumeResize_refined p app claim size revision idem runtime (db : DB) u r db' :
  keyed db → qinv (view db u) → (has_key db.(volume_resizes) (ResizeID p.(p_ID) idem) = false → ResizeID p.(p_ID) idem ∉ u) →
  StartVolumeResize p app claim size revision idem runtime db = Ok (r, db') → refined db u db' ({[ ResizeID p.(p_ID) idem ]} ∪ u).
Proof.
  intros Hk Hinv Hid. unfold StartVolumeResize. intros Hs. inv_ok. destruct (db.(applications) !! app) as [a|] eqn:Ha; [|done]. inv_ok.
  unfold has_key in Hid. destruct (db.(volume_resizes) !! ResizeID p.(p_ID) idem) as [prior|] eqn:Hp.
  { inv_ok. simplify_eq. apply refined_refl; [done|set_solver]. }
  unfold start_resize_new in Hs. inv_ok. match goal with x : Application * _ |- _ => destruct x as [next plan] end. inv_ok. simplify_eq.
  set (id := ResizeID p.(p_ID) idem) in *. split_orb. zify_bool.
  split_and!; [split; [apply Hk|apply Hk| |apply Hk]|done|].
  - cbn. apply (keyed_insert rz_ID _ (mkResizeRow id _ _ _ _ _ _ _ _ _ _ _ _ _ _)), Hk.
  - exists None. split; [|done]. unfold view. cbn [set_volume_resizes set_rest deployments applications volume_resizes]. rewrite fmap_insert.
    unfold view_maint at 1. cbn [rz_ApplicationID rz_ExpectedRevision rz_Phase].
    eapply (q_resize (view db u) id app); [by apply Hid|done| |by apply view_unblocked|by apply view_idle].
    cbn [view apps]. rewrite lookup_fmap, Ha. cbn. unfold view_app. by subst.
Qed.

(** A resize goes on to another phase. *)
Lemma phase_refined (db db' : DB) u id r f phase : keyed db → qinv (view db u) → db.(volume_resizes) !! id = Some r → (∀ r, (f r).(rz_ID) = r.(rz_ID)) →
  view_maint (f r) = mkMaint r.(rz_ApplicationID) r.(rz_ExpectedRevision) phase → next_phase r.(rz_Phase) phase = true →
  (phase = "deleting_original" → r.(rz_Phase) ≠ "deleting_original" → some_row db.(volume_resizes)
     (λ o, (o.(rz_ApplicationID) =? r.(rz_ApplicationID))%string && negb (o.(rz_ID) =? r.(rz_ID))%string && resizeBlocking o) = false) →
  db' = update_resize id f db →
  keyed db' ∧ db'.(locks) = db.(locks) ∧ qstep (Some r.(rz_ApplicationID)) (view db u) (view db' u).
Proof.
  intros Hk Hinv Hr Hf Hv Hn Hothers ->. split_and!; [split; [apply Hk|apply Hk|by apply keyed_alter, Hk|apply Hk]|done|].
  unfold view. cbn [update_resize set_volume_resizes deployments applications volume_resizes]. rewrite (fmap_alter_Some _ _ _ _ r Hr), Hv.
  apply (q_phase (view db u) id (view_maint r)); cbn [view maints view_maint m_Phase m_App]; [by rewrite lookup_fmap, Hr|done|].
  intros Hp i m (o & <- & Ho)%lookup_fmap_Some Happ Hne. destruct (decide (r.(rz_Phase) = "deleting_original")) as [Hsame|Hother].
  { apply not_true_iff_false. intros Hb. apply Hne. apply (qi_single _ Hinv i id (view_maint o) (view_maint r)); cbn [view maints].
    - by rewrite lookup_fmap, Ho.
    - by rewrite lookup_fmap, Hr.
    - done.
    - done.
    - cbn [view_maint m_Phase]. by rewrite Hsame. }
  specialize (Hothers Hp Hother). rewrite some_row_false in Hothers. specialize (Hothers i o Ho).
  cbn [view_maint m_App] in Happ. rewrite Happ, String.eqb_refl, (kd_resize db Hk i o Ho), (kd_resize db Hk id r Hr), (proj2 (String.eqb_neq _ _) Hne) in Hothers.
  cbn [andb negb] in Hothers. by rewrite <-blocking_view.
Qed.

Lemma next_phase_same phase : next_phase phase phase = true.
Proof. unfold next_phase. by rewrite String.eqb_refl. Qed.

Lemma action_phase_next r action confirm (db : DB) phase runtime : action_phase r action confirm db = Ok (phase, runtime) →
  next_phase r.(rz_Phase) phase = true ∧
  (phase = "deleting_original" → r.(rz_Phase) ≠ "deleting_original" → some_row db.(volume_resizes)
     (λ o, (o.(rz_ApplicationID) =? r.(rz_ApplicationID))%string && negb (o.(rz_ID) =? r.(rz_ID))%string && resizeBlocking o) = false).
Proof.
  unfold action_phase. intros Ha.
  destruct (action =? "retry")%string; [inv_ok; simplify_eq; split; [apply next_phase_same|done]|].
  destruct (action =? "cancel")%string.
  { inv_ok. simplify_eq. split; [|done]. apply negb_false_iff in Hok. unfold next_phase. rewrite Hok. cbn [andb]. by rewrite !orb_true_r. }
  destruct (action =? "retain")%string.
  { inv_ok. simplify_eq. split_orb. split; [|done]. apply String.eqb_eq in H5. by rewrite H5. }
  destruct (action =? "delete-original")%string; [|done]. inv_ok. simplify_eq. split_orb. split; [|done]. apply String.eqb_eq in H5. by rewrite H5.
Qed.

Lemma ResizeAction_refined p app id action confirm (db : DB) u db' :
  keyed db → qinv (view db u) → ResizeAction p app id action confirm db = Ok (tt, db') → refined db u db' u.
Proof.
  intros Hk Hinv. unfold ResizeAction. destruct (db.(applications) !! app) as [a|]; [|done]. intros Ha. inv_ok.
  destruct (db.(volume_resizes) !! id) as [r|] eqn:Hr; [|done]. destruct (r.(rz_ApplicationID) =? app)%string eqn:Happ; [|done]. apply String.eqb_eq in Happ.
  inv_ok. match goal with x : string * string |- _ => destruct x as [phase runtime] end. inv_ok. simplify_eq.
  match goal with Hp : action_phase _ _ _ _ = _ |- _ => destruct (action_phase_next _ _ _ _ _ _ Hp) as [Hn Ho] end.
  destruct (phase_refined db _ u id r (λ r, set_rz_Runtime runtime (set_rz_KeyID p.(p_KeyID) (set_rz_Error EmptyString (set_rz_Phase phase r)))) phase
    Hk Hinv Hr (λ _, eq_refl) eq_refl Hn Ho eq_refl) as (Hk' & Hl' & Hs').
  split_and!; [done..|]. exists (Some r.(rz_ApplicationID)). split; [done|]. by intros app [= <-].
Qed.

(** Every request is a step of the queue. *)
Lemma request_refined used (db : DB) used' db' : keyed db → qinv (view db used) → request used db used' db' → refined db used db' used'.
Proof.
  intros Hk Hinv Hr. destruct Hr; [by eapply Accept_refined|by eapply AcceptPreview_refined|by eapply ResumeDeployment_refined|by eapply cancel_refined|
    by eapply RequestPreviewDeletion_refined|by eapply DeleteEmptyApplication_refined|by eapply StartVolumeResize_refined|by eapply ResizeAction_refined|].
  apply refined_same; [done|done|apply Hk|apply Hk|apply Hk|done..].
Qed.

(** * Workers *)

(** What a statement of a worker does: its step asks for the lock the worker has. *)
Definition performed (w : Worker) (db : DB) (u : gset string) (db' : DB) : Prop :=
  keyed db' ∧ ∃ l, qstep l (view db u) (view db' u) ∧ ∀ app, l = Some app → held w = Some app.

Lemma performed_same w (db : DB) u db' : keyed db → Keyed d_ID db'.(deployments) → Keyed a_ID db'.(applications) → Keyed pv_ID db'.(previews) →
  db'.(volume_resizes) = db.(volume_resizes) →
  view_release <$> db'.(deployments) = view_release <$> db.(deployments) → view_app <$> db'.(applications) = view_app <$> db.(applications) →
  performed w db u db'.
Proof.
  intros Hk Hd Ha Hp Hr Hvd Hva. split; [split; [done..|rewrite Hr; apply Hk|done]|].
  exists None. split; [|done]. unfold view. rewrite Hvd, Hva, Hr. by apply (q_stutter (mkQueue _ _ _ u)).
Qed.

Lemma performed_locks w (db : DB) u m : keyed db → performed w db u (set_locks m db).
Proof. intros Hk. apply performed_same; [done|apply Hk|apply Hk|apply Hk|done..]. Qed.

Lemma performed_refl w (db : DB) u : keyed db → performed w db u db.
Proof. intros Hk. apply performed_same; [done|apply Hk|apply Hk|apply Hk|done..]. Qed.

(** What a worker knows of the queue, while it has its lock. *)
Definition knows (q : Queue) (w : Worker) : Prop :=
  match w with
  | Choosing todo => Forall (λ e, candidate q e.1 e.2) todo
  | Locked id app todo | Fenced id app todo => candidate q id app ∧ Forall (λ e, candidate q e.1 e.2) todo
  | Starting d app | Reading d app => running q d.(d_ID) app d.(d_Revision) ∧ d.(d_ApplicationID) = app
  | Holding c => running q c.(c_Deployment).(d_ID) c.(c_App).(a_ID) c.(c_Deployment).(d_Revision) ∧ c.(c_Deployment).(d_ApplicationID) = c.(c_App).(a_ID)
  | ResizeChoosing todo => Forall (λ e, resize_of q e.1 e.2) todo
  | ResizeLocked id app todo => resize_of q id app ∧ Forall (λ e, resize_of q e.1 e.2) todo
  | ResizeReading r app todo => r.(rz_ApplicationID) = app ∧ q.(maints) !! r.(rz_ID) = Some (view_maint r) ∧ Forall (λ e, resize_of q e.1 e.2) todo
  | Resizing c => c.(rc_Resize).(rz_ApplicationID) = c.(rc_App).(a_ID) ∧ q.(maints) !! c.(rc_Resize).(rz_ID) = Some (view_maint c.(rc_Resize)) ∧
      (resizeBlocking c.(rc_Resize) = true → ∃ a, q.(apps) !! c.(rc_App).(a_ID) = Some a ∧ a.(q_Rev) = c.(rc_App).(a_Revision))
  | PreviewCancelling v a app => a.(a_ID) = app
  | _ => True
  end.

(** It keeps knowing it when others step. *)
Lemma knows_stable l q q' w : qstep l q q' → qinv q → (∀ app, held w = Some app → l ≠ Some app) → knows q w → knows q' w.
Proof.
  intros Hs Hinv Hl. pose proof (λ id app, candidate_stable l q q' id app Hs Hinv) as Hcand.
  pose proof (λ id app, resize_of_stable l q q' id app Hs Hinv) as Hres.
  assert (∀ todo, Forall (λ e : string * string, candidate q e.1 e.2) todo → Forall (λ e, candidate q' e.1 e.2) todo) as Hcands
    by (intros todo Ht; eapply Forall_impl; [exact Ht|]; intros e; apply Hcand).
  assert (∀ todo, Forall (λ e : string * string, resize_of q e.1 e.2) todo → Forall (λ e, resize_of q' e.1 e.2) todo) as Hress
    by (intros todo Ht; eapply Forall_impl; [exact Ht|]; intros e; apply Hres).
  destruct w; cbn [knows held] in *; try done; try (by auto); try (intros [Hk1 Hk2]; split; by auto).
  - intros [Hr Hd]. split; [|done]. eapply running_stable; [done..|by apply Hl|done].
  - intros [Hr Hd]. split; [|done]. eapply running_stable; [done..|by apply Hl|done].
  - intros [Hr Hd]. split; [|done]. eapply running_stable; [done..|by apply Hl|done].
  - intros (Happ & Hm & Ht). split_and!; [done| |by auto]. eapply maint_stable; [done..| |done]. cbn [view_maint m_App]. rewrite Happ. by apply Hl.
  - intros (Happ & Hm & Hrev). assert (l ≠ Some (view_maint (rc_Resize c)).(m_App)) as Hne by (cbn [view_maint m_App]; rewrite Happ; by apply Hl).
    split_and!; [done|by eapply maint_stable|]. intros Hb. destruct (Hrev Hb) as (a & Ha & Ha'). rewrite <-Happ in *.
    rewrite blocking_view in Hb. destruct (revision_stable l q q' _ _ a Hs Hinv Hne Hm Hb Ha) as (a' & Hq' & Heq). exists a'. split; [done|congruence].
Qed.

(** ** The loops *)

Lemma candidates_elem now (db : DB) id app : keyed db → (id, app) ∈ candidates now db →
  ∃ d, db.(deployments) !! id = Some d ∧ d.(d_ApplicationID) = app ∧ claimable now db d = true.
Proof.
  intros Hk. unfold candidates. intros (d & [= -> ->] & Hd)%list_elem_of_fmap. apply elem_of_take in Hd as (i & Hd & _). apply list_elem_of_lookup_2 in Hd.
  rewrite merge_sort_Permutation in Hd. apply list_elem_of_In, filter_In in Hd as [Hd Hc]. apply list_elem_of_In, list_elem_of_fmap in Hd as ([i' d'] & -> & Hd).
  apply elem_of_map_to_list in Hd. exists d'. cbn [snd]. by rewrite (kd_deployment db Hk i' d' Hd).
Qed.

Lemma candidates_known now (db : DB) u : keyed db → qinv (view db u) → Forall (λ e, candidate (view db u) e.1 e.2) (candidates now db).
Proof.
  intros Hk Hinv. apply Forall_forall. intros [id app] (d & Hd & <- & Hc)%(candidates_elem now db id app Hk). cbn [fst snd].
  unfold claimable in Hc. split_orb. split_and!.
  - eapply (qi_release _ Hinv id (view_release d)). cbn [view releases]. by rewrite lookup_fmap, Hd.
  - cbn [view maints]. rewrite lookup_fmap. apply fmap_None, has_key_false. by rewrite <-(kd_deployment db Hk id d Hd).
  - cbn [view releases]. intros r. rewrite lookup_fmap, Hd. intros [= <-]. split; [done|].
    intros i o (e & <- & He)%lookup_fmap_Some Happ Hlt Hp. match goal with Hs : some_row _ _ = false |- _ => rewrite some_row_false in Hs; specialize (Hs i e He) end.
    cbn [view_release r_App r_Rev] in *. rewrite Happ, String.eqb_refl, (proj2 (Z.ltb_lt _ _) Hlt) in *. unfold is_pending in Hp. cbn [view_release r_Status andb] in *. congruence.
Qed.

Lemma resizes_known (db : DB) u : keyed db → qinv (view db u) → Forall (λ e, resize_of (view db u) e.1 e.2) (resize_candidates db).
Proof.
  intros Hk Hinv. apply Forall_forall. intros [id app] (j & Hj & _)%elem_of_take. apply list_elem_of_lookup_2 in Hj. apply list_elem_of_fmap in Hj as ([i r] & [= -> ->] & Hr).
  apply list_elem_of_In, filter_In in Hr as [Hr _]. apply list_elem_of_In, elem_of_map_to_list in Hr. cbn [fst snd]. rewrite (kd_resize db Hk i r Hr).
  assert ((view db u).(maints) !! i = Some (view_maint r)) as Hm by (cbn [view maints]; by rewrite lookup_fmap, Hr).
  split; [by apply (qi_maint _ Hinv i _ Hm)|]. intros m Hm'. rewrite Hm in Hm'. by injection Hm' as <-.
Qed.

(** The statement that starts a release. *)
Lemma start_performed now id app (db : DB) u d db' : keyed db → qinv (view db u) → candidate (view db u) id app → start_deployment now id db = Some (d, db') →
  performed (Fenced id app []) db u db' ∧ running (view db' u) d.(d_ID) app d.(d_Revision) ∧ d.(d_ApplicationID) = app.
Proof.
  intros Hk Hinv (_ & Hm & Hc). unfold start_deployment. destruct (db.(deployments) !! id) as [d0|] eqn:Hd; [|done].
  destruct (pending d0.(d_Status)) eqn:Hp; [|done]. intros [= <- <-].
  assert ((view db u).(releases) !! id = Some (view_release d0)) as Hr by (cbn [view releases]; by rewrite lookup_fmap, Hd).
  destruct (Hc _ Hr) as [<- Hfirst]. pose proof (q_start (view db u) id (view_release d0) Hr Hp Hm Hfirst) as Hs.
  assert (view (update_deployment id (start_row now) db) u =
    mkQueue (<[ id := with_status Running (view_release d0) ]> (view db u).(releases)) (view db u).(apps) (view db u).(maints) (view db u).(used)) as Hv.
  { unfold view. cbn. by rewrite (fmap_alter_Some _ _ _ _ d0 Hd). }
  split_and!; [split; [|eexists; split; [rewrite Hv; exact Hs|by intros app [= <-]]]|rewrite Hv|].
  - split; cbn; [by apply keyed_alter, Hk|apply Hk|apply Hk|apply Hk].
  - cbn [start_row d_ID set_d_Attempts set_d_StartedAt set_d_Status]. rewrite (kd_deployment db Hk id d0 Hd). split; [|exact Hm]. cbn [releases]. by rewrite lookup_insert_eq.
  - done.
Qed.

Lemma start_attempt_spec now d (db : DB) : (start_attempt now d db).1.(d_ID) = d.(d_ID) ∧ (start_attempt now d db).1.(d_ApplicationID) = d.(d_ApplicationID) ∧
  (start_attempt now d db).1.(d_Revision) = d.(d_Revision) ∧ ∃ m, (start_attempt now d db).2 = set_resume_attempts m db.
Proof.
  unfold start_attempt. destruct (_ && _); cbn [fst snd]; split_and!; try done; [by eexists|]. exists db.(resume_attempts). by destruct db.
Qed.

Lemma mark_preview_spec now app (db : DB) v db' : mark_preview now app db = Some (v, db') → ∃ id, db' = set_previews (alter (set_pv_State "deleting") id db.(previews)) db.
Proof. unfold mark_preview. destruct (preview_of db app) as [[id w]|]; [|done]. destruct (cleanup_due now w); [|done]. intros [= <- <-]. by exists id. Qed.

(** A preview that goes cancels what is pending. *)
Lemma cancel_performed now app w (db : DB) u : keyed db → held w = Some app → performed w db u (cancel_pending now app db).
Proof.
  intros Hk Hw. split; [split; cbn; [|apply Hk|apply Hk|apply Hk]|].
  - apply keyed_fmap, Hk. intros d. by destruct (app_pending app d).
  - exists (Some app). split; [|by intros app' [= <-]]. pose proof (q_cancel (view db u) app) as Hs. cbn [view releases apps maints used] in Hs.
    unfold view. cbn [cancel_pending update_pending set_deployments deployments applications volume_resizes].
    assert (view_release <$> ((λ d, if app_pending app d then preview_cancelled now d else d) <$> db.(deployments)) =
      (λ r, if pending_in app r then with_status Cancelled r else r) <$> (view_release <$> db.(deployments))) as ->; [|exact Hs].
    rewrite <-!map_fmap_compose. apply map_fmap_ext. intros i d _. cbn. unfold app_pending, pending_in. cbn. by destruct (_ && _).
Qed.

(** What has to be shown of a worker's step. *)
Definition sound (w : Worker) (db : DB) (u : gset string) (w' : Worker) (db' : DB) : Prop := performed w db u db' ∧ knows (view db' u) w'.

Lemma sound_locks w (db : DB) u w' m : keyed db → knows (view db u) w' → sound w db u w' (set_locks m db).
Proof. intros Hk Hw. split; [by apply performed_locks|exact Hw]. Qed.

Lemma sound_same w (db : DB) u w' : keyed db → knows (view db u) w' → sound w db u w' db.
Proof. intros Hk Hw. split; [by apply performed_refl|exact Hw]. Qed.

Lemma try_lock_sound n app won lost w (db : DB) u : keyed db → knows (view db u) won → knows (view db u) lost →
  sound w db u (try_lock n app won lost db).1 (try_lock n app won lost db).2.
Proof. intros Hk Hw Hl. unfold try_lock. destruct (locked db app); [by apply sound_same|by apply sound_locks]. Qed.

Lemma read_resize_spec id (db : DB) r : keyed db → read_resize id db = Some r → db.(volume_resizes) !! r.(rz_ID) = Some r ∧ r.(rz_ID) = id ∧ resize_due r = true.
Proof.
  intros Hk. unfold read_resize. destruct (db.(volume_resizes) !! id) as [r'|] eqn:Hr; [|done]. destruct (resize_due r') eqn:Hd; [|done]. intros [= ->].
  by rewrite (kd_resize db Hk id r Hr).
Qed.

Lemma advance_sound now n w (db : DB) u : keyed db → qinv (view db u) → knows (view db u) w → sound w db u (advance now n w db).1 (advance now n w db).2.
Proof.
  intros Hk Hinv Hw. destruct w as [|todo|id app todo|id app todo|d app|d app|c|todo|id app todo|r app todo|c|todo|app todo|v app|v a app|v a|app|app];
    cbn [advance knows] in *; try by apply sound_same.
  - destruct todo as [|[id app] todo]; [by apply sound_same|]. apply Forall_cons in Hw as [Hc Ht]. by apply try_lock_sound.
  - destruct (_ || _); [apply sound_locks; [done|apply Hw]|by apply sound_same].
  - destruct Hw as [Hc Ht]. destruct (start_deployment now id db) as [[d db']|] eqn:Hs; [|by apply sound_locks].
    destruct (start_performed now id app db u d db' Hk Hinv Hc Hs) as ([Hk' (l & Hq & Hl)] & Hr & Ha). split; [split; [done|by exists l]|done].
  - destruct (start_attempt_spec now d db) as (Hid & Happ & Hrev & m & Hm). destruct (start_attempt now d db) as [d' db']. cbn [fst snd] in *. subst db'.
    split; [apply performed_same; [done|apply Hk|apply Hk|apply Hk|done..]|]. cbn [fst snd knows]. by rewrite Hid, Hrev, Happ.
  - destruct (db.(applications) !! app) as [a|] eqn:Ha; [|by apply sound_locks]. apply sound_same; [done|]. cbn [fst snd knows c_Deployment c_App]. by rewrite (kd_app db Hk app a Ha).
  - destruct todo as [|[id app] todo]; [by apply sound_same|]. apply Forall_cons in Hw as [Hc Ht]. by apply try_lock_sound.
  - destruct Hw as [Hc Ht]. destruct (read_resize id db) as [r|] eqn:Hr; [|by apply sound_locks]. destruct (read_resize_spec id db r Hk Hr) as (Hr' & <- & _).
    assert ((view db u).(maints) !! r.(rz_ID) = Some (view_maint r)) as Hm by (cbn [view maints]; by rewrite lookup_fmap, Hr').
    apply sound_same; [done|]. cbn [fst snd knows]. split_and!; [by apply (proj2 Hc _ Hm)|done|done].
  - destruct Hw as (Happ & Hm & Ht). destruct (db.(applications) !! app) as [a|] eqn:Ha; [|by apply sound_locks]. apply sound_same; [done|].
    cbn [fst snd knows rc_Resize rc_App]. pose proof (kd_app db Hk app a Ha) as Hid. split_and!; [congruence|done|]. intros _. rewrite Hid. exists (view_app a).
    cbn [view apps]. by rewrite lookup_fmap, Ha.
  - destruct todo as [|app todo]; [by apply sound_same|]. by apply try_lock_sound.
  - destruct (mark_preview now app db) as [[v db']|] eqn:Hm; [|by apply sound_locks]. destruct (mark_preview_spec now app db v db' Hm) as [id ->].
    split; [|done]. apply performed_same; [done|apply Hk|apply Hk| |done..]. by apply keyed_alter, Hk.
  - destruct (db.(applications) !! app) as [a|] eqn:Ha; [|by apply sound_locks]. apply sound_same; [done|]. cbn [fst snd knows]. by rewrite (kd_app db Hk app a Ha).
  - split; [by apply cancel_performed|done].
Qed.

(** ** The methods *)

(** The end of a release the worker runs. *)
Lemma Finish_performed now c status message result_json (db : DB) u db' : keyed db → qinv (view db u) → knows (view db u) (Holding c) →
  Finish now c status message result_json db = Ok (tt, db') → performed (Holding c) db u db'.
Proof.
  intros Hk Hinv [Hrun Happ]. unfold Finish. intros Hf. inv_ok. destruct (db.(deployments) !! _) as [d|] eqn:Hd; [|done].
  destruct (_ && _); [|done]. inv_ok. injection Hf as <-. rewrite Happ.
  match goal with |- performed _ _ _ ?x => set (db' := x) end.
  pose proof (proj1 Hrun) as Hr. destruct (qi_release _ Hinv _ _ Hr) as (_ & qa & Hqa & _). cbn [r_App r_Rev] in Hqa.
  assert (∃ a, db.(applications) !! c.(c_App).(a_ID) = Some a ∧ view_app a = qa) as (a & Ha & <-).
  { cbn [view apps] in Hqa. rewrite lookup_fmap in Hqa. destruct (db.(applications) !! _) as [a|]; [|done]. injection Hqa as <-. by exists a. }
  assert (db'.(deployments) = alter (finish_row now status message result_json) c.(c_Deployment).(d_ID) db.(deployments) ∧
    db'.(applications) = alter (finish_app c.(c_Deployment) status result_json) c.(c_App).(a_ID) db.(applications) ∧
    db'.(volume_resizes) = db.(volume_resizes) ∧ db'.(previews) = db.(previews)) as (Hds & Has & Hrs & Hps) by (subst db'; by destruct (0 <? _)).
  clearbody db'. split; [by apply (keyed_alter_rows db db' _ _ _ _ Hk Hds Has Hrs Hps)|].
  exists (Some c.(c_App).(a_ID)). split; [|by intros app [= <-]].
  rewrite (view_alter db db' u _ d _ _ a _ Hd Ha Hds Has Hrs).
  assert (view_release d = mkRelease c.(c_App).(a_ID) c.(c_Deployment).(d_Revision) Running) as Hv.
  { cbn [view releases] in Hr. rewrite lookup_fmap, Hd in Hr. by apply (inj Some) in Hr. }
  pose proof (q_finish (view db u) _ _ status (view_app a) (view_app (finish_app c.(c_Deployment) status result_json a)).(q_Healthy) Hr eq_refl (proj2 Hrun)) as Hs.
  cbn [r_App r_Rev with_status] in Hs. unfold view_release at 1. cbn [finish_row d_ApplicationID d_Revision d_Status set_d_FinishedAt set_d_Result set_d_Error set_d_Status].
  injection Hv as -> -> _. apply Hs; [|done|].
  - match goal with Ht : negb (bool_decide _) = false |- _ => apply negb_false_iff, bool_decide_eq_true in Ht; unfold terminal; set_solver end.
  - cbn [view_app q_Healthy q_Rev finish_app set_a_Status set_a_Observed a_Status]. destruct (a_Revision a =? _) eqn:Hrev; [|done]. apply Z.eqb_eq in Hrev.
    intros Hh. split; [|done]. unfold finished_status in Hh. destruct status; try done. by destruct (d_RecoveryState (c_Deployment c) =? "succeeded")%string.
Qed.

(** A change of a running release that the queue does not show. *)
Lemma claim_update c (db db' : DB) u d f c' : keyed db → knows (view db u) (Holding c) → db.(deployments) !! c.(c_Deployment).(d_ID) = Some d →
  (∀ d, (f d).(d_ID) = d.(d_ID)) → (∀ d, view_release (f d) = view_release d) → db' = update_deployment c.(c_Deployment).(d_ID) f db →
  c' = c ∨ c' = mkClaim (f d) c.(c_App) → sound (Holding c) db u (Holding c') db'.
Proof.
  intros Hk Hw Hd Hf Hv -> Hc.
  assert (view (update_deployment (d_ID (c_Deployment c)) f db) u = view db u) as Heq by (unfold view; cbn; by rewrite alter_fmap_same).
  split.
  - apply performed_same; [done| |apply Hk|apply Hk|done|by apply alter_fmap_same|done]. by apply keyed_alter, Hk.
  - rewrite Heq. destruct Hc as [->| ->]; [done|]. cbn [fst snd knows c_Deployment c_App] in *. destruct Hw as [Hr Ha]. rewrite Hf.
    pose proof (kd_deployment db Hk _ d Hd) as Hid. pose proof (proj1 Hr) as Hl. cbn [view releases] in Hl. rewrite lookup_fmap, Hd in Hl.
    injection Hl as Hl1 Hl2 Hl3. specialize (Hv d). injection Hv as Hv1 Hv2 Hv3. rewrite Hv1, Hv2, Hid, Hl1, Hl2. done.
Qed.

Lemma claim_call_sound c (db : DB) u w' db' : keyed db → qinv (view db u) → knows (view db u) (Holding c) → claim_call c db w' db' → sound (Holding c) db u w' db'.
Proof.
  intros Hk Hinv Hw Hc. destruct Hc as [c db app winner db' Hs|c db previous failure skip c' db' Hs|c db state message result_json c' db' Hs|c db now status message result_json db' Hs].
  - unfold SetResolved in Hs. destruct (db.(deployments) !! _) as [d|] eqn:Hd; [|done]. destruct (_ && _); [|done]. inv_ok. injection Hs as <- <-.
    eapply claim_update; [done..| | |reflexivity|by left]; done.
  - unfold BeginRecovery in Hs. inv_ok. destruct a as [[state revision] spec]. destruct (db.(deployments) !! _) as [d|] eqn:Hd; [|done].
    destruct (_ && _); [|done]. inv_ok. injection Hs as <- <-. eapply claim_update; [done..| | |reflexivity|by right]; done.
  - unfold FinishRecovery in Hs. inv_ok. destruct (db.(deployments) !! _) as [d|] eqn:Hd; [|done].
    destruct (_ && _); [|done]. inv_ok. injection Hs as <- <-. eapply claim_update; [done..| | |reflexivity|by right]; done.
  - split; [|done]. by eapply Finish_performed.
Qed.

(** The row of a resize a worker holds. *)
Lemma resizing_row c (db : DB) u : knows (view db u) (Resizing c) → ∃ r, db.(volume_resizes) !! c.(rc_Resize).(rz_ID) = Some r ∧
  view_maint r = view_maint c.(rc_Resize) ∧ r.(rz_ApplicationID) = c.(rc_App).(a_ID) ∧ r.(rz_Phase) = c.(rc_Resize).(rz_Phase).
Proof.
  intros (Happ & Hm & _). cbn [view maints] in Hm. rewrite lookup_fmap in Hm. destruct (db.(volume_resizes) !! _) as [r|]; [|done].
  apply (inj Some) in Hm. exists r. split_and!; [done|done| |]; pose proof Hm as Hm'; injection Hm'; congruence.
Qed.

Lemma resize_phase_performed c (db : DB) u f phase : keyed db → qinv (view db u) → knows (view db u) (Resizing c) →
  (∀ r, (f r).(rz_ID) = r.(rz_ID)) → (∀ r, view_maint (f r) = mkMaint r.(rz_ApplicationID) r.(rz_ExpectedRevision) phase) →
  next_phase c.(rc_Resize).(rz_Phase) phase = true → (phase = "deleting_original" → c.(rc_Resize).(rz_Phase) = "deleting_original") →
  performed (Resizing c) db u (update_resize c.(rc_Resize).(rz_ID) f db).
Proof.
  intros Hk Hinv Hw Hf Hv Hn Hd. destruct (resizing_row c db u Hw) as (r & Hr & Hvm & Happ & Hph). rewrite <-Hph in Hn, Hd.
  destruct (phase_refined db _ u _ r f phase Hk Hinv Hr Hf (Hv r) Hn (λ Hp Hne, False_ind _ (Hne (Hd Hp))) eq_refl) as (Hk' & _ & Hs).
  split; [done|]. exists (Some r.(rz_ApplicationID)). split; [done|]. intros app [= <-]. by rewrite Happ.
Qed.

Lemma Save_sound c phase runtime message (db : DB) u c' db' : keyed db → qinv (view db u) → knows (view db u) (Resizing c) →
  phase = c.(rc_Resize).(rz_Phase) ∨ c.(rc_Resize).(rz_Phase) = "queued" ∧ phase = "copying" →
  Save c phase runtime message db = (c', db') → sound (Resizing c) db u (Resizing c') db'.
Proof.
  intros Hk Hinv Hw Hph. unfold Save. intros [= <- <-]. split.
  - eapply (resize_phase_performed c db u _ phase); [done..| | |]; try done.
    + destruct Hph as [->|[-> ->]]; [apply next_phase_same|done].
    + intros ->. destruct Hph as [Hph|[_ ?]]; [by symmetry|done].
  - destruct (resizing_row c db u Hw) as (r & Hr & Hvm & _). destruct Hw as (Happ & Hm & Hrev). cbn [knows rc_Resize rc_App]. split_and!; [done| |].
    + cbn [view maints]. rewrite lookup_fmap. cbn. rewrite lookup_alter_eq, Hr. cbn. f_equal. injection Hvm as H1' H2' _. unfold view_maint. cbn. congruence.
    + intros Hb. apply Hrev. destruct Hph as [->|[Hq _]]; [exact Hb|]. unfold resizeBlocking. by rewrite Hq.
Qed.

Lemma BeginCutover_sound now c (db : DB) u c' db' : keyed db → qinv (view db u) → knows (view db u) (Resizing c) →
  BeginCutover now c db = Ok (c', db') → sound (Resizing c) db u (Resizing c') db'.
Proof.
  intros Hk Hinv Hw. destruct (resizing_row c db u Hw) as (row & Hrow & Hvm & Happ & Hph). unfold BeginCutover. intros Hc. inv_ok. split_orb.
  match goal with Hp : (_ =? "copying")%string = true |- _ => apply String.eqb_eq in Hp end.
  match goal with Hi : insert_deployment _ _ = Ok _ |- _ => apply insert_deployment_spec in Hi as [Hnone ->] end.
  cbn [set_deployments applications] in Hc. destruct Hw as (Hra & Hm & _). rewrite Hra in *.
  destruct (db.(applications) !! c.(rc_App).(a_ID)) as [a|] eqn:Ha; [|done]. inv_ok. split_orb. zify_bool. injection Hc as <- <-.
  assert (view (update_resize (rz_ID (rc_Resize c)) (set_rz_Phase "switching")
     (update_app (a_ID (rc_App c)) (cut_over_app (rc_Resize c)) (set_deployments
        (<[ c.(rc_Resize).(rz_ID) := new_deployment (rz_ID (rc_Resize c)) (a_ID (rc_App c)) (rz_IdentityID (rc_Resize c)) (rz_KeyID (rc_Resize c))
              ("volume-resize:" +:+ rz_ID (rc_Resize c)) (rz_ID (rc_Resize c)) (rz_ExpectedRevision (rc_Resize c) + 1) Running (rz_TargetSpec (rc_Resize c))
              (Some (rz_TargetSpec (rc_Resize c))) now (Some now) false ]> (deployments db)) db))) u =
    let m := view_maint c.(rc_Resize) in let id := c.(rc_Resize).(rz_ID) in let q := view db u in
    mkQueue (<[ id := mkRelease m.(m_App) (m.(m_Expected) + 1) Running ]> q.(releases)) (<[ m.(m_App) := mkQApp (m.(m_Expected) + 1) false ]> q.(apps))
      (<[ id := mkMaint m.(m_App) m.(m_Expected) "switching" ]> q.(maints)) q.(used)) as Hv.
  { cbv zeta. unfold view. cbn. rewrite fmap_insert, (fmap_alter_Some _ _ _ _ a Ha), (fmap_alter_Some _ _ _ _ row Hrow), Hra. f_equal. f_equal.
    injection Hvm as Hm1 Hm2 _. unfold view_maint. cbn. congruence. }
  split; [split; [split; cbn|]|].
  - apply (keyed_insert d_ID _ (new_deployment _ _ _ _ _ _ _ _ _ _ _ _ _)), Hk.
  - by apply keyed_alter, Hk.
  - by apply keyed_alter, Hk.
  - apply Hk.
  - exists (Some c.(rc_App).(a_ID)). split; [|by intros app [= <-]]. rewrite Hv. cbv zeta. rewrite <-Hra.
    apply (q_cutover (view db u) _ (view_maint c.(rc_Resize)) (view_app a).(q_Healthy) Hm); [done|]. cbn [view apps view_maint m_App m_Expected].
    rewrite lookup_fmap, Hra, Ha. cbn. unfold view_app. cbn. congruence.
  - rewrite Hv. cbv zeta. cbn [knows rc_Resize rc_App maints apps]. split_and!.
    + done.
    + cbn [set_rz_Phase rz_ID]. by rewrite lookup_insert_eq.
    + intros _. cbn [cut_over_app a_ID set_a_Status set_a_Spec set_a_Revision a_Revision]. cbn [view_maint m_App m_Expected]. rewrite Hra, lookup_insert_eq. by eexists.
Qed.

Lemma CutoverResult_performed now c result_json message (db : DB) u : keyed db → qinv (view db u) → knows (view db u) (Resizing c) →
  c.(rc_Resize).(rz_Phase) = "switching" → performed (Resizing c) db u (CutoverResult now c result_json message db).
Proof.
  intros Hk Hinv Hw Hph. destruct (resizing_row c db u Hw) as (row & Hrow & Hvm & Happ & _). destruct Hw as (Hra & Hm & Hrev).
  destruct Hrev as (qa & Hqa & Hqr); [unfold resizeBlocking; by rewrite Hph|].
  destruct (qi_maint _ Hinv _ _ Hm) as (_ & am & _ & _ & Hsw). destruct (Hsw Hph) as (_ & (r & Hr & Hrapp & Hrrev) & _).
  unfold view in Hr, Hqa. cbn [releases apps] in Hr, Hqa. rewrite lookup_fmap in Hr. rewrite lookup_fmap in Hqa.
  destruct (db.(deployments) !! _) as [d|] eqn:Hd; [|done]. destruct (db.(applications) !! _) as [a|] eqn:Ha; [|done].
  apply (inj Some) in Hr as <-. apply (inj Some) in Hqa as <-. set (failed := negb (is_empty message)).
  split; [split; cbn; [by apply keyed_alter, Hk| |by apply keyed_alter, Hk|apply Hk]|].
  { apply keyed_alter, Hk. intros o. by destruct (a_Revision o =? _). }
  exists (Some c.(rc_App).(a_ID)). split; [|by intros app [= <-]].
  pose proof (q_settle (view db u) _ (view_maint c.(rc_Resize)) (view_release d) (view_app a) (negb failed) Hm Hph) as Hs.
  cbn [view_maint m_App m_Expected] in Hs. rewrite Hra in Hs. cbn [view releases apps maints used] in Hs. rewrite !lookup_fmap, Hd, Ha in Hs. specialize (Hs eq_refl eq_refl).
  assert (view (CutoverResult now c result_json message db) u =
    mkQueue (<[ c.(rc_Resize).(rz_ID) := with_status (if negb failed then Succeeded else Failed) (view_release d) ]> (view_release <$> db.(deployments)))
      (<[ c.(rc_App).(a_ID) := mkQApp (view_app a).(q_Rev) (negb failed) ]> (view_app <$> db.(applications)))
      (<[ c.(rc_Resize).(rz_ID) := mkMaint c.(rc_App).(a_ID) c.(rc_Resize).(rz_ExpectedRevision) (if negb failed then "original_retained" else "switching") ]>
         (view_maint <$> db.(volume_resizes))) u) as ->; [|exact Hs].
  unfold view, CutoverResult. cbn [update_resize update_app update_deployment set_volume_resizes set_applications set_deployments deployments applications volume_resizes].
  rewrite (fmap_alter_Some _ _ _ _ d Hd), (fmap_alter_Some _ _ _ _ a Ha), (fmap_alter_Some _ _ _ _ row Hrow). fold failed.
  cbn [view_app q_Rev] in Hqr. rewrite Hqr, Z.eqb_refl. injection Hvm as Hm1 Hm2 _. unfold view_release, view_app, view_maint, with_status. cbn. rewrite Happ, Hm2, Hqr. by destruct failed.
Qed.

Lemma resize_call_sound c (db : DB) u w' db' : keyed db → qinv (view db u) → knows (view db u) (Resizing c) → resize_call c db w' db' → sound (Resizing c) db u w' db'.
Proof.
  intros Hk Hinv Hw Hc. destruct Hc as [c db phase runtime message c' db' Hph Hs|c db now c' db' Hs|c db now result_json message Hph|c db phase Hph].
  - by eapply Save_sound.
  - by eapply BeginCutover_sound.
  - split; [by apply CutoverResult_performed|done].
  - split; [|done]. eapply (resize_phase_performed c db u _ phase); [done..| |].
    + destruct Hph as [[-> ->]|[-> ->]]; done.
    + by destruct Hph as [[_ ->]|[_ ->]].
Qed.

Lemma PreviewFinish_performed v a message (db : DB) u db' : keyed db → PreviewFinish v a message db = Ok (tt, db') → performed (Cleaning v a) db u db'.
Proof.
  intros Hk. unfold PreviewFinish. destruct (negb _).
  - intros [= <-]. apply performed_same; [done|apply Hk|apply Hk| |done..]. by apply keyed_alter, Hk.
  - intros Hf. inv_ok. match goal with Hm : deleteApplicationMetadata _ _ = _ |- _ => destruct (deleteApplicationMetadata_spec _ _ _ Hm) as [r ->] end.
    injection Hf as <-. destruct (remove_application_refined a db u r Hk) as (Hk' & _ & Hs). split.
    + split; [apply Hk'|apply Hk'|apply Hk'|]. cbn [set_previews previews]. apply keyed_alter, Hk'. by intros w.
    + exists (Some a.(a_ID)). split; [exact Hs|done].
Qed.

(** Every step of a worker is one of the queue. *)
Lemma worker_step_sound n w (db : DB) u w' db' : keyed db → qinv (view db u) → knows (view db u) w → worker_step n w db w' db' → sound w db u w' db'.
Proof.
  intros Hk Hinv Hw Hs. destruct Hs.
  - apply sound_same; [done|]. by apply candidates_known.
  - apply sound_same; [done|]. by apply resizes_known.
  - by apply sound_same.
  - by apply sound_locks.
  - by apply advance_sound.
  - by apply claim_call_sound.
  - by apply resize_call_sound.
  - split; [by eapply PreviewFinish_performed|done].
  - by apply sound_locks.
Qed.

(** * The system *)

(** A connection keeps its lock, gets one that nobody has, or gives up what it has. *)
Inductive lock_move (n : nat) (w : Worker) (db : DB) (w' : Worker) (db' : DB) : Prop :=
  | lock_kept : held w' = held w → db'.(locks) = db.(locks) → lock_move n w db w' db'
  | lock_taken app : held w = None → held w' = Some app → (db.(locks) !! app = None) → db'.(locks) = <[ app := n ]> db.(locks) → lock_move n w db w' db'
  | lock_given : held w' = None → db'.(locks) = filter (λ e, e.2 ≠ n) db.(locks) → lock_move n w db w' db'.

Lemma try_lock_move n w app won lost (db : DB) : held w = None → held won = Some app → held lost = None →
  lock_move n w db (try_lock n app won lost db).1 (try_lock n app won lost db).2.
Proof.
  intros Hw Hwon Hlost. unfold try_lock, locked. destruct (has_key db.(locks) app) eqn:Hl; cbn [fst snd].
  - apply lock_kept; congruence.
  - apply (lock_taken _ _ _ _ _ app); [done|done|by apply has_key_false|done].
Qed.

Lemma advance_lock_move now n w (db : DB) u : knows (view db u) w → keyed db → lock_move n w db (advance now n w db).1 (advance now n w db).2.
Proof.
  intros Hw Hk. destruct w as [|todo|id app todo|id app todo|d app|d app|c|todo|id app todo|r app todo|c|todo|app todo|v app|v a app|v a|app|app];
    cbn [advance knows] in *; try by apply lock_kept.
  - destruct todo as [|[id app] todo]; [by apply lock_kept|by apply try_lock_move].
  - destruct (_ || _); [by apply lock_given|by apply lock_kept].
  - unfold start_deployment. destruct (db.(deployments) !! id) as [d|]; [|by apply lock_given]. destruct (pending _); [by apply lock_kept|by apply lock_given].
  - unfold start_attempt. destruct (_ && _); by apply lock_kept.
  - destruct (db.(applications) !! app) as [a|] eqn:Ha; [|by apply lock_given]. apply lock_kept; [|done]. cbn. by rewrite (kd_app db Hk app a Ha).
  - destruct todo as [|[id app] todo]; [by apply lock_kept|by apply try_lock_move].
  - destruct (read_resize id db); [by apply lock_kept|by apply lock_given].
  - destruct (db.(applications) !! app) as [a|] eqn:Ha; [|by apply lock_given]. apply lock_kept; [|done]. cbn. by rewrite (kd_app db Hk app a Ha).
  - destruct todo as [|app todo]; [by apply lock_kept|by apply try_lock_move].
  - destruct (mark_preview now app db) as [[v db']|] eqn:Hm; [|by apply lock_given]. destruct (mark_preview_spec now app db v db' Hm) as [id ->]. by apply lock_kept.
  - destruct (db.(applications) !! app) as [a|] eqn:Ha; [by apply lock_kept|by apply lock_given].
  - apply lock_kept; [|done]. cbn. by rewrite Hw.
Qed.

Lemma claim_call_lock c (db : DB) w' db' : claim_call c db w' db' → held w' = Some c.(c_App).(a_ID) ∧ db'.(locks) = db.(locks).
Proof.
  intros Hc. destruct Hc as [c db app winner db' Hs|c db previous failure skip c' db' Hs|c db state message result_json c' db' Hs|c db now status message result_json db' Hs].
  - unfold SetResolved in Hs. destruct (_ !! _) as [d|]; [|done]. destruct (_ && _); [|done]. inv_ok. by injection Hs as _ <-.
  - unfold BeginRecovery in Hs. inv_ok. destruct a as [[? ?] ?]. destruct (_ !! _) as [d|]; [|done]. destruct (_ && _); [|done]. inv_ok. by injection Hs as <- <-.
  - unfold FinishRecovery in Hs. inv_ok. destruct (_ !! _) as [d|]; [|done]. destruct (_ && _); [|done]. inv_ok. by injection Hs as <- <-.
  - unfold Finish in Hs. inv_ok. destruct (_ !! _) as [d|]; [|done]. destruct (_ && _); [|done]. inv_ok. injection Hs as <-. split; [done|]. by destruct (0 <? _).
Qed.

Lemma resize_call_lock c (db : DB) w' db' : resize_call c db w' db' → held w' = Some c.(rc_App).(a_ID) ∧ db'.(locks) = db.(locks).
Proof.
  intros Hc. destruct Hc as [c db phase runtime message c' db' _ Hs|c db now c' db' Hs| |]; [|..|done|done].
  - unfold Save in Hs. by injection Hs as <- <-.
  - unfold BeginCutover in Hs. inv_ok. match goal with Hi : insert_deployment _ _ = Ok _ |- _ => apply insert_deployment_spec in Hi as [_ ->] end.
    destruct (_ !! _) as [a|]; [|done]. inv_ok. by injection Hs as <- <-.
Qed.

Lemma worker_lock_move n w (db : DB) u w' db' : keyed db → knows (view db u) w → worker_step n w db w' db' → lock_move n w db w' db'.
Proof.
  intros Hk Hw Hs. destruct Hs as [| | |app db Hl| |c db w' db' Hc|c db w' db' Hc|v a db message db' Hf|]; try by apply lock_kept.
  - apply (lock_taken _ _ _ _ _ app); [done|done|by apply has_key_false|done].
  - by eapply advance_lock_move.
  - apply claim_call_lock in Hc as [? ?]. by apply lock_kept.
  - apply resize_call_lock in Hc as [? ?]. by apply lock_kept.
  - unfold PreviewFinish in Hf. destruct (negb _); [injection Hf as <-; by apply lock_kept|]. inv_ok.
    match goal with Hm : deleteApplicationMetadata _ _ = _ |- _ => destruct (deleteApplicationMetadata_spec _ _ _ Hm) as [r ->] end. injection Hf as <-. by apply lock_kept.
  - by apply lock_given.
Qed.
End refine.
