(* ===== verification/DeploymentSafety.v ===== *)
(** Runs of the store with its workers: every run is a run of the abstract queue, and what
    follows for the tables: releases of an application go one at a time and in order, a
    claim that kept its connection is alone on its application and can be finished, and a
    resumed resize that nobody takes. *)
From stdpp Require Import functions.
From S2P Require Import Prelude GoStd SpecTypes Platform SpecWorkloads SpecNormalize SpecTransfer SpecRecovery StoreErrors Principals DeploymentTables DeploymentStore DeploymentQueue DeploymentSteps DeploymentExample DeploymentRefine.
#[global] Open Scope Z_scope.
Set Default Proof Using "Type".

Section safety.
Context `{Host} `{ThirdParty} `{Quantity} `{RangeOrder} `{Digest} `{Others}.
#[local] Abbreviation DB := (Database Rest).

Definition queue_of (s : System) : Queue := view s.(sys_db) s.(sys_used).

(** What holds in every state: the queue is in order, the rows have their keys, the locks
    are the ones the workers have, and the workers know what they should. *)
Record sys_inv (s : System) : Prop := {
  si_queue : qinv (queue_of s);
  si_keyed : keyed s.(sys_db);
  si_locks : ∀ app n, s.(sys_db).(locks) !! app = Some n ↔ held (s.(sys_workers) n) = Some app;
  si_knows : ∀ n, knows (queue_of s) (s.(sys_workers) n);
}.

Lemma fresh_inv s : fresh_system s → sys_inv s.
Proof.
  destruct s as [db ws u]. intros (Hd & Ha & Hr & _ & Hp & Hl & Hw). cbn [sys_db sys_workers] in *.
  split; unfold queue_of, view; cbn [sys_db sys_workers sys_used]; rewrite ?Hd, ?Ha, ?Hr, ?fmap_empty.
  - split; cbn [releases apps maints used]; try (intros *; rewrite lookup_empty; by intros); try (intros *; rewrite !lookup_empty; by intros).
    intros app. unfold pending_count. cbn [releases]. rewrite map_filter_empty, map_size_empty. lia.
  - split; rewrite ?Hd, ?Ha, ?Hr, ?Hp; apply keyed_empty.
  - intros app n. rewrite Hl, Hw, lookup_empty. done.
  - intros n. by rewrite Hw.
Qed.

(** Whose lock a step needs: its own worker, or nobody. *)
Lemma sys_step_inv s s' : sys_inv s → step s s' → sys_inv s' ∧ ∃ l, qstep l (queue_of s) (queue_of s').
Proof.
  intros [Hq Hk Hl Hw] Hs. destruct Hs as [db ws u db' u' Hr|n db ws u w' db' Hs]; unfold queue_of in *; cbn [sys_db sys_workers sys_used] in *.
  - destruct (request_refined u db u' db' Hk Hq Hr) as (Hk' & Hl' & l & Hstep & Hfree). split; [|by exists l].
    split; unfold queue_of; cbn [sys_db sys_workers sys_used]; [by eapply qstep_inv|done|by rewrite Hl'|].
    intros n. eapply knows_stable; [done..| |done]. intros app Hheld Hlab. specialize (Hfree app Hlab). apply has_key_false in Hfree.
    apply Hl in Hheld. congruence.
  - destruct (worker_step_sound n (ws n) db u w' db' Hk Hq (Hw n) Hs) as [[Hk' (l & Hstep & Hheld)] Hknow]. split; [|by exists l].
    split; unfold queue_of; cbn [sys_db sys_workers sys_used]; [by eapply qstep_inv|done| |].
    + intros app m. pose proof (worker_lock_move n (ws n) db u w' db' Hk (Hw n) Hs) as Hmove. destruct (decide (n = m)) as [<-|Hne].
      * rewrite fn_lookup_insert. destruct Hmove as [-> -> | app0 Hn Hw1 Hfree -> | -> ->].
        -- apply Hl.
        -- rewrite Hw1. rewrite lookup_insert_Some. split; [|intros [= ->]; by left]. intros [[-> _]|[_ Hln]]; [done|]. apply Hl in Hln. congruence.
        -- rewrite map_lookup_filter_Some. cbn. naive_solver.
      * rewrite fn_lookup_insert_ne by done. destruct Hmove as [_ -> | app0 Hn _ Hfree -> | _ ->]; rewrite <-?(Hl app m); [done|..].
        -- rewrite lookup_insert_Some. split; [intros [[_ ?]|[_ ?]]; done|]. intros Hlm. right. split; [|done]. congruence.
        -- rewrite map_lookup_filter_Some. cbn. naive_solver.
    + intros m. destruct (decide (n = m)) as [<-|Hne]; [by rewrite fn_lookup_insert|]. rewrite fn_lookup_insert_ne by done.
      eapply knows_stable; [done..| |apply Hw]. intros app Hm Hlab. specialize (Hheld app Hlab). apply Hl in Hm, Hheld. congruence.
Qed.

Definition queue_step (q q' : Queue) : Prop := ∃ l, qstep l q q'.
Definition reachable (s : System) : Prop := ∃ s0, fresh_system s0 ∧ rtc step s0 s.

Lemma sys_run_inv s s' : sys_inv s → rtc step s s' → sys_inv s' ∧ rtc queue_step (queue_of s) (queue_of s').
Proof.
  intros Hinv Hrun. induction Hrun as [s|s s1 s' Hs _ IH]; [by split|]. destruct (sys_step_inv s s1 Hinv Hs) as [Hinv1 Hq].
  destruct (IH Hinv1) as [Hinv' Hqs]. split; [done|]. by eapply rtc_l.
Qed.

Lemma sys_reachable_inv s : reachable s → sys_inv s.
Proof. intros (s0 & Hf & Hrun). by eapply sys_run_inv; [apply fresh_inv|]. Qed.

(** C3: Every run of the store and its workers is a run of the abstract queue, whatever the
    order of their statements and wherever a worker stops: the table of deployments
    implements the queue, and the queue stays in order. *)
Theorem store_refines_queue s s' : fresh_system s → rtc step s s' → rtc queue_step (queue_of s) (queue_of s') ∧ qinv (queue_of s').
Proof. intros Hf Hrun. destruct (sys_run_inv s s' (fresh_inv s Hf) Hrun) as [Hinv Hq]. split; [done|apply Hinv]. Qed.

(** ** The tables *)

Lemma queue_release s id d : s.(sys_db).(deployments) !! id = Some d → (queue_of s).(releases) !! id = Some (view_release d).
Proof. intros Hd. unfold queue_of, view. cbn [releases]. by rewrite lookup_fmap, Hd. Qed.

Lemma queue_app s id a : s.(sys_db).(applications) !! id = Some a → (queue_of s).(apps) !! id = Some (view_app a).
Proof. intros Ha. unfold queue_of, view. cbn [apps]. by rewrite lookup_fmap, Ha. Qed.

Lemma queue_app_inv s id q : (queue_of s).(apps) !! id = Some q → ∃ a, s.(sys_db).(applications) !! id = Some a ∧ q = view_app a.
Proof. unfold queue_of, view. cbn [apps]. rewrite lookup_fmap_Some. intros (a & <- & Ha). by exists a. Qed.

Lemma queue_maint s id r : s.(sys_db).(volume_resizes) !! id = Some r → (queue_of s).(maints) !! id = Some (view_maint r).
Proof. intros Hr. unfold queue_of, view. cbn [maints]. by rewrite lookup_fmap, Hr. Qed.

(** C10: In every reachable state the deployments of an application have distinct revisions, up
    to the one of the application; while one is pending all newer ones are queued, so that
    one at most runs; at most twenty wait; and while a resize copies its volume, nothing of
    the application is pending and its revision is the one the resize was planned for. *)
Theorem releases_in_order s app : reachable s →
  (∀ id d, s.(sys_db).(deployments) !! id = Some d → ∃ a, s.(sys_db).(applications) !! d.(d_ApplicationID) = Some a ∧ 1 ≤ d.(d_Revision) ≤ a.(a_Revision)) ∧
  (∀ id1 id2 d1 d2, s.(sys_db).(deployments) !! id1 = Some d1 → s.(sys_db).(deployments) !! id2 = Some d2 →
     d1.(d_ApplicationID) = app → d2.(d_ApplicationID) = app →
     (d1.(d_Revision) = d2.(d_Revision) → id1 = id2) ∧
     (d1.(d_Revision) < d2.(d_Revision) → pending d1.(d_Status) = true → d2.(d_Status) = Queued) ∧
     (d1.(d_Status) = Running → d2.(d_Status) = Running → id1 = id2)) ∧
  count_rows s.(sys_db).(deployments) (app_pending app) ≤ 20 ∧
  (∀ id r, s.(sys_db).(volume_resizes) !! id = Some r → r.(rz_ApplicationID) = app → one_of r.(rz_Phase) ["queued"; "copying"; "cancelling"] = true →
     some_row s.(sys_db).(deployments) (app_pending app) = false ∧
     ∃ a, s.(sys_db).(applications) !! app = Some a ∧ a.(a_Revision) = r.(rz_ExpectedRevision)).
Proof.
  intros Hr. destruct (sys_reachable_inv s Hr) as [Hq Hk _ _].
  assert (∀ id1 id2 d1 d2, s.(sys_db).(deployments) !! id1 = Some d1 → s.(sys_db).(deployments) !! id2 = Some d2 → d1.(d_ApplicationID) = d2.(d_ApplicationID) →
    d1.(d_Revision) < d2.(d_Revision) → pending d1.(d_Status) = true → d2.(d_Status) = Queued) as Hord.
  { intros id1 id2 d1 d2 H1' H2'. apply (qi_ordered _ Hq id1 id2 (view_release d1) (view_release d2)); by apply queue_release. }
  assert (∀ id1 id2 d1 d2, s.(sys_db).(deployments) !! id1 = Some d1 → s.(sys_db).(deployments) !! id2 = Some d2 → d1.(d_ApplicationID) = d2.(d_ApplicationID) →
    d1.(d_Revision) = d2.(d_Revision) → id1 = id2) as Huniq.
  { intros id1 id2 d1 d2 H1' H2'. apply (qi_unique _ Hq id1 id2 (view_release d1) (view_release d2)); by apply queue_release. }
  split_and!.
  - intros id d Hd. destruct (qi_release _ Hq id _ (queue_release s id d Hd)) as (_ & q & (a & Ha & ->)%queue_app_inv & Hb). by exists a.
  - intros id1 id2 d1 d2 H1' H2' Ha1 Ha2. split_and!; [apply Huniq; congruence| |].
    + intros Hlt Hp. apply (Hord id1 id2 d1); [done..|congruence|done|done].
    + intros Hs1 Hs2. destruct (Z.lt_trichotomy d1.(d_Revision) d2.(d_Revision)) as [Hlt|[Heq|Hgt]]; [|apply (Huniq id1 id2 d1 d2); congruence|].
      * assert (d2.(d_Status) = Queued) by (apply (Hord id1 id2 d1); [done..|congruence|done|by rewrite Hs1]). congruence.
      * assert (d1.(d_Status) = Queued) by (apply (Hord id2 id1 d2); [done..|congruence|done|by rewrite Hs2]). congruence.
  - rewrite (view_pending_count _ s.(sys_used)). pose proof (qi_bounded _ Hq app). unfold queue_of in *. lia.
  - intros id r Hr' Happ Hph. destruct (qi_maint _ Hq id _ (queue_maint s id r Hr')) as (_ & q & (a & Ha & ->)%queue_app_inv & He & _).
    destruct (He Hph) as (Hrev & Hidle & _). cbn [view_maint m_App m_Expected view_app q_Rev] in *. rewrite Happ in *. split; [|by exists a].
    apply some_row_false. intros i d Hd. apply not_true_iff_false. intros Hp. unfold app_pending in Hp. split_orb. apply (Hidle i _ (queue_release s i d Hd)); [|done].
    by apply String.eqb_eq.
Qed.

(** C11: A worker that kept the connection of its claim is the only one with the lock of the
    application; its release is still running in the table at the revision it was claimed
    with, everything else that is pending for the application waits behind it, and it can
    be finished with any result. *)
Theorem claim_exclusive s n c : reachable s → s.(sys_workers) n = Holding c →
  (∀ m, held (s.(sys_workers) m) = Some c.(c_App).(a_ID) → m = n) ∧
  (∃ d, s.(sys_db).(deployments) !! c.(c_Deployment).(d_ID) = Some d ∧ d.(d_Status) = Running ∧ d.(d_ApplicationID) = c.(c_App).(a_ID) ∧
     d.(d_Revision) = c.(c_Deployment).(d_Revision)) ∧
  (∀ id o, s.(sys_db).(deployments) !! id = Some o → o.(d_ApplicationID) = c.(c_App).(a_ID) → pending o.(d_Status) = true →
     id = c.(c_Deployment).(d_ID) ∨ o.(d_Status) = Queued ∧ c.(c_Deployment).(d_Revision) < o.(d_Revision)) ∧
  (∀ now status message result_json, status ∈ [Succeeded; Failed; Cancelled] → is_ok (Finish now c status message result_json s.(sys_db)) = true).
Proof.
  intros Hr Hw. destruct (sys_reachable_inv s Hr) as [Hq Hk Hl Hknow]. specialize (Hknow n). rewrite Hw in Hknow. destruct Hknow as [[Hrun Hm] Happ].
  assert (∃ d, s.(sys_db).(deployments) !! c.(c_Deployment).(d_ID) = Some d ∧ d.(d_Status) = Running ∧ d.(d_ApplicationID) = c.(c_App).(a_ID) ∧
    d.(d_Revision) = c.(c_Deployment).(d_Revision)) as (d & Hd & Hs & Ha & Hrev).
  { unfold queue_of, view in Hrun. cbn [releases] in Hrun. rewrite lookup_fmap_Some in Hrun. destruct Hrun as (d & Hv & Hd). exists d. by injection Hv as -> -> ->. }
  split_and!.
  - intros m Hm'. assert (held (s.(sys_workers) n) = Some c.(c_App).(a_ID)) as Hn by by rewrite Hw. apply Hl in Hm', Hn. congruence.
  - by exists d.
  - intros id o Ho Hoa Hp. destruct (decide (id = c.(c_Deployment).(d_ID))) as [->|Hne]; [by left|right].
    destruct (Z.lt_trichotomy o.(d_Revision) d.(d_Revision)) as [Hlt|[Heq|Hgt]].
    + assert (d.(d_Status) = Queued); [|congruence].
      apply (qi_ordered _ Hq id c.(c_Deployment).(d_ID) (view_release o) (view_release d)); [by apply queue_release|by apply queue_release|cbn; congruence|done|done].
    + destruct Hne. apply (qi_unique _ Hq id c.(c_Deployment).(d_ID) (view_release o) (view_release d)); [by apply queue_release|by apply queue_release|cbn; congruence|done].
    + split; [|congruence]. apply (qi_ordered _ Hq c.(c_Deployment).(d_ID) id (view_release d) (view_release o)); [by apply queue_release|by apply queue_release|cbn; congruence|done|].
      unfold is_pending. cbn. by rewrite Hs.
  - intros now status message result_json Hst. unfold Finish. rewrite bool_decide_eq_true_2 by done. cbn [negb]. rewrite fail_when_false by done.
    cbn [mbind result_bind]. rewrite Hd, Ha, Happ, String.eqb_refl. unfold runs. rewrite Hs. done.
Qed.

(** ** Accepted requests *)

Lemma application_for_deployments fresh project env next expected (db : DB) a db' :
  application_for fresh project env next expected db = Ok (a, db') → db'.(deployments) = db.(deployments).
Proof. unfold application_for. destruct (find_app _ _ _ _) as [[k row]|]; [by intros [= _ <-]|]. intros Ha. inv_ok. by simplify_eq. Qed.

Lemma insert_preview_deployments now a initial (db db' : DB) : insert_preview now a initial db = Ok db' → db'.(deployments) = db.(deployments).
Proof. unfold insert_preview. destruct initial; [|by intros [= <-]]. intros Hi. by inv_ok. Qed.

Lemma accept_new_deployments now fresh_app fresh_id p project env next expected idem hash initial rollback seed (db : DB) d db' :
  accept_new now fresh_app fresh_id p project env next expected idem hash initial rollback seed db = Ok (d, db') →
  (db.(deployments) !! fresh_id = None) ∧ db'.(deployments) = <[ fresh_id := d ]> db.(deployments) ∧ d.(d_ID) = fresh_id ∧ d.(d_IdentityID) = p.(p_ID) ∧
  d.(d_IdempotencyKey) = idem ∧ d.(d_RequestHash) = hash ∧ d.(d_Status) = Queued.
Proof.
  intros Hacc. unfold accept_new in Hacc. inv_ok. match goal with x : AppRow * _ |- _ => destruct x as [ar db1] end. inv_ok. simplify_eq.
  match goal with Ha : application_for _ _ _ _ _ _ = Ok _ |- _ => apply application_for_deployments in Ha end.
  match goal with Hi : insert_deployment _ _ = Ok _ |- _ => apply insert_deployment_spec in Hi as [Hnone ->] end.
  match goal with Hv : insert_preview _ _ _ _ = Ok _ |- _ => apply insert_preview_deployments in Hv; rewrite Hv end.
  cbn in *. split_and!; congruence || done.
Qed.

Lemma accept_new_row now fresh_app fresh_id p project env next expected idem hash initial rollback seed (db : DB) d db' :
  accept_new now fresh_app fresh_id p project env next expected idem hash initial rollback seed db = Ok (d, db') →
  (db.(deployments) !! fresh_id = None) ∧ db'.(deployments) = <[ fresh_id := d ]> db.(deployments) ∧
  ∃ revision app, d = new_deployment fresh_id app p.(p_ID) p.(p_KeyID) idem hash revision Queued next seed now None rollback.
Proof.
  intros Hacc. destruct (accept_new_deployments _ _ _ _ _ _ _ _ _ _ _ _ _ _ _ _ Hacc) as (Hn & Hd & _). split; [done|]. split; [done|].
  unfold accept_new in Hacc. inv_ok. match goal with x : AppRow * _ |- _ => destruct x as [ar db1] end. inv_ok. simplify_eq. by do 2 eexists.
Qed.

(** ** A release that nobody takes *)

(** C20: A failed cut-over whose original was retained can be resumed, when its result tells of
    service attempts. The release is then queued and its resize still has a row: no worker
    lists it, cancelling is refused, and no later release of the application is listed. *)
Theorem resumed_resize_stuck p id expected idem (db : DB) d db' :
  keyed db → has_key db.(volume_resizes) id = true → find_attempt db p.(p_ID) idem = None → ResumeDeployment p id expected idem db = Ok (d, db') →
  (∃ d', db'.(deployments) !! id = Some d' ∧ d'.(d_Status) = Queued ∧ d'.(d_ApplicationID) = d.(d_ApplicationID) ∧ d'.(d_Revision) = d.(d_Revision)) ∧
  has_key db'.(volume_resizes) id = true ∧
  ∀ (later : DB) d', keyed later → later.(deployments) !! id = Some d' → pending d'.(d_Status) = true → d'.(d_ApplicationID) = d.(d_ApplicationID) →
    d'.(d_Revision) = d.(d_Revision) → has_key later.(volume_resizes) id = true →
    is_ok (cancel id later) = false ∧
    ∀ now i o, later.(deployments) !! i = Some o → o.(d_ApplicationID) = d.(d_ApplicationID) → d.(d_Revision) ≤ o.(d_Revision) →
      (o.(d_Revision) = d.(d_Revision) → i = id) → (i, o.(d_ApplicationID)) ∉ candidates now later.
Proof.
  intros Hk Hrz Hfind Hr. unfold ResumeDeployment in Hr. inv_ok. rewrite Hfind in Hr. unfold resume_new in Hr.
  destruct (db.(deployments) !! id) as [d0|] eqn:Hd; [|done]. destruct (db.(applications) !! _) as [a|]; [|done]. inv_ok. simplify_eq.
  match goal with Hi : insert_attempt _ _ _ = Ok _ |- _ => apply insert_attempt_queue in Hi as [m2 ->] end.
  set (d := requeue _ _ _ d0). match goal with |- context [set_resume_attempts m2 ?x] =>
    assert (deployments x = db.(deployments) ∧ volume_resizes x = db.(volume_resizes)) as [Hxd Hxr] end.
  { destruct (d_ResumeGeneration d0 =? 0); [|done]. match goal with |- context [insert_attempt_once ?k ?t ?y] => destruct (insert_attempt_once_queue k t y) as [m ->] end. done. }
  split_and!.
  - exists d. split_and!; [|done..]. cbn [update_app update_deployment set_applications set_deployments set_resume_attempts deployments].
    by rewrite Hxd, lookup_alter_eq, Hd.
  - cbn [update_app update_deployment set_applications set_deployments set_resume_attempts volume_resizes]. by rewrite Hxr.
  - intros later d' Hkl Hd' Hp Ha Hrev Hrz'. split.
    + unfold cancel. rewrite Hd', Hp, Hrz'. done.
    + intros now i o Ho Hoa Hle Hsame (o' & Ho' & Happ & Hc)%(candidates_elem now later i _ Hkl). rewrite Ho in Ho'. injection Ho' as <-. unfold claimable in Hc. split_orb.
      destruct (decide (o.(d_Revision) = d.(d_Revision))) as [Heq|Hne].
      * specialize (Hsame Heq) as ->. rewrite (kd_deployment later Hkl id o Ho) in *. congruence.
      * match goal with Hs : some_row later.(deployments) _ = false |- _ => rewrite some_row_false in Hs; specialize (Hs id d' Hd'); cbn beta in Hs end.
        rewrite Ha, Hoa, String.eqb_refl, Hp, (proj2 (Z.ltb_lt _ _)) in * by lia. discriminate.
Qed.
End safety.

Import Concrete.
Import TransferExample.
Import DeploymentExample.

Lemma example_reachable : ∃ ws, reachable (mkSystem claimed.2 ws used_now) ∧ ws 7%nat = Holding claim.
Proof. destruct claimed_run as (ws & Hrun & Hw). exists ws. split; [|done]. exists start. split; [apply start_fresh|]. etrans; [apply accepted_run|done]. Qed.

(** The run that accepts two releases. *)
Lemma store_refines_queue_witness : rtc queue_step (queue_of start) (queue_of accepted) ∧ qinv (queue_of accepted).
Proof. exact (store_refines_queue start accepted start_fresh accepted_run). Defined.

(** While the first release runs, the second one waits. *)
Lemma releases_in_order_witness : count_rows claimed.2.(deployments) (app_pending "app") = 2 ∧
  ∀ d1 d2, claimed.2.(deployments) !! "dep-1" = Some d1 → claimed.2.(deployments) !! "dep-2" = Some d2 → d2.(d_Status) = Queued.
Proof.
  split; [vm_compute; reflexivity|]. intros d1 d2 Hd1 Hd2. destruct example_reachable as (ws & Hr & _).
  refine (proj1 (proj2 (proj1 (proj2 (releases_in_order _ "app" Hr)) "dep-1" "dep-2" d1 d2 Hd1 Hd2 _ _)) _ _);
    vm_compute in Hd1, Hd2; injection Hd1 as <-; injection Hd2 as <-; done.
Defined.

(** The worker on connection 7 can finish its release. *)
Lemma claim_exclusive_witness : is_ok (Finish 40 claim Succeeded EmptyString "healthy" claimed.2) = true.
Proof.
  destruct example_reachable as (ws & Hr & Hw). refine (proj2 (proj2 (proj2 (claim_exclusive _ 7 claim Hr Hw))) 40 Succeeded EmptyString "healthy" _).
  apply list_elem_of_here.
Defined.

(** A run in which a resize fails at its cut-over, its original is retained and the failed
    cut-over is resumed. *)
Lemma resumed_resize_stuck_witness : (∃ ws, reachable (mkSystem resumed ws ids_resize)) ∧ is_ok (cancel resize_id resumed) = false ∧
  ∀ now, (resize_id, "app") ∉ candidates now resumed.
Proof.
  destruct resumed_run as (ws & Hrun & _). assert (reachable (mkSystem resumed ws ids_resize)) as Hreach by (exists start; split; [apply start_fresh|done]).
  assert (reachable (mkSystem resumed ws ids_resize) → keyed resumed) as Hkeys by (intros Hr; apply (si_keyed _ (sys_reachable_inv _ Hr))). specialize (Hkeys Hreach).
  assert (keyed retained) as Hkeyed.
  { destruct failed_run as (ws' & Hrun' & _). assert (reachable (mkSystem failed ws' ids_resize)) as Hr by (exists start; split; [apply start_fresh|done]).
    refine (proj1 (ResizeAction_refined ada "app" resize_id "retain" EmptyString failed ids_resize retained (si_keyed _ (sys_reachable_inv _ Hr)) (si_queue _ (sys_reachable_inv _ Hr)) _)).
    vm_compute. reflexivity. }
  split; [by exists ws|].
  destruct resume as [[d db']|e] eqn:Hres; [|vm_compute in Hres; discriminate]. assert (db_of retained resume = resumed) as Hf by (vm_compute; reflexivity). rewrite Hres in Hf. cbn [db_of] in Hf. subst db'.
  destruct (resumed_resize_stuck ada resize_id 2 "key-0004" retained d resumed Hkeyed) as ((d' & Hd' & Hs & Ha & Hrev) & Hrz & Hstuck);
    [vm_compute; reflexivity|vm_compute; reflexivity|exact Hres|].
  destruct (Hstuck resumed d' Hkeys Hd') as [Hc Hl]; [by rewrite Hs|done|done|done|]. split; [done|]. intros now.
  assert (d'.(d_ApplicationID) = "app") as Happ by (vm_compute in Hd'; by injection Hd' as <-).
  rewrite <-Happ. apply Hl; [done|done|lia|done].
Defined.
