(* ===== verification/DeploymentHistory.v ===== *)
(** What a release keeps: no step rewrites who asked for it, what was asked, its revision,
    or the specification its images were resolved to, a release that succeeded stays so,
    and a request that is repeated is answered with the release it was accepted as. *)
From stdpp Require Import functions.
From S2P Require Import Prelude GoStd SpecTypes Platform SpecWorkloads SpecNormalize SpecTransfer SpecRecovery StoreErrors Principals DeploymentTables DeploymentStore DeploymentQueue DeploymentSteps DeploymentExample DeploymentRefine DeploymentSafety.
#[global] Open Scope Z_scope.
Set Default Proof Using "Type".

(** The part of a row that is written once. *)
Definition record_of (d : Deployment) :=
  (d.(d_ID), d.(d_ApplicationID), d.(d_IdentityID), d.(d_KeyID), d.(d_IdempotencyKey), d.(d_RequestHash), d.(d_Revision), d.(d_Spec), d.(d_CreatedAt),
   d.(d_RollbackRequested)).

(** A later state of the same row: a resolved specification is not replaced, and attempts
    and generations only grow. *)
Record evolves (d d' : Deployment) : Prop := {
  ev_record : record_of d' = record_of d;
  ev_resolved : ∀ spec, d.(d_ResolvedSpec) = Some spec → d'.(d_ResolvedSpec) = Some spec;
  ev_attempts : d.(d_Attempts) ≤ d'.(d_Attempts);
  ev_generation : d.(d_ResumeGeneration) ≤ d'.(d_ResumeGeneration);
}.

#[export] Instance evolves_preorder : PreOrder evolves.
Proof.
  split; [by intros d|]. intros d1 d2 d3 [R1 S1 A1 G1] [R2 S2 A2 G2]. split; [congruence|by auto|lia|lia].
Qed.

(** ** Releases that are gone, and releases that succeeded *)

Definition gone (q : Queue) (id : string) : Prop :=
  id ∈ q.(used) ∧ (q.(releases) !! id = None) ∧ ∀ m, q.(maints) !! id = Some m → early m.(m_Phase) = false.

Lemma gone_stable l q q' id : qstep l q q' → gone q id → gone q' id.
Proof.
  intros Hs (Hu & Hn & Hm). split; [by apply (qstep_used l q q' Hs)|].
  destruct Hs as [q u Hu'|q i app' rev' u Hi Hu' _ _ Happ|q i r0 h Hr0 Hf Ha _|q i app' rev' h u Hi Hu' _ _ _|q i r0 Hr0 Hp _ _|q i r0 s a h Hr0 Hrun _ Ht _ _|q app'|q app'|
    q i m to Hm' Hnext _|q i m h Hm' Hph Ha|q i m r0 a ok Hm' Hph Hr0 Ha]; cbn [releases maints]; split; try done;
    try (rewrite lookup_insert_ne; [done|intros ->; congruence || done]).
  - by rewrite lookup_fmap, Hn.
  - apply map_lookup_filter_None. by left.
  - intros m [Hl _]%map_lookup_filter_Some. by apply Hm.
  - intros m' [[<- <-]|[_ Hl]]%lookup_insert_Some; [|by apply Hm]. cbn [m_Phase]. apply not_true_iff_false. intros He.
    specialize (Hm m Hm'). rewrite (next_phase_early _ _ Hnext He) in Hm. done.
  - rewrite lookup_insert_ne; [done|]. intros ->. specialize (Hm m Hm'). by rewrite Hph in Hm.
  - intros m' [[<- <-]|[_ Hl]]%lookup_insert_Some; [done|by apply Hm].
Qed.

Lemma removed_gone l q q' id r : qstep l q q' → qinv q → q.(releases) !! id = Some r → (q'.(releases) !! id = None) → gone q' id.
Proof.
  intros Hs Hinv Hr Hn. destruct (qi_release q Hinv id r Hr) as [Hu _].
  destruct Hs as [q u Hu'|q i app' rev' u Hi Hu' _ _ Happ|q i r0 h Hr0 Hf Ha _|q i app' rev' h u Hi Hu' _ _ _|q i r0 Hr0 Hp _ _|q i r0 s a h Hr0 Hrun _ Ht _ _|q app'|q app'|
    q i m to Hm' Hnext _|q i m h Hm' Hph Ha|q i m r0 a ok Hm' Hph Hr0 Ha]; cbn [releases] in Hn;
    try congruence; try (apply lookup_insert_None in Hn as [Hn _]; congruence).
  - by rewrite lookup_fmap, Hr in Hn.
  - split; [done|]. split; [done|]. cbn [maints]. intros m [Hm _]%map_lookup_filter_Some. destruct (qi_maint q Hinv id m Hm) as (_ & a & _ & He & _).
    apply not_true_iff_false. intros Hp. destruct (He Hp) as (_ & _ & Hno). congruence.
Qed.

(** A cut-over that is not settled did not succeed. *)
Definition unsettled (q : Queue) : Prop :=
  ∀ id m r, q.(maints) !! id = Some m → m.(m_Phase) = "switching" → q.(releases) !! id = Some r → r.(r_Status) ≠ Succeeded.

Lemma next_phase_to_switching from : next_phase from "switching" = true → from = "switching".
Proof.
  unfold next_phase. rewrite !orb_true_iff, !andb_true_iff, !String.eqb_eq.
  intros [[[[[[->|[_ ?]]|[_ ?]]|[_ ?]]|[_ ?]]|[_ ?]]|[_ ?]]; done.
Qed.

Lemma unsettled_stable l q q' : qstep l q q' → qinv q → unsettled q → unsettled q'.
Proof.
  intros Hs Hinv Hun.
  destruct Hs as [q u Hu'|q i app' rev' u Hi Hu' _ _ Happ|q i r0 h Hr0 Hf Ha _|q i app' rev' h u Hi Hu' _ _ _|q i r0 Hr0 Hp _ _|q i r0 s a h Hr0 Hrun Hmi Ht _ _|q app'|q app'|
    q i m to Hm' Hnext _|q i m h Hm' Hph Ha|q i m r0 a ok Hm' Hph Hr0 Ha]; intros id m1 r1; cbn [releases maints].
  - apply Hun.
  - intros Hm Hp [[<- <-]|[_ Hr]]%lookup_insert_Some; [done|by eapply Hun].
  - intros Hm Hp [[<- <-]|[_ Hr]]%lookup_insert_Some; [done|by eapply Hun].
  - intros [[<- <-]|[_ Hm]]%lookup_insert_Some Hp Hr; [done|by eapply Hun].
  - intros Hm Hp' [[<- <-]|[_ Hr]]%lookup_insert_Some; [done|by eapply Hun].
  - intros Hm Hp [[<- <-]|[_ Hr]]%lookup_insert_Some; [congruence|by eapply Hun].
  - intros Hm Hp (r & Hr & _ & _ & [[-> _]|(_ & _ & ->)])%cancel_lookup; [by eapply Hun|done].
  - intros [Hm _]%map_lookup_filter_Some Hp [Hr _]%map_lookup_filter_Some. by eapply Hun.
  - intros [[<- <-]|[_ Hm]]%lookup_insert_Some Hp Hr; [|by eapply Hun]. cbn [m_Phase] in Hp. subst to. eapply (Hun i m); [done|by apply next_phase_to_switching|done].
  - intros [[<- <-]|[Hne Hm]]%lookup_insert_Some Hp; [rewrite lookup_insert_eq; by intros [= <-]|]. rewrite lookup_insert_ne by done. by eapply Hun.
  - intros [[<- <-]|[Hne Hm]]%lookup_insert_Some Hp; [|rewrite lookup_insert_ne by done; by eapply Hun]. destruct ok; [done|]. rewrite lookup_insert_eq. by intros [= <-].
Qed.

Lemma succeeded_stays l q q' id r r' : qstep l q q' → qinv q → unsettled q → q.(releases) !! id = Some r → r.(r_Status) = Succeeded →
  q'.(releases) !! id = Some r' → r'.(r_Status) = Succeeded.
Proof.
  intros Hs Hinv Hun Hr Hsu.
  destruct Hs as [q u Hu'|q i app' rev' u Hi Hu' _ _ Happ|q i r0 h Hr0 Hf Ha _|q i app' rev' h u Hi Hu' _ _ _|q i r0 Hr0 Hp _ _|q i r0 s a h Hr0 Hrun Hmi Ht _ _|q app'|q app'|
    q i m to Hm' Hnext _|q i m h Hm' Hph Ha|q i m r0 a ok Hm' Hph Hr0 Ha]; cbn [releases]; try congruence.
  - intros [[<- _]|[_ Hr']]%lookup_insert_Some; [|congruence]. by rewrite (unknown_release q) in Hr.
  - intros [[<- _]|[_ Hr']]%lookup_insert_Some; congruence.
  - intros [[<- _]|[_ Hr']]%lookup_insert_Some; [|congruence]. rewrite Hr in Hr0. injection Hr0 as <-. unfold is_pending in Hp. by rewrite Hsu in Hp.
  - intros [[<- _]|[_ Hr']]%lookup_insert_Some; congruence.
  - intros (r1 & Hr1 & _ & _ & [[-> _]|(_ & Hp & _)])%cancel_lookup; rewrite Hr in Hr1; injection Hr1 as <-; [done|]. unfold is_pending in Hp. by rewrite Hsu in Hp.
  - intros [Hr' _]%map_lookup_filter_Some. congruence.
  - intros [[<- _]|[_ Hr']]%lookup_insert_Some; [|congruence]. destruct (qi_maint q Hinv i m Hm') as (_ & a & _ & He & _).
    destruct He as (_ & _ & Hno); [by rewrite Hph|congruence].
  - intros [[<- _]|[_ Hr']]%lookup_insert_Some; [|congruence]. by destruct (Hun i m r Hm' Hph Hr).
Qed.

(** ** Applications that are gone *)

Definition app_gone (q : Queue) (app : string) : Prop := app ∈ q.(used) ∧ (q.(apps) !! app = None).

Lemma app_gone_stable l q q' app : qstep l q q' → app_gone q app → app_gone q' app.
Proof.
  intros Hs (Hu & Hn). split; [by apply (qstep_used l q q' Hs)|].
  destruct Hs as [q u Hu'|q i app' rev' u Hi Hu' _ _ Happ|q i r0 h Hr0 Hf Ha _|q i app' rev' h u Hi Hu' _ _ _|q i r0 Hr0 Hp _ _|q i r0 s a h Hr0 Hrun _ Ht Ha _|q app'|q app'|
    q i m to Hm' Hnext _|q i m h Hm' Hph Ha|q i m r0 a ok Hm' Hph Hr0 Ha]; cbn [apps]; try done;
    try (rewrite lookup_insert_ne; [done|intros Heq; rewrite Heq in *; congruence]).
  - rewrite lookup_insert_ne; [done|]. intros ->. destruct Happ as [[h Hh]|(_ & Hnu & _)]; [congruence|done].
  - destruct (decide (app' = app)) as [->|Hne]; [apply lookup_delete_eq|by rewrite lookup_delete_ne].
Qed.

(** A release leaves with its application. *)
Lemma removed_app_gone l q q' id r : qstep l q q' → qinv q → q.(releases) !! id = Some r → (q'.(releases) !! id = None) → app_gone q' r.(r_App).
Proof.
  intros Hs Hinv Hr Hn. destruct (qi_release q Hinv id r Hr) as [_ (a0 & Ha0 & _)]. destruct (qi_app q Hinv _ _ Ha0) as [Hu _].
  destruct Hs as [q u Hu'|q i app' rev' u Hi Hu' _ _ Happ|q i r0 h Hr0 Hf Ha _|q i app' rev' h u Hi Hu' _ _ _|q i r0 Hr0 Hp _ _|q i r0 s a h Hr0 Hrun _ Ht Ha _|q app'|q app'|
    q i m to Hm' Hnext _|q i m h Hm' Hph Ha|q i m r0 a ok Hm' Hph Hr0 Ha]; cbn [releases] in Hn;
    try congruence; try (apply lookup_insert_None in Hn as [Hn _]; congruence).
  - by rewrite lookup_fmap, Hr in Hn.
  - split; [done|]. cbn [apps]. apply map_lookup_filter_None in Hn as [Hn|Hn]; [congruence|]. specialize (Hn r Hr). cbn in Hn.
    destruct (decide (r.(r_App) = app')) as [->|Hne]; [apply lookup_delete_eq|done].
Qed.

(** ** Rows *)

Section rows.
Context `{Host} `{ThirdParty} `{Quantity} `{RangeOrder} `{Digest} `{Others}.
#[local] Abbreviation DB := (Database Rest).

(** What holds of every way a step changes a row, other than the methods of a claim, and
    of every row it adds. *)
Record row_change (R : Deployment → Deployment → Prop) (N : Deployment → Prop) : Prop := {
  rc_refl : ∀ d, R d d;
  rc_start : ∀ now d, R d (start_row now d);
  rc_cancel : ∀ d, R d (set_d_CancelRequested true d);
  rc_preview : ∀ now d, R d (preview_cancelled now d);
  rc_requeue : ∀ services p d, R d (requeue (d.(d_ResumeGeneration) + 1) services p d);
  rc_finish : ∀ now status message result_json d, R d (finish_row now status message result_json d);
  rc_new : ∀ id app identity key idem hash revision status spec resolved created started rollback,
    N (new_deployment id app identity key idem hash revision status spec resolved created started rollback);
}.

Section change.
Context (R : Deployment → Deployment → Prop) (N : Deployment → Prop) (HR : row_change R N).

(** A row changes as [R] allows; a new one is as [N] says, and no other has its key. *)
Definition rows_change (m m' : gmap string Deployment) : Prop :=
  ∀ id d', m' !! id = Some d' → match m !! id with Some d => R d d' | None => N d' ∧ apart (delete id m') d' end.

Lemma rows_same m : rows_change m m.
Proof using HR. intros id d ->. by eapply rc_refl. Qed.

Lemma rows_alter m i f : (∀ d, m !! i = Some d → R d (f d)) → rows_change m (alter f i m).
Proof using HR.
  intros Hf id d' [(-> & w & Hw & ->)|[_ Hd']]%lookup_alter_Some; [rewrite Hw; by apply Hf|rewrite Hd'; by eapply rc_refl].
Qed.

Lemma rows_insert m i d0 : (m !! i = None) → N d0 → apart m d0 → rows_change m (<[ i := d0 ]> m).
Proof using HR.
  intros Hn HN Ha id d' [[<- <-]|[_ Hd']]%lookup_insert_Some; [|rewrite Hd'; by eapply rc_refl]. rewrite Hn, delete_insert_id by done. done.
Qed.

Lemma rows_fmap m f : (∀ d, R d (f d)) → rows_change m (f <$> m).
Proof using Type. intros Hf id d' (d & <- & ->)%lookup_fmap_Some. apply Hf. Qed.

Lemma rows_filter m (P : string * Deployment → Prop) `{∀ e, Decision (P e)} : rows_change m (filter P m).
Proof using HR. intros id d' [-> _]%map_lookup_filter_Some. by eapply rc_refl. Qed.

Lemma Accept_rows now fa fi p project env next expected idem initial rollback seed (db : DB) d db' :
  Accept now fa fi p project env next expected idem initial rollback seed db = Ok (d, db') → rows_change db.(deployments) db'.(deployments).
Proof using HR.
  unfold Accept. intros Ha. inv_ok. destruct (find_key _ _ _) as [[k o]|] eqn:Hf; [inv_ok; simplify_eq; apply rows_same|].
  destruct (accept_new_row _ _ _ _ _ _ _ _ _ _ _ _ _ _ _ _ Ha) as (Hn & -> & rev & app & ->).
  apply rows_insert; [done|by eapply rc_new|by eapply find_key_apart].
Qed.

Lemma request_rows used (db : DB) used' db' : request used db used' db' → rows_change db.(deployments) db'.(deployments).
Proof using HR.
  intros Hr. destruct Hr as [used db now fa fi p project env next expected idem initial rollback seed d db' _ _ _ Ha|used db now fa fi p parent next initial idem d db' _ _ _ Ha|used db p id expected idem d db' Ha|used db id db' Ha|
    used db p id confirmation db' Ha|used db p id expected confirmation deleteData db' Ha|used db p app claim size revision idem runtime r db' _ Ha|used db p app id action confirm db' Ha|].
  - by eapply Accept_rows.
  - unfold AcceptPreview in Ha. inv_ok. by eapply Accept_rows.
  - unfold ResumeDeployment in Ha. inv_ok. destruct (find_attempt _ _ _) as [[[i g] t]|].
    + inv_ok. destruct (db.(deployments) !! id); [|done]. destruct (db.(applications) !! _); [|done]. inv_ok. simplify_eq. apply rows_same.
    + unfold resume_new in Ha. destruct (db.(deployments) !! id) as [d0|] eqn:Hd; [|done]. destruct (db.(applications) !! _); [|done]. inv_ok. simplify_eq.
      match goal with Hi : insert_attempt _ _ _ = Ok _ |- _ => apply insert_attempt_queue in Hi as [m2 ->] end.
      cbn [update_app update_deployment set_applications set_deployments set_resume_attempts deployments].
      match goal with |- context [deployments (if ?b then ?x else ?y)] => assert (deployments (if b then x else y) = db.(deployments)) as -> end.
      { destruct (_ =? 0); [|done]. match goal with |- context [insert_attempt_once ?k ?t ?y] => destruct (insert_attempt_once_queue k t y) as [m ->] end. done. }
      apply rows_alter. intros d' Hd'. rewrite Hd in Hd'. injection Hd' as <-. by eapply rc_requeue.
  - unfold cancel in Ha. destruct (db.(deployments) !! id) as [d|]; [|done]. inv_ok. simplify_eq. apply rows_alter. intros d' _. by eapply rc_cancel.
  - unfold RequestPreviewDeletion in Ha. destruct (db.(previews) !! id) as [v|]; [|done]. inv_ok. simplify_eq.
    destruct (pv_ApplicationID v) as [app|]; [|apply rows_same]. apply rows_fmap. intros d. destruct (app_pending app d); [by eapply rc_cancel|by eapply rc_refl].
  - unfold DeleteEmptyApplication in Ha. destruct (db.(applications) !! id) as [a|]; [|done]. inv_ok.
    match goal with Hm : deleteApplicationMetadata _ _ = _ |- _ => destruct (deleteApplicationMetadata_spec _ _ _ Hm) as [r ->] end. simplify_eq.
    destruct deleteData; apply (rows_filter db.(deployments)).
  - unfold StartVolumeResize in Ha. inv_ok. destruct (db.(applications) !! app) as [a|]; [|done]. inv_ok. destruct (db.(volume_resizes) !! _); [inv_ok; simplify_eq; apply rows_same|].
    unfold start_resize_new in Ha. inv_ok. match goal with x : Application * _ |- _ => destruct x end. inv_ok. simplify_eq. apply rows_same.
  - unfold ResizeAction in Ha. destruct (db.(applications) !! app) as [a|]; [|done]. inv_ok. destruct (db.(volume_resizes) !! id) as [r|]; [|done].
    destruct (_ =? _)%string; [|done]. inv_ok. match goal with x : string * string |- _ => destruct x end. inv_ok. simplify_eq. apply rows_same.
  - apply rows_same.
Qed.

(** The methods of a claim change rows in their own ways. *)
Lemma worker_rows n w (db : DB) w' db' : worker_step n w db w' db' →
  (∀ c, w = Holding c → claim_call c db w' db' → rows_change db.(deployments) db'.(deployments)) → rows_change db.(deployments) db'.(deployments).
Proof using HR.
  intros Hs Hclaim. destruct Hs as [| | | |now w db|c db w' db' Hc|c db w' db' Hc|v a db message db' Hf|]; try apply rows_same.
  - destruct w as [|[|[id app] todo]|id app todo|id app todo|d app|d app|c|[|[id app] todo]|id app todo|r app todo|c|[|app todo]|app todo|v app|v a app|v a|app|app];
      cbn [advance]; unfold try_lock; repeat case_goal; try apply rows_same.
    + unfold start_deployment in *. destruct (db.(deployments) !! id) as [dq|] eqn:Hd; [|done]. destruct (pending _); [|done]. simplify_eq.
      apply rows_alter. intros d' _. by eapply rc_start.
    + destruct (start_attempt_spec now d db) as (_ & _ & _ & m & Hm). match goal with Hp : start_attempt _ _ _ = _ |- _ => rewrite Hp in Hm end.
      cbn [snd] in *. subst. apply rows_same.
    + match goal with Hm : mark_preview _ _ _ = Some _ |- _ => destruct (mark_preview_spec _ _ _ _ _ Hm) as [id ->] end. apply rows_same.
    + apply rows_fmap. intros d. destruct (app_pending app d); [by eapply rc_preview|by eapply rc_refl].
  - by eapply Hclaim.
  - destruct Hc as [c db phase runtime message c' db' _ Hs|c db now c' db' Hs|c db now result_json message _|]; [| | |apply rows_same].
    + unfold Save in Hs. injection Hs as <- <-. apply rows_same.
    + unfold BeginCutover in Hs. inv_ok. match goal with Hi : insert_deployment _ _ = Ok _ |- _ => pose proof (insert_deployment_apart _ _ _ Hi) as Ha; apply insert_deployment_spec in Hi as [Hn ->] end.
      destruct (applications _ !! _) as [a|]; [|done]. inv_ok. injection Hs as <- <-. apply rows_insert; [done|by eapply rc_new|done].
    + apply rows_alter. intros d _. by eapply rc_finish.
  - unfold PreviewFinish in Hf. destruct (negb _); [injection Hf as <-; apply rows_same|]. inv_ok.
    match goal with Hm : deleteApplicationMetadata _ _ = _ |- _ => destruct (deleteApplicationMetadata_spec _ _ _ Hm) as [r ->] end. injection Hf as <-. apply rows_filter.
Qed.

End change.

(** A change that keeps what is written once. *)
Lemma evolves_kept d d' : record_of d' = record_of d → d'.(d_ResolvedSpec) = d.(d_ResolvedSpec) → d'.(d_Attempts) = d.(d_Attempts) →
  d'.(d_ResumeGeneration) = d.(d_ResumeGeneration) → evolves d d'.
Proof. intros H1' H2' H3' H4'. split; [done|congruence|lia|lia]. Qed.

Lemma evolves_change : row_change evolves (λ _, True).
Proof. split; intros; try done; split; try done; cbn; lia. Qed.

Lemma claim_call_rows c (db : DB) w' db' : claim_call c db w' db' → rows_change evolves (λ _, True) db.(deployments) db'.(deployments).
Proof.
  intros Hc. destruct Hc as [c db app winner db' Hs|c db previous failure skip c' db' Hs|c db state message result_json c' db' Hs|c db now status message result_json db' Hs].
  - unfold SetResolved in Hs. destruct (db.(deployments) !! _) as [d|] eqn:Hd; [|done]. destruct (_ && _); [|done]. inv_ok. injection Hs as <- <-.
    apply (rows_alter _ _ evolves_change). intros d' Hd'. rewrite Hd in Hd'. injection Hd' as <-. split; [done| |done|done]. intros spec Hspec. cbn. by rewrite Hspec.
  - unfold BeginRecovery in Hs. inv_ok. destruct a as [[? ?] ?]. destruct (db.(deployments) !! _) as [d|] eqn:Hd; [|done]. destruct (_ && _); [|done]. inv_ok.
    injection Hs as <- <-. apply (rows_alter _ _ evolves_change). intros d' _. by apply evolves_kept.
  - unfold FinishRecovery in Hs. inv_ok. destruct (db.(deployments) !! _) as [d|] eqn:Hd; [|done]. destruct (_ && _); [|done]. inv_ok.
    injection Hs as <- <-. apply (rows_alter _ _ evolves_change). intros d' _. by apply evolves_kept.
  - unfold Finish in Hs. inv_ok. destruct (db.(deployments) !! _) as [d|] eqn:Hd; [|done]. destruct (_ && _); [|done]. inv_ok. injection Hs as <-.
    match goal with |- rows_change _ _ _ (deployments ?x) => assert (x.(deployments) = alter (finish_row now status message result_json) c.(c_Deployment).(d_ID) db.(deployments)) as -> end.
    { by destruct (0 <? _). }
    apply (rows_alter _ _ evolves_change). intros d' _. by apply evolves_kept.
Qed.

Lemma step_rows s s' : step s s' → rows_change evolves (λ _, True) s.(sys_db).(deployments) s'.(sys_db).(deployments).
Proof.
  intros Hs. destruct Hs as [db ws u db' u' Hr|n db ws u w' db' Hs]; [by apply (request_rows _ _ evolves_change u db u' db')|].
  apply (worker_rows _ _ evolves_change n (ws n) db w' db' Hs). intros c _. apply claim_call_rows.
Qed.

Lemma step_evolves s s' id d d' : step s s' → s.(sys_db).(deployments) !! id = Some d → s'.(sys_db).(deployments) !! id = Some d' → evolves d d'.
Proof. intros Hs Hd Hd'. pose proof (step_rows s s' Hs id d' Hd') as Hc. by rewrite Hd in Hc. Qed.

(** What is known of a release from then on. *)
Definition kept (id : string) (d : Deployment) (s : System) : Prop :=
  match s.(sys_db).(deployments) !! id with
  | Some d' => evolves d d' ∧ (d.(d_Status) = Succeeded → d'.(d_Status) = Succeeded)
  | None => gone (queue_of s) id
  end.

Lemma kept_step id d s s' : sys_inv s → unsettled (queue_of s) → step s s' → kept id d s → kept id d s' ∧ unsettled (queue_of s').
Proof.
  intros Hinv Hun Hs Hk. destruct (sys_step_inv s s' Hinv Hs) as [Hinv' [l Hq]]. pose proof (si_queue s Hinv) as Hqi.
  split; [|by eapply unsettled_stable]. unfold kept in *. destruct (s'.(sys_db).(deployments) !! id) as [d2|] eqn:Hd2.
  - destruct (s.(sys_db).(deployments) !! id) as [d1|] eqn:Hd1.
    + destruct Hk as [He Hsu]. split; [etrans; [exact He|by apply (step_evolves s s' id)]|]. intros Hd. specialize (Hsu Hd).
      by apply (succeeded_stays l _ _ id (view_release d1) (view_release d2) Hq Hqi Hun); [apply queue_release| |apply queue_release].
    + destruct (gone_stable l _ _ id Hq Hk) as (_ & Hn & _). rewrite (queue_release s' id d2 Hd2) in Hn. discriminate.
  - assert ((queue_of s').(releases) !! id = None) as Hn by (unfold queue_of, view; cbn [releases]; by rewrite lookup_fmap, Hd2).
    destruct (s.(sys_db).(deployments) !! id) as [d1|] eqn:Hd1; [|by eapply gone_stable].
    eapply removed_gone; [done..|by apply queue_release|done].
Qed.

Lemma kept_run id d s s' : rtc step s s' → sys_inv s → unsettled (queue_of s) → kept id d s → kept id d s'.
Proof.
  induction 1 as [s|s s1 s' Hs _ IH]; [done|]. intros Hinv Hun Hk. destruct (kept_step id d s s1 Hinv Hun Hs Hk) as [Hk1 Hun1].
  apply IH; [|done..]. by eapply sys_step_inv.
Qed.

Lemma fresh_unsettled s : fresh_system s → unsettled (queue_of s).
Proof. intros (_ & _ & Hr & _) id m r. unfold queue_of, view. cbn [maints]. by rewrite Hr, fmap_empty, lookup_empty. Qed.

Lemma run_unsettled s s' : rtc step s s' → sys_inv s → unsettled (queue_of s) → unsettled (queue_of s').
Proof.
  induction 1 as [s|s s1 s' Hs _ IH]; [done|]. intros Hinv Hun. destruct (sys_step_inv s s1 Hinv Hs) as [Hinv1 [l Hq]]. apply IH; [done|].
  eapply unsettled_stable; [exact Hq|apply Hinv|done].
Qed.

(** C13: The history of a release is not rewritten: whatever requests and workers do between
    two moments, a row that is still there has the requester, key, revision and specification
    it was accepted with, the resolved specification once there is one, no fewer attempts
    and generations, and its success. *)
Theorem history_kept s s' id d d' : reachable s → rtc step s s' → s.(sys_db).(deployments) !! id = Some d → s'.(sys_db).(deployments) !! id = Some d' →
  evolves d d' ∧ (d.(d_Status) = Succeeded → d'.(d_Status) = Succeeded).
Proof.
  intros (s0 & Hf & Hrun) Hrun' Hd Hd'. destruct (sys_run_inv s0 s (fresh_inv s0 Hf) Hrun) as [Hinv _].
  pose proof (run_unsettled s0 s Hrun (fresh_inv s0 Hf) (fresh_unsettled s0 Hf)) as Hun.
  assert (kept id d s) as Hk by (unfold kept; by rewrite Hd). pose proof (kept_run id d s s' Hrun' Hinv Hun Hk) as Hk'. unfold kept in Hk'. by rewrite Hd' in Hk'.
Qed.

(** ** Repeated requests *)

(** No two releases have the same caller and idempotency key. *)
Definition keys_unique (m : gmap string Deployment) : Prop :=
  ∀ i j d e, m !! i = Some d → m !! j = Some e → d.(d_IdentityID) = e.(d_IdentityID) → d.(d_IdempotencyKey) = e.(d_IdempotencyKey) → i = j.

Lemma rows_unique m m' : rows_change evolves (λ _, True) m m' → keys_unique m → keys_unique m'.
Proof.
  intros Hc Hu i j d' e' Hi Hj Hid Hkey. pose proof (Hc i d' Hi) as Hci. pose proof (Hc j e' Hj) as Hcj. destruct (decide (i = j)) as [|Hne]; [done|].
  destruct (m !! i) as [d|] eqn:Hd; [destruct (m !! j) as [e|] eqn:He|].
  - destruct Hci as [R _ _ _], Hcj as [R' _ _ _]. unfold record_of in R, R'. apply (Hu i j d e); congruence.
  - destruct Hcj as [_ Ha]. destruct (Ha i d'); [by rewrite lookup_delete_ne|congruence].
  - destruct Hci as [_ Ha]. destruct (Ha j e'); [by rewrite lookup_delete_ne|congruence].
Qed.

Lemma run_unique s s' : rtc step s s' → keys_unique s.(sys_db).(deployments) → keys_unique s'.(sys_db).(deployments).
Proof. induction 1 as [s|s s1 s' Hs _ IH]; [done|]. intros Hu. by eapply IH, rows_unique, Hu; apply step_rows. Qed.

Lemma find_key_unique (db : DB) id d : keys_unique db.(deployments) → db.(deployments) !! id = Some d →
  find_key db d.(d_IdentityID) d.(d_IdempotencyKey) = Some (id, d).
Proof.
  intros Hu Hd. destruct (find_key db _ _) as [[k o]|] eqn:Hf.
  - apply find_row_Some in Hf as [Hl [Hi%String.eqb_eq Hk%String.eqb_eq]%andb_true_iff]. assert (k = id) as -> by by apply (Hu _ _ _ _ Hl Hd). congruence.
  - destruct (find_key_apart db _ _ d Hf eq_refl eq_refl id d Hd). done.
Qed.

(** A release, or else the end of its application. *)
Definition there (id app : string) (s : System) : Prop :=
  match s.(sys_db).(deployments) !! id with Some d => d.(d_ApplicationID) = app | None => app_gone (queue_of s) app end.

Lemma there_run id app d s s' : rtc step s s' → sys_inv s → unsettled (queue_of s) → kept id d s → d.(d_ApplicationID) = app → there id app s → there id app s'.
Proof.
  induction 1 as [s|s s1 s' Hs _ IH]; [done|]. intros Hinv Hun Hk Happ Hth. destruct (kept_step id d s s1 Hinv Hun Hs Hk) as [Hk1 Hun1].
  destruct (sys_step_inv s s1 Hinv Hs) as [Hinv1 [l Hq]]. apply IH; [done..|]. unfold there, kept in *.
  destruct (s1.(sys_db).(deployments) !! id) as [d1|] eqn:Hd1; [destruct Hk1 as [[R _ _ _] _]; unfold record_of in R; congruence|].
  destruct (s.(sys_db).(deployments) !! id) as [d0|] eqn:Hd0; [|by eapply app_gone_stable]. rewrite <-Hth.
  apply (removed_app_gone l _ _ id (view_release d0) Hq (si_queue s Hinv)); [by apply queue_release|].
  unfold queue_of, view. cbn [releases]. by rewrite lookup_fmap, Hd1.
Qed.

(** What an accepted request leaves in the table. *)
Lemma Accept_row now fa fi p project env next expected idem initial rollback seedResolved seed (db : DB) d db' :
  keyed db → Accept now fa fi p project env next expected idem initial rollback seedResolved db = Ok (d, db') → seed_of next seedResolved = Ok seed →
  idempotency_length idem = false ∧ db'.(deployments) !! d.(d_ID) = Some d ∧ d.(d_IdentityID) = p.(p_ID) ∧ d.(d_IdempotencyKey) = idem ∧
  d.(d_RequestHash) = accept_hash project env next expected seed rollback initial.
Proof.
  intros Hkeyed Hacc Hseed. unfold Accept in Hacc. inv_ok. match goal with Hs : seed_of next seedResolved = Ok ?x |- _ => assert (x = seed) as -> by congruence end.
  split; [done|]. destruct (find_key db p.(p_ID) idem) as [[k o]|] eqn:Hf.
  - inv_ok. simplify_eq. apply find_row_Some in Hf as [Hl [Hi%String.eqb_eq Hk%String.eqb_eq]%andb_true_iff].
    rewrite (kd_deployment _ Hkeyed k d Hl). split_and!; [done..|]. symmetry. by apply String.eqb_eq, negb_false_iff.
  - destruct (accept_new_deployments _ _ _ _ _ _ _ _ _ _ _ _ _ _ _ _ Hacc) as (Hn & -> & -> & Hp & Hi & Hh & _). by rewrite lookup_insert_eq.
Qed.

(** C19: Once a request was accepted under an idempotency key, then whatever requests and
    workers do afterwards and whatever became of the release, the same caller gets that
    release, as it is by then, for the same request with that key, and nothing changes;
    another request with that key is refused. The first request drew identifiers that
    were not used before. This holds as long as the release is in the table, which it leaves only with its application. The repeated request is taken
    to pass the checks the code makes before it looks the key up: the caller may still
    deploy there, the trusted revision is valid and [requireActions] agrees. *)
Theorem Accept_once s now fresh_app fresh_id p project env next expected idem initial rollback seedResolved seed d db' later :
  reachable s → fresh_app ∉ s.(sys_used) → fresh_id ∉ s.(sys_used) → fresh_app ≠ fresh_id →
  Accept now fresh_app fresh_id p project env next expected idem initial rollback seedResolved s.(sys_db) = Ok (d, db') → seed_of next seedResolved = Ok seed →
  rtc step (mkSystem db' s.(sys_workers) ({[ fresh_id; fresh_app ]} ∪ s.(sys_used))) later →
  match later.(sys_db).(deployments) !! d.(d_ID) with
  | None => later.(sys_db).(applications) !! d.(d_ApplicationID) = None
  | Some d' => record_of d' = record_of d ∧
    ∀ now2 app2 id2 project2 env2 next2 expected2 initial2 rollback2 seedResolved2 seed2,
      Principal_Allows p "deployments:write" project2 env2 next2.(app_Name) = true → seed_of next2 seedResolved2 = Ok seed2 →
      requireActions later.(sys_db).(rest) project2 env2 next2 = Ok tt →
      Accept now2 app2 id2 p project2 env2 next2 expected2 idem initial2 rollback2 seedResolved2 later.(sys_db) =
        if (accept_hash project2 env2 next2 expected2 seed2 rollback2 initial2 =? accept_hash project env next expected seed rollback initial)%string
        then Ok (d', later.(sys_db)) else Err (conflict "idempotency key reused with different input")
  end.
Proof.
  destruct s as [db ws u]. cbn [sys_db sys_workers sys_used]. intros (s0 & Hf & Hrun) Hfa Hfi Hne Hacc Hseed Hlater. set (s1 := mkSystem db' ws _) in *.
  assert (rtc step s0 s1) as Hrun1.
  { etrans; [exact Hrun|]. by eapply rtc_once, step_request, req_accept. }
  destruct (sys_run_inv s0 _ (fresh_inv s0 Hf) Hrun) as [Hinv0 _]. destruct (sys_run_inv s0 s1 (fresh_inv s0 Hf) Hrun1) as [Hinv1 _].
  pose proof (run_unsettled s0 s1 Hrun1 (fresh_inv s0 Hf) (fresh_unsettled s0 Hf)) as Hun.
  destruct (Accept_row _ _ _ _ _ _ _ _ _ _ _ _ _ _ _ _ (si_keyed _ Hinv0) Hacc Hseed) as (Hlen & Hd & Hp & Hk & Hh).
  assert (kept d.(d_ID) d s1) as Hkept by (unfold kept; cbn [s1 sys_db]; by rewrite Hd).
  assert (there d.(d_ID) d.(d_ApplicationID) s1) as Hth by (unfold there; cbn [s1 sys_db]; by rewrite Hd).
  assert (keys_unique later.(sys_db).(deployments)) as Huniq.
  { eapply run_unique; [etrans; [exact Hrun1|exact Hlater]|]. destruct Hf as [-> _]. intros i j o e Ho. by rewrite lookup_empty in Ho. }
  pose proof (kept_run _ _ _ _ Hlater Hinv1 Hun Hkept) as Hkl. pose proof (there_run _ _ d _ _ Hlater Hinv1 Hun Hkept eq_refl Hth) as Htl.
  unfold kept, there in Hkl, Htl. destruct (later.(sys_db).(deployments) !! d.(d_ID)) as [d'|] eqn:Hd'.
  - destruct Hkl as [[R _ _ _] _]. split; [done|]. intros now2 app2 id2 project2 env2 next2 expected2 initial2 rollback2 seedResolved2 seed2 Hallow Hseed2 Hact.
    unfold record_of in R. injection R as _ _ Ri _ Rk Rh _ _ _ _. pose proof (find_key_unique _ _ _ Huniq Hd') as Hfind. rewrite Ri, Rk, Hp, Hk in Hfind.
    unfold Accept. rewrite Hlen, Hallow, Hseed2. cbn [negb fail_when mbind result_bind]. rewrite Hact. cbn [mbind result_bind]. rewrite Hfind, Rh, Hh.
    by destruct (_ =? _)%string.
  - destruct Htl as [_ Hn]. unfold queue_of, view in Hn. cbn [apps] in Hn. rewrite lookup_fmap in Hn. by destruct (applications _ !! _).
Qed.
End rows.

Import Concrete.
Import TransferExample.
Import DeploymentExample.

(** From the acceptance of the first release to the end of its run. *)
Lemma history_kept_witness : ∃ d d', second.(deployments) !! "dep-1" = Some d ∧ finished.(deployments) !! "dep-1" = Some d' ∧ evolves d d' ∧ d'.(d_Status) = Succeeded.
Proof.
  destruct finished_run as (ws & Hrun). assert (reachable accepted) as Hr by (exists start; split; [apply start_fresh|apply accepted_run]).
  destruct (second.(deployments) !! "dep-1") as [d|] eqn:Hd; [|vm_compute in Hd; discriminate].
  destruct (finished.(deployments) !! "dep-1") as [d'|] eqn:Hd'; [|vm_compute in Hd'; discriminate]. exists d, d'. split_and!; [done|done| |].
  - exact (proj1 (history_kept accepted _ "dep-1" d d' Hr Hrun Hd Hd')).
  - vm_compute in Hd'. by injection Hd' as <-.
Defined.

(** After the release of the first request was claimed and finished: the same request
    again, and another one under the same key. *)
Lemma Accept_once_witness : ∃ d', finished.(deployments) !! "dep-1" = Some d' ∧ d'.(d_Status) = Succeeded ∧
  accept 50 "other" "dep-9" 0 "key-0001" finished = Ok (d', finished) ∧
  accept 50 "other" "dep-9" 1 "key-0001" finished = Err (conflict "idempotency key reused with different input").
Proof.
  destruct (accept 10 "app" "dep-1" 0 "key-0001" empty) as [[d db']|e] eqn:Ha; [|vm_compute in Ha; discriminate].
  assert (db_of empty (accept 10 "app" "dep-1" 0 "key-0001" empty) = first) as Hf by (vm_compute; reflexivity). rewrite Ha in Hf. cbn [db_of] in Hf. subst db'.
  assert (d.(d_ID) = "dep-1") as Hid by (vm_compute in Ha; injection Ha as <-; reflexivity).
  destruct finished_run as (ws & Hrun). assert (rtc step (mkSystem first (λ _, Idle) ({[ "dep-1"; "app" ]} ∪ ∅)) (mkSystem finished ws used_now)) as Hlater
    by (etrans; [exact second_run|exact Hrun]).
  pose proof (Accept_once start 10 "app" "dep-1" ada "demo" "prod" shop 0 "key-0001" None false None None d first (mkSystem finished ws used_now)
    (ex_intro _ start (conj start_fresh (rtc_refl _ _))) (not_elem_of_empty _) (not_elem_of_empty _) ltac:(discriminate) Ha eq_refl Hlater) as Honce.
  cbn [sys_db] in Honce. rewrite Hid in Honce.
  destruct (finished.(deployments) !! "dep-1") as [d'|] eqn:Hd'; [|vm_compute in Hd'; discriminate]. destruct Honce as [_ Honce]. exists d'.
  split; [reflexivity|]. split; [vm_compute in Hd'; injection Hd' as <-; reflexivity|]. split.
  - refine (Honce 50 "other" "dep-9" "demo" "prod" shop 0 None false None None _ _ _); vm_compute; reflexivity.
  - refine (Honce 50 "other" "dep-9" "demo" "prod" shop 1 None false None None _ _ _); vm_compute; reflexivity.
Defined.
