(* ===== verification/DeploymentRun.v ===== *)
(** The protocol of a run: which calls a run of a claimed release makes, in which order and
    on which conditions, whatever it is answered; and that it does not end without having
    finished the release, unless it was kept from it. *)
From S2P Require Import Prelude Protocol GoStd SpecTypes Provider SpecServices SpecStorage SpecNormalize SpecRecovery Platform StoreErrors Principals DeploymentTables DeploymentStore DeploymentWorker.
#[global] Open Scope Z_scope.
Set Default Proof Using "Type".

(** * The protocol *)

Inductive Phase : Type := Preparing | Deployed (ok : bool) | Restored (ok : bool) | Finished.
#[export] Instance Phase_eq_dec : EqDecision Phase.
Proof. solve_decision. Defined.

(** What a run knows: its claim, the resolved specification, the last healthy release, what it deployed, whether its
    context was live when it was looked at after that, whether the last look said that the
    process or the database is gone, and whether it was kept from going on. *)
Record Stage : Type := mkStage {
  sg_Claim : Claim;
  sg_Spec : option Application;
  sg_Previous : option Deployment;
  sg_Phase : Phase;
  sg_Live : bool;
  sg_Stopped : bool;
  sg_Excused : bool;
}.
Definition stage_of (c : Claim) : Stage := mkStage c c.(c_Deployment).(d_ResolvedSpec) None Preparing false false false.

Definition recovery (st : Stage) : string := st.(sg_Claim).(c_Deployment).(d_RecoveryState).

(** The target names the release the claim is for. *)
Definition target_of (c : Claim) (t : Target) : Prop :=
  t.(tg_Project) = c.(c_App).(a_Project) ∧ t.(tg_Environment) = c.(c_App).(a_Environment) ∧ t.(tg_ApplicationID) = c.(c_App).(a_ID) ∧
  t.(tg_OperationID) = c.(c_Deployment).(d_ID) ∧ t.(tg_Revision) = c.(c_Deployment).(d_Revision).

(** A release is deployed once, as it was resolved; its recovery once, as the claim says. *)
Definition may_deploy (st : Stage) (t : Target) : Prop :=
  target_of st.(sg_Claim) t ∧
  (recovery st = EmptyString ∧ st.(sg_Phase) = Preparing ∧ st.(sg_Spec) = Some t.(tg_Spec) ∧ t.(tg_Previous) = st.(sg_Previous) ≫= d_ResolvedSpec ∨
   recovery st = "running" ∧ (st.(sg_Phase) = Preparing ∨ st.(sg_Phase) = Deployed false) ∧
   st.(sg_Claim).(c_Deployment).(d_RecoverySpec) = Some t.(tg_Spec) ∧ t.(tg_Previous) = st.(sg_Spec)).

Definition allowed (st : Stage) (c : Call) : Prop :=
  match c with
  | CallEvent _ _ => True
  | CallSetResolved c _ => c = st.(sg_Claim) ∧ st.(sg_Spec) = None ∧ st.(sg_Phase) = Preparing ∧ st.(sg_Stopped) = false
  | CallDeploy _ t => may_deploy st t ∧ st.(sg_Stopped) = false
  | CallBeginRecovery c previous _ _ => c = st.(sg_Claim) ∧ previous = st.(sg_Previous) ∧ recovery st = EmptyString ∧ st.(sg_Phase) = Deployed false ∧ st.(sg_Live) = true
  | CallFinishRecovery c state _ _ =>
      c = st.(sg_Claim) ∧ recovery st = "running" ∧ st.(sg_Phase) ≠ Finished ∧ st.(sg_Stopped) = false ∧
      (state = "failed" ∨ state = "succeeded" ∧ st.(sg_Phase) = Restored true ∧ st.(sg_Live) = true)
  | CallFinish c status _ _ =>
      c = st.(sg_Claim) ∧ recovery st ≠ "running" ∧ st.(sg_Phase) ≠ Finished ∧ st.(sg_Stopped) = false ∧
      (status = Failed ∨ status = Cancelled ∨ status = Succeeded ∧ st.(sg_Phase) = Deployed true ∧ st.(sg_Live) = true)
  | _ => st.(sg_Phase) ≠ Finished
  end.

(** An inventory of slots the preparation does not accept. *)
Definition bad_slots (app name : string) (slots : list ActionsSlot) : bool :=
  (20 <? lenl slots) || existsb (λ s, negb (s.(as_ApplicationID) =? app)%string || negb (s.(as_Service) =? name)%string) slots.

Definition with_claim (c : Claim) (st : Stage) : Stage := mkStage c st.(sg_Spec) st.(sg_Previous) st.(sg_Phase) st.(sg_Live) st.(sg_Stopped) st.(sg_Excused).
Definition excused (b : bool) (st : Stage) : Stage :=
  mkStage st.(sg_Claim) st.(sg_Spec) st.(sg_Previous) st.(sg_Phase) st.(sg_Live) st.(sg_Stopped) (st.(sg_Excused) || b).
Definition claim_answer (r : result Claim) (st : Stage) : Stage :=
  match r with Ok c => with_claim c st | Err _ => excused true st end.
Definition stopped (cx : Contexts) : bool := negb cx.(cx_Parent) || match cx.(cx_Cause) with Some CauseDatabase => true | _ => false end.

Definition after (st : Stage) (c : Call) : Answer c → Stage :=
  match c return Answer c → Stage with
  | CallExpired => λ b, excused b st
  | CallContexts => λ cx, mkStage st.(sg_Claim) st.(sg_Spec) st.(sg_Previous) st.(sg_Phase) (negb (non_nil cx.(cx_Cause))) (stopped cx) (st.(sg_Excused) || stopped cx)
  | CallCancel _ => λ _, mkStage st.(sg_Claim) st.(sg_Spec) st.(sg_Previous) st.(sg_Phase) false true true
  | CallReauthorize _ _ => λ a, excused (match a with AccessUnknown => true | _ => false end) st
  | CallRuntimeBase _ _ => λ r, excused (negb (is_ok r)) st
  | CallLastHealthy _ _ => λ r,
      match r with
      | Ok previous => mkStage st.(sg_Claim) st.(sg_Spec) previous st.(sg_Phase) st.(sg_Live) st.(sg_Stopped) st.(sg_Excused)
      | Err _ => excused true st
      end
  | CallActionsSlots app name => λ r, excused (match r with Ok slots => bad_slots app name slots | Err _ => true end) st
  | CallDeploy _ _ => λ r,
      let ok := negb (non_nil r.2) in
      mkStage st.(sg_Claim) st.(sg_Spec) st.(sg_Previous) (if is_empty (recovery st) then Deployed ok else Restored ok) false st.(sg_Stopped) st.(sg_Excused)
  | CallSetResolved _ _ => λ r,
      match r with
      | Ok w => mkStage st.(sg_Claim) (Some w) st.(sg_Previous) st.(sg_Phase) st.(sg_Live) st.(sg_Stopped) st.(sg_Excused)
      | Err _ => excused true st
      end
  | CallBeginRecovery _ _ _ _ | CallFinishRecovery _ _ _ _ => λ r, claim_answer r st
  | CallFinish _ _ _ _ => λ _, mkStage st.(sg_Claim) st.(sg_Spec) st.(sg_Previous) Finished st.(sg_Live) st.(sg_Stopped) st.(sg_Excused)
  | CallWithin _ | CallStepEnded | CallDeployment _ | CallCheck _ | CallEvent _ _ | CallResolve _ _ _ => λ _, st
  end.

Definition same_claim (c c' : Claim) : Prop :=
  c'.(c_App) = c.(c_App) ∧ c'.(c_Deployment).(d_ID) = c.(c_Deployment).(d_ID) ∧ c'.(c_Deployment).(d_Revision) = c.(c_Deployment).(d_Revision).

(** What a run counts on: the context of a live run has a live parent, and the store
    answers with the row of the claim it changed. *)
Definition honest (c : Call) : Answer c → Prop :=
  match c return Answer c → Prop with
  | CallContexts => λ cx, cx.(cx_Cause) = None → cx.(cx_Parent) = true
  | CallBeginRecovery c previous _ skip => λ r,
      match r with
      | Ok c' => same_claim c c' ∧ if is_empty skip then c'.(c_Deployment).(d_RecoveryState) = "running" ∧ non_nil c'.(c_Deployment).(d_RecoverySpec) = true
                 else c'.(c_Deployment).(d_RecoveryState) = "skipped"
      | Err _ => True
      end
  | CallFinishRecovery c state _ _ => λ r, match r with Ok c' => same_claim c c' ∧ c'.(c_Deployment).(d_RecoveryState) = state | Err _ => True end
  | _ => λ _, True
  end.

Definition run_protocol : Protocol Answer Stage := mkProtocol allowed after honest.
Abbreviation follows := (obeys run_protocol).

(** Every run ends with the release finished, or was kept from it. *)
Definition settled (st : Stage) : Prop := st.(sg_Phase) = Finished ∨ st.(sg_Excused) = true.
Definition well_formed (c : Claim) : Prop := c.(c_Deployment).(d_RecoveryState) = "running" → non_nil c.(c_Deployment).(d_RecoverySpec) = true.

(** ** Rules *)

Lemma follows_ask c st post : allowed st c → (∀ a, honest c a → post (after st c a) a) → follows st (ask c) post.
Proof. apply (obeys_ask run_protocol). Qed.

Lemma follows_ask_bind {B} c (f : Answer c → Prog B) st post :
  allowed st c → (∀ a, honest c a → follows (after st c a) (f a) post) → follows st (ask c ≫= f) post.
Proof. apply (obeys_ask_bind run_protocol). Qed.

Lemma follows_emit {B} t m (f : unit → Prog B) st post : follows st (f tt) post → follows st (emit t m ≫= f) post.
Proof. intros Hf. unfold emit. apply follows_ask_bind; [done|]. by intros []. Qed.

(** * The parts of a run *)

(** A run is settled in the end, where [P] holds of its claim. *)
Definition ends {A} (P : Prop) : Stage → A → Prop := λ st _, P → settled st.

Lemma excused_true st : settled (excused true st).
Proof. right. cbn. by rewrite orb_true_r. Qed.

Section parts.
Context `{Host} `{ThirdParty} `{Quantity} `{RangeOrder} (Timeout : Z) (rollout : option Z) (P : Prop).
#[local] Abbreviation done := (ends P).

Lemma finish_follows st c status message r : st.(sg_Claim) = c → st.(sg_Phase) ≠ Finished → st.(sg_Stopped) = false →
  (status = Failed ∨ status = Cancelled ∨ status = Succeeded ∧ st.(sg_Phase) = Deployed true ∧ st.(sg_Live) = true ∧ recovery st ≠ "running") →
  follows st (finish c status message r) done.
Proof.
  intros <- Hp Hs Hst. unfold finish. set (failed := negb (bool_decide (status = Succeeded))).
  assert (∀ st', st'.(sg_Phase) = st.(sg_Phase) → st'.(sg_Stopped) = false → st'.(sg_Live) = st.(sg_Live) → recovery st' ≠ "running" →
    follows st' (x ← ask (CallFinish st'.(sg_Claim) status message r);
       match x with Err _ => Return tt | Ok _ => if failed then emit (status_text status) message else Return tt end) done) as Hend.
  { intros st' Hp' Hs' Hl' Hr'. apply follows_ask_bind.
    - cbn. rewrite Hp', Hl'. naive_solver.
    - intros [u|e] _; [|intros _; by left]. destruct failed; [apply follows_ask; [done|]; intros ? _|]; intros _; by left. }
  apply obeys_bind. destruct (_ && failed) eqn:Hrec.
  - apply andb_true_iff in Hrec as [Hrec Hf]. apply String.eqb_eq in Hrec. apply follows_ask; [cbn; naive_solver|].
    intros [c'|e] Hh; [|intros _; apply excused_true]. cbn in Hh. destruct Hh as [_ Hr]. apply (Hend (with_claim c' st)); [done..|]. unfold recovery. cbn. by rewrite Hr.
  - cbn. apply Hend; [done..|]. intros Hr. unfold recovery in Hr. rewrite Hr in Hrec. cbn in Hrec. unfold failed in Hrec.
    destruct Hst as [->|[->|(-> & _ & _ & Hn)]]; try discriminate. done.
Qed.

Lemma handleFailure_follows st c err r : st.(sg_Claim) = c → st.(sg_Phase) ≠ Finished → follows st (handleFailure c err r) done.
Proof.
  intros Hc Hp. unfold handleFailure. apply follows_ask_bind; [done|]. intros [live cause] _. cbn [cx_Parent cx_Cause].
  destruct live; [|intros _; right; cbn; by rewrite orb_true_r].
  destruct cause as [[]|]; [| |intros _; right; cbn; by rewrite orb_true_r| |]; (apply finish_follows; [done..|tauto]).
Qed.

Lemma finish_recovered_follows st c : st.(sg_Claim) = c → st.(sg_Phase) ≠ Finished → st.(sg_Stopped) = false → follows st (finish_recovered c) done.
Proof. intros Hc Hp Hs. apply finish_follows; [done..|by left]. Qed.

Lemma recoverRelease_follows st c target : st.(sg_Claim) = c → st.(sg_Stopped) = false → st.(sg_Phase) = Preparing ∨ st.(sg_Phase) = Deployed false →
  target_of c target → st.(sg_Spec) = Some target.(tg_Spec) → (P → well_formed c) → follows st (recoverRelease Timeout rollout c target) done.
Proof.
  intros <- Hs Hp Ht Hspec Hwf. unfold recoverRelease. destruct (_ =? "running")%string eqn:Hr; cbn [negb].
  2: { apply finish_recovered_follows; [done| |done]. destruct Hp as [-> | ->]; done. }
  apply String.eqb_eq in Hr. destruct (d_RecoverySpec _) as [spec|] eqn:Hsp; [|intros HP; specialize (Hwf HP Hr); by rewrite Hsp in Hwf].
  apply follows_emit, follows_ask_bind.
  { split; [|done]. split; [done|]. right. cbn. naive_solver. }
  intros [report err] _. cbn [fst snd]. assert (is_empty (recovery st) = false) as Hne by (unfold recovery; by rewrite Hr).
  apply follows_ask_bind; [cbn; by rewrite Hne|]. intros [live cause] Hh. cbn [cx_Cause]. destruct cause as [cause|].
  { apply handleFailure_follows; [done|]. cbn. by rewrite Hne. }
  specialize (Hh eq_refl). cbn in Hh. subst live. cbn [after sg_Claim sg_Spec sg_Previous sg_Phase sg_Stopped sg_Excused non_nil negb]. rewrite Hne.
  destruct err as [err|]; (apply follows_ask_bind; [cbn; rewrite ?orb_false_r; naive_solver|]); intros [c'|e] Hh; try (intros _; apply excused_true);
    cbn in Hh; destruct Hh as [_ Hr']; apply follows_emit, finish_recovered_follows; done.
Qed.

Lemma slots_allowance_ok app name slots allowance e : slots_allowance app name slots allowance = Err e → bad_slots app name slots = true.
Proof.
  intros He. unfold bad_slots. apply orb_true_iff. right. revert allowance He. induction slots as [|s slots IH]; intros allowance; cbn [slots_allowance existsb]; [done|].
  destruct (_ || _); [done|]. cbn [orb]. destruct (actionsDrainLifetime _); [|done]. apply IH.
Qed.

(** The preparation only reads. *)
Definition reads (st st' : Stage) : Prop :=
  st'.(sg_Claim) = st.(sg_Claim) ∧ st'.(sg_Spec) = st.(sg_Spec) ∧ st'.(sg_Phase) = st.(sg_Phase) ∧ st'.(sg_Stopped) = st.(sg_Stopped).
#[export] Instance reads_preorder : PreOrder reads.
Proof. split; [by intros st|]. intros a b c (? & ? & ? & ?) (? & ? & ? & ?). split_and!; congruence. Qed.

Lemma pools_follows app services names allowance st : st.(sg_Phase) ≠ Finished →
  follows st (pools_allowance app services names allowance) (λ st' r, reads st st' ∧ (is_ok r = false → sg_Excused st' = true)).
Proof.
  revert allowance st. induction names as [|name names IH]; intros allowance st Hp; cbn [pools_allowance]; [done|].
  destruct (actionsDrainLifetime _) as [lifetime|]; [|done]. apply follows_ask_bind; [done|]. intros [slots|e] _; [|split; [done|by rewrite <-(orb_true_r (sg_Excused st))]].
  destruct (20 <? _) eqn:Hn.
  { split; [done|]. intros _. cbn. unfold bad_slots. by rewrite Hn, orb_true_r. }
  destruct (slots_allowance _ _ _ _) as [[allowance'|]|e] eqn:Hs; [|done|].
  - eapply obeys_mono; [|apply IH; done]. intros st' r [Hr He]. done.
  - split; [done|]. intros _. cbn. rewrite (slots_allowance_ok _ _ _ _ _ Hs). apply orb_true_r.
Qed.

Lemma drain_follows d st : st.(sg_Phase) ≠ Finished →
  follows st (actionsDrainAllowance d) (λ st' r, reads st st' ∧ (is_ok r = false → sg_Excused st' = true)).
Proof.
  intros Hp. unfold actionsDrainAllowance. destruct (negb _); [done|]. apply follows_ask_bind; [done|]. intros [[base|]|e] _.
  - eapply obeys_mono; [|by apply pools_follows]. intros st' r [Hr He]. done.
  - done.
  - split; [done|]. intros _. cbn. apply orb_true_r.
Qed.

Lemma prepare_follows base c st : st.(sg_Claim) = c → st.(sg_Phase) = Preparing → st.(sg_Stopped) = false →
  follows st (prepare base c) (λ st' r, match r with Some _ => reads st st' | None => P → settled st' end).
Proof.
  intros Hc Hp Hs. unfold prepare. destruct (negb _); [done|]. apply follows_ask_bind; [cbn; by rewrite Hp|]. intros ? _. cbn [after].
  apply follows_ask_bind; [cbn; by rewrite Hp|]. intros [] _; [| |intros _; apply excused_true].
  - apply obeys_bind. eapply obeys_mono; [|apply drain_follows; cbn; by rewrite Hp]. intros st1 r [Hr He]. cbn beta.
    assert (sg_Phase st1 = Preparing) as Hp1 by (destruct Hr as (_ & _ & -> & _); done).
    apply follows_ask_bind; [cbn; by rewrite Hp1|]. intros expired _. destruct r as [allowance|e].
    + destruct expired; [intros _; apply excused_true|]. cbn. by destruct Hr as (? & ? & ? & ?).
    + intros _. right. cbn. by rewrite He.
  - apply obeys_bind. eapply obeys_mono; [|apply finish_follows; cbn; [done|by rewrite Hp|done|tauto]]. intros st' u Hd. exact Hd.
Qed.

Lemma resolve_follows c st : st.(sg_Claim) = c → st.(sg_Phase) = Preparing → st.(sg_Stopped) = false → st.(sg_Spec) = c.(c_Deployment).(d_ResolvedSpec) →
  follows st (resolve c) (λ st' r, match r with
    | Some spec => st'.(sg_Claim) = c ∧ st'.(sg_Previous) = st.(sg_Previous) ∧ st'.(sg_Phase) = Preparing ∧ st'.(sg_Stopped) = false ∧ st'.(sg_Spec) = Some spec
    | None => P → settled st' end).
Proof.
  intros Hc Hp Hs Hspec. unfold resolve. destruct (d_ResolvedSpec _) as [spec|] eqn:Hd; [done|]. apply follows_ask_bind; [cbn; by rewrite Hp|].
  intros [app|err] _.
  - apply follows_ask_bind; [done|]. intros [winner|e] _.
    + by apply follows_emit.
    + apply follows_ask_bind; [cbn; by rewrite Hp|]. intros ? _ _. by right.
  - apply obeys_bind. eapply obeys_mono; [|apply handleFailure_follows; cbn; [done|by rewrite Hp]]. intros st' u Hd'. exact Hd'.
Qed.

Lemma conclude_follows st c previous target report err : st.(sg_Claim) = c → st.(sg_Previous) = previous → recovery st = EmptyString → st.(sg_Phase) = Deployed (negb (non_nil err)) →
  st.(sg_Stopped) = false → st.(sg_Spec) = Some target.(tg_Spec) → target_of c target → follows st (conclude Timeout rollout c previous target report err) done.
Proof.
  intros Hc Hprev Hr Hp Hs Hspec Ht. unfold conclude. destruct err as [err|]; cbn [non_nil negb] in Hp.
  - apply follows_ask_bind; [cbn; by rewrite Hp|]. intros [live cause] Hh. cbn [cx_Cause]. destruct cause as [cause|]; cbn [non_nil].
    { apply handleFailure_follows; cbn; [done|by rewrite Hp]. }
    specialize (Hh eq_refl). cbn in Hh. subst live. set (st1 := after _ _ _).
    assert (sg_Claim st1 = c ∧ sg_Phase st1 = Deployed false ∧ sg_Stopped st1 = false ∧ recovery st1 = EmptyString ∧ sg_Live st1 = true) as (Hc1 & Hp1 & Hs1 & Hr1 & Hl1)
      by (split_and!; done).
    apply follows_emit. destruct (de_NotApplied err); [|destruct (0 <? _)].
    1, 2: apply follows_emit, finish_follows; [done|by rewrite Hp1|done|tauto].
    apply follows_ask_bind; [done|]. intros [c'|e] Hh.
    2: { apply follows_ask; [intros Hf; change (sg_Phase st1 = Finished) in Hf; congruence|]. intros ? _ _. by right. }
    cbn in Hh. destruct Hh as [[Ha [Hi Hv]] Hst]. destruct (is_empty _) eqn:He; cbn [negb].
    + destruct Hst as [Hst Hsp]. apply recoverRelease_follows; [done|done|by right| |done|by intros _ _].
      unfold target_of in *. rewrite Ha, Hi, Hv. done.
    + apply follows_emit, finish_follows; [done|cbn; by rewrite Hp|done|tauto].
  - apply follows_emit, follows_ask_bind; [cbn; by rewrite Hp|]. intros [live cause] Hh. cbn [cx_Cause]. destruct cause as [cause|].
    { apply handleFailure_follows; cbn; [done|by rewrite Hp]. }
    specialize (Hh eq_refl). cbn in Hh. subst live. apply finish_follows; [done|cbn; by rewrite Hp|done|].
    right; right. split_and!; [done|done|done|]. unfold recovery in *. cbn. by rewrite Hr.
Qed.

Lemma reconcile_follows deploy drain c previous st : st.(sg_Claim) = c → st.(sg_Previous) = previous → st.(sg_Phase) = Preparing → st.(sg_Stopped) = false →
  st.(sg_Spec) = c.(c_Deployment).(d_ResolvedSpec) → (P → well_formed c) → follows st (reconcile Timeout rollout deploy drain c previous) done.
Proof.
  intros Hc Hprev Hp Hs Hspec Hwf. unfold reconcile. apply follows_ask_bind; [cbn; by rewrite Hp|]. intros [] _; [| |intros _; apply excused_true].
  2: { apply finish_follows; cbn; [done|by rewrite Hp|done|tauto]. }
  destruct (d_CancelRequested _).
  { apply finish_follows; cbn; [done|by rewrite Hp|done|tauto]. }
  apply follows_emit, obeys_bind. eapply obeys_mono; [|by apply resolve_follows]. intros st1 [spec|] Hst1; [|done].
  destruct Hst1 as (Hc1 & Hprev1 & Hp1 & Hs1 & Hspec1). change (sg_Previous st1 = sg_Previous st) in Hprev1. rewrite Hprev in Hprev1. set (target := mkTarget _ _ _ _ _ _ _ _). assert (target_of c target) as Ht by done.
  destruct (is_empty _) eqn:He; cbn [negb].
  - apply is_empty_true in He. assert (recovery st1 = EmptyString) as Hr1 by (unfold recovery; by rewrite Hc1). apply follows_ask_bind.
    { split; [|done]. split; [by rewrite Hc1|]. left. split_and!; [done..|]. cbn. by rewrite Hprev1. }
    intros [report err] _. apply conclude_follows; cbn; rewrite ?Hr1, ?Hprev1; done.
  - apply recoverRelease_follows; [done|done|by left|done..].
Qed.

Lemma run_keeps c : (P → well_formed c) → follows (stage_of c) (run Timeout rollout c) done.
Proof.
  intros Hwf. unfold run. apply obeys_bind. eapply obeys_mono; [|by apply (prepare_follows _ c)]. intros st1 [drain|] Hst1; [|done].
  destruct Hst1 as (Hc1 & Hspec1 & Hp1 & Hs1). cbn in Hc1, Hspec1, Hp1, Hs1. apply follows_ask_bind; [cbn; by rewrite Hp1|]. intros ? _. cbn [after].
  apply follows_ask_bind; [cbn; by rewrite Hp1|]. intros [previous|e] _; (apply follows_ask_bind; [cbn; by rewrite Hp1|]); intros expired _.
  2: { intros _. right. cbn. by rewrite orb_true_r. }
  destruct expired; [intros _; apply excused_true|]. apply follows_ask_bind; [cbn; by rewrite Hp1|]. intros ? _. by apply reconcile_follows.
Qed.
End parts.

(** C5: A run keeps the protocol, whatever its calls are answered: it deploys what the release
    was resolved to, at most once, and only after a failure the specification its claim
    recovers to, at most once; it finishes the release once, as succeeded only after a
    deployment without an error and with a live context; it writes nothing once it saw that
    the process or the database was gone; and it does not return before it asked to finish
    the release, unless a call failed or its time was over. *)
Theorem run_follows `{Host} `{ThirdParty} `{Quantity} `{RangeOrder} Timeout rollout c :
  follows (stage_of c) (run Timeout rollout c) (λ st _, well_formed c → settled st).
Proof. by apply run_keeps. Qed.
