(* ===== verification/DeploymentDrive.v ===== *)
(** Workers that run their claims against the store: the calls of [run] are answered by the
    tables, between any steps of requests and of other workers, and any call may be lost,
    before or after it took effect. What was sent to the cluster is kept, and what the
    tables promised of it holds: all runs of a release deploy one resolved specification,
    and a recovery restores the one of an earlier release that succeeded. *)
From stdpp Require Import functions.
From S2P Require Import Prelude Protocol GoStd SpecTypes Platform SpecWorkloads SpecNormalize SpecTransfer SpecRecovery StoreErrors Principals DeploymentTables DeploymentStore DeploymentWorker DeploymentQueue DeploymentSteps DeploymentExample DeploymentRefine DeploymentSafety DeploymentHistory DeploymentRun.
#[global] Open Scope Z_scope.
Set Default Proof Using "Type".

Section drive.
Context `{Host} `{ThirdParty} `{Quantity} `{RangeOrder} `{Digest} `{Others}.
Context (Timeout : Z) (rollout : option Z) (encode : RunResult → string).
#[local] Abbreviation DB := (Database Rest).

(** * Answers *)

(** A call that reads, or that is lost and changes nothing. *)
Definition read_answer (db : DB) (c : Call) : Answer c → Prop :=
  match c return Answer c → Prop with
  | CallLastHealthy app before => λ r, r = Ok (LastHealthyRelease app before db) ∨ is_ok r = false
  | CallDeployment id => λ r, match r with Ok d => db.(deployments) !! id = Some d | Err _ => True end
  | CallSetResolved _ _ | CallBeginRecovery _ _ _ _ | CallFinishRecovery _ _ _ _ | CallFinish _ _ _ _ => λ r, is_ok r = false
  | CallContexts => honest CallContexts
  | _ => λ _, True
  end.

(** What a call that writes does to the worker and the tables; a change that is made may be
    answered with an error. *)
Inductive answered : Worker → DB → ∀ c : Call, Answer c → Worker → DB → Prop :=
  | answer_SetResolved c db app winner db' a :
      SetResolved c app db = Ok (winner, db') → a = Ok winner ∨ is_ok a = false →
      answered (Holding c) db (CallSetResolved c app) a (Holding c) db'
  | answer_BeginRecovery c db previous failure skip c' db' a :
      BeginRecovery c previous failure skip db = Ok (c', db') → a = Ok c' ∨ is_ok a = false →
      answered (Holding c) db (CallBeginRecovery c previous failure skip) a (Holding c') db'
  | answer_FinishRecovery c db state message r c' db' a :
      FinishRecovery c state message (encode r) db = Ok (c', db') → a = Ok c' ∨ is_ok a = false →
      answered (Holding c) db (CallFinishRecovery c state message r) a (Holding c') db'
  | answer_Finish c db now status message r db' a :
      Finish now c status message (encode r) db = Ok (tt, db') →
      answered (Holding c) db (CallFinish c status message r) a (Done c.(c_App).(a_ID)) db'.

(** * The system with its programs *)

(** [rn_Deployed] and [rn_Restored]: what was sent to the cluster, by deployment. [rn_Lost]:
    the runs whose session ended, and with it their locks, while they go on; nothing they
    write takes effect any more. *)
Record Runs : Type := mkRuns {
  rn_Sys : System;
  rn_Progs : nat → Prog unit;
  rn_Deployed : list (string * Application);
  rn_Restored : list (string * Application);
  rn_Lost : list (Claim * Prog unit);
}.

Definition deployment_call (w : Worker) (c : Call) : option (bool * string * Application) :=
  match w, c with
  | Holding cl, CallDeploy _ t => Some (is_empty cl.(c_Deployment).(d_RecoveryState), t.(tg_OperationID), t.(tg_Spec))
  | _, _ => None
  end.
Definition sent (recovering : bool) (w : Worker) (c : Call) (log : list (string * Application)) : list (string * Application) :=
  match deployment_call w c with
  | Some (first, id, spec) => if bool_decide (first = recovering) then log else (id, spec) :: log
  | None => log
  end.

Definition runs_claim (w : Worker) : Prop := match w with Holding _ | Done _ => True | _ => False end.
Definition begun (w : Worker) (p : Prog unit) : Prog unit := match w with Holding c => run Timeout rollout c | Idle => Return tt | _ => p end.

Inductive run_step : Runs → Runs → Prop :=
  | run_request db ws u progs log log' lost db' u' : request u db u' db' →
      run_step (mkRuns (mkSystem db ws u) progs log log' lost) (mkRuns (mkSystem db' ws u') progs log log' lost)
  | run_other n db ws u progs log log' lost w' db' : (∀ c, ws n ≠ Holding c) → worker_step n (ws n) db w' db' →
      run_step (mkRuns (mkSystem db ws u) progs log log' lost) (mkRuns (mkSystem db' (<[ n := w' ]> ws) u) (<[ n := begun w' (progs n) ]> progs) log log' lost)
  | run_read n c k a db ws u progs log log' lost : progs n = Ask c k → runs_claim (ws n) → read_answer db c a →
      run_step (mkRuns (mkSystem db ws u) progs log log' lost)
        (mkRuns (mkSystem db ws u) (<[ n := k a ]> progs) (sent false (ws n) c log) (sent true (ws n) c log') lost)
  | run_write n c k a db ws u progs log log' lost w' db' : progs n = Ask c k → answered (ws n) db c a w' db' →
      run_step (mkRuns (mkSystem db ws u) progs log log' lost) (mkRuns (mkSystem db' (<[ n := w' ]> ws) u) (<[ n := k a ]> progs) log log' lost)
  | run_release n db ws u progs log log' lost :
      run_step (mkRuns (mkSystem db ws u) progs log log' lost) (mkRuns (mkSystem (unlock_all n db) (<[ n := Idle ]> ws) u) (<[ n := Return tt ]> progs) log log' lost)
  | run_lost n c db ws u progs log log' lost : ws n = Holding c →
      run_step (mkRuns (mkSystem db ws u) progs log log' lost)
        (mkRuns (mkSystem (unlock_all n db) (<[ n := Idle ]> ws) u) (<[ n := Return tt ]> progs) log log' ((c, progs n) :: lost))
  | run_orphan cl c k a s progs log log' l1 l2 : read_answer s.(sys_db) c a →
      run_step (mkRuns s progs log log' (l1 ++ (cl, Ask c k) :: l2))
        (mkRuns s progs (sent false (Holding cl) c log) (sent true (Holding cl) c log') (l1 ++ (cl, k a) :: l2)).

Definition fresh_runs (g : Runs) : Prop := fresh_system g.(rn_Sys) ∧ (∀ n, g.(rn_Progs) n = Return tt) ∧ g.(rn_Deployed) = [] ∧ g.(rn_Restored) = [] ∧ g.(rn_Lost) = [].
Definition driven (g : Runs) : Prop := ∃ g0, fresh_runs g0 ∧ rtc run_step g0 g.

(** * Every step is one of the store *)

(** The row of a claim is the row it was read from. *)
Definition own_row (c : Claim) (db : DB) : Prop :=
  ∀ d, db.(deployments) !! c.(c_Deployment).(d_ID) = Some d → d.(d_ID) = c.(c_Deployment).(d_ID) ∧ d.(d_ApplicationID) = c.(c_Deployment).(d_ApplicationID) ∧
    d.(d_Revision) = c.(c_Deployment).(d_Revision).

Lemma BeginRecovery_spec c previous failure skip (db : DB) c' db' : BeginRecovery c previous failure skip db = Ok (c', db') →
  ∃ d state revision spec, db.(deployments) !! c.(c_Deployment).(d_ID) = Some d ∧ c' = mkClaim (begin_recovery_row state revision spec skip failure d) c.(c_App) ∧
    db' = update_deployment c.(c_Deployment).(d_ID) (begin_recovery_row state revision spec skip failure) db ∧
    if is_empty skip then state = "running" ∧ ∃ prev, previous = Some prev ∧ prev.(d_ApplicationID) = c.(c_Deployment).(d_ApplicationID) ∧
      prev.(d_Revision) < c.(c_Deployment).(d_Revision) ∧ prev.(d_Status) = Succeeded ∧ spec = prev.(d_ResolvedSpec) ∧ non_nil spec = true
    else state = "skipped".
Proof.
  unfold BeginRecovery. intros Hb. destruct (is_empty skip) eqn:Hs; cbn [negb] in Hb.
  - destruct previous as [prev|]; [|done]. inv_ok. destruct (deployments db !! _) as [d|] eqn:Hd; [|done]. destruct (_ && _); [|done]. injection Hb as <- <-.
    exists d, "running", prev.(d_Revision), prev.(d_ResolvedSpec). split_and!; [done..|].
    repeat match goal with Hx : _ || _ = false |- _ => apply orb_false_iff in Hx as [? ?] | Hx : negb _ = false |- _ => apply negb_false_iff in Hx end.
    exists prev. split_and!; [done|by apply String.eqb_eq|by apply Z.leb_gt| |done|done].
    by match goal with Hx : bool_decide _ = true |- _ => apply bool_decide_eq_true in Hx end.
  - inv_ok. destruct (deployments db !! _) as [d|] eqn:Hd; [|done]. destruct (_ && _); [|done]. injection Hb as <- <-. by exists d, "skipped", 0, None.
Qed.

Lemma FinishRecovery_spec c state message result_json (db : DB) c' db' : FinishRecovery c state message result_json db = Ok (c', db') →
  ∃ d, let row := λ d, set_d_Result result_json (set_d_RecoveryError message (set_d_RecoveryState state d)) in
    db.(deployments) !! c.(c_Deployment).(d_ID) = Some d ∧ c' = mkClaim (row d) c.(c_App) ∧ db' = update_deployment c.(c_Deployment).(d_ID) row db ∧
    (state = "succeeded" ∨ state = "failed").
Proof.
  unfold FinishRecovery. intros Hb. inv_ok. destruct (deployments db !! _) as [d|] eqn:Hd; [|done]. destruct (_ && _); [|done]. injection Hb as <- <-.
  exists d. split_and!; [done..|]. match goal with Hx : negb (one_of _ _) = false |- _ => apply negb_false_iff in Hx; unfold one_of in Hx; cbn [existsb] in Hx end.
  rewrite !orb_true_iff, !String.eqb_eq in *. naive_solver.
Qed.

Lemma read_honest (db : DB) c a : read_answer db c a → honest c a.
Proof. by destruct c, a. Qed.

Lemma answered_honest w db c a w' db' : (∀ cl, w = Holding cl → own_row cl db) → answered w db c a w' db' → honest c a.
Proof.
  intros Hown Ha. destruct Ha as [c db app winner db' a _ _|c db previous failure skip c' db' a Hb Ha|c db state message r c' db' a Hf Ha|]; try done.
  - destruct Ha as [->|Ha]; [|by destruct a]. destruct (BeginRecovery_spec _ _ _ _ _ _ _ Hb) as (d & state & rev & spec & Hd & -> & _ & Hs).
    destruct (Hown c eq_refl d Hd) as (Hi & _ & Hv). split; [done|]. cbn. destruct (is_empty skip); [|done].
    destruct Hs as (-> & prev & _ & _ & _ & _ & _ & Hn). done.
  - destruct Ha as [->|Ha]; [|by destruct a]. destruct (FinishRecovery_spec _ _ _ _ _ _ _ Hf) as (d & Hd & -> & _).
    destruct (Hown c eq_refl d Hd) as (Hi & _ & Hv). done.
Qed.

Lemma answered_step n w db c a w' db' : answered w db c a w' db' → worker_step n w db w' db'.
Proof.
  intros Ha. destruct Ha as [c db app winner db' a Hs _|c db previous failure skip c' db' a Hb _|c db state message r c' db' a Hf _|c db now status message r db' a Hf];
    apply work_claim; [by eapply call_SetResolved|by eapply call_BeginRecovery|by eapply call_FinishRecovery|by eapply call_Finish].
Qed.

(** A step is one of the store, or leaves it as it is. *)
Lemma run_step_store g g' : run_step g g' → step g.(rn_Sys) g'.(rn_Sys) ∨ g'.(rn_Sys) = g.(rn_Sys).
Proof.
  intros Hs. destruct Hs as [db ws u progs log log' lost db' u' Hr|n db ws u progs log log' lost w' db' _ Hw|n c k a db ws u progs log log' lost _ _ _|
    n c k a db ws u progs log log' lost w' db' _ Ha|n db ws u progs log log' lost|n c db ws u progs log log' lost _|]; cbn; [left; by constructor..|by right| | | |by right].
  - left. constructor. by eapply answered_step.
  - left. apply step_worker, work_release.
  - left. apply step_worker, work_release.
Qed.

(** * What stays true of a release *)

Definition good (s : System) : Prop := sys_inv s ∧ unsettled (queue_of s).

Lemma good_step s s' : good s → step s s' → good s'.
Proof. intros [Hi Hu] Hs. destruct (sys_step_inv s s' Hi Hs) as [Hi' [l Hq]]. split; [done|]. eapply unsettled_stable; [exact Hq|apply Hi|done]. Qed.

(** [F] of the row of a release, as long as there is one. *)
Definition anchored (s : System) (id : string) (F : Deployment → Prop) : Prop :=
  match s.(sys_db).(deployments) !! id with Some d => F d | None => gone (queue_of s) id end.

Lemma row_None s id : s.(sys_db).(deployments) !! id = None → (queue_of s).(releases) !! id = None.
Proof. intros Hn. unfold queue_of, view. cbn [releases]. by rewrite lookup_fmap, Hn. Qed.

Lemma anchored_step s s' id F F' : good s → step s s' → anchored s id F →
  (∀ d d', s.(sys_db).(deployments) !! id = Some d → s'.(sys_db).(deployments) !! id = Some d' → evolves d d' → F d → F' d') → anchored s' id F'.
Proof.
  intros [Hi Hu] Hs Ha HF. destruct (sys_step_inv s s' Hi Hs) as [_ [l Hq]]. unfold anchored in *.
  destruct (s.(sys_db).(deployments) !! id) as [d|] eqn:Hd, (s'.(sys_db).(deployments) !! id) as [d'|] eqn:Hd'.
  - apply (HF d); [done..|by apply (step_evolves s s' id)|done].
  - eapply removed_gone; [exact Hq|apply Hi|by apply queue_release|by apply row_None].
  - destruct (gone_stable l _ _ id Hq Ha) as (_ & Hn & _). by rewrite (queue_release s' id d' Hd') in Hn.
  - by eapply gone_stable.
Qed.

(** A release of the application succeeded with that specification. *)
Definition witnessed (app : string) (rev : Z) (spec : Application) (s : System) : Prop :=
  ∃ id d, s.(sys_db).(deployments) !! id = Some d ∧ d.(d_ApplicationID) = app ∧ d.(d_Revision) = rev ∧ d.(d_Status) = Succeeded ∧ d.(d_ResolvedSpec) = Some spec.
Definition source (d : Deployment) (spec : Application) (s : System) : Prop := ∃ rev, rev < d.(d_Revision) ∧ witnessed d.(d_ApplicationID) rev spec s.

Lemma removed_together l q q' i r : qstep l q q' → q.(releases) !! i = Some r → q'.(releases) !! i = None → ∀ j r', q'.(releases) !! j = Some r' → r'.(r_App) ≠ r.(r_App).
Proof.
  intros Hs Hr Hn.
  destruct Hs as [q u Hu'|q k app' rev' u Hi Hu' _ _ Happ|q k r0 h Hr0 Hf Ha _|q k app' rev' h u Hi Hu' _ _ _|q k r0 Hr0 Hp _ _|q k r0 s a h Hr0 Hrun _ Ht _ _|q app'|q app'|
    q k m to Hm' Hnext _|q k m h Hm' Hph Ha|q k m r0 a ok Hm' Hph Hr0 Ha]; cbn [releases] in *;
    try congruence; try (apply lookup_insert_None in Hn as [Hn _]; congruence).
  - by rewrite lookup_fmap, Hr in Hn.
  - intros j r' [_ Ha]%map_lookup_filter_Some. cbn in Ha. apply map_lookup_filter_None in Hn as [Hn|Hn]; [congruence|]. specialize (Hn r Hr). cbn in Hn.
    destruct (decide (r.(r_App) = app')) as [->|Hne]; [done|by destruct Hn].
Qed.

Lemma witnessed_step s s' app rev spec id d : good s → step s s' → witnessed app rev spec s → s'.(sys_db).(deployments) !! id = Some d → d.(d_ApplicationID) = app →
  witnessed app rev spec s'.
Proof.
  intros [Hi Hu] Hs (pid & p & Hp & Hpa & Hpr & Hps & Hpx) Hd Ha. destruct (sys_step_inv s s' Hi Hs) as [_ [l Hq]].
  destruct (s'.(sys_db).(deployments) !! pid) as [p'|] eqn:Hp'.
  - exists pid, p'. destruct (step_evolves s s' pid p p' Hs Hp Hp') as [Hrec Hres _ _]. injection Hrec as _ Happ _ _ _ _ Hrev _ _ _.
    split_and!; [done|congruence|congruence| |by apply Hres].
    by apply (succeeded_stays l _ _ pid (view_release p) (view_release p') Hq (si_queue s Hi) Hu); [apply queue_release| |apply queue_release].
  - destruct (removed_together l _ _ pid (view_release p) Hq (queue_release s pid p Hp) (row_None s' pid Hp') id (view_release d)); [by apply queue_release|].
    cbn. congruence.
Qed.

Lemma source_step s s' d id d' spec : good s → step s s' → source d spec s → s'.(sys_db).(deployments) !! id = Some d' →
  d'.(d_ApplicationID) = d.(d_ApplicationID) → d'.(d_Revision) = d.(d_Revision) → source d' spec s'.
Proof.
  intros Hg Hs (rev & Hlt & Hw) Hd' Ha Hr. exists rev. rewrite Ha, Hr. split; [done|]. by eapply witnessed_step.
Qed.

Definition fixed (id : string) (spec : Application) (s : System) : Prop := anchored s id (λ d, d.(d_ResolvedSpec) = Some spec).
Definition ident (d0 : Deployment) (s : System) : Prop :=
  anchored s d0.(d_ID) (λ d, d.(d_ID) = d0.(d_ID) ∧ d.(d_ApplicationID) = d0.(d_ApplicationID) ∧ d.(d_Revision) = d0.(d_Revision)).
Definition backed (id : string) (spec : Application) (s : System) : Prop := anchored s id (λ d, source d spec s).
(** The last healthy release a run read is there as long as its own. *)
Definition mates (id : string) (p : Deployment) (s : System) : Prop :=
  anchored s id (λ d, d.(d_ApplicationID) = p.(d_ApplicationID) → ∀ spec, p.(d_ResolvedSpec) = Some spec → witnessed p.(d_ApplicationID) p.(d_Revision) spec s).
(** A row that is being recovered is recovered to what succeeded. *)
Definition restorable (s : System) : Prop :=
  ∀ id d spec, s.(sys_db).(deployments) !! id = Some d → d.(d_RecoveryState) = "running" → d.(d_RecoverySpec) = Some spec → source d spec s.

Lemma evolves_ident d d' : evolves d d' → d'.(d_ID) = d.(d_ID) ∧ d'.(d_ApplicationID) = d.(d_ApplicationID) ∧ d'.(d_Revision) = d.(d_Revision).
Proof. intros [Hrec _ _ _]. injection Hrec. intros. by split_and!. Qed.

Section stable.
Context (s s' : System) (Hg : good s) (Hs : step s s').

Lemma fixed_step id spec : fixed id spec s → fixed id spec s'.
Proof using Hg Hs. intros Hf. eapply anchored_step; [done..|]. intros d d' _ _ He. apply (ev_resolved d d' He). Qed.

Lemma ident_step d0 : ident d0 s → ident d0 s'.
Proof using Hg Hs. intros Hf. eapply anchored_step; [done..|]. intros d d' _ _ He (Hi & Ha & Hr). destruct (evolves_ident d d' He) as (Hi' & Ha' & Hr'). split_and!; congruence. Qed.

Lemma backed_step id spec : backed id spec s → backed id spec s'.
Proof using Hg Hs.
  intros Hf. eapply anchored_step; [done..|]. intros d d' _ Hd' He Hsrc. destruct (evolves_ident d d' He) as (_ & Ha' & Hr'). exact (source_step s s' d id d' spec Hg Hs Hsrc Hd' Ha' Hr').
Qed.

Lemma mates_step id p : mates id p s → mates id p s'.
Proof using Hg Hs.
  intros Hf. eapply anchored_step; [done..|]. cbn beta. intros d d' _ Hd' He Hm Ha spec Hsp. destruct (evolves_ident d d' He) as (_ & Ha' & _).
  eapply witnessed_step; [done..|apply Hm; [congruence|done]|done|done].
Qed.
End stable.

(** ** Recoveries are set by claims only *)

Definition same_recovery (d d' : Deployment) : Prop :=
  d'.(d_RecoveryState) = "running" → d.(d_RecoveryState) = "running" ∧ d'.(d_RecoverySpec) = d.(d_RecoverySpec) ∧
    d'.(d_ApplicationID) = d.(d_ApplicationID) ∧ d'.(d_Revision) = d.(d_Revision).
Definition no_recovery (d : Deployment) : Prop := d.(d_RecoveryState) = EmptyString.

Lemma recovery_change : row_change same_recovery no_recovery.
Proof. split; intros; try done; intros Hr; cbn in Hr; done. Qed.

Lemma restorable_rows s s' : good s → step s s' → rows_change same_recovery no_recovery s.(sys_db).(deployments) s'.(sys_db).(deployments) →
  restorable s → restorable s'.
Proof.
  intros Hg Hs Hc Hre id d' spec Hd' Hst Hsp. specialize (Hc id d' Hd'). destruct (s.(sys_db).(deployments) !! id) as [d|] eqn:Hd.
  - destruct (Hc Hst) as (Hst0 & Hsp0 & Ha & Hr). rewrite Hsp in Hsp0. symmetry in Hsp0.
    exact (source_step s s' d id d' spec Hg Hs (Hre id d spec Hd Hst0 Hsp0) Hd' Ha Hr).
  - destruct Hc as [Hc _]. rewrite Hc in Hst. discriminate.
Qed.

(** * What the workers know *)

Definition carries (known : gmap string Application) (s : System) (d : Deployment) : Prop :=
  (∀ spec, d.(d_ResolvedSpec) = Some spec → known !! d.(d_ID) = Some spec) ∧
  (d.(d_RecoveryState) = "running" → ∀ spec, d.(d_RecoverySpec) = Some spec → backed d.(d_ID) spec s) ∧ ident d s.

(** The stage a program is at agrees with the claim of its worker. The claim may be ahead,
    when the answer to a change was lost. *)
Record at_stage (known : gmap string Application) (s : System) (c : Claim) (st : Stage) : Prop := {
  as_id : st.(sg_Claim).(c_Deployment).(d_ID) = c.(c_Deployment).(d_ID);
  as_fresh : c.(c_Deployment).(d_RecoveryState) = EmptyString → recovery st = EmptyString;
  as_ahead : recovery st = EmptyString → c.(c_Deployment).(d_RecoveryState) = EmptyString ∨ st.(sg_Phase) ≠ Preparing;
  as_spec : ∀ spec, st.(sg_Spec) = Some spec → known !! c.(c_Deployment).(d_ID) = Some spec;
  as_recovery : recovery st = "running" → ∀ spec, st.(sg_Claim).(c_Deployment).(d_RecoverySpec) = Some spec → backed c.(c_Deployment).(d_ID) spec s;
  as_previous : ∀ p, st.(sg_Previous) = Some p → mates c.(c_Deployment).(d_ID) p s;
}.

Definition runs_from (st : Stage) (p : Prog unit) : Prop := follows st p (λ _ _, True).
Definition worker_ok (known : gmap string Application) (s : System) (w : Worker) (p : Prog unit) : Prop :=
  match w with
  | Starting d _ | Reading d _ => carries known s d ∧ p = Return tt
  | Holding c => ident c.(c_Deployment) s ∧ ∃ st, runs_from st p ∧ at_stage known s c st
  | Done _ => p = Return tt ∨ ∃ st, runs_from st p ∧ st.(sg_Phase) = Finished
  | _ => p = Return tt
  end.

Record runs_inv (known : gmap string Application) (g : Runs) : Prop := {
  ri_good : good g.(rn_Sys);
  ri_restorable : restorable g.(rn_Sys);
  ri_known : ∀ id spec, known !! id = Some spec → fixed id spec g.(rn_Sys);
  ri_deployed : ∀ id spec, (id, spec) ∈ g.(rn_Deployed) → known !! id = Some spec;
  ri_restored : ∀ id spec, (id, spec) ∈ g.(rn_Restored) → backed id spec g.(rn_Sys);
  ri_workers : ∀ n, worker_ok known g.(rn_Sys) (g.(rn_Sys).(sys_workers) n) (g.(rn_Progs) n);
  ri_lost : ∀ c p, (c, p) ∈ g.(rn_Lost) → worker_ok known g.(rn_Sys) (Holding c) p;
}.

Lemma worker_ok_step known known' s s' w p : good s → step s s' → known ⊆ known' → worker_ok known s w p → worker_ok known' s' w p.
Proof.
  intros Hg Hs Hsub. assert (∀ d, carries known s d → carries known' s' d) as Hcar.
  { intros d (H1' & H2' & H3'). split_and!; [|intros; eapply backed_step; eauto|by eapply ident_step].
    intros spec Hsp. eapply lookup_weaken; [by apply H1'|done]. }
  destruct w as [|todo|id app todo|id app todo|d app|d app|c|todo|id app todo|r app todo|rc|todo|app todo|v app|v a app|v a|app|app]; cbn [worker_ok]; try done.
  - intros [Hc ->]. split; [by apply Hcar|done].
  - intros [Hc ->]. split; [by apply Hcar|done].
  - intros [Hid (st & Hst & [A1 A2 A3 A4 A5 A6])]. split; [by eapply ident_step|]. exists st. split; [done|]. split; [done..| | |].
    + intros spec Hsp. eapply lookup_weaken; [by apply A4|done].
    + intros Hr spec Hsp. eapply backed_step; eauto.
    + intros pr Hpr. eapply mates_step; eauto.
Qed.

(** A row that is resolved makes its specification known. *)
Lemma learn (known : gmap string Application) s id d spec : (∀ id spec, known !! id = Some spec → fixed id spec s) → s.(sys_db).(deployments) !! id = Some d → d.(d_ResolvedSpec) = Some spec →
  ∃ known' : gmap string Application, known ⊆ known' ∧ (∀ id spec, known' !! id = Some spec → fixed id spec s) ∧ known' !! id = Some spec.
Proof.
  intros Hk Hd Hsp. destruct (known !! id) as [spec'|] eqn:Hl.
  - exists known. split_and!; [done..|]. specialize (Hk id spec' Hl). unfold fixed, anchored in Hk. rewrite Hd in Hk. congruence.
  - exists (<[ id := spec ]> known). split_and!; [by apply insert_subseteq| |by rewrite lookup_insert_eq].
    intros id' spec' [[<- <-]|[_ Hl']]%lookup_insert_Some; [|by apply Hk]. unfold fixed, anchored. by rewrite Hd.
Qed.

Lemma anchored_row s id d F : s.(sys_db).(deployments) !! id = Some d → F d → anchored s id F.
Proof. unfold anchored. by intros ->. Qed.

(** A claim read from its row carries what is known of it. *)
Lemma carries_row (known : gmap string Application) s d : (∀ id spec, known !! id = Some spec → fixed id spec s) → restorable s →
  s.(sys_db).(deployments) !! d.(d_ID) = Some d → ∃ known' : gmap string Application, known ⊆ known' ∧ (∀ id spec, known' !! id = Some spec → fixed id spec s) ∧ carries known' s d.
Proof.
  intros Hk Hre Hd. assert (∀ known', (∀ spec, d.(d_ResolvedSpec) = Some spec → known' !! d.(d_ID) = Some spec) → carries known' s d) as Hc.
  { intros known' Hs. split_and!; [done| |]; [intros Hr spec Hsp|]; apply (anchored_row s _ d); [done|by apply (Hre d.(d_ID))|done|done]. }
  destruct (d.(d_ResolvedSpec)) as [spec|] eqn:Hsp.
  - destruct (learn known s _ d spec Hk Hd Hsp) as (known' & Hsub & Hk' & Hl). exists known'. split_and!; [done..|]. apply Hc. by intros ? [= <-].
  - exists known. split_and!; [done..|]. by apply Hc.
Qed.

Lemma start_attempt_carries known s now d (db : DB) : carries known s d → carries known s (start_attempt now d db).1.
Proof. unfold start_attempt. by destruct (_ && _). Qed.

Lemma begun_stage known s c : carries known s c.(c_Deployment) → worker_ok known s (Holding c) (begun (Holding c) (Return tt)).
Proof.
  intros (Hsp & Hrec & Hid). cbn. split; [done|]. exists (stage_of c). split.
  - eapply obeys_mono; [|apply (run_keeps Timeout rollout False); done]. done.
  - split; cbn; try done. by left.
Qed.

(** A worker that does not hold a release. *)
Lemma other_worker (known : gmap string Application) n w (db db' : DB) s' w' p : worker_step n w db w' db' → sys_db s' = db' →
  (∀ id spec, known !! id = Some spec → fixed id spec s') → restorable s' → keyed db → (∀ c, w ≠ Holding c) → worker_ok known s' w p →
  ∃ known' : gmap string Application, known ⊆ known' ∧ (∀ id spec, known' !! id = Some spec → fixed id spec s') ∧ worker_ok known' s' w' (begun w' p).
Proof.
  intros Hs Hdb' Hk Hre Hkey Hno Hw.
  assert (∀ w', worker_ok known s' w' (begun w' p) → ∃ known' : gmap string Application, known ⊆ known' ∧
    (∀ id spec, known' !! id = Some spec → fixed id spec s') ∧ worker_ok known' s' w' (begun w' p)) as Hsame by (intros; by exists known).
  destruct Hs as [now db|db|now db|app db _|now w db|c db w' db' Hc|c db w' db' Hc|v a db message db' Hf|w db]; try (apply Hsame; done).
  - destruct w as [|[|[id app] todo]|id app todo|id app todo|d app|d app|c|[|[id app] todo]|id app todo|r app todo|c|[|app todo]|app todo|v app|v a app|v a|app|app];
      cbn [advance] in *; unfold try_lock in *; repeat case_goal; try (apply Hsame; cbn in *; tauto); try (apply Hsame; done); cbn [fst snd] in *.
    + cbn in Hw. subst p. unfold start_deployment in *. destruct (db.(deployments) !! id) as [dq|] eqn:Hd; [|done]. destruct (pending _); [|done]. simplify_eq.
      pose proof (kd_deployment _ Hkey id dq Hd) as Hid. destruct (carries_row known s' (start_row now dq) Hk Hre) as (known' & Hsub & Hk' & Hc).
      { match goal with Hx : _ = s'.(sys_db) |- _ => rewrite <-Hx | Hx : s'.(sys_db) = _ |- _ => rewrite Hx end. cbn. by rewrite Hid, lookup_alter_eq, Hd. }
      exists known'. split_and!; done.
    + destruct Hw as [Hc ->]. apply Hsame. split; [|done]. match goal with Hx : start_attempt now d db = _ |- _ => pose proof (start_attempt_carries known s' now d db Hc) as Hc'; rewrite Hx in Hc' end. done.
    + destruct Hw as [Hc ->]. apply Hsame. by apply begun_stage.
    + by destruct (Hno c).
  - by destruct (Hno c).
  - apply Hsame. destruct Hc; cbn in *; try done; by left.
  - apply Hsame. cbn in *. by left.
Qed.

(** ** Calls of a run *)

(** A later stage of the same claim, with no new knowledge. *)
Lemma same_stage known s c st st' : at_stage known s c st → st'.(sg_Claim) = st.(sg_Claim) → st'.(sg_Spec) = st.(sg_Spec) →
  st'.(sg_Previous) = st.(sg_Previous) → (st.(sg_Phase) ≠ Preparing → st'.(sg_Phase) ≠ Preparing) → at_stage known s c st'.
Proof. intros [A1 A2 A3 A4 A5 A6] Hc Hs Hp Hph. unfold recovery in *. split; unfold recovery; rewrite ?Hc, ?Hs, ?Hp; try done. intros Hr. destruct (A3 Hr); [by left|right; by auto]. Qed.

Lemma LastHealthyRelease_spec app before (db : DB) p : LastHealthyRelease app before db = Some p →
  ∃ id, db.(deployments) !! id = Some p ∧ p.(d_ApplicationID) = app ∧ p.(d_Revision) < before ∧ p.(d_Status) = Succeeded.
Proof.
  unfold LastHealthyRelease. intros Hl. assert (p ∈ List.filter (healthy_before app before) ((map_to_list db.(deployments)).*2)) as Hin.
  { revert Hl. generalize (List.filter (healthy_before app before) ((map_to_list db.(deployments)).*2)). intros l.
    assert (∀ best, fold_left later l best = Some p → best = Some p ∨ p ∈ l) as Hf.
    { induction l as [|d l IH]; intros best; cbn [fold_left]; [by left|]. intros Hx%IH. destruct Hx as [Hx|Hx]; [|right; by right].
      unfold later in Hx. destruct best as [b|]; [|injection Hx as ->; right; by left]. destruct (_ <? _); [injection Hx as ->; right; by left|by left]. }
    intros Hx%Hf. by destruct Hx. }
  apply list_elem_of_In, filter_In in Hin as [Hin Hh]. apply list_elem_of_In, list_elem_of_fmap in Hin as ([id d] & -> & Hin%elem_of_map_to_list). cbn in *.
  unfold healthy_before in Hh. rewrite !andb_true_iff, String.eqb_eq, Z.ltb_lt, bool_decide_eq_true in Hh. exists id. naive_solver.
Qed.

Lemma healthy_mates s c p app before : ident c.(c_Deployment) s → LastHealthyRelease app before s.(sys_db) = Some p → mates c.(c_Deployment).(d_ID) p s.
Proof.
  intros Hid (id & Hp & Ha & Hr & Hst)%LastHealthyRelease_spec. unfold mates, ident, anchored in *. destruct (deployments _ !! d_ID _) as [d|]; [|done].
  intros _ spec Hsp. exists id, p. done.
Qed.

Lemma read_stage known s c st cl a : ident c.(c_Deployment) s → at_stage known s c st → read_answer s.(sys_db) cl a → at_stage known s c (after st cl a).
Proof.
  intros Hid Hat Hr. destruct cl; cbn [after]; try (by apply (same_stage _ _ _ st)).
  - cbn in Hr. destruct a as [p|e]; [|by apply (same_stage _ _ _ st)]. destruct Hat as [A1 A2 A3 A4 A5 A6]. split; try done. cbn. intros p' ->.
    destruct Hr as [[= Hl]|]; [|done]. by eapply healthy_mates.
  - apply (same_stage _ _ _ st); try done. cbn. intros _. by destruct (is_empty _).
  - cbn in Hr. destruct a; [done|]. by apply (same_stage _ _ _ st).
  - cbn in Hr. destruct a; [done|]. by apply (same_stage _ _ _ st).
  - cbn in Hr. destruct a; [done|]. by apply (same_stage _ _ _ st).
Qed.

Lemma read_sent known s c st cl k : at_stage known s c st → runs_from st (Ask cl k) →
  (∀ log id spec, (id, spec) ∈ sent false (Holding c) cl log → (id, spec) ∈ log ∨ known !! id = Some spec) ∧
  (∀ log id spec, (id, spec) ∈ sent true (Holding c) cl log → (id, spec) ∈ log ∨ backed id spec s).
Proof.
  intros [A1 A2 A3 A4 A5 A6] [Hal _]. destruct cl; try (by split; intros; left). destruct Hal as [[Ht Hd] _]. destruct Ht as (_ & _ & _ & Hid & _).
  unfold sent. cbn [deployment_call]. destruct (is_empty _) eqn:He; cbn [bool_decide decide_rel]; (split; intros log id spec); try (by left);
    (intros [[= -> ->]|Hin]%elem_of_cons; [right|by left]); rewrite Hid, A1.
  - apply is_empty_true in He. specialize (A2 He). destruct Hd as [(_ & _ & Hsp & _)|(Hr & _)]; [by apply A4|]. rewrite A2 in Hr. discriminate.
  - destruct Hd as [(Hr & Hp & _)|(Hr & _ & Hsp & _)]; [|by apply A5]. destruct (A3 Hr) as [He'|]; [|done]. by rewrite He' in He.
Qed.

Lemma finished_reads st (cl : Call) k : runs_from st (Ask cl k) → st.(sg_Phase) = Finished → ∃ t m, cl = CallEvent t m.
Proof.
  intros [Hal _] Hp. destruct cl as [| | | | | | | | | | |type message| | | | | |]; cbn in Hal; [..|by exists type, message| | | | | |]; exfalso; unfold may_deploy in Hal;
    decompose [and or] Hal; congruence.
Qed.

(** ** Changes of a claim *)

Lemma ident_own c s : ident c.(c_Deployment) s → own_row c s.(sys_db).
Proof. unfold ident, anchored, own_row. intros Hi d Hd. by rewrite Hd in Hi. Qed.

Lemma claim_restorable s s' cl a c w' : good s → step s s' → restorable s → answered (Holding c) s.(sys_db) cl a w' s'.(sys_db) →
  (∀ previous failure skip, cl ≠ CallBeginRecovery c previous failure skip) → restorable s'.
Proof.
  intros Hg Hs Hre Ha Hno. apply (restorable_rows s s'); [done..| |done]. inversion Ha; subst; clear Ha.
  - match goal with Hx : SetResolved _ _ _ = _ |- _ => unfold SetResolved in Hx; destruct (deployments _ !! _) as [d|]; [|done]; destruct (_ && _); [|done]; injection Hx as _ <- end.
    apply (rows_alter _ _ recovery_change). done.
  - by destruct (Hno previous failure skip).
  - match goal with Hx : FinishRecovery _ _ _ _ _ = _ |- _ => destruct (FinishRecovery_spec _ _ _ _ _ _ _ Hx) as (d & Hd & _ & -> & Hst) end.
    apply (rows_alter _ _ recovery_change). intros d' _ Hr. cbn in Hr. subst. by destruct Hst.
  - match goal with Hx : Finish _ _ _ _ _ _ = _ |- _ => unfold Finish in Hx; inv_ok; destruct (deployments _ !! _) as [d|] eqn:Hd; [|done]; destruct (_ && _); [|done]; injection Hx as Hx end.
    match goal with Hx : _ = s'.(sys_db) |- _ => rewrite <-Hx end.
    match goal with |- rows_change _ _ _ (deployments ?x) => assert (x.(deployments) = alter (finish_row now status message (encode r)) c.(c_Deployment).(d_ID) s.(sys_db).(deployments)) as -> end.
    { by destruct (0 <? _). }
    apply (rows_alter _ _ recovery_change). by intros d' _.
Qed.

Lemma stage_known (known known' : gmap string Application) s c st : known ⊆ known' → at_stage known s c st → at_stage known' s c st.
Proof. intros Hsub [A1 A2 A3 A4 A5 A6]. split; try done. intros spec Hsp. eapply lookup_weaken; [by apply A4|done]. Qed.

(** What a run knows of its own claim after a change of it. *)
Definition written (known : gmap string Application) (s s' : System) (w' : Worker) (st' : Stage) : Prop :=
  ∃ known' : gmap string Application, known ⊆ known' ∧ (∀ id spec, known' !! id = Some spec → fixed id spec s') ∧ restorable s' ∧
    match w' with Holding c' => ident c'.(c_Deployment) s' ∧ at_stage known' s' c' st' | _ => st'.(sg_Phase) = Finished end.

Section write.
Context (known : gmap string Application) (s s' : System) (c : Claim) (st : Stage).
Context (Hg : good s) (Hs : step s s') (Hre : restorable s) (Hk : ∀ id spec, known !! id = Some spec → fixed id spec s').
Context (Hid : ident c.(c_Deployment) s) (Hid' : ident c.(c_Deployment) s') (Hold : at_stage known s c st) (Hat : at_stage known s' c st).

Lemma write_SetResolved app winner a : SetResolved c app s.(sys_db) = Ok (winner, s'.(sys_db)) → a = Ok winner ∨ is_ok a = false → restorable s' →
  written known s s' (Holding c) (after st (CallSetResolved c app) a).
Proof using Hk Hid' Hat.
  intros Hset Ha Hre'. unfold SetResolved in Hset. destruct (deployments _ !! _) as [d|] eqn:Hd; [|done]. destruct (_ && _); [|done]. injection Hset as Hw Hdb.
  assert (s'.(sys_db).(deployments) !! c.(c_Deployment).(d_ID) = Some (set_d_ResolvedSpec (Some winner) d)) as Hd'.
  { rewrite <-Hdb. cbn. by rewrite lookup_alter_eq, Hd, Hw. }
  destruct (learn known s' _ _ winner Hk Hd' eq_refl) as (known' & Hsub & Hk' & Hl). exists known'. split_and!; [done..|].
  pose proof (stage_known _ _ _ _ _ Hsub Hat) as Hat'. destruct Ha as [->|Ha].
  - destruct Hat' as [A1 A2 A3 A4 A5 A6]. split; try done. cbn. by intros ? [= <-].
  - destruct a; [done|]. by apply (same_stage _ _ _ st).
Qed.

Lemma write_BeginRecovery previous failure skip c' a : BeginRecovery c previous failure skip s.(sys_db) = Ok (c', s'.(sys_db)) → a = Ok c' ∨ is_ok a = false →
  allowed st (CallBeginRecovery c previous failure skip) → written known s s' (Holding c') (after st (CallBeginRecovery c previous failure skip) a).
Proof using Hg Hs Hre Hk Hid Hold Hat.
  intros Hb Ha (Hc & Hprev & Hr & Hp & _). destruct (BeginRecovery_spec _ _ _ _ _ _ _ Hb) as (d & state & rev & spec & Hd & -> & Hdb & Hsk).
  set (d' := begin_recovery_row state rev spec skip failure d). destruct (ident_own _ _ Hid d Hd) as (Hi & Happ & Hrev).
  assert (s'.(sys_db).(deployments) !! c.(c_Deployment).(d_ID) = Some d') as Hd' by (rewrite Hdb; cbn; by rewrite lookup_alter_eq, Hd).
  assert (state = "running" → ∀ spec', spec = Some spec' → source d' spec' s') as Hsrc.
  { intros Hst spec' Hsp. destruct (is_empty skip); [|congruence]. destruct Hsk as (_ & prev & Hpv & Hpa & Hpr & Hps & Hpx & _). subst spec.
    pose proof (as_previous _ _ _ _ Hold prev) as Hm. rewrite <-Hprev in Hm. specialize (Hm Hpv). unfold mates, anchored in Hm. rewrite Hd in Hm.
    apply (source_step s s' d c.(c_Deployment).(d_ID) d' spec' Hg Hs); [|done..]. exists prev.(d_Revision). split; [congruence|].
    rewrite Happ, <-Hpa. apply Hm; congruence. }
  assert (restorable s') as Hre'.
  { intros id d2 spec2 Hd2 Hst2 Hsp2. destruct (decide (id = c.(c_Deployment).(d_ID))) as [->|Hne].
    - rewrite Hd' in Hd2. injection Hd2 as <-. by apply Hsrc.
    - assert (s.(sys_db).(deployments) !! id = Some d2) as Hd0 by (rewrite Hdb in Hd2; cbn in Hd2; by rewrite lookup_alter_ne in Hd2 by done).
      by apply (source_step s s' d2 id d2 spec2 Hg Hs (Hre id d2 spec2 Hd0 Hst2 Hsp2) Hd2). }
  assert (d'.(d_RecoveryState) ≠ EmptyString) as Hne by (cbn; destruct (is_empty skip); [destruct Hsk as [-> _]|subst state]; discriminate).
  exists known. split_and!; [done..| |].
  { apply (anchored_row s' _ d'); [cbn; by rewrite Hi|done]. }
  destruct Hat as [A1 A2 A3 A4 A5 A6]. destruct Ha as [->|Ha].
  - cbn [after claim_answer with_claim]. split; unfold recovery; cbn; rewrite ?Hi; try done.
    intros Hst spec' Hsp. apply (anchored_row s' _ d'); [done|by apply Hsrc].
  - destruct a; [done|]. cbn [after claim_answer]. split; unfold recovery in *; cbn in *; rewrite ?Hi; try done.
    all: rewrite ?Hr, ?Hp; try done. intros _. by right.
Qed.

Lemma write_FinishRecovery state message r c' a : FinishRecovery c state message (encode r) s.(sys_db) = Ok (c', s'.(sys_db)) → a = Ok c' ∨ is_ok a = false →
  allowed st (CallFinishRecovery c state message r) → restorable s' → written known s s' (Holding c') (after st (CallFinishRecovery c state message r) a).
Proof using Hk Hid Hid' Hold Hat.
  intros Hb Ha (Hc & Hr & _) Hre'. destruct (FinishRecovery_spec _ _ _ _ _ _ _ Hb) as (d & Hd & -> & Hdb & Hst). destruct (ident_own _ _ Hid d Hd) as (Hi & Happ & Hrev).
  exists known. split_and!; [done..| |].
  { eapply anchored_row; [rewrite Hdb; cbn; by rewrite Hi, lookup_alter_eq, Hd|done]. }
  destruct Hat as [A1 A2 A3 A4 A5 A6]. destruct Ha as [->|Ha].
  - cbn [after claim_answer with_claim]. split; unfold recovery; cbn; rewrite ?Hi; try done; destruct Hst; subst; (done || by right).
  - destruct a; [done|]. cbn [after claim_answer]. split; unfold recovery in *; cbn in *; rewrite ?Hi; try done.
    + destruct Hst; subst; done.
    + rewrite Hr. discriminate.
Qed.

Lemma write_stage cl a w' : answered (Holding c) s.(sys_db) cl a w' s'.(sys_db) → allowed st cl → written known s s' w' (after st cl a).
Proof using Hg Hs Hre Hk Hid Hid' Hold Hat.
  intros Ha Hal. assert ((∀ previous failure skip, cl ≠ CallBeginRecovery c previous failure skip) → restorable s') as Hre'.
  { by apply (claim_restorable s s' cl a c w'). }
  remember (Holding c) as w eqn:Hw. remember (sys_db s) as db eqn:Hdb. remember (sys_db s') as db' eqn:Hdb'.
  destruct Ha as [c0 db app winner db' a Hset Ha|c0 db previous failure skip c' db' a Hb Ha|c0 db state message r c' db' a Hf Ha|c0 db now status message r db' a Hf];
    injection Hw as ->; subst.
  - eapply write_SetResolved; [done..|]. by apply Hre'.
  - by eapply write_BeginRecovery.
  - eapply write_FinishRecovery; [done..|]. by apply Hre'.
  - exists known. split_and!; [done..|by apply Hre'|done].
Qed.
End write.

(** * The invariant *)

(** The invariant after a step of the store, which only the worker [n] moved in. *)
Lemma inv_stepped (known known' : gmap string Application) n db ws u progs log log' lost db' u' w' p' :
  runs_inv known (mkRuns (mkSystem db ws u) progs log log' lost) → known ⊆ known' → restorable (mkSystem db' (<[ n := w' ]> ws) u') →
  step (mkSystem db ws u) (mkSystem db' (<[ n := w' ]> ws) u') → (∀ id spec, known' !! id = Some spec → fixed id spec (mkSystem db' (<[ n := w' ]> ws) u')) →
  worker_ok known' (mkSystem db' (<[ n := w' ]> ws) u') w' p' → runs_inv known' (mkRuns (mkSystem db' (<[ n := w' ]> ws) u') (<[ n := p' ]> progs) log log' lost).
Proof.
  intros [Hg Hre Hk Hdep Hres Hw Hl] Hsub Hre' Hst Hk' Hok. cbn [rn_Sys rn_Progs rn_Deployed rn_Restored rn_Lost sys_workers] in *. split; cbn [rn_Sys rn_Progs rn_Deployed rn_Restored rn_Lost sys_workers].
  - by eapply good_step.
  - done.
  - done.
  - intros id spec Hin. eapply lookup_weaken; [by apply Hdep|done].
  - intros id spec Hin. eapply backed_step; eauto.
  - intros m. destruct (decide (n = m)) as [<-|Hne]; [by rewrite !fn_lookup_insert|]. rewrite !fn_lookup_insert_ne by done. by eapply worker_ok_step.
  - intros c p Hin. eapply worker_ok_step; eauto.
Qed.

(** A read of a run, whether its worker still has its claim or not. *)
Lemma read_ok known s w c k a : worker_ok known s w (Ask c k) → runs_claim w → read_answer s.(sys_db) c a →
  worker_ok known s w (k a) ∧ (∀ log id spec, (id, spec) ∈ sent false w c log → (id, spec) ∈ log ∨ known !! id = Some spec) ∧
  (∀ log id spec, (id, spec) ∈ sent true w c log → (id, spec) ∈ log ∨ backed id spec s).
Proof.
  intros Hn Hrun Ha. destruct w as [| | | | | |cl| | | | | | | | | | |app]; try done; cbn [worker_ok] in Hn.
  - destruct Hn as [Hid (st & Hf & Hat)]. destruct (read_sent known s cl st c k Hat Hf) as [Hs1 Hs2]. split; [|by split].
    cbn. split; [done|]. exists (after st c a). split; [by apply (proj2 Hf), read_honest with (db := s.(sys_db))|by apply read_stage].
  - split; [|by split; left]. destruct Hn as [Hn|(st & Hf & Hph)]; [done|]. right. destruct (finished_reads st c k Hf Hph) as (t & m & ->).
    exists st. split; [|done]. by apply (proj2 Hf a).
Qed.

(** The end of a session. *)
Lemma release_inv known n db ws u progs log log' lost : runs_inv known (mkRuns (mkSystem db ws u) progs log log' lost) →
  runs_inv known (mkRuns (mkSystem (unlock_all n db) (<[ n := Idle ]> ws) u) (<[ n := Return tt ]> progs) log log' lost).
Proof using H H0 H1 H2 H3 H4.
  intros Hinv. pose proof Hinv as [Hg Hre Hk _ _ _ _]. assert (step (mkSystem db ws u) (mkSystem (unlock_all n db) (<[ n := Idle ]> ws) u)) as Hst by apply step_worker, work_release.
  eapply inv_stepped; [done..| |done| |done].
  - eapply restorable_rows; [done..| |done]. apply (rows_same _ _ recovery_change).
  - intros id spec Hl. eapply fixed_step; eauto.
Qed.

Lemma runs_step known g g' : runs_inv known g → run_step g g' → ∃ known', runs_inv known' g'.
Proof.
  intros Hinv Hs. pose proof Hinv as [Hg Hre Hk Hdep Hres Hw Hlo].
  destruct Hs as [db ws u progs log log' lost db' u' Hr|n db ws u progs log log' lost w' db' Hno Hws|n c k a db ws u progs log log' lost Hp Hrun Ha|
    n c k a db ws u progs log log' lost w' db' Hp Ha|n db ws u progs log log' lost|n c db ws u progs log log' lost Hn|cl c k a s progs log log' l1 l2 Ha];
    cbn [rn_Sys rn_Progs rn_Deployed rn_Restored rn_Lost sys_workers sys_db] in *.
  - assert (step (mkSystem db ws u) (mkSystem db' ws u')) as Hst by by constructor. exists known. split; cbn [rn_Sys rn_Progs rn_Deployed rn_Restored rn_Lost sys_workers].
    + by eapply good_step.
    + eapply restorable_rows; [done..| |done]. by apply (request_rows _ _ recovery_change u db u' db').
    + intros id spec Hl. eapply fixed_step; eauto.
    + done.
    + intros id spec Hl. eapply backed_step; eauto.
    + intros m. by eapply worker_ok_step.
    + intros c p Hin. eapply worker_ok_step; eauto.
  - assert (step (mkSystem db ws u) (mkSystem db' (<[ n := w' ]> ws) u)) as Hst by by constructor.
    assert (restorable (mkSystem db' (<[ n := w' ]> ws) u)) as Hre'.
    { eapply restorable_rows; [done..| |done]. apply (worker_rows _ _ recovery_change n (ws n) db w' db' Hws). intros c Hc. by destruct (Hno c). }
    destruct (other_worker known n (ws n) db db' (mkSystem db' (<[ n := w' ]> ws) u) w' (progs n)) as (known' & Hsub & Hk' & Hok); [done..| |done| |done| |].
    + intros id spec Hl. eapply fixed_step; eauto.
    + apply Hg.
    + by eapply worker_ok_step.
    + exists known'. by eapply inv_stepped.
  - pose proof (Hw n) as Hn. rewrite Hp in Hn. destruct (read_ok known _ (ws n) c k a Hn Hrun Ha) as (Hok & Hs1 & Hs2).
    exists known. split; cbn [rn_Sys rn_Progs rn_Deployed rn_Restored rn_Lost]; [done..| | | |done].
    + intros id spec [Hin|]%Hs1; [by apply Hdep|done].
    + intros id spec [Hin|]%Hs2; [by apply Hres|done].
    + intros m. destruct (decide (n = m)) as [<-|Hne]; [by rewrite fn_lookup_insert|]. by rewrite fn_lookup_insert_ne.
  - destruct (ws n) as [| | | | | |cl| | | | | | | | | | |app] eqn:He; try by inversion Ha.
    pose proof (answered_step n _ _ _ _ _ _ Ha) as Hws. assert (step (mkSystem db ws u) (mkSystem db' (<[ n := w' ]> ws) u)) as Hst by (constructor; by rewrite He).
    pose proof (Hw n) as Hn. rewrite He, Hp in Hn. destruct Hn as [Hid (st & [Hal Hf] & Hat)].
    pose proof (worker_ok_step known known _ _ (Holding cl) (Ask c k) Hg Hst (reflexivity known)) as Hn'.
    destruct Hn' as [Hid' (st0 & _ & _)]; [split; [done|by exists st]|].
    assert (at_stage known (mkSystem db' (<[ n := w' ]> ws) u) cl st) as Hat'.
    { destruct Hat as [A1 A2 A3 A4 A5 A6]. split; try done; [intros ? ? ?; eapply backed_step; eauto|intros ? ?; eapply mates_step; eauto]. }
    destruct (write_stage known (mkSystem db ws u) (mkSystem db' (<[ n := w' ]> ws) u) cl st) with (cl := c) (a := a) (w' := w') as (known' & Hsub & Hk' & Hre' & Hok); try done.
    { intros id spec Hl. eapply fixed_step; eauto. }
    exists known'. eapply inv_stepped; [done..|].
    assert (runs_from (after st c a) (k a)) as Hfa.
    { apply Hf. eapply answered_honest; [|done]. intros cl' Hcl. injection Hcl as <-. by apply (ident_own cl (mkSystem db ws u)). }
    assert ((∃ cl', w' = Holding cl') ∨ (∃ app, w' = Done app)) as [[cl' ->]|[app ->]] by (inversion Ha; eauto).
    + destruct Hok as [? ?]. split; [done|]. by exists (after st c a).
    + right. by exists (after st c a).
  - exists known. by apply release_inv.
  - destruct (release_inv known n _ _ _ _ _ _ _ Hinv) as [Hg' Hre' Hk' Hdep' Hres' Hw' Hlo']. exists known. split; cbn [rn_Sys rn_Progs rn_Deployed rn_Restored rn_Lost] in *; [done..|].
    intros cl p [Hin|Hin]%elem_of_cons; [|by apply Hlo']. injection Hin as -> ->. eapply worker_ok_step; [exact Hg|apply step_worker, (work_release n)|done|].
    rewrite <-Hn. apply Hw.
  - destruct (read_ok known s (Holding cl) c k a) as (Hok & Hs1 & Hs2); [apply Hlo; set_solver|done|done|].
    exists known. split; cbn [rn_Sys rn_Progs rn_Deployed rn_Restored rn_Lost]; [done..| | |done|].
    + intros id spec [Hin|]%Hs1; [by apply Hdep|done].
    + intros id spec [Hin|]%Hs2; [by apply Hres|done].
    + intros cl' p. rewrite elem_of_app, elem_of_cons. intros [Hin|[Hin|Hin]]; [apply Hlo; set_solver|by injection Hin as -> ->|apply Hlo; set_solver].
Qed.

Lemma driven_inv g : driven g → ∃ known, runs_inv known g.
Proof.
  intros (g0 & (Hf & Hp & Hd & Hr & Hlo) & Hrun). assert (∃ known, runs_inv known g0) as Hinit.
  { exists ∅. split; try done.
    - split; [by apply fresh_inv|by apply fresh_unsettled].
    - intros id d spec Hrow. destruct Hf as (Hdb & _). by rewrite Hdb, lookup_empty in Hrow.
    - intros id spec. rewrite Hd. by intros ?%elem_of_nil.
    - intros id spec. rewrite Hr. by intros ?%elem_of_nil.
    - intros n. destruct Hf as (_ & _ & _ & _ & _ & _ & Hws). by rewrite Hws, Hp.
    - intros c p. rewrite Hlo. by intros ?%elem_of_nil. }
  revert Hinit. clear -Hrun. induction Hrun as [g|g g1 g' Hs _ IH]; [done|]. intros [known Hi]. apply IH. by eapply runs_step.
Qed.

(** C4: However often a release is run, resumed after a crash, or run by a worker that lost its
    claim without knowing: all its deployments send the cluster the same resolved
    specification, the one of its row. *)
Theorem deployed_once_resolved g id spec spec' : driven g → (id, spec) ∈ g.(rn_Deployed) → (id, spec') ∈ g.(rn_Deployed) →
  spec = spec' ∧ ∀ d, g.(rn_Sys).(sys_db).(deployments) !! id = Some d → d.(d_ResolvedSpec) = Some spec.
Proof.
  intros (known & Hi)%driven_inv H1' H2'. pose proof (ri_deployed known g Hi _ _ H1') as Hl. pose proof (ri_deployed known g Hi _ _ H2') as Hl'. split; [congruence|].
  intros d Hd. pose proof (ri_known known g Hi _ _ Hl) as Hf. unfold fixed, anchored in Hf. by rewrite Hd in Hf.
Qed.

(** C6: What a recovery sends the cluster is the resolved specification of an earlier release of
    the same application, and that release succeeded. *)
Theorem recovery_restores g id spec d : driven g → (id, spec) ∈ g.(rn_Restored) → g.(rn_Sys).(sys_db).(deployments) !! id = Some d →
  ∃ id' d', g.(rn_Sys).(sys_db).(deployments) !! id' = Some d' ∧ d'.(d_ApplicationID) = d.(d_ApplicationID) ∧ d'.(d_Revision) < d.(d_Revision) ∧
    d'.(d_Status) = Succeeded ∧ d'.(d_ResolvedSpec) = Some spec.
Proof.
  intros (known & Hi)%driven_inv Hin Hd. pose proof (ri_restored known g Hi _ _ Hin) as Hb. unfold backed, anchored in Hb. rewrite Hd in Hb.
  destruct Hb as (rev & Hlt & id' & d' & Hd' & Ha & Hr & Hs & Hx). exists id', d'. split_and!; [done..|lia|done|done].
Qed.
End drive.

(** * A run on concrete tables *)

Module DriveExample.
Import Concrete.
Import TransferExample.
Import DeploymentExample.
#[local] Abbreviation DB := (Database Rest).

Definition web : Application := set_app_Services (Some {["web" := set_svc_Image "web:1" zero_Service]}) (set_app_Name "web" zero_Application).
Definition encode (r : RunResult) : string := match r with StatusOnly s | StatusSeen s => status_text s | Observed r => r.(rep_JSON) | Stored json => json end.

(** What the worker on connection 7 does next: it looks for work, goes on with its claim,
    is answered (by the cluster with [err]), changes the tables, or gives up its connection. *)
Inductive Action : Type := Look | Advance | Reply (err : option DeployError) | Commit | Release.
Record View : Type := mkView { vw_db : DB; vw_worker : Worker; vw_prog : Prog unit; vw_Deployed : list (string * Application); vw_Restored : list (string * Application) }.

Definition reply (err : option DeployError) (db : DB) (c : Call) : option (Answer c) :=
  match c return option (Answer c) with
  | CallWithin _ | CallCancel _ | CallEvent _ _ => Some tt
  | CallExpired => Some false
  | CallContexts => Some (mkContexts true None)
  | CallStepEnded => Some None
  | CallReauthorize _ _ => Some Granted
  | CallRuntimeBase _ _ => Some (Ok None)
  | CallLastHealthy app before => Some (Ok (LastHealthyRelease app before db))
  | CallActionsSlots _ _ => Some (Ok [])
  | CallDeployment _ => None
  | CallCheck _ => Some true
  | CallResolve app _ _ => Some (inl app)
  | CallDeploy _ _ => Some (mkReport "degraded" [], err)
  | CallSetResolved _ _ | CallBeginRecovery _ _ _ _ | CallFinishRecovery _ _ _ _ | CallFinish _ _ _ _ => None
  end.

#[export] Instance Deployment_eq_dec : EqDecision Deployment.
Proof. solve_decision. Defined.
#[export] Instance AppRow_eq_dec : EqDecision AppRow.
Proof. solve_decision. Defined.
#[export] Instance Claim_eq_dec : EqDecision Claim.
Proof. solve_decision. Defined.

Definition with_own {A} (w : Worker) (c : Claim) (r : result A) : option A :=
  match w, r with Holding cl, Ok x => if decide (cl = c) then Some x else None | _, _ => None end.
Definition commit (w : Worker) (db : DB) (c : Call) : option (Answer c * Worker * DB) :=
  match c return option (Answer c * Worker * DB) with
  | CallSetResolved c app => '(winner, db') ← with_own w c (SetResolved c app db); Some (Ok winner, w, db')
  | CallBeginRecovery c previous failure skip => '(c', db') ← with_own w c (BeginRecovery c previous failure skip db); Some (Ok c', Holding c', db')
  | CallFinishRecovery c state message r => '(c', db') ← with_own w c (FinishRecovery c state message (encode r) db); Some (Ok c', Holding c', db')
  | CallFinish c status message r => '(_, db') ← with_own w c (Finish 90 c status message (encode r) db); Some (Ok tt, Done c.(c_App).(a_ID), db')
  | _ => None
  end.

Definition act (v : View) (x : Action) : option View :=
  let '(mkView db w p log log') := v in
  match x with
  | Look => match w with Idle => Some (mkView db (Choosing (candidates 30 db)) p log log') | _ => None end
  | Advance =>
      match w with
      | Holding _ => None
      | _ => let w' := (advance 30 7 w db).1 in Some (mkView (advance 30 7 w db).2 w' (begun 0 None w' p) log log')
      end
  | Reply err =>
      match p, w with
      | Ask c k, (Holding _ | Done _) => a ← reply err db c; Some (mkView db w (k a) (sent false w c log) (sent true w c log'))
      | _, _ => None
      end
  | Commit => match p with Ask c k => '(a, w', db') ← commit w db c; Some (mkView db' w' (k a) log log') | _ => None end
  | Release => Some (mkView (unlock_all 7 db) Idle (Return tt) log log')
  end.
Fixpoint acts (v : View) (l : list Action) : option View := match l with [] => Some v | x :: l => v ← act v x; acts v l end.

Definition shows (g : Runs) (v : View) : Prop :=
  g.(rn_Sys).(sys_db) = v.(vw_db) ∧ g.(rn_Sys).(sys_workers) 7%nat = v.(vw_worker) ∧ g.(rn_Progs) 7%nat = v.(vw_prog) ∧
  g.(rn_Deployed) = v.(vw_Deployed) ∧ g.(rn_Restored) = v.(vw_Restored).
#[local] Abbreviation run_step := (run_step 0 None encode).

Lemma reply_read err (db : DB) c a : reply err db c = Some a → read_answer db c a.
Proof. destruct c; try done; cbn; try (by intros [= <-]). intros [= <-]. by left. Qed.

Lemma with_own_Some {A} w c (r : result A) x : with_own w c r = Some x → w = Holding c ∧ r = Ok x.
Proof. unfold with_own. destruct w, r; try done. case_decide; [|done]. intros [= <-]. by subst. Qed.

Lemma commit_answered w (db : DB) c a w' db' : commit w db c = Some (a, w', db') → answered encode w db c a w' db'.
Proof.
  destruct c; try done; cbn [commit]; intros ([x db1] & [-> Hr]%with_own_Some & Hx)%bind_Some; injection Hx as <- <- <-.
  - by eapply answer_SetResolved; [|left].
  - by eapply answer_BeginRecovery; [|left].
  - by eapply answer_FinishRecovery; [|left].
  - destruct x. by eapply answer_Finish.
Qed.

Lemma act_sound g v x v' : shows g v → act v x = Some v' → ∃ g', run_step g g' ∧ shows g' v'.
Proof.
  destruct g as [[db ws u] progs log log' lost], v as [db0 w p log0 log0']. intros (Hdb & Hw & Hp & Hl & Hl'). cbn in Hdb, Hw, Hp, Hl, Hl'. subst db0 w p log0 log0'. destruct x; cbn [act].
  - destruct (ws 7%nat) eqn:He; try done. intros [= <-]. eexists. split; [eapply (run_other 0 None encode 7); rewrite He; [done|apply work_deployments]|].
    split_and!; cbn; rewrite ?fn_lookup_insert; done.
  - intros Hx. assert (∀ c, ws 7%nat ≠ Holding c) as Hno by (intros c Hc; by rewrite Hc in Hx). eexists. split.
    + eapply (run_other 0 None encode 7); [done|apply (work_advance 7 30)].
    + assert (v' = mkView (advance 30 7 (ws 7%nat) db).2 (advance 30 7 (ws 7%nat) db).1 (begun 0 None (advance 30 7 (ws 7%nat) db).1 (progs 7%nat)) log log') as ->.
      { destruct (ws 7%nat); try (by injection Hx as <-). done. }
      split_and!; cbn [rn_Sys rn_Progs rn_Deployed rn_Restored sys_db sys_workers vw_db vw_worker vw_prog vw_Deployed vw_Restored]; rewrite ?fn_lookup_insert; done.
  - destruct (progs 7%nat) as [|c k] eqn:Hpr; [done|]. intros Hx.
    assert (runs_claim (ws 7%nat) ∧ ∃ a, reply err db c = Some a ∧ v' = mkView db (ws 7%nat) (k a) (sent false (ws 7%nat) c log) (sent true (ws 7%nat) c log')) as (Hr & a & Ha & ->).
    { destruct (ws 7%nat); try done; apply bind_Some in Hx as (a & Ha & [= <-]); (split; [done|by exists a]). }
    eexists. split; [eapply (run_read 0 None encode 7); [done..|by eapply reply_read]|].
    split_and!; cbn; rewrite ?fn_lookup_insert; done.
  - destruct (progs 7%nat) as [|c k] eqn:Hpr; [done|]. intros ([[a w'] db'] & Hc & [= <-])%bind_Some.
    eexists. split; [eapply (run_write 0 None encode 7); [done|by apply commit_answered]|]. split_and!; cbn; rewrite ?fn_lookup_insert; done.
  - intros [= <-]. eexists. split; [apply (run_release 0 None encode 7)|]. split_and!; cbn; rewrite ?fn_lookup_insert; done.
Qed.

Lemma acts_sound l g v v' : shows g v → acts v l = Some v' → ∃ g', rtc run_step g g' ∧ shows g' v'.
Proof.
  revert g v. induction l as [|x l IH]; intros g v Hg; cbn [acts]; [intros [= <-]; by exists g|]. intros (v1 & Hx & Hl)%bind_Some.
  destruct (act_sound g v x v1 Hg Hx) as (g1 & Hs & Hg1). destruct (IH g1 v1 Hg1 Hl) as (g' & Hrun & Hg'). exists g'. split; [by eapply rtc_l|done].
Qed.

(** Two releases are queued. The first is deployed and succeeds; the worker then takes the
    second, loses its connection after it deployed, takes it again, fails, and recovers. *)
Definition accept_web (fresh_app fresh_id : string) (expected : Z) (idem : string) (db : DB) : result (Deployment * DB) :=
  Accept 10 fresh_app fresh_id ada "demo" "prod" web expected idem None false None db.
Definition web1 : DB := Eval vm_compute in db_of empty (accept_web "app" "dep-1" 0 "key-0001" empty).
Definition web2 : DB := Eval vm_compute in db_of web1 (accept_web "app-2" "dep-2" 1 "key-0002" web1).

Definition claims : list Action := Look :: repeat Advance 5.
Definition ok : Action := Reply None.
Definition resolving : list Action := repeat ok 6 ++ [ok; Commit; ok].
Definition first_release : list Action := claims ++ resolving ++ [ok; ok; ok; Commit; Release].
Definition second_release : list Action := claims ++ resolving ++ [ok; Release].
Definition failed_release : list Action := claims ++ repeat ok 6 ++ [Reply (Some (mkDeployError "web is not ready" false)); ok; ok; Commit; ok; ok; ok; Commit; ok; Commit].
Definition queued : View := mkView web2 Idle (Return tt) [] [].
Definition script : list Action := first_release ++ second_release ++ failed_release.
Definition played : View := Eval vm_compute in default queued (acts queued (script ++ [ok; Release])).

Lemma played_acts : acts queued (script ++ [ok; Release]) = Some played.
Proof. vm_compute. reflexivity. Qed.

Lemma queued_driven : ∃ g, driven 0 None encode g ∧ shows g queued.
Proof.
  exists (mkRuns (mkSystem web2 (λ _, Idle) used_now) (λ _, Return tt) [] [] []). split; [|by split_and!].
  exists (mkRuns start (λ _, Return tt) [] [] []). split; [by split_and!|]. eapply rtc_l; [|eapply rtc_once].
  - eapply run_request. eapply (req_accept ∅ empty 10 "app" "dep-1" ada "demo" "prod" web 0 "key-0001" None false None); [set_solver|set_solver|done|].
    vm_compute. reflexivity.
  - eapply run_request. eapply (req_accept _ web1 10 "app-2" "dep-2" ada "demo" "prod" web 1 "key-0002" None false None); [| |done|].
    + apply (bool_decide_unpack _). vm_compute. exact I.
    + apply (bool_decide_unpack _). vm_compute. exact I.
    + vm_compute. reflexivity.
Qed.

Lemma played_driven : ∃ g, driven 0 None encode g ∧ shows g played.
Proof.
  destruct queued_driven as (g & (g0 & Hf & Hrun) & Hg). destruct (acts_sound _ g queued played Hg played_acts) as (g' & Hrun' & Hg').
  exists g'. split; [|done]. exists g0. split; [done|]. by etrans.
Qed.
End DriveExample.

Import DeploymentExample DriveExample.

(** The second release was deployed twice: its first worker was lost. *)
Lemma deployed_once_resolved_witness : played.(vw_Deployed).*1 = ["dep-2"; "dep-2"; "dep-1"] ∧ ∀ spec spec',
  ("dep-2", spec) ∈ played.(vw_Deployed) → ("dep-2", spec') ∈ played.(vw_Deployed) → spec = spec'.
Proof.
  split; [vm_compute; reflexivity|]. destruct played_driven as (g & Hg & _ & _ & _ & Hl & _). rewrite <-Hl. intros spec spec' Hs Hs'.
  exact (proj1 (deployed_once_resolved 0 None encode g "dep-2" spec spec' Hg Hs Hs')).
Defined.

(** Its recovery restored what an earlier release succeeded with. *)
Lemma recovery_restores_witness : ∃ d id' d', ("dep-2", web) ∈ played.(vw_Restored) ∧ played.(vw_db).(deployments) !! "dep-2" = Some d ∧
  played.(vw_db).(deployments) !! id' = Some d' ∧ d'.(d_ApplicationID) = d.(d_ApplicationID) ∧ d'.(d_Revision) < d.(d_Revision) ∧
  d'.(d_Status) = Succeeded ∧ d'.(d_ResolvedSpec) = Some web.
Proof.
  destruct (played.(vw_db).(deployments) !! "dep-2") as [d|] eqn:Hd; [|vm_compute in Hd; discriminate].
  destruct played_driven as (g & Hg & Hdb & _ & _ & _ & Hl). rewrite <-Hdb, <-Hl in *.
  assert (("dep-2", web) ∈ g.(rn_Restored)) as Hin by (rewrite Hl; vm_compute; by left).
  destruct (recovery_restores 0 None encode g "dep-2" web d Hg Hin Hd) as (id' & d' & H1 & H2 & H3 & H4 & H5). by exists d, id', d'.
Defined.
