(* ===== verification/VolumeWorker.v ===== *)
(** The worker that resizes a volume (internal/worker/volume_resize.go), as a program of
    calls to the store and to the cluster, and the protocol it keeps: a volume is deleted
    only once its data is elsewhere or was never used, and the claim's methods are called in
    the phases they are for, which is what the steps of the store rely on. *)
From S2P Require Import Prelude Protocol GoStd SpecTypes Provider SpecServices SpecStorage SpecNormalize SpecTransfer SpecRecovery Platform StoreErrors Principals DeploymentTables DeploymentStore DeploymentWorker.
#[global] Open Scope Z_scope.
Set Default Proof Using "Type".

(** * Calls *)

(** [cluster.VolumeResizeJournal] *)
Record Journal : Type := mkJournal {
  j_SourceUID : string;
  j_SourcePV : string;
  j_SourcePVUID : string;
  j_TargetUID : string;
  j_HelperUID : string;
  j_Verified : bool;
  j_Retry : bool;
  j_Files : Z;
  j_Bytes : Z;
  j_SHA256 : string;
}.

(** What is checked before each step in the cluster: the claim of the worker, or the
    identity of a volume claim, which may be missing or not. *)
Inductive Guard : Type := ByClaim | ByVolume (name uid : string) (allowMissing : bool).
Record RuntimeError : Type := mkRuntimeError { re_Error : error; re_Conflict : bool }.

Inductive ResizeCall : Type :=
  | ResizeCheckClaim (c : ResizeClaim)
  | ResizeProcessLive
  | ResizeContextLive
  | ResizeSave (c : ResizeClaim) (phase : string) (state : Journal) (message : option error)
  | ResizePrepare (t : Target) (g : Guard) (next : Application) (plan : VolumeResize) (state : Journal)
  | ResizeRemoveHelper (t : Target) (g : Guard) (state : Journal)
  | ResizeResume (t : Target) (g : Guard) (plan : VolumeResize)
  | ResizeCheckVolume (t : Target) (g : Guard) (name uid : string) (allowMissing : bool)
  | ResizeDeploy (t : Target) (g : Guard)
  | ResizeObserve (t : Target) (g : Guard)
  | ResizeReleased (app : string) (revision : Z)
  | ResizeDelete (t : Target) (g : Guard) (names : list string)
  | ResizeCutover (c : ResizeClaim)
  | ResizeCutoverResult (c : ResizeClaim) (result_json : string) (message : option error)
  | ResizeReclaimed (c : ResizeClaim) (name phase : string).

(** The cluster writes into the journal whether it fails or not; a status is observed. *)
Definition ResizeAnswer (c : ResizeCall) : Type :=
  match c with
  | ResizeCheckClaim _ | ResizeResume _ _ _ | ResizeCheckVolume _ _ _ _ _ | ResizeDelete _ _ _ | ResizeCutover _ | ResizeReclaimed _ _ _ => result unit
  | ResizeProcessLive | ResizeContextLive => bool
  | ResizeSave _ _ _ _ => result ResizeClaim
  | ResizePrepare _ _ _ _ _ => (bool + RuntimeError) * Journal
  | ResizeRemoveHelper _ _ _ => result bool * Journal
  | ResizeDeploy _ _ => string * option RuntimeError
  | ResizeObserve _ _ => result string
  | ResizeReleased _ _ => result bool
  | ResizeCutoverResult _ _ _ => unit
  end.
Abbreviation ResizeProg := (Program ResizeAnswer unit).
Definition call (c : ResizeCall) : Program ResizeAnswer (ResizeAnswer c) := ask_for c.

(** * The worker *)

Section worker.
Context `{Host} `{ThirdParty} `{Quantity} `{RangeOrder} `{Digest}.
(** [json.Unmarshal] into a journal; whether the cluster of the worker can move volumes. *)
Context (decode : string → option Journal) (supported : bool).

Definition fail (c : ResizeClaim) (state : Journal) (err : error) : ResizeProg :=
  live ← call ResizeProcessLive;
  if negb live then Return tt else _ ← call (ResizeSave c c.(rc_Resize).(rz_Phase) state (Some err)); Return tt.

(** [if err = ...; err != nil { fail(err); return }] *)
Definition must (c : ResizeClaim) (state : Journal) (r : result unit) (p : ResizeProg) : ResizeProg :=
  match r with Err e => fail c state e | Ok _ => p end.

Definition resize_target (c : ResizeClaim) : Target :=
  mkTarget c.(rc_App).(a_Project) c.(rc_App).(a_Environment) c.(rc_App).(a_ID) c.(rc_Resize).(rz_ID) c.(rc_App).(a_Revision) c.(rc_Resize).(rz_SourceSpec) None [].

(** A copy that failed: its helper must be gone before the original services resume. *)
Definition abandon_copy (c : ResizeClaim) (t : Target) (plan : VolumeResize) (state : Journal) (e : error) : ResizeProg :=
  removed ← call (ResizeRemoveHelper t ByClaim state);
  let state := removed.2 in
  match removed.1 with
  | Ok true =>
      checked ← call (ResizeCheckVolume t ByClaim c.(rc_Resize).(rz_Claim) state.(j_SourceUID) false);
      must c state checked
        (resumed ← call (ResizeResume t ByClaim plan);
         fail c state (match resumed with Err err => Errorf "%v; original services could not resume: %w" [AErr e; AErr err] | Ok _ => e end))
  | _ => fail c state (Errorf "%v; copy helper must stop before original services can resume; retry or cancel maintenance" [AErr e])
  end.

(** The copy, in the phase copying. *)
Definition advance_copy (c : ResizeClaim) (t : Target) (plan : VolumeResize) (state : Journal) : ResizeProg :=
  prepared ← call (ResizePrepare t ByClaim c.(rc_Resize).(rz_TargetSpec) plan state);
  let state := prepared.2 in
  match prepared.1 with
  | inr e =>
      if e.(re_Conflict) then _ ← call (ResizeSave c c.(rc_Resize).(rz_Phase) state None); Return tt
      else if state.(j_Verified) then fail c state e.(re_Error)
      else
        live ← call ResizeContextLive;
        if live : bool then abandon_copy c t plan state e.(re_Error) else fail c state e.(re_Error)
  | inl ready =>
      saved ← call (ResizeSave c "copying" state None);
      match saved with
      | Err _ => Return tt
      | Ok c =>
          if negb ready then Return tt
          else
            checked ← call (ResizeCheckClaim c);
            must c state checked (cut ← call (ResizeCutover c); must c state cut (Return tt))
      end
  end.

(** The phases queued and copying. *)
Definition copy_volume (c : ResizeClaim) (t : Target) (plan : VolumeResize) (state : Journal) : ResizeProg :=
  if (c.(rc_Resize).(rz_Phase) =? "queued")%string then
    saved ← call (ResizeSave c "copying" state None);
    match saved with Err _ => Return tt | Ok c => advance_copy c t plan state end
  else advance_copy c t plan state.

Definition switch_volume (c : ResizeClaim) (t : Target) (state : Journal) : ResizeProg :=
  let r := c.(rc_Resize) in
  if negb state.(j_Verified) then fail c state (Errorf "verified copy is required before switching services" [])
  else
    checked ← call (ResizeCheckVolume t ByClaim r.(rz_TargetClaim) state.(j_TargetUID) false);
    must c state checked
      (let t := mkTarget t.(tg_Project) t.(tg_Environment) t.(tg_ApplicationID) t.(tg_OperationID) t.(tg_Revision) r.(rz_TargetSpec) (Some r.(rz_SourceSpec)) [] in
       deployed ← call (ResizeDeploy t (ByVolume r.(rz_TargetClaim) state.(j_TargetUID) false));
       match deployed.2 with
       | Some {| re_Conflict := true |} => Return tt
       | err =>
           live ← call ResizeProcessLive;
           if negb live then Return tt
           else call (ResizeCutoverResult c deployed.1 (re_Error <$> err))
       end).

(** What ends both ways of giving a volume back. *)
Definition delete_volume (c : ResizeClaim) (t : Target) (state : Journal) (name uid phase : string) : ResizeProg :=
  checked ← call (ResizeCheckVolume t ByClaim name uid true);
  must c state checked
    (deleted ← call (ResizeDelete t (ByVolume name uid true) [name]);
     must c state deleted
       (checked ← call (ResizeCheckClaim c);
        must c state checked (reclaimed ← call (ResizeReclaimed c name phase); must c state reclaimed (Return tt)))).

Definition cancel_copy (c : ResizeClaim) (t : Target) (plan : VolumeResize) (state : Journal) : ResizeProg :=
  let r := c.(rc_Resize) in
  checked ← call (ResizeCheckVolume t ByClaim r.(rz_Claim) state.(j_SourceUID) false);
  must c state checked
    (removed ← call (ResizeRemoveHelper t ByClaim state);
     let state := removed.2 in
     match removed.1 with
     | Err e => fail c state e
     | Ok false => _ ← call (ResizeSave c r.(rz_Phase) state None); Return tt
     | Ok true =>
         resumed ← call (ResizeResume t ByClaim plan);
         must c state resumed
           (observed ← call (ResizeObserve t ByClaim);
            match observed with
            | Err e => fail c state e
            | Ok status =>
                if negb (status =? "healthy")%string then Return tt
                else delete_volume c t state r.(rz_TargetClaim) state.(j_TargetUID) "cancelled"
            end)
     end).

Definition delete_original (c : ResizeClaim) (t : Target) (state : Journal) : ResizeProg :=
  let r := c.(rc_Resize) in
  if negb state.(j_Verified) then fail c state (Errorf "copy verification is missing; original remains retained" [])
  else
    released ← call (ResizeReleased c.(rc_App).(a_ID) c.(rc_App).(a_Revision));
    match released with
    | Err e => fail c state e
    | Ok false => fail c state (Errorf "wait for the current deployment to succeed before deleting the original" [])
    | Ok true =>
        let t := mkTarget t.(tg_Project) t.(tg_Environment) t.(tg_ApplicationID) t.(tg_OperationID) t.(tg_Revision) c.(rc_App).(a_Spec) None [] in
        observed ← call (ResizeObserve t ByClaim);
        match observed with
        | Err e => fail c state e
        | Ok status =>
            if negb (status =? "healthy")%string && negb (status =? "empty")%string
            then fail c state (Errorf "current services are not healthy; original remains retained" [])
            else delete_volume c t state r.(rz_Claim) state.(j_SourceUID) "completed"
        end
    end.

(** With the claim in hand. *)
Definition resizeVolume (c : ResizeClaim) : ResizeProg :=
  let r := c.(rc_Resize) in
  match decode r.(rz_Runtime) with
  | None => Return tt
  | Some state =>
      checked ← call (ResizeCheckClaim c);
      must c state checked
        (if negb supported then fail c state (Errorf "runtime does not support volume migration" [])
         else match ResizeVolume r.(rz_SourceSpec) r.(rz_Claim) r.(rz_SizeGiB) r.(rz_ID) with
         | Err e => fail c state e
         | Ok (_, plan) =>
             let t := resize_target c in
             let phase := r.(rz_Phase) in
             if one_of phase ["queued"; "copying"] then copy_volume c t plan state
             else if (phase =? "switching")%string then switch_volume c t state
             else if (phase =? "cancelling")%string then cancel_copy c t plan state
             else if (phase =? "deleting_original")%string then delete_original c t state
             else Return tt
         end)
  end.
End worker.

(** * The protocol *)

(** What a run knows of its resize: its claim and journal, and what the last calls told. *)
Record Progress : Type := mkProgress {
  pg_Claim : ResizeClaim;
  pg_State : Journal;
  pg_Checked : bool;
  pg_Ready : bool;
  pg_Gone : bool;
  pg_Resumed : bool;
  pg_Released : bool;
  pg_Status : option string;
  pg_Volume : option (string * string * bool);
  pg_Switched : bool;
  pg_Deleted : option string;
}.
Definition progress_of (c : ResizeClaim) (state : Journal) : Progress := mkProgress c state false false false false false None None false None.

Definition phase_of (p : Progress) : string := p.(pg_Claim).(rc_Resize).(rz_Phase).

(** The copy is deleted when the original services run again, the original when the
    release that uses the copy succeeded and its services are well. *)
Definition deletable (p : Progress) (name uid : string) : Prop :=
  let r := p.(pg_Claim).(rc_Resize) in
  phase_of p = "cancelling" ∧ name = r.(rz_TargetClaim) ∧ uid = p.(pg_State).(j_TargetUID) ∧ p.(pg_Gone) = true ∧ p.(pg_Resumed) = true ∧
    p.(pg_Status) = Some "healthy" ∨
  phase_of p = "deleting_original" ∧ name = r.(rz_Claim) ∧ uid = p.(pg_State).(j_SourceUID) ∧ p.(pg_State).(j_Verified) = true ∧ p.(pg_Released) = true ∧
    (p.(pg_Status) = Some "healthy" ∨ p.(pg_Status) = Some "empty").

Definition permitted (p : Progress) (c : ResizeCall) : Prop :=
  match c with
  | ResizeSave c phase state _ =>
      c = p.(pg_Claim) ∧ state = p.(pg_State) ∧ (phase = phase_of p ∨ phase_of p = "queued" ∧ phase = "copying")
  | ResizePrepare t _ next _ _ => phase_of p = "copying" ∧ next = p.(pg_Claim).(rc_Resize).(rz_TargetSpec)
  | ResizeDeploy t g =>
      let r := p.(pg_Claim).(rc_Resize) in
      phase_of p = "switching" ∧ p.(pg_State).(j_Verified) = true ∧ p.(pg_Volume) = Some (r.(rz_TargetClaim), p.(pg_State).(j_TargetUID), false) ∧
      g = ByVolume r.(rz_TargetClaim) p.(pg_State).(j_TargetUID) false ∧ t.(tg_Spec) = r.(rz_TargetSpec) ∧ t.(tg_Previous) = Some r.(rz_SourceSpec)
  | ResizeDelete t g names =>
      ∃ name uid, names = [name] ∧ g = ByVolume name uid true ∧ p.(pg_Volume) = Some (name, uid, true) ∧ deletable p name uid
  | ResizeCutover c => c = p.(pg_Claim) ∧ phase_of p = "copying" ∧ p.(pg_Ready) = true ∧ p.(pg_Checked) = true
  | ResizeCutoverResult c _ _ => c = p.(pg_Claim) ∧ phase_of p = "switching" ∧ p.(pg_Switched) = true
  | ResizeReclaimed c name phase =>
      c = p.(pg_Claim) ∧ p.(pg_Deleted) = Some name ∧ p.(pg_Checked) = true ∧
      (phase_of p = "cancelling" ∧ phase = "cancelled" ∨ phase_of p = "deleting_original" ∧ phase = "completed")
  | _ => True
  end.

(** An answer of a check lasts until the next call that changes something. *)
Definition told (p : Progress) (c : ResizeCall) : ResizeAnswer c → Progress :=
  let '(mkProgress claim state checked ready gone resumed released status volume switched deleted) := p in
  match c return ResizeAnswer c → Progress with
  | ResizeCheckClaim _ => λ r, mkProgress claim state (is_ok r) ready gone resumed released status volume switched deleted
  | ResizeSave _ _ _ _ => λ r, mkProgress (match r with Ok c => c | Err _ => claim end) state false ready gone resumed released status volume switched deleted
  | ResizePrepare _ _ _ _ _ => λ r, mkProgress claim r.2 false (match r.1 with inl b => b | inr _ => false end) gone resumed released status volume switched deleted
  | ResizeRemoveHelper _ _ _ => λ r, mkProgress claim r.2 false ready (match r.1 with Ok b => b | Err _ => false end) resumed released status None switched deleted
  | ResizeResume _ _ _ => λ r, mkProgress claim state false ready gone (is_ok r) released status None switched deleted
  | ResizeCheckVolume _ _ name uid missing => λ r,
      mkProgress claim state checked ready gone resumed released status (match r with Ok _ => Some (name, uid, missing) | Err _ => None end) switched deleted
  | ResizeDeploy _ _ => λ r, mkProgress claim state false ready gone resumed released status None true deleted
  | ResizeObserve _ _ => λ r, mkProgress claim state checked ready gone resumed released (match r with Ok s => Some s | Err _ => None end) volume switched deleted
  | ResizeReleased _ _ => λ r, mkProgress claim state checked ready gone resumed (match r with Ok b => b | Err _ => false end) status volume switched deleted
  | ResizeDelete _ _ names => λ r,
      mkProgress claim state false ready gone resumed released status None switched (match r, names with Ok _, [name] => Some name | _, _ => None end)
  | ResizeProcessLive | ResizeContextLive | ResizeCutover _ | ResizeCutoverResult _ _ _ | ResizeReclaimed _ _ _ => λ _, p
  end.

(** [Save] keeps the claim up to what it wrote. *)
Definition saved (c c' : ResizeClaim) (phase : string) : Prop :=
  c'.(rc_App) = c.(rc_App) ∧ c'.(rc_Resize).(rz_Phase) = phase ∧ c'.(rc_Resize).(rz_Claim) = c.(rc_Resize).(rz_Claim) ∧
  c'.(rc_Resize).(rz_TargetClaim) = c.(rc_Resize).(rz_TargetClaim) ∧ c'.(rc_Resize).(rz_SourceSpec) = c.(rc_Resize).(rz_SourceSpec) ∧
  c'.(rc_Resize).(rz_TargetSpec) = c.(rc_Resize).(rz_TargetSpec).
Definition credible (c : ResizeCall) : ResizeAnswer c → Prop :=
  match c return ResizeAnswer c → Prop with
  | ResizeSave c phase _ _ => λ r, match r with Ok c' => saved c c' phase | Err _ => True end
  | _ => λ _, True
  end.
Definition resize_protocol : Protocol ResizeAnswer Progress := mkProtocol permitted told credible.
Definition keeps (p : Progress) (prog : ResizeProg) : Prop := obeys resize_protocol p prog (λ _ _, True).

Section resize.
Context `{Host} `{ThirdParty} `{Quantity} `{RangeOrder} `{Digest} (decode : string → option Journal) (supported : bool).

Lemma keeps_call c (f : ResizeAnswer c → ResizeProg) p : permitted p c → (∀ a, credible c a → keeps (told p c a) (f a)) → keeps p (call c ≫= f).
Proof. apply (obeys_ask_bind resize_protocol). Qed.

Lemma keeps_fail p c state e : p.(pg_Claim) = c → p.(pg_State) = state → keeps p (fail c state e).
Proof.
  intros <- <-. unfold fail. apply keeps_call; [done|]. intros [] _; [|done]. apply keeps_call; [|done]. destruct p. by split_and!; [..|left].
Qed.

Lemma keeps_must p c state r prog : p.(pg_Claim) = c → p.(pg_State) = state → (is_ok r = true → keeps p prog) → keeps p (must c state r prog).
Proof. intros Hc Hs Hk. destruct r as [[]|e]; [by apply Hk|by apply keeps_fail]. Qed.

Lemma delete_volume_keeps p c t state name uid phase : p.(pg_Claim) = c → p.(pg_State) = state → deletable p name uid →
  (phase_of p = "cancelling" → phase = "cancelled") → (phase_of p = "deleting_original" → phase = "completed") →
  keeps p (delete_volume c t state name uid phase).
Proof.
  destruct p as [claim st checked ready gone resumed released status volume switched deleted]. intros <- <- Hdel Hp1 Hp2. unfold delete_volume.
  apply keeps_call; [done|]. intros r _. apply keeps_must; [done..|]. intros Hok. destruct r as [[]|]; [|done].
  apply keeps_call; [by exists name, uid|]. intros r _. apply keeps_must; [done..|]. intros Hok'. destruct r as [[]|]; [|done].
  apply keeps_call; [done|]. intros r _. apply keeps_must; [done..|]. intros Hok''. destruct r as [[]|]; [|done].
  apply keeps_call; [|intros r _; by apply keeps_must].
  split_and!; [done..|]. destruct Hdel as [(Hph & _)|(Hph & _)]; [left|right]; split; [done|by apply Hp1|done|by apply Hp2].
Qed.

Lemma delete_original_keeps c t state : c.(rc_Resize).(rz_Phase) = "deleting_original" → ∀ p, p.(pg_Claim) = c → p.(pg_State) = state → keeps p (delete_original c t state).
Proof.
  intros Hph [claim st checked ready gone resumed released status volume switched deleted] <- <-. unfold delete_original. cbn [pg_Claim pg_State] in *.
  destruct (j_Verified st) eqn:Hv; cbn [negb]; [|by apply keeps_fail]. apply keeps_call; [done|]. intros [[]|e] _; [|by apply keeps_fail..].
  apply keeps_call; [done|]. intros [s|e] _; [|by apply keeps_fail]. destruct (negb _ && _) eqn:Hs; [by apply keeps_fail|].
  apply delete_volume_keeps; [done..| |unfold phase_of; cbn; congruence|done]. right. split_and!; [done..|].
  apply andb_false_iff in Hs. rewrite !negb_false_iff, !String.eqb_eq in Hs. cbn. destruct Hs as [->| ->]; [by left|by right].
Qed.

Lemma cancel_copy_keeps c t plan state : c.(rc_Resize).(rz_Phase) = "cancelling" → ∀ p, p.(pg_Claim) = c → p.(pg_State) = state → keeps p (cancel_copy c t plan state).
Proof.
  intros Hph [claim st checked ready gone resumed released status volume switched deleted] <- <-. unfold cancel_copy. cbn [pg_Claim pg_State] in *.
  apply keeps_call; [done|]. intros r _. apply keeps_must; [done..|]. intros _. apply keeps_call; [done|]. intros [[[]|e] st'] _; cbn [fst snd].
  - apply keeps_call; [done|]. intros r' _. apply keeps_must; [done..|]. intros Hok. apply keeps_call; [done|]. intros [s|e] _; [|by apply keeps_fail].
    destruct (s =? "healthy")%string eqn:Hs; cbn [negb]; [|done]. apply String.eqb_eq in Hs as ->.
    apply delete_volume_keeps; [done..| |done|unfold phase_of; cbn; congruence]. left. by split_and!.
  - apply keeps_call; [|done]. by split_and!; [..|left].
  - by apply keeps_fail.
Qed.

Lemma switch_volume_keeps c t state : c.(rc_Resize).(rz_Phase) = "switching" → ∀ p, p.(pg_Claim) = c → p.(pg_State) = state → keeps p (switch_volume c t state).
Proof.
  intros Hph [claim st checked ready gone resumed released status volume switched deleted] <- <-. unfold switch_volume. cbn [pg_Claim pg_State] in *.
  destruct (j_Verified st) eqn:Hv; cbn [negb]; [|by apply keeps_fail]. apply keeps_call; [done|]. intros r _. apply keeps_must; [done..|]. intros Hok.
  destruct r as [[]|]; [|done]. apply keeps_call; [by split_and!|]. intros [result [[e []]|]] _; cbn [fst snd]; [done|..];
    (apply keeps_call; [done|]; intros [] _; [|done]; cbn [negb]; apply (obeys_ask resize_protocol); [by split_and!|done]).
Qed.

Lemma abandon_copy_keeps c t plan state e p : p.(pg_Claim) = c → p.(pg_State) = state → keeps p (abandon_copy c t plan state e).
Proof.
  destruct p as [claim st checked ready gone resumed released status volume switched deleted]. intros <- <-. unfold abandon_copy.
  apply keeps_call; [done|]. intros [[[]|err] st'] _; cbn [fst snd]; [|by apply keeps_fail..].
  apply keeps_call; [done|]. intros r _. apply keeps_must; [done..|]. intros _. apply keeps_call; [done|]. intros r' _. by apply keeps_fail.
Qed.

Lemma advance_copy_keeps c t plan state p : p.(pg_Claim) = c → p.(pg_State) = state → phase_of p = "copying" → keeps p (advance_copy c t plan state).
Proof.
  destruct p as [claim st checked ready gone resumed released status volume switched deleted]. intros <- <- Hc. unfold advance_copy.
  apply keeps_call; [done|]. intros [[ready'|e] st'] _; cbn [fst snd].
  - apply keeps_call; [split_and!; [done..|by left]|]. intros [c'|e] Hs; [|done]. destruct ready'; [|done]. cbn [negb].
    destruct Hs as (_ & Hph' & _). apply keeps_call; [done|]. intros r _. apply keeps_must; [done..|]. intros Hok.
    apply keeps_call; [by split_and!|]. intros r' _. by apply keeps_must.
  - destruct (re_Conflict e); [apply keeps_call; [split_and!; [done..|by left]|done]|]. destruct (j_Verified st'); [by apply keeps_fail|].
    apply keeps_call; [done|]. intros [] _; [by apply abandon_copy_keeps|by apply keeps_fail].
Qed.

Lemma copy_volume_keeps c t plan state p : p.(pg_Claim) = c → p.(pg_State) = state → one_of c.(rc_Resize).(rz_Phase) ["queued"; "copying"] = true →
  keeps p (copy_volume c t plan state).
Proof.
  destruct p as [claim st checked ready gone resumed released status volume switched deleted]. intros <- <- Hph. unfold copy_volume. cbn [pg_Claim pg_State] in *.
  destruct (_ =? "queued")%string eqn:Hq.
  - apply String.eqb_eq in Hq. apply keeps_call; [split_and!; [done..|by right]|]. intros [c'|e] Hs; [|done]. apply advance_copy_keeps; [done..|].
    by destruct Hs as (_ & Hs & _).
  - apply advance_copy_keeps; [done..|]. unfold one_of in Hph. cbn [existsb] in Hph. rewrite Hq in Hph. cbn [orb] in Hph.
    apply orb_true_iff in Hph as [Hph|]; [|done]. by apply String.eqb_eq in Hph.
Qed.

(** C12: A run that resizes a volume keeps the protocol, whatever its calls are answered: the copy
    is deleted only after the original services were resumed and seen healthy, and the
    original only after the copy was verified, the release that uses it succeeded and its
    services were seen well, each with the identity that was just checked and is checked
    again before every step; the services switch to the copy only with a verified journal;
    and the methods of the claim are called in the phases they are for. *)
Theorem resize_keeps c : match decode c.(rc_Resize).(rz_Runtime) with
  | Some state => keeps (progress_of c state) (resizeVolume decode supported c)
  | None => resizeVolume decode supported c = Return tt
  end.
Proof.
  unfold resizeVolume. destruct (decode _) as [state|]; [|done]. apply keeps_call; [done|]. intros r _. apply keeps_must; [done..|]. intros _.
  destruct supported; cbn [negb]; [|by apply keeps_fail]. destruct (ResizeVolume _ _ _ _) as [[next plan]|e]; [|by apply keeps_fail].
  destruct (one_of _ _) eqn:Hc; [by apply copy_volume_keeps|]. destruct (_ =? "switching")%string eqn:Hs; [apply String.eqb_eq in Hs; by apply switch_volume_keeps|].
  destruct (_ =? "cancelling")%string eqn:Hx; [apply String.eqb_eq in Hx; by apply cancel_copy_keeps|].
  destruct (_ =? "deleting_original")%string eqn:Ho; [apply String.eqb_eq in Ho; by apply delete_original_keeps|done].
Qed.
End resize.
